(* ===== verification/_CoqProject ===== *)
-Q . S2P
Prelude.v
Kernel.v
KernelPricing.v
KernelRank.v
KernelProps.v
KernelExplain.v
KernelPolicy.v
Bytes.v
Text.v
Crypto.v
Digest.v
Verify.v
Ffi.v
FfiProps.v
State.v
Receipt.v
ReceiptProps.v
Certificate.v
Budget.v
BudgetInv.v
BudgetSpec.v
BudgetProps.v
BudgetConc.v
BudgetConcInv.v
BudgetConcSteps.v
BudgetConcOps.v
BudgetConcRun.v
BudgetConcLive.v
BudgetConcProps.v
Finance.v
Merkle.v
MerkleTrees.v
MerkleLoops.v
MerkleProps.v
MerkleCache.v
Checkpoint.v
CheckpointProps.v
Witness.v
WitnessProps.v
Auditing.v
AuditProps.v
Hybrid.v
Builder.v
Counterfactual.v
CounterfactualProps.v
Outcome.v
Exploration.v
ExplorationProps.v
Ope.v
Wal.v
WalTheory.v
WalLog.v
WalSample.v
WalProps.v
WalTree.v
AsyncWal.v
WalLocks.v
WalLocksProps.v
Persistence.v
PersistenceProps.v
Recovery.v
Ots.v
OtsCanonical.v
OtsProps.v
OtsEvidence.v
Tsa.v
TsaProps.v
Cli.v
CliProps.v
Trust.v
TrustVerify.v
TrustFiles.v
TrustSample.v
AuditCli.v
AuditCliProps.v
Python.v
PyProduction.v
PyHeap.v
PyBudget.v
PyWal.v
