(* ===== verification/Prelude.v ===== *)
(** * Calybris Core: a verification library

    Calybris Core is a decision engine. A kernel picks, for each request, one
    candidate of a policy's catalog or none; a budget engine holds and settles
    money; decisions are digested, replayed, logged in a hash-chained
    write-ahead log and published through Merkle trees; further modules ask
    what would have changed a decision, explore near-best candidates with a
    logged probability, bind outcomes to decisions and estimate other policies
    from logged ones. Certificates and receipts make decisions checkable
    elsewhere, checkpoints and witnesses make the log public, auditors follow
    it, proofs and tokens date it, and the durable engine survives crashes. A
    command-line program runs all of this on files, and bindings offer it to C
    and to Python. This library translates
    those parts of the Rust sources (under [src/src/], [src/calybris-ffi/] and
    [src/bindings/python/] of the repository) into
    executable definitions and proves what makes them correct.

    ** Conventions

    A machine integer is a [Z] with its width written out: [wrap_u], [wrap_i]
    for wrapping arithmetic (the release profile), [checked_u], [checked_i],
    [saturate_u], [saturate_i] for the checked and saturating operations.
    [Result] is [result] with [?] as its bind. A [HashMap] is a [gmap], a
    [Vec] a [list]; a method that mutates takes and returns the state. Bytes
    are [list Z], strings [string]. Code of other crates is an interface:
    [HashFunctions] (SHA-256 and HMAC-SHA256) of [Bytes], [JsonReader] and
    [WalJson] (serde_json) of [Wal], [EntryReader] of [WalTree], [StateJson] of
    [Witness], [ArtifactReader] of [AuditCli], [Base64] and [Ed25519] of
    [Crypto], [MlDsa] of [Hybrid], [Ripemd] of [Ots], [Asn1] and [TsaCrypto] of
    [Tsa], [PySerde] and [Serde] of [PyProduction], each with a concrete instance
    that the witnesses compute with. [f64] is the Standard Library's
    [spec_float] at binary64. Hash theorems that need it assume that the hash
    has no collision among the messages named in the statement, never that it
    is injective.

    A command of the program is a function on a [World]: the files by path, the
    outcomes of the system calls to come (each may fail, a write after some
    bytes), the random bytes and the clock to come, and what was printed. Paths
    name distinct regular files. The commands are those of a Unix build with
    the preview-tsa feature. What is printed on standard output keeps its
    wording where it is a report; errors and progress messages keep what they
    are rendered from.

    ** Files

    [Prelude]: results, machine integers, iterators, sorting, automation.

    [Kernel] ([kernel.rs]): models, requests, policies and their construction
    and validation, the two pricing paths, gates, the ranking loop of
    [prescribe_inner], decisions, traces, batches, [explain],
    [utility_for_model]. [KernelPricing] shows both pricing paths equal to the
    exact formula; [KernelRank] analyses the loop and states the abstract
    specification of a decision; [KernelProps] has the main theorems
    (specification, hard limits, independence from catalog order);
    [KernelExplain] explanations, counters and stand-alone utilities;
    [KernelPolicy] the constructors.

    [Bytes], [Digest] ([digest.rs]) and [Verify] ([verify.rs]): byte layouts,
    hexadecimal text, the canonical digests and what they bind, replay and audit
    bundles.

    [Ffi], [FfiProps] ([calybris-ffi/src/lib.rs]): the C entry points on a memory
    of typed cells, where a misused pointer is undefined behaviour.

    [Budget] ([budget.rs]): the engine's maps and counters and every operation
    on them. [BudgetInv] has the conservation invariant, snapshot validation and
    restore, [BudgetSpec] the abstract ledger (grants, spend and open holds with
    unbounded integers) and the step-by-step refinement, [BudgetProps] the
    theorems about whole histories.

    [BudgetConc] (the same operations of [budget.rs] as threads run them): shared
    cells, the checkpoint gate, one step per lock, map access and atomic access,
    any number of threads and any interleaving the locks allow; and the abstract
    book, whose events are atomic. [BudgetConcInv] states the invariant as
    debts of the threads to the book, [BudgetConcSteps] and [BudgetConcOps] keep
    it through the steps of each operation, [BudgetConcRun] through runs,
    [BudgetConcLive] counts the steps a call has left, and [BudgetConcProps] has
    the theorems.

    [Merkle] ([merkle.rs]): RFC 9162 heads, proofs and verifiers as the loops of
    the code, the cached tree and the bulk prover. [MerkleTrees] has the
    recursive structure, [MerkleLoops] relates the bit-twiddling loops to it,
    [MerkleProps] completeness and soundness, [MerkleCache] the cached tree.

    [Counterfactual] ([counterfactual.rs]) and [CounterfactualProps]: the two
    binary searches and the exactness of the boundaries they report.

    [Outcome] ([outcome.rs]): outcome records, their validation and digest.
    [Exploration] ([exploration.rs], and [Propensity] of [ope.rs]) and
    [ExplorationProps]: rejection sampling, logged propensities, the window.

    [Wal] ([wal.rs], [bounded_io.rs]): the log file as bytes, the writer with
    failing writes and poisoning, chain validation, verified reading, anchors,
    audited records and their replay. [WalTheory] has the line loop and the text
    of entries, [WalLog] the writer's invariant and what a head hash binds,
    [WalSample] a concrete encoding, [WalProps] the theorems. [WalLocks] ([wal.rs]
    and [async_wal.rs]: lock names, the lock directory, taking the lock) is a
    machine of processes that share files, names and locks, and in which what an
    asynchronous writer was given reaches the file later, also after its process
    dropped it; [WalLocksProps] has its invariant and the theorem.

    [Text], [Crypto]: texts as Unicode characters, Base64 and Ed25519 interfaces.
    [Finance] ([finance.rs]), [State] ([state.rs]), [Receipt] and
    [ReceiptProps] ([receipt.rs]), [Certificate] (its modules [Provenance],
    [Certificates] and [Envelope] are [provenance.rs], [certificate.rs] and
    [proof.rs]): the records that travel with a decision and their verifiers.

    [Checkpoint], [CheckpointProps] ([checkpoint.rs]) and [Witness],
    [WitnessProps] ([witness.rs]): signed checkpoints, cosignatures, and the
    witness with its two stores.

    [AsyncWal] ([async_wal.rs]): the second implementation of the log, over a file
    as tokio documents it: a write is accepted into a buffer and written in the
    background, and a write that failed shows at a later operation.
    [Persistence], [PersistenceProps] and [Recovery] ([persistence.rs]): files
    replaced atomically, every system call of a save able to fail or stop;
    checkpoints of engine and log together; recovery plans.

    [Auditing], [AuditProps] ([audit.rs]): witness quorums, split views, time
    evidence, key revocation, the auditor that follows a log.
    [Hybrid] ([hybrid.rs]): signatures of two schemes and signed batches.
    [Builder] ([builder.rs], [config.rs]): builders and engine configuration.
    [Ope] ([ope.rs]): the off-policy estimators and their theory.
    [WalTree] ([MerkleTree::from_verified_wal] of [merkle.rs]): the tree of a log.

    [Tsa], [TsaProps] ([tsa.rs]): RFC 3161 requests, tokens and pinned
    certificates.

    [Cli] and [CliProps]: what the commands share, effects, flags, texts, dates.
    [Trust] ([bin/calybris_verify/trust.rs]): the commands on checkpoints and
    witnesses; [TrustVerify] shows what exit code 0 of [verify] stands for,
    [TrustFiles] what key generation and appending do to files, [TrustSample]
    runs a session from key generation to a full verification.
    [AuditCli] ([bin/calybris_verify.rs]): [chain], [audit], [policy] and the
    entry point; [AuditCliProps] characterises the exit code, with a small
    program logic for commands that only read, and runs an audit.

    [Ots] ([ots.rs]): OpenTimestamps proofs. [OtsCanonical] has the reader and
    the writer, [OtsProps] sizes, proof of work and what merging records,
    [OtsEvidence] the theorems.

    [Python] ([bindings/python/src/lib.rs]): the classes of the Python module,
    their attributes, methods and conversions to dicts, and the exceptions they
    raise. [PyProduction] ([bindings/python/src/production.rs]): receipts,
    signed policies, state chains, the audited log, checkpoints and recovery.
    [PyHeap] runs programs on objects that share and assign, [PyBudget] on an
    engine with its files, [PyWal] on a log, a state chain and receipts.

    ** What the theorems show

    Kernel: the decision is the optimum of an exact specification, or a refusal
    exactly when nothing is admissible; nothing wraps; the listing order does
    not matter; explanations, traces and stand-alone utilities agree with it.
    Budget: the engine refines an abstract ledger over any history; money is
    conserved; a settlement is final; refusals change nothing; snapshots
    round-trip and restore accepts exactly the well-formed ones. Concurrent calls
    that succeed are the events of one atomic book, each taking effect while its
    call runs (a refusal may be due to a call that is refused in turn), a
    snapshot is a view of the book, every call returns, and a call alone is the
    sequential function. Merkle:
    inclusion and consistency proofs are complete, and sound up to collisions;
    the cache agrees with the definition. Log: the file determines the writer
    and the acknowledged entries; torn writes are refused; an anchor binds the
    history before it; verified logs replay; what the asynchronous writer was
    acknowledged is the log the synchronous one would have written, once it is
    flushed; across processes that flush before they let go, a log has one writer,
    and its file with what is still to be written is what all of them together
    were acknowledged.
    Durable engine: a checkpoint that stops anywhere leaves the previous or the
    new generation, whole; recovery replays exactly what followed the
    checkpoint. Witness: the heads it cosigns are one append-only history, and an
    honest log is cosigned when its store answers.
    Digests, bundles, outcomes, receipts, certificates, checkpoints: what is
    hashed determines the record, honest records verify, and validators accept
    exactly the records they should. Counterfactuals: every reported boundary
    is exact. Exploration: sampling is unbiased, the logged propensity is the
    number of draws that act alike, and exploration stays in the window.
    OpenTimestamps: reading is bounded and terminates; files round-trip; a
    verified proof is a chain of hashes from the digest to the block. Audit: two
    checkpoints with overlapping quorums are one history unless a witness
    broke its promise, which the witness of [Witness] does not; records proved
    once stay provable; a key's status follows from the evidence. Tokens: an
    accepted token was signed over this digest by a pinned certificate that may
    only stamp, and one signature speaks for one digest and one time. Commands:
    exit code 0 of [checkpoint verify] means that everything required and given
    is established from the files; the auditor's exit code is 0 exactly when
    the log, its records, policies and anchor are sound; a log written honestly
    passes; key generation leaves both keys or neither; no cosignature appended
    to a note is lost, however the steps of those who append interleave under the
    note's lock and whatever fails; printed dates
    are the Gregorian calendar's. C binding: a call within its documented
    contract is defined, does what the header says and changes nothing else;
    decisions cross the boundary without loss. Python: a decision object is a
    decision of the kernel under a trusted policy, whatever the program assigns;
    the books it is shown balance; a whole session from decision to signed
    receipt verifies, also after a trip through JSON; the anchors' guards are
    exact; the package's own readers take each dict back to the engine's answer.

    ** Fuel

    [root_of_fuel], [path_fuel], [subproof_fuel], [all_go] and the cached tree's
    recursions take the length of the list (or the size) as fuel, which every
    split reduces; [MerkleTrees] proves that more fuel changes nothing.
    [strip_ones] and [strip_zeros] take 64, the width of the indices. The binary
    searches take 64 steps, enough for any [u64] interval, and are proved to
    find the edge. [while_lines] takes the length of the file: every iteration
    consumes a byte. [decimal] takes 20 digits, enough for [u64], and
    [write_varuint] ten groups of seven bits. [read_loop] takes one round per
    remaining byte, and its result is proved not to depend on more. [uniform]
    takes the number of redraws as fuel, since the code's loop is bounded only
    in probability: the theorem says that enough fuel for the first accepted
    word gives its residue.

    ** Not modelled

    The atomics of the budget engine are sequentially consistent here, while the
    code orders them more weakly, and a panic that poisons a lock is left out.
    Operating-system effects appear as outcomes only: a system call that
    succeeds, fails or never returns. Advisory locks are those of [WalLocks] for
    a log and of [TrustFiles] for a note, on lock files that nothing removes;
    elsewhere a lock is taken or not. Futures of the asynchronous log run to their
    end: one dropped at an await is left out. tokio's files and the steps of its
    background writes are modelled from its documentation.
    Serialization formats other than the log's own lines and the binary proofs
    are serde's, ASN.1 is the der crate's. A read that fails half way is a failed
    open. Of the program and of the log's lock directory, the
    branches for Windows are left out, and of the program those for a build
    without preview-tsa. Of the Python binding, PyO3's conversion of arguments,
    reference counting and the interpreter lock are not modelled, nor the
    [__repr__] of a signed policy, which prints with Rust's debug escapes.
    [instrument.rs], [sync.rs] and [lib.rs] hold timers, re-exports and module
    declarations; [kani_proofs.rs] holds another tool's harnesses. *)

From Stdlib Require Export ZArith Lia.
From stdpp Require Export base list gmap strings sorting numbers.

#[global] Open Scope Z_scope.

Declare Scope calybris_scope.
Delimit Scope calybris_scope with caly.

(** ** Fallible code: Rust's [Result] with the [?] operator as a bind. *)

Inductive result (E A : Type) : Type :=
| Ok (a : A)
| Err (e : E).
Arguments Ok {E A} a.
Arguments Err {E A} e.

#[export] Instance result_eq_dec {E A} `{EqDecision E} `{EqDecision A} :
  EqDecision (result E A).
Proof. solve_decision. Defined.

#[export] Instance result_ret {E} : MRet (result E) := fun A a => Ok a.
#[export] Instance result_bind {E} : MBind (result E) := fun A B f m =>
  match m with Ok a => f a | Err e => Err e end.

(** [guard b e]: the early return [if b { return Err(e) }]. *)
Definition refuse_if {E} (b : bool) (e : E) : result E unit :=
  if b then Err e else Ok tt.

(** [map_err]: convert the error of a sub-computation. *)
Definition map_err {E F A} (f : E -> F) (m : result E A) : result F A :=
  match m with Ok a => Ok a | Err e => Err (f e) end.

Definition is_ok {E A} (m : result E A) : bool :=
  match m with Ok _ => true | Err _ => false end.

(** [ok_or]: an absent value is an error. *)
Definition ok_or {E A} (o : option A) (e : E) : result E A :=
  match o with Some a => Ok a | None => Err e end.

(** Iterator [try_for_each]: stop at the first error. *)
Fixpoint try_for_each {E A} (f : A -> result E unit) (l : list A) : result E unit :=
  match l with
  | [] => Ok tt
  | x :: l' => match f x with Ok _ => try_for_each f l' | Err e => Err e end
  end.

(** ** Machine integers

    Every Rust integer is a [Z] inside the range of its type; the operations
    below are the standard library's, at width [w]. *)

Definition umax (w : Z) : Z := 2 ^ w - 1.
Definition imax (w : Z) : Z := 2 ^ (w - 1) - 1.
Definition imin (w : Z) : Z := - 2 ^ (w - 1).

Definition is_u (w z : Z) : Prop := 0 <= z <= umax w.
Definition is_i (w z : Z) : Prop := imin w <= z <= imax w.

#[export] Instance is_u_dec w z : Decision (is_u w z).
Proof. unfold is_u. apply _. Defined.
#[export] Instance is_i_dec w z : Decision (is_i w z).
Proof. unfold is_i. apply _. Defined.

(** Wrap-around into the unsigned and the two's complement range. *)
Definition wrap_u (w z : Z) : Z := z mod 2 ^ w.
Definition wrap_i (w z : Z) : Z := (z + 2 ^ (w - 1)) mod 2 ^ w - 2 ^ (w - 1).

Definition in_u (w z : Z) : bool := (0 <=? z) && (z <=? umax w).
Definition in_i (w z : Z) : bool := (imin w <=? z) && (z <=? imax w).

(** [checked_*], [wrapping_*], [saturating_*] and [try_from]. *)
Definition checked_u (w z : Z) : option Z := if in_u w z then Some z else None.
Definition checked_i (w z : Z) : option Z := if in_i w z then Some z else None.
Definition saturate_u (w z : Z) : Z := Z.max 0 (Z.min (umax w) z).
Definition saturate_i (w z : Z) : Z := Z.max (imin w) (Z.min (imax w) z).

(** Fixed-width arithmetic as the release profile compiles it: [+], [-] and
    [*] wrap, [/] truncates. *)
Definition add_u (w a b : Z) : Z := wrap_u w (a + b).
Definition mul_i (w a b : Z) : Z := wrap_i w (a * b).
Definition sub_i (w a b : Z) : Z := wrap_i w (a - b).
Definition add_i (w a b : Z) : Z := wrap_i w (a + b).

(** ** Iterators *)

(** [iter().enumerate()] with [u16::try_from(index).unwrap_or(u16::MAX)] left
    to the caller. *)
Definition enumerate {A} (l : list A) : list (Z * A) :=
  imap (fun i x => (Z.of_nat i, x)) l.

(** [iter().max().unwrap_or_default()] on unsigned integers. *)
Definition max_or_default (l : list Z) : Z :=
  match l with [] => 0 | x :: l' => fold_left Z.max l' x end.

(** [max_by_key]: the last of the maximal elements. *)
Definition max_by_key {A} (key : A -> Z) (l : list A) : option A :=
  fold_left
    (fun acc x =>
       match acc with
       | None => Some x
       | Some y => if key y <=? key x then Some x else Some y
       end) l None.

(** [iter().position]. *)
Fixpoint position {A} (f : A -> bool) (l : list A) : option nat :=
  match l with
  | [] => None
  | x :: l' => if f x then Some 0%nat else option_map S (position f l')
  end.

(** [sort_by_key]: a stable sort by an integer key. *)
Fixpoint insert_by_key {A} (key : A -> Z) (x : A) (l : list A) : list A :=
  match l with
  | [] => [x]
  | y :: l' => if key x <=? key y then x :: y :: l' else y :: insert_by_key key x l'
  end.
Definition sort_by_key {A} (key : A -> Z) (l : list A) : list A :=
  foldr (insert_by_key key) [] l.

(** ** Automation *)

(** Turn boolean tests into propositions, in the goal and the context. *)
Ltac propify :=
  repeat match goal with
  | H : context [Z.eqb _ _ = true] |- _ => rewrite Z.eqb_eq in H
  | H : context [Z.eqb _ _ = false] |- _ => rewrite Z.eqb_neq in H
  | H : context [Z.ltb _ _ = true] |- _ => rewrite Z.ltb_lt in H
  | H : context [Z.ltb _ _ = false] |- _ => rewrite Z.ltb_ge in H
  | H : context [Z.leb _ _ = true] |- _ => rewrite Z.leb_le in H
  | H : context [Z.leb _ _ = false] |- _ => rewrite Z.leb_gt in H
  | H : context [andb _ _ = true] |- _ => rewrite andb_true_iff in H
  | H : context [andb _ _ = false] |- _ => rewrite andb_false_iff in H
  | H : context [orb _ _ = true] |- _ => rewrite orb_true_iff in H
  | H : context [orb _ _ = false] |- _ => rewrite orb_false_iff in H
  | H : context [negb _ = true] |- _ => rewrite negb_true_iff in H
  | H : context [negb _ = false] |- _ => rewrite negb_false_iff in H
  end.

(** Case on the scrutinee of a match, innermost first. *)
Ltac case_on_match :=
  match goal with
  | |- context [match ?e with _ => _ end] =>
      lazymatch e with
      | context [match _ with _ => _ end] => fail
      | _ => let E := fresh "E" in destruct e eqn:E
      end
  end.

Ltac case_on_match_in H :=
  match type of H with
  | context [match ?e with _ => _ end] =>
      lazymatch e with
      | context [match _ with _ => _ end] => fail
      | _ => let E := fresh "E" in destruct e eqn:E
      end
  end.

(** Unfold the integer vocabulary and close a linear goal. *)
Ltac unfold_ints :=
  unfold is_u, is_i, in_u, in_i, umax, imax, imin in *.
Ltac int_lia := unfold_ints; lia.

(** Close a goal on concrete data: a decidable proposition or an equation. *)
Ltac by_compute :=
  first [ apply (bool_decide_unpack _); vm_compute; exact I | vm_compute; reflexivity ].

Create HintDb caly.

(** ** Lemmas on results *)

Lemma bind_Ok {E A B} (m : result E A) (f : A -> result E B) b :
  m ≫= f = Ok b <-> exists a, m = Ok a /\ f a = Ok b.
Proof. destruct m as [a|e]; cbn; naive_solver. Qed.

Lemma refuse_if_Ok {E} (b : bool) (e : E) u : refuse_if b e = Ok u <-> b = false.
Proof. destruct b, u; cbn; naive_solver. Qed.

Lemma ok_or_Ok {E A} (o : option A) (e : E) a : ok_or o e = Ok a <-> o = Some a.
Proof. destruct o; cbn; naive_solver. Qed.

Lemma map_err_Ok {E F A} (f : E -> F) (m : result E A) a : map_err f m = Ok a <-> m = Ok a.
Proof. destruct m; cbn; naive_solver. Qed.

Lemma Ok_inj {E A} (a b : A) : @Ok E A a = Ok b -> a = b.
Proof. by intros [= ->]. Qed.

(** What a successful run went through: one hypothesis per [?] and guard. *)
Ltac open_results :=
  repeat match goal with
  | H : _ ≫= _ = Ok _ |- _ =>
      let x := fresh "x" in let E := fresh "Hr" in
      apply bind_Ok in H as (x & E & H);
      repeat match type of x with
      | (_ * _)%type => let y := fresh "y" in destruct x as [x y]
      | unit => destruct x
      end; cbn beta iota in H
  | H : refuse_if _ _ = Ok _ |- _ => apply refuse_if_Ok in H
  | H : ok_or _ _ = Ok _ |- _ => apply ok_or_Ok in H
  | H : map_err _ _ = Ok _ |- _ => apply map_err_Ok in H
  | H : Ok _ = Ok _ |- _ =>
      apply Ok_inj in H;
      repeat match type of H with (_, _) = (_, _) => let E := fresh "E" in apply pair_equal_spec in H as [E H] end;
      subst
  | H : negb _ = false |- _ => apply negb_false_iff in H
  | H : bool_decide _ = true |- _ => apply bool_decide_eq_true in H
  | H : bool_decide _ = false |- _ => apply bool_decide_eq_false in H
  | H : Err _ = Ok _ |- _ => discriminate H
  end.

(** ** Lemmas on machine integers *)

Lemma wrap_u_small w z : 0 <= w -> is_u w z -> wrap_u w z = z.
Proof. intros Hw ?. unfold wrap_u. apply Z.mod_small. int_lia. Qed.

Lemma wrap_i_small w z : 1 <= w -> is_i w z -> wrap_i w z = z.
Proof.
  intros Hw [H1 H2]. unfold wrap_i, imin, imax in *.
  assert (2 ^ w = 2 * 2 ^ (w - 1)) as E.
  { rewrite <- Z.pow_succ_r by lia. f_equal. lia. }
  rewrite Z.mod_small; lia.
Qed.

Lemma in_u_spec w z : in_u w z = true <-> is_u w z.
Proof. unfold in_u, is_u. rewrite andb_true_iff, !Z.leb_le. done. Qed.

Lemma in_i_spec w z : in_i w z = true <-> is_i w z.
Proof. unfold in_i, is_i. rewrite andb_true_iff, !Z.leb_le. done. Qed.

Lemma checked_u_Some w z r : checked_u w z = Some r <-> r = z /\ is_u w z.
Proof.
  unfold checked_u. destruct (in_u w z) eqn:E.
  - apply in_u_spec in E. split; [by intros [= <-]|by intros [-> _]].
  - split; [done|]. intros [_ H]. apply in_u_spec in H. congruence.
Qed.

Lemma checked_i_Some w z r : checked_i w z = Some r <-> r = z /\ is_i w z.
Proof.
  unfold checked_i. destruct (in_i w z) eqn:E.
  - apply in_i_spec in E. split; [by intros [= <-]|by intros [-> _]].
  - split; [done|]. intros [_ H]. apply in_i_spec in H. congruence.
Qed.

Lemma checked_u_small w z : is_u w z -> checked_u w z = Some z.
Proof. intros. by apply checked_u_Some. Qed.

Lemma checked_i_small w z : is_i w z -> checked_i w z = Some z.
Proof. intros. by apply checked_i_Some. Qed.

Lemma saturate_i_range w z : 1 <= w -> is_i w (saturate_i w z).
Proof.
  intros. unfold saturate_i, is_i, imin, imax.
  assert (0 < 2 ^ (w - 1)) by (apply Z.pow_pos_nonneg; lia). lia.
Qed.

Lemma saturate_i_mono w a b : a <= b -> saturate_i w a <= saturate_i w b.
Proof. unfold saturate_i. lia. Qed.

(** ** Lemmas on lists *)

Lemma fold_max_ge (l : list Z) : forall a, a <= fold_left Z.max l a /\
  (forall x, x ∈ l -> x <= fold_left Z.max l a).
Proof.
  induction l as [|y l IH]; intros a; simpl.
  - split; [lia|]. intros x Hx. by apply not_elem_of_nil in Hx.
  - destruct (IH (Z.max a y)) as [IH1 IH2]. split; [lia|].
    intros x [->|Hx]%elem_of_cons; [lia|auto].
Qed.

Lemma max_or_default_ge (l : list Z) x : x ∈ l -> x <= max_or_default l.
Proof.
  destruct l as [|y l]; simpl; [intros H; by apply not_elem_of_nil in H|].
  destruct (fold_max_ge l y) as [H1 H2].
  intros [->|Hx]%elem_of_cons; auto.
Qed.

Lemma fold_max_elem (l : list Z) : forall a, fold_left Z.max l a = a \/ fold_left Z.max l a ∈ l.
Proof.
  induction l as [|y l IH]; intros a; simpl; [by left|].
  destruct (IH (Z.max a y)) as [->|]; [|by right; right].
  destruct (Z.max_spec a y) as [[_ ->]|[_ ->]]; [right; left|by left].
Qed.

Lemma max_or_default_elem (l : list Z) : l = [] \/ max_or_default l ∈ l.
Proof.
  destruct l as [|y l]; [by left|right]. simpl.
  destruct (fold_max_elem l y) as [->|]; [left|by right].
Qed.

Lemma max_or_default_perm (l k : list Z) : l ≡ₚ k -> max_or_default l = max_or_default k.
Proof.
  intros Hp. destruct (max_or_default_elem l) as [->|Hl].
  - apply Permutation_nil in Hp. by subst.
  - destruct (max_or_default_elem k) as [->|Hk].
    { symmetry in Hp. apply Permutation_nil in Hp. by subst. }
    apply Z.le_antisymm; apply max_or_default_ge; by rewrite ?Hp in *; rewrite <-?Hp in *.
Qed.

Lemma fold_left_perm {A B} (f : B -> A -> B) :
  (forall b x y, f (f b x) y = f (f b y) x) ->
  forall l k, l ≡ₚ k -> forall b, fold_left f l b = fold_left f k b.
Proof.
  intros Hc l k Hp. induction Hp as [|x l k _ IH|x y l|l k m _ IH1 _ IH2]; intros b; simpl; auto.
  - by rewrite Hc.
  - by rewrite IH1.
Qed.

Lemma filter_perm {A} (f : A -> bool) (l k : list A) :
  l ≡ₚ k -> List.filter f l ≡ₚ List.filter f k.
Proof.
  induction 1 as [|x l k _ IH|x y l|l k m _ IH1 _ IH2]; simpl; try done.
  - destruct (f x); [by constructor|done].
  - destruct (f x), (f y); done || constructor.
  - by etrans.
Qed.

Lemma map_filter_swap {A B} (g : A -> B) (f : B -> bool) (l : list A) :
  map g (List.filter (fun x => f (g x)) l) = List.filter f (map g l).
Proof. induction l as [|x l IH]; simpl; [done|]. destruct (f (g x)); simpl; by rewrite IH. Qed.

(** How many members of a list satisfy a test. *)
Definition count {A} (f : A -> bool) (l : list A) : Z := Z.of_nat (length (List.filter f l)).

Lemma count_app {A} (f : A -> bool) l x :
  count f (l ++ [x]) = count f l + (if f x then 1 else 0).
Proof. unfold count. rewrite filter_app, length_app. simpl. destruct (f x); simpl; lia. Qed.

Lemma count_le {A} (f : A -> bool) l : 0 <= count f l <= Z.of_nat (length l).
Proof. unfold count. pose proof (filter_length_le f l). lia. Qed.

(** ** The stable sort *)

Lemma insert_by_key_perm {A} (key : A -> Z) x l : insert_by_key key x l ≡ₚ x :: l.
Proof.
  induction l as [|y l IH]; simpl; [done|]. destruct (_ <=? _); [done|].
  rewrite IH. constructor.
Qed.

Lemma sort_by_key_perm {A} (key : A -> Z) l : sort_by_key key l ≡ₚ l.
Proof.
  induction l as [|x l IH]; simpl; [done|]. by rewrite insert_by_key_perm, IH.
Qed.

Definition key_le {A} (key : A -> Z) (x y : A) : Prop := key x <= key y.

Lemma insert_by_key_sorted {A} (key : A -> Z) x l :
  StronglySorted (key_le key) l -> StronglySorted (key_le key) (insert_by_key key x l).
Proof.
  induction 1 as [|y l Hl IH Hy]; simpl; [by repeat constructor|].
  destruct (Z.leb_spec (key x) (key y)).
  - constructor; [by constructor|]. constructor; [done|].
    eapply Forall_impl; [|exact Hy]. unfold key_le. intros. lia.
  - constructor; [done|]. rewrite insert_by_key_perm. constructor; [|done].
    unfold key_le. lia.
Qed.

Lemma sort_by_key_sorted {A} (key : A -> Z) l : StronglySorted (key_le key) (sort_by_key key l).
Proof. induction l; simpl; [constructor|by apply insert_by_key_sorted]. Qed.

(** With distinct keys there is one sorted order. *)
Lemma sorted_perm_unique {A} (key : A -> Z) l k :
  StronglySorted (key_le key) l -> StronglySorted (key_le key) k ->
  NoDup (map key l) -> l ≡ₚ k -> l = k.
Proof.
  intros Hl. revert k. induction Hl as [|x l Hl IH Hx]; intros k Hk Hnd Hp.
  - apply Permutation_nil in Hp. by subst.
  - destruct Hk as [|y k Hk Hy]; [by apply Permutation_sym, Permutation_nil_cons in Hp|].
    assert (x = y) as ->.
    { assert (x ∈ y :: k) as H1 by (rewrite <- Hp; left).
      assert (y ∈ x :: l) as H2 by (rewrite Hp; left).
      apply elem_of_cons in H1 as [|H1], H2 as [|H2]; try done.
      assert (key x = key y) as E.
      { rewrite list.Forall_forall in Hx, Hy. specialize (Hx _ H2). specialize (Hy _ H1).
        unfold key_le in *. lia. }
      simpl in Hnd. apply list.NoDup_cons in Hnd as [Hnd _]. exfalso. apply Hnd.
      rewrite E. by apply list_elem_of_fmap_2. }
    f_equal. apply IH; [done| |by apply Permutation_cons_inv in Hp].
    simpl in Hnd. by apply list.NoDup_cons in Hnd as [_ ?].
Qed.

Lemma sort_by_key_canonical {A} (key : A -> Z) l k :
  NoDup (map key l) -> l ≡ₚ k -> sort_by_key key l = sort_by_key key k.
Proof.
  intros Hnd Hp. apply (sorted_perm_unique key); try apply sort_by_key_sorted.
  - by rewrite sort_by_key_perm.
  - by rewrite !sort_by_key_perm.
Qed.
