(* ===== verification/Kernel.v ===== *)
(** * The decision kernel ([src/kernel.rs])

    The catalog, the request, the policy snapshot and its constructors, the
    per-candidate gates, the pricing arithmetic with its fast and reference
    paths, the ranking loop of [prescribe], and the explanation path. All
    arithmetic is at the width of the source. *)

From S2P Require Import Prelude.
#[local] Open Scope Z_scope.

(** ** Constants *)

Definition BASIS_POINTS : Z := 10000.
Definition SCALED_BASIS_POINTS : Z := BASIS_POINTS * BASIS_POINTS.
Definition COST_SCALE : Z := 1000000.
Definition COST_ROUNDING : Z := COST_SCALE - 1.
Definition ALL_PROVIDERS : Z := umax 64.
Definition ALL_REGIONS : Z := umax 64.
Definition MAX_PROVIDER_ID : Z := 63.
Definition MAX_CATALOG_MODELS : Z := umax 16.
Definition MAX_BPS : Z := 10000.
Definition MAX_RISK_PENALTY_MULTIPLIER_BPS : Z := 50000.

(** ** Data *)

Record KernelModel := mkKernelModel {
  km_model_id : Z;
  km_provider_id : Z;
  km_quality_bps : Z;
  km_risk_ceiling_bps : Z;
  km_enabled : Z;
  km_p95_latency_ms : Z;
  km_capabilities : Z;
  km_region_mask : Z;
  km_input_cost_microunits_per_million_tokens : Z;
  km_output_cost_microunits_per_million_tokens : Z
}.

Record KernelInput := mkKernelInput {
  ki_request_sequence : Z;
  ki_requested_model_id : Z;
  ki_input_tokens : Z;
  ki_output_tokens : Z;
  ki_business_value_microunits : Z;
  ki_budget_limit_microunits : Z;
  ki_risk_bps : Z;
  ki_confidence_bps : Z;
  ki_minimum_quality_bps : Z;
  ki_max_p95_latency_ms : Z;
  ki_required_capabilities : Z;
  ki_allowed_provider_mask : Z;
  ki_required_region_mask : Z
}.

Inductive InputError :=
| InputError_OutOfRangeBps (field : string) (value max : Z).

Inductive KernelAction :=
| ExecuteRequested
| Substitute
| Reject.

Inductive KernelReason :=
| RequestedModelMaximizesUtility
| AlternativeMaximizesUtility
| RiskHardLimit
| ConfidenceHardLimit
| NoEnabledModel
| QualityConstraint
| LatencyConstraint
| CapabilityConstraint
| ProviderConstraint
| RegionConstraint
| BudgetConstraint
| NonPositiveUtility
| RiskCeilingConstraint.

Record KernelDecision := mkKernelDecision {
  kd_request_sequence : Z;
  kd_action : KernelAction;
  kd_reason : KernelReason;
  kd_selected_model_id : Z;
  kd_selected_model_index : Z;
  kd_estimated_cost_microunits : Z;
  kd_expected_utility_microunits : Z;
  kd_counterfactual_model_id : Z;
  kd_counterfactual_utility_microunits : Z;
  kd_evaluated_models : Z;
  kd_eligible_models : Z;
  kd_policy_epoch : Z;
  kd_catalog_epoch : Z
}.

Record PolicySnapshot := mkPolicySnapshot {
  ps_policy_epoch : Z;
  ps_catalog_epoch : Z;
  ps_hard_risk_limit_bps : Z;
  ps_minimum_confidence_bps : Z;
  ps_risk_penalty_multiplier_bps : Z;
  ps_latency_penalty_microunits_per_ms : Z;
  ps_max_quality_bps : Z;
  ps_max_p95_latency_ms : Z;
  ps_max_input_cost : Z;
  ps_max_output_cost : Z;
  ps_models : list KernelModel
}.

Record Candidate := mkCandidate {
  cd_model_id : Z;
  cd_model_index : Z;
  cd_quality_bps : Z;
  cd_cost : Z;
  cd_utility : Z
}.

Record RejectionHistogram := mkRejectionHistogram {
  rh_disabled : Z;
  rh_quality : Z;
  rh_risk_ceiling : Z;
  rh_latency : Z;
  rh_capability : Z;
  rh_provider : Z;
  rh_region : Z;
  rh_budget : Z;
  rh_utility : Z
}.

Record DecisionTrace := mkDecisionTrace {
  dt_rejections : RejectionHistogram;
  dt_evaluated_models : Z;
  dt_eligible_models : Z
}.

Inductive PolicyError :=
| EmptyCatalog
| DuplicateModelId (model_id : Z)
| InvalidProviderId (model_id provider_id : Z)
| NoEnabledModels
| PolicyError_OutOfRangeBps (field : string) (value max : Z).

Inductive TrustPolicyError :=
| Policy (e : PolicyError)
| CatalogTooLarge (len max : Z)
| ReservedModelId
| InvalidEnabledFlag (model_id value : Z).

Inductive GateKind :=
| Disabled
| Quality
| Latency
| Capability
| ProviderUnrepresentable
| ProviderNotAllowed
| Region
| RiskCeiling.

Record UtilityTerms := mkUtilityTerms {
  ut_quality_adjusted : Z;
  ut_risk_penalty : Z;
  ut_cost_microunits : Z;
  ut_latency_penalty : Z;
  ut_utility : Z
}.

Record Pricing := mkPricing {
  pr_value : Z;
  pr_confidence_bps : Z;
  pr_quality_prefix : option Z;
  pr_risk_penalty : Z;
  pr_all_costs_fit : bool;
  pr_all_latencies_fit : bool;
  pr_latency_pen_per_ms : Z
}.

Inductive CandidateVerdict :=
| Rejected (gate : GateKind) (measured limit : Z)
| OverBudget (cost_microunits limit_microunits : Z)
| VerdictNonPositiveUtility (t : UtilityTerms)
| Eligible (t : UtilityTerms).

Record CandidateExplanation := mkCandidateExplanation {
  ce_model_id : Z;
  ce_model_index : Z;
  ce_verdict : CandidateVerdict
}.

Record Explanation := mkExplanation {
  ex_decision : KernelDecision;
  ex_candidates : list CandidateExplanation
}.

(** The derived [Eq] of the source. *)
#[export] Instance KernelModel_eq_dec : EqDecision KernelModel.
Proof. solve_decision. Defined.
#[export] Instance KernelInput_eq_dec : EqDecision KernelInput.
Proof. solve_decision. Defined.
#[export] Instance KernelAction_eq_dec : EqDecision KernelAction.
Proof. solve_decision. Defined.
#[export] Instance KernelReason_eq_dec : EqDecision KernelReason.
Proof. solve_decision. Defined.
#[export] Instance KernelDecision_eq_dec : EqDecision KernelDecision.
Proof. solve_decision. Defined.
#[export] Instance GateKind_eq_dec : EqDecision GateKind.
Proof. solve_decision. Defined.
#[export] Instance UtilityTerms_eq_dec : EqDecision UtilityTerms.
Proof. solve_decision. Defined.
#[export] Instance CandidateVerdict_eq_dec : EqDecision CandidateVerdict.
Proof. solve_decision. Defined.

(** ** Request validation *)

Definition KernelInput_validate (input : KernelInput) : result InputError unit :=
  if MAX_BPS <? ki_risk_bps input then
    Err (InputError_OutOfRangeBps "risk_bps" (ki_risk_bps input) MAX_BPS)
  else if MAX_BPS <? ki_confidence_bps input then
    Err (InputError_OutOfRangeBps "confidence_bps" (ki_confidence_bps input) MAX_BPS)
  else if MAX_BPS <? ki_minimum_quality_bps input then
    Err (InputError_OutOfRangeBps "minimum_quality_bps" (ki_minimum_quality_bps input) MAX_BPS)
  else Ok tt.

(** ** Display and discriminants of the enums *)

Definition KernelAction_display (a : KernelAction) : string :=
  match a with
  | ExecuteRequested => "execute_requested"
  | Substitute => "substitute"
  | Reject => "reject"
  end.

Definition KernelAction_repr (a : KernelAction) : Z :=
  match a with ExecuteRequested => 1 | Substitute => 2 | Reject => 3 end.

Definition KernelReason_display (r : KernelReason) : string :=
  match r with
  | RequestedModelMaximizesUtility => "requested_model_maximizes_utility"
  | AlternativeMaximizesUtility => "alternative_maximizes_utility"
  | RiskHardLimit => "risk_hard_limit"
  | ConfidenceHardLimit => "confidence_hard_limit"
  | NoEnabledModel => "no_enabled_model"
  | QualityConstraint => "quality_constraint"
  | LatencyConstraint => "latency_constraint"
  | CapabilityConstraint => "capability_constraint"
  | ProviderConstraint => "provider_constraint"
  | RegionConstraint => "region_constraint"
  | BudgetConstraint => "budget_constraint"
  | NonPositiveUtility => "non_positive_utility"
  | RiskCeilingConstraint => "risk_ceiling_constraint"
  end.

Definition KernelReason_repr (r : KernelReason) : Z :=
  match r with
  | RequestedModelMaximizesUtility => 1
  | AlternativeMaximizesUtility => 2
  | RiskHardLimit => 100
  | ConfidenceHardLimit => 101
  | NoEnabledModel => 102
  | QualityConstraint => 103
  | LatencyConstraint => 104
  | CapabilityConstraint => 105
  | ProviderConstraint => 106
  | RegionConstraint => 107
  | BudgetConstraint => 108
  | NonPositiveUtility => 109
  | RiskCeilingConstraint => 110
  end.

Definition is_executable (d : KernelDecision) : bool :=
  match kd_action d with ExecuteRequested | Substitute => true | Reject => false end.
Definition is_requested_execution (d : KernelDecision) : bool :=
  match kd_action d with ExecuteRequested => true | _ => false end.
Definition is_substitution (d : KernelDecision) : bool :=
  match kd_action d with Substitute => true | _ => false end.
Definition is_rejected (d : KernelDecision) : bool :=
  match kd_action d with Reject => true | _ => false end.

(** ** Gates *)

Definition first_failed_gate (model : KernelModel) (input : KernelInput) : option GateKind :=
  if km_enabled model =? 0 then Some Disabled
  else if km_quality_bps model <? ki_minimum_quality_bps input then Some Quality
  else if (0 <? ki_max_p95_latency_ms input)
          && (ki_max_p95_latency_ms input <? km_p95_latency_ms model) then Some Latency
  else if negb (Z.land (km_capabilities model) (ki_required_capabilities input)
                =? ki_required_capabilities input) then Some Capability
  else if MAX_PROVIDER_ID <? km_provider_id model then Some ProviderUnrepresentable
  else if negb (ki_allowed_provider_mask input =? ALL_PROVIDERS)
          && (Z.land (ki_allowed_provider_mask input)
                (wrap_u 64 (Z.shiftl 1 (km_provider_id model))) =? 0)
       then Some ProviderNotAllowed
  else if negb (ki_required_region_mask input =? 0)
          && (Z.land (km_region_mask model) (ki_required_region_mask input) =? 0)
       then Some Region
  else if km_risk_ceiling_bps model <? ki_risk_bps input then Some RiskCeiling
  else None.

Definition gate_detail (model : KernelModel) (input : KernelInput) (gate : GateKind) : Z * Z :=
  match gate with
  | Disabled => (0, 1)
  | Quality => (km_quality_bps model, ki_minimum_quality_bps input)
  | Latency => (km_p95_latency_ms model, ki_max_p95_latency_ms input)
  | Capability => (km_capabilities model, ki_required_capabilities input)
  | ProviderUnrepresentable => (km_provider_id model, MAX_PROVIDER_ID)
  | ProviderNotAllowed => (km_provider_id model, ki_allowed_provider_mask input)
  | Region => (km_region_mask model, ki_required_region_mask input)
  | RiskCeiling => (ki_risk_bps input, km_risk_ceiling_bps model)
  end.

(** ** Pricing *)

Definition model_cost_fast (model : KernelModel) (input_tokens output_tokens : Z) : Z :=
  let input :=
    wrap_u 64 (wrap_u 64 (input_tokens * km_input_cost_microunits_per_million_tokens model)
               + COST_ROUNDING) / COST_SCALE in
  let output :=
    wrap_u 64 (wrap_u 64 (output_tokens * km_output_cost_microunits_per_million_tokens model)
               + COST_ROUNDING) / COST_SCALE in
  wrap_u 64 (input + output).

Definition model_cost_reference (model : KernelModel) (input_tokens output_tokens : Z) : Z :=
  let input :=
    saturate_u 128 (saturate_u 128 (input_tokens * km_input_cost_microunits_per_million_tokens model)
                    + COST_ROUNDING) / COST_SCALE in
  let output :=
    saturate_u 128 (saturate_u 128 (output_tokens * km_output_cost_microunits_per_million_tokens model)
                    + COST_ROUNDING) / COST_SCALE in
  default (umax 64) (checked_u 64 (saturate_u 128 (input + output))).

Definition scaled_term_reference (value first_bps second_bps : Z) : Z :=
  Z.quot (mul_i 128 (mul_i 128 value first_bps) second_bps) SCALED_BASIS_POINTS.

Definition scaled_term_exact (value first_bps second_bps : Z) : Z :=
  match checked_u 64 (value * first_bps) ≫= fun v => checked_u 64 (v * second_bps) with
  | None => scaled_term_reference value first_bps second_bps
  | Some numerator => numerator / SCALED_BASIS_POINTS
  end.

Definition clamp_i128_to_i64 (value : Z) : Z := saturate_i 64 value.

Definition all_costs_fit_u64 (p : PolicySnapshot) (input_tokens output_tokens : Z) : bool :=
  let input :=
    checked_u 64 (input_tokens * ps_max_input_cost p) ≫= fun v => checked_u 64 (v + COST_ROUNDING) in
  let output :=
    checked_u 64 (output_tokens * ps_max_output_cost p) ≫= fun v => checked_u 64 (v + COST_ROUNDING) in
  match input, output with
  | Some input, Some output => bool_decide (is_Some (checked_u 64 (input + output)))
  | _, _ => false
  end.

Definition Pricing_new (policy : PolicySnapshot) (input : KernelInput) : Pricing :=
  let value := Z.max (ki_business_value_microunits input) 0 in
  let confidence_bps := ki_confidence_bps input in
  {| pr_value := value;
     pr_confidence_bps := confidence_bps;
     pr_quality_prefix :=
       match checked_u 64 (value * confidence_bps) with
       | Some prefix =>
           if bool_decide (is_Some (checked_u 64 (prefix * ps_max_quality_bps policy)))
           then Some prefix else None
       | None => None
       end;
     pr_risk_penalty :=
       scaled_term_exact value (ki_risk_bps input) (ps_risk_penalty_multiplier_bps policy);
     pr_all_costs_fit :=
       all_costs_fit_u64 policy (ki_input_tokens input) (ki_output_tokens input);
     pr_all_latencies_fit :=
       bool_decide (is_Some (checked_u 64
         (ps_max_p95_latency_ms policy * ps_latency_penalty_microunits_per_ms policy)));
     pr_latency_pen_per_ms := ps_latency_penalty_microunits_per_ms policy |}.

Definition Pricing_cost (pr : Pricing) (model : KernelModel) (input : KernelInput) : Z :=
  if pr_all_costs_fit pr
  then model_cost_fast model (ki_input_tokens input) (ki_output_tokens input)
  else model_cost_reference model (ki_input_tokens input) (ki_output_tokens input).

Definition Pricing_terms (pr : Pricing) (model : KernelModel) (cost_microunits : Z) : UtilityTerms :=
  let quality_adjusted :=
    match pr_quality_prefix pr with
    | None => scaled_term_reference (pr_value pr) (pr_confidence_bps pr) (km_quality_bps model)
    | Some prefix => wrap_u 64 (prefix * km_quality_bps model) / SCALED_BASIS_POINTS
    end in
  let latency_penalty :=
    if pr_all_latencies_fit pr
    then wrap_u 64 (km_p95_latency_ms model * pr_latency_pen_per_ms pr)
    else mul_i 128 (km_p95_latency_ms model) (pr_latency_pen_per_ms pr) in
  {| ut_quality_adjusted := quality_adjusted;
     ut_risk_penalty := pr_risk_penalty pr;
     ut_cost_microunits := cost_microunits;
     ut_latency_penalty := latency_penalty;
     ut_utility :=
       clamp_i128_to_i64
         (sub_i 128 (sub_i 128 (sub_i 128 quality_adjusted (pr_risk_penalty pr))
                       cost_microunits) latency_penalty) |}.

(** ** The rejection histogram *)

Definition histogram_default : RejectionHistogram := mkRejectionHistogram 0 0 0 0 0 0 0 0 0.

Definition sat_succ_u16 (z : Z) : Z := saturate_u 16 (z + 1).
(** [+= 1] on a [u16]: the release profile wraps. *)
Definition inc_u16 (z : Z) : Z := add_u 16 z 1.

Definition bump (h : RejectionHistogram) (kind : GateKind) : RejectionHistogram :=
  let '(mkRejectionHistogram d q rc l c p r b u) := h in
  match kind with
  | Disabled => mkRejectionHistogram (sat_succ_u16 d) q rc l c p r b u
  | Quality => mkRejectionHistogram d (sat_succ_u16 q) rc l c p r b u
  | Latency => mkRejectionHistogram d q rc (sat_succ_u16 l) c p r b u
  | Capability => mkRejectionHistogram d q rc l (sat_succ_u16 c) p r b u
  | ProviderUnrepresentable | ProviderNotAllowed =>
      mkRejectionHistogram d q rc l c (sat_succ_u16 p) r b u
  | Region => mkRejectionHistogram d q rc l c p (sat_succ_u16 r) b u
  | RiskCeiling => mkRejectionHistogram d q (sat_succ_u16 rc) l c p r b u
  end.

Definition bump_budget (h : RejectionHistogram) : RejectionHistogram :=
  let '(mkRejectionHistogram d q rc l c p r b u) := h in
  mkRejectionHistogram d q rc l c p r (inc_u16 b) u.
Definition bump_utility (h : RejectionHistogram) : RejectionHistogram :=
  let '(mkRejectionHistogram d q rc l c p r b u) := h in
  mkRejectionHistogram d q rc l c p r b (inc_u16 u).

Definition dominant_rejection_reason (h : RejectionHistogram) : KernelReason :=
  let candidates :=
    [ (rh_capability h, CapabilityConstraint);
      (rh_region h, RegionConstraint);
      (rh_provider h, ProviderConstraint);
      (rh_quality h, QualityConstraint);
      (rh_risk_ceiling h, RiskCeilingConstraint);
      (rh_latency h, LatencyConstraint);
      (rh_budget h, BudgetConstraint);
      (rh_utility h, NonPositiveUtility);
      (rh_disabled h, NoEnabledModel) ] in
  match max_by_key fst candidates with
  | Some (count, reason) => if 0 <? count then reason else NoEnabledModel
  | None => NoEnabledModel
  end.

(** ** Ranking *)

Definition candidate_better (left right : Candidate) : bool :=
  (cd_utility right <? cd_utility left)
  || ((cd_utility left =? cd_utility right) && (cd_cost left <? cd_cost right))
  || ((cd_utility left =? cd_utility right) && (cd_cost left =? cd_cost right)
      && (cd_quality_bps right <? cd_quality_bps left))
  || ((cd_utility left =? cd_utility right) && (cd_cost left =? cd_cost right)
      && (cd_quality_bps left =? cd_quality_bps right)
      && (cd_model_id left <? cd_model_id right)).

(** The mutable variables of the candidate loop. *)
Record LoopState := mkLoopState {
  ls_best : option Candidate;
  ls_second : option Candidate;
  ls_eligible_models : Z;
  ls_rejected : RejectionHistogram
}.

Definition index_u16 (index : Z) : Z := default (umax 16) (checked_u 16 index).

(** One iteration of the candidate loop of [prescribe_inner]. *)
Definition consider (pricing : Pricing) (input : KernelInput)
    (st : LoopState) (im : Z * KernelModel) : LoopState :=
  let '(index, model) := im in
  match first_failed_gate model input with
  | Some kind =>
      mkLoopState (ls_best st) (ls_second st) (ls_eligible_models st) (bump (ls_rejected st) kind)
  | None =>
      let cost := Pricing_cost pricing model input in
      if ki_budget_limit_microunits input <? cost then
        mkLoopState (ls_best st) (ls_second st) (ls_eligible_models st)
          (bump_budget (ls_rejected st))
      else
        let utility := ut_utility (Pricing_terms pricing model cost) in
        if utility <=? 0 then
          mkLoopState (ls_best st) (ls_second st) (ls_eligible_models st)
            (bump_utility (ls_rejected st))
        else
          let eligible := sat_succ_u16 (ls_eligible_models st) in
          let candidate :=
            {| cd_model_id := km_model_id model; cd_model_index := index_u16 index;
               cd_quality_bps := km_quality_bps model; cd_cost := cost; cd_utility := utility |} in
          match ls_best st with
          | None => mkLoopState (Some candidate) (ls_second st) eligible (ls_rejected st)
          | Some current =>
              if candidate_better candidate current then
                mkLoopState (Some candidate) (ls_best st) eligible (ls_rejected st)
              else if match ls_second st with
                      | None => true
                      | Some s => candidate_better candidate s
                      end
              then mkLoopState (ls_best st) (Some candidate) eligible (ls_rejected st)
              else mkLoopState (ls_best st) (ls_second st) eligible (ls_rejected st)
          end
  end.

Definition reject (p : PolicySnapshot) (input : KernelInput) (reason : KernelReason)
    (evaluated_models eligible_models : Z) : KernelDecision * RejectionHistogram :=
  ({| kd_request_sequence := ki_request_sequence input;
      kd_action := Reject;
      kd_reason := reason;
      kd_selected_model_id := 0;
      kd_selected_model_index := umax 16;
      kd_estimated_cost_microunits := 0;
      kd_expected_utility_microunits := 0;
      kd_counterfactual_model_id := 0;
      kd_counterfactual_utility_microunits := 0;
      kd_evaluated_models := evaluated_models;
      kd_eligible_models := eligible_models;
      kd_policy_epoch := ps_policy_epoch p;
      kd_catalog_epoch := ps_catalog_epoch p |}, histogram_default).

(** The request-level refusals of [prescribe_inner]. *)
Definition request_refusal (p : PolicySnapshot) (input : KernelInput) : option KernelReason :=
  if ps_hard_risk_limit_bps p <=? ki_risk_bps input then Some RiskHardLimit
  else if ki_confidence_bps input <? ps_minimum_confidence_bps p then Some ConfidenceHardLimit
  else None.

Definition run_loop (p : PolicySnapshot) (input : KernelInput) : LoopState :=
  fold_left (consider (Pricing_new p input) input) (enumerate (ps_models p))
    (mkLoopState None None 0 histogram_default).

Definition prescribe_inner (p : PolicySnapshot) (input : KernelInput)
    : KernelDecision * RejectionHistogram :=
  match request_refusal p input with
  | Some reason => reject p input reason 0 0
  | None =>
      let st := run_loop p input in
      let evaluated_models := index_u16 (Z.of_nat (length (ps_models p))) in
      match ls_best st with
      | None =>
          (fst (reject p input (dominant_rejection_reason (ls_rejected st))
                  evaluated_models (ls_eligible_models st)), ls_rejected st)
      | Some best =>
          let action :=
            if cd_model_id best =? ki_requested_model_id input then ExecuteRequested else Substitute in
          ({| kd_request_sequence := ki_request_sequence input;
              kd_action := action;
              kd_reason :=
                match action with
                | ExecuteRequested => RequestedModelMaximizesUtility
                | _ => AlternativeMaximizesUtility
                end;
              kd_selected_model_id := cd_model_id best;
              kd_selected_model_index := cd_model_index best;
              kd_estimated_cost_microunits := cd_cost best;
              kd_expected_utility_microunits := cd_utility best;
              kd_counterfactual_model_id := from_option cd_model_id 0 (ls_second st);
              kd_counterfactual_utility_microunits := from_option cd_utility 0 (ls_second st);
              kd_evaluated_models := evaluated_models;
              kd_eligible_models := ls_eligible_models st;
              kd_policy_epoch := ps_policy_epoch p;
              kd_catalog_epoch := ps_catalog_epoch p |}, ls_rejected st)
      end
  end.

Definition prescribe (p : PolicySnapshot) (input : KernelInput) : KernelDecision :=
  fst (prescribe_inner p input).

Definition prescribe_checked (p : PolicySnapshot) (input : KernelInput)
    : result InputError KernelDecision :=
  KernelInput_validate input ≫= fun _ => Ok (prescribe p input).

Definition prescribe_batch (p : PolicySnapshot) (inputs : list KernelInput) : list KernelDecision :=
  map (prescribe p) inputs.

Definition prescribe_batch_checked (p : PolicySnapshot) (inputs : list KernelInput)
    : result InputError (list KernelDecision) :=
  try_for_each KernelInput_validate inputs ≫= fun _ => Ok (prescribe_batch p inputs).

Definition prescribe_with_trace (p : PolicySnapshot) (input : KernelInput)
    : KernelDecision * DecisionTrace :=
  let '(decision, rejections) := prescribe_inner p input in
  (decision,
   {| dt_rejections := rejections;
      dt_evaluated_models := kd_evaluated_models decision;
      dt_eligible_models := kd_eligible_models decision |}).

Definition prescribe_with_trace_checked (p : PolicySnapshot) (input : KernelInput)
    : result InputError (KernelDecision * DecisionTrace) :=
  KernelInput_validate input ≫= fun _ => Ok (prescribe_with_trace p input).

(** The verdict [explain] computes for one candidate. *)
Definition explain_verdict (pricing : Pricing) (input : KernelInput) (model : KernelModel)
    : CandidateVerdict :=
  match first_failed_gate model input with
  | Some gate =>
      let '(measured, limit) := gate_detail model input gate in
      Rejected gate measured limit
  | None =>
      let cost := Pricing_cost pricing model input in
      if ki_budget_limit_microunits input <? cost then
        OverBudget cost (ki_budget_limit_microunits input)
      else
        let terms := Pricing_terms pricing model cost in
        if ut_utility terms <=? 0 then VerdictNonPositiveUtility terms else Eligible terms
  end.

Definition explain (p : PolicySnapshot) (input : KernelInput) : Explanation :=
  let decision := fst (prescribe_inner p input) in
  match kd_reason decision with
  | RiskHardLimit | ConfidenceHardLimit => mkExplanation decision []
  | _ =>
      let pricing := Pricing_new p input in
      mkExplanation decision
        (map (fun im : Z * KernelModel =>
                {| ce_model_id := km_model_id (snd im);
                   ce_model_index := index_u16 (fst im);
                   ce_verdict := explain_verdict pricing input (snd im) |})
             (enumerate (ps_models p)))
  end.

Definition is_eligible_verdict (v : CandidateVerdict) : bool :=
  match v with Eligible _ => true | _ => false end.

Definition Explanation_eligible (e : Explanation) : list CandidateExplanation :=
  List.filter (fun c => is_eligible_verdict (ce_verdict c)) (ex_candidates e).

Definition utility_for_model (p : PolicySnapshot) (input : KernelInput) (model_id : Z) : option Z :=
  if ps_hard_risk_limit_bps p <=? ki_risk_bps input then None
  else if ki_confidence_bps input <? ps_minimum_confidence_bps p then None
  else
    match List.find (fun m => km_model_id m =? model_id) (ps_models p) with
    | None => None
    | Some model =>
        match first_failed_gate model input with
        | Some _ => None
        | None =>
            let cost :=
              if all_costs_fit_u64 p (ki_input_tokens input) (ki_output_tokens input)
              then model_cost_fast model (ki_input_tokens input) (ki_output_tokens input)
              else model_cost_reference model (ki_input_tokens input) (ki_output_tokens input) in
            if ki_budget_limit_microunits input <? cost then None
            else
              let value := Z.max (ki_business_value_microunits input) 0 in
              let confidence_bps := ki_confidence_bps input in
              let quality_prefix :=
                match checked_u 64 (value * confidence_bps) with
                | Some prefix =>
                    if bool_decide (is_Some (checked_u 64 (prefix * ps_max_quality_bps p)))
                    then Some prefix else None
                | None => None
                end in
              let risk_penalty :=
                scaled_term_exact value (ki_risk_bps input) (ps_risk_penalty_multiplier_bps p) in
              let all_latencies_fit :=
                bool_decide (is_Some (checked_u 64
                  (ps_max_p95_latency_ms p * ps_latency_penalty_microunits_per_ms p))) in
              let quality_adjusted :=
                match quality_prefix with
                | None => scaled_term_reference value confidence_bps (km_quality_bps model)
                | Some prefix => wrap_u 64 (prefix * km_quality_bps model) / SCALED_BASIS_POINTS
                end in
              let latency_penalty :=
                if all_latencies_fit
                then wrap_u 64 (km_p95_latency_ms model * ps_latency_penalty_microunits_per_ms p)
                else mul_i 128 (km_p95_latency_ms model) (ps_latency_penalty_microunits_per_ms p) in
              let utility :=
                clamp_i128_to_i64
                  (sub_i 128 (sub_i 128 (sub_i 128 quality_adjusted risk_penalty) cost)
                     latency_penalty) in
              if utility <=? 0 then None else Some utility
        end
    end.

(** ** Constructors and validation *)

Definition new_unchecked (policy_epoch catalog_epoch hard_risk_limit_bps minimum_confidence_bps
    risk_penalty_multiplier_bps latency_penalty_microunits_per_ms : Z) (models : list KernelModel)
    : PolicySnapshot :=
  {| ps_policy_epoch := policy_epoch;
     ps_catalog_epoch := catalog_epoch;
     ps_hard_risk_limit_bps := hard_risk_limit_bps;
     ps_minimum_confidence_bps := minimum_confidence_bps;
     ps_risk_penalty_multiplier_bps := risk_penalty_multiplier_bps;
     ps_latency_penalty_microunits_per_ms := latency_penalty_microunits_per_ms;
     ps_max_quality_bps := max_or_default (map km_quality_bps models);
     ps_max_p95_latency_ms := max_or_default (map km_p95_latency_ms models);
     ps_max_input_cost := max_or_default (map km_input_cost_microunits_per_million_tokens models);
     ps_max_output_cost := max_or_default (map km_output_cost_microunits_per_million_tokens models);
     ps_models := models |}.

(** The catalog loop of [validate]: the set of identifiers seen and the
    [any_enabled] flag. *)
Fixpoint validate_models (seen : gset Z) (any_enabled : bool) (models : list KernelModel)
    : result PolicyError bool :=
  match models with
  | [] => Ok any_enabled
  | model :: rest =>
      if bool_decide (km_model_id model ∈ seen) then Err (DuplicateModelId (km_model_id model))
      else if MAX_PROVIDER_ID <? km_provider_id model then
        Err (InvalidProviderId (km_model_id model) (km_provider_id model))
      else if MAX_BPS <? km_quality_bps model then
        Err (PolicyError_OutOfRangeBps "model.quality_bps" (km_quality_bps model) MAX_BPS)
      else if MAX_BPS <? km_risk_ceiling_bps model then
        Err (PolicyError_OutOfRangeBps "model.risk_ceiling_bps" (km_risk_ceiling_bps model) MAX_BPS)
      else validate_models ({[km_model_id model]} ∪ seen)
             (any_enabled || negb (km_enabled model =? 0)) rest
  end.

Definition PolicySnapshot_validate (p : PolicySnapshot) : result PolicyError unit :=
  if MAX_BPS <? ps_hard_risk_limit_bps p then
    Err (PolicyError_OutOfRangeBps "hard_risk_limit_bps" (ps_hard_risk_limit_bps p) MAX_BPS)
  else if MAX_BPS <? ps_minimum_confidence_bps p then
    Err (PolicyError_OutOfRangeBps "minimum_confidence_bps" (ps_minimum_confidence_bps p) MAX_BPS)
  else if MAX_RISK_PENALTY_MULTIPLIER_BPS <? ps_risk_penalty_multiplier_bps p then
    Err (PolicyError_OutOfRangeBps "risk_penalty_multiplier_bps"
           (ps_risk_penalty_multiplier_bps p) MAX_RISK_PENALTY_MULTIPLIER_BPS)
  else
    match ps_models p with
    | [] => Err EmptyCatalog
    | models =>
        validate_models ∅ false models ≫= fun any_enabled : bool =>
        if any_enabled then Ok tt else Err NoEnabledModels
    end.

Definition try_new (policy_epoch catalog_epoch hard_risk_limit_bps minimum_confidence_bps
    risk_penalty_multiplier_bps latency_penalty_microunits_per_ms : Z) (models : list KernelModel)
    : result PolicyError PolicySnapshot :=
  let snapshot :=
    new_unchecked policy_epoch catalog_epoch hard_risk_limit_bps minimum_confidence_bps
      risk_penalty_multiplier_bps latency_penalty_microunits_per_ms models in
  PolicySnapshot_validate snapshot ≫= fun _ => Ok snapshot.

Definition try_new_trusted (policy_epoch catalog_epoch hard_risk_limit_bps minimum_confidence_bps
    risk_penalty_multiplier_bps latency_penalty_microunits_per_ms : Z) (models : list KernelModel)
    : result TrustPolicyError PolicySnapshot :=
  if MAX_CATALOG_MODELS <? Z.of_nat (length models) then
    Err (CatalogTooLarge (Z.of_nat (length models)) MAX_CATALOG_MODELS)
  else if existsb (fun m => km_model_id m =? 0) models then Err ReservedModelId
  else
    match List.find (fun m => 1 <? km_enabled m) models with
    | Some m => Err (InvalidEnabledFlag (km_model_id m) (km_enabled m))
    | None =>
        let snapshot :=
          new_unchecked policy_epoch catalog_epoch hard_risk_limit_bps minimum_confidence_bps
            risk_penalty_multiplier_bps latency_penalty_microunits_per_ms
            (sort_by_key km_model_id models) in
        map_err Policy (PolicySnapshot_validate snapshot) ≫= fun _ => Ok snapshot
    end.

(** ** Types and the snapshot invariant

    The ranges of the Rust types, and the invariant every snapshot carries:
    the cached maxima are the maxima of the catalog. *)

Definition model_typed (m : KernelModel) : Prop :=
  is_u 32 (km_model_id m) /\ is_u 16 (km_provider_id m) /\ is_u 16 (km_quality_bps m) /\
  is_u 16 (km_risk_ceiling_bps m) /\ is_u 8 (km_enabled m) /\ is_u 32 (km_p95_latency_ms m) /\
  is_u 64 (km_capabilities m) /\ is_u 64 (km_region_mask m) /\
  is_u 64 (km_input_cost_microunits_per_million_tokens m) /\
  is_u 64 (km_output_cost_microunits_per_million_tokens m).

Definition input_typed (i : KernelInput) : Prop :=
  is_u 64 (ki_request_sequence i) /\ is_u 32 (ki_requested_model_id i) /\
  is_u 32 (ki_input_tokens i) /\ is_u 32 (ki_output_tokens i) /\
  is_i 64 (ki_business_value_microunits i) /\ is_u 64 (ki_budget_limit_microunits i) /\
  is_u 16 (ki_risk_bps i) /\ is_u 16 (ki_confidence_bps i) /\
  is_u 16 (ki_minimum_quality_bps i) /\ is_u 32 (ki_max_p95_latency_ms i) /\
  is_u 64 (ki_required_capabilities i) /\ is_u 64 (ki_allowed_provider_mask i) /\
  is_u 64 (ki_required_region_mask i).

Definition header_typed (p : PolicySnapshot) : Prop :=
  is_u 64 (ps_policy_epoch p) /\ is_u 64 (ps_catalog_epoch p) /\
  is_u 16 (ps_hard_risk_limit_bps p) /\ is_u 16 (ps_minimum_confidence_bps p) /\
  is_u 16 (ps_risk_penalty_multiplier_bps p) /\
  is_u 64 (ps_latency_penalty_microunits_per_ms p).

Definition derived_ok (p : PolicySnapshot) : Prop :=
  ps_max_quality_bps p = max_or_default (map km_quality_bps (ps_models p)) /\
  ps_max_p95_latency_ms p = max_or_default (map km_p95_latency_ms (ps_models p)) /\
  ps_max_input_cost p =
    max_or_default (map km_input_cost_microunits_per_million_tokens (ps_models p)) /\
  ps_max_output_cost p =
    max_or_default (map km_output_cost_microunits_per_million_tokens (ps_models p)).

Definition policy_wf (p : PolicySnapshot) : Prop :=
  header_typed p /\ Forall model_typed (ps_models p) /\ derived_ok p.

#[export] Instance model_typed_dec m : Decision (model_typed m).
Proof. unfold model_typed. apply _. Defined.
#[export] Instance input_typed_dec i : Decision (input_typed i).
Proof. unfold input_typed. apply _. Defined.
#[export] Instance policy_wf_dec p : Decision (policy_wf p).
Proof. unfold policy_wf, header_typed, derived_ok. apply _. Defined.

(** The catalog and request of the kernel's own unit tests, used to evaluate
    the definitions on concrete data. *)
Definition sample_model_10 : KernelModel :=
  mkKernelModel 10 0 7500 9500 1 180 1 1 150000 600000.
Definition sample_model_20 : KernelModel :=
  mkKernelModel 20 1 9500 9500 1 450 1 1 2500000 10000000.
Definition sample_policy : PolicySnapshot :=
  new_unchecked 7 11 9600 5500 10000 2 [sample_model_10; sample_model_20].
Definition sample_input : KernelInput :=
  mkKernelInput 1 20 2000 500 100000000 20000000 1000 9000 7000 1000 1 ALL_PROVIDERS 1.
