(* ===== verification/KernelPricing.v ===== *)
(** * Pricing: the fast paths compute the exact formula

    [Pricing::cost] and [Pricing::terms] pick between wrapping [u64]
    arithmetic and a wide reference path on the strength of the snapshot's
    cached maxima. This file gives the exact integer formula (no width, no
    wrap-around) and proves that both paths compute it for every candidate of
    the catalog. *)

From S2P Require Import Prelude Kernel.
#[local] Open Scope Z_scope.

(** ** The exact formula *)

(** Rounded-up cost of [tokens] at [rate] per million. *)
Definition ceil_cost (tokens rate : Z) : Z := (tokens * rate + COST_ROUNDING) / COST_SCALE.

Definition exact_cost (m : KernelModel) (i : KernelInput) : Z :=
  Z.min (umax 64)
    (ceil_cost (ki_input_tokens i) (km_input_cost_microunits_per_million_tokens m)
     + ceil_cost (ki_output_tokens i) (km_output_cost_microunits_per_million_tokens m)).

Definition request_value (i : KernelInput) : Z := Z.max (ki_business_value_microunits i) 0.

Definition exact_quality_adjusted (m : KernelModel) (i : KernelInput) : Z :=
  request_value i * ki_confidence_bps i * km_quality_bps m / SCALED_BASIS_POINTS.

Definition exact_risk_penalty (p : PolicySnapshot) (i : KernelInput) : Z :=
  request_value i * ki_risk_bps i * ps_risk_penalty_multiplier_bps p / SCALED_BASIS_POINTS.

Definition exact_latency_penalty (p : PolicySnapshot) (m : KernelModel) : Z :=
  km_p95_latency_ms m * ps_latency_penalty_microunits_per_ms p.

Definition exact_utility (p : PolicySnapshot) (i : KernelInput) (m : KernelModel) : Z :=
  saturate_i 64
    (exact_quality_adjusted m i - exact_risk_penalty p i - exact_cost m i
     - exact_latency_penalty p m).

Definition exact_terms (p : PolicySnapshot) (i : KernelInput) (m : KernelModel) : UtilityTerms :=
  {| ut_quality_adjusted := exact_quality_adjusted m i;
     ut_risk_penalty := exact_risk_penalty p i;
     ut_cost_microunits := exact_cost m i;
     ut_latency_penalty := exact_latency_penalty p m;
     ut_utility := exact_utility p i m |}.

(** ** The two cost paths *)

Lemma mul_le_is_u w a b c : 0 <= a -> 0 <= b <= c -> is_u w (a * c) -> is_u w (a * b).
Proof. unfold is_u. nia. Qed.

Lemma ceil_cost_nonneg t r : 0 <= t -> 0 <= r -> 0 <= ceil_cost t r.
Proof.
  intros. unfold ceil_cost, COST_ROUNDING, COST_SCALE. apply Z.div_pos; nia.
Qed.

Lemma ceil_cost_le t r : 0 <= t -> 0 <= r -> ceil_cost t r <= t * r + COST_ROUNDING.
Proof.
  intros. unfold ceil_cost, COST_ROUNDING, COST_SCALE.
  apply Z.div_le_upper_bound; nia.
Qed.

Lemma saturate_u_small w z : is_u w z -> saturate_u w z = z.
Proof. unfold saturate_u, is_u. lia. Qed.

Lemma product_bound a b x y : 0 <= a <= x -> 0 <= b <= y -> 0 <= a * b <= x * y.
Proof. nia. Qed.

Lemma model_cost_reference_exact m i :
  model_typed m -> input_typed i ->
  model_cost_reference m (ki_input_tokens i) (ki_output_tokens i) = exact_cost m i.
Proof.
  intros (_&_&_&_&_&_&_&_&Hin&Hout) (_&_&Hti&Hto&_).
  pose proof (product_bound _ _ _ _ Hti Hin) as B1.
  pose proof (product_bound _ _ _ _ Hto Hout) as B2.
  pose proof (ceil_cost_nonneg _ _ (proj1 Hti) (proj1 Hin)) as N1.
  pose proof (ceil_cost_nonneg _ _ (proj1 Hto) (proj1 Hout)) as N2.
  pose proof (ceil_cost_le _ _ (proj1 Hti) (proj1 Hin)) as L1.
  pose proof (ceil_cost_le _ _ (proj1 Hto) (proj1 Hout)) as L2.
  unfold model_cost_reference, exact_cost.
  set (a := ki_input_tokens i * _) in *. set (b := ki_output_tokens i * _) in *.
  rewrite (saturate_u_small 128 a), (saturate_u_small 128 b)
    by (unfold is_u, umax in *; lia).
  rewrite (saturate_u_small 128 (a + _)), (saturate_u_small 128 (b + _))
    by (unfold is_u, umax, COST_ROUNDING, COST_SCALE in *; lia).
  change ((a + COST_ROUNDING) / COST_SCALE) with
    (ceil_cost (ki_input_tokens i) (km_input_cost_microunits_per_million_tokens m)).
  change ((b + COST_ROUNDING) / COST_SCALE) with
    (ceil_cost (ki_output_tokens i) (km_output_cost_microunits_per_million_tokens m)).
  rewrite saturate_u_small by (unfold is_u, umax, COST_ROUNDING, COST_SCALE in *; lia).
  unfold checked_u. destruct (in_u 64 _) eqn:E; simpl.
  - apply in_u_spec in E. unfold is_u in E. lia.
  - unfold in_u in E. rewrite andb_false_iff, !Z.leb_gt in E. lia.
Qed.

Lemma model_cost_fast_exact (p : PolicySnapshot) m i :
  model_typed m -> input_typed i ->
  km_input_cost_microunits_per_million_tokens m <= ps_max_input_cost p ->
  km_output_cost_microunits_per_million_tokens m <= ps_max_output_cost p ->
  all_costs_fit_u64 p (ki_input_tokens i) (ki_output_tokens i) = true ->
  model_cost_fast m (ki_input_tokens i) (ki_output_tokens i) = exact_cost m i.
Proof.
  intros (_&_&_&_&_&_&_&_&Hin&Hout) (_&_&Hti&Hto&_) Hmi Hmo Hfit.
  unfold all_costs_fit_u64 in Hfit.
  destruct (checked_u 64 (ki_input_tokens i * _)) as [v1|] eqn:E1; [|done]. cbn -[checked_u] in Hfit.
  destruct (checked_u 64 (v1 + _)) as [w1|] eqn:F1; [|done].
  destruct (checked_u 64 (ki_output_tokens i * _)) as [v2|] eqn:E2; [|done]. cbn -[checked_u] in Hfit.
  destruct (checked_u 64 (v2 + _)) as [w2|] eqn:F2; [|done].
  apply bool_decide_eq_true in Hfit as [s Hs].
  apply checked_u_Some in E1 as [-> E1], F1 as [-> F1], E2 as [-> E2], F2 as [-> F2], Hs as [-> Hs].
  pose proof (ceil_cost_nonneg _ _ (proj1 Hti) (proj1 Hin)) as N1.
  pose proof (ceil_cost_nonneg _ _ (proj1 Hto) (proj1 Hout)) as N2.
  pose proof (ceil_cost_le _ _ (proj1 Hti) (proj1 Hin)) as L1.
  pose proof (ceil_cost_le _ _ (proj1 Hto) (proj1 Hout)) as L2.
  pose proof (Z.mul_le_mono_nonneg_l _ _ (ki_input_tokens i) (proj1 Hti) Hmi) as M1.
  pose proof (Z.mul_le_mono_nonneg_l _ _ (ki_output_tokens i) (proj1 Hto) Hmo) as M2.
  pose proof (Z.mul_nonneg_nonneg _ _ (proj1 Hti) (proj1 Hin)) as P1.
  pose proof (Z.mul_nonneg_nonneg _ _ (proj1 Hto) (proj1 Hout)) as P2.
  unfold model_cost_fast, exact_cost.
  unfold is_u in *. unfold COST_ROUNDING, COST_SCALE in *.
  rewrite !(wrap_u_small 64 (_ * _)), !(wrap_u_small 64 (_ * _ + _))
    by (unfold is_u; lia).
  unfold ceil_cost, COST_ROUNDING, COST_SCALE in *.
  rewrite wrap_u_small by (unfold is_u; lia). lia.
Qed.

(** ** The scaled terms *)

Lemma scaled_term_reference_exact v f s :
  is_u 64 v -> is_u 16 f -> is_u 16 s ->
  scaled_term_reference v f s = v * f * s / SCALED_BASIS_POINTS.
Proof.
  intros Hv Hf Hs. unfold scaled_term_reference, mul_i.
  pose proof (product_bound _ _ _ _ Hv Hf) as B1.
  pose proof (product_bound _ _ _ _ B1 Hs) as B2.
  rewrite (wrap_i_small 128 (v * f)) by (unfold is_i, imin, imax, umax in *; lia).
  rewrite wrap_i_small by (unfold is_i, imin, imax, umax in *; lia).
  apply Z.quot_div_nonneg; [lia|]. unfold SCALED_BASIS_POINTS, BASIS_POINTS. lia.
Qed.

Lemma scaled_term_exact_exact v f s :
  is_u 64 v -> is_u 16 f -> is_u 16 s ->
  scaled_term_exact v f s = v * f * s / SCALED_BASIS_POINTS.
Proof.
  intros Hv Hf Hs. unfold scaled_term_exact.
  destruct (checked_u 64 (v * f)) as [a|] eqn:E1; cbn -[checked_u];
    [|by apply scaled_term_reference_exact].
  destruct (checked_u 64 (a * s)) as [b|] eqn:E2; [|by apply scaled_term_reference_exact].
  apply checked_u_Some in E1 as [-> E1], E2 as [-> E2]. done.
Qed.

Lemma scaled_bound v f s : is_u 64 v -> is_u 16 f -> is_u 16 s ->
  0 <= v * f * s / SCALED_BASIS_POINTS <= 2 ^ 96.
Proof.
  intros Hv Hf Hs.
  pose proof (product_bound _ _ _ _ (product_bound _ _ _ _ Hv Hf) Hs) as B.
  unfold SCALED_BASIS_POINTS, BASIS_POINTS. split; [apply Z.div_pos; lia|].
  apply Z.div_le_upper_bound; [lia|]. unfold umax in *. lia.
Qed.

Lemma request_value_typed i : input_typed i -> is_u 64 (request_value i).
Proof. intros (_&_&_&_&H&_). unfold request_value. int_lia. Qed.

(** ** The snapshot's cached maxima bound every candidate *)

Lemma derived_bounds p m :
  derived_ok p -> m ∈ ps_models p ->
  km_quality_bps m <= ps_max_quality_bps p /\
  km_p95_latency_ms m <= ps_max_p95_latency_ms p /\
  km_input_cost_microunits_per_million_tokens m <= ps_max_input_cost p /\
  km_output_cost_microunits_per_million_tokens m <= ps_max_output_cost p.
Proof.
  intros (-> & -> & -> & ->) Hm.
  repeat split; apply max_or_default_ge, list_elem_of_fmap_2; done.
Qed.

Lemma model_typed_of_policy p m : policy_wf p -> m ∈ ps_models p -> model_typed m.
Proof. intros (_ & HF & _) Hm. rewrite list.Forall_forall in HF. auto. Qed.

Lemma Pricing_cost_exact p i m :
  policy_wf p -> input_typed i -> m ∈ ps_models p ->
  Pricing_cost (Pricing_new p i) m i = exact_cost m i.
Proof.
  intros Hp Hi Hm. pose proof (model_typed_of_policy _ _ Hp Hm) as Ht.
  destruct Hp as (_ & _ & Hd). destruct (derived_bounds _ _ Hd Hm) as (_ & _ & Hin & Hout).
  unfold Pricing_cost, Pricing_new. simpl.
  destruct (all_costs_fit_u64 _ _ _) eqn:E.
  - by eapply model_cost_fast_exact.
  - by apply model_cost_reference_exact.
Qed.

Lemma Pricing_quality_exact p i m c :
  policy_wf p -> input_typed i -> m ∈ ps_models p ->
  ut_quality_adjusted (Pricing_terms (Pricing_new p i) m c) = exact_quality_adjusted m i.
Proof.
  intros Hp Hi Hm. pose proof (model_typed_of_policy _ _ Hp Hm) as Ht.
  destruct Hp as (_ & _ & Hd). destruct (derived_bounds _ _ Hd Hm) as (Hq & _).
  pose proof (request_value_typed _ Hi) as Hv.
  destruct Ht as (_&_&Hqt&_). destruct Hi as (_&_&_&_&_&_&_&Hc&_).
  unfold Pricing_terms, Pricing_new, exact_quality_adjusted; cbn -[checked_u].
  change (Z.max (ki_business_value_microunits i) 0) with (request_value i).
  destruct (checked_u 64 (request_value i * _)) as [a|] eqn:E1;
    [|by apply scaled_term_reference_exact].
  apply checked_u_Some in E1 as [-> E1].
  destruct (checked_u 64 (_ * ps_max_quality_bps p)) as [b|] eqn:E2; cbn -[checked_u];
    [|by apply scaled_term_reference_exact].
  apply checked_u_Some in E2 as [-> E2].
  rewrite wrap_u_small; [done|lia|].
  eapply mul_le_is_u; [exact (proj1 E1)| |exact E2]. unfold is_u in *. lia.
Qed.

Lemma Pricing_latency_exact p i m c :
  policy_wf p -> input_typed i -> m ∈ ps_models p ->
  ut_latency_penalty (Pricing_terms (Pricing_new p i) m c) = exact_latency_penalty p m.
Proof.
  intros Hp Hi Hm. pose proof (model_typed_of_policy _ _ Hp Hm) as Ht.
  destruct Hp as ((_&_&_&_&_&Hpen) & _ & Hd). destruct (derived_bounds _ _ Hd Hm) as (_ & Hl & _).
  destruct Ht as (_&_&_&_&_&Hlt&_).
  unfold Pricing_terms, Pricing_new, exact_latency_penalty; cbn -[checked_u].
  destruct (checked_u 64 (ps_max_p95_latency_ms p * _)) as [b|] eqn:E2; cbn -[checked_u].
  - apply checked_u_Some in E2 as [-> E2]. apply wrap_u_small; [lia|].
    rewrite Z.mul_comm. rewrite Z.mul_comm in E2.
    eapply mul_le_is_u; [exact (proj1 Hpen)| |exact E2]. unfold is_u in *. lia.
  - unfold mul_i. apply wrap_i_small; [lia|].
    pose proof (product_bound _ _ _ _ Hlt Hpen). unfold is_i, imin, imax, umax in *. lia.
Qed.

Lemma exact_cost_range m i : model_typed m -> input_typed i -> is_u 64 (exact_cost m i).
Proof.
  intros (_&_&_&_&_&_&_&_&Hin&Hout) (_&_&Hti&Hto&_). unfold exact_cost.
  pose proof (ceil_cost_nonneg _ _ (proj1 Hti) (proj1 Hin)).
  pose proof (ceil_cost_nonneg _ _ (proj1 Hto) (proj1 Hout)). int_lia.
Qed.

(** Both arithmetic paths compute the exact terms: no wrap-around is visible. *)
Lemma Pricing_terms_exact p i m :
  policy_wf p -> input_typed i -> m ∈ ps_models p ->
  Pricing_terms (Pricing_new p i) m (Pricing_cost (Pricing_new p i) m i) = exact_terms p i m.
Proof.
  intros Hp Hi Hm. rewrite (Pricing_cost_exact p i m Hp Hi Hm).
  pose proof (Pricing_quality_exact p i m (exact_cost m i) Hp Hi Hm) as HQ.
  pose proof (Pricing_latency_exact p i m (exact_cost m i) Hp Hi Hm) as HL.
  pose proof (model_typed_of_policy _ _ Hp Hm) as Ht.
  pose proof (exact_cost_range _ _ Ht Hi) as HC.
  pose proof (request_value_typed _ Hi) as Hv.
  assert (pr_risk_penalty (Pricing_new p i) = exact_risk_penalty p i) as HR.
  { apply scaled_term_exact_exact; [done|apply Hi|apply Hp]. }
  assert (0 <= exact_quality_adjusted m i <= 2 ^ 96) as BQ
    by (apply scaled_bound; [done|apply Hi|apply Ht]).
  assert (0 <= exact_risk_penalty p i <= 2 ^ 96) as BR
    by (apply scaled_bound; [done|apply Hi|apply Hp]).
  assert (0 <= exact_latency_penalty p m <= umax 32 * umax 64) as BL
    by (apply product_bound; [apply Ht|apply Hp]).
  revert HQ HL. unfold Pricing_terms at 1 2 3, exact_terms, exact_utility.
  cbn [ut_quality_adjusted ut_latency_penalty]. intros -> ->. rewrite HR.
  f_equal. unfold clamp_i128_to_i64. f_equal. unfold sub_i.
  unfold is_u, umax in *.
  rewrite (wrap_i_small 128 (exact_quality_adjusted m i - exact_risk_penalty p i))
    by (unfold is_i, imin, imax; lia).
  rewrite (wrap_i_small 128 (_ - exact_cost m i)) by (unfold is_i, imin, imax; lia).
  apply wrap_i_small; [lia|]. unfold is_i, imin, imax. lia.
Qed.
