(* ===== verification/KernelRank.v ===== *)
(** * Ranking: what [prescribe] selects

    The candidate loop of [prescribe_inner] is split into three independent
    folds (ranking, counting, tallying), the ranking fold is shown to compute
    the best and the second-best candidate under the tie-break order, and the
    decision is shown to refine an abstract specification that knows nothing
    about loops, indices or machine arithmetic. *)

From S2P Require Import Prelude Kernel KernelPricing.
#[local] Open Scope Z_scope.

(** ** The loop, taken apart *)

(** The candidate an iteration ranks, when it ranks one. *)
Definition candidate_of (pricing : Pricing) (input : KernelInput) (im : Z * KernelModel)
    : option Candidate :=
  match explain_verdict pricing input (snd im) with
  | Eligible t =>
      Some {| cd_model_id := km_model_id (snd im); cd_model_index := index_u16 (fst im);
              cd_quality_bps := km_quality_bps (snd im);
              cd_cost := ut_cost_microunits t; cd_utility := ut_utility t |}
  | _ => None
  end.

Definition eligible_candidates (p : PolicySnapshot) (i : KernelInput) : list Candidate :=
  omap (candidate_of (Pricing_new p i) i) (enumerate (ps_models p)).

Definition rank_step (bs : option Candidate * option Candidate) (c : Candidate)
    : option Candidate * option Candidate :=
  match bs with
  | (None, second) => (Some c, second)
  | (Some b, second) =>
      if candidate_better c b then (Some c, Some b)
      else if match second with None => true | Some s => candidate_better c s end
      then (Some b, Some c) else (Some b, second)
  end.

Definition rank (l : list Candidate) : option Candidate * option Candidate :=
  fold_left rank_step l (None, None).

Definition tally (h : RejectionHistogram) (v : CandidateVerdict) : RejectionHistogram :=
  match v with
  | Rejected g _ _ => bump h g
  | OverBudget _ _ => bump_budget h
  | VerdictNonPositiveUtility _ => bump_utility h
  | Eligible _ => h
  end.

Definition verdicts (p : PolicySnapshot) (i : KernelInput) : list CandidateVerdict :=
  map (explain_verdict (Pricing_new p i) i) (ps_models p).

Lemma consider_split pr i b s e h im :
  consider pr i (mkLoopState b s e h) im =
    match candidate_of pr i im with
    | Some c => mkLoopState (fst (rank_step (b, s) c)) (snd (rank_step (b, s) c)) (sat_succ_u16 e) h
    | None => mkLoopState b s e (tally h (explain_verdict pr i (snd im)))
    end.
Proof.
  destruct im as [ix m]. unfold consider, candidate_of, explain_verdict. simpl.
  destruct (first_failed_gate m i) as [g|]; [by destruct (gate_detail m i g)|].
  destruct (_ <? _) eqn:E1; [done|]. destruct (_ <=? 0) eqn:E2; [done|]. simpl.
  destruct b as [b|]; [|done].
  by destruct (candidate_better _ b); [|destruct s as [s|]; [destruct (candidate_better _ s)|]].
Qed.

Lemma eligible_tally pr i im c h :
  candidate_of pr i im = Some c -> tally h (explain_verdict pr i (snd im)) = h.
Proof. unfold candidate_of. by destruct (explain_verdict _ _ _). Qed.

Lemma fold_consider pr i ims : forall b s e h,
  fold_left (consider pr i) ims (mkLoopState b s e h) =
    let cs := omap (candidate_of pr i) ims in
    mkLoopState (fst (fold_left rank_step cs (b, s))) (snd (fold_left rank_step cs (b, s)))
      (fold_left (fun e _ => sat_succ_u16 e) cs e)
      (fold_left tally (map (fun im => explain_verdict pr i (snd im)) ims) h).
Proof.
  induction ims as [|im ims IH]; intros b s e h; [done|].
  cbn [fold_left]. rewrite consider_split. cbn [omap list_omap map fold_left].
  destruct (candidate_of pr i im) as [c|] eqn:E.
  - rewrite IH, (eligible_tally _ _ _ _ _ E). cbn [fold_left].
    by destruct (rank_step (b, s) c).
  - by rewrite IH.
Qed.

Lemma enumerate_snd {A} (l : list A) : map snd (enumerate l) = l.
Proof.
  unfold enumerate. generalize 0%nat as k. revert l.
  assert (forall (l : list A) (f : nat -> nat), map snd (imap (fun i x => (Z.of_nat (f i), x)) l) = l) as H.
  { induction l as [|x l IH]; intros f; [done|]. simpl. f_equal.
    apply (IH (fun i => f (S i))). }
  intros l _. apply (H l id).
Qed.

Lemma sat_count {A} (l : list A) : forall e, 0 <= e <= umax 16 ->
  fold_left (fun e _ => sat_succ_u16 e) l e = Z.min (umax 16) (e + Z.of_nat (length l)).
Proof.
  induction l as [|x l IH]; intros e He; cbn [fold_left length]; [lia|].
  rewrite IH; unfold sat_succ_u16, saturate_u, umax in *; lia.
Qed.

Lemma run_loop_split p i :
  run_loop p i =
    mkLoopState (fst (rank (eligible_candidates p i))) (snd (rank (eligible_candidates p i)))
      (Z.min (umax 16) (Z.of_nat (length (eligible_candidates p i))))
      (fold_left tally (verdicts p i) histogram_default).
Proof.
  unfold run_loop. rewrite fold_consider. cbv zeta.
  rewrite sat_count by (unfold umax; lia). rewrite Z.add_0_l.
  f_equal. f_equal. unfold verdicts.
  rewrite <- (enumerate_snd (ps_models p)) at 2. by rewrite map_map.
Qed.

(** ** [candidate_better] is a strict weak order; distinct identifiers make it
    total *)

Lemma better_irrefl c : candidate_better c c = false.
Proof. unfold candidate_better. lia. Qed.

Lemma better_asym a b : candidate_better a b = true -> candidate_better b a = false.
Proof. unfold candidate_better. lia. Qed.

Lemma better_trans a b c :
  candidate_better a b = true -> candidate_better b c = true -> candidate_better a c = true.
Proof. unfold candidate_better. lia. Qed.

Lemma not_better_trans a b c :
  candidate_better a b = false -> candidate_better b c = false -> candidate_better a c = false.
Proof. unfold candidate_better. lia. Qed.

Lemma better_total a b :
  candidate_better a b = false -> candidate_better b a = false -> cd_model_id a = cd_model_id b.
Proof. unfold candidate_better. lia. Qed.

#[export] Hint Resolve better_irrefl better_asym not_better_trans : caly.

(** ** The best and the second best *)

(** No member of [l] beats [c]. *)
Definition unbeaten (c : Candidate) (l : list Candidate) : Prop :=
  forall c', c' ∈ l -> candidate_better c' c = false.

(** [top l o rest]: [o] is an unbeaten member of [l] and [rest] the others;
    [None] when [l] is empty. *)
Definition top (l : list Candidate) (o : option Candidate) (rest : list Candidate) : Prop :=
  match o with
  | None => l = [] /\ rest = []
  | Some c => l ≡ₚ c :: rest /\ unbeaten c rest
  end.

Definition top_two (l : list Candidate) (bs : option Candidate * option Candidate) : Prop :=
  exists rest rest', top l (fst bs) rest /\ top rest (snd bs) rest'.

Lemma unbeaten_cons c x l :
  unbeaten c (x :: l) <-> candidate_better x c = false /\ unbeaten c l.
Proof.
  unfold unbeaten. setoid_rewrite elem_of_cons. split; [auto|]. intros [? ?] c' [->|?]; auto.
Qed.

Lemma unbeaten_perm c l l' : l ≡ₚ l' -> unbeaten c l -> unbeaten c l'.
Proof. unfold unbeaten. intros Hp H c' Hc. apply H. by rewrite Hp. Qed.

Lemma unbeaten_weaken c b l :
  candidate_better b c = false -> unbeaten b l -> unbeaten c l.
Proof. unfold unbeaten. eauto with caly. Qed.

Lemma rank_step_top l bs c : top_two l bs -> top_two (l ++ [c]) (rank_step bs c).
Proof.
  destruct bs as [[b|] s]; intros (rest & rest' & Ht & Ht'); cbn [fst snd top] in *.
  2:{ destruct Ht as [-> ->]. destruct s as [s|]; cbn in Ht'.
      - destruct Ht' as [Hp _]. by apply Permutation_nil_cons in Hp.
      - exists [], []. simpl. repeat split; try done. intros x Hx. by apply not_elem_of_nil in Hx. }
  destruct Ht as [Hp Hb]. cbn [rank_step].
  assert (l ++ [c] ≡ₚ c :: b :: rest) as Hp'
    by (rewrite Hp; rewrite <- Permutation_cons_append; done).
  destruct (candidate_better c b) eqn:Ecb.
  { exists (b :: rest), rest. cbn. split_and!; try done.
    apply unbeaten_cons. split; [by apply better_asym|].
    eapply unbeaten_weaken; [by apply better_asym|done]. }
  assert (unbeaten b (c :: rest)) as Hb' by by apply unbeaten_cons.
  assert (l ++ [c] ≡ₚ b :: c :: rest) as Hp'' by (rewrite Hp'; constructor).
  destruct s as [s|]; cbn [top] in Ht'.
  - destruct Ht' as [Hq Hs]. destruct (candidate_better c s) eqn:Ecs.
    + exists (c :: rest), rest. cbn. split_and!; try done.
      apply (unbeaten_perm _ (s :: rest')); [done|]. apply unbeaten_cons.
      split; [by apply better_asym|]. eapply unbeaten_weaken; [by apply better_asym|done].
    + exists (c :: rest), (c :: rest'). cbn. split_and!; try done.
      * rewrite Hq. constructor.
      * by apply unbeaten_cons.
  - destruct Ht' as [-> ->]. exists [c], []. cbn. split_and!; try done.
    intros x Hx. by apply not_elem_of_nil in Hx.
Qed.

Lemma rank_top_two l : top_two l (rank l).
Proof.
  induction l as [|c l IH] using rev_ind.
  - exists [], []. done.
  - unfold rank. rewrite fold_left_app. simpl. by apply rank_step_top.
Qed.

(** ** The abstract specification of a decision *)

(** A candidate that passes every gate, fits the budget and is worth more than
    it costs, by the exact formula. *)
Definition admissible (p : PolicySnapshot) (i : KernelInput) (m : KernelModel) : bool :=
  match first_failed_gate m i with
  | Some _ => false
  | None => (exact_cost m i <=? ki_budget_limit_microunits i) && (0 <? exact_utility p i m)
  end.

(** The admissible catalog entries, with their positions. *)
Definition admissible_entries (p : PolicySnapshot) (i : KernelInput) : list (Z * KernelModel) :=
  List.filter (fun im => admissible p i (snd im)) (enumerate (ps_models p)).

(** Higher utility, then lower cost, then higher quality, then lower id. *)
Definition preferred (p : PolicySnapshot) (i : KernelInput) (a b : KernelModel) : Prop :=
  exact_utility p i b < exact_utility p i a \/
  (exact_utility p i a = exact_utility p i b /\
   (exact_cost a i < exact_cost b i \/
    (exact_cost a i = exact_cost b i /\
     (km_quality_bps b < km_quality_bps a \/
      (km_quality_bps a = km_quality_bps b /\ km_model_id a < km_model_id b))))).

(** [e] is an admissible entry that no other one is preferred to. *)
Definition choice (p : PolicySnapshot) (i : KernelInput) (l : list (Z * KernelModel))
    (e : Z * KernelModel) (rest : list (Z * KernelModel)) : Prop :=
  l ≡ₚ e :: rest /\ forall e', e' ∈ rest -> ~ preferred p i (snd e') (snd e).

(** What a decision on a request that is not refused up front has to be. *)
Definition decision_spec (p : PolicySnapshot) (i : KernelInput) (d : KernelDecision) : Prop :=
  kd_request_sequence d = ki_request_sequence i /\
  kd_policy_epoch d = ps_policy_epoch p /\ kd_catalog_epoch d = ps_catalog_epoch p /\
  kd_evaluated_models d = Z.min (umax 16) (Z.of_nat (length (ps_models p))) /\
  kd_eligible_models d = Z.min (umax 16) (Z.of_nat (length (admissible_entries p i))) /\
  ((admissible_entries p i = [] /\ kd_action d = Reject /\ kd_selected_model_id d = 0 /\
    kd_selected_model_index d = umax 16 /\ kd_estimated_cost_microunits d = 0 /\
    kd_expected_utility_microunits d = 0 /\ kd_counterfactual_model_id d = 0 /\
    kd_counterfactual_utility_microunits d = 0)
   \/
   exists e rest,
     choice p i (admissible_entries p i) e rest /\
     (kd_action d, kd_reason d) =
       (if km_model_id (snd e) =? ki_requested_model_id i
        then (ExecuteRequested, RequestedModelMaximizesUtility)
        else (Substitute, AlternativeMaximizesUtility)) /\
     kd_selected_model_id d = km_model_id (snd e) /\
     kd_selected_model_index d = Z.min (umax 16) (fst e) /\
     kd_estimated_cost_microunits d = exact_cost (snd e) i /\
     kd_expected_utility_microunits d = exact_utility p i (snd e) /\
     ((rest = [] /\ kd_counterfactual_model_id d = 0 /\
       kd_counterfactual_utility_microunits d = 0)
      \/
      exists e2 rest2,
        choice p i rest e2 rest2 /\
        kd_counterfactual_model_id d = km_model_id (snd e2) /\
        kd_counterfactual_utility_microunits d = exact_utility p i (snd e2))).

(** ** The loop refines the specification *)

Definition rate (p : PolicySnapshot) (i : KernelInput) (im : Z * KernelModel) : Candidate :=
  {| cd_model_id := km_model_id (snd im); cd_model_index := index_u16 (fst im);
     cd_quality_bps := km_quality_bps (snd im);
     cd_cost := exact_cost (snd im) i; cd_utility := exact_utility p i (snd im) |}.

Lemma index_u16_min z : 0 <= z -> index_u16 z = Z.min (umax 16) z.
Proof.
  intros. unfold index_u16, checked_u. destruct (in_u 16 z) eqn:E; simpl.
  - apply in_u_spec in E. unfold is_u in E. lia.
  - unfold in_u in E. rewrite andb_false_iff, !Z.leb_gt in E. lia.
Qed.

Lemma elem_of_enumerate {A} (l : list A) k x :
  (k, x) ∈ enumerate l <-> 0 <= k /\ l !! Z.to_nat k = Some x.
Proof.
  unfold enumerate. rewrite elem_of_lookup_imap. split.
  - intros (n & y & [= -> ->] & Hl). split; [lia|]. by rewrite Nat2Z.id.
  - intros [Hk Hl]. exists (Z.to_nat k), x. split; [|done]. f_equal. lia.
Qed.

Lemma candidate_of_exact p i im :
  policy_wf p -> input_typed i -> snd im ∈ ps_models p ->
  candidate_of (Pricing_new p i) i im =
    if admissible p i (snd im) then Some (rate p i im) else None.
Proof.
  intros Hp Hi Hm. unfold candidate_of, explain_verdict, admissible, rate.
  destruct (first_failed_gate (snd im) i) as [g|]; [by destruct (gate_detail _ _ g)|].
  rewrite (Pricing_terms_exact _ _ _ Hp Hi Hm), (Pricing_cost_exact _ _ _ Hp Hi Hm).
  cbn [ut_utility exact_terms].
  destruct (Z.ltb_spec (ki_budget_limit_microunits i) (exact_cost (snd im) i));
    destruct (Z.leb_spec (exact_cost (snd im) i) (ki_budget_limit_microunits i)); try lia; [done|].
  destruct (Z.leb_spec (exact_utility p i (snd im)) 0);
    destruct (Z.ltb_spec 0 (exact_utility p i (snd im))); try lia; done.
Qed.

Lemma omap_if_filter {A B} (f : A -> option B) (b : A -> bool) (g : A -> B) l :
  (forall x, x ∈ l -> f x = if b x then Some (g x) else None) ->
  omap f l = map g (List.filter b l).
Proof.
  induction l as [|x l IH]; intros H; [done|]. cbn [omap list_omap List.filter].
  rewrite (H x) by left. destruct (b x); simpl; rewrite IH; try done; intros y Hy; apply H; by right.
Qed.

Lemma eligible_candidates_exact p i :
  policy_wf p -> input_typed i ->
  eligible_candidates p i = map (rate p i) (admissible_entries p i).
Proof.
  intros Hp Hi. apply omap_if_filter. intros [k m] Hin.
  apply candidate_of_exact; [done..|]. simpl.
  apply elem_of_enumerate in Hin as [_ Hl]. by apply list_elem_of_lookup_2 in Hl.
Qed.

Lemma better_preferred p i a b :
  candidate_better (rate p i a) (rate p i b) = false -> ~ preferred p i (snd a) (snd b).
Proof. unfold candidate_better, preferred, rate; simpl. lia. Qed.

Lemma top_choice p i l c rest :
  top (map (rate p i) l) (Some c) rest ->
  exists e r, c = rate p i e /\ rest = map (rate p i) r /\ choice p i l e r.
Proof.
  intros [Hp Hu]. apply Permutation_sym, Permutation_map_inv in Hp as (l' & Heq & Hp).
  destruct l' as [|e r]; [done|]. injection Heq as -> ->.
  exists e, r. unfold choice. split_and!; try done. intros e' He'. apply better_preferred, Hu.
  by apply list_elem_of_fmap_2.
Qed.

Lemma top_none l rest : top l None rest -> l = [] /\ rest = [].
Proof. done. Qed.

Lemma admissible_entries_pos p i e : e ∈ admissible_entries p i ->
  0 <= fst e /\ ps_models p !! Z.to_nat (fst e) = Some (snd e) /\ admissible p i (snd e) = true.
Proof.
  unfold admissible_entries. rewrite list_elem_of_In, filter_In, <- list_elem_of_In.
  destruct e as [k m]. rewrite elem_of_enumerate. simpl. tauto.
Qed.

Lemma prescribe_refines p i :
  policy_wf p -> input_typed i -> request_refusal p i = None ->
  decision_spec p i (prescribe p i).
Proof.
  intros Hp Hi Hr. unfold prescribe, prescribe_inner. rewrite Hr, run_loop_split. cbv zeta.
  rewrite eligible_candidates_exact by done. rewrite length_map.
  destruct (rank_top_two (map (rate p i) (admissible_entries p i))) as (rest & rest' & Ht & Ht').
  destruct (rank _) as [[b|] s] eqn:Erank; cbn [fst snd ls_best ls_second] in *;
    unfold decision_spec; simpl; rewrite index_u16_min by lia; split_and!; try done.
  - right. apply top_choice in Ht as (e & r & -> & -> & Hc). exists e, r.
    assert (0 <= fst e) as Hpos.
    { apply (admissible_entries_pos p i). destruct Hc as [-> _]. left. }
    simpl. rewrite (index_u16_min (fst e)) by done.
    split_and!; try done; [by destruct (_ =? _)|].
    destruct s as [s|].
    + right. apply top_choice in Ht' as (e2 & r2 & -> & _ & Hc2). by exists e2, r2.
    + left. apply top_none in Ht' as [Hr' _]. destruct r; done.
  - left. apply top_none in Ht as [Hn _]. destruct (admissible_entries p i); done.
Qed.

(** ** The dominant rejection reason *)

Lemma max_by_key_spec {A} (key : A -> Z) (l : list A) :
  match max_by_key key l with
  | None => l = []
  | Some x => x ∈ l /\ forall y, y ∈ l -> key y <= key x
  end.
Proof.
  unfold max_by_key. induction l as [|y l IH] using rev_ind; [done|].
  rewrite fold_left_app. simpl. destruct (fold_left _ l None) as [x|].
  - destruct IH as [Hx Hmax]. destruct (Z.leb_spec (key x) (key y)).
    + split; [set_solver|]. intros z [Hz|Hz%list_elem_of_singleton]%elem_of_app; [|by subst].
      specialize (Hmax z Hz). lia.
    + split; [set_solver|]. intros z [Hz|Hz%list_elem_of_singleton]%elem_of_app; [auto|subst; lia].
  - subst. split; [set_solver|]. intros z Hz%list_elem_of_singleton. by subst.
Qed.

(** The counter a constraint reason stands for; zero for the other reasons. *)
Definition reason_count (h : RejectionHistogram) (r : KernelReason) : Z :=
  match r with
  | CapabilityConstraint => rh_capability h
  | RegionConstraint => rh_region h
  | ProviderConstraint => rh_provider h
  | QualityConstraint => rh_quality h
  | RiskCeilingConstraint => rh_risk_ceiling h
  | LatencyConstraint => rh_latency h
  | BudgetConstraint => rh_budget h
  | NonPositiveUtility => rh_utility h
  | NoEnabledModel => rh_disabled h
  | _ => 0
  end.

Lemma dominant_reason_spec h :
  let r := dominant_rejection_reason h in
  (r = NoEnabledModel /\ forall r', reason_count h r' <= 0) \/
  (0 < reason_count h r /\ forall r', reason_count h r' <= reason_count h r).
Proof.
  cbv zeta. unfold dominant_rejection_reason.
  pose proof (max_by_key_spec fst
    [(rh_capability h, CapabilityConstraint); (rh_region h, RegionConstraint);
     (rh_provider h, ProviderConstraint); (rh_quality h, QualityConstraint);
     (rh_risk_ceiling h, RiskCeilingConstraint); (rh_latency h, LatencyConstraint);
     (rh_budget h, BudgetConstraint); (rh_utility h, NonPositiveUtility);
     (rh_disabled h, NoEnabledModel)]) as H.
  destruct (max_by_key _ _) as [[n r]|]; [|done]. destruct H as [Hin Hmax].
  assert (n = reason_count h r) as -> by (repeat (apply elem_of_cons in Hin as [Hin|Hin]; [by injection Hin as -> ->|]); by apply not_elem_of_nil in Hin).
  assert (forall r', reason_count h r' <= Z.max 0 (reason_count h r)) as Hall.
  { intros r'. destruct (decide (reason_count h r' <= 0)); [lia|].
    apply Z.le_trans with (reason_count h r); [|lia].
    apply (Hmax (reason_count h r', r')). destruct r'; simpl in *; try lia; set_solver. }
  destruct (Z.ltb_spec 0 (reason_count h r)); [right|left];
    (split; [done|]); intros r'; specialize (Hall r'); lia.
Qed.

Lemma dominant_reason_constraint h :
  dominant_rejection_reason h <> RiskHardLimit /\ dominant_rejection_reason h <> ConfidenceHardLimit.
Proof.
  destruct (dominant_reason_spec h) as [[-> _]|[H _]]; [done|].
  split; intros E; rewrite E in H; simpl in H; lia.
Qed.
