(* ===== verification/KernelProps.v ===== *)
(** * Properties of the kernel's decisions

    The theorems about [prescribe]: exact pricing on both paths, the abstract
    specification, fail-closed refusals and independence of the catalog order. *)

From S2P Require Import Prelude Kernel KernelPricing KernelRank.
#[local] Open Scope Z_scope.

(** ** Claims that follow from the refinement *)

(** What the tokens of a request cost, each side rounded up, with no bound. *)
Definition unbounded_cost (m : KernelModel) (i : KernelInput) : Z :=
  ceil_cost (ki_input_tokens i) (km_input_cost_microunits_per_million_tokens m)
  + ceil_cost (ki_output_tokens i) (km_output_cost_microunits_per_million_tokens m).

(** Claim C30: For every candidate of a well-formed snapshot's catalog and every
    well-typed request, the kernel's pricing saturates and never wraps, by
    whichever of its fast wrapping path and its wide reference path. The cost is
    the formula over the integers, or [u64::MAX] when that is larger; in
    particular it is the exact cost whenever that fits [u64]. The value and the
    risk and latency penalties are exact, and the utility is the integer they and
    that cost give, held to the range of [i64]. *)
Theorem pricing_paths_exact (p : PolicySnapshot) (i : KernelInput) (m : KernelModel)
    (Hp : policy_wf p) (Hi : input_typed i) (Hm : m ∈ ps_models p) :
  Pricing_cost (Pricing_new p i) m i = Z.min (umax 64) (unbounded_cost m i) /\
  Pricing_terms (Pricing_new p i) m (Pricing_cost (Pricing_new p i) m i) =
    mkUtilityTerms (exact_quality_adjusted m i) (exact_risk_penalty p i) (Z.min (umax 64) (unbounded_cost m i))
      (exact_latency_penalty p m)
      (saturate_i 64 (exact_quality_adjusted m i - exact_risk_penalty p i - Z.min (umax 64) (unbounded_cost m i)
                      - exact_latency_penalty p m)).
Proof.
  change (Z.min (umax 64) (unbounded_cost m i)) with (exact_cost m i). change (mkUtilityTerms _ _ _ _ _) with (exact_terms p i m).
  auto using Pricing_cost_exact, Pricing_terms_exact.
Qed.

Lemma pricing_paths_exact_witness :
  Pricing_cost (Pricing_new sample_policy sample_input) sample_model_20 sample_input
    = unbounded_cost sample_model_20 sample_input.
Proof.
  rewrite (proj1 (pricing_paths_exact sample_policy sample_input sample_model_20
    ltac:(by_compute) ltac:(by_compute) ltac:(right; left))).
  vm_compute. reflexivity.
Defined.

(** Claim C1: On a request that the hard limits do not refuse,
    [prescribe] returns a decision that meets the abstract specification: it
    rejects exactly when no catalog entry is admissible (fail-closed);
    otherwise it selects an admissible entry that no other is preferred to
    under utility, then cost, then quality, then identifier, reports that
    entry's exact cost and utility and position, and reports as
    counterfactual the best of the remaining entries. *)
Theorem prescribe_meets_spec (p : PolicySnapshot) (i : KernelInput)
    (Hp : policy_wf p) (Hi : input_typed i) (Hr : request_refusal p i = None) :
  decision_spec p i (prescribe p i).
Proof. by apply prescribe_refines. Qed.

Lemma prescribe_meets_spec_witness :
  decision_spec sample_policy sample_input (prescribe sample_policy sample_input).
Proof.
  apply (prescribe_meets_spec sample_policy sample_input); by_compute.
Defined.

(** The request-level refusals come before the catalog: a
    request at or above the hard risk limit is rejected for that reason, a
    request below it with confidence under the floor is rejected for that
    one, no candidate is evaluated or explained in either case, and these two
    reasons are never given otherwise. *)
Theorem hard_limits_fail_closed (p : PolicySnapshot) (i : KernelInput) :
  let d := prescribe p i in
  (ps_hard_risk_limit_bps p <= ki_risk_bps i ->
     kd_reason d = RiskHardLimit) /\
  (ki_risk_bps i < ps_hard_risk_limit_bps p ->
     ki_confidence_bps i < ps_minimum_confidence_bps p ->
     kd_reason d = ConfidenceHardLimit) /\
  (kd_reason d = RiskHardLimit \/ kd_reason d = ConfidenceHardLimit ->
     is_rejected d = true /\ kd_evaluated_models d = 0 /\ ex_candidates (explain p i) = [] /\
     request_refusal p i = Some (kd_reason d)).
Proof.
  cbv zeta. unfold prescribe, explain, prescribe_inner, request_refusal.
  destruct (Z.leb_spec (ps_hard_risk_limit_bps p) (ki_risk_bps i)); [simpl; by repeat split; intros; try lia|].
  destruct (Z.ltb_spec (ki_confidence_bps i) (ps_minimum_confidence_bps p)); [simpl; by repeat split; intros; try lia|].
  split; [lia|]. split; [lia|]. intros Hd. exfalso. revert Hd.
  destruct (ls_best _); simpl; [destruct (_ =? _); simpl; intros [|]; done|].
  pose proof (dominant_reason_constraint (ls_rejected (run_loop p i))). tauto.
Qed.

(** ** The order of the catalog *)

Lemma preferred_total p i a b :
  ~ preferred p i a b -> ~ preferred p i b a -> km_model_id a = km_model_id b.
Proof. unfold preferred. lia. Qed.

Lemma unique_id (l : list KernelModel) a b :
  NoDup (map km_model_id l) -> a ∈ l -> b ∈ l -> km_model_id a = km_model_id b -> a = b.
Proof.
  intros Hnd Ha Hb Heq. apply list_elem_of_lookup in Ha as [x Hx], Hb as [y Hy].
  assert (x = y) as ->; [|congruence].
  eapply (NoDup_lookup _ _ _ (km_model_id a)); [done| |].
  - rewrite list_lookup_fmap, Hx. done.
  - rewrite list_lookup_fmap, Hy. simpl. congruence.
Qed.

(** Two choices from the same models, listed in different orders, agree. *)
Lemma choice_unique p i l l' e e' r r' :
  NoDup (map km_model_id (map snd l)) -> map snd l ≡ₚ map snd l' ->
  choice p i l e r -> choice p i l' e' r' ->
  snd e = snd e' /\ map snd r ≡ₚ map snd r'.
Proof.
  intros Hnd Hp [Hl Hu] [Hl' Hu'].
  assert (map snd l ≡ₚ snd e :: map snd r) as Q by by rewrite Hl.
  assert (map snd l ≡ₚ snd e' :: map snd r') as Q' by (rewrite Hp; by rewrite Hl').
  assert (snd e = snd e') as E.
  { destruct (decide (snd e = snd e')) as [|Hne]; [done|]. exfalso.
    assert (snd e ∈ map snd r') as I1.
    { assert (snd e ∈ map snd l) as H by (rewrite Q; left). rewrite Q' in H. apply elem_of_cons in H as [|]; done. }
    assert (snd e' ∈ map snd r) as I2.
    { assert (snd e' ∈ map snd l) as H by (rewrite Q'; left). rewrite Q in H. apply elem_of_cons in H as [|]; congruence. }
    apply Hne, (unique_id (map snd l)); [done|rewrite Q; left|rewrite Q'; left|].
    apply list_elem_of_fmap in I1 as (x & Ex & Hx), I2 as (y & Ey & Hy).
    apply (preferred_total p i); [rewrite Ex; auto|rewrite Ey; auto]. }
  split; [done|]. rewrite E in Q. rewrite Q in Q'. by apply Permutation_cons_inv in Q'.
Qed.

Lemma tally_comm h v w : tally (tally h v) w = tally (tally h w) v.
Proof.
  destruct h, v as [[]| | |], w as [[]| | |]; reflexivity.
Qed.

(** A decision without the catalog position of the selected candidate. *)
Definition forget_index (d : KernelDecision) : KernelDecision :=
  {| kd_request_sequence := kd_request_sequence d; kd_action := kd_action d;
     kd_reason := kd_reason d; kd_selected_model_id := kd_selected_model_id d;
     kd_selected_model_index := 0;
     kd_estimated_cost_microunits := kd_estimated_cost_microunits d;
     kd_expected_utility_microunits := kd_expected_utility_microunits d;
     kd_counterfactual_model_id := kd_counterfactual_model_id d;
     kd_counterfactual_utility_microunits := kd_counterfactual_utility_microunits d;
     kd_evaluated_models := kd_evaluated_models d; kd_eligible_models := kd_eligible_models d;
     kd_policy_epoch := kd_policy_epoch d; kd_catalog_epoch := kd_catalog_epoch d |}.

Lemma admissible_entries_models p i :
  map snd (admissible_entries p i) = List.filter (admissible p i) (ps_models p).
Proof. unfold admissible_entries. by rewrite map_filter_swap, enumerate_snd. Qed.

Lemma NoDup_filter_ids f (l : list KernelModel) :
  NoDup (map km_model_id l) -> NoDup (map km_model_id (List.filter f l)).
Proof.
  induction l as [|m l IH]; simpl; [done|]. intros [Hm Hl]%list.NoDup_cons.
  destruct (f m); simpl; [|auto]. apply list.NoDup_cons. split; [|auto].
  intros (x & Ex & Hx)%list_elem_of_fmap. apply Hm. rewrite Ex. apply list_elem_of_fmap_2.
  rewrite list_elem_of_In, filter_In in Hx. rewrite list_elem_of_In. apply Hx.
Qed.

Section CatalogOrder.
Context (pe ce hr mc rm lp : Z) (models models' : list KernelModel).
Let p := new_unchecked pe ce hr mc rm lp models.
Let p' := new_unchecked pe ce hr mc rm lp models'.
Context (i : KernelInput).
Context (Hp : policy_wf p) (Hi : input_typed i) (Hperm : models ≡ₚ models').

Lemma policy_wf_perm : policy_wf p'.
Proof using Hp Hperm.
  destruct Hp as (Hh & HF & _). split_and!; [done| |done].
  cbn in *. by rewrite <- Hperm.
Qed.

Lemma Pricing_new_perm : Pricing_new p i = Pricing_new p' i.
Proof using Hperm.
  unfold Pricing_new, all_costs_fit_u64, p, p', new_unchecked. cbn [ps_max_quality_bps
    ps_max_p95_latency_ms ps_max_input_cost ps_max_output_cost ps_risk_penalty_multiplier_bps
    ps_latency_penalty_microunits_per_ms].
  by rewrite !(max_or_default_perm (map _ models) (map _ models')) by (by rewrite Hperm).
Qed.

Lemma rejected_perm :
  fold_left tally (verdicts p i) histogram_default =
  fold_left tally (verdicts p' i) histogram_default.
Proof using Hperm.
  apply (fold_left_perm _ tally_comm). unfold verdicts.
  rewrite Pricing_new_perm. apply Permutation_map, Hperm.
Qed.

Lemma admissible_perm :
  map snd (admissible_entries p i) ≡ₚ map snd (admissible_entries p' i).
Proof using Hperm. rewrite !admissible_entries_models. by apply filter_perm. Qed.
End CatalogOrder.

Lemma reject_reason_loop p i :
  request_refusal p i = None -> kd_action (prescribe p i) = Reject ->
  kd_reason (prescribe p i) =
    dominant_rejection_reason (fold_left tally (verdicts p i) histogram_default).
Proof.
  intros Hr. unfold prescribe, prescribe_inner. rewrite Hr, run_loop_split. simpl.
  destruct (fst (rank _)); simpl; [|done]. by destruct (_ =? _).
Qed.

Lemma decision_eq d d' :
  forget_index d = forget_index d' <->
  kd_request_sequence d = kd_request_sequence d' /\ (kd_action d, kd_reason d) = (kd_action d', kd_reason d') /\
  kd_selected_model_id d = kd_selected_model_id d' /\
  kd_estimated_cost_microunits d = kd_estimated_cost_microunits d' /\
  kd_expected_utility_microunits d = kd_expected_utility_microunits d' /\
  kd_counterfactual_model_id d = kd_counterfactual_model_id d' /\
  kd_counterfactual_utility_microunits d = kd_counterfactual_utility_microunits d' /\
  kd_evaluated_models d = kd_evaluated_models d' /\ kd_eligible_models d = kd_eligible_models d' /\
  kd_policy_epoch d = kd_policy_epoch d' /\ kd_catalog_epoch d = kd_catalog_epoch d'.
Proof.
  unfold forget_index. split; [by intros [= ]; split_and!; congruence|].
  intros (? & [= ] & ?); destruct_and?; f_equal; congruence.
Qed.

(** Selections that meet the specification of the same models are the same. *)
Lemma decision_spec_perm p p' i d d' :
  (forall m, exact_utility p i m = exact_utility p' i m) ->
  ps_policy_epoch p = ps_policy_epoch p' -> ps_catalog_epoch p = ps_catalog_epoch p' ->
  ps_models p ≡ₚ ps_models p' -> NoDup (map km_model_id (ps_models p)) ->
  map snd (admissible_entries p i) ≡ₚ map snd (admissible_entries p' i) ->
  decision_spec p i d -> decision_spec p' i d' ->
  (kd_action d = Reject -> kd_action d' = Reject -> kd_reason d = kd_reason d') ->
  forget_index d = forget_index d'.
Proof.
  intros Hu Hpe Hce Hm Hnd Ha (D1&D2&D3&D4&D5&D) (E1&E2&E3&E4&E5&E) Hreason.
  assert (NoDup (map km_model_id (map snd (admissible_entries p i)))) as Hnd'
    by (rewrite admissible_entries_models; by apply NoDup_filter_ids).
  assert (length (admissible_entries p i) = length (admissible_entries p' i)) as Hlen
    by (apply Permutation_length in Ha; by rewrite !length_map in Ha).
  assert (forall a b, preferred p' i a b -> preferred p i a b) as Hpr
    by (intros a b; unfold preferred; by rewrite !Hu).
  rewrite Hm in D4. rewrite Hlen in D5.
  destruct D as [(Dn & D)|(e & r & Dc & D6 & D7 & _ & D8 & D9 & D)],
    E as [(En & E)|(e' & r' & Ec & E6 & E7 & _ & E8 & E9 & E)].
  - destruct_and?. apply decision_eq. split_and!; try congruence. f_equal; [congruence|auto].
  - exfalso. rewrite Dn in Hlen. destruct Ec as [Ec _]. rewrite Ec in Hlen. done.
  - exfalso. rewrite En in Hlen. destruct Dc as [Dc _]. rewrite Dc in Hlen. done.
  - assert (choice p i (admissible_entries p' i) e' r') as Ec'
      by (split; [apply Ec|]; intros x Hx Hc; eapply (proj2 Ec); [done|]; unfold preferred in *; by rewrite <- !Hu).
    destruct (choice_unique _ _ _ _ _ _ _ _ Hnd' Ha Dc Ec') as [He Hr].
    rewrite He in *. rewrite Hu in D9.
    assert (kd_counterfactual_model_id d = kd_counterfactual_model_id d' /\
            kd_counterfactual_utility_microunits d = kd_counterfactual_utility_microunits d') as [].
    { destruct D as [(-> & D & D')|(e2 & r2 & Dc2 & D & D')],
        E as [(-> & E & E')|(e2' & r2' & Ec2 & E & E')].
      - split; congruence.
      - exfalso. apply Permutation_nil in Hr. destruct Ec2 as [Ec2 _]. destruct r'; [|done].
        by apply Permutation_nil_cons in Ec2.
      - exfalso. symmetry in Hr. apply Permutation_nil in Hr. destruct Dc2 as [Dc2 _].
        destruct r; [|done]. by apply Permutation_nil_cons in Dc2.
      - assert (choice p i r' e2' r2') as Ec2'
          by (split; [apply Ec2|]; intros x Hx Hc; eapply (proj2 Ec2); [done|]; unfold preferred in *; by rewrite <- !Hu).
        assert (NoDup (map km_model_id (map snd r))) as Hndr.
        { destruct Dc as [Dc _]. rewrite Dc in Hnd'. simpl in Hnd'. by apply list.NoDup_cons in Hnd' as [_ ?]. }
        destruct (choice_unique _ _ _ _ _ _ _ _ Hndr Hr Dc2 Ec2') as [He2 _].
        rewrite He2, Hu in *. split; congruence. }
    apply decision_eq. split_and!; congruence.
Qed.

(** Claim C33: Two policies that list the same candidates, with
    distinct identifiers, in different orders decide every request alike: the
    two decisions agree in every field but the catalog position of the
    selected candidate. *)
Theorem catalog_order_irrelevant (pe ce hr mc rm lp : Z) (models models' : list KernelModel)
    (i : KernelInput)
    (Hp : policy_wf (new_unchecked pe ce hr mc rm lp models)) (Hi : input_typed i)
    (Hperm : models ≡ₚ models') (Hnd : NoDup (map km_model_id models)) :
  forget_index (prescribe (new_unchecked pe ce hr mc rm lp models) i) =
  forget_index (prescribe (new_unchecked pe ce hr mc rm lp models') i).
Proof.
  set (p := new_unchecked pe ce hr mc rm lp models) in *.
  set (p' := new_unchecked pe ce hr mc rm lp models').
  pose proof (policy_wf_perm pe ce hr mc rm lp models models' Hp Hperm) as Hp'.
  destruct (request_refusal p i) as [r|] eqn:Hr.
  { assert (request_refusal p' i = Some r) as Hr' by done.
    unfold prescribe, prescribe_inner. by rewrite Hr, Hr'. }
  assert (request_refusal p' i = None) as Hr' by done.
  apply (decision_spec_perm p p' i); try done.
  - by apply admissible_perm.
  - by apply prescribe_refines.
  - by apply prescribe_refines.
  - intros H H'. rewrite !reject_reason_loop by done. f_equal. by apply rejected_perm.
Qed.

Lemma catalog_order_irrelevant_witness :
  forget_index (prescribe (new_unchecked 7 11 9600 5500 10000 2 [sample_model_10; sample_model_20])
                  sample_input) =
  forget_index (prescribe (new_unchecked 7 11 9600 5500 10000 2 [sample_model_20; sample_model_10])
                  sample_input).
Proof.
  apply catalog_order_irrelevant; [by_compute|by_compute|constructor|by_compute].
Defined.
