(* ===== verification/KernelExplain.v ===== *)
(** * The explanation paths: [explain], [prescribe_with_trace],
    [utility_for_model]

    Each of them is a second way to look at a decision; the theorems here say
    that none of them is a second opinion. The rejection histogram counts
    what its fields say it counts as long as the catalog fits the [u16]
    counters, which [try_new_trusted] guarantees; without that bound two of
    its counters wrap. *)

From S2P Require Import Prelude Kernel KernelPricing KernelRank.
#[local] Open Scope Z_scope.

(** ** Verdicts by the exact formula *)

Definition exact_verdict (p : PolicySnapshot) (i : KernelInput) (m : KernelModel)
    : CandidateVerdict :=
  match first_failed_gate m i with
  | Some g => Rejected g (fst (gate_detail m i g)) (snd (gate_detail m i g))
  | None =>
      if ki_budget_limit_microunits i <? exact_cost m i
      then OverBudget (exact_cost m i) (ki_budget_limit_microunits i)
      else if exact_utility p i m <=? 0 then VerdictNonPositiveUtility (exact_terms p i m)
      else Eligible (exact_terms p i m)
  end.

Lemma explain_verdict_exact p i m :
  policy_wf p -> input_typed i -> m ∈ ps_models p ->
  explain_verdict (Pricing_new p i) i m = exact_verdict p i m.
Proof.
  intros Hp Hi Hm. unfold explain_verdict, exact_verdict.
  destruct (first_failed_gate m i) as [g|]; [by destruct (gate_detail m i g)|].
  by rewrite (Pricing_terms_exact _ _ _ Hp Hi Hm), (Pricing_cost_exact _ _ _ Hp Hi Hm).
Qed.

Lemma exact_verdict_eligible p i m :
  is_eligible_verdict (exact_verdict p i m) = admissible p i m.
Proof.
  unfold exact_verdict, admissible. destruct (first_failed_gate m i); [done|].
  rewrite (Z.leb_antisym (ki_budget_limit_microunits i)), (Z.ltb_antisym (exact_utility p i m)).
  by destruct (_ <? exact_cost m i), (_ <=? 0).
Qed.

Lemma exact_verdict_terms p i m t : exact_verdict p i m = Eligible t -> t = exact_terms p i m.
Proof.
  unfold exact_verdict. destruct (first_failed_gate m i); [done|].
  destruct (_ <? _); [done|]. destruct (_ <=? _); [done|]. congruence.
Qed.

Definition exact_explanation (p : PolicySnapshot) (i : KernelInput) (im : Z * KernelModel)
    : CandidateExplanation :=
  {| ce_model_id := km_model_id (snd im); ce_model_index := Z.min (umax 16) (fst im);
     ce_verdict := exact_verdict p i (snd im) |}.

Lemma not_refused_reason p i :
  request_refusal p i = None ->
  kd_reason (prescribe p i) <> RiskHardLimit /\ kd_reason (prescribe p i) <> ConfidenceHardLimit.
Proof.
  intros Hr. unfold prescribe, prescribe_inner. rewrite Hr.
  destruct (ls_best _); simpl; [by destruct (_ =? _)|].
  apply dominant_reason_constraint.
Qed.

Lemma explain_candidates p i :
  policy_wf p -> input_typed i -> request_refusal p i = None ->
  ex_candidates (explain p i) = map (exact_explanation p i) (enumerate (ps_models p)).
Proof.
  intros Hp Hi Hr. unfold explain. change (fst (prescribe_inner p i)) with (prescribe p i).
  destruct (not_refused_reason _ _ Hr) as [H1 H2].
  assert (map (fun im => {| ce_model_id := km_model_id (snd im); ce_model_index := index_u16 (fst im);
            ce_verdict := explain_verdict (Pricing_new p i) i (snd im) |}) (enumerate (ps_models p))
          = map (exact_explanation p i) (enumerate (ps_models p))) as ->.
  { apply map_ext_in. intros [k m] Hin%list_elem_of_In%elem_of_enumerate.
    unfold exact_explanation. simpl. rewrite index_u16_min by tauto.
    rewrite explain_verdict_exact; try done. destruct Hin as [_ Hl].
    by apply list_elem_of_lookup_2 in Hl. }
  by destruct (kd_reason (prescribe p i)).
Qed.

Lemma explanation_eligible p i :
  policy_wf p -> input_typed i -> request_refusal p i = None ->
  Explanation_eligible (explain p i) = map (exact_explanation p i) (admissible_entries p i).
Proof.
  intros Hp Hi Hr. unfold Explanation_eligible. rewrite explain_candidates by done.
  rewrite <- map_filter_swap. f_equal. apply filter_ext. intros im. simpl.
  apply exact_verdict_eligible.
Qed.

(** [explain] cannot disagree with [prescribe]: it
    carries the same decision; when the request is not refused it has exactly
    one row per catalog entry, in order, with the verdict of the exact
    formula; the number of rows reported eligible is the decision's
    [eligible_models]; and when a candidate is selected, its own row is
    reported eligible with the decision's cost and utility, and no eligible
    row has a higher utility. *)
Theorem explain_agrees_with_prescribe (p : PolicySnapshot) (i : KernelInput)
    (Hp : policy_wf p) (Hi : input_typed i) (Hr : request_refusal p i = None) :
  ex_decision (explain p i) = prescribe p i /\
  ex_candidates (explain p i) = map (exact_explanation p i) (enumerate (ps_models p)) /\
  kd_eligible_models (prescribe p i) =
    Z.min (umax 16) (Z.of_nat (length (Explanation_eligible (explain p i)))) /\
  (is_executable (prescribe p i) = true ->
   exists row t, row ∈ Explanation_eligible (explain p i) /\ ce_verdict row = Eligible t /\
     ce_model_id row = kd_selected_model_id (prescribe p i) /\
     ce_model_index row = kd_selected_model_index (prescribe p i) /\
     ut_cost_microunits t = kd_estimated_cost_microunits (prescribe p i) /\
     ut_utility t = kd_expected_utility_microunits (prescribe p i) /\
     forall row' t', row' ∈ Explanation_eligible (explain p i) ->
       ce_verdict row' = Eligible t' -> ut_utility t' <= ut_utility t).
Proof.
  split; [unfold explain; by destruct (kd_reason _)|].
  split; [by apply explain_candidates|].
  rewrite explanation_eligible by done. rewrite length_map.
  destruct (prescribe_refines p i Hp Hi Hr) as (_&_&_&_&He&Hd). split; [done|].
  unfold is_executable. destruct Hd as [(_ & -> & _)|(e & r & [Hc Hu] & Ha & Hid & Hix & Hcost & Hut & _)];
    [done|]. intros _.
  assert (e ∈ admissible_entries p i) as Hin by (rewrite Hc; left).
  destruct (admissible_entries_pos _ _ _ Hin) as (_ & _ & Hadm).
  rewrite <- exact_verdict_eligible in Hadm.
  destruct (exact_verdict p i (snd e)) as [| | |t] eqn:Ev; try done.
  pose proof (exact_verdict_terms _ _ _ _ Ev) as ->.
  exists (exact_explanation p i e), (exact_terms p i (snd e)). simpl.
  split_and!; try done; [by apply list_elem_of_fmap_2|].
  intros row' t' (e' & -> & He')%list_elem_of_fmap Ht'. simpl in Ht'.
  apply exact_verdict_terms in Ht' as ->. simpl.
  rewrite Hc in He'. apply elem_of_cons in He' as [->|He']; [lia|].
  specialize (Hu _ He'). unfold preferred in Hu. lia.
Qed.

Lemma explain_agrees_with_prescribe_witness :
  kd_eligible_models (prescribe sample_policy sample_input) =
    Z.min (umax 16) (Z.of_nat (length (Explanation_eligible (explain sample_policy sample_input)))).
Proof.
  apply (explain_agrees_with_prescribe sample_policy sample_input); by_compute.
Defined.

(** ** [utility_for_model] *)

Lemma utility_for_model_verdict p i id :
  utility_for_model p i id =
    match request_refusal p i, List.find (fun m => km_model_id m =? id) (ps_models p) with
    | None, Some m =>
        match explain_verdict (Pricing_new p i) i m with
        | Eligible t => Some (ut_utility t)
        | _ => None
        end
    | _, _ => None
    end.
Proof.
  unfold utility_for_model, request_refusal. destruct (_ <=? ki_risk_bps i); [done|].
  destruct (ki_confidence_bps i <? _); [done|]. destruct (List.find _ _) as [m|]; [|done].
  unfold explain_verdict, Pricing_cost, Pricing_terms, Pricing_new, clamp_i128_to_i64.
  cbn [ut_utility pr_value pr_confidence_bps pr_quality_prefix pr_risk_penalty
       pr_all_costs_fit pr_all_latencies_fit pr_latency_pen_per_ms]. cbv zeta.
  destruct (first_failed_gate m i); [by destruct (gate_detail _ _ _)|].
  destruct (ki_budget_limit_microunits i <? _); [reflexivity|].
  match goal with |- context [saturate_i 64 ?e <=? 0] => generalize (saturate_i 64 e) end.
  intros u. destruct (u <=? 0); cbn [ut_utility]; reflexivity.
Qed.

Lemma find_unique (l : list KernelModel) m :
  NoDup (map km_model_id l) -> m ∈ l ->
  List.find (fun x => km_model_id x =? km_model_id m) l = Some m.
Proof.
  induction l as [|x l IH]; [intros _ H; by apply not_elem_of_nil in H|].
  cbn [map List.find]. intros [Hx Hl]%list.NoDup_cons [->|Hm]%elem_of_cons; [by rewrite Z.eqb_refl|].
  destruct (Z.eqb_spec (km_model_id x) (km_model_id m)) as [E|]; [|auto].
  exfalso. apply Hx. rewrite E. by apply list_elem_of_fmap_2.
Qed.

(** [utility_for_model], the stand-alone evaluation
    of one candidate, answers for a catalog with distinct identifiers exactly
    what the ranking used: [Some u] precisely for the identifiers of
    admissible candidates of a request that is not refused, with [u] the
    utility the candidate is ranked on. *)
Theorem utility_for_model_exact (p : PolicySnapshot) (i : KernelInput) (id u : Z)
    (Hp : policy_wf p) (Hi : input_typed i) (Hnd : NoDup (map km_model_id (ps_models p))) :
  utility_for_model p i id = Some u <->
  request_refusal p i = None /\
  exists m, m ∈ ps_models p /\ km_model_id m = id /\ admissible p i m = true /\
            u = exact_utility p i m.
Proof.
  rewrite utility_for_model_verdict. destruct (request_refusal p i); [split; [done|by intros [? _]]|].
  destruct (List.find _ _) as [m|] eqn:Hf.
  - apply find_some in Hf as [Hm Hid%Z.eqb_eq]. rewrite <- list_elem_of_In in Hm.
    rewrite explain_verdict_exact by done. split.
    + destruct (exact_verdict p i m) as [| | |t] eqn:Ev; try done. intros [= <-].
      split; [done|]. exists m. rewrite <- exact_verdict_eligible, Ev.
      apply exact_verdict_terms in Ev as ->. done.
    + intros (_ & m' & Hm' & <- & Ha & ->).
      assert (List.find (fun x => km_model_id x =? km_model_id m') (ps_models p) = Some m') as Hf'
        by by apply find_unique.
      assert (m = m') as ->.
      { rewrite <- Hid in Hf'. rewrite (find_unique _ m Hnd Hm) in Hf'. congruence. }
      rewrite <- exact_verdict_eligible in Ha.
      destruct (exact_verdict p i m') as [| | |t] eqn:Ev; try done.
      by apply exact_verdict_terms in Ev as ->.
  - split; [done|]. intros (_ & m' & Hm' & <- & _ & _). exfalso.
    by rewrite (find_unique _ _ Hnd Hm') in Hf.
Qed.

Lemma utility_for_model_exact_witness :
  exists u, utility_for_model sample_policy sample_input 20 = Some u /\
    exists m, m ∈ ps_models sample_policy /\ km_model_id m = 20 /\
      admissible sample_policy sample_input m = true /\ u = exact_utility sample_policy sample_input m.
Proof.
  eexists. split; [vm_compute; reflexivity|].
  apply (utility_for_model_exact sample_policy sample_input 20); [by_compute|by_compute|by_compute|].
  vm_compute. reflexivity.
Defined.

(** ** What the histogram counts *)

Definition rejected_by (g : GateKind) (v : CandidateVerdict) : bool :=
  match v with Rejected g' _ _ => bool_decide (g = g') | _ => false end.
Definition over_budget (v : CandidateVerdict) : bool :=
  match v with OverBudget _ _ => true | _ => false end.
Definition non_positive (v : CandidateVerdict) : bool :=
  match v with VerdictNonPositiveUtility _ => true | _ => false end.

Definition expected_histogram (vs : list CandidateVerdict) : RejectionHistogram :=
  {| rh_disabled := count (rejected_by Disabled) vs;
     rh_quality := count (rejected_by Quality) vs;
     rh_risk_ceiling := count (rejected_by RiskCeiling) vs;
     rh_latency := count (rejected_by Latency) vs;
     rh_capability := count (rejected_by Capability) vs;
     rh_provider := count (rejected_by ProviderUnrepresentable) vs
                    + count (rejected_by ProviderNotAllowed) vs;
     rh_region := count (rejected_by Region) vs;
     rh_budget := count over_budget vs;
     rh_utility := count non_positive vs |}.

Lemma sat_succ_u16_small z : 0 <= z < umax 16 -> sat_succ_u16 z = z + 1.
Proof. unfold sat_succ_u16, saturate_u, umax. lia. Qed.

Lemma inc_u16_small z : 0 <= z < umax 16 -> inc_u16 z = z + 1.
Proof. intros. unfold inc_u16, add_u. apply wrap_u_small; [lia|]. unfold is_u, umax in *. lia. Qed.

(** The counters of a list of verdicts never exceed its length together. *)
Lemma counters_total vs :
  count (rejected_by Disabled) vs + count (rejected_by Quality) vs
  + count (rejected_by RiskCeiling) vs + count (rejected_by Latency) vs
  + count (rejected_by Capability) vs + count (rejected_by ProviderUnrepresentable) vs
  + count (rejected_by ProviderNotAllowed) vs + count (rejected_by Region) vs
  + count over_budget vs + count non_positive vs + count is_eligible_verdict vs
  = Z.of_nat (length vs).
Proof.
  induction vs as [|v vs IH] using rev_ind; [done|].
  rewrite !count_app, length_app. simpl length.
  destruct v as [[]| | |]; simpl; lia.
Qed.

Lemma tally_expected vs :
  Z.of_nat (length vs) <= umax 16 ->
  fold_left tally vs histogram_default = expected_histogram vs.
Proof.
  induction vs as [|v vs IH] using rev_ind; [done|]. rewrite length_app. simpl length. intros Hlen.
  rewrite fold_left_app. simpl. rewrite IH by lia.
  pose proof (counters_total vs) as Ht.
  pose proof (count_le (rejected_by Disabled) vs). pose proof (count_le (rejected_by Quality) vs).
  pose proof (count_le (rejected_by RiskCeiling) vs). pose proof (count_le (rejected_by Latency) vs).
  pose proof (count_le (rejected_by Capability) vs). pose proof (count_le (rejected_by Region) vs).
  pose proof (count_le (rejected_by ProviderUnrepresentable) vs).
  pose proof (count_le (rejected_by ProviderNotAllowed) vs).
  pose proof (count_le over_budget vs). pose proof (count_le non_positive vs).
  pose proof (count_le is_eligible_verdict vs). unfold expected_histogram. rewrite !count_app.
  destruct v as [[]| | |]; simpl; f_equal; rewrite ?sat_succ_u16_small, ?inc_u16_small by lia; lia.
Qed.

Lemma trace_rejections p i :
  request_refusal p i = None ->
  dt_rejections (snd (prescribe_with_trace p i)) = fold_left tally (verdicts p i) histogram_default.
Proof.
  intros Hr. unfold prescribe_with_trace, prescribe_inner. rewrite Hr, run_loop_split. simpl.
  by destruct (fst (rank _)).
Qed.

Lemma eligible_count p i :
  Z.of_nat (length (eligible_candidates p i)) = count is_eligible_verdict (verdicts p i).
Proof.
  unfold eligible_candidates, verdicts, count. f_equal.
  rewrite <- (enumerate_snd (ps_models p)) at 2. rewrite map_map.
  induction (enumerate (ps_models p)) as [|im l IH]; [done|].
  cbn [omap list_omap map List.filter]. unfold candidate_of at 1.
  destruct (explain_verdict _ _ (snd im)); simpl; by rewrite IH.
Qed.

Definition histogram_total (h : RejectionHistogram) : Z :=
  rh_disabled h + rh_quality h + rh_risk_ceiling h + rh_latency h + rh_capability h
  + rh_provider h + rh_region h + rh_budget h + rh_utility h.

(** For a catalog of at most 65,535 candidates (what
    the trusted constructor admits) and a request that is not refused, every
    counter of the trace is the number of candidates rejected for that
    reason, and counters and eligible candidates add up to the whole
    catalog: no candidate is lost or counted twice. A rejection's reason is
    one whose counter is positive and not exceeded by any other's. *)
Theorem histogram_counts (p : PolicySnapshot) (i : KernelInput)
    (Hlen : Z.of_nat (length (ps_models p)) <= MAX_CATALOG_MODELS)
    (Hne : ps_models p <> []) (Hr : request_refusal p i = None) :
  let '(d, trace) := prescribe_with_trace p i in
  dt_rejections trace = expected_histogram (verdicts p i) /\
  histogram_total (dt_rejections trace) + dt_eligible_models trace = dt_evaluated_models trace /\
  dt_evaluated_models trace = Z.of_nat (length (ps_models p)) /\
  (is_rejected d = true ->
     0 < reason_count (dt_rejections trace) (kd_reason d) /\
     forall r, reason_count (dt_rejections trace) r
               <= reason_count (dt_rejections trace) (kd_reason d)).
Proof.
  pose proof (trace_rejections p i Hr) as Hrej.
  pose proof (counters_total (verdicts p i)) as Htot.
  assert (length (verdicts p i) = length (ps_models p)) as Hlv by apply length_map.
  rewrite tally_expected in Hrej by (rewrite Hlv; done).
  unfold prescribe_with_trace, prescribe_inner in *. rewrite Hr, run_loop_split in *.
  rewrite eligible_count, index_u16_min in * by lia. rewrite Hlv in Htot.
  unfold MAX_CATALOG_MODELS in Hlen.
  destruct (fst (rank _)) as [b|] eqn:Eb; simpl in *; rewrite Hrej;
    unfold histogram_total; cbn [rh_disabled rh_quality rh_risk_ceiling rh_latency rh_capability
      rh_provider rh_region rh_budget rh_utility expected_histogram];
    pose proof (count_le is_eligible_verdict (verdicts p i)).
  - split_and!; try lia; [done|]. by destruct (_ =? _).
  - split_and!; try lia; [done|]. intros _.
    assert (count is_eligible_verdict (verdicts p i) = 0) as Hz.
    { rewrite <- eligible_count. destruct (rank_top_two (eligible_candidates p i)) as (rest & rest' & Ht & _).
      rewrite Eb in Ht. destruct Ht as [-> _]. done. }
    destruct (dominant_reason_spec (expected_histogram (verdicts p i))) as [[_ Hall]|Hdom]; [exfalso|exact Hdom].
    assert (0 < Z.of_nat (length (ps_models p))) by (destruct (ps_models p); [done|simpl; lia]).
    pose proof (Hall NoEnabledModel) as Q1. pose proof (Hall QualityConstraint) as Q2.
    pose proof (Hall RiskCeilingConstraint) as Q3. pose proof (Hall LatencyConstraint) as Q4.
    pose proof (Hall CapabilityConstraint) as Q5. pose proof (Hall ProviderConstraint) as Q6.
    pose proof (Hall RegionConstraint) as Q7. pose proof (Hall BudgetConstraint) as Q8.
    pose proof (Hall NonPositiveUtility) as Q9. cbn in *. lia.
Qed.

(** Every candidate of the sample catalog is too expensive for this budget. *)
Definition poor_input : KernelInput :=
  mkKernelInput 1 20 2000 500 100000000 0 1000 9000 7000 1000 1 ALL_PROVIDERS 1.

Lemma histogram_counts_witness :
  kd_reason (prescribe sample_policy poor_input) = BudgetConstraint /\
  let '(d, trace) := prescribe_with_trace sample_policy poor_input in
  histogram_total (dt_rejections trace) + dt_eligible_models trace = dt_evaluated_models trace.
Proof.
  split; [by_compute|].
  pose proof (histogram_counts sample_policy poor_input) as H.
  destruct (prescribe_with_trace sample_policy poor_input) as [d t].
  apply H; by_compute.
Defined.

(** ** Beyond 65,535 candidates

    The gate counters saturate; the budget and the utility counter are
    incremented with a plain [+= 1]. *)

Lemma tally_over_budget vs h :
  Forall (fun v => over_budget v = true) vs ->
  fold_left tally vs h =
    match vs with
    | [] => h
    | _ =>
        mkRejectionHistogram (rh_disabled h) (rh_quality h) (rh_risk_ceiling h) (rh_latency h)
          (rh_capability h) (rh_provider h) (rh_region h)
          (wrap_u 16 (rh_budget h + Z.of_nat (length vs))) (rh_utility h)
    end.
Proof.
  revert h. induction vs as [|v vs IH]; intros h; [done|]. intros [Hv Hvs]%list.Forall_cons.
  destruct v; try done. destruct h. simpl. rewrite IH by done.
  destruct vs as [|v' vs']; simpl; unfold inc_u16, add_u; [done|].
  f_equal. unfold wrap_u. rewrite Zplus_mod_idemp_l. f_equal. lia.
Qed.

(** A catalog of 65,536 candidates that are all over budget is rejected with
    the reason "no enabled model", and the trace reports no candidate over
    budget: the counter has wrapped to zero. *)
Theorem budget_counter_wraps (p : PolicySnapshot) (i : KernelInput)
    (Hlen : Z.of_nat (length (ps_models p)) = 65536)
    (Hall : Forall (fun v => over_budget v = true) (verdicts p i))
    (Hr : request_refusal p i = None) :
  kd_reason (prescribe p i) = NoEnabledModel /\
  rh_budget (dt_rejections (snd (prescribe_with_trace p i))) = 0.
Proof.
  assert (length (verdicts p i) = length (ps_models p)) as Hlv by apply length_map.
  rewrite trace_rejections by done. unfold prescribe, prescribe_inner.
  rewrite Hr, run_loop_split. cbn [ls_best ls_rejected].
  assert (eligible_candidates p i = []) as ->.
  { pose proof (eligible_count p i) as E.
    assert (count is_eligible_verdict (verdicts p i) = 0) as Hz.
    { clear - Hall. induction Hall as [|v vs Hv _ IH]; [done|]. unfold count in *. simpl. by destruct v. }
    rewrite Hz in E. destruct (eligible_candidates p i); [done|simpl in E; lia]. }
  rewrite tally_over_budget by done. destruct (verdicts p i) as [|v vs] eqn:Ev.
  { simpl in *. lia. }
  rewrite Hlv, Hlen. done.
Qed.

(** The sample candidate, listed that often, is such a catalog. *)
Lemma budget_counter_wraps_catalog (n : nat) (Hn : Z.of_nat n = 65536) :
  kd_reason (prescribe (new_unchecked 7 11 9600 5500 10000 2 (replicate n sample_model_10))
               poor_input) = NoEnabledModel.
Proof.
  apply budget_counter_wraps.
  - simpl. by rewrite length_replicate.
  - apply list.Forall_forall. intros v (m & -> & Hm)%list_elem_of_fmap.
    apply elem_of_replicate_inv in Hm as ->.
    match goal with |- context [Pricing_new ?p ?i] => generalize (Pricing_new p i) end.
    intros pr. unfold explain_verdict, Pricing_cost. simpl.
    destruct (pr_all_costs_fit pr); by_compute.
  - by_compute.
Qed.
