(* ===== verification/KernelPolicy.v ===== *)
(** * Policy construction and validation

    What [validate], [try_new] and [try_new_trusted] accept, and what a
    snapshot they return is guaranteed to satisfy. *)

From S2P Require Import Prelude Kernel KernelPricing.
#[local] Open Scope Z_scope.

(** ** What validation accepts *)

Definition model_valid (m : KernelModel) : Prop :=
  km_provider_id m <= MAX_PROVIDER_ID /\ km_quality_bps m <= MAX_BPS /\
  km_risk_ceiling_bps m <= MAX_BPS.

Definition policy_valid (p : PolicySnapshot) : Prop :=
  ps_hard_risk_limit_bps p <= MAX_BPS /\ ps_minimum_confidence_bps p <= MAX_BPS /\
  ps_risk_penalty_multiplier_bps p <= MAX_RISK_PENALTY_MULTIPLIER_BPS /\
  NoDup (map km_model_id (ps_models p)) /\ Forall model_valid (ps_models p) /\
  Exists (fun m => km_enabled m <> 0) (ps_models p).

Lemma validate_models_spec models : forall seen any b,
  validate_models seen any models = Ok b <->
  NoDup (map km_model_id models) /\ (forall m, m ∈ models -> km_model_id m ∉ seen) /\
  Forall model_valid models /\
  b = any || existsb (fun m => negb (km_enabled m =? 0)) models.
Proof.
  induction models as [|m models IH]; intros seen any b; cbn [validate_models map existsb].
  - rewrite orb_false_r. split; [intros [= <-]|by intros (_&_&_&->)].
    split_and!; try done; [constructor|intros m Hm; by apply not_elem_of_nil in Hm].
  - case_bool_decide as Hs.
    { split; [done|]. intros (_ & H & _). by destruct (H m); [left|]. }
    destruct (Z.ltb_spec MAX_PROVIDER_ID (km_provider_id m)) as [H1|H1].
    { split; [done|]. intros (_ & _ & [HF _]%list.Forall_cons & _). destruct HF. lia. }
    destruct (Z.ltb_spec MAX_BPS (km_quality_bps m)) as [H2|H2].
    { split; [done|]. intros (_ & _ & [HF _]%list.Forall_cons & _). destruct HF as (_&?&_). lia. }
    destruct (Z.ltb_spec MAX_BPS (km_risk_ceiling_bps m)) as [H3|H3].
    { split; [done|]. intros (_ & _ & [HF _]%list.Forall_cons & _). destruct HF as (_&_&?). lia. }
    rewrite IH, list.NoDup_cons, list.Forall_cons, orb_assoc.
    setoid_rewrite elem_of_cons. setoid_rewrite elem_of_union. setoid_rewrite elem_of_singleton.
    split.
    + intros (Hnd & Hsn & HF & ->). split_and!; try done.
      * intros (x & Ex & Hx)%list_elem_of_fmap. apply (Hsn x Hx). by left.
      * intros x [->|Hx]; [done|]. intros ?. apply (Hsn x Hx). by right.
    + intros ([Hni Hnd] & Hsn & [_ HF] & ->). split_and!; try done.
      intros x Hx [E|?]; [|by apply (Hsn x (or_intror Hx))].
      apply Hni. rewrite <- E. by apply list_elem_of_fmap_2.
Qed.

Lemma existsb_enabled models :
  existsb (fun m => negb (km_enabled m =? 0)) models = true <->
  Exists (fun m => km_enabled m <> 0) models.
Proof.
  rewrite existsb_exists, Exists_exists. setoid_rewrite <- list_elem_of_In.
  setoid_rewrite negb_true_iff. setoid_rewrite Z.eqb_neq. done.
Qed.

Lemma validate_spec p : PolicySnapshot_validate p = Ok tt <-> policy_valid p.
Proof.
  unfold PolicySnapshot_validate, policy_valid.
  destruct (Z.ltb_spec MAX_BPS (ps_hard_risk_limit_bps p)); [split; [done|lia]|].
  destruct (Z.ltb_spec MAX_BPS (ps_minimum_confidence_bps p)); [split; [done|lia]|].
  destruct (Z.ltb_spec MAX_RISK_PENALTY_MULTIPLIER_BPS (ps_risk_penalty_multiplier_bps p));
    [split; [done|lia]|].
  destruct (ps_models p) as [|m l] eqn:El.
  - split; [done|]. intros (_&_&_&_&_&HE). by apply Exists_nil in HE.
  - rewrite <- El, <- existsb_enabled.
    destruct (validate_models ∅ false (ps_models p)) as [b|e] eqn:Ev; cbn.
    + apply validate_models_spec in Ev as (Hnd & _ & HF & ->). simpl.
      destruct (existsb _ _) eqn:Ee; [done|split; [done|]]. intros (_&_&_&_&_&HE). congruence.
    + split; [done|]. intros (_&_&_&Hnd&HF&HE).
      assert (validate_models ∅ false (ps_models p) = Ok true) as E; [|congruence].
      apply validate_models_spec. split_and!; try done; by rewrite HE.
Qed.

(** ** What the trusted constructor guarantees *)

(** A snapshot fit to serve: valid, canonical, and within the [u16] counters. *)
Definition trusted (p : PolicySnapshot) : Prop :=
  policy_valid p /\ policy_wf p /\
  StronglySorted (fun a b => km_model_id a < km_model_id b) (ps_models p) /\
  Forall (fun m => km_model_id m <> 0 /\ 0 <= km_enabled m <= 1) (ps_models p) /\
  Z.of_nat (length (ps_models p)) <= MAX_CATALOG_MODELS.

Lemma sorted_strict (l : list KernelModel) :
  StronglySorted (key_le km_model_id) l -> NoDup (map km_model_id l) ->
  StronglySorted (fun a b => km_model_id a < km_model_id b) l.
Proof.
  induction 1 as [|m l Hl IH Hm]; intros Hnd; [constructor|].
  simpl in Hnd. apply list.NoDup_cons in Hnd as [Hni Hnd]. constructor; [auto|].
  rewrite list.Forall_forall in *. intros x Hx. specialize (Hm x Hx). unfold key_le in Hm.
  assert (km_model_id m <> km_model_id x); [|lia].
  intros E. apply Hni. rewrite E. by apply list_elem_of_fmap_2.
Qed.

Lemma new_unchecked_wf pe ce hr mc rm lp models :
  is_u 64 pe -> is_u 64 ce -> is_u 16 hr -> is_u 16 mc -> is_u 16 rm -> is_u 64 lp ->
  Forall model_typed models -> policy_wf (new_unchecked pe ce hr mc rm lp models).
Proof. intros. by split_and!. Qed.

Lemma try_new_trusted_inv pe ce hr mc rm lp models p :
  try_new_trusted pe ce hr mc rm lp models = Ok p <->
  Z.of_nat (length models) <= MAX_CATALOG_MODELS /\
  Forall (fun m => km_model_id m <> 0 /\ km_enabled m <= 1) models /\
  p = new_unchecked pe ce hr mc rm lp (sort_by_key km_model_id models) /\ policy_valid p.
Proof.
  unfold try_new_trusted. rewrite list.Forall_forall.
  destruct (Z.ltb_spec MAX_CATALOG_MODELS (Z.of_nat (length models))); [split; [done|lia]|].
  destruct (existsb _ models) eqn:Ez.
  { split; [done|]. intros (_ & HF & _). apply existsb_exists in Ez as (m & Hm & Hz).
    apply list_elem_of_In in Hm. destruct (HF m Hm). lia. }
  assert (forall m, m ∈ models -> km_model_id m <> 0) as Hz.
  { intros m Hm E. assert (existsb (fun m => km_model_id m =? 0) models = true); [|congruence].
    apply existsb_exists. exists m. rewrite <- list_elem_of_In, E. done. }
  destruct (List.find _ models) as [m|] eqn:Ef.
  { split; [done|]. intros (_ & HF & _). apply find_some in Ef as [Hm He].
    apply list_elem_of_In in Hm. destruct (HF m Hm). lia. }
  assert (forall m, m ∈ models -> km_enabled m <= 1) as He.
  { intros m Hm%list_elem_of_In. pose proof (find_none _ _ Ef m Hm) as E. simpl in E. lia. }
  set (q := new_unchecked _ _ _ _ _ _ _).
  destruct (PolicySnapshot_validate q) as [[]|e] eqn:Ev; cbn.
  - apply validate_spec in Ev. split; [intros [= <-]; auto|]. by intros (_ & _ & -> & _).
  - split; [done|]. intros (_ & _ & -> & Hv). apply validate_spec in Hv. congruence.
Qed.

(** Every policy [try_new_trusted] returns is fit to serve:
    it validates, its cached maxima are those of its catalog, its candidates
    are in strictly ascending identifier order, identifier zero (which a
    rejection reports) names no candidate, every enabled flag is 0 or 1, and
    the catalog fits the [u16] counters of a decision. *)
Theorem try_new_trusted_sound (pe ce hr mc rm lp : Z) (models : list KernelModel) (p : PolicySnapshot)
    (Hty : is_u 64 pe /\ is_u 64 ce /\ is_u 16 hr /\ is_u 16 mc /\ is_u 16 rm /\ is_u 64 lp)
    (Hmt : Forall model_typed models)
    (Hok : try_new_trusted pe ce hr mc rm lp models = Ok p) :
  trusted p.
Proof.
  apply try_new_trusted_inv in Hok as (Hlen & HF & -> & Hv).
  destruct Hty as (?&?&?&?&?&?). split_and!; [done| | | |].
  - apply new_unchecked_wf; try done. by rewrite sort_by_key_perm.
  - apply sorted_strict; [apply sort_by_key_sorted|apply Hv].
  - simpl. rewrite sort_by_key_perm. rewrite list.Forall_forall in *. intros m Hm.
    destruct (HF m Hm), (Hmt m Hm) as (_&_&_&_&[]&_). auto.
  - simpl. by rewrite sort_by_key_perm.
Qed.

Lemma try_new_trusted_sound_witness :
  try_new_trusted 7 11 9600 5500 10000 2 [sample_model_20; sample_model_10] = Ok sample_policy /\
  trusted sample_policy.
Proof.
  split; [vm_compute; reflexivity|].
  apply (try_new_trusted_sound 7 11 9600 5500 10000 2 [sample_model_20; sample_model_10]);
    [by_compute|by_compute|vm_compute; reflexivity].
Defined.

(** [try_new_trusted] accepts a catalog exactly when
    it has at most 65,535 candidates, none with identifier zero or a
    non-canonical enabled flag, and the sorted snapshot validates; the
    snapshot does not depend on the order the candidates were given in. *)
Theorem try_new_trusted_complete (pe ce hr mc rm lp : Z) (models models' : list KernelModel) :
  ((exists p, try_new_trusted pe ce hr mc rm lp models = Ok p) <->
     Z.of_nat (length models) <= MAX_CATALOG_MODELS /\
     Forall (fun m => km_model_id m <> 0 /\ km_enabled m <= 1) models /\
     policy_valid (new_unchecked pe ce hr mc rm lp models)) /\
  (forall p, models ≡ₚ models' ->
     try_new_trusted pe ce hr mc rm lp models = Ok p ->
     try_new_trusted pe ce hr mc rm lp models' = Ok p).
Proof.
  assert (policy_valid (new_unchecked pe ce hr mc rm lp models) <->
          policy_valid (new_unchecked pe ce hr mc rm lp (sort_by_key km_model_id models))) as Hv.
  { unfold policy_valid. simpl. by rewrite sort_by_key_perm. }
  split.
  - rewrite Hv. split.
    + intros [p Hp]. apply try_new_trusted_inv in Hp as (H1 & H2 & -> & H3). done.
    + intros (H1 & H2 & H3). eexists. apply try_new_trusted_inv. split_and!; try done.
  - intros p Hp (H1 & H2 & -> & H3)%try_new_trusted_inv. apply try_new_trusted_inv.
    split_and!; [by rewrite <- Hp|by rewrite <- Hp| |done].
    f_equal. apply sort_by_key_canonical; [|done].
    destruct H3 as (_&_&_&Hnd&_). simpl in Hnd. by rewrite sort_by_key_perm in Hnd.
Qed.

(** The decisions of a trusted policy: a rejection is recognisable by the
    reserved identifier zero. *)
Lemma trusted_nonzero p m : trusted p -> m ∈ ps_models p -> km_model_id m <> 0.
Proof. intros (_&_&_&HF&_) Hm. rewrite list.Forall_forall in HF. by apply HF. Qed.
