(* ===== verification/Bytes.v ===== *)
(** * Bytes, hexadecimal text and the hash interface

    Little- and big-endian encodings ([to_le_bytes], [to_be_bytes]), the
    lower-case hexadecimal printer and decoder of [src/digest.rs] and
    [src/verify.rs], and the interface to SHA-256 and HMAC-SHA256, which live
    in third-party crates. *)

From Stdlib Require Import Ascii String.
From S2P Require Import Prelude.
#[local] Open Scope Z_scope.

Definition is_byte (b : Z) : Prop := is_u 8 b.
#[export] Instance is_byte_dec b : Decision (is_byte b).
Proof. unfold is_byte. apply _. Defined.

(** ** The hash interface

    [sha256] and [hmac_sha256 key] map a byte message to 32 bytes. *)
Class HashFunctions := {
  sha256 : list Z -> list Z;
  hmac_sha256 : list Z -> list Z -> list Z;
  sha256_length : forall m, length (sha256 m) = 32%nat;
  sha256_bytes : forall m, Forall is_byte (sha256 m);
  hmac_sha256_length : forall k m, length (hmac_sha256 k m) = 32%nat;
  hmac_sha256_bytes : forall k m, Forall is_byte (hmac_sha256 k m)
}.

(** No two different messages of [ms] have the same hash. *)
Definition collision_free (h : list Z -> list Z) (ms : list (list Z)) : Prop :=
  forall x y, x ∈ ms -> y ∈ ms -> h x = h y -> x = y.

Lemma collision_free_alt h ms :
  collision_free h ms <-> Forall (fun x => Forall (fun y => h x = h y -> x = y) ms) ms.
Proof.
  unfold collision_free. rewrite list.Forall_forall. split.
  - intros H x Hx. apply list.Forall_forall. intros y Hy. by apply H.
  - intros H x y Hx Hy. specialize (H x Hx). rewrite list.Forall_forall in H. by apply H.
Qed.

Lemma collision_free_sub h ms ms' : collision_free h ms -> ms' ⊆ ms -> collision_free h ms'.
Proof. intros H Hs x y Hx Hy. apply H; by apply Hs. Qed.

#[export] Instance collision_free_dec h ms : Decision (collision_free h ms).
Proof. refine (cast_if (decide (Forall (fun x => Forall (fun y => h x = h y -> x = y) ms) ms)));
  by rewrite collision_free_alt. Defined.

(** A concrete instance, used to evaluate the definitions: the first 31 bytes
    of the message, each reduced to a byte, and the message's length. *)
Definition toy_digest (m : list Z) : list Z :=
  (Z.of_nat (length m) mod 256) :: take 31 (map (fun b => b mod 256) m ++ replicate 31 0).

Lemma toy_digest_length m : length (toy_digest m) = 32%nat.
Proof.
  unfold toy_digest. cbn [length]. rewrite length_take, length_app, length_replicate. lia.
Qed.

Lemma toy_digest_bytes m : Forall is_byte (toy_digest m).
Proof.
  assert (forall b, is_byte (b mod 256)) as H.
  { intros b. unfold is_byte, is_u, umax. pose proof (Z.mod_pos_bound b 256). lia. }
  constructor; [apply H|]. apply Forall_take, Forall_app. split.
  - apply list.Forall_forall. intros x (b & -> & _)%list_elem_of_fmap. apply H.
  - apply Forall_replicate. by_compute.
Qed.

Definition toy_hash : HashFunctions :=
  {| sha256 := toy_digest; hmac_sha256 := fun k m => toy_digest (m ++ k);
     sha256_length := toy_digest_length; sha256_bytes := toy_digest_bytes;
     hmac_sha256_length := fun k m => toy_digest_length (m ++ k);
     hmac_sha256_bytes := fun k m => toy_digest_bytes (m ++ k) |}.

(** ** Integers as bytes *)

(** [to_le_bytes] on [n] bytes; a negative number gives its two's complement. *)
Fixpoint le_bytes (n : nat) (z : Z) : list Z :=
  match n with
  | O => []
  | S n' => (z mod 256) :: le_bytes n' (z / 256)
  end.

(** [to_be_bytes] on [n] bytes. *)
Definition be_bytes (n : nat) (z : Z) : list Z := rev (le_bytes n z).

Fixpoint le_value (l : list Z) : Z :=
  match l with [] => 0 | b :: l' => b + 256 * le_value l' end.

(** [u64::from_be_bytes]. *)
Definition be_value (l : list Z) : Z := le_value (rev l).

Lemma length_le_bytes n z : length (le_bytes n z) = n.
Proof. revert z. induction n; intros; simpl; auto. Qed.

Lemma length_be_bytes n z : length (be_bytes n z) = n.
Proof. unfold be_bytes. by rewrite length_rev, length_le_bytes. Qed.

Lemma le_value_le_bytes n z : le_value (le_bytes n z) = z mod 2 ^ (8 * Z.of_nat n).
Proof.
  revert z. induction n as [|n IH]; intros z; [simpl; by rewrite Z.mod_1_r|].
  cbn [le_bytes le_value]. rewrite IH.
  replace (8 * Z.of_nat (S n)) with (8 + 8 * Z.of_nat n) by lia.
  rewrite Z.pow_add_r by lia. change (2 ^ 8) with 256.
  rewrite Z.rem_mul_r; [done|lia|]. apply Z.pow_pos_nonneg; lia.
Qed.

Lemma le_bytes_bytes n z : Forall is_byte (le_bytes n z).
Proof.
  revert z. induction n; intros z; cbn [le_bytes]; constructor; auto.
  unfold is_byte, is_u, umax. pose proof (Z.mod_pos_bound z 256). lia.
Qed.

Lemma be_bytes_bytes n z : Forall is_byte (be_bytes n z).
Proof. unfold be_bytes. apply list.Forall_forall. intros b Hb.
  pose proof (le_bytes_bytes n z) as H. rewrite list.Forall_forall in H. apply H.
  by apply list_elem_of_In, in_rev, list_elem_of_In in Hb. Qed.

Lemma be_value_be_bytes n z : is_u (8 * Z.of_nat n) z -> be_value (be_bytes n z) = z.
Proof.
  intros Hz. unfold be_value, be_bytes. rewrite rev_involutive, le_value_le_bytes.
  apply Z.mod_small. unfold is_u, umax in Hz. lia.
Qed.

Lemma le_value_range l : Forall is_byte l -> is_u (8 * Z.of_nat (length l)) (le_value l).
Proof.
  unfold is_u, umax. induction 1 as [|b l Hb _ IH]; [simpl; lia|].
  cbn [le_value length]. replace (8 * Z.of_nat (S (length l))) with (8 + 8 * Z.of_nat (length l)) by lia.
  rewrite Z.pow_add_r by lia. change (2 ^ 8) with 256. unfold is_byte, is_u, umax in Hb. lia.
Qed.

Lemma le_bytes_le_value l : Forall is_byte l -> le_bytes (length l) (le_value l) = l.
Proof.
  induction 1 as [|b l Hb _ IH]; [done|]. cbn [le_value length le_bytes].
  unfold is_byte, is_u, umax in Hb.
  replace (b + 256 * le_value l) with (b + le_value l * 256) by lia.
  rewrite Z.mod_add, Z.mod_small, Z.div_add, Z.div_small by lia. by rewrite Z.add_0_l, IH.
Qed.

Lemma be_bytes_be_value l : Forall is_byte l -> be_bytes (length l) (be_value l) = l.
Proof.
  intros H. unfold be_bytes, be_value. rewrite <- length_rev, le_bytes_le_value, rev_involutive; [done|].
  by apply Forall_rev.
Qed.

Lemma be_value_range l : Forall is_byte l -> is_u (8 * Z.of_nat (length l)) (be_value l).
Proof. intros H. unfold be_value. rewrite <- length_rev. apply le_value_range. by apply Forall_rev. Qed.

Lemma be_value_fold l : be_value l = fold_left (fun a b => 256 * a + b) l 0.
Proof.
  induction l as [|b l IH] using rev_ind; [done|]. rewrite fold_left_app. cbn [fold_left]. rewrite <- IH.
  unfold be_value. rewrite rev_app_distr. cbn [rev app le_value]. lia.
Qed.

(** Big-endian, byte by byte. *)
Lemma be_value_snoc l b : be_value (l ++ [b]) = 256 * be_value l + b.
Proof. unfold be_value. rewrite rev_app_distr. cbn [rev app le_value]. lia. Qed.

Lemma be_value_app l k : be_value (l ++ k) = be_value l * 2 ^ (8 * Z.of_nat (length k)) + be_value k.
Proof.
  induction k as [|b k IH] using rev_ind; [rewrite app_nil_r; change (be_value []) with 0; cbn [length]; lia|].
  rewrite app_assoc, !be_value_snoc, IH, length_app. cbn [length].
  replace (8 * Z.of_nat (length k + 1)) with (8 * Z.of_nat (length k) + 8) by lia.
  rewrite Z.pow_add_r by lia. change (2 ^ 8) with 256. ring.
Qed.

Lemma le_bytes_inj_u n x y :
  is_u (8 * Z.of_nat n) x -> is_u (8 * Z.of_nat n) y -> le_bytes n x = le_bytes n y -> x = y.
Proof.
  intros Hx Hy H. apply (f_equal le_value) in H. rewrite !le_value_le_bytes in H.
  unfold is_u, umax in *. rewrite !Z.mod_small in H by lia. done.
Qed.

Lemma le_bytes_inj_i64 x y : is_i 64 x -> is_i 64 y -> le_bytes 8 x = le_bytes 8 y -> x = y.
Proof.
  intros Hx Hy H. apply (f_equal le_value) in H. rewrite !le_value_le_bytes in H.
  unfold is_i, imin, imax in *. change (8 * Z.of_nat 8) with 64 in H.
  pose proof (Z.div_mod x (2 ^ 64)). pose proof (Z.div_mod y (2 ^ 64)).
  pose proof (Z.mod_pos_bound x (2 ^ 64)). pose proof (Z.mod_pos_bound y (2 ^ 64)). lia.
Qed.

Lemma app_inj_len {A} (a b c d : list A) : length a = length c -> a ++ b = c ++ d -> a = c /\ b = d.
Proof. intros. by apply app_inj_1. Qed.

(** Split an equation of two concatenations of fields of known length. *)
Ltac split_fields H :=
  repeat (let E := fresh "F" in
          apply app_inj_len in H as [E H]; [|by rewrite ?length_le_bytes]).

(** ** Strings as bytes *)

Definition byte_of_ascii (a : ascii) : Z := Z.of_N (N_of_ascii a).
Definition string_bytes (s : string) : list Z := map byte_of_ascii (list_ascii_of_string s).
Definition ascii_of_byte (b : Z) : ascii := ascii_of_N (Z.to_N b).
Definition string_of_bytes (l : list Z) : string := string_of_list_ascii (map ascii_of_byte l).

Lemma byte_of_ascii_range a : is_byte (byte_of_ascii a).
Proof.
  unfold is_byte, is_u, umax, byte_of_ascii. pose proof (N_ascii_bounded a). lia.
Qed.

Lemma ascii_of_byte_of_ascii a : ascii_of_byte (byte_of_ascii a) = a.
Proof. unfold ascii_of_byte, byte_of_ascii. by rewrite N2Z.id, ascii_N_embedding. Qed.

Lemma byte_of_ascii_of_byte b : is_byte b -> byte_of_ascii (ascii_of_byte b) = b.
Proof.
  unfold is_byte, is_u, umax, byte_of_ascii, ascii_of_byte. intros H.
  rewrite N_ascii_embedding by lia. lia.
Qed.

Lemma string_bytes_inj s t : string_bytes s = string_bytes t -> s = t.
Proof.
  intros H. apply (f_equal string_of_bytes) in H. unfold string_of_bytes, string_bytes in H.
  rewrite !map_map in H. rewrite !(map_ext _ _ ascii_of_byte_of_ascii), !map_id in H.
  by rewrite !string_of_list_ascii_of_string in H.
Qed.

Lemma string_bytes_of_bytes l : Forall is_byte l -> string_bytes (string_of_bytes l) = l.
Proof.
  intros HF. unfold string_bytes, string_of_bytes. rewrite list_ascii_of_string_of_list_ascii.
  rewrite map_map. induction HF as [|b l Hb _ IH]; simpl; [done|].
  by rewrite byte_of_ascii_of_byte, IH.
Qed.

(** ** Hexadecimal text *)

(** One lower-case digit of [{b:02x}]. *)
Definition hex_digit (n : Z) : Z := if n <? 10 then 48 + n else 87 + n.

Definition bytes_to_hex (bytes : list Z) : string :=
  string_of_bytes (flat_map (fun b => [hex_digit (b / 16); hex_digit (b mod 16)]) bytes).

Definition digest_to_hex (digest : list Z) : string := bytes_to_hex digest.

Inductive DigestDecodeError :=
| InvalidHexCharacter (digit index : Z)
| OddLength
| InvalidStringLength.

Definition from_hex_digit (byte index : Z) : result DigestDecodeError Z :=
  if (48 <=? byte) && (byte <=? 57) then Ok (byte - 48)
  else if (97 <=? byte) && (byte <=? 102) then Ok (byte - 97 + 10)
  else Err (InvalidHexCharacter byte index).

(** The digit-pair loop of [decode_hex32], starting at [index]. *)
Fixpoint decode_pairs (index : Z) (bytes : list Z) : result DigestDecodeError (list Z) :=
  match bytes with
  | h :: l :: rest =>
      hi ← from_hex_digit h index;
      lo ← from_hex_digit l (index + 1);
      out ← decode_pairs (index + 2) rest;
      Ok (Z.lor (Z.shiftl hi 4) lo :: out)
  | _ => Ok []
  end.

Definition decode_hex32 (hex : string) : result DigestDecodeError (list Z) :=
  let bytes := string_bytes hex in
  if negb (Z.of_nat (length bytes) mod 2 =? 0) then Err OddLength
  else
    out ← decode_pairs 0 bytes;
    if negb (Z.of_nat (length out) =? 32) then Err InvalidStringLength else Ok out.

(** ** Round trips *)

Lemma join_nibbles hi lo : 0 <= hi < 16 -> 0 <= lo < 16 -> Z.lor (Z.shiftl hi 4) lo = 16 * hi + lo.
Proof.
  intros Hh Hl.
  assert (forallb (fun h => forallb (fun l => Z.lor (Z.shiftl h 4) l =? 16 * h + l) (seqZ 0 16))
            (seqZ 0 16) = true) as H by (vm_compute; reflexivity).
  rewrite forallb_forall in H. specialize (H hi). rewrite <- list_elem_of_In, elem_of_seqZ in H.
  specialize (H ltac:(lia)). rewrite forallb_forall in H. specialize (H lo).
  rewrite <- list_elem_of_In, elem_of_seqZ in H. specialize (H ltac:(lia)). lia.
Qed.

Lemma hex_digit_byte n : 0 <= n < 16 -> is_byte (hex_digit n).
Proof. unfold hex_digit, is_byte, is_u, umax. destruct (Z.ltb_spec n 10); lia. Qed.

Lemma from_hex_digit_Ok b k n : from_hex_digit b k = Ok n <-> 0 <= n < 16 /\ b = hex_digit n.
Proof.
  unfold from_hex_digit, hex_digit.
  destruct (Z.leb_spec 48 b), (Z.leb_spec b 57), (Z.leb_spec 97 b), (Z.leb_spec b 102); simpl;
    destruct (Z.ltb_spec n 10); split; try (intros [=]; lia); intros []; (done || lia || (f_equal; lia)).
Qed.

Lemma nibbles b : is_byte b -> 0 <= b / 16 < 16 /\ 0 <= b mod 16 < 16 /\ b = 16 * (b / 16) + b mod 16.
Proof.
  unfold is_byte, is_u, umax. intros. pose proof (Z.div_mod b 16). pose proof (Z.mod_pos_bound b 16).
  split_and!; lia.
Qed.

Lemma hex_text_bytes l : Forall is_byte l ->
  Forall is_byte (flat_map (fun b => [hex_digit (b / 16); hex_digit (b mod 16)]) l).
Proof.
  induction 1 as [|b l Hb _ IH]; simpl; [constructor|].
  destruct (nibbles b Hb) as (? & ? & _). repeat (constructor; [by apply hex_digit_byte|]). done.
Qed.

Lemma decode_pairs_hex l : forall k, Forall is_byte l ->
  decode_pairs k (flat_map (fun b => [hex_digit (b / 16); hex_digit (b mod 16)]) l) = Ok l.
Proof.
  induction l as [|b l IH]; intros k; [done|]. intros [Hb Hl]%list.Forall_cons.
  cbn [flat_map app decode_pairs]. destruct (nibbles b Hb) as (H1 & H2 & H3).
  rewrite (proj2 (from_hex_digit_Ok _ k _) (conj H1 eq_refl)). cbn.
  rewrite (proj2 (from_hex_digit_Ok _ (k + 1) _) (conj H2 eq_refl)). cbn.
  rewrite IH by done. cbn. rewrite join_nibbles by done. by rewrite <- H3.
Qed.

Lemma hex_text_length l :
  length (flat_map (fun b => [hex_digit (b / 16); hex_digit (b mod 16)]) l) = (2 * length l)%nat.
Proof. induction l; simpl; lia. Qed.

Lemma bytes_to_hex_bytes l : Forall is_byte l ->
  string_bytes (bytes_to_hex l) = flat_map (fun b => [hex_digit (b / 16); hex_digit (b mod 16)]) l.
Proof. intros. apply string_bytes_of_bytes. by apply hex_text_bytes. Qed.

Lemma decode_hex32_digest d :
  length d = 32%nat -> Forall is_byte d -> decode_hex32 (digest_to_hex d) = Ok d.
Proof.
  intros Hl Hb. unfold decode_hex32, digest_to_hex. rewrite bytes_to_hex_bytes by done.
  rewrite hex_text_length, Hl. change (negb (Z.of_nat (2 * 32) mod 2 =? 0)) with false.
  rewrite decode_pairs_hex by done. cbn. by rewrite Hl.
Qed.

Lemma string_bytes_app s t : string_bytes (s +:+ t) = string_bytes s ++ string_bytes t.
Proof. unfold string_bytes. induction s as [|a s IH]; [done|]. cbn. by rewrite <- IH. Qed.

Lemma bytes_to_hex_inj a b :
  Forall is_byte a -> Forall is_byte b -> bytes_to_hex a = bytes_to_hex b -> a = b.
Proof.
  intros Ha Hb H. apply (f_equal string_bytes) in H. rewrite !bytes_to_hex_bytes in H by done.
  apply (f_equal (decode_pairs 0)) in H. rewrite !decode_pairs_hex in H by done. congruence.
Qed.

(** An accepted text is the canonical lower-case text of what it decodes to. *)
Lemma decode_pairs_canonical n : forall k bs out,
  (length bs <= n)%nat -> Nat.Even (length bs) -> decode_pairs k bs = Ok out ->
  Forall is_byte out /\ bs = flat_map (fun b => [hex_digit (b / 16); hex_digit (b mod 16)]) out.
Proof.
  induction n as [|n IH]; intros k bs out Hn He H.
  { destruct bs; [|simpl in *; lia]. injection H as <-. by split; [constructor|]. }
  destruct bs as [|h [|l bs]].
  - injection H as <-. by split; [constructor|].
  - destruct He as [x Hx]. simpl in Hx. lia.
  - cbn [decode_pairs] in H.
    destruct (from_hex_digit h k) as [hi|] eqn:E1; [|done]. cbn in H.
    destruct (from_hex_digit l (k + 1)) as [lo|] eqn:E2; [|done]. cbn in H.
    destruct (decode_pairs (k + 2) bs) as [out'|] eqn:E3; [|done]. cbn in H.
    injection H as <-. apply from_hex_digit_Ok in E1 as [B1 ->], E2 as [B2 ->].
    destruct (IH (k + 2) bs out') as [HF ->]; [simpl in Hn; lia| |done|].
    { destruct He as [x Hx]. simpl in Hx. exists (x - 1)%nat. lia. }
    rewrite join_nibbles by done. cbn [flat_map app].
    replace ((16 * hi + lo) / 16) with hi
      by (rewrite Z.add_comm, Z.mul_comm, Z.div_add, Z.div_small by lia; lia).
    replace ((16 * hi + lo) mod 16) with lo
      by (rewrite Z.add_comm, Z.mul_comm, Z.mod_add, Z.mod_small by lia; lia).
    split; [constructor; [|done]|done]. unfold is_byte, is_u, umax. lia.
Qed.

Lemma decode_hex32_canonical s d :
  decode_hex32 s = Ok d -> length d = 32%nat /\ Forall is_byte d /\ digest_to_hex d = s.
Proof.
  unfold decode_hex32, mbind, result_bind.
  destruct (Z.eqb_spec (Z.of_nat (length (string_bytes s)) mod 2) 0) as [Eo|]; cbn [negb]; [|done].
  destruct (decode_pairs 0 (string_bytes s)) as [out|] eqn:E; [|done].
  destruct (Z.eqb_spec (Z.of_nat (length out)) 32) as [El|]; cbn [negb]; [|done].
  intros [= <-].
  apply (decode_pairs_canonical (length (string_bytes s))) in E as [HF Hs]; [|lia|].
  - split_and!; [lia|done|]. apply string_bytes_inj. unfold digest_to_hex.
    by rewrite bytes_to_hex_bytes.
  - exists (Z.to_nat (Z.of_nat (length (string_bytes s)) / 2)).
    pose proof (Z.div_mod (Z.of_nat (length (string_bytes s))) 2). lia.
Qed.
