(* ===== verification/Text.v ===== *)
(** * Text

    A Rust [str] as the list of its Unicode scalar values, with the operations
    of the standard library the text formats use: UTF-8 encoding, splitting,
    prefixes and suffixes, character classes, decimal numbers. *)

From Stdlib Require Import String.
From S2P Require Import Prelude Bytes.
#[local] Open Scope Z_scope.

Definition text : Type := list Z.

(** A literal of ASCII characters. *)
Definition chars (s : string) : text := string_bytes s.

(** [char::encode_utf8]. *)
Definition encode_char (c : Z) : list Z :=
  if c <? 128 then [c]
  else if c <? 2048 then [192 + c / 64; 128 + c mod 64]
  else if c <? 65536 then [224 + c / 4096; 128 + c / 64 mod 64; 128 + c mod 64]
  else [240 + c / 262144; 128 + c / 4096 mod 64; 128 + c / 64 mod 64; 128 + c mod 64].

(** [str::as_bytes] and [str::len]. *)
Definition as_bytes (t : text) : list Z := flat_map encode_char t.
Definition str_len (t : text) : Z := Z.of_nat (length (as_bytes t)).

(** [char::is_control] (general category Cc) and [char::is_whitespace] (the
    property White_Space). *)
Definition is_control (c : Z) : bool := (c <? 32) || ((127 <=? c) && (c <? 160)).
Definition is_whitespace (c : Z) : bool :=
  ((9 <=? c) && (c <=? 13)) || (c =? 32) || (c =? 133) || (c =? 160) || (c =? 5760)
  || ((8192 <=? c) && (c <=? 8202)) || (c =? 8232) || (c =? 8233) || (c =? 8239)
  || (c =? 8287) || (c =? 12288).
Definition is_ascii_digit (c : Z) : bool := (48 <=? c) && (c <=? 57).
Definition is_ascii_hexdigit (c : Z) : bool :=
  is_ascii_digit c || ((97 <=? c) && (c <=? 102)) || ((65 <=? c) && (c <=? 70)).

(** [str::split(char)]: one piece more than there are separators. *)
Fixpoint split_on (sep : Z) (t : text) : list text :=
  match t with
  | [] => [[]]
  | c :: t' =>
      if c =? sep then [] :: split_on sep t'
      else match split_on sep t' with
           | l :: ls => (c :: l) :: ls
           | [] => [[c]]
           end
  end.

(** [str::split_once(char)]. *)
Fixpoint split_once (sep : Z) (t : text) : option (text * text) :=
  match t with
  | [] => None
  | c :: t' =>
      if c =? sep then Some ([], t')
      else '(a, b) ← split_once sep t'; Some (c :: a, b)
  end.

(** [str::splitn(3, char)], when it has three pieces. *)
Definition splitn3 (sep : Z) (t : text) : option (text * text * text) :=
  '(a, r) ← split_once sep t;
  '(b, c) ← split_once sep r;
  Some (a, b, c).

Fixpoint strip_prefix (p t : text) : option text :=
  match p, t with
  | [], _ => Some t
  | x :: p', y :: t' => if x =? y then strip_prefix p' t' else None
  | _ :: _, [] => None
  end.

(** [str::strip_suffix(char)]. *)
Fixpoint strip_suffix (c : Z) (t : text) : option text :=
  match t with
  | [] => None
  | [x] => if x =? c then Some [] else None
  | x :: t' => y ← strip_suffix c t'; Some (x :: y)
  end.

(** [str::split_once("\n\n")]: at the first blank line. *)
Fixpoint split_blank (t : text) : option (text * text) :=
  match t with
  | [] => None
  | c :: t' =>
      match t' with
      | d :: b =>
          if (c =? 10) && (d =? 10) then Some ([], b)
          else '(a, r) ← split_blank t'; Some (c :: a, r)
      | [] => None
      end
  end.

(** [str::rfind("\n\n")], as the text before the last blank line and the text
    after it. *)
Fixpoint rsplit_blank (t : text) : option (text * text) :=
  match t with
  | [] => None
  | c :: t' =>
      match rsplit_blank t' with
      | Some (a, b) => Some (c :: a, b)
      | None =>
          match t' with
          | d :: b => if (c =? 10) && (d =? 10) then Some ([], b) else None
          | [] => None
          end
      end
  end.

(** [str::ends_with] on a two-character text. *)
Definition ends_with2 (x y : Z) (t : text) : bool :=
  match rev t with b :: a :: _ => (a =? x) && (b =? y) | _ => false end.

(** ** Decimal numbers *)

(** [Display] of an unsigned integer of at most [fuel] decimal digits. *)
Fixpoint decimal (fuel : nat) (z : Z) : list Z :=
  match fuel with
  | O => []
  | S fuel' => if z <? 10 then [48 + z] else decimal fuel' (z / 10) ++ [48 + z mod 10]
  end.
Definition show_u64 (z : Z) : text := decimal 20 z.

Definition decimal_value (l : list Z) : Z := fold_left (fun a b => 10 * a + (b - 48)) l 0.

(** [str::parse::<u64>] on text already known to be digits. *)
Definition parse_u64 (t : text) : option Z := checked_u 64 (decimal_value t).

(** Decimal without leading zeros, as the formats require it. *)
Definition canonical_digits (t : text) : bool :=
  negb (bool_decide (t = [])) && forallb is_ascii_digit (as_bytes t)
  && (bool_decide (t = [48]) || negb (bool_decide (head t = Some 48))).

(** [{:08x}] of a [u32], and [u32::from_str_radix(_, 16)] on hex digits. *)
Definition hex_text (bytes : list Z) : text :=
  flat_map (fun b => [hex_digit (b / 16); hex_digit (b mod 16)]) bytes.
Definition hex8 (z : Z) : text := hex_text (be_bytes 4 z).
Definition hexdigit_value (c : Z) : Z :=
  if is_ascii_digit c then c - 48 else if 97 <=? c then c - 87 else c - 55.
Definition from_str_radix16 (w : Z) (t : text) : option Z :=
  checked_u w (fold_left (fun a c => 16 * a + hexdigit_value c) t 0).

(** ** Lemmas *)

(** A test that only ASCII characters pass reads bytes as characters. *)
Lemma forallb_as_bytes (p : Z -> bool) t :
  (forall b, p b = true -> b < 128) -> forallb p (as_bytes t) = forallb p t.
Proof.
  intros Hp. induction t as [|c t IH]; [done|].
  unfold as_bytes. cbn [flat_map]. rewrite forallb_app. unfold as_bytes in IH. rewrite IH. cbn [forallb].
  f_equal. unfold encode_char. destruct (Z.ltb_spec c 128); [by cbn; rewrite andb_true_r|].
  assert (forall b l, 128 <= b -> forallb p (b :: l) = p c) as H'.
  { intros b l Hb. cbn. destruct (p b) eqn:E; [apply Hp in E; lia|].
    destruct (p c) eqn:E'; [apply Hp in E'; lia|done]. }
  pose proof (Z.div_pos c 64). pose proof (Z.div_pos c 4096). pose proof (Z.div_pos c 262144).
  destruct (Z.ltb_spec c 2048); [apply H'; lia|].
  destruct (Z.ltb_spec c 65536); apply H'; lia.
Qed.

Lemma decimal_length fuel z : (length (decimal fuel z) <= fuel)%nat.
Proof.
  revert z. induction fuel as [|n IH]; intros z; simpl; [done|].
  destruct (z <? 10); simpl; [lia|]. rewrite length_app. simpl. specialize (IH (z / 10)). lia.
Qed.

Lemma decimal_digits fuel z : 0 <= z -> Forall (fun b => 48 <= b <= 57) (decimal fuel z).
Proof.
  revert z. induction fuel as [|n IH]; intros z Hz; simpl; [constructor|].
  destruct (Z.ltb_spec z 10); [repeat constructor; lia|]. apply Forall_app. split.
  - apply IH. apply Z.div_pos; lia.
  - pose proof (Z.mod_pos_bound z 10). repeat constructor; lia.
Qed.

Lemma decimal_value_app l b : decimal_value (l ++ [b]) = 10 * decimal_value l + (b - 48).
Proof. unfold decimal_value. by rewrite fold_left_app. Qed.

Lemma decimal_value_decimal fuel z : 0 <= z < 10 ^ Z.of_nat fuel -> decimal_value (decimal fuel z) = z.
Proof.
  revert z. induction fuel as [|n IH]; intros z Hz; [simpl in *; unfold decimal_value; simpl; lia|].
  cbn [decimal]. destruct (Z.ltb_spec z 10); [unfold decimal_value; simpl; lia|].
  rewrite decimal_value_app, IH; [pose proof (Z.div_mod z 10); lia|].
  rewrite Nat2Z.inj_succ, Z.pow_succ_r in Hz by lia.
  split; [apply Z.div_pos; lia|apply Z.div_lt_upper_bound; lia].
Qed.

Lemma u64_decimal z : is_u 64 z -> 0 <= z < 10 ^ Z.of_nat 20.
Proof.
  unfold is_u, umax. intros. change (10 ^ Z.of_nat 20) with 100000000000000000000. lia.
Qed.

Lemma decimal_value_nonneg l : Forall (fun c => 48 <= c <= 57) l -> 0 <= decimal_value l.
Proof.
  induction l as [|b l IH] using rev_ind; intros HF; [done|].
  apply list.Forall_app in HF as [HF Hb]. apply list.Forall_cons in Hb as [Hb _].
  rewrite decimal_value_app. specialize (IH HF). lia.
Qed.

Lemma canonical_digits_spec l : canonical_digits l = true <->
  Forall (fun c => 48 <= c <= 57) l /\ l <> [] /\ (l = [48] \/ head l <> Some 48).
Proof.
  unfold canonical_digits. rewrite forallb_as_bytes by (intros b; unfold is_ascii_digit; lia).
  unfold is_ascii_digit.
  rewrite !andb_true_iff, orb_true_iff, !negb_true_iff, !bool_decide_eq_false, bool_decide_eq_true.
  rewrite forallb_forall, list.Forall_forall.
  assert ((forall c, In c l -> (48 <=? c) && (c <=? 57) = true) <-> (forall c, c ∈ l -> 48 <= c <= 57)) as ->.
  { split; intros H c Hc; specialize (H c).
    - apply list_elem_of_In in Hc. specialize (H Hc). lia.
    - apply list_elem_of_In in Hc. specialize (H Hc). lia. }
  tauto.
Qed.

(** Enough fuel and no leading zero: the printed form is the only one. *)
Lemma decimal_unique fuel : forall l, (length l <= fuel)%nat -> canonical_digits l = true ->
  decimal fuel (decimal_value l) = l.
Proof.
  induction fuel as [|n IH]; intros l Hl (HF & Hne & Hz)%canonical_digits_spec.
  { by destruct l; [|simpl in Hl; lia]. }
  destruct l as [|b l _] using rev_ind; [done|].
  apply list.Forall_app in HF as [HF Hb]. apply list.Forall_cons in Hb as [Hb _].
  rewrite decimal_value_app. pose proof (decimal_value_nonneg l HF). cbn [decimal].
  destruct (decide (l = [])) as [->|Hl'].
  { change (decimal_value []) with 0. rewrite Z.mul_0_r, Z.add_0_l.
    rewrite (proj2 (Z.ltb_lt _ _)) by lia. simpl app. f_equal. lia. }
  destruct Hz as [Hz|Hz]; [by destruct l as [|? []]|].
  assert (head l <> Some 48) as Hz' by (by destruct l).
  rewrite length_app in Hl. simpl in Hl.
  assert (decimal n (decimal_value l) = l) as El.
  { apply IH; [lia|]. apply canonical_digits_spec. auto. }
  assert (1 <= decimal_value l) as H1.
  { destruct (decide (decimal_value l = 0)) as [E|]; [|lia]. exfalso.
    rewrite E in El. destruct n; simpl in El; by subst. }
  rewrite (proj2 (Z.ltb_ge _ _)) by lia.
  replace ((10 * decimal_value l + (b - 48)) / 10) with (decimal_value l)
    by (rewrite Z.mul_comm, Z.add_comm, Z.div_add, Z.div_small by lia; lia).
  replace ((10 * decimal_value l + (b - 48)) mod 10) with (b - 48)
    by (rewrite Z.mul_comm, Z.add_comm, Z.mod_add, Z.mod_small by lia; lia).
  rewrite El. f_equal. f_equal. lia.
Qed.

Lemma show_u64_parse z : is_u 64 z -> parse_u64 (show_u64 z) = Some z.
Proof.
  intros Hz. unfold parse_u64, show_u64. rewrite decimal_value_decimal by by apply u64_decimal.
  unfold checked_u. by rewrite (proj2 (in_u_spec 64 z)).
Qed.

Lemma decimal_head fuel z : 0 < z < 10 ^ Z.of_nat fuel ->
  exists c l, decimal fuel z = c :: l /\ c <> 48.
Proof.
  revert z. induction fuel as [|n IH]; intros z Hz; [simpl in Hz; lia|].
  cbn [decimal]. destruct (Z.ltb_spec z 10); [exists (48 + z), []; split; [done|lia]|].
  rewrite Nat2Z.inj_succ, Z.pow_succ_r in Hz by lia.
  destruct (IH (z / 10)) as (c & l & -> & Hc); [|by eexists c, _].
  split; [apply Z.div_str_pos; lia|apply Z.div_lt_upper_bound; lia].
Qed.

Lemma show_u64_canonical z : is_u 64 z -> canonical_digits (show_u64 z) = true.
Proof.
  intros Hz. unfold show_u64. pose proof (u64_decimal z Hz) as Hr.
  pose proof (decimal_digits 20 z (proj1 Hz)) as HF.
  destruct (decide (z = 0)) as [->|Hne]; [done|].
  destruct (decimal_head 20 z ltac:(lia)) as (c & l & E & Hc).
  rewrite E in *. apply canonical_digits_spec. split_and!; [done|done|]. right. simpl. congruence.
Qed.

Lemma decimal_fuel m n z : (1 <= n <= m)%nat -> 0 <= z < 10 ^ Z.of_nat n -> decimal m z = decimal n z.
Proof.
  revert m z. induction n as [|n IH]; intros [|m] z Hn Hz; try lia. cbn [decimal].
  destruct (Z.ltb_spec z 10); [done|]. rewrite Nat2Z.inj_succ, Z.pow_succ_r in Hz by lia.
  destruct n as [|n]; [simpl in Hz; lia|].
  rewrite IH; [done|lia|]. split; [apply Z.div_pos; lia|apply Z.div_lt_upper_bound; lia].
Qed.

Lemma parse_show t z : canonical_digits t = true -> parse_u64 t = Some z -> t = show_u64 z /\ is_u 64 z.
Proof.
  unfold parse_u64, checked_u. intros Hc. destruct (in_u 64 (decimal_value t)) eqn:E; [|done].
  intros [= <-]. apply in_u_spec in E. split; [|done]. unfold show_u64.
  destruct (decide (length t <= 20)%nat); [by rewrite decimal_unique|].
  pose proof (decimal_unique (length t) t ltac:(lia) Hc) as H.
  rewrite (decimal_fuel (length t) 20) in H; [done|lia|by apply u64_decimal].
Qed.

(** ** Splitting and joining *)

Lemma strip_suffix_Some c t u : strip_suffix c t = Some u <-> t = u ++ [c].
Proof.
  revert u. induction t as [|x t IH]; intros u.
  { split; [done|]. by destruct u. }
  destruct t as [|y t].
  - cbn. destruct (Z.eqb_spec x c) as [->|Hx].
    + split; [by intros [= <-]|]. intros E. by apply (app_inj_tail [] u) in E as [<- _].
    + split; [done|]. intros E. by apply (app_inj_tail [] u) in E as [_ ?].
  - change (strip_suffix c (x :: y :: t)) with (v ← strip_suffix c (y :: t); Some (x :: v)).
    destruct (strip_suffix c (y :: t)) as [v|] eqn:E; cbn [mbind option_bind].
    + pose proof (proj1 (IH v) eq_refl) as ->.
      split; [by intros [= <-]|]. destruct u as [|x' u]; [by destruct v|].
      simpl. intros [= -> H]. by apply app_inj_tail in H as [-> _].
    + split; [done|]. destruct u as [|x' u]; [by destruct t|]. simpl. intros [= -> H].
      by apply IH in H.
Qed.

Lemma strip_prefix_Some p t u : strip_prefix p t = Some u <-> t = p ++ u.
Proof.
  revert t. induction p as [|x p IH]; intros [|y t]; simpl; try (split; congruence).
  destruct (Z.eqb_spec x y) as [->|Hne]; [rewrite IH|]; split; congruence.
Qed.

Lemma split_once_Some sep t a b : split_once sep t = Some (a, b) <-> t = a ++ sep :: b /\ sep ∉ a.
Proof.
  revert a. induction t as [|c t IH]; intros a; cbn [split_once].
  { split; [done|]. by intros [H _]; destruct a. }
  destruct (Z.eqb_spec c sep) as [->|Hne].
  - split; [intros [= <- <-]; split; [done|apply not_elem_of_nil]|].
    intros [H Hn]. destruct a as [|y a]; simplify_eq/=; [done|]. set_solver.
  - destruct (split_once sep t) as [[a' b']|] eqn:E; cbn.
    + split.
      * intros [= <- <-]. destruct (proj1 (IH a')) as [-> Hn]; [done|].
        split; [done|]. apply not_elem_of_cons. split; [congruence|done].
      * intros [H Hn]. destruct a as [|y a]; simplify_eq/=. apply not_elem_of_cons in Hn as [_ Hn].
        assert (Some (a', b') = Some (a, b)) as [= -> ->] by (by apply IH). done.
    + split; [done|]. intros [H Hn]. destruct a as [|y a]; simplify_eq/=.
      apply not_elem_of_cons in Hn as [_ Hn].
      discriminate (proj2 (IH a) (conj eq_refl Hn)).
Qed.

(** The pieces written back with the separator between them. *)
Fixpoint join (sep : Z) (ls : list text) : text :=
  match ls with
  | [] => []
  | [l] => l
  | l :: ls' => l ++ sep :: join sep ls'
  end.

Lemma join_cons sep l ls : ls <> [] -> join sep (l :: ls) = l ++ sep :: join sep ls.
Proof. by destruct ls. Qed.

Lemma split_on_nonempty sep t : split_on sep t <> [].
Proof. destruct t as [|c t]; simpl; [done|]. destruct (c =? sep); [done|]. by destruct (split_on sep t). Qed.

Lemma split_on_Some sep t ls :
  split_on sep t = ls <-> ls <> [] /\ t = join sep ls /\ Forall (fun l => sep ∉ l) ls.
Proof.
  split.
  - intros <-. split; [apply split_on_nonempty|].
    induction t as [|c t [IH1 IH2]]; cbn [split_on].
    { split; [done|]. repeat constructor. apply not_elem_of_nil. }
    pose proof (split_on_nonempty sep t) as Hne.
    destruct (Z.eqb_spec c sep) as [->|Hc].
    + rewrite join_cons by done. split; [by simpl; f_equal|].
      constructor; [apply not_elem_of_nil|done].
    + destruct (split_on sep t) as [|l ls] eqn:E; [done|]. apply list.Forall_cons in IH2 as [H1 H2].
      split; [|constructor; [apply not_elem_of_cons; split; [congruence|done]|done]].
      rewrite IH1 at 1. by destruct ls.
  - intros (Hne & -> & HF).
    induction ls as [|l ls IH]; [done|]. apply list.Forall_cons in HF as [Hl HF].
    destruct (decide (ls = [])) as [->|Hls].
    + simpl. clear -Hl. induction l as [|c l IH]; [done|]. apply not_elem_of_cons in Hl as [Hc Hl].
      simpl. destruct (Z.eqb_spec c sep); [congruence|]. by rewrite IH.
    + rewrite join_cons by done. clear Hne. specialize (IH Hls HF).
      induction l as [|c l IHl]; simpl; [by rewrite Z.eqb_refl, IH|].
      apply not_elem_of_cons in Hl as [Hc Hl]. destruct (Z.eqb_spec c sep); [congruence|].
      by rewrite IHl.
Qed.

(** Lines, each with its newline. *)
Definition unlines (ls : list text) : text := flat_map (fun l => l ++ [10]) ls.

Lemma unlines_join ls : ls <> [] -> unlines ls = join 10 ls ++ [10].
Proof.
  induction ls as [|l ls IH]; [done|]. intros _. destruct (decide (ls = [])) as [->|Hls].
  { simpl. by rewrite app_nil_r. }
  rewrite join_cons by done. simpl. fold (unlines ls). rewrite IH by done.
  by rewrite <- !app_assoc.
Qed.

(** A text without its last newline splits into [ls] exactly when it is those
    lines. *)
Lemma lines_exact t ls :
  (exists u, strip_suffix 10 t = Some u /\ split_on 10 u = ls) <->
  ls <> [] /\ t = unlines ls /\ Forall (fun l => 10 ∉ l) ls.
Proof.
  split.
  - intros (u & Hu & Hs). apply strip_suffix_Some in Hu as ->. apply split_on_Some in Hs as (Hne & -> & HF).
    by rewrite unlines_join.
  - intros (Hne & -> & HF). exists (join 10 ls). rewrite strip_suffix_Some, split_on_Some.
    by rewrite unlines_join.
Qed.

Fixpoint has_blank (t : text) : bool :=
  match t with
  | c :: ((d :: _) as t') => ((c =? 10) && (d =? 10)) || has_blank t'
  | _ => false
  end.

Lemma rsplit_blank_None t : rsplit_blank t = None <-> has_blank t = false.
Proof.
  induction t as [|c t IH]; [done|]. cbn [rsplit_blank has_blank].
  destruct (rsplit_blank t) as [[a b]|] eqn:E.
  - split; [done|]. destruct t as [|d t]; [done|]. intros [_ H]%orb_false_iff. by apply IH in H.
  - destruct t as [|d t]; [done|]. rewrite orb_false_iff, <- IH.
    destruct ((c =? 10) && (d =? 10)); naive_solver.
Qed.

Lemma has_blank_mid a b : has_blank (a ++ 10 :: 10 :: b) = true.
Proof.
  induction a as [|x a IH]; [done|]. simpl app. cbn [has_blank].
  destruct (a ++ 10 :: 10 :: b) eqn:E; [by destruct a|]. by rewrite IH, orb_true_r.
Qed.

Lemma rsplit_blank_Some t a b :
  rsplit_blank t = Some (a, b) <-> t = a ++ 10 :: 10 :: b /\ has_blank (10 :: b) = false.
Proof.
  revert a b. induction t as [|c t IH]; intros a b; cbn [rsplit_blank].
  { split; [done|]. by intros [H _]; destruct a. }
  destruct (rsplit_blank t) as [[a' b']|] eqn:E.
  - destruct (proj1 (IH a' b')) as [-> Hn]; [done|]. split.
    + by intros [= <- <-].
    + intros [H Hn']. destruct a as [|x a]; simplify_eq/=.
      * exfalso. destruct a' as [|y a']; simplify_eq/=.
        assert (has_blank (10 :: a' ++ 10 :: 10 :: b') = true) as H'; [|simpl in Hn', H'; congruence].
        apply (has_blank_mid (10 :: a')).
      * assert (Some (a', b') = Some (a, b)) as [= -> ->]; [|done]. apply IH. done.
  - apply rsplit_blank_None in E. split.
    + destruct t as [|d t]; [done|]. destruct (Z.eqb_spec c 10) as [->|], (Z.eqb_spec d 10) as [->|]; try done.
      by intros [= <- <-].
    + intros [H Hn]. destruct a as [|x a]; simplify_eq/=; [done|].
      by rewrite has_blank_mid in E.
Qed.

Lemma split_blank_Some t a b :
  split_blank t = Some (a, b) <-> t = a ++ 10 :: 10 :: b /\ has_blank (a ++ [10]) = false.
Proof.
  revert a b. induction t as [|c t IH]; intros a b; cbn [split_blank].
  { split; [done|]. by intros [H _]; destruct a. }
  destruct t as [|d t].
  { split; [done|]. intros [H _]. by destruct a as [|? []]. }
  destruct ((c =? 10) && (d =? 10)) eqn:E.
  - apply andb_true_iff in E as [->%Z.eqb_eq ->%Z.eqb_eq]. split.
    + by intros [= <- <-].
    + intros [H Hn]. destruct a as [|x [|y a]]; simplify_eq/=; done.
  - destruct (split_blank (d :: t)) as [[a' b']|] eqn:E'; cbn [mbind option_bind].
    + destruct (proj1 (IH a' b')) as [Ht Hn]; [done|]. split.
      * intros [= <- <-]. split; [by rewrite Ht|].
        destruct a' as [|x a']; simplify_eq/=; rewrite E; done.
      * intros [H Hn']. destruct a as [|x a]; simplify_eq/=.
        assert (Some (a', b') = Some (a, b)) as [= -> ->]; [|done]. apply IH. split; [done|].
        destruct a as [|y a]; [done|]. simpl in Hn'. by apply orb_false_iff in Hn' as [_ ?].
    + split; [done|]. intros [H Hn]. destruct a as [|x a]; simplify_eq/=.
      discriminate (proj2 (IH a b)). split; [done|].
      destruct a as [|y a]; [done|]. simpl in Hn. by apply orb_false_iff in Hn as [_ ?].
Qed.

(** Non-empty lines without newlines hold no blank line, not even after the
    newline that ends what comes before. *)
Lemma has_blank_app l t : 10 ∉ l -> has_blank (l ++ t) = has_blank t.
Proof.
  induction l as [|c l IH]; intros H; [done|]. apply not_elem_of_cons in H as [Hc H].
  simpl app. cbn [has_blank]. destruct (l ++ t) eqn:E.
  { by destruct l; simpl in E; [subst|]. }
  specialize (IH H). rewrite <- IH. destruct (Z.eqb_spec c 10); [congruence|done].
Qed.

Lemma unlines_no_blank ls :
  Forall (fun l => (10 ∉ l) /\ l <> []) ls -> has_blank (10 :: unlines ls) = false.
Proof.
  induction 1 as [|l ls [Hl Hn] HF IH]; [done|].
  destruct l as [|c l]; [done|]. apply not_elem_of_cons in Hl as [Hc Hl].
  change (unlines ((c :: l) :: ls)) with (((c :: l) ++ [10]) ++ unlines ls). rewrite <- (app_assoc (c :: l)).
  transitivity (((10 =? 10) && (c =? 10)) || has_blank ((c :: l) ++ 10 :: unlines ls)); [done|].
  destruct (Z.eqb_spec c 10); [congruence|]. rewrite has_blank_app; [done|].
  by apply not_elem_of_cons.
Qed.

(** UTF-8 is the identity on ASCII. *)
Lemma as_bytes_ascii t : Forall (fun c => c < 128) t -> as_bytes t = t.
Proof.
  induction 1 as [|c t Hc _ IH]; [done|]. simpl. unfold encode_char.
  rewrite (proj2 (Z.ltb_lt _ _) Hc). simpl. by f_equal.
Qed.

Lemma has_blank_tail c t : has_blank (c :: t) = false -> has_blank t = false.
Proof. cbn [has_blank]. destruct t; [done|]. by intros [_ ?]%orb_false_iff. Qed.

Lemma ends_blank t : ends_with2 10 10 t = true -> has_blank t = true.
Proof.
  unfold ends_with2. intros H. rewrite <- (rev_involutive t). destruct (rev t) as [|b [|a r]]; try done.
  apply andb_true_iff in H as [->%Z.eqb_eq ->%Z.eqb_eq]. simpl. rewrite <- app_assoc. apply has_blank_mid.
Qed.

Lemma split_unlines ls : Forall (fun l => 10 ∉ l) ls -> split_on 10 (unlines ls) = ls ++ [[]].
Proof.
  intros H. apply split_on_Some. split_and!.
  - by destruct ls.
  - clear H. induction ls as [|l ls IH]; [done|]. unfold unlines in *. cbn [flat_map]. rewrite IH.
    change ((l :: ls) ++ [[]]) with (l :: (ls ++ [[]])). rewrite join_cons by by destruct ls. by rewrite <- app_assoc.
  - apply Forall_app. split; [done|]. repeat constructor. apply not_elem_of_nil.
Qed.
