(* ===== verification/Crypto.v ===== *)
(** * Interfaces to base64 and Ed25519

    The [base64] and [ed25519_dalek] crates as classes of operations with the
    laws their documentation gives, and concrete instances to evaluate with. *)

From Stdlib Require Import String.
From S2P Require Import Prelude Bytes Text.
#[local] Open Scope Z_scope.

(** A character of standard base64. *)
Definition b64_char (c : Z) : bool :=
  is_ascii_digit c || ((97 <=? c) && (c <=? 122)) || ((65 <=? c) && (c <=? 90))
  || (c =? 43) || (c =? 47) || (c =? 61).

(** [base64::engine::general_purpose::STANDARD]. *)
Class Base64 := {
  b64_encode : list Z -> text;
  b64_decode : text -> option (list Z);
  b64_encode_nil : b64_encode [] = [];
  b64_decode_encode : forall bs, Forall is_byte bs -> b64_decode (b64_encode bs) = Some bs;
  b64_decode_bytes : forall t bs, b64_decode t = Some bs -> Forall is_byte bs;
  b64_alphabet : forall bs, Forall is_byte bs -> forallb b64_char (b64_encode bs) = true
}.

(** The engine refuses non-zero trailing bits and wrong padding, so a text it
    reads is the one it writes. *)
Class Base64Canonical `{Base64} :=
  b64_canonical : forall t bs, b64_decode t = Some bs -> b64_encode bs = t.

(** [ed25519_dalek]: a signing key is its 32-byte seed, a verifying key its 32
    compressed bytes, [public_key_ok] says that [VerifyingKey::from_bytes]
    accepts them. [verify_strict] and [ed_verify] are the two checks. *)
Class Ed25519 := {
  verifying_key : list Z -> list Z;
  public_key_ok : list Z -> bool;
  ed_sign : list Z -> list Z -> list Z;
  verify_strict : list Z -> list Z -> list Z -> bool;
  ed_verify : list Z -> list Z -> list Z -> bool;
  verifying_key_length : forall seed, length (verifying_key seed) = 32%nat;
  verifying_key_bytes : forall seed, Forall is_byte (verifying_key seed);
  verifying_key_ok : forall seed, public_key_ok (verifying_key seed) = true;
  ed_sign_length : forall seed m, length (ed_sign seed m) = 64%nat;
  ed_sign_bytes : forall seed m, Forall is_byte (ed_sign seed m);
  verify_strict_sign : forall seed m, verify_strict (verifying_key seed) m (ed_sign seed m) = true;
  ed_verify_sign : forall seed m, ed_verify (verifying_key seed) m (ed_sign seed m) = true
}.

(** ** Concrete instances *)

Lemma hex_text_digits bs : Forall is_byte bs -> forallb is_ascii_hexdigit (hex_text bs) = true.
Proof.
  induction 1 as [|b bs Hb _ IH]; [done|]. unfold hex_text. cbn [flat_map].
  destruct (nibbles b Hb) as (H1 & H2 & _).
  assert (forall n, 0 <= n < 16 -> is_ascii_hexdigit (hex_digit n) = true) as Hd.
  { intros n Hn. unfold is_ascii_hexdigit, is_ascii_digit, hex_digit. destruct (Z.ltb_spec n 10); lia. }
  cbn [app forallb]. rewrite !Hd by done. exact IH.
Qed.

(** Hexadecimal in the place of base64: an encoding with the same laws. *)
Definition toy_b64_decode (t : text) : option (list Z) :=
  if Nat.even (length t) then match decode_pairs 0 t with Ok bs => Some bs | Err _ => None end else None.

Lemma toy_b64_Some t bs : toy_b64_decode t = Some bs -> Forall is_byte bs /\ t = hex_text bs.
Proof.
  unfold toy_b64_decode. destruct (Nat.even (length t)) eqn:Ee; [|done].
  destruct (decode_pairs 0 t) as [out|] eqn:E; [|done]. intros [= <-].
  apply (decode_pairs_canonical (length t)) in E; [done|done|]. by apply Nat.even_spec.
Qed.

Lemma toy_b64_roundtrip bs : Forall is_byte bs -> toy_b64_decode (hex_text bs) = Some bs.
Proof.
  intros H. unfold toy_b64_decode, hex_text. rewrite hex_text_length, decode_pairs_hex by done.
  by rewrite (proj2 (Nat.even_spec _)) by (by eexists).
Qed.

Lemma toy_b64_alphabet bs : Forall is_byte bs -> forallb b64_char (hex_text bs) = true.
Proof.
  intros H%hex_text_digits. rewrite forallb_forall in *. intros c Hc. specialize (H c Hc).
  unfold is_ascii_hexdigit, is_ascii_digit, b64_char in *. unfold is_ascii_digit. lia.
Qed.

Definition toy_b64 : Base64 :=
  {| b64_encode := hex_text; b64_decode := toy_b64_decode; b64_encode_nil := eq_refl;
     b64_decode_encode := toy_b64_roundtrip;
     b64_decode_bytes := fun t bs H => proj1 (toy_b64_Some t bs H);
     b64_alphabet := toy_b64_alphabet |}.

Lemma toy_b64_canonical : @Base64Canonical toy_b64.
Proof. intros t bs H. by apply toy_b64_Some in H as [_ ->]. Qed.

(** A keyed checksum in the place of a signature. *)
Definition toy_sign (public m : list Z) : list Z := toy_digest (m ++ public) ++ toy_digest (public ++ m).

Lemma toy_sign_length k m : length (toy_sign k m) = 64%nat.
Proof. unfold toy_sign. by rewrite length_app, !toy_digest_length. Qed.

Lemma toy_sign_bytes k m : Forall is_byte (toy_sign k m).
Proof. apply Forall_app. split; apply toy_digest_bytes. Qed.

Definition toy_ed25519 : Ed25519 :=
  {| verifying_key := toy_digest;
     public_key_ok := fun k => Nat.eqb (length k) 32;
     ed_sign := fun seed m => toy_sign (toy_digest seed) m;
     verify_strict := fun k m sig => bool_decide (sig = toy_sign k m);
     ed_verify := fun k m sig => bool_decide (sig = toy_sign k m);
     verifying_key_length := toy_digest_length; verifying_key_bytes := toy_digest_bytes;
     verifying_key_ok := fun seed => proj2 (Nat.eqb_eq _ _) (toy_digest_length seed);
     ed_sign_length := fun seed m => toy_sign_length _ m;
     ed_sign_bytes := fun seed m => toy_sign_bytes _ m;
     verify_strict_sign := fun seed m => bool_decide_eq_true_2 _ eq_refl;
     ed_verify_sign := fun seed m => bool_decide_eq_true_2 _ eq_refl |}.
