(* ===== verification/Digest.v ===== *)
(** * Canonical digests ([src/digest.rs])

    Every digest hashes a fixed byte layout. The layouts are written here as
    the message handed to SHA-256, so that what a digest binds is a statement
    about messages: which values have the same message, and which do not. *)

From Stdlib Require Import String.
From S2P Require Import Prelude Bytes Kernel.
#[local] Open Scope Z_scope.

Definition POLICY_DIGEST_TAG : list Z := string_bytes "calypol1" ++ [0].
Definition INPUT_DIGEST_TAG : list Z := string_bytes "calyinp1" ++ [0].
Definition DECISION_DIGEST_TAG : list Z := string_bytes "calydcn1" ++ [0].
Definition LEDGER_DIGEST_TAG : list Z := string_bytes "calyldg1" ++ [0].

(** ** The messages *)

Definition update_model (model : KernelModel) : list Z :=
  le_bytes 4 (km_model_id model) ++
  le_bytes 2 (km_provider_id model) ++
  le_bytes 2 (km_quality_bps model) ++
  le_bytes 2 (km_risk_ceiling_bps model) ++
  le_bytes 1 (km_enabled model) ++
  le_bytes 4 (km_p95_latency_ms model) ++
  le_bytes 8 (km_capabilities model) ++
  le_bytes 8 (km_region_mask model) ++
  le_bytes 8 (km_input_cost_microunits_per_million_tokens model) ++
  le_bytes 8 (km_output_cost_microunits_per_million_tokens model).

Definition policy_message (snapshot : PolicySnapshot) : list Z :=
  POLICY_DIGEST_TAG ++
  le_bytes 8 (ps_policy_epoch snapshot) ++
  le_bytes 8 (ps_catalog_epoch snapshot) ++
  le_bytes 2 (ps_hard_risk_limit_bps snapshot) ++
  le_bytes 2 (ps_minimum_confidence_bps snapshot) ++
  le_bytes 2 (ps_risk_penalty_multiplier_bps snapshot) ++
  le_bytes 8 (ps_latency_penalty_microunits_per_ms snapshot) ++
  flat_map update_model (sort_by_key km_model_id (ps_models snapshot)).

Definition input_message (input : KernelInput) : list Z :=
  INPUT_DIGEST_TAG ++
  le_bytes 8 (ki_request_sequence input) ++
  le_bytes 4 (ki_requested_model_id input) ++
  le_bytes 4 (ki_input_tokens input) ++
  le_bytes 4 (ki_output_tokens input) ++
  le_bytes 8 (ki_business_value_microunits input) ++
  le_bytes 8 (ki_budget_limit_microunits input) ++
  le_bytes 2 (ki_risk_bps input) ++
  le_bytes 2 (ki_confidence_bps input) ++
  le_bytes 2 (ki_minimum_quality_bps input) ++
  le_bytes 4 (ki_max_p95_latency_ms input) ++
  le_bytes 8 (ki_required_capabilities input) ++
  le_bytes 8 (ki_allowed_provider_mask input) ++
  le_bytes 8 (ki_required_region_mask input).

Definition decision_message (decision : KernelDecision) : list Z :=
  DECISION_DIGEST_TAG ++
  le_bytes 8 (kd_request_sequence decision) ++
  le_bytes 1 (KernelAction_repr (kd_action decision)) ++
  le_bytes 2 (KernelReason_repr (kd_reason decision)) ++
  le_bytes 4 (kd_selected_model_id decision) ++
  le_bytes 2 (kd_selected_model_index decision) ++
  le_bytes 8 (kd_estimated_cost_microunits decision) ++
  le_bytes 8 (kd_expected_utility_microunits decision) ++
  le_bytes 4 (kd_counterfactual_model_id decision) ++
  le_bytes 8 (kd_counterfactual_utility_microunits decision) ++
  le_bytes 2 (kd_evaluated_models decision) ++
  le_bytes 2 (kd_eligible_models decision) ++
  le_bytes 8 (kd_policy_epoch decision) ++
  le_bytes 8 (kd_catalog_epoch decision).

(** ** The digests *)

Section Digests.
Context `{HashFunctions}.

Definition policy_digest (snapshot : PolicySnapshot) : list Z := sha256 (policy_message snapshot).
Definition input_digest (input : KernelInput) : list Z := sha256 (input_message input).
Definition decision_digest (decision : KernelDecision) : list Z :=
  sha256 (decision_message decision).
End Digests.

(** ** Types of a decision *)

Definition decision_typed (d : KernelDecision) : Prop :=
  is_u 64 (kd_request_sequence d) /\ is_u 32 (kd_selected_model_id d) /\
  is_u 16 (kd_selected_model_index d) /\ is_u 64 (kd_estimated_cost_microunits d) /\
  is_i 64 (kd_expected_utility_microunits d) /\ is_u 32 (kd_counterfactual_model_id d) /\
  is_i 64 (kd_counterfactual_utility_microunits d) /\ is_u 16 (kd_evaluated_models d) /\
  is_u 16 (kd_eligible_models d) /\ is_u 64 (kd_policy_epoch d) /\ is_u 64 (kd_catalog_epoch d).

#[export] Instance decision_typed_dec d : Decision (decision_typed d).
Proof. unfold decision_typed. apply _. Defined.

(** ** Injectivity of the layouts *)

(** Recover the fields of a record from equations between their bytes. *)
Ltac field_inj :=
  repeat match goal with
  | F : le_bytes ?n ?x = le_bytes ?n ?y |- _ =>
      first [ apply (le_bytes_inj_u n) in F; [|by auto|by auto]
            | apply le_bytes_inj_i64 in F; [|by auto|by auto] ]
  end.

Lemma update_model_length m : length (update_model m) = 47%nat.
Proof. unfold update_model. rewrite !length_app, !length_le_bytes. done. Qed.

Lemma update_model_inj m m' :
  model_typed m -> model_typed m' -> update_model m = update_model m' -> m = m'.
Proof.
  intros (?&?&?&?&?&?&?&?&?&?) (?&?&?&?&?&?&?&?&?&?). unfold update_model. intros Heq.
  split_fields Heq. field_inj. destruct m, m'. simpl in *. congruence.
Qed.

Lemma update_models_inj l : forall l',
  Forall model_typed l -> Forall model_typed l' ->
  flat_map update_model l = flat_map update_model l' -> l = l'.
Proof.
  induction l as [|m l IH]; intros [|m' l'] Hl Hl' Heq; [done| | |]; cbn [flat_map] in Heq.
  - apply (f_equal length) in Heq. rewrite length_app, update_model_length in Heq. done.
  - apply (f_equal length) in Heq. rewrite length_app, update_model_length in Heq. done.
  - apply list.Forall_cons in Hl as [Hm Hl], Hl' as [Hm' Hl'].
    apply app_inj_len in Heq as [E1 E2]; [|by rewrite !update_model_length].
    f_equal; [by apply update_model_inj|by apply IH].
Qed.

Lemma input_message_inj i i' :
  input_typed i -> input_typed i' -> input_message i = input_message i' -> i = i'.
Proof.
  intros (?&?&?&?&?&?&?&?&?&?&?&?&?) (?&?&?&?&?&?&?&?&?&?&?&?&?). unfold input_message. intros Heq.
  apply app_inv_head in Heq. split_fields Heq. field_inj.
  destruct i, i'. simpl in *. congruence.
Qed.

Lemma KernelAction_repr_inj a b : KernelAction_repr a = KernelAction_repr b -> a = b.
Proof. by destruct a, b. Qed.
Lemma KernelReason_repr_inj a b : KernelReason_repr a = KernelReason_repr b -> a = b.
Proof. by destruct a, b. Qed.
Lemma KernelAction_repr_range a : is_u 8 (KernelAction_repr a).
Proof. destruct a; by_compute. Qed.
Lemma KernelReason_repr_range r : is_u 16 (KernelReason_repr r).
Proof. destruct r; by_compute. Qed.

Lemma decision_message_inj d d' :
  decision_typed d -> decision_typed d' -> decision_message d = decision_message d' -> d = d'.
Proof.
  pose proof (KernelAction_repr_range (kd_action d)). pose proof (KernelAction_repr_range (kd_action d')).
  pose proof (KernelReason_repr_range (kd_reason d)). pose proof (KernelReason_repr_range (kd_reason d')).
  intros (?&?&?&?&?&?&?&?&?&?&?) (?&?&?&?&?&?&?&?&?&?&?). unfold decision_message. intros Heq.
  apply app_inv_head in Heq. split_fields Heq. field_inj.
  assert (kd_action d = kd_action d') by (by apply KernelAction_repr_inj).
  assert (kd_reason d = kd_reason d') by (by apply KernelReason_repr_inj).
  destruct d, d'. simpl in *. congruence.
Qed.

(** Two snapshots are the same policy: equal headers, and catalogs that hold
    the same candidates. *)
Definition same_policy (p p' : PolicySnapshot) : Prop :=
  ps_policy_epoch p = ps_policy_epoch p' /\ ps_catalog_epoch p = ps_catalog_epoch p' /\
  ps_hard_risk_limit_bps p = ps_hard_risk_limit_bps p' /\
  ps_minimum_confidence_bps p = ps_minimum_confidence_bps p' /\
  ps_risk_penalty_multiplier_bps p = ps_risk_penalty_multiplier_bps p' /\
  ps_latency_penalty_microunits_per_ms p = ps_latency_penalty_microunits_per_ms p' /\
  ps_models p ≡ₚ ps_models p'.

#[export] Instance same_policy_equiv : Equivalence same_policy.
Proof.
  unfold same_policy. split.
  - intros p. by split_and!.
  - intros p q (?&?&?&?&?&?&?). by split_and!.
  - intros p q r (?&?&?&?&?&?&?) (?&?&?&?&?&?&?). split_and!; by etrans.
Qed.

Lemma policy_message_inj p p' :
  policy_wf p -> policy_wf p' -> policy_message p = policy_message p' -> same_policy p p'.
Proof.
  intros ((?&?&?&?&?&?) & HF & _) ((?&?&?&?&?&?) & HF' & _). unfold policy_message. intros Heq.
  apply app_inv_head in Heq. split_fields Heq. field_inj.
  apply update_models_inj in Heq; [|by rewrite sort_by_key_perm|by rewrite sort_by_key_perm].
  unfold same_policy. split_and!; try done.
  by rewrite <- (sort_by_key_perm km_model_id (ps_models p)), Heq, sort_by_key_perm.
Qed.

Lemma policy_message_same p p' :
  NoDup (map km_model_id (ps_models p)) -> same_policy p p' -> policy_message p = policy_message p'.
Proof.
  intros Hnd (H1&H2&H3&H4&H5&H6&Hm). unfold policy_message.
  by rewrite H1, H2, H3, H4, H5, H6, (sort_by_key_canonical km_model_id _ _ Hnd Hm).
Qed.

(** For snapshots with distinct identifiers, having
    the same digest message is exactly being the same policy: the layout
    depends on the header and on which candidates the catalog holds, never on
    the order they are listed in, and separates any two policies that differ
    anywhere else. *)
Theorem policy_message_canonical (p p' : PolicySnapshot)
    (Hp : policy_wf p) (Hp' : policy_wf p') (Hnd : NoDup (map km_model_id (ps_models p))) :
  policy_message p = policy_message p' <-> same_policy p p'.
Proof. split; [by apply policy_message_inj|by apply policy_message_same]. Qed.

Lemma policy_message_canonical_witness :
  policy_message sample_policy =
  policy_message (new_unchecked 7 11 9600 5500 10000 2 [sample_model_20; sample_model_10]).
Proof.
  apply policy_message_canonical; [by_compute|by_compute|by_compute|].
  split_and!; try reflexivity. constructor.
Defined.

Section Binding.
Context `{HashFunctions}.

(** The digest of a policy does not depend on the order of its catalog. *)
Lemma policy_digest_order p p' :
  NoDup (map km_model_id (ps_models p)) -> same_policy p p' -> policy_digest p = policy_digest p'.
Proof. intros. unfold policy_digest. f_equal. by apply policy_message_same. Qed.

Lemma digests_bind p p' i i' d d' :
  policy_wf p -> policy_wf p' -> input_typed i -> input_typed i' ->
  decision_typed d -> decision_typed d' ->
  collision_free sha256 [policy_message p; policy_message p'; input_message i; input_message i';
                         decision_message d; decision_message d'] ->
  policy_digest p = policy_digest p' -> input_digest i = input_digest i' ->
  decision_digest d = decision_digest d' ->
  same_policy p p' /\ i = i' /\ d = d'.
Proof.
  intros Hp Hp' Hi Hi' Hd Hd' Hcf E1 E2 E3. split_and!.
  - apply policy_message_inj; try done. apply Hcf; [set_solver..|done].
  - apply input_message_inj; try done. apply Hcf; [set_solver..|done].
  - apply decision_message_inj; try done. apply Hcf; [set_solver..|done].
Qed.
End Binding.

(** Claim C39: The three digests bind a decision record: if two
    records carry the same policy, input and decision digests, and SHA-256
    has no collision among the six messages involved, then they are about the
    same request and the same decision, field for field, and the same policy,
    field for field up to the order its catalog is listed in. *)
Theorem digests_bind_record (H : HashFunctions) (p p' : PolicySnapshot) (i i' : KernelInput)
    (d d' : KernelDecision)
    (Hp : policy_wf p) (Hp' : policy_wf p') (Hi : input_typed i) (Hi' : input_typed i')
    (Hd : decision_typed d) (Hd' : decision_typed d')
    (Hcf : collision_free sha256
             [policy_message p; policy_message p'; input_message i; input_message i';
              decision_message d; decision_message d'])
    (E1 : policy_digest p = policy_digest p') (E2 : input_digest i = input_digest i')
    (E3 : decision_digest d = decision_digest d') :
  same_policy p p' /\ i = i' /\ d = d'.
Proof. by apply digests_bind. Qed.

(** The sample policy with its catalog listed the other way round. *)
Definition relisted_policy : PolicySnapshot := new_unchecked 7 11 9600 5500 10000 2 [sample_model_20; sample_model_10].

Lemma digests_bind_record_witness :
  sample_policy <> relisted_policy /\
  same_policy sample_policy relisted_policy /\ sample_input = sample_input /\
  prescribe sample_policy sample_input = prescribe sample_policy sample_input.
Proof.
  split; [intros E; vm_compute in E; discriminate E|].
  apply (digests_bind_record toy_hash sample_policy relisted_policy sample_input sample_input
           (prescribe sample_policy sample_input) (prescribe sample_policy sample_input));
    [by_compute..| |by vm_compute|reflexivity|reflexivity].
  intros x y Hx Hy.
  repeat (apply elem_of_cons in Hx as [->|Hx]); try (by apply not_elem_of_nil in Hx);
    repeat (apply elem_of_cons in Hy as [->|Hy]); try (by apply not_elem_of_nil in Hy);
    intros E; first [reflexivity | exfalso; vm_compute in E; discriminate E].
Defined.
