(* ===== verification/Verify.v ===== *)
(** * Replay verification and audit bundles ([src/verify.rs])

    Replaying a decision, the bundles that record its digests, their
    canonical-form check and the decoding of hexadecimal digests. *)

From Stdlib Require Import String.
From S2P Require Import Prelude Bytes Kernel KernelPricing KernelRank Digest.
#[local] Open Scope Z_scope.

Inductive VerifyResult :=
| Valid
| Mismatch (expected actual : KernelDecision)
| DigestMismatch (expected_hex actual_hex : string).

Definition AUDIT_SCHEMA_VERSION : string := "calybris.audit.v1"%string.
Definition AUDIT_DIGEST_ALGORITHM : string := "sha256"%string.
Definition AUDIT_PROOF_VERSION : Z := 1.
Definition AUDIT_CREATED_BY : string := "calybris"%string.

Inductive AuditBundleValidationError :=
| SchemaVersion (s : string)
| DigestAlgorithm (s : string)
| ProofVersion (v : Z)
| CreatedBy (s : string)
| ReplayInvalid
| NonCanonicalDigest (field : string).

Record AuditBundle := mkAuditBundle {
  ab_schema_version : string;
  ab_digest_algorithm : string;
  ab_proof_version : Z;
  ab_policy_epoch : Z;
  ab_catalog_epoch : Z;
  ab_created_by : string;
  ab_policy_digest_hex : string;
  ab_input_digest_hex : string;
  ab_decision_digest_hex : string;
  ab_replay_valid : bool
}.

Record CorrectnessCertificate := mkCorrectnessCertificate {
  cc_policy_fingerprint : string;
  cc_input_fingerprint : string;
  cc_decision_fingerprint : string;
  cc_decision_sequence : Z;
  cc_selected_model_id : Z;
  cc_action : string;
  cc_reason : string;
  cc_replay_valid : bool;
  cc_evaluated_models : Z;
  cc_eligible_models : Z;
  cc_counterfactual_model_id : Z;
  cc_counterfactual_utility_microunits : Z
}.

Definition AuditBundle_policy_digest (b : AuditBundle) : result DigestDecodeError (list Z) :=
  decode_hex32 (ab_policy_digest_hex b).
Definition AuditBundle_input_digest (b : AuditBundle) : result DigestDecodeError (list Z) :=
  decode_hex32 (ab_input_digest_hex b).
Definition AuditBundle_decision_digest (b : AuditBundle) : result DigestDecodeError (list Z) :=
  decode_hex32 (ab_decision_digest_hex b).

(** 64 characters, all of them lower-case hexadecimal digits. *)
Definition canonical_digest_text (digest : string) : bool :=
  (Z.of_nat (length (string_bytes digest)) =? 64)
  && forallb (fun byte => ((48 <=? byte) && (byte <=? 57)) || ((97 <=? byte) && (byte <=? 102)))
       (string_bytes digest).

Definition validate_canonical (b : AuditBundle) : result AuditBundleValidationError unit :=
  if negb (String.eqb (ab_schema_version b) AUDIT_SCHEMA_VERSION) then
    Err (SchemaVersion (ab_schema_version b))
  else if negb (String.eqb (ab_digest_algorithm b) AUDIT_DIGEST_ALGORITHM) then
    Err (DigestAlgorithm (ab_digest_algorithm b))
  else if negb (ab_proof_version b =? AUDIT_PROOF_VERSION) then
    Err (ProofVersion (ab_proof_version b))
  else if negb (String.eqb (ab_created_by b) AUDIT_CREATED_BY) then
    Err (CreatedBy (ab_created_by b))
  else if negb (ab_replay_valid b) then Err ReplayInvalid
  else
    try_for_each
      (fun fd : string * string =>
         if canonical_digest_text (snd fd) then Ok tt else Err (NonCanonicalDigest (fst fd)))
      [("policy_digest_hex"%string, ab_policy_digest_hex b);
       ("input_digest_hex"%string, ab_input_digest_hex b);
       ("decision_digest_hex"%string, ab_decision_digest_hex b)].

Section Verify.
Context `{HashFunctions}.

Definition audit_bundle (snapshot : PolicySnapshot) (input : KernelInput) (decision : KernelDecision)
    : AuditBundle :=
  let policy := policy_digest snapshot in
  let input_d := input_digest input in
  let decision_d := decision_digest decision in
  let replayed := prescribe snapshot input in
  {| ab_schema_version := AUDIT_SCHEMA_VERSION;
     ab_digest_algorithm := AUDIT_DIGEST_ALGORITHM;
     ab_proof_version := AUDIT_PROOF_VERSION;
     ab_policy_epoch := ps_policy_epoch snapshot;
     ab_catalog_epoch := ps_catalog_epoch snapshot;
     ab_created_by := AUDIT_CREATED_BY;
     ab_policy_digest_hex := digest_to_hex policy;
     ab_input_digest_hex := digest_to_hex input_d;
     ab_decision_digest_hex := digest_to_hex decision_d;
     ab_replay_valid := bool_decide (replayed = decision) |}.

Definition verify_decision (snapshot : PolicySnapshot) (input : KernelInput)
    (decision : KernelDecision) : VerifyResult :=
  let replayed := prescribe snapshot input in
  if negb (bool_decide (replayed = decision)) then Mismatch replayed decision
  else
    let expected_d := decision_digest replayed in
    let actual_d := decision_digest decision in
    if negb (bool_decide (expected_d = actual_d)) then
      DigestMismatch (digest_to_hex expected_d) (digest_to_hex actual_d)
    else Valid.

Definition verified_audit_bundle (snapshot : PolicySnapshot) (input : KernelInput)
    (decision : KernelDecision) : result VerifyResult AuditBundle :=
  match verify_decision snapshot input decision with
  | Valid => Ok (audit_bundle snapshot input decision)
  | error => Err error
  end.

Definition verify_decision_digest (decision : KernelDecision) (claimed_digest_hex : string)
    : VerifyResult :=
  let expected_hex := digest_to_hex (decision_digest decision) in
  if String.eqb claimed_digest_hex expected_hex then Valid
  else DigestMismatch expected_hex claimed_digest_hex.

Definition snapshot_fingerprint (snapshot : PolicySnapshot) : string :=
  digest_to_hex (policy_digest snapshot).

Definition certify_decision (snapshot : PolicySnapshot) (input : KernelInput)
    (decision : KernelDecision) : CorrectnessCertificate :=
  let bundle := audit_bundle snapshot input decision in
  {| cc_policy_fingerprint := ab_policy_digest_hex bundle;
     cc_input_fingerprint := ab_input_digest_hex bundle;
     cc_decision_fingerprint := ab_decision_digest_hex bundle;
     cc_decision_sequence := kd_request_sequence decision;
     cc_selected_model_id := kd_selected_model_id decision;
     cc_action := KernelAction_display (kd_action decision);
     cc_reason := KernelReason_display (kd_reason decision);
     cc_replay_valid := ab_replay_valid bundle;
     cc_evaluated_models := kd_evaluated_models decision;
     cc_eligible_models := kd_eligible_models decision;
     cc_counterfactual_model_id := kd_counterfactual_model_id decision;
     cc_counterfactual_utility_microunits := kd_counterfactual_utility_microunits decision |}.
End Verify.

Definition counterfactual_utility (snapshot : PolicySnapshot) (input : KernelInput)
    (alt_model_id : Z) : option Z :=
  utility_for_model snapshot input alt_model_id.

(** ** Facts *)

Section Facts.
Context `{HashFunctions}.

Lemma verify_decision_spec p i d :
  verify_decision p i d = if bool_decide (prescribe p i = d) then Valid else Mismatch (prescribe p i) d.
Proof.
  unfold verify_decision. destruct (bool_decide (prescribe p i = d)) eqn:E; [|done].
  apply bool_decide_eq_true in E as <-. by rewrite bool_decide_eq_true_2.
Qed.

Lemma hex_text_canonical d :
  length d = 32%nat -> Forall is_byte d -> canonical_digest_text (digest_to_hex d) = true.
Proof.
  intros Hl Hb. unfold canonical_digest_text, digest_to_hex. rewrite bytes_to_hex_bytes by done.
  rewrite hex_text_length, Hl. simpl. clear Hl.
  induction Hb as [|b l Hb _ IH]; [done|]. cbn [flat_map app forallb].
  destruct (nibbles b Hb) as (H1 & H2 & _). rewrite IH, andb_true_r.
  unfold hex_digit. destruct (Z.ltb_spec (b / 16) 10), (Z.ltb_spec (b mod 16) 10); lia.
Qed.

Lemma audit_bundle_digests_canonical p i d :
  canonical_digest_text (ab_policy_digest_hex (audit_bundle p i d)) = true /\
  canonical_digest_text (ab_input_digest_hex (audit_bundle p i d)) = true /\
  canonical_digest_text (ab_decision_digest_hex (audit_bundle p i d)) = true.
Proof. split_and!; apply hex_text_canonical; apply sha256_length || apply sha256_bytes. Qed.

Lemma audit_bundle_valid p i d :
  validate_canonical (audit_bundle p i d) = Ok tt <-> prescribe p i = d.
Proof.
  destruct (audit_bundle_digests_canonical p i d) as (C1 & C2 & C3).
  unfold validate_canonical. cbn [ab_schema_version ab_digest_algorithm ab_proof_version
    ab_created_by audit_bundle ab_replay_valid] in *.
  rewrite !String.eqb_refl, Z.eqb_refl. cbn [negb].
  destruct (bool_decide (prescribe p i = d)) eqn:E; cbn [negb].
  - apply bool_decide_eq_true in E. cbn [try_for_each snd]. by rewrite C1, C2, C3.
  - apply bool_decide_eq_false in E. by split.
Qed.
End Facts.

(** [verify_decision] accepts exactly the decision the
    kernel makes: any other decision is a [Mismatch] that carries both, and
    the digest branch behind it is never taken. *)
Theorem verify_decision_exact (H : HashFunctions) (p : PolicySnapshot) (i : KernelInput)
    (d : KernelDecision) :
  (verify_decision p i d = Valid <-> d = prescribe p i) /\
  (d <> prescribe p i -> verify_decision p i d = Mismatch (prescribe p i) d).
Proof.
  rewrite verify_decision_spec. case_bool_decide as E; by split.
Qed.

(** [verified_audit_bundle] is fail-closed: it returns
    a bundle exactly for the decision the kernel makes, and then the bundle
    passes [validate_canonical] and its three hexadecimal fields decode back
    to the 32-byte policy, input and decision digests. A bundle built by
    [audit_bundle] for a decision that does not replay never passes
    [validate_canonical]. *)
Theorem verified_bundle_fail_closed (H : HashFunctions) (p : PolicySnapshot) (i : KernelInput)
    (d : KernelDecision) :
  ((exists b, verified_audit_bundle p i d = Ok b) <-> d = prescribe p i) /\
  (forall b, verified_audit_bundle p i d = Ok b ->
     validate_canonical b = Ok tt /\
     AuditBundle_policy_digest b = Ok (policy_digest p) /\
     AuditBundle_input_digest b = Ok (input_digest i) /\
     AuditBundle_decision_digest b = Ok (decision_digest d)) /\
  (d <> prescribe p i -> exists e, validate_canonical (audit_bundle p i d) = Err e).
Proof.
  unfold verified_audit_bundle. rewrite verify_decision_spec.
  case_bool_decide as E; split_and!.
  - split; [done|]. intros _. by eexists.
  - intros b [= <-]. split_and!; [by apply audit_bundle_valid|..];
      apply decode_hex32_digest; apply sha256_length || apply sha256_bytes.
  - done.
  - split; [by intros []|]. intros ->. done.
  - done.
  - intros _. destruct (validate_canonical (audit_bundle p i d)) as [[]|e] eqn:Ev; [|by eexists].
    by apply audit_bundle_valid in Ev.
Qed.

(** The hexadecimal text of a digest decodes to the
    digest, and every text the decoder accepts is the canonical lower-case
    text of the 32 bytes it decodes to: decoding and printing are inverse
    bijections, so a digest has one textual form. *)
Theorem digest_hex_roundtrip (d : list Z) (s : string) :
  (length d = 32%nat -> Forall is_byte d -> decode_hex32 (digest_to_hex d) = Ok d) /\
  (decode_hex32 s = Ok d -> length d = 32%nat /\ Forall is_byte d /\ digest_to_hex d = s).
Proof. split; [apply decode_hex32_digest|apply decode_hex32_canonical]. Qed.
