(* ===== verification/Ffi.v ===== *)
(** * The C binding ([calybris-ffi/src/lib.rs])

    The entry points a C caller has, on a memory of typed cells. A pointer is an
    address, null is 0, and the elements of an array stand at consecutive
    addresses. Reading a cell that is not there, not initialised or of another
    type, writing to a cell of another type, and freeing what is not a live
    handle are undefined behaviour, which is [None]. *)

From S2P Require Import Prelude Kernel Bytes Digest Verify.
#[local] Open Scope Z_scope.

Definition CALYBRIS_ABI_VERSION : Z := 1.
Definition CALYBRIS_DIGEST_HEX_LEN : Z := 64.

Definition CALYBRIS_OK : Z := 0.
Definition CALYBRIS_ERR_NULL : Z := -1.
Definition CALYBRIS_ERR_INVALID_POLICY : Z := -2.
Definition CALYBRIS_ERR_INVALID_INPUT : Z := -3.
Definition CALYBRIS_ERR_BUFFER_TOO_SMALL : Z := -4.
Definition CALYBRIS_ERR_UNKNOWN_VARIANT : Z := -5.
Definition CALYBRIS_ERR_PANIC : Z := -6.
Definition CALYBRIS_ERR_CATALOG_TOO_LARGE : Z := -7.
Definition CALYBRIS_ERR_RESERVED_MODEL_ID : Z := -8.
Definition CALYBRIS_ERR_INVALID_ENABLED_FLAG : Z := -9.

(** ** Structures *)

Record CalybrisModel := mkCalybrisModel {
  cm_model_id : Z;
  cm_provider_id : Z;
  cm_quality_bps : Z;
  cm_risk_ceiling_bps : Z;
  cm_enabled : Z;
  cm_p95_latency_ms : Z;
  cm_capabilities : Z;
  cm_region_mask : Z;
  cm_input_cost_microunits_per_million_tokens : Z;
  cm_output_cost_microunits_per_million_tokens : Z
}.

Record CalybrisPolicyConfig := mkCalybrisPolicyConfig {
  cc_policy_epoch : Z;
  cc_catalog_epoch : Z;
  cc_hard_risk_limit_bps : Z;
  cc_minimum_confidence_bps : Z;
  cc_risk_penalty_multiplier_bps : Z;
  cc_latency_penalty_microunits_per_ms : Z
}.

Record CalybrisInput := mkCalybrisInput {
  ci_request_sequence : Z;
  ci_requested_model_id : Z;
  ci_input_tokens : Z;
  ci_output_tokens : Z;
  ci_business_value_microunits : Z;
  ci_budget_limit_microunits : Z;
  ci_risk_bps : Z;
  ci_confidence_bps : Z;
  ci_minimum_quality_bps : Z;
  ci_max_p95_latency_ms : Z;
  ci_required_capabilities : Z;
  ci_allowed_provider_mask : Z;
  ci_required_region_mask : Z
}.

Record CalybrisDecision := mkCalybrisDecision {
  cd_request_sequence : Z;
  cd_action : Z;
  cd_reason : Z;
  cd_selected_model_id : Z;
  cd_selected_model_index : Z;
  cd_estimated_cost_microunits : Z;
  cd_expected_utility_microunits : Z;
  cd_counterfactual_model_id : Z;
  cd_counterfactual_utility_microunits : Z;
  cd_evaluated_models : Z;
  cd_eligible_models : Z;
  cd_policy_epoch : Z;
  cd_catalog_epoch : Z
}.

(** [CalybrisPolicy] wraps the snapshot. *)
Record CalybrisPolicy := mkCalybrisPolicy { cp_inner : PolicySnapshot }.

(** ** Conversions *)

Definition model_from (m : CalybrisModel) : KernelModel :=
  mkKernelModel (cm_model_id m) (cm_provider_id m) (cm_quality_bps m) (cm_risk_ceiling_bps m) (cm_enabled m)
    (cm_p95_latency_ms m) (cm_capabilities m) (cm_region_mask m) (cm_input_cost_microunits_per_million_tokens m)
    (cm_output_cost_microunits_per_million_tokens m).

Definition input_from (i : CalybrisInput) : KernelInput :=
  mkKernelInput (ci_request_sequence i) (ci_requested_model_id i) (ci_input_tokens i) (ci_output_tokens i)
    (ci_business_value_microunits i) (ci_budget_limit_microunits i) (ci_risk_bps i) (ci_confidence_bps i)
    (ci_minimum_quality_bps i) (ci_max_p95_latency_ms i) (ci_required_capabilities i)
    (ci_allowed_provider_mask i) (ci_required_region_mask i).

Definition decision_to_c (d : KernelDecision) : CalybrisDecision :=
  mkCalybrisDecision (kd_request_sequence d) (KernelAction_repr (kd_action d)) (KernelReason_repr (kd_reason d))
    (kd_selected_model_id d) (kd_selected_model_index d) (kd_estimated_cost_microunits d)
    (kd_expected_utility_microunits d) (kd_counterfactual_model_id d) (kd_counterfactual_utility_microunits d)
    (kd_evaluated_models d) (kd_eligible_models d) (kd_policy_epoch d) (kd_catalog_epoch d).

Definition action_from_c (a : Z) : option KernelAction :=
  match a with 1 => Some ExecuteRequested | 2 => Some Substitute | 3 => Some Reject | _ => None end.

Definition reason_from_c (r : Z) : option KernelReason :=
  match r with
  | 1 => Some RequestedModelMaximizesUtility
  | 2 => Some AlternativeMaximizesUtility
  | 100 => Some RiskHardLimit
  | 101 => Some ConfidenceHardLimit
  | 102 => Some NoEnabledModel
  | 103 => Some QualityConstraint
  | 104 => Some LatencyConstraint
  | 105 => Some CapabilityConstraint
  | 106 => Some ProviderConstraint
  | 107 => Some RegionConstraint
  | 108 => Some BudgetConstraint
  | 109 => Some NonPositiveUtility
  | 110 => Some RiskCeilingConstraint
  | _ => None
  end.

Definition decision_from_c (c : CalybrisDecision) : option KernelDecision :=
  action ← action_from_c (cd_action c);
  reason ← reason_from_c (cd_reason c);
  Some (mkKernelDecision (cd_request_sequence c) action reason (cd_selected_model_id c) (cd_selected_model_index c)
          (cd_estimated_cost_microunits c) (cd_expected_utility_microunits c) (cd_counterfactual_model_id c)
          (cd_counterfactual_utility_microunits c) (cd_evaluated_models c) (cd_eligible_models c)
          (cd_policy_epoch c) (cd_catalog_epoch c)).

(** ** Memory *)

Inductive Cell :=
| OfModel (v : CalybrisModel)
| OfConfig (v : CalybrisPolicyConfig)
| OfInput (v : CalybrisInput)
| OfDecision (v : CalybrisDecision)
| OfPolicy (v : CalybrisPolicy)
| OfPointer (p : Z)
| OfSize (n : Z)
| OfByte (b : Z).

Inductive Kind := KModel | KConfig | KInput | KDecision | KPolicy | KPointer | KSize | KByte.
#[export] Instance Kind_eq_dec : EqDecision Kind.
Proof. solve_decision. Defined.

Definition kind_of (c : Cell) : Kind :=
  match c with
  | OfModel _ => KModel
  | OfConfig _ => KConfig
  | OfInput _ => KInput
  | OfDecision _ => KDecision
  | OfPolicy _ => KPolicy
  | OfPointer _ => KPointer
  | OfSize _ => KSize
  | OfByte _ => KByte
  end.

(** A cell: what it is for, and its value once it has one. *)
Record Slot := mkSlot { sl_kind : Kind; sl_value : option Cell }.

Abbreviation Mem := (gmap Z Slot).

(** A computation on the memory; [None] is undefined behaviour. *)
Definition mem (A : Type) : Type := Mem -> option (A * Mem).
#[export] Instance mem_ret : MRet mem := fun A a m => Some (a, m).
#[export] Instance mem_bind : MBind mem := fun A B k c m =>
  match c m with Some (a, m') => k a m' | None => None end.

Definition null : Z := 0.
Definition is_null (p : Z) : bool := p =? null.

(** [*p] read at a type: [get] picks the values of that type. *)
Definition load {A} (get : Cell -> option A) (p : Z) : mem A := fun m =>
  if is_null p then None
  else s ← m !! p; c ← sl_value s; a ← get c; Some (a, m).

(** [*p = v]. *)
Definition store (p : Z) (v : Cell) : mem unit := fun m =>
  if is_null p then None
  else
    s ← m !! p;
    if bool_decide (sl_kind s = kind_of v) then Some (tt, <[p := mkSlot (sl_kind s) (Some v)]> m) else None.

Definition get_model (c : Cell) : option CalybrisModel := match c with OfModel v => Some v | _ => None end.
Definition get_config (c : Cell) : option CalybrisPolicyConfig := match c with OfConfig v => Some v | _ => None end.
Definition get_input (c : Cell) : option CalybrisInput := match c with OfInput v => Some v | _ => None end.
Definition get_decision (c : Cell) : option CalybrisDecision := match c with OfDecision v => Some v | _ => None end.
Definition get_policy (c : Cell) : option CalybrisPolicy := match c with OfPolicy v => Some v | _ => None end.

(** [std::slice::from_raw_parts(models, n)], every element read. *)
Fixpoint load_models (p : Z) (n : nat) : mem (list CalybrisModel) :=
  match n with
  | O => mret []
  | S n' => m ← load get_model p; rest ← load_models (p + 1) n'; mret (m :: rest)
  end.

(** [ptr::copy_nonoverlapping] of bytes. *)
Fixpoint store_bytes (p : Z) (bytes : list Z) : mem unit :=
  match bytes with
  | [] => mret tt
  | b :: rest => _ ← store p (OfByte b); store_bytes (p + 1) rest
  end.

(** [Box::into_raw(Box::new(v))]: an address that was not in use. *)
Definition box_new (v : CalybrisPolicy) : mem Z := fun m =>
  let p := fresh ({[null]} ∪ dom m) in Some (p, <[p := mkSlot KPolicy (Some (OfPolicy v))]> m).

(** [drop(Box::from_raw(p))]. *)
Definition box_drop (p : Z) : mem unit := fun m =>
  _ ← load get_policy p m; Some (tt, delete p m).

Section ffi.
Context {HF : HashFunctions}.

Definition write_cstr (text : string) (out capacity : Z) : mem Z :=
  let bytes := string_bytes text in
  let len := Z.of_nat (length bytes) in
  if is_null out then mret CALYBRIS_ERR_NULL
  else if capacity <? len + 1 then mret CALYBRIS_ERR_BUFFER_TOO_SMALL
  else
    _ ← store_bytes out bytes;
    _ ← store (out + len) (OfByte 0);
    mret CALYBRIS_OK.

(** ** Entry points

    Nothing in them panics, so [guard] returns what its body returns. *)

Definition calybris_abi_version : Z := CALYBRIS_ABI_VERSION.

Definition calybris_policy_new (config models model_count out : Z) : mem Z :=
  if is_null out then mret CALYBRIS_ERR_NULL
  else
    _ ← store out (OfPointer null);
    if is_null config then mret CALYBRIS_ERR_NULL
    else if is_null models && negb (model_count =? 0) then mret CALYBRIS_ERR_NULL
    else
      config ← load get_config config;
      catalog ← (if model_count =? 0 then mret [] else ms ← load_models models (Z.to_nat model_count); mret (map model_from ms));
      match try_new_trusted (cc_policy_epoch config) (cc_catalog_epoch config) (cc_hard_risk_limit_bps config)
              (cc_minimum_confidence_bps config) (cc_risk_penalty_multiplier_bps config)
              (cc_latency_penalty_microunits_per_ms config) catalog with
      | Ok inner => p ← box_new (mkCalybrisPolicy inner); _ ← store out (OfPointer p); mret CALYBRIS_OK
      | Err (CatalogTooLarge _ _) => mret CALYBRIS_ERR_CATALOG_TOO_LARGE
      | Err ReservedModelId => mret CALYBRIS_ERR_RESERVED_MODEL_ID
      | Err (InvalidEnabledFlag _ _) => mret CALYBRIS_ERR_INVALID_ENABLED_FLAG
      | Err _ => mret CALYBRIS_ERR_INVALID_POLICY
      end.

Definition calybris_policy_free (policy : Z) : mem unit :=
  if is_null policy then mret tt else box_drop policy.

Definition calybris_policy_model_count (policy out : Z) : mem Z :=
  if is_null policy || is_null out then mret CALYBRIS_ERR_NULL
  else
    p ← load get_policy policy;
    _ ← store out (OfSize (Z.of_nat (length (ps_models (cp_inner p)))));
    mret CALYBRIS_OK.

Definition calybris_decide (policy input out : Z) : mem Z :=
  if is_null policy || is_null input || is_null out then mret CALYBRIS_ERR_NULL
  else
    i ← load get_input input;
    let request := input_from i in
    match KernelInput_validate request with
    | Err _ => mret CALYBRIS_ERR_INVALID_INPUT
    | Ok _ =>
        p ← load get_policy policy;
        _ ← store out (OfDecision (decision_to_c (prescribe (cp_inner p) request)));
        mret CALYBRIS_OK
    end.

Definition calybris_verify (policy input decision valid : Z) : mem Z :=
  if is_null valid then mret CALYBRIS_ERR_NULL
  else
    _ ← store valid (OfByte 0);
    if is_null policy || is_null input || is_null decision then mret CALYBRIS_ERR_NULL
    else
      d ← load get_decision decision;
      match decision_from_c d with
      | None => mret CALYBRIS_ERR_UNKNOWN_VARIANT
      | Some rebuilt =>
          i ← load get_input input;
          let request := input_from i in
          match KernelInput_validate request with
          | Err _ => mret CALYBRIS_ERR_INVALID_INPUT
          | Ok _ =>
              p ← load get_policy policy;
              let ok := match verify_decision (cp_inner p) request rebuilt with Valid => true | _ => false end in
              _ ← store valid (OfByte (Z.b2z ok));
              mret CALYBRIS_OK
          end
      end.

Definition calybris_policy_digest_hex (policy out capacity : Z) : mem Z :=
  if is_null policy then mret CALYBRIS_ERR_NULL
  else p ← load get_policy policy; write_cstr (digest_to_hex (policy_digest (cp_inner p))) out capacity.

Definition calybris_input_digest_hex (input out capacity : Z) : mem Z :=
  if is_null input then mret CALYBRIS_ERR_NULL
  else i ← load get_input input; write_cstr (digest_to_hex (input_digest (input_from i))) out capacity.

Definition calybris_decision_digest_hex (decision out capacity : Z) : mem Z :=
  if is_null decision then mret CALYBRIS_ERR_NULL
  else
    d ← load get_decision decision;
    match decision_from_c d with
    | None => mret CALYBRIS_ERR_UNKNOWN_VARIANT
    | Some rebuilt => write_cstr (digest_to_hex (decision_digest rebuilt)) out capacity
    end.
End ffi.
