(* ===== verification/FfiProps.v ===== *)
(** * What the C entry points do to memory

    Under the safety contract of each entry point (every pointer null or valid
    for its type, handles live) no call is undefined behaviour, and its effect
    is exactly the documented one. *)

From S2P Require Import Prelude Kernel KernelPolicy Bytes Digest Verify Ffi.
#[local] Open Scope Z_scope.

(** ** Decisions across the boundary *)

Lemma action_roundtrip a : action_from_c (KernelAction_repr a) = Some a.
Proof. by destruct a. Qed.
Lemma reason_roundtrip r : reason_from_c (KernelReason_repr r) = Some r.
Proof. by destruct r. Qed.
Lemma action_from_c_Some z a : action_from_c z = Some a -> z = KernelAction_repr a.
Proof. unfold action_from_c. repeat case_match; by intros [= <-]. Qed.
Lemma reason_from_c_Some z r : reason_from_c z = Some r -> z = KernelReason_repr r.
Proof. unfold reason_from_c. repeat case_match; by intros [= <-]. Qed.

(** The C form of a decision loses nothing and admits nothing else: it
    converts back to the decision it came from, and a C struct that converts at
    all is the C form of what it converts to. *)
Theorem decision_c_exact c d : decision_from_c c = Some d <-> c = decision_to_c d.
Proof.
  unfold decision_from_c, decision_to_c. split.
  - destruct c. cbn. destruct (action_from_c _) as [a|] eqn:Ea; cbn; [|done].
    destruct (reason_from_c _) as [r|] eqn:Er; cbn; [|done]. intros [= <-]. cbn.
    by rewrite (action_from_c_Some _ _ Ea), (reason_from_c_Some _ _ Er).
  - intros ->. destruct d. cbn. by rewrite action_roundtrip; cbn; rewrite reason_roundtrip.
Qed.

(** ** Memory *)

(** The snapshots a handle may hold. *)
Definition built (p : PolicySnapshot) : Prop :=
  exists pe ce hr mc rm lp models, try_new_trusted pe ce hr mc rm lp models = Ok p.

(** Nothing stands at null, values are of their slot's kind, and handles hold
    accepted policies. *)
Definition mem_ok (m : Mem) : Prop :=
  m !! null = None /\
  forall p s c, m !! p = Some s -> sl_value s = Some c ->
    sl_kind s = kind_of c /\ (forall v, c = OfPolicy v -> built (cp_inner v)).

Definition readable {A} (get : Cell -> option A) (m : Mem) (p : Z) (v : A) : Prop := load get p m = Some (v, m).
Definition writable (m : Mem) (p : Z) (k : Kind) : Prop := exists s, m !! p = Some s /\ sl_kind s = k.

Definition put (p : Z) (c : Cell) (m : Mem) : Mem := <[p := mkSlot (kind_of c) (Some c)]> m.

Definition gets {A} (get : Cell -> option A) (k : Kind) : Prop := forall c v, get c = Some v -> kind_of c = k.
Lemma gets_model : gets get_model KModel.
Proof. by intros []. Qed.
Lemma gets_config : gets get_config KConfig.
Proof. by intros []. Qed.
Lemma gets_input : gets get_input KInput.
Proof. by intros []. Qed.
Lemma gets_decision : gets get_decision KDecision.
Proof. by intros []. Qed.
Lemma gets_policy : gets get_policy KPolicy.
Proof. by intros []. Qed.
Create HintDb ffi.
#[export] Hint Resolve gets_model gets_config gets_input gets_decision gets_policy : ffi.

Lemma load_Some {A} (get : Cell -> option A) p m v m' : load get p m = Some (v, m') <->
  m' = m /\ is_null p = false /\ exists s c, m !! p = Some s /\ sl_value s = Some c /\ get c = Some v.
Proof.
  unfold load. destruct (is_null p); [naive_solver|]. destruct (m !! p) as [s|]; cbn; [|naive_solver].
  destruct (sl_value s) as [c|] eqn:Ec; cbn; [|naive_solver]. destruct (get c) eqn:Eg; cbn; naive_solver.
Qed.

Lemma readable_kind {A} (get : Cell -> option A) k m p v : mem_ok m -> gets get k -> readable get m p v ->
  exists s, m !! p = Some s /\ sl_kind s = k.
Proof.
  intros [_ Hm] Hg (_ & _ & s & c & Hs & Hc & Hv)%load_Some. exists s. split; [done|].
  destruct (Hm p s c Hs Hc) as [-> _]. by eapply Hg.
Qed.

(** A write to a cell of another kind is not seen. *)
Lemma readable_put {A} (get : Cell -> option A) k m p q c v : mem_ok m -> gets get k -> kind_of c <> k ->
  writable m q (kind_of c) -> readable get m p v -> readable get (put q c m) p v.
Proof.
  intros Hm Hg Hk (s & Hs & Hsk) Hr. destruct (readable_kind _ _ _ _ _ Hm Hg Hr) as (s' & Hs' & Hk').
  assert (p <> q) by (intros ->; congruence).
  apply load_Some in Hr as (_ & H0 & s0 & c0 & H1 & H2 & H3). apply load_Some. split_and!; try done.
  exists s0, c0. unfold put. by rewrite lookup_insert_ne.
Qed.

Lemma store_put m p c : mem_ok m -> writable m p (kind_of c) -> store p c m = Some (tt, put p c m).
Proof.
  intros [H0 _] (s & Hs & Hk). unfold store, is_null. destruct (Z.eqb_spec p null) as [->|]; [congruence|].
  rewrite Hs. cbn. by rewrite Hk, bool_decide_eq_true_2.
Qed.

Lemma put_ok m p c : mem_ok m -> p <> null -> (forall v, c = OfPolicy v -> built (cp_inner v)) -> mem_ok (put p c m).
Proof.
  intros [H0 Hm] Hp Hb. unfold put. split; [by rewrite lookup_insert_ne|]. intros q s c'.
  destruct (decide (q = p)) as [->|]; [rewrite lookup_insert_eq|rewrite lookup_insert_ne by done; apply Hm].
  intros [= <-]. cbn. by intros [= <-].
Qed.

Lemma writable_nonnull m p k : mem_ok m -> writable m p k -> p <> null.
Proof. intros [H0 _] (s & Hs & _) ->. congruence. Qed.

Lemma writable_put m p q c k : writable m q (kind_of c) -> writable m p k -> writable (put q c m) p k.
Proof.
  intros (s & Hs & Hk) (s' & Hs' & Hk'). unfold writable, put. destruct (decide (p = q)) as [->|].
  - eexists. rewrite lookup_insert_eq. split; [done|]. cbn. congruence.
  - exists s'. by rewrite lookup_insert_ne.
Qed.

Lemma put_put m p c c' : put p c (put p c' m) = put p c m.
Proof. unfold put. by rewrite insert_insert_eq. Qed.

Lemma load_bind {A B} (get : Cell -> option A) p (k : A -> mem B) m v : readable get m p v ->
  (x ← load get p; k x) m = k v m.
Proof. intros H. unfold mbind, mem_bind. by rewrite H. Qed.
Lemma store_bind {B} p c (k : unit -> mem B) m : mem_ok m -> writable m p (kind_of c) ->
  (x ← store p c; k x) m = k tt (put p c m).
Proof. intros H1 H2. unfold mbind, mem_bind. by rewrite store_put. Qed.

(** ** Buffers *)

(** The bytes written at consecutive addresses. *)
Fixpoint put_bytes (p : Z) (bytes : list Z) (m : Mem) : Mem :=
  match bytes with [] => m | b :: rest => put_bytes (p + 1) rest (put p (OfByte b) m) end.

Definition buffer (m : Mem) (p n : Z) : Prop := forall i, 0 <= i < n -> writable m (p + i) KByte.

Lemma buffer_put m p n q b : writable m q KByte -> buffer m p n -> buffer (put q (OfByte b) m) p n.
Proof. intros Hq Hb i Hi. apply writable_put; [done|by apply Hb]. Qed.

Lemma store_bytes_put bytes : forall p m, mem_ok m -> buffer m p (Z.of_nat (length bytes)) ->
  store_bytes p bytes m = Some (tt, put_bytes p bytes m) /\ mem_ok (put_bytes p bytes m) /\
  (forall q n, buffer m q n -> buffer (put_bytes p bytes m) q n).
Proof.
  induction bytes as [|b rest IH]; intros p m Hm Hb; cbn [store_bytes put_bytes length] in *; [done|].
  assert (writable m p KByte) as Hp by (rewrite <- (Z.add_0_r p); apply Hb; lia).
  rewrite (store_bind p (OfByte b)) by done. destruct (IH (p + 1) (put p (OfByte b) m)) as (H1 & H2 & H3).
  - apply put_ok; [done|by eapply writable_nonnull|done].
  - intros i Hi. rewrite <- Z.add_assoc. apply writable_put; [done|]. apply Hb. lia.
  - split_and!; [done|done|]. intros q n Hq. apply H3. by apply buffer_put.
Qed.

(** What a call that writes a text has done. *)
Definition wrote (text : string) (out capacity : Z) (m : Mem) (s : Z) (m' : Mem) : Prop :=
  if is_null out then s = CALYBRIS_ERR_NULL /\ m' = m
  else if capacity <? Z.of_nat (length (string_bytes text)) + 1 then s = CALYBRIS_ERR_BUFFER_TOO_SMALL /\ m' = m
  else s = CALYBRIS_OK /\ m' = put_bytes out (string_bytes text ++ [0]) m.

Lemma put_bytes_app a b p m : put_bytes p (a ++ b) m = put_bytes (p + Z.of_nat (length a)) b (put_bytes p a m).
Proof.
  revert p m. induction a as [|x a IH]; intros p m; cbn [app put_bytes length]; [by rewrite Z.add_0_r|].
  rewrite IH. f_equal. lia.
Qed.

Lemma write_cstr_run text out capacity m : mem_ok m -> out = null \/ buffer m out capacity ->
  exists s m', write_cstr text out capacity m = Some (s, m') /\ wrote text out capacity m s m' /\ mem_ok m'.
Proof.
  intros Hm Hb. unfold write_cstr, wrote. destruct (is_null out) eqn:En; [by eexists _, _|].
  destruct Hb as [->|Hb]; [done|]. set (bytes := string_bytes text).
  destruct (Z.ltb_spec capacity (Z.of_nat (length bytes) + 1)); [by eexists _, _|].
  destruct (store_bytes_put bytes out m) as (H1 & H2 & H3); [done|intros i Hi; apply Hb; lia|].
  assert (writable (put_bytes out bytes m) (out + Z.of_nat (length bytes)) KByte) as Hw.
  { apply (H3 out capacity Hb). lia. }
  unfold mbind at 1, mem_bind at 1. rewrite H1. rewrite (store_bind _ (OfByte 0)) by done.
  eexists _, _. split; [done|]. rewrite put_bytes_app. cbn [put_bytes]. split_and!; try done.
  apply put_ok; [done|by eapply writable_nonnull|done].
Qed.

(** ** Calls *)

Inductive Call :=
| PolicyNew (config models model_count out : Z)
| PolicyFree (policy : Z)
| PolicyModelCount (policy out : Z)
| Decide (policy input out : Z)
| VerifyDecision (policy input decision valid : Z)
| PolicyDigestHex (policy out capacity : Z)
| InputDigestHex (input out capacity : Z)
| DecisionDigestHex (decision out capacity : Z).

Section calls.
Context {HF : HashFunctions}.

Definition call (c : Call) : mem Z :=
  match c with
  | PolicyNew config models model_count out => calybris_policy_new config models model_count out
  | PolicyFree policy => _ ← calybris_policy_free policy; mret CALYBRIS_OK
  | PolicyModelCount policy out => calybris_policy_model_count policy out
  | Decide policy input out => calybris_decide policy input out
  | VerifyDecision policy input decision valid => calybris_verify policy input decision valid
  | PolicyDigestHex policy out capacity => calybris_policy_digest_hex policy out capacity
  | InputDigestHex input out capacity => calybris_input_digest_hex input out capacity
  | DecisionDigestHex decision out capacity => calybris_decision_digest_hex decision out capacity
  end.

Definition null_or {A} (get : Cell -> option A) (m : Mem) (p : Z) : Prop := p = null \/ exists v, readable get m p v.
Definition null_or_out (m : Mem) (p : Z) (k : Kind) : Prop := p = null \/ writable m p k.

(** The models at an address. *)
Definition models_at (m : Mem) (p : Z) (ms : list CalybrisModel) : Prop :=
  forall i v, ms !! i = Some v -> readable get_model m (p + Z.of_nat i) v.

(** The [# Safety] sections. *)
Definition contract (m : Mem) (c : Call) : Prop :=
  match c with
  | PolicyNew config models model_count out =>
      null_or get_config m config /\ null_or_out m out KPointer /\ 0 <= model_count /\
      (models = null \/ exists ms, Z.of_nat (length ms) = model_count /\ models_at m models ms)
  | PolicyFree policy => null_or get_policy m policy
  | PolicyModelCount policy out => null_or get_policy m policy /\ null_or_out m out KSize
  | Decide policy input out => null_or get_policy m policy /\ null_or get_input m input /\ null_or_out m out KDecision
  | VerifyDecision policy input decision valid =>
      null_or get_policy m policy /\ null_or get_input m input /\ null_or get_decision m decision /\
      null_or_out m valid KByte
  | PolicyDigestHex policy out capacity => null_or get_policy m policy /\ (out = null \/ buffer m out capacity)
  | InputDigestHex input out capacity => null_or get_input m input /\ (out = null \/ buffer m out capacity)
  | DecisionDigestHex decision out capacity => null_or get_decision m decision /\ (out = null \/ buffer m out capacity)
  end.

(** The catalog the arguments of [calybris_policy_new] give, built or refused. *)
Definition construction (m : Mem) (config models model_count : Z) (r : result TrustPolicyError PolicySnapshot) : Prop :=
  exists cfg ms, readable get_config m config cfg /\ Z.of_nat (length ms) = model_count /\
    (model_count = 0 \/ models <> null /\ models_at m models ms) /\
    r = try_new_trusted (cc_policy_epoch cfg) (cc_catalog_epoch cfg) (cc_hard_risk_limit_bps cfg)
          (cc_minimum_confidence_bps cfg) (cc_risk_penalty_multiplier_bps cfg)
          (cc_latency_penalty_microunits_per_ms cfg) (map model_from ms).

Definition refusal (e : TrustPolicyError) : Z :=
  match e with
  | CatalogTooLarge _ _ => CALYBRIS_ERR_CATALOG_TOO_LARGE
  | ReservedModelId => CALYBRIS_ERR_RESERVED_MODEL_ID
  | InvalidEnabledFlag _ _ => CALYBRIS_ERR_INVALID_ENABLED_FLAG
  | _ => CALYBRIS_ERR_INVALID_POLICY
  end.

(** What each call does: its status and the memory after it. *)
Definition effect (c : Call) (m : Mem) (s : Z) (m' : Mem) : Prop :=
  match c with
  | PolicyNew config models model_count out =>
      if is_null out then s = CALYBRIS_ERR_NULL /\ m' = m
      else if is_null config || is_null models && negb (model_count =? 0)
      then s = CALYBRIS_ERR_NULL /\ m' = put out (OfPointer null) m
      else exists r, construction m config models model_count r /\
        match r with
        | Ok snapshot => exists p, p <> null /\ m !! p = None /\ s = CALYBRIS_OK /\
            m' = put out (OfPointer p) (put p (OfPolicy (mkCalybrisPolicy snapshot)) m)
        | Err e => s = refusal e /\ m' = put out (OfPointer null) m
        end
  | PolicyFree policy => s = CALYBRIS_OK /\ m' = if is_null policy then m else delete policy m
  | PolicyModelCount policy out =>
      if is_null policy || is_null out then s = CALYBRIS_ERR_NULL /\ m' = m
      else exists p, readable get_policy m policy p /\ s = CALYBRIS_OK /\
        m' = put out (OfSize (Z.of_nat (length (ps_models (cp_inner p))))) m
  | Decide policy input out =>
      if is_null policy || is_null input || is_null out then s = CALYBRIS_ERR_NULL /\ m' = m
      else exists p i, readable get_policy m policy p /\ readable get_input m input i /\
        match KernelInput_validate (input_from i) with
        | Err _ => s = CALYBRIS_ERR_INVALID_INPUT /\ m' = m
        | Ok _ => s = CALYBRIS_OK /\ m' = put out (OfDecision (decision_to_c (prescribe (cp_inner p) (input_from i)))) m
        end
  | VerifyDecision policy input decision valid =>
      if is_null valid then s = CALYBRIS_ERR_NULL /\ m' = m
      else if is_null policy || is_null input || is_null decision
      then s = CALYBRIS_ERR_NULL /\ m' = put valid (OfByte 0) m
      else exists p i d b, readable get_policy m policy p /\ readable get_input m input i /\
        readable get_decision m decision d /\ m' = put valid (OfByte (Z.b2z b)) m /\
        (b = true <-> is_ok (KernelInput_validate (input_from i)) = true /\
                      d = decision_to_c (prescribe (cp_inner p) (input_from i))) /\
        s = match decision_from_c d with
            | Some _ => if is_ok (KernelInput_validate (input_from i)) then CALYBRIS_OK else CALYBRIS_ERR_INVALID_INPUT
            | None => CALYBRIS_ERR_UNKNOWN_VARIANT
            end
  | PolicyDigestHex policy out capacity =>
      if is_null policy then s = CALYBRIS_ERR_NULL /\ m' = m
      else exists p, readable get_policy m policy p /\ wrote (digest_to_hex (policy_digest (cp_inner p))) out capacity m s m'
  | InputDigestHex input out capacity =>
      if is_null input then s = CALYBRIS_ERR_NULL /\ m' = m
      else exists i, readable get_input m input i /\ wrote (digest_to_hex (input_digest (input_from i))) out capacity m s m'
  | DecisionDigestHex decision out capacity =>
      if is_null decision then s = CALYBRIS_ERR_NULL /\ m' = m
      else exists d, readable get_decision m decision d /\
        match decision_from_c d with
        | None => s = CALYBRIS_ERR_UNKNOWN_VARIANT /\ m' = m
        | Some k => wrote (digest_to_hex (decision_digest k)) out capacity m s m'
        end
  end.

(** A call that is defined, does what [effect] says, and keeps the memory. *)
Definition runs (c : Call) (m : Mem) : Prop :=
  exists s m', call c m = Some (s, m') /\ effect c m s m' /\ mem_ok m'.

Lemma null_or_live {A} (get : Cell -> option A) m p : is_null p = false -> null_or get m p -> exists v, readable get m p v.
Proof. intros Hn [->|H]; done. Qed.
Lemma null_or_out_live m p k : is_null p = false -> null_or_out m p k -> writable m p k.
Proof. intros Hn [->|H]; done. Qed.
Lemma not_null p : is_null p = false <-> p <> null.
Proof. unfold is_null. by rewrite Z.eqb_neq. Qed.

(** Split on which pointers are null; a null one ends the call. *)
Ltac nulls :=
  repeat match goal with
  | |- context [is_null ?p] => let E := fresh "En" in destruct (is_null p) eqn:E; cbn [orb andb]
  end.
(** The pointers that are not null, read or writable. *)
Ltac live :=
  repeat match goal with
  | E : is_null ?p = false, H : null_or ?get ?m ?p |- _ => apply (null_or_live get m p E) in H as [? H]
  | E : is_null ?p = false, H : null_or_out ?m ?p ?k |- _ => apply (null_or_out_live m p k E) in H
  end.

Lemma runs_free policy m : mem_ok m -> contract m (PolicyFree policy) -> runs (PolicyFree policy) m.
Proof.
  intros Hm Hp. unfold runs. cbn. unfold calybris_policy_free. nulls; [by eexists _, _|]. cbn in Hp. live.
  unfold mbind, mem_bind, box_drop. rewrite Hp. cbn. eexists _, _. split_and!; try done.
  destruct Hm as [H0 Hm]. split; [rewrite lookup_delete_ne; [done|by apply not_null]|].
  intros q s c' [Hq Hs]%lookup_delete_Some. by apply Hm with q.
Qed.

Lemma runs_count policy out m : mem_ok m -> contract m (PolicyModelCount policy out) -> runs (PolicyModelCount policy out) m.
Proof.
  intros Hm [Hp Ho]. unfold runs. cbn. unfold calybris_policy_model_count. nulls; try by eexists _, _. live.
  rewrite (load_bind _ _ _ _ _ Hp), store_bind by done. eexists _, _. split; [done|]. split; [by eauto|].
  apply put_ok; [done|by apply not_null|done].
Qed.

Lemma runs_decide policy input out m : mem_ok m -> contract m (Decide policy input out) -> runs (Decide policy input out) m.
Proof.
  intros Hm (Hp & Hi & Ho). unfold runs. cbn. unfold calybris_decide. nulls; try by eexists _, _. live.
  rewrite (load_bind _ _ _ _ _ Hi). destruct (KernelInput_validate _) eqn:Ev.
  - rewrite (load_bind _ _ _ _ _ Hp), store_bind by done. eexists _, _. split; [done|]. split.
    + eexists _, _. split_and!; try done. by rewrite Ev.
    + apply put_ok; [done|by apply not_null|done].
  - eexists _, _. split; [done|]. split; [|done]. eexists _, _. split_and!; try done. by rewrite Ev.
Qed.

Lemma verify_exact p i d k : decision_from_c d = Some k ->
  match verify_decision p i k with Valid => true | _ => false end = true <-> d = decision_to_c (prescribe p i).
Proof.
  intros Hd. rewrite verify_decision_spec. apply decision_c_exact in Hd. case_bool_decide as E.
  - split; [|done]. intros _. by rewrite E.
  - split; [done|]. rewrite Hd. intros E'. destruct E.
    assert (decision_from_c (decision_to_c k) = decision_from_c (decision_to_c (prescribe p i))) as H by by rewrite E'.
    rewrite (proj2 (decision_c_exact _ k) eq_refl), (proj2 (decision_c_exact _ (prescribe p i)) eq_refl) in H. congruence.
Qed.

Lemma runs_verify policy input decision valid m :
  mem_ok m -> contract m (VerifyDecision policy input decision valid) -> runs (VerifyDecision policy input decision valid) m.
Proof.
  intros Hm (Hp & Hi & Hd & Hv). unfold runs. cbn. unfold calybris_verify.
  destruct (is_null valid) eqn:Env; [by eexists _, _|]. live.
  assert (forall b, mem_ok (put valid (OfByte b) m)) as Hok.
  { intros b. apply put_ok; [done|by apply not_null|done]. }
  rewrite store_bind by done. nulls; try by eexists _, _.
  apply null_or_live in Hp as [p Hp], Hi as [i Hi], Hd as [d Hd]; try done.
  assert (forall b, writable (put valid (OfByte b) m) valid KByte) as Hw by (intros b; by apply writable_put).
  rewrite (load_bind _ _ _ _ d) by (eapply readable_put; eauto with ffi; done).
  destruct (decision_from_c d) as [k|] eqn:Ek.
  2:{ eexists _, _. split; [done|]. split; [|done]. exists p, i, d, false. rewrite Ek. split_and!; try done.
      split; [done|]. intros [_ ->]. by rewrite (proj2 (decision_c_exact _ _) eq_refl) in Ek. }
  rewrite (load_bind _ _ _ _ i) by (eapply readable_put; eauto with ffi; done).
  destruct (KernelInput_validate (input_from i)) eqn:Ev.
  2:{ eexists _, _. split; [done|]. split; [|done]. exists p, i, d, false. rewrite Ek, Ev. split_and!; try done.
      split; [done|]. by intros [? _]. }
  rewrite (load_bind _ _ _ _ p) by (eapply readable_put; eauto with ffi; done). rewrite store_bind by done. rewrite put_put.
  eexists _, _. split; [done|]. split; [|done]. eexists p, i, d, _. rewrite Ek, Ev. split_and!; try done.
  rewrite verify_exact by done. naive_solver.
Qed.

Lemma load_models_run ms : forall p m, models_at m p ms -> load_models p (length ms) m = Some (ms, m).
Proof.
  induction ms as [|x ms IH]; intros p m Hms; [done|]. cbn [load_models length].
  rewrite (load_bind _ _ _ _ x) by (specialize (Hms 0%nat x eq_refl); by rewrite Z.add_0_r in Hms).
  unfold mbind, mem_bind. rewrite IH; [done|]. intros i v Hi. specialize (Hms (S i) v Hi).
  by replace (p + 1 + Z.of_nat i) with (p + Z.of_nat (S i)) by lia.
Qed.

Lemma box_new_run v m : exists p, box_new v m = Some (p, put p (OfPolicy v) m) /\ p <> null /\ m !! p = None.
Proof.
  pose proof (is_fresh ({[null]} ∪ dom m)) as Hf. exists (fresh ({[null]} ∪ dom m)). split; [done|].
  split; [set_solver|]. apply not_elem_of_dom. set_solver.
Qed.

Lemma catalog_run models model_count ms m :
  Z.of_nat (length ms) = model_count -> model_count = 0 \/ models <> null /\ models_at m models ms ->
  (if model_count =? 0 then mret [] else ms ← load_models models (Z.to_nat model_count); mret (map model_from ms)) m =
    Some (map model_from ms, m).
Proof.
  intros <- H. destruct (Z.eqb_spec (Z.of_nat (length ms)) 0) as [E|E]; [by destruct ms|].
  destruct H as [H|[_ H]]; [done|]. unfold mbind, mem_bind. by rewrite Nat2Z.id, load_models_run.
Qed.

Lemma models_at_put m p ms q c : mem_ok m -> kind_of c <> KModel -> writable m q (kind_of c) ->
  models_at m p ms -> models_at (put q c m) p ms.
Proof. intros Hm Hk Hw Hms i v Hi. eapply readable_put; eauto with ffi. Qed.

Lemma runs_new config models model_count out m :
  mem_ok m -> contract m (PolicyNew config models model_count out) -> runs (PolicyNew config models model_count out) m.
Proof.
  intros Hm (Hc & Ho & Hn & Hms). unfold runs. cbn. unfold calybris_policy_new.
  destruct (is_null out) eqn:Eno; [by eexists _, _|]. apply null_or_out_live in Ho; [|done].
  assert (mem_ok (put out (OfPointer null) m)) as Hok by (apply put_ok; [done|by apply not_null|done]).
  rewrite store_bind by done. destruct (is_null config) eqn:Enc; cbn [orb]; [by eexists _, _|].
  destruct (is_null models && negb (model_count =? 0)) eqn:Enm; [by eexists _, _|].
  apply null_or_live in Hc as [cfg Hc]; [|done].
  rewrite (load_bind _ _ _ _ cfg) by (eapply readable_put; eauto with ffi; done).
  assert (exists ms, Z.of_nat (length ms) = model_count /\
    (model_count = 0 \/ models <> null /\ models_at m models ms)) as (ms & Hl & Hat).
  { apply andb_false_iff in Enm as [Enm|Enm].
    - apply not_null in Enm. destruct Hms as [->|(ms & Hl & Hms)]; [done|]. eauto.
    - apply negb_false_iff, Z.eqb_eq in Enm. exists []. by eauto. }
  unfold mbind at 1, mem_bind at 1. rewrite (catalog_run models model_count ms) by
    (done || (destruct Hat as [?|[? ?]]; [by left|right; split; [done|by apply models_at_put]])).
  set (r := try_new_trusted _ _ _ _ _ _ _). assert (construction m config models model_count r) as Hr by (by exists cfg, ms).
  destruct r as [snapshot|e] eqn:Er.
  - unfold mbind at 1, mem_bind at 1.
    destruct (box_new_run (mkCalybrisPolicy snapshot) (put out (OfPointer null) m)) as (p & -> & Hp & Hfree).
    set (m1 := put p _ _). assert (mem_ok m1) as Hm1.
    { apply put_ok; [done|done|]. intros v [= <-]. eexists _, _, _, _, _, _, _. exact Er. }
    assert (p <> out) by (intros ->; unfold put in Hfree; by rewrite lookup_insert_eq in Hfree).
    assert (writable m1 out KPointer) as Hw.
    { unfold writable, m1, put. rewrite lookup_insert_ne by done. rewrite lookup_insert_eq. by eexists. }
    rewrite store_bind by done. eexists _, _. split; [done|]. split; [|by apply put_ok; [done|by apply not_null|]].
    eexists. split; [exact Hr|]. exists p. unfold put in Hfree. rewrite lookup_insert_ne in Hfree by done.
    split_and!; try done. unfold m1, put. rewrite (insert_insert_ne m p out) by done. by rewrite insert_insert_eq.
  - exists (refusal e), (put out (OfPointer null) m). split; [by destruct e|]. split; [|done]. by exists (Err e).
Qed.

Lemma runs_text {A} (get : Cell -> option A) (f : A -> string) p out capacity m : mem_ok m -> null_or get m p ->
  out = null \/ buffer m out capacity -> is_null p = false ->
  exists v s m', readable get m p v /\ (x ← load get p; write_cstr (f x) out capacity) m = Some (s, m') /\
    wrote (f v) out capacity m s m' /\ mem_ok m'.
Proof.
  intros Hm Hp Ho Hn. apply null_or_live in Hp as [v Hp]; [|done]. rewrite (load_bind _ _ _ _ _ Hp).
  destruct (write_cstr_run (f v) out capacity m Hm Ho) as (s & m' & H1 & H2 & H3). eauto 10.
Qed.

Lemma runs_policy_hex policy out capacity m :
  mem_ok m -> contract m (PolicyDigestHex policy out capacity) -> runs (PolicyDigestHex policy out capacity) m.
Proof.
  intros Hm [Hp Ho]. unfold runs. cbn. unfold calybris_policy_digest_hex. nulls; [by eexists _, _|].
  destruct (runs_text get_policy (fun p => digest_to_hex (policy_digest (cp_inner p))) policy out capacity m Hm Hp Ho En)
    as (v & s & m' & H1 & -> & H2 & H3). eauto 10.
Qed.

Lemma runs_input_hex input out capacity m :
  mem_ok m -> contract m (InputDigestHex input out capacity) -> runs (InputDigestHex input out capacity) m.
Proof.
  intros Hm [Hp Ho]. unfold runs. cbn. unfold calybris_input_digest_hex. nulls; [by eexists _, _|].
  destruct (runs_text get_input (fun i => digest_to_hex (input_digest (input_from i))) input out capacity m Hm Hp Ho En)
    as (v & s & m' & H1 & -> & H2 & H3). eauto 10.
Qed.

Lemma runs_decision_hex decision out capacity m :
  mem_ok m -> contract m (DecisionDigestHex decision out capacity) -> runs (DecisionDigestHex decision out capacity) m.
Proof.
  intros Hm [Hp Ho]. unfold runs. cbn. unfold calybris_decision_digest_hex. nulls; [by eexists _, _|].
  apply null_or_live in Hp as [d Hp]; [|done]. rewrite (load_bind _ _ _ _ _ Hp). destruct (decision_from_c d) as [k|] eqn:Ek.
  - destruct (write_cstr_run (digest_to_hex (decision_digest k)) out capacity m Hm Ho) as (s & m' & H1 & H2 & H3).
    exists s, m'. split_and!; try done. exists d. by rewrite Ek.
  - eexists _, _. split; [done|]. split; [|done]. exists d. by rewrite Ek.
Qed.

(** Claim C20: Every call within its contract is defined behaviour, has exactly the
    documented effect, and leaves the memory fit for the next call. So a null
    pointer is refused and never followed; [*out] of [calybris_policy_new] is
    null after every failure and a fresh handle on the policy after success;
    [*valid] is 1 after exactly the decision the kernel makes for a valid
    request and 0 otherwise, failures included; a text that does not fit
    changes nothing; and no call changes anything else. *)
Theorem abi_calls_defined m c : mem_ok m -> contract m c ->
  exists s m', call c m = Some (s, m') /\ effect c m s m' /\ mem_ok m'.
Proof.
  intros Hm Hc. change (runs c m). destruct c.
  - by apply runs_new.
  - by apply runs_free.
  - by apply runs_count.
  - by apply runs_decide.
  - by apply runs_verify.
  - by apply runs_policy_hex.
  - by apply runs_input_hex.
  - by apply runs_decision_hex.
Qed.
End calls.

(** ** A concrete caller *)

Module FfiSample.
(** A configuration at 1, two models at 2 and 3, a request at 4, room for a
    decision at 5, a flag at 6, a handle at 7, a count at 8, a buffer from 100. *)
Definition model (id : Z) : CalybrisModel := mkCalybrisModel id 0 9000 9500 1 200 1 (umax 64) 3000000 15000000.
Definition request : CalybrisInput :=
  mkCalybrisInput 42 1 1000 500 5000000 50000000 1000 9000 0 0 1 (umax 64) 0.
Definition slot (c : Cell) : Slot := mkSlot (kind_of c) (Some c).
Definition memory : Mem :=
  <[1 := slot (OfConfig (mkCalybrisPolicyConfig 1 1 9000 1000 2000 5))]> (<[2 := slot (OfModel (model 2))]>
  (<[3 := slot (OfModel (model 1))]> (<[4 := slot (OfInput request)]> (<[5 := mkSlot KDecision None]>
  (<[6 := slot (OfByte 1)]> (<[7 := slot (OfPointer 12345)]> (<[8 := mkSlot KSize None]> ∅))))))).

#[local] Existing Instance toy_hash.

(** Calls in a row, each with the status it must end with; the handle is the
    one at 7. *)
Fixpoint play (steps : list ((Z -> Call) * Z)) (m : Mem) : option Mem :=
  match steps with
  | [] => Some m
  | (c, expected) :: rest =>
      let handle := match m !! 7 with Some (mkSlot _ (Some (OfPointer p))) => p | _ => null end in
      '(s, m') ← call (c handle) m; if s =? expected then play rest m' else None
  end.

(** A policy is built, a request decided and the decision verified; then an
    invented action is refused and clears the flag. *)
Example c_session :
  (fun m => (sl_value <$> m !! 6, sl_value <$> m !! 8)) <$>
    play [(fun _ => PolicyNew 1 2 2 7, CALYBRIS_OK); (fun h => Decide h 4 5, CALYBRIS_OK);
          (fun h => VerifyDecision h 4 5 6, CALYBRIS_OK); (fun h => PolicyModelCount h 8, CALYBRIS_OK);
          (fun h => VerifyDecision h null 5 6, CALYBRIS_ERR_NULL); (fun h => DecisionDigestHex 5 null 65, CALYBRIS_ERR_NULL);
          (fun h => PolicyFree h, CALYBRIS_OK)] memory
  = Some (Some (Some (OfByte 0)), Some (Some (OfSize 2))).
Proof. vm_compute. reflexivity. Qed.
End FfiSample.
Import FfiSample.

Lemma memory_ok : mem_ok memory.
Proof.
  split; [by vm_compute|]. intros p s c Hs Hc. unfold memory in Hs.
  repeat (apply lookup_insert_Some in Hs as [[_ <-]|[_ Hs]]; [cbn in Hc; by injection Hc as <- || done|]).
  by rewrite lookup_empty in Hs.
Qed.

Lemma abi_calls_defined_witness :
  contract memory (PolicyNew 1 2 2 7) /\
  exists p snapshot m', p <> null /\ memory !! p = None /\ call (HF := toy_hash) (PolicyNew 1 2 2 7) memory = Some (CALYBRIS_OK, m') /\
    m' = put 7 (OfPointer p) (put p (OfPolicy (mkCalybrisPolicy snapshot)) memory).
Proof.
  assert (contract memory (PolicyNew 1 2 2 7)) as Hc.
  { split_and!; [right; by eexists|right; by eexists| |right]; [done|].
    exists [model 2; model 1]. split; [done|]. intros [|[|i]] v; cbn; [intros [= <-]..|done]; by vm_compute. }
  split; [exact Hc|].
  destruct (abi_calls_defined (HF := toy_hash) memory (PolicyNew 1 2 2 7) memory_ok Hc) as (s & m' & H1 & H2 & _).
  cbn [effect] in H2. replace (is_null 7) with false in H2 by done. replace (is_null 1) with false in H2 by done.
  cbn [orb] in H2. replace (is_null 2) with false in H2 by done. cbn [andb] in H2.
  destruct H2 as (r & (cfg & ms & Hcfg & Hl & Hms & Hr) & H2). destruct r as [snapshot|e].
  - destruct H2 as (p & Hp & Hf & -> & Hm). exists p, snapshot, m'. by rewrite H1.
  - exfalso. destruct H2 as [-> _]. vm_compute in H1. injection H1 as H1 _. by destruct e.
Defined.
