(* ===== verification/State.v ===== *)
(** * State trajectories

    [src/state.rs]: digests of a caller's state at each step, the chain that
    records transitions, audit bundles extended with them, and the linkage
    checks for fragments and for whole trajectories. *)

From Stdlib Require Import String.
From S2P Require Import Prelude Bytes Kernel KernelRank KernelProps Digest Verify.
#[local] Open Scope Z_scope.

Definition STATE_DIGEST_TAG : list Z := string_bytes "calystt1" ++ [0].

Record StateTransition := mkStateTransition {
  st_step : Z;
  st_digest_before : list Z;
  st_digest_after : list Z
}.

Record StateChain := mkStateChain { sc_step : Z; sc_last_digest : list Z }.

Inductive StateAdvanceError := StepOverflow.

Record StatefulAuditBundle := mkStatefulAuditBundle {
  sb_audit : AuditBundle;
  sb_step : Z;
  sb_state_digest_before_hex : string;
  sb_state_digest_after_hex : string
}.

Inductive TrajectoryError :=
| NonMonotonicStep (expected found : Z)
| BrokenChain (step : Z)
| ReplayInvalidAt (step : Z).

Section state.
Context {HF : HashFunctions}.

Definition state_digest (step : Z) (state_bytes : list Z) : list Z :=
  sha256 (STATE_DIGEST_TAG ++ le_bytes 8 step ++ state_bytes).

(** ** The chain *)

Definition genesis (initial_state_bytes : list Z) : StateChain :=
  mkStateChain 0 (state_digest 0 initial_state_bytes).

Definition try_advance (self : StateChain) (next_state_bytes : list Z)
    : result StateAdvanceError (StateTransition * StateChain) :=
  step ← ok_or (checked_u 64 (sc_step self + 1)) StepOverflow;
  let digest_before := sc_last_digest self in
  let digest_after := state_digest step next_state_bytes in
  Ok (mkStateTransition step digest_before digest_after, mkStateChain step digest_after).

(** [advance] panics where [try_advance] fails. *)
Definition advance (self : StateChain) (next_state_bytes : list Z)
    : option (StateTransition * StateChain) :=
  match try_advance self next_state_bytes with Ok r => Some r | Err _ => None end.

Definition stateful_audit_bundle (snapshot : PolicySnapshot) (input : KernelInput)
    (decision : KernelDecision) (transition : StateTransition)
    : result VerifyResult StatefulAuditBundle :=
  audit ← verified_audit_bundle snapshot input decision;
  Ok (mkStatefulAuditBundle audit (st_step transition)
        (digest_to_hex (st_digest_before transition)) (digest_to_hex (st_digest_after transition))).

(** ** Linkage *)

Fixpoint linkage_loop (previous : option StatefulAuditBundle) (bundles : list StatefulAuditBundle)
    : result TrajectoryError unit :=
  match bundles with
  | [] => Ok tt
  | bundle :: rest =>
      _ ← refuse_if (negb (ab_replay_valid (sb_audit bundle))) (ReplayInvalidAt (sb_step bundle));
      _ ← match previous with
          | Some previous =>
              expected ← ok_or (checked_u 64 (sb_step previous + 1))
                           (NonMonotonicStep (umax 64) (sb_step bundle));
              _ ← refuse_if (negb (sb_step bundle =? expected)) (NonMonotonicStep expected (sb_step bundle));
              refuse_if (negb (String.eqb (sb_state_digest_before_hex bundle)
                                 (sb_state_digest_after_hex previous)))
                (BrokenChain (sb_step bundle))
          | None => Ok tt
          end;
      linkage_loop (Some bundle) rest
  end.

Definition verify_trajectory_linkage (bundles : list StatefulAuditBundle) : result TrajectoryError unit :=
  linkage_loop None bundles.

Definition verify_trajectory (bundles : list StatefulAuditBundle) : result TrajectoryError unit :=
  verify_trajectory_linkage bundles.

Definition verify_trajectory_fragment_linkage (anchor_step : Z) (anchor_digest_hex : string)
    (bundles : list StatefulAuditBundle) : result TrajectoryError unit :=
  first ← ok_or (List.hd_error bundles)
            (NonMonotonicStep (saturate_u 64 (anchor_step + 1)) anchor_step);
  expected_first ← ok_or (checked_u 64 (anchor_step + 1)) (NonMonotonicStep (umax 64) (sb_step first));
  _ ← refuse_if (negb (sb_step first =? expected_first)) (NonMonotonicStep expected_first (sb_step first));
  _ ← refuse_if (negb (String.eqb (sb_state_digest_before_hex first) anchor_digest_hex))
        (BrokenChain (sb_step first));
  verify_trajectory_linkage bundles.

Definition verify_trajectory_fragment (anchor_step : Z) (anchor_digest_hex : string)
    (bundles : list StatefulAuditBundle) : result TrajectoryError unit :=
  verify_trajectory_fragment_linkage anchor_step anchor_digest_hex bundles.

Definition verify_complete_trajectory_linkage (initial_state_bytes : list Z) (expected_final_step : Z)
    (bundles : list StatefulAuditBundle) : result TrajectoryError unit :=
  let genesis_digest := digest_to_hex (state_digest 0 initial_state_bytes) in
  _ ← verify_trajectory_fragment_linkage 0 genesis_digest bundles;
  last ← ok_or (list.last bundles) (NonMonotonicStep 1 0);
  refuse_if (negb (sb_step last =? expected_final_step))
    (NonMonotonicStep expected_final_step (sb_step last)).

Definition verify_complete_trajectory (initial_state_bytes : list Z) (expected_final_step : Z)
    (bundles : list StatefulAuditBundle) : result TrajectoryError unit :=
  verify_complete_trajectory_linkage initial_state_bytes expected_final_step bundles.

(** ** Theory *)

(** Replayed bundles whose steps follow [step] one by one, each starting from
    the digest the one before ended with. *)
Fixpoint chained (digest : string) (step : Z) (bundles : list StatefulAuditBundle) : Prop :=
  match bundles with
  | [] => True
  | b :: rest =>
      ab_replay_valid (sb_audit b) = true /\ sb_step b = step + 1 /\ step + 1 <= umax 64 /\
      sb_state_digest_before_hex b = digest /\ chained (sb_state_digest_after_hex b) (step + 1) rest
  end.

Lemma linkage_loop_exact bs : forall b, 0 <= sb_step b ->
  linkage_loop (Some b) bs = Ok tt <-> chained (sb_state_digest_after_hex b) (sb_step b) bs.
Proof.
  induction bs as [|c bs IH]; intros b Hb; [done|]. cbn [linkage_loop chained]. split.
  - intros H. open_results.
    match goal with H : checked_u _ _ = Some _ |- _ => apply checked_u_Some in H as [-> [? ?]] end.
    match goal with H : (_ =? _) = true |- _ => apply Z.eqb_eq in H as Es end.
    match goal with H : String.eqb _ _ = true |- _ => apply String.eqb_eq in H end.
    split_and!; try done. rewrite <- Es. apply IH; [lia|done].
  - intros (Hr & Hs & Hm & Hd & Hc). rewrite Hr. cbn [negb refuse_if mbind result_bind].
    rewrite checked_u_small by (split; lia). cbn [ok_or mbind result_bind].
    rewrite Hs, Z.eqb_refl, Hd, String.eqb_refl. cbn [negb refuse_if mbind result_bind].
    apply IH; [lia|]. by rewrite Hs.
Qed.

Lemma chained_last bs : forall d k b, chained d k bs -> list.last bs = Some b ->
  sb_step b = k + Z.of_nat (length bs).
Proof.
  induction bs as [|c bs IH]; intros d k b Hc Hl; [done|]. cbn [chained length] in *.
  destruct Hc as (_ & Hs & _ & _ & Hc). destruct bs as [|c' bs]; [injection Hl as <-; simpl; lia|].
  change (list.last (c :: c' :: bs)) with (list.last (c' :: bs)) in Hl.
  rewrite (IH _ _ _ Hc Hl). cbn [length]. lia.
Qed.

Lemma fragment_exact k d bs : 0 <= k ->
  verify_trajectory_fragment_linkage k d bs = Ok tt <-> bs <> [] /\ chained d k bs.
Proof.
  intros Hk. unfold verify_trajectory_fragment_linkage, verify_trajectory_linkage.
  destruct bs as [|b bs]; [cbn; naive_solver|]. cbn [List.hd_error ok_or mbind result_bind linkage_loop chained]. split.
  - intros H. open_results. split; [done|].
    match goal with H : checked_u _ _ = Some _ |- _ => apply checked_u_Some in H as [-> [? ?]] end.
    match goal with H : (_ =? _) = true |- _ => apply Z.eqb_eq in H as Es end.
    match goal with H : String.eqb _ _ = true |- _ => apply String.eqb_eq in H end.
    split_and!; try done. rewrite <- Es. apply linkage_loop_exact; [lia|done].
  - intros (_ & Hr & Hs & Hm & Hd & Hc). rewrite checked_u_small by (split; lia). cbn [ok_or mbind result_bind].
    rewrite Hs, Z.eqb_refl, Hd, String.eqb_refl, Hr. cbn [negb refuse_if mbind result_bind].
    apply linkage_loop_exact; [lia|]. by rewrite Hs.
Qed.

(** A recorded run: each decision with the state it leads to. *)
Record Step := mkStep {
  sp_snapshot : PolicySnapshot;
  sp_input : KernelInput;
  sp_decision : KernelDecision;
  sp_state : list Z
}.

Inductive RecordError := AdvanceFailed (e : StateAdvanceError) | ReplayFailed (e : VerifyResult).

(** What a caller does, as the module's documentation shows. *)
Fixpoint record_trajectory (chain : StateChain) (steps : list Step)
    : result RecordError (list StatefulAuditBundle) :=
  match steps with
  | [] => Ok []
  | s :: rest =>
      '(transition, chain) ← map_err AdvanceFailed (try_advance chain (sp_state s));
      proof ← map_err ReplayFailed
                (stateful_audit_bundle (sp_snapshot s) (sp_input s) (sp_decision s) transition);
      proofs ← record_trajectory chain rest;
      Ok (proof :: proofs)
  end.

Lemma record_chained steps : forall chain,
  Forall (fun s => verify_decision (sp_snapshot s) (sp_input s) (sp_decision s) = Valid) steps ->
  0 <= sc_step chain -> sc_step chain + Z.of_nat (length steps) <= umax 64 ->
  exists bs, record_trajectory chain steps = Ok bs /\ length bs = length steps /\
    chained (digest_to_hex (sc_last_digest chain)) (sc_step chain) bs.
Proof.
  induction steps as [|s steps IH]; intros chain Hv Hs Hb; [by exists []|].
  apply list.Forall_cons in Hv as [Hs1 Hv]. cbn [record_trajectory length] in *.
  unfold try_advance. rewrite checked_u_small by (split; lia). cbn [ok_or mbind result_bind map_err].
  unfold stateful_audit_bundle, verified_audit_bundle. rewrite Hs1. cbn [mbind result_bind map_err].
  destruct (IH (mkStateChain (sc_step chain + 1) (state_digest (sc_step chain + 1) (sp_state s))))
    as (bs & Hr & Hl & Hc); [done|cbn; lia|cbn; lia|].
  rewrite Hr. cbn [mbind result_bind]. eexists. split; [done|]. split; [by cbn; rewrite Hl|].
  cbn [chained sb_audit sb_step sb_state_digest_before_hex sb_state_digest_after_hex st_step st_digest_before
       st_digest_after]. split_and!; [|done|lia|done|done].
  rewrite verify_decision_spec in Hs1. unfold audit_bundle. cbn [ab_replay_valid].
  by destruct (bool_decide _).
Qed.

Lemma complete_exact initial final bundles :
  verify_complete_trajectory initial final bundles = Ok tt <->
  bundles <> [] /\ final = Z.of_nat (length bundles) /\
  chained (digest_to_hex (state_digest 0 initial)) 0 bundles.
Proof.
  unfold verify_complete_trajectory, verify_complete_trajectory_linkage. split.
  - intros H. apply bind_Ok in H as ([] & Hf & H). apply fragment_exact in Hf as [Hne Hc]; [|done].
    apply bind_Ok in H as (b & Hb%ok_or_Ok & H). apply refuse_if_Ok, negb_false_iff, Z.eqb_eq in H as <-.
    split_and!; [done| |done]. by rewrite (chained_last _ _ _ _ Hc Hb).
  - intros (Hne & -> & Hc). rewrite (proj2 (fragment_exact 0 _ _ (Z.le_refl 0)) (conj Hne Hc)). cbn [mbind result_bind].
    destruct (list.last bundles) as [b|] eqn:E; [|by apply last_None in E]. cbn [ok_or mbind result_bind].
    by rewrite (chained_last _ _ _ _ Hc E), Z.add_0_l, Z.eqb_refl.
Qed.

(** Complete trajectories are checked exactly.
    [verify_complete_trajectory] accepts a list of proofs for a genesis state
    and a final step exactly when there are as many proofs as steps, at least
    one, numbered from one without a gap, all replayed, the first starting from
    the digest of the genesis state and each of the others from the digest its
    predecessor ended with. Dropping, repeating, reordering or cutting off
    steps is refused. *)
Theorem complete_trajectory_exact initial final bundles :
  verify_complete_trajectory initial final bundles = Ok tt <->
  bundles <> [] /\ final = Z.of_nat (length bundles) /\
  chained (digest_to_hex (state_digest 0 initial)) 0 bundles.
Proof. apply complete_exact. Qed.

(** An honest run verifies. From a genesis state, any run of fewer
    than 2^64 steps in which every decision is what its policy prescribes is
    recorded without failure, one proof for each step, and the proofs verify as
    the complete trajectory of that many steps. *)
Theorem honest_trajectory_verifies initial steps :
  Forall (fun s => sp_decision s = prescribe (sp_snapshot s) (sp_input s)) steps ->
  steps <> [] -> Z.of_nat (length steps) <= umax 64 ->
  exists bundles, record_trajectory (genesis initial) steps = Ok bundles /\
    verify_complete_trajectory initial (Z.of_nat (length steps)) bundles = Ok tt.
Proof.
  intros Hd Hne Hl. destruct (record_chained steps (genesis initial)) as (bs & Hr & Hlen & Hc); [|done|done|].
  - eapply List.Forall_impl; [|exact Hd]. intros s ->. by rewrite verify_decision_spec, bool_decide_true.
  - exists bs. split; [done|]. apply complete_exact. split_and!; [intros ->; by destruct steps|by rewrite Hlen|done].
Qed.
End state.

Lemma honest_trajectory_verifies_witness :
  exists bundles, @record_trajectory toy_hash (@genesis toy_hash [1; 2])
    [mkStep sample_policy sample_input (prescribe sample_policy sample_input) [3; 4]] = Ok bundles /\
    @verify_complete_trajectory toy_hash [1; 2] 1 bundles = Ok tt.
Proof.
  apply (@honest_trajectory_verifies toy_hash [1; 2]
    [mkStep sample_policy sample_input (prescribe sample_policy sample_input) [3; 4]]).
  - by repeat constructor.
  - done.
  - by_compute.
Defined.
