(* ===== verification/Receipt.v ===== *)
(** * Decision receipts

    [src/receipt.rs]: the canonical digest over a receipt's claims, issuing,
    signing and the verifiers, with the hexadecimal reader that [provenance.rs]
    shares. *)

From Stdlib Require Import String.
From S2P Require Import Prelude Bytes Text Crypto Kernel KernelRank KernelProps Digest Verify.
#[local] Open Scope Z_scope.

Definition RECEIPT_SCHEMA : string := "calybris.receipt.v1".
Definition RECEIPT_DIGEST_TAG : list Z := string_bytes "calyrcp1" ++ [0].
Definition RECEIPT_SIGNATURE_CONTEXT : list Z := string_bytes "calyrcs1" ++ [0].

Record ReceiptState := mkReceiptState {
  rs_step : Z;
  rs_state_digest_before_hex : string;
  rs_state_digest_after_hex : string
}.
#[export] Instance ReceiptState_eq_dec : EqDecision ReceiptState.
Proof. solve_decision. Defined.

Record ReceiptWal := mkReceiptWal { rw_sequence : Z; rw_entry_hash : string }.
#[export] Instance ReceiptWal_eq_dec : EqDecision ReceiptWal.
Proof. solve_decision. Defined.

Record ReceiptAnchors := mkReceiptAnchors { ra_state : option ReceiptState; ra_wal : option ReceiptWal }.

Record ReceiptSignature := mkReceiptSignature {
  rg_signer_id : string;
  rg_signed_at_epoch_ms : Z;
  rg_public_key_hex : string;
  rg_signature_hex : string
}.

Record DecisionReceipt := mkDecisionReceipt {
  dr_schema_version : string;
  dr_policy_epoch : Z;
  dr_catalog_epoch : Z;
  dr_policy_digest_hex : string;
  dr_input_digest_hex : string;
  dr_decision_digest_hex : string;
  dr_replay_valid : bool;
  dr_state : option ReceiptState;
  dr_wal : option ReceiptWal;
  dr_claims_digest_hex : string;
  dr_signature : option ReceiptSignature
}.

(** The [reason] of a malformed field. *)
Inductive Reason :=
| ExpectedHexChars (expected found : Z)
| InvalidHexAt (offset : Z)
| MustBeAtLeastOne
| LengthDoesNotFit
| KeyRefused.

Inductive ReceiptError :=
| UnknownSchema (schema : string)
| ReplayFlagFalse
| PolicyDigestMismatch
| InputDigestMismatch
| DecisionDigestMismatch
| ReplayInvalid
| MalformedField (field : string) (reason : Reason)
| ClaimsDigestMismatch
| MissingSignature
| BadReceiptSignature
| UntrustedKey
| WalAnchorMismatch
| StateAnchorMismatch.

(** ** Hexadecimal fields *)

Definition hex_nibble (byte : Z) : option Z :=
  if (48 <=? byte) && (byte <=? 57) then Some (byte - 48)
  else if (97 <=? byte) && (byte <=? 102) then Some (byte - 97 + 10)
  else None.

Fixpoint hex_pairs (index : Z) (bytes : list Z) : result Reason (list Z) :=
  match bytes with
  | h :: l :: rest =>
      high ← ok_or (hex_nibble h) (InvalidHexAt (index * 2));
      low ← ok_or (hex_nibble l) (InvalidHexAt (index * 2 + 1));
      out ← hex_pairs (index + 1) rest;
      Ok (Z.lor (Z.shiftl high 4) low :: out)
  | _ => Ok []
  end.

(** [parse_hex::<N>]. *)
Definition parse_hex (n : nat) (field : string) (value : string) : result ReceiptError (list Z) :=
  let bytes := string_bytes value in
  if negb (Nat.eqb (length bytes) (n * 2))
  then Err (MalformedField field (ExpectedHexChars (Z.of_nat (n * 2)) (Z.of_nat (length bytes))))
  else map_err (MalformedField field) (hex_pairs 0 bytes).

Lemma hex_pairs_decode bytes : forall k, (length bytes <= 2 * k)%nat -> forall i,
  hex_pairs i bytes =
    map_err (fun e => match e with InvalidHexCharacter _ j => InvalidHexAt j | _ => KeyRefused end)
      (decode_pairs (2 * i) bytes).
Proof.
  intros k. revert bytes. induction k as [|k IH]; intros bytes Hl i; [by destruct bytes as [|? []]; cbn in *; try lia|].
  destruct bytes as [|h [|l rest]]; [done|done|]. cbn [hex_pairs decode_pairs].
  unfold hex_nibble, from_hex_digit.
  destruct ((48 <=? h) && (h <=? 57)); [|destruct ((97 <=? h) && (h <=? 102)); cbn; [|by f_equal; f_equal; lia]];
    cbn [ok_or mbind result_bind];
    (destruct ((48 <=? l) && (l <=? 57)); [|destruct ((97 <=? l) && (l <=? 102)); cbn; [|by f_equal; f_equal; lia]]);
    cbn [ok_or mbind result_bind]; rewrite (IH rest) by (cbn in Hl; lia);
    replace (2 * (i + 1)) with (2 * i + 2) by lia; by destruct (decode_pairs (2 * i + 2) rest).
Qed.

(** The reader accepts exactly the canonical lower-case text. *)
Lemma parse_hex_Ok n f s bs :
  parse_hex n f s = Ok bs <-> length bs = n /\ Forall is_byte bs /\ s = bytes_to_hex bs.
Proof.
  unfold parse_hex. rewrite (hex_pairs_decode _ (length (string_bytes s))) by lia. split.
  - destruct (Nat.eqb_spec (length (string_bytes s)) (n * 2)) as [Hl|]; cbn [negb]; [|done].
    change (2 * 0) with 0.
    destruct (decode_pairs 0 (string_bytes s)) as [out|] eqn:E; cbn; [|done]. intros [= <-].
    apply (decode_pairs_canonical (length (string_bytes s))) in E as [HB HE]; [|lia|exists n; lia].
    rewrite HE, hex_text_length in Hl. split_and!; [lia|done|]. apply string_bytes_inj. by rewrite bytes_to_hex_bytes.
  - intros (Hl & Hb & ->). rewrite bytes_to_hex_bytes, hex_text_length, Hl by done.
    rewrite (proj2 (Nat.eqb_eq _ _)) by lia. cbn [negb]. change (2 * 0) with 0. by rewrite decode_pairs_hex.
Qed.

Section receipt.
Context {HF : HashFunctions} {ED : Ed25519}.

(** ** The claims digest *)

Definition hash_optional_state (state : option ReceiptState) : result ReceiptError (list Z) :=
  match state with
  | Some state =>
      _ ← refuse_if (rs_step state =? 0) (MalformedField "state.step" MustBeAtLeastOne);
      before ← parse_hex 32 "state_digest_before_hex" (rs_state_digest_before_hex state);
      after ← parse_hex 32 "state_digest_after_hex" (rs_state_digest_after_hex state);
      Ok ([1] ++ le_bytes 8 (rs_step state) ++ before ++ after)
  | None => Ok [0]
  end.

Definition hash_optional_wal (wal : option ReceiptWal) : result ReceiptError (list Z) :=
  match wal with
  | Some wal =>
      _ ← refuse_if (rw_sequence wal =? 0) (MalformedField "wal.sequence" MustBeAtLeastOne);
      hash ← parse_hex 32 "wal.entry_hash" (rw_entry_hash wal);
      Ok ([1] ++ le_bytes 8 (rw_sequence wal) ++ hash)
  | None => Ok [0]
  end.

Definition claims_message (receipt : DecisionReceipt) : result ReceiptError (list Z) :=
  let schema := string_bytes (dr_schema_version receipt) in
  schema_len ← ok_or (checked_u 64 (Z.of_nat (length schema))) (MalformedField "schema_version" LengthDoesNotFit);
  policy ← parse_hex 32 "policy_digest_hex" (dr_policy_digest_hex receipt);
  input ← parse_hex 32 "input_digest_hex" (dr_input_digest_hex receipt);
  decision ← parse_hex 32 "decision_digest_hex" (dr_decision_digest_hex receipt);
  state ← hash_optional_state (dr_state receipt);
  wal ← hash_optional_wal (dr_wal receipt);
  Ok (RECEIPT_DIGEST_TAG ++ le_bytes 8 schema_len ++ schema ++
      le_bytes 8 (dr_policy_epoch receipt) ++ le_bytes 8 (dr_catalog_epoch receipt) ++
      policy ++ input ++ decision ++ [if dr_replay_valid receipt then 1 else 0] ++ state ++ wal).

Definition receipt_claims_digest (receipt : DecisionReceipt) : result ReceiptError (list Z) :=
  message ← claims_message receipt; Ok (sha256 message).

(** ** Issuing and verifying *)

Definition is_valid (r : VerifyResult) : bool := match r with Valid => true | _ => false end.

Definition set_claims (receipt : DecisionReceipt) (hex : string) : DecisionReceipt :=
  let '(mkDecisionReceipt v pe ce p i d r s w _ g) := receipt in mkDecisionReceipt v pe ce p i d r s w hex g.
Definition set_signature (receipt : DecisionReceipt) (signature : ReceiptSignature) : DecisionReceipt :=
  let '(mkDecisionReceipt v pe ce p i d r s w c _) := receipt in
  mkDecisionReceipt v pe ce p i d r s w c (Some signature).

Definition issue_receipt (snapshot : PolicySnapshot) (input : KernelInput) (decision : KernelDecision)
    (anchors : ReceiptAnchors) : result ReceiptError DecisionReceipt :=
  _ ← refuse_if (negb (is_valid (verify_decision snapshot input decision))) ReplayInvalid;
  let receipt :=
    mkDecisionReceipt RECEIPT_SCHEMA (kd_policy_epoch decision) (kd_catalog_epoch decision)
      (bytes_to_hex (policy_digest snapshot)) (bytes_to_hex (input_digest input))
      (bytes_to_hex (decision_digest decision)) true (ra_state anchors) (ra_wal anchors) "" None in
  claims ← receipt_claims_digest receipt;
  Ok (set_claims receipt (bytes_to_hex claims)).

Definition verify_receipt (receipt : DecisionReceipt) (snapshot : PolicySnapshot) (input : KernelInput)
    (decision : KernelDecision) : result ReceiptError unit :=
  _ ← refuse_if (negb (String.eqb (dr_schema_version receipt) RECEIPT_SCHEMA))
        (UnknownSchema (dr_schema_version receipt));
  _ ← refuse_if (negb (dr_replay_valid receipt)) ReplayFlagFalse;
  _ ← refuse_if (negb (dr_policy_epoch receipt =? kd_policy_epoch decision)
                 || negb (dr_catalog_epoch receipt =? kd_catalog_epoch decision)) ReplayInvalid;
  _ ← refuse_if (negb (String.eqb (dr_policy_digest_hex receipt) (bytes_to_hex (policy_digest snapshot))))
        PolicyDigestMismatch;
  _ ← refuse_if (negb (String.eqb (dr_input_digest_hex receipt) (bytes_to_hex (input_digest input))))
        InputDigestMismatch;
  _ ← refuse_if (negb (String.eqb (dr_decision_digest_hex receipt) (bytes_to_hex (decision_digest decision))))
        DecisionDigestMismatch;
  _ ← refuse_if (negb (is_valid (verify_decision snapshot input decision))) ReplayInvalid;
  claims ← receipt_claims_digest receipt;
  refuse_if (negb (String.eqb (dr_claims_digest_hex receipt) (bytes_to_hex claims))) ClaimsDigestMismatch.

Definition verify_receipt_wal (receipt : DecisionReceipt) (sequence : Z) (entry_hash : string)
    : result ReceiptError unit :=
  match dr_wal receipt with
  | Some wal =>
      if (rw_sequence wal =? sequence) && String.eqb (rw_entry_hash wal) entry_hash
      then Ok tt else Err WalAnchorMismatch
  | None => Err WalAnchorMismatch
  end.

Definition verify_receipt_state (receipt : DecisionReceipt) (step : Z) (before after : string)
    : result ReceiptError unit :=
  match dr_state receipt with
  | Some state =>
      if (rs_step state =? step) && String.eqb (rs_state_digest_before_hex state) before
         && String.eqb (rs_state_digest_after_hex state) after
      then Ok tt else Err StateAnchorMismatch
  | None => Err StateAnchorMismatch
  end.

Definition receipt_signing_message (claims_digest : list Z) (signed_at_epoch_ms : Z) (signer_id : string)
    : list Z :=
  RECEIPT_SIGNATURE_CONTEXT ++ claims_digest ++ le_bytes 8 signed_at_epoch_ms ++ string_bytes signer_id.

(** [sign_receipt] updates the receipt in place; here the updated receipt is
    the result. *)
Definition sign_receipt (receipt : DecisionReceipt) (signing_key : list Z) (signer_id : string)
    (signed_at_epoch_ms : Z) : result ReceiptError DecisionReceipt :=
  claims_digest ← receipt_claims_digest receipt;
  _ ← refuse_if (negb (String.eqb (dr_claims_digest_hex receipt) (bytes_to_hex claims_digest)))
        ClaimsDigestMismatch;
  let message := receipt_signing_message claims_digest signed_at_epoch_ms signer_id in
  let signature := ed_sign signing_key message in
  Ok (set_signature receipt
        (mkReceiptSignature signer_id signed_at_epoch_ms (bytes_to_hex (verifying_key signing_key))
           (bytes_to_hex signature))).

Definition verify_receipt_signature (receipt : DecisionReceipt) (trusted_key : option (list Z))
    : result ReceiptError unit :=
  signature ← ok_or (dr_signature receipt) MissingSignature;
  claims_digest ← receipt_claims_digest receipt;
  _ ← refuse_if (negb (String.eqb (dr_claims_digest_hex receipt) (bytes_to_hex claims_digest)))
        ClaimsDigestMismatch;
  key_bytes ← parse_hex 32 "signature.public_key_hex" (rg_public_key_hex signature);
  _ ← refuse_if (negb (public_key_ok key_bytes)) (MalformedField "signature.public_key_hex" KeyRefused);
  _ ← refuse_if (match trusted_key with Some trusted => negb (bool_decide (trusted = key_bytes)) | None => false end)
        UntrustedKey;
  signature_bytes ← parse_hex 64 "signature.signature_hex" (rg_signature_hex signature);
  let message :=
    receipt_signing_message claims_digest (rg_signed_at_epoch_ms signature) (rg_signer_id signature) in
  refuse_if (negb (ed_verify key_bytes message signature_bytes)) BadReceiptSignature.

Definition verify_receipt_full (receipt : DecisionReceipt) (snapshot : PolicySnapshot) (input : KernelInput)
    (decision : KernelDecision) (trusted_key : list Z) (expected_state : ReceiptState)
    (expected_wal : ReceiptWal) : result ReceiptError unit :=
  _ ← verify_receipt receipt snapshot input decision;
  _ ← verify_receipt_signature receipt (Some trusted_key);
  _ ← verify_receipt_state receipt (rs_step expected_state) (rs_state_digest_before_hex expected_state)
        (rs_state_digest_after_hex expected_state);
  verify_receipt_wal receipt (rw_sequence expected_wal) (rw_entry_hash expected_wal).
End receipt.
