(* ===== verification/ReceiptProps.v ===== *)
(** * What a receipt proves

    The claims digest determines every claim, the full verifier accepts exactly
    the receipts it should, and an honestly issued and signed receipt is
    accepted. *)

From Stdlib Require Import String.
From S2P Require Import Prelude Bytes Text Crypto Kernel KernelRank KernelProps Digest Verify Receipt.
#[local] Open Scope Z_scope.

Section props.
Context {HF : HashFunctions} {ED : Ed25519}.

Definition receipt_typed (r : DecisionReceipt) : Prop :=
  is_u 64 (dr_policy_epoch r) /\ is_u 64 (dr_catalog_epoch r) /\
  (forall s, dr_state r = Some s -> is_u 64 (rs_step s)) /\
  (forall w, dr_wal r = Some w -> is_u 64 (rw_sequence w)).

(** Everything the claims digest covers. *)
Definition claims_of (r : DecisionReceipt) :=
  (dr_schema_version r, dr_policy_epoch r, dr_catalog_epoch r, dr_policy_digest_hex r, dr_input_digest_hex r,
   dr_decision_digest_hex r, dr_replay_valid r, dr_state r, dr_wal r).

(** ** The message determines the claims *)

Lemma state_bytes_inj s s' b b' t t' :
  (forall x, s = Some x -> is_u 64 (rs_step x)) -> (forall x, s' = Some x -> is_u 64 (rs_step x)) ->
  hash_optional_state s = Ok b -> hash_optional_state s' = Ok b' -> b ++ t = b' ++ t' -> s = s' /\ t = t'.
Proof.
  intros Hs Hs' H H' E. destruct s as [x|], s' as [x'|]; cbn [hash_optional_state] in H, H';
    open_results; try discriminate E; [|by injection E].
  repeat match goal with H : parse_hex _ _ _ = Ok _ |- _ => apply parse_hex_Ok in H as (? & ? & ?) end.
  rewrite <- !app_assoc in E. apply app_inv_head in E.
  apply app_inj_len in E as [Fs E]; [|by rewrite !length_le_bytes].
  apply (le_bytes_inj_u 8) in Fs; [|by apply Hs|by apply Hs'].
  apply app_inj_len in E as [-> E]; [|congruence]. apply app_inj_len in E as [-> ->]; [|congruence].
  destruct x, x'; cbn in *; subst. done.
Qed.

Lemma wal_bytes_inj s s' b b' :
  (forall x, s = Some x -> is_u 64 (rw_sequence x)) -> (forall x, s' = Some x -> is_u 64 (rw_sequence x)) ->
  hash_optional_wal s = Ok b -> hash_optional_wal s' = Ok b' -> b = b' -> s = s'.
Proof.
  intros Hs Hs' H H'. destruct s as [x|], s' as [x'|]; cbn [hash_optional_wal] in H, H';
    open_results; intros E; try discriminate E; [|done].
  repeat match goal with H : parse_hex _ _ _ = Ok _ |- _ => apply parse_hex_Ok in H as (? & ? & ?) end.
  apply app_inv_head in E.
  apply app_inj_len in E as [Fs E]; [|by rewrite !length_le_bytes].
  apply (le_bytes_inj_u 8) in Fs; [|by apply Hs|by apply Hs'].
  destruct x, x'; cbn in *; subst. done.
Qed.

Lemma claims_message_inj r r' m : receipt_typed r -> receipt_typed r' ->
  claims_message r = Ok m -> claims_message r' = Ok m -> claims_of r = claims_of r'.
Proof.
  intros (Hu1 & Hu2 & Hs & Hw) (Hu3 & Hu4 & Hs' & Hw') H H'. unfold claims_message in H, H'. open_results.
  repeat match goal with H : parse_hex _ _ _ = Ok _ |- _ => apply parse_hex_Ok in H as (? & ? & ?) end.
  repeat match goal with H : checked_u _ _ = Some _ |- _ => apply checked_u_Some in H as (-> & ?) end.
  match goal with E : _ ++ _ = _ ++ _ |- _ => rename E into Heq end.
  apply app_inv_head in Heq. apply app_inj_len in Heq as [Fl Heq]; [|by rewrite !length_le_bytes].
  apply (le_bytes_inj_u 8) in Fl; [|done..]. apply app_inj_len in Heq as [Fsch Heq]; [|lia].
  apply app_inj_len in Heq as [Fpe Heq]; [|by rewrite !length_le_bytes].
  apply app_inj_len in Heq as [Fce Heq]; [|by rewrite !length_le_bytes].
  apply (le_bytes_inj_u 8) in Fpe, Fce; [|done..].
  do 3 (let F := fresh "F" in apply app_inj_len in Heq as [F Heq]; [|congruence]).
  apply app_inj_len in Heq as [[= Hb] Heq]; [|done].
  eapply state_bytes_inj in Heq as [Es Ew]; [|exact Hs|exact Hs'|eassumption|eassumption].
  eapply wal_bytes_inj in Ew; [|exact Hw|exact Hw'|eassumption|eassumption].
  apply string_bytes_inj in Fsch. unfold claims_of.
  assert (dr_replay_valid r = dr_replay_valid r') by (by destruct (dr_replay_valid r), (dr_replay_valid r')).
  congruence.
Qed.

(** ** The verifiers *)

Lemma verify_receipt_Ok r p i d : verify_receipt r p i d = Ok tt <->
  d = prescribe p i /\ dr_schema_version r = RECEIPT_SCHEMA /\ dr_replay_valid r = true /\
  dr_policy_epoch r = kd_policy_epoch d /\ dr_catalog_epoch r = kd_catalog_epoch d /\
  dr_policy_digest_hex r = bytes_to_hex (policy_digest p) /\
  dr_input_digest_hex r = bytes_to_hex (input_digest i) /\
  dr_decision_digest_hex r = bytes_to_hex (decision_digest d) /\
  exists m, claims_message r = Ok m /\ dr_claims_digest_hex r = bytes_to_hex (sha256 m).
Proof.
  unfold verify_receipt, receipt_claims_digest. rewrite verify_decision_spec. split.
  - intros H. open_results.
    repeat match goal with
    | H : String.eqb _ _ = true |- _ => apply String.eqb_eq in H
    | H : _ || _ = false |- _ => apply orb_false_iff in H as [?%negb_false_iff%Z.eqb_eq ?%negb_false_iff%Z.eqb_eq]
    | H : is_valid _ = true |- _ => revert H; case_bool_decide; [intros _|done]
    end. subst. split_and!; try done. by eexists.
  - intros (-> & Hv & Hr & Hpe & Hce & Hp & Hi & Hd & m & Hm & Hc).
    rewrite Hv, Hr, Hpe, Hce, Hp, Hi, Hd, Hm, !String.eqb_refl, !Z.eqb_refl, bool_decide_true by done. cbn.
    by rewrite Hc, String.eqb_refl.
Qed.

Lemma verify_state_Ok r s :
  verify_receipt_state r (rs_step s) (rs_state_digest_before_hex s) (rs_state_digest_after_hex s) = Ok tt <->
  dr_state r = Some s.
Proof.
  unfold verify_receipt_state. destruct (dr_state r) as [x|]; [|done]. split.
  - destruct (_ && _) eqn:E; [|done]. rewrite !andb_true_iff, Z.eqb_eq, !String.eqb_eq in E. intros _.
    destruct x, s; cbn in *; naive_solver.
  - intros [= ->]. by rewrite Z.eqb_refl, !String.eqb_refl.
Qed.

Lemma verify_wal_Ok r w : verify_receipt_wal r (rw_sequence w) (rw_entry_hash w) = Ok tt <-> dr_wal r = Some w.
Proof.
  unfold verify_receipt_wal. destruct (dr_wal r) as [x|]; [|done]. split.
  - destruct (_ && _) eqn:E; [|done]. rewrite !andb_true_iff, Z.eqb_eq, !String.eqb_eq in E. intros _.
    destruct x, w; cbn in *; naive_solver.
  - intros [= ->]. by rewrite Z.eqb_refl, !String.eqb_refl.
Qed.

(** The signature [g] of a receipt with claims message [m] is [key]'s. *)
Definition signed_by_key (m : list Z) (g : ReceiptSignature) (key : list Z) : Prop :=
  exists sig, length key = 32%nat /\ Forall is_byte key /\ public_key_ok key = true /\
    rg_public_key_hex g = bytes_to_hex key /\
    length sig = 64%nat /\ Forall is_byte sig /\ rg_signature_hex g = bytes_to_hex sig /\
    ed_verify key (receipt_signing_message (sha256 m) (rg_signed_at_epoch_ms g) (rg_signer_id g)) sig = true.

Lemma verify_signature_Ok r key : verify_receipt_signature r (Some key) = Ok tt <->
  exists g m, dr_signature r = Some g /\ claims_message r = Ok m /\
    dr_claims_digest_hex r = bytes_to_hex (sha256 m) /\ signed_by_key m g key.
Proof.
  unfold verify_receipt_signature, receipt_claims_digest. split.
  - intros H. open_results.
    repeat match goal with
    | H : parse_hex _ _ _ = Ok _ |- _ => apply parse_hex_Ok in H as (? & ? & ?)
    | H : String.eqb _ _ = true |- _ => apply String.eqb_eq in H
    end. subst. do 2 eexists. split_and!; [done|done|done|]. eexists. split_and!; done.
  - intros (g & m & Hg & Hm & Hc & sig & Hl & Hb & Hok & Hk & Hsl & Hsb & Hs & Hv).
    rewrite Hg, Hm. cbn [ok_or mbind result_bind]. rewrite Hc, String.eqb_refl. cbn [negb refuse_if mbind result_bind].
    rewrite (proj2 (parse_hex_Ok 32 _ _ key)) by done. cbn [mbind result_bind]. rewrite Hok. cbn [negb refuse_if mbind result_bind].
    rewrite bool_decide_true by done. cbn [negb refuse_if mbind result_bind].
    rewrite (proj2 (parse_hex_Ok 64 _ _ sig)) by done. cbn [mbind result_bind]. by rewrite Hv.
Qed.

(** ** The theorems *)

(** The claims digest binds every claim. Two receipts whose claims
    digests are equal agree on schema, epochs, the three digests, the replay
    flag and both optional anchors, as long as SHA-256 does not collide on
    their two messages; so a signature over the digest covers all of them. *)
Theorem receipt_digest_binds r r' m m' : receipt_typed r -> receipt_typed r' ->
  claims_message r = Ok m -> claims_message r' = Ok m' -> collision_free sha256 [m; m'] ->
  receipt_claims_digest r = receipt_claims_digest r' -> claims_of r = claims_of r'.
Proof.
  intros Ht Ht' Hm Hm' Hc E. unfold receipt_claims_digest in E. rewrite Hm, Hm' in E. cbn in E. injection E as E.
  apply Hc in E as ->; [|by left|by right; left]. by eapply claims_message_inj.
Qed.

(** The full verifier is exact. [verify_receipt_full] accepts a
    receipt exactly when the decision is what the policy prescribes for the
    input, the receipt names their digests and epochs, its claims digest is
    that of its claims, it carries the trusted key and a signature by that key
    over that digest, and its state and log anchors are the expected ones. *)
Theorem receipt_full_exact r p i d key st wal :
  verify_receipt_full r p i d key st wal = Ok tt <->
  d = prescribe p i /\ dr_schema_version r = RECEIPT_SCHEMA /\ dr_replay_valid r = true /\
  dr_policy_epoch r = kd_policy_epoch d /\ dr_catalog_epoch r = kd_catalog_epoch d /\
  dr_policy_digest_hex r = bytes_to_hex (policy_digest p) /\
  dr_input_digest_hex r = bytes_to_hex (input_digest i) /\
  dr_decision_digest_hex r = bytes_to_hex (decision_digest d) /\
  dr_state r = Some st /\ dr_wal r = Some wal /\
  exists m g, claims_message r = Ok m /\ dr_claims_digest_hex r = bytes_to_hex (sha256 m) /\
    dr_signature r = Some g /\ signed_by_key m g key.
Proof.
  unfold verify_receipt_full. split.
  - intros H. apply bind_Ok in H as ([] & H1 & H). apply bind_Ok in H as ([] & H2 & H).
    apply bind_Ok in H as ([] & H3%verify_state_Ok & H4%verify_wal_Ok).
    apply verify_receipt_Ok in H1 as (? & ? & ? & ? & ? & ? & ? & ? & m & Hm & Hc).
    apply verify_signature_Ok in H2 as (g & m' & Hg & Hm' & _ & Hs). rewrite Hm in Hm'. injection Hm' as <-.
    split_and!; try done. by exists m, g.
  - intros (? & ? & ? & ? & ? & ? & ? & ? & Hst & Hw & m & g & Hm & Hc & Hg & Hs).
    rewrite (proj2 (verify_receipt_Ok r p i d)) by (split_and!; try done; by exists m). cbn [mbind result_bind].
    rewrite (proj2 (verify_signature_Ok r key)) by (by exists g, m). cbn [mbind result_bind].
    rewrite (proj2 (verify_state_Ok r st) Hst). cbn [mbind result_bind]. by apply verify_wal_Ok.
Qed.

(** Anchors that a receipt may carry. *)
Definition state_anchor_ok (s : ReceiptState) : Prop :=
  1 <= rs_step s /\ exists b a, length b = 32%nat /\ length a = 32%nat /\ Forall is_byte b /\ Forall is_byte a /\
    rs_state_digest_before_hex s = bytes_to_hex b /\ rs_state_digest_after_hex s = bytes_to_hex a.
Definition wal_anchor_ok (w : ReceiptWal) : Prop :=
  1 <= rw_sequence w /\ exists h, length h = 32%nat /\ Forall is_byte h /\ rw_entry_hash w = bytes_to_hex h.

Lemma issue_ok p i st wal : state_anchor_ok st -> wal_anchor_ok wal ->
  exists r m, issue_receipt p i (prescribe p i) (mkReceiptAnchors (Some st) (Some wal)) = Ok r /\
    claims_message r = Ok m /\ dr_claims_digest_hex r = bytes_to_hex (sha256 m) /\
    verify_receipt r p i (prescribe p i) = Ok tt /\ dr_state r = Some st /\ dr_wal r = Some wal.
Proof.
  intros (Hs & b & a & Hbl & Hal & Hbb & Hab & Eb & Ea) (Hw & h & Hhl & Hhb & Eh).
  unfold issue_receipt. rewrite verify_decision_spec, bool_decide_true by done. cbn [is_valid negb refuse_if mbind result_bind].
  set (r0 := mkDecisionReceipt _ _ _ _ _ _ _ _ _ _ _).
  assert (exists m, claims_message r0 = Ok m) as [m Hm].
  { unfold claims_message. cbn [r0 dr_schema_version dr_policy_digest_hex dr_input_digest_hex dr_decision_digest_hex
      dr_state dr_wal ra_state ra_wal]. rewrite checked_u_small by by_compute. cbn [ok_or mbind result_bind].
    rewrite (proj2 (parse_hex_Ok 32 _ (bytes_to_hex (policy_digest p)) (policy_digest p))) by (split_and!; [apply sha256_length|apply sha256_bytes|done]).
    cbn [mbind result_bind].
    rewrite (proj2 (parse_hex_Ok 32 _ (bytes_to_hex (input_digest i)) (input_digest i))) by (split_and!; [apply sha256_length|apply sha256_bytes|done]).
    cbn [mbind result_bind].
    rewrite (proj2 (parse_hex_Ok 32 _ (bytes_to_hex (decision_digest (prescribe p i))) (decision_digest (prescribe p i))))
      by (split_and!; [apply sha256_length|apply sha256_bytes|done]).
    cbn [mbind result_bind]. unfold hash_optional_state, hash_optional_wal.
    rewrite !(proj2 (Z.eqb_neq _ _)) by lia. cbn [refuse_if mbind result_bind].
    rewrite Eb, Ea, Eh, (proj2 (parse_hex_Ok 32 _ (bytes_to_hex b) b)) by done. cbn [mbind result_bind].
    rewrite (proj2 (parse_hex_Ok 32 _ (bytes_to_hex a) a)) by done. cbn [mbind result_bind].
    rewrite (proj2 (parse_hex_Ok 32 _ (bytes_to_hex h) h)) by done. cbn [mbind result_bind]. by eexists. }
  unfold receipt_claims_digest. rewrite Hm. cbn [mbind result_bind]. do 2 eexists. split; [done|].
  assert (claims_message (set_claims r0 (bytes_to_hex (sha256 m))) = Ok m) as Hm' by exact Hm.
  split_and!; [exact Hm'|done| |done|done].
  apply verify_receipt_Ok. split_and!; try done. by exists m.
Qed.

(** Honest receipts verify. For any policy and input, a receipt
    issued for the prescribed decision with well-formed anchors and signed with
    any key at any time is accepted by the full verifier for that key and those
    anchors. *)
Theorem honest_receipt_verifies p i st wal seed signer time :
  state_anchor_ok st -> wal_anchor_ok wal ->
  exists r r', issue_receipt p i (prescribe p i) (mkReceiptAnchors (Some st) (Some wal)) = Ok r /\
    sign_receipt r seed signer time = Ok r' /\
    verify_receipt_full r' p i (prescribe p i) (verifying_key seed) st wal = Ok tt.
Proof.
  intros Hst Hwal. destruct (issue_ok p i st wal Hst Hwal) as (r & m & Hr & Hm & Hc & Hv & Hs & Hw). exists r.
  unfold sign_receipt, receipt_claims_digest. rewrite Hm. cbn [mbind result_bind].
  rewrite Hc, String.eqb_refl. cbn [negb refuse_if mbind result_bind]. eexists. split_and!; [done|done|].
  set (g := mkReceiptSignature _ _ _ _). set (r' := set_signature r g).
  assert (dr_state r' = dr_state r /\ dr_wal r' = dr_wal r /\ claims_message r' = claims_message r /\
    dr_claims_digest_hex r' = dr_claims_digest_hex r /\ dr_signature r' = Some g /\
    verify_receipt r' p i (prescribe p i) = verify_receipt r p i (prescribe p i))
    as (Es & Ew & Em & Ec & Eg & Ev) by (unfold r'; by destruct r).
  unfold verify_receipt_full. rewrite Ev, Hv. cbn [mbind result_bind].
  rewrite (proj2 (verify_signature_Ok r' (verifying_key seed))).
  2:{ exists g, m. rewrite Em, Ec, Eg. split_and!; [done|done|done|]. exists (ed_sign seed (receipt_signing_message (sha256 m) time signer)).
      split_and!; [apply verifying_key_length|apply verifying_key_bytes|apply verifying_key_ok|done
        |apply ed_sign_length|apply ed_sign_bytes|done|apply ed_verify_sign]. }
  cbn [mbind result_bind]. rewrite (proj2 (verify_state_Ok r' st)) by (by rewrite Es).
  cbn [mbind result_bind]. apply verify_wal_Ok. by rewrite Ew.
Qed.
End props.

(** ** Concrete instances *)

Lemma collision_free_same h m : collision_free h [m; m].
Proof.
  intros x y Hx Hy _. rewrite !elem_of_cons, elem_of_nil in Hx, Hy.
  by destruct Hx as [->|[->|[]]], Hy as [->|[->|[]]].
Qed.

Definition sample_state_anchor : ReceiptState :=
  mkReceiptState 1 (bytes_to_hex (replicate 32 1)) (bytes_to_hex (replicate 32 2)).
Definition sample_wal_anchor : ReceiptWal := mkReceiptWal 7 (bytes_to_hex (replicate 32 3)).

Lemma sample_anchors_ok : state_anchor_ok sample_state_anchor /\ wal_anchor_ok sample_wal_anchor.
Proof.
  split; (split; [by_compute|]).
  - exists (replicate 32 1), (replicate 32 2). split_and!; by_compute.
  - exists (replicate 32 3). split_and!; by_compute.
Qed.

Lemma honest_receipt_verifies_witness :
  exists r r', @issue_receipt toy_hash sample_policy sample_input (prescribe sample_policy sample_input)
      (mkReceiptAnchors (Some sample_state_anchor) (Some sample_wal_anchor)) = Ok r /\
    @sign_receipt toy_hash toy_ed25519 r (replicate 32 5) "officer" 1000 = Ok r' /\
    @verify_receipt_full toy_hash toy_ed25519 r' sample_policy sample_input (prescribe sample_policy sample_input)
      (toy_digest (replicate 32 5)) sample_state_anchor sample_wal_anchor = Ok tt.
Proof.
  exact (@honest_receipt_verifies toy_hash toy_ed25519 sample_policy sample_input sample_state_anchor
    sample_wal_anchor (replicate 32 5) "officer"%string 1000 (proj1 sample_anchors_ok) (proj2 sample_anchors_ok)).
Defined.

Definition sample_receipt : DecisionReceipt :=
  mkDecisionReceipt RECEIPT_SCHEMA 7 11 (bytes_to_hex (replicate 32 4)) (bytes_to_hex (replicate 32 5))
    (bytes_to_hex (replicate 32 6)) true (Some sample_state_anchor) (Some sample_wal_anchor) "" None.
Definition sample_claims : list Z :=
  match claims_message sample_receipt with Ok m => m | Err _ => [] end.

Lemma sample_receipt_typed : receipt_typed sample_receipt.
Proof.
  split; [by_compute|]. split; [by_compute|]. split; intros x [= <-]; by_compute.
Qed.

Lemma sample_claims_ok : claims_message sample_receipt = Ok sample_claims.
Proof. by_compute. Qed.

Lemma receipt_digest_binds_witness : claims_of sample_receipt = claims_of sample_receipt.
Proof.
  apply (@receipt_digest_binds toy_hash sample_receipt sample_receipt sample_claims sample_claims).
  - exact sample_receipt_typed.
  - exact sample_receipt_typed.
  - exact sample_claims_ok.
  - exact sample_claims_ok.
  - apply collision_free_same.
  - reflexivity.
Defined.
