(* ===== verification/Certificate.v ===== *)
(** * Signed policies, decision certificates and proof envelopes

    [src/provenance.rs], [src/certificate.rs] and [src/proof.rs], a Module
    each: a policy signed by an officer, the certificate that groups a
    decision's evidence, the envelope that collects its digests and anchors. *)

From Stdlib Require Import String.
From S2P Require Import Prelude Bytes Text Crypto Kernel KernelRank KernelProps Digest Verify Receipt.
#[local] Open Scope Z_scope.

(** ** [src/provenance.rs] *)

Module Provenance.
Definition POLICY_SIGNATURE_CONTEXT : list Z := string_bytes "calysig1" ++ [0].

Record SignedPolicy := mkSignedPolicy {
  sp_policy_digest_hex : string;
  sp_signer_id : string;
  sp_signed_at_epoch_ms : Z;
  sp_public_key_hex : string;
  sp_signature_hex : string
}.

Inductive ProvenanceError :=
| PolicyDigestMismatch (signed actual : string)
| Malformed (field : string) (reason : Reason)
| BadSignature
| UntrustedKey.

Definition signing_message (policy_digest : list Z) (signed_at_epoch_ms : Z) (signer_id : string) : list Z :=
  POLICY_SIGNATURE_CONTEXT ++ policy_digest ++ le_bytes 8 signed_at_epoch_ms ++ string_bytes signer_id.

Definition parse_hex (n : nat) (field : string) (hex : string) : result ProvenanceError (list Z) :=
  let bytes := string_bytes hex in
  if negb (Nat.eqb (length bytes) (n * 2))
  then Err (Malformed field (ExpectedHexChars (Z.of_nat (n * 2)) (Z.of_nat (length bytes))))
  else map_err (Malformed field) (hex_pairs 0 bytes).

Section provenance.
Context {HF : HashFunctions} {ED : Ed25519}.

Definition sign_policy (snapshot : PolicySnapshot) (signing_key : list Z) (signer_id : string)
    (signed_at_epoch_ms : Z) : SignedPolicy :=
  let digest := policy_digest snapshot in
  let message := signing_message digest signed_at_epoch_ms signer_id in
  let signature := ed_sign signing_key message in
  mkSignedPolicy (bytes_to_hex digest) signer_id signed_at_epoch_ms
    (bytes_to_hex (verifying_key signing_key)) (bytes_to_hex signature).

Definition verify_signed_policy (snapshot : PolicySnapshot) (signed : SignedPolicy)
    : result ProvenanceError unit :=
  let digest := policy_digest snapshot in
  let actual_hex := bytes_to_hex digest in
  _ ← refuse_if (negb (String.eqb (sp_policy_digest_hex signed) actual_hex))
        (PolicyDigestMismatch (sp_policy_digest_hex signed) actual_hex);
  key_bytes ← parse_hex 32 "public_key_hex" (sp_public_key_hex signed);
  _ ← refuse_if (negb (public_key_ok key_bytes)) (Malformed "public_key_hex" KeyRefused);
  signature_bytes ← parse_hex 64 "signature_hex" (sp_signature_hex signed);
  let message := signing_message digest (sp_signed_at_epoch_ms signed) (sp_signer_id signed) in
  refuse_if (negb (ed_verify key_bytes message signature_bytes)) BadSignature.

Definition verify_signed_policy_with_key (snapshot : PolicySnapshot) (signed : SignedPolicy)
    (trusted_key : list Z) : result ProvenanceError unit :=
  _ ← refuse_if (negb (String.eqb (sp_public_key_hex signed) (bytes_to_hex trusted_key))) UntrustedKey;
  verify_signed_policy snapshot signed.

Lemma provenance_hex_Ok n f s bs :
  parse_hex n f s = Ok bs <-> length bs = n /\ Forall is_byte bs /\ s = bytes_to_hex bs.
Proof.
  rewrite <- (Receipt.parse_hex_Ok n f s bs). unfold parse_hex, Receipt.parse_hex.
  destruct (negb _); [done|]. by rewrite !map_err_Ok.
Qed.

(** A signature by [key] over this policy, time and signer. *)
Definition signed_with (p : PolicySnapshot) (s : SignedPolicy) (key : list Z) : Prop :=
  exists sig, sp_policy_digest_hex s = bytes_to_hex (policy_digest p) /\
    length key = 32%nat /\ Forall is_byte key /\ public_key_ok key = true /\
    sp_public_key_hex s = bytes_to_hex key /\
    length sig = 64%nat /\ Forall is_byte sig /\ sp_signature_hex s = bytes_to_hex sig /\
    ed_verify key (signing_message (policy_digest p) (sp_signed_at_epoch_ms s) (sp_signer_id s)) sig = true.

Lemma verify_signed_policy_Ok p s : verify_signed_policy p s = Ok tt <-> exists key, signed_with p s key.
Proof.
  unfold verify_signed_policy. split.
  - intros H. open_results.
    repeat match goal with
    | H : parse_hex _ _ _ = Ok _ |- _ => apply provenance_hex_Ok in H as (? & ? & ?)
    | H : String.eqb _ _ = true |- _ => apply String.eqb_eq in H
    end. do 2 eexists. split_and!; done.
  - intros (key & sig & Hd & Hl & Hb & Hok & Hk & Hsl & Hsb & Hs & Hv).
    rewrite Hd, String.eqb_refl. cbn [negb refuse_if mbind result_bind].
    rewrite (proj2 (provenance_hex_Ok 32 _ _ key)) by done. cbn [mbind result_bind]. rewrite Hok. cbn [negb refuse_if mbind result_bind].
    rewrite (proj2 (provenance_hex_Ok 64 _ _ sig)) by done. cbn [mbind result_bind]. by rewrite Hv.
Qed.

(** The message determines what was signed. *)
Lemma signing_message_inj d t i d' t' i' : length d = 32%nat -> length d' = 32%nat -> is_u 64 t -> is_u 64 t' ->
  signing_message d t i = signing_message d' t' i' -> d = d' /\ t = t' /\ i = i'.
Proof.
  intros Hl Hl' Ht Ht' E. unfold signing_message in E. apply app_inv_head in E.
  apply app_inj_len in E as [-> E]; [|congruence]. apply app_inj_len in E as [Et Ei]; [|by rewrite !length_le_bytes].
  apply (le_bytes_inj_u 8) in Et; [|done..]. by apply string_bytes_inj in Ei.
Qed.

(** Policy signatures are exact. A signed policy is accepted under a
    trusted key exactly when it names the digest of the disclosed policy and
    carries a signature by that key over that digest, its time and its signer;
    a policy signed with a key is accepted under that key; and one signed
    message stands for one digest, time and signer. *)
Theorem signed_policy_exact p s key :
  (length key = 32%nat -> Forall is_byte key ->
   verify_signed_policy_with_key p s key = Ok tt <-> signed_with p s key) /\
  (forall seed signer time,
     verify_signed_policy_with_key p (sign_policy p seed signer time) (verifying_key seed) = Ok tt) /\
  (forall d t i d' t' i', length d = 32%nat -> length d' = 32%nat -> is_u 64 t -> is_u 64 t' ->
     signing_message d t i = signing_message d' t' i' -> d = d' /\ t = t' /\ i = i').
Proof.
  assert (forall k, length k = 32%nat -> Forall is_byte k -> forall s,
    verify_signed_policy_with_key p s k = Ok tt <-> signed_with p s k) as Hexact.
  { intros k Hl Hb s'. unfold verify_signed_policy_with_key. split.
    - intros H. open_results. match goal with H : String.eqb _ _ = true |- _ => apply String.eqb_eq in H as Ek end.
      match goal with H : verify_signed_policy _ _ = Ok _ |- _ => apply verify_signed_policy_Ok in H as (k' & Hk) end.
      pose proof Hk as (sig & _ & _ & Hb' & _ & Ek' & _). rewrite Ek in Ek'.
      apply bytes_to_hex_inj in Ek' as <-; done.
    - intros Hk. pose proof Hk as (sig & _ & _ & _ & _ & Ek & _). rewrite Ek, String.eqb_refl. cbn [negb refuse_if mbind result_bind].
      apply verify_signed_policy_Ok. by exists k. }
  split_and!; [intros; by apply Hexact| |exact signing_message_inj].
  intros seed signer time. apply Hexact; [apply verifying_key_length|apply verifying_key_bytes|].
  exists (ed_sign seed (signing_message (policy_digest p) time signer)). split_and!;
    [done|apply verifying_key_length|apply verifying_key_bytes|apply verifying_key_ok|done
    |apply ed_sign_length|apply ed_sign_bytes|done|apply ed_verify_sign].
Qed.
End provenance.
End Provenance.

(** ** [src/certificate.rs] *)

Module Certificates.
Import Provenance.

Definition CERTIFICATE_SCHEMA : string := "calybris-certificate-v1".

Record CertificateState := mkCertificateState {
  cst_step : Z;
  cst_state_digest_before_hex : string;
  cst_state_digest_after_hex : string
}.
#[export] Instance CertificateState_eq_dec : EqDecision CertificateState.
Proof. solve_decision. Defined.

Record CertificateWal := mkCertificateWal { cw_sequence : Z; cw_entry_hash : string }.
#[export] Instance CertificateWal_eq_dec : EqDecision CertificateWal.
Proof. solve_decision. Defined.

Record CertificateSignature := mkCertificateSignature {
  cs_signer_id : string;
  cs_signed_at_epoch_ms : Z;
  cs_public_key_hex : string;
  cs_signature_hex : string
}.

Record DecisionCertificate := mkDecisionCertificate {
  dc_schema_version : string;
  dc_policy_epoch : Z;
  dc_catalog_epoch : Z;
  dc_policy_digest_hex : string;
  dc_input_digest_hex : string;
  dc_decision_digest_hex : string;
  dc_replay_valid : bool;
  dc_state : option CertificateState;
  dc_wal : option CertificateWal;
  dc_signature : option CertificateSignature
}.

Record CertificateAnchors := mkCertificateAnchors {
  ca_state : option CertificateState;
  ca_wal : option CertificateWal;
  ca_signature : option CertificateSignature
}.

Inductive CertificateError :=
| UnknownCertificateSchema (schema : string)
| CertPolicyDigestMismatch
| CertInputDigestMismatch
| CertDecisionDigestMismatch
| CertReplayInvalid
| CertReplayFlagFalse.

Inductive CertificateScopedError :=
| CertificateRefused (e : CertificateError)
| CertStateAnchorMismatch
| CertWalAnchorMismatch.

Section certificate.
Context {HF : HashFunctions} {ED : Ed25519}.

Definition issue_certificate (snapshot : PolicySnapshot) (input : KernelInput) (decision : KernelDecision)
    (anchors : CertificateAnchors) : result VerifyResult DecisionCertificate :=
  match verify_decision snapshot input decision with
  | Valid =>
      Ok (mkDecisionCertificate CERTIFICATE_SCHEMA (kd_policy_epoch decision) (kd_catalog_epoch decision)
            (digest_to_hex (policy_digest snapshot)) (digest_to_hex (input_digest input))
            (digest_to_hex (decision_digest decision)) true
            (ca_state anchors) (ca_wal anchors) (ca_signature anchors))
  | error => Err error
  end.

Definition verify_certificate (certificate : DecisionCertificate) (snapshot : PolicySnapshot)
    (input : KernelInput) (decision : KernelDecision) : result CertificateError unit :=
  _ ← refuse_if (negb (String.eqb (dc_schema_version certificate) CERTIFICATE_SCHEMA))
        (UnknownCertificateSchema (dc_schema_version certificate));
  _ ← refuse_if (negb (dc_replay_valid certificate)) CertReplayFlagFalse;
  _ ← refuse_if (negb (dc_policy_epoch certificate =? kd_policy_epoch decision)
                 || negb (dc_catalog_epoch certificate =? kd_catalog_epoch decision)) CertReplayInvalid;
  _ ← refuse_if (negb (String.eqb (dc_policy_digest_hex certificate) (digest_to_hex (policy_digest snapshot))))
        CertPolicyDigestMismatch;
  _ ← refuse_if (negb (String.eqb (dc_input_digest_hex certificate) (digest_to_hex (input_digest input))))
        CertInputDigestMismatch;
  _ ← refuse_if (negb (String.eqb (dc_decision_digest_hex certificate) (digest_to_hex (decision_digest decision))))
        CertDecisionDigestMismatch;
  refuse_if (negb (is_valid (verify_decision snapshot input decision))) CertReplayInvalid.

Definition verify_certificate_scoped (certificate : DecisionCertificate) (snapshot : PolicySnapshot)
    (input : KernelInput) (decision : KernelDecision) (expected_state : option CertificateState)
    (expected_wal : option CertificateWal) : result CertificateScopedError unit :=
  _ ← map_err CertificateRefused (verify_certificate certificate snapshot input decision);
  _ ← refuse_if (negb (bool_decide (dc_state certificate = expected_state))) CertStateAnchorMismatch;
  refuse_if (negb (bool_decide (dc_wal certificate = expected_wal))) CertWalAnchorMismatch.

Definition verify_certificate_signature (certificate : DecisionCertificate) (snapshot : PolicySnapshot)
    (trusted_key : option (list Z)) : result ProvenanceError unit :=
  match dc_signature certificate with
  | None => Err BadSignature
  | Some signature =>
      let signed := mkSignedPolicy (dc_policy_digest_hex certificate) (cs_signer_id signature)
        (cs_signed_at_epoch_ms signature) (cs_public_key_hex signature) (cs_signature_hex signature) in
      match trusted_key with
      | Some key => verify_signed_policy_with_key snapshot signed key
      | None => verify_signed_policy snapshot signed
      end
  end.

Definition from_signed_policy (signed : SignedPolicy) : CertificateSignature :=
  mkCertificateSignature (sp_signer_id signed) (sp_signed_at_epoch_ms signed) (sp_public_key_hex signed)
    (sp_signature_hex signed).

(** Certificates are exact and fail closed. The scoped verifier
    accepts a certificate for a policy, input, decision and expected anchors
    exactly when the decision is the one prescribed and the certificate is,
    signature aside, the one [issue_certificate] makes for it with those
    anchors; and [issue_certificate] makes one exactly for prescribed
    decisions. *)
Theorem certificate_exact c p i d st wal :
  (verify_certificate_scoped c p i d st wal = Ok tt <->
   d = prescribe p i /\
   issue_certificate p i d (mkCertificateAnchors st wal (dc_signature c)) = Ok c) /\
  (is_ok (issue_certificate p i d (mkCertificateAnchors st wal (dc_signature c))) = true <-> d = prescribe p i).
Proof.
  unfold verify_certificate_scoped, verify_certificate, issue_certificate. rewrite verify_decision_spec. split; [split|].
  - intros H. open_results.
    repeat match goal with
    | H : String.eqb _ _ = true |- _ => apply String.eqb_eq in H
    | H : _ || _ = false |- _ => apply orb_false_iff in H as [?%negb_false_iff%Z.eqb_eq ?%negb_false_iff%Z.eqb_eq]
    | H : is_valid _ = true |- _ => revert H; case_bool_decide; [intros _|done]
    end. split; [done|]. f_equal. destruct c; cbn in *. congruence.
  - intros [-> H]. rewrite bool_decide_true in * by done. injection H as <-.
    cbn [dc_schema_version dc_replay_valid dc_policy_epoch dc_catalog_epoch dc_policy_digest_hex dc_input_digest_hex
      dc_decision_digest_hex dc_state dc_wal ca_state ca_wal].
    rewrite !String.eqb_refl, !Z.eqb_refl. cbn. by rewrite !bool_decide_true.
  - case_bool_decide as E; [by subst|]. split; [done|]. intros ->. done.
Qed.
End certificate.
End Certificates.

(** ** [src/proof.rs] *)

Module Envelope.

Definition PROOF_ENVELOPE_VERSION : Z := 1.

Inductive ProofEnvelopeValidationError :=
| ProofVersion (version : Z)
| EnvelopeReplayInvalid
| MissingAttachments
| InvalidWalSequence
| EnvelopeNonCanonicalDigest (field : string).

Record ProofEnvelope := mkProofEnvelope {
  pe_proof_version : Z;
  pe_policy_digest_hex : string;
  pe_input_digest_hex : string;
  pe_decision_digest_hex : string;
  pe_replay_valid : bool;
  pe_wal_sequence : option Z;
  pe_wal_entry_hash : option string;
  pe_budget_snapshot_version : option Z;
  pe_ledger_digest_hex : option string;
  pe_action : string;
  pe_reason : string;
  pe_selected_model_id : Z;
  pe_counterfactual_model_id : Z;
  pe_estimated_cost_microunits : Z;
  pe_expected_utility_microunits : Z
}.

Section envelope.
Context {HF : HashFunctions}.

Definition seal (snapshot : PolicySnapshot) (input : KernelInput) (decision : KernelDecision) : ProofEnvelope :=
  let replay := verify_decision snapshot input decision in
  mkProofEnvelope PROOF_ENVELOPE_VERSION (digest_to_hex (policy_digest snapshot))
    (digest_to_hex (input_digest input)) (digest_to_hex (decision_digest decision)) (is_valid replay)
    None None None None
    (KernelAction_display (kd_action decision)) (KernelReason_display (kd_reason decision))
    (kd_selected_model_id decision) (kd_counterfactual_model_id decision)
    (kd_estimated_cost_microunits decision) (kd_expected_utility_microunits decision).

(** The builder holds an envelope; [new] seals, [wal] and [budget] attach,
    [build] returns it. *)
Definition attach_wal (e : ProofEnvelope) (sequence : Z) (entry_hash : string) : ProofEnvelope :=
  let '(mkProofEnvelope v p i d r _ _ b l a re m c co u) := e in
  mkProofEnvelope v p i d r (Some sequence) (Some entry_hash) b l a re m c co u.
Definition attach_budget (e : ProofEnvelope) (snapshot_version : Z) (ledger_digest_hex : string) : ProofEnvelope :=
  let '(mkProofEnvelope v p i d r w h _ _ a re m c co u) := e in
  mkProofEnvelope v p i d r w h (Some snapshot_version) (Some ledger_digest_hex) a re m c co u.

Definition has_all_attachments (e : ProofEnvelope) : bool :=
  pe_replay_valid e && bool_decide (is_Some (pe_wal_sequence e)) && bool_decide (is_Some (pe_wal_entry_hash e))
  && bool_decide (is_Some (pe_budget_snapshot_version e)) && bool_decide (is_Some (pe_ledger_digest_hex e)).

Definition is_complete (e : ProofEnvelope) : bool := has_all_attachments e.

Definition digest_is_canonical (digest : string) : bool :=
  Nat.eqb (length (string_bytes digest)) 64
  && forallb (fun byte => is_ascii_digit byte || ((97 <=? byte) && (byte <=? 102))) (string_bytes digest).

Definition check_digests (fields : list (string * string)) : result ProofEnvelopeValidationError unit :=
  try_for_each (fun '(field, digest) =>
    refuse_if (negb (digest_is_canonical digest)) (EnvelopeNonCanonicalDigest field)) fields.

(** The two [expect]s are behind the attachment check, so the defaults are
    never used. *)
Definition validate_complete (e : ProofEnvelope) : result ProofEnvelopeValidationError unit :=
  _ ← refuse_if (negb (pe_proof_version e =? PROOF_ENVELOPE_VERSION)) (ProofVersion (pe_proof_version e));
  _ ← refuse_if (negb (pe_replay_valid e)) EnvelopeReplayInvalid;
  _ ← refuse_if (negb (has_all_attachments e)) MissingAttachments;
  _ ← refuse_if (bool_decide (pe_wal_sequence e = Some 0)) InvalidWalSequence;
  check_digests
    [("policy_digest_hex", pe_policy_digest_hex e); ("input_digest_hex", pe_input_digest_hex e);
     ("decision_digest_hex", pe_decision_digest_hex e);
     ("wal_entry_hash", default "" (pe_wal_entry_hash e));
     ("ledger_digest_hex", default "" (pe_ledger_digest_hex e))]%string.

Lemma digest_canonical_hex d : length d = 32%nat -> Forall is_byte d -> digest_is_canonical (bytes_to_hex d) = true.
Proof.
  intros Hl Hb. unfold digest_is_canonical. rewrite bytes_to_hex_bytes, hex_text_length, Hl by done. cbn [Nat.mul Nat.add Nat.eqb andb].
  clear Hl. induction Hb as [|b d Hb _ IH]; [done|]. cbn [flat_map app forallb]. rewrite IH.
  destruct (nibbles b Hb) as (H1 & H2 & _).
  assert (forall n, 0 <= n < 16 -> is_ascii_digit (hex_digit n) || ((97 <=? hex_digit n) && (hex_digit n <=? 102)) = true) as Hd.
  { intros n Hn. unfold is_ascii_digit, hex_digit. destruct (Z.ltb_spec n 10); lia. }
  by rewrite !Hd.
Qed.

(** A sealed envelope is complete exactly when it should be. The
    envelope of a decision with log and budget evidence attached validates
    exactly when the decision replays, the log sequence is positive and both
    attached digests are 64 lower-case hexadecimal characters. *)
Theorem sealed_envelope_validates p i d seq hash version ledger :
  validate_complete (attach_budget (attach_wal (seal p i d) seq hash) version ledger) = Ok tt <->
  d = prescribe p i /\ seq <> 0 /\ digest_is_canonical hash = true /\ digest_is_canonical ledger = true.
Proof.
  unfold validate_complete, seal. cbn [attach_wal attach_budget pe_proof_version pe_replay_valid pe_wal_sequence
    pe_wal_entry_hash pe_budget_snapshot_version pe_ledger_digest_hex pe_policy_digest_hex pe_input_digest_hex
    pe_decision_digest_hex has_all_attachments]. rewrite verify_decision_spec.
  assert (forall m, digest_is_canonical (digest_to_hex (sha256 m)) = true) as Hcan.
  { intros m. apply digest_canonical_hex; [apply sha256_length|apply sha256_bytes]. }
  unfold policy_digest, input_digest, decision_digest. unfold check_digests. cbn [try_for_each]. rewrite !Hcan.
  rewrite Z.eqb_refl. cbn [negb refuse_if mbind result_bind default].
  destruct (decide (prescribe p i = d)) as [E|E].
  2:{ rewrite (bool_decide_false (prescribe p i = d)) by done. cbn. split; [done|]. intros [-> _]. done. }
  rewrite (bool_decide_true (prescribe p i = d)) by done. cbn [is_valid negb refuse_if mbind result_bind].
  unfold has_all_attachments. cbn [pe_replay_valid pe_wal_sequence pe_wal_entry_hash pe_budget_snapshot_version pe_ledger_digest_hex].
  rewrite !(bool_decide_true (is_Some (Some _))) by (by eexists). cbn [andb negb refuse_if mbind result_bind].
  destruct (decide (seq = 0)) as [->|Hs].
  { rewrite bool_decide_true by done. cbn. split; [done|]. by intros (_ & ? & _). }
  rewrite bool_decide_false by congruence. cbn [refuse_if mbind result_bind from_option id].
  destruct (digest_is_canonical hash), (digest_is_canonical ledger); cbn;
    (split; [intros Hk; first [discriminate Hk|by split_and!]|by intros (_ & _ & ? & ?)]).
Qed.
End envelope.
End Envelope.

(** ** Concrete instances *)

Lemma signed_policy_exact_witness :
  @Provenance.verify_signed_policy_with_key toy_hash toy_ed25519 sample_policy
    (@Provenance.sign_policy toy_hash toy_ed25519 sample_policy (replicate 32 5) "risk-officer" 42)
    (toy_digest (replicate 32 5)) = Ok tt.
Proof.
  exact (proj1 (proj2 (@Provenance.signed_policy_exact toy_hash toy_ed25519 sample_policy
    (@Provenance.sign_policy toy_hash toy_ed25519 sample_policy (replicate 32 5) "risk-officer" 42)
    (toy_digest (replicate 32 5)))) (replicate 32 5) "risk-officer"%string 42).
Defined.
