(* ===== verification/Budget.v ===== *)
(** * The budget engine ([src/budget.rs])

    Tenant balances with reservations: reserve, commit, release, top up,
    snapshot and restore. Each public operation is a function from the engine
    to its result and the engine afterwards; the maps behind mutexes and the
    atomics are the fields of the state record. Atomic [fetch_add] and
    [fetch_sub] wrap, as the hardware does, and the theorems show that they
    never have to. *)

From S2P Require Import Prelude.
#[local] Open Scope Z_scope.

(** ** Results *)

Inductive BudgetReservation :=
| Reserved (remaining_microcents : Z)
| Insufficient (remaining_microcents required_microcents : Z)
| MissingTenant
| MissingReservation
| ExposureLimitExceeded (current_reserved_microcents max_reserved_microcents : Z)
| ReservationOverflow (current_reserved_microcents : Z).

Inductive TopUpResult :=
| ToppedUp (added_microcents new_initial_microcents remaining_microcents : Z)
| TopUpMissingTenant
| TopUpInvalidAmount
| TopUpOverflow.

Inductive BudgetConfigurationError :=
| NegativeAmount (field : string) (value : Z).

Inductive BudgetSettlement :=
| Committed (remaining_microcents actual_microcents : Z)
| Released (remaining_microcents returned_microcents : Z)
| Overrun (remaining_microcents : Z)
| InvalidAmount
| SettlementMissingReservation
| SettlementMissingTenant
| SettlementOverflow (remaining_microcents : Z).

Inductive ConservationStatus :=
| Balanced
| Violation (tenant_id : string) (delta_microcents : Z)
| AggregateOverflow.

Inductive RestoreError :=
| ActiveReservations (count : Z)
| GhostReservation (tenant_id : string) (reserved_microcents : Z)
| NegativeLedgerField (tenant_id field : string) (value : Z)
| ConservationViolation (status : ConservationStatus)
| DuplicateTenant (tenant_id : string).

Inductive LegacySnapshotMigrationError :=
| AlreadyRecoveryAware
| MigrationInvalidAllocatorFence (value max : Z)
| MigrationInvalidSnapshot (e : RestoreError).

Inductive RecoverySnapshotError :=
| LegacySnapshotRequiresMigration
| InvalidAllocatorFence (value : Z)
| InvalidSnapshot (e : RestoreError).

Inductive SnapshotAllocatorError := AllocatorExhausted.

(** ** State *)

Record ReservationRecord := mkReservationRecord {
  rr_tenant_id : string;
  rr_reserved_microcents : Z
}.

Record BudgetEngine := mkBudgetEngine {
  be_tenant_budgets : gmap string Z;
  be_initial_microcents : gmap string Z;
  be_committed_microcents : gmap string Z;
  be_reservations : gmap Z ReservationRecord;
  be_max_reserved_microcents : gmap string Z;
  be_tenant_reserved_totals : gmap string Z;
  be_next_id : Z;
  be_snapshot_version : Z;
  be_last_certified_committed_total : Z
}.

Record TenantLedger := mkTenantLedger {
  tl_tenant_id : string;
  tl_initial_microcents : Z;
  tl_remaining_microcents : Z;
  tl_reserved_microcents : Z;
  tl_committed_microcents : Z
}.

Record BudgetSnapshot := mkBudgetSnapshot {
  bs_version : Z;
  bs_tenants : list TenantLedger;
  bs_active_reservations : Z;
  bs_wal_high_watermark : option Z
}.

Definition RECOVERY_SNAPSHOT_TAG : Z := 2 ^ 63.
Definition RECOVERY_ALLOCATOR_MASK : Z := RECOVERY_SNAPSHOT_TAG - 1.

Definition BudgetEngine_new : BudgetEngine := mkBudgetEngine ∅ ∅ ∅ ∅ ∅ ∅ 1 0 0.

(** Field updates. *)
Definition set_budget (t : string) (v : Z) (e : BudgetEngine) : BudgetEngine :=
  let '(mkBudgetEngine b i c r m rt n s l) := e in mkBudgetEngine (<[t := v]> b) i c r m rt n s l.
Definition set_initial (t : string) (v : Z) (e : BudgetEngine) : BudgetEngine :=
  let '(mkBudgetEngine b i c r m rt n s l) := e in mkBudgetEngine b (<[t := v]> i) c r m rt n s l.
Definition set_committed (t : string) (v : Z) (e : BudgetEngine) : BudgetEngine :=
  let '(mkBudgetEngine b i c r m rt n s l) := e in mkBudgetEngine b i (<[t := v]> c) r m rt n s l.
Definition set_reserved_total (t : string) (v : Z) (e : BudgetEngine) : BudgetEngine :=
  let '(mkBudgetEngine b i c r m rt n s l) := e in mkBudgetEngine b i c r m (<[t := v]> rt) n s l.
Definition set_reservations (r : gmap Z ReservationRecord) (e : BudgetEngine) : BudgetEngine :=
  let '(mkBudgetEngine b i c _ m rt n s l) := e in mkBudgetEngine b i c r m rt n s l.
Definition set_max_reserved (m : gmap string Z) (e : BudgetEngine) : BudgetEngine :=
  let '(mkBudgetEngine b i c r _ rt n s l) := e in mkBudgetEngine b i c r m rt n s l.
Definition set_next_id (n : Z) (e : BudgetEngine) : BudgetEngine :=
  let '(mkBudgetEngine b i c r m rt _ s l) := e in mkBudgetEngine b i c r m rt n s l.
Definition set_snapshot_version (s : Z) (e : BudgetEngine) : BudgetEngine :=
  let '(mkBudgetEngine b i c r m rt n _ l) := e in mkBudgetEngine b i c r m rt n s l.
Definition set_certified (l : Z) (e : BudgetEngine) : BudgetEngine :=
  let '(mkBudgetEngine b i c r m rt n s _) := e in mkBudgetEngine b i c r m rt n s l.

(** ** The atomic primitives: new value, or why not *)

Definition debit_if_available (current amount : Z) : result Z Z :=
  if current <? amount then Err current else Ok (sub_i 64 current amount).

Definition credit_if_no_overflow (current amount : Z) : result unit Z :=
  ok_or (checked_i 64 (current + amount)) tt.

Inductive ReservedTotalError :=
| TotalOverflow
| ExposureExceeded (current : Z).

Definition try_increment_reserved_total (current amount max : Z) : result ReservedTotalError Z :=
  match checked_i 64 (current + amount) with
  | None => Err TotalOverflow
  | Some new_total =>
      if (0 <? max) && (max <? new_total) then Err (ExposureExceeded current) else Ok new_total
  end.

(** [fetch_update] of the allocator: the previous identifier and the next. *)
Definition allocate_id (next_id : Z) : option (Z * Z) :=
  if next_id <? RECOVERY_ALLOCATOR_MASK then Some (next_id, next_id + 1) else None.

(** ** Configuration *)

Definition try_set_max_reserved_microcents (tenant_id : string) (max_microcents : Z)
    (e : BudgetEngine) : result BudgetConfigurationError unit * BudgetEngine :=
  if max_microcents <? 0 then
    (Err (NegativeAmount "max_reserved_microcents" max_microcents), e)
  else if max_microcents =? 0 then
    (Ok tt, set_max_reserved (delete tenant_id (be_max_reserved_microcents e)) e)
  else
    (Ok tt, set_max_reserved (<[tenant_id := max_microcents]> (be_max_reserved_microcents e)) e).

Definition set_max_reserved_microcents (tenant_id : string) (max_microcents : Z)
    (e : BudgetEngine) : BudgetEngine :=
  snd (try_set_max_reserved_microcents tenant_id max_microcents e).

Definition try_ensure_tenant (tenant_id : string) (budget_microcents : Z) (e : BudgetEngine)
    : result BudgetConfigurationError unit * BudgetEngine :=
  if budget_microcents <? 0 then (Err (NegativeAmount "budget_microcents" budget_microcents), e)
  else
    match be_tenant_budgets e !! tenant_id with
    | Some _ => (Ok tt, e)
    | None =>
        (Ok tt, set_reserved_total tenant_id 0 (set_committed tenant_id 0
                  (set_initial tenant_id budget_microcents
                     (set_budget tenant_id budget_microcents e))))
    end.

Definition ensure_tenant (tenant_id : string) (budget_microcents : Z) (e : BudgetEngine)
    : BudgetEngine :=
  snd (try_ensure_tenant tenant_id budget_microcents e).

Definition top_up_tenant (tenant_id : string) (amount_microcents : Z) (e : BudgetEngine)
    : TopUpResult * BudgetEngine :=
  if amount_microcents <=? 0 then (TopUpInvalidAmount, e)
  else
    match be_tenant_budgets e !! tenant_id with
    | None => (TopUpMissingTenant, e)
    | Some budget =>
        match be_initial_microcents e !! tenant_id with
        | None => (TopUpMissingTenant, e)
        | Some current_initial =>
            match checked_i 64 (current_initial + amount_microcents) with
            | None => (TopUpOverflow, e)
            | Some new_initial =>
                match credit_if_no_overflow budget amount_microcents with
                | Err _ => (TopUpOverflow, e)
                | Ok remaining =>
                    (ToppedUp amount_microcents new_initial remaining,
                     set_initial tenant_id new_initial (set_budget tenant_id remaining e))
                end
            end
        end
    end.

(** ** Reserve, commit, release *)

Definition try_reserve (tenant_id : string) (cost_microcents : Z) (e : BudgetEngine)
    : BudgetReservation * option Z * BudgetEngine :=
  if cost_microcents <=? 0 then (Insufficient 0 cost_microcents, None, e)
  else
    match be_tenant_budgets e !! tenant_id, be_tenant_reserved_totals e !! tenant_id with
    | Some budget, Some reserved_total =>
        let max_reserved := default 0 (be_max_reserved_microcents e !! tenant_id) in
        match try_increment_reserved_total reserved_total cost_microcents max_reserved with
        | Err TotalOverflow => (ReservationOverflow reserved_total, None, e)
        | Err (ExposureExceeded current) => (ExposureLimitExceeded current max_reserved, None, e)
        | Ok total1 =>
            match allocate_id (be_next_id e) with
            | None =>
                let total2 := sub_i 64 total1 cost_microcents in
                (ReservationOverflow total2, None, set_reserved_total tenant_id total2 e)
            | Some (id, next_id) =>
                let e1 := set_next_id next_id (set_reserved_total tenant_id total1 e) in
                match debit_if_available budget cost_microcents with
                | Err current =>
                    (Insufficient current cost_microcents, None,
                     set_reserved_total tenant_id (sub_i 64 total1 cost_microcents) e1)
                | Ok remaining =>
                    (Reserved remaining, Some id,
                     set_reservations
                       (<[id := mkReservationRecord tenant_id cost_microcents]> (be_reservations e1))
                       (set_budget tenant_id remaining e1))
                end
            end
        end
    | _, _ => (MissingTenant, None, e)
    end.

(** [total.fetch_sub(amount)] when the tenant has a reserved total. *)
Definition sub_reserved_total (tenant_id : string) (amount : Z) (e : BudgetEngine) : BudgetEngine :=
  match be_tenant_reserved_totals e !! tenant_id with
  | Some total => set_reserved_total tenant_id (sub_i 64 total amount) e
  | None => e
  end.

Definition commit (reservation_id actual_microcents : Z) (e : BudgetEngine)
    : BudgetSettlement * BudgetEngine :=
  if actual_microcents <? 0 then (InvalidAmount, e)
  else
    match be_reservations e !! reservation_id with
    | None => (SettlementMissingReservation, e)
    | Some reservation =>
        let tenant_key := rr_tenant_id reservation in
        match be_tenant_budgets e !! tenant_key with
        | None => (SettlementMissingTenant, e)
        | Some budget =>
            let current_committed := default 0 (be_committed_microcents e !! tenant_key) in
            match checked_i 64 (current_committed + actual_microcents) with
            | None => (SettlementOverflow budget, e)
            | Some new_committed =>
                let delta := sub_i 64 actual_microcents (rr_reserved_microcents reservation) in
                match (if 0 <? delta then debit_if_available budget delta else Ok budget) with
                | Err remaining => (Overrun remaining, e)
                | Ok budget1 =>
                    let budget2 :=
                      if delta <? 0 then add_i 64 budget1 (sub_i 64 0 delta) else budget1 in
                    (Committed budget2 actual_microcents,
                     sub_reserved_total tenant_key (rr_reserved_microcents reservation)
                       (set_budget tenant_key budget2
                          (set_committed tenant_key new_committed
                             (set_reservations (delete reservation_id (be_reservations e)) e))))
                end
            end
        end
    end.

Definition release (reservation_id : Z) (e : BudgetEngine) : BudgetSettlement * BudgetEngine :=
  match be_reservations e !! reservation_id with
  | None => (SettlementMissingReservation, e)
  | Some reservation =>
      let tenant_key := rr_tenant_id reservation in
      match be_tenant_budgets e !! tenant_key with
      | None => (SettlementMissingTenant, e)
      | Some budget =>
          let returned := rr_reserved_microcents reservation in
          let remaining := add_i 64 budget returned in
          (Released remaining returned,
           set_budget tenant_key remaining
             (sub_reserved_total tenant_key returned
                (set_reservations (delete reservation_id (be_reservations e)) e)))
      end
  end.

(** ** Ledger queries *)

Definition initial_microcents (tenant_id : string) (e : BudgetEngine) : option Z :=
  be_initial_microcents e !! tenant_id.
Definition committed_microcents (tenant_id : string) (e : BudgetEngine) : option Z :=
  be_committed_microcents e !! tenant_id.
Definition reserved_microcents (tenant_id : string) (e : BudgetEngine) : Z :=
  default 0 (be_tenant_reserved_totals e !! tenant_id).
Definition remaining_microcents (tenant_id : string) (e : BudgetEngine) : option Z :=
  be_tenant_budgets e !! tenant_id.
Definition tenant_count (e : BudgetEngine) : Z := Z.of_nat (size (be_tenant_budgets e)).
Definition active_reservations (e : BudgetEngine) : Z := Z.of_nat (size (be_reservations e)).

(** The checked [i128] accumulation over all tenants. *)
Definition try_total_committed_microcents (e : BudgetEngine) : result ConservationStatus Z :=
  let total :=
    fold_left
      (fun acc amount => acc ≫= fun total => checked_i 128 (total + amount))
      (map snd (map_to_list (be_committed_microcents e))) (Some 0) in
  match total with
  | None => Err AggregateOverflow
  | Some total => ok_or (checked_i 64 total) AggregateOverflow
  end.

Definition total_committed_microcents (e : BudgetEngine) : Z :=
  match try_total_committed_microcents e with Ok t => t | Err _ => imax 64 end.

Definition committed_since_last_certificate (e : BudgetEngine) : Z :=
  saturate_i 64 (total_committed_microcents e - be_last_certified_committed_total e).

Definition rotate_certificate_baseline (snapshot_total_committed : Z) (e : BudgetEngine)
    : Z * BudgetEngine :=
  let baseline := be_last_certified_committed_total e in
  if snapshot_total_committed <=? baseline then (0, e)
  else (sub_i 64 snapshot_total_committed baseline, set_certified snapshot_total_committed e).

(** ** Conservation of a frozen snapshot *)

Fixpoint conservation_rows (rows : list TenantLedger) : ConservationStatus :=
  match rows with
  | [] => Balanced
  | ledger :: rest =>
      match checked_i 64 (tl_remaining_microcents ledger + tl_reserved_microcents ledger)
            ≫= fun v => checked_i 64 (v + tl_committed_microcents ledger) with
      | None => AggregateOverflow
      | Some sum =>
          if negb (sum =? tl_initial_microcents ledger) then
            match checked_i 64 (sum - tl_initial_microcents ledger) with
            | None => AggregateOverflow
            | Some delta => Violation (tl_tenant_id ledger) delta
            end
          else if tl_remaining_microcents ledger <? 0 then
            Violation (tl_tenant_id ledger) (tl_remaining_microcents ledger)
          else conservation_rows rest
      end
  end.

Definition conservation_status_for_snapshot (snapshot : BudgetSnapshot) : ConservationStatus :=
  conservation_rows (bs_tenants snapshot).

(** ** Snapshots *)

(** [a.tenant_id.cmp(&b.tenant_id)]: byte order. *)
Definition ledger_le (a b : TenantLedger) : Prop :=
  Is_true (String.leb (tl_tenant_id a) (tl_tenant_id b)).
#[export] Instance ledger_le_dec a b : Decision (ledger_le a b).
Proof. unfold ledger_le. apply _. Defined.

Definition ledger_row (e : BudgetEngine) (tb : string * Z) : TenantLedger :=
  {| tl_tenant_id := fst tb;
     tl_initial_microcents := default 0 (be_initial_microcents e !! fst tb);
     tl_remaining_microcents := snd tb;
     tl_reserved_microcents := default 0 (be_tenant_reserved_totals e !! fst tb);
     tl_committed_microcents := default 0 (be_committed_microcents e !! fst tb) |}.

Definition try_snapshot (e : BudgetEngine)
    : result SnapshotAllocatorError BudgetSnapshot * BudgetEngine :=
  let tenants :=
    merge_sort ledger_le (map (ledger_row e) (map_to_list (be_tenant_budgets e))) in
  match allocate_id (be_next_id e) with
  | None => (Err AllocatorExhausted, e)
  | Some (previous_id, next_id) =>
      let version := Z.lor RECOVERY_SNAPSHOT_TAG (add_u 64 previous_id 1) in
      (Ok {| bs_version := version; bs_tenants := tenants;
             bs_active_reservations := Z.of_nat (size (be_reservations e));
             bs_wal_high_watermark := None |},
       set_snapshot_version version (set_next_id next_id e))
  end.

(** [snapshot], which panics when the allocator is exhausted: the [None] here. *)
Definition BudgetEngine_snapshot (e : BudgetEngine) : option BudgetSnapshot * BudgetEngine :=
  match try_snapshot e with
  | (Ok snap, e') => (Some snap, e')
  | (Err _, e') => (None, e')
  end.

(** [verify_conservation]; the source panics when the allocator is exhausted,
    which is the [None] here. *)
Definition verify_conservation (e : BudgetEngine) : option ConservationStatus * BudgetEngine :=
  let '(snap, e') := BudgetEngine_snapshot e in
  (conservation_status_for_snapshot <$> snap, e').

(** ** Restore *)

Definition allocator_from_snapshot_version (version : Z) : result RestoreError Z :=
  let next_id := Z.land version RECOVERY_ALLOCATOR_MASK in
  if (Z.land version RECOVERY_SNAPSHOT_TAG =? 0) || (next_id =? 0) then
    Err (NegativeLedgerField "<snapshot-metadata>" "recovery-aware version tag"
           (default (imax 64) (checked_i 64 version)))
  else Ok next_id.

Fixpoint validate_rows (seen : gset string) (rows : list TenantLedger) : result RestoreError unit :=
  match rows with
  | [] => Ok tt
  | ledger :: rest =>
      if bool_decide (tl_tenant_id ledger ∈ seen) then Err (DuplicateTenant (tl_tenant_id ledger))
      else if negb (tl_reserved_microcents ledger =? 0) then
        Err (GhostReservation (tl_tenant_id ledger) (tl_reserved_microcents ledger))
      else if tl_remaining_microcents ledger <? 0 then
        Err (NegativeLedgerField (tl_tenant_id ledger) "remaining_microcents"
               (tl_remaining_microcents ledger))
      else if tl_initial_microcents ledger <? 0 then
        Err (NegativeLedgerField (tl_tenant_id ledger) "initial_microcents"
               (tl_initial_microcents ledger))
      else if tl_committed_microcents ledger <? 0 then
        Err (NegativeLedgerField (tl_tenant_id ledger) "committed_microcents"
               (tl_committed_microcents ledger))
      else validate_rows ({[tl_tenant_id ledger]} ∪ seen) rest
  end.

Definition validate_snapshot_ledger (snap : BudgetSnapshot) : result RestoreError unit :=
  if 0 <? bs_active_reservations snap then Err (ActiveReservations (bs_active_reservations snap))
  else
    _ ← validate_rows ∅ (bs_tenants snap);
    match conservation_status_for_snapshot snap with
    | Balanced => Ok tt
    | status => Err (ConservationViolation status)
    end.

Definition validate_snapshot_for_restore (snap : BudgetSnapshot) : result RestoreError unit :=
  _ ← allocator_from_snapshot_version (bs_version snap);
  validate_snapshot_ledger snap.

Definition migrate_legacy_snapshot (snapshot : BudgetSnapshot) (trusted_next_reservation_id : Z)
    : result LegacySnapshotMigrationError BudgetSnapshot :=
  if negb (Z.land (bs_version snapshot) RECOVERY_SNAPSHOT_TAG =? 0) then Err AlreadyRecoveryAware
  else if (trusted_next_reservation_id =? 0)
          || (RECOVERY_ALLOCATOR_MASK <? trusted_next_reservation_id) then
    Err (MigrationInvalidAllocatorFence trusted_next_reservation_id RECOVERY_ALLOCATOR_MASK)
  else
    _ ← map_err MigrationInvalidSnapshot (validate_snapshot_ledger snapshot);
    Ok {| bs_version := Z.lor RECOVERY_SNAPSHOT_TAG trusted_next_reservation_id;
          bs_tenants := bs_tenants snapshot;
          bs_active_reservations := bs_active_reservations snapshot;
          bs_wal_high_watermark := bs_wal_high_watermark snapshot |}.

(** The rebuild loop: every row inserted into the four tenant maps. *)
Definition restore_row (e : BudgetEngine) (ledger : TenantLedger) : BudgetEngine :=
  set_reserved_total (tl_tenant_id ledger) (tl_reserved_microcents ledger)
    (set_committed (tl_tenant_id ledger) (tl_committed_microcents ledger)
       (set_initial (tl_tenant_id ledger) (tl_initial_microcents ledger)
          (set_budget (tl_tenant_id ledger) (tl_remaining_microcents ledger) e))).

Definition restore_from_snapshot (snap : BudgetSnapshot) (e : BudgetEngine)
    : result RestoreError unit * BudgetEngine :=
  match validate_snapshot_for_restore snap with
  | Err err => (Err err, e)
  | Ok _ =>
      match allocator_from_snapshot_version (bs_version snap) with
      | Err err => (Err err, e)
      | Ok next_reservation_id =>
          let restored_committed_total :=
            default (imax 64)
              (fold_left
                 (fun acc tenant =>
                    acc ≫= fun total => checked_i 64 (total + tl_committed_microcents tenant))
                 (bs_tenants snap) (Some 0)) in
          let cleared :=
            mkBudgetEngine ∅ ∅ ∅ ∅ ∅ ∅ (be_next_id e) (be_snapshot_version e)
              (be_last_certified_committed_total e) in
          let rebuilt := fold_left restore_row (bs_tenants snap) cleared in
          (Ok tt,
           set_certified restored_committed_total
             (set_snapshot_version (bs_version snap)
                (set_next_id next_reservation_id rebuilt)))
      end
  end.

Definition restore_from_recovery_snapshot (snap : BudgetSnapshot) (e : BudgetEngine)
    : result RecoverySnapshotError unit * BudgetEngine :=
  if Z.land (bs_version snap) RECOVERY_SNAPSHOT_TAG =? 0 then
    (Err LegacySnapshotRequiresMigration, e)
  else
    let fence := Z.land (bs_version snap) RECOVERY_ALLOCATOR_MASK in
    if fence =? 0 then (Err (InvalidAllocatorFence fence), e)
    else
      match validate_snapshot_ledger snap with
      | Err err => (Err (InvalidSnapshot err), e)
      | Ok _ =>
          let '(r, e') := restore_from_snapshot snap e in (map_err InvalidSnapshot r, e')
      end.

(** ** Owned reservations ([Reservation], feature [preview]) *)

Record Reservation := mkReservation {
  rv_id : Z;
  rv_amount_microcents : Z
}.

Definition reserve_owned (tenant_id : string) (cost_microcents : Z) (e : BudgetEngine)
    : result BudgetReservation Reservation * BudgetEngine :=
  match try_reserve tenant_id cost_microcents e with
  | (Reserved _, Some id, e') => (Ok (mkReservation id cost_microcents), e')
  | (refused, _, e') => (Err refused, e')
  end.

Definition Reservation_commit (r : Reservation) (actual_microcents : Z) (e : BudgetEngine)
    : result (BudgetSettlement * Reservation) BudgetSettlement * BudgetEngine :=
  match commit (rv_id r) actual_microcents e with
  | (Overrun n, e') => (Err (Overrun n, r), e')
  | (settled, e') => (Ok settled, e')
  end.

Definition Reservation_release (r : Reservation) (e : BudgetEngine)
    : BudgetSettlement * BudgetEngine :=
  release (rv_id r) e.
