(* ===== verification/BudgetInv.v ===== *)
(** * The ledger invariant and its preservation

    For every tenant the spendable balance, the open holds and the lifetime
    spend add up to what was granted; the running total of holds is the sum
    of the open reservations; nothing is negative and nothing leaves [i64].
    Every operation of the engine preserves this, from the empty engine on. *)

From S2P Require Import Prelude Budget.
#[local] Open Scope Z_scope.

(** ** The open holds of a tenant *)

Definition hold_for (t : string) (r : ReservationRecord) : Z :=
  if bool_decide (rr_tenant_id r = t) then rr_reserved_microcents r else 0.

Definition held (rs : gmap Z ReservationRecord) (t : string) : Z :=
  map_fold (fun _ r acc => hold_for t r + acc) 0 rs.

Lemma held_empty t : held ∅ t = 0.
Proof. apply map_fold_empty. Qed.

Lemma held_insert rs id r t :
  rs !! id = None -> held (<[id := r]> rs) t = hold_for t r + held rs t.
Proof.
  intros H. unfold held. rewrite (map_fold_insert_L (fun _ r acc => hold_for t r + acc)); [done| |done].
  intros. lia.
Qed.

Lemma held_delete rs id r t :
  rs !! id = Some r -> held (delete id rs) t = held rs t - hold_for t r.
Proof.
  intros H. rewrite <- (insert_delete_id rs id r H) at 2.
  rewrite held_insert by apply lookup_delete_eq. lia.
Qed.

Lemma hold_for_eq r : hold_for (rr_tenant_id r) r = rr_reserved_microcents r.
Proof. unfold hold_for. by rewrite bool_decide_eq_true_2. Qed.

Lemma hold_for_ne t r : rr_tenant_id r <> t -> hold_for t r = 0.
Proof. intros. unfold hold_for. by rewrite bool_decide_eq_false_2. Qed.

(** A single hold is part of the total. *)
Lemma held_ge rs id r :
  rs !! id = Some r -> (forall i x, rs !! i = Some x -> 0 < rr_reserved_microcents x) ->
  rr_reserved_microcents r <= held rs (rr_tenant_id r).
Proof.
  intros H Hpos.
  assert (forall rs' t, (forall i x, rs' !! i = Some x -> 0 < rr_reserved_microcents x) -> 0 <= held rs' t) as Hnn.
  { intros rs' t. induction rs' as [|i x rs' Hn IH] using map_ind; intros Hp; [by rewrite held_empty|].
    rewrite held_insert by done. unfold hold_for.
    assert (0 < rr_reserved_microcents x) by (apply (Hp i); apply lookup_insert_eq).
    assert (0 <= held rs' t).
    { apply IH. intros j y Hy. apply (Hp j). rewrite lookup_insert_ne; [done|]. intros ->. congruence. }
    case_bool_decide; lia. }
  pose proof (held_delete rs id r (rr_tenant_id r) H) as E. rewrite hold_for_eq in E.
  enough (0 <= held (delete id rs) (rr_tenant_id r)) by lia.
  apply Hnn. intros i x Hx. apply (Hpos i). apply lookup_delete_Some in Hx. tauto.
Qed.

(** ** The invariant *)

(** The ledger of one tenant: remaining [r], holds [v], spend [c], grant [n]. *)
Definition ledger_ok (rs : gmap Z ReservationRecord) (t : string) (r v c n : Z) : Prop :=
  0 <= r /\ 0 <= v /\ 0 <= c /\ v = held rs t /\ r + v + c = n /\ n <= imax 64.

Definition tenant_ok (e : BudgetEngine) (t : string) : Prop :=
  match be_tenant_budgets e !! t, be_tenant_reserved_totals e !! t,
        be_committed_microcents e !! t, be_initial_microcents e !! t with
  | Some r, Some v, Some c, Some n => ledger_ok (be_reservations e) t r v c n
  | None, None, None, None => held (be_reservations e) t = 0
  | _, _, _, _ => False
  end.

Definition reservation_ok (e : BudgetEngine) (id : Z) (r : ReservationRecord) : Prop :=
  1 <= id < be_next_id e /\ 0 < rr_reserved_microcents r /\
  is_Some (be_tenant_budgets e !! rr_tenant_id r).

Record engine_inv (e : BudgetEngine) : Prop := {
  inv_tenants : forall t, tenant_ok e t;
  inv_reservations : forall id r, be_reservations e !! id = Some r -> reservation_ok e id r;
  inv_next_id : 1 <= be_next_id e <= RECOVERY_ALLOCATOR_MASK;
  inv_caps : forall t m, be_max_reserved_microcents e !! t = Some m -> 0 < m
}.

(** A registered tenant's ledger, with its lookups. *)
Lemma tenant_ledger e t b :
  engine_inv e -> be_tenant_budgets e !! t = Some b ->
  exists v c n, be_tenant_reserved_totals e !! t = Some v /\ be_committed_microcents e !! t = Some c /\
    be_initial_microcents e !! t = Some n /\ ledger_ok (be_reservations e) t b v c n.
Proof.
  intros Hinv Hb. pose proof (inv_tenants e Hinv t) as H. unfold tenant_ok in H. rewrite Hb in H.
  destruct (be_tenant_reserved_totals e !! t) as [v|]; [|done]. destruct (be_committed_microcents e !! t) as [c|]; [|done].
  destruct (be_initial_microcents e !! t) as [n|]; [|done]. by exists v, c, n.
Qed.

(** The invariant after an update that only touches tenant [t] is the
    invariant of [t]'s new ledger. *)
Lemma engine_inv_update e e' t r v c n :
  engine_inv e ->
  be_tenant_budgets e' = <[t := r]> (be_tenant_budgets e) ->
  be_tenant_reserved_totals e' = <[t := v]> (be_tenant_reserved_totals e) ->
  be_committed_microcents e' = <[t := c]> (be_committed_microcents e) ->
  be_initial_microcents e' = <[t := n]> (be_initial_microcents e) ->
  be_max_reserved_microcents e' = be_max_reserved_microcents e ->
  1 <= be_next_id e' <= RECOVERY_ALLOCATOR_MASK ->
  (forall t', t' <> t -> held (be_reservations e') t' = held (be_reservations e) t') ->
  (forall id x, be_reservations e' !! id = Some x -> reservation_ok e' id x) ->
  ledger_ok (be_reservations e') t r v c n ->
  engine_inv e'.
Proof.
  intros Hinv Eb Et Ec Ei Em Hn Hh Hr Hl. split; [|done|done|rewrite Em; apply Hinv].
  intros t'. unfold tenant_ok. rewrite Eb, Et, Ec, Ei, !lookup_insert.
  case_decide as E; [by subst|]. pose proof (inv_tenants e Hinv t') as H.
  unfold tenant_ok, ledger_ok in *. by rewrite (Hh t') by congruence.
Qed.

(** Updates of the fields the invariant does not mention. *)
Lemma engine_inv_same e e' :
  engine_inv e ->
  be_tenant_budgets e' = be_tenant_budgets e ->
  be_tenant_reserved_totals e' = be_tenant_reserved_totals e ->
  be_committed_microcents e' = be_committed_microcents e ->
  be_initial_microcents e' = be_initial_microcents e ->
  be_reservations e' = be_reservations e ->
  (forall t m, be_max_reserved_microcents e' !! t = Some m -> 0 < m) ->
  be_next_id e <= be_next_id e' <= RECOVERY_ALLOCATOR_MASK ->
  engine_inv e'.
Proof.
  intros Hinv Eb Et Ec Ei Er Hm Hn. pose proof (inv_next_id e Hinv). split; [| |lia|done].
  - intros t. unfold tenant_ok. rewrite Eb, Et, Ec, Ei, Er. apply Hinv.
  - intros id r. unfold reservation_ok. rewrite Er, Eb. intros H1.
    destruct (inv_reservations e Hinv id r H1) as (?&?&?). split_and!; try done; lia.
Qed.

(** ** The empty engine *)

Lemma engine_inv_new : engine_inv BudgetEngine_new.
Proof.
  split.
  - intros t. unfold tenant_ok. simpl. rewrite !lookup_empty. apply held_empty.
  - intros id r. simpl. by rewrite lookup_empty.
  - by_compute.
  - intros t m. simpl. by rewrite lookup_empty.
Qed.

(** ** Every operation preserves the invariant *)

(** Reduce the projections of an updated record. *)
Ltac engine_simpl := cbn [be_tenant_budgets be_initial_microcents be_committed_microcents
  be_reservations be_max_reserved_microcents be_tenant_reserved_totals be_next_id
  be_snapshot_version be_last_certified_committed_total set_budget set_initial set_committed
  set_reserved_total set_reservations set_max_reserved set_next_id set_snapshot_version
  set_certified] in *.

Lemma engine_inv_try_set_max_reserved t m e :
  engine_inv e -> engine_inv (snd (try_set_max_reserved_microcents t m e)).
Proof.
  intros Hinv. pose proof (inv_next_id e Hinv) as Hn. pose proof (inv_caps e Hinv) as Hc.
  unfold try_set_max_reserved_microcents. destruct (Z.ltb_spec m 0); [done|].
  destruct (Z.eqb_spec m 0); cbn [snd];
    (apply (engine_inv_same e); try by destruct e); destruct e; engine_simpl; try lia; intros t' m'.
  - intros [_ H']%lookup_delete_Some. by apply (Hc t').
  - intros [[_ <-]|[_ H']]%lookup_insert_Some; [lia|by apply (Hc t')].
Qed.

Lemma engine_inv_try_ensure_tenant t b e :
  b <= imax 64 -> engine_inv e -> engine_inv (snd (try_ensure_tenant t b e)).
Proof.
  intros Hb Hinv. pose proof (inv_next_id e Hinv) as Hn.
  unfold try_ensure_tenant. destruct (Z.ltb_spec b 0); [done|].
  destruct (be_tenant_budgets e !! t) eqn:Et; cbn [snd]; [done|].
  pose proof (inv_tenants e Hinv t) as Ht. unfold tenant_ok in Ht. rewrite Et in Ht.
  assert (held (be_reservations e) t = 0) as Hh by (repeat case_match; done).
  pose proof (inv_reservations e Hinv) as Hr.
  apply (engine_inv_update e _ t b 0 0 b); try (by destruct e); destruct e; engine_simpl; try done.
  - intros id x Hx. destruct (Hr id x Hx) as (? & ? & ?). unfold reservation_ok. engine_simpl.
    split_and!; try done; try lia. by apply lookup_insert_is_Some'; right.
  - unfold ledger_ok. rewrite Hh. lia.
Qed.

Lemma engine_inv_top_up t a e : engine_inv e -> engine_inv (snd (top_up_tenant t a e)).
Proof.
  intros Hinv. unfold top_up_tenant. destruct (Z.leb_spec a 0); [done|].
  destruct (be_tenant_budgets e !! t) as [b|] eqn:Eb; [|done].
  destruct (tenant_ledger e t b Hinv Eb) as (v & c & n & Ev & Ec & En & Hl). rewrite En.
  destruct (checked_i 64 (n + a)) as [n'|] eqn:Hn'; [|done].
  apply checked_i_Some in Hn' as [-> Hn'].
  unfold credit_if_no_overflow. destruct (checked_i 64 (b + a)) as [b'|] eqn:Hb'; [|done].
  apply checked_i_Some in Hb' as [-> _]. cbn [ok_or snd].
  pose proof (inv_reservations e Hinv) as Hr. pose proof (inv_next_id e Hinv) as Hx.
  apply (engine_inv_update e _ t (b + a) v c (n + a)); try done; destruct e; engine_simpl; try done.
  - by rewrite insert_id.
  - by rewrite insert_id.
  - intros id x Hid. destruct (Hr id x Hid) as (? & ? & ?). unfold reservation_ok. engine_simpl.
    split_and!; try done; try lia. by apply lookup_insert_is_Some'; right.
  - unfold ledger_ok, is_i in *. lia.
Qed.

(** ** Reserve, commit and release without wrap-around

    Under the invariant the wrapping atomics compute the exact sums, and the
    compensating updates of the failure paths restore the engine. *)

Lemma sub_i_exact a b : is_i 64 (a - b) -> sub_i 64 a b = a - b.
Proof. intros. by apply wrap_i_small. Qed.

Lemma add_i_exact a b : is_i 64 (a + b) -> add_i 64 a b = a + b.
Proof. intros. by apply wrap_i_small. Qed.

Lemma set_reserved_total_id t v e :
  be_tenant_reserved_totals e !! t = Some v -> set_reserved_total t v e = e.
Proof. destruct e; simpl. intros. by rewrite insert_id. Qed.

Lemma set_reserved_total_twice t v w e :
  set_reserved_total t v (set_reserved_total t w e) = set_reserved_total t v e.
Proof. destruct e; simpl. by rewrite insert_insert_eq. Qed.

Lemma set_next_id_reserved_total n t v e :
  set_reserved_total t v (set_next_id n e) = set_next_id n (set_reserved_total t v e).
Proof. by destruct e. Qed.

(** The engine after a granted reservation. *)
Definition with_hold (t : string) (c : Z) (e : BudgetEngine) : BudgetEngine :=
  {| be_tenant_budgets := <[t := default 0 (be_tenant_budgets e !! t) - c]> (be_tenant_budgets e);
     be_initial_microcents := be_initial_microcents e;
     be_committed_microcents := be_committed_microcents e;
     be_reservations := <[be_next_id e := mkReservationRecord t c]> (be_reservations e);
     be_max_reserved_microcents := be_max_reserved_microcents e;
     be_tenant_reserved_totals :=
       <[t := held (be_reservations e) t + c]> (be_tenant_reserved_totals e);
     be_next_id := be_next_id e + 1;
     be_snapshot_version := be_snapshot_version e;
     be_last_certified_committed_total := be_last_certified_committed_total e |}.

Lemma try_reserve_exact t c e :
  engine_inv e -> is_i 64 c ->
  try_reserve t c e =
    if c <=? 0 then (Insufficient 0 c, None, e)
    else
      match be_tenant_budgets e !! t with
      | None => (MissingTenant, None, e)
      | Some b =>
          let v := held (be_reservations e) t in
          let m := default 0 (be_max_reserved_microcents e !! t) in
          if imax 64 <? v + c then (ReservationOverflow v, None, e)
          else if (0 <? m) && (m <? v + c) then (ExposureLimitExceeded v m, None, e)
          else if RECOVERY_ALLOCATOR_MASK <=? be_next_id e then (ReservationOverflow v, None, e)
          else if b <? c then (Insufficient b c, None, set_next_id (be_next_id e + 1) e)
          else (Reserved (b - c), Some (be_next_id e), with_hold t c e)
      end.
Proof.
  intros Hinv Hc. unfold try_reserve. destruct (Z.leb_spec c 0) as [|Hpos]; [done|].
  destruct (be_tenant_budgets e !! t) as [b|] eqn:Eb; [|done].
  destruct (tenant_ledger e t b Hinv Eb) as (v & sp & n & Ev & Es & En & Hl). rewrite Ev.
  destruct Hl as (Hb & Hv & Hs & -> & Hsum & Hmax). cbv zeta.
  unfold try_increment_reserved_total, checked_i, in_i, is_i in *.
  destruct (Z.leb_spec (imin 64) (held (be_reservations e) t + c)); [|int_lia].
  destruct (Z.leb_spec (held (be_reservations e) t + c) (imax 64)) as [Hin|Hout]; cbn [andb];
    [|by destruct (Z.ltb_spec (imax 64) (held (be_reservations e) t + c)); [|lia]].
  destruct (Z.ltb_spec (imax 64) (held (be_reservations e) t + c)); [lia|].
  destruct (_ && _); [done|].
  rewrite sub_i_exact by int_lia. replace (_ + c - c) with (held (be_reservations e) t) by lia.
  unfold allocate_id. rewrite Z.ltb_antisym.
  destruct (RECOVERY_ALLOCATOR_MASK <=? be_next_id e) eqn:En'; cbn [negb].
  { by rewrite set_reserved_total_id. }
  unfold debit_if_available. destruct (Z.ltb_spec b c).
  - by rewrite set_next_id_reserved_total, set_reserved_total_twice, set_reserved_total_id.
  - rewrite sub_i_exact by int_lia. destruct e; unfold with_hold; engine_simpl. by rewrite Eb.
Qed.

Lemma engine_inv_try_reserve t c e :
  is_i 64 c -> engine_inv e -> engine_inv (snd (try_reserve t c e)).
Proof.
  intros Hc Hinv. rewrite try_reserve_exact by done.
  pose proof (inv_next_id e Hinv) as Hn.
  destruct (Z.leb_spec c 0); [done|]. destruct (be_tenant_budgets e !! t) as [b|] eqn:Eb; [|done].
  destruct (tenant_ledger e t b Hinv Eb) as (v & sp & n & Ev & Es & En & Hl). cbv zeta.
  destruct (_ <? _); [done|]. destruct (_ && _); [done|].
  destruct (Z.leb_spec RECOVERY_ALLOCATOR_MASK (be_next_id e)) as [|Hfree]; [done|].
  destruct (Z.ltb_spec b c); cbn [snd].
  { apply (engine_inv_same e); try by destruct e.
    - destruct e; engine_simpl. apply Hinv.
    - destruct e; engine_simpl. lia. }
  pose proof (inv_reservations e Hinv) as Hr. destruct Hl as (? & ? & ? & -> & ? & ?).
  assert (be_reservations e !! be_next_id e = None) as Hfresh.
  { destruct (be_reservations e !! be_next_id e) as [x|] eqn:Ex; [|done]. destruct (Hr _ x Ex) as (? & _). lia. }
  apply (engine_inv_update e _ t (b - c) (held (be_reservations e) t + c) sp n);
    unfold with_hold; engine_simpl; try done; try lia.
  - by rewrite Eb.
  - by rewrite insert_id.
  - by rewrite insert_id.
  - intros t' Ht'. rewrite held_insert by done. rewrite hold_for_ne; [lia|done].
  - unfold reservation_ok. engine_simpl.
    intros id x [[<- <-]|[_ Hx]]%lookup_insert_Some; simpl.
    + split_and!; try lia. rewrite lookup_insert_eq. by eexists.
    + destruct (Hr id x Hx) as (? & ? & ?). split_and!; try lia. by apply lookup_insert_is_Some'; right.
  - unfold ledger_ok. rewrite held_insert by done.
    pose proof (hold_for_eq (mkReservationRecord t c)) as E. simpl in E. rewrite E. lia.
Qed.

(** The engine after the hold [rid] of [r] is settled for [a]. *)
Definition settled (rid : Z) (r : ReservationRecord) (a : Z) (e : BudgetEngine) : BudgetEngine :=
  let t := rr_tenant_id r in
  {| be_tenant_budgets :=
       <[t := default 0 (be_tenant_budgets e !! t) + rr_reserved_microcents r - a]> (be_tenant_budgets e);
     be_initial_microcents := be_initial_microcents e;
     be_committed_microcents :=
       <[t := default 0 (be_committed_microcents e !! t) + a]> (be_committed_microcents e);
     be_reservations := delete rid (be_reservations e);
     be_max_reserved_microcents := be_max_reserved_microcents e;
     be_tenant_reserved_totals :=
       <[t := held (be_reservations e) t - rr_reserved_microcents r]> (be_tenant_reserved_totals e);
     be_next_id := be_next_id e;
     be_snapshot_version := be_snapshot_version e;
     be_last_certified_committed_total := be_last_certified_committed_total e |}.

(** An open reservation with its tenant's ledger. *)
Lemma reservation_ledger e rid r :
  engine_inv e -> be_reservations e !! rid = Some r ->
  exists b c n, be_tenant_budgets e !! rr_tenant_id r = Some b /\
    be_tenant_reserved_totals e !! rr_tenant_id r = Some (held (be_reservations e) (rr_tenant_id r)) /\
    be_committed_microcents e !! rr_tenant_id r = Some c /\
    be_initial_microcents e !! rr_tenant_id r = Some n /\
    0 <= b /\ 0 <= c /\ b + held (be_reservations e) (rr_tenant_id r) + c = n /\ n <= imax 64 /\
    0 < rr_reserved_microcents r <= held (be_reservations e) (rr_tenant_id r).
Proof.
  intros Hinv Hr. destruct (inv_reservations e Hinv rid r Hr) as (_ & Hp & b & Hb).
  destruct (tenant_ledger e _ b Hinv Hb) as (v & c & n & Ev & Ec & En & ? & ? & ? & -> & ? & ?).
  assert (rr_reserved_microcents r <= held (be_reservations e) (rr_tenant_id r)).
  { apply (held_ge _ rid); [done|]. intros i x Hx.
    destruct (inv_reservations e Hinv i x Hx) as (_ & ? & _). done. }
  by exists b, c, n.
Qed.

Lemma commit_exact rid a e :
  engine_inv e -> is_i 64 a ->
  commit rid a e =
    if a <? 0 then (InvalidAmount, e)
    else
      match be_reservations e !! rid with
      | None => (SettlementMissingReservation, e)
      | Some r =>
          let b := default 0 (be_tenant_budgets e !! rr_tenant_id r) in
          let c := default 0 (be_committed_microcents e !! rr_tenant_id r) in
          if imax 64 <? c + a then (SettlementOverflow b, e)
          else if b + rr_reserved_microcents r <? a then (Overrun b, e)
          else (Committed (b + rr_reserved_microcents r - a) a, settled rid r a e)
      end.
Proof.
  intros Hinv Ha. unfold commit. destruct (Z.ltb_spec a 0) as [|Hpos]; [done|].
  destruct (be_reservations e !! rid) as [r|] eqn:Er; [|done].
  destruct (reservation_ledger e rid r Hinv Er) as (b & c & n & Eb & Ev & Ec & En & H). cbv zeta.
  rewrite Eb, Ec. cbn [default from_option id]. unfold checked_i, in_i, is_i in *.
  destruct (Z.leb_spec (imin 64) (c + a)); [|int_lia].
  destruct (Z.leb_spec (c + a) (imax 64)) as [Hin|Hout]; cbn [andb];
    [|by destruct (Z.ltb_spec (imax 64) (c + a)); [|lia]].
  destruct (Z.ltb_spec (imax 64) (c + a)); [lia|].
  rewrite sub_i_exact by int_lia.
  assert (forall b', b' = b + rr_reserved_microcents r - a ->
    sub_reserved_total (rr_tenant_id r) (rr_reserved_microcents r)
      (set_budget (rr_tenant_id r) b' (set_committed (rr_tenant_id r) (c + a)
         (set_reservations (delete rid (be_reservations e)) e))) = settled rid r a e) as Hset.
  { intros b' ->. unfold sub_reserved_total, settled. destruct e; engine_simpl. rewrite Ev.
    engine_simpl. rewrite Eb, Ec, sub_i_exact by int_lia. done. }
  destruct (Z.ltb_spec 0 (a - rr_reserved_microcents r)).
  - unfold debit_if_available. destruct (Z.ltb_spec b (a - rr_reserved_microcents r)).
    + by destruct (Z.ltb_spec (b + rr_reserved_microcents r) a); [|lia].
    + destruct (Z.ltb_spec (b + rr_reserved_microcents r) a); [lia|].
      destruct (Z.ltb_spec (a - rr_reserved_microcents r) 0); [lia|].
      rewrite sub_i_exact by int_lia. rewrite Hset by lia. do 2 f_equal. lia.
  - destruct (Z.ltb_spec (b + rr_reserved_microcents r) a); [lia|].
    destruct (Z.ltb_spec (a - rr_reserved_microcents r) 0).
    + rewrite (sub_i_exact 0) by int_lia. rewrite add_i_exact by int_lia.
      rewrite Hset by lia. do 2 f_equal. lia.
    + rewrite Hset by lia. do 2 f_equal. lia.
Qed.

Lemma release_exact rid e :
  engine_inv e ->
  release rid e =
    match be_reservations e !! rid with
    | None => (SettlementMissingReservation, e)
    | Some r =>
        (Released (default 0 (be_tenant_budgets e !! rr_tenant_id r) + rr_reserved_microcents r)
                  (rr_reserved_microcents r), settled rid r 0 e)
    end.
Proof.
  intros Hinv. unfold release. destruct (be_reservations e !! rid) as [r|] eqn:Er; [|done].
  destruct (reservation_ledger e rid r Hinv Er) as (b & c & n & Eb & Ev & Ec & En & H). cbv zeta.
  rewrite Eb. cbn [default from_option id]. rewrite add_i_exact by int_lia. f_equal.
  unfold sub_reserved_total, settled. destruct e; engine_simpl. rewrite Ev.
  engine_simpl. rewrite Eb, Ec, sub_i_exact by int_lia. cbn [default from_option id].
  f_equal; [f_equal; lia|]. rewrite insert_id; [done|]. rewrite Ec. f_equal. lia.
Qed.

Lemma engine_inv_settled rid r a e :
  engine_inv e -> be_reservations e !! rid = Some r -> 0 <= a ->
  a <= default 0 (be_tenant_budgets e !! rr_tenant_id r) + rr_reserved_microcents r ->
  engine_inv (settled rid r a e).
Proof.
  intros Hinv Er Ha Hle.
  destruct (reservation_ledger e rid r Hinv Er) as (b & c & n & Eb & Ev & Ec & En & H).
  pose proof (inv_reservations e Hinv) as Hr. rewrite Eb in Hle. cbn [default from_option id] in Hle.
  apply (engine_inv_update e _ (rr_tenant_id r) (b + rr_reserved_microcents r - a)
           (held (be_reservations e) (rr_tenant_id r) - rr_reserved_microcents r) (c + a) n);
    unfold settled; cbv zeta; engine_simpl; try done.
  - by rewrite Eb.
  - by rewrite Ec.
  - by rewrite insert_id.
  - apply Hinv.
  - intros t' Ht'. rewrite (held_delete _ rid r) by done. rewrite hold_for_ne; [lia|congruence].
  - unfold reservation_ok. engine_simpl. intros i x [_ Hx]%lookup_delete_Some.
    destruct (Hr i x Hx) as (? & ? & ?). split_and!; try lia. by apply lookup_insert_is_Some'; right.
  - unfold ledger_ok. rewrite (held_delete _ rid r) by done. rewrite hold_for_eq. lia.
Qed.

Lemma engine_inv_commit rid a e :
  is_i 64 a -> engine_inv e -> engine_inv (snd (commit rid a e)).
Proof.
  intros Ha Hinv. rewrite commit_exact by done. destruct (Z.ltb_spec a 0); [done|].
  destruct (be_reservations e !! rid) as [r|] eqn:Er; [|done]. cbv zeta.
  destruct (_ <? _); [done|]. destruct (Z.ltb_spec (default 0 (be_tenant_budgets e !! rr_tenant_id r)
    + rr_reserved_microcents r) a); [done|]. by apply engine_inv_settled.
Qed.

Lemma engine_inv_release rid e : engine_inv e -> engine_inv (snd (release rid e)).
Proof.
  intros Hinv. rewrite release_exact by done.
  destruct (be_reservations e !! rid) as [r|] eqn:Er; [|done].
  destruct (reservation_ledger e rid r Hinv Er) as (b & c & n & Eb & Ev & Ec & En & H).
  apply engine_inv_settled; try done. rewrite Eb. simpl. lia.
Qed.

(** ** Snapshots and recovery

    What the conservation check and the restore validation accept, and what
    an engine rebuilt from a snapshot contains. *)

(** *** The conservation check *)

(** A ledger row that balances, with the intermediate sums inside [i64]. *)
Definition row_balanced (l : TenantLedger) : Prop :=
  0 <= tl_remaining_microcents l /\
  is_i 64 (tl_remaining_microcents l + tl_reserved_microcents l) /\
  is_i 64 (tl_initial_microcents l) /\
  tl_remaining_microcents l + tl_reserved_microcents l + tl_committed_microcents l =
    tl_initial_microcents l.

Lemma conservation_rows_balanced rows :
  conservation_rows rows = Balanced <-> Forall row_balanced rows.
Proof.
  induction rows as [|l rows IH]; simpl; [by split|].
  rewrite list.Forall_cons, <- IH. unfold row_balanced. clear IH.
  destruct (checked_i 64 (tl_remaining_microcents l + tl_reserved_microcents l)) as [v|] eqn:E1; simpl.
  - apply checked_i_Some in E1 as [-> E1].
    destruct (checked_i 64 (_ + tl_committed_microcents l)) as [s|] eqn:E2.
    + apply checked_i_Some in E2 as [-> E2]. destruct (Z.eqb_spec
        (tl_remaining_microcents l + tl_reserved_microcents l + tl_committed_microcents l)
        (tl_initial_microcents l)) as [E|E]; simpl.
      * destruct (Z.ltb_spec (tl_remaining_microcents l) 0); [split; [done|lia]|].
        rewrite <- E. naive_solver.
      * split; [by repeat case_match|]. intros ((? & ? & ? & ?) & ?). done.
    + split; [done|]. intros ((? & ? & Hi & Hs) & ?). rewrite <- Hs in Hi.
      rewrite checked_i_small in E2 by done. done.
  - split; [done|]. intros ((? & Hi & ? & ?) & ?). rewrite checked_i_small in E1 by done. done.
Qed.

(** *** The restore validation *)

Definition row_restorable (l : TenantLedger) : Prop :=
  tl_reserved_microcents l = 0 /\ 0 <= tl_remaining_microcents l /\
  0 <= tl_initial_microcents l /\ 0 <= tl_committed_microcents l.

Lemma validate_rows_ok seen rows :
  validate_rows seen rows = Ok tt <->
  NoDup (map tl_tenant_id rows) /\ (forall t, t ∈ map tl_tenant_id rows -> t ∉ seen) /\
  Forall row_restorable rows.
Proof.
  revert seen. induction rows as [|l rows IH]; intros seen; simpl.
  { split; [|done]. intros _. split_and!; [constructor| |constructor]. set_solver. }
  rewrite list.Forall_cons, list.NoDup_cons. unfold row_restorable at 1.
  case_bool_decide as Hs; [split; [done|]; intros (_ & H & _); exfalso; apply (H (tl_tenant_id l)); [left|done]|].
  destruct (Z.eqb_spec (tl_reserved_microcents l) 0); simpl; [|naive_solver].
  destruct (Z.ltb_spec (tl_remaining_microcents l) 0); [split; [done|lia]|].
  destruct (Z.ltb_spec (tl_initial_microcents l) 0); [split; [done|lia]|].
  destruct (Z.ltb_spec (tl_committed_microcents l) 0); [split; [done|lia]|].
  rewrite IH. set_solver.
Qed.

(** What a snapshot must satisfy to be restored, apart from its version. *)
Definition ledger_valid (snap : BudgetSnapshot) : Prop :=
  bs_active_reservations snap <= 0 /\ NoDup (map tl_tenant_id (bs_tenants snap)) /\
  Forall row_restorable (bs_tenants snap) /\ Forall row_balanced (bs_tenants snap).

Lemma validate_snapshot_ledger_ok snap :
  validate_snapshot_ledger snap = Ok tt <-> ledger_valid snap.
Proof.
  unfold validate_snapshot_ledger, ledger_valid, conservation_status_for_snapshot.
  rewrite <- conservation_rows_balanced.
  destruct (Z.ltb_spec 0 (bs_active_reservations snap)); [split; [done|lia]|].
  destruct (validate_rows ∅ (bs_tenants snap)) as [[]|] eqn:E; simpl.
  - apply validate_rows_ok in E as (? & _ & ?). case_match; naive_solver.
  - split; [done|]. intros (_ & H1 & H2 & _).
    assert (validate_rows ∅ (bs_tenants snap) = Ok tt) by (apply validate_rows_ok; set_solver).
    congruence.
Qed.

(** *** The allocator fence in the version word *)

Lemma land_mask v : Z.land v RECOVERY_ALLOCATOR_MASK = v mod 2 ^ 63.
Proof.
  unfold RECOVERY_ALLOCATOR_MASK, RECOVERY_SNAPSHOT_TAG.
  replace (2 ^ 63 - 1) with (Z.ones 63) by done. by apply Z.land_ones.
Qed.

Lemma tagged_version n :
  0 <= n <= RECOVERY_ALLOCATOR_MASK ->
  Z.land (Z.lor RECOVERY_SNAPSHOT_TAG n) RECOVERY_ALLOCATOR_MASK = n /\
  Z.land (Z.lor RECOVERY_SNAPSHOT_TAG n) RECOVERY_SNAPSHOT_TAG = RECOVERY_SNAPSHOT_TAG.
Proof.
  intros Hn. split.
  - rewrite Z.land_lor_distr_l, (land_mask n).
    rewrite Z.mod_small by (unfold RECOVERY_ALLOCATOR_MASK, RECOVERY_SNAPSHOT_TAG in *; lia). done.
  - apply Z.bits_inj'. intros i _. rewrite Z.land_spec, Z.lor_spec.
    by destruct (Z.testbit RECOVERY_SNAPSHOT_TAG i), (Z.testbit n i).
Qed.

Lemma allocator_from_snapshot_version_ok v n :
  allocator_from_snapshot_version v = Ok n ->
  n = Z.land v RECOVERY_ALLOCATOR_MASK /\ 1 <= n <= RECOVERY_ALLOCATOR_MASK.
Proof.
  unfold allocator_from_snapshot_version. destruct (_ || _) eqn:E; [done|]. intros [= <-].
  apply orb_false_elim in E as [_ E]. apply Z.eqb_neq in E. split; [done|].
  rewrite land_mask in *. pose proof (Z.mod_pos_bound v (2 ^ 63)).
  unfold RECOVERY_ALLOCATOR_MASK, RECOVERY_SNAPSHOT_TAG. lia.
Qed.

(** *** The rebuilt engine *)

Section rebuilt.
Context (field : BudgetEngine -> gmap string Z) (row : TenantLedger -> Z).
Context (Hrow : forall e l t,
  field (restore_row e l) !! t = if decide (tl_tenant_id l = t) then Some (row l) else field e !! t).

(** A map of the rebuilt engine holds the rows of the snapshot. *)
Lemma restore_lookup rows e t :
  NoDup (map tl_tenant_id rows) -> field e !! t = None ->
  field (fold_left restore_row rows e) !! t =
    row <$> List.find (fun l => bool_decide (tl_tenant_id l = t)) rows.
Proof.
  revert e. induction rows as [|l rows IH]; intros e Hnd He; simpl; [done|].
  apply list.NoDup_cons in Hnd as [Hl Hnd]. case_bool_decide as E.
  - subst t. assert (forall e', field (fold_left restore_row rows e') !! tl_tenant_id l = field e' !! tl_tenant_id l) as Hskip.
    { clear IH He Hnd. induction rows as [|k rows IH]; intros e'; simpl; [done|].
      rewrite IH by set_solver. rewrite Hrow. case_decide as E; [|done].
      exfalso. apply Hl. simpl. rewrite E. left. }
    rewrite Hskip, Hrow. by rewrite decide_True.
  - apply IH; [done|]. rewrite Hrow. by rewrite decide_False.
Qed.
End rebuilt.

Lemma restore_row_budgets e l t :
  be_tenant_budgets (restore_row e l) !! t =
    if decide (tl_tenant_id l = t) then Some (tl_remaining_microcents l) else be_tenant_budgets e !! t.
Proof. destruct e; unfold restore_row; engine_simpl. apply lookup_insert. Qed.
Lemma restore_row_initial e l t :
  be_initial_microcents (restore_row e l) !! t =
    if decide (tl_tenant_id l = t) then Some (tl_initial_microcents l) else be_initial_microcents e !! t.
Proof. destruct e; unfold restore_row; engine_simpl. apply lookup_insert. Qed.
Lemma restore_row_committed e l t :
  be_committed_microcents (restore_row e l) !! t =
    if decide (tl_tenant_id l = t) then Some (tl_committed_microcents l) else be_committed_microcents e !! t.
Proof. destruct e; unfold restore_row; engine_simpl. apply lookup_insert. Qed.
Lemma restore_row_reserved e l t :
  be_tenant_reserved_totals (restore_row e l) !! t =
    if decide (tl_tenant_id l = t) then Some (tl_reserved_microcents l) else be_tenant_reserved_totals e !! t.
Proof. destruct e; unfold restore_row; engine_simpl. apply lookup_insert. Qed.

(** The other fields are not touched by the rebuild loop. *)
Lemma restore_rows_rest rows e :
  be_reservations (fold_left restore_row rows e) = be_reservations e /\
  be_max_reserved_microcents (fold_left restore_row rows e) = be_max_reserved_microcents e /\
  be_next_id (fold_left restore_row rows e) = be_next_id e.
Proof.
  revert e. induction rows as [|l rows IH]; intros e; simpl; [done|].
  destruct (IH (restore_row e l)) as (-> & -> & ->). by destruct e.
Qed.

(** The row of a tenant in a snapshot. *)
Definition row_of (snap : BudgetSnapshot) (t : string) : option TenantLedger :=
  List.find (fun l => bool_decide (tl_tenant_id l = t)) (bs_tenants snap).

(** What a successful restore leaves, field by field. *)
Record restored (snap : BudgetSnapshot) (e : BudgetEngine) : Prop := {
  res_budgets : forall t, be_tenant_budgets e !! t = tl_remaining_microcents <$> row_of snap t;
  res_initial : forall t, be_initial_microcents e !! t = tl_initial_microcents <$> row_of snap t;
  res_committed : forall t, be_committed_microcents e !! t = tl_committed_microcents <$> row_of snap t;
  res_reserved : forall t, be_tenant_reserved_totals e !! t = tl_reserved_microcents <$> row_of snap t;
  res_open : be_reservations e = ∅;
  res_caps : be_max_reserved_microcents e = ∅;
  res_next_id : be_next_id e = Z.land (bs_version snap) RECOVERY_ALLOCATOR_MASK;
  res_version : be_snapshot_version e = bs_version snap
}.

Lemma restore_from_snapshot_restored snap e e' :
  restore_from_snapshot snap e = (Ok tt, e') ->
  ledger_valid snap /\ 1 <= be_next_id e' <= RECOVERY_ALLOCATOR_MASK /\ restored snap e'.
Proof.
  unfold restore_from_snapshot, validate_snapshot_for_restore.
  destruct (allocator_from_snapshot_version (bs_version snap)) as [n|] eqn:Ev; simpl; [|done].
  apply allocator_from_snapshot_version_ok in Ev as [En Hn].
  destruct (validate_snapshot_ledger snap) as [[]|] eqn:Eok; simpl; [|done].
  apply validate_snapshot_ledger_ok in Eok. pose proof Eok as (_ & Hnd & _).
  intros [= <-]. match goal with |- context [fold_left restore_row _ ?c] => set (e0 := c) end.
  destruct (restore_rows_rest (bs_tenants snap) e0) as (Hr & Hm & _).
  split; [done|]. split; [by destruct (fold_left restore_row (bs_tenants snap) e0)|].
  pose proof (restore_lookup _ _ restore_row_budgets (bs_tenants snap) e0) as Lb.
  pose proof (restore_lookup _ _ restore_row_initial (bs_tenants snap) e0) as Li.
  pose proof (restore_lookup _ _ restore_row_committed (bs_tenants snap) e0) as Lc.
  pose proof (restore_lookup _ _ restore_row_reserved (bs_tenants snap) e0) as Lr.
  unfold e0 in Lb, Li, Lc, Lr, Hr, Hm. engine_simpl. fold e0 in Lb, Li, Lc, Lr, Hr, Hm.
  destruct (fold_left restore_row (bs_tenants snap) e0); engine_simpl.
  split; engine_simpl; try done; intros t; [apply Lb|apply Li|apply Lc|apply Lr]; done || apply lookup_empty.
Qed.

Lemma row_of_Some snap t l : row_of snap t = Some l -> l ∈ bs_tenants snap /\ tl_tenant_id l = t.
Proof.
  intros [H1 H2]%List.find_some. split; [by apply list_elem_of_In|]. by apply bool_decide_eq_true_1 in H2.
Qed.

Lemma engine_inv_restore snap e : engine_inv e -> engine_inv (snd (restore_from_snapshot snap e)).
Proof.
  intros Hinv. destruct (restore_from_snapshot snap e) as [[[]|err] e'] eqn:E; cbn [snd].
  - destruct (restore_from_snapshot_restored snap e e' E) as ((_ & _ & Hpos & Hbal) & Hn & R).
    split; [| |done|].
    + intros t. unfold tenant_ok. rewrite (res_budgets _ _ R), (res_initial _ _ R), (res_committed _ _ R),
        (res_reserved _ _ R), (res_open _ _ R). unfold ledger_ok. rewrite held_empty.
      destruct (row_of snap t) as [l|] eqn:El; [|done]. simpl. apply row_of_Some in El as [Hl _].
      rewrite list.Forall_forall in Hpos, Hbal. specialize (Hpos l Hl). specialize (Hbal l Hl).
      destruct Hpos as (? & ? & ? & ?), Hbal as (? & ? & Hi & ?). unfold is_i in Hi. lia.
    + intros id r. simpl. by rewrite (res_open _ _ R), lookup_empty.
    + intros t m. simpl. by rewrite (res_caps _ _ R), lookup_empty.
  - unfold restore_from_snapshot in E. repeat case_match; by simplify_eq.
Qed.
