(* ===== verification/BudgetSpec.v ===== *)
(** * The abstract ledger and the refinement

    The engine keeps, per tenant, a spendable balance and a running total of
    holds next to the grant and the lifetime spend, and updates them with
    wrapping atomics. The abstract ledger keeps only what was granted, what
    was spent and which holds are open; the balance is what is left of the
    grant. Every operation of the engine answers and changes state as the
    ledger does. *)

From S2P Require Import Prelude Budget BudgetInv.
#[local] Open Scope Z_scope.

(** ** The operations as one step function *)

Inductive op :=
| OpEnsure (t : string) (b : Z)
| OpTopUp (t : string) (a : Z)
| OpSetCap (t : string) (m : Z)
| OpReserve (t : string) (c : Z)
| OpCommit (id a : Z)
| OpRelease (id : Z)
| OpSnapshot
| OpRotate (total : Z).

(** Arguments are [i64]. *)
Definition op_typed (o : op) : Prop :=
  match o with
  | OpEnsure _ z | OpTopUp _ z | OpSetCap _ z | OpReserve _ z | OpCommit _ z | OpRotate z => is_i 64 z
  | OpRelease _ | OpSnapshot => True
  end.
#[export] Instance op_typed_dec o : Decision (op_typed o).
Proof. destruct o; simpl; apply _. Defined.

Inductive response :=
| RConfig (r : result BudgetConfigurationError unit)
| RTopUp (r : TopUpResult)
| RReserve (r : BudgetReservation) (id : option Z)
| RSettle (r : BudgetSettlement)
| RSnapshot (version : option Z)
| RRotate.

Definition run (o : op) (e : BudgetEngine) : response * BudgetEngine :=
  match o with
  | OpEnsure t b => let '(r, e') := try_ensure_tenant t b e in (RConfig r, e')
  | OpTopUp t a => let '(r, e') := top_up_tenant t a e in (RTopUp r, e')
  | OpSetCap t m => let '(r, e') := try_set_max_reserved_microcents t m e in (RConfig r, e')
  | OpReserve t c => let '(r, id, e') := try_reserve t c e in (RReserve r id, e')
  | OpCommit id a => let '(r, e') := commit id a e in (RSettle r, e')
  | OpRelease id => let '(r, e') := release id e in (RSettle r, e')
  | OpSnapshot =>
      let '(r, e') := try_snapshot e in
      (RSnapshot (match r with Ok s => Some (bs_version s) | Err _ => None end), e')
  | OpRotate total => (RRotate, snd (rotate_certificate_baseline total e))
  end.

Fixpoint run_all (os : list op) (e : BudgetEngine) : list response * BudgetEngine :=
  match os with
  | [] => ([], e)
  | o :: os' =>
      let '(r, e1) := run o e in
      let '(rs, e2) := run_all os' e1 in (r :: rs, e2)
  end.

(** ** The abstract ledger *)

Record Ledger := mkLedger {
  lg_granted : gmap string Z;
  lg_spent : gmap string Z;
  lg_holds : gmap Z ReservationRecord;
  lg_caps : gmap string Z;
  lg_next : Z
}.

Definition empty_ledger : Ledger := mkLedger ∅ ∅ ∅ ∅ 1.

Definition spent (l : Ledger) (t : string) : Z := default 0 (lg_spent l !! t).

(** What a tenant with grant [n] can still spend. *)
Definition left_of (l : Ledger) (t : string) (n : Z) : Z := n - held (lg_holds l) t - spent l t.

Definition ledger_reserve (t : string) (c : Z) (l : Ledger) : response * Ledger :=
  if c <=? 0 then (RReserve (Insufficient 0 c) None, l)
  else
    match lg_granted l !! t with
    | None => (RReserve MissingTenant None, l)
    | Some n =>
        let v := held (lg_holds l) t in
        let m := default 0 (lg_caps l !! t) in
        if imax 64 <? v + c then (RReserve (ReservationOverflow v) None, l)
        else if (0 <? m) && (m <? v + c) then (RReserve (ExposureLimitExceeded v m) None, l)
        else if RECOVERY_ALLOCATOR_MASK <=? lg_next l then (RReserve (ReservationOverflow v) None, l)
        else if left_of l t n <? c then
          (RReserve (Insufficient (left_of l t n) c) None,
           mkLedger (lg_granted l) (lg_spent l) (lg_holds l) (lg_caps l) (lg_next l + 1))
        else
          (RReserve (Reserved (left_of l t n - c)) (Some (lg_next l)),
           mkLedger (lg_granted l) (lg_spent l)
             (<[lg_next l := mkReservationRecord t c]> (lg_holds l)) (lg_caps l) (lg_next l + 1))
    end.

(** Close hold [rid] of [r], spending [a] of the tenant's grant. *)
Definition ledger_settle (rid : Z) (r : ReservationRecord) (a : Z) (l : Ledger) : Ledger :=
  mkLedger (lg_granted l) (<[rr_tenant_id r := spent l (rr_tenant_id r) + a]> (lg_spent l))
    (delete rid (lg_holds l)) (lg_caps l) (lg_next l).

Definition ledger_commit (rid a : Z) (l : Ledger) : response * Ledger :=
  if a <? 0 then (RSettle InvalidAmount, l)
  else
    match lg_holds l !! rid with
    | None => (RSettle SettlementMissingReservation, l)
    | Some r =>
        let t := rr_tenant_id r in
        let b := left_of l t (default 0 (lg_granted l !! t)) in
        if imax 64 <? spent l t + a then (RSettle (SettlementOverflow b), l)
        else if b + rr_reserved_microcents r <? a then (RSettle (Overrun b), l)
        else (RSettle (Committed (b + rr_reserved_microcents r - a) a), ledger_settle rid r a l)
    end.

Definition ledger_release (rid : Z) (l : Ledger) : response * Ledger :=
  match lg_holds l !! rid with
  | None => (RSettle SettlementMissingReservation, l)
  | Some r =>
      let t := rr_tenant_id r in
      let b := left_of l t (default 0 (lg_granted l !! t)) in
      (RSettle (Released (b + rr_reserved_microcents r) (rr_reserved_microcents r)),
       ledger_settle rid r 0 l)
  end.

Definition ledger_run (o : op) (l : Ledger) : response * Ledger :=
  match o with
  | OpEnsure t b =>
      if b <? 0 then (RConfig (Err (NegativeAmount "budget_microcents" b)), l)
      else
        (RConfig (Ok tt),
         match lg_granted l !! t with
         | Some _ => l
         | None =>
             mkLedger (<[t := b]> (lg_granted l)) (<[t := 0]> (lg_spent l)) (lg_holds l) (lg_caps l)
               (lg_next l)
         end)
  | OpTopUp t a =>
      if a <=? 0 then (RTopUp TopUpInvalidAmount, l)
      else
        match lg_granted l !! t with
        | None => (RTopUp TopUpMissingTenant, l)
        | Some n =>
            if imax 64 <? n + a then (RTopUp TopUpOverflow, l)
            else
              (RTopUp (ToppedUp a (n + a) (left_of l t n + a)),
               mkLedger (<[t := n + a]> (lg_granted l)) (lg_spent l) (lg_holds l) (lg_caps l) (lg_next l))
        end
  | OpSetCap t m =>
      if m <? 0 then (RConfig (Err (NegativeAmount "max_reserved_microcents" m)), l)
      else
        (RConfig (Ok tt),
         mkLedger (lg_granted l) (lg_spent l) (lg_holds l)
           (if m =? 0 then delete t (lg_caps l) else <[t := m]> (lg_caps l)) (lg_next l))
  | OpReserve t c => ledger_reserve t c l
  | OpCommit rid a => ledger_commit rid a l
  | OpRelease rid => ledger_release rid l
  | OpSnapshot =>
      if RECOVERY_ALLOCATOR_MASK <=? lg_next l then (RSnapshot None, l)
      else
        (RSnapshot (Some (Z.lor RECOVERY_SNAPSHOT_TAG (lg_next l + 1))),
         mkLedger (lg_granted l) (lg_spent l) (lg_holds l) (lg_caps l) (lg_next l + 1))
  | OpRotate _ => (RRotate, l)
  end.

Fixpoint ledger_run_all (os : list op) (l : Ledger) : list response * Ledger :=
  match os with
  | [] => ([], l)
  | o :: os' =>
      let '(r, l1) := ledger_run o l in
      let '(rs, l2) := ledger_run_all os' l1 in (r :: rs, l2)
  end.

(** The ledger an engine stands for. *)
Definition ledger_of (e : BudgetEngine) : Ledger :=
  mkLedger (be_initial_microcents e) (be_committed_microcents e) (be_reservations e)
    (be_max_reserved_microcents e) (be_next_id e).

(** ** Snapshots in the refinement *)

Lemma try_snapshot_exact e :
  engine_inv e ->
  try_snapshot e =
    if RECOVERY_ALLOCATOR_MASK <=? be_next_id e then (Err AllocatorExhausted, e)
    else
      (Ok {| bs_version := Z.lor RECOVERY_SNAPSHOT_TAG (be_next_id e + 1);
             bs_tenants := merge_sort ledger_le (map (ledger_row e) (map_to_list (be_tenant_budgets e)));
             bs_active_reservations := Z.of_nat (size (be_reservations e));
             bs_wal_high_watermark := None |},
       set_snapshot_version (Z.lor RECOVERY_SNAPSHOT_TAG (be_next_id e + 1))
         (set_next_id (be_next_id e + 1) e)).
Proof.
  intros Hinv. pose proof (inv_next_id e Hinv) as Hn. unfold try_snapshot, allocate_id.
  rewrite Z.ltb_antisym. destruct (Z.leb_spec RECOVERY_ALLOCATOR_MASK (be_next_id e)); simpl; [done|].
  unfold add_u. rewrite wrap_u_small; [done|done|].
  unfold RECOVERY_ALLOCATOR_MASK, RECOVERY_SNAPSHOT_TAG in *. int_lia.
Qed.

Lemma engine_inv_try_snapshot e : engine_inv e -> engine_inv (snd (try_snapshot e)).
Proof.
  intros Hinv. rewrite try_snapshot_exact by done.
  destruct (Z.leb_spec RECOVERY_ALLOCATOR_MASK (be_next_id e)); [done|]. cbn [snd].
  apply (engine_inv_same e); try (by destruct e); destruct e; engine_simpl; [apply Hinv|lia].
Qed.

Lemma rotate_keeps total e :
  be_initial_microcents (snd (rotate_certificate_baseline total e)) = be_initial_microcents e /\
  ledger_of (snd (rotate_certificate_baseline total e)) = ledger_of e /\
  (engine_inv e -> engine_inv (snd (rotate_certificate_baseline total e))).
Proof.
  unfold rotate_certificate_baseline. destruct (_ <=? _); [done|]. cbn [snd].
  split_and!; [by destruct e|by destruct e|]. intros Hinv. pose proof (inv_next_id e Hinv).
  apply (engine_inv_same e); try (by destruct e); destruct e; engine_simpl; [apply Hinv|lia].
Qed.

(** ** One step *)

(** Every operation preserves the invariant. *)
Lemma run_inv o e : op_typed o -> engine_inv e -> engine_inv (snd (run o e)).
Proof.
  intros Ho Hinv. destruct o as [t b|t a|t m|t c|rid a|rid| |total]; simpl in Ho |- *.
  - pose proof (engine_inv_try_ensure_tenant t b e) as H. destruct (try_ensure_tenant t b e).
    apply H; [int_lia|done].
  - pose proof (engine_inv_top_up t a e) as H. destruct (top_up_tenant t a e). auto.
  - pose proof (engine_inv_try_set_max_reserved t m e) as H.
    destruct (try_set_max_reserved_microcents t m e). auto.
  - pose proof (engine_inv_try_reserve t c e) as H. destruct (try_reserve t c e) as [[??]?]. auto.
  - pose proof (engine_inv_commit rid a e) as H. destruct (commit rid a e). auto.
  - pose proof (engine_inv_release rid e) as H. destruct (release rid e). auto.
  - pose proof (engine_inv_try_snapshot e) as H. destruct (try_snapshot e). auto.
  - by apply rotate_keeps.
Qed.

(** The balance of a tenant is what is left of its grant. *)
Lemma budget_left e t b :
  engine_inv e -> be_tenant_budgets e !! t = Some b ->
  exists n, be_initial_microcents e !! t = Some n /\ b = left_of (ledger_of e) t n.
Proof.
  intros Hinv Hb. destruct (tenant_ledger e t b Hinv Hb) as (v & c & n & Ev & Ec & En & Hl).
  exists n. split; [done|]. destruct Hl as (_ & _ & _ & -> & Hs & _).
  unfold left_of, spent, ledger_of; simpl. rewrite Ec. simpl. lia.
Qed.

Lemma no_budget_no_grant e t :
  engine_inv e -> be_tenant_budgets e !! t = None -> be_initial_microcents e !! t = None.
Proof.
  intros Hinv Hb. pose proof (inv_tenants e Hinv t) as H. unfold tenant_ok in H. rewrite Hb in H.
  by repeat case_match.
Qed.

Lemma refine_reserve t c e :
  engine_inv e -> is_i 64 c ->
  ledger_reserve t c (ledger_of e) =
    let '(r, id, e') := try_reserve t c e in (RReserve r id, ledger_of e').
Proof.
  intros Hinv Hc. rewrite try_reserve_exact by done. unfold ledger_reserve.
  destruct (c <=? 0); [done|]. destruct (be_tenant_budgets e !! t) as [b|] eqn:Eb; simpl.
  - destruct (budget_left e t b Hinv Eb) as (n & En & ->). rewrite En.
    repeat (case_match; [by destruct e|]). by destruct e.
  - by rewrite no_budget_no_grant.
Qed.

Lemma ledger_of_settled rid r a e :
  ledger_of (settled rid r a e) = ledger_settle rid r a (ledger_of e).
Proof. done. Qed.

Lemma refine_commit rid a e :
  engine_inv e -> is_i 64 a ->
  ledger_commit rid a (ledger_of e) = let '(r, e') := commit rid a e in (RSettle r, ledger_of e').
Proof.
  intros Hinv Ha. rewrite commit_exact by done. unfold ledger_commit.
  destruct (a <? 0); [done|]. simpl. destruct (be_reservations e !! rid) as [r|] eqn:Er; [|done].
  destruct (reservation_ledger e rid r Hinv Er) as (b & c & n & Eb & _ & Ec & En & _).
  destruct (budget_left e _ b Hinv Eb) as (n' & En' & Hb). simplify_eq. rewrite Eb, En. cbv zeta.
  cbn [default from_option id]. unfold spent at 1. simpl lg_spent. rewrite Ec.
  cbn [default from_option id]. repeat (case_match; [done|]). by rewrite ledger_of_settled.
Qed.

Lemma refine_release rid e :
  engine_inv e ->
  ledger_release rid (ledger_of e) = let '(r, e') := release rid e in (RSettle r, ledger_of e').
Proof.
  intros Hinv. rewrite release_exact by done. unfold ledger_release. simpl.
  destruct (be_reservations e !! rid) as [r|] eqn:Er; [|done].
  destruct (reservation_ledger e rid r Hinv Er) as (b & c & n & Eb & _ & Ec & En & _).
  destruct (budget_left e _ b Hinv Eb) as (n' & En' & Hb). simplify_eq. rewrite Eb, En. done.
Qed.

Lemma refine_top_up t a e :
  engine_inv e -> is_i 64 a ->
  ledger_run (OpTopUp t a) (ledger_of e) = let '(r, e') := top_up_tenant t a e in (RTopUp r, ledger_of e').
Proof.
  intros Hinv Ha. unfold top_up_tenant. simpl. destruct (Z.leb_spec a 0); [done|].
  destruct (be_tenant_budgets e !! t) as [b|] eqn:Eb; [|by rewrite no_budget_no_grant].
  destruct (tenant_ledger e t b Hinv Eb) as (v & c & n & Ev & Ec & En & Hl).
  destruct (budget_left e t b Hinv Eb) as (n' & En' & Hb). simplify_eq. rewrite En.
  destruct Hl as (? & ? & ? & ? & ? & ?). destruct (Z.ltb_spec (imax 64) (n + a)).
  - destruct (checked_i 64 (n + a)) eqn:E; [|done]. apply checked_i_Some in E as [_ E]. int_lia.
  - rewrite checked_i_small by int_lia. unfold credit_if_no_overflow. rewrite checked_i_small by int_lia.
    simpl. by destruct e.
Qed.

(** The step theorem: same answer, same ledger. *)
Lemma run_refines o e :
  op_typed o -> engine_inv e ->
  ledger_run o (ledger_of e) = (fst (run o e), ledger_of (snd (run o e))).
Proof.
  intros Ho Hinv. destruct o as [t b|t a|t m|t c|rid a|rid| |total].
  - simpl. unfold try_ensure_tenant. destruct (b <? 0); [done|].
    destruct (be_tenant_budgets e !! t) as [b'|] eqn:Eb; simpl.
    + destruct (budget_left e t b' Hinv Eb) as (n & -> & _). done.
    + rewrite no_budget_no_grant by done. by destruct e.
  - rewrite refine_top_up by done. simpl. by destruct (top_up_tenant t a e).
  - simpl. unfold try_set_max_reserved_microcents. repeat case_match; by destruct e; simplify_eq.
  - simpl. rewrite refine_reserve by done. by destruct (try_reserve t c e) as [[??]?].
  - simpl. rewrite refine_commit by done. by destruct (commit rid a e).
  - simpl. rewrite refine_release by done. by destruct (release rid e).
  - simpl. rewrite try_snapshot_exact by done.
    destruct (RECOVERY_ALLOCATOR_MASK <=? be_next_id e); [done|]. by destruct e.
  - simpl. by destruct (rotate_keeps total e) as (_ & -> & _).
Qed.

(** ** Runs *)

Lemma run_all_inv os e :
  Forall op_typed os -> engine_inv e -> engine_inv (snd (run_all os e)).
Proof.
  intros Hos. revert e. induction Hos as [|o os Ho _ IH]; intros e Hinv; simpl; [done|].
  pose proof (run_inv o e Ho Hinv) as H. destruct (run o e) as [r e1]. specialize (IH e1 H).
  by destruct (run_all os e1).
Qed.

Lemma run_all_refines os e :
  Forall op_typed os -> engine_inv e ->
  ledger_run_all os (ledger_of e) = (fst (run_all os e), ledger_of (snd (run_all os e))).
Proof.
  intros Hos. revert e. induction Hos as [|o os Ho _ IH]; intros e Hinv; simpl; [done|].
  rewrite run_refines by done. pose proof (run_inv o e Ho Hinv) as H.
  destruct (run o e) as [r e1]. simpl in *. rewrite (IH e1 H). by destruct (run_all os e1).
Qed.

(** A settled identifier below the allocator stays settled. *)
Definition closed_id (rid : Z) (l : Ledger) : Prop := rid < lg_next l /\ lg_holds l !! rid = None.

Lemma ledger_run_closed o l rid : closed_id rid l -> closed_id rid (snd (ledger_run o l)).
Proof.
  intros [Hn Hh]. assert (forall r i a, closed_id rid (ledger_settle i r a l)) as Hs.
  { intros r i a. split; [done|]. simpl. rewrite lookup_delete. by case_decide. }
  destruct o; simpl; unfold ledger_reserve, ledger_commit, ledger_release; repeat case_match; simpl;
    try done; try apply Hs; split; simpl; try done; try lia.
  rewrite lookup_insert. case_decide; [lia|done].
Qed.

Lemma ledger_run_all_closed os l rid : closed_id rid l -> closed_id rid (snd (ledger_run_all os l)).
Proof.
  revert l. induction os as [|o os IH]; intros l H; simpl; [done|].
  pose proof (ledger_run_closed o l rid H) as H1. destruct (ledger_run o l) as [r l1].
  specialize (IH l1 H1). by destruct (ledger_run_all os l1).
Qed.
