(* ===== verification/BudgetProps.v ===== *)
(** * The guarantees of the budget engine

    Theorems about whole histories: refinement of the abstract ledger,
    conservation, finality of settlements, snapshots and restores, and that a
    refusal changes nothing. *)

From S2P Require Import Prelude Budget BudgetInv BudgetSpec.
#[local] Open Scope Z_scope.

(** ** Reachable engines: any operations and restores from the empty engine *)

Inductive reachable : BudgetEngine -> Prop :=
| reach_new : reachable BudgetEngine_new
| reach_run o e : op_typed o -> reachable e -> reachable (snd (run o e))
| reach_restore snap e : reachable e -> reachable (snd (restore_from_snapshot snap e)).

Lemma reachable_inv e : reachable e -> engine_inv e.
Proof.
  induction 1; [apply engine_inv_new|by apply run_inv|by apply engine_inv_restore].
Qed.

Lemma reachable_run_all os : forall e, Forall op_typed os -> reachable e -> reachable (snd (run_all os e)).
Proof.
  induction os as [|o os IH]; intros e Hos He; simpl; [done|].
  apply list.Forall_cons in Hos as [Ho Hos]. pose proof (reach_run o e Ho He) as H.
  destruct (run o e) as [r e1]. specialize (IH e1 Hos H). by destruct (run_all os e1).
Qed.

(** ** The rows of a snapshot *)

Lemma find_row rows l :
  NoDup (map tl_tenant_id rows) -> l ∈ rows ->
  List.find (fun x => bool_decide (tl_tenant_id x = tl_tenant_id l)) rows = Some l.
Proof.
  intros Hnd Hl. induction rows as [|k rows IH]; [by apply not_elem_of_nil in Hl|].
  simpl in *. apply list.NoDup_cons in Hnd as [Hk Hnd]. case_bool_decide as E.
  - apply elem_of_cons in Hl as [->|Hl]; [done|]. exfalso. apply Hk. rewrite E.
    by apply list_elem_of_fmap_2.
  - apply elem_of_cons in Hl as [->|Hl]; [done|]. by apply IH.
Qed.

Definition snapshot_rows (e : BudgetEngine) : list TenantLedger :=
  merge_sort ledger_le (map (ledger_row e) (map_to_list (be_tenant_budgets e))).

Lemma snapshot_rows_elem e l :
  l ∈ snapshot_rows e <-> exists t b, be_tenant_budgets e !! t = Some b /\ l = ledger_row e (t, b).
Proof.
  unfold snapshot_rows. rewrite merge_sort_Permutation, list_elem_of_fmap. split.
  - intros ([t b] & -> & H%elem_of_map_to_list). by exists t, b.
  - intros (t & b & H & ->). exists (t, b). split; [done|]. by apply elem_of_map_to_list.
Qed.

Lemma snapshot_rows_nodup e : NoDup (map tl_tenant_id (snapshot_rows e)).
Proof.
  unfold snapshot_rows. rewrite merge_sort_Permutation, map_map. simpl.
  apply NoDup_fst_map_to_list.
Qed.

Lemma snapshot_rows_balanced e : engine_inv e -> Forall row_balanced (snapshot_rows e).
Proof.
  intros Hinv. apply list.Forall_forall. intros l (t & b & Hb & ->)%snapshot_rows_elem.
  destruct (tenant_ledger e t b Hinv Hb) as (v & c & n & Ev & Ec & En & ? & ? & ? & ? & ? & ?).
  unfold row_balanced, ledger_row; simpl. rewrite Ev, Ec, En. simpl. int_lia.
Qed.

Lemma snapshot_row_of e t v a w :
  row_of (mkBudgetSnapshot v (snapshot_rows e) a w) t =
    (fun b => ledger_row e (t, b)) <$> be_tenant_budgets e !! t.
Proof.
  unfold row_of; simpl. destruct (be_tenant_budgets e !! t) as [b|] eqn:E; simpl.
  - apply (find_row _ (ledger_row e (t, b))); [apply snapshot_rows_nodup|].
    apply snapshot_rows_elem. by exists t, b.
  - destruct (List.find _ _) as [l|] eqn:F; [|done]. apply List.find_some in F as [F1 F2].
    apply list_elem_of_In, snapshot_rows_elem in F1 as (t' & b & Hb & ->).
    apply bool_decide_eq_true_1 in F2. simpl in F2. congruence.
Qed.

(** With no open reservation every hold total is zero. *)
Lemma snapshot_rows_restorable e :
  engine_inv e -> be_reservations e = ∅ -> Forall row_restorable (snapshot_rows e).
Proof.
  intros Hinv Hr. apply list.Forall_forall. intros l (t & b & Hb & ->)%snapshot_rows_elem.
  destruct (tenant_ledger e t b Hinv Hb) as (v & c & n & Ev & Ec & En & ? & ? & ? & Hv & ? & ?).
  rewrite Hr, held_empty in Hv. unfold row_restorable, ledger_row; simpl. rewrite Ev, Ec, En. simpl. lia.
Qed.

(** The rows read back field by field are the engine's maps. *)
Lemma snapshot_row_fields e t :
  engine_inv e ->
  let row := (fun b => ledger_row e (t, b)) <$> be_tenant_budgets e !! t in
  tl_remaining_microcents <$> row = be_tenant_budgets e !! t /\
  tl_initial_microcents <$> row = be_initial_microcents e !! t /\
  tl_committed_microcents <$> row = be_committed_microcents e !! t /\
  tl_reserved_microcents <$> row = be_tenant_reserved_totals e !! t.
Proof.
  intros Hinv. pose proof (inv_tenants e Hinv t) as T. unfold tenant_ok in T. unfold ledger_row.
  cbv zeta. simpl. destruct (be_tenant_budgets e !! t), (be_tenant_reserved_totals e !! t),
    (be_committed_microcents e !! t), (be_initial_microcents e !! t); done.
Qed.

(** ** Accepting a snapshot *)

Lemma restore_ok snap e :
  is_ok (fst (restore_from_snapshot snap e)) = true <->
  Z.land (bs_version snap) RECOVERY_SNAPSHOT_TAG <> 0 /\
  Z.land (bs_version snap) RECOVERY_ALLOCATOR_MASK <> 0 /\ ledger_valid snap.
Proof.
  rewrite <- validate_snapshot_ledger_ok.
  unfold restore_from_snapshot, validate_snapshot_for_restore, allocator_from_snapshot_version.
  destruct (Z.eqb_spec (Z.land (bs_version snap) RECOVERY_SNAPSHOT_TAG) 0); simpl; [naive_solver|].
  destruct (Z.eqb_spec (Z.land (bs_version snap) RECOVERY_ALLOCATOR_MASK) 0); simpl; [naive_solver|].
  destruct (validate_snapshot_ledger snap) as [[]|]; simpl; naive_solver.
Qed.

Lemma recovery_agrees snap e :
  is_ok (fst (restore_from_recovery_snapshot snap e)) = is_ok (fst (restore_from_snapshot snap e)) /\
  snd (restore_from_recovery_snapshot snap e) = snd (restore_from_snapshot snap e).
Proof.
  unfold restore_from_recovery_snapshot, restore_from_snapshot, validate_snapshot_for_restore,
    allocator_from_snapshot_version.
  destruct (_ =? 0); simpl; [done|]. destruct (_ =? 0); simpl; [done|].
  by destruct (validate_snapshot_ledger snap) as [[]|].
Qed.

Lemma recovered snap e :
  is_ok (fst (restore_from_snapshot snap e)) = true ->
  exists e', restore_from_recovery_snapshot snap e = (Ok tt, e') /\ restored snap e'.
Proof.
  intros Hok. destruct (recovery_agrees snap e) as [A1 A2]. rewrite Hok in A1.
  destruct (restore_from_recovery_snapshot snap e) as [[[]|] e2]; [|done].
  destruct (restore_from_snapshot snap e) as [[[]|] e2'] eqn:E3; [|done]. simpl in A2. subst e2'.
  exists e2. split; [done|]. by apply (restore_from_snapshot_restored snap e e2 E3).
Qed.

(** ** Settling a reservation *)

Definition settles (rid : Z) (o : op) : Prop :=
  match o with OpCommit i _ | OpRelease i => i = rid | _ => False end.

Definition is_settled (r : response) : bool :=
  match r with RSettle (Committed _ _) | RSettle (Released _ _) => true | _ => false end.

Lemma ledger_settles rid o l :
  settles rid o -> is_settled (fst (ledger_run o l)) = true ->
  exists r a, lg_holds l !! rid = Some r /\ snd (ledger_run o l) = ledger_settle rid r a l.
Proof.
  destruct o; simpl; try done; intros ->; unfold ledger_commit, ledger_release;
    repeat case_match; simpl; try done; by eexists _, _.
Qed.

(** After a successful settlement the identifier is closed for good. *)
Lemma settled_closed rid o e os :
  engine_inv e -> settles rid o -> op_typed o -> Forall op_typed os ->
  is_settled (fst (run o e)) = true ->
  closed_id rid (ledger_of (snd (run_all os (snd (run o e))))).
Proof.
  intros Hinv Ho Ht Hos Hr. pose proof (run_refines o e Ht Hinv) as E.
  destruct (ledger_settles rid o (ledger_of e) Ho) as (r & a & Hh & Hs).
  { by rewrite E. }
  destruct (inv_reservations e Hinv rid r Hh) as (Hid & _ & _).
  assert (closed_id rid (ledger_of (snd (run o e)))) as Hc.
  { rewrite E in Hs. simpl in Hs. rewrite Hs. split; simpl; [lia|]. apply lookup_delete_eq. }
  pose proof (run_inv o e Ht Hinv) as Hinv1.
  pose proof (ledger_run_all_closed os _ rid Hc) as Hc2. by rewrite run_all_refines in Hc2.
Qed.

(** ** Claims *)

(** ** What the two reports answer *)

(** The totals certified so far: the baseline only moves up. *)
Definition certified (os : list op) (baseline : Z) : Z :=
  fold_left (fun b o => match o with OpRotate total => Z.max b total | _ => b end) os baseline.

(** Only [rotate_certificate_baseline] moves the baseline. *)
Lemma run_certified o e :
  be_last_certified_committed_total (snd (run o e)) = certified [o] (be_last_certified_committed_total e).
Proof.
  destruct e as [b i c r m rt n v l]. destruct o as [t x|t a|t x|t x|rid a|rid| |total]; cbn [certified fold_left].
  8:{ unfold run, rotate_certificate_baseline. engine_simpl. destruct (Z.leb_spec total l); cbn; lia. }
  all: unfold run, try_ensure_tenant, top_up_tenant, try_set_max_reserved_microcents, try_reserve, commit, release,
    try_snapshot, sub_reserved_total; engine_simpl; repeat (case_match; simplify_eq; engine_simpl); done.
Qed.

Lemma run_all_certified os : forall e,
  be_last_certified_committed_total (snd (run_all os e)) = certified os (be_last_certified_committed_total e).
Proof.
  induction os as [|o os IH]; intros e; cbn [run_all]; [done|]. pose proof (run_certified o e) as H.
  destruct (run o e) as [r e1]. specialize (IH e1). destruct (run_all os e1) as [rs e2]. cbn [snd] in *. by rewrite IH, H.
Qed.

Lemma certified_range os : forall b, Forall op_typed os -> 0 <= b -> 0 <= certified os b.
Proof.
  induction os as [|o os IH]; intros b Ho Hb; [done|]. apply list.Forall_cons in Ho as [_ Ho].
  destruct o; cbn [certified fold_left]; apply IH; auto. lia.
Qed.

(** A snapshot that shows the ledger [l]: one row per tenant, and in it the
    grant, what is left of it, the open holds and the spend. *)
Definition shows_ledger (l : Ledger) (snap : BudgetSnapshot) : Prop :=
  NoDup (map tl_tenant_id (bs_tenants snap)) /\
  (forall row, row ∈ bs_tenants snap <-> exists t n, lg_granted l !! t = Some n /\
     row = mkTenantLedger t n (left_of l t n) (held (lg_holds l) t) (spent l t)) /\
  bs_active_reservations snap = Z.of_nat (size (lg_holds l)) /\ bs_wal_high_watermark snap = None.

Lemma ledger_row_shows e t b : engine_inv e -> be_tenant_budgets e !! t = Some b ->
  exists n, be_initial_microcents e !! t = Some n /\
    ledger_row e (t, b) = mkTenantLedger t n (left_of (ledger_of e) t n) (held (be_reservations e) t) (spent (ledger_of e) t).
Proof.
  intros Hinv Hb. destruct (tenant_ledger e t b Hinv Hb) as (v & c & n & Ev & Ec & En & Hl).
  destruct (budget_left e t b Hinv Hb) as (n' & En' & ->). simplify_eq. exists n. split; [done|].
  destruct Hl as (_ & _ & _ & -> & _). unfold ledger_row, spent. simpl. by rewrite Ev, Ec, En.
Qed.

Lemma try_snapshot_shows e snap e' : engine_inv e -> try_snapshot e = (Ok snap, e') -> shows_ledger (ledger_of e) snap.
Proof.
  intros Hinv H. rewrite try_snapshot_exact in H by done. destruct (_ <=? _); [done|]. injection H as <- <-.
  unfold shows_ledger. cbn [bs_tenants bs_active_reservations bs_wal_high_watermark]. fold (snapshot_rows e).
  split_and!; [apply snapshot_rows_nodup| |done|done]. intros row. rewrite snapshot_rows_elem. split.
  - intros (t & b & Hb & ->). destruct (ledger_row_shows e t b Hinv Hb) as (n & Hn & E). by exists t, n.
  - intros (t & n & Hn & ->). destruct (be_tenant_budgets e !! t) as [b|] eqn:Hb.
    + destruct (ledger_row_shows e t b Hinv Hb) as (n' & Hn' & E). simpl in Hn. simplify_eq. by exists t, b.
    + simpl in Hn. by rewrite no_budget_no_grant in Hn.
Qed.

Lemma rotate_answer total e : is_i 64 total -> 0 <= be_last_certified_committed_total e ->
  fst (rotate_certificate_baseline total e) = Z.max 0 (total - be_last_certified_committed_total e).
Proof.
  intros Ht Hb. unfold rotate_certificate_baseline. destruct (Z.leb_spec total (be_last_certified_committed_total e)); cbn [fst];
    [lia|]. rewrite sub_i_exact; [lia|]. int_lia.
Qed.

(** Claim C2: from the empty engine, any sequence of [try_ensure_tenant],
    [top_up_tenant], [try_set_max_reserved_microcents], [try_reserve],
    [commit], [release], [try_snapshot] and [rotate_certificate_baseline] with
    [i64] arguments answers, step by step, as the abstract ledger of grants,
    spend and open holds does with unbounded integers, and ends in a state
    that stands for the same ledger: the balances the engine updates with
    wrapping atomics are always exactly what is left of the grant. A snapshot
    taken then has exactly one row for each tenant of the ledger, with its
    grant, balance, holds and spend, and counts the open holds; and a rotation
    answers what the total exceeds the largest one certified before by. *)
Theorem budget_engine_refines_ledger os :
  Forall op_typed os ->
  ledger_run_all os empty_ledger =
    (fst (run_all os BudgetEngine_new), ledger_of (snd (run_all os BudgetEngine_new))) /\
  (forall snap e', try_snapshot (snd (run_all os BudgetEngine_new)) = (Ok snap, e') ->
     shows_ledger (snd (ledger_run_all os empty_ledger)) snap) /\
  (forall total, is_i 64 total ->
     fst (rotate_certificate_baseline total (snd (run_all os BudgetEngine_new))) = Z.max 0 (total - certified os 0)).
Proof.
  intros Hos. pose proof (run_all_refines os BudgetEngine_new Hos engine_inv_new) as E.
  change (ledger_of BudgetEngine_new) with empty_ledger in E. split; [done|]. rewrite E. cbn [snd].
  pose proof (run_all_inv os BudgetEngine_new Hos engine_inv_new) as Hinv. split.
  - intros snap e'. by apply try_snapshot_shows.
  - intros total Ht. pose proof (certified_range os 0 Hos ltac:(lia)).
    rewrite rotate_answer; rewrite ?run_all_certified; done.
Qed.

Definition sample_ops : list op :=
  [OpEnsure "desk" 100; OpSetCap "desk" 60; OpReserve "desk" 50; OpReserve "desk" 20;
   OpCommit 1 70; OpCommit 1 200; OpRelease 1; OpTopUp "desk" (imax 64); OpSnapshot;
   OpReserve "desk" 30; OpRelease 3].

Lemma budget_engine_refines_ledger_witness :
  fst (run_all sample_ops BudgetEngine_new) =
    [RConfig (Ok tt); RConfig (Ok tt); RReserve (Reserved 50) (Some 1);
     RReserve (ExposureLimitExceeded 50 60) None; RSettle (Committed 30 70);
     RSettle SettlementMissingReservation; RSettle SettlementMissingReservation;
     RTopUp TopUpOverflow; RSnapshot (Some (2 ^ 63 + 3)); RReserve (Reserved 0) (Some 3);
     RSettle (Released 30 30)] /\
  ledger_run_all sample_ops empty_ledger =
    (fst (run_all sample_ops BudgetEngine_new), ledger_of (snd (run_all sample_ops BudgetEngine_new))) /\
  fst (rotate_certificate_baseline 70 (snd (run_all sample_ops BudgetEngine_new))) = 70.
Proof.
  split; [by_compute|]. destruct (budget_engine_refines_ledger sample_ops) as (H1 & _ & H3); [by_compute|].
  split; [exact H1|]. apply (H3 70). by_compute.
Defined.

(** Claim C26: in every reachable engine, restores included, each tenant's
    spendable balance, open holds and lifetime spend are non-negative and add
    up to its grant, the hold total is the sum of its open reservations, and
    the conservation check of a snapshot reports [Balanced] whenever the
    allocator can still issue a snapshot. *)
Theorem budget_conserved e :
  reachable e ->
  (forall t b, remaining_microcents t e = Some b ->
     exists c n, committed_microcents t e = Some c /\ initial_microcents t e = Some n /\
       reserved_microcents t e = held (be_reservations e) t /\
       0 <= b /\ 0 <= reserved_microcents t e /\ 0 <= c /\
       b + reserved_microcents t e + c = n) /\
  (be_next_id e < RECOVERY_ALLOCATOR_MASK -> fst (verify_conservation e) = Some Balanced).
Proof.
  intros He. pose proof (reachable_inv e He) as Hinv. split.
  - intros t b Hb. destruct (tenant_ledger e t b Hinv Hb) as (v & c & n & Ev & Ec & En & ? & ? & ? & Hv & ? & ?).
    exists c, n. unfold reserved_microcents. rewrite Ev. simpl. by split_and!.
  - intros Hn. unfold verify_conservation, BudgetEngine_snapshot. rewrite try_snapshot_exact by done.
    destruct (Z.leb_spec RECOVERY_ALLOCATOR_MASK (be_next_id e)); [lia|]. simpl. f_equal.
    apply conservation_rows_balanced. by apply snapshot_rows_balanced.
Qed.

Lemma budget_conserved_witness :
  reachable (snd (run_all (take 4 sample_ops) BudgetEngine_new)) /\
  fst (verify_conservation (snd (run_all (take 4 sample_ops) BudgetEngine_new))) = Some Balanced.
Proof.
  assert (reachable (snd (run_all (take 4 sample_ops) BudgetEngine_new))) as H.
  { apply reachable_run_all; [by_compute|apply reach_new]. }
  split; [exact H|]. apply (proj2 (budget_conserved _ H)). by_compute.
Defined.

(** Settlement is final. Once a reservation of a reachable engine is
    committed or released, no later sequence of operations can settle it
    again: both [commit] and [release] answer that the reservation is missing,
    and [try_reserve] never issues its identifier a second time. *)
Theorem settlement_is_final rid o e os :
  reachable e -> settles rid o -> op_typed o -> Forall op_typed os ->
  is_settled (fst (run o e)) = true ->
  let e' := snd (run_all os (snd (run o e))) in
  fst (release rid e') = SettlementMissingReservation /\
  (forall a, 0 <= a -> fst (commit rid a e') = SettlementMissingReservation) /\
  (forall t c, snd (fst (try_reserve t c e')) <> Some rid).
Proof.
  intros He Ho Ht Hos Hr. cbv zeta.
  destruct (settled_closed rid o e os (reachable_inv e He) Ho Ht Hos Hr) as [Hlt Hnone].
  simpl in Hlt, Hnone. unfold release, commit. rewrite Hnone. split_and!; [done| |].
  - intros a Ha. by destruct (Z.ltb_spec a 0); [lia|].
  - intros t c. unfold try_reserve, allocate_id. repeat case_match; simpl; try done; simplify_eq.
    intros [=]. lia.
Qed.

Lemma settlement_is_final_witness :
  let e := snd (run_all (take 4 sample_ops) BudgetEngine_new) in
  let e' := snd (run_all (drop 6 sample_ops) (snd (run (OpCommit 1 40) e))) in
  fst (run (OpCommit 1 40) e) = RSettle (Committed 60 40) /\
  fst (release 1 e') = SettlementMissingReservation.
Proof.
  cbv zeta. split; [by_compute|].
  refine (proj1 (settlement_is_final 1 (OpCommit 1 40) _ _ _ _ _ _ _));
    [apply reachable_run_all; [by_compute|apply reach_new]|reflexivity|by_compute|by_compute|by_compute].
Defined.

(** A snapshot of a reachable engine with no open reservation
    restores into any engine, and the rebuilt engine has the same balances,
    grants, spend and hold totals; it has no exposure caps and no
    reservations, and its allocator continues after every identifier the
    original had issued. *)
Theorem snapshot_restore_roundtrip e snap e1 e0 :
  reachable e -> be_reservations e = ∅ -> try_snapshot e = (Ok snap, e1) ->
  exists e2, restore_from_recovery_snapshot snap e0 = (Ok tt, e2) /\
    be_tenant_budgets e2 = be_tenant_budgets e /\
    be_initial_microcents e2 = be_initial_microcents e /\
    be_committed_microcents e2 = be_committed_microcents e /\
    be_tenant_reserved_totals e2 = be_tenant_reserved_totals e /\
    be_reservations e2 = ∅ /\ be_max_reserved_microcents e2 = ∅ /\
    be_next_id e2 = be_next_id e1 /\ be_next_id e < be_next_id e2.
Proof.
  intros He Hr Hs. pose proof (reachable_inv e He) as Hinv. pose proof (inv_next_id e Hinv) as Hn.
  rewrite try_snapshot_exact in Hs by done. fold (snapshot_rows e) in Hs.
  destruct (Z.leb_spec RECOVERY_ALLOCATOR_MASK (be_next_id e)); [done|]. simplify_eq.
  destruct (tagged_version (be_next_id e + 1)) as [Ef Et]; [lia|].
  match goal with |- context [restore_from_recovery_snapshot ?s _] => set (snap := s) end.
  assert (is_ok (fst (restore_from_snapshot snap e0)) = true) as Hok.
  { apply restore_ok. simpl. rewrite Ef, Et. split_and!; [done|lia|].
    unfold ledger_valid; simpl. rewrite Hr, map_size_empty. split_and!; [lia|apply snapshot_rows_nodup| |].
    - by apply snapshot_rows_restorable.
    - by apply snapshot_rows_balanced. }
  destruct (recovered snap e0 Hok) as (e2 & E2 & R).
  exists e2. rewrite (res_open _ _ R), (res_caps _ _ R), (res_next_id _ _ R). simpl. rewrite Ef.
  split_and!; try done; try (destruct e; engine_simpl; lia); apply map_eq; intros t;
    destruct (snapshot_row_fields e t Hinv) as (Fb & Fi & Fc & Fr);
    rewrite ?(res_budgets _ _ R), ?(res_initial _ _ R), ?(res_committed _ _ R), ?(res_reserved _ _ R);
    unfold snap; by rewrite snapshot_row_of.
Qed.

Lemma snapshot_restore_roundtrip_witness :
  let e := snd (run_all sample_ops BudgetEngine_new) in
  exists snap e1 e2, try_snapshot e = (Ok snap, e1) /\
    restore_from_recovery_snapshot snap BudgetEngine_new = (Ok tt, e2) /\
    remaining_microcents "desk" e2 = Some 30 /\ be_next_id e2 = 5.
Proof.
  cbv zeta. set (e := snd (run_all sample_ops BudgetEngine_new)).
  destruct (try_snapshot e) as [[snap|err] e1] eqn:E; [|vm_compute in E; discriminate E].
  destruct (snapshot_restore_roundtrip e snap e1 BudgetEngine_new) as (e2 & H1 & H2 & _ & _ & _ & _ & _ & H3 & _).
  - apply reachable_run_all; [by_compute|apply reach_new].
  - by_compute.
  - exact E.
  - exists snap, e1, e2. split; [done|]. split; [exact H1|]. unfold remaining_microcents. rewrite H2, H3.
    replace e1 with (snd (try_snapshot e)) by (by rewrite E). split; by_compute.
Defined.

(** [restore_from_snapshot] and [restore_from_recovery_snapshot]
    accept exactly the snapshots with the recovery tag, a non-zero allocator
    fence, no active reservations, distinct tenants and rows that are
    non-negative, free of holds and balanced; any other snapshot is refused
    and the engine is left as it was. *)
Theorem restore_accepts_exactly snap e :
  let accepted :=
    Z.land (bs_version snap) RECOVERY_SNAPSHOT_TAG <> 0 /\
    Z.land (bs_version snap) RECOVERY_ALLOCATOR_MASK <> 0 /\ ledger_valid snap in
  (is_ok (fst (restore_from_snapshot snap e)) = true <-> accepted) /\
  (is_ok (fst (restore_from_recovery_snapshot snap e)) = true <-> accepted) /\
  (~ accepted -> snd (restore_from_snapshot snap e) = e /\
                 snd (restore_from_recovery_snapshot snap e) = e).
Proof.
  cbv zeta. destruct (recovery_agrees snap e) as [A1 A2]. rewrite A1, A2, restore_ok.
  split; [done|]. split; [done|]. rewrite <- (restore_ok snap e). intros Hno.
  enough (snd (restore_from_snapshot snap e) = e) by done.
  unfold restore_from_snapshot in *. repeat case_match; simpl in *; try done.
Qed.

(** A legacy snapshot migrated with a trusted next identifier is
    accepted by recovery, and the rebuilt engine's allocator starts at that
    identifier with the legacy balances; migration refuses already tagged
    snapshots and fences outside [1 .. 2^63 - 1]. *)
Theorem legacy_migration_restores snapshot fence e :
  is_u 64 fence ->
  match migrate_legacy_snapshot snapshot fence with
  | Ok snap =>
      exists e', restore_from_recovery_snapshot snap e = (Ok tt, e') /\ be_next_id e' = fence /\
        (forall t, be_tenant_budgets e' !! t = tl_remaining_microcents <$> row_of snapshot t) /\
        (forall t, be_committed_microcents e' !! t = tl_committed_microcents <$> row_of snapshot t)
  | Err AlreadyRecoveryAware => Z.land (bs_version snapshot) RECOVERY_SNAPSHOT_TAG <> 0
  | Err (MigrationInvalidAllocatorFence v _) =>
      v = fence /\ (fence = 0 \/ RECOVERY_ALLOCATOR_MASK < fence)
  | Err (MigrationInvalidSnapshot err) =>
      validate_snapshot_ledger snapshot = Err err /\ ~ ledger_valid snapshot
  end.
Proof.
  intros Hu. unfold migrate_legacy_snapshot.
  destruct (Z.eqb_spec (Z.land (bs_version snapshot) RECOVERY_SNAPSHOT_TAG) 0); simpl; [|done].
  destruct (Z.eqb_spec fence 0); simpl; [by split; [|left]|].
  destruct (Z.ltb_spec RECOVERY_ALLOCATOR_MASK fence); simpl; [by split; [|right]|].
  pose proof (validate_snapshot_ledger_ok snapshot) as V.
  destruct (validate_snapshot_ledger snapshot) as [[]|err]; simpl; [|split; [done|]; intros H'; by apply V in H'].
  destruct V as [V _]. specialize (V eq_refl). destruct (tagged_version fence) as [Ef Et]; [int_lia|].
  match goal with |- context [restore_from_recovery_snapshot ?s _] => set (snap := s) end.
  assert (is_ok (fst (restore_from_snapshot snap e)) = true) as Hok.
  { apply restore_ok. simpl. by rewrite Ef, Et. }
  destruct (recovered snap e Hok) as (e' & E & R). exists e'. split; [done|].
  rewrite (res_next_id _ _ R). split; [done|]. split; intros t; apply R.
Qed.

Definition legacy_snapshot : BudgetSnapshot :=
  mkBudgetSnapshot 7 [mkTenantLedger "desk" 100 60 0 40] 0 None.

Lemma legacy_migration_restores_witness :
  is_u 64 12 /\
  exists e', restore_from_recovery_snapshot
    (mkBudgetSnapshot (2 ^ 63 + 12) [mkTenantLedger "desk" 100 60 0 40] 0 None) BudgetEngine_new
      = (Ok tt, e') /\ be_next_id e' = 12.
Proof.
  split; [by_compute|].
  assert (is_u 64 12) as Hu by by_compute.
  pose proof (legacy_migration_restores legacy_snapshot 12 BudgetEngine_new Hu) as H.
  replace (migrate_legacy_snapshot legacy_snapshot 12) with
    (@Ok LegacySnapshotMigrationError _
      (mkBudgetSnapshot (2 ^ 63 + 12) [mkTenantLedger "desk" 100 60 0 40] 0 None)) in H by by_compute.
  destruct H as (e' & H1 & H2 & _). by exists e'.
Defined.

(** An operation's answer that reports a refusal. *)
Definition refused (r : response) : bool :=
  match r with
  | RConfig (Err _) => true
  | RTopUp (ToppedUp _ _ _) => false
  | RTopUp _ => true
  | RReserve (Reserved _) _ => false
  | RReserve _ _ => true
  | RSettle (Committed _ _) | RSettle (Released _ _) => false
  | RSettle _ => true
  | RSnapshot None => true
  | _ => false
  end.

(** A refused operation on a reachable engine changes nothing, with
    one exception: a reservation refused for lack of funds has consumed one
    identifier. In particular an overrun leaves the reservation open and every
    balance as it was. *)
Theorem refused_changes_nothing o e :
  reachable e -> op_typed o -> refused (fst (run o e)) = true ->
  snd (run o e) = e \/
  (exists t c b, o = OpReserve t c /\ fst (run o e) = RReserve (Insufficient b c) None /\
     remaining_microcents t e = Some b /\ b < c /\
     snd (run o e) = set_next_id (be_next_id e + 1) e).
Proof.
  intros He Ht. pose proof (reachable_inv e He) as Hinv.
  destruct o as [t b|t a|t m|t c|rid a|rid| |total]; simpl in Ht |- *.
  - unfold try_ensure_tenant. repeat case_match; simpl; simplify_eq; try done; by left.
  - unfold top_up_tenant. repeat case_match; simpl; simplify_eq; try done; by left.
  - unfold try_set_max_reserved_microcents. repeat case_match; simpl; simplify_eq; try done; by left.
  - rewrite try_reserve_exact by done. destruct (_ <=? _); simpl; [by left|].
    destruct (be_tenant_budgets e !! t) as [b|] eqn:Eb; simpl; [|by left].
    destruct (_ <? _); simpl; [by left|]. destruct (_ && _); simpl; [by left|].
    destruct (_ <=? _); simpl; [by left|].
    destruct (Z.ltb_spec b c); simpl; [|done]. intros _. right. by exists t, c, b.
  - rewrite commit_exact by done. destruct (_ <? _); simpl; [by left|].
    repeat case_match; simpl; simplify_eq; done || (intros _; by left) || (intros; by left).
  - rewrite release_exact by done. repeat case_match; simpl; simplify_eq; try done; by left.
  - rewrite try_snapshot_exact by done. repeat case_match; simpl; simplify_eq; try done; by left.
  - done.
Qed.

Lemma refused_changes_nothing_witness :
  let e := snd (run_all (take 3 sample_ops) BudgetEngine_new) in
  fst (run (OpCommit 1 101) e) = RSettle (Overrun 50) /\ snd (run (OpCommit 1 101) e) = e.
Proof.
  cbv zeta. split; [by_compute|].
  destruct (refused_changes_nothing (OpCommit 1 101) (snd (run_all (take 3 sample_ops) BudgetEngine_new)))
    as [H|(t & c & b & H & _)].
  - apply reachable_run_all; [by_compute|apply reach_new].
  - by_compute.
  - by_compute.
  - exact H.
  - discriminate H.
Defined.

(** ** The owned handle *)

(** [Reservation::commit] hands the reservation back only on [Overrun]. With a
    negative actual cost it consumes the handle while the hold stays open in
    the engine: nothing owns it any more. *)
Theorem owned_commit_loses_hold r a e :
  a < 0 -> Reservation_commit r a e = (Ok InvalidAmount, e).
Proof. intros Ha. unfold Reservation_commit, commit. by destruct (Z.ltb_spec a 0); [|lia]. Qed.
