(* ===== verification/BudgetConc.v ===== *)
(** * The budget engine under concurrency ([src/budget.rs], [src/sync.rs])

    [Budget.v] gives each public operation as one function of the engine. Here
    the operations are what the threads of the program really run: sequences
    of lock acquisitions, map accesses and accesses to the atomics, which the
    scheduler may interleave. A program point ([pc]) carries the locals of an
    operation, [guards] the mutex guards alive there, and [tstep] is one step
    of one thread: it is blocked while a lock it wants is held by another
    thread, and it says which abstract event, if any, takes effect at that
    step. Atomics live in a store of cells and the maps hold their addresses,
    so an [Arc] a thread cloned and the one in the map are the same cell only
    because nothing replaced the map's entry in between. Accesses to the
    atomics are sequentially consistent. *)

From S2P Require Import Prelude Budget BudgetInv BudgetSpec.
#[local] Open Scope Z_scope.

(** ** Shared state *)

(** The address of an [AtomicI64]: its index in the store of cells. *)
Abbreviation addr := nat.

(** The engine as the threads share it. *)
Record Shared := mkShared {
  sh_cells : list Z;
  sh_tenant_budgets : gmap string addr;
  sh_initial_microcents : gmap string Z;
  sh_committed_microcents : gmap string Z;
  sh_reservations : gmap Z ReservationRecord;
  sh_max_reserved_microcents : gmap string Z;
  sh_tenant_reserved_totals : gmap string addr;
  sh_next_id : Z;
  sh_snapshot_version : Z;
  sh_last_certified_committed_total : Z
}.

Definition Shared_new : Shared := mkShared [] ∅ ∅ ∅ ∅ ∅ ∅ 1 0 0.

(** Loads and stores of a cell; every address a thread has is one that was
    allocated, so the default is never read. *)
Definition cell (s : Shared) (l : addr) : Z := default 0 (sh_cells s !! l).
Definition store (l : addr) (v : Z) (s : Shared) : Shared :=
  mkShared (<[l := v]> (sh_cells s)) (sh_tenant_budgets s) (sh_initial_microcents s)
    (sh_committed_microcents s) (sh_reservations s) (sh_max_reserved_microcents s)
    (sh_tenant_reserved_totals s) (sh_next_id s) (sh_snapshot_version s)
    (sh_last_certified_committed_total s).

Definition put_initial (t : string) (v : Z) (s : Shared) : Shared :=
  mkShared (sh_cells s) (sh_tenant_budgets s) (<[t := v]> (sh_initial_microcents s))
    (sh_committed_microcents s) (sh_reservations s) (sh_max_reserved_microcents s)
    (sh_tenant_reserved_totals s) (sh_next_id s) (sh_snapshot_version s)
    (sh_last_certified_committed_total s).
Definition put_committed (t : string) (v : Z) (s : Shared) : Shared :=
  mkShared (sh_cells s) (sh_tenant_budgets s) (sh_initial_microcents s)
    (<[t := v]> (sh_committed_microcents s)) (sh_reservations s) (sh_max_reserved_microcents s)
    (sh_tenant_reserved_totals s) (sh_next_id s) (sh_snapshot_version s)
    (sh_last_certified_committed_total s).
Definition put_reservations (r : gmap Z ReservationRecord) (s : Shared) : Shared :=
  mkShared (sh_cells s) (sh_tenant_budgets s) (sh_initial_microcents s) (sh_committed_microcents s)
    r (sh_max_reserved_microcents s) (sh_tenant_reserved_totals s) (sh_next_id s)
    (sh_snapshot_version s) (sh_last_certified_committed_total s).
Definition put_max (m : gmap string Z) (s : Shared) : Shared :=
  mkShared (sh_cells s) (sh_tenant_budgets s) (sh_initial_microcents s) (sh_committed_microcents s)
    (sh_reservations s) m (sh_tenant_reserved_totals s) (sh_next_id s) (sh_snapshot_version s)
    (sh_last_certified_committed_total s).
Definition put_next_id (n : Z) (s : Shared) : Shared :=
  mkShared (sh_cells s) (sh_tenant_budgets s) (sh_initial_microcents s) (sh_committed_microcents s)
    (sh_reservations s) (sh_max_reserved_microcents s) (sh_tenant_reserved_totals s) n
    (sh_snapshot_version s) (sh_last_certified_committed_total s).
Definition put_version (w : Z) (s : Shared) : Shared :=
  mkShared (sh_cells s) (sh_tenant_budgets s) (sh_initial_microcents s) (sh_committed_microcents s)
    (sh_reservations s) (sh_max_reserved_microcents s) (sh_tenant_reserved_totals s) (sh_next_id s)
    w (sh_last_certified_committed_total s).
Definition put_certified (g : Z) (s : Shared) : Shared :=
  mkShared (sh_cells s) (sh_tenant_budgets s) (sh_initial_microcents s) (sh_committed_microcents s)
    (sh_reservations s) (sh_max_reserved_microcents s) (sh_tenant_reserved_totals s) (sh_next_id s)
    (sh_snapshot_version s) g.

(** [budgets.insert(key, Arc::new(AtomicI64::new(r)))], the two plain maps,
    and [reserved_totals.insert(key, Arc::new(AtomicI64::new(v)))]. *)
Definition insert_tenant (t : string) (r n c v : Z) (s : Shared) : Shared :=
  mkShared (sh_cells s ++ [r; v]) (<[t := length (sh_cells s)]> (sh_tenant_budgets s))
    (<[t := n]> (sh_initial_microcents s)) (<[t := c]> (sh_committed_microcents s))
    (sh_reservations s) (sh_max_reserved_microcents s)
    (<[t := S (length (sh_cells s))]> (sh_tenant_reserved_totals s)) (sh_next_id s)
    (sh_snapshot_version s) (sh_last_certified_committed_total s).

(** The engine [Budget.v] works on: every atomic read through its address. *)
Definition engine_of (s : Shared) : BudgetEngine :=
  mkBudgetEngine (cell s <$> sh_tenant_budgets s) (sh_initial_microcents s)
    (sh_committed_microcents s) (sh_reservations s) (sh_max_reserved_microcents s)
    (cell s <$> sh_tenant_reserved_totals s) (sh_next_id s) (sh_snapshot_version s)
    (sh_last_certified_committed_total s).

(** ** Locks *)

Inductive lock := LReservations | LBudgets | LInitials | LCommitted | LTotals | LLimits.
#[export] Instance lock_eq_dec : EqDecision lock.
Proof. solve_decision. Defined.

(** ** Calls and answers *)

Inductive call :=
| Call (o : op)
| CallRestore (snap : BudgetSnapshot).

Inductive answer :=
| Answer (r : response)
| AnswerSnapshot (r : result SnapshotAllocatorError BudgetSnapshot)
| AnswerRestore (r : result RestoreError unit).

(** ** Program points

    One constructor per point between two accesses to shared state, named
    after its operation ([R]eserve, [C]ommit, re[L]ease, [T]op up, [E]nsure,
    e[X]clusive) and what it is about to do, with the locals alive there.
    [Ret] has dropped its mutex guards and still holds the shared gate. *)

Inductive pc :=
| R_gate (t : string) (c : Z)
| R_budgets (t : string) (c : Z)
| R_totals (t : string) (c : Z)
| R_clone (t : string) (c : Z)
| R_limits (t : string) (c : Z) (b v : addr)
| R_max (t : string) (c : Z) (b v : addr)
| R_load (t : string) (c : Z) (b v : addr) (m : Z)
| R_cas (t : string) (c : Z) (b v : addr) (m current : Z)
| R_overflow (t : string) (c : Z) (v : addr)
| R_alloc (t : string) (c : Z) (b v : addr)
| R_unreserve (t : string) (c : Z) (v : addr)
| R_balance (t : string) (c : Z) (b v : addr) (id : Z)
| R_debit (t : string) (c : Z) (b v : addr) (id current : Z)
| R_undo (t : string) (c : Z) (v : addr) (current : Z)
| R_reservations (t : string) (c id remaining : Z)
| R_insert (t : string) (c id remaining : Z)
| C_gate (id a : Z)
| C_reservations (id a : Z)
| C_remove (id a : Z)
| C_budgets (id a : Z) (r : ReservationRecord)
| C_clone (id a : Z) (r : ReservationRecord)
| C_committed (id a : Z) (r : ReservationRecord) (b : addr)
| C_check (id a : Z) (r : ReservationRecord) (b : addr)
| C_overflow (id a : Z) (r : ReservationRecord) (b : addr)
| C_overflow_load (id a : Z) (b : addr)
| C_balance (id a : Z) (r : ReservationRecord) (b : addr) (new_committed : Z)
| C_debit (id a : Z) (r : ReservationRecord) (b : addr) (new_committed current : Z)
| C_overrun (id a : Z) (r : ReservationRecord) (remaining : Z)
| C_record (id a : Z) (r : ReservationRecord) (b : addr) (new_committed : Z)
| C_refund (id a : Z) (r : ReservationRecord) (b : addr)
| C_totals (id a : Z) (r : ReservationRecord) (b : addr)
| C_sub (id a : Z) (r : ReservationRecord) (b : addr)
| C_remaining (id a : Z) (b : addr)
| L_gate (id : Z)
| L_reservations (id : Z)
| L_remove (id : Z)
| L_budgets (id : Z) (r : ReservationRecord)
| L_clone (id : Z) (r : ReservationRecord)
| L_totals (id : Z) (r : ReservationRecord) (b : addr)
| L_sub (id : Z) (r : ReservationRecord) (b : addr)
| L_credit (id : Z) (r : ReservationRecord) (b : addr)
| T_gate (t : string) (a : Z)
| T_budgets (t : string) (a : Z)
| T_clone (t : string) (a : Z)
| T_initials (t : string) (a : Z) (b : addr)
| T_check (t : string) (a : Z) (b : addr)
| T_balance (t : string) (a : Z) (b : addr) (new_initial : Z)
| T_credit (t : string) (a : Z) (b : addr) (new_initial current : Z)
| T_store (t : string) (a : Z) (new_initial remaining : Z)
| E_gate (t : string) (n : Z)
| E_budgets (t : string) (n : Z)
| E_initials (t : string) (n : Z)
| E_committed (t : string) (n : Z)
| E_totals (t : string) (n : Z)
| E_insert (t : string) (n : Z)
| X_set_cap (t : string) (m : Z)
| X_snapshot
| X_restore (snap : BudgetSnapshot) (next_id certified : Z)
| X_rotate (total : Z)
| Ret (k : call) (r : answer)
| Done (k : call) (r : answer).

(** The mutex guards alive at a point, outermost first. *)
Definition guards (p : pc) : list lock :=
  match p with
  | R_totals _ _ => [LBudgets]
  | R_clone _ _ => [LBudgets; LTotals]
  | R_max _ _ _ _ => [LLimits]
  | R_insert _ _ _ _ => [LReservations]
  | C_remove _ _ | C_budgets _ _ _ => [LReservations]
  | C_clone _ _ _ => [LReservations; LBudgets]
  | C_committed _ _ _ _ => [LReservations]
  | C_check _ _ _ _ => [LReservations; LCommitted]
  | C_overflow _ _ _ _ | C_overflow_load _ _ _ => [LReservations]
  | C_balance _ _ _ _ _ | C_debit _ _ _ _ _ _ => [LReservations; LCommitted]
  | C_overrun _ _ _ _ => [LReservations]
  | C_record _ _ _ _ _ => [LReservations; LCommitted]
  | C_refund _ _ _ _ | C_totals _ _ _ _ => [LReservations]
  | C_sub _ _ _ _ => [LReservations; LTotals]
  | C_remaining _ _ _ => [LReservations]
  | L_remove _ | L_budgets _ _ => [LReservations]
  | L_clone _ _ => [LReservations; LBudgets]
  | L_totals _ _ _ => [LReservations]
  | L_sub _ _ _ => [LReservations; LTotals]
  | L_credit _ _ _ => [LReservations]
  | T_clone _ _ => [LBudgets]
  | T_check _ _ _ | T_balance _ _ _ _ | T_credit _ _ _ _ _ | T_store _ _ _ _ => [LInitials]
  | E_initials _ _ => [LBudgets]
  | E_committed _ _ => [LBudgets; LInitials]
  | E_totals _ _ => [LBudgets; LInitials; LCommitted]
  | E_insert _ _ => [LBudgets; LInitials; LCommitted; LTotals]
  | _ => []
  end.

(** The points outside [checkpoint_gate]. *)
Definition outside (p : pc) : bool :=
  match p with
  | R_gate _ _ | C_gate _ _ | L_gate _ | T_gate _ _ | E_gate _ _
  | X_set_cap _ _ | X_snapshot | X_restore _ _ _ | X_rotate _ | Done _ _ => true
  | _ => false
  end.

Definition free (l : lock) (ts : list pc) : bool :=
  forallb (fun p => negb (bool_decide (l ∈ guards p))) ts.

(** No thread holds the gate: what [checkpoint_gate.write()] waits for. *)
Definition quiescent (ts : list pc) : bool := forallb outside ts.

(** ** Abstract events *)

Inductive event :=
| EvEnsure (t : string) (n : Z)
| EvTopUp (t : string) (a : Z)
| EvReserve (id : Z) (t : string) (c : Z)
| EvCommit (id a : Z)
| EvRelease (id : Z)
| EvSetCap (t : string) (m : Z)
| EvSnapshot (snap : BudgetSnapshot)
| EvRestore (snap : BudgetSnapshot).

(** ** Entering an operation: the checks made before any lock is taken *)

Definition start (k : call) : pc :=
  match k with
  | Call (OpEnsure t n) =>
      if n <? 0 then Done k (Answer (RConfig (Err (NegativeAmount "budget_microcents" n))))
      else E_gate t n
  | Call (OpTopUp t a) =>
      if a <=? 0 then Done k (Answer (RTopUp TopUpInvalidAmount)) else T_gate t a
  | Call (OpSetCap t m) =>
      if m <? 0 then Done k (Answer (RConfig (Err (NegativeAmount "max_reserved_microcents" m))))
      else X_set_cap t m
  | Call (OpReserve t c) =>
      if c <=? 0 then Done k (Answer (RReserve (Insufficient 0 c) None)) else R_gate t c
  | Call (OpCommit id a) =>
      if a <? 0 then Done k (Answer (RSettle InvalidAmount)) else C_gate id a
  | Call (OpRelease id) => L_gate id
  | Call OpSnapshot => X_snapshot
  | Call (OpRotate total) => X_rotate total
  | CallRestore snap =>
      match validate_snapshot_for_restore snap with
      | Err e => Done k (AnswerRestore (Err e))
      | Ok _ =>
          match allocator_from_snapshot_version (bs_version snap) with
          | Err e => Done k (AnswerRestore (Err e))
          | Ok next_id =>
              X_restore snap next_id
                (default (imax 64)
                   (fold_left
                      (fun acc tenant =>
                         acc ≫= fun total => checked_i 64 (total + tl_committed_microcents tenant))
                      (bs_tenants snap) (Some 0)))
          end
      end
  end.

(** ** Steps *)

(** [compare_exchange_weak] on cell [l]: it may fail without cause. *)
Definition cas (spurious : bool) (l : addr) (current new : Z) (s : Shared) : option Shared :=
  if negb spurious && (cell s l =? current) then Some (store l new s) else None.

(** The exclusive operations, which run with no other thread inside the gate. *)
Definition restore_tenant (s : Shared) (ledger : TenantLedger) : Shared :=
  insert_tenant (tl_tenant_id ledger) (tl_remaining_microcents ledger)
    (tl_initial_microcents ledger) (tl_committed_microcents ledger)
    (tl_reserved_microcents ledger) s.

Definition restore_shared (snap : BudgetSnapshot) (next_id certified : Z) (s : Shared) : Shared :=
  let cleared :=
    mkShared (sh_cells s) ∅ ∅ ∅ ∅ ∅ ∅ (sh_next_id s) (sh_snapshot_version s)
      (sh_last_certified_committed_total s) in
  put_certified certified
    (put_version (bs_version snap)
       (put_next_id next_id (fold_left restore_tenant (bs_tenants snap) cleared))).

Definition settled_delta (a : Z) (r : ReservationRecord) : Z :=
  sub_i 64 a (rr_reserved_microcents r).

Definition fail_reserve (t : string) (c : Z) (r : BudgetReservation) : pc :=
  Ret (Call (OpReserve t c)) (Answer (RReserve r None)).
Definition ret_settle (k : op) (r : BudgetSettlement) : pc := Ret (Call k) (Answer (RSettle r)).
Definition ret_top_up (t : string) (a : Z) (r : TopUpResult) : pc :=
  Ret (Call (OpTopUp t a)) (Answer (RTopUp r)).

(** The outcome of a step: the shared state, the thread's next point, and the
    event that takes effect. *)
Abbreviation outcome := (Shared * pc * option event)%type.

Definition tau (s : Shared) (p : pc) : option outcome := Some (s, p, None).
Definition acquire (l : lock) (ts : list pc) (s : Shared) (p : pc) : option outcome :=
  if free l ts then tau s p else None.

(** [try_reserve]. *)
Definition step_reserve (spurious : bool) (ts : list pc) (s : Shared) (p : pc) : option outcome :=
  match p with
  | R_gate t c => tau s (R_budgets t c)
  | R_budgets t c => acquire LBudgets ts s (R_totals t c)
  | R_totals t c => acquire LTotals ts s (R_clone t c)
  | R_clone t c =>
      match sh_tenant_budgets s !! t, sh_tenant_reserved_totals s !! t with
      | Some b, Some v => tau s (R_limits t c b v)
      | _, _ => tau s (fail_reserve t c MissingTenant)
      end
  | R_limits t c b v => acquire LLimits ts s (R_max t c b v)
  | R_max t c b v => tau s (R_load t c b v (default 0 (sh_max_reserved_microcents s !! t)))
  | R_load t c b v m => tau s (R_cas t c b v m (cell s v))
  | R_cas t c b v m current =>
      match checked_i 64 (current + c) with
      | None => tau s (R_overflow t c v)
      | Some new_total =>
          if (0 <? m) && (m <? new_total) then
            tau s (fail_reserve t c (ExposureLimitExceeded current m))
          else
            match cas spurious v current new_total s with
            | Some s' => tau s' (R_alloc t c b v)
            | None => tau s (R_cas t c b v m (cell s v))
            end
      end
  | R_overflow t c v => tau s (fail_reserve t c (ReservationOverflow (cell s v)))
  | R_alloc t c b v =>
      match allocate_id (sh_next_id s) with
      | None => tau s (R_unreserve t c v)
      | Some (id, next_id) => tau (put_next_id next_id s) (R_balance t c b v id)
      end
  | R_unreserve t c v => tau (store v (sub_i 64 (cell s v) c) s) (R_overflow t c v)
  | R_balance t c b v id => tau s (R_debit t c b v id (cell s b))
  | R_debit t c b v id current =>
      if current <? c then tau s (R_undo t c v current)
      else
        match cas spurious b current (sub_i 64 current c) s with
        | Some s' => Some (s', R_reservations t c id (sub_i 64 current c), Some (EvReserve id t c))
        | None => tau s (R_debit t c b v id (cell s b))
        end
  | R_undo t c v current =>
      tau (store v (sub_i 64 (cell s v) c) s) (fail_reserve t c (Insufficient current c))
  | R_reservations t c id remaining => acquire LReservations ts s (R_insert t c id remaining)
  | R_insert t c id remaining =>
      tau (put_reservations (<[id := mkReservationRecord t c]> (sh_reservations s)) s)
        (Ret (Call (OpReserve t c)) (Answer (RReserve (Reserved remaining) (Some id))))
  | _ => None
  end.

(** [reservations.insert(reservation_id, reservation)] on the failing paths. *)
Definition reinsert (id : Z) (r : ReservationRecord) (s : Shared) : Shared :=
  put_reservations (<[id := r]> (sh_reservations s)) s.

(** [totals.get(&tenant_key)] and, when present, its [fetch_sub]. *)
Definition sub_total (r : ReservationRecord) (s : Shared) : Shared :=
  match sh_tenant_reserved_totals s !! rr_tenant_id r with
  | Some v => store v (sub_i 64 (cell s v) (rr_reserved_microcents r)) s
  | None => s
  end.

(** [commit]. The event takes effect at the debit of an overrun, and where the
    spend is recorded otherwise. *)
Definition step_commit (spurious : bool) (ts : list pc) (s : Shared) (p : pc) : option outcome :=
  match p with
  | C_gate id a => tau s (C_reservations id a)
  | C_reservations id a => acquire LReservations ts s (C_remove id a)
  | C_remove id a =>
      match sh_reservations s !! id with
      | None => tau s (ret_settle (OpCommit id a) SettlementMissingReservation)
      | Some r => tau (put_reservations (delete id (sh_reservations s)) s) (C_budgets id a r)
      end
  | C_budgets id a r => acquire LBudgets ts s (C_clone id a r)
  | C_clone id a r =>
      match sh_tenant_budgets s !! rr_tenant_id r with
      | Some b => tau s (C_committed id a r b)
      | None => tau (reinsert id r s) (ret_settle (OpCommit id a) SettlementMissingTenant)
      end
  | C_committed id a r b => acquire LCommitted ts s (C_check id a r b)
  | C_check id a r b =>
      match checked_i 64 (default 0 (sh_committed_microcents s !! rr_tenant_id r) + a) with
      | None => tau s (C_overflow id a r b)
      | Some new_committed =>
          if 0 <? settled_delta a r then tau s (C_balance id a r b new_committed)
          else tau s (C_record id a r b new_committed)
      end
  | C_overflow id a r b => tau (reinsert id r s) (C_overflow_load id a b)
  | C_overflow_load id a b =>
      tau s (ret_settle (OpCommit id a) (SettlementOverflow (cell s b)))
  | C_balance id a r b n => tau s (C_debit id a r b n (cell s b))
  | C_debit id a r b n current =>
      if current <? settled_delta a r then tau s (C_overrun id a r current)
      else
        match cas spurious b current (sub_i 64 current (settled_delta a r)) s with
        | Some s' => Some (s', C_record id a r b n, Some (EvCommit id a))
        | None => tau s (C_debit id a r b n (cell s b))
        end
  | C_overrun id a r remaining =>
      tau (reinsert id r s) (ret_settle (OpCommit id a) (Overrun remaining))
  | C_record id a r b n =>
      let s' := put_committed (rr_tenant_id r) n s in
      if 0 <? settled_delta a r then tau s' (C_totals id a r b)
      else if settled_delta a r <? 0 then Some (s', C_refund id a r b, Some (EvCommit id a))
      else Some (s', C_totals id a r b, Some (EvCommit id a))
  | C_refund id a r b =>
      tau (store b (add_i 64 (cell s b) (sub_i 64 0 (settled_delta a r))) s) (C_totals id a r b)
  | C_totals id a r b => acquire LTotals ts s (C_sub id a r b)
  | C_sub id a r b => tau (sub_total r s) (C_remaining id a b)
  | C_remaining id a b => tau s (ret_settle (OpCommit id a) (Committed (cell s b) a))
  | _ => None
  end.

(** [release]. The event takes effect where the hold leaves the total. *)
Definition step_release (ts : list pc) (s : Shared) (p : pc) : option outcome :=
  match p with
  | L_gate id => tau s (L_reservations id)
  | L_reservations id => acquire LReservations ts s (L_remove id)
  | L_remove id =>
      match sh_reservations s !! id with
      | None => tau s (ret_settle (OpRelease id) SettlementMissingReservation)
      | Some r => tau (put_reservations (delete id (sh_reservations s)) s) (L_budgets id r)
      end
  | L_budgets id r => acquire LBudgets ts s (L_clone id r)
  | L_clone id r =>
      match sh_tenant_budgets s !! rr_tenant_id r with
      | Some b => tau s (L_totals id r b)
      | None => tau (reinsert id r s) (ret_settle (OpRelease id) SettlementMissingTenant)
      end
  | L_totals id r b => acquire LTotals ts s (L_sub id r b)
  | L_sub id r b => Some (sub_total r s, L_credit id r b, Some (EvRelease id))
  | L_credit id r b =>
      let returned := rr_reserved_microcents r in
      tau (store b (add_i 64 (cell s b) returned) s)
        (ret_settle (OpRelease id) (Released (add_i 64 (cell s b) returned) returned))
  | _ => None
  end.

(** [top_up_tenant]. The event takes effect at the credit. *)
Definition step_top_up (spurious : bool) (ts : list pc) (s : Shared) (p : pc) : option outcome :=
  match p with
  | T_gate t a => tau s (T_budgets t a)
  | T_budgets t a => acquire LBudgets ts s (T_clone t a)
  | T_clone t a =>
      match sh_tenant_budgets s !! t with
      | Some b => tau s (T_initials t a b)
      | None => tau s (ret_top_up t a TopUpMissingTenant)
      end
  | T_initials t a b => acquire LInitials ts s (T_check t a b)
  | T_check t a b =>
      match sh_initial_microcents s !! t with
      | None => tau s (ret_top_up t a TopUpMissingTenant)
      | Some current_initial =>
          match checked_i 64 (current_initial + a) with
          | None => tau s (ret_top_up t a TopUpOverflow)
          | Some new_initial => tau s (T_balance t a b new_initial)
          end
      end
  | T_balance t a b n => tau s (T_credit t a b n (cell s b))
  | T_credit t a b n current =>
      match checked_i 64 (current + a) with
      | None => tau s (ret_top_up t a TopUpOverflow)
      | Some new =>
          match cas spurious b current new s with
          | Some s' => Some (s', T_store t a n new, Some (EvTopUp t a))
          | None => tau s (T_credit t a b n (cell s b))
          end
      end
  | T_store t a n remaining => tau (put_initial t n s) (ret_top_up t a (ToppedUp a n remaining))
  | _ => None
  end.

(** [try_ensure_tenant]. *)
Definition step_ensure (ts : list pc) (s : Shared) (p : pc) : option outcome :=
  match p with
  | E_gate t n => tau s (E_budgets t n)
  | E_budgets t n => acquire LBudgets ts s (E_initials t n)
  | E_initials t n => acquire LInitials ts s (E_committed t n)
  | E_committed t n => acquire LCommitted ts s (E_totals t n)
  | E_totals t n => acquire LTotals ts s (E_insert t n)
  | E_insert t n =>
      Some (match sh_tenant_budgets s !! t with
            | Some _ => s
            | None => insert_tenant t n n 0 0 s
            end,
            Ret (Call (OpEnsure t n)) (Answer (RConfig (Ok tt))), Some (EvEnsure t n))
  | _ => None
  end.

(** The operations under the exclusive gate, the certificate baseline behind
    its own mutex, and leaving the gate. *)
Definition step_exclusive (ts : list pc) (s : Shared) (p : pc) : option outcome :=
  match p with
  | X_set_cap t m =>
      if quiescent ts then
        let limits := sh_max_reserved_microcents s in
        Some (put_max (if m =? 0 then delete t limits else <[t := m]> limits) s,
              Done (Call (OpSetCap t m)) (Answer (RConfig (Ok tt))), Some (EvSetCap t m))
      else None
  | X_snapshot =>
      if quiescent ts then
        let '(r, e') := try_snapshot (engine_of s) in
        Some (put_version (be_snapshot_version e') (put_next_id (be_next_id e') s),
              Done (Call OpSnapshot) (AnswerSnapshot r),
              match r with Ok snap => Some (EvSnapshot snap) | Err _ => None end)
      else None
  | X_restore snap next_id certified =>
      if quiescent ts then
        Some (restore_shared snap next_id certified s,
              Done (CallRestore snap) (AnswerRestore (Ok tt)), Some (EvRestore snap))
      else None
  | X_rotate total =>
      tau (put_certified
             (be_last_certified_committed_total (snd (rotate_certificate_baseline total (engine_of s)))) s)
        (Done (Call (OpRotate total)) (Answer RRotate))
  | Ret k r => tau s (Done k r)
  | _ => None
  end.

Definition tstep (spurious : bool) (ts : list pc) (s : Shared) (p : pc) : option outcome :=
  match p with
  | R_gate _ _ | R_budgets _ _ | R_totals _ _ | R_clone _ _ | R_limits _ _ _ _ | R_max _ _ _ _
  | R_load _ _ _ _ _ | R_cas _ _ _ _ _ _ | R_overflow _ _ _ | R_alloc _ _ _ _ | R_unreserve _ _ _
  | R_balance _ _ _ _ _ | R_debit _ _ _ _ _ _ | R_undo _ _ _ _ | R_reservations _ _ _ _
  | R_insert _ _ _ _ => step_reserve spurious ts s p
  | C_gate _ _ | C_reservations _ _ | C_remove _ _ | C_budgets _ _ _ | C_clone _ _ _
  | C_committed _ _ _ _ | C_check _ _ _ _ | C_overflow _ _ _ _ | C_overflow_load _ _ _
  | C_balance _ _ _ _ _ | C_debit _ _ _ _ _ _ | C_overrun _ _ _ _ | C_record _ _ _ _ _
  | C_refund _ _ _ _ | C_totals _ _ _ _ | C_sub _ _ _ _ | C_remaining _ _ _ =>
      step_commit spurious ts s p
  | L_gate _ | L_reservations _ | L_remove _ | L_budgets _ _ | L_clone _ _ | L_totals _ _ _
  | L_sub _ _ _ | L_credit _ _ _ => step_release ts s p
  | T_gate _ _ | T_budgets _ _ | T_clone _ _ | T_initials _ _ _ | T_check _ _ _ | T_balance _ _ _ _
  | T_credit _ _ _ _ _ | T_store _ _ _ _ => step_top_up spurious ts s p
  | E_gate _ _ | E_budgets _ _ | E_initials _ _ | E_committed _ _ | E_totals _ _ | E_insert _ _ =>
      step_ensure ts s p
  | X_set_cap _ _ | X_snapshot | X_restore _ _ _ | X_rotate _ | Ret _ _ | Done _ _ =>
      step_exclusive ts s p
  end.

(** ** The pool of threads *)

Record conf := mkConf {
  cf_shared : Shared;
  cf_threads : list pc;
  cf_trace : list (nat * event)
}.

Definition conf_new : conf := mkConf Shared_new [] [].

(** The scheduler starts a call on a new thread or lets one thread make a step. *)
Inductive move :=
| Spawn (k : call)
| Step (i : nat) (spurious : bool).

Definition make (m : move) (c : conf) : option conf :=
  match m with
  | Spawn k => Some (mkConf (cf_shared c) (cf_threads c ++ [start k]) (cf_trace c))
  | Step i spurious =>
      p ← cf_threads c !! i;
      '(s', p', ev) ← tstep spurious (cf_threads c) (cf_shared c) p;
      Some (mkConf s' (<[i := p']> (cf_threads c))
              (match ev with Some x => cf_trace c ++ [(i, x)] | None => cf_trace c end))
  end.

Fixpoint schedule (ms : list move) (c : conf) : option conf :=
  match ms with
  | [] => Some c
  | m :: ms' => c1 ← make m c; schedule ms' c1
  end.

(** ** The abstract book

    The book keeps what was granted, what was spent, which holds are open,
    the exposure caps and the reservation identifiers already handed out.
    Each event is atomic and has a guard; the concurrent engine of
    [BudgetConc.v] is shown to produce only traces the book can replay. *)

Record Book := mkBook {
  bk_granted : gmap string Z;
  bk_spent : gmap string Z;
  bk_holds : gmap Z ReservationRecord;
  bk_caps : gmap string Z;
  bk_used : gset Z
}.

Definition empty_book : Book := mkBook ∅ ∅ ∅ ∅ ∅.

Definition granted (k : Book) (t : string) : Z := default 0 (bk_granted k !! t).
Definition book_spent (k : Book) (t : string) : Z := default 0 (bk_spent k !! t).
Definition book_held (k : Book) (t : string) : Z := held (bk_holds k) t.

(** What a tenant can still reserve or overrun into. *)
Definition book_left (k : Book) (t : string) : Z := granted k t - book_held k t - book_spent k t.

(** The cap lets the holds of [t] grow to [v]; no cap, or a zero one, lets all. *)
Definition cap_allows (caps : gmap string Z) (t : string) (v : Z) : Prop :=
  default 0 (caps !! t) <= 0 \/ v <= default 0 (caps !! t).
#[export] Instance cap_allows_dec caps t v : Decision (cap_allows caps t v).
Proof. unfold cap_allows. apply _. Defined.

(** Close hold [id] of [r], spending [a]. *)
Definition book_settle (id : Z) (r : ReservationRecord) (a : Z) (k : Book) : Book :=
  mkBook (bk_granted k) (<[rr_tenant_id r := book_spent k (rr_tenant_id r) + a]> (bk_spent k))
    (delete id (bk_holds k)) (bk_caps k) (bk_used k).

(** Open hold [id] of [c] for [t]; extend the grant of [t] by [a]. *)
Definition book_reserve (id : Z) (t : string) (c : Z) (k : Book) : Book :=
  mkBook (bk_granted k) (bk_spent k) (<[id := mkReservationRecord t c]> (bk_holds k)) (bk_caps k)
    ({[id]} ∪ bk_used k).
Definition book_grant (t : string) (a : Z) (k : Book) : Book :=
  mkBook (<[t := granted k t + a]> (bk_granted k)) (bk_spent k) (bk_holds k) (bk_caps k) (bk_used k).

Definition book_restore (snap : BudgetSnapshot) : Book :=
  mkBook (list_to_map (map (fun l => (tl_tenant_id l, tl_initial_microcents l)) (bs_tenants snap)))
    (list_to_map (map (fun l => (tl_tenant_id l, tl_committed_microcents l)) (bs_tenants snap)))
    ∅ ∅ ∅.

(** A snapshot is a view of the book: one row per tenant with its figures, and
    the number of open holds. *)
Definition row_shows (k : Book) (l : TenantLedger) : Prop :=
  bk_granted k !! tl_tenant_id l = Some (tl_initial_microcents l) /\
  tl_remaining_microcents l = book_left k (tl_tenant_id l) /\
  tl_reserved_microcents l = book_held k (tl_tenant_id l) /\
  tl_committed_microcents l = book_spent k (tl_tenant_id l).
#[export] Instance row_shows_dec k l : Decision (row_shows k l).
Proof. unfold row_shows. apply _. Defined.

Definition snapshot_shows (k : Book) (snap : BudgetSnapshot) : Prop :=
  NoDup (map tl_tenant_id (bs_tenants snap)) /\ Forall (row_shows k) (bs_tenants snap) /\
  length (bs_tenants snap) = size (bk_granted k) /\
  bs_active_reservations snap = Z.of_nat (size (bk_holds k)).
#[export] Instance snapshot_shows_dec k snap : Decision (snapshot_shows k snap).
Proof. unfold snapshot_shows. apply _. Defined.

(** One event; [None] when its guard does not hold. *)
Definition book_step (ev : event) (k : Book) : option Book :=
  match ev with
  | EvEnsure t n =>
      guard (0 <= n) ;;
      match bk_granted k !! t with
      | Some _ => Some k
      | None =>
          Some (mkBook (<[t := n]> (bk_granted k)) (<[t := 0]> (bk_spent k)) (bk_holds k) (bk_caps k)
                  (bk_used k))
      end
  | EvTopUp t a =>
      _ ← bk_granted k !! t;
      guard (0 < a) ;; guard (granted k t + a <= imax 64) ;; Some (book_grant t a k)
  | EvReserve id t c =>
      _ ← bk_granted k !! t;
      guard (0 < c) ;; guard (id ∉ bk_used k) ;;
      guard (cap_allows (bk_caps k) t (book_held k t + c)) ;;
      guard (c <= book_left k t) ;;
      Some (book_reserve id t c k)
  | EvCommit id a =>
      r ← bk_holds k !! id;
      guard (0 <= a) ;; guard (a <= book_left k (rr_tenant_id r) + rr_reserved_microcents r) ;;
      Some (book_settle id r a k)
  | EvRelease id => r ← bk_holds k !! id; Some (book_settle id r 0 k)
  | EvSetCap t m =>
      guard (0 <= m) ;;
      Some (mkBook (bk_granted k) (bk_spent k) (bk_holds k)
              (if m =? 0 then delete t (bk_caps k) else <[t := m]> (bk_caps k)) (bk_used k))
  | EvSnapshot snap => guard (snapshot_shows k snap) ;; Some k
  | EvRestore snap =>
      match validate_snapshot_for_restore snap with
      | Ok _ => Some (book_restore snap)
      | Err _ => None
      end
  end.

Fixpoint replay (evs : list event) (k : Book) : option Book :=
  match evs with
  | [] => Some k
  | ev :: evs' => k1 ← book_step ev k; replay evs' k1
  end.

Lemma replay_snoc evs ev k :
  replay (evs ++ [ev]) k = (k1 ← replay evs k; book_step ev k1).
Proof.
  revert k. induction evs as [|e evs IH]; intros k; simpl.
  - by destruct (book_step ev k).
  - destruct (book_step e k); simpl; [apply IH|done].
Qed.

(** The event a call has made when it answers [r]: none unless it succeeded. *)
Definition event_of (k : call) (r : answer) : option event :=
  match k, r with
  | Call (OpEnsure t n), Answer (RConfig (Ok _)) => Some (EvEnsure t n)
  | Call (OpTopUp t a), Answer (RTopUp (ToppedUp _ _ _)) => Some (EvTopUp t a)
  | Call (OpSetCap t m), Answer (RConfig (Ok _)) => Some (EvSetCap t m)
  | Call (OpReserve t c), Answer (RReserve (Reserved _) (Some id)) => Some (EvReserve id t c)
  | Call (OpCommit id a), Answer (RSettle (Committed _ _)) => Some (EvCommit id a)
  | Call (OpRelease id), Answer (RSettle (Released _ _)) => Some (EvRelease id)
  | Call OpSnapshot, AnswerSnapshot (Ok snap) => Some (EvSnapshot snap)
  | CallRestore snap, AnswerRestore (Ok _) => Some (EvRestore snap)
  | _, _ => None
  end.
