(* ===== verification/BudgetConcInv.v ===== *)
(** * The invariant of the concurrent engine

    Between any two steps of any threads, the shared state and the book agree
    up to what the threads inside an operation still owe: money to return to
    a balance, holds that are in a running total and not in the book, spends
    and grants already in the book and not in the maps. The invariant sums
    these debts over the threads, so a step of one thread is checked against
    the change of its own debt alone. *)

From S2P Require Import Prelude Budget BudgetInv BudgetSpec BudgetConc.
#[local] Open Scope Z_scope.

(** ** Sums over the threads *)

Definition zsum (f : pc -> Z) (ts : list pc) : Z := foldr (fun p acc => f p + acc) 0 ts.

Lemma zsum_app f ts us : zsum f (ts ++ us) = zsum f ts + zsum f us.
Proof. induction ts as [|p ts IH]; simpl; [done|]. unfold zsum in *. lia. Qed.

Lemma zsum_insert f ts i p q :
  ts !! i = Some p -> zsum f (<[i := q]> ts) = zsum f ts - f p + f q.
Proof.
  revert i. induction ts as [|x ts IH]; intros [|i] H; simplify_eq/=; unfold zsum in *; [lia|].
  rewrite (IH i H). lia.
Qed.

Lemma zsum_nonneg f ts : (forall i p, ts !! i = Some p -> 0 <= f p) -> 0 <= zsum f ts.
Proof.
  induction ts as [|x ts IH]; intros H; simpl; [done|].
  pose proof (H 0%nat x eq_refl). pose proof (IH (fun i p E => H (S i) p E)). unfold zsum in *. lia.
Qed.

Lemma zsum_ge f ts i p :
  (forall j q, ts !! j = Some q -> 0 <= f q) -> ts !! i = Some p -> f p <= zsum f ts.
Proof.
  revert i. induction ts as [|x ts IH]; intros [|i] H Hi; simplify_eq/=.
  - pose proof (zsum_nonneg f ts (fun j q E => H (S j) q E)). unfold zsum in *. lia.
  - pose proof (H 0%nat x eq_refl). pose proof (IH i (fun j q E => H (S j) q E) Hi). unfold zsum in *. lia.
Qed.

Lemma zsum_ge_two f ts i j p q :
  (forall l x, ts !! l = Some x -> 0 <= f x) -> ts !! i = Some p -> ts !! j = Some q -> i <> j ->
  f p + f q <= zsum f ts.
Proof.
  revert i j. induction ts as [|x ts IH]; intros [|i] [|j] H Hi Hj Hne; simplify_eq/=.
  - pose proof (zsum_ge f ts j q (fun l x E => H (S l) x E) Hj). unfold zsum in *. lia.
  - pose proof (zsum_ge f ts i p (fun l x E => H (S l) x E) Hi). unfold zsum in *. lia.
  - pose proof (H 0%nat x eq_refl).
    pose proof (IH i j (fun l x E => H (S l) x E) Hi Hj ltac:(lia)). unfold zsum in *. lia.
Qed.

Lemma zsum_zero f ts : (forall p, p ∈ ts -> f p = 0) -> zsum f ts = 0.
Proof.
  induction ts as [|x ts IH]; intros H; simpl; [done|].
  rewrite (H x) by left. unfold zsum in *. rewrite IH; [done|]. intros p Hp. apply H. by right.
Qed.

(** ** What a thread owes *)

(** Money a settled reservation still has to return to the balance. *)
Definition to_return (p : pc) (t : string) : Z :=
  match p with
  | C_refund _ a r _ => hold_for t (mkReservationRecord (rr_tenant_id r) (rr_reserved_microcents r - a))
  | L_credit _ r _ => hold_for t r
  | _ => 0
  end.

(** An amount that is in the running total and not a hold of the book: a
    reservation not yet debited, or a commit that has taken effect. *)
Definition in_total (p : pc) (t : string) : Z :=
  match p with
  | R_alloc t' c _ _ | R_unreserve t' c _ | R_balance t' c _ _ _ | R_debit t' c _ _ _ _
  | R_undo t' c _ _ => hold_for t (mkReservationRecord t' c)
  | C_record _ a r _ _ => if 0 <? settled_delta a r then hold_for t r else 0
  | C_refund _ _ r _ | C_totals _ _ r _ | C_sub _ _ r _ => hold_for t r
  | _ => 0
  end.

(** A spend that has taken effect and is not in the map yet. *)
Definition unrecorded (p : pc) (t : string) : Z :=
  match p with
  | C_record _ a r _ _ =>
      if 0 <? settled_delta a r then hold_for t (mkReservationRecord (rr_tenant_id r) a) else 0
  | _ => 0
  end.

(** A top-up that has taken effect and is not in the map yet. *)
Definition ungranted (p : pc) (t : string) : Z :=
  match p with T_store t' a _ _ => hold_for t (mkReservationRecord t' a) | _ => 0 end.

(** A hold of the book that is with the thread and not in the map. *)
Definition own_hold (p : pc) : option (Z * ReservationRecord) :=
  match p with
  | R_reservations t c id _ | R_insert t c id _ => Some (id, mkReservationRecord t c)
  | C_budgets id _ r | C_clone id _ r | C_committed id _ r _ | C_check id _ r _ | C_overflow id _ r _
  | C_balance id _ r _ _ | C_debit id _ r _ _ _ | C_overrun id _ r _ => Some (id, r)
  | C_record id a r _ _ => if 0 <? settled_delta a r then None else Some (id, r)
  | L_budgets id r | L_clone id r | L_totals id r _ | L_sub id r _ => Some (id, r)
  | _ => None
  end.

(** An identifier allocated and not yet used. *)
Definition own_id (p : pc) : option Z :=
  match p with R_balance _ _ _ _ id | R_debit _ _ _ _ id _ => Some id | _ => None end.

Definition owns (p : pc) (id : Z) : Z := if decide (fst <$> own_hold p = Some id) then 1 else 0.
Definition fresh (p : pc) (id : Z) : Z := if decide (own_id p = Some id) then 1 else 0.

(** The event the thread has made. *)
Definition emitted (p : pc) : option event :=
  match p with
  | R_reservations t c id _ | R_insert t c id _ => Some (EvReserve id t c)
  | C_record id a r _ _ => if 0 <? settled_delta a r then Some (EvCommit id a) else None
  | C_refund id a _ _ | C_totals id a _ _ | C_sub id a _ _ | C_remaining id a _ => Some (EvCommit id a)
  | L_credit id _ _ => Some (EvRelease id)
  | T_store t a _ _ => Some (EvTopUp t a)
  | Ret k r | Done k r => event_of k r
  | _ => None
  end.

(** ** Reading the shared state *)

Definition bal (s : Shared) (t : string) : Z := default 0 (cell s <$> sh_tenant_budgets s !! t).
Definition tot (s : Shared) (t : string) : Z := default 0 (cell s <$> sh_tenant_reserved_totals s !! t).
Definition cmt (s : Shared) (t : string) : Z := default 0 (sh_committed_microcents s !! t).
Definition ini (s : Shared) (t : string) : Z := default 0 (sh_initial_microcents s !! t).
Definition cap_ok (s : Shared) (t : string) : Prop :=
  cap_allows (sh_max_reserved_microcents s) t (tot s t).

(** The four tenant maps have the same tenants, and the cells of the two
    atomic maps are allocated and all distinct. *)
Record heap_wf (s : Shared) : Prop := {
  hw_totals : forall t, is_Some (sh_tenant_reserved_totals s !! t) <-> is_Some (sh_tenant_budgets s !! t);
  hw_initial : forall t, is_Some (sh_initial_microcents s !! t) <-> is_Some (sh_tenant_budgets s !! t);
  hw_committed : forall t, is_Some (sh_committed_microcents s !! t) <-> is_Some (sh_tenant_budgets s !! t);
  hw_budget_cell : forall t l, sh_tenant_budgets s !! t = Some l -> (l < length (sh_cells s))%nat;
  hw_total_cell : forall t l, sh_tenant_reserved_totals s !! t = Some l -> (l < length (sh_cells s))%nat;
  hw_budget_inj : forall t u l, sh_tenant_budgets s !! t = Some l -> sh_tenant_budgets s !! u = Some l -> t = u;
  hw_total_inj : forall t u l, sh_tenant_reserved_totals s !! t = Some l ->
    sh_tenant_reserved_totals s !! u = Some l -> t = u;
  hw_apart : forall t u l, sh_tenant_budgets s !! t = Some l -> sh_tenant_reserved_totals s !! u = Some l -> False
}.

(** ** What holds at a program point *)

Definition amount (z : Z) : Prop := 0 <= z <= imax 64.
Definition positive_amount (z : Z) : Prop := 0 < z <= imax 64.
Definition arcs (s : Shared) (t : string) (b v : addr) : Prop :=
  sh_tenant_budgets s !! t = Some b /\ sh_tenant_reserved_totals s !! t = Some v.
Definition owed (s : Shared) (a : Z) (r : ReservationRecord) (b : addr) : Prop :=
  amount a /\ positive_amount (rr_reserved_microcents r) /\
  sh_tenant_budgets s !! rr_tenant_id r = Some b.

(** A snapshot that was handed out is balanced. *)
Definition answer_wf (r : answer) : Prop :=
  match r with
  | AnswerSnapshot (Ok snap) => conservation_status_for_snapshot snap = Balanced
  | _ => True
  end.

Definition pc_wf (s : Shared) (p : pc) : Prop :=
  match p with
  | R_gate _ c | R_budgets _ c | R_totals _ c | R_clone _ c => positive_amount c
  | R_limits t c b v | R_max t c b v => positive_amount c /\ arcs s t b v
  | R_load t c b v m | R_cas t c b v m _ =>
      positive_amount c /\ arcs s t b v /\ m = default 0 (sh_max_reserved_microcents s !! t)
  | R_alloc t c b v | R_balance t c b v _ | R_debit t c b v _ _ =>
      positive_amount c /\ arcs s t b v /\ cap_ok s t
  | R_unreserve t c v | R_undo t c v _ =>
      positive_amount c /\ sh_tenant_reserved_totals s !! t = Some v
  | C_gate _ a | C_reservations _ a | C_remove _ a => amount a
  | C_budgets _ a r | C_clone _ a r => amount a /\ positive_amount (rr_reserved_microcents r)
  | C_committed _ a r b | C_check _ a r b => owed s a r b
  | C_balance _ a r b n | C_debit _ a r b n _ =>
      owed s a r b /\ n = cmt s (rr_tenant_id r) + a /\ rr_reserved_microcents r < a
  | C_record _ a r b n => owed s a r b /\ n = cmt s (rr_tenant_id r) + a
  | C_refund _ a r b => owed s a r b /\ a < rr_reserved_microcents r
  | C_totals _ a r b | C_sub _ a r b => owed s a r b
  | L_budgets _ r | L_clone _ r => positive_amount (rr_reserved_microcents r)
  | L_totals _ r b | L_sub _ r b | L_credit _ r b => owed s 0 r b
  | T_gate _ a | T_budgets _ a | T_clone _ a => positive_amount a
  | T_initials t a b | T_check t a b => positive_amount a /\ sh_tenant_budgets s !! t = Some b
  | T_balance t a b n | T_credit t a b n _ =>
      positive_amount a /\ sh_tenant_budgets s !! t = Some b /\
      is_Some (sh_initial_microcents s !! t) /\ n = ini s t + a /\ n <= imax 64
  | T_store t a n _ =>
      positive_amount a /\ is_Some (sh_initial_microcents s !! t) /\ n = ini s t + a
  | E_gate _ n | E_budgets _ n | E_initials _ n | E_committed _ n | E_totals _ n | E_insert _ n => amount n
  | X_set_cap _ m => amount m
  | X_restore snap next_id certified => start (CallRestore snap) = X_restore snap next_id certified
  | Ret _ r | Done _ r => answer_wf r
  | _ => True
  end.

(** What a thread holding [gs] may do to the state under the others. *)
Record rely (gs : list lock) (s s' : Shared) : Prop := {
  rl_budgets : sh_tenant_budgets s ⊆ sh_tenant_budgets s';
  rl_totals : sh_tenant_reserved_totals s ⊆ sh_tenant_reserved_totals s';
  rl_max : sh_max_reserved_microcents s' = sh_max_reserved_microcents s;
  rl_initial : LInitials ∈ gs \/ sh_initial_microcents s' = sh_initial_microcents s;
  rl_committed : LCommitted ∈ gs \/ sh_committed_microcents s' = sh_committed_microcents s;
  rl_caps : forall t, cap_ok s t -> cap_ok s' t
}.

Lemma rely_refl gs s : rely gs s s.
Proof. by split; auto. Qed.

(** A point stays well formed when another thread makes a step. *)
Lemma pc_wf_stable gs s s' p :
  pc_wf s p -> rely gs s s' -> (forall l, l ∈ gs -> l ∉ guards p) -> pc_wf s' p.
Proof.
  intros H [Hb Ht Hm Hi Hc Hcap] Hd.
  assert (forall t l, sh_tenant_budgets s !! t = Some l -> sh_tenant_budgets s' !! t = Some l) as Hb'.
  { intros t l E. by eapply lookup_weaken. }
  assert (forall t l, sh_tenant_reserved_totals s !! t = Some l -> sh_tenant_reserved_totals s' !! t = Some l) as Ht'.
  { intros t l E. by eapply lookup_weaken. }
  assert (LInitials ∈ guards p -> sh_initial_microcents s' = sh_initial_microcents s) as Hi'.
  { intros. destruct Hi as [Hi|Hi]; [|done]. by destruct (Hd _ Hi). }
  assert (LCommitted ∈ guards p -> sh_committed_microcents s' = sh_committed_microcents s) as Hc'.
  { intros. destruct Hc as [Hc|Hc]; [|done]. by destruct (Hd _ Hc). }
  unfold pc_wf, owed, arcs, cmt, ini in *. destruct p; simpl in *; rewrite ?Hm, ?Hi', ?Hc' by set_solver;
    naive_solver.
Qed.

(** ** The invariant *)

Definition mem {A} (m : gmap Z A) (id : Z) : Z := if decide (is_Some (m !! id)) then 1 else 0.
Definition used (k : Book) (id : Z) : Z := if decide (id ∈ bk_used k) then 1 else 0.
Definition issued (s : Shared) (id : Z) : Z := if decide (1 <= id < sh_next_id s) then 1 else 0.

(** What does not mention the threads. *)
Record state_inv (s : Shared) (k : Book) : Prop := {
  si_heap : heap_wf s;
  si_granted : forall t, is_Some (bk_granted k !! t) <-> is_Some (sh_tenant_budgets s !! t);
  si_spent : forall t, is_Some (bk_spent k !! t) <-> is_Some (sh_tenant_budgets s !! t);
  si_caps : bk_caps k = sh_max_reserved_microcents s;
  si_caps_pos : forall t m, bk_caps k !! t = Some m -> 0 < m;
  si_bal : forall t, 0 <= bal s t;
  si_tot : forall t, tot s t <= imax 64;
  si_grant_max : forall t, granted k t <= imax 64;
  si_spent_pos : forall t, 0 <= book_spent k t;
  si_res : forall id r, sh_reservations s !! id = Some r -> bk_holds k !! id = Some r;
  si_holds : forall id r, bk_holds k !! id = Some r ->
    id ∈ bk_used k /\ 0 < rr_reserved_microcents r /\ is_Some (bk_granted k !! rr_tenant_id r);
  si_next : 1 <= sh_next_id s <= RECOVERY_ALLOCATOR_MASK
}.

Record conc_inv (s : Shared) (ts : list pc) (k : Book) : Prop := {
  ci_state : state_inv s k;
  ci_pc : forall i p, ts !! i = Some p -> pc_wf s p;
  ci_excl : forall i j p q l, ts !! i = Some p -> ts !! j = Some q ->
    l ∈ guards p -> l ∈ guards q -> i = j;
  ci_balance : forall t, bal s t + zsum (fun p => to_return p t) ts = book_left k t;
  ci_total : forall t, tot s t = book_held k t + zsum (fun p => in_total p t) ts;
  ci_spent : forall t, cmt s t + zsum (fun p => unrecorded p t) ts = book_spent k t;
  ci_granted : forall t, ini s t + zsum (fun p => ungranted p t) ts = granted k t;
  ci_count : forall id, mem (bk_holds k) id = mem (sh_reservations s) id + zsum (fun p => owns p id) ts;
  ci_own : forall i p id r, ts !! i = Some p -> own_hold p = Some (id, r) -> bk_holds k !! id = Some r;
  ci_fresh : forall id, zsum (fun p => fresh p id) ts + used k id <= issued s id
}.

(** One step of one thread, as a change of its own debt. *)
Record local_step (s : Shared) (k : Book) (p : pc) (s' : Shared) (k' : Book) (p' : pc) : Prop := {
  ls_state : state_inv s' k';
  ls_rely : rely (guards p) s s';
  ls_pc : pc_wf s' p';
  ls_balance : forall t, bal s' t + to_return p' t - book_left k' t = bal s t + to_return p t - book_left k t;
  ls_total : forall t, tot s' t - book_held k' t - in_total p' t = tot s t - book_held k t - in_total p t;
  ls_spent : forall t, cmt s' t + unrecorded p' t - book_spent k' t = cmt s t + unrecorded p t - book_spent k t;
  ls_granted : forall t, ini s' t + ungranted p' t - granted k' t = ini s t + ungranted p t - granted k t;
  ls_count : forall id, mem (bk_holds k') id - mem (sh_reservations s') id - owns p' id =
    mem (bk_holds k) id - mem (sh_reservations s) id - owns p id;
  ls_own : forall id r, own_hold p' = Some (id, r) -> bk_holds k' !! id = Some r;
  ls_keep : forall id r, bk_holds k !! id = Some r -> bk_holds k' !! id = Some r \/ own_hold p = Some (id, r);
  ls_fresh : forall id, fresh p' id + used k' id - issued s' id <= fresh p id + used k id - issued s id
}.

Lemma mem_Some {A} (m : gmap Z A) id x : m !! id = Some x -> mem m id = 1.
Proof. intros H. unfold mem. by rewrite H, decide_True. Qed.
Lemma mem_None {A} (m : gmap Z A) id : m !! id = None -> mem m id = 0.
Proof. intros H. unfold mem. rewrite H, decide_False; [done|]. by intros []. Qed.
Lemma mem_insert {A} (m : gmap Z A) id x id' :
  mem (<[id := x]> m) id' = if decide (id = id') then 1 else mem m id'.
Proof.
  case_decide as E; [subst; by apply (mem_Some _ _ x), lookup_insert_eq|].
  unfold mem. by rewrite lookup_insert_ne.
Qed.
Lemma mem_delete {A} (m : gmap Z A) id id' :
  mem (delete id m) id' = if decide (id = id') then 0 else mem m id'.
Proof.
  case_decide as E; [subst; by apply mem_None, lookup_delete_eq|].
  unfold mem. by rewrite lookup_delete_ne.
Qed.

Lemma owns_nonneg p id : 0 <= owns p id.
Proof. unfold owns. case_decide; lia. Qed.
Lemma owns_one p id r : own_hold p = Some (id, r) -> owns p id = 1.
Proof. intros H. unfold owns. rewrite H. by rewrite decide_True. Qed.
Lemma fresh_nonneg p id : 0 <= fresh p id.
Proof. unfold fresh. case_decide; lia. Qed.

(** A hold with a thread is with one thread only, and not in the map. *)
Lemma own_hold_unique s ts k i j p q id r r' :
  conc_inv s ts k -> ts !! i = Some p -> ts !! j = Some q ->
  own_hold p = Some (id, r) -> own_hold q = Some (id, r') -> i = j.
Proof.
  intros Hinv Hi Hj Hp Hq. destruct (decide (i = j)) as [|Hne]; [done|exfalso].
  pose proof (zsum_ge_two (fun p => owns p id) ts i j p q (fun _ _ _ => owns_nonneg _ _) Hi Hj Hne) as H.
  pose proof (ci_count _ _ _ Hinv id) as E. simpl in H.
  rewrite (owns_one _ _ _ Hp), (owns_one _ _ _ Hq) in H. unfold mem in E. repeat case_decide; lia.
Qed.

Lemma own_hold_not_in_map s ts k i p id r :
  conc_inv s ts k -> ts !! i = Some p -> own_hold p = Some (id, r) -> sh_reservations s !! id = None.
Proof.
  intros Hinv Hi Hp. destruct (sh_reservations s !! id) eqn:E; [exfalso|done].
  pose proof (zsum_ge (fun p => owns p id) ts i p (fun _ _ _ => owns_nonneg _ _) Hi) as H.
  simpl in H. rewrite (owns_one _ _ _ Hp) in H.
  pose proof (ci_count _ _ _ Hinv id) as C. unfold mem in C. rewrite E in C.
  repeat case_decide; try lia. by destruct H1.
Qed.

(** The invariant survives a step that changes only the debt of its thread. *)
Lemma conc_inv_step s ts k i p s' k' p' :
  conc_inv s ts k -> ts !! i = Some p -> local_step s k p s' k' p' ->
  (forall l, l ∈ guards p' -> l ∈ guards p \/ free l ts = true) ->
  conc_inv s' (<[i := p']> ts) k'.
Proof.
  intros Hinv Hi Hl Hg. split; try (intros; rewrite (zsum_insert _ _ _ _ _ Hi)).
  - apply Hl.
  - intros j q Hj. apply list_lookup_insert_Some in Hj as [(-> & <- & ?)|[Hne Hj]]; [apply Hl|].
    eapply pc_wf_stable; [by eapply ci_pc|apply Hl|]. intros l Hp Hq. apply Hne.
    by eapply (ci_excl _ _ _ Hinv).
  - assert (forall j q l, ts !! j = Some q -> l ∈ guards q -> l ∈ guards p' -> i = j) as Hx.
    { intros j q l Hj Hq Hp. destruct (Hg l Hp) as [Hp'|Hf]; [by eapply (ci_excl _ _ _ Hinv)|].
      unfold free in Hf. rewrite forallb_forall in Hf.
      assert (In q ts) as Hin by (apply list_elem_of_In; by eapply list_elem_of_lookup_2).
      apply Hf in Hin. by rewrite bool_decide_eq_true_2 in Hin. }
    intros j1 j2 q1 q2 l H1 H2 G1 G2.
    apply list_lookup_insert_Some in H1 as [(-> & <- & ?)|[Hne1 H1]];
      apply list_lookup_insert_Some in H2 as [(-> & <- & ?)|[Hne2 H2]]; [done| | |].
    + by eapply Hx.
    + symmetry. by eapply Hx.
    + by eapply (ci_excl _ _ _ Hinv).
  - pose proof (ci_balance _ _ _ Hinv t). pose proof (ls_balance _ _ _ _ _ _ Hl t). lia.
  - pose proof (ci_total _ _ _ Hinv t). pose proof (ls_total _ _ _ _ _ _ Hl t). lia.
  - pose proof (ci_spent _ _ _ Hinv t). pose proof (ls_spent _ _ _ _ _ _ Hl t). lia.
  - pose proof (ci_granted _ _ _ Hinv t). pose proof (ls_granted _ _ _ _ _ _ Hl t). lia.
  - pose proof (ci_count _ _ _ Hinv id). pose proof (ls_count _ _ _ _ _ _ Hl id). lia.
  - intros j q id r Hj Hq. apply list_lookup_insert_Some in Hj as [(-> & <- & ?)|[Hne Hj]]; [by apply (ls_own _ _ _ _ _ _ Hl)|].
    pose proof (ci_own _ _ _ Hinv j q id r Hj Hq) as Hk.
    destruct (ls_keep _ _ _ _ _ _ Hl id r Hk) as [?|Hp]; [done|].
    destruct Hne. by eapply own_hold_unique.
  - pose proof (ci_fresh _ _ _ Hinv id). pose proof (ls_fresh _ _ _ _ _ _ Hl id). lia.
Qed.
