(* ===== verification/BudgetConcSteps.v ===== *)
(** * Every step keeps the invariant

    First what each access to the shared state and each event of the book
    changes, then one lemma per operation: any step of a thread inside it is
    a local change of that thread's debt. *)

From S2P Require Import Prelude Budget BudgetInv BudgetSpec BudgetConc BudgetConcInv.
#[local] Open Scope Z_scope.

(** An amount [z] of tenant [t'], as seen by tenant [t]. *)
Abbreviation share t' z t := (hold_for t (mkReservationRecord t' z)).

(** Split on whether the tenants in the goal are the same. *)
Ltac by_tenant :=
  intros; simpl in *; unfold hold_for in *; simpl in *; destruct_and?; repeat case_bool_decide; subst; simpl in *; try done; try lia.

(** ** Accesses to the shared state *)

Lemma cell_store l v s l' :
  (l < length (sh_cells s))%nat -> cell (store l v s) l' = if decide (l' = l) then v else cell s l'.
Proof.
  intros H. destruct s as [h ? ? ? ? ? ? ? ? ?]. unfold cell, store; simpl in *. case_decide; subst.
  - by rewrite list_lookup_insert_eq.
  - by rewrite list_lookup_insert_ne.
Qed.

Section readings.
Context (s : Shared) (t0 : string) (l : addr) (v : Z) (Hwf : heap_wf s).

Lemma bal_store_budget t :
  sh_tenant_budgets s !! t0 = Some l -> bal (store l v s) t = bal s t + share t0 (v - bal s t0) t.
Proof.
  intros H. unfold bal. rewrite H. simpl.
  replace (sh_tenant_budgets (store l v s)) with (sh_tenant_budgets s) by by destruct s.
  destruct (decide (t0 = t)) as [->|Hne].
  - rewrite H. simpl. rewrite cell_store by by eapply hw_budget_cell. rewrite decide_True by done. by_tenant.
  - rewrite hold_for_ne by done. destruct (sh_tenant_budgets s !! t) as [l'|] eqn:E; simpl; [|lia].
    rewrite cell_store by by eapply hw_budget_cell. rewrite decide_False; [lia|]. intros ->.
    apply Hne. by eapply hw_budget_inj.
Qed.

Lemma tot_store_budget t : sh_tenant_budgets s !! t0 = Some l -> tot (store l v s) t = tot s t.
Proof.
  intros H. unfold tot.
  replace (sh_tenant_reserved_totals (store l v s)) with (sh_tenant_reserved_totals s) by by destruct s.
  destruct (sh_tenant_reserved_totals s !! t) as [l'|] eqn:E; simpl; [|done].
  rewrite cell_store by by eapply hw_budget_cell. rewrite decide_False; [done|]. intros ->.
  by eapply hw_apart.
Qed.

Lemma tot_store_total t :
  sh_tenant_reserved_totals s !! t0 = Some l -> tot (store l v s) t = tot s t + share t0 (v - tot s t0) t.
Proof.
  intros H. unfold tot. rewrite H. simpl.
  replace (sh_tenant_reserved_totals (store l v s)) with (sh_tenant_reserved_totals s) by by destruct s.
  destruct (decide (t0 = t)) as [->|Hne].
  - rewrite H. simpl. rewrite cell_store by by eapply hw_total_cell. rewrite decide_True by done. by_tenant.
  - rewrite hold_for_ne by done. destruct (sh_tenant_reserved_totals s !! t) as [l'|] eqn:E; simpl; [|lia].
    rewrite cell_store by by eapply hw_total_cell. rewrite decide_False; [lia|]. intros ->.
    apply Hne. by eapply hw_total_inj.
Qed.

Lemma bal_store_total t : sh_tenant_reserved_totals s !! t0 = Some l -> bal (store l v s) t = bal s t.
Proof.
  intros H. unfold bal.
  replace (sh_tenant_budgets (store l v s)) with (sh_tenant_budgets s) by by destruct s.
  destruct (sh_tenant_budgets s !! t) as [l'|] eqn:E; simpl; [|done].
  rewrite cell_store by by eapply hw_total_cell. rewrite decide_False; [done|]. intros ->.
  by eapply hw_apart.
Qed.

Lemma heap_wf_store : heap_wf (store l v s).
Proof.
  destruct Hwf. destruct s as [h ? ? ? ? ? ? ? ? ?]; simpl in *.
  split; simpl; rewrite ?length_insert; auto.
Qed.

Lemma cmt_put_committed t :
  cmt (put_committed t0 v s) t = cmt s t + share t0 (v - cmt s t0) t.
Proof.
  unfold cmt; simpl. destruct (decide (t0 = t)) as [->|Hne].
  - rewrite lookup_insert_eq. by_tenant.
  - rewrite lookup_insert_ne by done. by_tenant.
Qed.

Lemma ini_put_initial t : ini (put_initial t0 v s) t = ini s t + share t0 (v - ini s t0) t.
Proof.
  unfold ini; simpl. destruct (decide (t0 = t)) as [->|Hne].
  - rewrite lookup_insert_eq. by_tenant.
  - rewrite lookup_insert_ne by done. by_tenant.
Qed.

End readings.

(** The cells a thread reads through its [Arc]s are the tenant's. *)
Lemma cell_budget s t b : sh_tenant_budgets s !! t = Some b -> cell s b = bal s t.
Proof. intros H. unfold bal. by rewrite H. Qed.
Lemma cell_total s t v : sh_tenant_reserved_totals s !! t = Some v -> cell s v = tot s t.
Proof. intros H. unfold tot. by rewrite H. Qed.

(** ** The state invariant after an access *)

Section accesses.
Context (s : Shared) (k : Book) (Hs : state_inv s k).

Lemma state_inv_store_budget t b v :
  sh_tenant_budgets s !! t = Some b -> 0 <= v -> state_inv (store b v s) k.
Proof.
  intros Hb Hv. pose proof (si_heap _ _ Hs) as Hw. split; try (by destruct Hs, s).
  - by apply heap_wf_store.
  - intros u. rewrite (bal_store_budget s t) by done. pose proof (si_bal _ _ Hs u). by_tenant.
  - intros u. rewrite (tot_store_budget s t) by done. apply Hs.
Qed.

Lemma state_inv_store_total t l v :
  sh_tenant_reserved_totals s !! t = Some l -> v <= imax 64 -> state_inv (store l v s) k.
Proof.
  intros Hb Hv. pose proof (si_heap _ _ Hs) as Hw. split; try (by destruct Hs, s).
  - by apply heap_wf_store.
  - intros u. rewrite (bal_store_total s t) by done. apply Hs.
  - intros u. rewrite (tot_store_total s t) by done. pose proof (si_tot _ _ Hs u). by_tenant.
Qed.

Lemma state_inv_put_reservations rs :
  (forall id r, rs !! id = Some r -> bk_holds k !! id = Some r) -> state_inv (put_reservations rs s) k.
Proof. intros H. pose proof Hs as [[] ]. destruct s; simpl in *. split; [by split|..]; done. Qed.

Lemma state_inv_put_committed t v :
  is_Some (sh_tenant_budgets s !! t) -> state_inv (put_committed t v s) k.
Proof.
  intros H. pose proof (si_heap _ _ Hs) as Hw. pose proof (hw_committed _ Hw) as Hd.
  destruct Hs, Hw, s; simpl in *. split; [split|..]; try done. simpl. intros u. rewrite <- Hd.
  destruct (decide (t = u)) as [->|]; [|by rewrite lookup_insert_ne].
  rewrite lookup_insert_eq, Hd. by split.
Qed.

Lemma state_inv_put_initial t v :
  is_Some (sh_tenant_budgets s !! t) -> state_inv (put_initial t v s) k.
Proof.
  intros H. pose proof (si_heap _ _ Hs) as Hw. pose proof (hw_initial _ Hw) as Hd.
  destruct Hs, Hw, s; simpl in *. split; [split|..]; try done. simpl. intros u. rewrite <- Hd.
  destruct (decide (t = u)) as [->|]; [|by rewrite lookup_insert_ne].
  rewrite lookup_insert_eq, Hd. by split.
Qed.

Lemma state_inv_put_next_id n :
  1 <= n <= RECOVERY_ALLOCATOR_MASK -> state_inv (put_next_id n s) k.
Proof. intros H. pose proof Hs as [[] ]. destruct s; simpl in *. split; [by split|..]; done. Qed.

End accesses.

(** ** The state invariant after an event *)

Section events.
Context (s : Shared) (k : Book) (Hs : state_inv s k).

Lemma unused_no_hold id : id ∉ bk_used k -> bk_holds k !! id = None.
Proof.
  intros H. destruct (bk_holds k !! id) eqn:E; [|done]. by destruct (si_holds _ _ Hs _ _ E).
Qed.

Lemma held_nonneg t : 0 <= book_held k t.
Proof.
  unfold book_held. assert (forall i x, bk_holds k !! i = Some x -> 0 < rr_reserved_microcents x) as Hp.
  { intros i x Hx. apply (si_holds _ _ Hs i x Hx). }
  revert Hp. induction (bk_holds k) as [|i x rs Hn IH] using map_ind; intros Hp; [by rewrite held_empty|].
  rewrite held_insert by done. pose proof (Hp i x (lookup_insert_eq _ _ _)).
  assert (0 <= held rs t).
  { apply IH. intros j y Hy. apply (Hp j). rewrite lookup_insert_ne; [done|]. intros ->. congruence. }
  by_tenant.
Qed.

Lemma hold_le_held id r :
  bk_holds k !! id = Some r -> rr_reserved_microcents r <= book_held k (rr_tenant_id r).
Proof. intros H. apply (held_ge _ id); [done|]. intros i x Hx. apply (si_holds _ _ Hs i x Hx). Qed.

Lemma book_held_reserve id t c u :
  id ∉ bk_used k -> book_held (book_reserve id t c k) u = book_held k u + share t c u.
Proof. intros H. unfold book_held; simpl. rewrite held_insert by by apply unused_no_hold. lia. Qed.

Lemma state_inv_reserve id t c :
  is_Some (bk_granted k !! t) -> 0 < c -> id ∉ bk_used k -> state_inv s (book_reserve id t c k).
Proof.
  intros Ht Hc Hid. split; try apply Hs; simpl.
  - intros id' r Hr. apply (si_res _ _ Hs) in Hr. rewrite lookup_insert_ne; [done|]. intros ->.
    by rewrite unused_no_hold in Hr.
  - intros id' r. rewrite lookup_insert_Some. intros [[<- <-]|[? Hr]]; [set_solver|].
    apply (si_holds _ _ Hs) in Hr. set_solver.
Qed.

Lemma book_held_settle id r a u :
  bk_holds k !! id = Some r -> book_held (book_settle id r a k) u = book_held k u - hold_for u r.
Proof. intros H. unfold book_held; simpl. by rewrite (held_delete _ _ r). Qed.

Lemma book_spent_settle id r a u :
  book_spent (book_settle id r a k) u = book_spent k u + share (rr_tenant_id r) a u.
Proof.
  unfold book_spent; simpl. destruct (decide (rr_tenant_id r = u)) as [<-|Hne].
  - rewrite lookup_insert_eq. by_tenant.
  - rewrite lookup_insert_ne by done. by_tenant.
Qed.

Lemma state_inv_settle id r a :
  bk_holds k !! id = Some r -> 0 <= a -> sh_reservations s !! id = None ->
  state_inv s (book_settle id r a k).
Proof.
  intros Hr Ha Hn. pose proof (si_holds _ _ Hs id r Hr) as (_ & _ & Ht).
  pose proof (si_spent_pos _ _ Hs) as Hp. pose proof (si_granted _ _ Hs) as Hg.
  pose proof (si_spent _ _ Hs) as Hsp. pose proof (si_res _ _ Hs) as Hre. pose proof (si_holds _ _ Hs) as Hh.
  split; try apply Hs; simpl.
  - intros u. destruct (decide (rr_tenant_id r = u)) as [<-|Hne].
    + rewrite lookup_insert_eq, <- Hg. by split.
    + by rewrite lookup_insert_ne.
  - intros u. rewrite book_spent_settle. specialize (Hp u). by_tenant.
  - intros id' x Hx. rewrite lookup_delete_ne; [by apply Hre|]. intros ->. congruence.
  - intros id' x Hx. apply lookup_delete_Some in Hx as [_ Hx]. by apply (Hh id').
Qed.

Lemma granted_grant t a u : granted (book_grant t a k) u = granted k u + share t a u.
Proof.
  unfold granted at 1; simpl. destruct (decide (t = u)) as [<-|Hne].
  - rewrite lookup_insert_eq. by_tenant.
  - rewrite lookup_insert_ne by done. unfold granted. by_tenant.
Qed.

Lemma state_inv_grant t a :
  is_Some (bk_granted k !! t) -> granted k t + a <= imax 64 -> state_inv s (book_grant t a k).
Proof.
  intros Ht Ha. pose proof (si_grant_max _ _ Hs) as Hm. pose proof (si_granted _ _ Hs) as Hg.
  pose proof (si_holds _ _ Hs) as Hh.
  assert (forall u, is_Some (<[t := granted k t + a]> (bk_granted k) !! u) <-> is_Some (bk_granted k !! u)) as Hd.
  { intros u. destruct (decide (t = u)) as [<-|Hne]; [rewrite lookup_insert_eq; by split|].
    by rewrite lookup_insert_ne. }
  split; try apply Hs; simpl.
  - intros u. rewrite Hd. apply Hg.
  - intros u. rewrite granted_grant. specialize (Hm u). by_tenant.
  - intros id r Hr. rewrite Hd. by apply (Hh id).
Qed.

End events.

(** ** What the invariant gives the thread that makes a step *)

Lemma to_return_nonneg s p t : pc_wf s p -> 0 <= to_return p t.
Proof. unfold pc_wf, owed, positive_amount, amount. destruct p; by_tenant. Qed.
Lemma in_total_nonneg s p t : pc_wf s p -> 0 <= in_total p t.
Proof.
  unfold pc_wf, owed, positive_amount, amount. destruct p; simpl; try case_match; by_tenant.
Qed.

Section thread.
Context (s : Shared) (ts : list pc) (k : Book) (i : nat) (p : pc).
Context (Hinv : conc_inv s ts k) (Hi : ts !! i = Some p).

Lemma total_ge t : book_held k t + in_total p t <= tot s t.
Proof.
  rewrite (ci_total _ _ _ Hinv). pose proof (zsum_ge (fun p => in_total p t) ts i p) as H.
  enough (in_total p t <= zsum (fun p => in_total p t) ts) by lia. apply H; [|done].
  intros j q Hj. apply (in_total_nonneg s). by eapply ci_pc.
Qed.

Lemma left_ge t : bal s t + to_return p t <= book_left k t.
Proof.
  rewrite <- (ci_balance _ _ _ Hinv). pose proof (zsum_ge (fun p => to_return p t) ts i p) as H.
  enough (to_return p t <= zsum (fun p => to_return p t) ts) by lia. apply H; [|done].
  intros j q Hj. apply (to_return_nonneg s). by eapply ci_pc.
Qed.

(** A fresh identifier is issued and unused. *)
Lemma own_id_fresh id : own_id p = Some id -> id ∉ bk_used k /\ 1 <= id < sh_next_id s.
Proof.
  intros H. pose proof (ci_fresh _ _ _ Hinv id) as F.
  pose proof (zsum_ge (fun p => fresh p id) ts i p (fun _ _ _ => fresh_nonneg _ _) Hi) as G. simpl in G.
  assert (fresh p id = 1) as E by (unfold fresh; by rewrite H, decide_True).
  rewrite E in G. unfold used, issued in F. repeat case_decide; try lia. done.
Qed.

(** ** Steps *)

Definition step_good (s' : Shared) (p' : pc) (ev : option event) : Prop :=
  exists k', match ev with Some e => book_step e k = Some k' | None => k' = k end /\
    local_step s k p s' k' p' /\
    (forall l, l ∈ guards p' -> l ∈ guards p \/ free l ts = true) /\
    emitted p' = (match ev with Some e => Some e | None => emitted p end) /\
    (is_Some ev -> emitted p = None).

(** A step that only moves the thread. *)
Lemma step_silent p' :
  pc_wf s p' ->
  to_return p' = to_return p -> in_total p' = in_total p -> unrecorded p' = unrecorded p ->
  ungranted p' = ungranted p -> own_hold p' = own_hold p -> emitted p' = emitted p ->
  own_id p' = own_id p \/ own_id p' = None ->
  (forall l, l ∈ guards p' -> l ∈ guards p \/ free l ts = true) ->
  step_good s p' None.
Proof.
  intros Hwf E1 E2 E3 E4 E5 E6 E7 Hg. exists k. split_and!; [done| |done|done|by intros []].
  split; rewrite ?E1, ?E2, ?E3, ?E4; try done.
  - apply Hinv.
  - apply rely_refl.
  - intros id. unfold owns. by rewrite E5.
  - intros id r. rewrite E5. by apply (ci_own _ _ _ Hinv i p).
  - by left.
  - intros id. unfold fresh. destruct E7 as [->| ->]; [done|]. case_decide; [done|]. case_decide; lia.
Qed.

End thread.

(** ** What the other threads see of an access *)

Lemma rely_store_budget gs s t b v :
  heap_wf s -> sh_tenant_budgets s !! t = Some b -> rely gs s (store b v s).
Proof.
  intros Hw Hb. split; simpl; auto. intros u. unfold cap_ok; simpl. by rewrite (tot_store_budget s t).
Qed.

Lemma rely_store_total gs s t l v :
  heap_wf s -> sh_tenant_reserved_totals s !! t = Some l ->
  v <= tot s t \/ cap_allows (sh_max_reserved_microcents s) t v -> rely gs s (store l v s).
Proof.
  intros Hw Hl Hv. split; simpl; auto. intros u. unfold cap_ok; simpl. rewrite (tot_store_total s t) by done.
  unfold cap_allows in *. by_tenant.
Qed.

Lemma rely_put_reservations gs s rs : rely gs s (put_reservations rs s).
Proof. split; simpl; auto. Qed.
Lemma rely_put_next_id gs s n : rely gs s (put_next_id n s).
Proof. split; simpl; auto. Qed.
Lemma rely_put_committed gs s t v : LCommitted ∈ gs -> rely gs s (put_committed t v s).
Proof. split; simpl; auto. Qed.
Lemma rely_put_initial gs s t v : LInitials ∈ gs -> rely gs s (put_initial t v s).
Proof. split; simpl; auto. Qed.
Create HintDb conc.
#[export] Hint Resolve rely_refl rely_store_budget rely_store_total rely_put_reservations
  rely_put_next_id rely_put_committed rely_put_initial : conc.

(** ** Steps that access one thing and make no event *)

Section quiet.
Context (s : Shared) (ts : list pc) (k : Book) (i : nat) (p p' : pc).
Context (Hinv : conc_inv s ts k) (Hi : ts !! i = Some p).
Context (Hg : forall l, l ∈ guards p' -> l ∈ guards p \/ free l ts = true).
Context (He : emitted p' = emitted p) (Hid : own_id p' = own_id p \/ own_id p' = None).

Lemma fresh_le id : fresh p' id <= fresh p id.
Proof. unfold fresh. destruct Hid as [->| ->]; [done|]. case_decide; [done|]. case_decide; lia. Qed.

Lemma good_store_total t l v :
  sh_tenant_reserved_totals s !! t = Some l -> v <= imax 64 ->
  v <= tot s t \/ cap_allows (sh_max_reserved_microcents s) t v ->
  (forall u, in_total p' u = in_total p u + share t (v - tot s t) u) ->
  to_return p' = to_return p -> unrecorded p' = unrecorded p -> ungranted p' = ungranted p ->
  own_hold p' = own_hold p -> pc_wf (store l v s) p' -> step_good s ts k p (store l v s) p' None.
Proof.
  intros Hl Hv Hc E1 E2 E3 E4 E5 Hwf. pose proof (ci_state _ _ _ Hinv) as Hs. pose proof (si_heap _ _ Hs).
  exists k. split_and!; [done| |done|done|by intros []]. split; rewrite ?E2, ?E3, ?E4; try done.
  - by apply (state_inv_store_total _ _ Hs t).
  - by apply (rely_store_total _ _ t).
  - intros u. by rewrite (bal_store_total s t).
  - intros u. rewrite (tot_store_total s t), E1 by done. lia.
  - intros id. unfold owns. by rewrite E5.
  - intros id r. rewrite E5. by apply (ci_own _ _ _ Hinv i p).
  - by left.
  - intros id. pose proof (fresh_le id). unfold issued; simpl. lia.
Qed.

Lemma good_store_budget t l v :
  sh_tenant_budgets s !! t = Some l -> 0 <= v ->
  (forall u, to_return p' u = to_return p u - share t (v - bal s t) u) ->
  in_total p' = in_total p -> unrecorded p' = unrecorded p -> ungranted p' = ungranted p ->
  own_hold p' = own_hold p -> pc_wf (store l v s) p' -> step_good s ts k p (store l v s) p' None.
Proof.
  intros Hl Hv E1 E2 E3 E4 E5 Hwf. pose proof (ci_state _ _ _ Hinv) as Hs. pose proof (si_heap _ _ Hs).
  exists k. split_and!; [done| |done|done|by intros []]. split; rewrite ?E2, ?E3, ?E4; try done.
  - by apply (state_inv_store_budget _ _ Hs t).
  - by apply (rely_store_budget _ _ t).
  - intros u. rewrite (bal_store_budget s t), E1 by done. lia.
  - intros u. by rewrite (tot_store_budget s t).
  - intros id. unfold owns. by rewrite E5.
  - intros id r. rewrite E5. by apply (ci_own _ _ _ Hinv i p).
  - by left.
  - intros id. pose proof (fresh_le id). unfold issued; simpl. lia.
Qed.

Section reservations.
Context (E1 : to_return p' = to_return p) (E2 : in_total p' = in_total p).
Context (E3 : unrecorded p' = unrecorded p) (E4 : ungranted p' = ungranted p).

Lemma good_insert_reservation id r :
  own_hold p = Some (id, r) -> own_hold p' = None -> pc_wf s p' ->
  step_good s ts k p (put_reservations (<[id := r]> (sh_reservations s)) s) p' None.
Proof.
  intros Hp Hp' Hwf. pose proof (ci_state _ _ _ Hinv) as Hs.
  pose proof (ci_own _ _ _ Hinv i p id r Hi Hp) as Hk.
  pose proof (own_hold_not_in_map _ _ _ i p id r Hinv Hi Hp) as Hn.
  exists k. split_and!; [done| |done|done|by intros []]. split; rewrite ?E1, ?E2, ?E3, ?E4; try done.
  - apply (state_inv_put_reservations _ _ Hs). intros id' r'. rewrite lookup_insert_Some.
    intros [[<- <-]|[? H]]; [done|]. by apply (si_res _ _ Hs).
  - apply rely_put_reservations.
  - intros id'. simpl. rewrite mem_insert. unfold owns. rewrite Hp, Hp'. simpl.
    pose proof (mem_None _ _ Hn). repeat case_decide; simplify_eq; lia.
  - by rewrite Hp'.
  - by left.
  - intros id'. pose proof (fresh_le id'). unfold issued; simpl. lia.
Qed.

Lemma good_remove_reservation id r :
  sh_reservations s !! id = Some r -> own_hold p = None -> own_hold p' = Some (id, r) -> pc_wf s p' ->
  step_good s ts k p (put_reservations (delete id (sh_reservations s)) s) p' None.
Proof.
  intros Hr Hp Hp' Hwf. pose proof (ci_state _ _ _ Hinv) as Hs.
  exists k. split_and!; [done| |done|done|by intros []]. split; rewrite ?E1, ?E2, ?E3, ?E4; try done.
  - apply (state_inv_put_reservations _ _ Hs). intros id' r' H. apply lookup_delete_Some in H as [_ H].
    by apply (si_res _ _ Hs).
  - apply rely_put_reservations.
  - intros id'. simpl. rewrite mem_delete. unfold owns. rewrite Hp, Hp'. simpl.
    pose proof (mem_Some _ _ _ Hr). repeat case_decide; simplify_eq; lia.
  - intros id' r'. rewrite Hp'. intros [= <- <-]. by apply (si_res _ _ Hs).
  - by left.
  - intros id'. pose proof (fresh_le id'). unfold issued; simpl. lia.
Qed.

End reservations.
End quiet.

(** ** Steps that close a hold *)

Lemma book_step_commit s k id r a :
  state_inv s k -> bk_holds k !! id = Some r -> 0 <= a ->
  a <= book_left k (rr_tenant_id r) + rr_reserved_microcents r ->
  book_step (EvCommit id a) k = Some (book_settle id r a k).
Proof. intros Hs Hr H1 H2. simpl. rewrite Hr. simpl. by rewrite !option_guard_True. Qed.

Lemma book_step_release k id r :
  bk_holds k !! id = Some r -> book_step (EvRelease id) k = Some (book_settle id r 0 k).
Proof. intros Hr. simpl. by rewrite Hr. Qed.

Lemma good_settle s ts k i p s' p' id r a ev :
  conc_inv s ts k -> ts !! i = Some p ->
  (forall l, l ∈ guards p' -> l ∈ guards p \/ free l ts = true) ->
  own_hold p = Some (id, r) -> own_hold p' = None -> own_id p' = None ->
  emitted p = None -> emitted p' = Some ev -> book_step ev k = Some (book_settle id r a k) -> 0 <= a ->
  sh_reservations s' = sh_reservations s -> sh_next_id s' = sh_next_id s ->
  state_inv s' k -> rely (guards p) s s' -> pc_wf s' p' ->
  (forall u, bal s' u + to_return p' u =
     bal s u + to_return p u + hold_for u r - share (rr_tenant_id r) a u) ->
  (forall u, tot s' u - in_total p' u = tot s u - in_total p u - hold_for u r) ->
  (forall u, cmt s' u + unrecorded p' u = cmt s u + unrecorded p u + share (rr_tenant_id r) a u) ->
  (forall u, ini s' u + ungranted p' u = ini s u + ungranted p u) ->
  step_good s ts k p s' p' (Some ev).
Proof.
  intros Hinv Hi Hg Hp Hp' Hid He He' Hb Ha Er En Hs' Hr Hwf E1 E2 E3 E4.
  pose proof (ci_own _ _ _ Hinv i p id r Hi Hp) as Hk.
  pose proof (own_hold_not_in_map _ _ _ i p id r Hinv Hi Hp) as Hn.
  exists (book_settle id r a k). split_and!; [done| |done|done|done].
  assert (forall u, book_left (book_settle id r a k) u =
            book_left k u + hold_for u r - share (rr_tenant_id r) a u) as El.
  { intros u. unfold book_left. rewrite book_spent_settle, book_held_settle by done.
    change (granted (book_settle id r a k) u) with (granted k u). lia. }
  split; try done.
  - apply state_inv_settle; [done|done|done|]. by rewrite Er.
  - intros u. rewrite El. specialize (E1 u). lia.
  - intros u. rewrite book_held_settle by done. specialize (E2 u). lia.
  - intros u. rewrite book_spent_settle. specialize (E3 u). lia.
  - intros u. change (granted (book_settle id r a k) u) with (granted k u). specialize (E4 u). lia.
  - intros id'. simpl. rewrite Er, mem_delete. unfold owns. rewrite Hp, Hp'. simpl.
    pose proof (mem_Some _ _ _ Hk). repeat case_decide; simplify_eq; lia.
  - by rewrite Hp'.
  - intros id' r' H. simpl. destruct (decide (id = id')) as [<-|].
    + right. by simplify_eq.
    + left. by rewrite lookup_delete_ne.
  - intros id'. assert (fresh p' id' = 0) as -> by (unfold fresh; by rewrite Hid).
    pose proof (fresh_nonneg p id'). unfold issued, used; simpl. rewrite En. lia.
Qed.

(** ** Reserve *)

Lemma cas_Some sp l current new s s' :
  cas sp l current new s = Some s' -> cell s l = current /\ s' = store l new s.
Proof.
  unfold cas. destruct sp; simpl; [done|]. destruct (Z.eqb_spec (cell s l) current); [|done].
  intros. by simplify_eq.
Qed.

Lemma cap_test caps t v :
  (0 <? default 0 (caps !! t)) && (default 0 (caps !! t) <? v) = false -> cap_allows caps t v.
Proof.
  unfold cap_allows. rewrite andb_false_iff, !Z.ltb_ge. lia.
Qed.

Lemma i64_sub x y : 0 <= y <= imax 64 -> 0 <= x <= imax 64 -> sub_i 64 x y = x - y.
Proof. intros. apply sub_i_exact. unfold is_i, imin, imax in *. lia. Qed.
Lemma i64_add x y : 0 <= y -> 0 <= x -> x + y <= imax 64 -> add_i 64 x y = x + y.
Proof. intros. apply add_i_exact. unfold is_i, imin, imax in *. lia. Qed.

Section reserve.
Context (s : Shared) (ts : list pc) (k : Book) (i : nat).
Context (Hinv : conc_inv s ts k).

Lemma good_R_cas t c b v m current z :
  ts !! i = Some (R_cas t c b v m current) -> checked_i 64 (current + c) = Some z ->
  (0 <? m) && (m <? z) = false -> cell s v = current ->
  step_good s ts k (R_cas t c b v m current) (store v z s) (R_alloc t c b v) None.
Proof.
  intros Hi Hz Hm Hc. pose proof (ci_pc _ _ _ Hinv i _ Hi) as ((? & ?) & [Hb Hv] & ->).
  apply checked_i_Some in Hz as [-> Hz]. apply cap_test in Hm.
  rewrite (cell_total _ _ _ Hv) in Hc. subst current. pose proof (si_heap _ _ (ci_state _ _ _ Hinv)).
  eapply good_store_total; try done; simpl; auto.
  - destruct Hz. unfold imax in *. lia.
  - by_tenant.
  - split_and!; [done|done|]. unfold cap_ok; simpl. rewrite (tot_store_total s t) by done. by_tenant.
    by replace (tot s t + (tot s t + c - tot s t)) with (tot s t + c) by lia.
Qed.

(** The compensation of a failed reservation takes its amount out again. *)
Lemma good_take_back t c v p p' :
  ts !! i = Some p -> sh_tenant_reserved_totals s !! t = Some v -> 0 < c <= imax 64 ->
  in_total p = (fun u => share t c u) -> in_total p' = (fun _ => 0) ->
  to_return p' = to_return p -> unrecorded p' = unrecorded p -> ungranted p' = ungranted p ->
  own_hold p' = own_hold p -> guards p' = [] -> emitted p' = emitted p -> own_id p' = None ->
  pc_wf (store v (sub_i 64 (cell s v) c) s) p' ->
  step_good s ts k p (store v (sub_i 64 (cell s v) c) s) p' None.
Proof.
  intros Hi Hv Hc E1 E2 E3 E4 E5 E6 Hg He Hid Hwf. pose proof (ci_state _ _ _ Hinv) as Hs.
  pose proof (total_ge _ _ _ i p Hinv Hi t) as Ht. rewrite E1 in Ht.
  pose proof (held_nonneg _ _ Hs t). pose proof (si_tot _ _ Hs t).
  assert (c <= tot s t) as Hle by (revert Ht; by_tenant).
  rewrite (cell_total _ _ _ Hv) in *. rewrite i64_sub in * by lia.
  eapply good_store_total; try done.
  - rewrite Hg. set_solver.
  - by right.
  - lia.
  - left. lia.
  - rewrite E1, E2. by_tenant.
Qed.

Lemma good_R_alloc t c b v id n :
  ts !! i = Some (R_alloc t c b v) -> allocate_id (sh_next_id s) = Some (id, n) ->
  step_good s ts k (R_alloc t c b v) (put_next_id n s) (R_balance t c b v id) None.
Proof.
  intros Hi Ha. pose proof (ci_pc _ _ _ Hinv i _ Hi) as Hwf. pose proof (ci_state _ _ _ Hinv) as Hs.
  unfold allocate_id in Ha. destruct (Z.ltb_spec (sh_next_id s) RECOVERY_ALLOCATOR_MASK); simplify_eq.
  pose proof (si_next _ _ Hs). exists k. split_and!; [done| |set_solver|done|by intros []].
  split; try done.
  - apply state_inv_put_next_id; [done|]. lia.
  - apply rely_put_next_id.
  - by left.
  - intros id. pose proof (ci_fresh _ _ _ Hinv id) as F.
    pose proof (zsum_nonneg (fun p => fresh p id) ts (fun _ _ _ => fresh_nonneg _ _)).
    unfold fresh; simpl. unfold used, issued in *; simpl. repeat case_decide; simplify_eq/=; lia.
Qed.

Lemma good_R_debit t c b v id current :
  ts !! i = Some (R_debit t c b v id current) -> c <= current -> cell s b = current ->
  step_good s ts k (R_debit t c b v id current) (store b (sub_i 64 current c) s)
    (R_reservations t c id (sub_i 64 current c)) (Some (EvReserve id t c)).
Proof.
  intros Hi Hle Hc. pose proof (ci_pc _ _ _ Hinv i _ Hi) as ((? & ?) & [Hb Hv] & Hcap).
  pose proof (ci_state _ _ _ Hinv) as Hs. pose proof (si_heap _ _ Hs) as Hh.
  pose proof (own_id_fresh _ _ _ i _ Hinv Hi id eq_refl) as [Hu Hid].
  pose proof (total_ge _ _ _ i _ Hinv Hi t) as Ht. pose proof (left_ge _ _ _ i _ Hinv Hi t) as Hl.
  pose proof (held_nonneg _ _ Hs t). pose proof (si_spent_pos _ _ Hs t). pose proof (si_grant_max _ _ Hs t).
  assert (is_Some (bk_granted k !! t)) as Hg by (apply (si_granted _ _ Hs); by rewrite Hb).
  simpl in Ht, Hl. assert (share t c t = c) as Ec by by_tenant. rewrite Ec in Ht.
  rewrite (cell_budget _ _ _ Hb) in Hc. rewrite i64_sub by (unfold book_left in *; lia).
  exists (book_reserve id t c k). split_and!; [|split|set_solver|done|done].
  - simpl. destruct Hg as [? ->]. simpl. rewrite !option_guard_True; [done|lia| |done|done].
    unfold cap_ok in Hcap. rewrite (si_caps _ _ Hs). unfold cap_allows in *. lia.
  - apply state_inv_reserve; [|done|lia|done]. apply (state_inv_store_budget _ _ Hs t); [done|lia].
  - by apply (rely_store_budget _ _ t).
  - done.
  - intros u. rewrite (bal_store_budget s t) by done. unfold book_left.
    rewrite (book_held_reserve s) by done. change (granted (book_reserve id t c k) u) with (granted k u).
    change (book_spent (book_reserve id t c k) u) with (book_spent k u). by_tenant.
  - intros u. rewrite (tot_store_budget s t), (book_held_reserve s) by done. by_tenant.
  - done.
  - done.
  - intros id'. simpl. rewrite mem_insert. unfold owns. simpl.
    pose proof (mem_None _ _ (unused_no_hold _ _ Hs id Hu)). repeat case_decide; simplify_eq; lia.
  - intros id' r [= <- <-]. simpl. by rewrite lookup_insert_eq.
  - intros id' r Hr. left. simpl. rewrite lookup_insert_ne; [done|]. intros ->.
    by rewrite (unused_no_hold _ _ Hs) in Hr.
  - intros id'. unfold fresh, used, issued; simpl.
    destruct (decide (id' = id)) as [->|Hne].
    + rewrite (decide_True (P := id ∈ {[id]} ∪ bk_used k)) by set_solver. repeat case_decide; simplify_eq; lia.
    + rewrite (decide_ext (id' ∈ {[id]} ∪ bk_used k) (id' ∈ bk_used k)) by set_solver.
      repeat case_decide; simplify_eq; lia.
Qed.

End reserve.

(** The steps that only move the thread. *)
Ltac quiet_step :=
  eapply step_silent; try done; simpl; auto;
  first [set_solver | by unfold owed, arcs in *; naive_solver].

Lemma step_reserve_good sp s ts k i p s' p' ev :
  conc_inv s ts k -> ts !! i = Some p -> step_reserve sp ts s p = Some (s', p', ev) ->
  step_good s ts k p s' p' ev.
Proof.
  intros Hinv Hi Hst. pose proof (ci_pc _ _ _ Hinv i p Hi) as Hwf.
  destruct p; simpl in Hst; unfold acquire, tau in Hst; repeat case_match; simplify_eq/=; try quiet_step;
    try match goal with H : cas _ _ _ _ _ = Some _ |- _ => apply cas_Some in H as [? ->] end.
  - by eapply good_R_cas.
  - by eapply good_R_alloc.
  - destruct Hwf as [? ?]. by eapply good_take_back.
  - eapply good_R_debit; [done|done|lia|done].
  - destruct Hwf as [? ?]. by eapply good_take_back.
  - by eapply good_insert_reservation; eauto; set_solver.
Qed.
