(* ===== verification/BudgetConcOps.v ===== *)
(** * Commit, release, top up and ensure under concurrency

    The remaining operations' steps, and the preservation of the invariant by
    every move of the scheduler. *)

From S2P Require Import Prelude Budget BudgetInv BudgetSpec BudgetConc BudgetConcInv BudgetConcSteps.
#[local] Open Scope Z_scope.

Lemma settled_delta_exact a r :
  amount a -> positive_amount (rr_reserved_microcents r) ->
  settled_delta a r = a - rr_reserved_microcents r.
Proof. unfold amount, positive_amount, settled_delta. intros. apply i64_sub; lia. Qed.

Lemma i64_neg x : - imax 64 <= x <= 0 -> sub_i 64 0 x = - x.
Proof. intros. rewrite sub_i_exact; [lia|]. unfold is_i, imin, imax in *. lia. Qed.

(** An open hold has an amount the machine can hold. *)
Lemma hold_positive s ts k id r :
  conc_inv s ts k -> bk_holds k !! id = Some r -> positive_amount (rr_reserved_microcents r).
Proof.
  intros Hinv Hr. pose proof (ci_state _ _ _ Hinv) as Hs.
  pose proof (si_holds _ _ Hs id r Hr) as (_ & Hp & _). pose proof (hold_le_held _ _ Hs id r Hr).
  pose proof (si_tot _ _ Hs (rr_tenant_id r)). pose proof (ci_total _ _ _ Hinv (rr_tenant_id r)).
  pose proof (zsum_nonneg (fun p => in_total p (rr_tenant_id r)) ts) as Hz.
  assert (0 <= zsum (fun p => in_total p (rr_tenant_id r)) ts).
  { apply Hz. intros j q Hj. apply (in_total_nonneg s). by eapply ci_pc. }
  split; lia.
Qed.

Section settle.
Context (s : Shared) (ts : list pc) (k : Book) (i : nat).
Context (Hinv : conc_inv s ts k).

Lemma good_C_debit id a r b n current :
  ts !! i = Some (C_debit id a r b n current) -> settled_delta a r <= current -> cell s b = current ->
  step_good s ts k (C_debit id a r b n current) (store b (sub_i 64 current (settled_delta a r)) s)
    (C_record id a r b n) (Some (EvCommit id a)).
Proof.
  intros Hi Hle Hc. pose proof (ci_pc _ _ _ Hinv i _ Hi) as ((Ha & Hr & Hb) & -> & Hlt).
  pose proof (ci_state _ _ _ Hinv) as Hs. pose proof (si_heap _ _ Hs) as Hh.
  pose proof (settled_delta_exact a r Ha Hr) as Ed. rewrite Ed in *.
  pose proof (left_ge _ _ _ i _ Hinv Hi (rr_tenant_id r)) as Hl. simpl in Hl.
  pose proof (held_nonneg _ _ Hs (rr_tenant_id r)). pose proof (si_spent_pos _ _ Hs (rr_tenant_id r)).
  pose proof (si_grant_max _ _ Hs (rr_tenant_id r)). unfold amount, positive_amount in *.
  rewrite (cell_budget _ _ _ Hb) in Hc. rewrite i64_sub by (unfold book_left in *; lia).
  assert (0 <? settled_delta a r = true) as Et by (apply Z.ltb_lt; lia).
  pose proof (ci_own _ _ _ Hinv i _ id r Hi eq_refl) as Hk.
  eapply (good_settle _ _ _ i _ _ _ id r a); try done; simpl; rewrite ?Et; try done; try lia.
  - set_solver.
  - eapply book_step_commit; [done|done|lia|lia].
  - by apply (state_inv_store_budget _ _ Hs (rr_tenant_id r)); [|lia].
  - by apply (rely_store_budget _ _ (rr_tenant_id r)).
  - intros u. rewrite (bal_store_budget s (rr_tenant_id r)) by done. by_tenant.
  - intros u. rewrite (tot_store_budget s (rr_tenant_id r)) by done. by_tenant.
  - intros u. change (cmt (store _ _ s) u) with (cmt s u). lia.
Qed.

Lemma good_C_check id a r b n p' :
  ts !! i = Some (C_check id a r b) ->
  checked_i 64 (default 0 (sh_committed_microcents s !! rr_tenant_id r) + a) = Some n ->
  p' = (if 0 <? settled_delta a r then C_balance id a r b n else C_record id a r b n) ->
  step_good s ts k (C_check id a r b) s p' None.
Proof.
  intros Hi Hn Hp'. pose proof (ci_pc _ _ _ Hinv i _ Hi) as Hwf. pose proof Hwf as (Ha & Hr & Hb).
  apply checked_i_Some in Hn as [-> Hn]. pose proof (settled_delta_exact a r Ha Hr) as Ed.
  destruct (0 <? settled_delta a r) eqn:Et; subst p'; (eapply step_silent; try done; simpl; rewrite ?Et; try done);
    try (by right); try set_solver; try (by unfold in_total, unrecorded; rewrite Et).
  split_and!; [done|done|]. apply Z.ltb_lt in Et. lia.
Qed.

Lemma good_C_record_overrun id a r b n :
  ts !! i = Some (C_record id a r b n) -> 0 < settled_delta a r ->
  step_good s ts k (C_record id a r b n) (put_committed (rr_tenant_id r) n s) (C_totals id a r b) None.
Proof.
  intros Hi Hd. pose proof (ci_pc _ _ _ Hinv i _ Hi) as ((Ha & Hr & Hb) & ->).
  pose proof (ci_state _ _ _ Hinv) as Hs. apply Z.ltb_lt in Hd as Et.
  exists k. split_and!; [done| |set_solver|by simpl; rewrite Et|by intros []].
  split; simpl; rewrite ?Et; try done.
  - apply (state_inv_put_committed _ _ Hs). by rewrite Hb.
  - apply rely_put_committed. set_solver.
  - intros u. rewrite cmt_put_committed. by_tenant.
  - intros id'. unfold owns; simpl. by rewrite Et.
  - by left.
Qed.

Lemma good_C_record id a r b n p' :
  ts !! i = Some (C_record id a r b n) -> settled_delta a r <= 0 ->
  p' = (if settled_delta a r <? 0 then C_refund id a r b else C_totals id a r b) ->
  step_good s ts k (C_record id a r b n) (put_committed (rr_tenant_id r) n s) p' (Some (EvCommit id a)).
Proof.
  intros Hi Hd Hp'. pose proof (ci_pc _ _ _ Hinv i _ Hi) as ((Ha & Hr & Hb) & ->).
  pose proof (ci_state _ _ _ Hinv) as Hs. pose proof (settled_delta_exact a r Ha Hr) as Ed.
  pose proof (left_ge _ _ _ i _ Hinv Hi (rr_tenant_id r)) as Hl. simpl in Hl.
  pose proof (si_bal _ _ Hs (rr_tenant_id r)). unfold amount, positive_amount in *.
  assert (0 <? settled_delta a r = false) as Et by (apply Z.ltb_ge; lia).
  assert (own_hold (C_record id a r b (cmt s (rr_tenant_id r) + a)) = Some (id, r)) as Ho by (simpl; by rewrite Et).
  pose proof (ci_own _ _ _ Hinv i _ id r Hi Ho) as Hk.
  assert (book_step (EvCommit id a) k = Some (book_settle id r a k)) as Hbs
    by (eapply book_step_commit; [done|done|lia|lia]).
  eapply (good_settle _ _ _ i _ _ _ id r a); try done; try (by simpl; rewrite Et); subst p'; try lia;
    try (destruct (Z.ltb_spec (settled_delta a r) 0); simpl; rewrite ?Et; try done).
  - set_solver.
  - set_solver.
  - apply (state_inv_put_committed _ _ Hs). by rewrite Hb.
  - apply (state_inv_put_committed _ _ Hs). by rewrite Hb.
  - apply rely_put_committed. set_solver.
  - apply rely_put_committed. set_solver.
  - split; [done|lia].
  - intros u. change (bal (put_committed _ _ s) u) with (bal s u). by_tenant.
  - intros u. change (bal (put_committed _ _ s) u) with (bal s u). by_tenant.
  - intros u. change (tot (put_committed _ _ s) u) with (tot s u). lia.
  - intros u. change (tot (put_committed _ _ s) u) with (tot s u). lia.
  - intros u. rewrite cmt_put_committed. by_tenant.
  - intros u. rewrite cmt_put_committed. by_tenant.
Qed.

(** Returning what is owed to the balance: the refund of a commit and the
    credit of a release. *)
Lemma good_pay t b z p p' :
  ts !! i = Some p -> sh_tenant_budgets s !! t = Some b -> 0 < z ->
  to_return p = (fun u => share t z u) -> to_return p' = (fun _ => 0) ->
  in_total p' = in_total p -> unrecorded p' = unrecorded p -> ungranted p' = ungranted p ->
  own_hold p' = own_hold p -> guards p' ⊆ guards p -> emitted p' = emitted p -> own_id p' = None ->
  pc_wf (store b (add_i 64 (cell s b) z) s) p' ->
  step_good s ts k p (store b (add_i 64 (cell s b) z) s) p' None.
Proof.
  intros Hi Hb Hz E1 E2 E3 E4 E5 E6 Hg He Hid Hwf. pose proof (ci_state _ _ _ Hinv) as Hs.
  pose proof (left_ge _ _ _ i p Hinv Hi t) as Hl. rewrite E1 in Hl.
  pose proof (held_nonneg _ _ Hs t). pose proof (si_spent_pos _ _ Hs t). pose proof (si_grant_max _ _ Hs t).
  pose proof (si_bal _ _ Hs t). assert (bal s t + z <= imax 64) as Hle.
  { unfold book_left in Hl. revert Hl. by_tenant. }
  rewrite (cell_budget _ _ _ Hb) in *. rewrite i64_add in * by lia.
  eapply good_store_budget; try done.
  - intros l Hl'. left. by apply Hg.
  - by right.
  - lia.
  - rewrite E1, E2. by_tenant.
Qed.

Lemma sub_total_exact r :
  is_Some (sh_tenant_budgets s !! rr_tenant_id r) -> positive_amount (rr_reserved_microcents r) ->
  rr_reserved_microcents r <= tot s (rr_tenant_id r) ->
  exists v, sh_tenant_reserved_totals s !! rr_tenant_id r = Some v /\
    sub_total r s = store v (tot s (rr_tenant_id r) - rr_reserved_microcents r) s.
Proof.
  intros Hb Hr Hle. pose proof (ci_state _ _ _ Hinv) as Hs. pose proof (si_heap _ _ Hs) as Hh.
  apply (hw_totals _ Hh) in Hb as [v Hv]. exists v. split; [done|]. unfold sub_total. rewrite Hv.
  rewrite (cell_total _ _ _ Hv). pose proof (si_tot _ _ Hs (rr_tenant_id r)).
  unfold positive_amount in Hr. by rewrite i64_sub by lia.
Qed.

Lemma good_C_sub id a r b :
  ts !! i = Some (C_sub id a r b) ->
  step_good s ts k (C_sub id a r b) (sub_total r s) (C_remaining id a b) None.
Proof.
  intros Hi. pose proof (ci_pc _ _ _ Hinv i _ Hi) as (Ha & Hr & Hb). pose proof (ci_state _ _ _ Hinv) as Hs.
  pose proof (total_ge _ _ _ i _ Hinv Hi (rr_tenant_id r)) as Ht. simpl in Ht. rewrite hold_for_eq in Ht.
  pose proof (held_nonneg _ _ Hs (rr_tenant_id r)). pose proof (si_tot _ _ Hs (rr_tenant_id r)).
  destruct (sub_total_exact r) as (v & Hv & ->); [by rewrite Hb|done|lia|].
  unfold positive_amount in Hr. eapply good_store_total; try done; simpl; auto.
  - set_solver.
  - lia.
  - left. lia.
  - by_tenant.
Qed.

Lemma good_L_sub id r b :
  ts !! i = Some (L_sub id r b) ->
  step_good s ts k (L_sub id r b) (sub_total r s) (L_credit id r b) (Some (EvRelease id)).
Proof.
  intros Hi. pose proof (ci_pc _ _ _ Hinv i _ Hi) as (_ & Hr & Hb). pose proof (ci_state _ _ _ Hinv) as Hs.
  pose proof (si_heap _ _ Hs). pose proof (ci_own _ _ _ Hinv i _ id r Hi eq_refl) as Hk.
  pose proof (total_ge _ _ _ i _ Hinv Hi (rr_tenant_id r)) as Ht. simpl in Ht.
  pose proof (hold_le_held _ _ Hs id r Hk). pose proof (si_tot _ _ Hs (rr_tenant_id r)).
  destruct (sub_total_exact r) as (v & Hv & ->); [by rewrite Hb|done|lia|].
  unfold positive_amount in Hr. eapply (good_settle _ _ _ i _ _ _ id r 0); try done; simpl; auto.
  - set_solver.
  - by apply (book_step_release k id r).
  - by apply (state_inv_store_total _ _ Hs (rr_tenant_id r)); [|lia].
  - apply (rely_store_total _ _ (rr_tenant_id r)); [done|done|left; lia].
  - intros u. rewrite (bal_store_total s (rr_tenant_id r)) by done. by_tenant.
  - intros u. rewrite (tot_store_total s (rr_tenant_id r)) by done. by_tenant.
  - intros u. change (cmt (store _ _ s) u) with (cmt s u). by_tenant.
Qed.

End settle.

(** The points of a settlement that put the hold back or take it out. *)
Ltac reservation_step :=
  first [ by eapply good_insert_reservation; eauto; set_solver
        | eapply good_remove_reservation; eauto; try set_solver ].

Lemma step_commit_good sp s ts k i p s' p' ev :
  conc_inv s ts k -> ts !! i = Some p -> step_commit sp ts s p = Some (s', p', ev) ->
  step_good s ts k p s' p' ev.
Proof.
  intros Hinv Hi Hst. pose proof (ci_pc _ _ _ Hinv i p Hi) as Hwf.
  destruct p; simpl in Hst; unfold acquire, tau in Hst; repeat case_match; simplify_eq/=; try quiet_step;
    try match goal with H : cas _ _ _ _ _ = Some _ |- _ => apply cas_Some in H as [? ->] end;
    try reservation_step.
  - split; [done|]. apply (hold_positive s ts k id); [done|]. by apply (si_res _ _ (ci_state _ _ _ Hinv)).
  - eapply good_C_check; [done|done|done|].
    by match goal with H : (0 <? settled_delta _ _) = true |- _ => rewrite H end.
  - eapply good_C_check; [done|done|done|].
    by match goal with H : (0 <? settled_delta _ _) = false |- _ => rewrite H end.
  - eapply good_C_debit; [done|done|lia|done].
  - eapply good_C_record_overrun; [done|done|lia].
  - eapply good_C_record; [done|done|lia|].
    by match goal with H : (settled_delta _ _ <? 0) = true |- _ => rewrite H end.
  - eapply good_C_record; [done|done|lia|].
    by match goal with H : (settled_delta _ _ <? 0) = false |- _ => rewrite H end.
  - destruct Hwf as [(Ha & Hr & Hb) Hlt]. rewrite settled_delta_exact by done.
    unfold amount, positive_amount in *. rewrite i64_neg by lia.
    replace (- (a - rr_reserved_microcents r)) with (rr_reserved_microcents r - a) by lia.
    eapply good_pay; try done. lia.
  - by eapply good_C_sub.
Qed.

Lemma step_release_good s ts k i p s' p' ev :
  conc_inv s ts k -> ts !! i = Some p -> step_release ts s p = Some (s', p', ev) ->
  step_good s ts k p s' p' ev.
Proof.
  intros Hinv Hi Hst. pose proof (ci_pc _ _ _ Hinv i p Hi) as Hwf.
  destruct p; simpl in Hst; unfold acquire, tau in Hst; repeat case_match; simplify_eq/=; try quiet_step;
    try reservation_step.
  - apply (hold_positive s ts k id); [done|]. by apply (si_res _ _ (ci_state _ _ _ Hinv)).
  - by eapply good_L_sub.
  - destruct Hwf as (Ha & (? & ?) & Hb), r as [t z]; simpl in *. eapply (good_pay _ _ _ i Hinv t b z); try done. set_solver.
Qed.

(** ** Top up *)

Section top_up.
Context (s : Shared) (ts : list pc) (k : Book) (i : nat).
Context (Hinv : conc_inv s ts k).

(** While a thread holds the grants, no top-up is half done. *)
Lemma grants_recorded p t :
  ts !! i = Some p -> LInitials ∈ guards p -> ungranted p t = 0 -> granted k t = ini s t.
Proof.
  intros Hi Hg Hp. rewrite <- (ci_granted _ _ _ Hinv). rewrite zsum_zero; [lia|].
  intros q [j Hj]%list_elem_of_lookup. destruct (decide (i = j)) as [->|Hne]; [by simplify_eq|].
  destruct q; try done. destruct Hne. eapply (ci_excl _ _ _ Hinv); [exact Hi|exact Hj|exact Hg|set_solver].
Qed.

Lemma good_T_credit t a b n current new :
  ts !! i = Some (T_credit t a b n current) -> checked_i 64 (current + a) = Some new -> cell s b = current ->
  step_good s ts k (T_credit t a b n current) (store b new s) (T_store t a n new) (Some (EvTopUp t a)).
Proof.
  intros Hi Hn Hc. pose proof (ci_pc _ _ _ Hinv i _ Hi) as ((? & ?) & Hb & Hini & -> & Hmax).
  pose proof (ci_state _ _ _ Hinv) as Hs. pose proof (si_heap _ _ Hs) as Hh.
  apply checked_i_Some in Hn as [-> Hn]. rewrite (cell_budget _ _ _ Hb) in Hc. subst current.
  assert (granted k t = ini s t) as Eg by (eapply grants_recorded; [done|set_solver|done]).
  pose proof (si_bal _ _ Hs t).
  assert (is_Some (bk_granted k !! t)) as Hg by (apply (si_granted _ _ Hs); by rewrite Hb).
  exists (book_grant t a k). split_and!; [|split|set_solver|done|done]; try done.
  - simpl. destruct Hg as [? ->]. simpl. by rewrite !option_guard_True by lia.
  - apply state_inv_grant; [|done|lia]. apply (state_inv_store_budget _ _ Hs t); [done|lia].
  - by apply (rely_store_budget _ _ t).
  - intros u. rewrite (bal_store_budget s t) by done. unfold book_left. rewrite granted_grant.
    change (book_held (book_grant t a k) u) with (book_held k u).
    change (book_spent (book_grant t a k) u) with (book_spent k u). by_tenant.
  - intros u. by rewrite (tot_store_budget s t) by done.
  - intros u. rewrite granted_grant. change (ini (store _ _ s) u) with (ini s u). by_tenant.
  - by left.
Qed.

Lemma good_T_store t a n rem :
  ts !! i = Some (T_store t a n rem) ->
  step_good s ts k (T_store t a n rem) (put_initial t n s) (ret_top_up t a (ToppedUp a n rem)) None.
Proof.
  intros Hi. pose proof (ci_pc _ _ _ Hinv i _ Hi) as ((? & ?) & Hini & ->).
  pose proof (ci_state _ _ _ Hinv) as Hs. pose proof (si_heap _ _ Hs) as Hh.
  exists k. split_and!; [done| |set_solver|done|by intros []]. split; try done.
  - apply (state_inv_put_initial _ _ Hs). by apply (hw_initial _ Hh).
  - apply rely_put_initial. set_solver.
  - intros u. rewrite ini_put_initial. by_tenant.
  - by left.
Qed.

End top_up.

Lemma step_top_up_good sp s ts k i p s' p' ev :
  conc_inv s ts k -> ts !! i = Some p -> step_top_up sp ts s p = Some (s', p', ev) ->
  step_good s ts k p s' p' ev.
Proof.
  intros Hinv Hi Hst. pose proof (ci_pc _ _ _ Hinv i p Hi) as Hwf.
  destruct p; simpl in Hst; unfold acquire, tau in Hst; repeat case_match; simplify_eq/=; try quiet_step;
    try match goal with H : cas _ _ _ _ _ = Some _ |- _ => apply cas_Some in H as [? ->] end.
  - match goal with H : checked_i 64 _ = Some _ |- _ => apply checked_i_Some in H as [-> [? ?]] end.
    destruct Hwf as [? ?]. eapply step_silent; try done; simpl; auto; try set_solver.
    unfold ini. match goal with H : sh_initial_microcents _ !! t = _ |- _ => rewrite H end.
    unfold imax in *. split_and!; done.
  - by eapply good_T_credit.
  - by eapply good_T_store.
Qed.

(** ** Ensure *)

Section ensure.
Context (s : Shared) (t : string) (r n c v : Z).
Context (Hwf : heap_wf s) (Hn : sh_tenant_budgets s !! t = None).
#[local] Abbreviation s' := (insert_tenant t r n c v s).

Lemma cell_insert_tenant l : (l < length (sh_cells s))%nat -> cell s' l = cell s l.
Proof. intros. unfold cell; simpl. by rewrite lookup_app_l. Qed.

Lemma bal_insert_tenant u : bal s' u = if decide (t = u) then r else bal s u.
Proof.
  unfold bal; simpl. case_decide as E; [subst; rewrite lookup_insert_eq|rewrite lookup_insert_ne by done].
  - simpl. unfold cell; simpl. rewrite lookup_app_r by lia. by rewrite Nat.sub_diag.
  - destruct (sh_tenant_budgets s !! u) eqn:Hu; simpl; [|done].
    apply cell_insert_tenant. by eapply hw_budget_cell.
Qed.

Lemma tot_insert_tenant u : tot s' u = if decide (t = u) then v else tot s u.
Proof.
  unfold tot; simpl. case_decide as E; [subst; rewrite lookup_insert_eq|rewrite lookup_insert_ne by done].
  - simpl. unfold cell; simpl. rewrite lookup_app_r by lia.
    by replace (S (length (sh_cells s)) - length (sh_cells s))%nat with 1%nat by lia.
  - destruct (sh_tenant_reserved_totals s !! u) eqn:Hu; simpl; [|done].
    apply cell_insert_tenant. by eapply hw_total_cell.
Qed.

Lemma cmt_insert_tenant u : cmt s' u = if decide (t = u) then c else cmt s u.
Proof. unfold cmt; simpl. rewrite lookup_insert. by case_decide. Qed.
Lemma ini_insert_tenant u : ini s' u = if decide (t = u) then n else ini s u.
Proof. unfold ini; simpl. rewrite lookup_insert. by case_decide. Qed.

Lemma heap_wf_insert_tenant : heap_wf s'.
Proof.
  pose proof Hwf as [H1 H2 H3 H4 H5 H6 H7 H8].
  assert (forall (A : Type) (m : gmap string A) (x : A) u,
            (is_Some (m !! u) <-> is_Some (sh_tenant_budgets s !! u)) ->
            is_Some (<[t := x]> m !! u) <-> is_Some (<[t := length (sh_cells s)]> (sh_tenant_budgets s) !! u)) as Hd.
  { intros A m x u Hu. rewrite !lookup_insert. by case_decide. }
  split; simpl; auto.
  - intros u l. rewrite length_app, lookup_insert_Some; simpl. intros [[<- <-]|[? Hl%H4]]; lia.
  - intros u l. rewrite length_app, lookup_insert_Some; simpl. intros [[<- <-]|[? Hl%H5]]; lia.
  - intros u w l. rewrite !lookup_insert_Some. intros [[<- <-]|[? Hl]] [[<- E]|[? Hm]]; [done| | |by eapply H6].
    + apply H4 in Hm. lia.
    + apply H4 in Hl. lia.
  - intros u w l. rewrite !lookup_insert_Some. intros [[<- <-]|[? Hl]] [[<- E]|[? Hm]]; [done| | |by eapply H7].
    + apply H5 in Hm. lia.
    + apply H5 in Hl. lia.
  - intros u w l. rewrite !lookup_insert_Some. intros [[<- <-]|[? Hl]] [[<- E]|[? Hm]]; [lia| | |by eapply H8].
    + apply H5 in Hm. lia.
    + apply H4 in Hl. lia.
Qed.

End ensure.

Definition book_open (t : string) (n : Z) (k : Book) : Book :=
  mkBook (<[t := n]> (bk_granted k)) (<[t := 0]> (bk_spent k)) (bk_holds k) (bk_caps k) (bk_used k).

Section open.
Context (s : Shared) (ts : list pc) (k : Book) (i : nat) (t : string) (n : Z).
Context (Hinv : conc_inv s ts k) (Hi : ts !! i = Some (E_insert t n)).
Context (Hn : sh_tenant_budgets s !! t = None).

Lemma no_tenant : bk_granted k !! t = None /\ bk_spent k !! t = None /\ book_held k t = 0 /\
  bal s t = 0 /\ tot s t = 0 /\ cmt s t = 0 /\ ini s t = 0.
Proof.
  pose proof (ci_state _ _ _ Hinv) as Hs. pose proof (si_heap _ _ Hs) as Hh.
  assert (forall (A : Type) (m : gmap string A),
    (forall u, is_Some (m !! u) <-> is_Some (sh_tenant_budgets s !! u)) -> m !! t = None) as Hd.
  { intros A m Hm. apply eq_None_not_Some. rewrite Hm, Hn. by intros []. }
  pose proof (total_ge _ _ _ i _ Hinv Hi t) as Ht. pose proof (held_nonneg _ _ Hs t).
  unfold bal, cmt, ini. rewrite Hn. rewrite (Hd _ _ (hw_committed _ Hh)), (Hd _ _ (hw_initial _ Hh)).
  assert (tot s t = 0) as E by (unfold tot; by rewrite (Hd _ _ (hw_totals _ Hh))).
  rewrite E in *. simpl in Ht. split_and!; try done; [apply (Hd _ _ (si_granted _ _ Hs))|
    apply (Hd _ _ (si_spent _ _ Hs))|lia].
Qed.

Lemma granted_open u : granted (book_open t n k) u = if decide (t = u) then n else granted k u.
Proof. unfold granted; simpl. rewrite lookup_insert. by case_decide. Qed.
Lemma book_spent_open u : book_spent (book_open t n k) u = if decide (t = u) then 0 else book_spent k u.
Proof. unfold book_spent; simpl. rewrite lookup_insert. by case_decide. Qed.

Lemma state_inv_open : amount n -> state_inv (insert_tenant t n n 0 0 s) (book_open t n k).
Proof.
  intros Ha. pose proof (ci_state _ _ _ Hinv) as Hs. pose proof (si_heap _ _ Hs) as Hh.
  unfold amount, imax in *. split; try apply Hs; simpl.
  - by apply heap_wf_insert_tenant.
  - intros u. rewrite !lookup_insert. case_decide; [by split|]. apply Hs.
  - intros u. rewrite !lookup_insert. case_decide; [by split|]. apply Hs.
  - intros u. rewrite bal_insert_tenant by done. pose proof (si_bal _ _ Hs u). case_decide; lia.
  - intros u. rewrite tot_insert_tenant by done. pose proof (si_tot _ _ Hs u). case_decide; [|done]. done.
  - intros u. rewrite granted_open. pose proof (si_grant_max _ _ Hs u). case_decide; unfold imax in *; lia.
  - intros u. rewrite book_spent_open. pose proof (si_spent_pos _ _ Hs u). case_decide; lia.
  - intros id r Hr. destruct (si_holds _ _ Hs id r Hr) as (? & ? & ?). split_and!; [done|done|].
    rewrite lookup_insert. by case_decide.
Qed.

Lemma good_E_insert :
  step_good s ts k (E_insert t n) (insert_tenant t n n 0 0 s)
    (Ret (Call (OpEnsure t n)) (Answer (RConfig (Ok tt)))) (Some (EvEnsure t n)).
Proof.
  pose proof (ci_pc _ _ _ Hinv i _ Hi) as Ha. pose proof (ci_state _ _ _ Hinv) as Hs.
  pose proof (si_heap _ _ Hs) as Hh. pose proof no_tenant as (Hg & Hsp & Hhe & Hb & Ht & Hc & Hin).
  exists (book_open t n k). split_and!; [|split|set_solver|done|done]; try done.
  - simpl. rewrite option_guard_True by apply Ha. simpl. by rewrite Hg.
  - by apply state_inv_open.
  - split; simpl; auto.
    + by apply insert_subseteq.
    + apply insert_subseteq. apply eq_None_not_Some. rewrite (hw_totals _ Hh), Hn. by intros [].
    + left. set_solver.
    + left. set_solver.
    + intros u. unfold cap_ok; simpl. rewrite tot_insert_tenant by done. unfold cap_allows.
      case_decide; [subst|done]. lia.
  - intros u. rewrite bal_insert_tenant by done. unfold book_left. rewrite granted_open, book_spent_open.
    change (book_held (book_open t n k) u) with (book_held k u). case_decide; subst; simpl; [|lia].
    unfold granted, book_spent. rewrite Hg, Hsp. simpl. lia.
  - intros u. rewrite tot_insert_tenant by done. change (book_held (book_open t n k) u) with (book_held k u).
    case_decide; subst; simpl; lia.
  - intros u. rewrite cmt_insert_tenant, book_spent_open. case_decide; subst; simpl; [|lia].
    unfold book_spent. rewrite Hsp. simpl. lia.
  - intros u. rewrite ini_insert_tenant, granted_open. case_decide; subst; simpl; [|lia].
    unfold granted. rewrite Hg. simpl. lia.
  - by left.
Qed.

End open.

Lemma step_ensure_good s ts k i p s' p' ev :
  conc_inv s ts k -> ts !! i = Some p -> step_ensure ts s p = Some (s', p', ev) ->
  step_good s ts k p s' p' ev.
Proof.
  intros Hinv Hi Hst. pose proof (ci_pc _ _ _ Hinv i p Hi) as Hwf. pose proof (ci_state _ _ _ Hinv) as Hs.
  destruct p; simpl in Hst; unfold acquire, tau in Hst; repeat case_match; simplify_eq/=; try quiet_step.
  - assert (is_Some (bk_granted k !! t)) as [x Hx] by (apply (si_granted _ _ Hs); by eauto).
    exists k. split_and!; [|split|set_solver|done|done]; try done; [|apply rely_refl|by left].
    simpl. rewrite option_guard_True by apply Hwf. simpl. by rewrite Hx.
  - by eapply good_E_insert.
Qed.
