(* ===== verification/BudgetConcRun.v ===== *)
(** * Runs of the concurrent engine

    When no thread is inside the gate the shared state is an engine in the
    sense of [BudgetInv.v] and the book is exactly its ledger; so the exclusive
    operations (caps, snapshots, restores) see and leave a consistent engine,
    and every move of the scheduler keeps the invariant. *)

From S2P Require Import Prelude Budget BudgetInv BudgetSpec BudgetProps BudgetConc BudgetConcInv BudgetConcSteps BudgetConcOps.
#[local] Open Scope Z_scope.

(** ** Outside the gate *)

Definition book_of (s : Shared) (ids : gset Z) : Book :=
  mkBook (sh_initial_microcents s) (sh_committed_microcents s) (sh_reservations s)
    (sh_max_reserved_microcents s) ids.

Lemma quiescent_elem ts p : quiescent ts = true -> p ∈ ts -> outside p = true.
Proof. unfold quiescent. rewrite forallb_forall. intros H Hp. apply H. by apply list_elem_of_In. Qed.

Lemma quiescent_sums ts : quiescent ts = true -> forall t id,
  zsum (fun p => to_return p t) ts = 0 /\ zsum (fun p => in_total p t) ts = 0 /\
  zsum (fun p => unrecorded p t) ts = 0 /\ zsum (fun p => ungranted p t) ts = 0 /\
  zsum (fun p => owns p id) ts = 0 /\ zsum (fun p => fresh p id) ts = 0.
Proof.
  intros Hq t id. split_and!; apply zsum_zero; intros p Hp; pose proof (quiescent_elem ts p Hq Hp); by destruct p.
Qed.

Lemma outside_wf s s' p : outside p = true -> pc_wf s p -> pc_wf s' p.
Proof. by destruct p. Qed.

Lemma outside_guards p : outside p = true -> guards p = [].
Proof. by destruct p. Qed.

(** Two maps with the same keys and the same values up to a default. *)
Lemma map_eq_default (m1 m2 : gmap string Z) :
  (forall t, is_Some (m1 !! t) <-> is_Some (m2 !! t)) ->
  (forall t, default 0 (m1 !! t) = default 0 (m2 !! t)) -> m1 = m2.
Proof.
  intros Hd He. apply map_eq. intros t. specialize (Hd t). specialize (He t).
  destruct (m1 !! t), (m2 !! t); simpl in *; [by f_equal| | |done].
  - assert (is_Some (None : option Z)) as [? ?] by (apply Hd; by eauto). done.
  - assert (is_Some (None : option Z)) as [? ?] by (apply Hd; by eauto). done.
Qed.

Section quiet_engine.
Context (s : Shared) (ts : list pc) (k : Book).
Context (Hinv : conc_inv s ts k) (Hq : quiescent ts = true).

Lemma quiescent_holds : bk_holds k = sh_reservations s.
Proof.
  apply map_eq. intros id. pose proof (ci_state _ _ _ Hinv) as Hs.
  pose proof (ci_count _ _ _ Hinv id) as C.
  destruct (quiescent_sums ts Hq "" id) as (_ & _ & _ & _ & E & _). rewrite E in C.
  destruct (sh_reservations s !! id) as [r|] eqn:Er; [by apply (si_res _ _ Hs)|].
  rewrite (mem_None _ _ Er) in C. destruct (bk_holds k !! id) eqn:Ek; [|done].
  by rewrite (mem_Some _ _ _ Ek) in C.
Qed.

Lemma quiescent_amounts t : bal s t = book_left k t /\ tot s t = book_held k t /\
  cmt s t = book_spent k t /\ ini s t = granted k t.
Proof.
  destruct (quiescent_sums ts Hq t 0) as (E1 & E2 & E3 & E4 & _).
  pose proof (ci_balance _ _ _ Hinv t). pose proof (ci_total _ _ _ Hinv t).
  pose proof (ci_spent _ _ _ Hinv t). pose proof (ci_granted _ _ _ Hinv t). lia.
Qed.

Lemma quiescent_book : k = book_of s (bk_used k).
Proof.
  pose proof (ci_state _ _ _ Hinv) as Hs. pose proof (si_heap _ _ Hs) as Hh.
  pose proof quiescent_holds as Eh. pose proof (si_caps _ _ Hs) as Ec.
  assert (bk_granted k = sh_initial_microcents s) as Eg.
  { apply map_eq_default; intros t; [by rewrite (si_granted _ _ Hs), (hw_initial _ Hh)|].
    symmetry. apply quiescent_amounts. }
  assert (bk_spent k = sh_committed_microcents s) as Es.
  { apply map_eq_default; intros t; [by rewrite (si_spent _ _ Hs), (hw_committed _ Hh)|].
    symmetry. apply quiescent_amounts. }
  destruct k; unfold book_of; simpl in *. by rewrite Eh, Ec, Eg, Es.
Qed.

Lemma used_issued id : id ∈ bk_used k -> 1 <= id < sh_next_id s.
Proof.
  intros H. pose proof (ci_fresh _ _ _ Hinv id) as F.
  destruct (quiescent_sums ts Hq "" id) as (_ & _ & _ & _ & _ & E). rewrite E in F.
  unfold used, issued in F. rewrite decide_True in F by done. case_decide; [done|lia].
Qed.

Lemma quiescent_engine : engine_inv (engine_of s).
Proof.
  pose proof (ci_state _ _ _ Hinv) as Hs. pose proof (si_heap _ _ Hs) as Hh.
  pose proof quiescent_holds as Eh. split; simpl.
  - intros t. destruct (quiescent_amounts t) as (E1 & E2 & E3 & E4).
    pose proof (held_nonneg _ _ Hs t). pose proof (si_bal _ _ Hs t). pose proof (si_spent_pos _ _ Hs t).
    pose proof (si_grant_max _ _ Hs t). unfold book_left, book_held in *. rewrite Eh in *.
    unfold tenant_ok; simpl. rewrite !lookup_fmap. unfold bal, tot, cmt, ini in *.
    pose proof (hw_totals _ Hh t) as D1. pose proof (hw_committed _ Hh t) as D2. pose proof (hw_initial _ Hh t) as D3.
    destruct (sh_tenant_budgets s !! t) as [b|]; simpl in *.
    + destruct (proj2 D1 ltac:(eauto)) as [v Ev], (proj2 D2 ltac:(eauto)) as [c Ec], (proj2 D3 ltac:(eauto)) as [n En].
      rewrite Ev, Ec, En in *. simpl in *. unfold ledger_ok. lia.
    + assert (forall o : option Z, (is_Some o <-> is_Some (None : option addr)) -> o = None) as Hno.
      { intros [z|] [Ho _]; [|done]. destruct Ho as [? ?]; [by eauto|done]. }
      rewrite (Hno _ D2), (Hno _ D3) in *.
      destruct (sh_tenant_reserved_totals s !! t); simpl in *; [|lia].
      destruct (proj1 D1 ltac:(eauto)) as [? ?]. done.
  - intros id r Hr. rewrite <- Eh in Hr. destruct (si_holds _ _ Hs id r Hr) as (Hu & Hp & Ht).
    unfold reservation_ok; simpl. split_and!; [by apply used_issued|by apply used_issued|done|].
    rewrite lookup_fmap, fmap_is_Some. by apply (si_granted _ _ Hs).
  - apply Hs.
  - rewrite <- (si_caps _ _ Hs). apply Hs.
Qed.

End quiet_engine.

(** A consistent engine with its ledger satisfies the invariant when the
    threads are outside the gate. *)
Lemma conc_inv_quiescent s ts ids :
  heap_wf s -> engine_inv (engine_of s) -> quiescent ts = true ->
  (forall i p, ts !! i = Some p -> pc_wf s p) ->
  (forall id, id ∈ ids -> 1 <= id < sh_next_id s) ->
  (forall id r, sh_reservations s !! id = Some r -> id ∈ ids) ->
  conc_inv s ts (book_of s ids).
Proof.
  intros Hh He Hq Hwf Hu Hr.
  assert (forall t, exists r v c n, bal s t = r /\ tot s t = v /\ cmt s t = c /\ ini s t = n /\
            ledger_ok (sh_reservations s) t r v c n) as Hl.
  { intros t. pose proof (inv_tenants _ He t) as H. unfold tenant_ok in H; simpl in H.
    rewrite !lookup_fmap in H. unfold bal, tot, cmt, ini.
    destruct (sh_tenant_budgets s !! t), (sh_tenant_reserved_totals s !! t), (sh_committed_microcents s !! t),
      (sh_initial_microcents s !! t); simpl in *; try done; repeat eexists; try done; try apply H. }
  assert (forall t, let k := book_of s ids in
            0 <= bal s t /\ 0 <= tot s t <= imax 64 /\ bal s t = book_left k t /\ tot s t = book_held k t /\
            cmt s t = book_spent k t /\ ini s t = granted k t /\ granted k t <= imax 64 /\ 0 <= cmt s t) as Ha.
  { intros t k. destruct (Hl t) as (r & v & c & n & <- & <- & <- & <- & Hk). unfold ledger_ok in Hk.
    assert (cmt s t = book_spent k t) by done. assert (ini s t = granted k t) by done.
    unfold book_left, book_held; simpl. lia. }
  split.
  - split; simpl; try done.
    + intros t. apply (hw_initial _ Hh).
    + intros t. apply (hw_committed _ Hh).
    + apply He.
    + intros t. apply Ha.
    + intros t. apply Ha.
    + intros t. apply Ha.
    + intros t. apply Ha.
    + intros id r Hid. destruct (inv_reservations _ He id r Hid) as (? & ? & Ht).
      split_and!; [by eapply Hr|done|]. simpl in Ht. rewrite lookup_fmap, fmap_is_Some in Ht.
      by apply (hw_initial _ Hh).
    + apply He.
  - done.
  - intros i j p q l Hi _ Hg. pose proof (quiescent_elem ts p Hq ltac:(by eapply list_elem_of_lookup_2)).
    rewrite outside_guards in Hg by done. set_solver.
  - intros t. destruct (quiescent_sums ts Hq t 0) as (-> & _). destruct (Ha t); lia.
  - intros t. destruct (quiescent_sums ts Hq t 0) as (_ & -> & _). destruct (Ha t); lia.
  - intros t. destruct (quiescent_sums ts Hq t 0) as (_ & _ & -> & _). destruct (Ha t); lia.
  - intros t. destruct (quiescent_sums ts Hq t 0) as (_ & _ & _ & -> & _). destruct (Ha t); lia.
  - intros id. destruct (quiescent_sums ts Hq "" id) as (_ & _ & _ & _ & -> & _). simpl. lia.
  - intros i p id r Hi Ho. pose proof (quiescent_elem ts p Hq ltac:(by eapply list_elem_of_lookup_2)).
    by destruct p.
  - intros id. destruct (quiescent_sums ts Hq "" id) as (_ & _ & _ & _ & _ & ->). unfold used, issued; simpl.
    case_decide as Hid; [|case_decide; lia]. rewrite decide_True by by apply Hu. lia.
Qed.

(** ** The exclusive operations *)

Lemma quiescent_insert ts i p : quiescent ts = true -> outside p = true -> quiescent (<[i := p]> ts) = true.
Proof.
  unfold quiescent. rewrite !forallb_forall. intros H Hp x Hx. apply list_elem_of_In in Hx.
  apply list_elem_of_lookup in Hx as [j Hj]. apply list_lookup_insert_Some in Hj as [(_ & <- & _)|[_ Hj]]; [done|].
  apply H, list_elem_of_In. by eapply list_elem_of_lookup_2.
Qed.

Lemma restore_tenant_engine s l :
  heap_wf s -> sh_tenant_budgets s !! tl_tenant_id l = None ->
  heap_wf (restore_tenant s l) /\ engine_of (restore_tenant s l) = restore_row (engine_of s) l.
Proof.
  intros Hh Hn. split; [by apply heap_wf_insert_tenant|].
  unfold engine_of, restore_row, restore_tenant; simpl. f_equal.
  - apply map_eq. intros u. rewrite lookup_fmap, !lookup_insert. case_decide as E.
    + simpl. f_equal. unfold cell; simpl. rewrite lookup_app_r by lia. by rewrite Nat.sub_diag.
    + rewrite lookup_fmap. destruct (sh_tenant_budgets s !! u) eqn:Hu; simpl; [|done].
      f_equal. unfold cell; simpl. rewrite lookup_app_l; [done|]. by eapply hw_budget_cell.
  - apply map_eq. intros u. rewrite lookup_fmap, !lookup_insert. case_decide as E.
    + simpl. f_equal. unfold cell; simpl. rewrite lookup_app_r by lia.
      by replace (S (length (sh_cells s)) - length (sh_cells s))%nat with 1%nat by lia.
    + rewrite lookup_fmap. destruct (sh_tenant_reserved_totals s !! u) eqn:Hu; simpl; [|done].
      f_equal. unfold cell; simpl. rewrite lookup_app_l; [done|]. by eapply hw_total_cell.
Qed.

Lemma restore_rows_engine rows s :
  heap_wf s -> NoDup (map tl_tenant_id rows) ->
  (forall t, t ∈ map tl_tenant_id rows -> sh_tenant_budgets s !! t = None) ->
  heap_wf (fold_left restore_tenant rows s) /\
  engine_of (fold_left restore_tenant rows s) = fold_left restore_row rows (engine_of s) /\
  sh_reservations (fold_left restore_tenant rows s) = sh_reservations s.
Proof.
  revert s. induction rows as [|l rows IH]; intros s Hh Hnd Hn; simpl; [done|].
  apply list.NoDup_cons in Hnd as [Hl Hnd].
  destruct (restore_tenant_engine s l Hh) as [Hh' <-]; [apply Hn; left|].
  change (sh_reservations s) with (sh_reservations (restore_tenant s l)).
  apply IH; [done|done|]. intros t Ht. simpl. rewrite lookup_insert_ne; [apply Hn; by right|].
  intros <-. done.
Qed.

(** The guards of [restore_from_snapshot], as the call checks them first. *)
Lemma restore_start snap n g :
  start (CallRestore snap) = X_restore snap n g ->
  validate_snapshot_for_restore snap = Ok tt /\ NoDup (map tl_tenant_id (bs_tenants snap)) /\
  forall s, heap_wf s ->
    heap_wf (restore_shared snap n g s) /\
    engine_of (restore_shared snap n g s) = snd (restore_from_snapshot snap (engine_of s)) /\
    sh_reservations (restore_shared snap n g s) = ∅.
Proof.
  simpl. unfold restore_from_snapshot.
  destruct (validate_snapshot_for_restore snap) as [[]|e] eqn:Ev; [|done].
  destruct (allocator_from_snapshot_version (bs_version snap)) as [n'|e] eqn:Ea; [|done]. intros [= -> <-].
  assert (NoDup (map tl_tenant_id (bs_tenants snap))) as Hnd.
  { unfold validate_snapshot_for_restore in Ev.
    rewrite Ea in Ev. simpl in Ev.
    by apply validate_snapshot_ledger_ok in Ev as (_ & ? & _). }
  split_and!; [done|done|]. intros s Hh.
  set (cleared := mkShared (sh_cells s) ∅ ∅ ∅ ∅ ∅ ∅ (sh_next_id s) (sh_snapshot_version s)
      (sh_last_certified_committed_total s)).
  assert (heap_wf cleared) as Hc by (split; simpl; intros *; by rewrite ?lookup_empty).
  destruct (restore_rows_engine (bs_tenants snap) cleared) as (H1 & H2 & H3); [done|done|done|].
  assert (engine_of cleared = mkBudgetEngine ∅ ∅ ∅ ∅ ∅ ∅ (be_next_id (engine_of s))
            (be_snapshot_version (engine_of s)) (be_last_certified_committed_total (engine_of s))) as Ec
    by (unfold engine_of, cleared; simpl; by rewrite !fmap_empty).
  rewrite Ec in H2. split_and!; [by destruct H1|by rewrite <- H2|done].
Qed.

(** The ledger of a restored engine is the book of the snapshot. *)
Lemma list_to_map_rows (f : TenantLedger -> Z) rows t :
  (list_to_map (map (fun l => (tl_tenant_id l, f l)) rows) : gmap string Z) !! t =
  f <$> List.find (fun l => bool_decide (tl_tenant_id l = t)) rows.
Proof.
  induction rows as [|l rows IH]; simpl; [done|]. rewrite lookup_insert.
  case_decide; [by rewrite bool_decide_eq_true_2|]. by rewrite bool_decide_eq_false_2.
Qed.

Lemma book_restore_of snap s e :
  engine_of s = e -> restored snap e -> book_of s ∅ = book_restore snap.
Proof.
  intros <- [_ Hi Hc _ Ho Hcap _ _]. unfold book_of, book_restore. simpl in *. rewrite Ho, Hcap. f_equal.
  - apply map_eq. intros t. by rewrite Hi, list_to_map_rows.
  - apply map_eq. intros t. by rewrite Hc, list_to_map_rows.
Qed.

(** A thread finishing an exclusive step leaves the others as they were. *)
Lemma exclusive_threads s s' ts i p' :
  quiescent ts = true -> (forall j q, ts !! j = Some q -> pc_wf s q) -> outside p' = true -> pc_wf s' p' ->
  quiescent (<[i := p']> ts) = true /\ forall j q, <[i := p']> ts !! j = Some q -> pc_wf s' q.
Proof.
  intros Hq Hwf Ho Hp'. split; [by apply quiescent_insert|]. intros j q Hj.
  apply list_lookup_insert_Some in Hj as [(_ & <- & _)|[_ Hj]]; [done|].
  eapply outside_wf; [|by eapply Hwf]. eapply quiescent_elem; [done|]. by eapply list_elem_of_lookup_2.
Qed.

Definition step_keeps (s : Shared) (ts : list pc) (k : Book) (i : nat) (p : pc) (s' : Shared) (p' : pc)
    (ev : option event) : Prop :=
  exists k', match ev with Some e => book_step e k = Some k' | None => k' = k end /\
    conc_inv s' (<[i := p']> ts) k' /\
    emitted p' = (match ev with Some e => Some e | None => emitted p end) /\
    (is_Some ev -> emitted p = None).

Lemma step_good_keeps s ts k i p s' p' ev :
  conc_inv s ts k -> ts !! i = Some p -> step_good s ts k p s' p' ev -> step_keeps s ts k i p s' p' ev.
Proof.
  intros Hinv Hi (k' & Hk & Hl & Hg & He & Hn). exists k'. split_and!; [done| |done|done].
  by eapply conc_inv_step.
Qed.

Section exclusive.
Context (s : Shared) (ts : list pc) (k : Book) (i : nat).
Context (Hinv : conc_inv s ts k) (Hq : quiescent ts = true).

Lemma keeps_set_cap t m :
  ts !! i = Some (X_set_cap t m) ->
  step_keeps s ts k i (X_set_cap t m)
    (put_max (if m =? 0 then delete t (sh_max_reserved_microcents s)
              else <[t := m]> (sh_max_reserved_microcents s)) s)
    (Done (Call (OpSetCap t m)) (Answer (RConfig (Ok tt)))) (Some (EvSetCap t m)).
Proof.
  intros Hi. pose proof (ci_pc _ _ _ Hinv i _ Hi) as [Hm _].
  pose proof (quiescent_engine s ts k Hinv Hq) as He. pose proof (quiescent_book s ts k Hinv Hq) as Ek.
  pose proof (engine_inv_try_set_max_reserved t m (engine_of s) He) as He'.
  pose proof (si_heap _ _ (ci_state _ _ _ Hinv)) as Hh.
  set (s' := put_max _ s). exists (book_of s' (bk_used k)). split_and!; [|apply conc_inv_quiescent|done|done].
  - rewrite Ek at 1. simpl. by rewrite option_guard_True.
  - by destruct Hh.
  - unfold try_set_max_reserved_microcents in He'. destruct (Z.ltb_spec m 0); [lia|].
    subst s'. by destruct (m =? 0).
  - by eapply (exclusive_threads s s'); [|apply Hinv|..].
  - by eapply (exclusive_threads s s'); [|apply Hinv|..].
  - by apply (used_issued s ts k).
  - intros id r Hr. simpl in Hr. rewrite <- (quiescent_holds s ts k) in Hr by done.
    by apply (si_holds _ _ (ci_state _ _ _ Hinv) id r).
Qed.

Lemma engine_row_shows t b :
  be_tenant_budgets (engine_of s) !! t = Some b -> row_shows k (ledger_row (engine_of s) (t, b)).
Proof.
  intros Hb. pose proof (quiescent_amounts s ts k Hinv Hq t) as (E1 & E2 & E3 & E4).
  pose proof (quiescent_book s ts k Hinv Hq) as Ek. pose proof (si_heap _ _ (ci_state _ _ _ Hinv)) as Hh.
  simpl in Hb. rewrite lookup_fmap in Hb.
  destruct (sh_tenant_budgets s !! t) as [l|] eqn:El; [|done]. simpl in Hb. simplify_eq.
  destruct (proj2 (hw_initial _ Hh t)) as [n En]; [by rewrite El|].
  unfold row_shows, ledger_row; simpl. rewrite <- E1, <- E2, <- E3. split_and!.
  - rewrite Ek. simpl. by rewrite En.
  - by apply cell_budget.
  - unfold tot. by rewrite lookup_fmap.
  - done.
Qed.

Lemma snapshot_shows_book snap e' :
  try_snapshot (engine_of s) = (Ok snap, e') ->
  snapshot_shows k snap /\ conservation_status_for_snapshot snap = Balanced.
Proof.
  intros Es. pose proof (quiescent_engine s ts k Hinv Hq) as He. rewrite try_snapshot_exact in Es by done.
  destruct (RECOVERY_ALLOCATOR_MASK <=? _); simplify_eq. fold (snapshot_rows (engine_of s)).
  unfold snapshot_shows, conservation_status_for_snapshot; cbn [bs_tenants bs_active_reservations].
  pose proof (quiescent_book s ts k Hinv Hq) as Ek. pose proof (si_heap _ _ (ci_state _ _ _ Hinv)) as Hh.
  split_and!.
  - apply snapshot_rows_nodup.
  - apply list.Forall_forall. intros l (t & b & Hb & ->)%snapshot_rows_elem. by apply engine_row_shows.
  - unfold snapshot_rows. rewrite merge_sort_Permutation, length_map, length_map_to_list. simpl. rewrite map_size_fmap.
    rewrite Ek; simpl. rewrite <- !size_dom. f_equal. apply set_eq. intros t. rewrite !elem_of_dom.
    by rewrite (hw_initial _ Hh).
  - by rewrite (quiescent_holds s ts k).
  - by apply conservation_rows_balanced, snapshot_rows_balanced.
Qed.

Lemma keeps_snapshot r e' :
  ts !! i = Some X_snapshot -> try_snapshot (engine_of s) = (r, e') ->
  step_keeps s ts k i X_snapshot
    (put_version (be_snapshot_version e') (put_next_id (be_next_id e') s))
    (Done (Call OpSnapshot) (AnswerSnapshot r))
    (match r with Ok snap => Some (EvSnapshot snap) | Err _ => None end).
Proof.
  intros Hi Er. pose proof (quiescent_engine s ts k Hinv Hq) as He.
  pose proof (engine_inv_try_snapshot (engine_of s) He) as He'. rewrite Er in He'.
  pose proof (si_heap _ _ (ci_state _ _ _ Hinv)) as Hh.
  set (s' := put_version _ _). assert (engine_of s' = e') as Es.
  { unfold try_snapshot in *. subst s'. by destruct (allocate_id _) as [[? ?]|]; simplify_eq. }
  assert (sh_next_id s <= sh_next_id s') as Hle.
  { subst s'. unfold try_snapshot, allocate_id in Er; simpl in *. repeat case_match; simplify_eq/=; lia. }
  assert (answer_wf (AnswerSnapshot r)) as Ha
    by (destruct r as [snap|]; [by eapply snapshot_shows_book|done]).
  exists k. split_and!; [| |by destruct r|by destruct r].
  { destruct r as [snap|]; [|done]. simpl. rewrite option_guard_True; [done|]. by eapply snapshot_shows_book. }
  rewrite (quiescent_book s ts k Hinv Hq). apply (conc_inv_quiescent s').
  - by destruct Hh.
  - by rewrite Es.
  - by eapply (exclusive_threads s s'); [|apply Hinv|..].
  - by eapply (exclusive_threads s s'); [|apply Hinv|..].
  - intros id Hid. pose proof (used_issued s ts k Hinv Hq id Hid). lia.
  - intros id r' Hr. simpl in Hr. rewrite <- (quiescent_holds s ts k) in Hr by done.
    by apply (si_holds _ _ (ci_state _ _ _ Hinv) id r').
Qed.

Lemma keeps_restore snap n g :
  ts !! i = Some (X_restore snap n g) ->
  step_keeps s ts k i (X_restore snap n g) (restore_shared snap n g s)
    (Done (CallRestore snap) (AnswerRestore (Ok tt))) (Some (EvRestore snap)).
Proof.
  intros Hi. pose proof (ci_pc _ _ _ Hinv i _ Hi : start (CallRestore snap) = X_restore snap n g) as Hst.
  pose proof (restore_start snap n g Hst) as (Hv & _ & Hr).
  pose proof (si_heap _ _ (ci_state _ _ _ Hinv)) as Hh. destruct (Hr s Hh) as (Hh' & Ee & Eo).
  pose proof (quiescent_engine s ts k Hinv Hq) as He.
  pose proof (engine_inv_restore snap (engine_of s) He) as He'. rewrite <- Ee in He'.
  set (s' := restore_shared snap n g s) in *.
  assert (restore_from_snapshot snap (engine_of s) = (Ok tt, engine_of s')) as Eq.
  { rewrite Ee. unfold restore_from_snapshot. rewrite Hv. unfold start in Hst. rewrite Hv in Hst.
    by destruct (allocator_from_snapshot_version (bs_version snap)). }
  apply restore_from_snapshot_restored in Eq as (_ & _ & Hres).
  exists (book_restore snap). split_and!; [simpl; by rewrite Hv| |done|done].
  rewrite <- (book_restore_of snap s' _ eq_refl Hres). apply conc_inv_quiescent; try done.
  - by eapply (exclusive_threads s s'); [|apply Hinv|..].
  - by eapply (exclusive_threads s s'); [|apply Hinv|..].
  - intros id r. rewrite Eo. by rewrite lookup_empty.
Qed.

End exclusive.

(** ** Every step keeps the invariant *)

Lemma tstep_keeps sp s ts k i p s' p' ev :
  conc_inv s ts k -> ts !! i = Some p -> tstep sp ts s p = Some (s', p', ev) ->
  step_keeps s ts k i p s' p' ev.
Proof.
  intros Hinv Hi Hst. pose proof (ci_state _ _ _ Hinv) as Hs.
  assert (step_reserve sp ts s p = Some (s', p', ev) \/ step_commit sp ts s p = Some (s', p', ev) \/
          step_release ts s p = Some (s', p', ev) \/ step_top_up sp ts s p = Some (s', p', ev) \/
          step_ensure ts s p = Some (s', p', ev) \/ step_exclusive ts s p = Some (s', p', ev)) as Hc
    by (destruct p; simpl in Hst |- *; tauto).
  destruct Hc as [H|[H|[H|[H|[H|H]]]]].
  - apply step_good_keeps; [done|done|]. by eapply step_reserve_good.
  - apply step_good_keeps; [done|done|]. by eapply step_commit_good.
  - apply step_good_keeps; [done|done|]. by eapply step_release_good.
  - apply step_good_keeps; [done|done|]. by eapply step_top_up_good.
  - apply step_good_keeps; [done|done|]. by eapply step_ensure_good.
  - destruct p; simpl in H; unfold tau in H; try done.
    + destruct (quiescent ts) eqn:Hq; [|done]. simplify_eq. by apply keeps_set_cap.
    + destruct (quiescent ts) eqn:Hq; [|done].
      destruct (try_snapshot (engine_of s)) as [r e'] eqn:Es. simplify_eq. by apply keeps_snapshot.
    + destruct (quiescent ts) eqn:Hq; [|done]. simplify_eq. by apply keeps_restore.
    + simplify_eq. apply step_good_keeps; [done|done|].
      exists k. split_and!; [done| |set_solver|done|by intros []]. split; try done; [|by split; auto|by left].
      destruct Hs as [[] ]. by split.
    + simplify_eq. apply step_good_keeps; [done|done|]. pose proof (ci_pc _ _ _ Hinv i _ Hi).
      eapply step_silent; try done; [by auto|set_solver].
Qed.
