(* ===== verification/BudgetConcLive.v ===== *)
(** * Locks, progress and uncontended runs

    The locks are taken in one global order, so some thread can always move;
    every step that is not a failed compare-and-swap brings its thread closer
    to its return, and a compare-and-swap fails only when another thread
    changed the cell. A call that runs alone is the atomic operation. *)

From S2P Require Import Prelude Budget BudgetInv BudgetSpec BudgetConc BudgetConcInv BudgetConcSteps BudgetConcOps BudgetConcRun.
#[local] Open Scope Z_scope.

(** ** The lock order *)

(** reservations, budgets, initials, committed, totals, limits. *)
Definition rank (l : lock) : nat :=
  match l with
  | LReservations => 0 | LBudgets => 1 | LInitials => 2 | LCommitted => 3 | LTotals => 4 | LLimits => 5
  end.

(** The lock a point is about to take. *)
Definition wants (p : pc) : option lock :=
  match p with
  | R_budgets _ _ | C_budgets _ _ _ | L_budgets _ _ | T_budgets _ _ | E_budgets _ _ => Some LBudgets
  | R_totals _ _ | C_totals _ _ _ _ | L_totals _ _ _ | E_totals _ _ => Some LTotals
  | R_limits _ _ _ _ => Some LLimits
  | R_reservations _ _ _ _ | C_reservations _ _ | L_reservations _ => Some LReservations
  | C_committed _ _ _ _ | E_committed _ _ => Some LCommitted
  | T_initials _ _ _ | E_initials _ _ => Some LInitials
  | _ => None
  end.

Lemma wants_above p l l' : wants p = Some l -> l' ∈ guards p -> (rank l' < rank l)%nat.
Proof.
  destruct p; simpl; intros E Hl; simplify_eq; try set_solver; simpl;
    repeat (apply list_elem_of_cons in Hl as [->|Hl]; [simpl; lia|]); set_solver.
Qed.

Lemma blocked_wants s ts p :
  outside p = false -> tstep false ts s p = None -> exists l, wants p = Some l /\ free l ts = false.
Proof.
  intros Ho H. destruct p; try done; simpl in H; unfold acquire, tau in H; repeat case_match; try done;
    simpl; by eexists.
Qed.

Lemma not_free l ts : free l ts = false -> exists i p, ts !! i = Some p /\ l ∈ guards p.
Proof.
  intros H. induction ts as [|p ts IH]; simpl in H; [done|].
  apply andb_false_iff in H as [H|H].
  - exists 0%nat, p. split; [done|]. by apply negb_false_iff, bool_decide_eq_true_1 in H.
  - destruct (IH H) as (i & q & ? & ?). by exists (S i), q.
Qed.

Definition can_move (s : Shared) (ts : list pc) : Prop :=
  exists i p o, ts !! i = Some p /\ tstep false ts s p = Some o.

(** A thread inside the gate can move, or waits for one that holds a higher lock. *)
Lemma inside_moves s ts n : forall i p,
  ts !! i = Some p -> outside p = false ->
  (forall l, wants p = Some l -> (6 - rank l <= n)%nat) -> can_move s ts.
Proof.
  induction n as [|n IH]; intros i p Hi Ho Hw.
  - destruct (tstep false ts s p) as [o|] eqn:E; [by exists i, p, o|].
    destruct (blocked_wants s ts p Ho E) as (l & Hl & _). specialize (Hw l Hl). destruct l; simpl in Hw; lia.
  - destruct (tstep false ts s p) as [o|] eqn:E; [by exists i, p, o|].
    destruct (blocked_wants s ts p Ho E) as (l & Hl & Hf). destruct (not_free l ts Hf) as (j & q & Hj & Hg).
    apply (IH j q Hj).
    + destruct (outside q) eqn:Hq; [|done]. rewrite outside_guards in Hg by done. set_solver.
    + intros l' Hl'. pose proof (wants_above q l' l Hl' Hg). specialize (Hw l Hl). lia.
Qed.

Definition finished (p : pc) : bool := match p with Done _ _ => true | _ => false end.

Lemma threads_move s ts p : p ∈ ts -> finished p = false -> can_move s ts.
Proof.
  intros Hp Hf. destruct (quiescent ts) eqn:Hq.
  - pose proof Hq as Hq'. unfold quiescent in Hq. rewrite forallb_forall in Hq.
    apply list_elem_of_lookup in Hp as [i Hi].
    assert (outside p = true) as Ho by (apply Hq, list_elem_of_In; by eapply list_elem_of_lookup_2).
    exists i, p. destruct p; try done; simpl; rewrite ?Hq'; unfold tau; try by eexists.
    destruct (try_snapshot (engine_of s)). by eexists.
  - assert (exists i q, ts !! i = Some q /\ outside q = false) as (i & q & Hi & Ho).
    { clear -Hq. induction ts as [|x ts IH]; simpl in Hq; [done|].
      apply andb_false_iff in Hq as [H|H]; [by exists 0%nat, x|].
      destruct (IH H) as (i & q & ? & ?). by exists (S i), q. }
    apply (inside_moves s ts 6 i q Hi Ho). intros. lia.
Qed.

(** ** Steps to the return *)

(** How many steps are left at most when no compare-and-swap fails. *)
Definition weight (p : pc) : nat :=
  match p with
  | R_gate _ _ => 16 | R_budgets _ _ => 15 | R_totals _ _ => 14 | R_clone _ _ => 13
  | R_limits _ _ _ _ => 12 | R_max _ _ _ _ => 11 | R_load _ _ _ _ _ => 10 | R_cas _ _ _ _ _ _ => 9
  | R_overflow _ _ _ => 2 | R_alloc _ _ _ _ => 8 | R_unreserve _ _ _ => 3 | R_balance _ _ _ _ _ => 7
  | R_debit _ _ _ _ _ _ => 6 | R_undo _ _ _ _ => 2 | R_reservations _ _ _ _ => 3 | R_insert _ _ _ _ => 2
  | C_gate _ _ => 16 | C_reservations _ _ => 15 | C_remove _ _ => 14 | C_budgets _ _ _ => 13
  | C_clone _ _ _ => 12 | C_committed _ _ _ _ => 11 | C_check _ _ _ _ => 10 | C_overflow _ _ _ _ => 3
  | C_overflow_load _ _ _ => 2 | C_balance _ _ _ _ _ => 9 | C_debit _ _ _ _ _ _ => 8
  | C_overrun _ _ _ _ => 2 | C_record _ _ _ _ _ => 7 | C_refund _ _ _ _ => 6 | C_totals _ _ _ _ => 5
  | C_sub _ _ _ _ => 4 | C_remaining _ _ _ => 2
  | L_gate _ => 9 | L_reservations _ => 8 | L_remove _ => 7 | L_budgets _ _ => 6 | L_clone _ _ => 5
  | L_totals _ _ _ => 4 | L_sub _ _ _ => 3 | L_credit _ _ _ => 2
  | T_gate _ _ => 9 | T_budgets _ _ => 8 | T_clone _ _ => 7 | T_initials _ _ _ => 6 | T_check _ _ _ => 5
  | T_balance _ _ _ _ => 4 | T_credit _ _ _ _ _ => 3 | T_store _ _ _ _ => 2
  | E_gate _ _ => 7 | E_budgets _ _ => 6 | E_initials _ _ => 5 | E_committed _ _ => 4 | E_totals _ _ => 3
  | E_insert _ _ => 2
  | X_set_cap _ _ | X_snapshot | X_restore _ _ _ | X_rotate _ | Ret _ _ => 1
  | Done _ _ => 0
  end.

(** The value a compare-and-swap expects is no longer in the cell. *)
Definition stale (s : Shared) (p : pc) : bool :=
  match p with
  | R_cas _ _ _ v _ current => negb (cell s v =? current)
  | R_debit _ _ b _ _ current | C_debit _ _ _ b _ current | T_credit _ _ b _ current =>
      negb (cell s b =? current)
  | _ => false
  end.

Lemma cas_None l current new s : cas false l current new s = None -> cell s l <> current.
Proof. unfold cas. simpl. destruct (Z.eqb_spec (cell s l) current); done. Qed.

Lemma tstep_weight s ts p s' p' ev :
  tstep false ts s p = Some (s', p', ev) ->
  (weight p' < weight p)%nat \/ (s' = s /\ weight p' = weight p /\ stale s p = true /\ stale s p' = false).
Proof.
  intros H. destruct p; simpl in H; unfold acquire, tau in H; repeat case_match; simplify_eq/=;
    try (left; lia); try (unfold fail_reserve, ret_settle, ret_top_up; simpl; left; lia);
    right; rewrite Z.eqb_refl; split_and!; try done;
    match goal with H : cas false _ _ _ _ = None |- _ => apply cas_None in H end;
    by apply negb_true_iff, Z.eqb_neq.
Qed.

Definition nsum (f : pc -> nat) (ts : list pc) : nat := foldr (fun p acc => f p + acc)%nat 0%nat ts.

Lemma nsum_insert f ts i p q :
  ts !! i = Some p -> (nsum f (<[i := q]> ts) + f p = nsum f ts + f q)%nat.
Proof.
  revert i. induction ts as [|x ts IH]; intros [|i] H; simplify_eq/=; [lia|]. specialize (IH i H). lia.
Qed.

Definition stales (s : Shared) (ts : list pc) : nat := nsum (fun p => if stale s p then 1 else 0)%nat ts.

Lemma stales_le s ts : (stales s ts <= length ts)%nat.
Proof. unfold stales. induction ts as [|p ts IH]; simpl; [lia|]. destruct (stale s p); lia. Qed.

(** A bound on the steps of a pool in which no compare-and-swap fails spuriously. *)
Definition remaining_steps (s : Shared) (ts : list pc) : nat :=
  (nsum weight ts * S (length ts) + stales s ts)%nat.

Lemma step_decreases s ts i p s' p' ev :
  ts !! i = Some p -> tstep false ts s p = Some (s', p', ev) ->
  (remaining_steps s' (<[i := p']> ts) < remaining_steps s ts)%nat.
Proof.
  intros Hi Hst. unfold remaining_steps. rewrite length_insert.
  pose proof (nsum_insert weight ts i p p' Hi) as Hw.
  destruct (tstep_weight _ _ _ _ _ _ Hst) as [Hlt|(-> & Heq & H1 & H2)].
  - pose proof (stales_le s' (<[i := p']> ts)) as Hs. rewrite length_insert in Hs.
    assert (S (nsum weight (<[i := p']> ts)) <= nsum weight ts)%nat by lia. nia.
  - pose proof (nsum_insert (fun p => if stale s p then 1 else 0)%nat ts i p p' Hi) as Hs.
    simpl in Hs. rewrite H1, H2 in Hs. unfold stales.
    assert (nsum weight (<[i := p']> ts) = nsum weight ts) as -> by lia. lia.
Qed.

(** ** A call that runs alone *)

(** Up to [n] steps of a single thread. *)
Fixpoint solo (n : nat) (s : Shared) (p : pc) : Shared * pc :=
  match n with
  | O => (s, p)
  | S n' =>
      match tstep false [p] s p with
      | Some (s', p', _) => solo n' s' p'
      | None => (s, p)
      end
  end.

(** The answer as the sequential operation gives it. *)
Definition response_of (r : answer) : response :=
  match r with
  | Answer r => r
  | AnswerSnapshot r => RSnapshot (match r with Ok snap => Some (bs_version snap) | Err _ => None end)
  | AnswerRestore _ => RRotate
  end.

(** The thread at [p], running alone from [s], returns [r] for [k] in [s']. *)
Inductive alone (k : call) (r : answer) (s' : Shared) : Shared -> pc -> Prop :=
| alone_done : alone k r s' s' (Done k r)
| alone_step s p s1 p1 ev :
    tstep false [p] s p = Some (s1, p1, ev) -> alone k r s' s1 p1 -> alone k r s' s p.

Lemma alone_solo k r s' s p : alone k r s' s p -> exists n, solo n s p = (s', Done k r).
Proof.
  induction 1 as [|s p s1 p1 ev H _ [n IH]]; [by exists 0%nat|]. exists (S n). simpl. by rewrite H.
Qed.

Lemma engine_store_budget s t b v :
  heap_wf s -> sh_tenant_budgets s !! t = Some b -> engine_of (store b v s) = set_budget t v (engine_of s).
Proof.
  intros Hh Hb. unfold engine_of; simpl. f_equal.
  - apply map_eq. intros u. rewrite lookup_fmap, lookup_insert, lookup_fmap.
    case_decide as E; [subst; rewrite Hb; simpl; rewrite cell_store by (by eapply hw_budget_cell); by rewrite decide_True|].
    destruct (sh_tenant_budgets s !! u) eqn:Hu; simpl; [|done]. rewrite cell_store by by eapply hw_budget_cell.
    rewrite decide_False; [done|]. intros ->. apply E. by eapply hw_budget_inj.
  - apply map_eq. intros u. rewrite !lookup_fmap.
    destruct (sh_tenant_reserved_totals s !! u) eqn:Hu; simpl; [|done]. rewrite cell_store by by eapply hw_budget_cell.
    rewrite decide_False; [done|]. intros ->. by eapply hw_apart.
Qed.

Lemma engine_store_total s t l v :
  heap_wf s -> sh_tenant_reserved_totals s !! t = Some l ->
  engine_of (store l v s) = set_reserved_total t v (engine_of s).
Proof.
  intros Hh Hb. unfold engine_of; simpl. f_equal.
  - apply map_eq. intros u. rewrite !lookup_fmap.
    destruct (sh_tenant_budgets s !! u) eqn:Hu; simpl; [|done]. rewrite cell_store by by eapply hw_total_cell.
    rewrite decide_False; [done|]. intros ->. by eapply hw_apart.
  - apply map_eq. intros u. rewrite lookup_fmap, lookup_insert, lookup_fmap.
    case_decide as E; [subst; rewrite Hb; simpl; rewrite cell_store by (by eapply hw_total_cell); by rewrite decide_True|].
    destruct (sh_tenant_reserved_totals s !! u) eqn:Hu; simpl; [|done]. rewrite cell_store by by eapply hw_total_cell.
    rewrite decide_False; [done|]. intros ->. apply E. by eapply hw_total_inj.
Qed.


Lemma sub_total_engine s r :
  heap_wf s -> engine_of (sub_total r s) =
    sub_reserved_total (rr_tenant_id r) (rr_reserved_microcents r) (engine_of s).
Proof.
  intros Hh. unfold sub_total, sub_reserved_total. simpl. rewrite lookup_fmap.
  destruct (sh_tenant_reserved_totals s !! rr_tenant_id r) as [v|] eqn:E; simpl; [|done].
  by apply engine_store_total.
Qed.

Lemma heap_wf_sub_total s r : heap_wf s -> heap_wf (sub_total r s).
Proof. intros Hh. unfold sub_total. case_match; [by apply heap_wf_store|done]. Qed.

(** Run the steps that do not depend on the contents of the state. *)
Ltac walk := repeat first [apply alone_done | eapply alone_step; [reflexivity|]].

Definition atomic_alone (o : op) (s : Shared) : Prop :=
  exists r s', alone (Call o) r s' s (start (Call o)) /\ run o (engine_of s) = (response_of r, engine_of s').

Lemma reinsert_id s id r :
  sh_reservations s !! id = Some r ->
  reinsert id r (put_reservations (delete id (sh_reservations s)) s) = s.
Proof.
  intros H. unfold reinsert, put_reservations; simpl. rewrite insert_delete_id by done. by destruct s.
Qed.

Lemma alone_release s id : heap_wf s -> atomic_alone (OpRelease id) s.
Proof.
  intros Hh. unfold atomic_alone. simpl start. simpl run. unfold release.
  change (be_reservations (engine_of s)) with (sh_reservations s).
  destruct (sh_reservations s !! id) as [r|] eqn:Er.
  2: { eexists (Answer _), s. split; [|done]. walk. eapply alone_step; [simpl; by rewrite Er|]. walk. }
  set (s1 := put_reservations (delete id (sh_reservations s)) s). simpl. rewrite lookup_fmap.
  destruct (sh_tenant_budgets s !! rr_tenant_id r) as [b|] eqn:Eb; simpl.
  2: { eexists (Answer _), s. split; [|done]. walk. eapply alone_step; [simpl; by rewrite Er|]. walk.
       eapply alone_step; [simpl; by rewrite Eb|]. rewrite reinsert_id by done. walk. }
  assert (heap_wf s1) as Hh1 by by destruct Hh.
  assert (cell (sub_total r s1) b = cell s b) as Ec.
  { unfold sub_total. case_match; [|done]. rewrite cell_store by by eapply hw_total_cell.
    rewrite decide_False; [done|]. intros ->. by eapply (hw_apart _ Hh1). }
  set (left := add_i 64 (cell (sub_total r s1) b) (rr_reserved_microcents r)).
  exists (Answer (RSettle (Released left (rr_reserved_microcents r)))), (store b left (sub_total r s1)). split.
  - walk. eapply alone_step; [simpl; by rewrite Er|]. walk. eapply alone_step; [simpl; by rewrite Eb|]. walk.
  - unfold left. rewrite Ec. rewrite (engine_store_budget _ (rr_tenant_id r)), sub_total_engine;
      [done|done|by apply heap_wf_sub_total|]. unfold sub_total. by case_match.
Qed.

Lemma cas_hit l new s : cas false l (cell s l) new s = Some (store l new s).
Proof. unfold cas. simpl. by rewrite Z.eqb_refl. Qed.

Lemma alone_top_up s t a : heap_wf s -> atomic_alone (OpTopUp t a) s.
Proof.
  intros Hh. unfold atomic_alone. simpl start. simpl run. unfold top_up_tenant.
  destruct (a <=? 0) eqn:Ea; [by eexists _, s; split; [walk|]|]. simpl. rewrite lookup_fmap.
  destruct (sh_tenant_budgets s !! t) as [b|] eqn:Eb; simpl.
  2: { eexists (Answer _), s. split; [|done]. walk. eapply alone_step; [simpl; by rewrite Eb|]. walk. }
  destruct (sh_initial_microcents s !! t) as [n|] eqn:En.
  2: { eexists (Answer _), s. split; [|done]. walk. eapply alone_step; [simpl; by rewrite Eb|]. walk.
       eapply alone_step; [simpl; by rewrite En|]. walk. }
  destruct (checked_i 64 (n + a)) as [n'|] eqn:En'.
  2: { eexists (Answer _), s. split; [|done]. walk. eapply alone_step; [simpl; by rewrite Eb|]. walk.
       eapply alone_step; [simpl; by rewrite En, En'|]. walk. }
  unfold credit_if_no_overflow. destruct (checked_i 64 (cell s b + a)) as [rem|] eqn:Er; simpl.
  2: { eexists (Answer _), s. split; [|done]. walk. eapply alone_step; [simpl; by rewrite Eb|]. walk.
       eapply alone_step; [simpl; by rewrite En, En'|]. walk. eapply alone_step; [simpl; by rewrite Er|]. walk. }
  exists (Answer (RTopUp (ToppedUp a n' rem))), (put_initial t n' (store b rem s)). split.
  - walk. eapply alone_step; [simpl; by rewrite Eb|]. walk. eapply alone_step; [simpl; by rewrite En, En'|]. walk.
    eapply alone_step; [simpl; by rewrite Er, cas_hit|]. walk.
  - change (engine_of (put_initial t n' (store b rem s))) with (set_initial t n' (engine_of (store b rem s))).
    by rewrite (engine_store_budget s t).
Qed.

Lemma alone_ensure s t n : heap_wf s -> atomic_alone (OpEnsure t n) s.
Proof.
  intros Hh. unfold atomic_alone. simpl start. simpl run. unfold try_ensure_tenant.
  destruct (n <? 0) eqn:Ea; [by eexists _, s; split; [walk|]|]. simpl. rewrite lookup_fmap.
  eexists (Answer _), _. split; [walk|]. destruct (sh_tenant_budgets s !! t) as [b|] eqn:Eb; simpl; [done|].
  pose proof (restore_tenant_engine s (mkTenantLedger t n n 0 0) Hh Eb) as [_ E].
  change (restore_tenant s (mkTenantLedger t n n 0 0)) with (insert_tenant t n n 0 0 s) in E. by rewrite E.
Qed.

Lemma alone_set_cap s t m : atomic_alone (OpSetCap t m) s.
Proof.
  unfold atomic_alone. simpl start. simpl run. unfold try_set_max_reserved_microcents.
  destruct (m <? 0) eqn:Ea; [by eexists _, s; split; [walk|]|].
  eexists (Answer _), _. split; [walk|]. by destruct (m =? 0).
Qed.

Lemma alone_snapshot s : atomic_alone OpSnapshot s.
Proof.
  unfold atomic_alone. simpl start. simpl run. destruct (try_snapshot (engine_of s)) as [r e'] eqn:E.
  eexists (AnswerSnapshot r), (put_version (be_snapshot_version e') (put_next_id (be_next_id e') s)). split.
  - eapply alone_step; [simpl; by rewrite E|]. walk.
  - f_equal. unfold try_snapshot in E. by destruct (allocate_id _) as [[? ?]|]; simplify_eq.
Qed.

Lemma alone_rotate s total : atomic_alone (OpRotate total) s.
Proof.
  eexists (Answer RRotate), _. split; [walk|]. simpl. f_equal.
  unfold rotate_certificate_baseline; simpl. by destruct (total <=? _).
Qed.

Lemma engine_budget s t : be_tenant_budgets (engine_of s) !! t = cell s <$> sh_tenant_budgets s !! t.
Proof. apply lookup_fmap. Qed.
Lemma engine_total s t :
  be_tenant_reserved_totals (engine_of s) !! t = cell s <$> sh_tenant_reserved_totals s !! t.
Proof. apply lookup_fmap. Qed.

(** A reservation that was counted in the total: allocate, debit, record. *)
Lemma alone_admitted s t c b v :
  heap_wf s -> sh_tenant_budgets s !! t = Some b -> sh_tenant_reserved_totals s !! t = Some v ->
  exists r s', alone (Call (OpReserve t c)) (Answer r) s' s (R_alloc t c b v) /\
    (let total2 := sub_i 64 (cell s v) c in
     match allocate_id (sh_next_id s) with
     | None => (RReserve (ReservationOverflow total2) None, set_reserved_total t total2 (engine_of s))
     | Some (id, next_id) =>
         let e1 := set_next_id next_id (engine_of s) in
         match debit_if_available (cell s b) c with
         | Err current => (RReserve (Insufficient current c) None, set_reserved_total t total2 e1)
         | Ok remaining =>
             (RReserve (Reserved remaining) (Some id),
              set_reservations (<[id := mkReservationRecord t c]> (be_reservations e1))
                (set_budget t remaining e1))
         end
     end) = (r, engine_of s').
Proof.
  intros Hh Hb Hv. cbv zeta.
  assert (forall x, cell (store v x s) v = x) as Ec
    by (intros x; rewrite cell_store by (by eapply hw_total_cell); by rewrite decide_True).
  destruct (allocate_id (sh_next_id s)) as [[id n]|] eqn:Ea.
  2: { eexists _, (store v (sub_i 64 (cell s v) c) s). split.
       - eapply alone_step; [simpl; by rewrite Ea|]. walk.
       - by rewrite Ec, (engine_store_total s t). }
  set (s1 := put_next_id n s). assert (heap_wf s1) as Hh1 by by destruct Hh.
  change (set_next_id n (engine_of s)) with (engine_of s1).
  unfold debit_if_available. destruct (cell s b <? c) eqn:El.
  - eexists _, (store v (sub_i 64 (cell s v) c) s1). split.
    + eapply alone_step; [simpl; by rewrite Ea|]. walk.
      eapply alone_step; [simpl; change (cell (put_next_id n s) b) with (cell s b); by rewrite El|]. walk.
    + by rewrite (engine_store_total s1 t).
  - eexists _, (put_reservations (<[id := mkReservationRecord t c]> (sh_reservations s1))
                  (store b (sub_i 64 (cell s b) c) s1)). split.
    + eapply alone_step; [simpl; by rewrite Ea|]. walk.
      eapply alone_step; [simpl; change (cell (put_next_id n s) b) with (cell s b); rewrite El;
        change (cell s b) with (cell s1 b); by rewrite cas_hit|]. walk.
    + f_equal. change (engine_of (put_reservations ?x ?y)) with (set_reservations x (engine_of y)).
      by rewrite (engine_store_budget s1 t).
Qed.

Lemma alone_reserve s t c : heap_wf s -> atomic_alone (OpReserve t c) s.
Proof.
  intros Hh. unfold atomic_alone. simpl start. simpl run. unfold try_reserve.
  destruct (c <=? 0) eqn:Ea; [by eexists _, s; split; [walk|]|]. rewrite engine_budget, engine_total.
  destruct (sh_tenant_budgets s !! t) as [b|] eqn:Eb; simpl fmap; cbv iota beta.
  2: { eexists (Answer _), s. split; [|done]. walk. eapply alone_step; [simpl; by rewrite Eb|]. walk. }
  destruct (sh_tenant_reserved_totals s !! t) as [v|] eqn:Ev; simpl fmap; cbv iota beta.
  2: { eexists (Answer _), s. split; [|done]. walk. eapply alone_step; [simpl; by rewrite Eb, Ev|]. walk. }
  unfold try_increment_reserved_total. destruct (checked_i 64 (cell s v + c)) as [tot1|] eqn:Et.
  2: { eexists (Answer _), s. split; [|done]. walk. eapply alone_step; [simpl; by rewrite Eb, Ev|]. walk.
       eapply alone_step; [simpl; by rewrite Et|]. walk. }
  change (be_max_reserved_microcents (engine_of s)) with (sh_max_reserved_microcents s). cbv zeta.
  destruct ((0 <? default 0 (sh_max_reserved_microcents s !! t)) &&
            (default 0 (sh_max_reserved_microcents s !! t) <? tot1)) eqn:Em.
  { eexists (Answer _), s. split; [|done]. walk. eapply alone_step; [simpl; by rewrite Eb, Ev|]. walk.
    eapply alone_step; [simpl; by rewrite Et, Em|]. walk. }
  set (s1 := store v tot1 s). assert (heap_wf s1) as Hh1 by by apply heap_wf_store.
  assert (cell s1 v = tot1) as Ev1
    by (unfold s1; rewrite cell_store by (by eapply hw_total_cell); by rewrite decide_True).
  assert (cell s1 b = cell s b) as Eb1.
  { unfold s1. rewrite cell_store by (by eapply hw_total_cell). rewrite decide_False; [done|]. intros ->.
    by eapply hw_apart. }
  destruct (alone_admitted s1 t c b v Hh1 Eb Ev) as (r & s' & Ha & Er).
  exists (Answer r), s'. split.
  - walk. eapply alone_step; [simpl; by rewrite Eb, Ev|]. walk.
    eapply alone_step; [simpl; by rewrite Et, Em, cas_hit|]. exact Ha.
  - cbv zeta in Er. simpl response_of. rewrite <- Er, Ev1, Eb1. unfold s1.
    rewrite (engine_store_total s t) by done. change (sh_next_id (store v tot1 s)) with (sh_next_id s).
    change (be_next_id (engine_of s)) with (sh_next_id s).
    destruct (allocate_id (sh_next_id s)) as [[id n]|]; [|by rewrite set_reserved_total_twice].
    destruct (debit_if_available (cell s b) c); by rewrite ?set_next_id_reserved_total.
Qed.

(** A commit whose amount was accepted: record, refund, take out of the total. *)
Lemma alone_recorded s id a r b n :
  heap_wf s -> sh_tenant_budgets s !! rr_tenant_id r = Some b ->
  let s1 := put_committed (rr_tenant_id r) n s in
  let refunded := if settled_delta a r <? 0
                  then add_i 64 (cell s b) (sub_i 64 0 (settled_delta a r)) else cell s b in
  exists s', alone (Call (OpCommit id a)) (Answer (RSettle (Committed refunded a))) s' s (C_record id a r b n) /\
    engine_of s' = sub_reserved_total (rr_tenant_id r) (rr_reserved_microcents r)
      (set_budget (rr_tenant_id r) refunded (engine_of s1)).
Proof.
  intros Hh Hb s1 refunded. assert (heap_wf s1) as Hh1.
  { pose proof (hw_committed _ Hh) as Hd. destruct Hh; split; try done. simpl. intros u. rewrite <- Hd.
    destruct (decide (rr_tenant_id r = u)) as [<-|]; [|by rewrite lookup_insert_ne].
    rewrite lookup_insert_eq, Hd, Hb. by split. }
  set (s2 := if settled_delta a r <? 0 then store b refunded s1 else s1).
  assert (heap_wf s2) as Hh2 by (unfold s2; case_match; [by apply heap_wf_store|done]).
  assert (sh_tenant_budgets s2 !! rr_tenant_id r = Some b) as Hb2 by (unfold s2; by case_match).
  assert (cell s2 b = refunded) as Ec.
  { unfold s2, refunded. case_match; [|done]. rewrite cell_store by (by eapply (hw_budget_cell _ Hh1)).
    by rewrite decide_True. }
  assert (engine_of s2 = set_budget (rr_tenant_id r) refunded (engine_of s1)) as Ee.
  { unfold s2, refunded. case_match; [by apply engine_store_budget|].
    symmetry. unfold set_budget, engine_of; simpl. f_equal. apply insert_id. rewrite lookup_fmap, Hb. done. }
  assert (cell (sub_total r s2) b = refunded) as Ec2.
  { unfold sub_total. case_match eqn:Ev; [|done]. rewrite cell_store by (by eapply (hw_total_cell _ Hh2)).
    rewrite decide_False; [done|]. intros ->. by eapply (hw_apart _ Hh2). }
  exists (sub_total r s2). split.
  - rewrite <- Ec2. unfold s2. destruct (settled_delta a r <? 0) eqn:Ed.
    + eapply alone_step; [simpl|].
      { assert (0 <? settled_delta a r = false) as -> by (apply Z.ltb_lt in Ed; apply Z.ltb_ge; lia). by rewrite Ed. }
      unfold refunded. walk.
    + destruct (0 <? settled_delta a r) eqn:Ed'; (eapply alone_step; [simpl; by rewrite Ed', ?Ed|]); walk.
  - by rewrite sub_total_engine, Ee.
Qed.

Lemma alone_commit s id a : heap_wf s -> atomic_alone (OpCommit id a) s.
Proof.
  intros Hh. unfold atomic_alone. simpl start. simpl run. unfold commit.
  destruct (a <? 0) eqn:Ea; [by eexists _, s; split; [walk|]|].
  change (be_reservations (engine_of s)) with (sh_reservations s).
  destruct (sh_reservations s !! id) as [r|] eqn:Er.
  2: { eexists (Answer _), s. split; [|done]. walk. eapply alone_step; [simpl; by rewrite Er|]. walk. }
  cbv zeta. rewrite engine_budget. change (be_committed_microcents (engine_of s)) with (sh_committed_microcents s).
  set (s1 := put_reservations (delete id (sh_reservations s)) s).
  assert (heap_wf s1) as Hh1 by by destruct Hh.
  destruct (sh_tenant_budgets s !! rr_tenant_id r) as [b|] eqn:Eb; simpl fmap; cbv iota beta.
  2: { eexists (Answer _), s. split; [|done]. walk. eapply alone_step; [simpl; by rewrite Er|]. walk.
       eapply alone_step; [simpl; by rewrite Eb|]. rewrite reinsert_id by done. walk. }
  destruct (checked_i 64 (default 0 (sh_committed_microcents s !! rr_tenant_id r) + a)) as [n|] eqn:En.
  2: { exists (Answer (RSettle (SettlementOverflow (cell s b)))), s. split; [|done]. walk.
       eapply alone_step; [simpl; by rewrite Er|]. walk.
       eapply alone_step; [simpl; by rewrite Eb|]. walk. eapply alone_step; [simpl; by rewrite En|].
       eapply alone_step; [reflexivity|]. rewrite reinsert_id by done. walk. }
  fold (settled_delta a r).
  assert (forall r' s', alone (Call (OpCommit id a)) r' s' s1
            (if 0 <? settled_delta a r then C_balance id a r b n else C_record id a r b n) ->
          alone (Call (OpCommit id a)) r' s' s (C_gate id a)) as Hpre.
  { intros r' s' H. walk. eapply alone_step; [simpl; by rewrite Er|]. walk.
    eapply alone_step; [simpl; by rewrite Eb|]. walk. eapply alone_step; [simpl; rewrite En|exact H].
    unfold tau. by case_match. }
  destruct (0 <? settled_delta a r) eqn:Ed.
  - unfold debit_if_available. destruct (cell s b <? settled_delta a r) eqn:El.
    + eexists (Answer _), s. split; [|done]. apply Hpre. walk.
      eapply alone_step; [simpl; change (cell s1 b) with (cell s b); by rewrite El|].
      eapply alone_step; [reflexivity|]. unfold s1. rewrite reinsert_id by done. walk.
    + set (s2 := store b (sub_i 64 (cell s b) (settled_delta a r)) s1).
      assert (cell s2 b = sub_i 64 (cell s b) (settled_delta a r)) as Ec
        by (unfold s2; rewrite cell_store by (by eapply (hw_budget_cell _ Hh1)); by rewrite decide_True).
      destruct (alone_recorded s2 id a r b n) as (s' & Ha & Ee); [by apply heap_wf_store|done|].
      rewrite Ec in Ha, Ee. eexists (Answer _), s'. split.
      * apply Hpre. walk. eapply alone_step; [|exact Ha]. simpl. change (cell s1 b) with (cell s b). rewrite El.
        change (cell s b) with (cell s1 b). by rewrite cas_hit.
      * simpl response_of. f_equal. rewrite Ee.
        change (engine_of (put_committed ?x ?y s2)) with (set_committed x y (engine_of s2)).
        unfold s2. rewrite (engine_store_budget s1 (rr_tenant_id r)) by done. f_equal.
        unfold set_budget, set_committed; simpl. by rewrite insert_insert_eq.
  - destruct (alone_recorded s1 id a r b n) as (s' & Ha & Ee); [done|done|].
    eexists (Answer _), s'. split; [apply Hpre; exact Ha|]. simpl response_of. f_equal. by rewrite Ee.
Qed.

Lemma call_alone o s : heap_wf s -> atomic_alone o s.
Proof.
  destruct o; eauto using alone_ensure, alone_top_up, alone_set_cap, alone_reserve, alone_commit, alone_release,
    alone_snapshot, alone_rotate.
Qed.
