(* ===== verification/BudgetConcProps.v ===== *)
(** * The concurrent engine's promises

    Runs of any number of threads, in any interleaving the locks allow and
    with compare-and-swaps that may fail without cause: what they do to the
    ledger is a sequence of atomic events, each at a step of the call that
    reports it, and every call comes back. *)

From S2P Require Import Prelude Budget BudgetInv BudgetSpec BudgetProps BudgetConc BudgetConcInv BudgetConcSteps BudgetConcOps BudgetConcRun BudgetConcLive.
#[local] Open Scope Z_scope.

(** ** The pool *)

Definition pc_call (p : pc) : call :=
  match p with
  | R_gate t c | R_budgets t c | R_totals t c | R_clone t c | R_limits t c _ _ | R_max t c _ _
  | R_load t c _ _ _ | R_cas t c _ _ _ _ | R_overflow t c _ | R_alloc t c _ _ | R_unreserve t c _
  | R_balance t c _ _ _ | R_debit t c _ _ _ _ | R_undo t c _ _ | R_reservations t c _ _
  | R_insert t c _ _ => Call (OpReserve t c)
  | C_gate id a | C_reservations id a | C_remove id a | C_budgets id a _ | C_clone id a _
  | C_committed id a _ _ | C_check id a _ _ | C_overflow id a _ _ | C_overflow_load id a _
  | C_balance id a _ _ _ | C_debit id a _ _ _ _ | C_overrun id a _ _ | C_record id a _ _ _
  | C_refund id a _ _ | C_totals id a _ _ | C_sub id a _ _ | C_remaining id a _ => Call (OpCommit id a)
  | L_gate id | L_reservations id | L_remove id | L_budgets id _ | L_clone id _ | L_totals id _ _
  | L_sub id _ _ | L_credit id _ _ => Call (OpRelease id)
  | T_gate t a | T_budgets t a | T_clone t a | T_initials t a _ | T_check t a _ | T_balance t a _ _
  | T_credit t a _ _ _ | T_store t a _ _ => Call (OpTopUp t a)
  | E_gate t n | E_budgets t n | E_initials t n | E_committed t n | E_totals t n | E_insert t n =>
      Call (OpEnsure t n)
  | X_set_cap t m => Call (OpSetCap t m)
  | X_snapshot => Call OpSnapshot
  | X_restore snap _ _ => CallRestore snap
  | X_rotate total => Call (OpRotate total)
  | Ret k _ | Done k _ => k
  end.

Lemma start_call k : pc_call (start k) = k.
Proof. destruct k as [[]|snap]; simpl; repeat case_match; done. Qed.

Lemma tstep_call sp ts s p s' p' ev : tstep sp ts s p = Some (s', p', ev) -> pc_call p' = pc_call p.
Proof. intros H. destruct p; simpl in H; unfold acquire, tau in H; repeat case_match; by simplify_eq/=. Qed.

(** The calls the scheduler started, and the events of thread [i]. *)
Definition calls (ms : list move) : list call :=
  omap (fun m => match m with Spawn k => Some k | _ => None end) ms.

Definition events_of (i : nat) (tr : list (nat * event)) : list event :=
  map snd (List.filter (fun x => Nat.eqb (fst x) i) tr).

Lemma events_of_snoc i j ev tr :
  events_of i (tr ++ [(j, ev)]) = events_of i tr ++ (if Nat.eqb j i then [ev] else []).
Proof. unfold events_of. rewrite List.filter_app, map_app. simpl. by destruct (Nat.eqb j i). Qed.

(** Arguments are machine integers. *)
Definition call_typed (k : call) : Prop := match k with Call o => op_typed o | CallRestore _ => True end.
Definition move_typed (m : move) : Prop := match m with Spawn k => call_typed k | Step _ _ => True end.

Record run_inv (cs : list call) (c : conf) (k : Book) : Prop := {
  ri_conc : conc_inv (cf_shared c) (cf_threads c) k;
  ri_replay : replay (map snd (cf_trace c)) empty_book = Some k;
  ri_calls : cs = map pc_call (cf_threads c);
  ri_events : forall i p, cf_threads c !! i = Some p -> events_of i (cf_trace c) = option_list (emitted p);
  ri_later : forall i, (length (cf_threads c) <= i)%nat -> events_of i (cf_trace c) = []
}.

(** ** Starting a call *)

Lemma start_outside k : outside (start k) = true.
Proof. destruct k as [[]|snap]; simpl; repeat case_match; done. Qed.

Lemma start_wf s k : call_typed k -> pc_wf s (start k).
Proof.
  unfold call_typed, op_typed, is_i, imax, imin.
  destruct k as [[]|snap]; simpl; intros H; repeat case_match; try done;
    try (match goal with H : (_ <? _) = false |- _ => apply Z.ltb_ge in H
                    | H : (_ <=? _) = false |- _ => apply Z.leb_gt in H end;
         unfold pc_wf, positive_amount, amount, imax; lia).
  simpl. by repeat case_match; simplify_eq.
Qed.

Lemma start_emitted k : emitted (start k) = None.
Proof. destruct k as [[]|snap]; simpl; repeat case_match; done. Qed.

Lemma conc_inv_spawn s ts k p :
  conc_inv s ts k -> outside p = true -> pc_wf s p -> conc_inv s (ts ++ [p]) k.
Proof.
  intros Hinv Ho Hwf.
  assert (forall (f : pc -> Z), f p = 0 -> zsum f (ts ++ [p]) = zsum f ts) as Hz.
  { intros f Hf. rewrite zsum_app. unfold zsum at 2. simpl. lia. }
  assert (guards p = []) as Hg by by apply outside_guards.
  split; try (intros; rewrite Hz by by destruct p); try apply Hinv.
  - intros i q Hi. apply lookup_snoc_Some in Hi as [[_ Hi]|[_ <-]]; [by eapply ci_pc|done].
  - intros i j q r l Hi Hj Hq Hr.
    apply lookup_snoc_Some in Hi as [[_ Hi]|[_ <-]]; [|rewrite Hg in Hq; set_solver].
    apply lookup_snoc_Some in Hj as [[_ Hj]|[_ <-]]; [|rewrite Hg in Hr; set_solver].
    by eapply (ci_excl _ _ _ Hinv).
  - intros i q id r Hi Hq. apply lookup_snoc_Some in Hi as [[_ Hi]|[_ <-]]; [by eapply (ci_own _ _ _ Hinv)|].
    by destruct p.
Qed.

(** ** Every run *)

Lemma run_inv_new : run_inv [] conf_new empty_book.
Proof.
  assert (engine_of Shared_new = BudgetEngine_new) as E by (unfold engine_of; simpl; by rewrite !fmap_empty).
  split; try done. apply (conc_inv_quiescent Shared_new [] ∅); rewrite ?E;
    [|exact engine_inv_new|done..]. split; simpl; intros *; by rewrite ?lookup_empty.
Qed.

Lemma run_inv_make cs c k m c' :
  run_inv cs c k -> move_typed m -> make m c = Some c' ->
  exists k', run_inv (cs ++ calls [m]) c' k'.
Proof.
  intros [Hc Hr Hcs He Hl] Ht Hm. destruct m as [o|i sp]; simpl in Hm.
  - simplify_eq/=. exists k. split; simpl.
    + apply conc_inv_spawn; [done|apply start_outside|by apply start_wf].
    + done.
    + rewrite map_app. simpl. by rewrite start_call.
    + intros i p Hi. apply lookup_snoc_Some in Hi as [[_ Hi]|[-> <-]]; [by apply He|].
      rewrite start_emitted. by apply Hl.
    + intros i Hi. apply Hl. rewrite length_app in Hi. simpl in Hi. lia.
  - destruct (cf_threads c !! i) as [p|] eqn:Hi; [simpl in Hm|done].
    destruct (tstep sp (cf_threads c) (cf_shared c) p) as [[[s' p'] ev]|] eqn:Hst; [simpl in Hm|done].
    simplify_eq. destruct (tstep_keeps sp _ _ k i p s' p' ev Hc Hi Hst) as (k' & Hk & Hinv & Hem & Hn).
    exists k'. rewrite app_nil_r. split; simpl.
    + done.
    + destruct ev as [ev|]; [|by simplify_eq]. rewrite map_app. simpl map. rewrite replay_snoc, Hr. done.
    + rewrite list_fmap_insert, (tstep_call _ _ _ _ _ _ _ Hst). symmetry. apply list_insert_id.
      by rewrite list_lookup_fmap, Hi.
    + intros j q Hj. apply list_lookup_insert_Some in Hj as [(-> & <- & _)|[Hne Hj]].
      * destruct ev as [ev|]; [|by rewrite Hem; apply He]. rewrite events_of_snoc, Nat.eqb_refl, Hem.
        rewrite (He j p Hi), Hn by by eauto. done.
      * destruct ev as [ev|]; [|by apply He]. rewrite events_of_snoc.
        destruct (Nat.eqb_spec i j); [done|]. rewrite app_nil_r. by apply He.
    + intros j Hj. rewrite length_insert in Hj. destruct ev as [ev|]; [|by apply Hl].
      rewrite events_of_snoc. apply lookup_lt_Some in Hi. destruct (Nat.eqb_spec i j); [lia|].
      rewrite app_nil_r. by apply Hl.
Qed.

Lemma run_inv_schedule ms : forall cs c k c',
  run_inv cs c k -> Forall move_typed ms -> schedule ms c = Some c' ->
  exists k', run_inv (cs ++ calls ms) c' k'.
Proof.
  induction ms as [|m ms IH]; intros cs c k c' Hr Ht Hs; simpl in Hs.
  - simplify_eq. exists k. by rewrite app_nil_r.
  - apply list.Forall_cons in Ht as [Hm Ht]. destruct (make m c) as [c1|] eqn:E; [simpl in Hs|done].
    destruct (run_inv_make cs c k m c1 Hr Hm E) as [k1 Hr1].
    destruct (IH _ _ _ _ Hr1 Ht Hs) as [k' Hr']. exists k'.
    replace (cs ++ calls (m :: ms)) with ((cs ++ calls [m]) ++ calls ms); [done|].
    rewrite <- app_assoc. f_equal. by destruct m.
Qed.

Lemma run_inv_reachable ms c :
  Forall move_typed ms -> schedule ms conf_new = Some c -> exists k, run_inv (calls ms) c k.
Proof. intros Ht Hs. by apply (run_inv_schedule ms [] conf_new empty_book c run_inv_new). Qed.

Lemma amounts_between s ts k t :
  conc_inv s ts k -> 0 <= bal s t <= book_left k t /\ book_held k t <= tot s t <= imax 64.
Proof.
  intros Hinv. pose proof (ci_state _ _ _ Hinv) as Hs.
  pose proof (si_bal _ _ Hs t). pose proof (si_tot _ _ Hs t).
  pose proof (ci_balance _ _ _ Hinv t). pose proof (ci_total _ _ _ Hinv t).
  assert (0 <= zsum (fun p => to_return p t) ts).
  { apply zsum_nonneg. intros i p Hi. apply (to_return_nonneg s). by eapply ci_pc. }
  assert (0 <= zsum (fun p => in_total p t) ts).
  { apply zsum_nonneg. intros i p Hi. apply (in_total_nonneg s). by eapply ci_pc. }
  lia.
Qed.

(** ** Schedules for the examples *)

(** Let the threads of [order] take turns; a blocked turn is skipped. *)
Fixpoint take_turns (order : list nat) (c : conf) : list move * conf :=
  match order with
  | [] => ([], c)
  | i :: rest =>
      match make (Step i false) c with
      | Some c' => let '(ms, c2) := take_turns rest c' in (Step i false :: ms, c2)
      | None => take_turns rest c
      end
  end.

Definition then_turns (ks : list call) (order : list nat) (c : conf) : list move * conf :=
  let c1 := mkConf (cf_shared c) (cf_threads c ++ map start ks) (cf_trace c) in
  let '(ms, c2) := take_turns order c1 in (map Spawn ks ++ ms, c2).

(** Two reservations of 60 out of 100 race, while a snapshot waits for them. *)
Definition race : list move :=
  Eval vm_compute in
    let '(m1, c1) := then_turns [Call (OpEnsure "t" 100)] (repeat 0%nat 7) conf_new in
    let '(m2, c2) :=
      then_turns [Call (OpReserve "t" 60); Call (OpReserve "t" 60); Call OpSnapshot]
        (concat (repeat [1; 2; 3]%nat 24)) c1 in
    m1 ++ m2.

Definition after_race : conf := default conf_new (schedule race conf_new).

(** ** Theorems *)

(** Claim C3: In every interleaving of any number of reserve, commit, release,
    top-up, ensure, cap, snapshot and restore calls, with compare-and-swaps
    that may fail without cause, the trace of events replays on the abstract
    book from empty: each event meets its guard (balance, cap, unused
    identifier, open hold) at the moment it takes effect. A call that has
    returned made exactly the event its answer reports, one if it succeeded
    and none if it was refused. At every moment no balance is negative, the
    spendable balance is at most what the book has left, and the running total
    covers the open holds inside 64 bits; when no call is inside the gate the
    shared maps are a consistent engine and are the book. *)
Theorem concurrent_runs_linearize ms c :
  Forall move_typed ms -> schedule ms conf_new = Some c ->
  exists k, replay (map snd (cf_trace c)) empty_book = Some k /\
    (forall i o r, cf_threads c !! i = Some (Done o r) ->
       calls ms !! i = Some o /\ events_of i (cf_trace c) = option_list (event_of o r)) /\
    (forall t, 0 <= bal (cf_shared c) t <= book_left k t /\
       book_held k t <= tot (cf_shared c) t <= imax 64) /\
    (quiescent (cf_threads c) = true ->
       engine_inv (engine_of (cf_shared c)) /\ k = book_of (cf_shared c) (bk_used k)).
Proof.
  intros Ht Hs. destruct (run_inv_reachable ms c Ht Hs) as [k [Hc Hr Hcs He Hl]].
  exists k. split_and!; [done| | |].
  - intros i o r Hi. split; [by rewrite Hcs, list_lookup_fmap, Hi|by apply (He i _ Hi)].
  - intros t. by apply (amounts_between _ (cf_threads c)).
  - intros Hq. split; [by eapply quiescent_engine|by eapply quiescent_book].
Qed.

Lemma concurrent_runs_linearize_witness :
  schedule race conf_new = Some after_race /\
  (exists r1 r2, cf_threads after_race !! 1%nat = Some (Done (Call (OpReserve "t" 60)) r1) /\
     cf_threads after_race !! 2%nat = Some (Done (Call (OpReserve "t" 60)) r2) /\ r1 <> r2) /\
  exists k, replay (map snd (cf_trace after_race)) empty_book = Some k /\
    0 <= bal (cf_shared after_race) "t" <= book_left k "t".
Proof.
  split; [vm_compute; reflexivity|]. split; [eexists _, _; split_and!; [vm_compute; reflexivity..|done]|].
  destruct (concurrent_runs_linearize race after_race) as (k & Hk & _ & Hb & _).
  - unfold race. repeat (constructor; [simpl; try done; unfold is_i, imin, imax; lia|]). constructor.
  - vm_compute. reflexivity.
  - exists k. split; [exact Hk|]. apply (Hb "t").
Defined.

(** A trace that replays, cut at one of its events. *)
Lemma replay_split tr i ev k :
  replay (map snd tr) empty_book = Some k -> ev ∈ events_of i tr ->
  exists before after k1 k2, tr = before ++ (i, ev) :: after /\
    replay (map snd before) empty_book = Some k1 /\ book_step ev k1 = Some k2.
Proof.
  intros Hr Hin. unfold events_of in Hin. apply list_elem_of_fmap in Hin as ([j e] & -> & Hf).
  apply list_elem_of_In, List.filter_In in Hf as [Hf Hj]. simpl in Hj. apply Nat.eqb_eq in Hj as ->.
  apply list_elem_of_In, list_elem_of_split in Hf as (before & after & ->).
  rewrite map_app in Hr. simpl in Hr. exists before, after.
  assert (forall evs evs' k0, replay (evs ++ evs') k0 = (k1 ← replay evs k0; replay evs' k1)) as Happ.
  { clear. induction evs as [|x evs IH]; intros evs' k0; simpl; [done|].
    destruct (book_step x k0); simpl; [apply IH|done]. }
  rewrite Happ in Hr. destruct (replay (map snd before) empty_book) as [k1|]; [simpl in Hr|done].
  destruct (book_step e k1) as [k2|] eqn:E; [|done]. by exists k1, k2.
Qed.

(** Claim C27: A snapshot taken among concurrent calls is a transaction view:
    it is balanced, and its rows, its count of open holds included, are those
    of the book at one point of the trace, the point where the snapshot call
    held the gate. *)
Theorem concurrent_snapshot_is_a_view ms c i snap :
  Forall move_typed ms -> schedule ms conf_new = Some c ->
  cf_threads c !! i = Some (Done (Call OpSnapshot) (AnswerSnapshot (Ok snap))) ->
  conservation_status_for_snapshot snap = Balanced /\
  exists before after k, cf_trace c = before ++ (i, EvSnapshot snap) :: after /\
    replay (map snd before) empty_book = Some k /\ snapshot_shows k snap.
Proof.
  intros Ht Hs Hi. destruct (run_inv_reachable ms c Ht Hs) as [k [Hc Hr _ He _]].
  split; [by apply (ci_pc _ _ _ Hc i _ Hi)|]. pose proof (He i _ Hi) as Hev. simpl in Hev.
  destruct (replay_split (cf_trace c) i (EvSnapshot snap) k Hr) as (b & a & k1 & k2 & ? & ? & Hst).
  { rewrite Hev. left. }
  exists b, a, k1. split_and!; [done|done|]. simpl in Hst. by case_guard.
Qed.

Definition race_snapshot : BudgetSnapshot :=
  mkBudgetSnapshot 9223372036854775812 [mkTenantLedger "t" 100 40 60 0] 1 None.

Lemma concurrent_snapshot_is_a_view_witness :
  cf_threads after_race !! 3%nat = Some (Done (Call OpSnapshot) (AnswerSnapshot (Ok race_snapshot))) /\
  conservation_status_for_snapshot race_snapshot = Balanced.
Proof.
  split; [vm_compute; reflexivity|].
  apply (concurrent_snapshot_is_a_view race after_race 3%nat race_snapshot).
  - unfold race. repeat (constructor; [simpl; try done; unfold is_i, imin, imax; lia|]). constructor.
  - vm_compute. reflexivity.
  - vm_compute. reflexivity.
Defined.

(** A step that is not a spurious failure. *)
Definition steady (m : move) : Prop := match m with Step _ spurious => spurious = false | Spawn _ => False end.

Lemma steady_decreases m c c' :
  steady m -> make m c = Some c' ->
  (remaining_steps (cf_shared c') (cf_threads c') < remaining_steps (cf_shared c) (cf_threads c))%nat.
Proof.
  destruct m as [k|i sp]; simpl; [done|]. intros -> H.
  destruct (cf_threads c !! i) as [p|] eqn:Hi; [simpl in H|done].
  destruct (tstep false (cf_threads c) (cf_shared c) p) as [[[s' p'] ev]|] eqn:Hst; [simpl in H|done].
  simplify_eq. by eapply step_decreases.
Qed.

Lemma steady_bound ms : forall c c',
  Forall steady ms -> schedule ms c = Some c' ->
  (length ms + remaining_steps (cf_shared c') (cf_threads c') <=
   remaining_steps (cf_shared c) (cf_threads c))%nat.
Proof.
  induction ms as [|m ms IH]; intros c c' Hs Hm; simpl in Hm; [simplify_eq; simpl; lia|].
  apply list.Forall_cons in Hs as [H1 H2]. destruct (make m c) as [c1|] eqn:E; [simpl in Hm|done].
  pose proof (steady_decreases m c c1 H1 E). pose proof (IH c1 c' H2 Hm). simpl. lia.
Qed.

Lemma not_finished_elem ts : forallb finished ts = false -> exists p, p ∈ ts /\ finished p = false.
Proof.
  induction ts as [|p ts IH]; simpl; [done|]. intros [H|H]%andb_false_iff.
  - exists p. split; [left|done].
  - destruct (IH H) as (q & ? & ?). exists q. split; [by right|done].
Qed.

(** Claim C28: No deadlock and no livelock: whatever the pool of calls does and
    whichever locks are held, either every call has returned or some thread
    can make a step, and a run without spurious compare-and-swap failures
    makes no more steps than a bound fixed at its start (sixteen per call, times
    one more than the number of threads), however the scheduler chooses. *)
Theorem concurrent_calls_return c ms c' :
  Forall steady ms -> schedule ms c = Some c' ->
  (length ms + remaining_steps (cf_shared c') (cf_threads c') <=
   remaining_steps (cf_shared c) (cf_threads c))%nat /\
  (forallb finished (cf_threads c') = true \/ exists i c'', make (Step i false) c' = Some c'').
Proof.
  intros Hs Hm. split; [by apply steady_bound|]. destruct (forallb finished (cf_threads c')) eqn:Hf; [by left|right].
  apply not_finished_elem in Hf as (p & Hp & Hf).
  destruct (threads_move (cf_shared c') (cf_threads c') p Hp Hf) as (i & q & [[s' p'] ev] & Hi & Hst).
  exists i. simpl. rewrite Hi. simpl. rewrite Hst. simpl. by eexists.
Qed.

(** Three threads deep in the engine: a commit holding the reservations, a
    release waiting for them, and a top-up. *)
Definition contended : conf :=
  let '(_, c1) :=
    then_turns [Call (OpEnsure "t" 100); Call (OpReserve "t" 60)] (repeat 0%nat 7 ++ repeat 1%nat 16) conf_new in
  snd (then_turns [Call (OpCommit 1 50); Call (OpRelease 1); Call (OpTopUp "t" 5)]
         ([2; 2; 2; 2; 3; 4; 4; 4]%nat) c1).

Lemma concurrent_calls_return_witness :
  make (Step 3 false) contended = None /\
  (forallb finished (cf_threads contended) = true \/ exists i c'', make (Step i false) contended = Some c'').
Proof.
  split; [vm_compute; reflexivity|]. apply (concurrent_calls_return contended [] contended); [constructor|done].
Defined.

(** Claim C29: A call that no other thread disturbs is the atomic operation of
    the sequential engine: from any well-formed store the thread reaches its
    return, with the answer and the engine the operation has when it is one
    step. *)
Theorem call_alone_is_atomic o s :
  heap_wf s -> exists n r s', solo n s (start (Call o)) = (s', Done (Call o) r) /\
    run o (engine_of s) = (response_of r, engine_of s').
Proof.
  intros Hh. destruct (call_alone o s Hh) as (r & s' & Ha & Hr).
  apply alone_solo in Ha as [n Hn]. by exists n, r, s'.
Qed.

Lemma call_alone_is_atomic_witness :
  exists n r s', solo n (insert_tenant "t" 100 100 0 0 Shared_new) (start (Call (OpReserve "t" 60))) =
      (s', Done (Call (OpReserve "t" 60)) r) /\
    run (OpReserve "t" 60) (engine_of (insert_tenant "t" 100 100 0 0 Shared_new)) = (response_of r, engine_of s').
Proof.
  apply (call_alone_is_atomic (OpReserve "t" 60)). apply heap_wf_insert_tenant.
  split; simpl; intros *; by rewrite ?lookup_empty.
Defined.

(** ** What is not linearizable

    Only refusals: a reservation counts itself in the running total before it
    knows whether the balance covers it, so a second one can be refused for
    the cap although the first is then refused too, and either order of the
    two calls would have granted it. Nothing is lost by it but the grant. *)

Definition doomed_race : list answer :=
  let '(_, c1) :=
    then_turns [Call (OpEnsure "t" 50); Call (OpSetCap "t" 100)] (repeat 0%nat 7 ++ [1]%nat) conf_new in
  let '(_, c2) :=
    then_turns [Call (OpReserve "t" 80); Call (OpReserve "t" 40)] (repeat 2%nat 8 ++ repeat 3%nat 16 ++ repeat 2%nat 16) c1 in
  omap (fun p => match p with Done (Call (OpReserve _ _)) r => Some r | _ => None end) (cf_threads c2).

Lemma refusals_are_not_linearizable :
  doomed_race = [Answer (RReserve (Insufficient 50 80) None); Answer (RReserve (ExposureLimitExceeded 80 100) None)] /\
  (let setup := [OpEnsure "t" 50; OpSetCap "t" 100] in
   last (fst (run_all (setup ++ [OpReserve "t" 80; OpReserve "t" 40]) BudgetEngine_new)) RRotate =
     RReserve (Reserved 10) (Some 2) /\
   last (fst (run_all (setup ++ [OpReserve "t" 40]) BudgetEngine_new)) RRotate =
     RReserve (Reserved 10) (Some 1)).
Proof. split; [|cbv zeta; split]; vm_compute; reflexivity. Qed.
