(* ===== verification/Finance.v ===== *)
(** * Ledger digests and financial certificates

    [src/finance.rs]: the digest of a budget snapshot, its totals, conservation
    proofs and the certificates issued from an engine. *)

From Stdlib Require Import String.
From S2P Require Import Prelude Bytes Digest Budget BudgetInv BudgetSpec BudgetProps.
#[local] Open Scope Z_scope.

Definition MICROCENTS_PER_CENT : Z := 1000000.

(** ** The digest *)

(** [sort_by] on the tenant identifier: a stable sort in byte order. *)
Fixpoint insert_ledger (x : TenantLedger) (l : list TenantLedger) : list TenantLedger :=
  match l with
  | [] => [x]
  | y :: l' => if String.leb (tl_tenant_id x) (tl_tenant_id y) then x :: y :: l' else y :: insert_ledger x l'
  end.
Definition sort_ledgers (l : list TenantLedger) : list TenantLedger := foldr insert_ledger [] l.

Definition update_ledger (ledger : TenantLedger) : list Z :=
  let id := string_bytes (tl_tenant_id ledger) in
  le_bytes 4 (Z.of_nat (length id)) ++ id ++
  le_bytes 8 (tl_initial_microcents ledger) ++ le_bytes 8 (tl_remaining_microcents ledger) ++
  le_bytes 8 (tl_reserved_microcents ledger) ++ le_bytes 8 (tl_committed_microcents ledger).

Definition WATERMARK_TAG : list Z := string_bytes "calybris.ledger.wal-watermark.v1" ++ [0].

Definition ledger_message (snapshot : BudgetSnapshot) : list Z :=
  LEDGER_DIGEST_TAG ++
  le_bytes 8 (bs_version snapshot) ++
  le_bytes 8 (Z.of_nat (length (bs_tenants snapshot))) ++
  le_bytes 8 (bs_active_reservations snapshot) ++
  flat_map update_ledger (sort_ledgers (bs_tenants snapshot)) ++
  match bs_wal_high_watermark snapshot with
  | Some watermark => WATERMARK_TAG ++ le_bytes 8 watermark
  | None => []
  end.

(** ** Totals *)

Fixpoint totals_loop (initial committed : Z) (rows : list TenantLedger)
    : result ConservationStatus (Z * Z) :=
  match rows with
  | [] => Ok (initial, committed)
  | ledger :: rows' =>
      initial ← ok_or (checked_i 128 (initial + tl_initial_microcents ledger)) AggregateOverflow;
      committed ← ok_or (checked_i 128 (committed + tl_committed_microcents ledger)) AggregateOverflow;
      totals_loop initial committed rows'
  end.

Definition snapshot_totals (snapshot : BudgetSnapshot) : result ConservationStatus (Z * Z) :=
  '(initial, committed) ← totals_loop 0 0 (bs_tenants snapshot);
  i ← ok_or (checked_i 64 initial) AggregateOverflow;
  c ← ok_or (checked_i 64 committed) AggregateOverflow;
  Ok (i, c).

Record ConservationProof := mkConservationProof {
  cpf_ledger_digest_hex : string;
  cpf_snapshot_version : Z;
  cpf_tenant_count : Z;
  cpf_active_reservations : Z;
  cpf_total_initial_microcents : Z;
  cpf_total_committed_microcents : Z;
  cpf_aggregate_totals_representable : bool
}.

Record FinancialCertificate := mkFinancialCertificate {
  fc_snapshot_version : Z;
  fc_ledger_digest_hex : string;
  fc_tenant_count : Z;
  fc_active_reservations : Z;
  fc_conservation_balanced : bool;
  fc_total_initial_microcents : Z;
  fc_total_committed_microcents : Z;
  fc_aggregate_totals_representable : bool;
  fc_committed_since_last_certificate : Z
}.

Definition is_balanced (s : ConservationStatus) : bool :=
  match s with Balanced => true | _ => false end.

Section finance.
Context {HF : HashFunctions}.

Definition ledger_digest (snapshot : BudgetSnapshot) : list Z := sha256 (ledger_message snapshot).

Definition certify_snapshot (snapshot : BudgetSnapshot) (_conservation_balanced : bool)
    (committed_since_last_certificate : Z) : FinancialCertificate :=
  let digest := ledger_digest snapshot in
  let conservation_balanced := is_balanced (conservation_status_for_snapshot snapshot) in
  let '(total_initial, total_committed, totals_representable) :=
    match snapshot_totals snapshot with
    | Ok (initial, committed) => (initial, committed, true)
    | Err _ => (0, 0, false)
    end in
  mkFinancialCertificate (bs_version snapshot) (digest_to_hex digest)
    (Z.of_nat (length (bs_tenants snapshot))) (bs_active_reservations snapshot)
    (conservation_balanced && totals_representable) total_initial total_committed totals_representable
    committed_since_last_certificate.

(** [engine.snapshot()] panics when the allocator is exhausted: [None]. *)
Definition certify_ledger (engine : BudgetEngine) : option (FinancialCertificate * BudgetEngine) :=
  let '(snapped, engine) := try_snapshot engine in
  match snapped with
  | Err _ => None
  | Ok snapshot =>
      let per_tenant_balanced := is_balanced (conservation_status_for_snapshot snapshot) in
      let totals := snapshot_totals snapshot in
      let total_committed := match totals with Ok (_, c) => c | Err _ => 0 end in
      let '(committed_since, engine) :=
        if is_ok totals then rotate_certificate_baseline total_committed engine else (0, engine) in
      Some (certify_snapshot snapshot per_tenant_balanced committed_since, engine)
  end.

Definition prove_conservation (engine : BudgetEngine)
    : option (result ConservationStatus ConservationProof * BudgetEngine) :=
  let '(snapped, engine) := try_snapshot engine in
  match snapped with
  | Err _ => None
  | Ok snapshot =>
      let status := conservation_status_for_snapshot snapshot in
      let digest := ledger_digest snapshot in
      let totals := snapshot_totals snapshot in
      Some (match status with
            | Balanced =>
                '(total_initial, total_committed) ← totals;
                Ok (mkConservationProof (digest_to_hex digest) (bs_version snapshot)
                      (Z.of_nat (length (bs_tenants snapshot))) (bs_active_reservations snapshot)
                      total_initial total_committed true)
            | violation => Err violation
            end, engine)
  end.
End finance.

(** ** What the digest binds *)

Definition ledger_typed (l : TenantLedger) : Prop :=
  is_u 32 (Z.of_nat (length (string_bytes (tl_tenant_id l)))) /\
  is_i 64 (tl_initial_microcents l) /\ is_i 64 (tl_remaining_microcents l) /\
  is_i 64 (tl_reserved_microcents l) /\ is_i 64 (tl_committed_microcents l).

#[export] Instance ledger_typed_dec l : Decision (ledger_typed l).
Proof. unfold ledger_typed. apply _. Defined.

Definition snapshot_typed (s : BudgetSnapshot) : Prop :=
  is_u 64 (bs_version s) /\ is_u 64 (Z.of_nat (length (bs_tenants s))) /\ is_u 64 (bs_active_reservations s) /\
  Forall ledger_typed (bs_tenants s) /\ (forall w, bs_wal_high_watermark s = Some w -> is_u 64 w).

Lemma insert_ledger_perm x l : insert_ledger x l ≡ₚ x :: l.
Proof.
  induction l as [|y l IH]; simpl; [done|]. destruct (String.leb _ _); [done|]. rewrite IH. constructor.
Qed.

Lemma sort_ledgers_perm l : sort_ledgers l ≡ₚ l.
Proof. induction l as [|x l IH]; simpl; [done|]. by rewrite insert_ledger_perm, IH. Qed.

#[export] Instance ledger_le_trans : Transitive ledger_le.
Proof. intros a b c. unfold ledger_le. apply (transitivity (R := String.le)). Qed.

Lemma insert_ledger_sorted x l : StronglySorted ledger_le l -> StronglySorted ledger_le (insert_ledger x l).
Proof.
  induction 1 as [|y l Hl IH Hy]; simpl; [by repeat constructor|].
  destruct (String.leb (tl_tenant_id x) (tl_tenant_id y)) eqn:E.
  - assert (ledger_le x y) by (unfold ledger_le; by rewrite E).
    constructor; [by constructor|]. constructor; [done|]. eapply List.Forall_impl; [|exact Hy].
    intros z Hz. by transitivity y.
  - constructor; [done|]. rewrite insert_ledger_perm. constructor; [|done].
    unfold ledger_le. destruct (String.leb_total (tl_tenant_id x) (tl_tenant_id y)) as [H|H]; [congruence|].
    by rewrite H.
Qed.

Lemma sort_ledgers_sorted l : StronglySorted ledger_le (sort_ledgers l).
Proof. induction l; simpl; [constructor|]. by apply insert_ledger_sorted. Qed.

Lemma sort_ledgers_unique l l' : NoDup (map tl_tenant_id l) -> l ≡ₚ l' -> sort_ledgers l = sort_ledgers l'.
Proof.
  intros Hnd Hp. eapply StronglySorted_unique_strong; [|apply sort_ledgers_sorted..|by rewrite !sort_ledgers_perm].
  intros a b. rewrite !sort_ledgers_perm, <- Hp. intros Ha Hb H1%Is_true_true H2%Is_true_true.
  pose proof (String.leb_antisym _ _ H1 H2) as E.
  pose proof (find_row l a Hnd Ha) as F1. pose proof (find_row l b Hnd Hb) as F2. rewrite E in F1. congruence.
Qed.

Lemma update_ledger_inj l l' r r' : ledger_typed l -> ledger_typed l' ->
  update_ledger l ++ r = update_ledger l' ++ r' -> l = l' /\ r = r'.
Proof.
  intros (?&?&?&?&?) (?&?&?&?&?). unfold update_ledger. rewrite <- !app_assoc. intros Heq.
  apply app_inj_len in Heq as [F Heq]; [|by rewrite !length_le_bytes].
  apply (le_bytes_inj_u 4) in F; [|done..]. apply app_inj_len in Heq as [Fid Heq]; [|lia].
  split_fields Heq. apply string_bytes_inj in Fid. field_inj. destruct l, l'. simpl in *. by subst.
Qed.

Lemma update_ledgers_inj rows : forall rows' r r',
  length rows = length rows' -> Forall ledger_typed rows -> Forall ledger_typed rows' ->
  flat_map update_ledger rows ++ r = flat_map update_ledger rows' ++ r' -> rows = rows' /\ r = r'.
Proof.
  induction rows as [|l rows IH]; intros [|l' rows'] r r' Hl Ht Ht' Heq; try done.
  apply list.Forall_cons in Ht as [Hl1 Ht], Ht' as [Hl1' Ht']. cbn [flat_map] in Heq. rewrite <- !app_assoc in Heq.
  apply update_ledger_inj in Heq as [-> Heq]; [|done..]. injection Hl as Hl.
  destruct (IH rows' r r') as [-> ->]; done.
Qed.

(** Equal but for the order of their rows. *)
Definition same_ledger (s s' : BudgetSnapshot) : Prop :=
  bs_version s = bs_version s' /\ bs_active_reservations s = bs_active_reservations s' /\
  bs_wal_high_watermark s = bs_wal_high_watermark s' /\ bs_tenants s ≡ₚ bs_tenants s'.

Lemma ledger_message_inj s s' : snapshot_typed s -> snapshot_typed s' ->
  ledger_message s = ledger_message s' -> same_ledger s s'.
Proof.
  intros (?&?&?&Hr&Hw) (?&?&?&Hr'&Hw'). unfold ledger_message. intros Heq.
  apply app_inv_head in Heq. split_fields Heq. field_inj.
  apply update_ledgers_inj in Heq as [Hs Hm].
  - split_and!; [done|done| |by rewrite <- (sort_ledgers_perm (bs_tenants s)), Hs, sort_ledgers_perm].
    destruct (bs_wal_high_watermark s) as [w|], (bs_wal_high_watermark s') as [w'|]; try done.
    apply app_inv_head in Hm. apply (le_bytes_inj_u 8) in Hm; [by subst|by apply Hw|by apply Hw'].
  - rewrite !sort_ledgers_perm. lia.
  - by rewrite sort_ledgers_perm.
  - by rewrite sort_ledgers_perm.
Qed.

Lemma ledger_message_same s s' : NoDup (map tl_tenant_id (bs_tenants s)) -> same_ledger s s' ->
  ledger_message s = ledger_message s'.
Proof.
  intros Hnd (Hv & Ha & Hw & Hp). unfold ledger_message.
  by rewrite Hv, Ha, Hw, (sort_ledgers_unique _ _ Hnd Hp), Hp.
Qed.

(** ** Totals are sums *)

Definition total (f : TenantLedger -> Z) (rows : list TenantLedger) : Z := foldr (fun l a => f l + a) 0 rows.

Definition representable (rows : list TenantLedger) : bool :=
  in_i 64 (total tl_initial_microcents rows) && in_i 64 (total tl_committed_microcents rows).

Lemma totals_loop_exact rows : forall i c,
  Forall (fun l => 0 <= tl_initial_microcents l <= imax 64 /\ 0 <= tl_committed_microcents l <= imax 64) rows ->
  0 <= i -> 0 <= c -> i + Z.of_nat (length rows) * imax 64 <= imax 128 ->
  c + Z.of_nat (length rows) * imax 64 <= imax 128 ->
  totals_loop i c rows = Ok (i + total tl_initial_microcents rows, c + total tl_committed_microcents rows).
Proof.
  induction rows as [|l rows IH]; intros i c HF Hi Hc Hbi Hbc.
  { cbn. by rewrite !Z.add_0_r. }
  apply list.Forall_cons in HF as [[H1 H2] HF]. cbn [totals_loop length] in *.
  assert (0 <= Z.of_nat (length rows) * imax 64) by (apply Z.mul_nonneg_nonneg; [lia|by_compute]).
  rewrite Nat2Z.inj_succ, Z.mul_succ_l in *.
  rewrite !checked_i_small by (unfold is_i; pose proof (eq_refl (imin 128)); unfold imin; lia).
  cbn [ok_or mbind result_bind]. rewrite IH by (done || lia). cbn [total foldr]. f_equal. f_equal; unfold total; lia.
Qed.

(** The rows of a snapshot of a sound engine. *)
Definition row_sound (l : TenantLedger) : Prop :=
  0 <= tl_remaining_microcents l /\ 0 <= tl_reserved_microcents l /\ 0 <= tl_committed_microcents l /\
  tl_remaining_microcents l + tl_reserved_microcents l + tl_committed_microcents l = tl_initial_microcents l /\
  tl_initial_microcents l <= imax 64.

Lemma snapshot_rows_sound e : engine_inv e -> Forall row_sound (snapshot_rows e).
Proof.
  intros Hinv. apply list.Forall_forall. intros l (t & b & Hb & ->)%snapshot_rows_elem.
  destruct (tenant_ledger e t b Hinv Hb) as (v & c & n & Ev & Ec & En & ? & ? & ? & ? & ? & ?).
  unfold row_sound, ledger_row; simpl. rewrite Ev, Ec, En. simpl. lia.
Qed.

Lemma snapshot_totals_exact s : Forall row_sound (bs_tenants s) ->
  Z.of_nat (length (bs_tenants s)) <= umax 63 ->
  snapshot_totals s =
    if representable (bs_tenants s)
    then Ok (total tl_initial_microcents (bs_tenants s), total tl_committed_microcents (bs_tenants s))
    else Err AggregateOverflow.
Proof.
  intros Hb Hlen. assert (Z.of_nat (length (bs_tenants s)) * imax 64 <= imax 128).
  { transitivity (umax 63 * imax 64); [|by_compute]. apply Z.mul_le_mono_nonneg_r; [by_compute|done]. }
  unfold snapshot_totals. rewrite totals_loop_exact by (first [lia|eapply List.Forall_impl; [|exact Hb];
    intros l (? & ? & ? & ? & ?); lia]).
  cbn [mbind result_bind]. rewrite !Z.add_0_l. unfold representable, checked_i.
  destruct (in_i 64 (total tl_initial_microcents _)), (in_i 64 (total tl_committed_microcents _)); done.
Qed.

Lemma total_committed_le rows : Forall row_sound rows ->
  0 <= total tl_committed_microcents rows <= total tl_initial_microcents rows.
Proof.
  induction 1 as [|l rows (? & ? & ? & ? & ?) _ IH]; cbn; [lia|]. fold (total tl_committed_microcents rows).
  fold (total tl_initial_microcents rows). lia.
Qed.

Section claims.
Context {HF : HashFunctions}.

(** The ledger digest binds the ledger. Two snapshots with distinct
    tenants in each have the same digest exactly when they agree on version,
    open reservations, log watermark and every tenant's row, in whatever order
    the rows are listed, as long as SHA-256 does not collide on the two
    messages. *)
Theorem ledger_digest_binds s s' :
  snapshot_typed s -> snapshot_typed s' -> NoDup (map tl_tenant_id (bs_tenants s)) ->
  collision_free sha256 [ledger_message s; ledger_message s'] ->
  ledger_digest s = ledger_digest s' <-> same_ledger s s'.
Proof.
  intros Hs Hs' Hnd Hc. split.
  - intros E. apply ledger_message_inj; [done|done|]. apply Hc; [by left|by right; left|done].
  - intros H. unfold ledger_digest. f_equal. by apply ledger_message_same.
Qed.

(** Certificates are truthful. A certificate issued from any
    reachable engine carries the digest of the engine's snapshot and its exact
    totals, claims conservation exactly when both totals fit in 64 bits, and
    reports as new spend the amount by which the total committed exceeds the
    last certified total; when the totals do not fit it says so and reports
    zero. The conservation proof succeeds in the same cases with the same
    numbers. *)
Theorem certificate_truthful e :
  reachable e -> be_next_id e < RECOVERY_ALLOCATOR_MASK -> 0 <= be_last_certified_committed_total e ->
  Z.of_nat (size (be_tenant_budgets e)) <= umax 63 ->
  exists snapshot cert proof e1 e2,
    fst (try_snapshot e) = Ok snapshot /\ bs_tenants snapshot = snapshot_rows e /\
    certify_ledger e = Some (cert, e1) /\ prove_conservation e = Some (proof, e2) /\
    let rows := snapshot_rows e in
    let initial := total tl_initial_microcents rows in
    let committed := total tl_committed_microcents rows in
    let fits := representable rows in
    fc_ledger_digest_hex cert = digest_to_hex (ledger_digest snapshot) /\
    fc_conservation_balanced cert = fits /\ fc_aggregate_totals_representable cert = fits /\
    fc_total_initial_microcents cert = (if fits then initial else 0) /\
    fc_total_committed_microcents cert = (if fits then committed else 0) /\
    fc_committed_since_last_certificate cert =
      (if fits then Z.max 0 (committed - be_last_certified_committed_total e) else 0) /\
    proof = (if fits
             then Ok (mkConservationProof (digest_to_hex (ledger_digest snapshot)) (bs_version snapshot)
                        (Z.of_nat (length rows)) (bs_active_reservations snapshot) initial committed true)
             else Err AggregateOverflow).
Proof.
  intros He Hid Hbase Hsize. pose proof (reachable_inv e He) as Hinv.
  unfold certify_ledger, prove_conservation. rewrite try_snapshot_exact by done.
  destruct (Z.leb_spec RECOVERY_ALLOCATOR_MASK (be_next_id e)); [lia|]. fold (snapshot_rows e).
  set (snap := mkBudgetSnapshot _ _ _ _). cbn [fst].
  pose proof (snapshot_rows_sound e Hinv) as Hsound.
  assert (Z.of_nat (length (snapshot_rows e)) <= umax 63) as Hlen.
  { unfold snapshot_rows. rewrite merge_sort_Permutation, length_map. rewrite length_map_to_list. done. }
  assert (snapshot_totals snap = if representable (snapshot_rows e)
    then Ok (total tl_initial_microcents (snapshot_rows e), total tl_committed_microcents (snapshot_rows e))
    else Err AggregateOverflow) as Ht by (by apply (snapshot_totals_exact snap)).
  assert (conservation_status_for_snapshot snap = Balanced) as Hbal.
  { apply conservation_rows_balanced. by apply snapshot_rows_balanced. }
  unfold certify_snapshot. rewrite Ht, Hbal.
  set (e' := set_snapshot_version _ _).
  assert (be_last_certified_committed_total e' = be_last_certified_committed_total e) as Eb by (unfold e'; by destruct e).
  destruct (representable (snapshot_rows e)) eqn:Er; cbn [is_ok is_balanced andb mbind result_bind].
  2:{ by exists snap; do 4 eexists; split_and!. }
  unfold rotate_certificate_baseline. rewrite Eb. destruct (total_committed_le _ Hsound) as [Hc0 Hc1].
  apply andb_true_iff in Er as [Hri%in_i_spec Hrc%in_i_spec].
  destruct (Z.leb_spec (total tl_committed_microcents (snapshot_rows e)) (be_last_certified_committed_total e)).
  - exists snap. do 4 eexists. split_and!; try done. cbn. lia.
  - exists snap. do 4 eexists. split_and!; try done. cbn [fc_committed_since_last_certificate fst].
    rewrite sub_i_exact by (unfold is_i, imin in *; lia). lia.
Qed.
End claims.

(** ** Concrete instances *)

Definition sample_engine : BudgetEngine := snd (run_all (take 4 sample_ops) BudgetEngine_new).

Lemma sample_engine_reachable : reachable sample_engine.
Proof. apply reachable_run_all; [by_compute|apply reach_new]. Qed.

Definition sample_snapshot : BudgetSnapshot :=
  mkBudgetSnapshot 5 [mkTenantLedger "b" 10 4 3 3; mkTenantLedger "a" 7 7 0 0] 1 (Some 9).
Definition reordered_snapshot : BudgetSnapshot :=
  mkBudgetSnapshot 5 [mkTenantLedger "a" 7 7 0 0; mkTenantLedger "b" 10 4 3 3] 1 (Some 9).

Lemma sample_snapshot_typed : snapshot_typed sample_snapshot /\ snapshot_typed reordered_snapshot.
Proof.
  unfold snapshot_typed. split; (split_and!; [by_compute|by_compute|by_compute|by_compute|]);
    intros w [= <-]; by_compute.
Qed.

Lemma ledger_digest_binds_witness :
  @ledger_digest toy_hash sample_snapshot = @ledger_digest toy_hash reordered_snapshot <->
  same_ledger sample_snapshot reordered_snapshot.
Proof.
  apply (@ledger_digest_binds toy_hash).
  - exact (proj1 sample_snapshot_typed).
  - exact (proj2 sample_snapshot_typed).
  - by_compute.
  - by_compute.
Defined.

Lemma certificate_truthful_witness :
  exists cert e1, @certify_ledger toy_hash sample_engine = Some (cert, e1) /\
    fc_conservation_balanced cert = representable (snapshot_rows sample_engine).
Proof.
  destruct (@certificate_truthful toy_hash sample_engine) as (s & cert & p & e1 & e2 & _ & _ & Hc & _ & _ & Hb & _).
  - exact sample_engine_reachable.
  - by_compute.
  - by_compute.
  - by_compute.
  - exists cert, e1. split; [exact Hc|exact Hb].
Defined.
