(* ===== verification/Merkle.v ===== *)
(** * Merkle trees ([src/merkle.rs])

    RFC 9162 trees over leaf hashes: roots, inclusion and consistency proofs,
    their iterative verifiers, and the cached tree. A [Hash] is a list of 32
    bytes. Sizes and indices are [u64] values in [Z]; the recursions on a
    tree of [n] leaves get [n] steps of fuel, which is enough because the
    split point lies strictly inside (see [root_of_eq] and its neighbours). *)

From Stdlib Require Import String.
From S2P Require Import Prelude Bytes.
#[local] Open Scope Z_scope.

Inductive MerkleError :=
| IndexOutOfRange (index size : Z)
| BadSizes (old new : Z)
| BadProofLength
| RootMismatch
| BadEntryHash.

Definition Hash := list Z.

(** ** Split points *)

Definition leading_zeros_64 (z : Z) : Z := if z =? 0 then 64 else 63 - Z.log2 z.

Definition split (n : Z) : Z := Z.shiftl 1 (63 - leading_zeros_64 (n - 1)).

Definition is_power_of_two (n : Z) : bool := (0 <? n) && (Z.land n (n - 1) =? 0).

Fixpoint trailing_zeros_pos (p : positive) : Z :=
  match p with xO p' => 1 + trailing_zeros_pos p' | _ => 0 end.
Definition trailing_zeros (n : Z) : Z :=
  match n with Zpos p => trailing_zeros_pos p | _ => 64 end.

Definition size_of (d : list Hash) : Z := Z.of_nat (length d).
Definition upto (k : Z) (d : list Hash) : list Hash := take (Z.to_nat k) d.
Definition from (k : Z) (d : list Hash) : list Hash := drop (Z.to_nat k) d.

Section merkle.
Context {HF : HashFunctions}.

(** ** Hashes *)

Definition LEAF_PREFIX : Z := 0.
Definition NODE_PREFIX : Z := 1.
Definition TREE_HEAD_TAG : list Z := string_bytes "calymth1".

Definition leaf_hash (data : list Z) : Hash := sha256 (LEAF_PREFIX :: data).

Definition node_message (l r : Hash) : list Z := NODE_PREFIX :: l ++ r.
Definition node_hash (l r : Hash) : Hash := sha256 (node_message l r).

(** ** Roots *)

Fixpoint root_of_fuel (fuel : nat) (leaf_hashes : list Hash) : Hash :=
  match leaf_hashes with
  | [] => sha256 []
  | [h] => h
  | _ =>
      match fuel with
      | O => sha256 []
      | S fuel' =>
          let k := split (size_of leaf_hashes) in
          node_hash (root_of_fuel fuel' (upto k leaf_hashes)) (root_of_fuel fuel' (from k leaf_hashes))
      end
  end.
Definition root_of (leaf_hashes : list Hash) : Hash :=
  root_of_fuel (length leaf_hashes) leaf_hashes.

Record TreeHead := mkTreeHead { th_size : Z; th_root : Hash }.

Definition TreeHead_of (leaves : list (list Z)) : TreeHead :=
  let hashed := map leaf_hash leaves in
  {| th_size := size_of hashed; th_root := root_of hashed |}.

Definition TreeHead_digest (head : TreeHead) : Hash :=
  sha256 (TREE_HEAD_TAG ++ be_bytes 8 (th_size head) ++ th_root head).

(** ** WAL entry hashes as leaf data *)

Definition nibble (c : Z) : result MerkleError Z :=
  if (48 <=? c) && (c <=? 57) then Ok (c - 48)
  else if (97 <=? c) && (c <=? 102) then Ok (c - 97 + 10)
  else Err BadEntryHash.

Fixpoint leaf_pairs (bytes : list Z) : result MerkleError (list Z) :=
  match bytes with
  | h :: l :: rest =>
      hi ← nibble h; lo ← nibble l; out ← leaf_pairs rest;
      Ok (Z.lor (Z.shiftl hi 4) lo :: out)
  | _ => Ok []
  end.

Definition leaf_from_entry_hash (entry_hash : string) : result MerkleError Hash :=
  let bytes := string_bytes entry_hash in
  if negb (Z.of_nat (length bytes) =? 64) then Err BadEntryHash else leaf_pairs bytes.

(** ** Inclusion *)

Fixpoint path_fuel (fuel : nat) (m : Z) (d : list Hash) : list Hash :=
  if size_of d <=? 1 then []
  else
    match fuel with
    | O => []
    | S fuel' =>
        let k := split (size_of d) in
        if m <? k then path_fuel fuel' m (upto k d) ++ [root_of (from k d)]
        else path_fuel fuel' (m - k) (from k d) ++ [root_of (upto k d)]
    end.
Definition path (m : Z) (d : list Hash) : list Hash := path_fuel (length d) m d.

Definition inclusion_proof (leaf_hashes : list Hash) (index : Z) : result MerkleError (list Hash) :=
  let size := size_of leaf_hashes in
  if size <=? index then Err (IndexOutOfRange index size) else Ok (path index leaf_hashes).

(** The inner [go] of [all_inclusion_proofs], on a non-empty slice. *)
Fixpoint all_go (fuel : nat) (d : list Hash) : Hash * list (list Hash) :=
  match d with
  | [h] => (h, [[]])
  | _ =>
      match fuel with
      | O => (sha256 [], [])
      | S fuel' =>
          let k := split (size_of d) in
          let '(left_root, lefts) := all_go fuel' (upto k d) in
          let '(right_root, rights) := all_go fuel' (from k d) in
          (node_hash left_root right_root,
           map (fun p => p ++ [right_root]) lefts ++ map (fun p => p ++ [left_root]) rights)
      end
  end.

Definition all_inclusion_proofs (leaf_hashes : list Hash) : list (list Hash) :=
  match leaf_hashes with [] => [] | _ => snd (all_go (length leaf_hashes) leaf_hashes) end.

(** [while f_n & 1 == 0 && f_n != 0 { f_n >>= 1; s_n >>= 1; }]; 64 steps for
    a [u64]. *)
Fixpoint strip_zeros (fuel : nat) (f_n s_n : Z) : Z * Z :=
  match fuel with
  | O => (f_n, s_n)
  | S fuel' =>
      if (Z.land f_n 1 =? 0) && negb (f_n =? 0)
      then strip_zeros fuel' (Z.shiftr f_n 1) (Z.shiftr s_n 1) else (f_n, s_n)
  end.

(** The counters after one proof element that combined on the left. *)
Definition after_left (f_n s_n : Z) : Z * Z :=
  let '(f_n, s_n) := if Z.land f_n 1 =? 0 then strip_zeros 64 f_n s_n else (f_n, s_n) in
  (Z.shiftr f_n 1, Z.shiftr s_n 1).

(** The loop over the proof, with the final length check. *)
Fixpoint inclusion_loop (proof : list Hash) (f_n s_n : Z) (r : Hash) : result MerkleError Hash :=
  match proof with
  | [] => if negb (s_n =? 0) then Err BadProofLength else Ok r
  | p :: rest =>
      if s_n =? 0 then Err BadProofLength
      else if (Z.land f_n 1 =? 1) || (f_n =? s_n) then
        let '(f_n', s_n') := after_left f_n s_n in
        inclusion_loop rest f_n' s_n' (node_hash p r)
      else inclusion_loop rest (Z.shiftr f_n 1) (Z.shiftr s_n 1) (node_hash r p)
  end.

Definition verify_inclusion (head : TreeHead) (index : Z) (leaf : Hash) (proof : list Hash)
    : result MerkleError unit :=
  if th_size head <=? index then Err (IndexOutOfRange index (th_size head))
  else
    r ← inclusion_loop proof index (th_size head - 1) leaf;
    if bool_decide (r = th_root head) then Ok tt else Err RootMismatch.

(** ** Consistency *)

Fixpoint subproof_fuel (fuel : nat) (m : Z) (d : list Hash) (b : bool) : list Hash :=
  let n := size_of d in
  if m =? n then (if b then [] else [root_of d])
  else
    match fuel with
    | O => []
    | S fuel' =>
        let k := split n in
        if m <=? k then subproof_fuel fuel' m (upto k d) b ++ [root_of (from k d)]
        else subproof_fuel fuel' (m - k) (from k d) false ++ [root_of (upto k d)]
    end.
Definition subproof (m : Z) (d : list Hash) (b : bool) : list Hash :=
  subproof_fuel (length d) m d b.

Definition consistency_proof (leaf_hashes : list Hash) (old_size : Z) : result MerkleError (list Hash) :=
  let new_size := size_of leaf_hashes in
  if (old_size =? 0) || (new_size <? old_size) then Err (BadSizes old_size new_size)
  else Ok (subproof old_size leaf_hashes true).

(** [while f_n & 1 == 1 { f_n >>= 1; s_n >>= 1; }] *)
Fixpoint strip_ones (fuel : nat) (f_n s_n : Z) : Z * Z :=
  match fuel with
  | O => (f_n, s_n)
  | S fuel' =>
      if Z.land f_n 1 =? 1 then strip_ones fuel' (Z.shiftr f_n 1) (Z.shiftr s_n 1) else (f_n, s_n)
  end.

Fixpoint consistency_loop (proof : list Hash) (f_n s_n : Z) (f_r s_r : Hash)
    : result MerkleError (Hash * Hash) :=
  match proof with
  | [] => if negb (s_n =? 0) then Err BadProofLength else Ok (f_r, s_r)
  | c :: rest =>
      if s_n =? 0 then Err BadProofLength
      else if (Z.land f_n 1 =? 1) || (f_n =? s_n) then
        let '(f_n', s_n') := after_left f_n s_n in
        consistency_loop rest f_n' s_n' (node_hash c f_r) (node_hash c s_r)
      else consistency_loop rest (Z.shiftr f_n 1) (Z.shiftr s_n 1) f_r (node_hash s_r c)
  end.

Definition verify_consistency (old new : TreeHead) (proof : list Hash) : result MerkleError unit :=
  if (th_size old =? 0) || (th_size new <? th_size old) then
    Err (BadSizes (th_size old) (th_size new))
  else if th_size old =? th_size new then
    if bool_decide (proof = []) && bool_decide (th_root old = th_root new) then Ok tt
    else if negb (bool_decide (proof = [])) then Err BadProofLength else Err RootMismatch
  else
    let proof := if is_power_of_two (th_size old) then th_root old :: proof else proof in
    let '(f_n, s_n) := strip_ones 64 (th_size old - 1) (th_size new - 1) in
    match proof with
    | [] => Err BadProofLength
    | first :: rest =>
        roots ← consistency_loop rest f_n s_n first first;
        if bool_decide (fst roots = th_root old) && bool_decide (snd roots = th_root new)
        then Ok tt else Err RootMismatch
    end.

(** ** The cached tree

    [levels !! k !! i] is the root of leaves [i * 2^k .. (i + 1) * 2^k].
    Indexing outside the cache, a panic in the source, is [None]. *)
Record MerkleTree := mkMerkleTree { mt_levels : list (list Hash) }.

Definition MerkleTree_new : MerkleTree := mkMerkleTree [].

Fixpoint push_levels (levels : list (list Hash)) (hash : Hash) : list (list Hash) :=
  match levels with
  | [] => [[hash]]
  | level :: above =>
      let level' := level ++ [hash] in
      let n := length level' in
      if Z.of_nat n mod 2 =? 1 then level' :: above
      else
        level' :: push_levels above
          (node_hash (nth (n - 2) level' []) (nth (n - 1) level' []))
  end.
Definition MerkleTree_push (leaf : Hash) (tree : MerkleTree) : MerkleTree :=
  mkMerkleTree (push_levels (mt_levels tree) leaf).

Definition from_leaf_hashes (leaf_hashes : list Hash) : MerkleTree :=
  fold_left (fun tree h => MerkleTree_push h tree) leaf_hashes MerkleTree_new.

Definition MerkleTree_len (tree : MerkleTree) : Z :=
  match mt_levels tree with [] => 0 | level :: _ => Z.of_nat (length level) end.
Definition MerkleTree_is_empty (tree : MerkleTree) : bool := MerkleTree_len tree =? 0.

Fixpoint subtree_fuel (fuel : nat) (tree : MerkleTree) (start len : Z) : option Hash :=
  if is_power_of_two len && (start mod len =? 0) then
    mt_levels tree !! Z.to_nat (trailing_zeros len) ≫= fun level => level !! Z.to_nat (start / len)
  else
    match fuel with
    | O => None
    | S fuel' =>
        let k := split len in
        l ← subtree_fuel fuel' tree start k;
        r ← subtree_fuel fuel' tree (start + k) (len - k);
        Some (node_hash l r)
    end.
Definition subtree (tree : MerkleTree) (start len : Z) : option Hash :=
  subtree_fuel (Z.to_nat len) tree start len.

Definition MerkleTree_head (tree : MerkleTree) (size : Z) : option (result MerkleError TreeHead) :=
  if MerkleTree_len tree <? size then Some (Err (BadSizes size (MerkleTree_len tree)))
  else
    root ← (if size =? 0 then Some (sha256 []) else subtree tree 0 size);
    Some (Ok {| th_size := size; th_root := root |}).

(** [path] and [subproof] push onto [out]; here they return what they push. *)
Fixpoint tree_path_fuel (fuel : nat) (tree : MerkleTree) (m start len : Z) : option (list Hash) :=
  if len <=? 1 then Some []
  else
    match fuel with
    | O => None
    | S fuel' =>
        let k := split len in
        if m <? k then
          out ← tree_path_fuel fuel' tree m start k;
          h ← subtree tree (start + k) (len - k);
          Some (out ++ [h])
        else
          out ← tree_path_fuel fuel' tree (m - k) (start + k) (len - k);
          h ← subtree tree start k;
          Some (out ++ [h])
    end.

Definition MerkleTree_inclusion_proof (tree : MerkleTree) (index size : Z)
    : option (result MerkleError (list Hash)) :=
  if MerkleTree_len tree <? size then Some (Err (BadSizes size (MerkleTree_len tree)))
  else if size <=? index then Some (Err (IndexOutOfRange index size))
  else out ← tree_path_fuel (Z.to_nat size) tree index 0 size; Some (Ok out).

Fixpoint tree_subproof_fuel (fuel : nat) (tree : MerkleTree) (m start len : Z) (b : bool)
    : option (list Hash) :=
  if m =? len then
    if b then Some [] else h ← subtree tree start len; Some [h]
  else
    match fuel with
    | O => None
    | S fuel' =>
        let k := split len in
        if m <=? k then
          out ← tree_subproof_fuel fuel' tree m start k b;
          h ← subtree tree (start + k) (len - k);
          Some (out ++ [h])
        else
          out ← tree_subproof_fuel fuel' tree (m - k) (start + k) (len - k) false;
          h ← subtree tree start k;
          Some (out ++ [h])
    end.

Definition MerkleTree_consistency_proof (tree : MerkleTree) (old size : Z)
    : option (result MerkleError (list Hash)) :=
  if (MerkleTree_len tree <? size) || (old =? 0) || (size <? old) then Some (Err (BadSizes old size))
  else out ← tree_subproof_fuel (Z.to_nat size) tree old 0 size true; Some (Ok out).

End merkle.
