(* ===== verification/MerkleTrees.v ===== *)
(** * The tree recursions

    Split points, and the equations of the fuelled recursions: with the
    length of the list as fuel each of them unfolds like the code's. *)

From S2P Require Import Prelude Bytes Merkle.
#[local] Open Scope Z_scope.

(** ** Split points *)

Lemma split_spec n :
  1 < n -> exists j, 0 <= j /\ split n = 2 ^ j /\ 2 ^ j < n <= 2 ^ (j + 1).
Proof.
  intros Hn. unfold split, leading_zeros_64. destruct (Z.eqb_spec (n - 1) 0); [lia|].
  replace (63 - (63 - Z.log2 (n - 1))) with (Z.log2 (n - 1)) by lia.
  pose proof (Z.log2_spec (n - 1)) as H. pose proof (Z.log2_nonneg (n - 1)).
  exists (Z.log2 (n - 1)). rewrite Z.shiftl_1_l. unfold Z.succ in H. split_and!; try done; lia.
Qed.

Lemma pow_between i j n : 0 <= i -> 0 <= j -> 2 ^ i < n <= 2 ^ (i + 1) -> 2 ^ j < n <= 2 ^ (j + 1) -> i = j.
Proof.
  intros Hi Hj H1 H2.
  assert (i < j + 1) by (apply (Z.pow_lt_mono_r_iff 2); lia).
  assert (j < i + 1) by (apply (Z.pow_lt_mono_r_iff 2); lia). lia.
Qed.

Lemma split_unique j n : 0 <= j -> 2 ^ j < n <= 2 ^ (j + 1) -> split n = 2 ^ j.
Proof.
  intros Hj H. assert (1 < n) as Hn by (pose proof (Z.pow_pos_nonneg 2 j); lia).
  destruct (split_spec n Hn) as (i & Hi & -> & H'). by rewrite (pow_between i j n).
Qed.

Lemma split_pow2 j : 0 <= j -> split (2 ^ (j + 1)) = 2 ^ j.
Proof.
  intros Hj. apply split_unique; [done|]. rewrite Z.pow_add_r by lia.
  pose proof (Z.pow_pos_nonneg 2 j). lia.
Qed.

Lemma split_inside n : 1 < n -> 0 < split n < n.
Proof.
  intros Hn. destruct (split_spec n Hn) as (j & Hj & -> & H). pose proof (Z.pow_pos_nonneg 2 j). lia.
Qed.

(** Prefixes share the split point of the tree they reach into. *)
Lemma split_prefix m n : 1 < n -> split n < m <= n -> split m = split n.
Proof.
  intros Hn Hm. destruct (split_spec n Hn) as (j & Hj & E & H). rewrite E in *.
  apply split_unique; [done|lia].
Qed.

Lemma size_upto k d : 0 <= k <= size_of d -> size_of (upto k d) = k.
Proof. intros. unfold size_of, upto in *. rewrite length_take. lia. Qed.

Lemma size_from k d : 0 <= k <= size_of d -> size_of (from k d) = size_of d - k.
Proof. intros. unfold size_of, from in *. rewrite length_drop. lia. Qed.

Lemma upto_from k d : upto k d ++ from k d = d.
Proof. apply take_drop. Qed.

Lemma upto_all k d : size_of d <= k -> upto k d = d.
Proof. intros. unfold upto, size_of in *. apply take_ge. lia. Qed.

Lemma size_nonneg d : 0 <= size_of d.
Proof. unfold size_of. lia. Qed.

Lemma length_upto_split d : 1 < size_of d -> (length (upto (split (size_of d)) d) < length d)%nat.
Proof.
  intros Hd. pose proof (split_inside _ Hd). pose proof (size_upto (split (size_of d)) d).
  unfold size_of in *. lia.
Qed.

Lemma length_from_split d : 1 < size_of d -> (length (from (split (size_of d)) d) < length d)%nat.
Proof.
  intros Hd. pose proof (split_inside _ Hd). pose proof (size_from (split (size_of d)) d).
  unfold size_of in *. lia.
Qed.

(** Induction along the splits. *)
Lemma split_ind (P : list Hash -> Prop) :
  (forall d, size_of d <= 1 -> P d) ->
  (forall d, 1 < size_of d -> P (upto (split (size_of d)) d) -> P (from (split (size_of d)) d) -> P d) ->
  forall d, P d.
Proof.
  intros Hbase Hstep d. remember (length d) as n eqn:E.
  revert d E. induction (lt_wf n) as [n _ IH]. intros d ->.
  destruct (Z.leb_spec (size_of d) 1); [by apply Hbase|].
  apply Hstep; [lia| |]; (eapply IH; [|done]); [by apply length_upto_split|by apply length_from_split].
Qed.

Section trees.
Context {HF : HashFunctions}.

(** ** Equations of the recursions *)

Lemma root_of_fuel_big d : 1 < size_of d -> forall f,
  root_of_fuel (S f) d =
    node_hash (root_of_fuel f (upto (split (size_of d)) d)) (root_of_fuel f (from (split (size_of d)) d)).
Proof. intros Hd f. destruct d as [|x [|y d]]; [done|done|reflexivity]. Qed.

Lemma root_of_fuel_enough f1 : forall f2 d,
  (length d <= f1)%nat -> (length d <= f2)%nat -> root_of_fuel f1 d = root_of_fuel f2 d.
Proof.
  induction f1 as [|f1 IH]; intros f2 d H1 H2.
  { destruct d; [by destruct f2|simpl in H1; lia]. }
  destruct (Z.leb_spec (size_of d) 1) as [Hs|Hs].
  { destruct d as [|x [|y d]]; [by destruct f2|by destruct f2|unfold size_of in Hs; simpl in Hs; lia]. }
  destruct f2 as [|f2]; [unfold size_of in Hs; lia|]. rewrite !root_of_fuel_big by done.
  pose proof (length_upto_split d Hs). pose proof (length_from_split d Hs).
  f_equal; apply IH; lia.
Qed.

Lemma root_of_eq d :
  1 < size_of d ->
  root_of d = node_hash (root_of (upto (split (size_of d)) d)) (root_of (from (split (size_of d)) d)).
Proof.
  intros Hd. unfold root_of at 1. rewrite (root_of_fuel_enough _ (S (length d))) by lia.
  rewrite root_of_fuel_big by done. pose proof (length_upto_split d Hd). pose proof (length_from_split d Hd).
  f_equal; apply root_of_fuel_enough; lia.
Qed.

Lemma root_of_one h : root_of [h] = h.
Proof. done. Qed.

Lemma path_fuel_enough f1 : forall f2 m d,
  (length d <= f1)%nat -> (length d <= f2)%nat -> path_fuel f1 m d = path_fuel f2 m d.
Proof.
  induction f1 as [|f1 IH]; intros f2 m d H1 H2.
  { destruct d; [by destruct f2|simpl in H1; lia]. }
  destruct f2 as [|f2]; [destruct d; [done|simpl in H2; lia]|].
  cbn [path_fuel]. destruct (Z.leb_spec (size_of d) 1) as [Hs|Hs]; [done|].
  pose proof (length_upto_split d Hs). pose proof (length_from_split d Hs). cbv zeta.
  rewrite !(IH f2) by lia. done.
Qed.

Lemma path_eq m d :
  path m d =
    if size_of d <=? 1 then []
    else
      let k := split (size_of d) in
      if m <? k then path m (upto k d) ++ [root_of (from k d)]
      else path (m - k) (from k d) ++ [root_of (upto k d)].
Proof.
  unfold path at 1. rewrite (path_fuel_enough _ (S (length d))) by lia. cbn [path_fuel].
  destruct (Z.leb_spec (size_of d) 1) as [Hs|Hs]; [done|]. cbv zeta.
  pose proof (length_upto_split d Hs). pose proof (length_from_split d Hs).
  unfold path. destruct (_ <? _); f_equal; apply path_fuel_enough; lia.
Qed.

Lemma subproof_fuel_enough f1 : forall f2 m d b,
  0 < m <= size_of d -> (length d <= f1)%nat -> (length d <= f2)%nat ->
  subproof_fuel f1 m d b = subproof_fuel f2 m d b.
Proof.
  induction f1 as [|f1 IH]; intros f2 m d b Hm H1 H2; [unfold size_of in *; lia|].
  destruct f2 as [|f2]; [unfold size_of in *; lia|]. cbn [subproof_fuel].
  destruct (Z.eqb_spec m (size_of d)) as [Hs|Hs]; [done|]. cbv zeta.
  assert (1 < size_of d) as Hd by lia. pose proof (split_inside _ Hd).
  pose proof (length_upto_split d Hd). pose proof (length_from_split d Hd).
  destruct (Z.leb_spec m (split (size_of d))).
  - rewrite (IH f2); [done|rewrite size_upto; lia|lia|lia].
  - rewrite (IH f2); [done|rewrite size_from; lia|lia|lia].
Qed.

Lemma subproof_eq m d b :
  0 < m <= size_of d ->
  subproof m d b =
    if m =? size_of d then (if b then [] else [root_of d])
    else
      let k := split (size_of d) in
      if m <=? k then subproof m (upto k d) b ++ [root_of (from k d)]
      else subproof (m - k) (from k d) false ++ [root_of (upto k d)].
Proof.
  intros Hm. unfold subproof at 1. rewrite (subproof_fuel_enough _ (S (length d))) by lia.
  cbn [subproof_fuel]. destruct (Z.eqb_spec m (size_of d)) as [Hs|Hs]; [done|]. cbv zeta.
  assert (1 < size_of d) as Hd by lia. pose proof (split_inside _ Hd).
  pose proof (length_upto_split d Hd). pose proof (length_from_split d Hd). unfold subproof.
  destruct (Z.leb_spec m (split (size_of d))); f_equal; apply subproof_fuel_enough; try lia.
  - rewrite size_upto; lia.
  - rewrite size_from; lia.
Qed.

(** ** All the proofs at once *)

Lemma all_go_fuel_big d f : 1 < size_of d ->
  all_go (S f) d =
    let k := split (size_of d) in
    let '(lr, l) := all_go f (upto k d) in
    let '(rr, r) := all_go f (from k d) in
    (node_hash lr rr, map (fun p => p ++ [rr]) l ++ map (fun p => p ++ [lr]) r).
Proof. intros Hd. destruct d as [|x [|y d]]; [done|done|reflexivity]. Qed.

(** [go] computes the root and the path of every leaf. *)
Lemma all_go_spec f : forall d, 0 < size_of d -> (length d <= f)%nat ->
  all_go f d = (root_of d, map (fun m => path m d) (seqZ 0 (size_of d))).
Proof.
  induction f as [|f IH]; intros d Hd Hf; [unfold size_of in *; lia|].
  destruct (Z.leb_spec (size_of d) 1) as [Hs|Hs].
  { destruct d as [|x [|y d]]; [unfold size_of in Hd; simpl in Hd; lia|reflexivity|].
    unfold size_of in Hs; simpl in Hs; lia. }
  rewrite all_go_fuel_big by done. cbv zeta. pose proof (split_inside _ Hs) as Hk.
  pose proof (length_upto_split d Hs). pose proof (length_from_split d Hs).
  pose proof (size_upto (split (size_of d)) d ltac:(lia)) as Eu.
  pose proof (size_from (split (size_of d)) d ltac:(lia)) as Ef.
  set (k := split (size_of d)) in *.
  rewrite !IH by lia. rewrite (root_of_eq d) by done. fold k. f_equal.
  rewrite Eu, Ef. rewrite !map_map.
  replace (size_of d) with (k + (size_of d - k)) by lia.
  rewrite seqZ_app, map_app by lia. f_equal.
  - apply map_ext_in. intros m Hm%list_elem_of_In%elem_of_seqZ. rewrite (path_eq m d). fold k.
    destruct (Z.leb_spec (size_of d) 1); [lia|]. cbv zeta. by destruct (Z.ltb_spec m k); [|lia].
  - replace (0 + k) with (k + 0) by lia. rewrite <- fmap_add_seqZ.
    match goal with |- context [Z.add k <$> ?l] => change (Z.add k <$> l) with (map (Z.add k) l) end.
    rewrite map_map. replace (k + (size_of d - k) - k) with (size_of d - k) by lia.
    apply map_ext_in. intros m Hm%list_elem_of_In%elem_of_seqZ. rewrite (path_eq (k + m) d). fold k.
    destruct (Z.leb_spec (size_of d) 1); [lia|]. cbv zeta. destruct (Z.ltb_spec (k + m) k); [lia|].
    by replace (k + m - k) with m by lia.
Qed.

End trees.
