(* ===== verification/MerkleLoops.v ===== *)
(** * The verifiers' loops follow the tree

    RFC 9162 verifies a proof bottom-up with two counters. Both loops of
    [src/merkle.rs] are instances of one walk; on a proof of the right length
    it combines exactly the hashes the recursive tree structure prescribes,
    and on any other length it reports [BadProofLength]. *)

From S2P Require Import Prelude Bytes Merkle MerkleTrees.
#[local] Open Scope Z_scope.

(** ** Bits *)

Lemma land_1 z : Z.land z 1 = z mod 2.
Proof. change 1 with (Z.ones 1). by rewrite Z.land_ones. Qed.

Lemma shiftr_1 z : Z.shiftr z 1 = z / 2.
Proof. by rewrite Z.shiftr_div_pow2. Qed.

Lemma land_1_even a : Z.land (2 * a) 1 = 0.
Proof. rewrite land_1, Z.mul_comm. by apply Z.mod_mul. Qed.

Lemma land_1_odd a : Z.land (2 * a + 1) 1 = 1.
Proof. rewrite land_1, Z.add_comm, Z.mul_comm, Z.mod_add by done. done. Qed.

Lemma half_even a : 2 * a / 2 = a.
Proof. rewrite Z.mul_comm. by apply Z.div_mul. Qed.

Lemma half_odd a : (2 * a + 1) / 2 = a.
Proof. rewrite Z.add_comm, Z.mul_comm, Z.div_add by done. done. Qed.

(** Stripping the zeros below an odd number. *)
Lemma strip_zeros_odd fuel m a s :
  (Z.to_nat m <= fuel)%nat -> 0 <= m ->
  strip_zeros fuel ((2 * a + 1) * 2 ^ m) (s * 2 ^ m) = (2 * a + 1, s).
Proof.
  intros Hf Hm. revert fuel Hf. pattern m. apply natlike_ind; [| |done]; clear m Hm.
  - intros fuel _. rewrite Z.pow_0_r, !Z.mul_1_r. destruct fuel; [done|]. cbn [strip_zeros].
    by rewrite land_1_odd.
  - intros m Hm IH fuel Hf. destruct fuel as [|fuel]; [lia|]. cbn [strip_zeros].
    rewrite Z.pow_succ_r by done.
    replace ((2 * a + 1) * (2 * 2 ^ m)) with (2 * ((2 * a + 1) * 2 ^ m)) by lia.
    replace (s * (2 * 2 ^ m)) with (2 * (s * 2 ^ m)) by lia.
    rewrite land_1_even, !shiftr_1, !half_even. pose proof (Z.pow_pos_nonneg 2 m).
    assert ((2 * a + 1) * 2 ^ m <> 0) by (apply Z.neq_mul_0; lia).
    destruct (Z.eqb_spec (2 * ((2 * a + 1) * 2 ^ m)) 0); [lia|]. simpl. apply IH. lia.
Qed.

(** Stripping the ones of a complete subtree's last index. *)
Lemma strip_ones_full fuel j a b t :
  (Z.to_nat j <= fuel)%nat -> 0 <= j -> 0 <= t < 2 ^ j ->
  strip_ones fuel (2 * a * 2 ^ j + (2 ^ j - 1)) (b * 2 ^ j + t) = (2 * a, b).
Proof.
  intros Hf Hj. revert fuel t Hf. pattern j. apply natlike_ind; [| |done]; clear j Hj.
  - intros fuel t _ Ht. replace t with 0 by lia. rewrite Z.pow_0_r, !Z.mul_1_r, !Z.add_0_r.
    destruct fuel; [done|]. cbn [strip_ones]. by rewrite land_1_even.
  - intros j Hj IH fuel t Hf Ht. destruct fuel as [|fuel]; [lia|]. cbn [strip_ones].
    rewrite Z.pow_succ_r in * by done. pose proof (Z.div_mod t 2). pose proof (Z.mod_pos_bound t 2).
    replace (2 * a * (2 * 2 ^ j) + (2 * 2 ^ j - 1)) with (2 * (2 * a * 2 ^ j + (2 ^ j - 1)) + 1) by lia.
    rewrite land_1_odd, !shiftr_1, half_odd. simpl.
    replace ((b * (2 * 2 ^ j) + t) / 2) with (b * 2 ^ j + t / 2).
    + apply IH; lia.
    + symmetry. replace (b * (2 * 2 ^ j) + t) with (t + (b * 2 ^ j) * 2) by lia.
      rewrite Z.div_add by lia. lia.
Qed.

(** ** The walk *)

Section walk.
Context {A : Type} (goL goR : Hash -> A -> A).

Fixpoint walk (proof : list Hash) (f_n s_n : Z) (acc : A) : result MerkleError A :=
  match proof with
  | [] => if negb (s_n =? 0) then Err BadProofLength else Ok acc
  | p :: rest =>
      if s_n =? 0 then Err BadProofLength
      else if (Z.land f_n 1 =? 1) || (f_n =? s_n) then
        let '(f_n', s_n') := after_left f_n s_n in walk rest f_n' s_n' (goL p acc)
      else walk rest (Z.shiftr f_n 1) (Z.shiftr s_n 1) (goR p acc)
  end.

Lemma walk_right a s x p acc :
  s <> 0 -> 2 * a <> s -> walk (x :: p) (2 * a) s acc = walk p a (s / 2) (goR x acc).
Proof.
  intros Hs Hn. cbn [walk]. rewrite (proj2 (Z.eqb_neq _ _) Hs), land_1_even.
  rewrite (proj2 (Z.eqb_neq _ _) Hn). simpl. by rewrite !shiftr_1, half_even.
Qed.

Lemma walk_odd a s x p acc :
  s <> 0 -> walk (x :: p) (2 * a + 1) s acc = walk p a (s / 2) (goL x acc).
Proof.
  intros Hs. cbn [walk]. rewrite (proj2 (Z.eqb_neq _ _) Hs). unfold after_left.
  rewrite land_1_odd. simpl. by rewrite !shiftr_1, half_odd.
Qed.

(** On the right edge both counters are equal. *)
Lemma walk_edge a m x p acc :
  0 <= a -> 0 <= m <= 64 ->
  walk (x :: p) ((2 * a + 1) * 2 ^ m) ((2 * a + 1) * 2 ^ m) acc = walk p a a (goL x acc).
Proof.
  intros Ha Hm. cbn [walk]. pose proof (Z.pow_pos_nonneg 2 m).
  destruct (Z.eqb_spec ((2 * a + 1) * 2 ^ m) 0); [nia|]. rewrite Z.eqb_refl, orb_true_r.
  unfold after_left. destruct (Z.land _ 1 =? 0) eqn:E.
  - rewrite strip_zeros_odd by lia. by rewrite shiftr_1, half_odd.
  - destruct (Z.eq_dec m 0) as [->|].
    + by rewrite Z.pow_0_r, Z.mul_1_r, shiftr_1, half_odd.
    + exfalso. replace m with (Z.succ (m - 1)) in E by lia. rewrite Z.pow_succ_r in E by lia.
      replace ((2 * a + 1) * (2 * 2 ^ (m - 1))) with (2 * ((2 * a + 1) * 2 ^ (m - 1))) in E by lia.
      by rewrite land_1_even in E.
Qed.

(** A walk that ends with a proof does not accept a longer one. *)
Lemma walk_longer p q : q <> [] -> forall f s acc r,
  walk p f s acc = Ok r -> forall acc', walk (p ++ q) f s acc' = Err BadProofLength.
Proof.
  intros Hq. induction p as [|x p IH]; intros f s acc r; simpl.
  - destruct (s =? 0) eqn:E; [|done]. intros _ acc'. destruct q as [|y q]; [done|].
    cbn [walk]. by rewrite E.
  - destruct (s =? 0); [done|]. destruct (_ || _).
    + destruct (after_left f s). intros H acc'. by eapply IH.
    + intros H acc'. by eapply IH.
Qed.

(** ** The recursive structure: the proof read from the root down *)

Fixpoint climb (i n : Z) (acc : A) (rp : list Hash) : A :=
  match rp with
  | [] => acc
  | x :: rp' =>
      let k := split n in
      if i <? k then goR x (climb i k acc rp') else goL x (climb (i - k) (n - k) acc rp')
  end.

Fixpoint fits (i n : Z) (rp : list Hash) : bool :=
  match rp with
  | [] => n =? 1
  | _ :: rp' =>
      (1 <? n) && (let k := split n in if i <? k then fits i k rp' else fits (i - k) (n - k) rp')
  end.

(** Inside a complete subtree of [2^j] leaves whose right neighbour exists. *)
Lemma walk_complete j : 0 <= j -> forall rp i a b t q acc,
  0 <= i < 2 ^ j -> fits i (2 ^ j) rp = true -> 0 <= a < b -> 0 <= t < 2 ^ j ->
  walk (rev rp ++ q) (a * 2 ^ j + i) (b * 2 ^ j + t) acc = walk q a b (climb i (2 ^ j) acc rp).
Proof.
  intros Hj. pattern j. apply natlike_ind; [| |done]; clear j Hj.
  - intros rp i a b t q acc Hi Hfit Hab Ht. change (2 ^ 0) with 1 in *.
    destruct rp as [|x rp]; [|done]. replace i with 0 by lia. replace t with 0 by lia.
    simpl. f_equal; lia.
  - intros j Hj IH rp i a b t q acc Hi Hfit Hab Ht.
    pose proof (split_pow2 j Hj) as Es. unfold Z.succ in *.
    assert (2 ^ (j + 1) = 2 * 2 ^ j) as Ep by (rewrite Z.pow_add_r by lia; lia).
    pose proof (Z.pow_pos_nonneg 2 j).
    destruct rp as [|x rp]; simpl in Hfit; [apply Z.eqb_eq in Hfit; lia|].
    apply andb_true_iff in Hfit as [_ Hfit]. rewrite Es in Hfit.
    cbn [climb rev]. rewrite Es, <- app_assoc. simpl app.
    assert (exists B t', b * 2 ^ (j + 1) + t = B * 2 ^ j + t' /\ 0 <= t' < 2 ^ j /\ 2 * b <= B <= 2 * b + 1)
      as (B & t' & -> & Ht' & HB).
    { destruct (Z.lt_ge_cases t (2 ^ j)); [exists (2 * b), t|exists (2 * b + 1), (t - 2 ^ j)]; lia. }
    assert (B / 2 = b) as EB by (symmetry; apply Z.div_unique with (B - 2 * b); lia).
    destruct (Z.ltb_spec i (2 ^ j)).
    + replace (a * 2 ^ (j + 1) + i) with ((2 * a) * 2 ^ j + i) by lia.
      rewrite IH by (done || lia). rewrite walk_right by lia. by rewrite EB.
    + replace (2 ^ (j + 1) - 2 ^ j) with (2 ^ j) in * by lia.
      replace (a * 2 ^ (j + 1) + i) with ((2 * a + 1) * 2 ^ j + (i - 2 ^ j)) by lia.
      rewrite IH by (done || lia). rewrite walk_odd by lia. by rewrite EB.
Qed.

Lemma split_below n j : 1 < n -> n <= 2 ^ j -> 0 <= j ->
  exists j', 0 <= j' < j /\ split n = 2 ^ j' /\ 2 ^ j' < n <= 2 * 2 ^ j'.
Proof.
  intros Hn Hj H0. destruct (split_spec n Hn) as (j' & Hj' & E & H). exists j'.
  rewrite Z.pow_add_r in H by lia. split; [|split; [done|lia]]. split; [done|].
  apply (Z.pow_lt_mono_r_iff 2); lia.
Qed.

(** Along the right edge: a tree of [n <= 2^j] leaves below position [c]. *)
Lemma walk_spine rp : forall i n j c q acc,
  0 <= i < n -> n <= 2 ^ j -> 0 <= j <= 64 -> 0 <= c -> fits i n rp = true ->
  exists l, 0 <= l <= j /\
    walk (rev rp ++ q) (c * 2 ^ j + i) (c * 2 ^ j + (n - 1)) acc =
      walk q (c * 2 ^ (j - l)) (c * 2 ^ (j - l)) (climb i n acc rp).
Proof.
  induction rp as [|x rp IH]; intros i n j c q acc Hi Hn Hj Hc Hfit; cbn [fits] in Hfit.
  - apply Z.eqb_eq in Hfit as ->. exists 0. split; [lia|]. replace i with 0 by lia.
    simpl. rewrite Z.sub_0_r. f_equal; lia.
  - apply andb_true_iff in Hfit as [H1%Z.ltb_lt Hfit].
    destruct (split_below n j H1 Hn) as (j' & Hj' & Es & Hk); [lia|].
    cbv zeta in Hfit. cbn [climb rev]. rewrite Es in *. rewrite <- app_assoc. simpl app.
    assert (2 ^ j = 2 * 2 ^ (j - j' - 1) * 2 ^ j') as Ep.
    { rewrite <- Z.pow_succ_r, <- Z.pow_add_r by lia. f_equal. lia. }
    pose proof (Z.pow_pos_nonneg 2 j'). pose proof (Z.pow_pos_nonneg 2 (j - j' - 1)).
    set (a := c * 2 ^ (j - j' - 1)). assert (c * 2 ^ j = (2 * a) * 2 ^ j') as Ea by (unfold a; lia).
    assert (0 <= a) by (unfold a; nia).
    exists (j' + 1). split; [lia|]. replace (j - (j' + 1)) with (j - j' - 1) by lia. fold a.
    destruct (Z.ltb_spec i (2 ^ j')).
    + replace (c * 2 ^ j + (n - 1)) with ((2 * a + 1) * 2 ^ j' + (n - 1 - 2 ^ j')) by lia. rewrite Ea.
      rewrite walk_complete by (done || lia). rewrite walk_right by lia. by rewrite half_odd.
    + replace (c * 2 ^ j + i) with ((2 * a + 1) * 2 ^ j' + (i - 2 ^ j')) by lia.
      replace (c * 2 ^ j + (n - 1)) with ((2 * a + 1) * 2 ^ j' + (n - 2 ^ j' - 1)) by lia.
      destruct (IH (i - 2 ^ j') (n - 2 ^ j') j' (2 * a + 1) (x :: q) acc) as (l & Hl & ->);
        [lia|lia|lia|lia|done|]. apply walk_edge; lia.
Qed.

(** The required length of a proof depends only on the position. *)
Lemma fits_length n : forall i, 0 <= i < n -> exists L, forall rp, fits i n rp = true <-> length rp = L.
Proof.
  assert (forall N n i, (Z.to_nat n <= N)%nat -> 0 <= i < n ->
    exists L, forall rp, fits i n rp = true <-> length rp = L) as H; [|by intros; eapply H].
  clear n. intros N. induction N as [|N IH]; intros n i HN Hi; [lia|].
  destruct (Z.eq_dec n 1) as [->|H1].
  { exists 0%nat. intros [|x rp]; simpl; [done|]. lia. }
  pose proof (split_inside n ltac:(lia)) as Hk.
  assert (exists L, forall rp, (if i <? split n then fits i (split n) rp
    else fits (i - split n) (n - split n) rp) = true <-> length rp = L) as (L & HL).
  { destruct (Z.ltb_spec i (split n)); apply IH; lia. }
  exists (S L). intros [|x rp]; cbn [fits length].
  - rewrite Z.eqb_eq. lia.
  - destruct (Z.ltb_spec 1 n); [|lia]. cbn [andb]. cbv zeta. rewrite HL. lia.
Qed.

(** A walk whose accepted proofs have one length reports every other length. *)
Lemma walk_decided f s acc (fit : list Hash -> bool) (res : list Hash -> A) L :
  (forall rp, fit rp = true <-> length rp = L) ->
  (forall rp q, fit rp = true -> walk (rev rp ++ q) f s acc = walk q 0 0 (res rp)) ->
  forall p, walk p f s acc = if fit (rev p) then Ok (res (rev p)) else Err BadProofLength.
Proof.
  intros HL Hw p. destruct (fit (rev p)) eqn:E.
  { specialize (Hw (rev p) [] E). by rewrite rev_involutive, app_nil_r in Hw. }
  assert (length p <> L) as Hne by (rewrite <- length_rev; intros ?%HL; congruence).
  destruct (Nat.lt_ge_cases (length p) L) as [Hlt|Hge].
  - set (q := replicate (L - length p) ([] : Hash)). assert (q <> []) as Hq.
    { unfold q. destruct (L - length p)%nat eqn:?; [lia|done]. }
    assert (fit (rev (p ++ q)) = true) as Hf.
    { apply HL. unfold q. rewrite length_rev, length_app, length_replicate. lia. }
    specialize (Hw _ [] Hf). rewrite rev_involutive, app_nil_r in Hw.
    destruct (walk p f s acc) as [r|e] eqn:Ew.
    + rewrite (walk_longer p q Hq _ _ _ _ Ew acc) in Hw. simpl in Hw. done.
    + f_equal. clear -Ew. revert f s acc Ew.
      induction p as [|x p IH]; intros f s a; simpl; repeat case_match; try congruence; apply IH.
  - assert (fit (rev (take L p)) = true) as Hf.
    { apply HL. rewrite length_rev, length_take. lia. }
    specialize (Hw _ (drop L p) Hf). rewrite rev_involutive, take_drop in Hw. rewrite Hw.
    destruct (drop L p) as [|y q] eqn:Ed; [|done].
    apply (f_equal length) in Ed. rewrite length_drop in Ed. simpl in Ed. lia.
Qed.

(** From the counters [(i, n - 1)] the walk accepts exactly the proofs that fit. *)
Lemma walk_exact i n p acc :
  0 <= i < n -> n <= 2 ^ 64 ->
  walk p i (n - 1) acc = if fits i n (rev p) then Ok (climb i n acc (rev p)) else Err BadProofLength.
Proof.
  intros Hi Hn. destruct (fits_length n i Hi) as (L & HL).
  apply (walk_decided _ _ _ (fits i n) (climb i n acc) L HL).
  intros rp q Hfit. destruct (walk_spine rp i n 64 0 q acc) as (l & _ & E); done.
Qed.

(** ** The consistency walk

    It starts above the largest complete subtree that ends at leaf [m]. *)

Fixpoint cfits (m n : Z) (rp : list Hash) : bool :=
  match rp with
  | [] => m =? n
  | _ :: rp' =>
      (m <? n) && (let k := split n in if m <=? k then cfits m k rp' else cfits (m - k) (n - k) rp')
  end.

(** The walk from the stripped counters. *)
Definition cwalk (proof : list Hash) (f0 s0 : Z) (acc : A) : result MerkleError A :=
  walk proof (fst (strip_ones 64 f0 s0)) (snd (strip_ones 64 f0 s0)) acc.

Lemma cwalk_complete j : 0 <= j -> forall rp m a b t q acc,
  1 <= m <= 2 ^ j -> j <= 64 -> cfits m (2 ^ j) rp = true -> 0 <= a < b -> 0 <= t < 2 ^ j ->
  m < 2 ^ j \/ a mod 2 = 0 ->
  cwalk (rev rp ++ q) (a * 2 ^ j + (m - 1)) (b * 2 ^ j + t) acc =
    walk q a b (climb (m - 1) (2 ^ j) acc rp).
Proof.
  intros Hj. pattern j. apply natlike_ind; [| |done]; clear j Hj.
  - intros rp m a b t q acc Hm Hj Hfit Hab Ht Ha. change (2 ^ 0) with 1 in *.
    destruct rp as [|x rp]; [|simpl in Hfit; lia]. unfold cwalk.
    assert (a = 2 * (a / 2)) as Ea by (pose proof (Z.div_mod a 2); lia).
    pose proof (strip_ones_full 64 0 (a / 2) b t) as E. rewrite <- Ea in E.
    change (2 ^ 0) with 1 in E. replace (m - 1) with (1 - 1) by lia. rewrite E by lia. done.
  - intros j Hj IH rp m a b t q acc Hm Hj64 Hfit Hab Ht Ha.
    pose proof (split_pow2 j Hj) as Es. unfold Z.succ in *.
    assert (2 ^ (j + 1) = 2 * 2 ^ j) as Ep by (rewrite Z.pow_add_r by lia; lia).
    pose proof (Z.pow_pos_nonneg 2 j).
    destruct rp as [|x rp]; cbn [cfits] in Hfit.
    { apply Z.eqb_eq in Hfit as ->. unfold cwalk.
      assert (a = 2 * (a / 2)) as Ea by (pose proof (Z.div_mod a 2); lia).
      pose proof (strip_ones_full 64 (j + 1) (a / 2) b t) as E. rewrite <- Ea in E.
      rewrite E by lia. done. }
    apply andb_true_iff in Hfit as [Hlt%Z.ltb_lt Hfit]. rewrite Es in Hfit. cbv zeta in Hfit.
    cbn [climb rev]. rewrite Es, <- app_assoc. simpl app.
    assert (exists B t', b * 2 ^ (j + 1) + t = B * 2 ^ j + t' /\ 0 <= t' < 2 ^ j /\ 2 * b <= B <= 2 * b + 1)
      as (B & t' & -> & Ht' & HB).
    { destruct (Z.lt_ge_cases t (2 ^ j)); [exists (2 * b), t|exists (2 * b + 1), (t - 2 ^ j)]; lia. }
    assert (B / 2 = b) as EB by (symmetry; apply Z.div_unique with (B - 2 * b); lia).
    destruct (Z.leb_spec m (2 ^ j)).
    + destruct (Z.ltb_spec (m - 1) (2 ^ j)); [|lia].
      replace (a * 2 ^ (j + 1) + (m - 1)) with ((2 * a) * 2 ^ j + (m - 1)) by lia.
      rewrite IH; try (done || lia); [|right; rewrite Z.mul_comm; by apply Z.mod_mul].
      rewrite walk_right by lia. by rewrite EB.
    + destruct (Z.ltb_spec (m - 1) (2 ^ j)); [lia|].
      replace (2 ^ (j + 1) - 2 ^ j) with (2 ^ j) in * by lia.
      replace (a * 2 ^ (j + 1) + (m - 1)) with ((2 * a + 1) * 2 ^ j + ((m - 2 ^ j) - 1)) by lia.
      rewrite IH by (done || lia). rewrite walk_odd by lia. rewrite EB. do 3 f_equal. lia.
Qed.

Lemma cwalk_spine rp : forall m n j c q acc,
  1 <= m < n -> n <= 2 ^ j -> 0 <= j <= 64 -> 0 <= c -> cfits m n rp = true ->
  exists l, 0 <= l <= j /\
    cwalk (rev rp ++ q) (c * 2 ^ j + (m - 1)) (c * 2 ^ j + (n - 1)) acc =
      walk q (c * 2 ^ (j - l)) (c * 2 ^ (j - l)) (climb (m - 1) n acc rp).
Proof.
  induction rp as [|x rp IH]; intros m n j c q acc Hm Hn Hj Hc Hfit; cbn [cfits] in Hfit; [lia|].
  apply andb_true_iff in Hfit as [_ Hfit].
  destruct (split_below n j ltac:(lia) Hn) as (j' & Hj' & Es & Hk); [lia|].
  cbv zeta in Hfit. cbn [climb rev]. rewrite Es in *. rewrite <- app_assoc. simpl app.
  assert (2 ^ j = 2 * 2 ^ (j - j' - 1) * 2 ^ j') as Ep.
  { rewrite <- Z.pow_succ_r, <- Z.pow_add_r by lia. f_equal. lia. }
  pose proof (Z.pow_pos_nonneg 2 j'). pose proof (Z.pow_pos_nonneg 2 (j - j' - 1)).
  set (a := c * 2 ^ (j - j' - 1)). assert (c * 2 ^ j = (2 * a) * 2 ^ j') as Ea by (unfold a; lia).
  assert (0 <= a) by (unfold a; nia).
  exists (j' + 1). split; [lia|]. replace (j - (j' + 1)) with (j - j' - 1) by lia. fold a.
  destruct (Z.leb_spec m (2 ^ j')).
  - destruct (Z.ltb_spec (m - 1) (2 ^ j')); [|lia].
    replace (c * 2 ^ j + (n - 1)) with ((2 * a + 1) * 2 ^ j' + (n - 1 - 2 ^ j')) by lia. rewrite Ea.
    rewrite cwalk_complete; try (done || lia); [|right; rewrite Z.mul_comm; by apply Z.mod_mul].
    rewrite walk_right by lia. by rewrite half_odd.
  - destruct (Z.ltb_spec (m - 1) (2 ^ j')); [lia|].
    replace (c * 2 ^ j + (m - 1)) with ((2 * a + 1) * 2 ^ j' + (m - 2 ^ j' - 1)) by lia.
    replace (c * 2 ^ j + (n - 1)) with ((2 * a + 1) * 2 ^ j' + (n - 2 ^ j' - 1)) by lia.
    destruct (IH (m - 2 ^ j') (n - 2 ^ j') j' (2 * a + 1) (x :: q) acc) as (l & Hl & ->);
      [lia|lia|lia|lia|done|]. rewrite walk_edge by lia. do 3 f_equal. lia.
Qed.

Lemma cfits_length n : forall m, 1 <= m <= n -> exists L, forall rp, cfits m n rp = true <-> length rp = L.
Proof.
  assert (forall N n m, (Z.to_nat n <= N)%nat -> 1 <= m <= n ->
    exists L, forall rp, cfits m n rp = true <-> length rp = L) as H; [|by intros; eapply H].
  clear n. intros N. induction N as [|N IH]; intros n m HN Hm; [lia|].
  destruct (Z.eq_dec m n) as [->|H1].
  { exists 0%nat. intros [|x rp]; cbn [cfits length]; [by rewrite Z.eqb_refl|]. rewrite Z.ltb_irrefl. done. }
  pose proof (split_inside n ltac:(lia)) as Hk.
  assert (exists L, forall rp, (if m <=? split n then cfits m (split n) rp
    else cfits (m - split n) (n - split n) rp) = true <-> length rp = L) as (L & HL).
  { destruct (Z.leb_spec m (split n)); apply IH; lia. }
  exists (S L). intros [|x rp]; cbn [cfits length].
  - rewrite Z.eqb_eq. lia.
  - destruct (Z.ltb_spec m n); [|lia]. cbn [andb]. cbv zeta. rewrite HL. lia.
Qed.

Lemma cwalk_exact m n p acc :
  1 <= m < n -> n <= 2 ^ 64 ->
  cwalk p (m - 1) (n - 1) acc =
    if cfits m n (rev p) then Ok (climb (m - 1) n acc (rev p)) else Err BadProofLength.
Proof.
  intros Hm Hn. destruct (cfits_length n m ltac:(lia)) as (L & HL). unfold cwalk.
  apply (walk_decided _ _ _ (cfits m n) (climb (m - 1) n acc) L HL).
  intros rp q Hfit. destruct (cwalk_spine rp m n 64 0 q acc) as (l & _ & E); done.
Qed.

End walk.

(** ** The two loops are walks *)

Section instances.
Context {HF : HashFunctions}.

Definition inclL (p r : Hash) : Hash := node_hash p r.
Definition inclR (p r : Hash) : Hash := node_hash r p.

Lemma inclusion_loop_walk p : forall f s r, inclusion_loop p f s r = walk inclL inclR p f s r.
Proof.
  induction p as [|x p IH]; intros f s r; [done|]. cbn [inclusion_loop walk].
  destruct (s =? 0); [done|]. destruct (_ || _); [destruct (after_left f s)|]; apply IH.
Qed.

Definition consL (c : Hash) (r : Hash * Hash) : Hash * Hash := (node_hash c (fst r), node_hash c (snd r)).
Definition consR (c : Hash) (r : Hash * Hash) : Hash * Hash := (fst r, node_hash (snd r) c).

Lemma consistency_loop_walk p : forall f s r,
  consistency_loop p f s (fst r) (snd r) = walk consL consR p f s r.
Proof.
  induction p as [|x p IH]; intros f s [a b]; [done|]. cbn [consistency_loop walk].
  destruct (s =? 0); [done|]. destruct (_ || _); [destruct (after_left f s)|];
    [apply (IH _ _ (consL x (a, b)))|apply (IH _ _ (consR x (a, b)))].
Qed.

End instances.
