(* ===== verification/MerkleProps.v ===== *)
(** * Merkle proofs are complete and sound

    Proofs built from a tree verify against its head; under collision
    freedom of the node messages actually hashed, nothing else does. *)

From Stdlib Require Import String.
From S2P Require Import Prelude Bytes Merkle MerkleTrees MerkleLoops.
#[local] Open Scope Z_scope.

Definition is_hash (h : Hash) : Prop := length h = 32%nat.
#[export] Instance is_hash_dec h : Decision (is_hash h).
Proof. unfold is_hash. apply _. Defined.

(** ** Powers of two *)

Lemma is_power_of_two_pow j : 0 <= j -> is_power_of_two (2 ^ j) = true.
Proof.
  intros Hj. unfold is_power_of_two. pose proof (Z.pow_pos_nonneg 2 j).
  destruct (Z.ltb_spec 0 (2 ^ j)); [|lia]. replace (2 ^ j - 1) with (Z.ones j) by (rewrite Z.ones_equiv; lia).
  rewrite Z.land_ones, Z_mod_same_full by lia. done.
Qed.

Lemma is_power_of_two_inv n : is_power_of_two n = true -> exists j, 0 <= j /\ n = 2 ^ j.
Proof.
  unfold is_power_of_two. intros [Hn%Z.ltb_lt Hl%Z.eqb_eq]%andb_true_iff.
  pose proof (Z.log2_spec n Hn) as Hlog. pose proof (Z.log2_nonneg n). exists (Z.log2 n). split; [done|].
  destruct (Z.eq_dec n (2 ^ Z.log2 n)) as [|Hne]; [done|]. exfalso.
  assert (Z.testbit (Z.land n (n - 1)) (Z.log2 n) = true) as Hb.
  { rewrite Z.land_spec, Z.bit_log2 by lia.
    replace (Z.log2 n) with (Z.log2 (n - 1)) by (apply Z.log2_unique; lia).
    rewrite Z.bit_log2; [done|]. assert (1 <= 2 ^ Z.log2 n) by (pose proof (Z.pow_pos_nonneg 2 (Z.log2 n)); lia). lia. }
  rewrite Hl, Z.testbit_0_l in Hb. done.
Qed.

Section props.
Context {HF : HashFunctions}.

(** ** Injectivity of the climb *)

(** The node messages a climb hashes. *)
Fixpoint climb_messages (i n : Z) (h : Hash) (rp : list Hash) : list (list Z) :=
  match rp with
  | [] => []
  | x :: rp' =>
      let k := split n in
      if i <? k then node_message (climb inclL inclR i k h rp') x :: climb_messages i k h rp'
      else node_message x (climb inclL inclR (i - k) (n - k) h rp')
             :: climb_messages (i - k) (n - k) h rp'
  end.

Lemma node_hash_length l r : is_hash (node_hash l r).
Proof. apply sha256_length. Qed.

Lemma climb_hash i n h rp : is_hash h -> is_hash (climb inclL inclR i n h rp).
Proof.
  intros Hh. destruct rp as [|x rp]; [done|]. cbn [climb]. unfold inclL, inclR.
  destruct (_ <? _); apply node_hash_length.
Qed.

Lemma node_message_inj l r l' r' :
  is_hash l -> is_hash l' -> node_message l r = node_message l' r' -> l = l' /\ r = r'.
Proof. intros H1 H2 [= H]. apply app_inj_len in H; [done|]. by rewrite H1, H2. Qed.

Lemma climb_inj rp : forall rp' i n h h',
  length rp = length rp' -> is_hash h -> is_hash h' -> Forall is_hash rp -> Forall is_hash rp' ->
  collision_free sha256 (climb_messages i n h rp ++ climb_messages i n h' rp') ->
  climb inclL inclR i n h rp = climb inclL inclR i n h' rp' -> h = h' /\ rp = rp'.
Proof.
  induction rp as [|x rp IH]; intros [|x' rp'] i n h h' Hl Hh Hh' Hf Hf' Hc E; try done.
  apply list.Forall_cons in Hf as [Hx Hf], Hf' as [Hx' Hf']. injection Hl as Hl.
  cbn [climb climb_messages] in Hc, E. unfold inclL, inclR at 1 in E.
  destruct (i <? split n) eqn:Ei.
  - unfold inclR in E. apply Hc in E; [|set_solver..].
    apply node_message_inj in E as [E ->]; [|by apply climb_hash..].
    destruct (IH rp' i (split n) h h') as [-> ->]; try done.
    eapply collision_free_sub; [exact Hc|]. set_solver.
  - unfold inclL in E. apply Hc in E; [|set_solver..].
    apply node_message_inj in E as [-> E]; [|done..].
    destruct (IH rp' (i - split n) (n - split n) h h') as [-> ->]; try done.
    eapply collision_free_sub; [exact Hc|]. set_solver.
Qed.

(** ** Inclusion *)

Lemma lookup_upto d k i : 0 <= i < k -> upto k d !! Z.to_nat i = d !! Z.to_nat i.
Proof. intros. unfold upto. apply lookup_take_lt. lia. Qed.

Lemma lookup_from d k i : 0 <= k <= i -> from k d !! Z.to_nat (i - k) = d !! Z.to_nat i.
Proof. intros. unfold from. rewrite lookup_drop. f_equal. lia. Qed.

(** The path of a leaf climbs to the root. *)
Lemma path_climbs d : forall i h,
  0 <= i < size_of d -> d !! Z.to_nat i = Some h ->
  fits i (size_of d) (rev (path i d)) = true /\
  climb inclL inclR i (size_of d) h (rev (path i d)) = root_of d.
Proof.
  induction d as [d Hd|d Hd IHl IHr] using split_ind; intros i h Hi Hh; rewrite path_eq.
  - destruct (Z.leb_spec (size_of d) 1); [|lia].
    destruct d as [|x [|y d]]; unfold size_of in *; simpl length in *; try lia.
    replace i with 0 in Hh by lia. by injection Hh as ->.
  - destruct (Z.leb_spec (size_of d) 1); [lia|]. cbv zeta. pose proof (split_inside _ Hd) as Hk.
    rewrite size_upto in IHl by lia. rewrite size_from in IHr by lia. rewrite (root_of_eq d) by done.
    destruct (Z.ltb_spec i (split (size_of d))) as [Hlt|Hge]; rewrite rev_app_distr; simpl;
      rewrite (proj2 (Z.ltb_lt _ _) Hd).
    + rewrite (proj2 (Z.ltb_lt _ _) Hlt).
      destruct (IHl i h) as [-> ->]; [lia|by rewrite lookup_upto by lia|]. done.
    + rewrite (proj2 (Z.ltb_ge _ _) Hge).
      destruct (IHr (i - split (size_of d)) h) as [-> ->]; [lia|by rewrite lookup_from by lia|]. done.
Qed.

Lemma verify_inclusion_exact head i h p :
  0 <= i -> th_size head <= 2 ^ 64 ->
  verify_inclusion head i h p =
    if th_size head <=? i then Err (IndexOutOfRange i (th_size head))
    else if fits i (th_size head) (rev p) then
      if bool_decide (climb inclL inclR i (th_size head) h (rev p) = th_root head)
      then Ok tt else Err RootMismatch
    else Err BadProofLength.
Proof.
  intros Hi Hn. unfold verify_inclusion. destruct (Z.leb_spec (th_size head) i); [done|].
  rewrite inclusion_loop_walk, walk_exact by lia. by destruct (fits _ _ _).
Qed.

Lemma included_index h index leaf proof : verify_inclusion h index leaf proof = Ok tt -> index < th_size h.
Proof. unfold verify_inclusion. by destruct (Z.leb_spec (th_size h) index). Qed.

Definition head_of (d : list Hash) : TreeHead := mkTreeHead (size_of d) (root_of d).

Definition leaf_hashes_ok (d : list Hash) : Prop := size_of d <= umax 64 /\ Forall is_hash d.

Lemma root_of_hash d : Forall is_hash d -> 0 < size_of d -> is_hash (root_of d).
Proof.
  intros Hf Hd. destruct (Z.leb_spec (size_of d) 1).
  - destruct d as [|x [|y d]]; unfold size_of in *; simpl length in *; try lia.
    by apply list.Forall_cons in Hf as [? _].
  - rewrite root_of_eq by lia. apply node_hash_length.
Qed.

Lemma path_hashes d : forall i, Forall is_hash d -> Forall is_hash (path i d).
Proof.
  induction d as [d Hd|d Hd IHl IHr] using split_ind; intros i Hf; rewrite path_eq.
  - destruct (Z.leb_spec (size_of d) 1); [constructor|lia].
  - destruct (Z.leb_spec (size_of d) 1); [lia|]. cbv zeta. pose proof (split_inside _ Hd) as Hk.
    assert (Forall is_hash (upto (split (size_of d)) d)) by (by apply Forall_take).
    assert (Forall is_hash (from (split (size_of d)) d)) by (by apply Forall_drop).
    destruct (_ <? _); apply list.Forall_app; (split; [auto|]); apply list.Forall_singleton, root_of_hash; try done.
    + rewrite size_from; lia.
    + rewrite size_upto; lia.
Qed.

(** The node messages [verify_inclusion] hashes for a leaf and a proof. *)
Definition inclusion_messages (i n : Z) (h : Hash) (p : list Hash) : list (list Z) :=
  climb_messages i n h (rev p).

Lemma path_verifies d i h :
  size_of d <= umax 64 -> 0 <= i -> d !! Z.to_nat i = Some h -> verify_inclusion (head_of d) i h (path i d) = Ok tt.
Proof.
  intros Hd Hi Hh. assert (i < size_of d) as Hlt.
  { apply lookup_lt_Some in Hh. unfold size_of. lia. }
  rewrite verify_inclusion_exact by (simpl; int_lia). simpl. destruct (Z.leb_spec (size_of d) i); [lia|].
  destruct (path_climbs d i h) as [-> ->]; [lia|done|]. by rewrite bool_decide_eq_true_2.
Qed.

(** Claim C31: completeness of inclusion proofs. For every list of leaf hashes
    and every index in range, [inclusion_proof] succeeds, and its proof
    verifies for that leaf against the size and root of the tree, for trees
    of any [u64] size. *)
Theorem inclusion_complete d i h :
  size_of d <= umax 64 -> 0 <= i -> d !! Z.to_nat i = Some h ->
  exists p, inclusion_proof d i = Ok p /\ verify_inclusion (head_of d) i h p = Ok tt.
Proof.
  intros Hd Hi Hh. exists (path i d). split; [|by apply path_verifies]. unfold inclusion_proof.
  apply lookup_lt_Some in Hh. destruct (Z.leb_spec (size_of d) i); [unfold size_of in *; lia|done].
Qed.

Lemma inclusion_binds d i leaf h p :
  leaf_hashes_ok d -> 0 <= i -> d !! Z.to_nat i = Some leaf ->
  is_hash h -> Forall is_hash p ->
  collision_free sha256
    (inclusion_messages i (size_of d) h p ++ inclusion_messages i (size_of d) leaf (path i d)) ->
  verify_inclusion (head_of d) i h p = Ok tt ->
  h = leaf /\ p = path i d.
Proof.
  intros [Hd Hf] Hi Hh Hx Hp Hc. assert (i < size_of d) as Hlt.
  { apply lookup_lt_Some in Hh. unfold size_of. lia. }
  rewrite verify_inclusion_exact by (simpl; int_lia). simpl.
  destruct (Z.leb_spec (size_of d) i); [lia|]. destruct (path_climbs d i leaf) as [Hfit Hroot]; [lia|done|].
  destruct (fits i (size_of d) (rev p)) eqn:Efit; [|done]. case_bool_decide as E; [|done]. intros _.
  rewrite <- Hroot in E. destruct (fits_length (size_of d) i) as (L & HL); [lia|].
  apply climb_inj in E as [-> E]; [| |done| | | |done].
  - split; [done|]. apply (f_equal (@rev Hash)) in E. by rewrite !rev_involutive in E.
  - apply HL in Hfit, Efit. congruence.
  - rewrite list.Forall_forall in Hf. apply Hf. by eapply list_elem_of_lookup_2.
  - by apply List.Forall_rev.
  - apply List.Forall_rev. by apply path_hashes.
Qed.

(** Claim C4: soundness of inclusion proofs. If [verify_inclusion] accepts a
    leaf hash and a proof at an index of the tree over [d], then the leaf hash
    is the one [d] has at that index and the proof is the canonical path,
    provided SHA-256 has no collision among the node messages hashed on the
    two paths. *)
Theorem inclusion_sound d i leaf h p :
  leaf_hashes_ok d -> 0 <= i -> d !! Z.to_nat i = Some leaf ->
  is_hash h -> Forall is_hash p ->
  collision_free sha256
    (inclusion_messages i (size_of d) h p ++ inclusion_messages i (size_of d) leaf (path i d)) ->
  verify_inclusion (head_of d) i h p = Ok tt ->
  h = leaf /\ p = path i d.
Proof. apply inclusion_binds. Qed.

(** ** Consistency *)

(** A consistency proof with the old root the verifier adds in front. *)
Definition full_proof (m : Z) (old_root : Hash) (p : list Hash) : list Hash :=
  if is_power_of_two m then old_root :: p else p.

Lemma upto_upto a b d : a <= b -> upto a (upto b d) = upto a d.
Proof. intros. unfold upto. rewrite take_take. f_equal. lia. Qed.

(** A prefix that reaches past the split point is the left half and a prefix
    of the right half. *)
Lemma root_of_prefix d m :
  1 < size_of d -> split (size_of d) < m <= size_of d ->
  root_of (upto m d) =
    node_hash (root_of (upto (split (size_of d)) d))
              (root_of (upto (m - split (size_of d)) (from (split (size_of d)) d))).
Proof.
  intros Hd Hm. pose proof (split_inside _ Hd). rewrite root_of_eq; rewrite size_upto by lia; [|lia].
  rewrite (split_prefix m (size_of d)) by lia. rewrite upto_upto by lia. do 2 f_equal.
  unfold from, upto. rewrite take_drop_commute. do 2 f_equal. lia.
Qed.

(** The consistency proof climbs to the roots of the prefix and of the tree. *)
Lemma subproof_climbs d : forall m b,
  1 <= m <= size_of d -> (b = true -> m = size_of d -> is_power_of_two m = true) ->
  exists seed rest,
    (if b then full_proof m (root_of (upto m d)) (subproof m d b) else subproof m d b) = seed :: rest /\
    cfits m (size_of d) (rev rest) = true /\
    climb consL consR (m - 1) (size_of d) (seed, seed) (rev rest) = (root_of (upto m d), root_of d).
Proof.
  induction d as [d Hd|d Hd IHl IHr] using split_ind; intros m b Hm Hb; rewrite subproof_eq by lia.
  - rewrite Z.eqb_refl || replace (m =? size_of d) with true by (symmetry; apply Z.eqb_eq; lia).
    exists (root_of d), []. assert (m = size_of d) as -> by lia. rewrite upto_all by lia.
    unfold full_proof. split; [destruct b; [by rewrite Hb|done]|]. simpl. by rewrite Z.eqb_refl.
  - pose proof (split_inside _ Hd) as Hk. destruct (Z.eqb_spec m (size_of d)) as [->|Hne].
    { exists (root_of d), []. rewrite upto_all by lia. unfold full_proof.
      split; [destruct b; [by rewrite Hb|done]|]. simpl. by rewrite Z.eqb_refl. }
    cbv zeta. rewrite size_upto in IHl by lia. rewrite size_from in IHr by lia.
    rewrite (root_of_eq d) by done. destruct (Z.leb_spec m (split (size_of d))) as [Hle|Hgt].
    + destruct (IHl m b) as (seed & rest & E & Hfit & Hcl); [lia| |].
      { intros _ ->. destruct (split_spec _ Hd) as (j & Hj & -> & _). by apply is_power_of_two_pow. }
      exists seed, (rest ++ [root_of (from (split (size_of d)) d)]). rewrite upto_upto in E, Hcl by lia.
      split; [|split].
      * change (seed :: rest ++ ?x) with ((seed :: rest) ++ x). rewrite <- E. unfold full_proof.
        by destruct b, (is_power_of_two m).
      * rewrite rev_app_distr. simpl. rewrite (proj2 (Z.leb_le _ _) Hle).
        destruct (Z.ltb_spec m (size_of d)); [|lia]. done.
      * rewrite rev_app_distr. simpl. destruct (Z.ltb_spec (m - 1) (split (size_of d))); [|lia].
        by rewrite Hcl.
    + destruct (IHr (m - split (size_of d)) false) as (seed & rest & E & Hfit & Hcl); [lia|done|].
      exists seed, (rest ++ [root_of (upto (split (size_of d)) d)]). split; [|split].
      * change (seed :: rest ++ ?x) with ((seed :: rest) ++ x). rewrite <- E. destruct b; [|done]. unfold full_proof.
        destruct (is_power_of_two m) eqn:Epow; [|done]. exfalso.
        apply is_power_of_two_inv in Epow as (a & Ha & ->).
        destruct (split_spec _ Hd) as (j & Hj & Es & Hs). rewrite Es in *.
        assert (j < a) by (apply (Z.pow_lt_mono_r_iff 2); lia).
        assert (2 ^ (j + 1) <= 2 ^ a) by (apply Z.pow_le_mono_r; lia). lia.
      * rewrite rev_app_distr. simpl. destruct (Z.leb_spec m (split (size_of d))); [lia|].
        destruct (Z.ltb_spec m (size_of d)); [|lia]. done.
      * rewrite rev_app_distr. simpl. destruct (Z.ltb_spec (m - 1) (split (size_of d))); [lia|].
        replace (m - 1 - split (size_of d)) with (m - split (size_of d) - 1) by lia.
        rewrite Hcl, (root_of_prefix d m) by lia. done.
Qed.

Lemma verify_consistency_exact old new p :
  1 <= th_size old < th_size new -> th_size new <= 2 ^ 64 ->
  verify_consistency old new p =
    match full_proof (th_size old) (th_root old) p with
    | [] => Err BadProofLength
    | seed :: rest =>
        if cfits (th_size old) (th_size new) (rev rest) then
          if bool_decide (climb consL consR (th_size old - 1) (th_size new) (seed, seed) (rev rest) =
                            (th_root old, th_root new))
          then Ok tt else Err RootMismatch
        else Err BadProofLength
    end.
Proof.
  intros Hm Hn. unfold verify_consistency.
  destruct (Z.eqb_spec (th_size old) 0); [lia|]. destruct (Z.ltb_spec (th_size new) (th_size old)); [lia|].
  destruct (Z.eqb_spec (th_size old) (th_size new)); [lia|]. cbn [orb]. cbv zeta. fold (full_proof (th_size old) (th_root old) p).
  pose proof (fun rest acc => cwalk_exact consL consR (th_size old) (th_size new) rest acc Hm Hn) as W.
  unfold cwalk in W. destruct (strip_ones 64 _ _) as [f s]. simpl in W.
  destruct (full_proof (th_size old) (th_root old) p) as [|seed rest]; [done|].
  rewrite (consistency_loop_walk rest f s (seed, seed)), W. destruct (cfits _ _ _); [|done]. simpl.
  destruct (climb consL consR _ _ _ _) as [a b]. simpl.
  repeat case_bool_decide; simpl; try done; naive_solver.
Qed.

Lemma subproof_verifies d m : size_of d <= umax 64 -> 1 <= m <= size_of d ->
  verify_consistency (head_of (upto m d)) (head_of d) (subproof m d true) = Ok tt.
Proof.
  intros Hd Hm. destruct (Z.eq_dec m (size_of d)) as [->|Hne].
  - rewrite subproof_eq, Z.eqb_refl by lia. rewrite upto_all by lia. unfold verify_consistency. cbn [head_of th_size th_root].
    rewrite Z.eqb_refl. destruct (Z.eqb_spec (size_of d) 0); [lia|].
    destruct (Z.ltb_spec (size_of d) (size_of d)); [lia|]. cbn [orb]. by rewrite !bool_decide_eq_true_2.
  - rewrite verify_consistency_exact; cbn [head_of th_size th_root]; rewrite ?size_upto by lia; [|lia|int_lia].
    destruct (subproof_climbs d m true) as (seed & rest & E & Hfit & Hcl); [lia|lia|].
    rewrite E, Hfit, Hcl. by rewrite bool_decide_eq_true_2.
Qed.

(** Claim C32: completeness of consistency proofs. For every list of leaf
    hashes and every prefix size from one leaf up to all of them, the proof
    [consistency_proof] builds verifies between the head of the prefix and the
    head of the whole tree. *)
Theorem consistency_complete d m :
  size_of d <= umax 64 -> 1 <= m <= size_of d ->
  exists p, consistency_proof d m = Ok p /\
    verify_consistency (head_of (upto m d)) (head_of d) p = Ok tt.
Proof.
  intros Hd Hm. exists (subproof m d true). unfold consistency_proof.
  rewrite (proj2 (Z.eqb_neq _ _)), (proj2 (Z.ltb_ge _ _)) by lia. split; [done|by apply subproof_verifies].
Qed.

(** The node messages [verify_consistency] hashes on the new tree's side. *)
Definition consistency_messages (m n : Z) (old_root : Hash) (p : list Hash) : list (list Z) :=
  match full_proof m old_root p with
  | [] => []
  | seed :: rest => climb_messages (m - 1) n seed (rev rest)
  end.

Lemma climb_snd i n a b rp : snd (climb consL consR i n (a, b) rp) = climb inclL inclR i n b rp.
Proof.
  revert i n. induction rp as [|x rp IH]; intros i n; [done|]. cbn [climb].
  destruct (_ <? _); simpl; by rewrite IH.
Qed.

Lemma subproof_hashes d : forall m b, Forall is_hash d -> 1 <= m <= size_of d ->
  Forall is_hash (subproof m d b).
Proof.
  induction d as [d Hd|d Hd IHl IHr] using split_ind; intros m b Hf Hm; rewrite subproof_eq by lia.
  - destruct (Z.eqb_spec m (size_of d)); [|lia].
    destruct b; [constructor|]. apply list.Forall_singleton, root_of_hash; [done|lia].
  - pose proof (split_inside _ Hd) as Hk. destruct (Z.eqb_spec m (size_of d)).
    { destruct b; [constructor|]. apply list.Forall_singleton, root_of_hash; [done|lia]. }
    assert (Forall is_hash (upto (split (size_of d)) d)) by (by apply Forall_take).
    assert (Forall is_hash (from (split (size_of d)) d)) by (by apply Forall_drop).
    rewrite size_upto in IHl by lia. rewrite size_from in IHr by lia. cbv zeta.
    destruct (Z.leb_spec m (split (size_of d))); apply list.Forall_app;
      (split; [auto with lia|]); apply list.Forall_singleton, root_of_hash; try done.
    + rewrite size_from; lia.
    + rewrite size_upto; lia.
Qed.

Lemma consistency_binds d old p :
  leaf_hashes_ok d -> is_u 64 (th_size old) -> is_hash (th_root old) -> Forall is_hash p ->
  collision_free sha256
    (consistency_messages (th_size old) (size_of d) (th_root old) p ++
     consistency_messages (th_size old) (size_of d) (root_of (upto (th_size old) d))
       (subproof (th_size old) d true)) ->
  verify_consistency old (head_of d) p = Ok tt ->
  1 <= th_size old <= size_of d /\ th_root old = root_of (upto (th_size old) d).
Proof.
  intros [Hd Hf] Hu Hr Hp Hc Hv. set (m := th_size old) in *.
  assert (1 <= m <= size_of d) as Hm.
  { unfold verify_consistency in Hv. fold m in Hv. cbn [head_of th_size] in Hv.
    destruct (Z.eqb_spec m 0); [done|]. destruct (Z.ltb_spec (size_of d) m); [done|]. int_lia. }
  split; [done|]. destruct (Z.eq_dec m (size_of d)) as [Em|Hne].
  { unfold verify_consistency in Hv. fold m in Hv. cbn [head_of th_size th_root] in Hv.
    rewrite Em, Z.eqb_refl in Hv. rewrite upto_all by lia.
    destruct (_ || _); [done|]. repeat case_bool_decide; done. }
  rewrite verify_consistency_exact in Hv by (simpl; int_lia). fold m in Hv. cbn [head_of th_size th_root] in Hv.
  destruct (subproof_climbs d m true) as (seed & rest & E & Hfit & Hcl); [lia|lia|].
  unfold consistency_messages in Hc. rewrite E in Hc.
  pose proof (subproof_hashes d m true Hf Hm) as Hsub.
  assert (Forall is_hash (seed :: rest)) as Hhon.
  { rewrite <- E. unfold full_proof. destruct (is_power_of_two m); [|done]. constructor; [|done].
    apply root_of_hash; [by apply Forall_take|]. rewrite size_upto; lia. }
  assert (Forall is_hash (full_proof m (th_root old) p)) as Hoff.
  { unfold full_proof. destruct (is_power_of_two m); [by constructor|done]. }
  destruct (full_proof m (th_root old) p) as [|seed' rest'] eqn:E'; [done|].
  destruct (cfits m (size_of d) (rev rest')) eqn:Hfit'; [|done]. case_bool_decide as Hcl'; [|done].
  apply list.Forall_cons in Hhon as [Hs1 Hs2], Hoff as [Ho1 Ho2].
  destruct (cfits_length (size_of d) m Hm) as (L & HL).
  assert (seed' = seed /\ rev rest' = rev rest) as [-> Erev].
  { apply (climb_inj (rev rest') (rev rest) (m - 1) (size_of d)); try done; try (by apply List.Forall_rev).
    - apply HL in Hfit, Hfit'. congruence.
    - pose proof (climb_snd (m - 1) (size_of d) seed' seed' (rev rest')) as S1.
      pose proof (climb_snd (m - 1) (size_of d) seed seed (rev rest)) as S2.
      rewrite Hcl' in S1. rewrite Hcl in S2. simpl in S1, S2. congruence. }
  rewrite Erev, Hcl in Hcl'. by injection Hcl' as <-.
Qed.

(** Claim C5: soundness of consistency proofs. If [verify_consistency] accepts
    an old head and a proof against the head of the tree over [d], then the
    old root is the root of the prefix of [d] of the old size: a log whose
    published prefix was rewritten has no accepted proof. The hypothesis is
    that SHA-256 has no collision among the node messages hashed on the new
    tree's side, by this proof and by the canonical one. *)
Theorem consistency_sound d old p :
  leaf_hashes_ok d -> is_u 64 (th_size old) -> is_hash (th_root old) -> Forall is_hash p ->
  collision_free sha256
    (consistency_messages (th_size old) (size_of d) (th_root old) p ++
     consistency_messages (th_size old) (size_of d) (root_of (upto (th_size old) d))
       (subproof (th_size old) d true)) ->
  verify_consistency old (head_of d) p = Ok tt ->
  1 <= th_size old <= size_of d /\ th_root old = root_of (upto (th_size old) d).
Proof. apply consistency_binds. Qed.

End props.

(** ** Instances on a concrete tree *)

Definition sample_leaves : list Hash := map (@leaf_hash toy_hash) [[10]; [20]; [30]].

Lemma inclusion_complete_witness :
  exists p, @inclusion_proof toy_hash sample_leaves 2 = Ok p /\
    @verify_inclusion toy_hash (@head_of toy_hash sample_leaves) 2 (@leaf_hash toy_hash [30]) p = Ok tt.
Proof.
  apply (@inclusion_complete toy_hash sample_leaves 2 (@leaf_hash toy_hash [30])); by_compute.
Defined.

Lemma inclusion_sound_witness :
  @leaf_hash toy_hash [10] = @leaf_hash toy_hash [10] /\
  @path toy_hash 0 sample_leaves = @path toy_hash 0 sample_leaves.
Proof.
  apply (@inclusion_sound toy_hash sample_leaves 0 (@leaf_hash toy_hash [10])
    (@leaf_hash toy_hash [10]) (@path toy_hash 0 sample_leaves));
    [split|..]; by_compute.
Defined.

Lemma consistency_complete_witness :
  exists p, @consistency_proof toy_hash sample_leaves 2 = Ok p /\
    @verify_consistency toy_hash (@head_of toy_hash (upto 2 sample_leaves))
      (@head_of toy_hash sample_leaves) p = Ok tt.
Proof. apply (@consistency_complete toy_hash sample_leaves 2); by_compute. Defined.

Lemma consistency_sound_witness :
  1 <= 2 <= size_of sample_leaves /\
  @root_of toy_hash (upto 2 sample_leaves) = @root_of toy_hash (upto 2 sample_leaves).
Proof.
  apply (@consistency_sound toy_hash sample_leaves (@head_of toy_hash (upto 2 sample_leaves))
    (@subproof toy_hash 2 sample_leaves true)); [split|..]; by_compute.
Defined.
