(* ===== verification/MerkleCache.v ===== *)
(** * The cached tree agrees with the free functions

    [MerkleTree] keeps one list of hashes per level. Level 0 is the leaves and
    every level above pairs up the one below, so [levels !! k !! i] is the
    root of the aligned block [i] of [2^k] leaves; the proofs it assembles
    from those blocks are the proofs recomputed from the leaves. *)

From S2P Require Import Prelude Bytes Merkle MerkleTrees MerkleLoops MerkleProps.
#[local] Open Scope Z_scope.

Lemma trailing_zeros_pow j : 0 <= j -> trailing_zeros (2 ^ j) = j.
Proof.
  intros Hj. pattern j. apply natlike_ind; [done| |done]; clear j Hj. intros j Hj IH.
  rewrite Z.pow_succ_r by done. pose proof (Z.pow_pos_nonneg 2 j ltac:(lia) Hj).
  destruct (2 ^ j) as [|p|p]; try lia. simpl in IH |- *. rewrite Pos.mul_1_l. lia.
Qed.

Section cache.
Context {HF : HashFunctions}.

(** The level above: pairs of neighbours. *)
Fixpoint pairs (l : list Hash) : list Hash :=
  match l with
  | a :: b :: l' => node_hash a b :: pairs l'
  | _ => []
  end.

(** The levels of a tree over [leaves]. *)
Inductive pyramid : list Hash -> list (list Hash) -> Prop :=
| pyramid_nil : pyramid [] []
| pyramid_cons leaves above :
    leaves <> [] -> pyramid (pairs leaves) above -> pyramid leaves (leaves :: above).

Lemma pairs_snoc l : forall h,
  pairs (l ++ [h]) =
    if Z.of_nat (length (l ++ [h])) mod 2 =? 1 then pairs l
    else pairs l ++ [node_hash (nth (length (l ++ [h]) - 2) (l ++ [h]) [])
                               (nth (length (l ++ [h]) - 1) (l ++ [h]) [])].
Proof.
  assert (forall n l h, (length l <= n)%nat -> pairs (l ++ [h]) =
    if Z.of_nat (length (l ++ [h])) mod 2 =? 1 then pairs l
    else pairs l ++ [node_hash (nth (length (l ++ [h]) - 2) (l ++ [h]) [])
                               (nth (length (l ++ [h]) - 1) (l ++ [h]) [])]) as H.
  { clear l. induction n as [|n IH]; intros [|a [|b l]] h Hn; simpl in Hn; try (done || lia).
    simpl app. cbn [pairs]. rewrite IH by lia.
    replace (Z.of_nat (length (a :: b :: l ++ [h])) mod 2) with (Z.of_nat (length (l ++ [h])) mod 2).
    - destruct (_ =? 1) eqn:E; [done|]. simpl app. do 3 f_equal.
      assert (exists n, length (l ++ [h]) = S n) as (k & Ek) by (rewrite length_app; simpl; exists (length l); lia).
      cbn [length]. rewrite Ek in *. destruct k as [|k]; [done|]. simpl. by rewrite Nat.sub_0_r.
    - cbn [length]. rewrite 2!Nat2Z.inj_succ. unfold Z.succ.
      replace (Z.of_nat (length (l ++ [h])) + 1 + 1) with (Z.of_nat (length (l ++ [h])) + 1 * 2) by lia.
      by rewrite Z.mod_add. }
  intros h. by eapply H.
Qed.

Lemma push_pyramid leaves levels :
  pyramid leaves levels -> forall h, pyramid (leaves ++ [h]) (push_levels levels h).
Proof.
  induction 1 as [|leaves above Hne Hp IH]; intros h.
  - simpl. constructor; [done|]. simpl. constructor.
  - cbn [push_levels]. cbv zeta. pose proof (pairs_snoc leaves h) as E.
    destruct (Z.of_nat (length (leaves ++ [h])) mod 2 =? 1); constructor;
      rewrite ?E; auto; intros ?%app_nil; naive_solver.
Qed.

Lemma from_leaf_hashes_pyramid leaves : pyramid leaves (mt_levels (from_leaf_hashes leaves)).
Proof.
  induction leaves as [|h l IH] using rev_ind; [constructor|].
  unfold from_leaf_hashes in *. rewrite fold_left_app. simpl. by apply push_pyramid.
Qed.

Lemma pyramid_len leaves levels :
  pyramid leaves levels -> MerkleTree_len (mkMerkleTree levels) = size_of leaves.
Proof. by destruct 1. Qed.

(** Blocks of [2^k] leaves. *)
Definition slice (start len : Z) (d : list Hash) : list Hash := upto len (from start d).

Lemma size_slice start len d :
  0 <= start -> 0 <= len -> start + len <= size_of d -> size_of (slice start len d) = len.
Proof. intros. unfold slice. rewrite size_upto; [done|]. rewrite size_from; lia. Qed.

Lemma upto_slice k start len d : 0 <= k <= len -> upto k (slice start len d) = slice start k d.
Proof. intros. unfold slice. apply upto_upto; lia. Qed.

Lemma from_slice k start len d :
  0 <= k <= len -> 0 <= start -> from k (slice start len d) = slice (start + k) (len - k) d.
Proof.
  intros. unfold slice, from, upto. rewrite Z2Nat.inj_add, <- drop_drop by lia.
  rewrite (take_drop_commute _ _ (Z.to_nat k)). do 2 f_equal. lia.
Qed.

Lemma slice_all d : slice 0 (size_of d) d = d.
Proof. unfold slice, from. simpl. by apply upto_all. Qed.

Lemma root_of_slice start len d :
  0 <= start -> 1 < len -> start + len <= size_of d ->
  root_of (slice start len d) =
    node_hash (root_of (slice start (split len) d)) (root_of (slice (start + split len) (len - split len) d)).
Proof.
  intros Hs Hl Hd. pose proof (split_inside len Hl).
  rewrite root_of_eq; rewrite size_slice by lia; [|lia].
  by rewrite upto_slice, from_slice by lia.
Qed.

(** ** Every stored node is the root of its block *)

Lemma pairs_lookup l : forall i a b,
  l !! (2 * i)%nat = Some a -> l !! (2 * i + 1)%nat = Some b -> pairs l !! i = Some (node_hash a b).
Proof.
  assert (forall n l i a b, (length l <= n)%nat -> l !! (2 * i)%nat = Some a ->
    l !! (2 * i + 1)%nat = Some b -> pairs l !! i = Some (node_hash a b)) as H; [|by intros; eapply H].
  clear l. induction n as [|n IH]; intros l i a b Hn Ha Hb; pose proof (lookup_lt_Some _ _ _ Hb) as Hlen;
    [lia|]. destruct l as [|x [|y l]]; cbn [length] in *; [lia|lia|].
  destruct i as [|i]; [by injection Ha as ->; injection Hb as ->|].
  replace (2 * S i)%nat with (S (S (2 * i))) in * by lia. simpl in Ha, Hb |- *. apply IH; [lia|done|].
  done.
Qed.

Lemma level_lookup k d : forall i,
  0 <= i -> (i + 1) * 2 ^ Z.of_nat k <= size_of d ->
  Nat.iter k pairs d !! Z.to_nat i = Some (root_of (slice (i * 2 ^ Z.of_nat k) (2 ^ Z.of_nat k) d)).
Proof.
  induction k as [|k IH]; intros i Hi Hd.
  - change (2 ^ Z.of_nat 0) with 1 in *. rewrite !Z.mul_1_r in *. simpl.
    destruct (lookup_lt_is_Some_2 d (Z.to_nat i)) as [h Hh]; [unfold size_of in Hd; lia|].
    rewrite Hh. f_equal. unfold slice, from, upto. change (Z.to_nat 1) with 1%nat.
    erewrite drop_S by done. done.
  - rewrite Nat2Z.inj_succ, Z.pow_succ_r in * by lia. pose proof (Z.pow_pos_nonneg 2 (Z.of_nat k)).
    rewrite root_of_slice by nia.
    assert (split (2 * 2 ^ Z.of_nat k) = 2 ^ Z.of_nat k) as ->.
    { rewrite <- Z.pow_succ_r by lia. apply split_pow2. lia. }
    simpl. apply pairs_lookup.
    + replace (2 * Z.to_nat i)%nat with (Z.to_nat (2 * i)) by lia. rewrite IH by nia. do 3 f_equal. lia.
    + replace (2 * Z.to_nat i + 1)%nat with (Z.to_nat (2 * i + 1)) by lia. rewrite IH by nia.
      do 2 f_equal. f_equal; lia.
Qed.

Lemma pyramid_lookup leaves levels k :
  pyramid leaves levels -> Nat.iter k pairs leaves <> [] -> levels !! k = Some (Nat.iter k pairs leaves).
Proof.
  intros Hp. revert k. induction Hp as [|leaves above Hne Hp IH]; intros k Hk.
  - exfalso. apply Hk. induction k as [|k IHk]; [done|]. simpl. rewrite IHk; [done|].
    intros E. apply Hk. simpl. by rewrite E.
  - destruct k as [|k]; [done|]. rewrite Nat.iter_succ_r in *. by apply IH.
Qed.

(** ** Subtrees, paths and consistency proofs *)

Section tree.
Context (d : list Hash) (tree : MerkleTree) (Hp : pyramid d (mt_levels tree)).

Lemma subtree_block j i :
  0 <= j -> 0 <= i -> (i + 1) * 2 ^ j <= size_of d ->
  (mt_levels tree !! Z.to_nat (trailing_zeros (2 ^ j)) ≫= fun level =>
     level !! Z.to_nat (i * 2 ^ j / 2 ^ j)) = Some (root_of (slice (i * 2 ^ j) (2 ^ j) d)).
Proof.
  intros Hj Hi Hd. pose proof (Z.pow_pos_nonneg 2 j). rewrite trailing_zeros_pow by done.
  rewrite Z.div_mul by lia. pose proof (level_lookup (Z.to_nat j) d i Hi) as L.
  rewrite Z2Nat.id in L by done. specialize (L Hd).
  rewrite (pyramid_lookup d); [done|done|]. intros E. by rewrite E in L.
Qed.

Lemma subtree_fuel_root fuel : forall start len j,
  (Z.to_nat len <= fuel)%nat -> 0 < len <= 2 ^ j -> 0 <= j -> 0 <= start -> start mod 2 ^ j = 0 ->
  start + len <= size_of d ->
  subtree_fuel fuel tree start len = Some (root_of (slice start len d)).
Proof.
  induction fuel as [|fuel IH]; intros start len j Hf Hl Hj Hs Hmod Hd; [lia|]. cbn [subtree_fuel].
  destruct (is_power_of_two len && (start mod len =? 0)) eqn:E.
  - apply andb_true_iff in E as [(a & Ha & ->)%is_power_of_two_inv E%Z.eqb_eq].
    pose proof (Z.pow_pos_nonneg 2 a). pose proof (Z.div_mod start (2 ^ a)).
    replace start with (start / 2 ^ a * 2 ^ a) by lia. apply subtree_block; [done|apply Z.div_pos; lia|lia].
  - assert (1 < len) as H1.
    { destruct (Z.eq_dec len 1) as [->|]; [|lia]. rewrite Z.mod_1_r in E. by rewrite andb_true_r in E. }
    destruct (split_below len j H1) as (j' & Hj' & Es & Hk); [lia|lia|]. pose proof (Z.pow_pos_nonneg 2 j').
    rewrite Es. assert (start mod 2 ^ j' = 0) as Hm'.
    { apply Z.mod_divide in Hmod as [q ->]; [|lia]. replace j with (j - j' + j') by lia.
      rewrite Z.pow_add_r by lia. rewrite Z.mul_assoc. apply Z.mod_mul. lia. }
    rewrite (IH start (2 ^ j') j') by lia. simpl.
    rewrite (IH (start + 2 ^ j') (len - 2 ^ j') j'); try lia.
    + simpl. rewrite (root_of_slice start len) by lia. by rewrite Es.
    + rewrite <- Z.add_mod_idemp_l, Hm' by lia. rewrite Z.add_0_l. apply Z_mod_same_full.
Qed.

Lemma subtree_root start len j :
  0 < len <= 2 ^ j -> 0 <= j -> 0 <= start -> start mod 2 ^ j = 0 -> start + len <= size_of d ->
  subtree tree start len = Some (root_of (slice start len d)).
Proof. intros. apply (subtree_fuel_root _ _ _ j); done || lia. Qed.

(** The two halves of an aligned range. *)
Lemma halves start len j :
  1 < len <= 2 ^ j -> 0 <= j -> 0 <= start -> start mod 2 ^ j = 0 -> start + len <= size_of d ->
  exists j', 0 <= j' /\ split len <= 2 ^ j' /\ len - split len <= 2 ^ j' /\
    start mod 2 ^ j' = 0 /\ (start + split len) mod 2 ^ j' = 0 /\
    subtree tree start (split len) = Some (root_of (slice start (split len) d)) /\
    subtree tree (start + split len) (len - split len) =
      Some (root_of (slice (start + split len) (len - split len) d)).
Proof.
  intros Hl Hj Hs Hmod Hd. destruct (split_below len j) as (j' & Hj' & Es & Hk); [lia|lia|lia|].
  pose proof (Z.pow_pos_nonneg 2 j'). rewrite Es.
  assert (start mod 2 ^ j' = 0) as Hm'.
  { apply Z.mod_divide in Hmod as [q ->]; [|lia]. replace j with (j - j' + j') by lia.
    rewrite Z.pow_add_r by lia. rewrite Z.mul_assoc. apply Z.mod_mul. lia. }
  assert ((start + 2 ^ j') mod 2 ^ j' = 0) as Hm2.
  { rewrite <- Z.add_mod_idemp_l, Hm' by lia. rewrite Z.add_0_l. apply Z_mod_same_full. }
  exists j'. split_and!; try done; try lia; apply (subtree_root _ _ j'); done || lia.
Qed.

Lemma tree_path_slice fuel : forall m start len j,
  (Z.to_nat len <= fuel)%nat -> 0 <= len <= 2 ^ j -> 0 <= j -> 0 <= start -> start mod 2 ^ j = 0 ->
  start + len <= size_of d ->
  tree_path_fuel fuel tree m start len = Some (path m (slice start len d)).
Proof.
  induction fuel as [|fuel IH]; intros m start len j Hf Hl Hj Hs Hmod Hd; cbn [tree_path_fuel];
    rewrite path_eq, size_slice by lia; destruct (Z.leb_spec len 1) as [|H1]; try done; [lia|].
  cbv zeta. pose proof (split_inside len ltac:(lia)).
  destruct (halves start len j) as (j' & Hj' & Hk1 & Hk2 & Hm1 & Hm2 & -> & ->); try done; [lia|].
  rewrite upto_slice, from_slice by lia. destruct (_ <? _).
  - rewrite (IH m start (split len) j') by (done || lia). done.
  - rewrite (IH (m - split len) (start + split len) (len - split len) j') by (done || lia). done.
Qed.

Lemma tree_subproof_slice fuel : forall m start len b j,
  (Z.to_nat len <= fuel)%nat -> 1 <= m <= len -> len <= 2 ^ j -> 0 <= j -> 0 <= start ->
  start mod 2 ^ j = 0 -> start + len <= size_of d ->
  tree_subproof_fuel fuel tree m start len b = Some (subproof m (slice start len d) b).
Proof.
  induction fuel as [|fuel IH]; intros m start len b j Hf Hm Hl Hj Hs Hmod Hd; [lia|].
  cbn [tree_subproof_fuel]. rewrite subproof_eq; rewrite size_slice by lia; [|lia].
  destruct (Z.eqb_spec m len).
  { destruct b; [done|]. by rewrite (subtree_root start len j) by (done || lia). }
  cbv zeta. pose proof (split_inside len ltac:(lia)).
  destruct (halves start len j) as (j' & Hj' & Hk1 & Hk2 & Hm1 & Hm2 & -> & ->); try done; [lia|].
  rewrite upto_slice, from_slice by lia. destruct (Z.leb_spec m (split len)).
  - rewrite (IH m start (split len) b j') by (done || lia). done.
  - rewrite (IH (m - split len) (start + split len) (len - split len) false j') by (done || lia). done.
Qed.

End tree.

Lemma slice_upto size d : slice 0 size d = upto size d.
Proof. done. Qed.

(** A power of two above any size. *)
Lemma pow_above n : 0 <= n -> exists j, 0 <= j /\ n <= 2 ^ j.
Proof.
  intros. exists (Z.log2_up n). split; [apply Z.log2_up_nonneg|].
  destruct (Z.le_gt_cases n 1); [|by apply Z.log2_up_spec].
  pose proof (Z.pow_pos_nonneg 2 (Z.log2_up n)). pose proof (Z.log2_up_nonneg n). lia.
Qed.

(** A tree grown leaf by leaf with [MerkleTree::push] gives, for
    every size up to its length, the same head, inclusion proof and
    consistency proof as the free functions compute from the first leaves, the
    same errors outside the range, and never indexes outside its cache. *)
Theorem cached_tree_agrees d size index old :
  0 <= size -> 0 <= old ->
  let tree := from_leaf_hashes d in
  MerkleTree_len tree = size_of d /\
  MerkleTree_head tree size =
    Some (if size_of d <? size then Err (BadSizes size (size_of d)) else Ok (head_of (upto size d))) /\
  MerkleTree_inclusion_proof tree index size =
    Some (if size_of d <? size then Err (BadSizes size (size_of d))
          else inclusion_proof (upto size d) index) /\
  MerkleTree_consistency_proof tree old size =
    Some (if size_of d <? size then Err (BadSizes old size) else consistency_proof (upto size d) old).
Proof.
  intros Hs Ho tree. pose proof (from_leaf_hashes_pyramid d) as Hp. fold tree in Hp.
  assert (MerkleTree_len tree = size_of d) as Hlen.
  { destruct tree as [levels]. by apply pyramid_len. }
  destruct (pow_above size Hs) as (j & Hj & Hpow). split; [done|].
  unfold MerkleTree_head, MerkleTree_inclusion_proof, MerkleTree_consistency_proof,
    inclusion_proof, consistency_proof. rewrite Hlen.
  destruct (Z.ltb_spec (size_of d) size) as [|Hle]; [done|]. rewrite size_upto by lia.
  split_and!.
  - unfold head_of. rewrite size_upto by lia. destruct (Z.eqb_spec size 0) as [->|]; [done|].
    by rewrite (subtree_root d tree Hp 0 size j) by (done || lia).
  - destruct (Z.leb_spec size index); [done|].
    rewrite (tree_path_slice d tree Hp _ index 0 size j) by (done || lia). done.
  - cbn [orb]. destruct (Z.eqb_spec old 0); [done|]. cbn [orb].
    destruct (Z.ltb_spec size old); [done|].
    rewrite (tree_subproof_slice d tree Hp _ old 0 size true j) by (done || lia). done.
Qed.

End cache.

Lemma cached_tree_agrees_witness :
  @MerkleTree_consistency_proof toy_hash (@from_leaf_hashes toy_hash sample_leaves) 2 3 =
    Some (@consistency_proof toy_hash sample_leaves 2).
Proof. apply (@cached_tree_agrees toy_hash sample_leaves 3 0 2); lia. Defined.

Lemma all_proofs_paths `{HF : HashFunctions} d : all_inclusion_proofs d = map (fun m => path m d) (seqZ 0 (size_of d)).
Proof.
  destruct d as [|x d]; [done|]. unfold all_inclusion_proofs. rewrite all_go_spec; [done| |lia]. unfold size_of. simpl. lia.
Qed.

(** [all_inclusion_proofs] returns, for every leaf in order, exactly
    the proof [inclusion_proof] builds for it. *)
Theorem all_inclusion_proofs_agree `{HF : HashFunctions} d :
  map (fun p => Ok p) (all_inclusion_proofs d) =
    map (inclusion_proof d) (seqZ 0 (size_of d)).
Proof.
  rewrite all_proofs_paths, map_map. apply map_ext_in. intros i Hi%list_elem_of_In%elem_of_seqZ. unfold inclusion_proof.
  by destruct (Z.leb_spec (size_of d) i); [lia|].
Qed.

(** The digit-pair loop is the digest decoder's, with one error. *)
Lemma leaf_pairs_decode n : forall bs k, (length bs <= n)%nat ->
  leaf_pairs bs = map_err (fun _ => BadEntryHash) (decode_pairs k bs).
Proof.
  assert (forall c k, nibble c = map_err (fun _ => BadEntryHash) (from_hex_digit c k)) as Hn.
  { intros c k. unfold nibble, from_hex_digit. by repeat case_match. }
  induction n as [|n IH]; intros [|h [|l bs]] k Hl; simpl in Hl; try (done || lia).
  cbn [leaf_pairs decode_pairs]. rewrite (Hn h k), (Hn l (k + 1)), (IH bs (k + 2)) by lia.
  destruct (from_hex_digit h k); [|done]. destruct (from_hex_digit l (k + 1)); [|done].
  by destruct (decode_pairs (k + 2) bs).
Qed.

(** [leaf_from_entry_hash] inverts the hexadecimal text of a digest
    and accepts nothing else: it succeeds exactly on the 64-character
    lower-case text of some 32 bytes, and returns those bytes. *)
Theorem leaf_from_entry_hash_exact s h :
  leaf_from_entry_hash s = Ok h <->
  length h = 32%nat /\ Forall is_byte h /\ s = digest_to_hex h.
Proof.
  unfold leaf_from_entry_hash. destruct (Z.eqb_spec (Z.of_nat (length (string_bytes s))) 64) as [El|Hl]; simpl.
  - rewrite (leaf_pairs_decode _ _ 0) by done. split.
    + destruct (decode_pairs 0 (string_bytes s)) as [out|] eqn:E; [|done]. intros [= <-].
      apply (decode_pairs_canonical (length (string_bytes s))) in E as [HF Hs]; [|lia|exists 32%nat; lia].
      split_and!; [|done|].
      * apply (f_equal length) in Hs. rewrite hex_text_length in Hs. lia.
      * apply string_bytes_inj. unfold digest_to_hex. by rewrite bytes_to_hex_bytes.
    + intros (Hh & HF & ->). unfold digest_to_hex. rewrite bytes_to_hex_bytes by done.
      by rewrite decode_pairs_hex.
  - split; [done|]. intros (Hh & HF & ->). exfalso. apply Hl. unfold digest_to_hex.
    rewrite bytes_to_hex_bytes, hex_text_length, Hh by done. done.
Qed.
