(* ===== verification/Checkpoint.v ===== *)
(** * Checkpoints and signed notes

    The text formats of [src/checkpoint.rs]: checkpoint bodies, signature
    lines, notes, verifier and signer keys, and the log's and witness's
    signatures. *)

From Stdlib Require Import String.
From S2P Require Import Prelude Bytes Text Crypto Merkle.
#[local] Open Scope Z_scope.

(** ** Constants and errors *)

Definition ALG_ED25519 : Z := 1.
Definition ALG_COSIGNATURE_V1 : Z := 4.
Definition MAX_NOTE_BYTES : Z := 64 * 1024.
Definition MAX_SIGNATURES : nat := 100.
Definition SIGNATURE_PREFIX : text := [8212; 32].
Definition COSIGNATURE_HEADER : text := chars "cosignature/v1" ++ [10] ++ chars "time ".
Definition MAX_COSIGNATURE_TIME : Z := imax 64.

Inductive CheckpointError :=
| BadName
| BadKey (what : string)
| WrongAlgorithm (algorithm : Z)
| NoteTooLarge
| MalformedNote (what : string)
| MalformedCheckpoint (what : string)
| TooManySignatures
| DuplicateSignature
| NotSigned (name : text)
| BadSignature (name : text)
| BadTimestamp (time : Z).
#[export] Instance CheckpointError_eq_dec : EqDecision CheckpointError.
Proof. solve_decision. Defined.

Record Checkpoint := mkCheckpoint {
  cp_origin : text;
  cp_size : Z;
  cp_root : Hash;
  cp_extensions : list text
}.
#[export] Instance Checkpoint_eq_dec : EqDecision Checkpoint.
Proof. solve_decision. Defined.

Definition is_valid_line (line : text) : bool :=
  negb (bool_decide (line = [])) && negb (existsb is_control line).

Definition is_valid_name (name : text) : bool :=
  negb (bool_decide (name = []))
  && negb (existsb (fun c => (c =? 43) || is_whitespace c || is_control c) name).

(** [try_into] of a slice into an array of [n] bytes. *)
Definition try_into_array (n : nat) (bs : list Z) : option (list Z) :=
  if bool_decide (length bs = n) then Some bs else None.

Record NoteSignature := mkNoteSignature {
  ns_name : text;
  ns_key_hash : Z;
  ns_signature : list Z
}.
#[export] Instance NoteSignature_eq_dec : EqDecision NoteSignature.
Proof. solve_decision. Defined.

Record SignedNote := mkSignedNote {
  sn_text : text;
  sn_signatures : list NoteSignature
}.
#[export] Instance SignedNote_eq_dec : EqDecision SignedNote.
Proof. solve_decision. Defined.

Record NoteVerifier := mkNoteVerifier {
  nv_name : text;
  nv_algorithm : Z;
  nv_key_hash : Z;
  nv_key : list Z
}.
#[export] Instance NoteVerifier_eq_dec : EqDecision NoteVerifier.
Proof. solve_decision. Defined.

Record LogSigner := mkLogSigner { lsg_verifier : NoteVerifier; lsg_key : list Z }.
Record WitnessSigner := mkWitnessSigner { wsg_verifier : NoteVerifier; wsg_key : list Z }.

Section checkpoint.
Context {HF : HashFunctions} {B64 : Base64} {ED : Ed25519}.

(** ** [impl Checkpoint] *)

Definition Checkpoint_new (origin : text) (head : TreeHead) : result CheckpointError Checkpoint :=
  if negb (is_valid_line origin)
  then Err (MalformedCheckpoint "origin must be one non-empty line without control characters")
  else Ok (mkCheckpoint origin (th_size head) (th_root head) []).

Definition with_extension (self : Checkpoint) (line : text) : result CheckpointError Checkpoint :=
  if negb (is_valid_line line)
  then Err (MalformedCheckpoint "extension must be one non-empty line without control characters")
  else Ok (mkCheckpoint (cp_origin self) (cp_size self) (cp_root self) (cp_extensions self ++ [line])).

Definition Checkpoint_head (self : Checkpoint) : TreeHead :=
  mkTreeHead (cp_size self) (cp_root self).

Definition Checkpoint_body (self : Checkpoint) : text :=
  (cp_origin self ++ [10]) ++ (show_u64 (cp_size self) ++ [10]) ++ (b64_encode (cp_root self) ++ [10])
  ++ flat_map (fun line => line ++ [10]) (cp_extensions self).

Definition Checkpoint_digest (self : Checkpoint) : Hash := sha256 (as_bytes (Checkpoint_body self)).

Definition Checkpoint_parse (body : text) : result CheckpointError Checkpoint :=
  let err := MalformedCheckpoint in
  text ← ok_or (strip_suffix 10 body) (err "body must end in a newline"%string);
  match split_on 10 text with
  | [] => Err (err "missing origin"%string)
  | [_] => Err (err "missing tree size"%string)
  | [_; _] => Err (err "missing root hash"%string)
  | origin :: size :: root :: extensions =>
      _ ← refuse_if (negb (is_valid_line origin))
            (err "origin must be non-empty, without control characters"%string);
      _ ← refuse_if (negb (canonical_digits size))
            (err "tree size must be decimal without leading zeros"%string);
      size ← ok_or (parse_u64 size) (err "tree size exceeds u64"%string);
      decoded ← ok_or (b64_decode root) (err "root hash is not standard base64"%string);
      root_bytes ← ok_or (try_into_array 32 decoded) (err "root hash is not 32 bytes"%string);
      _ ← refuse_if (negb (bool_decide (b64_encode root_bytes = root)))
            (err "root hash is not canonically encoded"%string);
      _ ← refuse_if (negb (forallb is_valid_line extensions))
            (err "extension lines must be non-empty, without control characters"%string);
      Ok (mkCheckpoint origin size root_bytes extensions)
  end.

(** ** [impl NoteSignature] *)

Definition NoteSignature_line (self : NoteSignature) : text :=
  SIGNATURE_PREFIX ++ ns_name self ++ [32]
  ++ b64_encode (be_bytes 4 (ns_key_hash self) ++ ns_signature self) ++ [10].

Definition parse_line (line : text) : result CheckpointError NoteSignature :=
  let err := MalformedNote in
  rest ← ok_or (strip_prefix SIGNATURE_PREFIX line)
           (err "signature line must start with an em dash and a space"%string);
  '(name, encoded) ← ok_or (split_once 32 rest)
                       (err "signature line must be `— name signature`"%string);
  _ ← refuse_if (negb (is_valid_name name)) BadName;
  raw ← ok_or (b64_decode encoded) (err "signature is not standard base64"%string);
  _ ← refuse_if (Nat.ltb (length raw) 5)
        (err "signature is shorter than a key hash and one byte"%string);
  Ok (mkNoteSignature name (be_value (take 4 raw)) (drop 4 raw)).

(** ** [impl SignedNote] *)

(** The test for a second signature from the same key. *)
Definition same_key (name : text) (key_hash : Z) (s : NoteSignature) : bool :=
  bool_decide (ns_name s = name) && (ns_key_hash s =? key_hash).

Fixpoint parse_signatures (signatures : list NoteSignature) (lines : list text)
    : result CheckpointError (list NoteSignature) :=
  match lines with
  | [] => Ok signatures
  | line :: lines' =>
      if Nat.eqb (length signatures) MAX_SIGNATURES then Err TooManySignatures
      else
        sig ← parse_line line;
        if existsb (same_key (ns_name sig) (ns_key_hash sig)) signatures
        then Err DuplicateSignature
        else parse_signatures (signatures ++ [sig]) lines'
  end.

Definition SignedNote_parse (note : text) : result CheckpointError SignedNote :=
  let err := MalformedNote in
  _ ← refuse_if (MAX_NOTE_BYTES <? str_len note) NoteTooLarge;
  _ ← refuse_if (existsb (fun c => is_control c && negb (c =? 10)) note)
        (err "note contains a control character other than newline"%string);
  '(before, block) ← ok_or (rsplit_blank note)
                       (err "note has no blank line before its signatures"%string);
  let text := before ++ [10] in
  _ ← refuse_if (ends_with2 10 10 text) (err "note text ends in a blank line"%string);
  block ← ok_or (strip_suffix 10 block) (err "note must end in a newline"%string);
  _ ← refuse_if (bool_decide (block = [])) (err "note has no signatures"%string);
  signatures ← parse_signatures [] (split_on 10 block);
  Ok (mkSignedNote text signatures).

Definition SignedNote_checkpoint (self : SignedNote) : result CheckpointError Checkpoint :=
  Checkpoint_parse (sn_text self).

Definition add_signature (self : SignedNote) (sig : NoteSignature) : result CheckpointError SignedNote :=
  if existsb (same_key (ns_name sig) (ns_key_hash sig)) (sn_signatures self)
  then Err DuplicateSignature
  else if Nat.eqb (length (sn_signatures self)) MAX_SIGNATURES then Err TooManySignatures
  else Ok (mkSignedNote (sn_text self) (sn_signatures self ++ [sig])).

Definition SignedNote_render (self : SignedNote) : text :=
  sn_text self ++ [10] ++ flat_map NoteSignature_line (sn_signatures self).

Definition signature_from (self : SignedNote) (key : NoteVerifier) : result CheckpointError NoteSignature :=
  ok_or (List.find (same_key (nv_name key) (nv_key_hash key)) (sn_signatures self))
    (NotSigned (nv_name key)).

Definition SignedNote_verify (self : SignedNote) (key : NoteVerifier) : result CheckpointError unit :=
  _ ← refuse_if (negb (nv_algorithm key =? ALG_ED25519)) (WrongAlgorithm (nv_algorithm key));
  sig ← signature_from self key;
  bytes ← ok_or (try_into_array 64 (ns_signature sig)) (BadSignature (nv_name key));
  refuse_if (negb (verify_strict (nv_key key) (as_bytes (sn_text self)) bytes))
    (BadSignature (nv_name key)).

Definition signed_by (self : SignedNote) (key : NoteVerifier) : result CheckpointError text :=
  _ ← SignedNote_verify self key;
  sig ← signature_from self key;
  Ok (sn_text self ++ [10] ++ NoteSignature_line sig).

Definition cosignature_message (timestamp : Z) (text : text) : result CheckpointError Text.text :=
  _ ← refuse_if ((timestamp =? 0) || (MAX_COSIGNATURE_TIME <? timestamp)) (BadTimestamp timestamp);
  _ ← refuse_if (Nat.ltb (length (split_on 10 text)) 4)
        (MalformedNote "a cosigned note has at least three lines");
  Ok (COSIGNATURE_HEADER ++ show_u64 timestamp ++ [10] ++ text).

Definition cosignature_time (self : SignedNote) (key : NoteVerifier) : result CheckpointError Z :=
  _ ← refuse_if (negb (nv_algorithm key =? ALG_COSIGNATURE_V1)) (WrongAlgorithm (nv_algorithm key));
  sig ← signature_from self key;
  _ ← refuse_if (negb (Nat.eqb (length (ns_signature sig)) 72)) (BadSignature (nv_name key));
  let timestamp := be_value (take 8 (ns_signature sig)) in
  bytes ← ok_or (try_into_array 64 (drop 8 (ns_signature sig))) (BadSignature (nv_name key));
  message ← cosignature_message timestamp (sn_text self);
  _ ← refuse_if (negb (verify_strict (nv_key key) (as_bytes message) bytes)) (BadSignature (nv_name key));
  Ok timestamp.

(** ** Keys *)

Definition key_hash (name : text) (algorithm : Z) (public : list Z) : Z :=
  be_value (take 4 (sha256 (as_bytes name ++ [10] ++ [algorithm] ++ public))).

Definition NoteVerifier_new (name : text) (algorithm : Z) (key : list Z)
    : result CheckpointError NoteVerifier :=
  if negb (is_valid_name name) then Err BadName
  else Ok (mkNoteVerifier name algorithm (key_hash name algorithm key) key).

(** The eight hexadecimal digits of a key hash. *)
Definition key_hash_text (hash : text) : bool :=
  (str_len hash =? 8) && forallb is_ascii_hexdigit (as_bytes hash).

Definition NoteVerifier_parse (vkey : text) : result CheckpointError NoteVerifier :=
  '(name, hash, encoded) ← ok_or (splitn3 43 vkey) (BadKey "expected name+hash+key");
  _ ← refuse_if (negb (key_hash_text hash)) (BadKey "key hash must be 8 hex digits");
  raw ← ok_or (b64_decode encoded) (BadKey "key is not standard base64");
  match raw with
  | [] => Err (BadKey "key is empty")
  | algorithm :: public =>
      _ ← refuse_if (negb (algorithm =? ALG_ED25519) && negb (algorithm =? ALG_COSIGNATURE_V1))
            (WrongAlgorithm algorithm);
      public ← ok_or (try_into_array 32 public) (BadKey "Ed25519 public key must be 32 bytes");
      _ ← refuse_if (negb (public_key_ok public)) (BadKey "not an Ed25519 public key");
      parsed ← NoteVerifier_new name algorithm public;
      stated ← ok_or (from_str_radix16 32 hash) (BadKey "key hash must be 8 hex digits");
      _ ← refuse_if (negb (stated =? nv_key_hash parsed)) (BadKey "key hash does not match the key");
      Ok parsed
  end.

Definition to_vkey (self : NoteVerifier) : text :=
  nv_name self ++ [43] ++ hex8 (nv_key_hash self) ++ [43]
  ++ b64_encode (nv_algorithm self :: nv_key self).

Definition SKEY_PREFIX : text := chars "PRIVATE+KEY+".

Definition parse_skey (skey : text) (algorithms : list Z) : result CheckpointError (text * list Z) :=
  rest ← ok_or (strip_prefix SKEY_PREFIX skey) (BadKey "signer key must start with PRIVATE+KEY+");
  '(name, hash, encoded) ← ok_or (splitn3 43 rest) (BadKey "expected PRIVATE+KEY+name+hash+key");
  _ ← refuse_if (negb (is_valid_name name)) BadName;
  _ ← refuse_if (negb (key_hash_text hash)) (BadKey "key hash must be 8 hex digits");
  raw ← ok_or (b64_decode encoded) (BadKey "key is not standard base64");
  match raw with
  | [] => Err (BadKey "key is empty")
  | algorithm :: seed =>
      _ ← refuse_if (negb (bool_decide (algorithm ∈ algorithms))) (WrongAlgorithm algorithm);
      seed ← ok_or (try_into_array 32 seed) (BadKey "Ed25519 seed must be 32 bytes");
      Ok (name, seed)
  end.

Definition render_skey (name : text) (algorithm hash : Z) (seed : list Z) : text :=
  SKEY_PREFIX ++ name ++ [43] ++ hex8 hash ++ [43] ++ b64_encode (algorithm :: seed).

(** ** [impl LogSigner] *)

Definition LogSigner_from_seed (name : text) (seed : list Z) : result CheckpointError LogSigner :=
  verifier ← NoteVerifier_new name ALG_ED25519 (verifying_key seed);
  Ok (mkLogSigner verifier seed).

Definition LogSigner_from_skey (skey : text) : result CheckpointError LogSigner :=
  '(name, seed) ← parse_skey skey [ALG_ED25519];
  LogSigner_from_seed name seed.

Definition LogSigner_to_skey (self : LogSigner) : text :=
  render_skey (nv_name (lsg_verifier self)) ALG_ED25519 (nv_key_hash (lsg_verifier self)) (lsg_key self).

Definition LogSigner_sign (self : LogSigner) (checkpoint : Checkpoint) : SignedNote :=
  let text := Checkpoint_body checkpoint in
  let signature := ed_sign (lsg_key self) (as_bytes text) in
  mkSignedNote text
    [mkNoteSignature (nv_name (lsg_verifier self)) (nv_key_hash (lsg_verifier self)) signature].

(** ** [impl WitnessSigner] *)

Definition WitnessSigner_from_seed (name : text) (seed : list Z) : result CheckpointError WitnessSigner :=
  verifier ← NoteVerifier_new name ALG_COSIGNATURE_V1 (verifying_key seed);
  Ok (mkWitnessSigner verifier seed).

Definition WitnessSigner_from_skey (skey : text) : result CheckpointError WitnessSigner :=
  '(name, seed) ← parse_skey skey [ALG_COSIGNATURE_V1; ALG_ED25519];
  WitnessSigner_from_seed name seed.

Definition WitnessSigner_to_skey (self : WitnessSigner) : text :=
  render_skey (nv_name (wsg_verifier self)) ALG_COSIGNATURE_V1 (nv_key_hash (wsg_verifier self))
    (wsg_key self).

Definition cosign (self : WitnessSigner) (text : text) (timestamp : Z)
    : result CheckpointError NoteSignature :=
  message ← cosignature_message timestamp text;
  Ok (mkNoteSignature (nv_name (wsg_verifier self)) (nv_key_hash (wsg_verifier self))
        (be_bytes 8 timestamp ++ ed_sign (wsg_key self) (as_bytes message))).

End checkpoint.
