(* ===== verification/CheckpointProps.v ===== *)
(** * Checkpoint text is canonical, signatures verify

    Parsers accept exactly what the printers write for well-formed values;
    signed and cosigned notes survive transport and verify. *)

From Stdlib Require Import String.
From S2P Require Import Prelude Bytes Text Crypto Merkle Checkpoint.
#[local] Open Scope Z_scope.
#[local] Opaque decimal.

(** ** Characters *)

Lemma not_elem_existsb {A} (p : A -> bool) c l : existsb p l = false -> p c = true -> c ∉ l.
Proof.
  intros H Hc Hin. enough (existsb p l = true) by congruence.
  apply existsb_exists. exists c. split; [by apply list_elem_of_In|done].
Qed.

Lemma not_elem_forallb {A} (p : A -> bool) c l : forallb p l = true -> p c = false -> c ∉ l.
Proof. intros H Hc Hin%list_elem_of_In. rewrite forallb_forall in H. specialize (H c Hin). congruence. Qed.

Lemma valid_line_spec l : is_valid_line l = true <-> l <> [] /\ existsb is_control l = false.
Proof. unfold is_valid_line. rewrite andb_true_iff, !negb_true_iff, bool_decide_eq_false. done. Qed.

Lemma valid_line_newline l : is_valid_line l = true -> 10 ∉ l.
Proof. intros [_ H]%valid_line_spec. by eapply not_elem_existsb. Qed.

Lemma valid_name_spec n : is_valid_name n = true <->
  n <> [] /\ existsb (fun c => (c =? 43) || is_whitespace c || is_control c) n = false.
Proof. unfold is_valid_name. rewrite andb_true_iff, !negb_true_iff, bool_decide_eq_false. done. Qed.

Lemma valid_name_chars n : is_valid_name n = true ->
  (10 ∉ n) /\ (32 ∉ n) /\ (43 ∉ n) /\ existsb is_control n = false.
Proof.
  intros [_ H]%valid_name_spec. split_and!; try by eapply not_elem_existsb.
  destruct (existsb is_control n) eqn:E; [|done]. apply existsb_exists in E as (c & Hc & E).
  rewrite <- H. symmetry. apply existsb_exists. exists c. by rewrite E, orb_true_r.
Qed.

Lemma show_u64_newline z : is_u 64 z -> 10 ∉ show_u64 z.
Proof.
  intros Hz Hin. pose proof (decimal_digits 20 z (proj1 Hz)) as H. rewrite list.Forall_forall in H.
  specialize (H 10 Hin). lia.
Qed.

Lemma try_into_array_Some n bs r : try_into_array n bs = Some r <-> r = bs /\ length bs = n.
Proof. unfold try_into_array. case_bool_decide; naive_solver. Qed.

(** ** Well-formed values *)

Definition Checkpoint_wf (c : Checkpoint) : Prop :=
  is_valid_line (cp_origin c) = true /\ is_u 64 (cp_size c) /\
  (length (cp_root c) = 32%nat /\ Forall is_byte (cp_root c)) /\
  Forall (fun l => is_valid_line l = true) (cp_extensions c).
#[export] Instance Checkpoint_wf_dec c : Decision (Checkpoint_wf c).
Proof. unfold Checkpoint_wf. apply _. Defined.

Definition NoteSignature_wf (s : NoteSignature) : Prop :=
  is_valid_name (ns_name s) = true /\ is_u 32 (ns_key_hash s) /\
  ns_signature s <> [] /\ Forall is_byte (ns_signature s).
#[export] Instance NoteSignature_wf_dec s : Decision (NoteSignature_wf s).
Proof. unfold NoteSignature_wf. apply _. Defined.

Definition sig_key (s : NoteSignature) : text * Z := (ns_name s, ns_key_hash s).

Section props.
Context {HF : HashFunctions} {B64 : Base64} {ED : Ed25519}.

Lemma b64_no c bs : Forall is_byte bs -> b64_char c = false -> c ∉ b64_encode bs.
Proof. intros Hb Hc. by eapply not_elem_forallb; [apply b64_alphabet|]. Qed.

Definition checkpoint_lines (c : Checkpoint) : list text :=
  cp_origin c :: show_u64 (cp_size c) :: b64_encode (cp_root c) :: cp_extensions c.

Lemma body_unlines c : Checkpoint_body c = unlines (checkpoint_lines c).
Proof. done. Qed.

Lemma checkpoint_lines_newline c : Checkpoint_wf c -> Forall (fun l => 10 ∉ l) (checkpoint_lines c).
Proof.
  intros (Ho & Hs & [_ Hr] & He). repeat constructor.
  - by apply valid_line_newline.
  - by apply show_u64_newline.
  - by apply b64_no.
  - eapply List.Forall_impl; [|exact He]. apply valid_line_newline.
Qed.

Lemma forallb_Forall {A} (p : A -> bool) l : forallb p l = true <-> Forall (fun x => p x = true) l.
Proof.
  rewrite forallb_forall, list.Forall_forall. split; intros H x Hx; apply H; by apply list_elem_of_In.
Qed.

Lemma checkpoint_parse_exact t c : Checkpoint_parse t = Ok c <-> Checkpoint_wf c /\ t = Checkpoint_body c.
Proof.
  split.
  - unfold Checkpoint_parse. intros H. open_results.
    destruct (split_on 10 x) as [|origin [|size [|root exts]]] eqn:Es; try done. open_results.
    destruct (proj1 (lines_exact t (origin :: size :: root :: exts))) as (_ & -> & _); [by exists x|].
    match goal with H : parse_u64 _ = Some _ |- _ => apply parse_show in H as [-> Hu]; [|done] end.
    match goal with H : try_into_array _ _ = Some _ |- _ => apply try_into_array_Some in H as [-> ?] end.
    subst. rewrite body_unlines. split; [|done]. split_and!; cbn; try done.
    + by eapply b64_decode_bytes.
    + by apply forallb_Forall.
  - intros [Hwf ->]. pose proof (checkpoint_lines_newline c Hwf) as Hn.
    destruct (proj2 (lines_exact (Checkpoint_body c) (checkpoint_lines c))) as (u & Hu & Hs); [done|].
    destruct Hwf as (Ho & Hz & [Hl Hb] & He). unfold Checkpoint_parse. rewrite Hu. cbn [ok_or mbind result_bind].
    rewrite Hs. unfold checkpoint_lines. rewrite Ho, show_u64_canonical, show_u64_parse, b64_decode_encode by done.
    cbn. rewrite (proj2 (try_into_array_Some 32 (cp_root c) (cp_root c))) by done. cbn.
    rewrite bool_decide_true by done. rewrite (proj2 (forallb_Forall _ _)) by done. by destruct c.
Qed.

(** ** Signature lines *)

Lemma parse_line_wf l s : parse_line l = Ok s -> NoteSignature_wf s /\
  exists raw, b64_decode raw = Some (be_bytes 4 (ns_key_hash s) ++ ns_signature s) /\
    l = SIGNATURE_PREFIX ++ ns_name s ++ [32] ++ raw.
Proof.
  unfold parse_line. intros H. open_results.
  match goal with H : strip_prefix _ _ = Some _ |- _ => apply strip_prefix_Some in H as -> end.
  match goal with H : split_once _ _ = Some _ |- _ => apply split_once_Some in H as [-> _] end.
  match goal with H : b64_decode _ = Some ?r |- _ => pose proof (b64_decode_bytes _ _ H) as Hb;
    rename r into raw, H into Hd end.
  match goal with H : Nat.ltb _ _ = false |- _ => apply Nat.ltb_ge in H end.
  rewrite <- (take_drop 4 raw) in Hb. apply list.Forall_app in Hb as [Hb4 Hbd].
  assert (length (take 4 raw) = 4%nat) as H4 by (rewrite length_take; lia).
  split; [split_and!; cbn|].
  - done.
  - pose proof (be_value_range _ Hb4) as Hr. by rewrite H4 in Hr.
  - intros E. apply (f_equal length) in E. rewrite length_drop in E. simpl in E. lia.
  - done.
  - eexists. split; [|done]. cbn [ns_name ns_key_hash ns_signature].
    rewrite <- H4 at 1. by rewrite be_bytes_be_value, take_drop.
Qed.

Lemma parse_line_line l s : NoteSignature_wf s -> NoteSignature_line s = l ++ [10] -> parse_line l = Ok s.
Proof.
  intros (Hn & Hk & Hne & Hb) Hl. destruct s as [name kh sig].
  unfold NoteSignature_line in Hl. cbn [ns_name ns_key_hash ns_signature] in *. rewrite !app_assoc in Hl.
  apply app_inj_tail in Hl as [<- _]. rewrite <- !app_assoc. unfold parse_line.
  rewrite (proj2 (strip_prefix_Some _ _ _) eq_refl). cbn [ok_or mbind result_bind app].
  destruct (valid_name_chars name Hn) as (_ & H32 & _ & _).
  rewrite (proj2 (split_once_Some 32 _ name _) (conj eq_refl H32)). cbn [ok_or mbind result_bind].
  rewrite Hn. cbn [negb refuse_if]. rewrite b64_decode_encode by (apply Forall_app; split; [apply be_bytes_bytes|done]).
  cbn [ok_or mbind result_bind]. rewrite length_app, length_be_bytes.
  rewrite (proj2 (Nat.ltb_ge _ _)) by (destruct sig; [done|simpl; lia]). cbn [refuse_if mbind result_bind].
  rewrite take_app_length', drop_app_length' by by rewrite length_be_bytes.
  by rewrite be_value_be_bytes.
Qed.

(** A signature line without its newline. *)
Definition sig_line (s : NoteSignature) : text :=
  SIGNATURE_PREFIX ++ ns_name s ++ [32] ++ b64_encode (be_bytes 4 (ns_key_hash s) ++ ns_signature s).

Lemma line_sig_line s : NoteSignature_line s = sig_line s ++ [10].
Proof. unfold NoteSignature_line, sig_line. by rewrite <- !app_assoc. Qed.

Lemma lines_unlines ss : flat_map NoteSignature_line ss = unlines (map sig_line ss).
Proof. induction ss as [|s ss IH]; [done|]. unfold unlines in *. cbn [flat_map map]. by rewrite line_sig_line, IH. Qed.

Lemma parse_line_exact {BC : Base64Canonical} l s :
  parse_line l = Ok s <-> NoteSignature_wf s /\ l = sig_line s.
Proof.
  split.
  - intros (Hwf & raw & Hr & ->)%parse_line_wf. split; [done|]. unfold sig_line.
    by rewrite (b64_canonical _ _ Hr).
  - intros [Hwf ->]. apply parse_line_line; [done|]. apply line_sig_line.
Qed.

(** ** Notes *)

Lemma same_key_spec name kh s : same_key name kh s = true <-> sig_key s = (name, kh).
Proof. unfold same_key, sig_key. rewrite andb_true_iff, bool_decide_eq_true, Z.eqb_eq. naive_solver. Qed.

Lemma no_same_key s ss :
  existsb (same_key (ns_name s) (ns_key_hash s)) ss = false <-> sig_key s ∉ map sig_key ss.
Proof.
  rewrite <- not_true_iff_false, existsb_exists. apply not_iff_compat.
  rewrite list_elem_of_In, in_map_iff. split; intros (x & H1 & H2); exists x.
  - by apply same_key_spec in H2.
  - split; [done|]. by apply same_key_spec.
Qed.

(** The loop keeps its keys distinct and its count bounded. *)
Lemma parse_signatures_exact lines : forall acc ss,
  NoDup (map sig_key acc) -> (length acc <= MAX_SIGNATURES)%nat ->
  parse_signatures acc lines = Ok ss <->
  exists new, ss = acc ++ new /\ Forall2 (fun l s => parse_line l = Ok s) lines new /\
    NoDup (map sig_key ss) /\ (length ss <= MAX_SIGNATURES)%nat.
Proof.
  induction lines as [|l lines IH]; intros acc ss Hd Hm; cbn [parse_signatures].
  - split.
    + intros [= <-]. exists []. by rewrite app_nil_r.
    + intros (new & -> & H & _). apply Forall2_nil_inv_l in H as ->. by rewrite app_nil_r.
  - destruct (Nat.eqb_spec (length acc) MAX_SIGNATURES) as [Em|Em].
    { split; [done|]. intros (new & -> & H & _ & Hl). apply Forall2_cons_inv_l in H as (s & n & _ & _ & ->).
      rewrite length_app in Hl. simpl in Hl. lia. }
    destruct (parse_line l) as [s|e] eqn:El; cbn [mbind result_bind].
    2:{ split; [done|]. intros (new & _ & H & _). apply Forall2_cons_inv_l in H as (s & n & H & _).
        congruence. }
    destruct (existsb _ acc) eqn:Ed.
    { split; [done|]. intros (new & -> & H & Hn & _). apply Forall2_cons_inv_l in H as (s' & n & H & _ & ->).
      rewrite El in H. injection H as <-. rewrite map_app in Hn. apply list.NoDup_app in Hn as (_ & Hn & _).
      enough (sig_key s ∉ map sig_key acc) as H%no_same_key by congruence.
      intros Hin. apply (Hn _ Hin). simpl. left. }
    apply no_same_key in Ed. rewrite IH.
    + split; intros (new & -> & H & Hn & Hl).
      * exists (s :: new). rewrite <- app_assoc in *. split_and!; try done. by constructor.
      * apply Forall2_cons_inv_l in H as (s' & n & H & Hf & ->). rewrite El in H. injection H as <-.
        exists n. rewrite <- app_assoc. done.
    + rewrite map_app. apply list.NoDup_app. split_and!; [done| |apply NoDup_singleton].
      intros k Hk Hs%list_elem_of_singleton. by subst.
    + rewrite length_app. simpl. lia.
Qed.

Definition note_text_ok (t : text) : Prop :=
  strip_suffix 10 t <> None /\ ends_with2 10 10 t = false /\
  existsb (fun c => is_control c && negb (c =? 10)) t = false.

Definition SignedNote_wf (n : SignedNote) : Prop :=
  note_text_ok (sn_text n) /\ sn_signatures n <> [] /\ (length (sn_signatures n) <= MAX_SIGNATURES)%nat /\
  Forall NoteSignature_wf (sn_signatures n) /\ NoDup (map sig_key (sn_signatures n)) /\
  str_len (SignedNote_render n) <= MAX_NOTE_BYTES.

Lemma no_control_app p a b : existsb p (a ++ b : text) = existsb p a || existsb p b.
Proof. apply existsb_app. Qed.

Definition ctl (c : Z) : bool := is_control c && negb (c =? 10).

Lemma b64_no_control bs : Forall is_byte bs -> existsb is_control (b64_encode bs) = false.
Proof.
  intros H. pose proof (b64_alphabet bs H) as Ha. rewrite forallb_forall in Ha.
  apply not_true_iff_false. rewrite existsb_exists. intros (c & Hin & Hc). specialize (Ha c Hin).
  unfold b64_char, is_ascii_digit, is_control in *. lia.
Qed.

Lemma existsb_ctl t : existsb is_control t = false -> existsb ctl t = false.
Proof.
  rewrite <- !not_true_iff_false, !existsb_exists. intros H (c & Hin & Hc). apply H. exists c.
  unfold ctl in Hc. apply andb_true_iff in Hc. tauto.
Qed.

Lemma sig_line_chars s : NoteSignature_wf s -> (10 ∉ sig_line s) /\ sig_line s <> [] /\
  existsb is_control (sig_line s) = false.
Proof.
  intros (Hn & Hk & Hne & Hb). destruct (valid_name_chars _ Hn) as (_ & _ & _ & Hc).
  assert (existsb is_control (sig_line s) = false) as H.
  { unfold sig_line. rewrite !existsb_app, Hc, b64_no_control; [done|].
    apply Forall_app. split; [apply be_bytes_bytes|done]. }
  split_and!; [by eapply not_elem_existsb|done|done].
Qed.

Lemma lines_no_ctl ss : Forall NoteSignature_wf ss -> existsb ctl (flat_map NoteSignature_line ss) = false.
Proof.
  induction 1 as [|s ss Hs _ IH]; [done|]. cbn [flat_map]. rewrite line_sig_line, !existsb_app, IH.
  destruct (sig_line_chars s Hs) as (_ & _ & Hc). by rewrite (existsb_ctl _ Hc).
Qed.

Lemma note_parse_render n : SignedNote_wf n -> SignedNote_parse (SignedNote_render n) = Ok n.
Proof.
  intros ((Hs & He & Hc) & Hne & Hm & HS & Hd & Hl). unfold SignedNote_parse.
  destruct (strip_suffix 10 (sn_text n)) as [before|] eqn:Et; [|done]. apply strip_suffix_Some in Et.
  rewrite (proj2 (Z.ltb_ge _ _)) by done. cbn [refuse_if mbind result_bind].
  assert (existsb ctl (SignedNote_render n) = false) as Hctl.
  { unfold SignedNote_render. rewrite !existsb_app, lines_no_ctl by done. unfold ctl. by rewrite Hc. }
  unfold ctl in Hctl. rewrite Hctl. cbn [refuse_if mbind result_bind].
  assert (rsplit_blank (SignedNote_render n) = Some (before, unlines (map sig_line (sn_signatures n)))) as ->.
  { apply rsplit_blank_Some. unfold SignedNote_render. rewrite Et, <- app_assoc, lines_unlines. split; [done|].
    apply unlines_no_blank. apply list.Forall_forall. intros l (s & -> & Hin)%list_elem_of_fmap.
    rewrite list.Forall_forall in HS. destruct (sig_line_chars s (HS s Hin)) as (? & ? & _). done. }
  cbn [ok_or mbind result_bind]. rewrite <- Et, He. cbn [refuse_if mbind result_bind].
  destruct (proj2 (lines_exact (unlines (map sig_line (sn_signatures n))) (map sig_line (sn_signatures n))))
    as (u & Hu & Hsp).
  { split_and!; [by destruct (sn_signatures n)|done|]. apply list.Forall_forall.
    intros l (s & -> & Hin)%list_elem_of_fmap. rewrite list.Forall_forall in HS. by apply sig_line_chars, HS. }
  rewrite Hu. cbn [ok_or mbind result_bind]. rewrite bool_decide_false.
  2:{ intros ->. destruct (sn_signatures n) as [|s []]; [done| |done]. by injection Hsp. }
  cbn [refuse_if mbind result_bind]. rewrite Hsp.
  rewrite (proj2 (parse_signatures_exact _ [] (sn_signatures n) (NoDup_nil_2) ltac:(simpl; lia))).
  { cbn. by destruct n. }
  exists (sn_signatures n). split_and!; try done. apply Forall2_fmap_l, Forall_Forall2_diag.
  eapply List.Forall_impl; [|exact HS]. intros s Hw. apply parse_line_line; [done|]. apply line_sig_line.
Qed.

Lemma note_parse_wf {BC : Base64Canonical} t n :
  SignedNote_parse t = Ok n -> SignedNote_wf n /\ t = SignedNote_render n.
Proof.
  unfold SignedNote_parse. intros H. open_results.
  match goal with H : rsplit_blank _ = Some _ |- _ => apply rsplit_blank_Some in H as [-> _] end.
  match goal with H : parse_signatures [] _ = Ok _ |- _ =>
    apply parse_signatures_exact in H as (new & -> & Hf & Hd & Hl); [|apply NoDup_nil_2|simpl; lia] end.
  match goal with H : strip_suffix 10 _ = Some ?u |- _ => rename u into blk, H into Hst end.
  destruct (proj1 (lines_exact y (split_on 10 blk))) as (Hn & -> & _); [by exists blk|].
  simpl in Hd, Hl. assert (split_on 10 blk = map sig_line new /\ Forall NoteSignature_wf new) as [Hb Hw].
  { clear -Hf BC. induction Hf as [|l s ls ss Hl _ [-> IH]]; [done|].
    apply parse_line_exact in Hl as [Hw ->]. split; [done|by constructor]. }
  rewrite Hb in *. assert (x ++ 10 :: 10 :: unlines (map sig_line new) =
    SignedNote_render (mkSignedNote (x ++ [10]) new)) as Et.
  { unfold SignedNote_render. cbn [sn_text sn_signatures]. by rewrite lines_unlines, <- app_assoc. }
  rewrite Et in *. split; [|done]. unfold SignedNote_wf, note_text_ok. split_and!; cbn [sn_text sn_signatures]; try done.
  - by rewrite (proj2 (strip_suffix_Some 10 _ x) eq_refl).
  - match goal with H : existsb _ _ = false |- _ =>
      unfold SignedNote_render in H; rewrite existsb_app in H; by apply orb_false_iff in H as [? _] end.
  - by destruct new.
  - match goal with H : (_ <? _) = false |- _ => by apply Z.ltb_ge in H end.
Qed.

(** ** Signing *)

Lemma body_text_ok c : Checkpoint_wf c -> note_text_ok (Checkpoint_body c).
Proof.
  intros Hwf. pose proof (checkpoint_lines_newline c Hwf) as Hn. pose proof Hwf as (Ho & Hs & [Hr32 Hr] & He).
  assert (Forall (fun l => (10 ∉ l) /\ l <> []) (checkpoint_lines c)) as Hne.
  { apply list.Forall_forall. intros l Hin. rewrite list.Forall_forall in Hn. split; [by apply Hn|].
    unfold checkpoint_lines in Hin. rewrite !elem_of_cons in Hin. destruct Hin as [->|[->|[->|Hin]]].
    - by apply valid_line_spec in Ho as [? _].
    - by apply show_u64_canonical, canonical_digits_spec in Hs as (_ & ? & _).
    - intros E. apply (f_equal b64_decode) in E. rewrite b64_decode_encode in E by done.
      rewrite <- b64_encode_nil, b64_decode_encode in E by constructor.
      injection E as E. by rewrite E in Hr32.
    - rewrite list.Forall_forall in He. by apply He, valid_line_spec in Hin as [? _]. }
  split_and!.
  - rewrite body_unlines, unlines_join by done. by rewrite (proj2 (strip_suffix_Some _ _ _) eq_refl).
  - destruct (ends_with2 _ _ _) eqn:E; [|done]. apply ends_blank in E.
    rewrite <- (unlines_no_blank _ Hne), <- body_unlines. cbn [has_blank].
    destruct (Checkpoint_body c); [done|]. by rewrite E, orb_true_r.
  - rewrite body_unlines. apply not_true_iff_false. rewrite existsb_exists. intros (ch & Hin & Hch).
    apply in_flat_map in Hin as (l & Hin & Hch'). apply in_app_or in Hch' as [Hch'|[<-|[]]]; [|done].
    assert (existsb is_control l = false) as Hc.
    { destruct Hin as [<-|[<-|[<-|Hin]]].
      - by apply valid_line_spec in Ho as [_ ?].
      - apply not_true_iff_false. rewrite existsb_exists. intros (d & Hd & Hdc).
        pose proof (decimal_digits 20 (cp_size c) (proj1 Hs)) as HD. rewrite list.Forall_forall in HD.
        apply list_elem_of_In in Hd. specialize (HD d Hd). unfold is_control in Hdc. lia.
      - by apply b64_no_control.
      - rewrite list.Forall_forall in He. by apply list_elem_of_In, He, valid_line_spec in Hin as [_ ?]. }
    apply andb_true_iff in Hch as [Hch _].
    enough (existsb is_control l = true) by congruence. apply existsb_exists. by exists ch.
Qed.

Definition verifier_wf (v : NoteVerifier) : Prop :=
  is_valid_name (nv_name v) = true /\ nv_key_hash v = key_hash (nv_name v) (nv_algorithm v) (nv_key v).

Lemma key_hash_range name alg key : is_u 32 (key_hash name alg key).
Proof.
  unfold key_hash. set (d := sha256 _).
  assert (length (take 4 d) = 4%nat) as Hl by (rewrite length_take; unfold d; rewrite sha256_length; lia).
  pose proof (be_value_range (take 4 d)) as H. rewrite Hl in H. apply H. apply Forall_take, sha256_bytes.
Qed.

Lemma verifier_new_Ok name alg key v : NoteVerifier_new name alg key = Ok v <->
  is_valid_name name = true /\ v = mkNoteVerifier name alg (key_hash name alg key) key.
Proof. unfold NoteVerifier_new. destruct (is_valid_name name); cbn; naive_solver. Qed.

(** The line a witness adds at a time it may sign. *)
Definition cosig (t : text) (w : WitnessSigner) (time : Z) : NoteSignature :=
  mkNoteSignature (nv_name (wsg_verifier w)) (nv_key_hash (wsg_verifier w))
    (be_bytes 8 time ++ ed_sign (wsg_key w) (as_bytes (COSIGNATURE_HEADER ++ show_u64 time ++ [10] ++ t))).

(** Every witness of a list cosigns, in order. *)
Fixpoint cosign_all (n : SignedNote) (ws : list (WitnessSigner * Z)) : result CheckpointError SignedNote :=
  match ws with
  | [] => Ok n
  | (w, time) :: ws' =>
      sig ← cosign w (sn_text n) time;
      n' ← add_signature n sig;
      cosign_all n' ws'
  end.

Definition time_ok (time : Z) : Prop := 1 <= time <= MAX_COSIGNATURE_TIME.

Lemma cosignature_message_ok c time : Checkpoint_wf c -> time_ok time ->
  cosignature_message time (Checkpoint_body c) =
    Ok (COSIGNATURE_HEADER ++ show_u64 time ++ [10] ++ Checkpoint_body c).
Proof.
  intros Hc [H1 H2]. unfold cosignature_message.
  rewrite (proj2 (Z.eqb_neq _ _)), (proj2 (Z.ltb_ge _ _)) by lia. cbn [orb refuse_if mbind result_bind].
  rewrite body_unlines at 1. rewrite split_unlines by by apply checkpoint_lines_newline.
  rewrite length_app. by rewrite (proj2 (Nat.ltb_ge _ _)) by (simpl; lia).
Qed.

Definition witness_key (w : WitnessSigner) : text * Z :=
  (nv_name (wsg_verifier w), nv_key_hash (wsg_verifier w)).

Lemma cosign_all_ok c ws : Checkpoint_wf c -> Forall (fun p => time_ok (snd p)) ws -> forall sigs,
  NoDup (map sig_key sigs ++ map (fun p => witness_key (fst p)) ws) ->
  (length sigs + length ws <= MAX_SIGNATURES)%nat ->
  cosign_all (mkSignedNote (Checkpoint_body c) sigs) ws =
    Ok (mkSignedNote (Checkpoint_body c) (sigs ++ map (fun p => cosig (Checkpoint_body c) (fst p) (snd p)) ws)).
Proof.
  intros Hc. induction 1 as [|[w t] ws Ht _ IH]; intros sigs Hd Hl; cbn [cosign_all]; [by rewrite app_nil_r|].
  unfold cosign. cbn [sn_text]. rewrite cosignature_message_ok by done. cbn [mbind result_bind].
  change (mkNoteSignature _ _ _) with (cosig (Checkpoint_body c) w t). unfold add_signature. cbn [sn_signatures sn_text].
  rewrite (proj2 (no_same_key _ _)).
  2:{ apply list.NoDup_app in Hd as (_ & Hd & _). intros Hin. apply (Hd _ Hin). left. }
  simpl in Hl. rewrite (proj2 (Nat.eqb_neq _ _)) by lia. cbn [mbind result_bind]. rewrite IH.
  - by rewrite <- app_assoc.
  - rewrite map_app, <- app_assoc. exact Hd.
  - rewrite length_app. simpl. lia.
Qed.

Lemma find_sig ss s : NoDup (map sig_key ss) -> s ∈ ss ->
  List.find (same_key (ns_name s) (ns_key_hash s)) ss = Some s.
Proof.
  induction ss as [|x ss IH]; [intros _ H; by apply not_elem_of_nil in H|].
  intros [Hx Hd]%list.NoDup_cons Hin. cbn [List.find].
  destruct (same_key _ _ x) eqn:E.
  - apply elem_of_cons in Hin as [->|Hin]; [done|]. apply same_key_spec in E. exfalso. apply Hx.
    rewrite E. by apply (list_elem_of_fmap_2 sig_key).
  - apply elem_of_cons in Hin as [->|Hin]; [|by apply IH].
    by rewrite (proj2 (same_key_spec _ _ x)) in E.
Qed.

Definition log_signer_wf (s : LogSigner) : Prop :=
  exists name, LogSigner_from_seed name (lsg_key s) = Ok s.
Definition witness_signer_wf (s : WitnessSigner) : Prop :=
  exists name, WitnessSigner_from_seed name (wsg_key s) = Ok s.

Lemma log_signer_eq s : log_signer_wf s <-> is_valid_name (nv_name (lsg_verifier s)) = true /\
  lsg_verifier s = mkNoteVerifier (nv_name (lsg_verifier s)) ALG_ED25519
    (key_hash (nv_name (lsg_verifier s)) ALG_ED25519 (verifying_key (lsg_key s))) (verifying_key (lsg_key s)).
Proof.
  unfold log_signer_wf, LogSigner_from_seed. split.
  - intros (name & H). apply bind_Ok in H as (v & [Hn ->]%verifier_new_Ok & [= <-]). done.
  - intros [Hn Hv]. exists (nv_name (lsg_verifier s)).
    rewrite (proj2 (verifier_new_Ok _ _ _ _) (conj Hn eq_refl)). cbn. rewrite <- Hv. by destruct s.
Qed.

Lemma witness_signer_eq s : witness_signer_wf s <-> is_valid_name (nv_name (wsg_verifier s)) = true /\
  wsg_verifier s = mkNoteVerifier (nv_name (wsg_verifier s)) ALG_COSIGNATURE_V1
    (key_hash (nv_name (wsg_verifier s)) ALG_COSIGNATURE_V1 (verifying_key (wsg_key s))) (verifying_key (wsg_key s)).
Proof.
  unfold witness_signer_wf, WitnessSigner_from_seed. split.
  - intros (name & H). apply bind_Ok in H as (v & [Hn ->]%verifier_new_Ok & [= <-]). done.
  - intros [Hn Hv]. exists (nv_name (wsg_verifier s)).
    rewrite (proj2 (verifier_new_Ok _ _ _ _) (conj Hn eq_refl)). cbn. rewrite <- Hv. by destruct s.
Qed.

Definition log_key (s : LogSigner) : text * Z := (nv_name (lsg_verifier s), nv_key_hash (lsg_verifier s)).

(** The note with the log's signature and the witnesses'. *)
Definition full_note (log : LogSigner) (c : Checkpoint) (ws : list (WitnessSigner * Z)) : SignedNote :=
  mkSignedNote (Checkpoint_body c)
    (sn_signatures (LogSigner_sign log c)
     ++ map (fun p => cosig (Checkpoint_body c) (fst p) (snd p)) ws).

Lemma full_note_keys log c ws :
  map sig_key (sn_signatures (full_note log c ws)) = log_key log :: map (fun p => witness_key (fst p)) ws.
Proof. cbn. rewrite map_map. done. Qed.

Lemma full_note_verify log c ws : log_signer_wf log ->
  SignedNote_verify (full_note log c ws) (lsg_verifier log) = Ok tt.
Proof.
  intros [Hn Hv]%log_signer_eq. unfold SignedNote_verify, signature_from. rewrite Hv at 1. cbn [nv_algorithm].
  rewrite Z.eqb_refl. cbn [negb refuse_if mbind result_bind full_note LogSigner_sign sn_signatures app List.find].
  rewrite (proj2 (same_key_spec _ _ _)) by done. cbn [ok_or mbind result_bind ns_signature].
  rewrite (proj2 (try_into_array_Some 64 _ _) (conj eq_refl (ed_sign_length _ _))). cbn [ok_or mbind result_bind sn_text].
  rewrite Hv. cbn [nv_key]. by rewrite verify_strict_sign.
Qed.

Lemma full_note_time log c ws w t :
  Checkpoint_wf c -> NoDup (log_key log :: map (fun p => witness_key (fst p)) ws) ->
  witness_signer_wf w -> time_ok t -> (w, t) ∈ ws ->
  cosignature_time (full_note log c ws) (wsg_verifier w) = Ok t.
Proof.
  intros Hc Hd [Hn Hv]%witness_signer_eq Ht Hin. unfold cosignature_time, signature_from. rewrite Hv at 1. cbn [nv_algorithm].
  rewrite Z.eqb_refl. cbn [negb refuse_if mbind result_bind].
  set (s := cosig (Checkpoint_body c) w t).
  change (nv_name (wsg_verifier w)) with (ns_name s) at 1. change (nv_key_hash (wsg_verifier w)) with (ns_key_hash s).
  rewrite (find_sig _ s); [|by rewrite full_note_keys|].
  2:{ unfold full_note. cbn [sn_signatures]. apply elem_of_app. right.
      by apply (list_elem_of_fmap_2 (fun p => cosig (Checkpoint_body c) (fst p) (snd p)) ws (w, t)). }
  cbn [ok_or mbind result_bind]. unfold s, cosig. cbn [ns_signature].
  rewrite length_app, length_be_bytes, ed_sign_length. cbn [Nat.eqb Nat.add negb refuse_if mbind result_bind].
  rewrite take_app_length', drop_app_length' by by rewrite length_be_bytes.
  rewrite (proj2 (try_into_array_Some 64 _ _) (conj eq_refl (ed_sign_length _ _))). cbn [ok_or mbind result_bind].
  rewrite be_value_be_bytes by (destruct Ht; unfold MAX_COSIGNATURE_TIME, imax, is_u, umax in *; simpl; lia).
  cbn [full_note sn_text]. rewrite cosignature_message_ok by done. cbn [mbind result_bind].
  rewrite Hv at 1. cbn [nv_key]. by rewrite verify_strict_sign.
Qed.

Lemma full_note_wf log c ws :
  Checkpoint_wf c -> log_signer_wf log -> Forall (fun p => witness_signer_wf (fst p) /\ time_ok (snd p)) ws ->
  NoDup (log_key log :: map (fun p => witness_key (fst p)) ws) -> (length ws < MAX_SIGNATURES)%nat ->
  str_len (SignedNote_render (full_note log c ws)) <= MAX_NOTE_BYTES ->
  SignedNote_wf (full_note log c ws).
Proof.
  intros Hc [Hn Hv]%log_signer_eq Hw Hd Hl Hm. unfold SignedNote_wf. split_and!.
  - by apply body_text_ok.
  - done.
  - cbn. rewrite length_map. lia.
  - cbn. constructor.
    + split_and!; cbn; [done| | |apply ed_sign_bytes].
      * rewrite Hv. apply key_hash_range.
      * intros E. apply (f_equal length) in E. by rewrite ed_sign_length in E.
    + apply list.Forall_forall. intros s ([w t] & -> & Hin)%list_elem_of_fmap.
      rewrite list.Forall_forall in Hw. destruct (Hw _ Hin) as [[Hwn Hwv]%witness_signer_eq _]. cbn [fst] in Hwn, Hwv.
      unfold cosig, NoteSignature_wf. split_and!; cbn [fst snd ns_name ns_key_hash ns_signature]; [done| | |apply Forall_app; split; [apply be_bytes_bytes|apply ed_sign_bytes]].
      * rewrite Hwv. apply key_hash_range.
      * intros E. apply (f_equal length) in E. by rewrite length_app, length_be_bytes in E.
  - by rewrite full_note_keys.
  - done.
Qed.

(** ** Key texts *)

Lemma hex_fold bs : Forall is_byte bs -> forall a,
  fold_left (fun a c => 16 * a + hexdigit_value c) (hex_text bs) a = fold_left (fun a b => 256 * a + b) bs a.
Proof.
  assert (forall n, 0 <= n < 16 -> hexdigit_value (hex_digit n) = n) as Hd.
  { intros n Hn. unfold hexdigit_value, hex_digit, is_ascii_digit.
    destruct (Z.ltb_spec n 10).
    - rewrite (proj2 (Z.leb_le 48 _)), (proj2 (Z.leb_le _ 57)) by lia. cbn. lia.
    - rewrite (proj2 (Z.leb_gt _ 57)), andb_false_r by lia. rewrite (proj2 (Z.leb_le 97 _)) by lia. lia. }
  induction 1 as [|b bs Hb _ IH]; intros a; [done|]. destruct (nibbles b Hb) as (H1 & H2 & H3).
  unfold hex_text. cbn [flat_map app fold_left]. rewrite !Hd by done.
  replace (16 * (16 * a + b / 16) + b mod 16) with (256 * a + b) by lia. apply IH.
Qed.

Lemma hex8_parse z : is_u 32 z -> from_str_radix16 32 (hex8 z) = Some z.
Proof.
  intros Hz. unfold from_str_radix16, hex8. rewrite hex_fold by apply be_bytes_bytes.
  rewrite <- be_value_fold, be_value_be_bytes by done. by apply checked_u_small.
Qed.

Lemma hexdigit_range c : is_ascii_hexdigit c = true -> 48 <= c < 128.
Proof. unfold is_ascii_hexdigit, is_ascii_digit. lia. Qed.

Lemma hex8_text z : key_hash_text (hex8 z) = true /\ (43 ∉ hex8 z).
Proof.
  pose proof (hex_text_digits (be_bytes 4 z) (be_bytes_bytes 4 z)) as Hd. fold (hex8 z) in Hd.
  split; [|by eapply not_elem_forallb]. unfold key_hash_text, str_len.
  rewrite as_bytes_ascii.
  - rewrite Hd, andb_true_r. unfold hex8, hex_text. rewrite hex_text_length, length_be_bytes. done.
  - apply list.Forall_forall. intros c Hc%list_elem_of_In. rewrite forallb_forall in Hd.
    by apply Hd, hexdigit_range in Hc as [_ ?].
Qed.

Lemma splitn3_plus name z r : 43 ∉ name ->
  splitn3 43 (name ++ [43] ++ hex8 z ++ [43] ++ r) = Some (name, hex8 z, r).
Proof.
  intros Hn. unfold splitn3. rewrite (proj2 (split_once_Some 43 _ name (hex8 z ++ [43] ++ r))) by done.
  cbn [mbind option_bind]. by rewrite (proj2 (split_once_Some 43 _ (hex8 z) r)) by (by split; [|apply hex8_text]).
Qed.

Definition bytes32 (bs : list Z) : Prop := length bs = 32%nat /\ Forall is_byte bs.

Definition NoteVerifier_wf (v : NoteVerifier) : Prop :=
  is_valid_name (nv_name v) = true /\ (nv_algorithm v = ALG_ED25519 \/ nv_algorithm v = ALG_COSIGNATURE_V1) /\
  bytes32 (nv_key v) /\ public_key_ok (nv_key v) = true /\
  nv_key_hash v = key_hash (nv_name v) (nv_algorithm v) (nv_key v).

Lemma vkey_parse v : NoteVerifier_wf v -> NoteVerifier_parse (to_vkey v) = Ok v.
Proof.
  intros (Hn & Ha & [Hl Hb] & Hp & Hk). destruct (valid_name_chars _ Hn) as (_ & _ & H43 & _).
  unfold NoteVerifier_parse, to_vkey. rewrite splitn3_plus by done. cbn [ok_or mbind result_bind].
  rewrite (proj1 (hex8_text _)). cbn [negb refuse_if mbind result_bind].
  rewrite b64_decode_encode.
  2:{ constructor; [|done]. by destruct Ha as [->| ->]. }
  cbn [ok_or mbind result_bind].
  assert (negb (nv_algorithm v =? ALG_ED25519) && negb (nv_algorithm v =? ALG_COSIGNATURE_V1) = false) as ->
    by (by destruct Ha as [->| ->]).
  rewrite (proj2 (try_into_array_Some 32 _ _) (conj eq_refl Hl)). cbn [ok_or refuse_if negb mbind result_bind].
  rewrite Hp. cbn [ok_or refuse_if negb mbind result_bind].
  rewrite (proj2 (verifier_new_Ok _ _ _ _) (conj Hn eq_refl)). cbn [mbind result_bind].
  rewrite hex8_parse by (rewrite Hk; apply key_hash_range). cbn [ok_or mbind result_bind nv_key_hash].
  rewrite <- Hk, Z.eqb_refl. cbn. by destruct v.
Qed.

Lemma vkey_wf t v : NoteVerifier_parse t = Ok v -> NoteVerifier_wf v.
Proof.
  unfold NoteVerifier_parse. intros H. open_results.
  match goal with H : b64_decode _ = Some ?r |- _ => pose proof (b64_decode_bytes _ _ H) as Hb; destruct r as [|alg public] end;
    open_results.
  match goal with H : try_into_array _ _ = Some _ |- _ => apply try_into_array_Some in H as [-> ?] end.
  match goal with H : NoteVerifier_new _ _ _ = Ok _ |- _ => apply verifier_new_Ok in H as [? ->] end.
  apply list.Forall_cons in Hb as [_ Hb]. unfold NoteVerifier_wf, bytes32. cbn. split_and!; try done.
  unfold ALG_ED25519, ALG_COSIGNATURE_V1 in *. lia.
Qed.

Lemma skey_parse name alg hash seed algs :
  is_valid_name name = true -> alg ∈ algs -> is_byte alg -> bytes32 seed ->
  parse_skey (render_skey name alg hash seed) algs = Ok (name, seed).
Proof.
  intros Hn Ha Hab [Hl Hb]. destruct (valid_name_chars _ Hn) as (_ & _ & H43 & _).
  unfold parse_skey, render_skey. rewrite (proj2 (strip_prefix_Some _ _ _) eq_refl). cbn [ok_or mbind result_bind].
  rewrite splitn3_plus by done. cbn [ok_or mbind result_bind]. rewrite Hn, (proj1 (hex8_text _)).
  cbn [negb refuse_if mbind result_bind]. rewrite b64_decode_encode by by constructor. cbn [ok_or mbind result_bind].
  rewrite bool_decide_true by done. cbn [negb refuse_if mbind result_bind].
  by rewrite (proj2 (try_into_array_Some 32 _ _) (conj eq_refl Hl)).
Qed.

(** ** The theorems *)

(** Checkpoint text is canonical. [Checkpoint::parse] accepts a text
    exactly when it is the body of a well-formed checkpoint (a valid origin, a
    [u64] size, a 32-byte root, valid extension lines), and then returns that
    checkpoint: every well-formed value has one text and no other text is
    read. *)
Theorem checkpoint_text_canonical t c :
  Checkpoint_parse t = Ok c <-> Checkpoint_wf c /\ t = Checkpoint_body c.
Proof. apply checkpoint_parse_exact. Qed.

(** Signed notes round-trip. When base64 is canonical,
    [SignedNote::parse] accepts a text exactly when it is the rendering of a
    well-formed note (text that ends in one newline, between one and a hundred
    signatures of distinct keys, at most 64 KiB) and returns that note. *)
Theorem note_text_canonical (BC : Base64Canonical) t n :
  SignedNote_parse t = Ok n <-> SignedNote_wf n /\ t = SignedNote_render n.
Proof. split; [apply note_parse_wf|]. intros [H ->]. by apply note_parse_render. Qed.

(** A published checkpoint verifies. A log signs a checkpoint and
    fewer than a hundred witnesses with distinct keys cosign it, each at a
    valid time: every step succeeds; the note, rendered and parsed again when it
    fits in 64 KiB, is the same; it encodes that checkpoint; the log's
    signature verifies; each witness's cosignature verifies and states its
    time; and [signed_by] gives the bytes of the note before any cosignature. *)
Theorem published_checkpoint_verifies log c ws :
  Checkpoint_wf c -> log_signer_wf log ->
  Forall (fun p => witness_signer_wf (fst p) /\ time_ok (snd p)) ws ->
  NoDup (log_key log :: map (fun p => witness_key (fst p)) ws) -> (length ws < MAX_SIGNATURES)%nat ->
  exists n, cosign_all (LogSigner_sign log c) ws = Ok n /\
    (str_len (SignedNote_render n) <= MAX_NOTE_BYTES -> SignedNote_parse (SignedNote_render n) = Ok n) /\
    SignedNote_checkpoint n = Ok c /\
    SignedNote_verify n (lsg_verifier log) = Ok tt /\
    Forall (fun p => cosignature_time n (wsg_verifier (fst p)) = Ok (snd p)) ws /\
    signed_by n (lsg_verifier log) = Ok (SignedNote_render (LogSigner_sign log c)).
Proof.
  intros Hc Hlog Hw Hd Hl. exists (full_note log c ws). split_and!.
  - apply cosign_all_ok; [done| |done|simpl; lia]. eapply List.Forall_impl; [|exact Hw]. by intros ? [_ ?].
  - intros Hm. apply note_parse_render. by apply full_note_wf.
  - by apply checkpoint_parse_exact.
  - by apply full_note_verify.
  - apply list.Forall_forall. intros [w t] Hin. rewrite list.Forall_forall in Hw.
    destruct (Hw _ Hin) as [Hws Ht]. by apply full_note_time.
  - unfold signed_by. rewrite full_note_verify by done. cbn [mbind result_bind]. unfold signature_from, full_note.
    cbn [LogSigner_sign sn_signatures app List.find]. rewrite (proj2 (same_key_spec _ _ _)) by done.
    cbn [ok_or mbind result_bind]. unfold SignedNote_render. cbn [LogSigner_sign sn_text sn_signatures flat_map].
    by rewrite app_nil_r.
Qed.

(** Keys round-trip. A verifier key text parses back to the verifier
    it was printed from, and only well-formed verifiers (valid name, known
    algorithm, accepted public key, matching key hash) are ever parsed; a log's
    or witness's signer key printed and read again is the same signer. *)
Theorem keys_roundtrip :
  (forall v, NoteVerifier_wf v -> NoteVerifier_parse (to_vkey v) = Ok v) /\
  (forall t v, NoteVerifier_parse t = Ok v -> NoteVerifier_wf v) /\
  (forall s, log_signer_wf s -> bytes32 (lsg_key s) -> LogSigner_from_skey (LogSigner_to_skey s) = Ok s) /\
  (forall s, witness_signer_wf s -> bytes32 (wsg_key s) ->
     WitnessSigner_from_skey (WitnessSigner_to_skey s) = Ok s).
Proof.
  split_and!; [exact vkey_parse|exact vkey_wf| |].
  - intros s [Hn Hv]%log_signer_eq Hb. unfold LogSigner_from_skey, LogSigner_to_skey.
    rewrite skey_parse by (done || by left). cbn [mbind result_bind]. unfold LogSigner_from_seed.
    rewrite (proj2 (verifier_new_Ok _ _ _ _) (conj Hn eq_refl)). cbn. rewrite <- Hv. by destruct s.
  - intros s [Hn Hv]%witness_signer_eq Hb. unfold WitnessSigner_from_skey, WitnessSigner_to_skey.
    rewrite skey_parse by (done || by left). cbn [mbind result_bind]. unfold WitnessSigner_from_seed.
    rewrite (proj2 (verifier_new_Ok _ _ _ _) (conj Hn eq_refl)). cbn. rewrite <- Hv. by destruct s.
Qed.
End props.

(** ** Concrete instances *)

Module Sample.
#[export] Existing Instance toy_hash.
#[export] Existing Instance toy_b64.
#[export] Existing Instance toy_ed25519.

Definition checkpoint : Checkpoint :=
  mkCheckpoint (chars "decisions.example.com/log") 3 (replicate 32 7) [chars "ext 1"].
Definition log_seed : list Z := replicate 32 5.
Definition witness_seed : list Z := replicate 32 9.
Definition log : LogSigner :=
  mkLogSigner (mkNoteVerifier (chars "log.example") ALG_ED25519
    (key_hash (chars "log.example") ALG_ED25519 (verifying_key log_seed)) (verifying_key log_seed)) log_seed.
Definition witness : WitnessSigner :=
  mkWitnessSigner (mkNoteVerifier (chars "w1.example") ALG_COSIGNATURE_V1
    (key_hash (chars "w1.example") ALG_COSIGNATURE_V1 (verifying_key witness_seed))
    (verifying_key witness_seed)) witness_seed.
Definition note : SignedNote := full_note log checkpoint [(witness, 1700000000)].
End Sample.
Import Sample.

Lemma sample_log_wf : log_signer_wf log.
Proof. exists (chars "log.example"). by_compute. Qed.
Lemma sample_witness_wf : witness_signer_wf witness.
Proof. exists (chars "w1.example"). by_compute. Qed.
Lemma sample_checkpoint_wf : Checkpoint_wf checkpoint.
Proof. by_compute. Qed.

Lemma note_text_canonical_witness :
  SignedNote_parse (SignedNote_render note) = Ok note <->
  SignedNote_wf note /\ SignedNote_render note = SignedNote_render note.
Proof. exact (note_text_canonical toy_b64_canonical (SignedNote_render note) note). Defined.

Lemma published_checkpoint_verifies_witness :
  exists n, cosign_all (LogSigner_sign log checkpoint) [(witness, 1700000000)] = Ok n /\
    SignedNote_verify n (lsg_verifier log) = Ok tt /\
    cosignature_time n (wsg_verifier witness) = Ok 1700000000.
Proof.
  destruct (published_checkpoint_verifies log checkpoint [(witness, 1700000000)])
    as (n & H1 & _ & _ & H2 & H3 & _).
  - exact sample_checkpoint_wf.
  - exact sample_log_wf.
  - constructor; [|constructor]. split; [exact sample_witness_wf|by_compute].
  - by_compute.
  - by_compute.
  - exists n. apply list.Forall_cons in H3 as [H3 _]. auto.
Defined.

Lemma keys_roundtrip_witness :
  NoteVerifier_parse (to_vkey (lsg_verifier log)) = Ok (lsg_verifier log) /\
  LogSigner_from_skey (LogSigner_to_skey log) = Ok log /\
  WitnessSigner_from_skey (WitnessSigner_to_skey witness) = Ok witness.
Proof.
  destruct keys_roundtrip as (H1 & _ & H2 & H3). split_and!.
  - apply H1. split_and!; [by_compute|by left|split; by_compute|by_compute|by_compute].
  - apply H2; [exact sample_log_wf|split; by_compute].
  - apply H3; [exact sample_witness_wf|split; by_compute].
Defined.

(** The sample note parses back, and a non-canonical size is refused. *)
Example sample_note_parses : SignedNote_parse (SignedNote_render note) = Ok note.
Proof. vm_compute. reflexivity. Qed.
Example sample_leading_zero :
  Checkpoint_parse (chars "log" ++ [10] ++ chars "03" ++ [10] ++ hex_text (replicate 32 7) ++ [10])
  = Err (MalformedCheckpoint "tree size must be decimal without leading zeros").
Proof. vm_compute. reflexivity. Qed.
