(* ===== verification/Witness.v ===== *)
(** * Witnesses

    [src/witness.rs]: the add-checkpoint request, the witness's memory behind
    the [WitnessStore] trait with its two implementations, the handler, and the
    protocol of several witness processes that share one memory. *)

From Stdlib Require Import String.
From S2P Require Import Prelude Bytes Text Crypto Merkle Checkpoint.
#[local] Open Scope Z_scope.

Definition MAX_REQUEST_BYTES : Z := 128 * 1024.
Definition MAX_PROOF_HASHES : nat := 128.

#[export] Instance TreeHead_eq_dec : EqDecision TreeHead.
Proof. solve_decision. Defined.

Record AddCheckpoint := mkAddCheckpoint {
  ac_old_size : Z;
  ac_proof : list Hash;
  ac_note : text
}.
#[export] Instance AddCheckpoint_eq_dec : EqDecision AddCheckpoint.
Proof. solve_decision. Defined.

Inductive WitnessError :=
| Malformed (what : string)
| BadCheckpoint (e : CheckpointError)
| UnknownLog (origin : text)
| BadLogSignature
| Conflict (latest : Z)
| Shrinking
| BadProof
| Store (what : string)
| BadClock (now : Z).
#[export] Instance WitnessError_eq_dec : EqDecision WitnessError.
Proof. solve_decision. Defined.

Definition http_status (e : WitnessError) : Z :=
  match e with
  | Malformed _ | BadCheckpoint _ | Shrinking => 400
  | BadLogSignature => 403
  | UnknownLog _ => 404
  | Conflict _ => 409
  | BadProof => 422
  | Store _ | BadClock _ => 500
  end.

(** ** The request text *)

Section request.
Context {B64 : Base64}.

Fixpoint parse_proof (proof : list Hash) (lines : list text) : result WitnessError (list Hash) :=
  match lines with
  | [] => Ok proof
  | line :: lines' =>
      if Nat.eqb (length proof) MAX_PROOF_HASHES then Err (Malformed "consistency proof is too long")
      else
        raw ← ok_or (b64_decode line) (Malformed "proof line is not standard base64");
        hash ← ok_or (try_into_array 32 raw) (Malformed "proof line is not a 32-byte hash");
        parse_proof (proof ++ [hash]) lines'
  end.

Definition AddCheckpoint_parse (body : text) : result WitnessError AddCheckpoint :=
  _ ← refuse_if (MAX_REQUEST_BYTES <? str_len body) (Malformed "request body is too large");
  '(head, note) ← ok_or (split_blank body) (Malformed "request has no blank line before the checkpoint");
  let lines := split_on 10 head in
  old ← ok_or (first ← List.hd_error lines; strip_prefix (chars "old ") first)
          (Malformed "request must start with `old <size>`");
  _ ← refuse_if (negb (canonical_digits old)) (Malformed "old size must be decimal without leading zeros");
  old_size ← ok_or (parse_u64 old) (Malformed "old size exceeds u64");
  proof ← parse_proof [] (tail lines);
  Ok (mkAddCheckpoint old_size proof note).

Definition AddCheckpoint_render (self : AddCheckpoint) : text :=
  (chars "old " ++ show_u64 (ac_old_size self) ++ [10])
  ++ flat_map (fun hash => b64_encode hash ++ [10]) (ac_proof self)
  ++ [10] ++ ac_note self.

Fixpoint parse_cosignature_lines (lines : list text) : result WitnessError (list NoteSignature) :=
  match lines with
  | [] => Ok []
  | line :: lines' =>
      s ← map_err BadCheckpoint (parse_line line);
      rest ← parse_cosignature_lines lines';
      Ok (s :: rest)
  end.

Definition parse_cosignatures (body : text) : result WitnessError (list NoteSignature) :=
  body ← ok_or (strip_suffix 10 body) (Malformed "response must end in a newline");
  parse_cosignature_lines (split_on 10 body).
End request.

(** ** The memory

    [trait WitnessStore]. An operation may fail for reasons outside the program;
    [Io] names the ways it can, and each call takes what happened. *)
Class WitnessStore (S Io : Type) := {
  store_latest : Io -> S -> text -> result string (option TreeHead);
  compare_and_swap : Io -> S -> text -> option TreeHead -> TreeHead -> S * result string bool
}.

Definition head_ok (h : TreeHead) : Prop :=
  is_u 64 (th_size h) /\ length (th_root h) = 32%nat /\ Forall is_byte (th_root h).

Definition set_head (f : text -> option TreeHead) (origin : text) (h : TreeHead) (o : text)
    : option TreeHead :=
  if decide (o = origin) then Some h else f o.

(** What the trait's documentation promises, over an abstract map of heads. A
    swap that reports an error may or may not have been recorded. *)
Class WitnessStoreLaws (S Io : Type) `{!WitnessStore S Io} := {
  store_ok : S -> Prop;
  store_heads : S -> text -> option TreeHead;
  store_latest_sound : forall io s o h, store_ok s -> store_latest io s o = Ok h -> h = store_heads s o;
  store_swap_sound : forall io s o e new s' r,
    store_ok s -> head_ok new -> compare_and_swap io s o e new = (s', r) ->
    store_ok s' /\
    match r with
    | Ok true => store_heads s o = e /\ (forall o', store_heads s' o' = set_head (store_heads s) o new o')
    | Ok false => store_heads s o <> e /\ (forall o', store_heads s' o' = store_heads s o')
    | Err _ => (forall o', store_heads s' o' = store_heads s o') \/
        store_heads s o = e /\ (forall o', store_heads s' o' = set_head (store_heads s) o new o')
    end
}.

(** *** In memory *)

Record MemoryStore := mkMemoryStore { ms_heads : gmap text TreeHead }.

Definition MemoryStore_latest (self : MemoryStore) (origin : text) : result string (option TreeHead) :=
  Ok (ms_heads self !! origin).

Definition MemoryStore_compare_and_swap (self : MemoryStore) (origin : text)
    (expected : option TreeHead) (new : TreeHead) : MemoryStore * result string bool :=
  if negb (bool_decide (ms_heads self !! origin = expected)) then (self, Ok false)
  else (mkMemoryStore (<[origin := new]> (ms_heads self)), Ok true).

#[export] Instance memory_store : WitnessStore MemoryStore unit :=
  {| store_latest := fun _ => MemoryStore_latest;
     compare_and_swap := fun _ => MemoryStore_compare_and_swap |}.

(** *** In a file

    [serde_json] on the stored map: what is written reads back. *)
Record StoredHead := mkStoredHead { sh_size : Z; sh_root : text }.

Class StateJson := {
  state_to_json : gmap text StoredHead -> list Z;
  state_from_json : list Z -> option (gmap text StoredHead);
  state_json_roundtrip : forall m, state_from_json (state_to_json m) = Some m
}.

(** The file's bytes, or [None] when it is missing. The path is the caller's. *)
Record FileStore := mkFileStore { fs_file : option (list Z) }.

(** What the operating system does during one operation: the lock cannot be
    taken, the file cannot be read, the new file cannot be written or renamed,
    the rename happened but the directory could not be synchronised. *)
Inductive FileIo := FileFine | LockFails | ReadFails | WriteFails | DirSyncFails.
#[export] Instance FileIo_eq_dec : EqDecision FileIo.
Proof. solve_decision. Defined.

Section file_store.
Context {B64 : Base64} {SJ : StateJson}.

Definition decode_head (h : StoredHead) : option TreeHead :=
  raw ← b64_decode (sh_root h);
  root ← try_into_array 32 raw;
  Some (mkTreeHead (sh_size h) root).

(** [collect] of results over the map: any root that does not decode fails. *)
Definition decode_heads (m : gmap text StoredHead) : option (gmap text TreeHead) :=
  if decide (map_Forall (fun _ h => decode_head h <> None) m)
  then Some (omap decode_head m) else None.

Definition read_all (io : FileIo) (self : FileStore) : result string (gmap text TreeHead) :=
  match fs_file self with
  | None => Err "is missing: a witness that lost its state must not start again from nothing"%string
  | Some raw =>
      _ ← refuse_if (bool_decide (io = ReadFails)) "read error"%string;
      stored ← ok_or (state_from_json raw) "does not parse"%string;
      ok_or (decode_heads stored) "stored root is not 32 bytes of base64"%string
  end.

Definition encode_head (h : TreeHead) : StoredHead := mkStoredHead (th_size h) (b64_encode (th_root h)).

Definition write_all (io : FileIo) (self : FileStore) (heads : gmap text TreeHead)
    : FileStore * result string unit :=
  match io with
  | WriteFails => (self, Err "write error"%string)
  | DirSyncFails => (mkFileStore (Some (state_to_json (encode_head <$> heads))), Err "sync error"%string)
  | _ => (mkFileStore (Some (state_to_json (encode_head <$> heads))), Ok tt)
  end.

Definition FileStore_lock (io : FileIo) : result string unit :=
  refuse_if (bool_decide (io = LockFails)) "lock error"%string.

Definition FileStore_create (io : FileIo) (self : FileStore) : FileStore * result string unit :=
  match FileStore_lock io with
  | Err e => (self, Err e)
  | Ok _ =>
      if bool_decide (is_Some (fs_file self))
      then (self, Err "already exists; a witness's state is never recreated"%string)
      else write_all io self ∅
  end.

Definition FileStore_open (io : FileIo) (self : FileStore) : result string unit :=
  _ ← read_all io self; Ok tt.

Definition FileStore_latest (io : FileIo) (self : FileStore) (origin : text)
    : result string (option TreeHead) :=
  heads ← read_all io self; Ok (heads !! origin).

Definition FileStore_compare_and_swap (io : FileIo) (self : FileStore) (origin : text)
    (expected : option TreeHead) (new : TreeHead) : FileStore * result string bool :=
  match (_ ← FileStore_lock io; read_all io self) with
  | Err e => (self, Err e)
  | Ok heads =>
      if negb (bool_decide (heads !! origin = expected)) then (self, Ok false)
      else
        match write_all io self (<[origin := new]> heads) with
        | (self', Ok _) => (self', Ok true)
        | (self', Err e) => (self', Err e)
        end
  end.

#[export] Instance file_store : WitnessStore FileStore FileIo :=
  {| store_latest := FileStore_latest; compare_and_swap := FileStore_compare_and_swap |}.
End file_store.

(** ** The handler *)

Record Witness (S : Type) := mkWitness {
  wt_signer : WitnessSigner;
  wt_logs : gmap text NoteVerifier;
  wt_store : S
}.
Arguments mkWitness {S}.
Arguments wt_signer {S}.
Arguments wt_logs {S}.
Arguments wt_store {S}.

Definition Witness_new {S} (signer : WitnessSigner) (store : S) : Witness S := mkWitness signer ∅ store.

Definition add_log {S} (self : Witness S) (origin : text) (key : NoteVerifier) : Witness S :=
  mkWitness (wt_signer self) (<[origin := key]> (wt_logs self)) (wt_store self).

Definition with_store {S} (self : Witness S) (s : S) : Witness S :=
  mkWitness (wt_signer self) (wt_logs self) s.

Section handler.
Context {HF : HashFunctions} {B64 : Base64} {ED : Ed25519}.

Definition empty_root : Hash := sha256 [].

Definition head_size (h : option TreeHead) : Z := match h with Some h => th_size h | None => 0 end.

(** Up to the log's signature: what the request alone decides. *)
Definition check_request (logs : gmap text NoteVerifier) (request : AddCheckpoint) (now : Z)
    : result WitnessError (SignedNote * Checkpoint) :=
  _ ← refuse_if ((now =? 0) || (imax 64 <? now)) (BadClock now);
  note ← map_err BadCheckpoint (SignedNote_parse (ac_note request));
  checkpoint ← map_err BadCheckpoint (SignedNote_checkpoint note);
  let origin := cp_origin checkpoint in
  key ← ok_or (logs !! origin) (UnknownLog origin);
  _ ← map_err (fun _ => BadLogSignature) (SignedNote_verify note key);
  Ok (note, checkpoint).

Definition extends (latest : option TreeHead) (new : TreeHead) (proof : list Hash) : bool :=
  match latest with
  | Some old =>
      if 0 <? th_size old then is_ok (verify_consistency old new proof)
      else bool_decide (proof = []) && ((0 <? th_size new) || bool_decide (th_root new = empty_root))
  | None => bool_decide (proof = []) && ((0 <? th_size new) || bool_decide (th_root new = empty_root))
  end.

(** Between reading the memory and swapping it. *)
Definition check_extends (latest : option TreeHead) (request : AddCheckpoint) (checkpoint : Checkpoint)
    : result WitnessError TreeHead :=
  _ ← refuse_if (negb (ac_old_size request =? head_size latest)) (Conflict (head_size latest));
  let new := Checkpoint_head checkpoint in
  _ ← refuse_if (th_size new <? ac_old_size request) Shrinking;
  _ ← refuse_if (negb (extends latest new (ac_proof request))) BadProof;
  Ok new.

Definition add_checkpoint {S Io} `{!WitnessStore S Io} (io1 io2 io3 : Io) (self : Witness S)
    (request : AddCheckpoint) (now : Z) : Witness S * result WitnessError NoteSignature :=
  match
    ('(note, checkpoint) ← check_request (wt_logs self) request now;
     let origin := cp_origin checkpoint in
     latest ← map_err Store (store_latest io1 (wt_store self) origin);
     new ← check_extends latest request checkpoint;
     Ok (note, origin, latest, new))
  with
  | Err e => (self, Err e)
  | Ok (note, origin, latest, new) =>
      let '(s, swapped) := compare_and_swap io2 (wt_store self) origin latest new in
      (with_store self s,
        ok ← map_err Store swapped;
        if negb ok then
          now_latest ← map_err Store (store_latest io3 s origin);
          Err (Conflict (head_size now_latest))
        else map_err BadCheckpoint (cosign (wt_signer self) (sn_text note) now))
  end.

(** ** Several requests at once

    Requests of several processes that share a memory: a request reads the
    memory and decides, later swaps, and only then signs. Any number may be
    between the two, in any order, and a process may die before the swap or
    between the swap and the signature. [sy_trace] records every swap that was
    tried and not refused. The roots of a request's proof are arrays of 32 bytes. *)

Record Transition := mkTransition {
  tr_origin : text;
  tr_old : option TreeHead;
  tr_new : TreeHead;
  tr_proof : list Hash
}.

Record Flight := mkFlight { fl_transition : Transition; fl_text : text; fl_now : Z }.

Record Issued := mkIssued {
  is_origin : text;
  is_head : TreeHead;
  is_text : text;
  is_signature : NoteSignature
}.

Record System (S : Type) := mkSystem {
  sy_store : S;
  sy_flights : list Flight;
  sy_trace : list Transition;
  sy_issued : list Issued
}.
Arguments mkSystem {S}.
Arguments sy_store {S}.
Arguments sy_flights {S}.
Arguments sy_trace {S}.
Arguments sy_issued {S}.

Section system.
Context {S Io : Type} `{!WitnessStore S Io}.
Context (signer : WitnessSigner) (logs : gmap text NoteVerifier).

Inductive witness_step : System S -> System S -> Prop :=
| step_read io sys request now note checkpoint latest new :
    Forall (fun h => length h = 32%nat) (ac_proof request) ->
    check_request logs request now = Ok (note, checkpoint) ->
    store_latest io (sy_store sys) (cp_origin checkpoint) = Ok latest ->
    check_extends latest request checkpoint = Ok new ->
    witness_step sys
      (mkSystem (sy_store sys)
        (mkFlight (mkTransition (cp_origin checkpoint) latest new (ac_proof request)) (sn_text note) now
           :: sy_flights sys)
        (sy_trace sys) (sy_issued sys))
| step_swap io sys f fs1 fs2 s ok (alive : bool) :
    sy_flights sys = fs1 ++ f :: fs2 ->
    compare_and_swap io (sy_store sys) (tr_origin (fl_transition f)) (tr_old (fl_transition f))
      (tr_new (fl_transition f)) = (s, Ok ok) ->
    witness_step sys
      (mkSystem s (fs1 ++ fs2)
        (if ok then sy_trace sys ++ [fl_transition f] else sy_trace sys)
        (match (if ok && alive then cosign signer (fl_text f) (fl_now f) else Err BadName) with
         | Ok sig => sy_issued sys ++ [mkIssued (tr_origin (fl_transition f)) (tr_new (fl_transition f)) (fl_text f) sig]
         | Err _ => sy_issued sys
         end))
| step_swap_fails io sys f fs1 fs2 s e :
    sy_flights sys = fs1 ++ f :: fs2 ->
    compare_and_swap io (sy_store sys) (tr_origin (fl_transition f)) (tr_old (fl_transition f))
      (tr_new (fl_transition f)) = (s, Err e) ->
    witness_step sys (mkSystem s (fs1 ++ fs2) (sy_trace sys ++ [fl_transition f]) (sy_issued sys))
| step_dies sys fs1 f fs2 :
    sy_flights sys = fs1 ++ f :: fs2 ->
    witness_step sys (mkSystem (sy_store sys) (fs1 ++ fs2) (sy_trace sys) (sy_issued sys)).

Definition witness_start (s : S) : System S := mkSystem s [] [] [].
End system.
End handler.
Arguments mkSystem {S}.
Arguments sy_store {S}.
Arguments sy_flights {S}.
Arguments sy_trace {S}.
Arguments sy_issued {S}.
