(* ===== verification/WitnessProps.v ===== *)
(** * A witness vouches for one history

    The stores keep their contract; whatever requests interleave, the heads a
    witness signed for a log are prefixes of one tree; an honest log is cosigned,
    as long as the store answers; requests round-trip. *)

From Stdlib Require Import String.
From S2P Require Import Prelude Bytes Text Crypto Merkle MerkleTrees MerkleLoops MerkleProps Checkpoint CheckpointProps Witness.
#[local] Open Scope Z_scope.
#[local] Opaque decimal.

#[export] Instance head_ok_dec h : Decision (head_ok h).
Proof. unfold head_ok. apply _. Defined.

(** ** The stores keep the contract *)

#[export] Program Instance memory_store_laws : WitnessStoreLaws MemoryStore unit :=
  {| store_ok := fun _ => True; store_heads := fun s o => ms_heads s !! o |}.
Next Obligation. intros io s o h _ [= <-]. done. Qed.
Next Obligation.
  cbn. intros io s o e new s' r _ Hn. unfold MemoryStore_compare_and_swap.
  case_bool_decide as E; cbn [negb]; intros [= <- <-]; (split; [done|]); [|done].
  split; [done|]. intros o'. cbn. unfold set_head. case_decide as D.
  - subst o'. apply lookup_insert_eq.
  - by apply lookup_insert_ne.
Qed.

Section file.
Context {B64 : Base64} {SJ : StateJson}.

Lemma decode_encode_head h : head_ok h -> decode_head (encode_head h) = Some h.
Proof.
  intros (_ & Hl & Hb). unfold decode_head, encode_head. cbn [sh_root sh_size].
  rewrite b64_decode_encode by done. cbn [mbind option_bind].
  rewrite (proj2 (try_into_array_Some 32 _ _) (conj eq_refl Hl)). by destruct h.
Qed.

Definition heads_ok (m : gmap text TreeHead) : Prop := map_Forall (fun _ h => head_ok h) m.

Lemma decode_encode_heads m : heads_ok m -> decode_heads (encode_head <$> m) = Some m.
Proof.
  intros Hm. unfold decode_heads. rewrite decide_True.
  - f_equal. apply map_eq. intros o. rewrite lookup_omap, lookup_fmap.
    destruct (m !! o) as [h|] eqn:E; [|done]. cbn. apply decode_encode_head. by apply (Hm o).
  - intros o h. rewrite lookup_fmap. destruct (m !! o) as [h'|] eqn:E; [|done]. intros [= <-].
    rewrite decode_encode_head; [done|]. by apply (Hm o).
Qed.

Lemma read_written io m : heads_ok m -> io <> ReadFails ->
  read_all io (mkFileStore (Some (state_to_json (encode_head <$> m)))) = Ok m.
Proof.
  intros Hm Hio. unfold read_all. cbn [fs_file]. rewrite bool_decide_false by done. cbn.
  rewrite state_json_roundtrip. cbn. by rewrite decode_encode_heads.
Qed.

Lemma read_all_fine io s m : read_all io s = Ok m -> read_all FileFine s = Ok m.
Proof.
  unfold read_all. destruct (fs_file s); [|done].
  rewrite (bool_decide_false (FileFine = ReadFails)) by done. by destruct (bool_decide (io = ReadFails)).
Qed.

Definition file_ok (s : FileStore) : Prop := exists m, read_all FileFine s = Ok m /\ heads_ok m.
Definition file_heads (s : FileStore) (o : text) : option TreeHead :=
  match read_all FileFine s with Ok m => m !! o | Err _ => None end.

#[export] Program Instance file_store_laws : WitnessStoreLaws FileStore FileIo :=
  {| store_ok := file_ok; store_heads := file_heads |}.
Next Obligation.
  cbn. unfold FileStore_latest, file_heads. intros io s o h _ H. apply bind_Ok in H as (m & Hm & [= <-]).
  by rewrite (read_all_fine io s m Hm).
Qed.
Next Obligation.
  cbn. unfold FileStore_compare_and_swap. intros io s o e new s' r Hok Hn.
  destruct (_ ← FileStore_lock io; read_all io s) as [m|err] eqn:Er.
  2:{ intros [= <- <-]. split; [done|by left]. }
  apply bind_Ok in Er as (_ & _ & Er). apply read_all_fine in Er.
  assert (file_heads s o = m !! o) as Ho by (unfold file_heads; by rewrite Er).
  case_bool_decide as E; cbn [negb]; [|intros [= <- <-]; split; [done|by rewrite Ho]].
  assert (heads_ok (<[o := new]> m)) as Hh.
  { destruct Hok as (m' & Er' & Hm'). rewrite Er in Er'. injection Er' as <-. by apply map_Forall_insert_2. }
  assert (forall w, w = mkFileStore (Some (state_to_json (encode_head <$> <[o := new]> m))) ->
    file_ok w /\ (forall o', file_heads w o' = set_head (file_heads s) o new o')) as Hw.
  { intros w ->. split; [exists (<[o := new]> m); by rewrite read_written|]. intros o'.
    unfold file_heads. rewrite read_written, Er by done. unfold set_head. case_decide as D.
    - subst o'. apply lookup_insert_eq.
    - by apply lookup_insert_ne. }
  unfold write_all. destruct io; intros [= <- <-];
    (split; [try done; by apply Hw|]); try (by left); try right; (split; [by rewrite Ho|]); by apply Hw.
Qed.
End file.

(** ** One history *)

Section history.
Context {HF : HashFunctions} {B64 : Base64} {ED : Ed25519}.

Definition transition_ok (t : Transition) : Prop :=
  extends (tr_old t) (tr_new t) (tr_proof t) = true /\ head_size (tr_old t) <= th_size (tr_new t) /\
  head_ok (tr_new t) /\ Forall is_hash (tr_proof t).

(** Transitions that start from nothing, each from where the last one ended. *)
Inductive linked : list Transition -> option TreeHead -> Prop :=
| linked_nil : linked [] None
| linked_snoc l t : linked l (tr_old t) -> transition_ok t -> linked (l ++ [t]) (Some (tr_new t)).

(** What the consistency check of a transition hashes on the side of the new
    tree, by the proof it was given and by the canonical one. *)
Definition transition_messages (d : list Hash) (t : Transition) : list (list Z) :=
  match tr_old t with
  | Some old =>
      let d' := upto (th_size (tr_new t)) d in
      consistency_messages (th_size old) (size_of d') (th_root old) (tr_proof t) ++
      consistency_messages (th_size old) (size_of d') (root_of (upto (th_size old) d'))
        (subproof (th_size old) d' true)
  | None => []
  end.

Lemma head_eta h : h = mkTreeHead (th_size h) (th_root h).
Proof. by destruct h. Qed.

Lemma extends_empty old new p : extends old new p = true -> th_size new = 0 -> th_root new = empty_root.
Proof.
  unfold extends. intros H Hz. destruct old as [old|].
  - destruct (Z.ltb_spec 0 (th_size old)).
    + unfold verify_consistency in H. rewrite (proj2 (Z.ltb_lt _ _)), orb_true_r in H by lia. done.
    + rewrite (proj2 (Z.ltb_ge _ _)) in H by lia. cbn in H. apply andb_true_iff in H as [_ H].
      by apply bool_decide_eq_true in H.
  - rewrite (proj2 (Z.ltb_ge _ _)) in H by lia. cbn in H. apply andb_true_iff in H as [_ H].
    by apply bool_decide_eq_true in H.
Qed.

Lemma linked_head_ok l h : linked l (Some h) -> head_ok h /\ (th_size h = 0 -> th_root h = empty_root).
Proof.
  inversion 1 as [|l' t Hl (He & _ & Hh & _)]. subst. split; [done|]. by eapply extends_empty.
Qed.

Definition prefix_head (d : list Hash) (h : TreeHead) : Prop :=
  0 <= th_size h <= size_of d /\ h = head_of (upto (th_size h) d).

(** A consistency proof to the head of a prefix of [d] makes the older head one. *)
Lemma consistent_prefix d old new p :
  leaf_hashes_ok d -> head_ok old -> Forall is_hash p -> prefix_head d new ->
  0 < th_size old <= th_size new -> verify_consistency old new p = Ok tt ->
  collision_free sha256
    (consistency_messages (th_size old) (size_of (upto (th_size new) d)) (th_root old) p ++
     consistency_messages (th_size old) (size_of (upto (th_size new) d)) (root_of (upto (th_size old) (upto (th_size new) d)))
       (subproof (th_size old) (upto (th_size new) d) true)) ->
  prefix_head d old.
Proof.
  intros [Hd Hf] (Hu & Hr & _) Hp [Hn En] Hm Ev Hc. set (d' := upto (th_size new) d) in *.
  assert (size_of d' = th_size new) as Hsz by (unfold d'; rewrite size_upto; lia).
  rewrite En in Ev. destruct (consistency_binds d' old p) as [Hb1 Hb2]; try done.
  { split; [lia|]. by apply Forall_take. }
  unfold d' in Hb2. rewrite upto_upto in Hb2 by lia. split; [lia|].
  rewrite (head_eta old) at 1. unfold head_of. rewrite size_upto by lia. by rewrite <- Hb2.
Qed.

Lemma transition_prefix d t :
  leaf_hashes_ok d -> transition_ok t -> prefix_head d (tr_new t) ->
  (forall old, tr_old t = Some old -> head_ok old /\ (th_size old = 0 -> th_root old = empty_root)) ->
  collision_free sha256 (transition_messages d t) ->
  forall old, tr_old t = Some old -> prefix_head d old.
Proof.
  intros Hd (He & Hm & Hh & Hp) Hn Hold Hc old E. specialize (Hold old E) as [Ho Hz].
  unfold transition_messages, extends in *. rewrite E in *. cbn [head_size] in Hm.
  destruct (Z.ltb_spec 0 (th_size old)) as [Hpos|Hle].
  - destruct (verify_consistency old (tr_new t) (tr_proof t)) as [[]|] eqn:Ev; [|done].
    by eapply consistent_prefix; try done; lia.
  - destruct Ho as [[Hu _] _], Hn as [Hn _]. assert (th_size old = 0) as Z0 by lia. split; [lia|].
    rewrite (head_eta old) at 1. rewrite Z0, (Hz Z0). done.
Qed.

Lemma linked_prefixes d l h : leaf_hashes_ok d -> linked l (Some h) -> prefix_head d h ->
  collision_free sha256 (flat_map (transition_messages d) l) ->
  forall t, t ∈ l -> prefix_head d (tr_new t).
Proof.
  intros Hd Hl. remember (Some h) as oh eqn:Eh. revert h Eh.
  induction Hl as [|l t Hl IH Ht]; intros h Eh Hp Hc; [done|]. injection Eh as <-.
  rewrite flat_map_app in Hc. cbn [flat_map] in Hc. rewrite app_nil_r in Hc.
  intros x [Hx| ->%list_elem_of_singleton]%elem_of_app; [|done].
  destruct (tr_old t) as [old|] eqn:Eo.
  2:{ inversion Hl. subst l. by apply not_elem_of_nil in Hx. }
  apply (IH old eq_refl); [| |done].
  - eapply (transition_prefix d t); try done.
    + intros old' E'. rewrite Eo in E'. injection E' as <-. by eapply linked_head_ok.
    + eapply collision_free_sub; [exact Hc|]. intros y Hy. apply elem_of_app. by right.
  - eapply collision_free_sub; [exact Hc|]. intros y Hy. apply elem_of_app. by left.
Qed.

(** ** Every interleaving *)

Section system.
Context {S Io : Type} {WS : WitnessStore S Io} {WL : WitnessStoreLaws S Io}.
Context (signer : WitnessSigner) (logs : gmap text NoteVerifier).

Definition of_origin (o : text) (t : Transition) : bool := bool_decide (tr_origin t = o).

Definition origin_inv (sys : System S) (o : text) : Prop :=
  exists l, linked l (store_heads (sy_store sys) o) /\
    (forall t, t ∈ l -> t ∈ List.filter (of_origin o) (sy_trace sys)) /\
    (forall i, i ∈ sy_issued sys -> is_origin i = o -> is_head i ∈ map tr_new l).

Definition system_inv (sys : System S) : Prop :=
  store_ok (sy_store sys) /\ Forall (fun f => transition_ok (fl_transition f)) (sy_flights sys) /\
  forall o, origin_inv sys o.

Lemma origin_inv_same sys s fs tr iss o :
  origin_inv sys o -> store_heads s o = store_heads (sy_store sys) o ->
  (forall t, t ∈ sy_trace sys -> t ∈ tr) ->
  (forall i, i ∈ iss -> is_origin i = o -> i ∈ sy_issued sys) ->
  origin_inv (mkSystem s fs tr iss) o.
Proof.
  intros (l & Hl & Ht & Hi) Hs Htr Hiss. exists l. cbn. rewrite Hs. split_and!; [done| |naive_solver].
  intros t Hin. specialize (Ht t Hin). rewrite list_elem_of_In, filter_In in *.
  rewrite <- list_elem_of_In in *. naive_solver.
Qed.

Lemma origin_inv_advance sys s fs t iss :
  origin_inv sys (tr_origin t) -> transition_ok t ->
  store_heads (sy_store sys) (tr_origin t) = tr_old t ->
  store_heads s (tr_origin t) = Some (tr_new t) ->
  (forall i, i ∈ iss -> i ∈ sy_issued sys \/ is_head i = tr_new t) ->
  origin_inv (mkSystem s fs (sy_trace sys ++ [t]) iss) (tr_origin t).
Proof.
  intros (l & Hl & Ht & Hi) Hok Hold Hnew Hiss. exists (l ++ [t]). cbn. rewrite Hnew. split_and!.
  - constructor; [by rewrite <- Hold|done].
  - intros x Hx. rewrite filter_app. apply elem_of_app in Hx as [Hx|Hx]; apply elem_of_app; [left; auto|right].
    apply list_elem_of_singleton in Hx as ->. cbn. unfold of_origin. rewrite bool_decide_true by done. left.
  - intros i Hin Ho. rewrite map_app. apply elem_of_app. destruct (Hiss i Hin) as [?| ->]; [left; auto|right; left].
Qed.

Lemma drop_flight {P : Flight -> Prop} fs fs1 f fs2 :
  fs = fs1 ++ f :: fs2 -> Forall P fs -> P f /\ Forall P (fs1 ++ fs2).
Proof.
  intros -> [H1 H]%list.Forall_app. apply list.Forall_cons in H as [Hf H2].
  split; [done|]. by apply list.Forall_app.
Qed.

Lemma check_request_wf lgs req now note cp : check_request lgs req now = Ok (note, cp) -> Checkpoint_wf cp.
Proof.
  unfold check_request, SignedNote_checkpoint. intros H. open_results.
  match goal with H : Checkpoint_parse _ = Ok _ |- _ => by apply checkpoint_parse_exact in H as [Hwf Ht] end.
Qed.

Lemma check_extends_ok latest req cp new :
  Checkpoint_wf cp -> Forall is_hash (ac_proof req) -> check_extends latest req cp = Ok new ->
  forall o, transition_ok (mkTransition o latest new (ac_proof req)).
Proof.
  unfold check_extends. intros (_ & Hs & [Hl Hb] & _) Hp H o. open_results. split_and!; cbn; try done.
  match goal with H1 : (_ =? _) = true, H2 : (_ <? _) = false |- _ =>
    apply Z.eqb_eq in H1; apply Z.ltb_ge in H2; cbn in H2; lia end.
Qed.

Lemma system_inv_step sys sys' : witness_step signer logs sys sys' -> system_inv sys -> system_inv sys'.
Proof.
  intros Hstep (Hok & Hfl & Ho). destruct Hstep as
    [io sys req now note cp latest new Hp Hreq Hlat Hext|io sys f fs1 fs2 s ok alive Hf Hcas
    |io sys f fs1 fs2 s e Hf Hcas|sys fs1 f fs2 Hf].
  - split_and!; cbn; [done| |].
    + constructor; [|done]. cbn. eapply check_extends_ok; [by eapply check_request_wf|done|done].
    + intros o. by eapply origin_inv_same.
  - destruct (drop_flight _ _ _ _ Hf Hfl) as [Ht Hfl']. pose proof Ht as (_ & _ & Hh & _).
    destruct (store_swap_sound _ _ _ _ _ _ _ Hok Hh Hcas) as [Hok' Hs]. split_and!; cbn; [done|done|].
    intros o. destruct ok; cbn [andb].
    + destruct Hs as [He Hs]. destruct (decide (o = tr_origin (fl_transition f))) as [->|Hne].
      * apply origin_inv_advance; [done|done|done|rewrite Hs; unfold set_head; by case_decide|].
        destruct alive; [|by left]. destruct (cosign _ _ _); [|by left].
        intros i [?| ->%list_elem_of_singleton]%elem_of_app; [by left|by right].
      * eapply origin_inv_same; [done|rewrite Hs; unfold set_head; by case_decide|intros; apply elem_of_app; by left|].
        destruct alive; [|done]. destruct (cosign _ _ _); [|done].
        intros i [?| ->%list_elem_of_singleton]%elem_of_app Hi; [done|]. by destruct Hne.
    + destruct Hs as [_ Hs]. by eapply origin_inv_same.
  - destruct (drop_flight _ _ _ _ Hf Hfl) as [Ht Hfl']. pose proof Ht as (_ & _ & Hh & _).
    destruct (store_swap_sound _ _ _ _ _ _ _ Hok Hh Hcas) as [Hok' Hs]. split_and!; cbn; [done|done|].
    intros o. destruct Hs as [Hs|[He Hs]].
    { eapply origin_inv_same; [done|done|intros; apply elem_of_app; by left|done]. }
    destruct (decide (o = tr_origin (fl_transition f))) as [->|Hne].
    + apply origin_inv_advance; [done|done|done|rewrite Hs; unfold set_head; by case_decide|by left].
    + eapply origin_inv_same; [done|rewrite Hs; unfold set_head; by case_decide|intros; apply elem_of_app; by left|done].
  - destruct (drop_flight _ _ _ _ Hf Hfl) as [_ Hfl']. split_and!; [done|done|].
    intros o. by eapply origin_inv_same.
Qed.

Lemma system_inv_reachable s sys : store_ok s -> (forall o, store_heads s o = None) ->
  rtc (witness_step signer logs) (witness_start s) sys -> system_inv sys.
Proof.
  intros Hok Hn Hr. assert (system_inv (witness_start s)) as Hi.
  { split_and!; [done|constructor|]. intros o. exists []. cbn. rewrite Hn. split_and!; [constructor| |];
      intros x Hx; by apply not_elem_of_nil in Hx. }
  revert Hi. induction Hr as [|x y z Hxy _ IH]; [done|]. intros Hi. by eapply IH, system_inv_step.
Qed.

(** Every text signed is the body of the checkpoint it is signed for. *)
Definition text_of (o : text) (h : TreeHead) (t : text) : Prop :=
  exists c, Checkpoint_parse t = Ok c /\ cp_origin c = o /\ Checkpoint_head c = h.

Definition texts_inv (sys : System S) : Prop :=
  Forall (fun f => text_of (tr_origin (fl_transition f)) (tr_new (fl_transition f)) (fl_text f)) (sy_flights sys) /\
  Forall (fun i => text_of (is_origin i) (is_head i) (is_text i)) (sy_issued sys).

Lemma texts_inv_reachable s sys : rtc (witness_step signer logs) (witness_start s) sys -> texts_inv sys.
Proof.
  intros Hr. assert (texts_inv (witness_start s)) as Hi by (split; constructor).
  revert Hi. induction Hr as [|x y z Hxy _ IH]; [done|]. intros [Hf Hi]. apply IH. clear IH. destruct Hxy as
    [io sys req now note cp latest new Hp Hreq Hlat Hext|io sys f fs1 fs2 s' ok alive Ef Hcas
    |io sys f fs1 fs2 s' e Ef Hcas|sys fs1 f fs2 Ef]; [|destruct (drop_flight _ _ _ _ Ef Hf) as [Ht Hf']..].
  - split; [|done]. constructor; [|done]. cbn. exists cp. unfold check_request in Hreq. unfold check_extends in Hext. open_results.
    by split_and!.
  - split; [done|]. cbn. destruct (ok && alive); [|done]. destruct (cosign _ _ _); [|done].
    apply list.Forall_app. split; [done|]. by repeat constructor.
  - by split.
  - by split.
Qed.

(** Every head signed for a log is the head of a prefix of what was last
    recorded for it. *)
Lemma issued_prefix s sys o d i :
  store_ok s -> (forall o', store_heads s o' = None) ->
  rtc (witness_step signer logs) (witness_start s) sys ->
  store_heads (sy_store sys) o = Some (head_of d) -> leaf_hashes_ok d ->
  collision_free sha256 (flat_map (transition_messages d) (List.filter (of_origin o) (sy_trace sys))) ->
  i ∈ sy_issued sys -> is_origin i = o -> prefix_head d (is_head i).
Proof.
  intros Hok Hn Hr Hh Hd Hc Hin Hio. destruct (system_inv_reachable s sys Hok Hn Hr) as (_ & _ & Ho).
  destruct (Ho o) as (l & Hl & Ht & Hi). rewrite Hh in Hl.
  specialize (Hi i Hin Hio). apply list_elem_of_fmap in Hi as (t & -> & Hin').
  apply (linked_prefixes d l (head_of d)); try done.
  - split; cbn [head_of th_size]; [unfold size_of; lia|]. by rewrite upto_all by lia.
  - eapply collision_free_sub; [exact Hc|]. intros m Hm. rewrite list_elem_of_In, in_flat_map in *.
    destruct Hm as (x & Hx & Hm). exists x. split; [|done]. by apply list_elem_of_In, Ht, list_elem_of_In.
Qed.

(** ** The handler *)

Lemma check_request_Ok lgs req now note cp : check_request lgs req now = Ok (note, cp) <->
  ((now =? 0) || (imax 64 <? now)) = false /\ SignedNote_parse (ac_note req) = Ok note /\
  Checkpoint_parse (sn_text note) = Ok cp /\
  exists key, lgs !! cp_origin cp = Some key /\ SignedNote_verify note key = Ok tt.
Proof.
  unfold check_request, SignedNote_checkpoint. split.
  - intros H. open_results. split_and!; [done|done|done|]. by eexists.
  - intros (Hn & Hp & Hc & key & Hk & Hv). rewrite Hn. cbn. rewrite Hp. cbn. rewrite Hc. cbn. rewrite Hk. cbn.
    by rewrite Hv.
Qed.

(** What the handler runs is a read, then a swap, of the protocol. *)
Lemma add_checkpoint_run io1 io2 io3 w req now w' r sys :
  Forall is_hash (ac_proof req) -> sy_store sys = wt_store w ->
  add_checkpoint io1 io2 io3 w req now = (w', r) ->
  wt_logs w = logs -> wt_signer w = signer ->
  exists sys', rtc (witness_step signer logs) sys sys' /\ sy_store sys' = wt_store w' /\
    match r with
    | Ok sig => exists o h t, sy_issued sys' = sy_issued sys ++ [mkIssued o h t sig]
    | Err _ => sy_issued sys' = sy_issued sys
    end.
Proof.
  intros Hp Hs H <- <-. unfold add_checkpoint in H.
  match type of H with match ?m with _ => _ end = _ => destruct m as [[[[note o] latest] new]|e] eqn:E end.
  2:{ injection H as <- <-. exists sys. split_and!; [apply rtc_refl|done|done]. }
  apply bind_Ok in E as ([note' cp] & Hreq & E). apply bind_Ok in E as (lt & Hlat%map_err_Ok & E).
  apply bind_Ok in E as (nw & Hext & [= -> <- <- <-]).
  destruct (compare_and_swap io2 (wt_store w) (cp_origin cp) lt nw) as [s sw] eqn:Ec.
  pose proof (step_read (wt_signer w) (wt_logs w) io1 sys req now note cp lt nw Hp Hreq ltac:(by rewrite Hs) Hext) as Hst.
  injection H as <- Hr. set (f := mkFlight (mkTransition (cp_origin cp) lt nw (ac_proof req)) (sn_text note) now) in *.
  destruct sw as [ok|e]; cbn in Hr.
  - eexists. split; [eapply rtc_l; [exact Hst|]; eapply rtc_once;
      eapply (step_swap _ _ io2 _ f [] (sy_flights sys) s ok true); [done|]; by rewrite <- Hs in Ec|].
    cbn [sy_store]. split; [done|]. cbn [sy_issued]. destruct ok; cbn [andb negb] in Hr |- *.
    + cbn [f fl_text fl_now]. destruct (cosign _ _ _) as [sig|e']; cbn in Hr; subst r; [by eexists _, _, _|done].
    + destruct (store_latest io3 s (cp_origin cp)); cbn in Hr; by subst r.
  - eexists. split; [eapply rtc_l; [exact Hst|]; eapply rtc_once;
      eapply (step_swap_fails _ _ io2 _ f [] (sy_flights sys) s e); [done|]; by rewrite <- Hs in Ec|].
    by subst r.
Qed.

Lemma cosign_ok w c now : Checkpoint_wf c -> time_ok now ->
  cosign w (Checkpoint_body c) now = Ok (cosig (Checkpoint_body c) w now).
Proof. intros Hc Ht. unfold cosign. by rewrite cosignature_message_ok. Qed.

(** ** The theorems *)

(** Claim C6: a witness vouches for one history. Several processes serve
    requests over one memory, with any interleaving of their reads and swaps,
    failed or lost writes and deaths. If the head last recorded for a log is
    the head of the tree over [d], then every head ever signed for that log is
    the head of a prefix of [d], so no two cosignatures support diverging
    histories. The hypothesis on SHA-256 is that it has no collision among the
    node messages the accepted consistency proofs and the canonical ones
    hash. *)
Theorem cosigned_heads_one_history s sys o d :
  store_ok s -> (forall o', store_heads s o' = None) ->
  rtc (witness_step signer logs) (witness_start s) sys ->
  store_heads (sy_store sys) o = Some (head_of d) -> leaf_hashes_ok d ->
  collision_free sha256 (flat_map (transition_messages d) (List.filter (of_origin o) (sy_trace sys))) ->
  Forall (fun i => is_origin i = o ->
    0 <= th_size (is_head i) <= size_of d /\ is_head i = head_of (upto (th_size (is_head i)) d))
    (sy_issued sys).
Proof.
  intros Hok Hn Hr Hh Hd Hc. apply list.Forall_forall. intros i Hin Hi. by eapply issued_prefix.
Qed.

(** A witness records exactly what it signs. A handled request
    returns a signature only after recording the checkpoint it signs, for its
    log and no other, over a recorded head it extends; any refusal other than
    an error of the memory itself leaves the memory as it was, so nothing is
    recorded that was not signed. *)
Theorem witness_records_what_it_signs io1 io2 io3 w req now w' r :
  is_u 64 now -> store_ok (wt_store w) -> Forall is_hash (ac_proof req) ->
  add_checkpoint io1 io2 io3 w req now = (w', r) ->
  match r with
  | Ok sig => exists note cp,
      SignedNote_parse (ac_note req) = Ok note /\ SignedNote_checkpoint note = Ok cp /\
      sig = cosig (sn_text note) (wt_signer w) now /\
      transition_ok (mkTransition (cp_origin cp) (store_heads (wt_store w) (cp_origin cp))
                       (Checkpoint_head cp) (ac_proof req)) /\
      (forall o, store_heads (wt_store w') o =
         set_head (store_heads (wt_store w)) (cp_origin cp) (Checkpoint_head cp) o)
  | Err (Store _) => True
  | Err _ => forall o, store_heads (wt_store w') o = store_heads (wt_store w) o
  end.
Proof.
  intros Hnow Hok Hp H. unfold add_checkpoint in H.
  match type of H with match ?m with _ => _ end = _ => destruct m as [[[[note o] latest] new]|e] eqn:E end.
  2:{ injection H as <- <-. by destruct e. }
  apply bind_Ok in E as ([note' cp] & Hreq & E). apply bind_Ok in E as (lt & Hlat%map_err_Ok & E).
  apply bind_Ok in E as (nw & Hext & [= -> <- <- <-]). apply check_request_Ok in Hreq as (Hclk & Hparse & Hcp & _).
  pose proof Hcp as [Hwf Htext]%checkpoint_parse_exact.
  pose proof (check_extends_ok _ _ _ _ Hwf Hp Hext (cp_origin cp)) as Ht. pose proof Ht as (_ & _ & Hh & _).
  apply store_latest_sound in Hlat as ->; [|done].
  assert (nw = Checkpoint_head cp) as -> by (unfold check_extends in Hext; by open_results).
  destruct (compare_and_swap io2 _ _ _ _) as [s sw] eqn:Ec.
  destruct (store_swap_sound _ _ _ _ _ _ _ Hok Hh Ec) as [_ Hs]. injection H as <- <-.
  destruct sw as [[]|e]; cbn [map_err mbind result_bind negb]; [|by destruct (store_latest io3 _ _); [destruct Hs|]|done].
  assert (time_ok now) as Htime.
  { apply orb_false_iff in Hclk as [H1%Z.eqb_neq H2%Z.ltb_ge]. unfold time_ok, MAX_COSIGNATURE_TIME, is_u in *. lia. }
  rewrite Htext, cosign_ok by done. cbn. exists note, cp. rewrite Htext. destruct Hs as [_ Hs]. done.
Qed.
End system.

(** ** An honest log *)

Section honest.
Context (log : LogSigner) (c : Checkpoint) (d : list Hash) (m : Z) (p : list Hash) (now : Z).
Context (Hd : leaf_hashes_ok d) (Hc : Checkpoint_wf c) (Hhd : Checkpoint_head c = head_of d) (Hlog : log_signer_wf log).
Context (Hp : if m =? 0 then p = [] else consistency_proof d m = Ok p).
Context (Ht : time_ok now) (Hlen : str_len (SignedNote_render (LogSigner_sign log c)) <= MAX_NOTE_BYTES).
Let req : AddCheckpoint := mkAddCheckpoint m p (SignedNote_render (LogSigner_sign log c)).

Lemma honest_request_accepted logs : logs !! cp_origin c = Some (lsg_verifier log) ->
  check_request logs req now = Ok (LogSigner_sign log c, c).
Proof using Hc Hlog Ht Hlen.
  intros Hkey. apply check_request_Ok. cbn [req ac_note]. change (LogSigner_sign log c) with (full_note log c []). split_and!.
  - destruct Ht as [H1 H2]. unfold MAX_COSIGNATURE_TIME in H2. apply orb_false_iff. rewrite Z.eqb_neq, Z.ltb_ge. lia.
  - apply note_parse_render, full_note_wf; first [done|apply NoDup_singleton|simpl; unfold MAX_SIGNATURES; lia].
  - by apply checkpoint_parse_exact.
  - exists (lsg_verifier log). split; [done|]. by apply full_note_verify.
Qed.

(** The witness recorded the first [m] leaves of the tree, or nothing. *)
Definition recorded (lt : option TreeHead) : Prop :=
  match lt with None => m = 0 | Some h => 0 <= m <= size_of d /\ h = head_of (upto m d) end.

Lemma honest_proof_extends lt : recorded lt -> extends lt (head_of d) p = true.
Proof using Hd Hp.
  intros Hlat. destruct Hd as [Hdb Hf].
  assert (m = 0 -> bool_decide (p = []) && ((0 <? size_of d) || bool_decide (root_of d = empty_root)) = true) as H0.
  { intros Hm. pose proof Hp as Hn. rewrite (proj2 (Z.eqb_eq m 0)) in Hn by done. rewrite bool_decide_true by done. cbn.
    destruct (Z.ltb_spec 0 (size_of d)); [done|]. apply bool_decide_eq_true.
    rewrite (nil_length_inv d) by (unfold size_of in *; lia). done. }
  unfold extends. cbn [head_of th_size th_root]. destruct lt as [h|]; [|by apply H0].
  destruct Hlat as [Hm ->]. cbn [head_of th_size]. rewrite size_upto by lia.
  destruct (Z.ltb_spec 0 m); [|apply H0; lia].
  pose proof Hp as Hpr. rewrite (proj2 (Z.eqb_neq m 0)) in Hpr by lia. unfold consistency_proof in Hpr.
  rewrite (proj2 (Z.eqb_neq m 0)), (proj2 (Z.ltb_ge _ _)) in Hpr by lia. injection Hpr as Ep. rewrite <- Ep.
  change (is_ok (verify_consistency (head_of (upto m d)) (head_of d) (subproof m d true)) = true).
  by rewrite subproof_verifies by lia.
Qed.

Lemma honest_request_extends lt : recorded lt -> check_extends lt req c = Ok (head_of d).
Proof using Hd Hhd Hp.
  intros Hlat. assert (head_size lt = m /\ 0 <= m <= size_of d) as [Hm Hmd].
  { destruct lt as [h|]; [|cbn in Hlat; subst; cbn; unfold size_of; lia]. destruct Hlat as [Hm ->]. cbn. by rewrite size_upto. }
  unfold check_extends. cbn [req ac_old_size ac_proof]. rewrite Hhd, Hm, Z.eqb_refl. cbn [negb refuse_if mbind result_bind].
  cbn [head_of th_size]. rewrite (proj2 (Z.ltb_ge _ _)) by lia. cbn [refuse_if mbind result_bind].
  change (mkTreeHead (size_of d) (root_of d)) with (head_of d). by rewrite honest_proof_extends.
Qed.
End honest.

(** The store in memory always answers, and so does the one in a file when the
    system does what it is asked. *)
Lemma memory_answers s o new : (exists h, store_latest tt s o = Ok h) /\
  exists b, snd (compare_and_swap tt s o (ms_heads s !! o) new) = Ok b.
Proof. split; [by eexists|]. cbn. unfold MemoryStore_compare_and_swap. rewrite bool_decide_true by done. by eexists. Qed.

Lemma file_answers {SJ : StateJson} s o new : file_ok s -> (exists h, store_latest FileFine s o = Ok h) /\
  exists b, snd (compare_and_swap FileFine s o (file_heads s o) new) = Ok b.
Proof.
  intros (h & Hr & _). cbn. unfold FileStore_latest, FileStore_compare_and_swap, file_heads. rewrite Hr. split; [by eexists|].
  change (FileStore_lock FileFine) with (Ok tt : result string unit). cbn [mbind result_bind].
  rewrite bool_decide_true by done. by eexists.
Qed.

(** Claim C40: an honest log is cosigned, whatever store the witness has. The
    log's tree is over [d], the witness last recorded the head of its first [m]
    leaves (or nothing, and [m] is zero), and the request carries the consistency
    proof the log builds and the checkpoint it signs with the key the witness has
    for it. If the checkpoint and the log's name and key can be written as a note,
    the note is within the size limit, the clock is within the range a
    cosignature can carry, and the store is intact and answers both calls, then
    the handler succeeds: it records the new head, leaves the other logs' heads alone and
    returns the cosignature. The store in memory always answers, and the one in a
    file does when no system call fails. *)
Theorem honest_log_is_cosigned {S Io} {WS : WitnessStore S Io} {WL : WitnessStoreLaws S Io} (w : Witness S)
    io1 io2 io3 log c d m p now :
  leaf_hashes_ok d -> Checkpoint_wf c -> Checkpoint_head c = head_of d ->
  log_signer_wf log -> wt_logs w !! cp_origin c = Some (lsg_verifier log) ->
  store_ok (wt_store w) -> recorded d m (store_heads (wt_store w) (cp_origin c)) ->
  (if m =? 0 then p = [] else consistency_proof d m = Ok p) ->
  time_ok now -> str_len (SignedNote_render (LogSigner_sign log c)) <= MAX_NOTE_BYTES ->
  (exists h, store_latest io1 (wt_store w) (cp_origin c) = Ok h) ->
  (exists b, snd (compare_and_swap io2 (wt_store w) (cp_origin c) (store_heads (wt_store w) (cp_origin c)) (head_of d)) = Ok b) ->
  exists s, add_checkpoint io1 io2 io3 w (mkAddCheckpoint m p (SignedNote_render (LogSigner_sign log c))) now =
      (with_store w s, Ok (cosig (Checkpoint_body c) (wt_signer w) now)) /\
    store_ok s /\ (forall o, store_heads s o = set_head (store_heads (wt_store w)) (cp_origin c) (head_of d) o).
Proof.
  intros Hd Hc Hhd Hlog Hkey Hok Hlat Hp Ht Hlen [h Hh] [b Hb]. unfold add_checkpoint.
  rewrite honest_request_accepted by done. cbn [mbind result_bind]. rewrite Hh. cbn [map_err mbind result_bind].
  apply store_latest_sound in Hh as ->; [|done]. rewrite (honest_request_extends log c d m p) by done. cbn [mbind result_bind].
  destruct (compare_and_swap io2 _ _ _ _) as [s r] eqn:Ec. cbn in Hb. subst r.
  apply store_swap_sound in Ec as [Hs Hr]; [|done|].
  2:{ rewrite <- Hhd. destruct Hc as (_ & Hs & [Hl Hby] & _). by split_and!. }
  destruct b; [|by destruct Hr]. exists s. destruct Hr as [_ Hr]. split; [|done].
  cbn [map_err mbind result_bind negb]. change (sn_text (LogSigner_sign log c)) with (Checkpoint_body c). by rewrite cosign_ok.
Qed.

(** ** Requests as text *)

Definition AddCheckpoint_wf (r : AddCheckpoint) : Prop :=
  is_u 64 (ac_old_size r) /\ Forall bytes32 (ac_proof r) /\ (length (ac_proof r) <= MAX_PROOF_HASHES)%nat /\
  str_len (AddCheckpoint_render r) <= MAX_REQUEST_BYTES.

Lemma parse_proof_encode hs : forall acc, Forall bytes32 hs -> (length acc + length hs <= MAX_PROOF_HASHES)%nat ->
  parse_proof acc (map b64_encode hs) = Ok (acc ++ hs).
Proof.
  induction hs as [|h hs IH]; intros acc HF' Hl; [by rewrite app_nil_r|].
  apply list.Forall_cons in HF' as [[Hh Hb] Hhs]. cbn [map parse_proof]. cbn [length] in Hl.
  rewrite (proj2 (Nat.eqb_neq _ _)) by lia. rewrite b64_decode_encode by done. cbn [ok_or mbind result_bind].
  rewrite (proj2 (try_into_array_Some 32 _ _) (conj eq_refl Hh)). cbn [ok_or mbind result_bind].
  rewrite IH; [by rewrite <- app_assoc|done|]. rewrite length_app. cbn. lia.
Qed.

Lemma b64_nonempty h : bytes32 h -> b64_encode h <> [].
Proof.
  intros [Hl Hb] E. apply (f_equal b64_decode) in E. rewrite b64_decode_encode in E by done.
  rewrite <- b64_encode_nil, b64_decode_encode in E by constructor. injection E as ->. done.
Qed.

Lemma encode_lines hs : flat_map (fun hash => b64_encode hash ++ [10]) hs = unlines (map b64_encode hs).
Proof. induction hs as [|h hs IH]; [done|]. unfold unlines in *. cbn [flat_map map]. by rewrite IH. Qed.

(** Requests round-trip. A request with a [u64] size, at most 128
    proof hashes and a body within the limit is read back from its text
    unchanged, whatever its note contains. *)
Theorem request_roundtrip r : AddCheckpoint_wf r -> AddCheckpoint_parse (AddCheckpoint_render r) = Ok r.
Proof.
  intros (Hs & Hp & Hl & Hm). unfold AddCheckpoint_parse. rewrite (proj2 (Z.ltb_ge _ _)) by done.
  cbn [refuse_if mbind result_bind]. set (first := chars "old " ++ show_u64 (ac_old_size r)).
  set (ls := first :: map b64_encode (ac_proof r)).
  assert (Forall (fun l => (10 ∉ l) /\ l <> []) ls) as Hls.
  { constructor; [split; [|done]|].
    - apply not_elem_of_app. split; [by apply (bool_decide_unpack _); vm_compute|by apply show_u64_newline].
    - apply list.Forall_forall. intros l (h & -> & Hin)%list_elem_of_fmap. rewrite list.Forall_forall in Hp.
      split; [apply b64_no; [by apply Hp|done]|by apply b64_nonempty, Hp]. }
  assert (Forall (fun l => 10 ∉ l) ls) as Hls' by (eapply List.Forall_impl; [|exact Hls]; by intros ? [? _]).
  assert (AddCheckpoint_render r = unlines ls ++ 10 :: ac_note r) as Er.
  { unfold AddCheckpoint_render, ls, first. rewrite encode_lines. unfold unlines. cbn [flat_map].
    by rewrite <- !app_assoc. }
  rewrite Er, unlines_join, <- app_assoc by done. cbn [app].
  rewrite (proj2 (split_blank_Some _ (join 10 ls) (ac_note r))).
  2:{ split; [done|]. rewrite <- unlines_join by done. by eapply has_blank_tail, unlines_no_blank. }
  cbn [ok_or mbind result_bind]. rewrite (proj2 (split_on_Some 10 (join 10 ls) ls)) by done.
  unfold ls. cbn [List.hd_error mbind option_bind tail]. unfold first.
  rewrite (proj2 (strip_prefix_Some _ _ _) eq_refl). cbn [ok_or mbind result_bind].
  rewrite show_u64_canonical, show_u64_parse by done. cbn [negb refuse_if ok_or mbind result_bind].
  rewrite parse_proof_encode; [|done|exact Hl]. by destruct r.
Qed.
End history.

(** ** A concrete run *)

Module WSample.
Import Sample.
Definition origin : text := chars "decisions.example.com/log".
Definition cp (d : list Hash) : Checkpoint := mkCheckpoint origin (size_of d) (root_of d) [].
Definition request (m : Z) (d p : list Hash) : AddCheckpoint :=
  mkAddCheckpoint m p (SignedNote_render (LogSigner_sign log (cp d))).
Definition logs : gmap text NoteVerifier := {[ origin := lsg_verifier log ]}.
Definition two : list Hash := upto 2 sample_leaves.
Definition proof2 : list Hash := subproof 2 sample_leaves true.
Definition w0 : Witness MemoryStore := add_log (Witness_new witness (mkMemoryStore ∅)) origin (lsg_verifier log).
Definition w2 : Witness MemoryStore := with_store w0 (mkMemoryStore {[ origin := head_of two ]}).
End WSample.
Import Sample WSample.

Lemma memory_swap s o e new : ms_heads s !! o = e ->
  compare_and_swap tt s o e new = (mkMemoryStore (<[o := new]> (ms_heads s)), Ok true).
Proof. intros <-. cbn. unfold MemoryStore_compare_and_swap. by rewrite bool_decide_true. Qed.

(** Two requests in turn, from nothing to two and then three leaves. *)
Lemma sample_run : exists sys : System MemoryStore,
  rtc (witness_step witness logs) (witness_start (mkMemoryStore ∅)) sys /\
  store_heads (sy_store sys) origin = Some (head_of sample_leaves) /\
  collision_free sha256
    (flat_map (transition_messages sample_leaves) (List.filter (of_origin origin) (sy_trace sys))) /\
  sy_flights sys = [] /\ map is_text (sy_issued sys) = [Checkpoint_body (cp two); Checkpoint_body (cp sample_leaves)].
Proof.
  eexists. split; [eapply rtc_l; [|eapply rtc_l; [|eapply rtc_l; [|eapply rtc_once]]]|].
  - eapply (step_read _ _ tt _ (request 0 two []) 1700000000 (LogSigner_sign log (cp two)) (cp two) None (head_of two));
      by_compute.
  - eapply (step_swap _ _ tt _ _ [] [] _ true true); [reflexivity|by apply memory_swap].
  - eapply (step_read _ _ tt _ (request 2 sample_leaves proof2) 1700000001
      (LogSigner_sign log (cp sample_leaves)) (cp sample_leaves) (Some (head_of two)) (head_of sample_leaves));
      [by_compute|by_compute|exact (f_equal Ok (lookup_insert_eq ∅ origin (head_of two)))|by_compute].
  - eapply (step_swap _ _ tt _ _ [] [] _ true true); [reflexivity|].
    apply memory_swap. exact (lookup_insert_eq ∅ origin (head_of two)).
  - split_and!; [exact (lookup_insert_eq _ origin (head_of sample_leaves))|by_compute|reflexivity|by_compute].
Qed.

Lemma cosigned_heads_one_history_witness : exists sys : System MemoryStore,
  rtc (witness_step witness logs) (witness_start (mkMemoryStore ∅)) sys /\
  Forall (fun i => is_origin i = origin ->
    0 <= th_size (is_head i) <= size_of sample_leaves /\
    is_head i = head_of (upto (th_size (is_head i)) sample_leaves)) (sy_issued sys).
Proof.
  destruct sample_run as (sys & Hr & Hh & Hc & _). exists sys. split; [done|].
  apply (cosigned_heads_one_history witness logs (mkMemoryStore ∅)); try done. split; by_compute.
Defined.

Lemma witness_records_what_it_signs_witness :
  store_heads (wt_store (fst (add_checkpoint tt tt tt w2 (request 1 sample_leaves proof2) 5))) origin
    = store_heads (wt_store w2) origin.
Proof.
  refine ((_ : forall o, store_heads (wt_store _) o = store_heads _ o) origin).
  refine (witness_records_what_it_signs tt tt tt w2 (request 1 sample_leaves proof2) 5
    (fst (add_checkpoint tt tt tt w2 (request 1 sample_leaves proof2) 5)) (Err (Conflict 2)) _ _ _ _);
    [by_compute|done|by_compute|vm_compute; reflexivity].
Defined.

Lemma request_roundtrip_witness :
  AddCheckpoint_parse (AddCheckpoint_render (request 2 sample_leaves proof2)) = Ok (request 2 sample_leaves proof2).
Proof.
  apply request_roundtrip. split_and!; [by_compute|repeat constructor; by_compute|by_compute|by_compute].
Defined.
