(* ===== verification/Auditing.v ===== *)
(** * What an outside auditor checks ([src/audit.rs])

    Witness quorums over checkpoints, one party's view of a log, split views,
    record inclusion, and when a signature provably existed. A method that may
    panic returns [option], [None] for the panic. *)

From Stdlib Require Import String.
From S2P Require Import Prelude Bytes Text Crypto Merkle Checkpoint.
#[local] Open Scope Z_scope.

Inductive AuditError :=
| AuditCheckpoint (e : CheckpointError)
| AuditMerkle (e : MerkleError)
| BadPolicy (why : string)
| QuorumNotMet (got need : nat)
| WrongOrigin (got want : text)
| Shrinking
| Inconsistent
| Stale
| CosignedInTheFuture (witness : text) (time latest : Z)
| NoCheckpoint
| TimeUnproven
| SignatureUndated
| SignedAfterRevocation (existed_by revoked_at : Z)
| BitcoinNeedsHeight
| AnchoredAfterRevocation (height revoked_height : Z).

(** ** Witness policies *)

Record WitnessPolicy := mkWitnessPolicy {
  wp_witnesses : list NoteVerifier;
  wp_threshold : nat
}.

Definition same_witness (w o : NoteVerifier) : bool :=
  bool_decide (nv_key o = nv_key w)
  || (bool_decide (nv_name o = nv_name w) && (nv_key_hash o =? nv_key_hash w)).

(** [witnesses[..i]] is the list before each element. *)
Fixpoint listed_twice (before ws : list NoteVerifier) : bool :=
  match ws with
  | [] => false
  | w :: ws' => existsb (same_witness w) before || listed_twice (before ++ [w]) ws'
  end.

Definition WitnessPolicy_new (witnesses : list NoteVerifier) (threshold : nat) : result AuditError WitnessPolicy :=
  _ ← refuse_if (Nat.eqb threshold 0) (BadPolicy "threshold must be at least one");
  _ ← refuse_if (Nat.ltb (length witnesses) threshold) (BadPolicy "threshold exceeds the number of witnesses");
  _ ← refuse_if (existsb (fun w => negb (nv_algorithm w =? ALG_COSIGNATURE_V1)) witnesses)
        (BadPolicy "witness keys must be cosignature/v1 keys");
  _ ← refuse_if (listed_twice [] witnesses) (BadPolicy "a witness is listed twice");
  Ok (mkWitnessPolicy witnesses threshold).

Record Cosigned := mkCosigned { cs_witness : text; cs_time : Z }.

Record Witnessed := mkWitnessed {
  wd_note : SignedNote;
  wd_checkpoint : Checkpoint;
  wd_cosigned : list Cosigned;
  wd_threshold : nat
}.

Definition seen_by (self : Witnessed) : option Z :=
  match wd_threshold self with
  | O => None
  | S i => cs_time <$> wd_cosigned self !! i
  end.

Definition fresh_as_of (self : Witnessed) : option Z :=
  if Nat.ltb (length (wd_cosigned self)) (wd_threshold self) then None
  else cs_time <$> wd_cosigned self !! (length (wd_cosigned self) - wd_threshold self)%nat.

Definition DEFAULT_MAX_CLOCK_SKEW : Z := 300.

(** [Iterator::min_by_key]: the first of the least. *)
Fixpoint min_by_key {A} (key : A -> Z) (l : list A) : option A :=
  match l with
  | [] => None
  | x :: l' =>
      match min_by_key key l' with
      | None => Some x
      | Some y => if key x <=? key y then Some x else Some y
      end
  end.

Section quorum.
Context {HF : HashFunctions} {B64 : Base64} {ED : Ed25519}.

Definition cosignatures (self : WitnessPolicy) (note : SignedNote) : list Cosigned :=
  omap (fun w => match cosignature_time note w with
                 | Ok time => Some (mkCosigned (nv_name w) time)
                 | Err _ => None
                 end) (wp_witnesses self).

(** [latest.is_none_or(|l| c.time <= l)]. *)
Definition in_time (latest : option Z) (c : Cosigned) : bool :=
  match latest with Some l => cs_time c <=? l | None => true end.

Definition verify_quorum (note : text) (log : NoteVerifier) (policy : WitnessPolicy) (latest : option Z)
    : result AuditError Witnessed :=
  note ← map_err AuditCheckpoint (SignedNote_parse note);
  _ ← map_err AuditCheckpoint (SignedNote_verify note log);
  checkpoint ← map_err AuditCheckpoint (SignedNote_checkpoint note);
  let cosigned := List.filter (in_time latest) (cosignatures policy note) in
  let ahead := List.filter (fun c => negb (in_time latest c)) (cosignatures policy note) in
  if Nat.ltb (length cosigned) (wp_threshold policy) then
    match min_by_key cs_time ahead, latest with
    | Some first, Some latest => Err (CosignedInTheFuture (cs_witness first) (cs_time first) latest)
    | _, _ => Err (QuorumNotMet (length cosigned) (wp_threshold policy))
    end
  else Ok (mkWitnessed note checkpoint (sort_by_key cs_time cosigned) (wp_threshold policy)).

Definition verify_checkpoint (note : text) (log : NoteVerifier) (policy : WitnessPolicy)
    : result AuditError Witnessed :=
  verify_quorum note log policy None.

Definition verify_checkpoint_at (note : text) (log : NoteVerifier) (policy : WitnessPolicy) (now max_skew : Z)
    : result AuditError Witnessed :=
  verify_quorum note log policy (Some (saturate_u 64 (now + max_skew))).

(** ** Split views *)

Record SplitView := mkSplitView { sv_first : SignedNote; sv_second : SignedNote }.

Definition SplitView_verify (self : SplitView) (log : NoteVerifier) : result AuditError unit :=
  _ ← map_err AuditCheckpoint (SignedNote_verify (sv_first self) log);
  _ ← map_err AuditCheckpoint (SignedNote_verify (sv_second self) log);
  a ← map_err AuditCheckpoint (SignedNote_checkpoint (sv_first self));
  b ← map_err AuditCheckpoint (SignedNote_checkpoint (sv_second self));
  if bool_decide (cp_origin a = cp_origin b) && (cp_size a =? cp_size b) && negb (bool_decide (cp_root a = cp_root b))
  then Ok tt else Err Inconsistent.

Inductive Comparison :=
| Consistent
| ShownSplitView (v : SplitView).
End quorum.

(** ** Time evidence *)

Inductive TimeSource :=
| Witnesses
| Rfc3161
| Bitcoin (height : Z).

Definition is_clock (s : TimeSource) : bool := match s with Bitcoin _ => false | _ => true end.

Inductive Covers := Content | Signature.
#[export] Instance Covers_eq_dec : EqDecision Covers.
Proof. solve_decision. Defined.

Record TimeEvidence := mkTimeEvidence { te_source : TimeSource; te_time : Z; te_covers : Covers }.

Definition TimeEvidence_witnesses (time : Z) : TimeEvidence := mkTimeEvidence Witnesses time Signature.
Definition TimeEvidence_rfc3161 (time : Z) (covers : Covers) : TimeEvidence := mkTimeEvidence Rfc3161 time covers.
Definition TimeEvidence_bitcoin (height block_time : Z) (covers : Covers) : TimeEvidence :=
  mkTimeEvidence (Bitcoin height) block_time covers.

(** [Iterator::min] on integers. *)
Definition min_time (l : list Z) : option Z := min_by_key id l.

Definition covers_signature (e : TimeEvidence) : bool := bool_decide (te_covers e = Signature).

Definition existed_by (evidence : list TimeEvidence) : option Z :=
  min_time (map te_time (List.filter (fun e => is_clock (te_source e)) evidence)).

Definition signed_by (evidence : list TimeEvidence) : option Z :=
  min_time (map te_time (List.filter (fun e => is_clock (te_source e) && covers_signature e) evidence)).

Definition bitcoin_height_of (e : TimeEvidence) : option Z :=
  match te_source e with Bitcoin height => Some height | _ => None end.

Definition anchored_by (evidence : list TimeEvidence) : option Z :=
  min_time (omap bitcoin_height_of (List.filter covers_signature evidence)).

Inductive KeyStatus :=
| Active
| Revoked (at_ : Z) (bitcoin_height : option Z).

Definition revoked_at (at_ : Z) : KeyStatus := Revoked at_ None.

Definition accepts (self : KeyStatus) (evidence : list TimeEvidence) : result AuditError unit :=
  match self with
  | Active => Ok tt
  | Revoked at_ bitcoin_height =>
      if negb (existsb covers_signature evidence) then
        Err (match evidence with [] => TimeUnproven | _ => SignatureUndated end)
      else
        let clock := signed_by evidence in
        let anchor := anchored_by evidence in
        if match clock with Some t => t <? at_ | None => false end then Ok tt
        else if match anchor, bitcoin_height with Some height, Some limit => height <=? limit | _, _ => false end then Ok tt
        else Err (match clock, anchor, bitcoin_height with
                  | Some t, _, _ => SignedAfterRevocation t at_
                  | None, Some height, Some limit => AnchoredAfterRevocation height limit
                  | None, Some _, None => BitcoinNeedsHeight
                  | None, None, _ => TimeUnproven
                  end)
  end.

(** ** One party's view of a log *)

Record RecordProof := mkRecordProof { rp_index : Z; rp_tree_size : Z; rp_seen_by : Z }.

Record Auditor := mkAuditor {
  au_log : NoteVerifier;
  au_origin : text;
  au_policy : WitnessPolicy;
  au_max_age : option Z;
  au_max_skew : Z;
  au_latest : option Witnessed
}.

Definition Auditor_new (origin : text) (log : NoteVerifier) (policy : WitnessPolicy) : Auditor :=
  mkAuditor log origin policy None DEFAULT_MAX_CLOCK_SKEW None.
Definition with_max_age (self : Auditor) (seconds : Z) : Auditor :=
  mkAuditor (au_log self) (au_origin self) (au_policy self) (Some seconds) (au_max_skew self) (au_latest self).
Definition with_max_clock_skew (self : Auditor) (seconds : Z) : Auditor :=
  mkAuditor (au_log self) (au_origin self) (au_policy self) (au_max_age self) seconds (au_latest self).
Definition with_latest (self : Auditor) (w : Witnessed) : Auditor :=
  mkAuditor (au_log self) (au_origin self) (au_policy self) (au_max_age self) (au_max_skew self) (Some w).

Section auditor.
Context {HF : HashFunctions} {B64 : Base64} {ED : Ed25519}.

Definition check (self : Auditor) (note : text) (now : Z) : option (result AuditError Witnessed) :=
  match verify_checkpoint_at note (au_log self) (au_policy self) now (au_max_skew self) with
  | Err e => Some (Err e)
  | Ok w =>
      if negb (bool_decide (cp_origin (wd_checkpoint w) = au_origin self)) then
        Some (Err (WrongOrigin (cp_origin (wd_checkpoint w)) (au_origin self)))
      else
        match au_max_age self with
        | None => Some (Ok w)
        | Some max =>
            fresh ← fresh_as_of w;
            if max <? saturate_u 64 (now - fresh) then Some (Err Stale) else Some (Ok w)
        end
  end.

(** The comparison of the next checkpoint with the latest one. *)
Definition check_next (latest : option Witnessed) (next : Witnessed) (proof : list Hash) : result AuditError unit :=
  match latest with
  | None => Ok tt
  | Some prev =>
      let old := Checkpoint_head (wd_checkpoint prev) in
      let new := Checkpoint_head (wd_checkpoint next) in
      _ ← refuse_if (th_size new <? th_size old) Shrinking;
      _ ← refuse_if ((th_size new =? th_size old) && negb (bool_decide (th_root new = th_root old))) Inconsistent;
      refuse_if ((0 <? th_size old) && match verify_consistency old new proof with Err _ => true | Ok _ => false end) Inconsistent
  end.

Definition advance (self : Auditor) (note : text) (proof : list Hash) (now : Z)
    : option (Auditor * result AuditError Witnessed) :=
  next ← check self note now;
  Some (match (next ← next; _ ← check_next (au_latest self) next proof; Ok next) with
        | Ok next => (with_latest self next, Ok next)
        | Err e => (self, Err e)
        end).

Definition compare (self : Auditor) (note : text) (proof : list Hash) : result AuditError Comparison :=
  ours ← ok_or (au_latest self) NoCheckpoint;
  theirs ← map_err AuditCheckpoint (SignedNote_parse note);
  _ ← map_err AuditCheckpoint (SignedNote_verify theirs (au_log self));
  cp ← map_err AuditCheckpoint (SignedNote_checkpoint theirs);
  _ ← refuse_if (negb (bool_decide (cp_origin cp = au_origin self))) (WrongOrigin (cp_origin cp) (au_origin self));
  let a := Checkpoint_head (wd_checkpoint ours) in
  let b := Checkpoint_head cp in
  if th_size a =? th_size b then
    Ok (if bool_decide (th_root a = th_root b) then Consistent else ShownSplitView (mkSplitView (wd_note ours) theirs))
  else
    let '(small, large) := if th_size a <? th_size b then (a, b) else (b, a) in
    if (th_size small =? 0) || match verify_consistency small large proof with Ok _ => true | Err _ => false end
    then Ok Consistent else Err Inconsistent.

Definition verify_record (self : Auditor) (index : Z) (leaf_hash : Hash) (proof : list Hash)
    : option (result AuditError RecordProof) :=
  match au_latest self with
  | None => Some (Err NoCheckpoint)
  | Some latest =>
      match verify_inclusion (Checkpoint_head (wd_checkpoint latest)) index leaf_hash proof with
      | Err e => Some (Err (AuditMerkle e))
      | Ok _ =>
          seen ← seen_by latest;
          Some (Ok (mkRecordProof index (cp_size (wd_checkpoint latest)) seen))
      end
  end.
End auditor.
