(* ===== verification/AuditProps.v ===== *)
(** * The outside auditor: theorems

    What a quorum of cosignatures shows, that an auditor's accepted checkpoints
    are one history from which no proven record disappears, that a reported
    split view convinces others, and what a revoked key's signatures need. *)

From Stdlib Require Import String.
From S2P Require Import Prelude Bytes Text Crypto Merkle MerkleTrees MerkleProps Checkpoint CheckpointProps Witness WitnessProps Auditing.
#[local] Open Scope Z_scope.

(** ** Minima and order statistics *)

Lemma min_by_key_Some {A} (key : A -> Z) l m : min_by_key key l = Some m ->
  m ∈ l /\ Forall (fun x => key m <= key x) l.
Proof.
  revert m. induction l as [|x l IH]; intros m; cbn [min_by_key]; [done|].
  destruct (min_by_key key l) as [y|] eqn:E.
  - destruct (IH y eq_refl) as [Hy Hl]. destruct (Z.leb_spec (key x) (key y)); intros [= <-]; (split; [set_solver|]);
      (constructor; [lia|]); [|done]. eapply Forall_impl; [|exact Hl]. cbn. lia.
  - intros [= <-]. destruct l; [split; [set_solver|by repeat constructor]|]. cbn in E. by destruct (min_by_key key l); [case_match|].
Qed.

Lemma min_by_key_None {A} (key : A -> Z) l : min_by_key key l = None <-> l = [].
Proof. destruct l as [|x l]; cbn [min_by_key]; [done|]. split; [|done]. by destruct (min_by_key key l); [case_match|]. Qed.

(** The least of a list is below a bound iff one element is. *)
Lemma min_time_below (P : Z -> bool) l : (forall x y, x <= y -> P y = true -> P x = true) ->
  (match min_time l with Some t => P t | None => false end = true) <-> exists x, x ∈ l /\ P x = true.
Proof.
  intros Hmono. unfold min_time. destruct (min_by_key id l) as [m|] eqn:E.
  - apply min_by_key_Some in E as [Hm Hl]. rewrite list.Forall_forall in Hl. split; [by exists m|].
    intros (x & Hx & Px). eapply Hmono; [|exact Px]. by apply Hl.
  - apply min_by_key_None in E as ->. split; [done|]. intros (x & Hx & _). set_solver.
Qed.

Section order.
Context {A : Type} (key : A -> Z).

Lemma filter_all (f : A -> bool) l : Forall (fun x => f x = true) l -> List.filter f l = l.
Proof. induction 1 as [|x l Hx _ IH]; cbn; [done|]. by rewrite Hx, IH. Qed.

Lemma filter_none (f : A -> bool) l : Forall (fun x => f x = false) l -> List.filter f l = [].
Proof. induction 1 as [|x l Hx _ IH]; cbn; [done|]. by rewrite Hx. Qed.

(** The element at index [i] of a sorted list: more than [i] elements are at
    most it, at most [i] are less, and the same counted from the end. *)
Lemma sorted_rank l i x : StronglySorted (key_le key) l -> l !! i = Some x ->
  (i < length (List.filter (fun y => (key y <=? key x)%Z) l))%nat /\
  (length (List.filter (fun y => (key y <? key x)%Z) l) <= i)%nat /\
  (length l - i <= length (List.filter (fun y => (key x <=? key y)%Z) l))%nat /\
  (length (List.filter (fun y => (key x <? key y)%Z) l) < length l - i)%nat.
Proof.
  intros Hs Hi. apply list_elem_of_split_length in Hi as (a & b & -> & ->).
  assert (Forall (fun y => key y <= key x) a) as Fa.
  { apply list.Forall_forall. intros y Hy. eapply (StronglySorted_app_1_elem_of (key_le key)); [exact Hs|done|left]. }
  assert (Forall (fun y => key x <= key y) b) as Fb.
  { apply StronglySorted_app_1_r in Hs. inversion Hs. done. }
  rewrite !filter_app, !length_app. cbn [List.filter length]. rewrite Z.leb_refl, Z.ltb_irrefl. cbn [length].
  rewrite (filter_all (fun y => key y <=? key x) a) by (eapply Forall_impl; [|exact Fa]; intros; by apply Z.leb_le).
  rewrite (filter_none (fun y => key x <? key y) a) by (eapply Forall_impl; [|exact Fa]; intros; by apply Z.ltb_ge).
  rewrite (filter_all (fun y => key x <=? key y) b) by (eapply Forall_impl; [|exact Fb]; intros; by apply Z.leb_le).
  rewrite (filter_none (fun y => key y <? key x) b) by (eapply Forall_impl; [|exact Fb]; intros; by apply Z.ltb_ge).
  pose proof (List.filter_length_le (fun y => key y <? key x) a). pose proof (List.filter_length_le (fun y => key x <? key y) b).
  cbn [length]. lia.
Qed.

(** Two parts of a list that are together larger than it share an element. *)
Lemma filter_share (f g h : A -> bool) l :
  (length l + length (List.filter (fun x => negb (h x)) l) < length (List.filter f l) + length (List.filter g l))%nat ->
  exists x, x ∈ l /\ f x = true /\ g x = true /\ h x = true.
Proof.
  induction l as [|x l IH]; cbn [List.filter length]; [lia|].
  destruct (f x) eqn:Ef, (g x) eqn:Eg, (h x) eqn:Eh; cbn [negb length]; intros H;
    first [by exists x; split_and!; [left|..]|destruct IH as (y & Hy & ?); [lia|]; exists y; split; [by right|done]].
Qed.
End order.

(** ** Key revocation *)

Lemma clock_before evidence at_ :
  (match signed_by evidence with Some t => t <? at_ | None => false end = true) <->
    exists e, e ∈ evidence /\ te_covers e = Signature /\ is_clock (te_source e) = true /\ te_time e < at_.
Proof.
  unfold signed_by. rewrite (min_time_below (fun t => t <? at_)) by (intros x y ? ?%Z.ltb_lt; apply Z.ltb_lt; lia). split.
  - intros (t & (e & -> & [Hin [H1 H2]%andb_prop]%list_elem_of_In%filter_In)%list_elem_of_fmap & Ht%Z.ltb_lt).
    exists e. split_and!; [by apply list_elem_of_In|by apply bool_decide_eq_true in H2|done|done].
  - intros (e & Hin & H1 & H2 & Ht). exists (te_time e). split; [|by apply Z.ltb_lt]. apply list_elem_of_fmap. exists e. split; [done|].
    apply list_elem_of_In, filter_In. split; [by apply list_elem_of_In|]. unfold covers_signature. by rewrite H1, H2.
Qed.

Lemma anchor_within evidence limit :
  (match anchored_by evidence, limit with Some h, Some l => h <=? l | _, _ => false end = true) <->
    exists e h l, e ∈ evidence /\ te_covers e = Signature /\ te_source e = Bitcoin h /\ limit = Some l /\ h <= l.
Proof.
  destruct limit as [l|]; [|split; [by destruct (anchored_by evidence)|naive_solver]]. unfold anchored_by.
  rewrite (min_time_below (fun t => t <=? l)) by (intros x y ? ?%Z.leb_le; apply Z.leb_le; lia). split.
  - intros (h & Hh & Hle%Z.leb_le). apply list_elem_of_omap in Hh as (e & [Hin H2%bool_decide_eq_true]%list_elem_of_In%filter_In & Eh).
    unfold bitcoin_height_of in Eh. destruct (te_source e) eqn:Es; try done. injection Eh as ->.
    exists e, h, l. split_and!; [by apply list_elem_of_In|done..].
  - intros (e & h & l' & Hin & H1 & H2 & [= ->] & Hle). exists h. split; [|by apply Z.leb_le]. apply list_elem_of_omap. exists e.
    unfold bitcoin_height_of. rewrite H2. split; [|done]. apply list_elem_of_In, filter_In. split; [by apply list_elem_of_In|].
    by apply bool_decide_eq_true.
Qed.

(** A signature of a revoked key counts exactly when independent evidence
    covering the signature, not just the content, is a clock's time before the
    revocation or a Bitcoin block the chain had reached by then; an active
    key's always counts. Bitcoin block times never matter. *)
Theorem key_status_exact self evidence : accepts self evidence = Ok tt <->
  match self with
  | Active => True
  | Revoked at_ limit => exists e, e ∈ evidence /\ te_covers e = Signature /\
      match te_source e with
      | Bitcoin height => match limit with Some l => height <= l | None => False end
      | _ => te_time e < at_
      end
  end.
Proof.
  destruct self as [|at_ limit]; [done|]. unfold accepts.
  pose proof (clock_before evidence at_) as Hc. pose proof (anchor_within evidence limit) as Ha.
  destruct (existsb covers_signature evidence) eqn:Ex; cbn [negb].
  - destruct (match signed_by evidence with Some t => t <? at_ | None => false end) eqn:E1.
    { split; [intros _|done]. destruct (proj1 Hc eq_refl) as (e & H1 & H2 & H3 & H4). exists e. split_and!; [done|done|].
      by destruct (te_source e). }
    destruct (match anchored_by evidence, limit with Some h, Some l => h <=? l | _, _ => false end) eqn:E2.
    { split; [intros _|done]. destruct (proj1 Ha eq_refl) as (e & h & l & H1 & H2 & H3 & -> & H5). exists e. rewrite H3. done. }
    split; [by repeat case_match|]. intros (e & H1 & H2 & H3). destruct (te_source e) as [| |h] eqn:Es.
    + assert (false = true); [apply Hc; exists e; by rewrite Es|done].
    + assert (false = true); [apply Hc; exists e; by rewrite Es|done].
    + destruct limit as [l|]; [|done]. assert (false = true); [apply Ha; by exists e, h, l|done].
  - split; [by destruct evidence|]. intros (e & H1 & H2 & _). assert (existsb covers_signature evidence = true) as K; [|congruence].
    apply existsb_exists. exists e. split; [by apply list_elem_of_In|by apply bool_decide_eq_true].
Qed.

(** ** Quorums *)

Section quorum.
Context {HF : HashFunctions} {B64 : Base64} {ED : Ed25519}.

(** Whether a witness has a valid cosignature on the note, in time. *)
Definition cosigner (latest : option Z) (note : SignedNote) (v : NoteVerifier) : bool :=
  match cosignature_time note v with Ok time => in_time latest (mkCosigned (nv_name v) time) | Err _ => false end.

Lemma verify_quorum_Ok note log policy latest w : verify_quorum note log policy latest = Ok w <->
  SignedNote_parse note = Ok (wd_note w) /\ SignedNote_verify (wd_note w) log = Ok tt /\
  SignedNote_checkpoint (wd_note w) = Ok (wd_checkpoint w) /\
  (wp_threshold policy <= length (List.filter (in_time latest) (cosignatures policy (wd_note w))))%nat /\
  wd_cosigned w = sort_by_key cs_time (List.filter (in_time latest) (cosignatures policy (wd_note w))) /\
  wd_threshold w = wp_threshold policy.
Proof.
  unfold verify_quorum. split.
  - intros (n & Hn%map_err_Ok & ([] & Hv%map_err_Ok & (c & Hc%map_err_Ok & H)%bind_Ok)%bind_Ok)%bind_Ok.
    destruct (Nat.ltb_spec (length (List.filter (in_time latest) (cosignatures policy n))) (wp_threshold policy)) as [Hlt|Hge].
    + by repeat case_match.
    + injection H as <-. by cbn.
  - destruct w as [n c cs k]. cbn [wd_note wd_checkpoint wd_cosigned wd_threshold]. intros (-> & Hv & Hc & Hl & -> & ->).
    cbn [map_err mbind result_bind]. rewrite Hv. cbn [map_err mbind result_bind]. rewrite Hc. cbn [map_err mbind result_bind].
    by rewrite (proj2 (Nat.ltb_ge _ _)).
Qed.

Lemma cosigner_count policy note latest :
  length (List.filter (in_time latest) (cosignatures policy note)) = length (List.filter (cosigner latest note) (wp_witnesses policy)).
Proof.
  unfold cosignatures. induction (wp_witnesses policy) as [|v ws IH]; [done|]. cbn [omap list_omap List.filter]. unfold cosigner at 1.
  destruct (cosignature_time note v) as [t|e]; [|done]. cbn [List.filter]. destruct (in_time _ _); cbn [length]; by rewrite IH.
Qed.

Lemma cosigner_sound latest note v : cosigner latest note v = true -> exists t, cosignature_time note v = Ok t.
Proof. unfold cosigner. destruct (cosignature_time note v); [by eexists|done]. Qed.

(** An accepted policy lists every key once. *)
Lemma listed_twice_keys ws : forall before, NoDup (map nv_key before) -> listed_twice before ws = false -> NoDup (map nv_key (before ++ ws)).
Proof.
  induction ws as [|w ws IH]; intros before Hb; cbn [listed_twice]; [by rewrite app_nil_r|]. intros [Hw Hr]%orb_false_elim.
  replace (before ++ w :: ws) with ((before ++ [w]) ++ ws) by by rewrite <- app_assoc. apply IH; [|done].
  rewrite map_app. apply list.NoDup_app. split_and!; [done| |apply NoDup_singleton]. intros k Hk Hk'. cbn [map] in Hk'.
  apply list_elem_of_singleton in Hk'. subst k. apply list_elem_of_fmap in Hk as (o & Eo & Ho).
  apply (not_elem_existsb (same_witness w) o) in Hw; [done|]. unfold same_witness. by rewrite Eo, bool_decide_true.
Qed.

Lemma policy_new_Ok ws k policy : WitnessPolicy_new ws k = Ok policy ->
  policy = mkWitnessPolicy ws k /\ (1 <= k <= length ws)%nat /\ NoDup (map nv_key ws) /\
  Forall (fun v => nv_algorithm v = ALG_COSIGNATURE_V1) ws.
Proof.
  unfold WitnessPolicy_new. intros (u & H0 & (u1 & H1 & (u2 & H2 & (u3 & H3 & [= <-])%bind_Ok)%bind_Ok)%bind_Ok)%bind_Ok.
  apply refuse_if_Ok in H0, H1, H2, H3. apply Nat.eqb_neq in H0. apply Nat.ltb_ge in H1. split_and!; [done|lia|lia| |].
  - by apply (listed_twice_keys ws []); [apply NoDup_nil_2|].
  - apply list.Forall_forall. intros v Hv. destruct (Z.eqb_spec (nv_algorithm v) ALG_COSIGNATURE_V1); [done|].
    exfalso. eapply not_elem_existsb in H2; [by apply H2|]. cbn. apply negb_true_iff. by apply Z.eqb_neq.
Qed.

(** What a witness promises about the notes it cosigned for a log: their heads
    are prefixes of one history. *)
Definition keeps_one_history (o : text) (notes : list SignedNote) (v : NoteVerifier) : Prop :=
  exists d, leaf_hashes_ok d /\ forall note c t, note ∈ notes -> cosignature_time note v = Ok t ->
    SignedNote_checkpoint note = Ok c -> cp_origin c = o -> prefix_head d (Checkpoint_head c).

Lemma dishonest_count (bad ws : list NoteVerifier) : NoDup (map nv_key ws) ->
  (length (List.filter (fun v => negb (negb (bool_decide (v ∈ bad)))) ws) <= length bad)%nat.
Proof.
  intros Hn. apply NoDup_fmap_1 in Hn. apply submseteq_length, NoDup_submseteq.
  - apply NoDup_ListNoDup, List.NoDup_filter. by apply NoDup_ListNoDup.
  - intros v [_ Hv]%list_elem_of_In%filter_In. rewrite negb_involutive in Hv. by apply bool_decide_eq_true in Hv.
Qed.

(** Claim C13: Quorums intersect in an honest witness. Under an accepted policy of which
    at most [length bad] listed witnesses are dishonest, and with a threshold
    above half of the witnesses and the dishonest ones together, two
    checkpoints of one log that both clear the policy are heads of prefixes of
    one history; of one size, they are the same. *)
Theorem quorum_one_history ws k policy bad log note1 note2 latest1 latest2 w1 w2 :
  WitnessPolicy_new ws k = Ok policy -> (length ws + length bad < k + k)%nat ->
  verify_quorum note1 log policy latest1 = Ok w1 -> verify_quorum note2 log policy latest2 = Ok w2 ->
  cp_origin (wd_checkpoint w1) = cp_origin (wd_checkpoint w2) ->
  (forall v, v ∈ ws -> v ∉ bad -> keeps_one_history (cp_origin (wd_checkpoint w1)) [wd_note w1; wd_note w2] v) ->
  let h1 := Checkpoint_head (wd_checkpoint w1) in
  let h2 := Checkpoint_head (wd_checkpoint w2) in
  (exists d, leaf_hashes_ok d /\ prefix_head d h1 /\ prefix_head d h2) /\ (th_size h1 = th_size h2 -> h1 = h2).
Proof.
  intros (-> & Hk & Hn & _)%policy_new_Ok Hq (_ & _ & C1 & L1 & _)%verify_quorum_Ok (_ & _ & C2 & L2 & _)%verify_quorum_Ok Ho Hh h1 h2.
  rewrite cosigner_count in L1, L2. cbn [wp_witnesses wp_threshold] in *. pose proof (dishonest_count bad ws Hn) as Hb.
  destruct (filter_share (cosigner latest1 (wd_note w1)) (cosigner latest2 (wd_note w2)) (fun v => negb (bool_decide (v ∈ bad))) ws)
    as (v & Hv & [t1 F1]%cosigner_sound & [t2 F2]%cosigner_sound & Hg%negb_true_iff%bool_decide_eq_false); [lia|].
  destruct (Hh v Hv Hg) as (d & Hd & Hp).
  assert (prefix_head d h1) as P1 by (eapply Hp; [left|done|done|done]).
  assert (prefix_head d h2) as P2 by (eapply Hp; [right; left|done|done|done]).
  split; [by exists d|]. intros E. destruct P1 as [_ P1], P2 as [_ P2]. by rewrite P1, P2, E.
Qed.

(** What the times of a witnessed checkpoint mean. [seen_by] is the earliest
    time by which a quorum of witnesses had dated its cosignatures, and
    [fresh_as_of] the latest time since which a quorum has: the quorum is met
    at that time and not at any better one. Neither panics. *)
Theorem quorum_times_exact ws k policy log note latest w : WitnessPolicy_new ws k = Ok policy ->
  verify_quorum note log policy latest = Ok w ->
  let times := map cs_time (List.filter (in_time latest) (cosignatures policy (wd_note w))) in
  exists seen fresh, seen_by w = Some seen /\ fresh_as_of w = Some fresh /\
    (k <= length (List.filter (fun t => (t <=? seen)%Z) times) /\ length (List.filter (fun t => (t <? seen)%Z) times) < k)%nat /\
    (k <= length (List.filter (fun t => (fresh <=? t)%Z) times) /\ length (List.filter (fun t => (fresh <? t)%Z) times) < k)%nat.
Proof.
  intros (-> & Hk & _)%policy_new_Ok (_ & _ & _ & L & Ec & Et)%verify_quorum_Ok. cbn [wp_threshold] in *.
  set (l := List.filter (in_time latest) (cosignatures _ _)) in *. unfold seen_by, fresh_as_of. rewrite Ec, Et.
  pose proof (sort_by_key_perm cs_time l) as Hp. pose proof (sort_by_key_sorted cs_time l) as Hs.
  assert (length (sort_by_key cs_time l) = length l) as El by by rewrite Hp.
  assert (forall f, length (List.filter f (map cs_time l)) = length (List.filter (fun y => f (cs_time y)) (sort_by_key cs_time l))) as Hf.
  { intros f. transitivity (length (List.filter (fun y => f (cs_time y)) l)).
    - clear. induction l as [|x l IH]; [done|]. cbn. destruct (f (cs_time x)); cbn; by rewrite IH.
    - apply Permutation_length. clear -Hp. symmetry. induction Hp; cbn; repeat case_match; by eauto using Permutation. }
  destruct k as [|k]; [lia|]. rewrite (proj2 (Nat.ltb_ge _ _)) by lia.
  destruct (lookup_lt_is_Some_2 (sort_by_key cs_time l) k) as [x Hx]; [lia|].
  destruct (lookup_lt_is_Some_2 (sort_by_key cs_time l) (length (sort_by_key cs_time l) - S k)) as [y Hy]; [lia|].
  destruct (sorted_rank cs_time _ _ _ Hs Hx) as (X1 & X2 & _). destruct (sorted_rank cs_time _ _ _ Hs Hy) as (_ & _ & Y1 & Y2).
  exists (cs_time x), (cs_time y). rewrite Hx, Hy, !Hf. split_and!; [done|done|lia..].
Qed.

(** A split view an auditor reports convinces anyone with the log's key. *)
Lemma compare_split self note proof v : (forall w, au_latest self = Some w ->
    SignedNote_verify (wd_note w) (au_log self) = Ok tt /\ SignedNote_checkpoint (wd_note w) = Ok (wd_checkpoint w) /\
    cp_origin (wd_checkpoint w) = au_origin self) ->
  compare self note proof = Ok (ShownSplitView v) -> SplitView_verify v (au_log self) = Ok tt.
Proof.
  intros Hl. unfold compare. intros (ours & Ho & (theirs & Ht%map_err_Ok & ([] & Hv%map_err_Ok & (cp & Hc%map_err_Ok & (u & Hu & H)%bind_Ok)%bind_Ok)%bind_Ok)%bind_Ok)%bind_Ok.
  destruct (au_latest self) as [w|] eqn:El; [|done]. injection Ho as ->. destruct (Hl _ eq_refl) as (H1 & H2 & H3).
  apply refuse_if_Ok, negb_false_iff, bool_decide_eq_true in Hu.
  destruct (Z.eqb_spec (th_size (Checkpoint_head (wd_checkpoint ours))) (th_size (Checkpoint_head cp))) as [Es|]; [|by repeat case_match].
  destruct (bool_decide_reflect (th_root (Checkpoint_head (wd_checkpoint ours)) = th_root (Checkpoint_head cp))) as [|Er]; [done|].
  injection H as <-. unfold SplitView_verify. cbn [sv_first sv_second]. rewrite H1. cbn [map_err mbind result_bind]. rewrite Hv.
  cbn [map_err mbind result_bind]. rewrite H2. cbn [map_err mbind result_bind]. rewrite Hc. cbn [map_err mbind result_bind].
  cbn [Checkpoint_head th_size th_root] in Es, Er. rewrite H3, Hu, bool_decide_true, Es, Z.eqb_refl, bool_decide_false by done. done.
Qed.
End quorum.

(** ** Runs of an auditor *)

Section runs.
Context {HF : HashFunctions} {B64 : Base64} {ED : Ed25519}.

(** Calls of [advance], with what was accepted: from the head before to the
    head after, by a proof. [None] is a panic. *)
Fixpoint audit_run (a : Auditor) (calls : list (text * list Hash * Z)) : option (Auditor * list Transition) :=
  match calls with
  | [] => Some (a, [])
  | (note, proof, now) :: calls' =>
      '(a1, r) ← advance a note proof now;
      '(a2, tr) ← audit_run a1 calls';
      Some (a2, match r with
                | Ok w => mkTransition (au_origin a) ((fun w => Checkpoint_head (wd_checkpoint w)) <$> au_latest a)
                            (Checkpoint_head (wd_checkpoint w)) proof :: tr
                | Err _ => tr
                end)
  end.

(** The auditor's state: a policy that was accepted, and a latest checkpoint
    that cleared it, for the audited log. *)
Definition auditor_ok (a : Auditor) : Prop :=
  (exists ws k, WitnessPolicy_new ws k = Ok (au_policy a)) /\
  forall w, au_latest a = Some w -> cp_origin (wd_checkpoint w) = au_origin a /\
    exists note latest, verify_quorum note (au_log a) (au_policy a) latest = Ok w.

Lemma quorum_head_ok note log policy latest w : verify_quorum note log policy latest = Ok w ->
  head_ok (Checkpoint_head (wd_checkpoint w)).
Proof.
  intros (_ & _ & Hc & _)%verify_quorum_Ok. apply checkpoint_parse_exact in Hc as [(_ & H1 & H2 & _) _]. by split.
Qed.

Lemma quorum_seen ws k log note policy latest w : WitnessPolicy_new ws k = Ok policy -> verify_quorum note log policy latest = Ok w ->
  is_Some (seen_by w) /\ is_Some (fresh_as_of w).
Proof.
  intros (-> & Hk & _)%policy_new_Ok (_ & _ & _ & L & Ec & Et)%verify_quorum_Ok. cbn [wp_threshold] in *.
  assert (length (wd_cosigned w) = length (List.filter (in_time latest) (cosignatures (mkWitnessPolicy ws k) (wd_note w)))) as El
    by (rewrite Ec; apply Permutation_length, sort_by_key_perm).
  unfold seen_by, fresh_as_of. rewrite Et. destruct k as [|k]; [lia|]. rewrite (proj2 (Nat.ltb_ge _ _)) by lia.
  split; apply fmap_is_Some, lookup_lt_is_Some_2; lia.
Qed.

Lemma check_ok self note now : auditor_ok self -> exists r, check self note now = Some r /\
  match r with
  | Ok w => cp_origin (wd_checkpoint w) = au_origin self /\
      exists latest, verify_quorum note (au_log self) (au_policy self) latest = Ok w
  | Err _ => True
  end.
Proof.
  intros [(ws & k & Hp) _]. unfold check, verify_checkpoint_at. set (latest := Some _).
  destruct (verify_quorum note (au_log self) (au_policy self) latest) as [w|e] eqn:E; [|by eexists].
  case_bool_decide as Eo; cbn [negb]; [|by eexists]. destruct (au_max_age self) as [max|]; [|eexists; split; [done|]; split; [done|by exists latest]].
  destruct (quorum_seen _ _ _ _ _ _ _ Hp E) as [_ [fresh ->]]. cbn [mbind option_bind]. destruct (max <? _); eexists; (split; [done|]); [done|split; [done|by exists latest]].
Qed.

(** [advance] never panics, and keeps the state. *)
Lemma advance_ok self note proof now : auditor_ok self -> exists a r, advance self note proof now = Some (a, r) /\ auditor_ok a /\
  au_origin a = au_origin self /\
  match r with Ok w => au_latest a = Some w /\ check_next (au_latest self) w proof = Ok tt | Err _ => a = self end.
Proof.
  intros Ha. unfold advance. destruct (check_ok self note now Ha) as ([w|e] & -> & Hr); cbn [mbind option_bind result_bind]; [|by eexists _, _].
  destruct (check_next (au_latest self) w proof) as [[]|e] eqn:E; cbn [mbind result_bind]; [|by eexists _, _].
  eexists _, _. split; [done|]. cbn [with_latest au_latest au_origin au_log au_policy]. split_and!; [|done|done|done].
  destruct Ha as [Hp _]. split; [done|]. cbn [with_latest au_latest au_origin au_log au_policy]. intros w' [= <-].
  destruct Hr as [Ho (latest & Hq)]. split; [done|]. by exists note, latest.
Qed.

(** An accepted step, backwards: the older head is a prefix too. *)
Lemma check_next_prefix d prev next proof : leaf_hashes_ok d -> Forall is_hash proof ->
  head_ok (Checkpoint_head (wd_checkpoint prev)) -> check_next (Some prev) next proof = Ok tt ->
  prefix_head d (Checkpoint_head (wd_checkpoint next)) ->
  collision_free sha256 (transition_messages d
    (mkTransition [] (Some (Checkpoint_head (wd_checkpoint prev))) (Checkpoint_head (wd_checkpoint next)) proof)) ->
  0 < cp_size (wd_checkpoint prev) -> prefix_head d (Checkpoint_head (wd_checkpoint prev)).
Proof.
  intros Hd Hp Hh (u & H1 & (u1 & _ & H2)%bind_Ok)%bind_Ok Hn Hc Hs. apply refuse_if_Ok in H1, H2. apply Z.ltb_ge in H1.
  cbn [Checkpoint_head th_size] in H2. rewrite (proj2 (Z.ltb_lt _ _)) in H2 by done. cbn [andb] in H2.
  destruct (verify_consistency _ _ _) as [[]|] eqn:Ev; [|done]. by eapply consistent_prefix.
Qed.

(** Everything accepted since a checkpoint of the run is of one history with
    it, so the checkpoint is a prefix of what the auditor holds in the end. *)
Lemma audit_run_prefix d calls : forall a a' tr w w',
  auditor_ok a -> Forall (fun c => Forall is_hash (snd (fst c))) calls -> audit_run a calls = Some (a', tr) ->
  au_latest a = Some w -> au_latest a' = Some w' -> leaf_hashes_ok d -> Checkpoint_head (wd_checkpoint w') = head_of d ->
  collision_free sha256 (flat_map (transition_messages d) tr) -> 0 < cp_size (wd_checkpoint w) ->
  prefix_head d (Checkpoint_head (wd_checkpoint w)).
Proof.
  induction calls as [|[[note proof] now] calls IH]; intros a a' tr w w' Ha Hf Hr El El' Hd Hh Hc Hs.
  - injection Hr as <- <-. rewrite El in El'. injection El' as <-. rewrite Hh. split; [cbn; unfold size_of; lia|].
    cbn [head_of th_size]. by rewrite upto_all by lia.
  - apply list.Forall_cons in Hf as [Hf1 Hf]. cbn [fst snd] in Hf1. cbn [audit_run] in Hr.
    destruct (advance_ok a note proof now Ha) as (a1 & r & Ea & Ha1 & Eo & Hr1). rewrite Ea in Hr. cbn [mbind option_bind] in Hr.
    apply bind_Some in Hr as ([a2 tr2] & Hr2 & [= <- <-]). destruct r as [x|e]; [|subst a1; by eapply IH].
    destruct Hr1 as [Ex Hx]. cbn [flat_map] in Hc. rewrite El in Hc, Hx.
    assert (head_ok (Checkpoint_head (wd_checkpoint w))) as Hw.
    { destruct Ha as [_ Hl]. destruct (Hl w El) as (_ & n & l & Hq). by eapply quorum_head_ok. }
    assert (cp_size (wd_checkpoint w) <= cp_size (wd_checkpoint x)) as Hle.
    { apply bind_Ok in Hx as (u & Hx & _). apply refuse_if_Ok, Z.ltb_ge in Hx. done. }
    eapply check_next_prefix; [done|done|done|exact Hx| | |done].
    + eapply (IH a1); [done|done|done|done|done|done|done| |lia].
      eapply collision_free_sub; [exact Hc|]. intros m Hm. apply elem_of_app. by right.
    + eapply collision_free_sub; [exact Hc|]. intros m Hm. apply elem_of_app. by left.
Qed.

Lemma audit_run_ok calls : forall a, auditor_ok a -> exists a' tr, audit_run a calls = Some (a', tr) /\ auditor_ok a' /\
  (is_Some (au_latest a) -> is_Some (au_latest a')).
Proof.
  induction calls as [|[[note proof] now] calls IH]; intros a Ha; cbn [audit_run]; [by eexists _, _|].
  destruct (advance_ok a note proof now Ha) as (a1 & r & -> & Ha1 & _ & Hr). cbn [mbind option_bind].
  destruct (IH a1 Ha1) as (a2 & tr & -> & Ha2 & Hl). cbn [mbind option_bind]. eexists _, _. split_and!; [done|done|].
  intros Hs. apply Hl. destruct r; [destruct Hr as [-> _]; by eexists|by subst].
Qed.

Lemma auditor_new_ok log origin ws k policy max_age skew : WitnessPolicy_new ws k = Ok policy ->
  auditor_ok (mkAuditor log origin policy max_age skew None).
Proof. intros Hp. split; [by exists ws, k|done]. Qed.

(** What the inclusion check of a record hashes, against the canonical path. *)
Definition record_messages (d : list Hash) (n index : Z) (leaf : Hash) (proof : list Hash) : list (list Z) :=
  inclusion_messages index n leaf proof ++
  match upto n d !! Z.to_nat index with
  | Some x => inclusion_messages index n x (path index (upto n d))
  | None => []
  end.

Lemma record_included d h index leaf proof : leaf_hashes_ok d -> prefix_head d h -> is_hash leaf -> Forall is_hash proof ->
  0 <= index -> collision_free sha256 (record_messages d (th_size h) index leaf proof) ->
  verify_inclusion h index leaf proof = Ok tt -> d !! Z.to_nat index = Some leaf.
Proof.
  intros [Hd Hf] [Hn En] Hl Hp Hi Hc Hv. set (d' := upto (th_size h) d) in *.
  assert (size_of d' = th_size h) as Hsz by (unfold d'; rewrite size_upto; lia).
  pose proof (included_index _ _ _ _ Hv) as Hlt.
  destruct (lookup_lt_is_Some_2 d' (Z.to_nat index)) as [x Hx]; [unfold size_of in *; lia|].
  unfold record_messages in Hc. fold d' in Hc. rewrite Hx in Hc. rewrite En in Hv.
  destruct (inclusion_binds d' index x leaf proof) as [-> _]; try done.
  - split; [lia|by apply Forall_take].
  - by rewrite Hsz.
  - rewrite <- Hx. unfold d'. by rewrite lookup_upto by lia.
Qed.

(** Claim C14: A record an auditor has verified stays in the log it accepts. From an
    accepted policy no call panics; and once [verify_record] accepts a record,
    then after any further calls of [advance], accepted or refused, the tree
    behind the auditor's latest checkpoint has that record at that index,
    provided SHA-256 has no collision among the messages the accepted proofs
    and the canonical ones hash. *)
Theorem audited_records_persist origin log ws k policy max_age skew calls1 calls2 index leaf proof :
  WitnessPolicy_new ws k = Ok policy -> Forall (fun c => Forall is_hash (snd (fst c))) (calls1 ++ calls2) ->
  is_hash leaf -> Forall is_hash proof -> 0 <= index ->
  exists a1 tr1 r, audit_run (mkAuditor log origin policy max_age skew None) calls1 = Some (a1, tr1) /\
    verify_record a1 index leaf proof = Some r /\ forall rp, r = Ok rp ->
    exists a2 tr2 w, audit_run a1 calls2 = Some (a2, tr2) /\ au_latest a2 = Some w /\
      forall d, Checkpoint_head (wd_checkpoint w) = head_of d -> leaf_hashes_ok d ->
        collision_free sha256 (flat_map (transition_messages d) tr2 ++ record_messages d (rp_tree_size rp) index leaf proof) ->
        d !! Z.to_nat index = Some leaf.
Proof.
  intros Hp [Hc1 Hc2]%list.Forall_app Hl Hpf Hi.
  destruct (audit_run_ok calls1 _ (auditor_new_ok log origin ws k policy max_age skew Hp)) as (a1 & tr1 & E1 & Ha1 & _).
  exists a1, tr1. unfold verify_record. destruct (au_latest a1) as [w1|] eqn:El; [|by eexists].
  destruct (verify_inclusion _ index leaf proof) as [[]|e] eqn:Ev; [|by eexists].
  pose proof Ha1 as [(ws' & k' & Hp') Hw]. destruct (Hw w1 El) as (_ & n & lt & Hq).
  destruct (quorum_seen _ _ _ _ _ _ _ Hp' Hq) as [[seen ->] _]. eexists. split; [exact E1|]. split; [done|]. intros rp [= <-].
  destruct (audit_run_ok calls2 a1 Ha1) as (a2 & tr2 & E2 & _ & [w Ew]); [by rewrite El|]. exists a2, tr2, w. split_and!; [done|done|].
  intros d Hh Hd Hc. cbn [rp_tree_size] in Hc.
  eapply (record_included d (Checkpoint_head (wd_checkpoint w1))); [done| |done|done|done| |done].
  - eapply (audit_run_prefix d calls2 a1); [done|done|done|done|done|done|done| |].
    + eapply collision_free_sub; [exact Hc|]. intros m Hm. apply elem_of_app. by left.
    + apply included_index in Ev. cbn [Checkpoint_head th_size] in Ev. lia.
  - eapply collision_free_sub; [exact Hc|]. intros m Hm. apply elem_of_app. by right.
Qed.

(** A split view that [compare] reports, at any point of an auditor's run, is
    evidence anyone with the log's key accepts. *)
Theorem split_view_transferable origin log ws k policy max_age skew calls a tr note proof v :
  WitnessPolicy_new ws k = Ok policy -> audit_run (mkAuditor log origin policy max_age skew None) calls = Some (a, tr) ->
  compare a note proof = Ok (ShownSplitView v) -> SplitView_verify v (au_log a) = Ok tt.
Proof.
  intros Hp Hr. destruct (audit_run_ok calls _ (auditor_new_ok log origin ws k policy max_age skew Hp)) as (a' & tr' & E & [_ Hl] & _).
  rewrite Hr in E. injection E as <- <-. apply compare_split. intros w Hw. destruct (Hl w Hw) as (Ho & n & lt & Hq).
  apply verify_quorum_Ok in Hq as (_ & H1 & H2 & _). done.
Qed.
End runs.

(** ** An honest witness *)

Section honest.
Context {HF : HashFunctions} {B64 : Base64} {ED : Ed25519}.
Context {S Io : Type} {WS : WitnessStore S Io} {WL : WitnessStoreLaws S Io}.
Context (signer : WitnessSigner) (logs : gmap text NoteVerifier).

(** The signature scheme: a cosignature of the witness's key that verifies on
    a note was made by the witness, for that text. *)
Definition genuine (sys : System S) (note : SignedNote) : Prop :=
  forall t, cosignature_time note (wsg_verifier signer) = Ok t ->
    exists i, i ∈ sy_issued sys /\ is_text i = sn_text note.

(** A witness that runs the code of [add_checkpoint], however its requests
    interleave, keeps the promise a quorum relies on. *)
Lemma honest_witness_keeps s sys o d notes :
  store_ok s -> (forall o', store_heads s o' = None) ->
  rtc (witness_step signer logs) (witness_start s) sys ->
  store_heads (sy_store sys) o = Some (head_of d) -> leaf_hashes_ok d ->
  collision_free sha256 (flat_map (transition_messages d) (List.filter (of_origin o) (sy_trace sys))) ->
  Forall (genuine sys) notes -> keeps_one_history o notes (wsg_verifier signer).
Proof.
  intros Hok Hn Hr Hh Hd Hc Hg. exists d. split; [done|]. intros note c t Hin Ht Hcp Ho.
  rewrite list.Forall_forall in Hg. destruct (Hg note Hin t Ht) as (i & Hi & Et).
  destruct (texts_inv_reachable signer logs s sys Hr) as [_ Hx]. rewrite list.Forall_forall in Hx.
  destruct (Hx i Hi) as (c' & Ec & Eo & Eh). unfold SignedNote_checkpoint in Hcp. rewrite Et, Hcp in Ec. injection Ec as <-.
  rewrite Eh. eapply issued_prefix; try done. congruence.
Qed.
End honest.

(** ** A concrete audit *)

Module AuditSample.
Import Sample WSample.
Definition signed_note (d : list Hash) (time : Z) : SignedNote := full_note log (cp d) [(witness, time)].
Definition shown (d : list Hash) (time : Z) : text := SignedNote_render (signed_note d time).
Definition policy : WitnessPolicy := mkWitnessPolicy [wsg_verifier witness] 1.
Definition seen (d : list Hash) (time : Z) : Witnessed :=
  mkWitnessed (signed_note d time) (cp d) [mkCosigned (chars "w1.example") time] 1.
Definition auditor : Auditor := with_max_age (Auditor_new origin (lsg_verifier log) policy) 3600.
Definition call1 : text * list Hash * Z := (shown two 1700000000, [], 1700000100).
Definition call2 : text * list Hash * Z := (shown sample_leaves 1700000001, proof2, 1700000200).
Definition other : list Hash := [replicate 32 1; replicate 32 2].
Definition leaf0 : Hash := default [] (two !! 0%nat).
Definition audited : Auditor := with_latest auditor (seen two 1700000000).
End AuditSample.
Import Sample WSample AuditSample.

Lemma key_status_exact_witness : accepts (Revoked 100 (Some 800000)) [TimeEvidence_bitcoin 799999 500 Signature] = Ok tt.
Proof.
  apply (key_status_exact (Revoked 100 (Some 800000)) [TimeEvidence_bitcoin 799999 500 Signature]).
  eexists. split; [left|]. by_compute.
Defined.

(** The hypothesis on the signatures holds of the notes of the sample run, and
    the witness's promise follows from its code. *)
Lemma quorum_one_history_witness : exists d, leaf_hashes_ok d /\ prefix_head d (head_of two) /\ prefix_head d (head_of sample_leaves).
Proof.
  refine (proj1 (quorum_one_history [wsg_verifier witness] 1 policy [] (lsg_verifier log) (shown two 1700000000)
    (shown sample_leaves 1700000001) None None (seen two 1700000000) (seen sample_leaves 1700000001) _ _ _ _ _ _));
    [by_compute|apply Nat.ltb_lt; by_compute|by_compute|by_compute|by_compute|].
  intros v ->%list_elem_of_singleton _. destruct sample_run as (sys & Hr & Hh & Hc & _ & Ht).
  apply (honest_witness_keeps witness logs (mkMemoryStore ∅) sys origin sample_leaves); try done; [split; by_compute|].
  assert (forall d, Checkpoint_body (cp d) ∈ map is_text (sy_issued sys) -> genuine witness sys (signed_note d 1700000000)
    /\ genuine witness sys (signed_note d 1700000001)) as Hg.
  { intros d (i & Ei & Hi)%list_elem_of_fmap. by split; intros t _; exists i. }
  rewrite Ht in Hg. destruct (Hg two) as [G1 _]; [left|]. destruct (Hg sample_leaves) as [_ G2]; [right; left|].
  constructor; [exact G1|constructor; [exact G2|constructor]].
Defined.

Lemma quorum_times_exact_witness : exists t fresh, seen_by (seen two 1700000000) = Some t /\ fresh_as_of (seen two 1700000000) = Some fresh.
Proof.
  destruct (quorum_times_exact [wsg_verifier witness] 1 policy (lsg_verifier log) (shown two 1700000000) None (seen two 1700000000))
    as (t & fresh & H1 & H2 & _); [by_compute|by_compute|]. by exists t, fresh.
Defined.

Lemma audited_records_persist_witness : exists a2 tr2 w, audit_run audited [call2] = Some (a2, tr2) /\ au_latest a2 = Some w /\
  forall d, Checkpoint_head (wd_checkpoint w) = head_of d -> leaf_hashes_ok d ->
    collision_free sha256 (flat_map (transition_messages d) tr2 ++ record_messages d 2 0 leaf0 (path 0 two)) ->
    d !! 0%nat = Some leaf0.
Proof.
  destruct (audited_records_persist origin (lsg_verifier log) [wsg_verifier witness] 1 policy (Some 3600) 300 [call1] [call2]
    0 leaf0 (path 0 two)) as (a1 & tr1 & r & H1 & H2 & H3); [by_compute..|].
  assert (audit_run auditor [call1] = Some (audited, [mkTransition origin None (head_of two) []])) as E by by_compute.
  change (audit_run auditor [call1] = Some (a1, tr1)) in H1. rewrite E in H1. injection H1 as <- <-.
  assert (verify_record audited 0 leaf0 (path 0 two) = Some (Ok (mkRecordProof 0 2 1700000000))) as Ev by by_compute.
  rewrite Ev in H2. injection H2 as <-. exact (H3 _ eq_refl).
Defined.

Lemma split_view_transferable_witness :
  SplitView_verify (mkSplitView (signed_note two 1700000000) (signed_note other 1700000005)) (lsg_verifier log) = Ok tt.
Proof.
  apply (split_view_transferable origin (lsg_verifier log) [wsg_verifier witness] 1 policy (Some 3600) 300 [call1] audited
    [mkTransition origin None (head_of two) []] (shown other 1700000005) []); by_compute.
Defined.
