(* ===== verification/Hybrid.v ===== *)
(** * Hybrid signatures ([src/hybrid.rs])

    Ed25519 and ML-DSA-65 over one tagged digest, and batches of digests under
    one signature. ML-DSA is a parameter, as Ed25519 is: a signing key is its
    seed, keys and signatures are their FIPS 204 encodings. *)

From Stdlib Require Import String.
From S2P Require Import Prelude Bytes Crypto Merkle MerkleTrees MerkleProps MerkleCache.
#[local] Open Scope Z_scope.

(** The crate [ml_dsa]: [ml_decode_ok] says that a signature's encoding
    decodes. Signing may fail; what it returns verifies under the same
    context. *)
Class MlDsa := {
  ml_verifying_key : list Z -> list Z;
  ml_sign : list Z -> list Z -> list Z -> option (list Z);
  ml_decode_ok : list Z -> bool;
  ml_verify : list Z -> list Z -> list Z -> list Z -> bool;
  ml_verifying_key_length : forall seed, length (ml_verifying_key seed) = Z.to_nat 1952;
  ml_sign_length : forall seed m ctx sig, ml_sign seed m ctx = Some sig -> length sig = Z.to_nat 3309;
  ml_sign_decodes : forall seed m ctx sig, ml_sign seed m ctx = Some sig -> ml_decode_ok sig = true;
  ml_verify_sign : forall seed m ctx sig, ml_sign seed m ctx = Some sig ->
    ml_verify (ml_verifying_key seed) m ctx sig = true
}.

Definition HYBRID_TAG : list Z := string_bytes "calyhyb1".
Definition ML_DSA_CONTEXT : list Z := string_bytes "calybris".
Definition BATCH_TAG : list Z := string_bytes "calyhbt1".

Inductive HybridError :=
| MalformedEd25519
| MalformedMlDsa
| Ed25519Invalid
| MlDsaInvalid
| SigningFailed
| EmptyBatch
| NotInBatch.

Record HybridPublicKey := mkHybridPublicKey { hp_ed25519 : list Z; hp_ml_dsa_65 : list Z }.
Record HybridSignature := mkHybridSignature { hs_ed25519 : list Z; hs_ml_dsa_65 : list Z }.
Record HybridSigner := mkHybridSigner { hk_ed25519 : list Z; hk_ml_dsa : list Z }.
Record BatchSignature := mkBatchSignature { bt_size : Z; bt_root : Hash; bt_signature : HybridSignature }.
Record BatchItem := mkBatchItem { bi_index : Z; bi_proof : list Hash }.
Record VerifiedBatch := mkVerifiedBatch { vb_batch : BatchSignature }.

Definition message (digest : list Z) : list Z := HYBRID_TAG ++ digest.

Definition from_seeds (ed25519_seed ml_dsa_seed : list Z) : HybridSigner := mkHybridSigner ed25519_seed ml_dsa_seed.

Section hybrid.
Context {HF : HashFunctions} {ED : Ed25519} {ML : MlDsa}.

Definition public_key (self : HybridSigner) : HybridPublicKey :=
  mkHybridPublicKey (verifying_key (hk_ed25519 self)) (ml_verifying_key (hk_ml_dsa self)).

Definition sign (self : HybridSigner) (digest : list Z) : result HybridError HybridSignature :=
  let m := message digest in
  let ed := ed_sign (hk_ed25519 self) m in
  pq ← ok_or (ml_sign (hk_ml_dsa self) m ML_DSA_CONTEXT) SigningFailed;
  Ok (mkHybridSignature ed pq).

Definition verify (public : HybridPublicKey) (digest : list Z) (sig : HybridSignature) : result HybridError unit :=
  let m := message digest in
  _ ← refuse_if (negb (public_key_ok (hp_ed25519 public))) MalformedEd25519;
  _ ← refuse_if (negb (Nat.eqb (length (hs_ed25519 sig)) 64)) MalformedEd25519;
  _ ← refuse_if (negb (verify_strict (hp_ed25519 public) m (hs_ed25519 sig))) Ed25519Invalid;
  _ ← refuse_if (negb (Nat.eqb (length (hp_ml_dsa_65 public)) (Z.to_nat 1952))) MalformedMlDsa;
  _ ← refuse_if (negb (Nat.eqb (length (hs_ml_dsa_65 sig)) (Z.to_nat 3309))) MalformedMlDsa;
  _ ← refuse_if (negb (ml_decode_ok (hs_ml_dsa_65 sig))) MalformedMlDsa;
  if ml_verify (hp_ml_dsa_65 public) m ML_DSA_CONTEXT (hs_ml_dsa_65 sig) then Ok tt else Err MlDsaInvalid.

(** ** Batches *)

Definition batch_message (size : Z) (root : Hash) : list Z := BATCH_TAG ++ be_bytes 8 size ++ root.
Definition batch_digest (size : Z) (root : Hash) : list Z := sha256 (batch_message size root).

(** [enumerate] from [i]. *)
Fixpoint items_from (i : Z) (proofs : list (list Hash)) : list BatchItem :=
  match proofs with
  | [] => []
  | proof :: proofs' => mkBatchItem i proof :: items_from (i + 1) proofs'
  end.

Definition sign_batch (self : HybridSigner) (digests : list (list Z))
    : result HybridError (BatchSignature * list BatchItem) :=
  _ ← refuse_if (Nat.eqb (length digests) 0) EmptyBatch;
  let leaves := map leaf_hash digests in
  let size := Z.of_nat (length leaves) in
  let root := root_of leaves in
  signature ← sign self (batch_digest size root);
  let items := items_from 0 (all_inclusion_proofs leaves) in
  Ok (mkBatchSignature size root signature, items).

Definition verify_item (self : VerifiedBatch) (digest : list Z) (item : BatchItem) : result HybridError unit :=
  let head := mkTreeHead (bt_size (vb_batch self)) (bt_root (vb_batch self)) in
  map_err (fun _ => NotInBatch) (verify_inclusion head (bi_index item) (leaf_hash digest) (bi_proof item)).

Definition verify_batch (public : HybridPublicKey) (batch : BatchSignature) : result HybridError VerifiedBatch :=
  _ ← refuse_if (bt_size batch =? 0) EmptyBatch;
  _ ← verify public (batch_digest (bt_size batch) (bt_root batch)) (bt_signature batch);
  Ok (mkVerifiedBatch batch).

Definition verify_batch_item (public : HybridPublicKey) (digest : list Z) (item : BatchItem) (batch : BatchSignature)
    : result HybridError unit :=
  b ← verify_batch public batch; verify_item b digest item.

(** ** Theory *)

(** A hybrid signature needs both halves. *)
Lemma verify_Ok public digest sig : verify public digest sig = Ok tt <->
  (public_key_ok (hp_ed25519 public) = true /\ length (hs_ed25519 sig) = 64%nat /\
   verify_strict (hp_ed25519 public) (message digest) (hs_ed25519 sig) = true) /\
  (length (hp_ml_dsa_65 public) = Z.to_nat 1952 /\ length (hs_ml_dsa_65 sig) = Z.to_nat 3309 /\
   ml_decode_ok (hs_ml_dsa_65 sig) = true /\
   ml_verify (hp_ml_dsa_65 public) (message digest) ML_DSA_CONTEXT (hs_ml_dsa_65 sig) = true).
Proof.
  unfold verify. destruct (public_key_ok (hp_ed25519 public)); cbn [negb refuse_if mbind result_bind]; [|naive_solver].
  destruct (Nat.eqb_spec (length (hs_ed25519 sig)) 64); cbn [negb refuse_if mbind result_bind]; [|naive_solver].
  destruct (verify_strict _ _ _); cbn [negb refuse_if mbind result_bind]; [|naive_solver].
  destruct (Nat.eqb_spec (length (hp_ml_dsa_65 public)) (Z.to_nat 1952)); cbn [negb refuse_if mbind result_bind]; [|naive_solver].
  destruct (Nat.eqb_spec (length (hs_ml_dsa_65 sig)) (Z.to_nat 3309)); cbn [negb refuse_if mbind result_bind]; [|naive_solver].
  destruct (ml_decode_ok _); cbn [negb refuse_if mbind result_bind]; [|naive_solver].
  destruct (ml_verify _ _ _ _); naive_solver.
Qed.

Lemma sign_verifies signer digest sig : sign signer digest = Ok sig -> verify (public_key signer) digest sig = Ok tt.
Proof.
  unfold sign. destruct (ml_sign _ _ _) as [pq|] eqn:E; cbn [ok_or mbind result_bind]; [|done]. intros [= <-]. apply verify_Ok.
  cbn [public_key hp_ed25519 hp_ml_dsa_65 hs_ed25519 hs_ml_dsa_65]. split.
  - split_and!; [apply verifying_key_ok|apply ed_sign_length|apply verify_strict_sign].
  - split_and!; [apply ml_verifying_key_length|by eapply ml_sign_length|by eapply ml_sign_decodes|by apply ml_verify_sign].
Qed.

Lemma items_from_lookup proofs : forall i k, items_from i proofs !! k = mkBatchItem (i + Z.of_nat k) <$> proofs !! k.
Proof.
  induction proofs as [|p proofs IH]; intros i [|k]; cbn [items_from]; try done.
  - cbn. do 2 f_equal. lia.
  - cbn [lookup list_lookup]. rewrite IH. do 2 f_equal. lia.
Qed.

Lemma leaf_hash_is_hash m : is_hash (leaf_hash m).
Proof. apply sha256_length. Qed.

Lemma batch_leaves_ok ds : Z.of_nat (length ds) <= umax 64 -> leaf_hashes_ok (map leaf_hash ds).
Proof.
  intros H. split; [unfold size_of; by rewrite length_map|]. apply list.Forall_forall.
  intros h (m & -> & _)%list_elem_of_fmap. apply leaf_hash_is_hash.
Qed.

(** Every digest of a signed batch verifies as the item at its place, with one
    item per digest; signing refuses only an empty batch or a failure of the
    ML-DSA signer. *)
Theorem signed_batch_verifies signer digests : Z.of_nat (length digests) <= umax 64 ->
  match sign_batch signer digests with
  | Ok (batch, items) => length items = length digests /\ bt_size batch = Z.of_nat (length digests) /\
      (forall k digest, digests !! k = Some digest -> exists item, items !! k = Some item /\ bi_index item = Z.of_nat k /\
         verify_batch_item (public_key signer) digest item batch = Ok tt)
  | Err EmptyBatch => digests = []
  | Err e => e = SigningFailed /\ digests <> []
  end.
Proof.
  intros Hn. unfold sign_batch. destruct digests as [|d0 ds0]; [done|]. cbn [length Nat.eqb refuse_if mbind result_bind].
  set (ds := d0 :: ds0) in *. rewrite length_map. set (root := root_of (map leaf_hash ds)). change (S (length ds0)) with (length ds).
  destruct (sign signer (batch_digest (Z.of_nat (length ds)) root)) as [sig|e] eqn:E; cbn [mbind result_bind].
  2: { unfold sign in E. destruct (ml_sign _ _ _); [done|]. by injection E as <-. }
  assert (forall k, items_from 0 (all_inclusion_proofs (map leaf_hash ds)) !! k =
    (fun i => mkBatchItem i (path i (map leaf_hash ds))) <$> seqZ 0 (Z.of_nat (length ds)) !! k) as Hi.
  { intros k. rewrite items_from_lookup, all_proofs_paths, list_lookup_fmap. unfold size_of. rewrite length_map.
    destruct (seqZ 0 (Z.of_nat (length ds)) !! k) as [z|] eqn:Ek; cbn; [|done]. apply lookup_seqZ in Ek as [-> _]. done. }
  split_and!; [|done|].
  - assert (forall i l, length (items_from i l) = length l) as -> by (intros i l; revert i; induction l; intros; cbn; [done|by rewrite IHl]).
    rewrite all_proofs_paths, length_map, length_seqZ. unfold size_of. rewrite length_map. lia.
  - intros k digest Hk. pose proof (lookup_lt_Some _ _ _ Hk) as Hlt. exists (mkBatchItem (Z.of_nat k) (path (Z.of_nat k) (map leaf_hash ds))).
    split_and!; [|done|].
    { rewrite Hi. assert (seqZ 0 (Z.of_nat (length ds)) !! k = Some (Z.of_nat k)) as -> by (apply lookup_seqZ; lia). done. }
    unfold verify_batch_item, verify_batch. cbn [bt_size bt_root bt_signature].
    rewrite (proj2 (Z.eqb_neq (Z.of_nat (length ds)) 0)) by (unfold ds; cbn; lia). cbn [refuse_if mbind result_bind].
    rewrite (sign_verifies _ _ _ E). cbn [mbind result_bind]. unfold verify_item. cbn [vb_batch bt_size bt_root bi_index bi_proof].
    assert (map leaf_hash ds !! Z.to_nat (Z.of_nat k) = Some (leaf_hash digest)) as Hl by (rewrite Nat2Z.id, list_lookup_fmap, Hk; done).
    assert (size_of (map leaf_hash ds) = Z.of_nat (length ds)) as Es by (unfold size_of; by rewrite length_map).
    assert (mkTreeHead (Z.of_nat (length ds)) root = head_of (map leaf_hash ds)) as -> by (unfold head_of; by rewrite Es).
    rewrite path_verifies; [done|lia|lia|done].
Qed.

(** ** What a batch signature binds *)

Lemma batch_message_inj size root size' root' : is_u 64 size -> is_u 64 size' ->
  batch_message size root = batch_message size' root' -> size = size' /\ root = root'.
Proof.
  intros H1 H2 E. unfold batch_message in E. apply app_inv_head in E. apply app_inj_1 in E as [E ->]; [|by rewrite !length_be_bytes].
  split; [|done]. by rewrite <- (be_value_be_bytes 8 size), <- (be_value_be_bytes 8 size'), E.
Qed.

(** The messages hashed when an item is checked against the batch of [ds]. *)
Definition batch_messages (ds : list (list Z)) (digest : list Z) (item : BatchItem) (batch : BatchSignature) : list (list Z) :=
  let leaves := map leaf_hash ds in
  [batch_message (bt_size batch) (bt_root batch); batch_message (size_of leaves) (root_of leaves)] ++
  map (fun m => LEAF_PREFIX :: m) (digest :: ds) ++
  inclusion_messages (bi_index item) (size_of leaves) (leaf_hash digest) (bi_proof item) ++
  match leaves !! Z.to_nat (bi_index item) with
  | Some x => inclusion_messages (bi_index item) (size_of leaves) x (path (bi_index item) leaves)
  | None => []
  end.

(** An item that verifies is the digest at its place in a batch the signer
    signed. The signer signed the batches of [signed] and nothing else, so a
    signature that verifies is on the digest of one of them; and SHA-256 has
    no collision among the messages hashed for the item and that batch. *)
Theorem batch_item_sound public signed digest item batch :
  is_u 64 (bt_size batch) -> 0 <= bi_index item -> Forall is_hash (bi_proof item) ->
  (verify public (batch_digest (bt_size batch) (bt_root batch)) (bt_signature batch) = Ok tt ->
   exists ds, ds ∈ signed /\ batch_digest (bt_size batch) (bt_root batch) =
     batch_digest (size_of (map leaf_hash ds)) (root_of (map leaf_hash ds))) ->
  Forall (fun ds => Z.of_nat (length ds) <= umax 64 /\ collision_free sha256 (batch_messages ds digest item batch)) signed ->
  verify_batch_item public digest item batch = Ok tt ->
  exists ds, ds ∈ signed /\ ds !! Z.to_nat (bi_index item) = Some digest.
Proof.
  intros Hs Hi Hp Hg Hc. unfold verify_batch_item, verify_batch.
  intros (b & (u & _ & ([] & Hv & [= <-])%bind_Ok)%bind_Ok & H)%bind_Ok. destruct (Hg Hv) as (ds & Hin & E). exists ds. split; [done|].
  rewrite list.Forall_forall in Hc. destruct (Hc ds Hin) as [Hn Hcf]. set (leaves := map leaf_hash ds) in *.
  assert (size_of leaves = Z.of_nat (length ds)) as Es by (unfold size_of, leaves; by rewrite length_map).
  apply Hcf in E; [|unfold batch_messages; set_solver..]. apply batch_message_inj in E as [E1 E2]; [|done|unfold is_u; lia].
  unfold verify_item in H. cbn [vb_batch] in H. rewrite E1, E2 in H. apply map_err_Ok in H. change (mkTreeHead _ _) with (head_of leaves) in H.
  pose proof (included_index _ _ _ _ H) as Hlt. cbn [head_of th_size] in Hlt.
  destruct (lookup_lt_is_Some_2 leaves (Z.to_nat (bi_index item))) as [x Hx]; [unfold size_of in *; lia|].
  destruct (inclusion_binds leaves (bi_index item) x (leaf_hash digest) (bi_proof item)) as [El _]; try done.
  - by apply batch_leaves_ok.
  - apply leaf_hash_is_hash.
  - eapply collision_free_sub; [exact Hcf|]. unfold batch_messages. fold leaves. rewrite Hx. intros m Hm.
    apply elem_of_app; right. apply elem_of_app; right. done.
  - unfold leaves in Hx. rewrite list_lookup_fmap in Hx. apply fmap_Some in Hx as (m & Hm & ->). rewrite Hm. f_equal.
    apply Hcf in El; [by injection El|unfold batch_messages; set_solver|]. unfold batch_messages. apply elem_of_app; right. apply elem_of_app; left.
    apply list_elem_of_fmap. exists m. split; [done|]. right. by eapply list_elem_of_lookup_2.
Qed.
End hybrid.

(** ** Concrete signatures *)

Module HybridSample.
#[export] Existing Instance toy_hash.
#[export] Existing Instance toy_ed25519.
Definition toy_ml_key (seed : list Z) : list Z := toy_digest seed ++ replicate (Z.to_nat 1920) 0.
Definition toy_ml_sign (key m ctx : list Z) : list Z := toy_digest (m ++ ctx ++ key) ++ replicate (Z.to_nat 3277) 0.

Lemma toy_ml_key_length seed : length (toy_ml_key seed) = Z.to_nat 1952.
Proof. unfold toy_ml_key. rewrite length_app, toy_digest_length, length_replicate. lia. Qed.

Lemma toy_ml_sign_length (seed m ctx sig : list Z) : Some (toy_ml_sign (toy_ml_key seed) m ctx) = Some sig -> length sig = Z.to_nat 3309.
Proof. intros [= <-]. unfold toy_ml_sign. rewrite length_app, toy_digest_length, length_replicate. lia. Qed.

Lemma toy_ml_verify_sign (seed m ctx sig : list Z) : Some (toy_ml_sign (toy_ml_key seed) m ctx) = Some sig ->
  bool_decide (sig = toy_ml_sign (toy_ml_key seed) m ctx) = true.
Proof. intros [= <-]. by apply bool_decide_eq_true. Qed.

#[export] Instance toy_ml_dsa : MlDsa :=
  {| ml_verifying_key := toy_ml_key; ml_sign := fun seed m ctx => Some (toy_ml_sign (toy_ml_key seed) m ctx);
     ml_decode_ok := fun _ => true; ml_verify := fun key m ctx sig => bool_decide (sig = toy_ml_sign key m ctx);
     ml_verifying_key_length := toy_ml_key_length; ml_sign_length := toy_ml_sign_length;
     ml_sign_decodes := fun _ _ _ _ _ => eq_refl; ml_verify_sign := toy_ml_verify_sign |}.

Definition signer : HybridSigner := from_seeds (replicate 32 1) (replicate 32 2).
Definition digests : list (list Z) := [replicate 32 3; replicate 32 4; replicate 32 5].
Definition leaves : list Hash := map leaf_hash digests.
Definition item : BatchItem := mkBatchItem 1 (path 1 leaves).
Definition batch : BatchSignature :=
  mkBatchSignature 3 (root_of leaves)
    (match sign signer (batch_digest 3 (root_of leaves)) with Ok s => s | Err _ => mkHybridSignature [] [] end).
End HybridSample.
Import HybridSample.

Lemma signed_batch_verifies_witness : sign_batch signer digests = Ok (batch, items_from 0 (all_inclusion_proofs leaves)) /\
  exists it, items_from 0 (all_inclusion_proofs leaves) !! 1%nat = Some it /\ bi_index it = 1 /\
    verify_batch_item (public_key signer) (replicate 32 4) it batch = Ok tt.
Proof.
  assert (sign_batch signer digests = Ok (batch, items_from 0 (all_inclusion_proofs leaves))) as E by (vm_compute; reflexivity).
  split; [exact E|]. pose proof (signed_batch_verifies signer digests ltac:(by_compute)) as H. rewrite E in H.
  destruct H as (_ & _ & H). exact (H 1%nat (replicate 32 4) eq_refl).
Defined.

Lemma batch_item_sound_witness : exists ds, ds ∈ [digests] /\ ds !! 1%nat = Some (replicate 32 4).
Proof.
  apply (batch_item_sound (public_key signer) [digests] (replicate 32 4) item batch).
  - by_compute.
  - by_compute.
  - by_compute.
  - intros _. exists digests. split; [left|by_compute].
  - by_compute.
  - by_compute.
Defined.
