(* ===== verification/Builder.v ===== *)
(** * Configuration and builders ([src/config.rs], [src/builder.rs])

    The validated configuration, the builders of requests, candidates and
    policies in front of the kernel's constructors, and their error types. *)

From Stdlib Require Import String.
From S2P Require Import Prelude Kernel KernelProps KernelPolicy Budget BudgetInv BudgetProps.
#[local] Open Scope string_scope.
#[local] Open Scope Z_scope.

(** ** Engine configuration *)

Record EngineConfig := mkEngineConfig {
  ec_latency_penalty_microunits_per_ms : Z;
  ec_hard_risk_limit_bps : Z;
  ec_minimum_confidence_bps : Z;
  ec_risk_penalty_multiplier_bps : Z;
  ec_default_exposure_cap_microcents : Z;
  ec_wal_sync_on_append : bool;
  ec_max_catalog_size : Z
}.

Definition EngineConfig_default : EngineConfig := mkEngineConfig 2 9600 5500 3500 0 false 1024.
Definition EngineConfig_new : EngineConfig := EngineConfig_default.

Inductive ConfigError :=
| OutOfRange (field : string) (value max : Z)
| ZeroCatalogSize
| NegativeExposureCap.

Definition latency_penalty (c : EngineConfig) (microunits_per_ms : Z) : EngineConfig :=
  let '(mkEngineConfig _ h m r e w s) := c in mkEngineConfig microunits_per_ms h m r e w s.
Definition hard_risk_limit (c : EngineConfig) (bps : Z) : EngineConfig :=
  let '(mkEngineConfig l _ m r e w s) := c in mkEngineConfig l bps m r e w s.
Definition minimum_confidence (c : EngineConfig) (bps : Z) : EngineConfig :=
  let '(mkEngineConfig l h _ r e w s) := c in mkEngineConfig l h bps r e w s.
Definition risk_penalty_multiplier (c : EngineConfig) (bps : Z) : EngineConfig :=
  let '(mkEngineConfig l h m _ e w s) := c in mkEngineConfig l h m bps e w s.
Definition default_exposure_cap (c : EngineConfig) (microcents : Z) : EngineConfig :=
  let '(mkEngineConfig l h m r _ w s) := c in mkEngineConfig l h m r microcents w s.
Definition wal_sync_on_append (c : EngineConfig) (sync : bool) : EngineConfig :=
  let '(mkEngineConfig l h m r e _ s) := c in mkEngineConfig l h m r e sync s.
Definition max_catalog_size (c : EngineConfig) (size : Z) : EngineConfig :=
  let '(mkEngineConfig l h m r e w _) := c in mkEngineConfig l h m r e w size.

Definition EngineConfig_validate (c : EngineConfig) : result ConfigError unit :=
  if MAX_BPS <? ec_hard_risk_limit_bps c then
    Err (OutOfRange "hard_risk_limit_bps" (ec_hard_risk_limit_bps c) MAX_BPS)
  else if MAX_BPS <? ec_minimum_confidence_bps c then
    Err (OutOfRange "minimum_confidence_bps" (ec_minimum_confidence_bps c) MAX_BPS)
  else if MAX_RISK_PENALTY_MULTIPLIER_BPS <? ec_risk_penalty_multiplier_bps c then
    Err (OutOfRange "risk_penalty_multiplier_bps" (ec_risk_penalty_multiplier_bps c) MAX_RISK_PENALTY_MULTIPLIER_BPS)
  else if ec_max_catalog_size c =? 0 then Err ZeroCatalogSize
  else if ec_default_exposure_cap_microcents c <? 0 then Err NegativeExposureCap
  else Ok tt.

Definition EngineConfig_ensure_tenant (c : EngineConfig) (tenant_id : string) (initial_microcents : Z)
    (budget : BudgetEngine) : BudgetEngine :=
  let budget := ensure_tenant tenant_id initial_microcents budget in
  if 0 <? ec_default_exposure_cap_microcents c
  then set_max_reserved_microcents tenant_id (ec_default_exposure_cap_microcents c) budget
  else budget.

(** ** Requests *)

Record InputBuilder := mkInputBuilder { ib_input : KernelInput }.

Definition InputBuilder_new (request_sequence requested_model_id : Z) : InputBuilder :=
  mkInputBuilder (mkKernelInput request_sequence requested_model_id 0 0 0 (umax 64) 0 (wrap_u 16 BASIS_POINTS) 0 0 0
    ALL_PROVIDERS 0).

Definition InputBuilder_tokens (b : InputBuilder) (input output : Z) : InputBuilder :=
  let '(mkInputBuilder (mkKernelInput s m _ _ v l r c q t k p g)) := b in mkInputBuilder (mkKernelInput s m input output v l r c q t k p g).
Definition InputBuilder_business_value (b : InputBuilder) (microunits : Z) : InputBuilder :=
  let '(mkInputBuilder (mkKernelInput s m i o _ l r c q t k p g)) := b in mkInputBuilder (mkKernelInput s m i o microunits l r c q t k p g).
Definition InputBuilder_budget_limit (b : InputBuilder) (microunits : Z) : InputBuilder :=
  let '(mkInputBuilder (mkKernelInput s m i o v _ r c q t k p g)) := b in mkInputBuilder (mkKernelInput s m i o v microunits r c q t k p g).
Definition InputBuilder_risk (b : InputBuilder) (risk_bps confidence_bps : Z) : InputBuilder :=
  let '(mkInputBuilder (mkKernelInput s m i o v l _ _ q t k p g)) := b in mkInputBuilder (mkKernelInput s m i o v l risk_bps confidence_bps q t k p g).
Definition InputBuilder_minimum_quality (b : InputBuilder) (bps : Z) : InputBuilder :=
  let '(mkInputBuilder (mkKernelInput s m i o v l r c _ t k p g)) := b in mkInputBuilder (mkKernelInput s m i o v l r c bps t k p g).
Definition InputBuilder_max_latency (b : InputBuilder) (ms : Z) : InputBuilder :=
  let '(mkInputBuilder (mkKernelInput s m i o v l r c q _ k p g)) := b in mkInputBuilder (mkKernelInput s m i o v l r c q ms k p g).
Definition InputBuilder_capabilities (b : InputBuilder) (mask : Z) : InputBuilder :=
  let '(mkInputBuilder (mkKernelInput s m i o v l r c q t _ p g)) := b in mkInputBuilder (mkKernelInput s m i o v l r c q t mask p g).
Definition InputBuilder_providers (b : InputBuilder) (mask : Z) : InputBuilder :=
  let '(mkInputBuilder (mkKernelInput s m i o v l r c q t k _ g)) := b in mkInputBuilder (mkKernelInput s m i o v l r c q t k mask g).
Definition InputBuilder_regions (b : InputBuilder) (mask : Z) : InputBuilder :=
  let '(mkInputBuilder (mkKernelInput s m i o v l r c q t k p _)) := b in mkInputBuilder (mkKernelInput s m i o v l r c q t k p mask).

Definition InputBuilder_try_build (b : InputBuilder) : result InputError KernelInput :=
  _ ← KernelInput_validate (ib_input b); Ok (ib_input b).

(** [None] is the panic. *)
Definition InputBuilder_build (b : InputBuilder) : option KernelInput :=
  match InputBuilder_try_build b with Ok i => Some i | Err _ => None end.

(** ** Candidates *)

Record ModelBuilder := mkModelBuilder { mb_model : KernelModel }.

Definition ModelBuilder_new (model_id provider_id : Z) : ModelBuilder :=
  mkModelBuilder (mkKernelModel model_id provider_id 8000 9500 1 200 0 ALL_REGIONS 0 0).

Definition ModelBuilder_quality (b : ModelBuilder) (bps : Z) : ModelBuilder :=
  let '(mkModelBuilder (mkKernelModel i p _ r e l c g x y)) := b in mkModelBuilder (mkKernelModel i p bps r e l c g x y).
Definition ModelBuilder_risk_ceiling (b : ModelBuilder) (bps : Z) : ModelBuilder :=
  let '(mkModelBuilder (mkKernelModel i p q _ e l c g x y)) := b in mkModelBuilder (mkKernelModel i p q bps e l c g x y).
Definition ModelBuilder_enabled (b : ModelBuilder) (yes : bool) : ModelBuilder :=
  let '(mkModelBuilder (mkKernelModel i p q r _ l c g x y)) := b in mkModelBuilder (mkKernelModel i p q r (if yes then 1 else 0) l c g x y).
Definition ModelBuilder_latency (b : ModelBuilder) (p95_ms : Z) : ModelBuilder :=
  let '(mkModelBuilder (mkKernelModel i p q r e _ c g x y)) := b in mkModelBuilder (mkKernelModel i p q r e p95_ms c g x y).
Definition ModelBuilder_capabilities (b : ModelBuilder) (mask : Z) : ModelBuilder :=
  let '(mkModelBuilder (mkKernelModel i p q r e l _ g x y)) := b in mkModelBuilder (mkKernelModel i p q r e l mask g x y).
Definition ModelBuilder_regions (b : ModelBuilder) (mask : Z) : ModelBuilder :=
  let '(mkModelBuilder (mkKernelModel i p q r e l c _ x y)) := b in mkModelBuilder (mkKernelModel i p q r e l c mask x y).
Definition ModelBuilder_cost (b : ModelBuilder) (input_per_m output_per_m : Z) : ModelBuilder :=
  let '(mkModelBuilder (mkKernelModel i p q r e l c g _ _)) := b in mkModelBuilder (mkKernelModel i p q r e l c g input_per_m output_per_m).
Definition ModelBuilder_build (b : ModelBuilder) : KernelModel := mb_model b.

(** ** Policies *)

Inductive BuildError :=
| BuildConfig (e : ConfigError)
| BuildPolicy (e : PolicyError)
| BuildCatalogTooLarge (len max : Z).

Inductive TrustedBuildError :=
| TrustedConfig (e : ConfigError)
| TrustedCatalogTooLarge (len max : Z)
| Trust (e : TrustPolicyError).

Record PolicyBuilder := mkPolicyBuilder {
  pb_config : EngineConfig;
  pb_policy_epoch : Z;
  pb_catalog_epoch : Z;
  pb_models : list KernelModel
}.

Definition PolicyBuilder_new (config : EngineConfig) : PolicyBuilder := mkPolicyBuilder config 1 1 [].
Definition PolicyBuilder_epochs (b : PolicyBuilder) (policy catalog : Z) : PolicyBuilder :=
  mkPolicyBuilder (pb_config b) policy catalog (pb_models b).
Definition PolicyBuilder_model (b : PolicyBuilder) (model : KernelModel) : PolicyBuilder :=
  mkPolicyBuilder (pb_config b) (pb_policy_epoch b) (pb_catalog_epoch b) (pb_models b ++ [model]).
Definition PolicyBuilder_models (b : PolicyBuilder) (models : list KernelModel) : PolicyBuilder :=
  mkPolicyBuilder (pb_config b) (pb_policy_epoch b) (pb_catalog_epoch b) (pb_models b ++ models).

Definition build_trusted (b : PolicyBuilder) : result TrustedBuildError PolicySnapshot :=
  let c := pb_config b in
  _ ← map_err TrustedConfig (EngineConfig_validate c);
  _ ← refuse_if (ec_max_catalog_size c <? Z.of_nat (length (pb_models b)))
        (TrustedCatalogTooLarge (Z.of_nat (length (pb_models b))) (ec_max_catalog_size c));
  map_err Trust (try_new_trusted (pb_policy_epoch b) (pb_catalog_epoch b) (ec_hard_risk_limit_bps c)
    (ec_minimum_confidence_bps c) (ec_risk_penalty_multiplier_bps c) (ec_latency_penalty_microunits_per_ms c) (pb_models b)).

Definition PolicyBuilder_build (b : PolicyBuilder) : result BuildError PolicySnapshot :=
  match build_trusted b with
  | Ok snapshot => Ok snapshot
  | Err (TrustedConfig error) => Err (BuildConfig error)
  | Err (TrustedCatalogTooLarge len max) => Err (BuildCatalogTooLarge len max)
  | Err (Trust (Policy error)) => Err (BuildPolicy error)
  | Err (Trust (CatalogTooLarge len max)) => Err (BuildCatalogTooLarge len max)
  | Err (Trust ReservedModelId) => Err (BuildPolicy (DuplicateModelId 0))
  | Err (Trust (InvalidEnabledFlag _ value)) => Err (BuildPolicy (PolicyError_OutOfRangeBps "model.enabled" value 1))
  end.

(** ** Theory *)

Definition config_valid (c : EngineConfig) : Prop :=
  ec_hard_risk_limit_bps c <= MAX_BPS /\ ec_minimum_confidence_bps c <= MAX_BPS /\
  ec_risk_penalty_multiplier_bps c <= MAX_RISK_PENALTY_MULTIPLIER_BPS /\ ec_max_catalog_size c <> 0 /\
  0 <= ec_default_exposure_cap_microcents c.

Lemma config_validate_spec c : EngineConfig_validate c = Ok tt <-> config_valid c.
Proof.
  unfold EngineConfig_validate, config_valid.
  destruct (Z.ltb_spec MAX_BPS (ec_hard_risk_limit_bps c)); [split; [done|lia]|].
  destruct (Z.ltb_spec MAX_BPS (ec_minimum_confidence_bps c)); [split; [done|lia]|].
  destruct (Z.ltb_spec MAX_RISK_PENALTY_MULTIPLIER_BPS (ec_risk_penalty_multiplier_bps c)); [split; [done|lia]|].
  destruct (Z.eqb_spec (ec_max_catalog_size c) 0); [split; [done|lia]|].
  destruct (Z.ltb_spec (ec_default_exposure_cap_microcents c) 0); [split; [done|lia]|]. split; [lia|done].
Qed.

(** What the catalog itself has to satisfy. *)
Definition catalog_valid (models : list KernelModel) : Prop :=
  Z.of_nat (length models) <= MAX_CATALOG_MODELS /\ NoDup (map km_model_id models) /\ Forall model_valid models /\
  Forall (fun m => km_model_id m <> 0 /\ km_enabled m <= 1) models /\ Exists (fun m => km_enabled m <> 0) models.

(** The policy builder accepts exactly a valid configuration with a catalog
    that fits it and is valid; the snapshot carries the configuration's
    parameters and the candidates in identifier order, whatever the order
    they were added in; and the legacy error type refuses the same builds. *)
Theorem policy_builder_exact b p :
  let c := pb_config b in
  (build_trusted b = Ok p <->
     config_valid c /\ Z.of_nat (length (pb_models b)) <= ec_max_catalog_size c /\ catalog_valid (pb_models b) /\
     p = new_unchecked (pb_policy_epoch b) (pb_catalog_epoch b) (ec_hard_risk_limit_bps c) (ec_minimum_confidence_bps c)
           (ec_risk_penalty_multiplier_bps c) (ec_latency_penalty_microunits_per_ms c) (sort_by_key km_model_id (pb_models b))) /\
  (PolicyBuilder_build b = Ok p <-> build_trusted b = Ok p).
Proof.
  intros c. split; [|unfold PolicyBuilder_build; destruct (build_trusted b) as [?|[?|?|[]]]; split; by intros [= ->] || done].
  unfold build_trusted. fold c. split.
  - intros ([] & Hc%map_err_Ok%config_validate_spec & (u & Hu%refuse_if_Ok%Z.ltb_ge & H%map_err_Ok)%bind_Ok)%bind_Ok.
    apply try_new_trusted_inv in H as (Hl & Hf & -> & (_ & _ & _ & Hn & Hm & He)). cbn [new_unchecked ps_models] in *.
    rewrite sort_by_key_perm in Hn, Hm, He. by split_and!.
  - intros (Hc & Hl & (H1 & H2 & H3 & H4 & H5) & ->). rewrite (proj2 (config_validate_spec c) Hc). cbn [map_err mbind result_bind].
    rewrite (proj2 (Z.ltb_ge _ _)) by done. cbn [refuse_if mbind result_bind].
    destruct Hc as (C1 & C2 & C3 & _). erewrite (proj2 (try_new_trusted_inv _ _ _ _ _ _ _ _)); [done|]. split_and!; [done|done|done|].
    unfold policy_valid. cbn [new_unchecked ps_models ps_hard_risk_limit_bps ps_minimum_confidence_bps ps_risk_penalty_multiplier_bps].
    rewrite !sort_by_key_perm. by split_and!.
Qed.

Lemma input_validate_spec i : KernelInput_validate i = Ok tt <->
  ki_risk_bps i <= MAX_BPS /\ ki_confidence_bps i <= MAX_BPS /\ ki_minimum_quality_bps i <= MAX_BPS.
Proof.
  unfold KernelInput_validate. destruct (Z.ltb_spec MAX_BPS (ki_risk_bps i)); [split; [done|lia]|].
  destruct (Z.ltb_spec MAX_BPS (ki_confidence_bps i)); [split; [done|lia]|].
  destruct (Z.ltb_spec MAX_BPS (ki_minimum_quality_bps i)); [split; [done|lia]|]. split; [lia|done].
Qed.

(** [build] panics exactly where [try_build] reports an error. *)
Lemma input_build_total b : is_Some (InputBuilder_build b) <->
  ki_risk_bps (ib_input b) <= MAX_BPS /\ ki_confidence_bps (ib_input b) <= MAX_BPS /\ ki_minimum_quality_bps (ib_input b) <= MAX_BPS.
Proof.
  rewrite <- input_validate_spec. unfold InputBuilder_build, InputBuilder_try_build.
  destruct (KernelInput_validate (ib_input b)) as [[]|]; cbn; split; (done || by intros [? [=]]).
Qed.

(** A tenant set up through the configuration has the configured cap, and the
    engine's invariant is kept. *)
Lemma config_tenant_cap c tenant initial e : config_valid c ->
  be_max_reserved_microcents (EngineConfig_ensure_tenant c tenant initial e) =
  (if 0 <? ec_default_exposure_cap_microcents c
   then <[tenant := ec_default_exposure_cap_microcents c]> (be_max_reserved_microcents e)
   else be_max_reserved_microcents e).
Proof.
  intros (_ & _ & _ & _ & Hc). unfold EngineConfig_ensure_tenant.
  assert (be_max_reserved_microcents (ensure_tenant tenant initial e) = be_max_reserved_microcents e) as E.
  { unfold ensure_tenant, try_ensure_tenant. destruct (_ <? _); [done|]. destruct (_ !! _); [done|]. by destruct e. }
  destruct (Z.ltb_spec 0 (ec_default_exposure_cap_microcents c)); [|done].
  unfold set_max_reserved_microcents, try_set_max_reserved_microcents.
  rewrite (proj2 (Z.ltb_ge _ _)), (proj2 (Z.eqb_neq (ec_default_exposure_cap_microcents c) 0)) by lia. cbn [snd].
  rewrite E. by destruct (ensure_tenant tenant initial e).
Qed.

Definition sample_builder : PolicyBuilder :=
  PolicyBuilder_models (PolicyBuilder_model (PolicyBuilder_epochs (PolicyBuilder_new EngineConfig_new) 7 11)
    (ModelBuilder_build (ModelBuilder_cost (ModelBuilder_quality (ModelBuilder_new 2 0) 9000) 250 1000)))
    [ModelBuilder_build (ModelBuilder_new 1 1)].

Example sample_build : map km_model_id <$> (match PolicyBuilder_build sample_builder with Ok p => Some (ps_models p) | Err _ => None end)
  = Some [1; 2].
Proof. vm_compute. reflexivity. Qed.

(** Identifier zero is reported as a duplicate by the legacy error type. *)
Example legacy_error : PolicyBuilder_build (PolicyBuilder_model sample_builder (ModelBuilder_build (ModelBuilder_new 0 0)))
  = Err (BuildPolicy (DuplicateModelId 0)).
Proof. vm_compute. reflexivity. Qed.
