(* ===== verification/Counterfactual.v ===== *)
(** * Counterfactuals and margins ([src/counterfactual.rs])

    Both searches run the kernel on a copy of the policy with one field of
    one candidate changed. The binary searches get 64 steps of fuel: the
    interval is a range of [u64] values and halves every time. *)

From S2P Require Import Prelude Kernel.
#[local] Open Scope Z_scope.

Definition PPM : Z := 1000000.
Definition MAX_PRICE_SCALE_PPM : Z := 1000 * PPM.

Inductive Lever := QualityBps | P95LatencyMs | PriceScalePpm | RiskCeilingBps | LeverEnabled.
#[export] Instance Lever_eq_dec : EqDecision Lever.
Proof. solve_decision. Defined.

Record Requirement := mkRequirement {
  rq_lever : Lever;
  rq_current : Z;
  rq_boundary : Z;
  rq_cost_at_boundary_microunits : option Z
}.

Record Counterfactual := mkCounterfactual {
  cf_model_id : Z;
  cf_decision : KernelDecision;
  cf_blocked_by_request : option KernelReason;
  cf_levers : list Requirement
}.

Record Margin := mkMargin {
  mg_model_id : Z;
  mg_decision : KernelDecision;
  mg_levers : list Requirement
}.

(** ** Search *)

Fixpoint lowest_loop (fuel : nat) (lo hi : Z) (pred : Z -> bool) : Z :=
  match fuel with
  | O => lo
  | S fuel' =>
      if lo <? hi then
        let mid := lo + (hi - lo) / 2 in
        if pred mid then lowest_loop fuel' lo mid pred else lowest_loop fuel' (mid + 1) hi pred
      else lo
  end.

Definition lowest_true (lo hi : Z) (pred : Z -> bool) : option Z :=
  if (hi <? lo) || negb (pred hi) then None else Some (lowest_loop 64 lo hi pred).

(** [div_ceil(2)]. *)
Fixpoint highest_loop (fuel : nat) (lo hi : Z) (pred : Z -> bool) : Z :=
  match fuel with
  | O => lo
  | S fuel' =>
      if lo <? hi then
        let mid := lo + (hi - lo + 1) / 2 in
        if pred mid then highest_loop fuel' mid hi pred else highest_loop fuel' lo (mid - 1) pred
      else lo
  end.

Definition highest_true (lo hi : Z) (pred : Z -> bool) : option Z :=
  if (hi <? lo) || negb (pred lo) then None else Some (highest_loop 64 lo hi pred).

(** ** Changing one candidate *)

Definition selected (decision : KernelDecision) (model_id : Z) : bool :=
  is_executable decision && (kd_selected_model_id decision =? model_id).

Definition request_block (reason : KernelReason) : option KernelReason :=
  match reason with
  | RiskHardLimit | ConfidenceHardLimit => Some reason
  | _ => None
  end.

Definition with_model (policy : PolicySnapshot) (index : nat) (model : KernelModel) : PolicySnapshot :=
  new_unchecked (ps_policy_epoch policy) (ps_catalog_epoch policy) (ps_hard_risk_limit_bps policy)
    (ps_minimum_confidence_bps policy) (ps_risk_penalty_multiplier_bps policy)
    (ps_latency_penalty_microunits_per_ms policy) (<[index := model]> (ps_models policy)).

Definition set_quality (v : Z) (m : KernelModel) : KernelModel :=
  mkKernelModel (km_model_id m) (km_provider_id m) (wrap_u 16 v) (km_risk_ceiling_bps m) (km_enabled m)
    (km_p95_latency_ms m) (km_capabilities m) (km_region_mask m)
    (km_input_cost_microunits_per_million_tokens m) (km_output_cost_microunits_per_million_tokens m).
Definition set_latency (v : Z) (m : KernelModel) : KernelModel :=
  mkKernelModel (km_model_id m) (km_provider_id m) (km_quality_bps m) (km_risk_ceiling_bps m) (km_enabled m)
    (wrap_u 32 v) (km_capabilities m) (km_region_mask m)
    (km_input_cost_microunits_per_million_tokens m) (km_output_cost_microunits_per_million_tokens m).
Definition set_risk_ceiling (v : Z) (m : KernelModel) : KernelModel :=
  mkKernelModel (km_model_id m) (km_provider_id m) (km_quality_bps m) (wrap_u 16 v) (km_enabled m)
    (km_p95_latency_ms m) (km_capabilities m) (km_region_mask m)
    (km_input_cost_microunits_per_million_tokens m) (km_output_cost_microunits_per_million_tokens m).
Definition set_enabled (v : Z) (m : KernelModel) : KernelModel :=
  mkKernelModel (km_model_id m) (km_provider_id m) (km_quality_bps m) (km_risk_ceiling_bps m) v
    (km_p95_latency_ms m) (km_capabilities m) (km_region_mask m)
    (km_input_cost_microunits_per_million_tokens m) (km_output_cost_microunits_per_million_tokens m).

Definition scale_price (price scale_ppm : Z) : Z :=
  default (umax 64) (checked_u 64 (price * scale_ppm / PPM)).

Definition scaled (model : KernelModel) (scale_ppm : Z) : KernelModel :=
  mkKernelModel (km_model_id model) (km_provider_id model) (km_quality_bps model)
    (km_risk_ceiling_bps model) (km_enabled model) (km_p95_latency_ms model) (km_capabilities model)
    (km_region_mask model)
    (scale_price (km_input_cost_microunits_per_million_tokens model) scale_ppm)
    (scale_price (km_output_cost_microunits_per_million_tokens model) scale_ppm).

Definition plain (lever : Lever) (current boundary : Z) : Requirement :=
  mkRequirement lever current boundary None.

Definition priced (policy : PolicySnapshot) (index : nat) (input : KernelInput) (model : KernelModel)
    (scale_ppm : Z) : Requirement :=
  let decision := prescribe (with_model policy index (scaled model scale_ppm)) input in
  mkRequirement PriceScalePpm PPM scale_ppm (Some (kd_estimated_cost_microunits decision)).

(** The closure [wins] of both functions. *)
Definition wins (policy : PolicySnapshot) (index : nat) (input : KernelInput) (model_id : Z)
    (candidate : KernelModel) : bool :=
  selected (prescribe (with_model policy index candidate) input) model_id.

(** [if let Some(b) = search { out.push(make(b)) }] *)
Definition push_if (o : option Z) (make : Z -> Requirement) : list Requirement :=
  match o with Some b => [make b] | None => [] end.

(** ** The two questions *)

Definition what_would_win (policy : PolicySnapshot) (input : KernelInput) (model_id : Z)
    : option Counterfactual :=
  index ← position (fun m => km_model_id m =? model_id) (ps_models policy);
  model ← ps_models policy !! index;
  let decision := prescribe policy input in
  let blocked_by_request := request_block (kd_reason decision) in
  let out := mkCounterfactual model_id decision blocked_by_request in
  if bool_decide (is_Some blocked_by_request) || selected decision model_id then Some (out [])
  else
    let wins := wins policy index input model_id in
    if km_enabled model =? 0 then
      Some (out (if wins (set_enabled 1 model) then [plain LeverEnabled 0 1] else []))
    else
      let q := km_quality_bps model in
      let l := km_p95_latency_ms model in
      let r := km_risk_ceiling_bps model in
      Some (out
        (push_if (lowest_true q MAX_BPS (fun v => wins (set_quality v model))) (plain QualityBps q)
         ++ push_if (highest_true 0 l (fun v => wins (set_latency v model))) (plain P95LatencyMs l)
         ++ push_if (highest_true 0 PPM (fun s => wins (scaled model s))) (priced policy index input model)
         ++ push_if (lowest_true r MAX_BPS (fun v => wins (set_risk_ceiling v model)))
              (plain RiskCeilingBps r))).

Definition decision_margin (policy : PolicySnapshot) (input : KernelInput) : option Margin :=
  let decision := prescribe policy input in
  if negb (is_executable decision) then None
  else
    let model_id := kd_selected_model_id decision in
    index ← position (fun m => km_model_id m =? model_id) (ps_models policy);
    model ← ps_models policy !! index;
    let wins := wins policy index input model_id in
    let q := km_quality_bps model in
    let l := km_p95_latency_ms model in
    let r := km_risk_ceiling_bps model in
    Some (mkMargin model_id decision
      (push_if (lowest_true 0 q (fun v => wins (set_quality v model))) (plain QualityBps q)
       ++ (if negb (wins (set_latency (umax 32) model)) then
             push_if (highest_true l (umax 32) (fun v => wins (set_latency v model))) (plain P95LatencyMs l)
           else [])
       ++ (if negb (wins (scaled model MAX_PRICE_SCALE_PPM)) then
             push_if (highest_true PPM MAX_PRICE_SCALE_PPM (fun s => wins (scaled model s)))
               (priced policy index input model)
           else [])
       ++ (if negb (wins (set_risk_ceiling 0 model)) then
             push_if (lowest_true 0 r (fun v => wins (set_risk_ceiling v model))) (plain RiskCeilingBps r)
           else []))).

(** ** The searches find the boundary *)

Lemma lowest_loop_spec fuel : forall lo hi pred,
  lo <= hi -> hi - lo < 2 ^ Z.of_nat fuel -> pred hi = true ->
  (forall a b, lo <= a <= b -> b <= hi -> pred a = true -> pred b = true) ->
  lo <= lowest_loop fuel lo hi pred <= hi /\ pred (lowest_loop fuel lo hi pred) = true /\
  forall v, lo <= v < lowest_loop fuel lo hi pred -> pred v = false.
Proof.
  induction fuel as [|fuel IH]; intros lo hi pred Hle Hsz Hhi Hmono; cbn [lowest_loop].
  { change (2 ^ Z.of_nat 0) with 1 in Hsz. assert (lo = hi) as -> by lia. split_and!; try done; lia. }
  destruct (Z.ltb_spec lo hi); [|assert (lo = hi) as -> by lia; split_and!; try done; lia].
  rewrite Nat2Z.inj_succ, Z.pow_succ_r in Hsz by lia.
  pose proof (Z.div_mod (hi - lo) 2). pose proof (Z.mod_pos_bound (hi - lo) 2). cbv zeta.
  set (mid := lo + (hi - lo) / 2). assert (lo <= mid < hi) by (unfold mid; lia).
  destruct (pred mid) eqn:E.
  - destruct (IH lo mid pred) as (? & ? & ?); [lia|unfold mid; lia|done| |].
    { intros a b ? ?. apply Hmono; lia. }
    split_and!; try done; lia.
  - destruct (IH (mid + 1) hi pred) as (? & ? & Hlow); [lia|unfold mid; lia|done| |].
    { intros a b ? ?. apply Hmono; lia. }
    split_and!; try done; try lia. intros v Hv. destruct (Z.le_gt_cases v mid); [|apply Hlow; lia].
    destruct (pred v) eqn:Ev; [|done]. rewrite (Hmono v mid) in E; done || lia.
Qed.

Lemma highest_loop_spec fuel : forall lo hi pred,
  lo <= hi -> hi - lo < 2 ^ Z.of_nat fuel -> pred lo = true ->
  (forall a b, lo <= a <= b -> b <= hi -> pred b = true -> pred a = true) ->
  lo <= highest_loop fuel lo hi pred <= hi /\ pred (highest_loop fuel lo hi pred) = true /\
  forall v, highest_loop fuel lo hi pred < v <= hi -> pred v = false.
Proof.
  induction fuel as [|fuel IH]; intros lo hi pred Hle Hsz Hlo Hmono; cbn [highest_loop].
  { change (2 ^ Z.of_nat 0) with 1 in Hsz. assert (lo = hi) as -> by lia. split_and!; try done; lia. }
  destruct (Z.ltb_spec lo hi); [|assert (lo = hi) as -> by lia; split_and!; try done; lia].
  rewrite Nat2Z.inj_succ, Z.pow_succ_r in Hsz by lia.
  pose proof (Z.div_mod (hi - lo + 1) 2). pose proof (Z.mod_pos_bound (hi - lo + 1) 2). cbv zeta.
  set (mid := lo + (hi - lo + 1) / 2). assert (lo < mid <= hi) by (unfold mid; lia).
  destruct (pred mid) eqn:E.
  - destruct (IH mid hi pred) as (? & ? & ?); [lia|unfold mid; lia|done| |].
    { intros a b ? ?. apply Hmono; lia. }
    split_and!; try done; lia.
  - destruct (IH lo (mid - 1) pred) as (? & ? & Hup); [lia|unfold mid; lia|done| |].
    { intros a b ? ?. apply Hmono; lia. }
    split_and!; try done; try lia. intros v Hv. destruct (Z.le_gt_cases mid v); [|apply Hup; lia].
    destruct (pred v) eqn:Ev; [|done]. rewrite (Hmono mid v) in E; done || lia.
Qed.

(** On a predicate that rises once, the search returns the least value that
    satisfies it, and nothing only when no value does. *)
Lemma lowest_true_spec lo hi pred :
  hi - lo < 2 ^ 64 ->
  (forall a b, lo <= a <= b -> b <= hi -> pred a = true -> pred b = true) ->
  match lowest_true lo hi pred with
  | Some b => lo <= b <= hi /\ pred b = true /\ forall v, lo <= v < b -> pred v = false
  | None => forall v, lo <= v <= hi -> pred v = false
  end.
Proof.
  intros Hsz Hmono. unfold lowest_true. destruct (Z.ltb_spec hi lo); cbn [orb]; [lia|].
  destruct (pred hi) eqn:E; cbn [negb].
  - by apply lowest_loop_spec.
  - intros v Hv. destruct (pred v) eqn:Ev; [|done]. rewrite (Hmono v hi) in E; done || lia.
Qed.

Lemma highest_true_spec lo hi pred :
  hi - lo < 2 ^ 64 ->
  (forall a b, lo <= a <= b -> b <= hi -> pred b = true -> pred a = true) ->
  match highest_true lo hi pred with
  | Some b => lo <= b <= hi /\ pred b = true /\ forall v, b < v <= hi -> pred v = false
  | None => forall v, lo <= v <= hi -> pred v = false
  end.
Proof.
  intros Hsz Hmono. unfold highest_true. destruct (Z.ltb_spec hi lo); cbn [orb]; [lia|].
  destruct (pred lo) eqn:E; cbn [negb].
  - by apply highest_loop_spec.
  - intros v Hv. destruct (pred v) eqn:Ev; [|done]. rewrite (Hmono lo v) in E; done || lia.
Qed.
