(* ===== verification/CounterfactualProps.v ===== *)
(** * The boundaries are exact

    Moving a lever in its favourable direction never makes a candidate less
    attractive to the kernel, so the binary searches of
    [src/counterfactual.rs] return the true boundary of the winning range. *)

From S2P Require Import Prelude Kernel KernelPricing KernelRank KernelProps Counterfactual.
#[local] Open Scope Z_scope.

(** ** Who wins *)

Definition beats_all (p : PolicySnapshot) (i : KernelInput) (m : KernelModel) : Prop :=
  admissible p i m = true /\
  forall m', m' ∈ ps_models p -> admissible p i m' = true -> ~ preferred p i m' m.

Lemma preferred_irrefl p i m : ~ preferred p i m m.
Proof. unfold preferred. lia. Qed.

Lemma admissible_entry p i m :
  m ∈ ps_models p -> admissible p i m = true -> exists k, (k, m) ∈ admissible_entries p i.
Proof.
  intros [k Hk]%list_elem_of_lookup Ha. exists (Z.of_nat k). unfold admissible_entries.
  rewrite list_elem_of_In, filter_In, <- list_elem_of_In. split; [|done].
  apply elem_of_enumerate. split; [lia|]. by rewrite Nat2Z.id.
Qed.

(** The kernel selects [id] exactly when the candidate with that identifier
    beats all admissible ones. *)
Lemma selected_iff p i id :
  policy_wf p -> input_typed i -> request_refusal p i = None ->
  selected (prescribe p i) id = true <->
  exists m, m ∈ ps_models p /\ km_model_id m = id /\ beats_all p i m.
Proof.
  intros Hp Hi Hr. pose proof (prescribe_refines p i Hp Hi Hr) as (_&_&_&_&_&D). unfold selected, is_executable.
  destruct D as [(Hnil & Ha & _)|(e & rest & [Hperm Hbest] & Har & Hid & _)].
  - rewrite Ha. split; [done|]. intros (m & Hm & _ & Hadm & _).
    destruct (admissible_entry p i m Hm Hadm) as [k Hk]. rewrite Hnil in Hk. by apply not_elem_of_nil in Hk.
  - rewrite Hid.
    assert (match kd_action (prescribe p i) with ExecuteRequested | Substitute => true | Reject => false end = true) as ->.
    { destruct (km_model_id (snd e) =? _); injection Har as -> _; done. }
    cbn [andb]. rewrite Z.eqb_eq.
    assert (e ∈ admissible_entries p i) as He by (rewrite Hperm; left).
    apply admissible_entries_pos in He as (Hpos & Hlk & Hadm). apply list_elem_of_lookup_2 in Hlk.
    assert (beats_all p i (snd e)) as Hb.
    { split; [done|]. intros m' Hm' Hadm'. destruct (admissible_entry p i m' Hm' Hadm') as [k Hk].
      rewrite Hperm in Hk. apply elem_of_cons in Hk as [<-|Hk]; [apply preferred_irrefl|].
      apply (Hbest _ Hk). }
    split.
    + intros E. by exists (snd e).
    + intros (m & Hm & <- & Hadm' & Hbeat). destruct Hb as [_ Hb].
      apply (preferred_total p i); auto.
Qed.

(** ** One candidate replaced *)

(** [b] is at least as attractive as [a]. *)
Definition dominates (p : PolicySnapshot) (i : KernelInput) (a b : KernelModel) : Prop :=
  km_model_id a = km_model_id b /\
  (first_failed_gate a i = None -> first_failed_gate b i = None) /\
  exact_cost b i <= exact_cost a i /\ exact_utility p i a <= exact_utility p i b /\
  km_quality_bps a <= km_quality_bps b.

Lemma dominates_admissible p i a b :
  dominates p i a b -> admissible p i a = true -> admissible p i b = true.
Proof.
  intros (_ & Hg & Hc & Hu & _). unfold admissible. destruct (first_failed_gate a i); [done|].
  rewrite Hg by done. rewrite !andb_true_iff, !Z.leb_le, !Z.ltb_lt. lia.
Qed.

Lemma dominates_preferred p i a b c : dominates p i a b -> preferred p i c b -> preferred p i c a.
Proof. intros (? & _ & ? & ? & ?). unfold preferred. lia. Qed.

Section replaced.
Context (p : PolicySnapshot) (idx : nat) (m0 : KernelModel) (i : KernelInput).
Context (Hp : policy_wf p) (Hi : input_typed i) (Hnd : NoDup (map km_model_id (ps_models p))).
Context (Hm0 : ps_models p !! idx = Some m0).

Lemma with_model_wf m : model_typed m -> policy_wf (with_model p idx m).
Proof using Hp.
  intros Hm. destruct Hp as (Hh & HF & _). split; [done|]. split; [|done]. by apply Forall_insert.
Qed.

Lemma with_model_elem m x :
  x ∈ <[idx := m]> (ps_models p) -> x = m \/ (x ∈ ps_models p /\ km_model_id x <> km_model_id m0).
Proof using Hm0 Hnd.
  intros [k Hk]%list_elem_of_lookup. destruct (decide (idx = k)) as [<-|Hne].
  - rewrite list_lookup_insert_eq in Hk by (by eapply lookup_lt_Some). left. congruence.
  - rewrite list_lookup_insert_ne in Hk by done. right. split; [by eapply list_elem_of_lookup_2|].
    intros E. apply Hne. eapply (NoDup_lookup (map km_model_id (ps_models p)) _ _ (km_model_id m0)); [done| |].
    + by rewrite list_lookup_fmap, Hm0.
    + by rewrite list_lookup_fmap, Hk, <- E.
Qed.

Lemma with_model_same : with_model p idx m0 = p.
Proof using Hm0 Hp.
  clear Hnd. unfold with_model. rewrite list_insert_id by done. destruct Hp as (_ & _ & E1 & E2 & E3 & E4).
  destruct p; unfold new_unchecked; simpl in *. by f_equal.
Qed.

(** The kernel keeps choosing a candidate that became more attractive. *)
Lemma wins_mono a b :
  model_typed a -> model_typed b -> km_model_id a = km_model_id m0 -> dominates p i a b ->
  wins p idx i (km_model_id m0) a = true -> wins p idx i (km_model_id m0) b = true.
Proof using Hp Hi Hnd Hm0.
  intros Ha Hb Hid Hdom. unfold wins.
  destruct (request_refusal p i) as [r|] eqn:Hr.
  { unfold prescribe, prescribe_inner, selected.
    assert (request_refusal (with_model p idx a) i = Some r) as -> by done. done. }
  assert (idx < length (ps_models p))%nat as Hlt by (by eapply lookup_lt_Some).
  rewrite !selected_iff by (done || by apply with_model_wf).
  intros (x & Hx & Hxid & Hadm & Hbeat). simpl in Hx.
  destruct (with_model_elem a x Hx) as [->|[_ ?]]; [|done].
  exists b. split; [by apply list_elem_of_insert|]. split; [destruct Hdom as [<- _]; done|]. split.
  - by apply (dominates_admissible p i a b).
  - intros y Hy Hady Hpref. destruct (with_model_elem b y Hy) as [->|[Hyp Hyid]].
    + by apply preferred_irrefl in Hpref.
    + apply (Hbeat y); [|done|by apply (dominates_preferred p i a b)].
      apply list_elem_of_lookup in Hyp as [k Hk].
      destruct (decide (idx = k)) as [<-|Hne]; [congruence|].
      simpl. apply list_elem_of_lookup. exists k. by rewrite list_lookup_insert_ne.
Qed.

(** A candidate that fails a gate does not win. *)
Lemma gated_loses a :
  model_typed a -> km_model_id a = km_model_id m0 -> is_Some (first_failed_gate a i) ->
  wins p idx i (km_model_id m0) a = false.
Proof using Hp Hi Hnd Hm0.
  intros Ha Hid [g Hg]. apply not_true_is_false. unfold wins. intros Hw.
  destruct (request_refusal p i) as [r|] eqn:Hr.
  { unfold prescribe, prescribe_inner, selected in Hw.
    assert (request_refusal (with_model p idx a) i = Some r) as E by done. by rewrite E in Hw. }
  apply selected_iff in Hw as (x & Hx & Hxid & Hadm & _); [|by apply with_model_wf|done|done].
  destruct (with_model_elem a x Hx) as [->|[_ ?]]; [|done].
  unfold admissible in Hadm. by rewrite Hg in Hadm.
Qed.

End replaced.

(** ** The levers *)

Definition moved (lv : Lever) (m : KernelModel) (v : Z) : KernelModel :=
  match lv with
  | QualityBps => set_quality v m
  | P95LatencyMs => set_latency v m
  | PriceScalePpm => scaled m v
  | RiskCeilingBps => set_risk_ceiling v m
  | LeverEnabled => set_enabled v m
  end.

(** The values a lever can take, and the direction that helps. *)
Definition lever_max (lv : Lever) : Z :=
  match lv with
  | QualityBps | RiskCeilingBps => umax 16
  | P95LatencyMs => umax 32
  | PriceScalePpm => MAX_PRICE_SCALE_PPM
  | LeverEnabled => 1
  end.

(** [a] is at most as favourable as [b]. *)
Definition towards (lv : Lever) (a b : Z) : Prop :=
  match lv with P95LatencyMs | PriceScalePpm => b <= a | _ => a <= b end.

Lemma scale_price_typed price s : is_u 64 price -> 0 <= s -> is_u 64 (scale_price price s).
Proof.
  intros Hp Hs. unfold scale_price, checked_u. destruct (in_u 64 _) eqn:E; simpl; [by apply in_u_spec|].
  by_compute.
Qed.

Lemma scale_price_mono price s t : 0 <= price -> 0 <= s <= t -> scale_price price s <= scale_price price t.
Proof.
  intros Hp Hs. unfold scale_price, checked_u, in_u.
  assert (price * s / PPM <= price * t / PPM) by (apply Z.div_le_mono; [done|nia]).
  assert (0 <= price * s / PPM) by (apply Z.div_pos; [nia|done]).
  destruct (Z.leb_spec 0 (price * s / PPM)); [|lia]. destruct (Z.leb_spec 0 (price * t / PPM)); [|lia].
  destruct (Z.leb_spec (price * s / PPM) (umax 64)), (Z.leb_spec (price * t / PPM) (umax 64)); simpl; lia.
Qed.

Lemma moved_typed lv m v : model_typed m -> 0 <= v <= lever_max lv -> model_typed (moved lv m v).
Proof.
  intros (?&?&?&?&?&?&?&?&?&?) Hv.
  destruct lv; unfold model_typed; simpl in *; rewrite ?wrap_u_small by (unfold is_u; lia || int_lia);
    split_and!; try done; try (apply scale_price_typed; [done|lia]); int_lia.
Qed.

Lemma ceil_cost_mono t r s : 0 <= t -> r <= s -> ceil_cost t r <= ceil_cost t s.
Proof. intros. unfold ceil_cost. apply Z.div_le_mono; [done|nia]. Qed.

(** Utility rises with quality and falls with cost and latency. *)
Lemma exact_utility_mono p i a b :
  policy_wf p -> input_typed i ->
  km_quality_bps a <= km_quality_bps b -> exact_cost b i <= exact_cost a i ->
  km_p95_latency_ms b <= km_p95_latency_ms a -> exact_utility p i a <= exact_utility p i b.
Proof.
  intros ((_&_&_&_&_&Hpen) & _) Hi Hq Hc Hl. unfold exact_utility. apply saturate_i_mono.
  pose proof (request_value_typed i Hi) as Hv. destruct Hi as (_&_&_&_&_&_&_&Hconf&_).
  assert (exact_quality_adjusted a i <= exact_quality_adjusted b i).
  { unfold exact_quality_adjusted. apply Z.div_le_mono; [done|].
    apply Z.mul_le_mono_nonneg_l; [|done]. unfold is_u in *. nia. }
  assert (exact_latency_penalty p b <= exact_latency_penalty p a).
  { unfold exact_latency_penalty. unfold is_u in *. nia. }
  lia.
Qed.

Lemma moved_gate lv m i a b :
  model_typed m -> 0 <= a <= lever_max lv -> 0 <= b <= lever_max lv -> towards lv a b ->
  first_failed_gate (moved lv m a) i = None -> first_failed_gate (moved lv m b) i = None.
Proof.
  intros Hm Ha Hb Hab.
  destruct lv; simpl in *; unfold first_failed_gate; simpl;
    rewrite ?(wrap_u_small _ a), ?(wrap_u_small _ b) by (unfold is_u; lia); try done.
  - destruct (km_enabled m =? 0); [done|]. destruct (Z.ltb_spec a (ki_minimum_quality_bps i)); [done|].
    destruct (Z.ltb_spec b (ki_minimum_quality_bps i)); [lia|done].
  - destruct (km_enabled m =? 0); [done|]. destruct (km_quality_bps m <? _); [done|].
    destruct (Z.ltb_spec 0 (ki_max_p95_latency_ms i)), (Z.ltb_spec (ki_max_p95_latency_ms i) a),
      (Z.ltb_spec (ki_max_p95_latency_ms i) b); simpl; try done; lia.
  - repeat (case_match; [done|]). intros Hr. destruct (Z.ltb_spec a (ki_risk_bps i)); [done|].
    destruct (Z.ltb_spec b (ki_risk_bps i)); [lia|done].
  - destruct (Z.eqb_spec a 0); [done|]. destruct (Z.eqb_spec b 0); [lia|done].
Qed.

Lemma moved_dominates p i lv m a b :
  policy_wf p -> input_typed i -> model_typed m ->
  0 <= a <= lever_max lv -> 0 <= b <= lever_max lv -> towards lv a b ->
  dominates p i (moved lv m a) (moved lv m b).
Proof.
  intros Hp Hi Hm Ha Hb Hab.
  assert (exact_cost (moved lv m b) i <= exact_cost (moved lv m a) i) as Hc.
  { destruct lv; try done. unfold exact_cost. simpl in *. destruct Hm as (_&_&_&_&_&_&_&_&Hin&Hout).
    destruct Hi as (_&_&Hti&Hto&_). unfold is_u in *.
    pose proof (ceil_cost_mono (ki_input_tokens i) _ _ (proj1 Hti)
      (scale_price_mono (km_input_cost_microunits_per_million_tokens m) b a (proj1 Hin) ltac:(lia))).
    pose proof (ceil_cost_mono (ki_output_tokens i) _ _ (proj1 Hto)
      (scale_price_mono (km_output_cost_microunits_per_million_tokens m) b a (proj1 Hout) ltac:(lia))).
    lia. }
  assert (km_quality_bps (moved lv m a) <= km_quality_bps (moved lv m b)) as Hq.
  { destruct lv; simpl in *; rewrite ?(wrap_u_small _ a), ?(wrap_u_small _ b) by (unfold is_u; lia); lia. }
  assert (km_p95_latency_ms (moved lv m b) <= km_p95_latency_ms (moved lv m a)) as Hl.
  { destruct lv; simpl in *; rewrite ?(wrap_u_small _ a), ?(wrap_u_small _ b) by (unfold is_u; lia); lia. }
  split_and!; try done.
  - by destruct lv.
  - by apply moved_gate.
  - by apply exact_utility_mono.
Qed.

(** The current value of a lever changes nothing. *)
Definition lever_value (lv : Lever) (m : KernelModel) : Z :=
  match lv with
  | QualityBps => km_quality_bps m
  | P95LatencyMs => km_p95_latency_ms m
  | PriceScalePpm => PPM
  | RiskCeilingBps => km_risk_ceiling_bps m
  | LeverEnabled => km_enabled m
  end.

Lemma moved_current lv m : model_typed m -> moved lv m (lever_value lv m) = m.
Proof.
  intros (?&?&?&?&?&?&?&?&?&?). destruct lv; simpl; unfold set_quality, set_latency, scaled,
    set_risk_ceiling, set_enabled, scale_price;
    rewrite ?wrap_u_small, ?Z.div_mul, ?checked_u_small by done; by destruct m.
Qed.

Lemma lever_value_range lv m : model_typed m -> lv <> LeverEnabled -> 0 <= lever_value lv m <= lever_max lv.
Proof.
  intros (?&?&?&?&?&?&?&?&?&?) Hlv. destruct lv; simpl; unfold MAX_PRICE_SCALE_PPM, PPM in *; try done; int_lia.
Qed.

(** ** Searching one lever *)

Lemma position_unique l idx m :
  NoDup (map km_model_id l) -> l !! idx = Some m ->
  position (fun x => km_model_id x =? km_model_id m) l = Some idx.
Proof.
  revert idx. induction l as [|x l IH]; intros idx Hnd Hl; [done|]. simpl in Hnd |- *.
  apply list.NoDup_cons in Hnd as [Hx Hnd]. destruct idx as [|idx]; simpl in Hl.
  - injection Hl as ->. by rewrite Z.eqb_refl.
  - destruct (Z.eqb_spec (km_model_id x) (km_model_id m)) as [E|].
    + exfalso. apply Hx. rewrite E. apply list_elem_of_fmap_2. by eapply list_elem_of_lookup_2.
    + by rewrite (IH idx).
Qed.

Definition requirement_for (lv : Lever) (rs : list Requirement) : option Requirement :=
  List.find (fun r => bool_decide (rq_lever r = lv)) rs.

Lemma requirement_push_other lv l o make rest :
  (forall b, rq_lever (make b) = l) -> lv <> l ->
  requirement_for lv (push_if o make ++ rest) = requirement_for lv rest.
Proof.
  intros Hl Hne. destruct o as [b|]; [|done]. unfold requirement_for. simpl.
  rewrite bool_decide_eq_false_2; [done|]. rewrite Hl. congruence.
Qed.

Lemma requirement_push_last lv l o make :
  (forall b, rq_lever (make b) = l) -> lv <> l -> requirement_for lv (push_if o make) = None.
Proof.
  intros Hl Hne. pose proof (requirement_push_other lv l o make [] Hl Hne) as E.
  by rewrite app_nil_r in E.
Qed.

(** Skip the entries of other levers. *)
Ltac skip_levers :=
  rewrite ?(requirement_push_other _ QualityBps) by done;
  rewrite ?(requirement_push_other _ P95LatencyMs) by done;
  rewrite ?(requirement_push_other _ PriceScalePpm) by done;
  rewrite ?(requirement_push_last _ RiskCeilingBps) by done.

Section levers.
Context (p : PolicySnapshot) (idx : nat) (m : KernelModel) (i : KernelInput).
Context (Hp : policy_wf p) (Hi : input_typed i) (Hnd : NoDup (map km_model_id (ps_models p))).
Context (Hm : ps_models p !! idx = Some m).

(** The candidate wins with the lever at [v]. *)
Definition wins_at (lv : Lever) (v : Z) : bool := wins p idx i (km_model_id m) (moved lv m v).

Lemma candidate_typed : model_typed m.
Proof using Hp Hm.
  destruct Hp as (_ & HF & _). rewrite list.Forall_forall in HF. apply HF.
  by eapply list_elem_of_lookup_2.
Qed.

Lemma wins_at_mono lv a b :
  0 <= a <= lever_max lv -> 0 <= b <= lever_max lv -> towards lv a b ->
  wins_at lv a = true -> wins_at lv b = true.
Proof using Hp Hi Hnd Hm.
  intros Ha Hb Hab. pose proof candidate_typed as Ht. unfold wins_at.
  apply (wins_mono p idx m); try done; try (by apply moved_typed).
  - by destruct lv.
  - by apply moved_dominates.
Qed.

Lemma wins_at_current lv : wins_at lv (lever_value lv m) = selected (prescribe p i) (km_model_id m).
Proof using Hp Hnd Hm.
  unfold wins_at, wins. rewrite moved_current by apply candidate_typed.
  by rewrite (with_model_same p idx m).
Qed.

(** The searches on a rising and on a falling lever. *)
Lemma search_up lv lo hi :
  lv <> P95LatencyMs -> lv <> PriceScalePpm -> 0 <= lo -> hi <= lever_max lv ->
  match lowest_true lo hi (wins_at lv) with
  | Some b => lo <= b <= hi /\ wins_at lv b = true /\ forall v, lo <= v < b -> wins_at lv v = false
  | None => forall v, lo <= v <= hi -> wins_at lv v = false
  end.
Proof using Hp Hi Hnd Hm.
  intros H1 H2 Hlo Hhi. apply lowest_true_spec.
  - destruct lv; simpl in Hhi; unfold umax, MAX_PRICE_SCALE_PPM, PPM in Hhi; lia.
  - intros a b Ha Hb. apply wins_at_mono; [lia|lia|]. by destruct lv; simpl; try lia.
Qed.

Lemma search_down lv lo hi :
  lv = P95LatencyMs \/ lv = PriceScalePpm -> 0 <= lo -> hi <= lever_max lv ->
  match highest_true lo hi (wins_at lv) with
  | Some b => lo <= b <= hi /\ wins_at lv b = true /\ forall v, b < v <= hi -> wins_at lv v = false
  | None => forall v, lo <= v <= hi -> wins_at lv v = false
  end.
Proof using Hp Hi Hnd Hm.
  intros Hlv Hlo Hhi. apply highest_true_spec.
  - destruct Hlv as [-> | ->]; simpl in Hhi; unfold umax, MAX_PRICE_SCALE_PPM, PPM in Hhi; lia.
  - intros a b Ha Hb. apply wins_at_mono; [lia|lia|]. destruct Hlv as [-> | ->]; simpl; lia.
Qed.

(** The favourable values [what_would_win] considers. *)
Definition win_range (lv : Lever) (v : Z) : Prop :=
  match lv with
  | QualityBps => km_quality_bps m <= v <= MAX_BPS
  | P95LatencyMs => 0 <= v <= km_p95_latency_ms m
  | PriceScalePpm => 0 <= v <= PPM
  | RiskCeilingBps => km_risk_ceiling_bps m <= v <= MAX_BPS
  | LeverEnabled => km_enabled m = 0 /\ v = 1
  end.

Definition win_boundary (lv : Lever) (b : Z) : Prop :=
  win_range lv b /\ wins_at lv b = true /\
  forall v, win_range lv v -> ~ towards lv b v -> wins_at lv v = false.

(** What a list of requirements has to say about every lever. *)
Definition levers_exact (rs : list Requirement) : Prop :=
  forall lv,
    match requirement_for lv rs with
    | Some r => rq_current r = (if decide (lv = LeverEnabled) then 0 else lever_value lv m) /\
                win_boundary lv (rq_boundary r)
    | None => forall v, win_range lv v -> wins_at lv v = false
    end.

Lemma refused_loses lv v r : request_refusal p i = Some r -> wins_at lv v = false.
Proof using Type.
  intros Hr. unfold wins_at, wins, prescribe, prescribe_inner, selected.
  assert (request_refusal (with_model p idx (moved lv m v)) i = Some r) as -> by done. done.
Qed.

Lemma enabled_search_exact :
  km_enabled m <> 0 ->
  levers_exact
    (push_if (lowest_true (km_quality_bps m) MAX_BPS (wins_at QualityBps)) (plain QualityBps (km_quality_bps m))
     ++ push_if (highest_true 0 (km_p95_latency_ms m) (wins_at P95LatencyMs)) (plain P95LatencyMs (km_p95_latency_ms m))
     ++ push_if (highest_true 0 PPM (wins_at PriceScalePpm)) (priced p idx i m)
     ++ push_if (lowest_true (km_risk_ceiling_bps m) MAX_BPS (wins_at RiskCeilingBps))
          (plain RiskCeilingBps (km_risk_ceiling_bps m))).
Proof using Hp Hi Hnd Hm.
  intros Hen. pose proof candidate_typed as (_&_&Hq&Hr&_&Hl&_). unfold is_u in *.
  pose proof (search_up QualityBps (km_quality_bps m) MAX_BPS ltac:(done) ltac:(done) ltac:(lia) ltac:(done)) as SQ.
  pose proof (search_down P95LatencyMs 0 (km_p95_latency_ms m) ltac:(by left) ltac:(lia) ltac:(simpl; lia)) as SL.
  pose proof (search_down PriceScalePpm 0 PPM ltac:(by right) ltac:(lia) ltac:(done)) as SP.
  pose proof (search_up RiskCeilingBps (km_risk_ceiling_bps m) MAX_BPS ltac:(done) ltac:(done) ltac:(lia) ltac:(done)) as SR.
  intros lv. unfold win_boundary.
  destruct lv; skip_levers.
  - destruct (lowest_true _ _ _) as [b|]; cbn [push_if app].
    + simpl. destruct SQ as (? & ? & SQ). split_and!; try done; try lia. intros v Hv Hnt. apply SQ. lia.
    + by skip_levers.
  - destruct (highest_true _ _ _) as [b|]; cbn [push_if app].
    + simpl. destruct SL as (? & ? & SL). split_and!; try done; try lia. intros v Hv Hnt. apply SL. lia.
    + by skip_levers.
  - destruct (highest_true 0 PPM _) as [b|]; cbn [push_if app].
    + simpl. destruct SP as (? & ? & SP). split_and!; try done; try lia. intros v Hv Hnt. apply SP. lia.
    + by skip_levers.
  - destruct (lowest_true (km_risk_ceiling_bps m) _ _) as [b|]; simpl; [|done].
    destruct SR as (? & ? & SR). split_and!; try done; try lia. intros v Hv Hnt. apply SR. lia.
  - intros v [Hv _]. done.
Qed.

Lemma disabled_search_exact :
  km_enabled m = 0 ->
  levers_exact (if wins_at LeverEnabled 1 then [plain LeverEnabled 0 1] else []).
Proof using Hp Hi Hnd Hm.
  intros Hen lv. pose proof candidate_typed as Ht.
  assert (forall v, lv <> LeverEnabled -> 0 <= v <= lever_max lv -> wins_at lv v = false) as Hoff.
  { intros v Hlv Hv. apply (gated_loses p idx m); try done; [by apply moved_typed|by destruct lv|].
    exists Disabled. unfold first_failed_gate. destruct lv; try done; simpl; by rewrite Hen. }
  assert (forall v, lv <> LeverEnabled -> win_range lv v -> wins_at lv v = false) as Hno.
  { intros v Hlv Hv. apply Hoff; [done|]. destruct Ht as (_&_&Hq&Hr&_&Hl&_).
    destruct lv; simpl in *; unfold MAX_BPS, MAX_PRICE_SCALE_PPM, PPM in *; int_lia || done. }
  destruct (wins_at LeverEnabled 1) eqn:E; destruct lv; simpl;
    try (intros v Hv; apply Hno; [done|exact Hv]).
  - split; [done|]. split; [done|]. split; [done|]. intros v Hv Hnt. simpl in *. lia.
  - intros v [_ ->]. done.
Qed.

End levers.

(** The two request-level reasons come from the request-level refusal. *)
Lemma hard_limit_reason p i :
  kd_reason (prescribe p i) = RiskHardLimit \/ kd_reason (prescribe p i) = ConfidenceHardLimit ->
  exists r, request_refusal p i = Some r.
Proof.
  unfold prescribe, prescribe_inner. destruct (request_refusal p i) as [r|]; [by eexists|].
  intros Hd. exfalso. revert Hd. destruct (ls_best _); simpl; [destruct (_ =? _); simpl; intros [|]; done|].
  pose proof (dominant_reason_constraint (ls_rejected (run_loop p i))). tauto.
Qed.

(** Claim C38: for every candidate of a well-formed catalog with distinct
    identifiers, [what_would_win] answers; when the candidate is not selected
    as things stand, each lever it reports carries the lever's current value
    and a boundary inside the favourable range at which the kernel selects the
    candidate, and at every less favourable value of the range it does not;
    for a lever it does not report, no value of the range wins. *)
Theorem what_would_win_exact p idx m i
    (Hp : policy_wf p) (Hi : input_typed i) (Hnd : NoDup (map km_model_id (ps_models p)))
    (Hm : ps_models p !! idx = Some m) :
  exists cf, what_would_win p i (km_model_id m) = Some cf /\
    cf_decision cf = prescribe p i /\
    (if selected (prescribe p i) (km_model_id m) then cf_levers cf = []
     else levers_exact p idx m i (cf_levers cf)).
Proof.
  unfold what_would_win. rewrite (position_unique _ idx m) by done. simpl. rewrite Hm. simpl.
  destruct (selected (prescribe p i) (km_model_id m)) eqn:Esel.
  { rewrite orb_true_r. by eexists. }
  rewrite orb_false_r. case_bool_decide as Hb.
  - eexists. split; [done|]. split; [done|]. intros lv. simpl.
    assert (exists r, request_refusal p i = Some r) as [r Hr].
    { destruct Hb as [r Hb]. pose proof (hard_limit_reason p i) as H.
      unfold request_block in Hb. destruct (kd_reason (prescribe p i)); try done; apply H; auto. }
    intros v _. by apply (refused_loses p idx m i lv v r).
  - destruct (Z.eqb_spec (km_enabled m) 0) as [Hen|Hen].
    + eexists. split; [done|]. split; [done|]. by apply disabled_search_exact.
    + eexists. split; [done|]. split; [done|]. by apply enabled_search_exact.
Qed.

Lemma what_would_win_exact_witness :
  exists cf, what_would_win sample_policy sample_input 10 = Some cf /\
    cf_decision cf = prescribe sample_policy sample_input /\
    levers_exact sample_policy 0 sample_model_10 sample_input (cf_levers cf).
Proof.
  assert (policy_wf sample_policy) as H1 by by_compute.
  assert (input_typed sample_input) as H2 by by_compute.
  assert (NoDup (map km_model_id (ps_models sample_policy))) as H3 by by_compute.
  exact (what_would_win_exact sample_policy 0 sample_model_10 sample_input H1 H2 H3 eq_refl).
Defined.

(** ** Margins *)

Section margins.
Context (p : PolicySnapshot) (idx : nat) (m : KernelModel) (i : KernelInput).
Context (Hp : policy_wf p) (Hi : input_typed i) (Hnd : NoDup (map km_model_id (ps_models p))).
Context (Hm : ps_models p !! idx = Some m).
Context (Hsel : selected (prescribe p i) (km_model_id m) = true).

(** The unfavourable values [decision_margin] considers. *)
Definition margin_range (lv : Lever) (v : Z) : Prop :=
  match lv with
  | QualityBps => 0 <= v <= km_quality_bps m
  | P95LatencyMs => km_p95_latency_ms m <= v <= umax 32
  | PriceScalePpm => PPM <= v <= MAX_PRICE_SCALE_PPM
  | RiskCeilingBps => 0 <= v <= km_risk_ceiling_bps m
  | LeverEnabled => False
  end.

Definition margins_exact (rs : list Requirement) : Prop :=
  forall lv,
    match requirement_for lv rs with
    | Some r => margin_range lv (rq_boundary r) /\ rq_current r = lever_value lv m /\
        (forall v, margin_range lv v -> wins_at p idx m i lv v = true <-> towards lv (rq_boundary r) v)
    | None => forall v, margin_range lv v -> wins_at p idx m i lv v = true
    end.

Lemma lowest_margin lv :
  lv = QualityBps \/ lv = RiskCeilingBps ->
  exists b, lowest_true 0 (lever_value lv m) (wins_at p idx m i lv) = Some b /\ margin_range lv b /\
    forall v, margin_range lv v -> wins_at p idx m i lv v = true <-> towards lv b v.
Proof using Hp Hi Hnd Hm Hsel.
  intros Hlv. pose proof (candidate_typed p idx m Hp Hm) as Ht.
  assert (0 <= lever_value lv m <= lever_max lv) as Hr.
  { apply lever_value_range; [done|]. by destruct Hlv as [-> | ->]. }
  pose proof (search_up p idx m i Hp Hi Hnd Hm lv 0 (lever_value lv m)) as S.
  specialize (S ltac:(by destruct Hlv as [-> | ->]) ltac:(by destruct Hlv as [-> | ->]) ltac:(lia) ltac:(lia)).
  destruct (lowest_true _ _ _) as [b|].
  - destruct S as (Hb & Hwin & Hlow). exists b. split; [done|].
    assert (forall v, margin_range lv v <-> 0 <= v <= lever_value lv m) as Hmr
      by (intros v; by destruct Hlv as [-> | ->]).
    assert (forall v, towards lv b v <-> b <= v) as Htw by (intros v; by destruct Hlv as [-> | ->]).
    split; [by apply Hmr|]. intros v Hv%Hmr. rewrite Htw. split.
    + intros Hw. destruct (Z.le_gt_cases b v); [done|]. rewrite Hlow in Hw by lia. done.
    + intros Hbv. apply (wins_at_mono p idx m i Hp Hi Hnd Hm lv b v); try done; try lia. by apply Htw.
  - exfalso. pose proof (wins_at_current p idx m i Hp Hnd Hm lv) as Hc. rewrite S in Hc by lia. congruence.
Qed.

Lemma highest_margin lv :
  lv = P95LatencyMs \/ lv = PriceScalePpm ->
  exists b, highest_true (lever_value lv m) (lever_max lv) (wins_at p idx m i lv) = Some b /\
    margin_range lv b /\
    forall v, margin_range lv v -> wins_at p idx m i lv v = true <-> towards lv b v.
Proof using Hp Hi Hnd Hm Hsel.
  intros Hlv. pose proof (candidate_typed p idx m Hp Hm) as Ht.
  assert (0 <= lever_value lv m <= lever_max lv) as Hr.
  { apply lever_value_range; [done|]. by destruct Hlv as [-> | ->]. }
  pose proof (search_down p idx m i Hp Hi Hnd Hm lv (lever_value lv m) (lever_max lv) Hlv ltac:(lia) ltac:(lia)) as S.
  destruct (highest_true _ _ _) as [b|].
  - destruct S as (Hb & Hwin & Hup). exists b. split; [done|].
    assert (forall v, margin_range lv v <-> lever_value lv m <= v <= lever_max lv) as Hmr
      by (intros v; by destruct Hlv as [-> | ->]).
    assert (forall v, towards lv b v <-> v <= b) as Htw by (intros v; by destruct Hlv as [-> | ->]).
    split; [by apply Hmr|]. intros v Hv%Hmr. rewrite Htw. split.
    + intros Hw. destruct (Z.le_gt_cases v b); [done|]. rewrite Hup in Hw by lia. done.
    + intros Hbv. apply (wins_at_mono p idx m i Hp Hi Hnd Hm lv b v); try done; try lia. by apply Htw.
  - exfalso. pose proof (wins_at_current p idx m i Hp Hnd Hm lv) as Hc. rewrite S in Hc by lia. congruence.
Qed.

(** A winner that survives the worst value of a lever survives them all. *)
Lemma worst_survives lv w :
  (forall v, margin_range lv v -> 0 <= v <= lever_max lv /\ towards lv w v) -> 0 <= w <= lever_max lv ->
  wins_at p idx m i lv w = true -> forall v, margin_range lv v -> wins_at p idx m i lv v = true.
Proof using Hp Hi Hnd Hm.
  intros Hr Hw Hwin v Hv. destruct (Hr v Hv). by apply (wins_at_mono p idx m i Hp Hi Hnd Hm lv w v).
Qed.

Lemma margin_search_exact :
  margins_exact
    (push_if (lowest_true 0 (km_quality_bps m) (wins_at p idx m i QualityBps)) (plain QualityBps (km_quality_bps m))
     ++ (if negb (wins_at p idx m i P95LatencyMs (umax 32)) then
           push_if (highest_true (km_p95_latency_ms m) (umax 32) (wins_at p idx m i P95LatencyMs))
             (plain P95LatencyMs (km_p95_latency_ms m)) else [])
     ++ (if negb (wins_at p idx m i PriceScalePpm MAX_PRICE_SCALE_PPM) then
           push_if (highest_true PPM MAX_PRICE_SCALE_PPM (wins_at p idx m i PriceScalePpm)) (priced p idx i m)
         else [])
     ++ (if negb (wins_at p idx m i RiskCeilingBps 0) then
           push_if (lowest_true 0 (km_risk_ceiling_bps m) (wins_at p idx m i RiskCeilingBps))
             (plain RiskCeilingBps (km_risk_ceiling_bps m)) else [])).
Proof using Hp Hi Hnd Hm Hsel.
  pose proof (candidate_typed p idx m Hp Hm) as (_&_&Hq&Hr&_&Hl&_). unfold is_u in *.
  destruct (lowest_margin QualityBps) as (bq & Eq & Rq & Wq); [by left|].
  destruct (highest_margin P95LatencyMs) as (bl & El & Rl & Wl); [by left|].
  destruct (highest_margin PriceScalePpm) as (bp & Ep & Rp & Wp); [by right|].
  destruct (lowest_margin RiskCeilingBps) as (br & Er & Rr & Wr); [by right|].
  simpl in Eq, El, Ep, Er. rewrite Eq, El, Ep, Er.
  pose proof (worst_survives P95LatencyMs (umax 32)) as SL.
  pose proof (worst_survives PriceScalePpm MAX_PRICE_SCALE_PPM) as SP.
  pose proof (worst_survives RiskCeilingBps 0) as SR.
  simpl in SL, SP, SR. intros lv.
  destruct (wins_at p idx m i P95LatencyMs (umax 32)), (wins_at p idx m i PriceScalePpm MAX_PRICE_SCALE_PPM),
    (wins_at p idx m i RiskCeilingBps 0), lv; simpl; try (by split_and!); try done;
    first [apply SL|apply SP|apply SR]; (done || lia || (intros v Hv; unfold PPM in *; lia)).
Qed.

End margins.

(** [decision_margin] answers exactly when the kernel selects a
    candidate. Each lever it reports carries the current value and the
    furthest value at which the candidate is still selected: over the whole
    unfavourable range, the kernel selects the candidate precisely up to the
    boundary. A lever it does not report cannot make the winner lose anywhere
    in its range (down to zero, up to [u32::MAX] milliseconds, up to a
    thousand times the price). *)
Theorem decision_margin_exact p i
    (Hp : policy_wf p) (Hi : input_typed i) (Hnd : NoDup (map km_model_id (ps_models p))) :
  if is_executable (prescribe p i) then
    exists mg idx m, decision_margin p i = Some mg /\ mg_decision mg = prescribe p i /\
      ps_models p !! idx = Some m /\ km_model_id m = kd_selected_model_id (prescribe p i) /\
      margins_exact p idx m i (mg_levers mg)
  else decision_margin p i = None.
Proof.
  unfold decision_margin. destruct (is_executable (prescribe p i)) eqn:Eex; [|done]. simpl.
  assert (selected (prescribe p i) (kd_selected_model_id (prescribe p i)) = true) as Hsel
    by (unfold selected; by rewrite Eex, Z.eqb_refl).
  destruct (request_refusal p i) as [r|] eqn:Hr.
  { unfold prescribe, prescribe_inner in Eex. by rewrite Hr in Eex. }
  pose proof Hsel as (m & Hm & Hid & _)%selected_iff; try done.
  apply list_elem_of_lookup in Hm as [idx Hm]. rewrite <- Hid in *.
  rewrite (position_unique _ idx m) by done. simpl. rewrite Hm. simpl.
  eexists _, idx, m. split; [done|]. split_and!; try done. simpl. by apply margin_search_exact.
Qed.

Lemma decision_margin_exact_witness :
  exists mg idx m, decision_margin sample_policy sample_input = Some mg /\
    mg_decision mg = prescribe sample_policy sample_input /\
    ps_models sample_policy !! idx = Some m /\
    km_model_id m = kd_selected_model_id (prescribe sample_policy sample_input) /\
    margins_exact sample_policy idx m sample_input (mg_levers mg).
Proof.
  assert (policy_wf sample_policy) as H1 by by_compute.
  assert (input_typed sample_input) as H2 by by_compute.
  assert (NoDup (map km_model_id (ps_models sample_policy))) as H3 by by_compute.
  exact (decision_margin_exact sample_policy sample_input H1 H2 H3).
Defined.
