(* ===== verification/Outcome.v ===== *)
(** * Outcome records ([src/outcome.rs])

    What was done about a decision and what came back: identities, selections
    with their propensity, observations, the consistency rules between them
    and the digests that bind a record. *)

From Stdlib Require Import String.
From S2P Require Import Prelude Bytes Kernel Digest.
#[local] Open Scope Z_scope.

Definition IDENTITY_DIGEST_TAG : list Z := string_bytes "calyidn1" ++ [0].
Definition OUTCOME_DIGEST_TAG : list Z := string_bytes "calyout1" ++ [0].
Definition SELECTION_DIGEST_TAG : list Z := string_bytes "calysel1" ++ [0].
Definition FULL_PROBABILITY_BPS : Z := 10000.

Record DecisionIdentity := mkDecisionIdentity {
  di_policy_digest : list Z;
  di_input_digest : list Z;
  di_decision_digest : list Z;
  di_request_sequence : Z
}.

Inductive IdentityField := FieldPolicy | FieldInput | FieldDecision | FieldRequestSequence.

Inductive SelectionStrategy := MaximiseUtility | Explore | Human.
#[export] Instance SelectionStrategy_eq_dec : EqDecision SelectionStrategy.
Proof. solve_decision. Defined.
Definition SelectionStrategy_repr (s : SelectionStrategy) : Z :=
  match s with MaximiseUtility => 0 | Explore => 1 | Human => 2 end.

Record Selection := mkSelection {
  sl_strategy : SelectionStrategy;
  sl_acted_model_id : Z;
  sl_propensity_bps : option Z
}.

Inductive OutcomeError :=
| PropensityOutOfRange (bps : Z)
| DeterministicPropensity (bps : Z)
| MissingPropensity (s : SelectionStrategy)
| UnknowablePropensity
| EmptyObservation
| ObservationOnAbandoned
| CompletedInFlight
| ActedOnRejection
| ActedModelNotSelected (acted selected : Z)
| ActedModelNotInCatalog (id : Z)
| IdentityMismatch (field : IdentityField).

Inductive Disposition := Applied | Abandoned | InFlight.
#[export] Instance Disposition_eq_dec : EqDecision Disposition.
Proof. solve_decision. Defined.
Definition Disposition_repr (d : Disposition) : Z :=
  match d with Applied => 0 | Abandoned => 1 | InFlight => 2 end.

Record Observation := mkObservation {
  ob_realized_cost_microunits : option Z;
  ob_realized_latency_ms : option Z;
  ob_succeeded : option bool
}.

Record Outcome := mkOutcome {
  oc_identity : DecisionIdentity;
  oc_observed_at_micros : Z;
  oc_revision : Z;
  oc_selection : Selection;
  oc_disposition : Disposition;
  oc_observation : Observation
}.

(** ** Selections *)

Definition Selection_followed (decision : KernelDecision) : Selection :=
  mkSelection MaximiseUtility (kd_selected_model_id decision) (Some FULL_PROBABILITY_BPS).
Definition Selection_explored (acted_model_id propensity_bps : Z) : Selection :=
  mkSelection Explore acted_model_id (Some propensity_bps).
Definition Selection_human (acted_model_id : Z) : Selection := mkSelection Human acted_model_id None.

Definition Selection_validate (s : Selection) : result OutcomeError unit :=
  match sl_strategy s, sl_propensity_bps s with
  | Human, Some _ => Err UnknowablePropensity
  | Human, None => Ok tt
  | strategy, None => Err (MissingPropensity strategy)
  | strategy, Some bps =>
      if (bps =? 0) || (FULL_PROBABILITY_BPS <? bps) then Err (PropensityOutOfRange bps)
      else if bool_decide (strategy = MaximiseUtility) && negb (bps =? FULL_PROBABILITY_BPS)
      then Err (DeterministicPropensity bps) else Ok tt
  end.

Definition Observation_default : Observation := mkObservation None None None.

Definition Observation_is_empty (o : Observation) : bool :=
  match o with mkObservation None None None => true | _ => false end.

Definition Outcome_validate (o : Outcome) : result OutcomeError unit :=
  _ ← Selection_validate (oc_selection o);
  match oc_disposition o with
  | Applied => if Observation_is_empty (oc_observation o) then Err EmptyObservation else Ok tt
  | Abandoned => if negb (Observation_is_empty (oc_observation o)) then Err ObservationOnAbandoned else Ok tt
  | InFlight => match ob_succeeded (oc_observation o) with Some _ => Err CompletedInFlight | None => Ok tt end
  end.

Section outcomes.
Context {HF : HashFunctions}.

Definition DecisionIdentity_of (snapshot : PolicySnapshot) (input : KernelInput)
    (decision : KernelDecision) : DecisionIdentity :=
  mkDecisionIdentity (policy_digest snapshot) (input_digest input) (decision_digest decision)
    (kd_request_sequence decision).

Definition disagreement (self other : DecisionIdentity) : option IdentityField :=
  if negb (bool_decide (di_policy_digest self = di_policy_digest other)) then Some FieldPolicy
  else if negb (bool_decide (di_input_digest self = di_input_digest other)) then Some FieldInput
  else if negb (bool_decide (di_decision_digest self = di_decision_digest other)) then Some FieldDecision
  else if negb (di_request_sequence self =? di_request_sequence other) then Some FieldRequestSequence
  else None.

Definition Outcome_applied (snapshot : PolicySnapshot) (input : KernelInput) (decision : KernelDecision)
    (observed_at_micros : Z) (observation : Observation) : Outcome :=
  mkOutcome (DecisionIdentity_of snapshot input decision) observed_at_micros 0
    (Selection_followed decision) Applied observation.

Definition Outcome_abandoned (snapshot : PolicySnapshot) (input : KernelInput) (decision : KernelDecision)
    (observed_at_micros : Z) : Outcome :=
  mkOutcome (DecisionIdentity_of snapshot input decision) observed_at_micros 0
    (Selection_followed decision) Abandoned Observation_default.

Definition validate_against (o : Outcome) (snapshot : PolicySnapshot) (input : KernelInput)
    (decision : KernelDecision) : result OutcomeError unit :=
  _ ← Outcome_validate o;
  match disagreement (oc_identity o) (DecisionIdentity_of snapshot input decision) with
  | Some field => Err (IdentityMismatch field)
  | None =>
      if is_rejected decision && negb (bool_decide (oc_disposition o = Abandoned)) then Err ActedOnRejection
      else if bool_decide (sl_strategy (oc_selection o) = MaximiseUtility)
              && negb (sl_acted_model_id (oc_selection o) =? kd_selected_model_id decision)
      then Err (ActedModelNotSelected (sl_acted_model_id (oc_selection o)) (kd_selected_model_id decision))
      else if negb (is_rejected decision)
              && negb (existsb (fun m => km_model_id m =? sl_acted_model_id (oc_selection o))
                         (ps_models snapshot))
      then Err (ActedModelNotInCatalog (sl_acted_model_id (oc_selection o)))
      else Ok tt
  end.

Definition follows (o : Outcome) (decision : KernelDecision) : bool :=
  bool_decide (di_decision_digest (oc_identity o) = decision_digest decision)
  && (di_request_sequence (oc_identity o) =? kd_request_sequence decision).

(** ** Digests *)

Definition identity_message (identity : DecisionIdentity) : list Z :=
  IDENTITY_DIGEST_TAG ++ di_policy_digest identity ++ di_input_digest identity
  ++ di_decision_digest identity ++ le_bytes 8 (di_request_sequence identity).
Definition identity_digest (identity : DecisionIdentity) : list Z := sha256 (identity_message identity).

(** A presence byte, then the value on [n] bytes. *)
Definition opt_bytes (n : nat) (o : option Z) : list Z :=
  match o with Some v => 1 :: le_bytes n v | None => [0] end.

Definition selection_message (selection : Selection) : list Z :=
  SELECTION_DIGEST_TAG ++ le_bytes 1 (SelectionStrategy_repr (sl_strategy selection))
  ++ le_bytes 4 (sl_acted_model_id selection) ++ opt_bytes 2 (sl_propensity_bps selection).
Definition selection_digest (selection : Selection) : list Z := sha256 (selection_message selection).

Definition outcome_message (outcome : Outcome) : list Z :=
  let observation := oc_observation outcome in
  OUTCOME_DIGEST_TAG ++ identity_digest (oc_identity outcome)
  ++ le_bytes 8 (oc_observed_at_micros outcome) ++ le_bytes 4 (oc_revision outcome)
  ++ selection_digest (oc_selection outcome) ++ le_bytes 1 (Disposition_repr (oc_disposition outcome))
  ++ opt_bytes 8 (ob_realized_cost_microunits observation)
  ++ opt_bytes 4 (ob_realized_latency_ms observation)
  ++ opt_bytes 1 (Z.b2z <$> ob_succeeded observation).
Definition outcome_digest (outcome : Outcome) : list Z := sha256 (outcome_message outcome).

(** ** What the checks accept *)

(** A selection whose propensity matches its strategy. *)
Definition selection_ok (s : Selection) : Prop :=
  match sl_strategy s with
  | MaximiseUtility => sl_propensity_bps s = Some FULL_PROBABILITY_BPS
  | Explore => exists bps, sl_propensity_bps s = Some bps /\ bps <> 0 /\ bps <= FULL_PROBABILITY_BPS
  | Human => sl_propensity_bps s = None
  end.

Definition observation_ok (d : Disposition) (o : Observation) : Prop :=
  match d with
  | Applied => o <> Observation_default
  | Abandoned => o = Observation_default
  | InFlight => ob_succeeded o = None
  end.

Lemma Selection_validate_ok s : Selection_validate s = Ok tt <-> selection_ok s.
Proof.
  unfold Selection_validate, selection_ok, FULL_PROBABILITY_BPS.
  destruct s as [[] id [bps|]]; simpl; try (split; [done|naive_solver]); try naive_solver.
  - destruct (Z.eqb_spec bps 0); simpl; [split; [done|intros [=]; lia]|].
    destruct (Z.ltb_spec 10000 bps); simpl; [split; [done|intros [=]; lia]|].
    destruct (Z.eqb_spec bps 10000); simpl; split; try done; congruence.
  - destruct (Z.eqb_spec bps 0); simpl; [split; [done|naive_solver]|].
    destruct (Z.ltb_spec 10000 bps); simpl; [split; [done|]; intros (? & [= <-] & ?); lia|].
    split; [|done]. intros _. by exists bps.
Qed.

Lemma Outcome_validate_ok o :
  Outcome_validate o = Ok tt <->
  selection_ok (oc_selection o) /\ observation_ok (oc_disposition o) (oc_observation o).
Proof.
  rewrite <- Selection_validate_ok. unfold Outcome_validate, observation_ok.
  destruct (Selection_validate (oc_selection o)) as [[]|]; simpl; [|naive_solver].
  destruct (oc_disposition o), (oc_observation o) as [[] [] []]; simpl; unfold Observation_default; naive_solver.
Qed.

Lemma disagreement_none a b : disagreement a b = None <-> a = b.
Proof.
  unfold disagreement. destruct a as [a1 a2 a3 a4], b as [b1 b2 b3 b4]; simpl.
  repeat case_bool_decide; simpl; try naive_solver.
  destruct (Z.eqb_spec a4 b4); simpl; naive_solver.
Qed.

(** ** Binding *)

Definition identity_typed (x : DecisionIdentity) : Prop :=
  length (di_policy_digest x) = 32%nat /\ length (di_input_digest x) = 32%nat /\
  length (di_decision_digest x) = 32%nat /\ is_u 64 (di_request_sequence x).
Definition opt_typed (w : Z) (o : option Z) : Prop := match o with Some v => is_u w v | None => True end.
Definition selection_typed (s : Selection) : Prop :=
  is_u 32 (sl_acted_model_id s) /\ opt_typed 16 (sl_propensity_bps s).
Definition outcome_typed (o : Outcome) : Prop :=
  identity_typed (oc_identity o) /\ is_u 64 (oc_observed_at_micros o) /\ is_u 32 (oc_revision o) /\
  selection_typed (oc_selection o) /\ opt_typed 64 (ob_realized_cost_microunits (oc_observation o)) /\
  opt_typed 32 (ob_realized_latency_ms (oc_observation o)).

#[export] Instance opt_typed_dec w o : Decision (opt_typed w o).
Proof. destruct o; simpl; apply _. Defined.
#[export] Instance outcome_typed_dec o : Decision (outcome_typed o).
Proof. unfold outcome_typed, identity_typed, selection_typed. apply _. Defined.

(** A presence byte makes optional fields self-delimiting. *)
Lemma opt_bytes_inj n o o' r r' :
  opt_typed (8 * Z.of_nat n) o -> opt_typed (8 * Z.of_nat n) o' ->
  opt_bytes n o ++ r = opt_bytes n o' ++ r' -> o = o' /\ r = r'.
Proof.
  intros H H' E. destruct o as [v|], o' as [v'|]; simpl in *; try done; [|by injection E].
  injection E as E. apply app_inj_len in E as [E ->]; [|by rewrite !length_le_bytes].
  by rewrite (le_bytes_inj_u n v v').
Qed.

Lemma identity_message_inj a b :
  identity_typed a -> identity_typed b -> identity_message a = identity_message b -> a = b.
Proof.
  intros (A1 & A2 & A3 & A4) (B1 & B2 & B3 & B4) E. unfold identity_message in E.
  apply app_inv_head in E. apply app_inj_len in E as [E1 E]; [|congruence].
  apply app_inj_len in E as [E2 E]; [|congruence]. apply app_inj_len in E as [E3 E]; [|congruence].
  apply (le_bytes_inj_u 8) in E; [|done|done]. destruct a, b; simpl in *. congruence.
Qed.

Lemma selection_message_inj a b :
  selection_typed a -> selection_typed b -> selection_message a = selection_message b -> a = b.
Proof.
  intros (A1 & A2) (B1 & B2) E. unfold selection_message in E. apply app_inv_head in E.
  apply app_inj_len in E as [E1 E]; [|by rewrite !length_le_bytes].
  apply app_inj_len in E as [E2 E]; [|by rewrite !length_le_bytes].
  apply (le_bytes_inj_u 4) in E2; [|done|done].
  rewrite <- (app_nil_r (opt_bytes 2 (sl_propensity_bps a))) in E.
  rewrite <- (app_nil_r (opt_bytes 2 (sl_propensity_bps b))) in E.
  apply opt_bytes_inj in E as [E3 _]; [|done|done].
  assert (sl_strategy a = sl_strategy b) by (destruct (sl_strategy a), (sl_strategy b); done).
  destruct a, b; simpl in *. congruence.
Qed.

(** The message determines everything but the two inner digests' preimages. *)
Lemma outcome_message_inj a b :
  outcome_typed a -> outcome_typed b -> outcome_message a = outcome_message b ->
  identity_digest (oc_identity a) = identity_digest (oc_identity b) /\
  selection_digest (oc_selection a) = selection_digest (oc_selection b) /\
  oc_observed_at_micros a = oc_observed_at_micros b /\ oc_revision a = oc_revision b /\
  oc_disposition a = oc_disposition b /\ oc_observation a = oc_observation b.
Proof.
  intros (_ & A1 & A2 & _ & A3 & A4) (_ & B1 & B2 & _ & B3 & B4) E. unfold outcome_message in E. cbv zeta in E.
  apply app_inv_head in E.
  apply app_inj_len in E as [E1 E]; [|unfold identity_digest; by rewrite !sha256_length].
  apply app_inj_len in E as [E2 E]; [|by rewrite !length_le_bytes].
  apply app_inj_len in E as [E3 E]; [|by rewrite !length_le_bytes].
  apply app_inj_len in E as [E4 E]; [|unfold selection_digest; by rewrite !sha256_length].
  apply app_inj_len in E as [E5 E]; [|by rewrite !length_le_bytes].
  apply (le_bytes_inj_u 8) in E2; [|done|done]. apply (le_bytes_inj_u 4) in E3; [|done|done].
  apply opt_bytes_inj in E as [E6 E]; [|done|done]. apply opt_bytes_inj in E as [E7 E]; [|done|done].
  assert (oc_disposition a = oc_disposition b) by (destruct (oc_disposition a), (oc_disposition b); done).
  assert (ob_succeeded (oc_observation a) = ob_succeeded (oc_observation b)).
  { destruct (ob_succeeded (oc_observation a)) as [[]|], (ob_succeeded (oc_observation b)) as [[]|]; done. }
  split_and!; try done. destruct (oc_observation a), (oc_observation b); simpl in *. congruence.
Qed.

End outcomes.

(** [validate_against] accepts exactly the records whose propensity
    fits the strategy, whose observation fits the disposition, whose identity
    is that of the decision at hand, that do not act on a rejection, that
    acted on the selected model when they claim the kernel's ranking, and
    that acted on a model of the catalog otherwise. *)
Theorem validate_against_exact (HF : HashFunctions) o p i d :
  validate_against o p i d = Ok tt <->
  selection_ok (oc_selection o) /\ observation_ok (oc_disposition o) (oc_observation o) /\
  oc_identity o = DecisionIdentity_of p i d /\
  (is_rejected d = true -> oc_disposition o = Abandoned) /\
  (sl_strategy (oc_selection o) = MaximiseUtility ->
     sl_acted_model_id (oc_selection o) = kd_selected_model_id d) /\
  (is_rejected d = false ->
     exists m, m ∈ ps_models p /\ km_model_id m = sl_acted_model_id (oc_selection o)).
Proof.
  rewrite <- (disagreement_none (oc_identity o)). rewrite (and_assoc (selection_ok _)), <- Outcome_validate_ok.
  unfold validate_against. destruct (Outcome_validate o) as [[]|]; simpl; [|naive_solver].
  destruct (disagreement _ _); [naive_solver|].
  assert (existsb (fun m => km_model_id m =? sl_acted_model_id (oc_selection o)) (ps_models p) = true <->
    exists m, m ∈ ps_models p /\ km_model_id m = sl_acted_model_id (oc_selection o)) as He.
  { rewrite existsb_exists. setoid_rewrite list_elem_of_In. by setoid_rewrite Z.eqb_eq. }
  destruct (existsb _ _), (is_rejected d), (Z.eqb_spec (sl_acted_model_id (oc_selection o)) (kd_selected_model_id d));
    repeat case_bool_decide; simpl; naive_solver.
Qed.

(** [outcome_digest] binds the whole record: two well-typed records
    with the same digest are equal, provided SHA-256 has no collision among
    the messages hashed for them (outcome, identity and selection). *)
Theorem outcome_digest_binds (HF : HashFunctions) a b
    (Ha : outcome_typed a) (Hb : outcome_typed b)
    (Hcf : collision_free sha256
       [outcome_message a; outcome_message b; identity_message (oc_identity a);
        identity_message (oc_identity b); selection_message (oc_selection a);
        selection_message (oc_selection b)])
    (E : outcome_digest a = outcome_digest b) : a = b.
Proof.
  apply Hcf in E; [|set_solver..]. apply outcome_message_inj in E as (E1 & E2 & E3 & E4 & E5 & E6); [|done..].
  apply Hcf in E1; [|set_solver..]. apply Hcf in E2; [|set_solver..].
  apply identity_message_inj in E1; [|apply Ha|apply Hb].
  apply selection_message_inj in E2; [|apply Ha|apply Hb].
  destruct a, b; simpl in *. congruence.
Qed.

Definition sample_outcome : Outcome :=
  @Outcome_applied toy_hash sample_policy sample_input (prescribe sample_policy sample_input) 1700000000
    (mkObservation (Some 9800) None (Some true)).

Lemma outcome_digest_binds_witness : sample_outcome = sample_outcome.
Proof.
  apply (outcome_digest_binds toy_hash); [| |by_compute|reflexivity]; by_compute.
Defined.
