(* ===== verification/Exploration.v ===== *)
(** * Keyed exploration ([src/exploration.rs])

    The kernel decides; a keyed draw then keeps the winner or takes one of the
    near-best candidates. The rejection sampling loop gets fuel: it stops at
    the first kept word, and a model run that exhausts its fuel is [None]. *)

From Stdlib Require Import String.
From S2P Require Import Prelude Bytes Kernel KernelPricing KernelRank KernelExplain Digest Outcome.
#[local] Open Scope Z_scope.

Definition EXPLORATION_TAG : list Z := string_bytes "calyexp1".
Definition MIN_EXPLORATION_KEY_BYTES : Z := 32.

Record ExplorationConfig := mkExplorationConfig {
  xc_rate_bps : Z;
  xc_window_microunits : Z
}.
#[export] Instance ExplorationConfig_eq_dec : EqDecision ExplorationConfig.
Proof. solve_decision. Defined.

Inductive ExplorationError :=
| ShortKey (len : Z)
| RateOutOfRange (rate : Z)
| ExplorationMismatch.

Record ExplorationRecord := mkExplorationRecord {
  er_decision : KernelDecision;
  er_config : ExplorationConfig;
  er_acted_model_id : Z;
  er_explored : bool;
  er_window_size : Z;
  er_propensity_numerator : Z;
  er_propensity_denominator : Z
}.
#[export] Instance ExplorationRecord_eq_dec : EqDecision ExplorationRecord.
Proof. solve_decision. Defined.

(** [ope::Propensity]. *)
Record Propensity := mkPropensity { pp_numerator : Z; pp_denominator : Z }.
Definition Propensity_new (numerator denominator : Z) : option Propensity :=
  if (0 <? numerator) && (numerator <=? denominator)
  then Some (mkPropensity numerator denominator) else None.

Definition ExplorationRecord_propensity (r : ExplorationRecord) : option Propensity :=
  Propensity_new (er_propensity_numerator r) (er_propensity_denominator r).

Definition propensity_bps (r : ExplorationRecord) : Z :=
  let bps :=
    (er_propensity_numerator r * BASIS_POINTS + er_propensity_denominator r / 2)
      / Z.max (er_propensity_denominator r) 1 in
  Z.max 1 (Z.min BASIS_POINTS bps).

Definition ExplorationRecord_selection (r : ExplorationRecord) : option Selection :=
  if negb (is_executable (er_decision r)) then None
  else
    Some (if er_explored r then Selection_explored (er_acted_model_id r) (propensity_bps r)
          else if er_propensity_numerator r =? er_propensity_denominator r
          then Selection_followed (er_decision r)
          else Selection_explored (er_acted_model_id r) (propensity_bps r)).

(** ** Rejection sampling *)

Definition ROLL : Z := 0.
Definition PICK : Z := 1.

Definition rejected_words (n : Z) : Z := (umax 64 mod n + 1) mod n.

Definition redrawn (n word : Z) : bool :=
  negb (rejected_words n =? 0) && (wrap_u 64 (- rejected_words n) <=? word).

Fixpoint uniform (fuel : nat) (n word i : Z) (next : Z -> Z) : option Z :=
  if redrawn n word then
    match fuel with
    | O => None
    | S fuel' => uniform fuel' n (next i) (add_u 32 i 1) next
    end
  else Some (word mod n).

(** ** Acting on the draw *)

(** The others in the window, in catalog order. *)
Definition window_others (e : Explanation) (floor : Z) : list Z :=
  omap (fun c =>
          if ce_model_id c =? kd_selected_model_id (ex_decision e) then None
          else match ce_verdict c with
               | Eligible t => if floor <=? ut_utility t then Some (ce_model_id c) else None
               | _ => None
               end) (ex_candidates e).

Definition act (others : list Z) (winner rate roll pick : Z) : Z * bool :=
  let k := Z.of_nat (length others) + 1 in
  let explore_now := (1 <? k) && (roll <? rate) in
  if explore_now && (0 <? pick) then (nth (Z.to_nat (pick - 1)) others 0, true) else (winner, false).

Definition propensity_num (k rate : Z) (explored : bool) : Z :=
  if k =? 1 then BASIS_POINTS * k
  else if explored then rate else (BASIS_POINTS - rate) * k + rate.

Section exploration.
Context {HF : HashFunctions}.

Definition draw_message (policy : PolicySnapshot) (input : KernelInput) : list Z :=
  EXPLORATION_TAG ++ policy_digest policy ++ input_digest input.

Definition draw (policy : PolicySnapshot) (input : KernelInput) (key : list Z) : list Z :=
  hmac_sha256 key (draw_message policy input).

Definition retry_word (policy : PolicySnapshot) (input : KernelInput) (key : list Z) (which i : Z) : Z :=
  be_value (take 8 (hmac_sha256 key (draw_message policy input ++ [which] ++ be_bytes 4 i))).

Definition draw_word (d : list Z) (at_ : nat) : Z := be_value (take 8 (drop at_ d)).

Definition ExplorationRecord_digest (r : ExplorationRecord) (policy : PolicySnapshot) (input : KernelInput)
    : list Z :=
  sha256 (EXPLORATION_TAG ++ policy_digest policy ++ input_digest input ++ decision_digest (er_decision r)
    ++ be_bytes 2 (xc_rate_bps (er_config r)) ++ be_bytes 8 (xc_window_microunits (er_config r))
    ++ be_bytes 4 (er_acted_model_id r) ++ [Z.b2z (er_explored r)] ++ be_bytes 4 (er_window_size r)
    ++ be_bytes 8 (er_propensity_numerator r) ++ be_bytes 8 (er_propensity_denominator r)).

Definition explore (fuel : nat) (policy : PolicySnapshot) (input : KernelInput)
    (config : ExplorationConfig) (key : list Z) : option (result ExplorationError ExplorationRecord) :=
  if Z.of_nat (length key) <? MIN_EXPLORATION_KEY_BYTES then Some (Err (ShortKey (Z.of_nat (length key))))
  else if BASIS_POINTS <? xc_rate_bps config then Some (Err (RateOutOfRange (xc_rate_bps config)))
  else
    let explanation := explain policy input in
    let decision := ex_decision explanation in
    if negb (is_executable decision) then
      Some (Ok (mkExplorationRecord decision config 0 false 0 1 1))
    else
      let best := kd_expected_utility_microunits decision in
      let floor := best - xc_window_microunits config in
      let others := window_others explanation floor in
      let k := Z.of_nat (length others) + 1 in
      let rate := xc_rate_bps config in
      let den := BASIS_POINTS * k in
      let d := draw policy input key in
      roll ← uniform fuel BASIS_POINTS (draw_word d 0) 0 (retry_word policy input key ROLL);
      pick ← uniform fuel k (draw_word d 8) 0 (retry_word policy input key PICK);
      let '(acted, explored) := act others (kd_selected_model_id decision) rate roll pick in
      Some (Ok (mkExplorationRecord decision config acted explored (wrap_u 32 k)
                  (propensity_num k rate explored) den)).

Definition verify (fuel : nat) (policy : PolicySnapshot) (input : KernelInput) (key : list Z)
    (record : ExplorationRecord) : option (result ExplorationError unit) :=
  replay ← explore fuel policy input (er_config record) key;
  Some (match replay with
        | Err e => Err e
        | Ok replay => if bool_decide (replay = record) then Ok tt else Err ExplorationMismatch
        end).

End exploration.
