(* ===== verification/ExplorationProps.v ===== *)
(** * Exploration is unbiased, exactly logged and stays in the window

    The rejection sampler, the count of draws behind a logged propensity, and
    what a record returned by [explore] says. *)

From Stdlib Require Import String.
From S2P Require Import Prelude Bytes Kernel KernelPricing KernelRank KernelProps KernelExplain Digest.
From S2P Require Import Outcome CounterfactualProps Exploration.
#[local] Open Scope Z_scope.

(** ** Rejection sampling *)

Lemma rejected_words_mod n : 0 < n -> rejected_words n = 2 ^ 64 mod n.
Proof.
  intros Hn. unfold rejected_words, umax. by rewrite Z.add_mod_idemp_l by lia.
Qed.

(** A word is redrawn exactly when it is among the top [2^64 mod n]. *)
Lemma redrawn_spec n w :
  0 < n <= umax 64 -> is_u 64 w -> redrawn n w = false <-> w < 2 ^ 64 - 2 ^ 64 mod n.
Proof.
  intros Hn Hw. unfold redrawn. rewrite rejected_words_mod by lia.
  pose proof (Z.mod_pos_bound (2 ^ 64) n ltac:(lia)) as Hr. set (r := 2 ^ 64 mod n) in *.
  assert (r <= 2 ^ 64) by (unfold r; apply Z.mod_le; lia).
  destruct (Z.eqb_spec r 0) as [->|Hr0]; simpl; [unfold is_u, umax in Hw; split; [lia|done]|].
  assert (wrap_u 64 (- r) = (2 ^ 64 - r) mod 2 ^ 64) as ->.
  { unfold wrap_u. replace (2 ^ 64 - r) with (- r + 1 * 2 ^ 64) by lia. by rewrite Z.mod_add. }
  unfold umax in Hn.
  rewrite Z.mod_small by lia. destruct (Z.leb_spec (2 ^ 64 - r) w); split; try done; lia.
Qed.

(** Word number [a] of the sequence: the first, then the retries. *)
Definition word_at (first : Z) (next : Z -> Z) (i : Z) (a : nat) : Z :=
  match a with O => first | S a' => next (Nat.iter a' (fun x => add_u 32 x 1) i) end.

Lemma word_at_S first next i a : word_at first next i (S a) = word_at (next i) next (add_u 32 i 1) a.
Proof.
  destruct a as [|a]; [done|]. unfold word_at. f_equal.
  change (add_u 32 i 1) with ((fun x => add_u 32 x 1) i). by rewrite <- Nat.iter_succ_r.
Qed.

(** The first word of a sequence that is kept decides the result. *)
Lemma uniform_first n next : forall j fuel first i,
  (j <= fuel)%nat -> (forall a, (a < j)%nat -> redrawn n (word_at first next i a) = true) ->
  redrawn n (word_at first next i j) = false ->
  uniform fuel n first i next = Some (word_at first next i j mod n).
Proof.
  induction j as [|j IH]; intros fuel word i Hf Hbad Hgood.
  - destruct fuel; cbn [uniform]; simpl in Hgood; by rewrite Hgood.
  - destruct fuel as [|fuel]; [lia|]. cbn [uniform]. pose proof (Hbad 0%nat ltac:(lia)) as H0.
    simpl in H0. rewrite H0, word_at_S. apply IH; [lia| |by rewrite <- (word_at_S word)].
    intros a Ha. rewrite <- (word_at_S word). apply Hbad. lia.
Qed.

(** [uniform] is unbiased. For every [n] in [1 .. u64::MAX], a word
    is kept exactly when it lies below the largest multiple of [n] that fits
    in 64 bits; the kept words with residue [r] are exactly [t * n + r] for
    [0 <= t < 2^64 / n], the same number for every [r]; and a draw whose word
    number [j] is the first one kept returns that word's residue, in range,
    whatever the rejected words before it were. *)
Theorem uniform_unbiased n r w first next j fuel i :
  0 < n <= umax 64 -> 0 <= r < n -> is_u 64 w ->
  (redrawn n w = false /\ w mod n = r <-> exists t, 0 <= t < 2 ^ 64 / n /\ w = t * n + r) /\
  (let word := word_at first next i in
   (j <= fuel)%nat -> (forall a, (a < j)%nat -> redrawn n (word a) = true) -> redrawn n (word j) = false ->
   uniform fuel n first i next = Some (word j mod n) /\ 0 <= word j mod n < n).
Proof.
  intros Hn Hr Hw. split.
  - rewrite redrawn_spec by (done || lia). pose proof (Z.div_mod (2 ^ 64) n).
    pose proof (Z.div_mod w n). pose proof (Z.mod_pos_bound w n). unfold is_u in Hw. split.
    + intros [Hk Hm]. exists (w / n). split; [|lia]. split; [apply Z.div_pos; lia|].
      apply Z.div_lt_upper_bound; lia.
    + intros (t & Ht & ->). assert ((t * n + r) mod n = r) as E.
      { rewrite Z.add_comm, Z.mod_add by lia. by apply Z.mod_small. }
      split; [nia|done].
  - intros word Hj Hbad Hgood. split; [|apply Z.mod_pos_bound; lia].
    by apply (uniform_first n next j fuel first i).
Qed.

Lemma uniform_unbiased_witness :
  (redrawn 10000 41 = false /\ 41 mod 10000 = 41 <-> exists t, 0 <= t < 2 ^ 64 / 10000 /\ 41 = t * 10000 + 41) /\
  uniform 3 10000 (umax 64) 0 (fun i => if i =? 0 then umax 64 else 41) = Some 41.
Proof.
  destruct (uniform_unbiased 10000 41 41 (umax 64) (fun i => if i =? 0 then umax 64 else 41) 2 3 0)
    as [H1 H2]; [by_compute|by_compute|by_compute|]. split; [exact H1|].
  apply H2; [lia| |by_compute]. intros [|[|a]] Ha; [by_compute|by_compute|lia].
Defined.

(** ** The propensity *)

Lemma count_list_prod {A B} (f : A * B -> bool) la lb :
  count f (list_prod la lb) = foldr Z.add 0 (map (fun a => count (fun b => f (a, b)) lb) la).
Proof.
  unfold count. induction la as [|a la IH]; simpl; [done|].
  rewrite filter_app, length_app, Nat2Z.inj_add, IH. f_equal. clear IH.
  induction lb as [|b lb IH]; simpl; [done|]. destruct (f (a, b)); simpl; lia.
Qed.

Lemma count_nodup (l : list Z) c : NoDup l -> c ∈ l -> count (Z.eqb c) l = 1.
Proof.
  intros Hnd. induction Hnd as [|x l Hx Hnd IH]; intros Hc; [by apply not_elem_of_nil in Hc|].
  unfold count in *. simpl. destruct (Z.eqb_spec c x) as [->|Hne].
  - simpl. assert (List.filter (Z.eqb x) l = []) as ->; [|done].
    clear -Hx. induction l as [|y l IH]; [done|]. simpl. destruct (Z.eqb_spec x y) as [->|].
    + exfalso. apply Hx. left.
    + apply IH. intros H. apply Hx. by right.
  - apply elem_of_cons in Hc as [|Hc]; [done|]. auto.
Qed.

Lemma count_map {A B} (f : B -> bool) (g : A -> B) l : count f (map g l) = count (fun x => f (g x)) l.
Proof. unfold count. induction l as [|x l IH]; simpl; [done|]. destruct (f (g x)); simpl; lia. Qed.

Lemma count_true {A} (l : list A) : count (fun _ => true) l = Z.of_nat (length l).
Proof. unfold count. f_equal. induction l; simpl; auto. Qed.

Lemma count_ext {A} (f g : A -> bool) l : (forall x, x ∈ l -> f x = g x) -> count f l = count g l.
Proof.
  intros H. unfold count. do 2 f_equal. induction l as [|x l IH]; simpl; [done|].
  rewrite (H x) by left. rewrite IH; [done|]. intros y Hy. apply H. by right.
Qed.

(** The choice as a function of the two rolls. *)
Lemma act_nth others winner rate roll pick :
  0 <= pick < Z.of_nat (length others) + 1 ->
  fst (act others winner rate roll pick) =
    if roll <? rate then nth (Z.to_nat pick) (winner :: others) 0 else winner.
Proof.
  intros Hp. unfold act. destruct (Z.ltb_spec 1 (Z.of_nat (length others) + 1)); simpl.
  - destruct (roll <? rate); simpl; [|done]. destruct (Z.ltb_spec 0 pick).
    + destruct (Z.to_nat pick) eqn:E; [lia|]. simpl. f_equal. lia.
    + by replace pick with 0 by lia.
  - replace pick with 0 by lia. by destruct (roll <? rate).
Qed.

Lemma nth_seqZ (l : list Z) : map (fun p => nth (Z.to_nat p) l 0) (seqZ 0 (Z.of_nat (length l))) = l.
Proof.
  apply list_eq. intros i. change (map ?f ?x) with (f <$> x). rewrite list_lookup_fmap.
  destruct (Nat.lt_ge_cases i (length l)) as [Hi|Hi].
  - rewrite lookup_seqZ_lt by lia. simpl.
    replace (Z.to_nat (0 + Z.of_nat i)) with i by lia. destruct (lookup_lt_is_Some_2 l i Hi) as [x Hx].
    rewrite Hx. f_equal. by apply nth_lookup_Some.
  - rewrite lookup_seqZ_ge by lia. simpl. symmetry. by apply lookup_ge_None.
Qed.

Lemma sum_threshold rate a b n :
  0 <= rate <= n ->
  foldr Z.add 0 (map (fun roll => if roll <? rate then a else b) (seqZ 0 n)) = rate * a + (n - rate) * b.
Proof.
  intros Hr. replace n with (rate + (n - rate)) at 1 by lia. rewrite seqZ_app, map_app by lia.
  assert (forall (l : list Z) c f, (forall x, x ∈ l -> f x = c) ->
    foldr Z.add 0 (map f l) = Z.of_nat (length l) * c) as Hc.
  { intros l c f. induction l as [|x l IH]; intros H; [done|]. cbn [map foldr length].
    rewrite (H x) by left. rewrite IH by (intros y Hy; apply H; by right). lia. }
  rewrite foldr_app. rewrite (Hc (seqZ (0 + rate) (n - rate)) b).
  - assert (forall (l : list Z) s, foldr Z.add s l = foldr Z.add 0 l + s) as Hs.
    { induction l as [|x l IH]; intros s; simpl; [done|]. rewrite IH. lia. }
    rewrite Hs, (Hc (seqZ 0 rate) a), !length_seqZ; [by rewrite !Z2Nat.id by lia|].
    intros x Hx%elem_of_seqZ. by destruct (Z.ltb_spec x rate); [|lia].
  - intros x Hx%elem_of_seqZ. by destruct (Z.ltb_spec x rate); [lia|].
Qed.

(** How many of the [10000 * k] equally likely pairs act on [c]. *)
Definition draws_for (others : list Z) (winner rate c : Z) : Z :=
  count (fun rp : Z * Z => Z.eqb c (fst (act others winner rate (fst rp) (snd rp))))
    (list_prod (seqZ 0 BASIS_POINTS) (seqZ 0 (Z.of_nat (length others) + 1))).

Lemma draws_for_spec others winner rate c :
  0 <= rate <= BASIS_POINTS -> NoDup (winner :: others) -> c ∈ winner :: others ->
  draws_for others winner rate c =
    rate + (BASIS_POINTS - rate) * (if c =? winner then Z.of_nat (length others) + 1 else 0).
Proof.
  intros Hr Hnd Hc. unfold draws_for. rewrite count_list_prod. simpl fst. simpl snd.
  transitivity (foldr Z.add 0 (map (fun roll => if roll <? rate then 1
    else (if c =? winner then Z.of_nat (length others) + 1 else 0)) (seqZ 0 BASIS_POINTS))).
  2:{ rewrite sum_threshold by done. lia. }
  f_equal. apply map_ext_in. intros roll _.
  rewrite (count_ext _ (fun p => Z.eqb c (if roll <? rate then nth (Z.to_nat p) (winner :: others) 0 else winner))).
  2:{ intros pick Hp%elem_of_seqZ. by rewrite act_nth by lia. }
  destruct (roll <? rate).
  - rewrite <- (count_map (Z.eqb c) (fun p => nth (Z.to_nat p) (winner :: others) 0)).
    pose proof (nth_seqZ (winner :: others)) as E. cbn [length] in E.
    replace (Z.of_nat (S (length others))) with (Z.of_nat (length others) + 1) in E by lia.
    rewrite E. by apply count_nodup.
  - destruct (c =? winner).
    + rewrite count_true, length_seqZ. lia.
    + unfold count. clear. by induction (seqZ 0 _).
Qed.

Lemma act_member others winner rate roll pick :
  0 <= pick < Z.of_nat (length others) + 1 ->
  fst (act others winner rate roll pick) ∈ winner :: others /\
  (snd (act others winner rate roll pick) = true -> (0 < length others)%nat /\
     exists n, others !! n = Some (fst (act others winner rate roll pick))) /\
  (snd (act others winner rate roll pick) = false -> fst (act others winner rate roll pick) = winner).
Proof.
  intros Hp. unfold act. destruct (_ && (0 <? pick)) eqn:E; simpl.
  - apply andb_true_iff in E as [E1 E2%Z.ltb_lt]. apply andb_true_iff in E1 as [E1%Z.ltb_lt _].
    assert (exists x, others !! Z.to_nat (pick - 1) = Some x) as [x Hx].
    { apply lookup_lt_is_Some_2. lia. }
    rewrite (nth_lookup_Some _ _ _ _ Hx). split_and!; try done.
    + right. by eapply list_elem_of_lookup_2.
    + intros _. split; [lia|]. by exists (Z.to_nat (pick - 1)).
  - split_and!; [left|done|done].
Qed.

(** The recorded numerator counts the draws. *)
Lemma propensity_counts others winner rate roll pick :
  0 <= rate <= BASIS_POINTS -> NoDup (winner :: others) ->
  0 <= pick < Z.of_nat (length others) + 1 ->
  let k := Z.of_nat (length others) + 1 in
  let '(acted, explored) := act others winner rate roll pick in
  draws_for others winner rate acted = propensity_num k rate explored.
Proof.
  intros Hr Hnd Hp. cbv zeta. destruct (act_member others winner rate roll pick Hp) as (Hm & Ht & Hf).
  destruct (act others winner rate roll pick) as [acted explored]. simpl in Hm, Ht, Hf.
  rewrite draws_for_spec by done. unfold propensity_num.
  destruct explored.
  - destruct (Ht eq_refl) as [Hlen [n Hn]].
    destruct (Z.eqb_spec (Z.of_nat (length others) + 1) 1); [lia|].
    apply list.NoDup_cons in Hnd as [Hw _]. destruct (Z.eqb_spec acted winner) as [->|]; [|lia].
    exfalso. apply Hw. by eapply list_elem_of_lookup_2.
  - rewrite (Hf eq_refl), Z.eqb_refl. destruct (Z.eqb_spec (Z.of_nat (length others) + 1) 1); lia.
Qed.

(** The logged propensity is exact. With distinct candidates and a
    rate of at most 10000 basis points, among the [10000 * k] equally likely
    pairs of a roll and a pick, exactly [propensity_num] act on the candidate
    that was acted on, for every outcome of the draw: the winner and every
    other candidate of the window get the fraction that is recorded. *)
Theorem propensity_exact others winner rate roll pick :
  0 <= rate <= BASIS_POINTS -> NoDup (winner :: others) ->
  0 <= pick < Z.of_nat (length others) + 1 ->
  let k := Z.of_nat (length others) + 1 in
  let '(acted, explored) := act others winner rate roll pick in
  draws_for others winner rate acted = propensity_num k rate explored.
Proof. apply propensity_counts. Qed.

Lemma propensity_exact_witness :
  act [2; 3] 1 200 150 2 = (3, true) /\ draws_for [2; 3] 1 200 3 = propensity_num 3 200 true.
Proof.
  split; [by_compute|].
  exact (propensity_exact [2; 3] 1 200 150 2 ltac:(by_compute) ltac:(by_compute) ltac:(by_compute)).
Defined.

(** ** The window *)

Lemma uniform_range fuel n : 0 < n -> forall word i next v, uniform fuel n word i next = Some v -> 0 <= v < n.
Proof.
  intros Hn. induction fuel as [|fuel IH]; intros word i next v; cbn [uniform]; destruct (redrawn n word); try done.
  - intros [= <-]. by apply Z.mod_pos_bound.
  - apply IH.
  - intros [= <-]. by apply Z.mod_pos_bound.
Qed.

Section window.
Context (p : PolicySnapshot) (i : KernelInput) (floor : Z).
Context (Hp : policy_wf p) (Hi : input_typed i) (Hr : request_refusal p i = None).

Lemma window_others_elem c :
  c ∈ window_others (explain p i) floor ->
  c <> kd_selected_model_id (prescribe p i) /\
  exists m, m ∈ ps_models p /\ km_model_id m = c /\ admissible p i m = true /\ floor <= exact_utility p i m.
Proof using Hp Hi Hr.
  unfold window_others. rewrite explain_candidates by done. rewrite list_elem_of_omap.
  intros (x & Hx & Hc). apply list_elem_of_fmap in Hx as ([k m] & -> & Hin). simpl in Hc.
  assert (ex_decision (explain p i) = prescribe p i) as Ed by (unfold explain; by destruct (kd_reason _)).
  rewrite Ed in Hc. destruct (Z.eqb_spec (km_model_id m) (kd_selected_model_id (prescribe p i))); [done|].
  destruct (exact_verdict p i m) as [| | |t] eqn:Ev; try done.
  destruct (Z.leb_spec floor (ut_utility t)) as [Hf|]; [|done]. injection Hc as <-. split; [done|].
  exists m. apply elem_of_enumerate in Hin as [_ Hl]. split_and!; try done.
  - by eapply list_elem_of_lookup_2.
  - rewrite <- exact_verdict_eligible. by rewrite Ev.
  - apply exact_verdict_terms in Ev. by subst t.
Qed.

Lemma window_others_nodup :
  NoDup (map km_model_id (ps_models p)) -> NoDup (window_others (explain p i) floor).
Proof using Hp Hi Hr.
  intros Hnd. unfold window_others. rewrite explain_candidates by done.
  assert (forall (l : list CandidateExplanation) f,
    (forall c x, f c = Some x -> x = ce_model_id c) -> NoDup (map ce_model_id l) -> NoDup (omap f l)) as H.
  { intros l f Hf. induction l as [|c l IH]; intros Hl; [constructor|]. simpl in Hl |- *.
    apply list.NoDup_cons in Hl as [Hc Hl]. cbn [omap list_omap]. destruct (f c) as [x|] eqn:E; [|auto].
    apply list.NoDup_cons. split; [|auto]. intros (c' & Hc' & E')%list_elem_of_omap.
    apply Hc. rewrite <- (Hf c x E), (Hf c' x E'). by apply list_elem_of_fmap_2. }
  apply H.
  - intros c x. destruct (_ =? _); [done|]. destruct (ce_verdict c); try done.
    destruct (_ <=? _); [|done]. congruence.
  - rewrite map_map. simpl. rewrite <- (map_map snd km_model_id), enumerate_snd. done.
Qed.

End window.

Lemma explain_decision p i : ex_decision (explain p i) = prescribe p i.
Proof. unfold explain, prescribe. by destruct (kd_reason _). Qed.

Lemma executable_not_refused p i : is_executable (prescribe p i) = true -> request_refusal p i = None.
Proof.
  unfold prescribe, prescribe_inner. by destruct (request_refusal p i).
Qed.

(** The winner is admissible and carries the decision's utility. *)
Lemma winner_admissible p i :
  policy_wf p -> input_typed i -> is_executable (prescribe p i) = true ->
  exists m, m ∈ ps_models p /\ km_model_id m = kd_selected_model_id (prescribe p i) /\
    admissible p i m = true /\ kd_expected_utility_microunits (prescribe p i) = exact_utility p i m.
Proof.
  intros Hp Hi Hex. pose proof (executable_not_refused p i Hex) as Hr.
  pose proof (prescribe_refines p i Hp Hi Hr) as (_&_&_&_&_&[(_ & Ha & _)|(e & rest & [Hperm _] & _ & Hid & _ & _ & Hu & _)]).
  { unfold is_executable in Hex. by rewrite Ha in Hex. }
  assert (e ∈ admissible_entries p i) as He by (rewrite Hperm; left).
  apply admissible_entries_pos in He as (_ & Hl & Hadm). exists (snd e).
  split_and!; try done. by eapply list_elem_of_lookup_2.
Qed.

(** What a record of an executable decision must satisfy. *)
Definition record_sound (p : PolicySnapshot) (i : KernelInput) (cfg : ExplorationConfig)
    (r : ExplorationRecord) : Prop :=
  let winner := kd_selected_model_id (prescribe p i) in
  let floor := kd_expected_utility_microunits (prescribe p i) - xc_window_microunits cfg in
  exists others,
    (forall c, c ∈ winner :: others ->
       exists m, m ∈ ps_models p /\ km_model_id m = c /\ admissible p i m = true /\
                 floor <= exact_utility p i m) /\
    NoDup (winner :: others) /\ er_acted_model_id r ∈ winner :: others /\
    (er_explored r = false <-> er_acted_model_id r = winner) /\
    er_propensity_numerator r = draws_for others winner (xc_rate_bps cfg) (er_acted_model_id r) /\
    er_propensity_denominator r = BASIS_POINTS * (Z.of_nat (length others) + 1) /\
    0 < er_propensity_numerator r <= er_propensity_denominator r.

Lemma draws_for_bounds others winner rate roll pick :
  0 <= rate <= BASIS_POINTS -> NoDup (winner :: others) -> 0 <= roll ->
  0 <= pick < Z.of_nat (length others) + 1 ->
  0 < draws_for others winner rate (fst (act others winner rate roll pick))
    <= BASIS_POINTS * (Z.of_nat (length others) + 1).
Proof.
  intros Hr Hnd Hroll Hp. destruct (act_member others winner rate roll pick Hp) as (Hm & Ht & Hf).
  rewrite draws_for_spec by done. rewrite (act_nth _ _ _ _ _ Hp).
  destruct (Z.ltb_spec roll rate).
  - unfold BASIS_POINTS in *. destruct (_ =? winner); nia.
  - rewrite Z.eqb_refl. unfold BASIS_POINTS in *. nia.
Qed.

(** Exploration never leaves the window. For a well-formed policy
    with distinct identifiers, whatever the key and hash function, a record
    [explore] returns carries the kernel's decision unchanged; when that
    selects nothing, nothing is acted on; otherwise the acted model is the
    winner or an admissible candidate whose exact utility is within the window
    of the winner's, [explored] says which, and the propensity is a fraction in
    (0, 1] whose numerator counts the draws that act on that model. *)
Theorem exploration_in_window (HF : HashFunctions) fuel p i cfg key r
    (Hp : policy_wf p) (Hi : input_typed i) (Hnd : NoDup (map km_model_id (ps_models p)))
    (Hw : 0 <= xc_window_microunits cfg) (Hrate : 0 <= xc_rate_bps cfg)
    (Hr : explore fuel p i cfg key = Some (Ok r)) :
  er_decision r = prescribe p i /\ er_config r = cfg /\
  (if is_executable (prescribe p i) then record_sound p i cfg r
   else er_acted_model_id r = 0 /\ er_explored r = false).
Proof.
  unfold explore in Hr. rewrite explain_decision in Hr.
  destruct (_ <? MIN_EXPLORATION_KEY_BYTES); [done|].
  destruct (Z.ltb_spec BASIS_POINTS (xc_rate_bps cfg)); [done|].
  destruct (is_executable (prescribe p i)) eqn:Hex; simpl in Hr; [|by injection Hr as <-].
  pose proof (executable_not_refused p i Hex) as Hnr. cbv zeta in Hr.
  set (floor := kd_expected_utility_microunits (prescribe p i) - xc_window_microunits cfg) in *.
  set (others := window_others (explain p i) floor) in *.
  destruct (uniform fuel BASIS_POINTS _ _ _) as [roll|] eqn:Eroll; simpl in Hr; [|done].
  destruct (uniform fuel (Z.of_nat (length others) + 1) _ _ _) as [pick|] eqn:Epick; simpl in Hr; [|done].
  apply uniform_range in Eroll; [|done]. apply uniform_range in Epick; [|lia].
  set (winner := kd_selected_model_id (prescribe p i)) in *.
  assert (NoDup (winner :: others)) as Hndo.
  { apply list.NoDup_cons. split; [|by apply window_others_nodup].
    intros H1. by apply (window_others_elem p i floor Hp Hi Hnr) in H1 as [? _]. }
  destruct (act_member others winner (xc_rate_bps cfg) roll pick Epick) as (Hm & Ht & Hf).
  pose proof (propensity_counts others winner (xc_rate_bps cfg) roll pick ltac:(lia) Hndo Epick) as Hcount.
  pose proof (draws_for_bounds others winner (xc_rate_bps cfg) roll pick ltac:(lia) Hndo ltac:(lia) Epick) as Hb.
  cbv zeta in Hcount. destruct (act others winner (xc_rate_bps cfg) roll pick) as [acted explored].
  simpl in Hm, Ht, Hf, Hb. injection Hr as <-. simpl. split; [done|]. split; [done|].
  exists others. fold floor winner. split_and!; try done.
  - intros c [->|Hc]%elem_of_cons.
    + destruct (winner_admissible p i Hp Hi Hex) as (m & ? & ? & ? & Hu). exists m. split_and!; try done.
      unfold floor. lia.
    + by apply (window_others_elem p i floor Hp Hi Hnr) in Hc as [_ ?].
  - simpl. split; [done|]. intros ->. destruct explored; [|done]. destruct (Ht eq_refl) as [_ [n Hn]].
    apply list.NoDup_cons in Hndo as [Hno _]. exfalso. apply Hno. by eapply list_elem_of_lookup_2.
  - simpl. rewrite <- Hcount. lia.
  - simpl. rewrite <- Hcount. lia.
Qed.

(** ** A sample catalog *)

Definition explore_model (id q : Z) : KernelModel := mkKernelModel id 0 q 10000 1 10 0 1 1000 1000.
Definition explore_policy (l : list KernelModel) : PolicySnapshot := new_unchecked 1 1 9000 0 0 0 l.
Definition explore_input : KernelInput :=
  mkKernelInput 1 1 100 100 10000000 1000000000 0 10000 0 0 0 ALL_PROVIDERS 0.
Definition explore_key : list Z := replicate 32 7.
Definition explore_config : ExplorationConfig := mkExplorationConfig 10000 1000000.
Definition catalog_123 : PolicySnapshot :=
  explore_policy [explore_model 1 9000; explore_model 2 8990; explore_model 3 8980].
Definition catalog_132 : PolicySnapshot :=
  explore_policy [explore_model 1 9000; explore_model 3 8980; explore_model 2 8990].

Lemma exploration_in_window_witness :
  exists r, @explore toy_hash 5 catalog_123 explore_input explore_config explore_key = Some (Ok r) /\
    er_decision r = prescribe catalog_123 explore_input /\
    record_sound catalog_123 explore_input explore_config r.
Proof.
  assert (policy_wf catalog_123) as H1 by by_compute.
  assert (input_typed explore_input) as H2 by by_compute.
  assert (NoDup (map km_model_id (ps_models catalog_123))) as H3 by by_compute.
  destruct (@explore toy_hash 5 catalog_123 explore_input explore_config explore_key) as [[r|err]|] eqn:E;
    [|vm_compute in E; discriminate E|vm_compute in E; discriminate E].
  exists r. split; [reflexivity|].
  destruct (exploration_in_window toy_hash 5 catalog_123 explore_input explore_config explore_key r
    H1 H2 H3 ltac:(by_compute) ltac:(by_compute) E) as (D & _ & S).
  split; [exact D|].
  replace (is_executable (prescribe catalog_123 explore_input)) with true in S by by_compute. exact S.
Defined.

(** ** Findings *)

(** The draw is fixed by the policy digest, which does not depend on the
    order of the catalog; the choice among the others is made by catalog
    position. Two listings of the same policy, with the same digest, the same
    request and the same key, act on different models. *)
Theorem exploration_depends_on_order :
  @policy_digest toy_hash catalog_123 = @policy_digest toy_hash catalog_132 /\
  @draw toy_hash catalog_123 explore_input explore_key = @draw toy_hash catalog_132 explore_input explore_key /\
  exists r r',
    @explore toy_hash 5 catalog_123 explore_input explore_config explore_key = Some (Ok r) /\
    @explore toy_hash 5 catalog_132 explore_input explore_config explore_key = Some (Ok r') /\
    er_acted_model_id r = 2 /\ er_acted_model_id r' = 3 /\
    @verify toy_hash 5 catalog_132 explore_input explore_key r = Some (Err ExplorationMismatch).
Proof.
  split; [by_compute|]. split; [by_compute|].
  destruct (@explore toy_hash 5 catalog_123 explore_input explore_config explore_key) as [[r|]|] eqn:E;
    [|vm_compute in E; discriminate E|vm_compute in E; discriminate E].
  destruct (@explore toy_hash 5 catalog_132 explore_input explore_config explore_key) as [[r'|]|] eqn:E';
    [|vm_compute in E'; discriminate E'|vm_compute in E'; discriminate E'].
  exists r, r'. vm_compute in E, E'. injection E as <-. injection E' as <-.
  split_and!; try reflexivity; by_compute.
Qed.

(** On a rejected request the record says probability one: [propensity] is
    [Some], although nothing was acted on. *)
Theorem rejected_propensity_is_one (HF : HashFunctions) fuel p i cfg key :
  MIN_EXPLORATION_KEY_BYTES <= Z.of_nat (length key) -> xc_rate_bps cfg <= BASIS_POINTS ->
  is_executable (prescribe p i) = false ->
  exists r, explore fuel p i cfg key = Some (Ok r) /\ er_acted_model_id r = 0 /\
    ExplorationRecord_propensity r = Some (mkPropensity 1 1).
Proof.
  intros Hk Hr Hex. unfold explore. rewrite explain_decision, Hex.
  destruct (Z.ltb_spec (Z.of_nat (length key)) MIN_EXPLORATION_KEY_BYTES); [lia|].
  destruct (Z.ltb_spec BASIS_POINTS (xc_rate_bps cfg)); [lia|]. by eexists.
Qed.
