(* ===== verification/Ope.v ===== *)
(** * Off-policy estimates ([src/ope.rs])

    Inverse propensity estimates of a target policy's mean reward. The code's
    [f64] is IEEE 754 binary64, here the Standard Library's [spec_float] at
    precision 53 and exponent bound 1024, with round-to-nearest-even; there is
    one NaN. [Propensity] itself is in [Exploration]. *)

From Stdlib Require Import String SpecFloat.
From S2P Require Import Prelude Kernel KernelProps Bytes Digest Outcome Exploration.
#[local] Open Scope Z_scope.

(** ** Binary64 *)

Abbreviation f64 := spec_float.
Abbreviation f64_add := (SFadd 53 1024).
Abbreviation f64_sub := (SFsub 53 1024).
Abbreviation f64_mul := (SFmul 53 1024).
Abbreviation f64_div := (SFdiv 53 1024).
Abbreviation f64_sqrt := (SFsqrt 53 1024).

(** [z as f64]. *)
Definition f64_of_u64 (z : Z) : f64 := binary_normalize 53 1024 z 0 false.
Definition f64_zero : f64 := S754_zero false.
Definition f64_one : f64 := S754_finite false 4503599627370496 (-52).
(** The literals [1.96] and [10.0]. *)
Definition f64_1_96 : f64 := S754_finite false 8827055269646172 (-52).
Definition f64_10 : f64 := S754_finite false 5629499534213120 (-49).

Definition is_nan (x : f64) : bool := match x with S754_nan => true | _ => false end.
Definition is_finite (x : f64) : bool := match x with S754_zero _ | S754_finite _ _ _ => true | _ => false end.
Definition f64_min (x y : f64) : f64 := if is_nan x then y else if is_nan y then x else if SFltb y x then y else x.
Definition f64_max (x y : f64) : f64 := if is_nan x then y else if is_nan y then x else if SFltb x y then y else x.

Example literals_rounded :
  f64_of_u64 1 = f64_one /\ f64_of_u64 10 = f64_10 /\ f64_div (f64_of_u64 196) (f64_of_u64 100) = f64_1_96.
Proof. vm_compute. done. Qed.

(** ** Propensities *)

Definition PROPENSITY_ONE : Propensity := mkPropensity 1 1.
Definition from_bps (bps : Z) : option Propensity := Propensity_new bps BASIS_POINTS.
Definition is_one (p : Propensity) : bool := pp_numerator p =? pp_denominator p.
Definition weight (p : Propensity) : f64 := f64_div (f64_of_u64 (pp_denominator p)) (f64_of_u64 (pp_numerator p)).

(** In [u128], where nothing wraps. *)
Definition to_bps (p : Propensity) : Z :=
  let bps := (pp_numerator p * BASIS_POINTS + pp_denominator p / 2) / pp_denominator p in
  Z.max 1 (Z.min BASIS_POINTS bps).

(** ** Estimates *)

Record LoggedChoice := mkLoggedChoice {
  lc_acted_model_id : Z;
  lc_propensity : Propensity;
  lc_reward : f64;
  lc_target_model_id : Z
}.

Inductive OpeError :=
| InvalidClip (clip : f64)
| NoUsableRecords
| NumericOverflow.

Record Estimate := mkEstimate {
  es_used : Z;
  es_excluded : Z;
  es_matched : Z;
  es_unsupported : Z;
  es_ips : f64;
  es_ips_ci95 : f64 * f64;
  es_snips : option f64;
  es_effective_sample_size : f64;
  es_max_weight : f64;
  es_clip : option f64
}.

Inductive OpeWarning := LowSampleSize | LowEffectiveSampleSize | UnsupportedPolicy | ClippedWeights.

Definition warnings (self : Estimate) : list OpeWarning :=
  (if es_used self <? 30 then [LowSampleSize] else []) ++
  (if SFltb (es_effective_sample_size self) f64_10 then [LowEffectiveSampleSize] else []) ++
  (if 0 <? es_unsupported self then [UnsupportedPolicy] else []) ++
  (match es_clip self with Some _ => [ClippedWeights] | None => [] end).

(** The variables of the loop. *)
Record Sums := mkSums {
  sm_used : Z;
  sm_excluded : Z;
  sm_matched : Z;
  sm_unsupported : Z;
  sm_terms : list f64;
  sm_w : f64;
  sm_w2 : f64;
  sm_wr : f64;
  sm_max_w : f64
}.
Definition Sums_start : Sums := mkSums 0 0 0 0 [] f64_zero f64_zero f64_zero f64_zero.

Definition bump_u64 (n : Z) : Z := wrap_u 64 (n + 1).

Definition same_choice (r : LoggedChoice) : bool :=
  negb (lc_target_model_id r =? 0) && (lc_target_model_id r =? lc_acted_model_id r).
Definition unsupported_choice (r : LoggedChoice) : bool :=
  negb (same_choice r) && is_one (lc_propensity r) && negb (lc_target_model_id r =? 0).

Definition clipped (clip : option f64) (w : f64) : f64 := match clip with Some c => f64_min w c | None => w end.

(** One record; [None] when the sums are no longer finite. *)
Definition add_record (clip : option f64) (s : Sums) (r : LoggedChoice) : option Sums :=
  if negb (is_finite (lc_reward r)) then
    Some (mkSums (sm_used s) (bump_u64 (sm_excluded s)) (sm_matched s) (sm_unsupported s) (sm_terms s) (sm_w s) (sm_w2 s)
            (sm_wr s) (sm_max_w s))
  else
    let w := clipped clip (if same_choice r then weight (lc_propensity r) else f64_zero) in
    let sum_w := f64_add (sm_w s) w in
    let sum_w2 := f64_add (sm_w2 s) (f64_mul w w) in
    let sum_wr := f64_add (sm_wr s) (f64_mul w (lc_reward r)) in
    if negb (is_finite sum_w) || negb (is_finite sum_w2) || negb (is_finite sum_wr) then None
    else Some (mkSums (bump_u64 (sm_used s)) (sm_excluded s)
                 (if same_choice r then bump_u64 (sm_matched s) else sm_matched s)
                 (if unsupported_choice r then bump_u64 (sm_unsupported s) else sm_unsupported s)
                 (sm_terms s ++ [f64_mul w (lc_reward r)]) sum_w sum_w2 sum_wr (f64_max (sm_max_w s) w)).

Fixpoint add_records (clip : option f64) (s : Sums) (records : list LoggedChoice) : option Sums :=
  match records with
  | [] => Some s
  | r :: records' => s ← add_record clip s r; add_records clip s records'
  end.

(** [terms.iter().map(..).sum()]. *)
Definition squared_deviations (ips : f64) (terms : list f64) : f64 :=
  fold_left (fun acc t => f64_add acc (f64_mul (f64_sub t ips) (f64_sub t ips))) terms (S754_zero true).

Definition clip_ok (clip : option f64) : bool :=
  match clip with Some c => is_finite c && SFltb f64_zero c | None => true end.

Definition estimate (records : list LoggedChoice) (clip : option f64) : result OpeError Estimate :=
  _ ← match clip with
      | Some c => refuse_if (negb (is_finite c && SFltb f64_zero c)) (InvalidClip c)
      | None => Ok tt
      end;
  s ← ok_or (add_records clip Sums_start records) NumericOverflow;
  _ ← refuse_if (sm_used s =? 0) NoUsableRecords;
  let n := f64_of_u64 (sm_used s) in
  let ips := f64_div (sm_wr s) n in
  let var :=
    if 1 <? sm_used s then f64_div (squared_deviations ips (sm_terms s)) (f64_sub n f64_one) else f64_zero in
  let half := f64_mul f64_1_96 (f64_sqrt (f64_div var n)) in
  let result := mkEstimate (sm_used s) (sm_excluded s) (sm_matched s) (sm_unsupported s) ips
    (f64_sub ips half, f64_add ips half)
    (if SFltb f64_zero (sm_w s) then Some (f64_div (sm_wr s) (sm_w s)) else None)
    (if SFltb f64_zero (sm_w2 s) then f64_div (f64_mul (sm_w s) (sm_w s)) (sm_w2 s) else f64_zero)
    (sm_max_w s) clip in
  if negb (is_finite var) || negb (is_finite (es_ips result)) || negb (is_finite (fst (es_ips_ci95 result)))
     || negb (is_finite (snd (es_ips_ci95 result))) || negb (is_finite (es_effective_sample_size result))
     || match es_snips result with Some value => negb (is_finite value) | None => false end
  then Err NumericOverflow
  else Ok result.

(** ** Estimates from logs *)

Definition target_choice (target : PolicySnapshot) (input : KernelInput) : Z :=
  let d := prescribe target input in if is_executable d then kd_selected_model_id d else 0.

Section evaluation.
Context {HF : HashFunctions}.

Definition usable (input : KernelInput) (outcome : Outcome) : bool :=
  match Outcome_validate outcome with Ok _ => true | Err _ => false end
  && bool_decide (di_input_digest (oc_identity outcome) = input_digest input).

Definition logged (target : PolicySnapshot) (input : KernelInput) (outcome : Outcome) (p : Propensity) (r : f64) : LoggedChoice :=
  mkLoggedChoice (sl_acted_model_id (oc_selection outcome)) p r (target_choice target input).

(** What [evaluate] makes of a pair; [None] is excluded. *)
Definition evaluate_record (target : PolicySnapshot) (reward : Outcome -> option f64) (log : KernelInput * Outcome)
    : option LoggedChoice :=
  let '(input, outcome) := log in
  match sl_propensity_bps (oc_selection outcome) ≫= from_bps, reward outcome with
  | Some p, Some r => if usable input outcome then Some (logged target input outcome p r) else None
  | _, _ => None
  end.

Definition evaluate_exact_record (target : PolicySnapshot) (reward : Outcome -> option f64)
    (log : KernelInput * Outcome * Propensity) : option LoggedChoice :=
  let '(input, outcome, propensity) := log in
  let recorded := sl_propensity_bps (oc_selection outcome) in
  match reward outcome with
  | Some r =>
      if negb (bool_decide (recorded = Some (to_bps propensity))) || negb (usable input outcome) then None
      else Some (logged target input outcome propensity r)
  | None => None
  end.

(** The records kept, and how many were not. *)
Fixpoint keep_records {A} (f : A -> option LoggedChoice) (logs : list A) (records : list LoggedChoice) (excluded : Z)
    : list LoggedChoice * Z :=
  match logs with
  | [] => (records, excluded)
  | log :: logs' =>
      match f log with
      | Some r => keep_records f logs' (records ++ [r]) excluded
      | None => keep_records f logs' records (bump_u64 excluded)
      end
  end.

Definition with_excluded (e : Estimate) (excluded : Z) : Estimate :=
  mkEstimate (es_used e) (wrap_u 64 (es_excluded e + excluded)) (es_matched e) (es_unsupported e) (es_ips e) (es_ips_ci95 e)
    (es_snips e) (es_effective_sample_size e) (es_max_weight e) (es_clip e).

Definition evaluate (target : PolicySnapshot) (logs : list (KernelInput * Outcome)) (reward : Outcome -> option f64)
    (clip : option f64) : result OpeError Estimate :=
  let '(records, excluded) := keep_records (evaluate_record target reward) logs [] 0 in
  e ← estimate records clip;
  Ok (with_excluded e excluded).

Definition evaluate_exact (target : PolicySnapshot) (logs : list (KernelInput * Outcome * Propensity))
    (reward : Outcome -> option f64) (clip : option f64) : result OpeError Estimate :=
  let '(records, excluded) := keep_records (evaluate_exact_record target reward) logs [] 0 in
  e ← estimate records clip;
  Ok (with_excluded e excluded).
End evaluation.

(** ** Theory

    Every record is counted once, no estimate carries an infinity or a NaN,
    and the two evaluators agree where the recorded probabilities are exact. *)

(** *** Finite arithmetic *)

Lemma add_finite a w : is_finite a = true -> is_finite (f64_add a w) = true -> is_finite w = true.
Proof. by destruct a, w. Qed.

Lemma max_finite a b : is_finite a = true -> is_finite b = true -> is_finite (f64_max a b) = true.
Proof. unfold f64_max. by destruct a, b; cbn [is_nan]; intros; try done; destruct (SFltb _ _). Qed.

Lemma bump_exact n : 0 <= n < umax 64 -> bump_u64 n = n + 1.
Proof. intros H. unfold bump_u64, wrap_u. apply Z.mod_small. unfold umax in H. lia. Qed.

Lemma count_cons {A} (f : A -> bool) x l : count f (x :: l) = (if f x then 1 else 0) + count f l.
Proof. unfold count. cbn [List.filter]. destruct (f x); cbn [length]; lia. Qed.

(** *** The loop *)

Definition scored (r : LoggedChoice) : bool := is_finite (lc_reward r).

Definition sums_finite (s : Sums) : Prop :=
  is_finite (sm_w s) = true /\ is_finite (sm_w2 s) = true /\ is_finite (sm_wr s) = true /\ is_finite (sm_max_w s) = true.

(** How far the counters are from their start. *)
Definition sums_counted (s s' : Sums) (records : list LoggedChoice) : Prop :=
  sm_used s' = sm_used s + count scored records /\
  sm_excluded s' = sm_excluded s + count (fun r => negb (scored r)) records /\
  sm_matched s' = sm_matched s + count (fun r => scored r && same_choice r) records /\
  sm_unsupported s' = sm_unsupported s + count (fun r => scored r && unsupported_choice r) records.

Definition sums_room (s : Sums) (n : Z) : Prop :=
  (0 <= sm_used s /\ sm_used s + n <= umax 64) /\ (0 <= sm_excluded s /\ sm_excluded s + n <= umax 64) /\
  (0 <= sm_matched s /\ sm_matched s + n <= umax 64) /\ (0 <= sm_unsupported s /\ sm_unsupported s + n <= umax 64).

Lemma add_record_step clip s r s' n : 0 <= n -> sums_room s (1 + n) -> sums_finite s -> add_record clip s r = Some s' ->
  sums_room s' n /\ sums_finite s' /\ sums_counted s s' [r].
Proof.
  intros Hn (R1 & R2 & R3 & R4) (F1 & F2 & F3 & F4). unfold add_record, sums_counted, sums_room, sums_finite. rewrite !count_cons. unfold scored.
  destruct (is_finite (lc_reward r)) eqn:Er; cbn [negb andb].
  - set (w := clipped clip _). set (x := f64_add (sm_w s) w). set (y := f64_add (sm_w2 s) _). set (z := f64_add (sm_wr s) _).
    destruct (is_finite x) eqn:Ex, (is_finite y) eqn:Ey, (is_finite z) eqn:Ez; cbn [negb orb]; try done. intros [= <-].
    cbn [sm_used sm_excluded sm_matched sm_unsupported sm_w sm_w2 sm_wr sm_max_w].
    rewrite (bump_exact (sm_used s)), (bump_exact (sm_matched s)), (bump_exact (sm_unsupported s)) by lia.
    assert (is_finite w = true) as Ew by (by apply (add_finite (sm_w s))).
    split_and!; try done; try lia; try (destruct (same_choice r); lia); try (destruct (unsupported_choice r); lia);
      try (unfold count; cbn; try destruct (same_choice r); try destruct (unsupported_choice r); lia). by apply max_finite.
  - intros [= <-]. cbn [sm_used sm_excluded sm_matched sm_unsupported sm_w sm_w2 sm_wr sm_max_w].
    rewrite (bump_exact (sm_excluded s)) by lia. unfold count. cbn. split_and!; try done; lia.
Qed.

Lemma add_records_counted clip records : forall s s', sums_room s (Z.of_nat (length records)) -> sums_finite s ->
  add_records clip s records = Some s' -> sums_finite s' /\ sums_counted s s' records.
Proof.
  induction records as [|r records IH]; intros s s' Hr Hf; cbn [add_records].
  - intros [= <-]. split; [done|]. unfold sums_counted, count. cbn. lia.
  - intros (s1 & H1 & H2)%bind_Some. cbn [length] in Hr.
    destruct (add_record_step clip s r s1 (Z.of_nat (length records))) as (R & F & (A1 & A2 & A3 & A4)); [lia| |done|done|].
    { by replace (1 + Z.of_nat (length records)) with (Z.of_nat (S (length records))) by lia. }
    destruct (IH _ _ R F H2) as (F' & (B1 & B2 & B3 & B4)). split; [done|]. unfold sums_counted. rewrite !count_cons in *. unfold count in *. cbn in *. lia.
Qed.

Lemma add_records_none clip records s : count scored records = 0 -> is_Some (add_records clip s records).
Proof.
  revert s. induction records as [|r records IH]; intros s; [by eexists|]. rewrite count_cons. unfold scored at 1.
  pose proof (count_le scored records). cbn [add_records]. unfold add_record. destruct (is_finite (lc_reward r)); [lia|].
  cbn [negb mbind option_bind]. intros Hc. apply IH. lia.
Qed.

Lemma Sums_start_room n : 0 <= n <= umax 64 -> sums_room Sums_start n.
Proof. intros. unfold sums_room, Sums_start. cbn. lia. Qed.

Lemma estimate_accounting records clip : Z.of_nat (length records) <= umax 64 ->
  match estimate records clip with
  | Ok e => clip_ok clip = true /\
      es_used e = count scored records /\ 1 <= es_used e /\ es_used e + es_excluded e = Z.of_nat (length records) /\
      es_matched e = count (fun r => scored r && same_choice r) records /\
      es_unsupported e = count (fun r => scored r && unsupported_choice r) records /\
      is_finite (es_ips e) = true /\ is_finite (fst (es_ips_ci95 e)) = true /\ is_finite (snd (es_ips_ci95 e)) = true /\
      (forall v, es_snips e = Some v -> is_finite v = true) /\ is_finite (es_effective_sample_size e) = true /\
      is_finite (es_max_weight e) = true /\ es_clip e = clip
  | Err (InvalidClip c) => clip = Some c /\ clip_ok clip = false
  | Err NoUsableRecords => clip_ok clip = true /\ count scored records = 0
  | Err NumericOverflow => clip_ok clip = true /\ 0 < count scored records
  end.
Proof.
  intros Hl. unfold estimate.
  assert ((_ ← match clip with Some c => refuse_if (negb (is_finite c && SFltb f64_zero c)) (InvalidClip c) | None => Ok tt end; Ok tt)
    = if clip_ok clip then Ok tt else Err (InvalidClip (default f64_zero clip))) as Ec.
  { destruct clip as [c|]; [|done]. unfold clip_ok. by destruct (is_finite c && SFltb f64_zero c). }
  destruct (match clip with Some c => refuse_if (negb (is_finite c && SFltb f64_zero c)) (InvalidClip c) | None => Ok tt end) as [[]|e] eqn:E0;
    cbn [mbind result_bind] in *.
  2: { destruct clip as [c|]; [|done]. unfold clip_ok in *. destruct (is_finite c && SFltb f64_zero c); [done|]. by injection E0 as <-. }
  destruct (clip_ok clip) eqn:Ek; [|done]. clear Ec E0.
  pose proof (count_le scored records) as Hc. destruct (add_records clip Sums_start records) as [s|] eqn:E; cbn [ok_or mbind result_bind].
  2: { split; [done|]. destruct (Z.eq_dec (count scored records) 0) as [Hz|]; [|lia]. destruct (add_records_none clip records Sums_start Hz) as [? ?]. congruence. }
  destruct (add_records_counted clip records Sums_start s) as ((F1 & F2 & F3 & F4) & (C1 & C2 & C3 & C4)); [apply Sums_start_room; lia|done|done|].
  cbn [Sums_start sm_used sm_excluded sm_matched sm_unsupported] in C1, C2, C3, C4. rewrite Z.add_0_l in C1, C2, C3, C4.
  destruct (Z.eqb_spec (sm_used s) 0); cbn [refuse_if mbind result_bind]; [split; [done|lia]|].
  match goal with |- context [if ?b then Err NumericOverflow else _] => destruct b eqn:Eb end; [split; [done|lia]|].
  apply orb_false_elim in Eb as [Eb E6]. apply orb_false_elim in Eb as [Eb E5%negb_false_iff]. apply orb_false_elim in Eb as [Eb E4%negb_false_iff].
  apply orb_false_elim in Eb as [Eb E3%negb_false_iff]. apply orb_false_elim in Eb as [_ E2%negb_false_iff].
  cbn [es_used es_excluded es_matched es_unsupported es_max_weight es_clip]. split_and!; try done; try lia.
  - rewrite C1, C2. unfold count. clear. induction records as [|r l IH]; [done|]. cbn [List.filter length].
    destruct (scored r); cbn [negb length]; lia.
  - intros v Hv. rewrite Hv in E6. by apply negb_false_iff.
Qed.

(** What an estimate accounts for. Every record is used or excluded, and
    exactly the records with a finite reward are used; the matched and
    unsupported counts are exact; no number in the result is infinite or NaN.
    A bad clip and a log without a usable record are refused as such. *)
Theorem estimate_accounts records clip : Z.of_nat (length records) <= umax 64 ->
  match estimate records clip with
  | Ok e => clip_ok clip = true /\
      es_used e = count scored records /\ 1 <= es_used e /\ es_used e + es_excluded e = Z.of_nat (length records) /\
      es_matched e = count (fun r => scored r && same_choice r) records /\
      es_unsupported e = count (fun r => scored r && unsupported_choice r) records /\
      is_finite (es_ips e) = true /\ is_finite (fst (es_ips_ci95 e)) = true /\ is_finite (snd (es_ips_ci95 e)) = true /\
      (forall v, es_snips e = Some v -> is_finite v = true) /\ is_finite (es_effective_sample_size e) = true /\
      is_finite (es_max_weight e) = true /\ es_clip e = clip
  | Err (InvalidClip c) => clip = Some c /\ clip_ok clip = false
  | Err NoUsableRecords => clip_ok clip = true /\ count scored records = 0
  | Err NumericOverflow => clip_ok clip = true /\ 0 < count scored records
  end.
Proof. apply estimate_accounting. Qed.

(** *** Evaluation from logs *)

Lemma keep_records_spec {A} (f : A -> option LoggedChoice) logs : forall records excluded,
  0 <= excluded -> excluded + Z.of_nat (length logs) <= umax 64 ->
  keep_records f logs records excluded =
    (records ++ omap f logs, excluded + Z.of_nat (length logs) - Z.of_nat (length (omap f logs))).
Proof.
  induction logs as [|log logs IH]; intros records excluded H0 H1; cbn [keep_records omap list_omap length] in *.
  - by rewrite app_nil_r, Z.add_0_r, Z.sub_0_r.
  - destruct (f log) as [r|].
    + rewrite IH by lia. rewrite <- app_assoc. cbn [app length]. f_equal. lia.
    + rewrite bump_exact by lia. rewrite IH by lia. f_equal. lia.
Qed.

Lemma omap_length {A B} (f : A -> option B) l : (length (omap f l) <= length l)%nat.
Proof. induction l as [|x l IH]; cbn; [done|]. destruct (f x); cbn; lia. Qed.

(** Whole basis points survive the record. *)
Lemma to_from_bps b p : from_bps b = Some p -> to_bps p = b /\ pp_denominator p = BASIS_POINTS /\ pp_numerator p = b.
Proof.
  unfold from_bps, Propensity_new. destruct (Z.ltb_spec 0 b) as [Hb|], (Z.leb_spec b BASIS_POINTS) as [Hm|]; cbn [andb]; try done.
  intros [= <-]. unfold to_bps. cbn [pp_numerator pp_denominator]. split; [|done]. unfold BASIS_POINTS in *.
  rewrite Z.div_add_l by lia. change (10000 / 2 / 10000) with 0. lia.
Qed.

(** [to_bps] is the probability to the nearest basis point, and never zero. *)
Lemma to_bps_nearest p : 0 < pp_numerator p <= pp_denominator p ->
  1 <= to_bps p <= BASIS_POINTS /\
  (1 < to_bps p -> Z.abs (2 * (to_bps p * pp_denominator p - pp_numerator p * BASIS_POINTS)) <= pp_denominator p).
Proof.
  intros Hp. unfold to_bps. set (n := pp_numerator p) in *. set (d := pp_denominator p) in *. unfold BASIS_POINTS.
  assert (n * 10000 + d / 2 < d * 10001) as Hle by (pose proof (Z.div_lt d 2 ltac:(lia) ltac:(lia)); lia).
  apply Z.div_lt_upper_bound in Hle as Hq; [|lia]. split; [lia|]. intros H1.
  set (q := (n * 10000 + d / 2) / d) in *. replace (Z.max 1 (Z.min 10000 q)) with q in * by lia.
  pose proof (Z.div_mod (n * 10000 + d / 2) d ltac:(lia)) as E. fold q in E. pose proof (Z.mod_pos_bound (n * 10000 + d / 2) d ltac:(lia)).
  pose proof (Z.div_mod d 2 ltac:(lia)). pose proof (Z.mod_pos_bound d 2 ltac:(lia)). nia.
Qed.

Section evaluation.
Context {HF : HashFunctions}.

(** Where every record's exact probability is what its outcome records in
    basis points, [evaluate_exact] and [evaluate] give the same answer; and
    the answer accounts for every log entry. *)
Theorem evaluators_agree target reward clip (logs : list (KernelInput * Outcome * Propensity)) :
  Z.of_nat (length logs) <= umax 64 ->
  Forall (fun '(_, outcome, p) => exists b, sl_propensity_bps (oc_selection outcome) = Some b /\ from_bps b = Some p) logs ->
  evaluate_exact target logs reward clip = evaluate target (map fst logs) reward clip /\
  forall e, evaluate_exact target logs reward clip = Ok e -> es_used e + es_excluded e = Z.of_nat (length logs).
Proof.
  intros Hl Hf.
  assert (omap (evaluate_exact_record target reward) logs = omap (evaluate_record target reward) (map fst logs)) as Eo.
  { clear Hl. induction Hf as [|[[input outcome] p] logs (b & Eb & Ep) _ IH]; [done|]. cbn [map fst omap list_omap].
    cbn [evaluate_exact_record evaluate_record]. rewrite Eb. cbn [mbind option_bind]. rewrite Ep.
    destruct (to_from_bps b p Ep) as [-> _]. rewrite bool_decide_true by done. cbn [negb orb].
    destruct (reward outcome); [destruct (usable input outcome)|]; cbn [negb]; by rewrite IH. }
  unfold evaluate_exact, evaluate. rewrite !keep_records_spec by (rewrite ?length_map; lia). rewrite length_map, Eo. split; [done|].
  intros e (e0 & He & [= <-])%bind_Ok. rewrite <- Eo in He |- *. cbn [app] in He.
  set (records := omap (evaluate_exact_record target reward) logs) in *.
  pose proof (omap_length (evaluate_exact_record target reward) logs : (length records <= _)%nat) as Ho.
  pose proof (estimate_accounting records clip ltac:(lia)) as Ha. rewrite He in Ha. destruct Ha as (_ & Hu & H1 & H2 & _).
  pose proof (count_le scored records). unfold with_excluded. cbn [es_used es_excluded].
  unfold wrap_u. rewrite Z.mod_small; [lia|]. unfold umax in Hl. lia.
Qed.
End evaluation.

(** *** Concrete estimates *)

Definition sample_choices : list LoggedChoice :=
  [mkLoggedChoice 1 (mkPropensity 1 2) (f64_of_u64 3) 1; mkLoggedChoice 2 PROPENSITY_ONE (f64_of_u64 5) 1;
   mkLoggedChoice 1 PROPENSITY_ONE S754_nan 1].

Example sample_estimate : (fun e => (es_used e, es_excluded e, es_matched e, es_unsupported e, es_ips e, es_snips e))
    <$> (match estimate sample_choices None with Ok e => Some e | Err _ => None end)
  = Some (2, 1, 1, 1, f64_of_u64 3, Some (f64_of_u64 3)).
Proof. vm_compute. reflexivity. Qed.

Lemma estimate_accounts_witness : exists e, estimate sample_choices None = Ok e /\ es_used e + es_excluded e = 3 /\ is_finite (es_ips e) = true.
Proof.
  pose proof (estimate_accounts sample_choices None ltac:(by_compute)) as H.
  destruct (estimate sample_choices None) as [e|e] eqn:E; [|exfalso; vm_compute in E; discriminate E].
  exists e. destruct H as (_ & _ & _ & H & _ & _ & Hf & _). split; [reflexivity|]. split; [exact H|exact Hf].
Defined.

Lemma evaluators_agree_witness :
  @evaluate_exact toy_hash sample_policy [(sample_input, sample_outcome, mkPropensity 10000 10000)] (fun _ => Some f64_one) None =
  @evaluate toy_hash sample_policy [(sample_input, sample_outcome)] (fun _ => Some f64_one) None.
Proof.
  apply (@evaluators_agree toy_hash sample_policy (fun _ => Some f64_one) None [(sample_input, sample_outcome, mkPropensity 10000 10000)]).
  - by_compute.
  - constructor; [|constructor]. exists 10000. split; by_compute.
Defined.

(** The same propensity in fewer units than basis points is recorded as one:
    the weight read back is then too small, as the documentation says. *)
Example rounded_up : to_bps (mkPropensity 1 220000) = 1 /\ weight (mkPropensity 1 220000) = f64_mul (f64_of_u64 22) (weight (mkPropensity 1 10000)).
Proof. vm_compute. done. Qed.
