(* ===== verification/Wal.v ===== *)
(** * The hash-chained write-ahead log ([src/wal.rs], [src/bounded_io.rs])

    The log file is a list of bytes. JSON encoding and decoding belong to
    [serde_json] and are an interface: [JsonReader] for entries whose data is
    left as raw text, [WalJson] for the type the log stores. The functions that
    take a path in the code take the file's contents here; opening files,
    advisory locks and [fsync] appear as the outcome the operating system
    gives. *)

From Stdlib Require Import String.
From S2P Require Import Prelude Bytes Text Kernel Digest Verify.
#[local] Open Scope Z_scope.

Definition MIN_HMAC_KEY_BYTES : Z := 32.
Definition MAX_WAL_ENTRY_BYTES : Z := 16 * 1024 * 1024.
Definition MAX_WAL_PAYLOAD_BYTES : Z := MAX_WAL_ENTRY_BYTES - 512.
Definition WAL_ANCHOR_SCHEMA : string := "calybris.wal-anchor.v1"%string.

Record WalEntry (T : Type) := mkWalEntry {
  we_sequence : Z;
  we_previous_hash : string;
  we_entry_hash : string;
  we_data : T
}.
Arguments mkWalEntry {T}.
Arguments we_sequence {T}.
Arguments we_previous_hash {T}.
Arguments we_entry_hash {T}.
Arguments we_data {T}.

Record WalAnchor := mkWalAnchor {
  wa_schema_version : string;
  wa_sequence : Z;
  wa_last_hash : string;
  wa_keyed : bool
}.

(** The messages of the I/O errors the log itself raises. *)
Inductive IoReason :=
| UnknownAnchorSchema (schema : string)
| AnchorModeMismatch
| AnchorMismatch (expected_sequence : Z) (expected_hash : string) (found_sequence : Z) (found_hash : string)
| ShortHmacKey (found : Z)
| EntryTooLong (found : Z)
| WriterActive
| NoLockDirectory
| WriterPoisoned
| SequenceOverflow
| PayloadTooLong
| PayloadNotUtf8
| OsError
| FileTooLarge (found limit : Z)
| TooManyEntries (found limit : Z)
| ShorterThanAnchor (expected_sequence found_head : Z)
| PrefixMismatch (sequence : Z) (expected_hash found_hash : string).

Inductive AuditReason :=
| VerifyDecisionFailed (r : VerifyResult)
| NonCanonicalBundle (e : AuditBundleValidationError)
| PolicyNotResolved (policy_epoch catalog_epoch : Z) (digest : string)
| ReplayFailed (replay_valid policy_match input_match decision_match : bool).

Inductive WalError :=
| Io (reason : IoReason)
| Json
| ChainBroken (sequence : Z) (expected found : string)
| DuplicateSequence (found : Z)
| AuditFailed (sequence : Z) (reason : AuditReason).

(** ** Anchors *)

Definition validate_metadata (a : WalAnchor) (keyed : bool) : result WalError unit :=
  if negb (String.eqb (wa_schema_version a) WAL_ANCHOR_SCHEMA) then
    Err (Io (UnknownAnchorSchema (wa_schema_version a)))
  else if negb (Bool.eqb (wa_keyed a) keyed) then Err (Io AnchorModeMismatch)
  else Ok tt.

Definition verify_head (a : WalAnchor) (found_sequence : Z) (found_hash : string) (keyed : bool)
    : result WalError (Z * string) :=
  _ ← validate_metadata a keyed;
  if negb (found_sequence =? wa_sequence a) || negb (String.eqb found_hash (wa_last_hash a)) then
    Err (Io (AnchorMismatch (wa_sequence a) (wa_last_hash a) found_sequence found_hash))
  else Ok (wa_sequence a, wa_last_hash a).

Definition validate_hmac_key (key : list Z) : result WalError unit :=
  if Z.of_nat (length key) <? MIN_HMAC_KEY_BYTES then Err (Io (ShortHmacKey (Z.of_nat (length key))))
  else Ok tt.

Definition validate_key (key : option (list Z)) : result WalError unit :=
  match key with Some k => validate_hmac_key k | None => Ok tt end.

(** ** Bounded writes

    [LimitedWriter] around a [Vec<u8>]: it never takes more than [limit] bytes. *)
Record LimitedWriter := mkLimitedWriter {
  lw_inner : list Z;
  lw_limit : Z;
  lw_written : Z;
  lw_exceeded : bool
}.

Definition LimitedWriter_new (limit : Z) : LimitedWriter := mkLimitedWriter [] limit 0 false.

(** [write]: [false] is the error it returns past the limit. *)
Definition LimitedWriter_write (w : LimitedWriter) (buffer : list Z) : bool * LimitedWriter :=
  let remaining := Z.max 0 (lw_limit w - lw_written w) in
  if remaining <? Z.of_nat (length buffer) then
    (false, mkLimitedWriter (lw_inner w) (lw_limit w) (lw_written w) true)
  else
    (true, mkLimitedWriter (lw_inner w ++ buffer) (lw_limit w)
             (lw_written w + Z.of_nat (length buffer)) (lw_exceeded w)).

(** A serializer hands its output over in pieces and stops at the first error. *)
Fixpoint write_pieces (w : LimitedWriter) (pieces : list (list Z)) : bool * LimitedWriter :=
  match pieces with
  | [] => (true, w)
  | p :: ps =>
      let '(ok, w') := LimitedWriter_write w p in
      if ok then write_pieces w' ps else (false, w')
  end.

(** ** Text *)

(** [u8::is_ascii_whitespace]. *)
Definition is_ascii_whitespace (b : Z) : bool :=
  (b =? 32) || (b =? 9) || (b =? 10) || (b =? 12) || (b =? 13).

Definition continuation (lo hi b : Z) : bool := (lo <=? b) && (b <=? hi).

(** [String::from_utf8]: the well-formed sequences of the Unicode standard. *)
Fixpoint utf8_valid (bs : list Z) : bool :=
  match bs with
  | [] => true
  | b :: r =>
      if b <? 128 then utf8_valid r
      else match r with
      | c1 :: r1 =>
          if continuation 194 223 b then continuation 128 191 c1 && utf8_valid r1
          else match r1 with
          | c2 :: r2 =>
              let lo := if b =? 224 then 160 else 128 in
              let hi := if b =? 237 then 159 else 191 in
              if continuation 224 239 b then
                continuation lo hi c1 && continuation 128 191 c2 && utf8_valid r2
              else match r2 with
              | c3 :: r3 =>
                  let lo := if b =? 240 then 144 else 128 in
                  let hi := if b =? 244 then 143 else 191 in
                  continuation 240 244 b && continuation lo hi c1 && continuation 128 191 c2
                  && continuation 128 191 c3 && utf8_valid r3
              | [] => false
              end
          | [] => false
          end
      | [] => false
      end
  end.

Definition member (name : string) : list Z := [34] ++ string_bytes name ++ [34; 58].
Definition quoted (s : string) : list Z := [34] ++ string_bytes s ++ [34].

(** What [append] prints for an entry, before the newline. *)
Definition entry_line (sequence : Z) (previous_hash entry_hash : string) (data_json : list Z)
    : list Z :=
  [123] ++ member "sequence" ++ decimal 20 sequence ++
  [44] ++ member "previous_hash" ++ quoted previous_hash ++
  [44] ++ member "entry_hash" ++ quoted entry_hash ++
  [44] ++ member "data" ++ data_json ++ [125].

(** ** The JSON interface *)

(** Text [serde_json] reads back from between quotes as it is. *)
Definition plain_char (b : Z) : bool := (32 <=? b) && (b <=? 126) && negb (b =? 34) && negb (b =? 92).
Definition plain_text (s : string) : bool := forallb plain_char (string_bytes s).

(** [serde_json::from_slice::<WalEntry<Box<RawValue>>>]: the data is the
    text of the value as it stands in the line. *)
Class JsonReader := {
  from_slice_raw : list Z -> option (WalEntry (list Z))
}.

(** A stored type: the pieces its serializer writes and whether it completes,
    and [serde_json::from_slice::<WalEntry<T>>]. *)
Class WalJson `{JsonReader} (T : Type) := {
  serialize : T -> list (list Z) * bool;
  from_slice_typed : list Z -> option (WalEntry T);
  (** Compact JSON escapes every control character. *)
  serialize_printable : forall d ps, serialize d = (ps, true) ->
    Forall (fun b => is_byte b /\ 32 <= b) (concat ps);
  serialize_utf8 : forall d ps, serialize d = (ps, true) -> utf8_valid (concat ps) = true;
  (** A printed entry reads back, whether or not a newline follows it. *)
  raw_reads_entry : forall d ps n p h tail, serialize d = (ps, true) -> is_u 64 n ->
    plain_text p = true -> plain_text h = true -> tail ∈ [[]; [10]] ->
    from_slice_raw (entry_line n p h (concat ps) ++ tail) = Some (mkWalEntry n p h (concat ps));
  typed_reads_entry : forall d ps n p h tail, serialize d = (ps, true) -> is_u 64 n ->
    plain_text p = true -> plain_text h = true -> tail ∈ [[]; [10]] ->
    from_slice_typed (entry_line n p h (concat ps) ++ tail) = Some (mkWalEntry n p h d);
  (** An object cut short is not JSON. *)
  raw_refuses_torn : forall d ps n p h k, serialize d = (ps, true) -> is_u 64 n ->
    plain_text p = true -> plain_text h = true ->
    (0 < k < length (entry_line n p h (concat ps)))%nat ->
    from_slice_raw (take k (entry_line n p h (concat ps))) = None
}.

(** ** Reading lines *)

(** [take(limit).read_until(b'\n')]: the line with its newline, and the rest. *)
Fixpoint read_until (limit : Z) (bytes : list Z) : list Z * list Z :=
  match bytes with
  | [] => ([], [])
  | b :: bs =>
      if limit <=? 0 then ([], bytes)
      else if b =? 10 then ([b], bs)
      else let '(l, r) := read_until (limit - 1) bs in (b :: l, r)
  end.

Definition read_bounded_line (bytes : list Z) : result WalError (list Z * list Z) :=
  let '(buffer, rest) := read_until (MAX_WAL_ENTRY_BYTES + 1) bytes in
  if MAX_WAL_ENTRY_BYTES <? Z.of_nat (length buffer) then
    Err (Io (EntryTooLong (Z.of_nat (length buffer))))
  else Ok (buffer, rest).

(** The loop of every reader: blank lines are skipped, and [step] runs on the
    others until it fails. The state survives an error, because a visitor has
    seen the entries before it. *)
Fixpoint while_lines {St} (fuel : nat) (step : list Z -> St -> St * option WalError)
    (bytes : list Z) (s : St) : St * option WalError :=
  match fuel with
  | O => (s, None)
  | S fuel' =>
      match read_bounded_line bytes with
      | Err e => (s, Some e)
      | Ok ([], _) => (s, None)
      | Ok (line, rest) =>
          if forallb is_ascii_whitespace line then while_lines fuel' step rest s
          else match step line s with
               | (s', Some e) => (s', Some e)
               | (s', None) => while_lines fuel' step rest s'
               end
      end
  end.

(** Every iteration consumes a byte, so the length of the file is enough. *)
Definition each_line {St} (step : list Z -> St -> St * option WalError) (bytes : list Z) (s : St)
    : St * option WalError :=
  while_lines (S (length bytes)) step bytes s.

(** Continue with a result, keeping the state when it is an error. *)
Definition proceed {St A} (s : St) (m : result WalError A) (k : A -> St * option WalError)
    : St * option WalError :=
  match m with Ok a => k a | Err e => (s, Some e) end.

Definition settled {St A} (f : St -> A) (r : St * option WalError) : result WalError A :=
  match r with (s, None) => Ok (f s) | (_, Some e) => Err e end.

(** ** The writer *)

Record WalWriter := mkWalWriter {
  ww_file : list Z;
  ww_sequence : Z;
  ww_last_hash : string;
  ww_hmac_key : option (list Z);
  ww_poisoned : bool
}.

Definition poison (w : WalWriter) : WalWriter :=
  mkWalWriter (ww_file w) (ww_sequence w) (ww_last_hash w) (ww_hmac_key w) true.

(** What the operating system does with a line: take all of it, or fail after
    some of its bytes. *)
Inductive WriteOutcome := Written | FailedAfter (n : nat).

Record ChainState := mkChainState {
  cs_expected_sequence : Z;
  cs_last_hash : string;
  cs_last_sequence : Z
}.
Definition chain_start : ChainState := mkChainState 1 "genesis" 0.
Definition chain_head (c : ChainState) : Z * string := (cs_last_sequence c, cs_last_hash c).

Record AuditedRecord (M : Type) := mkAuditedRecord {
  ar_audit : AuditBundle;
  ar_input : KernelInput;
  ar_decision : KernelDecision;
  ar_metadata : M
}.
Arguments mkAuditedRecord {M}.
Arguments ar_audit {M}.
Arguments ar_input {M}.
Arguments ar_decision {M}.
Arguments ar_metadata {M}.

Record WalReplayVerdict := mkWalReplayVerdict {
  rv_sequence : Z;
  rv_replay_valid : bool;
  rv_policy_digest_match : bool;
  rv_input_digest_match : bool;
  rv_decision_digest_match : bool
}.

(** [PolicyResolver::resolve]. *)
Definition PolicyResolver : Type := Z -> Z -> string -> option PolicySnapshot.

Section Wal.
Context {HF : HashFunctions} {JR : JsonReader}.

Definition compute_hash (previous_hash : string) (data_json : list Z) (key : option (list Z))
    : result WalError string :=
  match key with
  | Some k =>
      _ ← validate_hmac_key k;
      Ok (bytes_to_hex (hmac_sha256 k (string_bytes previous_hash ++ data_json)))
  | None => Ok (bytes_to_hex (sha256 (string_bytes previous_hash ++ data_json)))
  end.

(** ** Validation *)

(** One entry against the chain so far. *)
Definition check_entry (key : option (list Z)) (entry : WalEntry (list Z)) (c : ChainState)
    : result WalError ChainState :=
  if negb (we_sequence entry =? cs_expected_sequence c) then
    Err (DuplicateSequence (we_sequence entry))
  else if negb (String.eqb (we_previous_hash entry) (cs_last_hash c)) then
    Err (ChainBroken (we_sequence entry) (cs_last_hash c) (we_previous_hash entry))
  else
    computed ← compute_hash (we_previous_hash entry) (we_data entry) key;
    if negb (String.eqb computed (we_entry_hash entry)) then
      Err (ChainBroken (we_sequence entry) computed (we_entry_hash entry))
    else
      expected ← ok_or (checked_u 64 (cs_expected_sequence c + 1)) (Io SequenceOverflow);
      Ok (mkChainState expected (we_entry_hash entry) (we_sequence entry)).

Definition validate_step (key : option (list Z)) (line : list Z) (c : ChainState)
    : ChainState * option WalError :=
  proceed c (ok_or (from_slice_raw line) Json) (fun entry =>
  proceed c (check_entry key entry c) (fun c' => (c', None))).

Definition validate_chain_reader (bytes : list Z) (key : option (list Z))
    : result WalError (Z * string) :=
  settled chain_head (each_line (validate_step key) bytes chain_start).

Definition validate_chain_inner (bytes : list Z) (key : option (list Z))
    : result WalError (Z * string) :=
  _ ← validate_key key; validate_chain_reader bytes key.

Definition verify_wal (bytes : list Z) : result WalError (Z * string) :=
  validate_chain_inner bytes None.
Definition verify_wal_keyed (bytes key : list Z) : result WalError (Z * string) :=
  validate_chain_inner bytes (Some key).

(** ** Opening *)

(** [lock_free] is whether [acquire_writer_lock] succeeds. *)
Definition open_inner (lock_free : bool) (file : list Z) (hmac_key : option (list Z))
    : result WalError WalWriter :=
  _ ← validate_key hmac_key;
  _ ← refuse_if (negb lock_free) (Io WriterActive);
  head ← validate_chain_reader file hmac_key;
  Ok (mkWalWriter file (fst head) (snd head) hmac_key false).

Definition open (lock_free : bool) (file : list Z) : result WalError WalWriter :=
  open_inner lock_free file None.
Definition open_keyed (lock_free : bool) (file key : list Z) : result WalError WalWriter :=
  open_inner lock_free file (Some key).

(** [flush], [sync] and [flush_and_sync]: [os_ok] is the outcome of the calls. *)
Definition flush_and_sync (os_ok : bool) (w : WalWriter) : result WalError unit * WalWriter :=
  if ww_poisoned w then (Err (Io WriterPoisoned), w)
  else if negb os_ok then (Err (Io OsError), poison w)
  else (Ok tt, w).
Definition flush (os_ok : bool) (w : WalWriter) : result WalError unit * WalWriter :=
  flush_and_sync os_ok w.
Definition sync (os_ok : bool) (w : WalWriter) : result WalError unit * WalWriter :=
  flush_and_sync os_ok w.

Definition anchor (w : WalWriter) : WalAnchor :=
  mkWalAnchor WAL_ANCHOR_SCHEMA (ww_sequence w) (ww_last_hash w)
    (match ww_hmac_key w with Some _ => true | None => false end).

(** ** Appending *)

Section Append.
Context {T : Type} {J : WalJson T}.

(** [serde_json::to_writer] into the bounded buffer, then [String::from_utf8]. *)
Definition to_json (data : T) : result WalError (list Z) :=
  let '(pieces, complete) := serialize data in
  let '(written, writer) := write_pieces (LimitedWriter_new MAX_WAL_PAYLOAD_BYTES) pieces in
  if negb (written && complete) then
    if lw_exceeded writer then Err (Io PayloadTooLong) else Err Json
  else if negb (utf8_valid (lw_inner writer)) then Err (Io PayloadNotUtf8)
  else Ok (lw_inner writer).

Definition append (os : WriteOutcome) (data : T) (w : WalWriter)
    : result WalError (WalEntry T) * WalWriter :=
  if ww_poisoned w then (Err (Io WriterPoisoned), w)
  else
    match checked_u 64 (ww_sequence w + 1) with
    | None => (Err (Io SequenceOverflow), w)
    | Some next_sequence =>
        match (data_json ← to_json data;
               entry_hash ← compute_hash (ww_last_hash w) data_json (ww_hmac_key w);
               Ok (data_json, entry_hash)) with
        | Err e => (Err e, w)
        | Ok (data_json, entry_hash) =>
            let previous_hash := ww_last_hash w in
            let line := entry_line next_sequence previous_hash entry_hash data_json ++ [10] in
            match os with
            | FailedAfter n =>
                (Err (Io OsError),
                 poison (mkWalWriter (ww_file w ++ take n line) (ww_sequence w) (ww_last_hash w)
                           (ww_hmac_key w) (ww_poisoned w)))
            | Written =>
                (Ok (mkWalEntry next_sequence previous_hash entry_hash data),
                 mkWalWriter (ww_file w ++ line) next_sequence entry_hash (ww_hmac_key w)
                   (ww_poisoned w))
            end
        end
    end.

End Append.

(** ** Reading *)

(** [visit_verified_wal_inner]: [parse] is [from_slice] at the type visited and
    [visit] the callback, folded over its own state [St]. *)
Definition visit_step {E St} (parse : list Z -> option E) (visit : St -> E -> St)
    (key : option (list Z)) (line : list Z) (s : ChainState * St)
    : (ChainState * St) * option WalError :=
  proceed s (ok_or (from_slice_raw line) Json) (fun entry =>
  proceed s (check_entry key entry (fst s)) (fun c' =>
  proceed (c', snd s) (ok_or (parse line) Json) (fun typed => ((c', visit (snd s) typed), None)))).

Definition visit_verified_wal_inner {E St} (parse : list Z -> option E) (visit : St -> E -> St)
    (bytes : list Z) (key : option (list Z)) (s0 : St) : result WalError (Z * string) * St :=
  match validate_key key with
  | Err e => (Err e, s0)
  | Ok _ =>
      let r := each_line (visit_step parse visit key) bytes (chain_start, s0) in
      (settled (chain_head ∘ fst) r, snd (fst r))
  end.

Definition push_entry {E} (entries : list E) (e : E) : list E := entries ++ [e].

Definition read_verified_wal_inner {E} (parse : list Z -> option E) (bytes : list Z)
    (key : option (list Z)) : result WalError (list E) :=
  let '(r, entries) := visit_verified_wal_inner parse push_entry bytes key [] in
  _ ← r; Ok entries.

Definition push_bounded {E} (max_entries : Z) (s : Z * list E) (e : E) : Z * list E :=
  let found := Z.min (umax 64) (fst s + 1) in
  (found, if found <=? max_entries then snd s ++ [e] else snd s).

Definition read_verified_wal_bounded_inner {E} (parse : list Z -> option E) (bytes : list Z)
    (key : option (list Z)) (max_entries max_total_bytes : Z) : result WalError (list E) :=
  let file_bytes := Z.of_nat (length bytes) in
  if max_total_bytes <? file_bytes then Err (Io (FileTooLarge file_bytes max_total_bytes))
  else
    let '(r, (found, entries)) :=
      visit_verified_wal_inner parse (push_bounded max_entries) bytes key (0, []) in
    _ ← r;
    if max_entries <? found then Err (Io (TooManyEntries found max_entries)) else Ok entries.

(** The public readers fix the key mode. *)
Definition visit_verified_wal {E St} (parse : list Z -> option E) (visit : St -> E -> St) (bytes : list Z) (s0 : St)
    : result WalError (Z * string) * St := visit_verified_wal_inner parse visit bytes None s0.
Definition visit_verified_wal_keyed {E St} (parse : list Z -> option E) (visit : St -> E -> St) (bytes key : list Z) (s0 : St)
    : result WalError (Z * string) * St := visit_verified_wal_inner parse visit bytes (Some key) s0.
Definition read_verified_wal {E} (parse : list Z -> option E) (bytes : list Z) : result WalError (list E) :=
  read_verified_wal_inner parse bytes None.
Definition read_verified_wal_keyed {E} (parse : list Z -> option E) (bytes key : list Z) : result WalError (list E) :=
  read_verified_wal_inner parse bytes (Some key).
Definition read_verified_wal_bounded {E} (parse : list Z -> option E) (bytes : list Z) (max_entries max_total_bytes : Z)
    : result WalError (list E) := read_verified_wal_bounded_inner parse bytes None max_entries max_total_bytes.
Definition read_verified_wal_keyed_bounded {E} (parse : list Z -> option E) (bytes key : list Z)
    (max_entries max_total_bytes : Z) : result WalError (list E) :=
  read_verified_wal_bounded_inner parse bytes (Some key) max_entries max_total_bytes.

(** [read_wal]: no chain verification. *)
Definition read_step {E} (parse : list Z -> option E) (line : list Z) (entries : list E)
    : list E * option WalError :=
  proceed entries (ok_or (parse line) Json) (fun e => (entries ++ [e], None)).

Definition read_wal {E} (parse : list Z -> option E) (bytes : list Z) : result WalError (list E) :=
  settled (fun l => l) (each_line (read_step parse) bytes []).

(** ** Verification against an anchor *)

Definition verify_wal_against_anchor (bytes : list Z) (a : WalAnchor) : result WalError (Z * string) :=
  head ← verify_wal bytes; verify_head a (fst head) (snd head) false.

Definition verify_wal_keyed_against_anchor (bytes key : list Z) (a : WalAnchor)
    : result WalError (Z * string) :=
  head ← verify_wal_keyed bytes key; verify_head a (fst head) (snd head) true.

Definition note_prefix (a : WalAnchor) (prefix_hash : option string) (entry : WalEntry (list Z))
    : option string :=
  if we_sequence entry =? wa_sequence a then Some (we_entry_hash entry) else prefix_hash.

Definition verify_wal_contains_anchor_inner (bytes : list Z) (key : option (list Z)) (a : WalAnchor)
    : result WalError (Z * string) :=
  _ ← validate_metadata a (match key with Some _ => true | None => false end);
  let prefix_hash := if wa_sequence a =? 0 then Some "genesis"%string else None in
  let '(r, prefix_hash) :=
    visit_verified_wal_inner from_slice_raw (note_prefix a) bytes key prefix_hash in
  head ← r;
  found_hash ← ok_or prefix_hash (Io (ShorterThanAnchor (wa_sequence a) (fst head)));
  if negb (String.eqb found_hash (wa_last_hash a)) then
    Err (Io (PrefixMismatch (wa_sequence a) (wa_last_hash a) found_hash))
  else Ok head.

Definition verify_wal_contains_anchor (bytes : list Z) (a : WalAnchor) : result WalError (Z * string) :=
  verify_wal_contains_anchor_inner bytes None a.
Definition verify_wal_keyed_contains_anchor (bytes key : list Z) (a : WalAnchor) : result WalError (Z * string) :=
  verify_wal_contains_anchor_inner bytes (Some key) a.

(** ** Audited records *)

Section Audited.
Context {M : Type}.

Definition append_audited {J : WalJson (AuditedRecord M)} (os : WriteOutcome) (snapshot : PolicySnapshot)
    (input : KernelInput) (decision : KernelDecision) (metadata : M) (w : WalWriter)
    : result WalError (WalEntry (AuditedRecord M)) * WalWriter :=
  append os (mkAuditedRecord (audit_bundle snapshot input decision) input decision metadata) w.

Definition append_verified_audited {J : WalJson (AuditedRecord M)} (os : WriteOutcome)
    (snapshot : PolicySnapshot) (input : KernelInput) (decision : KernelDecision) (metadata : M)
    (w : WalWriter) : result WalError (WalEntry (AuditedRecord M)) * WalWriter :=
  match verified_audit_bundle snapshot input decision with
  | Err r => (Err (AuditFailed (saturate_u 64 (ww_sequence w + 1)) (VerifyDecisionFailed r)), w)
  | Ok audit => append os (mkAuditedRecord audit input decision metadata) w
  end.

Definition verify_audited_entry (resolve : PolicyResolver) (entry : WalEntry (AuditedRecord M))
    : result WalError WalReplayVerdict :=
  let bundle := ar_audit (we_data entry) in
  let fail r := AuditFailed (we_sequence entry) r in
  _ ← map_err (fun e => fail (NonCanonicalBundle e)) (validate_canonical bundle);
  snapshot ←
    ok_or (resolve (ab_policy_epoch bundle) (ab_catalog_epoch bundle) (ab_policy_digest_hex bundle))
      (fail (PolicyNotResolved (ab_policy_epoch bundle) (ab_catalog_epoch bundle)
               (ab_policy_digest_hex bundle)));
  let expected_policy := digest_to_hex (policy_digest snapshot) in
  let replay_valid :=
    match verify_decision snapshot (ar_input (we_data entry)) (ar_decision (we_data entry)) with
    | Valid => true
    | _ => false
    end in
  let policy_digest_match := String.eqb (ab_policy_digest_hex bundle) expected_policy in
  let input_digest_match :=
    String.eqb (ab_input_digest_hex bundle) (digest_to_hex (input_digest (ar_input (we_data entry)))) in
  let decision_digest_match :=
    String.eqb (ab_decision_digest_hex bundle)
      (digest_to_hex (decision_digest (ar_decision (we_data entry)))) in
  if negb replay_valid || negb policy_digest_match || negb input_digest_match
     || negb decision_digest_match
  then Err (fail (ReplayFailed replay_valid policy_digest_match input_digest_match
                    decision_digest_match))
  else Ok (mkWalReplayVerdict (we_sequence entry) replay_valid policy_digest_match
             input_digest_match decision_digest_match).

Fixpoint verify_audited_entries (resolve : PolicyResolver) (entries : list (WalEntry (AuditedRecord M)))
    : result WalError (list WalReplayVerdict) :=
  match entries with
  | [] => Ok []
  | entry :: rest =>
      verdict ← verify_audited_entry resolve entry;
      verdicts ← verify_audited_entries resolve rest;
      Ok (verdict :: verdicts)
  end.

(** The closure [replay_audited_wal_keyed] resolves its one policy with. *)
Definition resolve_only (snapshot : PolicySnapshot) : PolicyResolver :=
  fun policy_epoch catalog_epoch digest =>
    if (policy_epoch =? ps_policy_epoch snapshot) && (catalog_epoch =? ps_catalog_epoch snapshot)
       && String.eqb digest (digest_to_hex (policy_digest snapshot))
    then Some snapshot else None.

Context {J : WalJson (AuditedRecord M)}.

Definition replay_audited_wal_keyed (bytes : list Z) (snapshot : PolicySnapshot)
    (key : option (list Z)) : result WalError (list WalReplayVerdict) :=
  entries ← read_verified_wal_inner from_slice_typed bytes key;
  verify_audited_entries (resolve_only snapshot) entries.

Definition replay_audited_wal_keyed_bounded (bytes : list Z) (snapshot : PolicySnapshot)
    (key : option (list Z)) (max_entries max_total_bytes : Z)
    : result WalError (list WalReplayVerdict) :=
  entries ← read_verified_wal_bounded_inner from_slice_typed bytes key max_entries max_total_bytes;
  verify_audited_entries (resolve_only snapshot) entries.

Definition replay_audited_wal_with_resolver (bytes : list Z) (resolve : PolicyResolver)
    (key : option (list Z)) : result WalError (list WalReplayVerdict) :=
  entries ← read_verified_wal_inner from_slice_typed bytes key;
  verify_audited_entries resolve entries.

End Audited.
End Wal.
