(* ===== verification/WalTheory.v ===== *)
(** * Lines, entries and hashes of the write-ahead log

    The line loop over a file and over its concatenations, the text of a
    printed entry, and the text of hashes. *)

From Stdlib Require Import String.
From S2P Require Import Prelude Bytes Text Verify Wal.
#[local] Open Scope Z_scope.

(** ** The line loop *)

Lemma read_until_split limit bytes : forall l r, read_until limit bytes = (l, r) -> bytes = l ++ r.
Proof.
  revert limit. induction bytes as [|b bs IH]; intros limit l r; simpl; [by intros [= <- <-]|].
  destruct (limit <=? 0); [by intros [= <- <-]|]. destruct (b =? 10); [by intros [= <- <-]|].
  destruct (read_until (limit - 1) bs) as [l' r'] eqn:E. intros [= <- <-].
  simpl. f_equal. by apply (IH (limit - 1)).
Qed.

Lemma read_until_nonempty limit f r : 0 < limit -> read_until limit f = ([], r) -> f = [].
Proof.
  destruct f as [|b f]; [done|]. simpl. intros. destruct (Z.leb_spec limit 0); [lia|].
  destruct (b =? 10); [done|]. by destruct (read_until (limit - 1) f).
Qed.

Lemma read_bounded_line_split bytes l r : read_bounded_line bytes = Ok (l, r) -> bytes = l ++ r.
Proof.
  unfold read_bounded_line. destruct (read_until _ _) as [l' r'] eqn:E.
  destruct (_ <? _); [done|]. intros [= <- <-]. by eapply read_until_split.
Qed.

Lemma while_lines_fuel {St} (step : list Z -> St -> St * option WalError) n : forall m bytes s,
  (length bytes < n)%nat -> (length bytes < m)%nat ->
  while_lines n step bytes s = while_lines m step bytes s.
Proof.
  induction n as [|n IH]; intros [|m] bytes s Hn Hm; try lia. simpl.
  destruct (read_bounded_line bytes) as [[[|b l] r]|e] eqn:E; [done| |done].
  apply read_bounded_line_split in E. apply (f_equal length) in E.
  simpl in E. rewrite length_app in E.
  destruct (forallb _ _); [apply IH; lia|].
  destruct (step (b :: l) s) as [s' [e|]]; [done|]. apply IH; lia.
Qed.

Lemma each_line_eq {St} (step : list Z -> St -> St * option WalError) bytes s :
  each_line step bytes s =
  match read_bounded_line bytes with
  | Err e => (s, Some e)
  | Ok ([], _) => (s, None)
  | Ok (line, rest) =>
      if forallb is_ascii_whitespace line then each_line step rest s
      else match step line s with
           | (s', Some e) => (s', Some e)
           | (s', None) => each_line step rest s'
           end
  end.
Proof.
  unfold each_line at 1. simpl.
  destruct (read_bounded_line bytes) as [[[|b l] r]|e] eqn:E; [done| |done].
  apply read_bounded_line_split in E. apply (f_equal length) in E.
  simpl in E. rewrite length_app in E. unfold each_line.
  destruct (forallb _ _); [apply while_lines_fuel; lia|].
  destruct (step (b :: l) s) as [s' [e|]]; [done|]. apply while_lines_fuel; lia.
Qed.

Lemma each_line_nil {St} (step : list Z -> St -> St * option WalError) s :
  each_line step [] s = (s, None).
Proof. done. Qed.

(** A file of complete lines. *)
Definition ends_line (f : list Z) : Prop := f = [] \/ list.last f = Some 10.

Lemma ends_line_suffix l r : ends_line (l ++ r) -> ends_line r.
Proof.
  destruct r as [|b r _] using rev_ind; [by left|]. intros H. right. rewrite last_snoc.
  destruct H as [H|H]; [by destruct l, r|]. by rewrite app_assoc, last_snoc in H.
Qed.

Lemma read_until_complete limit f : forall g l r, f <> [] -> ends_line f ->
  read_until limit f = (l, r) -> read_until limit (f ++ g) = (l, r ++ g).
Proof.
  revert limit. induction f as [|b f IH]; intros limit g l r Hn He; [done|]. simpl.
  destruct (limit <=? 0); [by intros [= <- <-]|].
  destruct (Z.eqb_spec b 10) as [|Hb]; [by intros [= <- <-]|].
  destruct (read_until (limit - 1) f) as [l' r'] eqn:E. intros [= <- <-].
  destruct f as [|c f]; [destruct He as [|He]; [done|]; injection He; lia|].
  erewrite IH; [done|done|by apply (ends_line_suffix [b])|exact E].
Qed.

Lemma each_line_app {St} (step : list Z -> St -> St * option WalError) f g s : ends_line f ->
  each_line step (f ++ g) s =
  match each_line step f s with
  | (s', None) => each_line step g s'
  | r => r
  end.
Proof.
  remember (length f) as n eqn:Hn. revert f s Hn.
  induction (lt_wf n) as [n _ IH]. intros f s -> He.
  destruct (decide (f = [])) as [->|Hne]; [done|].
  rewrite (each_line_eq step (f ++ g)), (each_line_eq step f).
  unfold read_bounded_line. destruct (read_until _ f) as [l r] eqn:E.
  rewrite (read_until_complete _ f g l r Hne He E).
  destruct (_ <? _); [done|].
  destruct l as [|b l]; [by apply read_until_nonempty in E|]. apply read_until_split in E.
  assert (length r < length f)%nat by (rewrite E, length_app; simpl; lia).
  assert (ends_line r) by (apply (ends_line_suffix (b :: l)); by rewrite <- E).
  destruct (forallb _ _); [by eapply IH|].
  destruct (step (b :: l) s) as [s' [e|]]; [done|]. by eapply IH.
Qed.

Lemma tail_none : [] ∈ [[]; [10]].
Proof. constructor. Qed.
Lemma tail_newline : [10] ∈ [[]; [10]].
Proof. repeat constructor. Qed.

(** One line that fits, with or without its newline. *)
Lemma read_until_line limit b : forall tail, 10 ∉ b -> Z.of_nat (length b) < limit ->
  tail ∈ [[]; [10]] -> read_until limit (b ++ tail) = (b ++ tail, []).
Proof.
  revert limit. induction b as [|x b IH]; intros limit tail Hb Hl Ht; simpl.
  - rewrite !elem_of_cons, elem_of_nil in Ht. destruct Ht as [->|[->|[]]]; simpl; [done|].
    by destruct (Z.leb_spec limit 0); [simpl in Hl; lia|].
  - apply not_elem_of_cons in Hb as [Hx Hb]. simpl in Hl.
    destruct (Z.leb_spec limit 0); [lia|]. destruct (Z.eqb_spec x 10); [by subst|].
    rewrite IH by (done || lia). done.
Qed.

Lemma each_line_one {St} (step : list Z -> St -> St * option WalError) b tail s :
  10 ∉ b -> Z.of_nat (length b) < MAX_WAL_ENTRY_BYTES -> tail ∈ [[]; [10]] ->
  existsb (fun x => negb (is_ascii_whitespace x)) b = true ->
  each_line step (b ++ tail) s = step (b ++ tail) s.
Proof.
  intros Hb Hl Ht Hx. rewrite each_line_eq. unfold read_bounded_line.
  rewrite read_until_line by (done || lia).
  assert (length tail <= 1)%nat.
  { rewrite !elem_of_cons, elem_of_nil in Ht. destruct Ht as [->|[->|[]]]; simpl; lia. }
  destruct (Z.ltb_spec MAX_WAL_ENTRY_BYTES (Z.of_nat (length (b ++ tail))));
    [rewrite length_app in *; lia|].
  assert (forallb is_ascii_whitespace (b ++ tail) = false) as ->.
  { rewrite forallb_app. apply andb_false_iff. left. apply not_true_iff_false.
    apply existsb_exists in Hx as (x & Hin & Hw). intros HF. rewrite forallb_forall in HF.
    rewrite (HF x Hin) in Hw. done. }
  destruct b as [|x b]; [done|]. cbn [app]. change (x :: b ++ tail) with ((x :: b) ++ tail).
  destruct (step ((x :: b) ++ tail) s) as [s' [e|]]; [done|]. by rewrite each_line_nil.
Qed.

(** Two readers that agree line by line agree on a whole file. *)
Lemma each_line_sim {S1 S2} (R : S1 -> S2 -> Prop)
    (step1 : list Z -> S1 -> S1 * option WalError) (step2 : list Z -> S2 -> S2 * option WalError) :
  (forall line s1 s2 s1', R s1 s2 -> step1 line s1 = (s1', None) ->
     exists s2', step2 line s2 = (s2', None) /\ R s1' s2') ->
  forall bytes s1 s2 s1', R s1 s2 -> each_line step1 bytes s1 = (s1', None) ->
    exists s2', each_line step2 bytes s2 = (s2', None) /\ R s1' s2'.
Proof.
  intros Hstep bytes. remember (length bytes) as n eqn:Hn. revert bytes Hn.
  induction (lt_wf n) as [n _ IH]. intros bytes -> s1 s2 s1' HR.
  rewrite (each_line_eq step1), (each_line_eq step2).
  destruct (read_bounded_line bytes) as [[[|b l] r]|e] eqn:E; [|..|done].
  { intros [= <-]. eauto. }
  apply read_bounded_line_split in E.
  assert (length r < length bytes)%nat by (rewrite E, length_app; simpl; lia).
  destruct (forallb _ _); [by eapply IH|].
  destruct (step1 (b :: l) s1) as [t1 [e|]] eqn:E1; [done|]. intros H1.
  destruct (Hstep _ _ _ _ HR E1) as (t2 & -> & HR'). by eapply IH.
Qed.

(** ** Entries as text *)

Lemma write_pieces_ok ps : forall w w', write_pieces w ps = (true, w') ->
  lw_written w <= lw_limit w ->
  lw_inner w' = lw_inner w ++ concat ps /\ lw_written w' <= lw_limit w /\
  lw_written w' = lw_written w + Z.of_nat (length (concat ps)).
Proof.
  induction ps as [|p ps IH]; intros w w'; cbn [write_pieces concat].
  { intros [= <-] H. rewrite app_nil_r. simpl. split_and!; [done|done|lia]. }
  unfold LimitedWriter_write.
  destruct (Z.ltb_spec (Z.max 0 (lw_limit w - lw_written w)) (Z.of_nat (length p))); [done|].
  intros Hp Hle. apply IH in Hp as (-> & H1 & H2); [|simpl; lia].
  simpl in *. rewrite length_app, <- app_assoc. split_and!; [done|done|lia].
Qed.

Section Theory.
Context {HF : HashFunctions} {JR : JsonReader}.

Lemma to_json_ok {T} {J : WalJson T} (d : T) j : to_json d = Ok j ->
  exists ps, serialize d = (ps, true) /\ j = concat ps /\ Z.of_nat (length j) <= MAX_WAL_PAYLOAD_BYTES.
Proof.
  unfold to_json. destruct (serialize d) as [ps complete] eqn:Es.
  destruct (write_pieces _ ps) as [written w] eqn:Ew.
  destruct written, complete; cbn [andb negb]; try by destruct (lw_exceeded w).
  apply write_pieces_ok in Ew as (Hi & Hl & Hw); [|by_compute]. simpl in Hi, Hl, Hw.
  destruct (negb _); [done|]. intros [= <-]. exists ps. rewrite Hi. split_and!; [done|done|lia].
Qed.

Lemma plain_text_printable s : plain_text s = true -> Forall (fun b => 32 <= b) (string_bytes s).
Proof.
  unfold plain_text, plain_char. intros H. apply list.Forall_forall. intros b Hb.
  rewrite forallb_forall in H. specialize (H b (proj1 (list_elem_of_In _ _) Hb)). propify. tauto.
Qed.

Lemma entry_line_printable n p h j : 0 <= n -> plain_text p = true -> plain_text h = true ->
  Forall (fun b => 32 <= b) j -> Forall (fun b => 32 <= b) (entry_line n p h j).
Proof.
  intros Hn Hp Hh Hj. apply plain_text_printable in Hp, Hh. unfold entry_line, quoted.
  assert (Forall (fun b => 32 <= b) (decimal 20 n)) as Hd.
  { eapply List.Forall_impl; [|by apply decimal_digits]. simpl. lia. }
  repeat (apply Forall_app; split); try done; by_compute.
Qed.

Lemma printable_no_newline l : Forall (fun b => 32 <= b) l -> 10 ∉ l.
Proof. intros H Hin. rewrite list.Forall_forall in H. specialize (H _ Hin). lia. Qed.

Lemma entry_line_length n p h j :
  Z.of_nat (length (entry_line n p h j)) <=
  76 + Z.of_nat (length (string_bytes p)) + Z.of_nat (length (string_bytes h)) + Z.of_nat (length j).
Proof.
  unfold entry_line, quoted. rewrite !length_app. pose proof (decimal_length 20 n).
  change (length (member "sequence")) with 11%nat.
  change (length (member "previous_hash")) with 16%nat.
  change (length (member "entry_hash")) with 13%nat.
  change (length (member "data")) with 7%nat. cbn [length]. lia.
Qed.

(** ** Hashes as text *)

Definition wal_hash (key : option (list Z)) (m : list Z) : list Z :=
  match key with Some k => hmac_sha256 k m | None => sha256 m end.

Lemma wal_hash_ok key m : length (wal_hash key m) = 32%nat /\ Forall is_byte (wal_hash key m).
Proof.
  destruct key; simpl; split; first [apply sha256_length|apply sha256_bytes
    |apply hmac_sha256_length|apply hmac_sha256_bytes].
Qed.

Lemma compute_hash_ok p d key : validate_key key = Ok tt ->
  compute_hash p d key = Ok (bytes_to_hex (wal_hash key (string_bytes p ++ d))).
Proof. destruct key; simpl; [|done]. by intros ->. Qed.

Lemma hex_chars l : Forall is_byte l ->
  Forall (fun c => 48 <= c <= 57 \/ 97 <= c <= 102) (string_bytes (bytes_to_hex l)).
Proof.
  intros H. rewrite bytes_to_hex_bytes by done. induction H as [|b l Hb _ IH]; simpl; [constructor|].
  destruct (nibbles b Hb) as (? & ? & _). unfold hex_digit.
  repeat (constructor; [match goal with |- context [?x <? 10] => destruct (Z.ltb_spec x 10) end; lia|]).
  done.
Qed.

(** What a chain's head hash looks like. *)
Definition hash_text (s : string) : Prop :=
  s = "genesis"%string \/ exists l, length l = 32%nat /\ Forall is_byte l /\ s = bytes_to_hex l.

Lemma hex_text l : length l = 32%nat -> Forall is_byte l -> hash_text (bytes_to_hex l).
Proof. right. eauto. Qed.

Lemma hash_text_plain s : hash_text s -> plain_text s = true /\ (length (string_bytes s) <= 64)%nat.
Proof.
  intros [->|(l & Hl & Hb & ->)]; [by_compute|]. split.
  - unfold plain_text. apply forallb_forall. intros c Hc%list_elem_of_In.
    pose proof (hex_chars l Hb) as H. rewrite list.Forall_forall in H. specialize (H c Hc).
    unfold plain_char. destruct (Z.leb_spec 32 c), (Z.leb_spec c 126), (Z.eqb_spec c 34),
      (Z.eqb_spec c 92); simpl; done || lia.
  - rewrite bytes_to_hex_bytes, hex_text_length by done. lia.
Qed.

(** The hashed message determines both of its parts. *)
Lemma hash_text_app_inj s t d e : hash_text s -> hash_text t ->
  string_bytes s ++ d = string_bytes t ++ e -> s = t /\ d = e.
Proof.
  assert (forall l x y, length l = 32%nat -> Forall is_byte l ->
    string_bytes (bytes_to_hex l) ++ x <> string_bytes "genesis" ++ y) as Hg.
  { intros l x y Hl Hb E. pose proof (hex_chars l Hb) as H.
    destruct (string_bytes (bytes_to_hex l)) as [|c cs] eqn:Ec.
    - apply (f_equal length) in Ec. rewrite bytes_to_hex_bytes, hex_text_length, Hl in Ec by done. done.
    - injection E as E _. vm_compute in E. apply list.Forall_cons in H as [H _]. lia. }
  intros [->|(l & Hl & Hb & ->)] [->|(m & Hm & Hc & ->)] E.
  - by apply app_inv_head in E.
  - symmetry in E. by apply Hg in E.
  - by apply Hg in E.
  - apply app_inj_len in E as [E ->]; [by apply string_bytes_inj in E|].
    rewrite !bytes_to_hex_bytes, !hex_text_length by done. lia.
Qed.

End Theory.
