(* ===== verification/WalLog.v ===== *)
(** * The log a writer keeps, and what its head binds

    [log_of w es] says that the file of [w] holds exactly the entries [es] and
    that [w] stands at their end; appends preserve it. Validated files are
    checked lists of entries, and a head hash determines the list. *)

From Stdlib Require Import String.
From S2P Require Import Prelude Bytes Text Verify Wal WalTheory.
#[local] Open Scope Z_scope.
#[local] Opaque decimal.

Section Log.
Context {HF : HashFunctions} {JR : JsonReader}.

(** ** Readers agree *)

Lemma proceed_None {St A} (s s' : St) (m : result WalError A) k :
  proceed s m k = (s', None) -> exists a, m = Ok a /\ k a = (s', None).
Proof. destruct m; simpl; [eauto|done]. Qed.

Lemma visit_step_None {E St} (parse : list Z -> option E) (visit : St -> E -> St) key line c s r :
  visit_step parse visit key line (c, s) = (r, None) ->
  exists entry c' e, from_slice_raw line = Some entry /\ check_entry key entry c = Ok c' /\
    parse line = Some e /\ r = (c', visit s e).
Proof.
  intros (entry & H1%ok_or_Ok & (c' & H2 & (e & H3%ok_or_Ok & [= <-])%proceed_None)%proceed_None)
    %proceed_None. eauto 10.
Qed.

Lemma validate_step_None key line c c' : validate_step key line c = (c', None) ->
  exists entry, from_slice_raw line = Some entry /\ check_entry key entry c = Ok c'.
Proof.
  intros (entry & H1%ok_or_Ok & (x & H2 & [= <-])%proceed_None)%proceed_None. eauto.
Qed.

(** A visit that completes has validated the chain. *)
Lemma visit_validates {E St} (parse : list Z -> option E) (visit : St -> E -> St) key bytes c s c' s' :
  each_line (visit_step parse visit key) bytes (c, s) = ((c', s'), None) ->
  each_line (validate_step key) bytes c = (c', None).
Proof.
  intros H. eapply (each_line_sim (fun x y => y = fst x)) with (s2 := c) in H as (c2 & -> & ->); [done| |done].
  intros line [x t] y [x' t'] -> (entry & z & e & H1 & H2 & H3 & [= -> ->])%visit_step_None.
  exists z. unfold validate_step. rewrite H1. simpl. by rewrite H2.
Qed.

(** ** The writer's log *)

Section Writer.
Context {T : Type} {J : WalJson T}.

Definition head_state (w : WalWriter) : ChainState :=
  mkChainState (ww_sequence w + 1) (ww_last_hash w) (ww_sequence w).

(** The entries [es] are in the file, as complete lines, and the writer stands
    at their end. *)
Record log_of (w : WalWriter) (es : list (WalEntry T)) : Prop := {
  lo_lines : ends_line (ww_file w);
  lo_key : validate_key (ww_hmac_key w) = Ok tt;
  lo_run : each_line (visit_step from_slice_typed push_entry (ww_hmac_key w)) (ww_file w)
             (chain_start, []) = ((head_state w, es), None);
  lo_sequence : 0 <= ww_sequence w < umax 64;
  lo_hash : hash_text (ww_last_hash w);
  lo_live : ww_poisoned w = false
}.

Lemma log_of_empty key : validate_key key = Ok tt -> log_of (mkWalWriter [] 0 "genesis" key false) [].
Proof. intros. split; simpl; [by left|done|done|split; by_compute|by left|done]. Qed.

Lemma validate_key_unit key u : validate_key key = Ok u -> u = tt.
Proof. by destruct u. Qed.

(** Reopening the file gives the writer back, and reading it its entries. *)
Lemma log_reopens w es : log_of w es -> open_inner true (ww_file w) (ww_hmac_key w) = Ok w.
Proof.
  intros [Hl Hk Hr Hs Hh Hp]. unfold open_inner. rewrite Hk. simpl.
  unfold validate_chain_reader. apply visit_validates in Hr. rewrite Hr. simpl.
  destruct w; simpl in *. by subst.
Qed.

Lemma log_verifies w es : log_of w es ->
  validate_chain_inner (ww_file w) (ww_hmac_key w) = Ok (ww_sequence w, ww_last_hash w).
Proof.
  intros [Hl Hk Hr Hs Hh Hp]. unfold validate_chain_inner. rewrite Hk. simpl.
  apply visit_validates in Hr. unfold validate_chain_reader. by rewrite Hr.
Qed.

Lemma log_reads w es : log_of w es ->
  read_verified_wal_inner from_slice_typed (ww_file w) (ww_hmac_key w) = Ok es.
Proof.
  intros [Hl Hk Hr Hs Hh Hp]. unfold read_verified_wal_inner, visit_verified_wal_inner.
  rewrite Hk, Hr. done.
Qed.

(** The line an append writes, when it gets that far. *)
Definition appended (d : T) (j : list Z) (h : string) (w : WalWriter) : Prop :=
  to_json d = Ok j /\ h = bytes_to_hex (wal_hash (ww_hmac_key w) (string_bytes (ww_last_hash w) ++ j)).

Lemma append_cases os d w es : log_of w es -> ww_sequence w + 1 < umax 64 ->
  (exists e, append os d w = (Err e, w) /\ to_json d = Err e) \/
  (exists j h, appended d j h w /\
     let line := entry_line (ww_sequence w + 1) (ww_last_hash w) h j in
     append os d w =
     match os with
     | Written => (Ok (mkWalEntry (ww_sequence w + 1) (ww_last_hash w) h d),
                   mkWalWriter (ww_file w ++ line ++ [10]) (ww_sequence w + 1) h (ww_hmac_key w) false)
     | FailedAfter n => (Err (Io OsError),
                   mkWalWriter (ww_file w ++ take n (line ++ [10])) (ww_sequence w) (ww_last_hash w)
                     (ww_hmac_key w) true)
     end).
Proof.
  intros [Hl Hk Hr Hs Hh Hp] Hn. unfold append. rewrite Hp, checked_u_small by (unfold is_u; lia).
  destruct (to_json d) as [j|e] eqn:Ej; cbn; [|eauto]. right. rewrite compute_hash_ok by done. cbn.
  exists j. eexists. split; [by split|]. by destruct os.
Qed.

(** The facts about an appended line every reader relies on. *)
Record line_facts (ps : list (list Z)) (d : T) (h : string) (w : WalWriter) : Prop := {
  lf_serialized : serialize d = (ps, true);
  lf_sequence : is_u 64 (ww_sequence w + 1);
  lf_previous : plain_text (ww_last_hash w) = true;
  lf_hash : plain_text h = true;
  lf_no_newline : 10 ∉ entry_line (ww_sequence w + 1) (ww_last_hash w) h (concat ps);
  lf_short : Z.of_nat (length (entry_line (ww_sequence w + 1) (ww_last_hash w) h (concat ps)))
               < MAX_WAL_ENTRY_BYTES
}.

Lemma appended_facts d j h w es : log_of w es -> ww_sequence w + 1 < umax 64 -> appended d j h w ->
  exists ps, j = concat ps /\ line_facts ps d h w.
Proof.
  intros [Hl Hk Hr Hs Hh Hp] Hn [Hj Hd].
  destruct (to_json_ok d j Hj) as (ps & Hps & -> & Hlen). destruct (hash_text_plain _ Hh) as [Hpl Hlt].
  destruct (wal_hash_ok (ww_hmac_key w) (string_bytes (ww_last_hash w) ++ concat ps)) as [Hw1 Hw2].
  destruct (hash_text_plain h) as [Hpl' Hlt']; [subst h; by apply hex_text|].
  exists ps. split; [done|]. split; try done; [unfold is_u; lia|..].
  - apply printable_no_newline, entry_line_printable; try done; [lia|].
    eapply List.Forall_impl; [|by eapply serialize_printable]. simpl. tauto.
  - pose proof (entry_line_length (ww_sequence w + 1) (ww_last_hash w) h (concat ps)).
    unfold MAX_WAL_PAYLOAD_BYTES in Hlen. lia.
Qed.

Lemma appended_line d j h w es tail : log_of w es -> ww_sequence w + 1 < umax 64 ->
  appended d j h w -> tail ∈ [[]; [10]] ->
  let line := entry_line (ww_sequence w + 1) (ww_last_hash w) h j in
  forall St (step : list Z -> St -> St * option WalError) s, each_line step (line ++ tail) s = step (line ++ tail) s.
Proof.
  intros Hlog Hn Ha Ht line St step s.
  destruct (appended_facts _ _ _ _ _ Hlog Hn Ha) as (ps & -> & F). by apply each_line_one; try apply F.
Qed.

(** The chain takes the line, whatever type it is read at. *)
Lemma appended_checked d j h w es tail : log_of w es -> ww_sequence w + 1 < umax 64 ->
  appended d j h w -> tail ∈ [[]; [10]] ->
  let line := entry_line (ww_sequence w + 1) (ww_last_hash w) h j ++ tail in
  forall E St (parse : list Z -> option E) (visit : St -> E -> St) e s, parse line = Some e ->
  visit_step parse visit (ww_hmac_key w) line (head_state w, s) =
  ((mkChainState (ww_sequence w + 2) h (ww_sequence w + 1), visit s e), None).
Proof.
  intros Hlog Hn Ha Ht line E St parse visit e s Hp. destruct (appended_facts _ _ _ _ _ Hlog Hn Ha) as (ps & -> & F).
  destruct Ha as [_ Hd]. pose proof (lo_sequence _ _ Hlog).
  assert (from_slice_raw line = Some (mkWalEntry (ww_sequence w + 1) (ww_last_hash w) h (concat ps))) as R1
    by (apply (raw_reads_entry d); [apply F..|done]).
  clearbody line. unfold visit_step. rewrite R1. simpl.
  unfold check_entry. simpl. rewrite Z.eqb_refl, String.eqb_refl. cbn [negb].
  rewrite compute_hash_ok by apply Hlog. cbn. rewrite <- Hd, String.eqb_refl. cbn.
  rewrite checked_u_small by (unfold is_u; lia). cbn.
  rewrite Hp. cbn. by replace (ww_sequence w + 1 + 1) with (ww_sequence w + 2) by lia.
Qed.

Lemma appended_visited d j h w es tail : log_of w es -> ww_sequence w + 1 < umax 64 ->
  appended d j h w -> tail ∈ [[]; [10]] ->
  visit_step from_slice_typed push_entry (ww_hmac_key w)
    (entry_line (ww_sequence w + 1) (ww_last_hash w) h j ++ tail) (head_state w, es) =
  ((mkChainState (ww_sequence w + 2) h (ww_sequence w + 1),
    es ++ [mkWalEntry (ww_sequence w + 1) (ww_last_hash w) h d]), None).
Proof.
  intros Hlog Hn Ha Ht. refine (appended_checked d j h w es tail Hlog Hn Ha Ht _ _ from_slice_typed push_entry
    (mkWalEntry (ww_sequence w + 1) (ww_last_hash w) h d) es _).
  destruct (appended_facts _ _ _ _ _ Hlog Hn Ha) as (ps & -> & F). apply (typed_reads_entry d); [apply F..|done].
Qed.

(** A line added to the file, whatever reads it. *)
Lemma appended_runs d j h w es tail : log_of w es -> ww_sequence w + 1 < umax 64 ->
  appended d j h w -> tail ∈ [[]; [10]] ->
  each_line (visit_step from_slice_typed push_entry (ww_hmac_key w))
    (ww_file w ++ entry_line (ww_sequence w + 1) (ww_last_hash w) h j ++ tail) (chain_start, []) =
  ((mkChainState (ww_sequence w + 2) h (ww_sequence w + 1),
    es ++ [mkWalEntry (ww_sequence w + 1) (ww_last_hash w) h d]), None).
Proof.
  intros Hlog Hn Ha Ht. rewrite each_line_app by apply Hlog. rewrite (lo_run _ _ Hlog).
  rewrite (appended_line d j h w es tail Hlog Hn Ha Ht). by eapply appended_visited.
Qed.

Lemma log_append d j h w es : log_of w es -> ww_sequence w + 1 < umax 64 -> appended d j h w ->
  log_of (mkWalWriter (ww_file w ++ entry_line (ww_sequence w + 1) (ww_last_hash w) h j ++ [10])
            (ww_sequence w + 1) h (ww_hmac_key w) false)
    (es ++ [mkWalEntry (ww_sequence w + 1) (ww_last_hash w) h d]).
Proof.
  intros Hlog Hn Ha. split; cbn [ww_file ww_sequence ww_last_hash ww_hmac_key ww_poisoned].
  - right. by rewrite !app_assoc, last_snoc.
  - apply Hlog.
  - rewrite (appended_runs d j h w es [10] Hlog Hn Ha tail_newline). unfold head_state.
    cbn [ww_sequence ww_last_hash]. replace (ww_sequence w + 1 + 1) with (ww_sequence w + 2) by lia.
    reflexivity.
  - pose proof (lo_sequence _ _ Hlog). lia.
  - destruct Ha as [_ ->]. apply hex_text; apply wal_hash_ok.
  - done.
Qed.

(** A torn line: nothing of it, a cut object, or all but the newline. *)
Lemma torn_line d j h w es n : log_of w es -> ww_sequence w + 1 < umax 64 -> appended d j h w ->
  let line := entry_line (ww_sequence w + 1) (ww_last_hash w) h j in
  (n <= length line)%nat ->
  validate_chain_reader (ww_file w ++ take n (line ++ [10])) (ww_hmac_key w) =
  if (n =? 0)%nat then Ok (ww_sequence w, ww_last_hash w)
  else if (n =? length line)%nat then Ok (ww_sequence w + 1, h)
  else Err Json.
Proof.
  intros Hlog Hn Ha line Hle. unfold validate_chain_reader.
  rewrite take_app_le by done. rewrite each_line_app by apply Hlog.
  pose proof (lo_run _ _ Hlog) as Hr. rewrite (visit_validates _ _ _ _ _ _ _ _ Hr).
  destruct (Nat.eqb_spec n 0) as [->|Hz]; [done|].
  destruct (Nat.eqb_spec n (length line)) as [->|Hl].
  - pose proof (appended_runs d j h w es [] Hlog Hn Ha tail_none) as H.
    rewrite each_line_app in H by apply Hlog. rewrite Hr in H. rewrite app_nil_r in H.
    rewrite firstn_all. apply visit_validates in H. fold line in H. by rewrite H.
  - assert (length (take n line) = n) as Hlen by (rewrite length_take; lia).
    destruct (appended_facts _ _ _ _ _ Hlog Hn Ha) as (ps & -> & F).
    assert (from_slice_raw (take n line) = None) as Hno
      by (apply (raw_refuses_torn d); [apply F..|fold line; lia]).
    rewrite <- (app_nil_r (take n line)), each_line_one.
    + unfold validate_step. by rewrite app_nil_r, Hno.
    + intros Hin. apply (lf_no_newline _ _ _ _ F). fold line.
      rewrite <- (take_drop n line). apply elem_of_app. by left.
    + pose proof (lf_short _ _ _ _ F). fold line in H. lia.
    + apply tail_none.
    + by destruct n.
Qed.

(** What an append contributes to the log. *)
Definition accepted {A} (r : result WalError A) : list A :=
  match r with Ok a => [a] | Err _ => [] end.

Lemma log_step os d w es r w' : log_of w es -> ww_sequence w + 1 < umax 64 ->
  append os d w = (r, w') -> ww_poisoned w' = false ->
  log_of w' (es ++ accepted r) /\ ww_hmac_key w' = ww_hmac_key w /\
  ww_sequence w' = ww_sequence w + Z.of_nat (length (accepted r)) /\
  (forall e, r = Ok e -> we_sequence e = ww_sequence w + 1 /\ we_data e = d).
Proof.
  intros Hlog Hn. destruct (append_cases os d w es Hlog Hn) as [(e & -> & _)|(j & h & Ha & ->)].
  - intros [= <- <-] _. simpl. rewrite app_nil_r. split_and!; [done|done|lia|done].
  - destruct os; intros [= <- <-]; [|done]. intros _. split; [by apply log_append|]. simpl.
    split_and!; [done|done|]. by intros e [= <-].
Qed.

End Writer.

(** ** What a head hash binds *)

Fixpoint check_all (key : option (list Z)) (es : list (WalEntry (list Z))) (c : ChainState)
    : result WalError ChainState :=
  match es with
  | [] => Ok c
  | e :: es' => c' ← check_entry key e c; check_all key es' c'
  end.

Lemma check_all_app key es es' c :
  check_all key (es ++ es') c = (c' ← check_all key es c; check_all key es' c').
Proof.
  revert c. induction es as [|e es IH]; intros c; simpl; [done|].
  destruct (check_entry key e c); simpl; [apply IH|done].
Qed.

Lemma check_all_snoc key es e c c' : check_all key (es ++ [e]) c = Ok c' ->
  exists c0, check_all key es c = Ok c0 /\ check_entry key e c0 = Ok c'.
Proof.
  rewrite check_all_app. destruct (check_all key es c) as [c0|]; simpl; [|done].
  destruct (check_entry key e c0) as [c1|] eqn:E; simpl; [|done]. intros [= <-]. eauto.
Qed.

(** A validated file is a checked list of raw entries. *)
Lemma validated_entries key bytes c c' : each_line (validate_step key) bytes c = (c', None) ->
  exists es, read_wal from_slice_raw bytes = Ok es /\ check_all key es c = Ok c'.
Proof.
  intros H. eapply (each_line_sim (fun x es => check_all key es c = Ok x)
    (validate_step key) (read_step from_slice_raw)) with (s2 := []) in H as (es & H1 & H2); [| |done].
  - exists es. unfold read_wal. by rewrite H1.
  - intros line x es x' Hx (entry & H1 & H2)%validate_step_None. exists (es ++ [entry]).
    unfold read_step. rewrite H1. split; [done|]. rewrite check_all_app, Hx. simpl. by rewrite H2.
Qed.

Lemma validate_chain_entries key bytes n h : validate_chain_inner bytes key = Ok (n, h) ->
  validate_key key = Ok tt /\
  exists es c, read_wal from_slice_raw bytes = Ok es /\ check_all key es chain_start = Ok c /\
    cs_last_sequence c = n /\ cs_last_hash c = h.
Proof.
  unfold validate_chain_inner, validate_chain_reader.
  destruct (validate_key key) as [[]|] eqn:Ek; simpl; [|done].
  destruct (each_line _ _ _) as [c [e|]] eqn:E; simpl; [done|]. intros [= <- <-].
  split; [done|]. apply validated_entries in E as (es & H1 & H2). eauto 10.
Qed.

(** The message an entry's hash is taken over. *)
Definition entry_message (e : WalEntry (list Z)) : list Z :=
  string_bytes (we_previous_hash e) ++ we_data e.

Lemma check_entry_Ok key e c c' : validate_key key = Ok tt -> check_entry key e c = Ok c' ->
  we_sequence e = cs_expected_sequence c /\ we_previous_hash e = cs_last_hash c /\
  we_entry_hash e = bytes_to_hex (wal_hash key (entry_message e)) /\
  c' = mkChainState (cs_expected_sequence c + 1) (we_entry_hash e) (we_sequence e).
Proof.
  intros Hk. unfold check_entry. destruct (Z.eqb_spec (we_sequence e) (cs_expected_sequence c)); simpl; [|done].
  destruct (String.eqb_spec (we_previous_hash e) (cs_last_hash c)); simpl; [|done].
  rewrite compute_hash_ok by done. cbn [mbind result_bind].
  match goal with |- context [String.eqb ?x ?y] => destruct (String.eqb_spec x y) as [Hh|] end; simpl; [|done].
  unfold checked_u. destruct (in_u 64 _); simpl; [|done]. intros [= <-]. by split_and!.
Qed.

Lemma checked_head key es c : validate_key key = Ok tt -> check_all key es chain_start = Ok c ->
  cs_expected_sequence c = Z.of_nat (length es) + 1 /\ cs_last_sequence c = Z.of_nat (length es) /\
  hash_text (cs_last_hash c) /\ (cs_last_hash c = "genesis"%string -> es = []).
Proof.
  intros Hk. revert c. induction es as [|e es IH] using rev_ind; intros c.
  { intros [= <-]. split_and!; try done. by left. }
  intros (c0 & H0 & He)%check_all_snoc. destruct (IH _ H0) as (H1 & H2 & H3 & H4).
  apply check_entry_Ok in He as (Hs & Hp & Hh & ->); [|done]. rewrite length_app. simpl.
  destruct (wal_hash_ok key (entry_message e)) as [Hl Hb].
  split_and!; [lia|lia|rewrite Hh; by apply hex_text|].
  rewrite Hh. intros E. apply (f_equal (length ∘ string_bytes)) in E. simpl in E.
  by rewrite bytes_to_hex_bytes, hex_text_length, Hl in E.
Qed.

(** Two checked lists with the same head hash are the same list. *)
Lemma head_binds key ea : forall eb ca cb, validate_key key = Ok tt ->
  check_all key ea chain_start = Ok ca -> check_all key eb chain_start = Ok cb ->
  cs_last_hash ca = cs_last_hash cb ->
  collision_free (wal_hash key) (map entry_message ea ++ map entry_message eb) -> ea = eb.
Proof.
  induction ea as [|x ea IH] using rev_ind; intros eb ca cb Hk Ha Hb He Hc.
  { injection Ha as <-. destruct (checked_head key eb cb Hk Hb) as (_ & _ & _ & H). by rewrite H. }
  destruct eb as [|y eb _] using rev_ind.
  { injection Hb as <-. destruct (checked_head key _ ca Hk Ha) as (_ & _ & _ & H). by rewrite H. }
  apply check_all_snoc in Ha as (a0 & Ha0 & Ha1), Hb as (b0 & Hb0 & Hb1).
  destruct (checked_head key ea a0 Hk Ha0) as (A1 & _ & A3 & _).
  destruct (checked_head key eb b0 Hk Hb0) as (B1 & _ & B3 & _).
  apply check_entry_Ok in Ha1 as (Sx & Px & Hx & ->), Hb1 as (Sy & Py & Hy & ->); try done.
  simpl in He. assert (entry_message x = entry_message y) as Em.
  { apply Hc; [rewrite !map_app; set_solver..|].
    apply bytes_to_hex_inj; [apply wal_hash_ok..|congruence]. }
  unfold entry_message in Em. rewrite Px, Py in Em. apply hash_text_app_inj in Em as [Ep Ed]; try done.
  assert (ea = eb) as ->.
  { eapply IH; try done. eapply collision_free_sub; [exact Hc|]. rewrite !map_app. set_solver. }
  f_equal. f_equal. destruct x, y; simpl in *. congruence.
Qed.

Lemma checked_sequences key es c x : validate_key key = Ok tt -> check_all key es chain_start = Ok c ->
  x ∈ es -> 1 <= we_sequence x <= Z.of_nat (length es).
Proof.
  intros Hk. revert c. induction es as [|e es IH] using rev_ind; intros c; [set_solver|].
  intros (c0 & H0 & (Hs & _)%check_entry_Ok)%check_all_snoc; [|done].
  destruct (checked_head key es c0 Hk H0) as (Hexp & _). rewrite length_app. simpl.
  intros [Hx|Hx%list_elem_of_singleton]%elem_of_app; [specialize (IH _ H0 Hx)|subst x]; lia.
Qed.

(** The search of [verify_wal_contains_anchor_inner] finds a checked prefix
    with the hash it returns. *)
Lemma visited_entries {St} (visit : St -> WalEntry (list Z) -> St) key bytes c s c' s' :
  each_line (visit_step from_slice_raw visit key) bytes (c, s) = ((c', s'), None) ->
  exists es, read_wal from_slice_raw bytes = Ok es /\ check_all key es c = Ok c' /\
    s' = fold_left visit es s.
Proof.
  intros H. eapply (each_line_sim
    (fun x es => check_all key es c = Ok (fst x) /\ snd x = fold_left visit es s)
    _ (read_step from_slice_raw)) with (s2 := []) in H as (es & H1 & H2 & H3); [| |done].
  - exists es. unfold read_wal. by rewrite H1.
  - intros line [x t] es [x' t'] [Hx Ht] (entry & z & e & H1 & H2 & H3 & [= -> ->])%visit_step_None.
    rewrite H1 in H3. injection H3 as <-. simpl in *. exists (es ++ [entry]).
    unfold read_step. rewrite H1. split; [done|]. rewrite check_all_app, Hx, fold_left_app. simpl.
    rewrite H2. by subst.
Qed.

Lemma noted_prefix key a es c h : validate_key key = Ok tt -> check_all key es chain_start = Ok c ->
  fold_left (note_prefix a) es (if wa_sequence a =? 0 then Some "genesis"%string else None) = Some h ->
  exists c0, check_all key (take (Z.to_nat (wa_sequence a)) es) chain_start = Ok c0 /\ cs_last_hash c0 = h.
Proof.
  intros Hk. revert c. induction es as [|e es IH] using rev_ind; intros c.
  { intros _. rewrite take_nil. simpl. destruct (_ =? _); [|done]. intros [= <-]. eauto. }
  intros Hc. pose proof Hc as (c0 & H0 & He)%check_all_snoc. rewrite fold_left_app. simpl.
  destruct (checked_head key es c0 Hk H0) as (Hexp & _).
  pose proof He as (Hs & Hp & Hh & Hc')%check_entry_Ok; [|done].
  unfold note_prefix at 1. destruct (Z.eqb_spec (we_sequence e) (wa_sequence a)) as [Ea|Ea].
  - intros [= <-]. exists c. rewrite take_ge by (rewrite length_app; simpl; lia).
    split; [done|]. by rewrite Hc'.
  - intros Hf. destruct (IH _ H0 Hf) as (c1 & Ht & Hc1). exists c1.
    destruct (decide (Z.to_nat (wa_sequence a) <= length es)%nat).
    + by rewrite take_app_le.
    + rewrite take_ge in Ht by lia. exfalso.
      assert (noted : forall l o, (forall x, x ∈ l -> we_sequence x <> wa_sequence a) ->
        fold_left (note_prefix a) l o = o).
      { induction l as [|x l IHl]; intros o Hne; simpl; [done|]. rewrite IHl by set_solver.
        unfold note_prefix. destruct (Z.eqb_spec (we_sequence x) (wa_sequence a)); [|done].
        exfalso. eapply Hne; [|done]. set_solver. }
      rewrite noted in Hf; [destruct (Z.eqb_spec (wa_sequence a) 0); [lia|done]|].
      intros x Hx. apply (checked_sequences key es c0 x Hk H0) in Hx. lia.
Qed.

(** ** Anchors *)

Lemma verify_head_Ok a n h keyed r : verify_head a n h keyed = Ok r ->
  n = wa_sequence a /\ h = wa_last_hash a.
Proof.
  unfold verify_head. destruct (validate_metadata a keyed); simpl; [|done].
  destruct (Z.eqb_spec n (wa_sequence a)), (String.eqb_spec h (wa_last_hash a)); simpl; done.
Qed.

Lemma against_anchor key a bytes head :
  match key with
  | Some k => verify_wal_keyed_against_anchor bytes k a
  | None => verify_wal_against_anchor bytes a
  end = Ok head -> exists n, validate_chain_inner bytes key = Ok (n, wa_last_hash a).
Proof.
  destruct key as [k|]; unfold verify_wal_keyed_against_anchor, verify_wal_against_anchor,
    verify_wal_keyed, verify_wal, mbind, result_bind.
  - destruct (validate_chain_inner bytes (Some k)) as [[n h]|]; [|done].
    intros [_ <-]%verify_head_Ok. eauto.
  - destruct (validate_chain_inner bytes None) as [[n h]|]; [|done].
    intros [_ <-]%verify_head_Ok. eauto.
Qed.

Lemma contains_anchor key a bytes head : validate_key key = Ok tt ->
  verify_wal_contains_anchor_inner bytes key a = Ok head ->
  exists es c c0, read_wal from_slice_raw bytes = Ok es /\ check_all key es chain_start = Ok c /\
    check_all key (take (Z.to_nat (wa_sequence a)) es) chain_start = Ok c0 /\
    cs_last_hash c0 = wa_last_hash a.
Proof.
  intros Hk. unfold verify_wal_contains_anchor_inner, visit_verified_wal_inner.
  destruct (validate_metadata _ _); [|done]. rewrite Hk. cbn [mbind result_bind].
  set (p0 := if wa_sequence a =? 0 then _ else _).
  destruct (each_line _ _ _) as [[c ph] [e|]] eqn:E; cbn [settled mbind result_bind]; [done|].
  apply visited_entries in E as (es & H1 & H2 & ->).
  cbn [fst snd]. destruct (fold_left _ es p0) as [h|] eqn:Ef; cbn [ok_or mbind result_bind]; [|done].
  destruct (String.eqb_spec h (wa_last_hash a)) as [Eh|]; cbn; [|done]. intros _.
  apply (noted_prefix key a es c h Hk H2) in Ef as (c0 & H3 & H4).
  exists es, c, c0. split_and!; try done. congruence.
Qed.

Lemma anchored_messages (eo en : list (WalEntry (list Z))) k :
  map entry_message eo ++ map entry_message (take k en) ⊆ map entry_message eo ++ map entry_message en.
Proof.
  rewrite <- (take_drop k en) at 2. rewrite map_app. set_solver.
Qed.

End Log.
