(* ===== verification/WalSample.v ===== *)
(** * A concrete encoding for the log

    An instance of the JSON interface, used to evaluate the definitions and to
    show that the interface's laws can hold together. It prints a value of a
    countable type as the bits of its code, and reads back exactly the entry
    layout the log prints. *)

From Stdlib Require Import String.
From S2P Require Import Prelude Bytes Text Kernel Verify Wal WalTheory.
#[local] Open Scope Z_scope.

(** ** The entry parser *)

Fixpoint strip (p bs : list Z) : option (list Z) :=
  match p, bs with
  | [], _ => Some bs
  | x :: p', y :: bs' => if x =? y then strip p' bs' else None
  | _ :: _, [] => None
  end.

(** The bytes before the first [stop], and those after it. *)
Fixpoint until (stop : Z) (bs : list Z) : option (list Z * list Z) :=
  match bs with
  | [] => None
  | b :: bs' =>
      if b =? stop then Some ([], bs')
      else '(l, r) ← until stop bs'; Some (b :: l, r)
  end.

Definition toy_header (bs : list Z) : option (Z * string * string * list Z) :=
  r ← strip ([123] ++ member "sequence") bs;
  '(n, r) ← until 44 r;
  r ← strip (member "previous_hash" ++ [34]) r;
  '(p, r) ← until 34 r;
  r ← strip ([44] ++ member "entry_hash" ++ [34]) r;
  '(h, r) ← until 34 r;
  r ← strip ([44] ++ member "data") r;
  Some (decimal_value n, string_of_bytes p, string_of_bytes h, r).

Definition toy_entry (bs : list Z) : option (WalEntry (list Z)) :=
  '(n, p, h, r) ← toy_header bs;
  '(j, r) ← until 125 r;
  if bool_decide (r ∈ [[]; [10]]) then Some (mkWalEntry n p h j) else None.

Lemma strip_app p bs : strip p (p ++ bs) = Some bs.
Proof. induction p; simpl; [done|]. by rewrite Z.eqb_refl. Qed.

Lemma strip_more p : forall bs r y, strip p bs = Some r -> strip p (bs ++ y) = Some (r ++ y).
Proof.
  induction p as [|x p IH]; intros bs r y; simpl; [by intros [= <-]|].
  destruct bs as [|b bs]; simpl; [done|]. destruct (x =? b); [apply IH|done].
Qed.

Lemma until_app stop l bs : stop ∉ l -> until stop (l ++ stop :: bs) = Some (l, bs).
Proof.
  induction l as [|x l IH]; intros H; simpl; [by rewrite Z.eqb_refl|].
  apply not_elem_of_cons in H as [Hx Hl]. destruct (Z.eqb_spec x stop); [by subst|].
  by rewrite IH.
Qed.

Lemma until_more stop bs : forall l r y, until stop bs = Some (l, r) ->
  until stop (bs ++ y) = Some (l, r ++ y) /\ bs = l ++ stop :: r.
Proof.
  induction bs as [|b bs IH]; intros l r y; simpl; [done|].
  destruct (Z.eqb_spec b stop); [by intros [= <- <-]; subst|].
  destruct (until stop bs) as [[l' r']|] eqn:E; simpl; [|done]. intros [= <- <-].
  destruct (IH _ _ y eq_refl) as [-> ->]. done.
Qed.

Lemma toy_header_more bs n p h r y :
  toy_header bs = Some (n, p, h, r) -> toy_header (bs ++ y) = Some (n, p, h, r ++ y).
Proof.
  unfold toy_header. intros H.
  repeat match type of H with
  | (?o ≫= _) = Some _ =>
      let E := fresh "E" in destruct o as [?x|] eqn:E; [|done]; cbn [mbind option_bind] in H
  | (let '(_, _) := ?x in _) = Some _ => destruct x; cbn [mbind option_bind] in H
  end.
  injection H as <- <- <- <-.
  repeat match goal with
  | E : strip _ _ = Some _ |- _ => rewrite (strip_more _ _ _ y E); clear E; cbn [mbind option_bind]
  | E : until _ _ = Some _ |- _ =>
      rewrite (proj1 (until_more _ _ _ _ y E)); clear E; cbn [mbind option_bind]
  end. done.
Qed.

Lemma string_of_string_bytes s : string_of_bytes (string_bytes s) = s.
Proof.
  apply string_bytes_inj, string_bytes_of_bytes. apply list.Forall_forall.
  intros b (a & -> & _)%list_elem_of_fmap. apply byte_of_ascii_range.
Qed.

Lemma plain_text_no_quote s : plain_text s = true -> 34 ∉ string_bytes s.
Proof.
  intros H Hin%list_elem_of_In. unfold plain_text in H. rewrite forallb_forall in H.
  by specialize (H _ Hin).
Qed.

Lemma toy_header_entry n p h j tail : is_u 64 n -> plain_text p = true -> plain_text h = true ->
  toy_header (entry_line n p h j ++ tail) = Some (n, p, h, (j ++ [125]) ++ tail).
Proof.
  intros Hn Hp Hh. unfold entry_line, quoted.
  assert (44 ∉ decimal 20 n) as Hd.
  { intros Hin. pose proof (decimal_digits 20 n (proj1 Hn)) as H.
    rewrite list.Forall_forall in H. specialize (H _ Hin). lia. }
  apply plain_text_no_quote in Hp as Hp', Hh as Hh'.
  transitivity (toy_header (([123] ++ member "sequence") ++ decimal 20 n ++ 44 ::
    ((member "previous_hash" ++ [34]) ++ string_bytes p ++ 34 ::
    (([44] ++ member "entry_hash" ++ [34]) ++ string_bytes h ++ 34 ::
    (([44] ++ member "data") ++ ((j ++ [125]) ++ tail)))))).
  { f_equal. rewrite <- !app_assoc. reflexivity. }
  unfold toy_header.
  rewrite strip_app. cbn [mbind option_bind]. rewrite until_app by done. cbn [mbind option_bind].
  rewrite strip_app. cbn [mbind option_bind]. rewrite until_app by done. cbn [mbind option_bind].
  rewrite strip_app. cbn [mbind option_bind]. rewrite until_app by done. cbn [mbind option_bind].
  rewrite strip_app. cbn [mbind option_bind].
  rewrite decimal_value_decimal, !string_of_string_bytes; [done|].
  unfold is_u, umax in Hn. change (10 ^ Z.of_nat 20) with 100000000000000000000. lia.
Qed.

Lemma toy_entry_line n p h j tail : is_u 64 n -> plain_text p = true -> plain_text h = true ->
  125 ∉ j -> tail ∈ [[]; [10]] ->
  toy_entry (entry_line n p h j ++ tail) = Some (mkWalEntry n p h j).
Proof.
  intros Hn Hp Hh Hj Ht. unfold toy_entry. rewrite toy_header_entry by done.
  cbn [mbind option_bind]. rewrite <- app_assoc. cbn [app]. rewrite until_app by done.
  cbn [mbind option_bind]. by rewrite bool_decide_true.
Qed.

Lemma toy_entry_torn n p h j k : is_u 64 n -> plain_text p = true -> plain_text h = true ->
  125 ∉ j -> (k < length (entry_line n p h j))%nat -> toy_entry (take k (entry_line n p h j)) = None.
Proof.
  intros Hn Hp Hh Hj. assert (toy_header (entry_line n p h j) = Some (n, p, h, j ++ [125])) as Hl.
  { rewrite <- (app_nil_r (entry_line n p h j)), toy_header_entry by done. by rewrite app_nil_r. }
  generalize dependent (entry_line n p h j). intros line Hl Hk. unfold toy_entry.
  destruct (toy_header (take k line)) as [[[[n' p'] h'] r]|] eqn:E; [|done].
  cbn [mbind option_bind]. destruct (until 125 r) as [[j' r']|] eqn:E'; [|done]. exfalso.
  apply (toy_header_more _ _ _ _ _ (drop k line)) in E. rewrite take_drop, Hl in E.
  injection E as _ _ _ H. apply (until_more _ _ _ _ []) in E' as [_ ->].
  assert (length (drop k line) <> 0%nat) as Hne by (rewrite length_drop; lia).
  destruct (drop k line) as [|x y _] using rev_ind; [done|].
  replace ((j' ++ 125 :: r') ++ y ++ [x]) with ((j' ++ 125 :: r' ++ y) ++ [x]) in H
    by (rewrite <- !app_assoc; cbn [app]; by rewrite <- app_assoc).
  apply app_inj_tail in H as [H _]. apply Hj. rewrite H. set_solver.
Qed.

(** ** Values as bits *)

Fixpoint pos_bits (p : positive) : list Z :=
  match p with xH => [] | xO p' => 48 :: pos_bits p' | xI p' => 49 :: pos_bits p' end.
Fixpoint bits_pos (l : list Z) : positive :=
  match l with [] => xH | b :: l' => if b =? 48 then xO (bits_pos l') else xI (bits_pos l') end.

Lemma bits_pos_bits p : bits_pos (pos_bits p) = p.
Proof. induction p; simpl; congruence. Qed.

Lemma pos_bits_ascii p : Forall (fun b => 48 <= b <= 49) (pos_bits p).
Proof. induction p; simpl; constructor; done || lia. Qed.

Lemma ascii_utf8 l : Forall (fun b => b < 128) l -> utf8_valid l = true.
Proof.
  induction 1 as [|b l Hb _ IH]; [done|]. cbn [utf8_valid].
  by destruct (Z.ltb_spec b 128); [|lia].
Qed.

#[export] Instance toy_reader : JsonReader := {| from_slice_raw := toy_entry |}.

Section Toy.
Context {T : Type} `{Countable T}.

Definition toy_serialize (d : T) : list (list Z) * bool := ([pos_bits (encode d)], true).
Definition toy_typed (line : list Z) : option (WalEntry T) :=
  e ← toy_entry line;
  d ← decode (bits_pos (we_data e));
  Some (mkWalEntry (we_sequence e) (we_previous_hash e) (we_entry_hash e) d).

Lemma toy_payload d ps : toy_serialize d = (ps, true) -> concat ps = pos_bits (encode d).
Proof. intros [= <-]. simpl. by rewrite app_nil_r. Qed.

Lemma toy_payload_open (d : T) : 125 ∉ pos_bits (encode d).
Proof. intros Hin. pose proof (pos_bits_ascii (encode d)) as HF. rewrite list.Forall_forall in HF.
  specialize (HF _ Hin). lia. Qed.

#[export] Instance toy_json : WalJson T.
Proof.
  refine {| serialize := toy_serialize; from_slice_typed := toy_typed |}.
  - intros d ps ->%toy_payload. eapply List.Forall_impl; [|apply pos_bits_ascii].
    unfold is_byte, is_u, umax. simpl. lia.
  - intros d ps ->%toy_payload. apply ascii_utf8.
    eapply List.Forall_impl; [|apply pos_bits_ascii]. simpl. lia.
  - intros d ps n p h tail ->%toy_payload. intros. apply toy_entry_line; try done. apply toy_payload_open.
  - intros d ps n p h tail ->%toy_payload. intros. unfold toy_typed.
    rewrite toy_entry_line; try done; [|apply toy_payload_open].
    cbn [mbind option_bind we_data]. by rewrite bits_pos_bits, decode_encode.
  - intros d ps n p h k ->%toy_payload. intros. apply toy_entry_torn; try done; [apply toy_payload_open|lia].
Defined.

End Toy.

(** ** Audited records are countable *)

Definition action_of (z : Z) : KernelAction :=
  if z =? 1 then ExecuteRequested else if z =? 2 then Substitute else Reject.
Definition reason_of (z : Z) : KernelReason :=
  default NonPositiveUtility
    (fst <$> find (fun rz => snd rz =? z)
       (map (fun r => (r, KernelReason_repr r))
          [RequestedModelMaximizesUtility; AlternativeMaximizesUtility; RiskHardLimit;
           ConfidenceHardLimit; NoEnabledModel; QualityConstraint; LatencyConstraint;
           CapabilityConstraint; ProviderConstraint; RegionConstraint; BudgetConstraint;
           NonPositiveUtility; RiskCeilingConstraint])).

Definition decision_code (d : KernelDecision) : list Z :=
  let '(mkKernelDecision a b c d e f g h i j k l m) := d in
  [a; KernelAction_repr b; KernelReason_repr c; d; e; f; g; h; i; j; k; l; m].
Definition decision_of_code (l : list Z) : option KernelDecision :=
  match l with
  | [a; b; c; d; e; f; g; h; i; j; k; l; m] =>
      Some (mkKernelDecision a (action_of b) (reason_of c) d e f g h i j k l m)
  | _ => None
  end.
#[export] Instance KernelDecision_countable : Countable KernelDecision.
Proof. apply (inj_countable decision_code decision_of_code). by intros [? [] []]. Defined.

Definition input_code (i : KernelInput) : list Z :=
  let '(mkKernelInput a b c d e f g h i j k l m) := i in [a; b; c; d; e; f; g; h; i; j; k; l; m].
Definition input_of_code (l : list Z) : option KernelInput :=
  match l with
  | [a; b; c; d; e; f; g; h; i; j; k; l; m] => Some (mkKernelInput a b c d e f g h i j k l m)
  | _ => None
  end.
#[export] Instance KernelInput_countable : Countable KernelInput.
Proof. apply (inj_countable input_code input_of_code). by intros []. Defined.

#[export] Instance AuditBundle_eq_dec : EqDecision AuditBundle.
Proof. solve_decision. Defined.
Definition bundle_code (b : AuditBundle) : list string * (list Z * bool) :=
  let '(mkAuditBundle a b c d e f g h i j) := b in ([a; b; f; g; h; i], ([c; d; e], j)).
Definition bundle_of_code (l : list string * (list Z * bool)) : option AuditBundle :=
  match l with
  | ([a; b; f; g; h; i], ([c; d; e], j)) => Some (mkAuditBundle a b c d e f g h i j)
  | _ => None
  end.
#[export] Instance AuditBundle_countable : Countable AuditBundle.
Proof. apply (inj_countable bundle_code bundle_of_code). by intros []. Defined.

#[export] Instance AuditedRecord_eq_dec {M} `{EqDecision M} : EqDecision (AuditedRecord M).
Proof. solve_decision. Defined.
#[export] Instance AuditedRecord_countable {M} `{Countable M} : Countable (AuditedRecord M).
Proof.
  apply (inj_countable' (fun r => (ar_audit r, (ar_input r, (ar_decision r, ar_metadata r))))
    (fun t => mkAuditedRecord (fst t) (fst (snd t)) (fst (snd (snd t))) (snd (snd (snd t))))).
  by intros [].
Defined.
