(* ===== verification/WalProps.v ===== *)
(** * The write-ahead log: reopening, torn writes, anchors and replay

    Theorems about histories of a writer, about files presented against an
    anchor, and about logs of audited decisions. *)

From Stdlib Require Import String.
From S2P Require Import Prelude Bytes Text Kernel Digest Verify Wal WalTheory WalLog WalSample.
#[local] Open Scope Z_scope.
#[local] Opaque decimal.

(** ** Histories of a writer *)

Inductive WalOp (T : Type) :=
| OpAppend (os : WriteOutcome) (d : T)
| OpFlush (os_ok : bool)
| OpSync (os_ok : bool)
| OpFlushAndSync (os_ok : bool).
Arguments OpAppend {T}.
Arguments OpFlush {T}.
Arguments OpSync {T}.
Arguments OpFlushAndSync {T}.

Section Histories.
Context {HF : HashFunctions} {JR : JsonReader} {T : Type} {J : WalJson T}.

(** One operation: the entries it adds, and the writer after it. *)
Definition wal_step (o : WalOp T) (w : WalWriter) : list (WalEntry T) * WalWriter :=
  match o with
  | OpAppend os d => let '(r, w') := append os d w in (accepted r, w')
  | OpFlush b => ([], snd (flush b w))
  | OpSync b => ([], snd (sync b w))
  | OpFlushAndSync b => ([], snd (flush_and_sync b w))
  end.

Fixpoint wal_run (ops : list (WalOp T)) (w : WalWriter) : list (WalEntry T) * WalWriter :=
  match ops with
  | [] => ([], w)
  | o :: ops' =>
      let '(es, w1) := wal_step o w in
      let '(es', w2) := wal_run ops' w1 in
      (es ++ es', w2)
  end.

Lemma poisoned_step o w : ww_poisoned w = true -> wal_step o w = ([], w).
Proof.
  intros Hp. destruct o; simpl; unfold append, flush, sync, flush_and_sync; by rewrite Hp.
Qed.

Lemma poisoned_run ops w : ww_poisoned w = true -> wal_run ops w = ([], w).
Proof.
  intros Hp. induction ops as [|o ops IH]; [done|]. cbn [wal_run].
  by rewrite (poisoned_step o w Hp), IH.
Qed.

Lemma wal_step_log o w es new w' : log_of w es -> ww_sequence w + 1 < umax 64 ->
  wal_step o w = (new, w') -> ww_poisoned w' = false ->
  log_of w' (es ++ new) /\ ww_hmac_key w' = ww_hmac_key w /\
  ww_sequence w' = ww_sequence w + Z.of_nat (length new) /\
  map we_sequence new = seqZ (ww_sequence w + 1) (Z.of_nat (length new)) /\ (length new <= 1)%nat.
Proof.
  intros Hlog Hn Hs Hp. destruct o as [os d|b|b|b]; cbn [wal_step] in Hs.
  - destruct (append os d w) as [r w1] eqn:Ea. injection Hs as <- <-.
    destruct (log_step os d w es r w1 Hlog Hn Ea Hp) as (H1 & H2 & H3 & H4).
    split_and!; [done|done|done| |destruct r; simpl; lia].
    destruct r as [e|]; [|done]. destruct (H4 e eq_refl) as [Hseq _]. cbn [accepted map length].
    change (Z.of_nat 1) with 1. by rewrite Hseq, seqZ_cons.
  - unfold flush, flush_and_sync in Hs. rewrite (lo_live _ _ Hlog) in Hs.
    destruct b; injection Hs as <- <-; [|done]. rewrite app_nil_r. simpl. split_and!; done || lia.
  - unfold sync, flush_and_sync in Hs. rewrite (lo_live _ _ Hlog) in Hs.
    destruct b; injection Hs as <- <-; [|done]. rewrite app_nil_r. simpl. split_and!; done || lia.
  - unfold flush_and_sync in Hs. rewrite (lo_live _ _ Hlog) in Hs.
    destruct b; injection Hs as <- <-; [|done]. rewrite app_nil_r. simpl. split_and!; done || lia.
Qed.

Lemma wal_run_log ops : forall w es new w', log_of w es ->
  ww_sequence w + Z.of_nat (length ops) < umax 64 -> wal_run ops w = (new, w') ->
  ww_poisoned w' = false ->
  log_of w' (es ++ new) /\ ww_hmac_key w' = ww_hmac_key w /\
  ww_sequence w' = ww_sequence w + Z.of_nat (length new) /\
  map we_sequence new = seqZ (ww_sequence w + 1) (Z.of_nat (length new)).
Proof.
  induction ops as [|o ops IH]; intros w es new w' Hlog Hn; cbn [wal_run].
  { intros [= <- <-] _. rewrite app_nil_r. simpl. split_and!; done || lia. }
  destruct (wal_step o w) as [e1 w1] eqn:E1. destruct (wal_run ops w1) as [e2 w2] eqn:E2.
  intros [= <- <-] Hp. cbn [length] in Hn.
  destruct (ww_poisoned w1) eqn:Hp1; [rewrite (poisoned_run ops w1 Hp1) in E2; congruence|].
  destruct (wal_step_log o w es e1 w1 Hlog ltac:(lia) E1 Hp1) as (H1 & H2 & H3 & H4 & H5).
  destruct (IH w1 (es ++ e1) e2 w2 H1 ltac:(lia) E2 Hp) as (H6 & H7 & H8 & H9).
  rewrite length_app, app_assoc, map_app, Nat2Z.inj_add. split_and!; [done|congruence|lia|].
  rewrite seqZ_app, H4, H9 by lia. f_equal. f_equal. lia.
Qed.

Lemma wal_step_length o w : (length (fst (wal_step o w)) <= 1)%nat.
Proof. destruct o as [os d|b|b|b]; cbn [wal_step fst length]; try lia.
  destruct (append os d w) as [[e|e] w']; simpl; lia. Qed.

Lemma wal_run_length ops : forall w, (length (fst (wal_run ops w)) <= length ops)%nat.
Proof.
  induction ops as [|o ops IH]; intros w; cbn [wal_run length]; [done|].
  pose proof (wal_step_length o w). destruct (wal_step o w) as [e1 w1]. specialize (IH w1).
  destruct (wal_run ops w1) as [e2 w2]. cbn [fst] in *. rewrite length_app. lia.
Qed.

Lemma open_new key w0 : open_inner true [] key = Ok w0 ->
  validate_key key = Ok tt /\ w0 = mkWalWriter [] 0 "genesis" key false.
Proof.
  unfold open_inner. destruct (validate_key key) as [[]|]; [|done]. cbn. by intros [= <-].
Qed.

(** Claim C7: the file is the writer's state. From a new log, run
    any sequence of appends, flushes and syncs, with the operating system
    failing where it will. If the writer is not poisoned at the end, then
    reopening its file gives exactly this writer back, and a verified read
    returns exactly the entries the successful appends returned, in order and
    numbered from one: nothing acknowledged is lost, reordered or changed, and nothing refused is
    in the file. *)
Theorem log_is_writer_state key ops w0 es w :
  open_inner true [] key = Ok w0 -> Z.of_nat (length ops) < umax 64 ->
  wal_run ops w0 = (es, w) -> ww_poisoned w = false ->
  open_inner true (ww_file w) key = Ok w /\
  read_verified_wal_inner from_slice_typed (ww_file w) key = Ok es /\
  ww_sequence w = Z.of_nat (length es) /\ map we_sequence es = seqZ 1 (ww_sequence w).
Proof.
  intros (Hk & ->)%open_new Hn Hr Hp.
  destruct (wal_run_log ops _ [] es w (log_of_empty key Hk) Hn Hr Hp) as (Hlog & Hkey & Hseq & Hnum).
  cbn [ww_hmac_key ww_sequence app] in Hkey, Hseq, Hnum, Hlog. rewrite <- Hkey.
  split_and!; [by eapply log_reopens|by apply log_reads|lia|]. by rewrite Hnum, Hseq.
Qed.

(** Claim C34: a write that fails part way is fail-closed. The append
    returns the error (the serializer's own when the value cannot be encoded,
    with nothing written), the writer refuses everything afterwards, and nobody
    takes the torn bytes for an entry: validating the file gives the old head
    when nothing was written and a JSON error when part of the entry was. Only
    when the whole entry reached the file and its newline did not does
    validation report it, as the next entry. *)
Theorem torn_append_fails_closed key ops w0 es w n d :
  open_inner true [] key = Ok w0 -> Z.of_nat (length ops) + 1 < umax 64 ->
  wal_run ops w0 = (es, w) -> ww_poisoned w = false ->
  match to_json d with
  | Err e => append (FailedAfter n) d w = (Err e, w)
  | Ok j =>
      exists h w', compute_hash (ww_last_hash w) j key = Ok h /\
      let line := entry_line (ww_sequence w + 1) (ww_last_hash w) h j in
      append (FailedAfter n) d w = (Err (Io OsError), w') /\
      ww_file w' = ww_file w ++ take n (line ++ [10]) /\
      (forall ops', wal_run ops' w' = ([], w')) /\
      ((n <= length line)%nat ->
         validate_chain_reader (ww_file w') key =
         if (n =? 0)%nat then Ok (ww_sequence w, ww_last_hash w)
         else if (n =? length line)%nat then Ok (ww_sequence w + 1, h)
         else Err Json)
  end.
Proof.
  intros (Hk & ->)%open_new Hn Hr Hp.
  destruct (wal_run_log ops _ [] es w (log_of_empty key Hk) ltac:(cbn [ww_sequence]; lia) Hr Hp)
    as (Hlog & Hkey & Hseq & _). cbn [ww_hmac_key ww_sequence app] in Hkey, Hseq, Hlog.
  pose proof (wal_run_length ops (mkWalWriter [] 0 "genesis" key false)) as Hle.
  rewrite Hr in Hle. cbn [fst] in Hle.
  assert (ww_sequence w + 1 < umax 64) as Hb by lia.
  destruct (append_cases (FailedAfter n) d w es Hlog Hb) as [(e & -> & ->)|(j & h & Ha & ->)]; [done|].
  pose proof Ha as [-> Hh]. exists h. eexists. split; [rewrite compute_hash_ok, Hh by done; by rewrite Hkey|].
  split; [reflexivity|]. split; [reflexivity|].
  split; [intros ops'; by apply poisoned_run|]. rewrite <- Hkey. by eapply torn_line.
Qed.

End Histories.

(** ** Anchors *)

(** Claim C9: an anchor binds the history. Let [a] be the head of one
    log. Whatever other file is presented later, if it verifies against [a] it
    holds exactly the same entries, and if it verifies as containing [a] the
    old log is a prefix of it, entry by entry and byte by byte of data,
    provided the hash has no collision among the messages of the two logs.
    Truncating, editing or reordering the anchored history is detected. *)
Theorem anchor_binds_history (HF : HashFunctions) (JR : JsonReader) key a old new eo en :
  read_wal from_slice_raw old = Ok eo -> read_wal from_slice_raw new = Ok en ->
  validate_chain_inner old key = Ok (wa_sequence a, wa_last_hash a) ->
  collision_free (wal_hash key) (map entry_message eo ++ map entry_message en) ->
  (forall head, match key with
                | Some k => verify_wal_keyed_against_anchor new k a
                | None => verify_wal_against_anchor new a
                end = Ok head -> en = eo) /\
  (forall head, verify_wal_contains_anchor_inner new key a = Ok head -> eo `prefix_of` en).
Proof.
  intros Ho Hn Hv Hc. apply validate_chain_entries in Hv as (Hk & eo' & co & Ho' & Hco & Hs & Hh).
  rewrite Ho in Ho'. injection Ho' as <-. split.
  - intros head Ha. assert (exists n, validate_chain_inner new key = Ok (n, wa_last_hash a)) as [n Hvn]
      by by eapply against_anchor.
    apply validate_chain_entries in Hvn as (_ & en' & cn & Hn' & Hcn & _ & Hhn).
    rewrite Hn in Hn'. injection Hn' as <-. symmetry. eapply head_binds; try done. congruence.
  - intros head (en' & cn & c0 & Hn' & Hcn & H0)%contains_anchor; [|done].
    rewrite Hn in Hn'. injection Hn' as <-. destruct H0 as [H0 H1].
    rewrite (head_binds key eo (take (Z.to_nat (wa_sequence a)) en) co c0); try done.
    + apply prefix_take.
    + congruence.
    + eapply collision_free_sub; [exact Hc|]. apply anchored_messages.
Qed.

(** ** Audited records *)

(** What an audited entry has to satisfy under a policy resolver. *)
Definition entry_sound {HF : HashFunctions} {M} (resolve : PolicyResolver) (e : WalEntry (AuditedRecord M))
    : Prop :=
  let r := we_data e in
  let b := ar_audit r in
  validate_canonical b = Ok tt /\
  exists p, resolve (ab_policy_epoch b) (ab_catalog_epoch b) (ab_policy_digest_hex b) = Some p /\
    ar_decision r = prescribe p (ar_input r) /\
    ab_policy_digest_hex b = digest_to_hex (policy_digest p) /\
    ab_input_digest_hex b = digest_to_hex (input_digest (ar_input r)) /\
    ab_decision_digest_hex b = digest_to_hex (decision_digest (ar_decision r)).

Definition passed {M} (e : WalEntry (AuditedRecord M)) : WalReplayVerdict :=
  mkWalReplayVerdict (we_sequence e) true true true true.

Section Audited.
Context {HF : HashFunctions} {M : Type}.

Lemma verify_audited_entry_exact resolve (e : WalEntry (AuditedRecord M)) v :
  verify_audited_entry resolve e = Ok v <-> entry_sound resolve e /\ v = passed e.
Proof.
  unfold verify_audited_entry, entry_sound, mbind, result_bind.
  set (r := we_data e). set (b := ar_audit r).
  destruct (validate_canonical b) as [[]|]; cbn [map_err]; [|split; [done|by intros [[? _] _]]].
  destruct (resolve _ _ _) as [p|]; cbn [ok_or]; [|split; [done|by intros [[_ (? & ? & _)] _]]].
  rewrite verify_decision_spec.
  destruct (bool_decide_reflect (prescribe p (ar_input r) = ar_decision r)) as [Ed|Ed],
    (String.eqb_spec (ab_policy_digest_hex b) (digest_to_hex (policy_digest p))) as [Ep|Ep],
    (String.eqb_spec (ab_input_digest_hex b) (digest_to_hex (input_digest (ar_input r)))) as [Ei|Ei],
    (String.eqb_spec (ab_decision_digest_hex b) (digest_to_hex (decision_digest (ar_decision r)))) as [Ek|Ek];
    cbn [negb orb]; (split; [try done|intros [[_ (p' & [= <-] & ? & ? & ? & ?)] ->]; done || congruence]).
  intros [= <-]. split; [|done]. split; [done|]. exists p. by split_and!.
Qed.

Lemma verify_audited_entries_spec resolve (es : list (WalEntry (AuditedRecord M))) : forall vs,
  verify_audited_entries resolve es = Ok vs <-> Forall (entry_sound resolve) es /\ vs = map passed es.
Proof.
  induction es as [|e es IH]; intros vs; cbn [verify_audited_entries map].
  { split; [by intros [= <-]|by intros [_ ->]]. }
  rewrite list.Forall_cons. unfold mbind, result_bind.
  destruct (verify_audited_entry resolve e) as [v|x] eqn:E.
  - apply verify_audited_entry_exact in E as [Hs ->].
    destruct (verify_audited_entries resolve es) as [vs'|y].
    + destruct (proj1 (IH vs') eq_refl) as [HF' ->].
      split; [by intros [= <-]|by intros [_ ->]].
    + split; [done|]. intros [[_ H] _]. pose proof (proj2 (IH _) (conj H eq_refl)). done.
  - split; [done|]. intros [[H _] _].
    by rewrite (proj2 (verify_audited_entry_exact resolve e (passed e)) (conj H eq_refl)) in E.
Qed.

End Audited.

(** Replaying audited entries accepts exactly the sound
    ones. [verify_audited_entries] succeeds if and only if, for every entry, the
    bundle is canonical, the resolver knows the policy it names, that policy's
    digest is the one named, the kernel makes exactly the recorded decision for
    the recorded request, and the request and decision digests are the recorded
    ones; the verdicts are then all positive, one per entry, in order. *)
Theorem audited_replay_exact (HF : HashFunctions) (M : Type) resolve
    (es : list (WalEntry (AuditedRecord M))) vs :
  verify_audited_entries resolve es = Ok vs <-> Forall (entry_sound resolve) es /\ vs = map passed es.
Proof. apply verify_audited_entries_spec. Qed.

Section Verified.
Context {HF : HashFunctions} {JR : JsonReader} {M : Type} {J : WalJson (AuditedRecord M)}.
Variable p : PolicySnapshot.

(** A sequence of calls of [append_verified_audited] under one policy. *)
Fixpoint verified_run (ops : list (WriteOutcome * KernelInput * KernelDecision * M)) (w : WalWriter)
    : list (WalEntry (AuditedRecord M)) * WalWriter :=
  match ops with
  | [] => ([], w)
  | (os, i, d, md) :: ops' =>
      let '(r, w1) := append_verified_audited os p i d md w in
      let '(es, w2) := verified_run ops' w1 in
      (accepted r ++ es, w2)
  end.

Lemma verified_run_poisoned ops w : ww_poisoned w = true -> verified_run ops w = ([], w).
Proof.
  intros Hp. induction ops as [|[[[os i] d] md] ops IH]; [done|]. cbn [verified_run].
  unfold append_verified_audited.
  destruct (verified_audit_bundle p i d); [unfold append; rewrite Hp|]; by rewrite IH.
Qed.

Lemma append_verified_refuses os i d md w : prescribe p i <> d ->
  append_verified_audited os p i d md w =
  (Err (AuditFailed (saturate_u 64 (ww_sequence w + 1))
          (VerifyDecisionFailed (Mismatch (prescribe p i) d))), w).
Proof.
  intros Hd. unfold append_verified_audited, verified_audit_bundle. rewrite verify_decision_spec.
  by rewrite bool_decide_false.
Qed.

Lemma append_verified_appends os i md w :
  append_verified_audited os p i (prescribe p i) md w =
  append os (mkAuditedRecord (audit_bundle p i (prescribe p i)) i (prescribe p i) md) w.
Proof.
  unfold append_verified_audited, verified_audit_bundle. rewrite verify_decision_spec.
  by rewrite bool_decide_true.
Qed.

Lemma audited_sound i n ph h md : entry_sound (resolve_only p)
  (mkWalEntry n ph h (mkAuditedRecord (audit_bundle p i (prescribe p i)) i (prescribe p i) (md : M))).
Proof.
  split; [by apply audit_bundle_valid|]. exists p. split_and!; try done. unfold resolve_only. simpl.
  by rewrite !Z.eqb_refl, String.eqb_refl.
Qed.

Lemma verified_run_log ops : forall w es new w', log_of w es -> Forall (entry_sound (resolve_only p)) es ->
  ww_sequence w + Z.of_nat (length ops) < umax 64 -> verified_run ops w = (new, w') ->
  ww_poisoned w' = false ->
  log_of w' (es ++ new) /\ ww_hmac_key w' = ww_hmac_key w /\
  Forall (entry_sound (resolve_only p)) (es ++ new).
Proof.
  induction ops as [|[[[os i] d] md] ops IH]; intros w es new w' Hlog Hes Hn; cbn [verified_run].
  { intros [= <- <-] _. by rewrite app_nil_r. }
  cbn [length] in Hn. destruct (decide (prescribe p i = d)) as [<-|Hd].
  - rewrite append_verified_appends. destruct (append os _ w) as [r w1] eqn:Ea.
    destruct (verified_run ops w1) as [e2 w2] eqn:E2. intros [= <- <-] Hp.
    destruct (ww_poisoned w1) eqn:Hp1; [rewrite (verified_run_poisoned ops w1 Hp1) in E2; congruence|].
    destruct (log_step os _ w es r w1 Hlog ltac:(lia) Ea Hp1) as (H1 & H2 & H3 & H4).
    rewrite app_assoc, <- H2. eapply IH; try done.
    + apply list.Forall_app. split; [done|]. destruct r as [e|]; [|constructor].
      destruct (H4 e eq_refl) as [_ Hdata]. apply list.Forall_singleton.
      destruct e as [n ph h dat]. cbn [we_data] in Hdata. subst dat. apply audited_sound.
    + destruct r; cbn [accepted length] in H3; lia.
  - rewrite append_verified_refuses by done. destruct (verified_run ops w) as [e2 w2] eqn:E2.
    intros [= <- <-] Hp. eapply IH; try done. lia.
Qed.

End Verified.

(** A log written through [append_verified_audited] under
    one policy replays. A decision the kernel does not make is refused and
    changes nothing; and whatever decisions were offered, in whatever order and
    with whatever write failures before the end, as long as the writer is not
    poisoned [replay_audited_wal_keyed] accepts the file with one positive
    verdict per acknowledged entry, and each of those entries records exactly
    the kernel's decision. *)
Theorem verified_log_replays (HF : HashFunctions) (JR : JsonReader) (M : Type)
    (J : WalJson (AuditedRecord M)) p key ops w0 es w :
  open_inner true [] key = Ok w0 -> Z.of_nat (length ops) < umax 64 ->
  verified_run p ops w0 = (es, w) -> ww_poisoned w = false ->
  replay_audited_wal_keyed (ww_file w) p key = Ok (map passed es) /\
  Forall (fun e => ar_decision (we_data e) = prescribe p (ar_input (we_data e))) es /\
  (forall os i d md, prescribe p i <> d ->
     exists reason, append_verified_audited os p i d md w = (Err (AuditFailed reason.1 reason.2), w)).
Proof.
  intros (Hk & ->)%open_new Hn Hr Hp.
  destruct (verified_run_log p ops _ [] es w (log_of_empty key Hk) (List.Forall_nil _) Hn Hr Hp)
    as (Hlog & Hkey & Hs). cbn [ww_hmac_key app] in Hkey, Hlog, Hs. split_and!.
  - unfold replay_audited_wal_keyed. rewrite <- Hkey, (log_reads w es Hlog).
    apply verify_audited_entries_spec. by split.
  - eapply List.Forall_impl; [|exact Hs]. intros e (_ & p' & Hres & Hd & _). unfold resolve_only in Hres.
    destruct (_ && _ && _); [|done]. by injection Hres as <-.
  - intros os i d md Hd. eexists (_, _). by apply append_verified_refuses.
Qed.

(** ** Witnesses *)

Definition sample_key : option (list Z) := Some (replicate 32 9).
Definition sample_ops : list (WalOp Z) :=
  [OpAppend Written 5; OpSync true; OpAppend Written (-7); OpFlushAndSync true; OpFlush true].
Definition new_wal (key : option (list Z)) : WalWriter := mkWalWriter [] 0 "genesis" key false.
Definition sample_log : list (WalEntry Z) * WalWriter :=
  wal_run (HF := toy_hash) sample_ops (new_wal sample_key).

Lemma log_is_writer_state_witness :
  open_inner (HF := toy_hash) true (ww_file (snd sample_log)) sample_key = Ok (snd sample_log) /\
  read_verified_wal_inner (HF := toy_hash) (from_slice_typed (T := Z)) (ww_file (snd sample_log))
    sample_key = Ok (fst sample_log) /\
  map we_data (fst sample_log) = [5; -7].
Proof.
  destruct (log_is_writer_state (HF := toy_hash) (T := Z) sample_key sample_ops (new_wal sample_key)
    (fst sample_log) (snd sample_log)) as (H1 & H2 & _);
    [vm_compute; reflexivity|vm_compute; reflexivity|unfold sample_log; apply surjective_pairing
    |vm_compute; reflexivity|].
  split; [exact H1|]. split; [exact H2|]. vm_compute. reflexivity.
Defined.

Lemma torn_append_fails_closed_witness :
  validate_chain_reader (HF := toy_hash)
    (ww_file (snd (append (HF := toy_hash) (FailedAfter 40) 3 (snd sample_log)))) sample_key = Err Json.
Proof.
  pose proof (torn_append_fails_closed (HF := toy_hash) (T := Z) sample_key sample_ops
    (new_wal sample_key) (fst sample_log) (snd sample_log) 40 3
    ltac:(vm_compute; reflexivity) ltac:(vm_compute; reflexivity) (surjective_pairing sample_log)
    ltac:(vm_compute; reflexivity)) as H.
  destruct (to_json 3) as [j|e] eqn:Ej; [|vm_compute in Ej; discriminate Ej].
  destruct H as (h & w' & Hh & Ha & _ & _ & Hv). rewrite Ha. cbn [snd].
  vm_compute in Ej. injection Ej as <-. vm_compute in Hh. injection Hh as <-.
  rewrite Hv; [vm_compute; reflexivity|]. apply Nat.leb_le. vm_compute. reflexivity.
Defined.

Definition longer_log : WalWriter :=
  snd (wal_run (HF := toy_hash) [OpAppend Written 12] (snd sample_log)).
Definition raw_entries_of (w : WalWriter) : list (WalEntry (list Z)) :=
  match read_wal from_slice_raw (ww_file w) with Ok es => es | Err _ => [] end.

Lemma anchor_binds_history_witness :
  raw_entries_of (snd sample_log) `prefix_of` raw_entries_of longer_log /\
  length (raw_entries_of longer_log) = 3%nat.
Proof.
  destruct (anchor_binds_history toy_hash toy_reader sample_key (anchor (snd sample_log))
    (ww_file (snd sample_log)) (ww_file longer_log) (raw_entries_of (snd sample_log))
    (raw_entries_of longer_log)) as [_ H];
    [vm_compute; reflexivity|vm_compute; reflexivity|vm_compute; reflexivity| |].
  - apply (bool_decide_unpack _). vm_compute. exact I.
  - split; [|vm_compute; reflexivity].
    eapply (H (ww_sequence longer_log, ww_last_hash longer_log)). vm_compute. reflexivity.
Defined.

Definition audit_policy : PolicySnapshot :=
  new_unchecked 1 1 9000 0 0 0 [mkKernelModel 1 0 9000 10000 1 10 0 1 1000 1000].
Definition audit_input (n : Z) : KernelInput := mkKernelInput n 1 100 100 1000000 1000000 0 10000 0 1000 0 1 0.
Definition audit_ops : list (WriteOutcome * KernelInput * KernelDecision * Z) :=
  [(Written, audit_input 1, prescribe audit_policy (audit_input 1), 7);
   (Written, audit_input 2, prescribe audit_policy (audit_input 1), 8);
   (Written, audit_input 3, prescribe audit_policy (audit_input 3), 9)].
Definition audit_log : list (WalEntry (AuditedRecord Z)) * WalWriter :=
  verified_run (HF := toy_hash) audit_policy audit_ops (new_wal None).

Lemma verified_log_replays_witness :
  replay_audited_wal_keyed (HF := toy_hash) (M := Z) (ww_file (snd audit_log)) audit_policy None =
    Ok [mkWalReplayVerdict 1 true true true true; mkWalReplayVerdict 2 true true true true].
Proof.
  destruct (verified_log_replays toy_hash toy_reader Z toy_json audit_policy None audit_ops (new_wal None)
    (fst audit_log) (snd audit_log)) as [H _];
    [vm_compute; reflexivity|vm_compute; reflexivity|unfold audit_log; apply surjective_pairing
    |vm_compute; reflexivity|].
  rewrite H. vm_compute. reflexivity.
Defined.

(** ** An entry whose newline was lost

    Opening a log does not restore the newline of a last line that lacks it: the
    next append then continues that line, and the log it acknowledged no longer
    validates. *)
Definition cut_file : list Z := removelast (ww_file (snd sample_log)).

Theorem lost_newline_corrupts :
  exists w e w', open_inner (HF := toy_hash) true cut_file sample_key = Ok w /\
    append (HF := toy_hash) Written 12 w = (Ok e, w') /\
    is_ok (validate_chain_reader (HF := toy_hash) cut_file sample_key) = true /\
    validate_chain_reader (HF := toy_hash) (ww_file w') sample_key = Err Json.
Proof.
  eexists _, _, _. split; [vm_compute; reflexivity|]. split; [vm_compute; reflexivity|].
  split; vm_compute; reflexivity.
Qed.
