(* ===== verification/WalTree.v ===== *)
(** * The Merkle tree of a verified log ([MerkleTree::from_verified_wal])

    One scan validates the chain and indexes the entry hashes. The tree is the
    one over the hashes of the checked entries, and the scan never fails on an
    entry hash the chain accepted. *)

From Stdlib Require Import String.
From S2P Require Import Prelude Bytes Merkle MerkleTrees MerkleProps MerkleCache Wal WalTheory WalLog.
#[local] Open Scope Z_scope.

(** [serde_json::from_slice::<WalEntry<V>>] for a type that is only read. A line
    gives the same sequence and hashes at every type of data. *)
Class EntryReader {JR : JsonReader} (V : Type) := {
  from_slice_entry : list Z -> option (WalEntry V);
  entry_header : forall line e v, from_slice_raw line = Some e -> from_slice_entry line = Some v ->
    we_sequence v = we_sequence e /\ we_previous_hash v = we_previous_hash e /\ we_entry_hash v = we_entry_hash e
}.

Inductive WalMerkleError :=
| WalFailed (e : WalError)
| MerkleFailed (e : MerkleError).

Section tree.
Context {HF : HashFunctions} {JR : JsonReader} {V : Type} {ER : EntryReader V}.

(** The closure [visit], over the tree and the last error. *)
Definition visit_leaf (s : MerkleTree * option MerkleError) (entry : WalEntry V)
    : MerkleTree * option MerkleError :=
  match leaf_from_entry_hash (we_entry_hash entry) with
  | Ok data => (MerkleTree_push (leaf_hash data) (fst s), snd s)
  | Err error => (fst s, Some error)
  end.

Definition from_verified_wal (bytes : list Z) (key : option (list Z)) : result WalMerkleError MerkleTree :=
  let '(r, s) := visit_verified_wal_inner from_slice_entry visit_leaf bytes key (MerkleTree_new, None) in
  _ ← map_err WalFailed r;
  match snd s with Some error => Err (MerkleFailed error) | None => Ok (fst s) end.

(** ** What a visit has seen *)

Definition same_header (e : WalEntry (list Z)) (v : WalEntry V) : Prop :=
  we_sequence v = we_sequence e /\ we_previous_hash v = we_previous_hash e /\ we_entry_hash v = we_entry_hash e.

Lemma visited_typed {St} (visit : St -> WalEntry V -> St) key bytes c s c' s' :
  each_line (visit_step from_slice_entry visit key) bytes (c, s) = ((c', s'), None) ->
  exists es vs, read_wal from_slice_raw bytes = Ok es /\ check_all key es c = Ok c' /\
    Forall2 same_header es vs /\ s' = fold_left visit vs s.
Proof.
  intros H. eapply (each_line_sim
    (fun x es => check_all key es c = Ok (fst x) /\ exists vs, Forall2 same_header es vs /\ snd x = fold_left visit vs s)
    _ (read_step from_slice_raw)) with (s2 := []) in H as (es & H1 & H2 & vs & H3 & H4); [| |].
  - exists es, vs. unfold read_wal. by rewrite H1.
  - intros line [x t] es [x' t'] [Hx (vs & Hv & Ht)] (entry & z & e & H1 & H2 & H3 & [= -> ->])%visit_step_None.
    simpl in *. exists (es ++ [entry]). unfold read_step. rewrite H1. split; [done|]. rewrite check_all_app, Hx. simpl.
    rewrite H2. split; [done|]. exists (vs ++ [e]). split; [|by rewrite fold_left_app, Ht].
    apply Forall2_app; [done|]. repeat constructor; by eapply entry_header.
  - split; [done|]. exists []. by split; [constructor|].
Qed.

(** ** The leaf of a checked entry *)

Definition entry_leaf (key : option (list Z)) (e : WalEntry (list Z)) : Hash :=
  leaf_hash (wal_hash key (entry_message e)).

Lemma entry_leaf_decodes key (e : WalEntry (list Z)) h : we_entry_hash e = bytes_to_hex (wal_hash key h) ->
  leaf_from_entry_hash (we_entry_hash e) = Ok (wal_hash key h).
Proof.
  intros ->. destruct (wal_hash_ok key h) as [Hl Hb]. by apply leaf_from_entry_hash_exact.
Qed.

Lemma check_all_hashes key es : forall c c', validate_key key = Ok tt -> check_all key es c = Ok c' ->
  Forall (fun e => we_entry_hash e = bytes_to_hex (wal_hash key (entry_message e))) es.
Proof.
  induction es as [|e es IH]; intros c c' Hk; cbn; [constructor|]. intros (c0 & H1 & H2)%bind_Ok.
  apply check_entry_Ok in H1 as (_ & _ & Hh & _); [|done]. constructor; [done|by eapply IH].
Qed.

Lemma visit_leaves key es vs : Forall (fun e => we_entry_hash e = bytes_to_hex (wal_hash key (entry_message e))) es ->
  Forall2 same_header es vs -> forall t b, fold_left visit_leaf vs (t, b) =
    (fold_left (fun tree h => MerkleTree_push h tree) (map (entry_leaf key) es) t, b).
Proof.
  intros Hh H2. induction H2 as [|e v es vs (_ & _ & Hv) _ IH]; intros t b; [done|].
  apply list.Forall_cons in Hh as [He Hh]. cbn [fold_left map]. unfold visit_leaf at 2.
  rewrite Hv, (entry_leaf_decodes key e _ He). cbn [fst snd]. by apply IH.
Qed.

(** The tree is the one over the checked entries. *)
Lemma from_verified_wal_Ok bytes key tree : from_verified_wal bytes key = Ok tree ->
  validate_key key = Ok tt /\
  exists es c, read_wal from_slice_raw bytes = Ok es /\ check_all key es chain_start = Ok c /\
    tree = from_leaf_hashes (map (entry_leaf key) es).
Proof.
  unfold from_verified_wal, visit_verified_wal_inner. destruct (validate_key key) as [[]|] eqn:Ek; [|done].
  destruct (each_line _ _ _) as [[c s] [err|]] eqn:E; cbn; [done|]. intros H. split; [done|].
  apply visited_typed in E as (es & vs & H1 & H2 & H3 & ->). exists es, c. split; [done|]. split; [done|].
  rewrite (visit_leaves key es) in H; [|by eapply check_all_hashes|done]. by injection H as <-.
Qed.

(** A log whose chain is valid fails only where an entry cannot be read at the
    type [V]: never on an entry hash. *)
Lemma from_verified_wal_leaf bytes key e : from_verified_wal bytes key <> Err (MerkleFailed e).
Proof.
  unfold from_verified_wal, visit_verified_wal_inner. destruct (validate_key key) as [[]|] eqn:Ek; [|done].
  destruct (each_line _ _ _) as [[c s] [err|]] eqn:E; cbn; [done|].
  apply visited_typed in E as (es & vs & H1 & H2 & H3 & ->).
  by rewrite (visit_leaves key es); [|by eapply check_all_hashes|].
Qed.

(** The head over the first [n] entries of such a tree. *)
Lemma wal_tree_head es key n :
  0 <= n -> let leaves := map (entry_leaf key) es in
  MerkleTree_len (from_leaf_hashes leaves) = Z.of_nat (length es) /\
  (n <= Z.of_nat (length es) ->
   MerkleTree_head (from_leaf_hashes leaves) n = Some (Ok (mkTreeHead n (root_of (upto n leaves))))).
Proof.
  intros Hn leaves. destruct (cached_tree_agrees leaves n 0 0 Hn ltac:(lia)) as (H1 & H2 & _).
  assert (size_of leaves = Z.of_nat (length es)) as Hs by (unfold size_of, leaves; by rewrite length_map).
  rewrite Hs in *. split; [done|]. intros Hle. rewrite H2.
  destruct (Z.ltb_spec (Z.of_nat (length es)) n); [lia|]. unfold head_of. do 3 f_equal.
  unfold size_of, upto. rewrite length_take. unfold leaves. rewrite length_map. lia.
Qed.
End tree.
