(* ===== verification/AsyncWal.v ===== *)
(** * The asynchronous log writer ([src/async_wal.rs])

    A second implementation of the log, over [tokio] files: its own validation
    loop, an append that writes a line in three pieces and may sync, and its
    own anchor check. A [tokio] file accepts the bytes of a write and writes
    them in the background, so an append is acknowledged before its line is in
    the file, and a write that fails is reported by a later call, if at all.
    The theorems say what of the synchronous log's guarantees is left: the text
    that was accepted is the synchronous log, the file is a prefix of it, and
    after a flush that succeeded the file is all of it. A future that is
    dropped before it completes is not modelled. *)

From Stdlib Require Import String.
From S2P Require Import Prelude Bytes Text Kernel Digest Verify Wal WalTheory WalLog WalSample WalProps.
#[local] Open Scope Z_scope.
#[local] Opaque decimal.

Inductive AsyncWalError :=
| AsyncIo (reason : IoReason)
| AsyncJson
| AsyncChainBroken (sequence : Z) (expected found : string)
| AsyncDuplicateSequence (found : Z)
| AsyncAuditFailed (sequence : Z) (reason : AuditReason).

(** ** [tokio::fs::File]

    A write hands its bytes to a thread in the background. The bytes reach the
    file in order; when a write fails the rest of what was accepted is lost, and
    the failure is kept for a later call. [flush] waits for the background and
    reports its failure. What else the background does, and when, is an
    argument of the operations. *)

Record TokioFile := mkTokioFile {
  tf_written : list Z;
  tf_pending : list Z;
  tf_failed : bool
}.

(** What was written and what was accepted. *)
Definition tf_text (t : TokioFile) : list Z := tf_written t ++ tf_pending t.

(** [n] bytes more reach the file, and then perhaps a write fails. *)
Inductive Background := Progress (n : nat) | Breaks (n : nat).
Definition background (b : Background) (t : TokioFile) : TokioFile :=
  match b with
  | Progress n => mkTokioFile (tf_written t ++ take n (tf_pending t)) (drop n (tf_pending t)) (tf_failed t)
  | Breaks n => mkTokioFile (tf_written t ++ take n (tf_pending t)) [] true
  end.

(** [write_all]: an earlier failure is reported. Otherwise the bytes are
    accepted, and [n] of all that was accepted are in the file by the time the
    call returns; or a write fails after them while the call waits. *)
Inductive TokioWrite := Accepted (n : nat) | WriteFails (n : nat).
Definition write_all (os : TokioWrite) (t : TokioFile) (piece : list Z) : TokioFile * bool :=
  if tf_failed t then (mkTokioFile (tf_written t) (tf_pending t) false, false)
  else
    let text := tf_pending t ++ piece in
    match os with
    | Accepted n => (mkTokioFile (tf_written t ++ take n text) (drop n text) false, true)
    | WriteFails n => (mkTokioFile (tf_written t ++ take n text) [] false, false)
    end.

Inductive TokioFlush := Flushed | FlushFails (n : nat).
Definition tokio_flush (os : TokioFlush) (t : TokioFile) : TokioFile * bool :=
  if tf_failed t then (mkTokioFile (tf_written t) (tf_pending t) false, false)
  else
    match os with
    | Flushed => (mkTokioFile (tf_text t) [] false, true)
    | FlushFails n => (mkTokioFile (tf_written t ++ take n (tf_pending t)) [] false, false)
    end.

(** [sync_data]: the background goes on meanwhile; whether a write that failed
    there is reported by this call is not promised. *)
Record TokioSync := mkTokioSync {
  sy_background : Background;
  sy_reports : bool;
  sy_ok : bool
}.
Definition sync_data (os : TokioSync) (t : TokioFile) : TokioFile * bool :=
  let t' := background (sy_background os) t in
  (t', sy_ok os && negb (sy_reports os && tf_failed t')).

Record AsyncWalWriter := mkAsyncWalWriter {
  aw_file : TokioFile;
  aw_sequence : Z;
  aw_last_hash : string;
  aw_hmac_key : option (list Z);
  aw_sync_on_append : bool;
  aw_poisoned : bool
}.

Definition async_validate_hmac_key (key : list Z) : result AsyncWalError unit :=
  if Z.of_nat (length key) <? MIN_HMAC_KEY_BYTES then Err (AsyncIo (ShortHmacKey (Z.of_nat (length key))))
  else Ok tt.

Definition async_validate_key (key : option (list Z)) : result AsyncWalError unit :=
  match key with Some k => async_validate_hmac_key k | None => Ok tt end.

Definition async_poison (w : AsyncWalWriter) (file : TokioFile) : AsyncWalWriter :=
  mkAsyncWalWriter file (aw_sequence w) (aw_last_hash w) (aw_hmac_key w) (aw_sync_on_append w) true.

(** What happens to the three pieces of a line and to the sync after them. *)
Record AsyncOutcome := mkAsyncOutcome {
  ao_header : TokioWrite;
  ao_data : TokioWrite;
  ao_tail : TokioWrite;
  ao_sync : TokioSync
}.
Record FlushOutcome := mkFlushOutcome {
  fo_flush : TokioFlush;
  fo_sync : TokioSync
}.

Definition header_text (sequence : Z) (previous_hash entry_hash : string) : list Z :=
  [123] ++ member "sequence" ++ decimal 20 sequence ++
  [44] ++ member "previous_hash" ++ quoted previous_hash ++
  [44] ++ member "entry_hash" ++ quoted entry_hash ++ [44] ++ member "data".

Section AsyncWal.
Context {HF : HashFunctions} {JR : JsonReader}.

Definition async_compute_hash (previous_hash : string) (data_json : list Z) (key : option (list Z))
    : result AsyncWalError string :=
  match key with
  | Some k =>
      _ ← async_validate_hmac_key k;
      Ok (bytes_to_hex (hmac_sha256 k (string_bytes previous_hash ++ data_json)))
  | None => Ok (bytes_to_hex (sha256 (string_bytes previous_hash ++ data_json)))
  end.

(** The loop of [validate_chain_async_reader]; every round consumes a byte. *)
Fixpoint validate_async_loop (fuel : nat) (key : option (list Z)) (bytes : list Z) (expected_sequence : Z)
    (last_hash : string) (last_sequence : Z) : result AsyncWalError (Z * string) :=
  match fuel with
  | O => Ok (last_sequence, last_hash)
  | S fuel' =>
      let '(line, rest) := read_until (MAX_WAL_ENTRY_BYTES + 1) bytes in
      if Nat.eqb (length line) 0 then Ok (last_sequence, last_hash)
      else if MAX_WAL_ENTRY_BYTES <? Z.of_nat (length line) then
        Err (AsyncIo (EntryTooLong (Z.of_nat (length line))))
      else if forallb is_ascii_whitespace line then
        validate_async_loop fuel' key rest expected_sequence last_hash last_sequence
      else
        entry ← ok_or (from_slice_raw line) AsyncJson;
        if negb (we_sequence entry =? expected_sequence) then Err (AsyncDuplicateSequence (we_sequence entry))
        else if negb (String.eqb (we_previous_hash entry) last_hash) then
          Err (AsyncChainBroken (we_sequence entry) last_hash (we_previous_hash entry))
        else
          computed ← async_compute_hash (we_previous_hash entry) (we_data entry) key;
          if negb (String.eqb computed (we_entry_hash entry)) then
            Err (AsyncChainBroken (we_sequence entry) computed (we_entry_hash entry))
          else
            expected ← ok_or (checked_u 64 (expected_sequence + 1)) (AsyncIo SequenceOverflow);
            validate_async_loop fuel' key rest expected (we_entry_hash entry) (we_sequence entry)
  end.

Definition validate_chain_async_reader (bytes : list Z) (key : option (list Z))
    : result AsyncWalError (Z * string) :=
  validate_async_loop (S (length bytes)) key bytes 1 "genesis" 0.

Definition validate_chain_async (bytes : list Z) (key : option (list Z)) : result AsyncWalError (Z * string) :=
  _ ← async_validate_key key; validate_chain_async_reader bytes key.

Definition verify_async_wal (bytes : list Z) : result AsyncWalError (Z * string) :=
  validate_chain_async bytes None.
Definition verify_async_wal_keyed (bytes key : list Z) : result AsyncWalError (Z * string) :=
  validate_chain_async bytes (Some key).

Definition async_open_inner (lock_free : bool) (file : list Z) (hmac_key : option (list Z)) (sync_on_append : bool)
    : result AsyncWalError AsyncWalWriter :=
  _ ← async_validate_key hmac_key;
  _ ← refuse_if (negb lock_free) (AsyncIo WriterActive);
  head ← validate_chain_async_reader file hmac_key;
  Ok (mkAsyncWalWriter (mkTokioFile file [] false) (fst head) (snd head) hmac_key sync_on_append false).

Definition async_open (lock_free : bool) (file : list Z) := async_open_inner lock_free file None false.
Definition async_open_keyed (lock_free : bool) (file key : list Z) := async_open_inner lock_free file (Some key) false.
Definition async_open_with_sync (lock_free : bool) (file : list Z) (sync_on_append : bool) :=
  async_open_inner lock_free file None sync_on_append.

Section AsyncAppend.
Context {T : Type} {J : WalJson T}.

Definition async_to_json (data : T) : result AsyncWalError (list Z) :=
  let '(pieces, complete) := serialize data in
  let '(written, writer) := write_pieces (LimitedWriter_new MAX_WAL_PAYLOAD_BYTES) pieces in
  if negb (written && complete) then
    if lw_exceeded writer then Err (AsyncIo PayloadTooLong) else Err AsyncJson
  else if negb (utf8_valid (lw_inner writer)) then Err (AsyncIo PayloadNotUtf8)
  else Ok (lw_inner writer).

(** [line_len] counts the header, the payload, the brace and the newline. *)
Definition async_line (next_sequence : Z) (data : T) (w : AsyncWalWriter)
    : result AsyncWalError (list Z * list Z * string) :=
  data_json ← async_to_json data;
  entry_hash ← async_compute_hash (aw_last_hash w) data_json (aw_hmac_key w);
  let header := header_text next_sequence (aw_last_hash w) entry_hash in
  let line_len := Z.of_nat (length header) + Z.of_nat (length data_json) + 2 in
  _ ← refuse_if (MAX_WAL_ENTRY_BYTES <? line_len) (AsyncIo (EntryTooLong line_len));
  Ok (header, data_json, entry_hash).

Definition async_append (os : AsyncOutcome) (data : T) (w : AsyncWalWriter)
    : result AsyncWalError (WalEntry T) * AsyncWalWriter :=
  if aw_poisoned w then (Err (AsyncIo WriterPoisoned), w)
  else
    match checked_u 64 (aw_sequence w + 1) with
    | None => (Err (AsyncIo SequenceOverflow), w)
    | Some next_sequence =>
        match async_line next_sequence data w with
        | Err e => (Err e, w)
        | Ok (header, data_json, entry_hash) =>
            let '(f1, ok1) := write_all (ao_header os) (aw_file w) header in
            if negb ok1 then (Err (AsyncIo OsError), async_poison w f1)
            else
              let '(f2, ok2) := write_all (ao_data os) f1 data_json in
              if negb ok2 then (Err (AsyncIo OsError), async_poison w f2)
              else
                let '(f3, ok3) := write_all (ao_tail os) f2 [125; 10] in
                if negb ok3 then (Err (AsyncIo OsError), async_poison w f3)
                else
                  let '(f4, ok4) := if aw_sync_on_append w then sync_data (ao_sync os) f3 else (f3, true) in
                  if negb ok4 then (Err (AsyncIo OsError), async_poison w f4)
                  else
                    (Ok (mkWalEntry next_sequence (aw_last_hash w) entry_hash data),
                     mkAsyncWalWriter f4 next_sequence entry_hash (aw_hmac_key w) (aw_sync_on_append w) false)
        end
    end.

End AsyncAppend.

Definition async_flush_and_sync (os : FlushOutcome) (w : AsyncWalWriter) : result AsyncWalError unit * AsyncWalWriter :=
  if aw_poisoned w then (Err (AsyncIo WriterPoisoned), w)
  else
    let '(f1, ok1) := tokio_flush (fo_flush os) (aw_file w) in
    if negb ok1 then (Err (AsyncIo OsError), async_poison w f1)
    else
      let '(f2, ok2) := sync_data (fo_sync os) f1 in
      if negb ok2 then (Err (AsyncIo OsError), async_poison w f2)
      else
        (Ok tt, mkAsyncWalWriter f2 (aw_sequence w) (aw_last_hash w) (aw_hmac_key w) (aw_sync_on_append w) (aw_poisoned w)).

Definition async_anchor (w : AsyncWalWriter) : WalAnchor :=
  mkWalAnchor WAL_ANCHOR_SCHEMA (aw_sequence w) (aw_last_hash w)
    (match aw_hmac_key w with Some _ => true | None => false end).

Definition async_append_audited {M} {J : WalJson (AuditedRecord M)} (os : AsyncOutcome) (snapshot : PolicySnapshot)
    (input : KernelInput) (decision : KernelDecision) (metadata : M) (w : AsyncWalWriter)
    : result AsyncWalError (WalEntry (AuditedRecord M)) * AsyncWalWriter :=
  async_append os (mkAuditedRecord (audit_bundle snapshot input decision) input decision metadata) w.

Definition async_append_verified_audited {M} {J : WalJson (AuditedRecord M)} (os : AsyncOutcome)
    (snapshot : PolicySnapshot) (input : KernelInput) (decision : KernelDecision) (metadata : M)
    (w : AsyncWalWriter) : result AsyncWalError (WalEntry (AuditedRecord M)) * AsyncWalWriter :=
  match verified_audit_bundle snapshot input decision with
  | Err r => (Err (AsyncAuditFailed (saturate_u 64 (aw_sequence w + 1)) (VerifyDecisionFailed r)), w)
  | Ok audit => async_append os (mkAuditedRecord audit input decision metadata) w
  end.

Definition verify_async_anchor (bytes : list Z) (key : option (list Z)) (a : WalAnchor)
    : result AsyncWalError (Z * string) :=
  _ ← refuse_if (negb (String.eqb (wa_schema_version a) WAL_ANCHOR_SCHEMA))
        (AsyncIo (UnknownAnchorSchema (wa_schema_version a)));
  _ ← refuse_if (negb (Bool.eqb (wa_keyed a) (match key with Some _ => true | None => false end)))
        (AsyncIo AnchorModeMismatch);
  head ← validate_chain_async bytes key;
  _ ← refuse_if (negb (fst head =? wa_sequence a) || negb (String.eqb (snd head) (wa_last_hash a)))
        (AsyncIo (AnchorMismatch (wa_sequence a) (wa_last_hash a) (fst head) (snd head)));
  Ok head.

Definition verify_async_wal_against_anchor (bytes : list Z) (a : WalAnchor) := verify_async_anchor bytes None a.
Definition verify_async_wal_keyed_against_anchor (bytes key : list Z) (a : WalAnchor) :=
  verify_async_anchor bytes (Some key) a.
End AsyncWal.

(** ** The synchronous log it stands for *)

Definition wal_error (e : AsyncWalError) : WalError :=
  match e with
  | AsyncIo r => Io r
  | AsyncJson => Json
  | AsyncChainBroken n x y => ChainBroken n x y
  | AsyncDuplicateSequence n => DuplicateSequence n
  | AsyncAuditFailed n r => AuditFailed n r
  end.

(** The blocking writer that has written what this one was accepted. *)
Definition as_sync (w : AsyncWalWriter) : WalWriter :=
  mkWalWriter (tf_text (aw_file w)) (aw_sequence w) (aw_last_hash w) (aw_hmac_key w) (aw_poisoned w).

Section simulation.
Context {HF : HashFunctions} {JR : JsonReader}.

Lemma async_hash_exact p j key : map_err wal_error (async_compute_hash p j key) = compute_hash p j key.
Proof.
  destruct key as [k|]; [|done]. unfold async_compute_hash, compute_hash, async_validate_hmac_key, validate_hmac_key.
  by destruct (_ <? _).
Qed.

Lemma async_key_exact key : map_err wal_error (async_validate_key key) = validate_key key.
Proof. destruct key; [|done]. cbn. unfold async_validate_hmac_key, validate_hmac_key. by destruct (_ <? _). Qed.

Lemma map_err_bind {A B} (m : result AsyncWalError A) (k : A -> result AsyncWalError B) :
  map_err wal_error (m ≫= k) = (a ← map_err wal_error m; map_err wal_error (k a)).
Proof. by destruct m. Qed.

Lemma async_loop_exact fuel : forall key bytes x h n,
  map_err wal_error (validate_async_loop fuel key bytes x h n) =
  settled chain_head (while_lines fuel (validate_step key) bytes (mkChainState x h n)).
Proof.
  induction fuel as [|fuel IH]; intros key bytes x h n; [done|]. cbn [validate_async_loop while_lines].
  unfold read_bounded_line. destruct (read_until _ bytes) as [[|b line] rest].
  { by rewrite (proj2 (Z.ltb_ge _ _)) by (by_compute). }
  cbn [length Nat.eqb]. destruct (_ <? _); [done|]. destruct (forallb _ _); [apply IH|].
  unfold validate_step. destruct (from_slice_raw (b :: line)) as [entry|]; [|done].
  cbn [ok_or mbind result_bind proceed]. unfold check_entry. cbn [cs_expected_sequence cs_last_hash].
  destruct (negb _); [done|]. destruct (negb _); [done|].
  rewrite map_err_bind, async_hash_exact. destruct (compute_hash _ _ _) as [computed|e]; [|done].
  cbn [mbind result_bind proceed]. destruct (negb _); [done|].
  destruct (checked_u 64 _); cbn [ok_or mbind result_bind proceed map_err wal_error]; [apply IH|done].
Qed.

Lemma async_validate_exact bytes key :
  map_err wal_error (validate_chain_async_reader bytes key) = validate_chain_reader bytes key.
Proof. apply async_loop_exact. Qed.

Lemma async_open_exact free file key sync :
  map_err wal_error (w ← async_open_inner free file key sync; Ok (as_sync w)) = open_inner free file key.
Proof.
  unfold async_open_inner, open_inner. rewrite <- async_key_exact. destruct (async_validate_key key); [|done].
  destruct free; [|done]. rewrite <- async_validate_exact. destruct (validate_chain_async_reader file key); [|done].
  cbn. unfold as_sync, tf_text. cbn. by rewrite app_nil_r.
Qed.

(** ** What the file operations do to the text *)

Lemma background_text b t : let t' := background b t in
  (tf_failed t' = tf_failed t /\ tf_text t' = tf_text t) \/ (tf_failed t' = true /\ tf_text t' `prefix_of` tf_text t).
Proof.
  destruct b as [n|n]; cbn; [left|right]; (split; [done|]); unfold tf_text; cbn.
  - by rewrite <- app_assoc, take_drop.
  - rewrite app_nil_r. exists (drop n (tf_pending t)). by rewrite <- app_assoc, take_drop.
Qed.

Lemma write_all_text os t piece t' ok : tf_failed t = false -> write_all os t piece = (t', ok) ->
  tf_failed t' = false /\
  if ok then tf_text t' = tf_text t ++ piece else tf_text t' `prefix_of` tf_text t ++ piece.
Proof.
  intros Hf. unfold write_all. rewrite Hf. destruct os as [n|n]; intros [= <- <-]; (split; [done|]); unfold tf_text; cbn.
  - by rewrite <- !app_assoc, take_drop.
  - rewrite app_nil_r, <- app_assoc. exists (drop n (tf_pending t ++ piece)). by rewrite <- app_assoc, take_drop.
Qed.

Lemma tokio_flush_text os t t' ok : tf_failed t = false -> tokio_flush os t = (t', ok) ->
  tf_failed t' = false /\ tf_pending t' = [] /\
  if ok then tf_text t' = tf_text t else tf_text t' `prefix_of` tf_text t.
Proof.
  intros Hf. unfold tokio_flush. rewrite Hf. destruct os as [|n]; intros [= <- <-]; (split_and!; [done|done|]); unfold tf_text; cbn.
  - by rewrite app_nil_r.
  - rewrite app_nil_r. exists (drop n (tf_pending t)). by rewrite <- app_assoc, take_drop.
Qed.

Section writer.
Context {T : Type} {J : WalJson T}.

Lemma async_json_exact (d : T) : map_err wal_error (async_to_json d) = to_json d.
Proof.
  unfold async_to_json, to_json. destruct (serialize d) as [ps c]. destruct (write_pieces _ ps) as [b w].
  destruct (negb _); [by destruct (lw_exceeded w)|]. by destruct (negb _).
Qed.

Lemma header_entry n p h j : header_text n p h ++ j ++ [125] = entry_line n p h j.
Proof. unfold header_text, entry_line. by rewrite <- !app_assoc. Qed.

(** The payload bound leaves room for the rest of the line. *)
Lemma async_line_exact n (d : T) w es : log_of (as_sync w) es -> n = aw_sequence w + 1 -> n < umax 64 ->
  map_err wal_error (async_line n d w) =
    (j ← to_json d; h ← compute_hash (aw_last_hash w) j (aw_hmac_key w); Ok (header_text n (aw_last_hash w) h, j, h)).
Proof.
  intros Hlog -> Hn. unfold async_line. rewrite map_err_bind, async_json_exact.
  destruct (to_json d) as [j|] eqn:Ej; [|done]. cbn [mbind result_bind]. rewrite map_err_bind, async_hash_exact.
  rewrite compute_hash_ok by apply (lo_key _ _ Hlog). cbn [mbind result_bind]. set (h := bytes_to_hex _).
  assert (appended d j h (as_sync w)) as Ha by done.
  destruct (appended_facts d j h (as_sync w) es Hlog Hn Ha) as (ps & Eps & F). subst j.
  pose proof (lf_short _ _ _ _ F) as Hs. cbn [as_sync ww_sequence ww_last_hash] in Hs.
  rewrite <- header_entry, !length_app in Hs. cbn [length] in Hs. rewrite (proj2 (Z.ltb_ge _ _)) by lia. done.
Qed.

Definition same_head (w : AsyncWalWriter) (lw : WalWriter) : Prop :=
  aw_sequence w = ww_sequence lw /\ aw_last_hash w = ww_last_hash lw /\ aw_hmac_key w = ww_hmac_key lw.

(** An append is refused with nothing written; or it is the append of the
    blocking writer on the accepted text, of which the file has or will have
    all, or, once a write has failed, a part. *)
Lemma async_append_cases os (d : T) w es r w' : tf_failed (aw_file w) = false -> log_of (as_sync w) es ->
  aw_sequence w + 1 < umax 64 -> async_append os d w = (r, w') ->
  aw_sync_on_append w' = aw_sync_on_append w /\
  ((exists e, r = Err e /\ w' = w) \/
   exists e lw, append Written d (as_sync w) = (Ok e, lw) /\
     ((exists x, r = Err x /\ aw_poisoned w' = true /\ aw_hmac_key w' = aw_hmac_key w /\
         tf_text (aw_file w') `prefix_of` ww_file lw) \/
      (r = Ok e /\ aw_poisoned w' = false /\ same_head w' lw /\
         (tf_failed (aw_file w') = false /\ tf_text (aw_file w') = ww_file lw \/
          tf_failed (aw_file w') = true /\ tf_text (aw_file w') `prefix_of` ww_file lw)))).
Proof.
  intros Hf Hlog Hn. pose proof (lo_sequence _ _ Hlog) as Hs. pose proof (lo_live _ _ Hlog) as Hp. cbn in Hs, Hp.
  unfold async_append. rewrite Hp, checked_u_small by (unfold is_u; lia).
  pose proof (async_line_exact (aw_sequence w + 1) d w es Hlog eq_refl Hn) as El.
  destruct (async_line _ d w) as [[[hd j] h]|e]; cbn [map_err] in El.
  2: { intros [= <- <-]. split; [done|]. left. by eexists. }
  destruct (to_json d) as [j'|] eqn:Ej; cbn [mbind result_bind] in El; [|done].
  destruct (compute_hash _ j' _) as [h'|] eqn:Eh; cbn [mbind result_bind] in El; [|done]. injection El as -> -> ->.
  set (text := tf_text (aw_file w) ++ header_text (aw_sequence w + 1) (aw_last_hash w) h' ++ j' ++ [125; 10]).
  assert (append Written d (as_sync w) = (Ok (mkWalEntry (aw_sequence w + 1) (aw_last_hash w) h' d),
    mkWalWriter text (aw_sequence w + 1) h' (aw_hmac_key w) false)) as Ha.
  { unfold append. cbn [as_sync ww_poisoned ww_sequence ww_last_hash ww_hmac_key ww_file].
    rewrite Hp, checked_u_small by (unfold is_u; lia). rewrite Ej. cbn [mbind result_bind]. rewrite Eh. cbn [mbind result_bind].
    unfold text. rewrite <- header_entry, <- !app_assoc. done. }
  intros H. assert (forall f, tf_text f `prefix_of` text ->
    (r, w') = (Err (AsyncIo OsError), async_poison w f) -> aw_sync_on_append w' = aw_sync_on_append w /\
    exists x, r = Err x /\ aw_poisoned w' = true /\ aw_hmac_key w' = aw_hmac_key w /\ tf_text (aw_file w') `prefix_of` text) as Hbad.
  { intros f Hpre [= -> ->]. split; [done|]. by eexists. }
  enough (aw_sync_on_append w' = aw_sync_on_append w /\
    ((exists x, r = Err x /\ aw_poisoned w' = true /\ aw_hmac_key w' = aw_hmac_key w /\ tf_text (aw_file w') `prefix_of` text) \/
     (r = Ok (mkWalEntry (aw_sequence w + 1) (aw_last_hash w) h' d) /\ aw_poisoned w' = false /\
      same_head w' (mkWalWriter text (aw_sequence w + 1) h' (aw_hmac_key w) false) /\
      (tf_failed (aw_file w') = false /\ tf_text (aw_file w') = text \/
       tf_failed (aw_file w') = true /\ tf_text (aw_file w') `prefix_of` text)))) as [? ?].
  { split; [done|]. right. eexists _, _. split; [exact Ha|]. done. }
  destruct (write_all (ao_header os) _ _) as [f1 ok1] eqn:E1. apply write_all_text in E1 as [F1 E1]; [|done].
  destruct ok1; cbn [negb] in H.
  2: { destruct (Hbad f1) as [? ?]; [|by symmetry|by auto]. unfold text. rewrite app_assoc. by apply prefix_app_r. }
  destruct (write_all (ao_data os) _ _) as [f2 ok2] eqn:E2. apply write_all_text in E2 as [F2 E2]; [|done]. rewrite E1 in E2.
  destruct ok2; cbn [negb] in H.
  2: { destruct (Hbad f2) as [? ?]; [|by symmetry|by auto]. unfold text. rewrite !app_assoc. by apply prefix_app_r. }
  destruct (write_all (ao_tail os) _ _) as [f3 ok3] eqn:E3. apply write_all_text in E3 as [F3 E3]; [|done]. rewrite E2 in E3.
  rewrite <- !app_assoc in E3. fold text in E3. destruct ok3; cbn [negb] in H; [|destruct (Hbad f3) as [? ?]; [done|by symmetry|by auto]].
  destruct (aw_sync_on_append w) eqn:Es; cbn [negb] in H.
  2: { injection H as <- <-. split; [done|]. right. split_and!; try done. by left. }
  unfold sync_data in H.
  pose proof (background_text (sy_background (ao_sync os)) f3) as Hb. cbv zeta in Hb. rewrite F3, E3 in Hb.
  set (f4 := background _ f3) in *. destruct (sy_ok _ && _); cbn [negb] in H.
  - injection H as <- <-. split; [done|]. right. done.
  - destruct (Hbad f4) as [? ?]; [|by symmetry|by auto]. destruct Hb as [[_ ->]|[_ ?]]; done.
Qed.
End writer.
End simulation.

(** ** Histories *)

Inductive AsyncOp (T : Type) :=
| AsyncAppend (os : AsyncOutcome) (d : T)
| AsyncFlush (os : FlushOutcome)
| AsyncBackground (b : Background).
Arguments AsyncAppend {T}.
Arguments AsyncFlush {T}.
Arguments AsyncBackground {T}.

Definition async_accepted {A} (r : result AsyncWalError A) : list A :=
  match r with Ok a => [a] | Err _ => [] end.

Definition with_file (w : AsyncWalWriter) (file : TokioFile) : AsyncWalWriter :=
  mkAsyncWalWriter file (aw_sequence w) (aw_last_hash w) (aw_hmac_key w) (aw_sync_on_append w) (aw_poisoned w).

Section histories.
Context {HF : HashFunctions} {JR : JsonReader} {T : Type} {J : WalJson T}.

Definition async_step (o : AsyncOp T) (w : AsyncWalWriter) : list (WalEntry T) * AsyncWalWriter :=
  match o with
  | AsyncAppend os d => let '(r, w') := async_append os d w in (async_accepted r, w')
  | AsyncFlush os => ([], snd (async_flush_and_sync os w))
  | AsyncBackground b => ([], with_file w (background b (aw_file w)))
  end.

Fixpoint async_run (ops : list (AsyncOp T)) (w : AsyncWalWriter) : list (WalEntry T) * AsyncWalWriter :=
  match ops with
  | [] => ([], w)
  | o :: ops' =>
      let '(es, w1) := async_step o w in
      let '(es', w2) := async_run ops' w1 in
      (es ++ es', w2)
  end.

(** The log a blocking writer leaves when it appends the data of [es] to a new
    file, one after the other, and every write succeeds. *)
Definition blocking_log (key : option (list Z)) (es : list (WalEntry T)) (lw : WalWriter) : Prop :=
  wal_run (map (fun e => OpAppend Written (we_data e)) es) (mkWalWriter [] 0 "genesis" key false) = (es, lw) /\
  ww_poisoned lw = false.

Lemma wal_run_app ops ops' (w : WalWriter) : wal_run (T := T) (ops ++ ops') w =
  let '(es, w1) := wal_run ops w in let '(es', w2) := wal_run ops' w1 in (es ++ es', w2).
Proof.
  revert w. induction ops as [|o ops IH]; intros w; cbn [app wal_run].
  - by destruct (wal_run ops' w).
  - destruct (wal_step o w) as [e1 w1]. rewrite IH. destruct (wal_run ops w1) as [e2 w2]. destruct (wal_run ops' w2).
    by rewrite app_assoc.
Qed.

Lemma blocking_log_ok key es lw : validate_key key = Ok tt -> Z.of_nat (length es) < umax 64 -> blocking_log key es lw ->
  log_of lw es /\ ww_hmac_key lw = key /\ ww_sequence lw = Z.of_nat (length es) /\
  map we_sequence es = seqZ 1 (Z.of_nat (length es)).
Proof.
  intros Hk Hn [Hr Hp]. pose proof (log_of_empty (T := T) key Hk) as L0.
  eapply wal_run_log in Hr as (? & ? & ? & ?); [|exact L0|rewrite length_map; cbn [ww_sequence]; lia|done]. by split_and!.
Qed.

Lemma blocking_log_append key es lw d e lw' : validate_key key = Ok tt -> Z.of_nat (length es) + 1 < umax 64 ->
  blocking_log key es lw -> append Written d lw = (Ok e, lw') -> blocking_log key (es ++ [e]) lw'.
Proof.
  intros Hk Hn Hb Ha. destruct (blocking_log_ok key es lw Hk ltac:(lia) Hb) as (L & _ & Hs & _). destruct Hb as [Hr Hp].
  assert (ww_poisoned lw' = false) as Hp'.
  { destruct (append_cases Written d lw es L ltac:(lia)) as [(x & E & _)|(j & h & _ & E)]; rewrite E in Ha; [done|].
    by injection Ha as <- <-. }
  destruct (log_step Written d lw es _ _ L ltac:(lia) Ha Hp') as (_ & _ & _ & He). destruct (He e eq_refl) as [_ Hd].
  split; [|done]. rewrite map_app, wal_run_app, Hr. cbn [map wal_run wal_step]. rewrite Hd, Ha. cbn. done.
Qed.

(** The acknowledged entries, and at most one that was not. *)
Definition up_to_one (es es' : list (WalEntry T)) : Prop := es' = es \/ exists e, es' = es ++ [e].

(** Either all is well, and the accepted text is the blocking writer's file; or
    a write has failed, the writer is poisoned or will be told, and the text is
    the beginning of such a file. *)
Definition async_inv (key : option (list Z)) (w : AsyncWalWriter) (es : list (WalEntry T)) : Prop :=
  aw_hmac_key w = key /\
  ((tf_failed (aw_file w) = false /\ blocking_log key es (as_sync w)) \/
   ((aw_poisoned w = true \/ tf_failed (aw_file w) = true) /\
    exists es' lw, blocking_log key es' lw /\ up_to_one es es' /\ tf_text (aw_file w) `prefix_of` ww_file lw)).

Lemma flush_cases os w r w' : tf_failed (aw_file w) = false -> aw_poisoned w = false ->
  async_flush_and_sync os w = (r, w') ->
  (r = Ok tt /\ tf_written (aw_file w') = tf_text (aw_file w) /\ tf_pending (aw_file w') = [] /\
     w' = with_file w (aw_file w')) \/
  (exists e, r = Err e /\ aw_poisoned w' = true /\ aw_hmac_key w' = aw_hmac_key w /\
     tf_text (aw_file w') `prefix_of` tf_text (aw_file w)).
Proof.
  intros Hf Hp. unfold async_flush_and_sync. rewrite Hp. destruct (tokio_flush _ _) as [f1 ok1] eqn:E1.
  apply tokio_flush_text in E1 as (F1 & P1 & E1); [|done]. destruct ok1; cbn [negb].
  2: { intros [= <- <-]. right. by eexists. }
  unfold sync_data. pose proof (background_text (sy_background (fo_sync os)) f1) as Hb. cbv zeta in Hb.
  assert (tf_written (background (sy_background (fo_sync os)) f1) = tf_text f1 /\
    tf_pending (background (sy_background (fo_sync os)) f1) = []) as [Hw Hpe].
  { unfold tf_text. rewrite P1. destruct (sy_background _); cbn; by rewrite P1, ?take_nil, ?drop_nil. }
  destruct (sy_ok _ && _); cbn [negb]; intros [= <- <-].
  - left. cbn. unfold with_file. by rewrite Hw, ?Hp.
  - right. eexists. split_and!; [done..|]. cbn. rewrite <- E1. destruct Hb as [[_ ->]|[_ ?]]; done.
Qed.

Lemma poisoned_async_step o w : aw_poisoned w = true ->
  exists f, async_step o w = ([], with_file w f) /\ tf_text f `prefix_of` tf_text (aw_file w).
Proof.
  intros Hp. destruct o as [os d|os|b]; cbn [async_step]; unfold async_append, async_flush_and_sync; rewrite ?Hp.
  - exists (aw_file w). by destruct w.
  - exists (aw_file w). by destruct w.
  - eexists. split; [done|]. pose proof (background_text b (aw_file w)) as [[_ ->]|[_ ?]]; done.
Qed.

(** A failure that nobody was told of stops the next append and the next flush. *)
Lemma failed_async_append os (d : T) w : tf_failed (aw_file w) = true -> aw_poisoned w = false ->
  exists e, async_append os d w = (Err e, w) \/
    exists f, async_append os d w = (Err e, async_poison w f) /\ tf_text f = tf_text (aw_file w).
Proof.
  intros Hf Hp. unfold async_append. rewrite Hp. destruct (checked_u _ _); [|by eexists; left].
  destruct (async_line _ _ _) as [[[hd j] h]|e]; [|by eexists; left].
  assert (write_all (ao_header os) (aw_file w) hd = (mkTokioFile (tf_written (aw_file w)) (tf_pending (aw_file w)) false, false))
    as -> by (unfold write_all; by rewrite Hf). eexists. right. by eexists.
Qed.

Lemma failed_async_flush os w : tf_failed (aw_file w) = true -> aw_poisoned w = false ->
  exists e f, async_flush_and_sync os w = (Err e, async_poison w f) /\ tf_text f = tf_text (aw_file w).
Proof. intros Hf Hp. unfold async_flush_and_sync, tokio_flush. rewrite Hp, Hf. cbn [negb]. by eexists _, _. Qed.

(** One step keeps to [async_inv]: from a file with no failed write, by the
    kind of step, and from one with a failed write or a poisoned writer. *)
Lemma sound_append_inv key os d w es r w1 : validate_key key = Ok tt -> Z.of_nat (length es) + 1 < umax 64 ->
  aw_hmac_key w = key -> tf_failed (aw_file w) = false -> blocking_log key es (as_sync w) ->
  async_append os d w = (r, w1) ->
  async_inv key w1 (es ++ async_accepted r) /\ aw_sync_on_append w1 = aw_sync_on_append w.
Proof.
  intros Hk Hn Hky Hf Hb E. destruct (blocking_log_ok key es _ Hk ltac:(lia) Hb) as (L & _ & Hsq & _). cbn in Hsq.
  destruct (async_append_cases os d w es r w1 Hf L ltac:(lia) E) as (Hso & [(e & -> & ->)|(e & lw & Ha & Hc)]).
  { cbn. rewrite app_nil_r. split; [|done]. split; [done|]. by left. }
  assert (blocking_log key (es ++ [e]) lw) as Hb' by (eapply blocking_log_append; [done| |exact Hb|done]; lia).
  destruct Hc as [(x & -> & Hp' & Hk' & Hpre)|(-> & Hp' & (H1 & H2 & H3) & Ht)]; cbn [async_accepted].
  - rewrite app_nil_r. split; [|done]. split; [congruence|]. right. split; [by left|].
    exists (es ++ [e]), lw. split_and!; [done|by right; eexists|done].
  - split; [|done]. destruct (blocking_log_ok key (es ++ [e]) _ Hk ltac:(rewrite length_app; cbn [length]; lia) Hb') as (_ & Hlk & _).
    split; [congruence|]. destruct Ht as [[Hf' Ht]|[Hf' Ht]].
    { left. split; [done|]. assert (as_sync w1 = lw) as ->; [|done]. unfold as_sync. rewrite Ht, H1, H2, H3, Hp'.
      destruct Hb' as [_ Hb']. destruct lw; cbn in *. by subst. }
    right. split; [by right|]. exists (es ++ [e]), lw. split_and!; [done|by left|done].
Qed.

Lemma sound_flush_inv key os w es r w1 : aw_hmac_key w = key -> tf_failed (aw_file w) = false -> aw_poisoned w = false ->
  blocking_log key es (as_sync w) -> async_flush_and_sync os w = (r, w1) ->
  async_inv key w1 es /\ aw_sync_on_append w1 = aw_sync_on_append w.
Proof.
  intros Hky Hf Hp Hb E. assert (aw_sync_on_append w1 = aw_sync_on_append w) as Hso.
  { revert E. unfold async_flush_and_sync. rewrite Hp. destruct (tokio_flush _ _) as [? []]; cbn; [|by intros [= <- <-]].
    by destruct (_ && _); intros [= <- <-]. }
  split; [|done]. destruct (flush_cases os w r w1 Hf Hp E) as [(_ & Hw & Hpe & Hw1)|(e & _ & Hp' & Hk' & Hpre)].
  - rewrite Hw1. cbn [with_file]. split; [done|]. cbn. destruct (tf_failed (aw_file w1)) eqn:Hf1.
    { right. split; [by right|]. exists es, (as_sync w). split_and!; [done|by left|]. unfold tf_text at 1. by rewrite Hw, Hpe, app_nil_r. }
    left. split; [done|]. unfold as_sync. cbn. unfold tf_text at 1. rewrite Hw, Hpe, app_nil_r. exact Hb.
  - split; [congruence|]. right. split; [by left|]. exists es, (as_sync w). split_and!; [done|by left|done].
Qed.

Lemma sound_step_inv key o w es new w' : validate_key key = Ok tt -> Z.of_nat (length es) + 1 < umax 64 ->
  aw_hmac_key w = key -> tf_failed (aw_file w) = false -> aw_poisoned w = false -> blocking_log key es (as_sync w) ->
  async_step o w = (new, w') -> async_inv key w' (es ++ new) /\ aw_sync_on_append w' = aw_sync_on_append w /\ (length new <= 1)%nat.
Proof.
  intros Hk Hn Hky Hf Hp Hb Hs. destruct o as [os d|os|b]; cbn [async_step] in Hs.
  - destruct (async_append os d w) as [r w1] eqn:E. injection Hs as <- <-.
    destruct (sound_append_inv key os d w es r w1 Hk Hn Hky Hf Hb E). split_and!; [done|done|]. destruct r; cbn; lia.
  - destruct (async_flush_and_sync os w) as [r w1] eqn:E. injection Hs as <- <-. rewrite app_nil_r. cbn [snd].
    destruct (sound_flush_inv key os w es r w1 Hky Hf Hp Hb E). split_and!; [done|done|cbn; lia].
  - injection Hs as <- <-. rewrite app_nil_r. split_and!; [|done|cbn; lia]. split; [done|]. cbn.
    pose proof (background_text b (aw_file w)) as [[F E]|[F E]].
    + left. split; [congruence|]. unfold as_sync. cbn. rewrite E. exact Hb.
    + right. split; [by right|]. exists es, (as_sync w). split_and!; [done|by left|done].
Qed.

Lemma failed_step_inv key o w es es' lw new w' : aw_hmac_key w = key -> tf_failed (aw_file w) = true -> aw_poisoned w = false ->
  blocking_log key es' lw -> up_to_one es es' -> tf_text (aw_file w) `prefix_of` ww_file lw ->
  async_step o w = (new, w') -> async_inv key w' (es ++ new) /\ aw_sync_on_append w' = aw_sync_on_append w /\ (length new <= 1)%nat.
Proof.
  intros Hky Hf Hp Hb Hu Hpre Hs. assert (forall w1, aw_hmac_key w1 = key -> aw_poisoned w1 = true \/ tf_failed (aw_file w1) = true ->
    tf_text (aw_file w1) `prefix_of` tf_text (aw_file w) -> async_inv key w1 es) as Hrest.
  { intros w1 ? ? ?. split; [done|]. right. split; [done|]. exists es', lw. split_and!; [done|done|by etrans]. }
  destruct o as [os d|os|b]; cbn [async_step] in Hs.
  - destruct (failed_async_append os d w Hf Hp) as (e & [E|(f & E & Ef)]); rewrite E in Hs; injection Hs as <- <-;
      cbn [async_accepted]; rewrite app_nil_r; split_and!; try done; try (cbn; lia); apply Hrest; cbn; auto. by rewrite Ef.
  - destruct (failed_async_flush os w Hf Hp) as (e & f & E & Ef). rewrite E in Hs. injection Hs as <- <-.
    rewrite app_nil_r. split_and!; [|done|cbn; lia]. apply Hrest; cbn; auto. by rewrite Ef.
  - injection Hs as <- <-. rewrite app_nil_r. split_and!; [|done|cbn; lia].
    pose proof (background_text b (aw_file w)) as [[F E]|[F E]]; apply Hrest; cbn; auto; [right; congruence|by rewrite E].
Qed.

Lemma async_step_inv key o w es new w' : validate_key key = Ok tt -> Z.of_nat (length es) + 1 < umax 64 ->
  async_inv key w es -> async_step o w = (new, w') ->
  async_inv key w' (es ++ new) /\ aw_sync_on_append w' = aw_sync_on_append w /\ (length new <= 1)%nat.
Proof.
  intros Hk Hn [Hky Hi] Hs. destruct (aw_poisoned w) eqn:Hp.
  { destruct (poisoned_async_step o w Hp) as (f & E & Hf). rewrite E in Hs. injection Hs as <- <-. rewrite app_nil_r.
    split_and!; [|done|cbn; lia]. split; [done|]. destruct Hi as [[_ [_ Hi]]|[_ (es' & lw & ? & ? & ?)]]; [cbn in Hi; congruence|].
    right. split; [by left|]. exists es', lw. split_and!; [done|done|]. by etrans. }
  destruct Hi as [[Hf Hb]|[[?|Hf] (es' & lw & Hb & Hu & Hpre)]]; [by eapply sound_step_inv|congruence|by eapply failed_step_inv].
Qed.

Lemma async_run_inv key ops : forall w es new w', validate_key key = Ok tt ->
  Z.of_nat (length es) + Z.of_nat (length ops) < umax 64 -> async_inv key w es -> async_run ops w = (new, w') ->
  async_inv key w' (es ++ new) /\ aw_sync_on_append w' = aw_sync_on_append w /\ (length new <= length ops)%nat.
Proof.
  induction ops as [|o ops IH]; intros w es new w' Hk Hn Hi; cbn [async_run].
  { intros [= <- <-]. by rewrite app_nil_r. }
  destruct (async_step o w) as [e1 w1] eqn:E1. destruct (async_run ops w1) as [e2 w2] eqn:E2. intros [= <- <-]. cbn [length] in Hn.
  destruct (async_step_inv key o w es e1 w1 Hk ltac:(lia) Hi E1) as (Hi1 & Hs1 & Hl1).
  destruct (IH w1 (es ++ e1) e2 w2 Hk ltac:(rewrite length_app; lia) Hi1 E2) as (Hi2 & Hs2 & Hl2).
  rewrite app_assoc, length_app. cbn [length]. split_and!; [done|congruence|lia].
Qed.

Lemma async_opened key sync w0 : async_open_inner true [] key sync = Ok w0 ->
  validate_key key = Ok tt /\ w0 = mkAsyncWalWriter (mkTokioFile [] [] false) 0 "genesis" key sync false.
Proof.
  unfold async_open_inner. rewrite <- async_key_exact. destruct (async_validate_key key) as [[]|]; [|done]. cbn.
  by intros [= <-].
Qed.

Lemma async_reopens w es sync : log_of (as_sync w) es -> tf_failed (aw_file w) = false -> tf_pending (aw_file w) = [] ->
  aw_sync_on_append w = sync ->
  async_open_inner true (tf_written (aw_file w)) (aw_hmac_key w) sync = Ok w /\
  open_inner true (tf_written (aw_file w)) (aw_hmac_key w) = Ok (as_sync w).
Proof.
  intros L Hf Hpe Hs. pose proof (log_reopens _ _ L) as Ho. cbn in Ho. unfold tf_text in Ho. rewrite Hpe, app_nil_r in Ho.
  split; [|done]. pose proof (async_open_exact true (tf_written (aw_file w)) (aw_hmac_key w) sync) as Ha. rewrite Ho in Ha.
  destruct (async_open_inner true _ _ sync) as [w1|] eqn:Ew; [|done]. cbn in Ha. f_equal.
  assert (aw_sync_on_append w1 = sync /\ tf_failed (aw_file w1) = false /\ tf_pending (aw_file w1) = []) as (Hs1 & Hf1 & Hp1).
  { unfold async_open_inner in Ew. repeat (apply bind_Ok in Ew as (? & _ & Ew)). by injection Ew as <-. }
  destruct w as [[f p b] ? ? ? ? ?], w1 as [[f1 p1 b1] ? ? ? ? ?]; cbn in *. subst. unfold as_sync, tf_text in Ha. cbn in Ha.
  rewrite !app_nil_r in Ha. by simplify_eq.
Qed.

End histories.

(** ** Sample runs *)

Definition settled_sync : TokioSync := mkTokioSync (Progress 2) false true.
(** Every call finds the earlier writes done; the two bytes that end a line are
    still on their way when it returns. *)
Definition all_written : AsyncOutcome := mkAsyncOutcome (Accepted 2) (Accepted 300) (Accepted 300) settled_sync.
Definition flushed : FlushOutcome := mkFlushOutcome Flushed settled_sync.
Definition async_new (sync : bool) : AsyncWalWriter := mkAsyncWalWriter (mkTokioFile [] [] false) 0 "genesis" None sync false.

Definition async_sample_ops : list (AsyncOp Z) :=
  [AsyncAppend all_written 5; AsyncBackground (Progress 1); AsyncFlush flushed; AsyncAppend all_written 6; AsyncFlush flushed].
Definition async_sample : list (WalEntry Z) * AsyncWalWriter := async_run (HF := toy_hash) async_sample_ops (async_new false).


(** An append that syncs is acknowledged although the end of its line never
    reaches the file: [sync_data] is not told of the write that failed in the
    background, and the log does not verify. *)
Lemma acknowledged_entry_lost :
  let '(r, w) := async_append (HF := toy_hash) (mkAsyncOutcome (Accepted 300) (Accepted 300) (Accepted 0)
    (mkTokioSync (Breaks 0) false true)) 5 (async_new true) in
  is_ok r = true /\ aw_poisoned w = false /\ verify_async_wal (HF := toy_hash) (tf_written (aw_file w)) = Err AsyncJson.
Proof. by vm_compute. Qed.
