(* ===== verification/WalLocks.v ===== *)
(** * Writers of a log across processes ([src/wal.rs], [src/async_wal.rs])

    A log has one active writer: [open_inner] takes an exclusive advisory lock
    on a file named after the identity of the log, in a directory that comes
    from the environment. The state below is the part of a machine that all
    processes share, the names and contents of files and the locks held, with
    the handles of every process on logs; the calls are the steps of opening
    (open or create the file, take the lock, read the log), the operations of
    both kinds of writer, the writes an asynchronous one has in the background,
    the end of a handle and renames by anyone. Dropping a handle and the death of
    its process both release the lock; but what a dropped asynchronous writer
    has in the background is still written later, without the lock, while a
    process takes it along. A file identity is what [file_id::get_file_id]
    gives; a lock is held on a path, as nothing removes or replaces the lock
    files. *)

From Stdlib Require Import String.
From S2P Require Import Prelude Bytes Text Kernel Digest Verify Wal WalTheory WalLog WalSample WalProps AsyncWal.
#[local] Open Scope Z_scope.
#[local] Opaque decimal.

(** ** The lock of a log *)

(** [file_id::FileId]: [u64] and [u64]; [u32] and [u64]; [u64] and [u128]. *)
Inductive FileId :=
| Inode (device_id inode_number : Z)
| LowRes (volume_serial_number file_index : Z)
| HighRes (volume_serial_number file_id : Z).

#[export] Instance FileId_eq_dec : EqDecision FileId.
Proof. solve_decision. Defined.

#[export] Instance FileId_countable : Countable FileId.
Proof.
  apply (inj_countable'
    (fun i => match i with Inode a b => inl (a, b) | LowRes a b => inr (inl (a, b)) | HighRes a b => inr (inr (a, b)) end)
    (fun c => match c with inl (a, b) => Inode a b | inr (inl (a, b)) => LowRes a b | inr (inr (a, b)) => HighRes a b end)).
  by intros [].
Defined.

Definition file_id_typed (i : FileId) : Prop :=
  match i with
  | Inode d n => is_u 64 d /\ is_u 64 n
  | LowRes v n => is_u 32 v /\ is_u 64 n
  | HighRes v n => is_u 64 v /\ is_u 128 n
  end.

(** [{:08x}], [{:016x}] and [{:032x}] of an integer of that many hexadecimal
    digits, in [width] bytes. *)
Definition padded_hex (width : nat) (z : Z) : string := bytes_to_hex (be_bytes width z).

Definition lock_identity (i : FileId) : string :=
  match i with
  | Inode device_id inode_number => "inode-" +:+ padded_hex 8 device_id +:+ "-" +:+ padded_hex 8 inode_number
  | LowRes volume_serial_number file_index =>
      "lowres-" +:+ padded_hex 4 volume_serial_number +:+ "-" +:+ padded_hex 8 file_index
  | HighRes volume_serial_number file_id =>
      "highres-" +:+ padded_hex 8 volume_serial_number +:+ "-" +:+ padded_hex 16 file_id
  end.

(** [PathBuf::join] with a relative path, on Unix. *)
Definition path_join (dir name : string) : string :=
  match list.last (string_bytes dir) with
  | None => name
  | Some c => if c =? 47 then dir +:+ name else dir +:+ "/" +:+ name
  end.

Definition Environment : Type := string -> option string.

(** [env::var_os(name).filter(|value| !value.is_empty())]. *)
Definition var_os (env : Environment) (name : string) : option string :=
  v ← env name; if String.eqb v "" then None else Some v.

Definition configured_lock_dir (env : Environment) : result IoReason string :=
  match var_os env "CALYBRIS_WAL_LOCK_DIR" with
  | Some path => Ok path
  | None =>
      match var_os env "XDG_RUNTIME_DIR" with
      | Some path => Ok (path_join (path_join path "calybris") "wal-locks")
      | None =>
          match var_os env "HOME" with
          | Some path => Ok (path_join (path_join (path_join path ".cache") "calybris") "wal-locks")
          | None => Err NoLockDirectory
          end
      end
  end.

Definition lock_in (lock_dir : string) (i : FileId) : string := path_join lock_dir (lock_identity i +:+ ".lock").

(** What the operating system answers while a lock is taken: creating the
    directory, opening the lock file, and the lock call. *)
Record LockOutcome := mkLockOutcome {
  lk_create_dir : bool;
  lk_open : bool;
  lk_lock : bool
}.

(** [file_id] is what the path names now. *)
Definition writer_lock_path (file_id : option FileId) (env : Environment) (os : LockOutcome) : result IoReason string :=
  identity ← ok_or file_id OsError;
  lock_dir ← configured_lock_dir env;
  _ ← refuse_if (negb (lk_create_dir os)) OsError;
  Ok (lock_in lock_dir identity).

(** Every failure of the lock call reads as an active writer. *)
Definition acquire_writer_lock (file_id : option FileId) (env : Environment) (os : LockOutcome) (locked : gset string)
    : result WalError string :=
  lock_path ← map_err Io (writer_lock_path file_id env os);
  _ ← refuse_if (negb (lk_open os)) (Io OsError);
  _ ← refuse_if (negb (lk_lock os) || bool_decide (lock_path ∈ locked)) (Io WriterActive);
  Ok lock_path.

Definition async_acquire_writer_lock (file_id : option FileId) (env : Environment) (os : LockOutcome)
    (locked : gset string) : result AsyncWalError string :=
  lock_path ← map_err AsyncIo (writer_lock_path file_id env os);
  _ ← refuse_if (negb (lk_open os)) (AsyncIo OsError);
  _ ← refuse_if (negb (lk_lock os) || bool_decide (lock_path ∈ locked)) (AsyncIo WriterActive);
  Ok lock_path.

(** ** The machine *)

Inductive Flavour := Blocking | Asynchronous (sync_on_append : bool).
Inductive Writer := BlockingWriter (w : WalWriter) | AsynchronousWriter (w : AsyncWalWriter).

(** A handle is opening, with the file open and no lock; or has the lock and is
    about to read the log; or is a writer. *)
Inductive Handle :=
| Opened (path : string) (file : FileId) (flavour : Flavour) (key : option (list Z))
| Locked (file : FileId) (lock : string) (flavour : Flavour) (key : option (list Z))
| Writing (file : FileId) (lock : string) (w : Writer).

Definition held (h : Handle) : option (FileId * string) :=
  match h with Opened _ _ _ _ => None | Locked f l _ _ | Writing f l _ => Some (f, l) end.

(** [m_inflight]: what dropped writers still have in the background. [m_torn] is
    a history variable: the files whose log lacks bytes that were accepted. *)
Record Machine := mkMachine {
  m_names : gmap string FileId;
  m_files : gmap FileId (list Z);
  m_locked : gset string;
  m_handles : gmap nat Handle;
  m_inflight : list (FileId * list Z);
  m_torn : gset FileId
}.
Definition machine0 : Machine := mkMachine ∅ ∅ ∅ ∅ [] ∅.

Definition set_names (names : gmap string FileId) (m : Machine) : Machine :=
  mkMachine names (m_files m) (m_locked m) (m_handles m) (m_inflight m) (m_torn m).
Definition set_file (f : FileId) (file : list Z) (m : Machine) : Machine :=
  mkMachine (m_names m) (<[f := file]> (m_files m)) (m_locked m) (m_handles m) (m_inflight m) (m_torn m).
Definition add_lock (lock : string) (m : Machine) : Machine :=
  mkMachine (m_names m) (m_files m) ({[lock]} ∪ m_locked m) (m_handles m) (m_inflight m) (m_torn m).
Definition set_handle (n : nat) (h : Handle) (m : Machine) : Machine :=
  mkMachine (m_names m) (m_files m) (m_locked m) (<[n := h]> (m_handles m)) (m_inflight m) (m_torn m).
Definition set_inflight (l : list (FileId * list Z)) (m : Machine) : Machine :=
  mkMachine (m_names m) (m_files m) (m_locked m) (m_handles m) l (m_torn m).
Definition tear (f : FileId) (torn : bool) (m : Machine) : Machine :=
  mkMachine (m_names m) (m_files m) (m_locked m) (m_handles m) (m_inflight m)
    (if torn then {[f]} ∪ m_torn m else m_torn m).

(** Dropping a handle closes its lock file, which releases the lock. *)
Definition drop_handle (n : nat) (h : Handle) (m : Machine) : Machine :=
  mkMachine (m_names m) (m_files m)
    (match held h with Some (_, lock) => m_locked m ∖ {[lock]} | None => m_locked m end) (delete n (m_handles m))
    (m_inflight m) (m_torn m).

(** What the system does with an append, for either kind of writer. *)
Record AppendOutcome := mkAppendOutcome { ap_blocking : WriteOutcome; ap_async : AsyncOutcome }.
Record SyncOutcome := mkSyncOutcome { so_blocking : bool; so_async : FlushOutcome }.

Inductive Call (T : Type) :=
| COpen (n : nat) (path : string) (flavour : Flavour) (key : option (list Z)) (os_ok : bool) (fresh : FileId)
| CLock (n : nat) (env : Environment) (os : LockOutcome)
| CRead (n : nat) (os_ok : bool)
| CAppend (n : nat) (os : AppendOutcome) (d : T)
| CFlush (n : nat) (os : SyncOutcome)
| CBackground (n : nat) (b : Background)
| CDrop (n : nat)
| CLand (k : nat)
| CKill (n k : nat)
| CRename (path : string) (file : FileId)
| CRemove (path : string).
Arguments COpen {T}.
Arguments CLock {T}.
Arguments CRead {T}.
Arguments CAppend {T}.
Arguments CFlush {T}.
Arguments CBackground {T}.
Arguments CDrop {T}.
Arguments CLand {T}.
Arguments CKill {T}.
Arguments CRename {T}.
Arguments CRemove {T}.

(** [Impossible]: a call that the handle's state does not allow. *)
Inductive Answer (T : Type) :=
| Done
| Refused (e : WalError)
| Entry (file : FileId) (e : WalEntry T)
| Impossible.
Arguments Done {T}.
Arguments Refused {T}.
Arguments Entry {T}.
Arguments Impossible {T}.

Section machine.
Context {HF : HashFunctions} {JR : JsonReader} {T : Type} {J : WalJson T}.

Definition acquire_lock (flavour : Flavour) (file_id : option FileId) (env : Environment) (os : LockOutcome)
    (locked : gset string) : result WalError string :=
  match flavour with
  | Blocking => acquire_writer_lock file_id env os locked
  | Asynchronous _ => map_err wal_error (async_acquire_writer_lock file_id env os locked)
  end.

Definition open_locked (flavour : Flavour) (file : list Z) (key : option (list Z)) : result WalError Writer :=
  match flavour with
  | Blocking => w ← open_inner true file key; Ok (BlockingWriter w)
  | Asynchronous sync => w ← map_err wal_error (async_open_inner true file key sync); Ok (AsynchronousWriter w)
  end.

(** The file is opened for appending, so a write goes to its end. *)
Definition view (file : list Z) (w : Writer) : Writer :=
  match w with
  | BlockingWriter w =>
      BlockingWriter (mkWalWriter file (ww_sequence w) (ww_last_hash w) (ww_hmac_key w) (ww_poisoned w))
  | AsynchronousWriter w =>
      AsynchronousWriter (with_file w (mkTokioFile file (tf_pending (aw_file w)) (tf_failed (aw_file w))))
  end.

Definition written (w : Writer) : list Z :=
  match w with BlockingWriter w => ww_file w | AsynchronousWriter w => tf_written (aw_file w) end.
Definition pending (w : Writer) : list Z :=
  match w with BlockingWriter _ => [] | AsynchronousWriter w => tf_pending (aw_file w) end.
(** A write in the background has failed. *)
Definition failed (w : Writer) : bool :=
  match w with BlockingWriter _ => false | AsynchronousWriter w => tf_failed (aw_file w) end.

Definition sync_of (w : Writer) : WalWriter :=
  match w with BlockingWriter w => w | AsynchronousWriter w => as_sync w end.

Definition writer_append (os : AppendOutcome) (d : T) (w : Writer) : result WalError (WalEntry T) * Writer :=
  match w with
  | BlockingWriter w => let '(r, w') := append (ap_blocking os) d w in (r, BlockingWriter w')
  | AsynchronousWriter w => let '(r, w') := async_append (ap_async os) d w in (map_err wal_error r, AsynchronousWriter w')
  end.

Definition writer_flush (os : SyncOutcome) (w : Writer) : result WalError unit * Writer :=
  match w with
  | BlockingWriter w => let '(r, w') := flush_and_sync (so_blocking os) w in (r, BlockingWriter w')
  | AsynchronousWriter w =>
      let '(r, w') := async_flush_and_sync (so_async os) w in (map_err wal_error r, AsynchronousWriter w')
  end.

Definition writer_background (b : Background) (w : Writer) : Writer :=
  match w with
  | BlockingWriter w => BlockingWriter w
  | AsynchronousWriter w => AsynchronousWriter (with_file w (background b (aw_file w)))
  end.

(** The writer [w'] in place of [w], which was at [file]: the file is what it has
    written, and the log is torn when it is not all that was accepted. *)
Definition put_writer (n : nat) (f : FileId) (lock : string) (torn : bool) (w' : Writer) (m : Machine) : Machine :=
  tear f torn (set_file f (written w') (set_handle n (Writing f lock w') m)).
Definition lost (w w' : Writer) : bool := negb (bool_decide (ww_file (sync_of w') = ww_file (sync_of w))).

(** One call. [fresh] is the identity of a file that opening creates. *)
Definition machine_step (c : Call T) (m : Machine) : Answer T * Machine :=
  match c with
  | COpen n path flavour key os_ok fresh =>
      match m_handles m !! n, validate_key key with
      | Some _, _ => (Impossible, m)
      | None, Err e => (Refused e, m)
      | None, Ok _ =>
          if negb os_ok then (Refused (Io OsError), m)
          else match m_names m !! path with
          | Some f => (Done, set_handle n (Opened path f flavour key) m)
          | None =>
              if bool_decide (is_Some (m_files m !! fresh)) then (Impossible, m)
              else (Done, set_handle n (Opened path fresh flavour key)
                            (set_file fresh [] (set_names (<[path := fresh]> (m_names m)) m)))
          end
      end
  | CLock n env os =>
      match m_handles m !! n with
      | Some (Opened path f flavour key as h) =>
          match acquire_lock flavour (m_names m !! path) env os (m_locked m) with
          | Ok lock => (Done, set_handle n (Locked f lock flavour key) (add_lock lock m))
          | Err e => (Refused e, drop_handle n h m)
          end
      | _ => (Impossible, m)
      end
  | CRead n os_ok =>
      match m_handles m !! n with
      | Some (Locked f lock flavour key as h) =>
          match (_ ← refuse_if (negb os_ok) (Io OsError); open_locked flavour (default [] (m_files m !! f)) key) with
          | Ok w => (Done, set_handle n (Writing f lock w) m)
          | Err e => (Refused e, drop_handle n h m)
          end
      | _ => (Impossible, m)
      end
  | CAppend n os d =>
      match m_handles m !! n with
      | Some (Writing f lock w) =>
          let w := view (default [] (m_files m !! f)) w in
          match writer_append os d w with
          | (Ok e, w') => (Entry f e, put_writer n f lock (failed w') w' m)
          | (Err e, w') => (Refused e, put_writer n f lock (lost w w') w' m)
          end
      | _ => (Impossible, m)
      end
  | CFlush n os =>
      match m_handles m !! n with
      | Some (Writing f lock w) =>
          let w := view (default [] (m_files m !! f)) w in
          let '(r, w') := writer_flush os w in
          (match r with Ok _ => Done | Err e => Refused e end, put_writer n f lock (lost w w') w' m)
      | _ => (Impossible, m)
      end
  | CBackground n b =>
      match m_handles m !! n with
      | Some (Writing f lock w) =>
          let w := view (default [] (m_files m !! f)) w in
          let w' := writer_background b w in (Done, put_writer n f lock (lost w w') w' m)
      | _ => (Impossible, m)
      end
  | CDrop n =>
      match m_handles m !! n with
      | Some (Writing f lock w as h) =>
          (Done, set_inflight (m_inflight m ++ match pending w with [] => [] | p => [(f, p)] end) (drop_handle n h m))
      | Some h => (Done, drop_handle n h m)
      | None => (Impossible, m)
      end
  | CLand k =>
      match m_inflight m with
      | (f, p) :: rest => (Done, set_inflight rest (set_file f (default [] (m_files m !! f) ++ take k p) m))
      | [] => (Impossible, m)
      end
  | CKill n k =>
      match m_handles m !! n with
      | Some (Writing f lock w as h) =>
          (Done, drop_handle n h
                   (tear f (negb (bool_decide (drop k (pending w) = [])))
                      (set_file f (default [] (m_files m !! f) ++ take k (pending w)) m)))
      | Some h => (Done, drop_handle n h m)
      | None => (Impossible, m)
      end
  | CRename path f =>
      match m_files m !! f with
      | Some _ => (Done, set_names (<[path := f]> (m_names m)) m)
      | None => (Impossible, m)
      end
  | CRemove path => (Done, set_names (delete path (m_names m)) m)
  end.

Fixpoint machine_run (cs : list (Call T)) (m : Machine) : list (Answer T) * Machine :=
  match cs with
  | [] => ([], m)
  | c :: cs' =>
      let '(a, m1) := machine_step c m in
      let '(rest, m2) := machine_run cs' m1 in
      (a :: rest, m2)
  end.

(** The entries acknowledged for a file, in order, whoever appended them. *)
Definition entry_for (f : FileId) (a : Answer T) : list (WalEntry T) :=
  match a with Entry g e => if decide (g = f) then [e] else [] | _ => [] end.
Definition entries_for (f : FileId) (answers : list (Answer T)) : list (WalEntry T) := flat_map (entry_for f) answers.

(** ** What a deployment keeps to

    All processes resolve the same lock directory, and use the log's key; a
    name does not change its meaning between the opening of the file it names
    and the lock; and an asynchronous writer is dropped only with nothing in the
    background, as after a flush. *)
Definition opening (path : string) (h : Handle) : bool :=
  match h with Opened p _ _ _ => String.eqb p path | _ => false end.

Definition calm (dir : string) (key : option (list Z)) (c : Call T) (m : Machine) : Prop :=
  match c with
  | COpen _ _ _ k _ fresh => k = key /\ file_id_typed fresh
  | CLock _ env _ => configured_lock_dir env = Ok dir
  | CDrop n => match m_handles m !! n with Some (Writing _ _ w) => pending w = [] | _ => True end
  | CRename path _ | CRemove path => map_Forall (fun _ h => opening path h = false) (m_handles m)
  | _ => True
  end.

Fixpoint calm_run (dir : string) (key : option (list Z)) (cs : list (Call T)) (m : Machine) : Prop :=
  match cs with
  | [] => True
  | c :: cs' => calm dir key c m /\ calm_run dir key cs' (snd (machine_step c m))
  end.

End machine.

(** ** Names of locks *)

Lemma padded_hex_bytes n z : length (string_bytes (padded_hex n z)) = (2 * n)%nat.
Proof.
  unfold padded_hex. rewrite bytes_to_hex_bytes by apply be_bytes_bytes. by rewrite hex_text_length, length_be_bytes.
Qed.

Lemma padded_hex_inj n y z : is_u (8 * Z.of_nat n) y -> is_u (8 * Z.of_nat n) z ->
  string_bytes (padded_hex n y) = string_bytes (padded_hex n z) -> y = z.
Proof.
  intros Hy Hz H%string_bytes_inj%bytes_to_hex_inj; [|apply be_bytes_bytes..].
  apply (f_equal be_value) in H. by rewrite !be_value_be_bytes in H.
Qed.

(** Two files never share a lock: the numbers are printed at full width. *)
Lemma lock_identity_inj i j : file_id_typed i -> file_id_typed j -> lock_identity i = lock_identity j -> i = j.
Proof.
  intros Hi Hj H. apply (f_equal string_bytes) in H.
  destruct i as [a b|a b|a b], j as [a' b'|a' b'|a' b']; destruct Hi, Hj; cbn [lock_identity] in H;
    rewrite !string_bytes_app in H; try discriminate H; apply app_inj_1 in H as [_ H]; try done;
    apply app_inj_1 in H as [E H]; try (by rewrite !padded_hex_bytes);
    apply app_inj_1 in H as [_ H]; try done; by f_equal; [eapply padded_hex_inj, E|eapply padded_hex_inj, H].
Qed.

Lemma lock_in_inj dir i j : file_id_typed i -> file_id_typed j -> lock_in dir i = lock_in dir j -> i = j.
Proof.
  intros Hi Hj H. apply lock_identity_inj; [done..|]. apply string_bytes_inj.
  apply (f_equal string_bytes) in H. unfold lock_in, path_join in H.
  destruct (list.last _) as [c|]; [destruct (c =? 47)|]; rewrite ?string_bytes_app in H.
  - by apply app_inv_head, app_inv_tail in H.
  - do 2 apply app_inv_head in H. by apply app_inv_tail in H.
  - by apply app_inv_tail in H.
Qed.

Lemma acquire_blocking flavour i env os locked :
  acquire_lock flavour i env os locked = acquire_writer_lock i env os locked.
Proof.
  destruct flavour; [done|]. unfold acquire_lock, acquire_writer_lock, async_acquire_writer_lock.
  destruct (writer_lock_path i env os) as [p|e]; [|done]. cbn. destruct (negb (lk_open os)); [done|]. cbn.
  by destruct (_ || _).
Qed.

Lemma acquire_Ok dir flavour i env os locked lock : configured_lock_dir env = Ok dir ->
  acquire_lock flavour i env os locked = Ok lock ->
  exists f, i = Some f /\ lock = lock_in dir f /\ lock ∉ locked.
Proof.
  intros Hd. rewrite acquire_blocking. unfold acquire_writer_lock, writer_lock_path. intros H. rewrite Hd in H.
  destruct i as [f|]; [|done]. cbn in H. destruct (negb (lk_create_dir os)); [done|]. cbn in H.
  destruct (negb (lk_open os)); [done|]. cbn in H. destruct (lk_lock os); [|done]. cbn in H.
  case_bool_decide; [done|]. apply Ok_inj in H as <-. by exists f.
Qed.
