(* ===== verification/WalLocksProps.v ===== *)
(** * One writer per log

    The invariant of the machine of [WalLocks]: a lock is held by exactly one
    handle and is the one its file is named after, and the file of a log that no
    append tore is the log of all entries acknowledged for it. *)

From Stdlib Require Import String.
From S2P Require Import Prelude Bytes Text Kernel Digest Verify Wal WalTheory WalLog WalSample WalProps AsyncWal WalLocks.
#[local] Open Scope Z_scope.
#[local] Opaque decimal.

Section machine.
Context {HF : HashFunctions} {JR : JsonReader} {T : Type} {J : WalJson T}.
Variable (dir : string) (key : option (list Z)).
Implicit Types (m : Machine) (c : Call T) (past : list (Answer T)).

(** ** Locks *)

Definition file_of (h : Handle) : FileId := match h with Opened _ f _ _ | Locked f _ _ _ | Writing f _ _ => f end.
Definition key_of (h : Handle) : option (list Z) :=
  match h with Opened _ _ _ k | Locked _ _ _ k => k | Writing _ _ w => ww_hmac_key (sync_of w) end.

Record handle_ok m (h : Handle) : Prop := {
  ho_named : forall path f fl k, h = Opened path f fl k -> m_names m !! path = Some f;
  ho_lock : forall f lock, held h = Some (f, lock) -> lock = lock_in dir f /\ lock ∈ m_locked m;
  ho_file : is_Some (m_files m !! file_of h);
  ho_key : key_of h = key
}.

Definition holds m (n : nat) (lock : string) : Prop :=
  exists h f, m_handles m !! n = Some h /\ held h = Some (f, lock).

Record sane m : Prop := {
  sa_handles : map_Forall (fun _ => handle_ok m) (m_handles m);
  sa_unique : forall n1 n2 lock, holds m n1 lock -> holds m n2 lock -> n1 = n2;
  sa_locks : forall lock, lock ∈ m_locked m -> exists n, holds m n lock;
  sa_named : forall path f, m_names m !! path = Some f -> is_Some (m_files m !! f);
  sa_typed : forall f, is_Some (m_files m !! f) -> file_id_typed f;
  sa_inflight : m_inflight m = []
}.

Lemma sane0 : sane machine0.
Proof.
  split; simpl; [by intros ? ? ?%lookup_empty_Some| | |by intros ? ? ?%lookup_empty_Some|by intros ? [? ?%lookup_empty_Some]|done].
  - intros n1 n2 lock (h & f & E & _). cbn in E. by rewrite lookup_empty in E.
  - by intros lock ?%not_elem_of_empty.
Qed.

Lemma handle_ok_mono m m' h : handle_ok m h -> m_names m ⊆ m_names m' -> m_locked m ⊆ m_locked m' ->
  (forall f, is_Some (m_files m !! f) -> is_Some (m_files m' !! f)) -> handle_ok m' h.
Proof.
  intros [H1 H2 H3 H4] Hn Hl Hf. split; [|intros f lock [-> ?]%H2; split; [done|set_solver]|by apply Hf|done].
  intros path f fl k E. eapply lookup_weaken; [by eapply H1|done].
Qed.

Lemma holds_insert m n h n' lock : holds (set_handle n h m) n' lock <->
  (n' = n /\ exists f, held h = Some (f, lock)) \/ (n' <> n /\ holds m n' lock).
Proof.
  unfold holds. simpl. split.
  - intros (h' & f & [[<- <-]|[? ?]]%lookup_insert_Some & Hh); [left|right]; eauto.
  - intros [[-> [f Hf]]|[? (h' & f & ? & ?)]]; [exists h, f|exists h', f].
    + by rewrite lookup_insert_eq.
    + by rewrite lookup_insert_ne.
Qed.

Lemma holds_delete m n h n' lock : holds (drop_handle n h m) n' lock <-> n' <> n /\ holds m n' lock.
Proof.
  unfold holds. simpl. split.
  - intros (h' & f & [? ?]%lookup_delete_Some & Hh). eauto 10.
  - intros [? (h' & f & ? & ?)]. exists h', f. by rewrite lookup_delete_ne.
Qed.

Lemma some_insert {A} (files : gmap FileId A) f g x : is_Some (files !! f) -> is_Some (<[g := x]> files !! f).
Proof. intros H. destruct (decide (g = f)) as [->|]; [by rewrite lookup_insert_eq|by rewrite lookup_insert_ne]. Qed.

(** Names and files are added, the contents of files change. *)
Lemma sane_write m f file : sane m -> file_id_typed f -> sane (set_file f file m).
Proof.
  intros [H1 H2 H3 H4 H5 H6] Ht. split; simpl; try done.
  - intros n h Hh. eapply handle_ok_mono; [by eapply H1|done|done|]. intros g Hg. by apply some_insert.
  - intros path g E. by eapply some_insert, H4.
  - intros g [x [[<- _]|[_ E]]%lookup_insert_Some]; [done|]. by apply H5.
Qed.

Lemma sane_tear m f torn : sane m -> sane (tear f torn m).
Proof.
  intros [H1 H2 H3 H4 H5 H6]. split; try done. intros n h Hh. by eapply handle_ok_mono; [by eapply H1|..].
Qed.

(** A name that nobody is opening may come to mean another file, or none. *)
Lemma sane_names m names : sane m -> (forall path f, names !! path = Some f -> is_Some (m_files m !! f)) ->
  (forall n path f fl k, m_handles m !! n = Some (Opened path f fl k) -> names !! path = m_names m !! path) ->
  sane (set_names names m).
Proof.
  intros [H1 H2 H3 H4 H5 H6] Hf Hn. split; try done. intros n h E. destruct (H1 _ _ E) as [K1 K2 K3 K4]. split; try done.
  intros path f fl k ->. simpl. rewrite (Hn _ _ _ _ _ E). by eapply K1.
Qed.

(** A handle takes its next step, keeping what it holds. *)
Lemma sane_update m n h : sane m -> handle_ok m h ->
  (m_handles m !! n = None /\ held h = None \/ exists h0, m_handles m !! n = Some h0 /\ held h = held h0) ->
  sane (set_handle n h m).
Proof.
  intros [H1 H2 H3 H4 H5 H6] Hok Hat.
  assert (forall n' lock, holds (set_handle n h m) n' lock <-> holds m n' lock) as Hh.
  { intros n' lock. rewrite holds_insert. split.
    - intros [[-> [f Hf]]|[_ ?]]; [|done]. destruct Hat as [[_ E]|(h0 & E0 & E)]; [congruence|].
      exists h0, f. by rewrite <- E.
    - intros Hn'. destruct (decide (n' = n)) as [->|]; [left|by right]. split; [done|].
      destruct Hn' as (h' & f & E & Hf). destruct Hat as [[E0 _]|(h0 & E0 & E1)]; [congruence|]. exists f. congruence. }
  split; try done.
  - apply map_Forall_insert_2; [by eapply handle_ok_mono|]. intros n' h' E. by eapply handle_ok_mono; [by eapply H1|..].
  - intros n1 n2 lock E1%Hh E2%Hh. by eapply H2.
  - intros lock [n' E]%H3. exists n'. by apply Hh.
Qed.

Lemma sane_drop m n h : sane m -> m_handles m !! n = Some h -> sane (drop_handle n h m).
Proof.
  intros [H1 H2 H3 H4 H5 H6] E. split; try done.
  - intros n' h'. cbn [drop_handle m_handles]. intros [Hne E']%lookup_delete_Some. destruct (H1 _ _ E') as [K1 K2 K3 K4]. split; try done.
    intros f lock Hf. destruct (K2 f lock Hf) as [-> Hin]. split; [done|]. simpl.
    destruct (held h) as [[g l]|] eqn:Hl; [|done]. apply elem_of_difference. split; [done|].
    intros El%elem_of_singleton. apply Hne. eapply H2; [by exists h, g|]. exists h', f. by rewrite Hf, El.
  - intros n1 n2 lock [_ ?]%holds_delete [_ ?]%holds_delete. by eapply H2.
  - intros lock Hin. simpl in Hin.
    assert (lock ∈ m_locked m) as [n' (h' & f & E' & Hf)]%H3 by (destruct (held h) as [[? ?]|]; set_solver).
    exists n'. apply holds_delete. split; [|by exists h', f]. intros ->. rewrite E in E'. injection E' as <-.
    rewrite Hf in Hin. set_solver.
Qed.

Lemma sane_lock m n path f fl k : sane m -> m_handles m !! n = Some (Opened path f fl k) -> lock_in dir f ∉ m_locked m ->
  sane (set_handle n (Locked f (lock_in dir f) fl k) (add_lock (lock_in dir f) m)).
Proof.
  intros [H1 H2 H3 H4 H5 H6] E Hfree. pose proof (H1 _ _ E) as [K1 K2 K3 K4].
  assert (forall n' lock, holds m n' lock -> lock ∈ m_locked m /\ n' <> n) as Hm.
  { intros n' lock (h & g & Eh & Hg). split; [by eapply (ho_lock _ _ (H1 _ _ Eh))|]. intros ->. by rewrite E in Eh; injection Eh as <-. }
  split; try done.
  - apply map_Forall_insert_2.
    + split; [done| |done|done]. intros g lock [= <- <-]. split; [done|]. simpl. set_solver.
    + intros n' h' E'. eapply handle_ok_mono; [by eapply H1|done|simpl; set_solver|done].
  - intros n1 n2 lock [[-> [f1 E1]]|[? E1]]%holds_insert [[-> [f2 E2]]|[? E2]]%holds_insert; [done| | |by eapply H2].
    + injection E1 as <- <-. by destruct (Hm _ _ E2).
    + injection E2 as <- <-. by destruct (Hm _ _ E1).
  - intros lock [->%elem_of_singleton|[n' Hn']%H3]%elem_of_union.
    + exists n. apply holds_insert. left. split; [done|]. by exists f.
    + exists n'. apply holds_insert. right. split; [|done]. by apply Hm in Hn' as [_ ?].
Qed.

Lemma sane_create m n path fresh fl : sane m -> m_handles m !! n = None -> m_names m !! path = None -> file_id_typed fresh ->
  sane (set_handle n (Opened path fresh fl key) (set_file fresh [] (set_names (<[path := fresh]> (m_names m)) m))).
Proof.
  intros Hs En Ep Ht. pose proof Hs as [H1 H2 H3 H4 H5 H6].
  assert (sane (set_names (<[path := fresh]> (m_names m)) (set_file fresh [] m))) as Hs'.
  { apply sane_names; [by apply sane_write| |]; simpl.
    - intros p f [[<- <-]|[_ E]]%lookup_insert_Some; [by rewrite lookup_insert_eq|]. by eapply some_insert, H4.
    - intros n' p f fl' k E. rewrite lookup_insert_ne; [done|]. intros <-.
      rewrite (ho_named _ _ (H1 _ _ E) path f fl' k eq_refl) in Ep. done. }
  apply (sane_update _ n (Opened path fresh fl key)) in Hs'; [done| |by left].
  split; try done; simpl; [|by rewrite lookup_insert_eq]. intros ? ? ? ? [= <- <- <- <-]. by rewrite lookup_insert_eq.
Qed.

(** A writer does something; its file is what it has written. *)
Lemma sane_put m n f lock w w' torn : sane m -> m_handles m !! n = Some (Writing f lock w) ->
  ww_hmac_key (sync_of w') = ww_hmac_key (sync_of w) -> sane (put_writer n f lock torn w' m).
Proof.
  intros Hs En Hk. pose proof (sa_handles _ Hs _ _ En) as [K1 K2 K3 K4]. unfold put_writer. apply sane_tear, sane_write.
  - apply sane_update; [done| |by right; eauto]. split; try done. simpl in *. congruence.
  - by apply (sa_typed _ Hs).
Qed.

(** ** What a writer keeps *)

Lemma append_keeps_key os d (w : Writer) : ww_hmac_key (sync_of (snd (writer_append (T := T) os d w))) = ww_hmac_key (sync_of w).
Proof.
  destruct w as [w|w]; cbn [writer_append].
  - unfold append. destruct (ww_poisoned w); [done|]. destruct (checked_u _ _); [|done].
    destruct (_ ≫= _) as [[j h]|e]; [|done]. by destruct (ap_blocking os).
  - unfold async_append. destruct (aw_poisoned w); [done|]. destruct (checked_u _ _); [|done].
    destruct (async_line _ _ _) as [[[hd j] h]|e]; [|done].
    repeat (destruct (write_all _ _ _) as [? []]; cbn [negb]; [|done]).
    destruct (if aw_sync_on_append w then _ else _) as [? []]; done.
Qed.

Lemma flush_keeps_key os (w : Writer) : ww_hmac_key (sync_of (snd (writer_flush os w))) = ww_hmac_key (sync_of w).
Proof.
  destruct w as [w|w]; cbn [writer_flush].
  - unfold flush_and_sync. destruct (ww_poisoned w); [done|]. by destruct (so_blocking os).
  - unfold async_flush_and_sync. destruct (aw_poisoned w); [done|]. destruct (tokio_flush _ _) as [? []]; [|done]. cbn [negb].
    by destruct (sync_data _ _) as [? []].
Qed.

Lemma open_locked_sync fl file k w : open_locked fl file k = Ok w -> open_inner true file k = Ok (sync_of w).
Proof.
  destruct fl as [|sync]; cbn [open_locked].
  - intros H. destruct (open_inner true file k) as [w'|]; [|done]. cbn in H. by apply Ok_inj in H as <-.
  - intros H. rewrite <- (async_open_exact true file k sync). destruct (async_open_inner true file k sync) as [w'|]; [|done].
    cbn in *. by apply Ok_inj in H as <-.
Qed.

Lemma open_inner_parts file k w : open_inner true file k = Ok w -> ww_hmac_key w = k /\ ww_file w = file.
Proof. unfold open_inner. intros H. by open_results. Qed.

(** ** A step keeps the locks *)

Ltac stuck := by intros [= _ <-].

Lemma view_key file w : ww_hmac_key (sync_of (view file w)) = ww_hmac_key (sync_of w).
Proof. by destruct w. Qed.

Lemma machine_step_sane c m a m' : sane m -> calm dir key c m -> machine_step c m = (a, m') -> sane m'.
Proof.
  intros Hs Hc. pose proof Hs as [H1 H2 H3 H4 H5 H6].
  destruct c as [n path fl k ok fresh|n env os|n ok|n os d|n os|n b|n|k|n k|path f|path]; cbn [machine_step].
  - destruct Hc as [-> Ht]. destruct (m_handles m !! n) eqn:En; [stuck|]. destruct (validate_key key); [|stuck].
    destruct ok; [|stuck]. cbn [negb]. destruct (m_names m !! path) as [f|] eqn:Ep.
    { intros [= _ <-]. apply sane_update; [done| |by left]. split; try done; [by intros ? ? ? ? [= <- <- <- <-]|by eapply H4]. }
    case_bool_decide; [stuck|]. intros [= _ <-]. by apply sane_create.
  - destruct (m_handles m !! n) as [[path f fl k| |]|] eqn:En; [|stuck..].
    destruct (acquire_lock _ _ _ _ _) as [lock|e] eqn:Ea; [|by intros [= _ <-]; apply sane_drop].
    destruct (acquire_Ok _ _ _ _ _ _ _ Hc Ea) as (g & Eg & -> & Hfree). intros [= _ <-].
    rewrite (ho_named _ _ (H1 _ _ En) path f fl k eq_refl) in Eg. injection Eg as <-. by eapply sane_lock.
  - destruct (m_handles m !! n) as [[|f lock fl k|]|] eqn:En; [stuck| |stuck..]. pose proof (H1 _ _ En) as [K1 K2 K3 K4].
    destruct ok; [|by intros [= _ <-]; apply sane_drop]. cbn [negb refuse_if mbind result_bind].
    destruct (open_locked _ _ _) as [w|e] eqn:Eo; [|by intros [= _ <-]; apply sane_drop]. intros [= _ <-].
    apply sane_update; [done| |by right; eauto]. split; try done. simpl.
    apply open_locked_sync, open_inner_parts in Eo as [-> _]. done.
  - destruct (m_handles m !! n) as [[| |f lock w]|] eqn:En; [stuck..| |stuck].
    pose proof (append_keeps_key os d (view (default [] (m_files m !! f)) w)) as Hk. rewrite view_key in Hk.
    destruct (writer_append os d _) as [[e|e] w'] eqn:Ew; intros [= _ <-]; by eapply sane_put.
  - destruct (m_handles m !! n) as [[| |f lock w]|] eqn:En; [stuck..| |stuck].
    pose proof (flush_keeps_key os (view (default [] (m_files m !! f)) w)) as Hk. rewrite view_key in Hk.
    destruct (writer_flush os _) as [r w']. intros [= _ <-]. by eapply sane_put.
  - destruct (m_handles m !! n) as [[| |f lock w]|] eqn:En; [stuck..| |stuck]. intros [= _ <-]. eapply sane_put; [done|done|]. by destruct w.
  - destruct (m_handles m !! n) as [h|] eqn:En; [|stuck]. cbn [calm] in Hc. rewrite En in Hc. pose proof (sane_drop m n h Hs En) as Hd.
    destruct h as [| |f lock w]; intros [= _ <-]; try done. rewrite Hc, app_nil_r. done.
  - rewrite H6. stuck.
  - destruct (m_handles m !! n) as [h|] eqn:En; [|stuck]. destruct h as [| |f lock w]; intros [= _ <-]; try by apply sane_drop.
    apply sane_drop; [|done]. apply sane_tear, sane_write; [done|]. apply H5. by destruct (H1 _ _ En).
  - destruct (m_files m !! f) as [x|] eqn:Ef; [|stuck]. intros [= _ <-]. apply sane_names; [done| |].
    + intros p g [[<- <-]|[_ E]]%lookup_insert_Some; [by eauto|by eapply H4].
    + intros n p g fl k En. apply lookup_insert_ne. intros ->. apply Hc in En. cbn in En.
      by rewrite String.eqb_refl in En.
  - intros [= _ <-]. apply sane_names; [done| |].
    + intros p g [_ E]%lookup_delete_Some. by eapply H4.
    + intros n p g fl k En. apply lookup_delete_ne. intros ->. apply Hc in En. cbn in En.
      by rewrite String.eqb_refl in En.
Qed.

(** ** A step keeps the logs *)

(** A writer that a failed write has stopped. *)
Definition broken (w : Writer) : bool := ww_poisoned (sync_of w) || failed w.

(** The log of a file that is not torn is what the file holds and what its
    writer has in the background, [p]. *)
Definition log_kept past m (f : FileId) (file : list Z) : Prop :=
  exists w p, log_of w (entries_for f past) /\ ww_file w = file ++ p /\ ww_hmac_key w = key /\
    ww_sequence w = Z.of_nat (length (entries_for f past)) /\
    map we_sequence (entries_for f past) = seqZ 1 (Z.of_nat (length (entries_for f past))) /\
    (forall n lock wr, m_handles m !! n = Some (Writing f lock wr) ->
       pending wr = p /\ (broken wr = true \/ sync_of (view file wr) = w)) /\
    ((forall n lock wr, m_handles m !! n <> Some (Writing f lock wr)) -> p = []).

Record logs_ok past m : Prop := {
  lg_kept : forall f file, m_files m !! f = Some file -> f ∉ m_torn m -> log_kept past m f file;
  lg_known : forall f e, Entry f e ∈ past -> is_Some (m_files m !! f)
}.

Definition quiet (a : Answer T) : Prop := match a with Entry _ _ => False | _ => True end.

Lemma entries_for_app f past a : entries_for f (past ++ a) = entries_for f past ++ entries_for f a.
Proof. apply flat_map_app. Qed.

Lemma entries_for_quiet f past a : quiet a -> entries_for f (past ++ [a]) = entries_for f past.
Proof. intros H. rewrite entries_for_app. by destruct a; cbn; rewrite ?app_nil_r. Qed.

Lemma entries_for_other f g e past : g <> f -> entries_for f (past ++ [Entry g e]) = entries_for f past.
Proof. intros H. rewrite entries_for_app. cbn. by rewrite decide_False, app_nil_r. Qed.

Lemma entries_for_length f past : (length (entries_for f past) <= length past)%nat.
Proof.
  induction past as [|b past IH]; [done|]. cbn [entries_for flat_map length]. rewrite length_app.
  assert (length (entry_for f b) <= 1)%nat by (destruct b; cbn; try lia; case_decide; cbn; lia). unfold entries_for in IH. lia.
Qed.

Lemma entries_for_unknown past m f : logs_ok past m -> m_files m !! f = None -> entries_for f past = [].
Proof.
  intros [_ Hn] E. destruct (entries_for f past) as [|e es] eqn:Ee; [done|].
  assert (In e (entries_for f past)) as (x & Hx & Hin)%in_flat_map by (rewrite Ee; by left).
  destruct x as [| |g e'|]; try done. cbn in Hin. destruct (decide (g = f)) as [->|]; [|done].
  destruct (Hn f e') as [? ?]; [by apply list_elem_of_In|congruence].
Qed.

(** Steps that change no file and acknowledge nothing. *)
Lemma logs_idle past m a m' : logs_ok past m -> quiet a -> m_files m' = m_files m -> m_torn m ⊆ m_torn m' ->
  (forall n f lock wr, m_handles m' !! n = Some (Writing f lock wr) -> m_handles m !! n = Some (Writing f lock wr)) ->
  (forall n f lock wr, m_handles m !! n = Some (Writing f lock wr) ->
     m_handles m' !! n = Some (Writing f lock wr) \/ pending wr = []) ->
  logs_ok (past ++ [a]) m'.
Proof.
  intros [Hk Hn] Hq Hf Ht Hh Hb. split.
  - intros f file E Htorn. rewrite Hf in E. unfold log_kept. rewrite entries_for_quiet by done.
    destruct (Hk f file E ltac:(set_solver)) as (w & p & L & Hw & Hky & Hseq & Hz & Hwr & Hp). exists w, p. split_and!; try done.
    + intros n lock wr En. by eapply Hwr, Hh.
    + intros Hnone. destruct (decide (p = [])) as [|Hne]; [done|]. apply Hp. intros n lock wr En.
      destruct (Hb n f lock wr En) as [E'|E']; [by eapply Hnone|]. destruct (Hwr n lock wr En) as [E'' _]. congruence.
  - intros f e [Hin|Hin]%elem_of_app; [rewrite Hf; by eapply Hn|]. apply list_elem_of_singleton in Hin. by subst a.
Qed.

Lemma logs_create past m path n fresh fl : sane m -> logs_ok past m -> validate_key key = Ok tt -> m_files m !! fresh = None ->
  logs_ok (past ++ [Done])
    (set_handle n (Opened path fresh fl key) (set_file fresh [] (set_names (<[path := fresh]> (m_names m)) m))) \/
  m_handles m !! n <> None.
Proof.
  intros Hs Hl Hk0 Hf. destruct (m_handles m !! n) as [h|] eqn:En; [by right|]. left. pose proof Hl as [Hk Hn]. split; simpl.
  - intros f file E Ht. unfold log_kept. rewrite entries_for_quiet by done. apply lookup_insert_Some in E as [[<- <-]|[Hne E]].
    + rewrite (entries_for_unknown past m fresh) by done. exists (mkWalWriter [] 0 "genesis" key false), [].
      split_and!; try done; [by apply log_of_empty|].
      intros n' lock wr. simpl. intros [[<- [=]]|[_ E]]%lookup_insert_Some. destruct (ho_file _ _ (sa_handles _ Hs _ _ E)) as [y Hy].
      cbn in Hy. congruence.
    + destruct (Hk f file E Ht) as (w & p & L & Hw & Hky & Hseq & Hz & Hwr & Hp). exists w, p. split_and!; try done.
      * intros n' lock wr. simpl. intros [[<- [=]]|[_ E']]%lookup_insert_Some. by eapply Hwr.
      * intros Hnone. apply Hp. intros n' lock wr E'. apply (Hnone n' lock wr). simpl. rewrite lookup_insert_ne; [done|].
        intros <-. congruence.
  - intros f e [Hin|Hin]%elem_of_app; [by eapply some_insert, Hn|]. by apply list_elem_of_singleton in Hin.
Qed.

(** ** What a writer does to its log *)

Lemma sync_of_view file wr : ww_file (sync_of (view file wr)) = file ++ pending wr /\ broken (view file wr) = broken wr /\
  pending (view file wr) = pending wr /\ written (view file wr) = file.
Proof. destruct wr as [w|w]; cbn; [by rewrite app_nil_r|done]. Qed.

Lemma view_self wr : view (written wr) wr = wr.
Proof. by destruct wr as [[]|[[] ? ? ? ? ?]]. Qed.

Lemma text_of wr : ww_file (sync_of wr) = written wr ++ pending wr.
Proof. destruct wr as [w|w]; cbn; [by rewrite app_nil_r|done]. Qed.

Lemma lost_false w w' : lost w w' = false -> ww_file (sync_of w') = ww_file (sync_of w).
Proof. unfold lost. rewrite negb_false_iff. apply bool_decide_eq_true. Qed.

(** Flushing and the background leave a writer as it was, as far as its log
    goes, or broken. *)
Definition settles (w w' : Writer) : Prop := broken w' = true \/ (broken w = false /\ sync_of w' = sync_of w).

Lemma flush_settles os w : settles w (snd (writer_flush os w)).
Proof.
  unfold settles, broken. destruct w as [w|w]; cbn [writer_flush].
  - unfold flush_and_sync. destruct (ww_poisoned w) eqn:Hp; cbn; [by left; rewrite Hp|]. destruct (so_blocking os); cbn; [|by left].
    right. by rewrite Hp.
  - destruct (aw_poisoned w) eqn:Hp; [unfold async_flush_and_sync; rewrite Hp; cbn; left; by rewrite Hp|].
    destruct (tf_failed (aw_file w)) eqn:Hf.
    { destruct (failed_async_flush (so_async os) w Hf Hp) as (e & f & -> & _). cbn. by left. }
    destruct (async_flush_and_sync (so_async os) w) as [r w'] eqn:E. cbn.
    destruct (flush_cases (so_async os) w r w' Hf Hp E) as [(_ & Hw & Hpe & Hw1)|(e & _ & -> & _)]; [|by left].
    right. rewrite Hp, Hf. split; [done|]. rewrite Hw1. unfold as_sync, with_file. cbn. unfold tf_text at 1. by rewrite Hw, Hpe, app_nil_r.
Qed.

Lemma background_settles b w : settles w (writer_background b w).
Proof.
  unfold settles, broken. destruct w as [w|w]; cbn [writer_background].
  - cbn. destruct (ww_poisoned w); [by left|by right].
  - cbn. pose proof (background_text b (aw_file w)) as [[F E]|[F E]]; rewrite F; cbn; [|left; by rewrite orb_true_r].
    destruct (aw_poisoned w || tf_failed (aw_file w)); [by left|]. right. split; [done|]. unfold as_sync. cbn. by rewrite E.
Qed.

(** An append to a log: refused, the text as it was or the writer broken; or
    acknowledged, and in the log unless the background has failed. *)
Lemma writer_append_log os (d : T) wr es r wr' : broken wr = false -> log_of (sync_of wr) es ->
  ww_sequence (sync_of wr) + 1 < umax 64 -> writer_append os d wr = (r, wr') ->
  (exists e, r = Err e /\ (broken wr' = true \/ wr' = wr)) \/
  (exists e, r = Ok e /\ (failed wr' = true \/
     failed wr' = false /\ log_of (sync_of wr') (es ++ [e]) /\ ww_hmac_key (sync_of wr') = ww_hmac_key (sync_of wr) /\
     ww_sequence (sync_of wr') = ww_sequence (sync_of wr) + 1 /\ we_sequence e = ww_sequence (sync_of wr) + 1)).
Proof.
  intros [Hp Hf]%orb_false_iff Hlog Hn H.
  assert (forall os' e lw, append os' d (sync_of wr) = (Ok e, lw) -> log_of lw (es ++ [e]) /\
    ww_hmac_key lw = ww_hmac_key (sync_of wr) /\ ww_sequence lw = ww_sequence (sync_of wr) + 1 /\
    we_sequence e = ww_sequence (sync_of wr) + 1) as Hok.
  { intros os' e lw Ha. assert (ww_poisoned lw = false) as Hp'.
    { destruct (append_cases os' d _ es Hlog Hn) as [(? & E & _)|(j & h & _ & E)]; rewrite E in Ha; [done|].
      destruct os'; [|done]. apply pair_equal_spec in Ha as [_ <-]. done. }
    destruct (log_step os' d _ es _ _ Hlog Hn Ha Hp') as (L & K & Hs & Hd). cbn [accepted length] in *.
    split_and!; [done|done|lia|by apply Hd]. }
  destruct wr as [w|w]; cbn [writer_append sync_of] in *.
  - destruct (append (ap_blocking os) d w) as [r0 w0] eqn:E. injection H as <- <-. destruct r0 as [e|e].
    + right. exists e. split; [done|]. right. split; [done|]. by apply (Hok (ap_blocking os)).
    + left. exists e. split; [done|]. destruct (append_cases (ap_blocking os) d w es Hlog Hn) as [(? & E' & _)|(j & h & _ & E')]; rewrite E' in E.
      * right. by injection E as <- <-.
      * left. destruct (ap_blocking os); [done|]. apply pair_equal_spec in E as [_ <-]. done.
  - destruct (async_append (ap_async os) d w) as [r0 w0] eqn:E. injection H as <- <-.
    destruct (async_append_cases (ap_async os) d w es r0 w0 Hf Hlog Hn E) as (_ & [(e & -> & ->)|(e & lw & Ha & Hc)]).
    { left. eexists. split; [done|]. by right. }
    destruct Hc as [(x & -> & Hp' & _ & _)|(-> & Hp' & (H1 & H2 & H3) & [[Hf' Ht]|[Hf' Ht]])].
    + left. eexists. split; [done|]. left. unfold broken. cbn. by rewrite Hp'.
    + right. exists e. split; [done|]. right. split; [done|]. cbn [sync_of].
      assert (as_sync w0 = lw) as ->; [|by apply (Hok Written)]. unfold as_sync. rewrite Ht, H1, H2, H3, Hp'.
      destruct (Hok Written e lw Ha) as [L _]. pose proof (lo_live _ _ L). destruct lw; cbn in *. by subst.
    + right. exists e. split; [done|]. by left.
Qed.

Lemma broken_append os (d : T) wr : broken wr = true ->
  exists e wr', writer_append os d wr = (Err e, wr') /\ broken wr' = true.
Proof.
  unfold broken. destruct (ww_poisoned (sync_of wr)) eqn:Hp; cbn [orb].
  - intros _. exists (Io WriterPoisoned), wr. rewrite Hp. split; [|done].
    destruct wr as [w|w]; cbn in *; unfold append, async_append; by rewrite Hp.
  - destruct wr as [w|w]; [done|]. cbn in *. intros Hf.
    destruct (failed_async_append (ap_async os) d w Hf Hp) as (e & [->|(f & -> & _)]).
    + eexists _, _. split; [done|]. cbn. by rewrite Hp, Hf.
    + by eexists _, _.
Qed.

(** ** Steps of a writer *)

(** A writer of an untorn log does something that acknowledges the entries [new]
    and leaves it broken or at the head of the log with them. *)
Lemma logs_put past m n f lock wr wr' torn a new : sane m -> logs_ok past m -> m_handles m !! n = Some (Writing f lock wr) ->
  (forall g, entries_for g (past ++ [a]) = entries_for g past ++ if decide (g = f) then new else []) ->
  (forall g e, a = Entry g e -> g = f) ->
  (forall w, torn = false -> log_of w (entries_for f past) -> ww_hmac_key w = key ->
     ww_file w = default [] (m_files m !! f) ++ pending wr -> ww_sequence w = Z.of_nat (length (entries_for f past)) ->
     broken wr = true \/ sync_of (view (default [] (m_files m !! f)) wr) = w ->
     exists w', log_of w' (entries_for f past ++ new) /\ ww_file w' = written wr' ++ pending wr' /\ ww_hmac_key w' = key /\
       ww_sequence w' = ww_sequence w + Z.of_nat (length new) /\
       map we_sequence new = seqZ (ww_sequence w + 1) (Z.of_nat (length new)) /\
       (broken wr' = true \/ sync_of wr' = w')) ->
  logs_ok (past ++ [a]) (put_writer n f lock torn wr' m).
Proof.
  intros Hs [Hk Hknown] En He Ha Hstep. destruct (ho_file _ _ (sa_handles _ Hs _ _ En)) as [x Ex]. cbn [file_of] in Ex.
  rewrite Ex in Hstep. change (default [] (Some x)) with x in Hstep. split; simpl.
  - intros g y Ey Ht. unfold log_kept. rewrite He. apply lookup_insert_Some in Ey as [[<- <-]|[Hfg Ey]].
    + rewrite decide_True by done. destruct torn; [set_solver|].
      destruct (Hk f x Ex Ht) as (w & p & L & Hw & Hky & Hseq & Hz & Hwr & _). destruct (Hwr n lock wr En) as [<- Hb].
      destruct (Hstep w eq_refl L Hky Hw Hseq Hb) as (w' & L' & Hw' & Hk' & Hs' & Hz' & Hb').
      exists w', (pending wr'). rewrite length_app, map_app, Hz, Nat2Z.inj_add, seqZ_app by lia. split_and!; try done; [lia| | |].
      * f_equal. rewrite Hz', Hseq. f_equal. lia.
      * intros n' lock' wr'' E'. simpl in E'. apply lookup_insert_Some in E' as [[<- E']|[Hne E']].
        { injection E' as <- <-. by rewrite view_self. }
        destruct Hne. eapply (sa_unique _ Hs n n' lock); [by eexists _, f|]. eexists _, f. split; [done|]. simpl. f_equal. f_equal.
        destruct (ho_lock _ _ (sa_handles _ Hs _ _ E') f lock' eq_refl) as [-> _].
        by destruct (ho_lock _ _ (sa_handles _ Hs _ _ En) f lock eq_refl) as [-> _].
      * intros Hnone. destruct (Hnone n lock wr'). simpl. by rewrite lookup_insert_eq.
    + rewrite decide_False, app_nil_r by done. destruct (Hk g y Ey) as (w & p & ? & ? & ? & ? & ? & Hwr & Hp).
      { destruct torn; [set_solver|done]. }
      exists w, p. split_and!; try done.
      * intros n' lock' wr''. simpl. intros [[<- E']|[_ E']]%lookup_insert_Some; [by injection E'|by eapply Hwr].
      * intros Hnone. apply Hp. intros n' lock' wr'' E'. apply (Hnone n' lock' wr''). simpl. rewrite lookup_insert_ne; [done|].
        intros <-. rewrite En in E'. by injection E'.
  - intros g e Hin. apply elem_of_app in Hin as [Hin|Hin]; [by eapply some_insert, Hknown|]. apply list_elem_of_singleton in Hin.
    rewrite (Ha g e) by done. by rewrite lookup_insert_eq.
Qed.

Lemma logs_settled past m n f lock wr wr' a : sane m -> logs_ok past m -> m_handles m !! n = Some (Writing f lock wr) -> quiet a ->
  settles (view (default [] (m_files m !! f)) wr) wr' ->
  logs_ok (past ++ [a]) (put_writer n f lock (lost (view (default [] (m_files m !! f)) wr) wr') wr' m).
Proof.
  intros Hs Hl En Hq Hset. set (file := default [] _) in *. eapply (logs_put _ _ _ _ _ wr wr' _ a []); [done|done|done| | |].
  - intros g. rewrite entries_for_quiet by done. by case_decide; rewrite app_nil_r.
  - by intros g e ->.
  - intros w Ht L Hk Hw Hseq Hb. apply lost_false in Ht. destruct (sync_of_view file wr) as (Hv & Hbr & _).
    exists w. rewrite app_nil_r. cbn [length map]. split_and!; try done; [|lia|].
    + by rewrite <- text_of, Ht, Hv.
    + destruct Hset as [?|[Hb0 ->]]; [by left|]. rewrite Hbr in Hb0. destruct Hb as [?|?]; [congruence|by right].
Qed.

Lemma logs_append past m n f lock wr os d r wr' : sane m -> logs_ok past m -> Z.of_nat (length past) + 1 < umax 64 ->
  m_handles m !! n = Some (Writing f lock wr) ->
  writer_append os d (view (default [] (m_files m !! f)) wr) = (r, wr') ->
  logs_ok (past ++ [match r with Ok e => Entry f e | Err e => Refused e end])
    (put_writer n f lock (match r with Ok _ => failed wr' | Err _ => lost (view (default [] (m_files m !! f)) wr) wr' end) wr' m).
Proof.
  intros Hs Hl Hn En Ha. set (file := default [] _) in *. destruct (sync_of_view file wr) as (Hv & Hbr & _ & _).
  pose proof (entries_for_length f past). destruct (broken wr) eqn:Hb.
  { destruct (broken_append os d (view file wr)) as (e & w1 & E & Hb1); [congruence|]. rewrite E in Ha. injection Ha as <- <-.
    by apply logs_settled; [..|left]. }
  eapply (logs_put _ _ _ _ _ wr wr' _ _ (match r with Ok e => [e] | Err _ => [] end)); [done|done|done| | |].
  - intros g. destruct r as [e|e]; [|rewrite entries_for_quiet by done; by case_decide; rewrite app_nil_r].
    case_decide as Hg; [subst|]; [|by rewrite entries_for_other, app_nil_r]. rewrite entries_for_app. cbn. by rewrite decide_True, app_nil_r.
  - by intros g e; destruct r; [intros [= -> _]|].
  - fold file. intros w Ht L Hk Hw Hseq [?|Hb']; [congruence|]. rewrite <- Hb' in L, Hk, Hseq |- *.
    destruct (writer_append_log os d _ _ r wr' Hbr L ltac:(lia) Ha) as [(e & -> & Hc)|(e & -> & [Hf|(_ & L' & Hk' & Hs' & He)])].
    + apply lost_false in Ht. exists (sync_of (view file wr)). rewrite app_nil_r. cbn [length map].
      split_and!; try done; [by rewrite <- text_of, Ht|lia|]. destruct Hc as [?| ->]; [by left|by right].
    + congruence.
    + exists (sync_of wr'). cbn [length map]. rewrite He, seqZ_cons by lia. split_and!; try done; [by rewrite text_of|congruence|by right].
Qed.

(** A process dies; what it had in the background is in the file, or the log is
    torn. *)
Lemma logs_kill past m n f lock wr k : sane m -> logs_ok past m -> m_handles m !! n = Some (Writing f lock wr) ->
  logs_ok (past ++ [Done]) (drop_handle n (Writing f lock wr) (tear f (negb (bool_decide (drop k (pending wr) = [])))
    (set_file f (default [] (m_files m !! f) ++ take k (pending wr)) m))).
Proof.
  intros Hs [Hk Hknown] En. destruct (ho_file _ _ (sa_handles _ Hs _ _ En)) as [x Ex]. cbn [file_of] in Ex. rewrite Ex.
  change (default [] (Some x)) with x. split; simpl.
  - intros g y Ey Ht. unfold log_kept. rewrite entries_for_quiet by done. apply lookup_insert_Some in Ey as [[<- <-]|[Hfg Ey]].
    + case_bool_decide as Hd; cbn [negb] in Ht; [|set_solver].
      destruct (Hk f x Ex Ht) as (w & p & L & Hw & Hky & Hseq & Hz & Hwr & _). destruct (Hwr n lock wr En) as [<- _].
      assert (take k (pending wr) = pending wr) as Et by (rewrite <- (take_drop k (pending wr)) at 2; by rewrite Hd, app_nil_r).
      exists w, []. rewrite Et, app_nil_r. split_and!; try done. intros n' lock' wr'' E'. simpl in E'.
      apply lookup_delete_Some in E' as [Hne E'].
      destruct Hne. eapply (sa_unique _ Hs n n' lock); [by eexists _, f|]. eexists _, f. split; [done|]. simpl. f_equal. f_equal.
      destruct (ho_lock _ _ (sa_handles _ Hs _ _ E') f lock' eq_refl) as [-> _].
      by destruct (ho_lock _ _ (sa_handles _ Hs _ _ En) f lock eq_refl) as [-> _].
    + destruct (Hk g y Ey) as (w & p & ? & ? & ? & ? & ? & Hwr & Hp); [destruct (negb _); set_solver|]. exists w, p. split_and!; try done.
      * intros n' lock' wr''. simpl. intros [_ E']%lookup_delete_Some. by eapply Hwr.
      * intros Hnone. apply Hp. intros n' lock' wr'' E'. apply (Hnone n' lock' wr''). simpl. rewrite lookup_delete_ne; [done|].
        intros <-. rewrite En in E'. by injection E'.
  - intros g e [Hin|Hin]%elem_of_app; [by eapply some_insert, Hknown|]. by apply list_elem_of_singleton in Hin.
Qed.

(** Reading an untorn log gives a writer at its head. *)
Lemma logs_read past m n f lock fl wr : sane m -> logs_ok past m -> m_handles m !! n = Some (Locked f lock fl key) ->
  open_locked fl (default [] (m_files m !! f)) key = Ok wr -> logs_ok (past ++ [Done]) (set_handle n (Writing f lock wr) m).
Proof.
  intros Hs [Hk Hknown] En Eo. destruct (ho_file _ _ (sa_handles _ Hs _ _ En)) as [x Ex]. cbn [file_of] in Ex. rewrite Ex in Eo.
  change (default [] (Some x)) with x in Eo. split; simpl.
  - intros g y Ey Ht. unfold log_kept. rewrite entries_for_quiet by done.
    destruct (Hk g y Ey Ht) as (w & p & L & Hw & Hky & Hseq & Hz & Hwr & Hp). exists w, p. split_and!; try done.
    + intros n' lock' wr'. simpl. intros [[<- E]|[_ E]]%lookup_insert_Some; [|by eapply Hwr]. injection E as <- <- <-.
      assert (p = []) as ->.
      { apply Hp. intros n' lock' wr' E'. assert (n = n') as <-; [|congruence].
        eapply (sa_unique _ Hs n n' lock); [by eexists _, f|]. eexists _, f. split; [done|]. simpl. f_equal. f_equal.
        destruct (ho_lock _ _ (sa_handles _ Hs _ _ E') f lock' eq_refl) as [-> _].
        by destruct (ho_lock _ _ (sa_handles _ Hs _ _ En) f lock eq_refl) as [-> _]. }
      rewrite app_nil_r in Hw. assert (pending wr = []) as Hpe.
      { destruct fl as [|sync]; cbn [open_locked] in Eo.
        - destruct (open_inner true x key); [|done]. cbn in Eo. by apply Ok_inj in Eo as <-.
        - destruct (async_open_inner true x key sync) as [w0|] eqn:Ew; [|done]. cbn in Eo. apply Ok_inj in Eo as <-.
          unfold async_open_inner in Ew. repeat (apply bind_Ok in Ew as (? & _ & Ew)). by injection Ew as <-. }
      split; [done|]. right. apply open_locked_sync in Eo. pose proof (log_reopens w _ L) as Ho. rewrite Hw, Hky in Ho.
      assert (y = x) as -> by congruence. rewrite Ho in Eo. apply Ok_inj in Eo.
      assert (written wr = x) as Hwx by (pose proof (text_of wr) as Htx; rewrite Hpe, app_nil_r in Htx; rewrite <- Htx, <- Eo; congruence).
      rewrite <- Hwx. by rewrite view_self.
    + intros Hnone. destruct (decide (p = [])) as [|Hne]; [done|]. apply Hp. intros n' lock' wr' E'.
      destruct (decide (n' = n)) as [->|]; [congruence|]. apply (Hnone n' lock' wr'). simpl. by rewrite lookup_insert_ne.
  - intros g e [Hin|Hin]%elem_of_app; [by eapply Hknown|]. by apply list_elem_of_singleton in Hin.
Qed.

Ltac idle := intros [= <- <-]; eapply logs_idle; [eassumption|done|done|done| |];
  cbn [m_handles set_handle set_names add_lock];
  first [done|by intros ? ? ? ? [[<- [=]]|[_ ?]]%lookup_insert_Some|by left
        |intros ? ? ? ? ?; left; rewrite lookup_insert_ne; [done|intros <-; congruence]].

Lemma logs_dropped past m n h a : logs_ok past m -> quiet a -> m_handles m !! n = Some h ->
  (forall f lock wr, h = Writing f lock wr -> pending wr = []) -> logs_ok (past ++ [a]) (drop_handle n h m).
Proof.
  intros Hl Hq En Hp. eapply logs_idle; [done|done|done|done| |]; cbn [m_handles drop_handle].
  - by intros ? ? ? ? [_ ?]%lookup_delete_Some.
  - intros n' f lock wr E. destruct (decide (n' = n)) as [->|]; [right|left; by rewrite lookup_delete_ne].
    eapply Hp. rewrite En in E. by injection E as ->.
Qed.

Lemma machine_step_logged past c m a m' : sane m -> calm dir key c m -> logs_ok past m ->
  Z.of_nat (length past) + 1 < umax 64 -> machine_step c m = (a, m') -> logs_ok (past ++ [a]) m'.
Proof.
  intros Hs Hc Hl Hn. destruct c as [n path fl k ok fresh|n env os|n ok|n os d|n os|n b|n|k|n k|path f|path]; cbn [machine_step].
  - destruct Hc as [-> Ht]. destruct (m_handles m !! n) eqn:En; [idle|]. destruct (validate_key key) as [[]|] eqn:Ek; [|idle].
    destruct ok; [|idle]. cbn [negb]. destruct (m_names m !! path) as [f|] eqn:Ep; [idle|].
    case_bool_decide as Hf; [idle|]. rewrite <- eq_None_not_Some in Hf. intros [= <- <-].
    by destruct (logs_create past m path n fresh fl Hs Hl Ek Hf).
  - destruct (m_handles m !! n) as [[path f fl k| |]|] eqn:En; [|idle..].
    destruct (acquire_lock _ _ _ _ _) as [lock|e] eqn:Ea; [idle|intros [= <- <-]; by apply logs_dropped].
  - destruct (m_handles m !! n) as [[|f lock fl k|]|] eqn:En; [idle| |idle..].
    destruct ok; [|intros [= <- <-]; by apply logs_dropped]. cbn [negb refuse_if mbind result_bind].
    destruct (open_locked _ _ _) as [wr|e] eqn:Eo; [|intros [= <- <-]; by apply logs_dropped]. intros [= <- <-].
    pose proof (ho_key _ _ (sa_handles _ Hs _ _ En)) as Hk. cbn in Hk. subst k. by eapply logs_read.
  - destruct (m_handles m !! n) as [[| |f lock wr]|] eqn:En; [idle..| |idle].
    destruct (writer_append os d _) as [r wr'] eqn:Ew. pose proof (logs_append past m n f lock wr os d r wr' Hs Hl Hn En Ew).
    destruct r; by intros [= <- <-].
  - destruct (m_handles m !! n) as [[| |f lock wr]|] eqn:En; [idle..| |idle].
    pose proof (flush_settles os (view (default [] (m_files m !! f)) wr)) as Hset. destruct (writer_flush os _) as [r wr']. intros [= <- <-].
    apply logs_settled; try done. by destruct r.
  - destruct (m_handles m !! n) as [[| |f lock wr]|] eqn:En; [idle..| |idle]. intros [= <- <-].
    apply logs_settled; try done. apply background_settles.
  - destruct (m_handles m !! n) as [h|] eqn:En; [|idle]. cbn [calm] in Hc. rewrite En in Hc.
    assert (logs_ok (past ++ [Done]) (drop_handle n h m)) as Hd by (apply logs_dropped; try done; by intros ? ? ? ->).
    destruct h as [| |f lock wr]; intros [= <- <-]; try done. rewrite Hc, app_nil_r. done.
  - rewrite (sa_inflight _ Hs). idle.
  - destruct (m_handles m !! n) as [h|] eqn:En; [|idle].
    destruct h as [| |f lock wr]; intros [= <- <-]; try by apply logs_dropped. by apply logs_kill.
  - destruct (m_files m !! f) as [x|] eqn:Ef; idle.
  - idle.
Qed.

Lemma machine_run_ok cs : forall past m answers m', sane m -> logs_ok past m ->
  Z.of_nat (length past + length cs) < umax 64 -> calm_run dir key cs m -> machine_run cs m = (answers, m') ->
  sane m' /\ logs_ok (past ++ answers) m'.
Proof.
  induction cs as [|c cs IH]; intros past m answers m' Hs Hl Hn Hc; cbn [machine_run].
  { intros [= <- <-]. by rewrite app_nil_r. }
  destruct Hc as [Hc Hcs]. cbn [length] in Hn. destruct (machine_step c m) as [a m1] eqn:E1.
  destruct (machine_run cs m1) as [rest m2] eqn:E2. intros [= <- <-]. cbn [snd] in Hcs.
  change (a :: rest) with ([a] ++ rest). rewrite app_assoc. eapply IH; [| | |done|done].
  - by eapply machine_step_sane.
  - eapply machine_step_logged; [done..|lia|done].
  - rewrite length_app. cbn [length]. lia.
Qed.

Lemma logged0 : logs_ok [] machine0.
Proof. split; [intros f file E; cbn in E; by rewrite lookup_empty in E|by intros f e ?%not_elem_of_nil]. Qed.

Definition lock_granted : LockOutcome := mkLockOutcome true true true.

(** With an answering system, a lock is refused only to a file that has a
    writer already. *)
Lemma lock_exact m n path f fl k env : sane m -> m_handles m !! n = Some (Opened path f fl k) ->
  configured_lock_dir env = Ok dir ->
  let free := forall n' h lock, m_handles m !! n' = Some h -> held h <> Some (f, lock) in
  let answer := fst (machine_step (T := T) (CLock n env lock_granted) m) in
  (answer = Done /\ free) \/ (answer = Refused (Io WriterActive) /\ ~ free).
Proof.
  intros Hs En Hd free answer. subst answer. cbn [machine_step]. pose proof (sa_handles _ Hs _ _ En) as [K1 _ K3 _]. rewrite En.
  rewrite (K1 path f fl k eq_refl), acquire_blocking. unfold acquire_writer_lock, writer_lock_path. cbn [ok_or mbind result_bind].
  rewrite Hd. cbn. case_bool_decide as Hin; cbn; [right|left]; (split; [done|]).
  - intros Hfree. destruct (sa_locks _ Hs _ Hin) as (n' & h & g & E & Hh). apply (Hfree n' h (lock_in dir f) E). rewrite Hh.
    destruct (sa_handles _ Hs _ _ E) as [_ K2 K3' _]. destruct (K2 _ _ Hh) as [El _].
    apply lock_in_inj in El as <-; [done|by apply (sa_typed _ Hs)|]. apply (sa_typed _ Hs). by destruct h; simplify_eq/=.
  - intros n' h lock E Hh. destruct (sa_handles _ Hs _ _ E) as [_ K2 _ _]. by destruct (K2 _ _ Hh) as [-> ?].
Qed.

Lemma log_opens past m n f lock fl k : sane m -> logs_ok past m -> m_handles m !! n = Some (Locked f lock fl k) ->
  f ∉ m_torn m -> fst (machine_step (T := T) (CRead n true) m) = Done.
Proof.
  intros Hs [Hk _] En Ht. pose proof (sa_handles _ Hs _ _ En) as [_ Hlk [file Hf] Hkey]. cbn in Hf, Hkey. subst k.
  destruct (Hk f file Hf Ht) as (w & p & L & Hw & Hky & _ & _ & _ & Hp). pose proof (log_reopens w _ L) as Ho.
  assert (p = []) as ->.
  { apply Hp. intros n' lock' wr' E'. assert (n = n') as <-; [|congruence].
    destruct (ho_lock _ _ (sa_handles _ Hs _ _ E') f lock' eq_refl) as [-> _]. destruct (Hlk f lock eq_refl) as [-> _].
    eapply (sa_unique _ Hs n n'); [by eexists _, f|by eexists _, f]. }
  rewrite app_nil_r in Hw. rewrite Hw, Hky in Ho.
  cbn [machine_step]. rewrite En, Hf. change (default [] (Some file)) with file. cbn [negb refuse_if mbind result_bind].
  destruct fl as [|sync]; cbn [open_locked].
  - by rewrite Ho.
  - pose proof (async_open_exact true file key sync) as Ha. rewrite Ho in Ha.
    by destruct (async_open_inner true file key sync).
Qed.

(** A flush that succeeds leaves nothing in the background. *)
Lemma flushed_nothing_pending m n os m' f lock wr : machine_step (T := T) (CFlush n os) m = (Done, m') ->
  m_handles m' !! n = Some (Writing f lock wr) -> pending wr = [].
Proof.
  cbn [machine_step]. destruct (m_handles m !! n) as [[| |g l w]|] eqn:En; try (intros [= <-]; congruence).
  set (w0 := view _ w). destruct (writer_flush os w0) as [r w'] eqn:Ef. destruct r as [[]|e]; [|done]. intros [= <-]. simpl.
  rewrite lookup_insert_eq. intros [= <- <- <-]. destruct w0 as [b|b]; cbn [writer_flush] in Ef.
  - destruct (flush_and_sync _ b). by injection Ef as _ <-.
  - destruct (async_flush_and_sync (so_async os) b) as [r w1] eqn:E. injection Ef as Er <-. destruct r as [[]|]; [|done]. cbn.
    destruct (aw_poisoned b) eqn:Hp; [unfold async_flush_and_sync in E; by rewrite Hp in E|].
    destruct (tf_failed (aw_file b)) eqn:Hf.
    { destruct (failed_async_flush (so_async os) b Hf Hp) as (? & ? & E' & _). by rewrite E' in E. }
    by destruct (flush_cases (so_async os) b _ w1 Hf Hp E) as [(_ & _ & ? & _)|(e & ? & _)].
Qed.

End machine.

(** ** The claim *)


(** ** A machine with three processes *)

Definition runtime_env (dir : string) : Environment := fun name => if String.eqb name "XDG_RUNTIME_DIR" then Some dir else None.
Definition wal_file : FileId := Inode 1 7.
Definition well : AppendOutcome := mkAppendOutcome Written all_written.
Definition well_synced : SyncOutcome := mkSyncOutcome true flushed.

(** Two processes race for a log; the loser is refused, the winner writes and
    dies, and a third process continues through another name of the file,
    flushes, and closes. *)
Definition shared_calls : list (Call Z) :=
  [COpen 1 "wal" Blocking None true wal_file;
   COpen 2 "wal" (Asynchronous true) None true wal_file;
   CLock 1 (runtime_env "/run") lock_granted;
   CLock 2 (runtime_env "/run") lock_granted;
   CRead 1 true; CAppend 1 well 5; CAppend 1 well 6; CKill 1 0;
   CRename "link" wal_file;
   COpen 3 "link" (Asynchronous false) None true (Inode 1 8);
   CLock 3 (runtime_env "/run") lock_granted;
   CRead 3 true; CAppend 3 well 7; CBackground 3 (Progress 1); CFlush 3 well_synced; CDrop 3].

Abbreviation shared_run := (machine_run (HF := toy_hash) shared_calls machine0).

(** Each call of a concrete run keeps to the conditions. *)
Ltac keeps_calm :=
  match goal with
  | |- calm _ _ (COpen _ _ _ _ _ _) _ => split; [reflexivity|by vm_compute]
  | |- calm _ _ (CDrop _) _ => vm_compute; reflexivity
  | |- calm _ _ (CRename _ _) _ => refine (bool_decide_unpack _ _); vm_compute; exact I
  | |- calm _ _ (CLock _ _ _) _ => reflexivity
  | |- _ => exact I
  end.

Abbreviation shared_entries := (entries_for wal_file (fst shared_run)).


(** Why the conditions: processes with two lock directories both become writers
    of one file, and their log breaks. *)
Lemma two_lock_dirs_two_writers :
  let run := machine_run (HF := toy_hash)
    [COpen 1 "wal" Blocking None true wal_file; CLock 1 (runtime_env "/run/user/1") lock_granted; CRead 1 true;
     COpen 2 "wal" Blocking None true wal_file; CLock 2 (runtime_env "/run/user/2") lock_granted; CRead 2 true;
     CAppend 1 well 5; CAppend 2 well 6] machine0 in
  map we_sequence (entries_for (T := Z) wal_file (fst run)) = [1; 1] /\
  verify_wal (HF := toy_hash) (default [] (m_files (snd run) !! wal_file)) = Err (DuplicateSequence 1).
Proof. vm_compute. done. Qed.

(** The lock is named after the file that the path means when the lock is
    taken, not after the file that was opened: when a log is replaced between
    the two, the writer of the old file holds the lock of the new one, and a
    second writer of the old file is let in. *)
Lemma replaced_while_opening_two_writers :
  let run := machine_run (HF := toy_hash)
    [COpen 9 "next" Blocking None true (Inode 1 8); CDrop 9;
     COpen 1 "wal" Blocking None true wal_file;
     CRename "wal.1" wal_file; CRename "wal" (Inode 1 8);
     CLock 1 (runtime_env "/run") lock_granted; CRead 1 true;
     COpen 2 "wal.1" Blocking None true wal_file; CLock 2 (runtime_env "/run") lock_granted; CRead 2 true;
     CAppend 1 well 5; CAppend 2 well 6] machine0 in
  map we_sequence (entries_for (T := Z) wal_file (fst run)) = [1; 1] /\
  verify_wal (HF := toy_hash) (default [] (m_files (snd run) !! wal_file)) = Err (DuplicateSequence 1).
Proof. vm_compute. done. Qed.

(** Dropping an asynchronous writer releases the lock and does not wait for what
    it has in the background: here the newline of its last line is still
    missing when another writer opens the log and appends, and the log breaks
    although every append was acknowledged and no write failed. *)
Lemma dropped_unflushed_breaks :
  let run := machine_run (HF := toy_hash)
    [COpen 1 "wal" (Asynchronous false) None true wal_file; CLock 1 (runtime_env "/run") lock_granted; CRead 1 true;
     CAppend 1 (mkAppendOutcome Written (mkAsyncOutcome (Accepted 300) (Accepted 300) (Accepted 1) settled_sync)) 5; CDrop 1;
     COpen 2 "wal" Blocking None true wal_file; CLock 2 (runtime_env "/run") lock_granted; CRead 2 true;
     CAppend 2 well 6; CLand 1] machine0 in
  map we_sequence (entries_for (T := Z) wal_file (fst run)) = [1; 2] /\
  verify_wal (HF := toy_hash) (default [] (m_files (snd run) !! wal_file)) = Err Json.
Proof. vm_compute. done. Qed.
