(* ===== verification/Persistence.v ===== *)
(** * Snapshots on disk and coordinated checkpoints ([src/persistence.rs])

    A directory is a map from file names to contents. JSON text belongs to
    [serde_json] and is an interface ([Artifact], [ValueReader]). What the
    operating system does during a save is an argument: any call may fail, and
    the process may stop before any of them. Reads are of files that do not
    change meanwhile. Paths are names in the directory; the lock file and the
    temporary file of a save are part of it. *)

From Stdlib Require Import String.
From S2P Require Import Prelude Bytes Text Budget Finance Wal.
#[local] Open Scope Z_scope.

Definition MAX_PERSISTENCE_ARTIFACT_BYTES : Z := 16 * 1024 * 1024.
Definition CHECKPOINT_MANIFEST_SCHEMA : string := "calybris.checkpoint-manifest.v1".

Record CheckpointManifest := mkCheckpointManifest {
  cm_schema_version : string;
  cm_snapshot_file : string;
  cm_wal_anchor_file : string;
  cm_snapshot_version : Z;
  cm_ledger_digest_hex : string;
  cm_wal_sequence : Z;
  cm_wal_hash : string;
  cm_wal_keyed : bool
}.

Record CoordinatedCheckpoint := mkCoordinatedCheckpoint {
  cc_manifest : CheckpointManifest;
  cc_snapshot : BudgetSnapshot;
  cc_anchor : WalAnchor
}.

(** The messages of the I/O errors this code raises. *)
Inductive PersistReason :=
| OsFailure
| ArtifactTooLarge
| SnapshotRefused (e : SnapshotAllocatorError)
| WalRefused (e : WalError)
| MigrationRefused (e : LegacySnapshotMigrationError)
| SameMigrationFile
| NoDestinationName
| UnknownManifestSchema (schema : string)
| UnsafeGenerationFilename
| SnapshotNotInManifest
| KeyedWithoutKey
| UnkeyedWithKey
| WatermarkAhead (high head : Z).

Inductive PersistenceError :=
| PersistIo (reason : PersistReason)
| PersistJson
| PersistRestore (e : RestoreError).

(** [serde_json::to_writer_pretty] and [serde_json::from_slice] at a type: the
    pieces written and whether the serializer completes. *)
Class Artifact (T : Type) := {
  to_pretty : T -> list (list Z) * bool;
  from_json : list Z -> option T;
  json_roundtrip : forall v ps, to_pretty v = (ps, true) -> from_json (concat ps) = Some v
}.

(** ** Saving *)

Abbreviation Dir := (gmap string (list Z)).

(** The directory afterwards, and what the call returned; [None] when the
    process stopped before it could. *)
Definition Run (A : Type) : Type := Dir * option (result PersistenceError A).

Inductive SaveStep := OpenLock | TakeLock | CreateTemp | WriteTemp | SyncTemp | Rename | SyncDirectory.
#[export] Instance SaveStep_eq_dec : EqDecision SaveStep.
Proof. solve_decision. Defined.

(** At one step the call fails, or the process stops instead of making it. *)
Inductive Fault := Fails (s : SaveStep) | Stops (s : SaveStep).
#[export] Instance Fault_eq_dec : EqDecision Fault.
Proof. solve_decision. Defined.

(** The random suffix of the temporary file, how much of it is written when
    the process stops while writing, and the fault if there is one. *)
Record SaveOs := mkSaveOs { so_suffix : string; so_written : nat; so_fault : option Fault }.

Definition fails (os : SaveOs) (s : SaveStep) : bool := bool_decide (so_fault os = Some (Fails s)).
Definition stops (os : SaveOs) (s : SaveStep) : bool := bool_decide (so_fault os = Some (Stops s)).

(** One call: [failed] and [stopped] are the directory when it fails and when
    the process stops before it. *)
Definition os_call {A} (os : SaveOs) (s : SaveStep) (failed stopped : Dir) (error : PersistenceError)
    (next : Run A) : Run A :=
  if fails os s then (failed, Some (Err error))
  else if stops os s then (stopped, None)
  else next.

Definition lock_name (filename : string) : string := "." +:+ filename +:+ ".calybris.lock".
Definition temp_name (filename suffix : string) : string := "." +:+ filename +:+ ".tmp." +:+ suffix.

(** [create(true).truncate(false)]. *)
Definition create_if_absent (name : string) (d : Dir) : Dir :=
  match d !! name with Some _ => d | None => <[name := []]> d end.

(** [sync_parent_directory] is the last call. The temporary file is removed
    when it is dropped. *)
Definition save_json_atomic {T} `{Artifact T} (os : SaveOs) (value : T) (path : string) (d0 : Dir)
    : Run unit :=
  let temporary := temp_name path (so_suffix os) in
  let io := PersistIo OsFailure in
  os_call os OpenLock d0 d0 io (
  let d := create_if_absent (lock_name path) d0 in
  os_call os TakeLock d d io (
  os_call os CreateTemp d d io (
  let '(pieces, complete) := to_pretty value in
  let '(written, writer) := write_pieces (LimitedWriter_new MAX_PERSISTENCE_ARTIFACT_BYTES) pieces in
  let bytes := lw_inner writer in
  let dropped := delete temporary d in
  os_call os WriteTemp dropped (<[temporary := take (so_written os) bytes]> d) PersistJson (
  if negb (written && complete) then
    (dropped, Some (Err (if lw_exceeded writer then PersistIo ArtifactTooLarge else PersistJson)))
  else
    let full := <[temporary := bytes]> d in
    os_call os SyncTemp dropped full io (
    os_call os Rename dropped full io (
    let renamed := <[path := bytes]> dropped in
    os_call os SyncDirectory renamed renamed io (renamed, Some (Ok tt)))))))).

Definition save_snapshot `{Artifact BudgetSnapshot} (os : SaveOs) (snapshot : BudgetSnapshot)
    (path : string) (d : Dir) : Run unit :=
  save_json_atomic os snapshot path d.
Definition save_wal_anchor `{Artifact WalAnchor} (os : SaveOs) (a : WalAnchor) (path : string) (d : Dir)
    : Run unit :=
  save_json_atomic os a path d.

(** Sequencing: an error or a stop ends the sequence. *)
Definition run_bind {A B} (r : Run A) (k : A -> Dir -> Run B) : Run B :=
  match r with
  | (d, Some (Ok a)) => k a d
  | (d, Some (Err e)) => (d, Some (Err e))
  | (d, None) => (d, None)
  end.

(** A check that touches no file. *)
Definition run_check {A B} (d : Dir) (r : result PersistenceError A) (k : A -> Run B) : Run B :=
  match r with Ok a => k a | Err e => (d, Some (Err e)) end.

(** ** Loading *)

(** The second bound of the code, on the bytes read, guards against a file
    that grows between the two looks at it. *)
Definition load_json_bounded {T} `{Artifact T} (path : string) (d : Dir) : result PersistenceError T :=
  bytes ← ok_or (d !! path) (PersistIo OsFailure);
  _ ← refuse_if (MAX_PERSISTENCE_ARTIFACT_BYTES <? Z.of_nat (length bytes)) (PersistIo ArtifactTooLarge);
  ok_or (from_json bytes) PersistJson.

Definition load_snapshot `{Artifact BudgetSnapshot} (path : string) (d : Dir)
    : result PersistenceError BudgetSnapshot :=
  load_json_bounded path d.
Definition load_wal_anchor `{Artifact WalAnchor} (path : string) (d : Dir)
    : result PersistenceError WalAnchor :=
  load_json_bounded path d.

(** ** File names *)

Inductive Component := RootDir | CurDir | ParentDir | Normal (name : list Z).

(** [Path::components] on Unix: repeated separators and inner dots vanish, a
    leading dot stays. *)
Definition components (path : list Z) : list Component :=
  let parts := split_on 47 path in
  match path, parts with
  | 47 :: _, _ => [RootDir]
  | _, [46] :: _ => [CurDir]
  | _, _ => []
  end ++
  omap (fun p => if bool_decide (p = []) || bool_decide (p = [46]) then None
                 else if bool_decide (p = [46; 46]) then Some ParentDir else Some (Normal p)) parts.

Definition validate_generation_filename (filename : string) : result PersistenceError unit :=
  match components (string_bytes filename) with
  | [Normal _] => Ok tt
  | _ => Err (PersistIo UnsafeGenerationFilename)
  end.

Definition show (z : Z) : string := string_of_bytes (show_u64 z).
Definition snapshot_file_name (version sequence : Z) : string :=
  "snapshot-v" +:+ show version +:+ "-wal-" +:+ show sequence +:+ ".json".
Definition wal_anchor_file_name (version sequence : Z) : string :=
  "wal-anchor-v" +:+ show version +:+ "-wal-" +:+ show sequence +:+ ".json".
Definition MANIFEST_FILE : string := "checkpoint-manifest.json".

(** ** Checkpoints *)

Definition with_watermark (snapshot : BudgetSnapshot) (sequence : Z) : BudgetSnapshot :=
  mkBudgetSnapshot (bs_version snapshot) (bs_tenants snapshot) (bs_active_reservations snapshot) (Some sequence).

Section persistence.
Context {HF : HashFunctions} {JR : JsonReader} {AS : Artifact BudgetSnapshot} {AA : Artifact WalAnchor}
  {AM : Artifact CheckpointManifest}.

Definition checkpoint (os : SaveOs) (engine : BudgetEngine) (path : string) (d : Dir)
    : BudgetEngine * Run BudgetSnapshot :=
  let '(r, engine') := try_snapshot engine in
  (engine',
   run_check d (map_err (fun e => PersistIo (SnapshotRefused e)) r) (fun snapshot =>
   run_check d (map_err PersistRestore (validate_snapshot_for_restore snapshot)) (fun _ =>
   run_bind (save_snapshot os snapshot path d) (fun _ d' => (d', Some (Ok snapshot)))))).

Definition checkpoint_with_wal (os : SaveOs) (engine : BudgetEngine) (path : string) (wal_sequence : Z)
    (d : Dir) : BudgetEngine * Run BudgetSnapshot :=
  let '(r, engine') := try_snapshot engine in
  (engine',
   run_check d (map_err (fun e => PersistIo (SnapshotRefused e)) r) (fun snapshot0 =>
   let snapshot := with_watermark snapshot0 wal_sequence in
   run_check d (map_err PersistRestore (validate_snapshot_for_restore snapshot)) (fun _ =>
   run_bind (save_snapshot os snapshot path d) (fun _ d' => (d', Some (Ok snapshot)))))).

(** What the operating system does during a coordinated checkpoint. *)
Record CheckpointOs := mkCheckpointOs {
  co_directory_ok : bool;
  co_flush_ok : bool;
  co_snapshot : SaveOs;
  co_anchor : SaveOs;
  co_manifest : SaveOs
}.

Definition manifest_of (snapshot : BudgetSnapshot) (a : WalAnchor) : CheckpointManifest :=
  {| cm_schema_version := CHECKPOINT_MANIFEST_SCHEMA;
     cm_snapshot_file := snapshot_file_name (bs_version snapshot) (wa_sequence a);
     cm_wal_anchor_file := wal_anchor_file_name (bs_version snapshot) (wa_sequence a);
     cm_snapshot_version := bs_version snapshot;
     cm_ledger_digest_hex := digest_to_hex (ledger_digest snapshot);
     cm_wal_sequence := wa_sequence a;
     cm_wal_hash := wa_last_hash a;
     cm_wal_keyed := wa_keyed a |}.

(** The files of a generation: snapshot, anchor, and the manifest last. *)
Definition write_generation (os : CheckpointOs) (snapshot : BudgetSnapshot) (a : WalAnchor) (d : Dir)
    : Run CoordinatedCheckpoint :=
  let manifest := manifest_of snapshot a in
  run_bind (save_snapshot (co_snapshot os) snapshot (cm_snapshot_file manifest) d) (fun _ d =>
  run_bind (save_wal_anchor (co_anchor os) a (cm_wal_anchor_file manifest) d) (fun _ d =>
  run_bind (save_json_atomic (co_manifest os) manifest MANIFEST_FILE d) (fun _ d =>
  (d, Some (Ok (mkCoordinatedCheckpoint manifest snapshot a)))))).

Definition checkpoint_coordinated (os : CheckpointOs) (engine : BudgetEngine) (wal : WalWriter) (d : Dir)
    : BudgetEngine * WalWriter * Run CoordinatedCheckpoint :=
  if negb (co_directory_ok os) then (engine, wal, (d, Some (Err (PersistIo OsFailure))))
  else
    let '(flushed, wal') := flush_and_sync (co_flush_ok os) wal in
    match flushed with
    | Err e => (engine, wal', (d, Some (Err (PersistIo (WalRefused e)))))
    | Ok _ =>
        let a := anchor wal' in
        let '(r, engine') := try_snapshot engine in
        (engine', wal',
         run_check d (map_err (fun e => PersistIo (SnapshotRefused e)) r) (fun snapshot0 =>
         let snapshot := with_watermark snapshot0 (wa_sequence a) in
         run_check d (map_err PersistRestore (validate_snapshot_for_restore snapshot)) (fun _ =>
         write_generation os snapshot a d)))
    end.

Definition load_coordinated_checkpoint (d : Dir) : result PersistenceError CoordinatedCheckpoint :=
  manifest ← (load_json_bounded MANIFEST_FILE d : result PersistenceError CheckpointManifest);
  _ ← refuse_if (negb (String.eqb (cm_schema_version manifest) CHECKPOINT_MANIFEST_SCHEMA))
        (PersistIo (UnknownManifestSchema (cm_schema_version manifest)));
  _ ← validate_generation_filename (cm_snapshot_file manifest);
  _ ← validate_generation_filename (cm_wal_anchor_file manifest);
  snapshot ← load_snapshot (cm_snapshot_file manifest) d;
  a ← load_wal_anchor (cm_wal_anchor_file manifest) d;
  let digest := digest_to_hex (ledger_digest snapshot) in
  _ ← refuse_if (negb (bs_version snapshot =? cm_snapshot_version manifest)
                 || negb (bool_decide (bs_wal_high_watermark snapshot = Some (cm_wal_sequence manifest)))
                 || negb (String.eqb digest (cm_ledger_digest_hex manifest)))
        (PersistIo SnapshotNotInManifest);
  _ ← map_err PersistRestore (validate_snapshot_for_restore snapshot);
  _ ← map_err (fun e => PersistIo (WalRefused e))
        (verify_head a (cm_wal_sequence manifest) (cm_wal_hash manifest) (cm_wal_keyed manifest));
  Ok (mkCoordinatedCheckpoint manifest snapshot a).

(** [wal] is the contents of the log file. *)
Definition load_and_verify_coordinated_checkpoint (d : Dir) (wal : list Z) (hmac_key : option (list Z))
    : result PersistenceError CoordinatedCheckpoint :=
  checkpoint ← load_coordinated_checkpoint d;
  let a := cc_anchor checkpoint in
  _ ← match wa_keyed a, hmac_key with
      | true, Some key => map_err (fun e => PersistIo (WalRefused e))
                            (verify_wal_keyed_contains_anchor wal key a)
      | false, None => map_err (fun e => PersistIo (WalRefused e))
                         (verify_wal_contains_anchor wal a)
      | true, None => Err (PersistIo KeyedWithoutKey)
      | false, Some _ => Err (PersistIo UnkeyedWithKey)
      end;
  Ok checkpoint.

(** ** Restoring *)

Definition restore (engine : BudgetEngine) (path : string) (d : Dir)
    : result PersistenceError BudgetSnapshot * BudgetEngine :=
  match load_snapshot path d with
  | Err e => (Err e, engine)
  | Ok snapshot =>
      let '(r, engine') := restore_from_snapshot snapshot engine in
      (match r with Ok _ => Ok snapshot | Err e => Err (PersistRestore e) end, engine')
  end.

Record RecoveryPlan := mkRecoveryPlan {
  rp_snapshot : BudgetSnapshot;
  rp_total_wal_entries : Z;
  rp_entries_to_replay : Z;
  rp_wal_high_watermark : Z
}.

(** The closure that counts entries: all of them, and those past the
    watermark. *)
Definition count_entry {V} (high : Z) (counts : Z * Z) (entry : WalEntry V) : Z * Z :=
  (add_u 64 (fst counts) 1,
   if high <? we_sequence entry then add_u 64 (snd counts) 1 else snd counts).

(** [from_slice_value] is [serde_json::from_slice::<WalEntry<Value>>]. *)
Definition recovery_plan_inner {V} (from_slice_value : list Z -> option (WalEntry V))
    (snapshot_path : string) (d : Dir) (wal : list Z) (key : option (list Z)) (a : option WalAnchor)
    : result PersistenceError RecoveryPlan :=
  snapshot ← load_snapshot snapshot_path d;
  _ ← map_err PersistRestore (validate_snapshot_for_restore snapshot);
  let high := default 0 (bs_wal_high_watermark snapshot) in
  let '(r, counts) := visit_verified_wal_inner from_slice_value (count_entry high) wal key (0, 0) in
  head ← map_err (fun e => PersistIo (WalRefused e)) r;
  _ ← refuse_if (fst head <? high) (PersistIo (WatermarkAhead high (fst head)));
  _ ← match a with
      | Some a => map_err (fun e => PersistIo (WalRefused e))
                    (_ ← verify_head a (fst head) (snd head) (match key with Some _ => true | None => false end); Ok tt)
      | None => Ok tt
      end;
  Ok (mkRecoveryPlan snapshot (fst counts) (snd counts) high).

Definition recovery_plan {V} (value : list Z -> option (WalEntry V)) (snapshot_path : string) (d : Dir)
    (wal : list Z) : result PersistenceError RecoveryPlan :=
  recovery_plan_inner value snapshot_path d wal None None.
Definition recovery_plan_keyed {V} (value : list Z -> option (WalEntry V)) (snapshot_path : string) (d : Dir)
    (wal key : list Z) : result PersistenceError RecoveryPlan :=
  recovery_plan_inner value snapshot_path d wal (Some key) None.
Definition recovery_plan_against_anchor {V} (value : list Z -> option (WalEntry V)) (snapshot_path : string)
    (d : Dir) (wal : list Z) (a : WalAnchor) : result PersistenceError RecoveryPlan :=
  recovery_plan_inner value snapshot_path d wal None (Some a).
Definition recovery_plan_keyed_against_anchor {V} (value : list Z -> option (WalEntry V))
    (snapshot_path : string) (d : Dir) (wal key : list Z) (a : WalAnchor)
    : result PersistenceError RecoveryPlan :=
  recovery_plan_inner value snapshot_path d wal (Some key) (Some a).

(** ** Migration of untagged snapshots *)

(** What the file system says of a path. *)
Inductive Metadata := Exists | NotFound | MetadataError.
Record FileSystem := mkFileSystem {
  fs_canonicalize : string -> option string;
  fs_file_id : string -> option Z;
  fs_metadata : string -> Metadata;
  (** [canonicalize(parent)?.join(filename)]; the inner [None] when the path
      has no file name. *)
  fs_normalize : string -> option (option string)
}.

Definition ensure_distinct_migration_files (fs : FileSystem) (source destination : string)
    : result PersistenceError unit :=
  let io := PersistIo OsFailure in
  canonical_source ← ok_or (fs_canonicalize fs source) io;
  source_identity ← ok_or (fs_file_id fs canonical_source) io;
  match fs_metadata fs destination with
  | Exists =>
      canonical_destination ← ok_or (fs_canonicalize fs destination) io;
      destination_identity ← ok_or (fs_file_id fs canonical_destination) io;
      refuse_if (String.eqb canonical_source canonical_destination || (source_identity =? destination_identity))
        (PersistIo SameMigrationFile)
  | NotFound =>
      normalized ← ok_or (fs_normalize fs destination) io;
      normalized_destination ← ok_or normalized (PersistIo NoDestinationName);
      refuse_if (String.eqb canonical_source normalized_destination) (PersistIo SameMigrationFile)
  | MetadataError => Err io
  end.

Definition migrate_legacy_snapshot_file (fs : FileSystem) (os : SaveOs) (source destination : string)
    (trusted_next_reservation_id : Z) (d : Dir) : Run BudgetSnapshot :=
  run_check d (ensure_distinct_migration_files fs source destination) (fun _ =>
  run_check d (load_snapshot source d) (fun legacy =>
  run_check d (map_err (fun e => PersistIo (MigrationRefused e))
                 (migrate_legacy_snapshot legacy trusted_next_reservation_id)) (fun migrated =>
  run_bind (save_snapshot os migrated destination d) (fun _ d => (d, Some (Ok migrated)))))).

End persistence.
