(* ===== verification/PersistenceProps.v ===== *)
(** * Checkpoints survive failures and crashes

    A save replaces one file or leaves it alone; a coordinated checkpoint
    replaces the committed generation or leaves it loadable; and recovery
    replays exactly the entries appended after the checkpoint. *)

From Stdlib Require Import String.
From S2P Require Import Prelude Bytes Text Budget BudgetInv BudgetSpec BudgetProps Finance Wal WalTheory WalLog WalSample WalProps Persistence.
#[local] Open Scope Z_scope.
#[local] Opaque decimal.

(** ** One save *)

(** Names of artifacts; lock and temporary files begin with a dot. *)
Definition visible (name : string) : Prop := String.get 0 name <> Some (ascii_of_byte 46).

Lemma visible_private name path : visible name ->
  name <> lock_name path /\ forall suffix, name <> temp_name path suffix.
Proof. intros Hv. split; [|intros suffix]; intros ->; by apply Hv. Qed.

(** A value the code can write: its text is complete and within the bound. *)
Definition storable {T} `{Artifact T} (v : T) : Prop :=
  exists ps w, to_pretty v = (ps, true) /\
    write_pieces (LimitedWriter_new MAX_PERSISTENCE_ARTIFACT_BYTES) ps = (true, w).

Lemma load_written {T} `{Artifact T} (v : T) ps w path d :
  to_pretty v = (ps, true) -> write_pieces (LimitedWriter_new MAX_PERSISTENCE_ARTIFACT_BYTES) ps = (true, w) ->
  d !! path = Some (lw_inner w) -> load_json_bounded path d = Ok v.
Proof.
  intros Hv (Hi & Hl & Hw)%write_pieces_ok Hd; [|by_compute]. cbn [lw_inner lw_limit lw_written LimitedWriter_new app] in *.
  unfold load_json_bounded. rewrite Hd. cbn [ok_or mbind result_bind]. rewrite Hi.
  rewrite (proj2 (Z.ltb_ge _ _)) by lia. cbn [refuse_if mbind result_bind]. by rewrite (json_roundtrip v ps Hv).
Qed.

(** Whatever happens, other artifacts are untouched, and this one is either
    as it was or loads as the new value; a save that returns success is the
    latter, and without faults a storable value is saved. *)
Lemma save_effect {T} `{Artifact T} os (v : T) path d : visible path ->
  let '(d', r) := save_json_atomic os v path d in
  (forall name, visible name -> name <> path -> d' !! name = d !! name) /\
  ((d' !! path = d !! path /\ r <> Some (Ok tt)) \/ load_json_bounded path d' = Ok v) /\
  (so_fault os = None -> storable v -> r = Some (Ok tt)).
Proof.
  intros Hv. unfold save_json_atomic, os_call.
  set (d1 := create_if_absent (lock_name path) d).
  assert (forall name, visible name -> d1 !! name = d !! name) as H1.
  { intros name Hn. unfold d1, create_if_absent. destruct (d !! lock_name path); [done|].
    apply lookup_insert_ne. intros E. by apply (proj1 (visible_private name path Hn)). }
  assert (forall name x, visible name -> (<[temp_name path (so_suffix os) := x]> d1) !! name = d !! name) as H2.
  { intros name x Hn. rewrite lookup_insert_ne; [by apply H1|]. intros E. by apply (proj2 (visible_private name path Hn) (so_suffix os)). }
  assert (forall name, visible name -> delete (temp_name path (so_suffix os)) d1 !! name = d !! name) as H3.
  { intros name Hn. rewrite lookup_delete_ne; [by apply H1|]. intros E. by apply (proj2 (visible_private name path Hn) (so_suffix os)). }
  assert (forall s, fails os s = true -> so_fault os <> None) as Hf
    by (intros s E%bool_decide_eq_true_1; congruence).
  assert (forall s, stops os s = true -> so_fault os <> None) as Hs
    by (intros s E%bool_decide_eq_true_1; congruence).
  destruct (to_pretty v) as [ps complete] eqn:Ev.
  destruct (write_pieces _ ps) as [written w] eqn:Ew.
  assert (load_json_bounded path (<[path := lw_inner w]> (delete (temp_name path (so_suffix os)) d1)) = Ok v \/
    (written && complete = false)) as Hl.
  { destruct written, complete; auto. left. eapply load_written; [done..|]. apply lookup_insert_eq. }
  assert (forall name, visible name -> name <> path ->
    (<[path := lw_inner w]> (delete (temp_name path (so_suffix os)) d1)) !! name = d !! name) as H4.
  { intros name Hn Hne. rewrite lookup_insert_ne by done. by apply H3. }
  assert (storable v -> written && complete = true) as Hst.
  { intros (ps' & w' & E1 & E2). rewrite Ev in E1. injection E1 as -> ->. rewrite Ew in E2. by injection E2 as ->. }
  destruct (written && complete); cbn [negb];
  [destruct Hl as [Hl|Hl]; [|done]|assert (~ storable v) as Hno by (intros Hx; by apply Hst in Hx)];
  repeat match goal with
  | |- context [if fails os ?s then _ else _] => let E := fresh "E" in destruct (fails os s) eqn:E; [apply Hf in E|clear E]
  | |- context [if stops os ?s then _ else _] => let E := fresh "E" in destruct (stops os s) eqn:E; [apply Hs in E|clear E]
  end;
  (split; [by auto|split; [first [by right|by left; auto]|by intros]]).
Qed.

(** ** Names *)

Lemma show_bytes z : is_u 64 z -> string_bytes (show z) = show_u64 z.
Proof.
  intros Hz. apply string_bytes_of_bytes. eapply List.Forall_impl; [|apply (decimal_digits 20 z); apply Hz].
  intros b Hb. simpl in Hb. unfold is_byte, is_u, umax. lia.
Qed.

Lemma digits_no z c : is_u 64 z -> ~ 48 <= c <= 57 -> c ∉ show_u64 z.
Proof.
  intros Hz Hc Hin. pose proof (decimal_digits 20 z (proj1 Hz)) as H. rewrite list.Forall_forall in H.
  by apply Hc, H.
Qed.

(** A prefix, a version, a dash: the version can be read back. *)
Lemma version_name_inj prefix v v' r r' : is_u 64 v -> is_u 64 v' ->
  prefix +:+ show v +:+ "-" +:+ r = prefix +:+ show v' +:+ "-" +:+ r' -> v = v'.
Proof.
  intros Hv Hv' E. apply (f_equal string_bytes) in E. rewrite !string_bytes_app in E.
  apply app_inv_head in E. rewrite !show_bytes in E by done.
  pose proof (proj2 (split_once_Some 45 _ (show_u64 v) (string_bytes r)) (conj eq_refl (digits_no v 45 Hv ltac:(lia)))) as S1.
  pose proof (proj2 (split_once_Some 45 _ (show_u64 v') (string_bytes r')) (conj eq_refl (digits_no v' 45 Hv' ltac:(lia)))) as S2.
  change (show_u64 v ++ 45 :: string_bytes r = show_u64 v' ++ 45 :: string_bytes r') in E.
  rewrite E, S2 in S1. injection S1 as E1 _. pose proof (show_u64_parse v Hv) as P1.
  rewrite <- E1, show_u64_parse in P1 by done. by injection P1.
Qed.

Lemma snapshot_name_inj v v' s s' : is_u 64 v -> is_u 64 v' ->
  snapshot_file_name v s = snapshot_file_name v' s' -> v = v'.
Proof. intros Hv Hv'. exact (version_name_inj "snapshot-v" v v' ("wal-" +:+ show s +:+ ".json") ("wal-" +:+ show s' +:+ ".json") Hv Hv'). Qed.

Lemma anchor_name_inj v v' s s' : is_u 64 v -> is_u 64 v' ->
  wal_anchor_file_name v s = wal_anchor_file_name v' s' -> v = v'.
Proof. intros Hv Hv'. exact (version_name_inj "wal-anchor-v" v v' ("wal-" +:+ show s +:+ ".json") ("wal-" +:+ show s' +:+ ".json") Hv Hv'). Qed.

(** A name without separators that is not made of dots is one component. *)
Lemma one_component l : 47 ∉ l -> (1 < length l)%nat -> l <> [46; 46] -> components l = [Normal l].
Proof.
  intros Hs Hl Hd. unfold components.
  rewrite (proj2 (split_on_Some 47 l [l])) by (split_and!; [done|done|by repeat constructor]).
  destruct l as [|x [|y l]]; simpl in Hl; [lia|lia|].
  assert (x <> 47) by (intros ->; apply Hs; set_solver).
  assert (match x :: y :: l, [x :: y :: l] with
    | 47 :: _, _ => [RootDir] | _, [46] :: _ => [CurDir] | _, _ => [] end = []) as ->.
  { destruct x as [|p|p]; try done; repeat (destruct p as [p|p|]; try done). }
  cbn [omap list_omap app]. rewrite !bool_decide_false by done. done.
Qed.

Lemma generation_name_safe prefix v s : 47 ∉ string_bytes prefix -> (2 < length (string_bytes prefix))%nat ->
  is_u 64 v -> is_u 64 s ->
  validate_generation_filename (prefix +:+ show v +:+ "-wal-" +:+ show s +:+ ".json") = Ok tt.
Proof.
  intros Hp Hl Hv Hs. unfold validate_generation_filename. rewrite one_component; [done|..].
  - rewrite !string_bytes_app, !show_bytes by done. rewrite !elem_of_app.
    pose proof (digits_no v 47 Hv ltac:(lia)). pose proof (digits_no s 47 Hs ltac:(lia)).
    intros [?|[?|[Hin|[?|Hin]]]]; try done; revert Hin; by_compute.
  - rewrite string_bytes_app, length_app. lia.
  - rewrite string_bytes_app. intros E. apply (f_equal length) in E. rewrite length_app in E. simpl in E. lia.
Qed.

(** ** Loading a generation *)

Section generations.
Context {HF : HashFunctions} {JR : JsonReader} {AS : Artifact BudgetSnapshot} {AA : Artifact WalAnchor}
  {AM : Artifact CheckpointManifest}.

(** Only the manifest and the two files it names matter. *)
Lemma load_frame d d' c : load_coordinated_checkpoint d = Ok c ->
  d' !! MANIFEST_FILE = d !! MANIFEST_FILE ->
  d' !! cm_snapshot_file (cc_manifest c) = d !! cm_snapshot_file (cc_manifest c) ->
  d' !! cm_wal_anchor_file (cc_manifest c) = d !! cm_wal_anchor_file (cc_manifest c) ->
  load_coordinated_checkpoint d' = Ok c.
Proof.
  intros H Hm Hs Ha. rewrite <- H. assert (exists m, load_json_bounded MANIFEST_FILE d = Ok m /\ cc_manifest c = m) as (m & Em & Ec).
  { unfold load_coordinated_checkpoint in H. apply bind_Ok in H as (m & Em & H). exists m. split; [done|].
    open_results. by subst. }
  unfold load_coordinated_checkpoint. unfold load_json_bounded at 1. rewrite Hm. fold (load_json_bounded (T := CheckpointManifest) MANIFEST_FILE d).
  rewrite Em. cbn [mbind result_bind]. rewrite <- Ec. unfold load_snapshot, load_wal_anchor, load_json_bounded.
  by rewrite Hs, Ha.
Qed.

(** A generation whose three files are on disk loads. *)
Lemma generation_loads d s a : is_u 64 (bs_version s) -> is_u 64 (wa_sequence a) ->
  bs_wal_high_watermark s = Some (wa_sequence a) -> validate_snapshot_for_restore s = Ok tt ->
  wa_schema_version a = WAL_ANCHOR_SCHEMA ->
  load_json_bounded MANIFEST_FILE d = Ok (manifest_of s a) ->
  load_json_bounded (cm_snapshot_file (manifest_of s a)) d = Ok s ->
  load_json_bounded (cm_wal_anchor_file (manifest_of s a)) d = Ok a ->
  load_coordinated_checkpoint d = Ok (mkCoordinatedCheckpoint (manifest_of s a) s a).
Proof.
  intros Hv Hn Hw Hr Hsch Lm Ls La. unfold load_coordinated_checkpoint. rewrite Lm. cbn [mbind result_bind].
  unfold load_snapshot, load_wal_anchor. rewrite Ls, La.
  cbn [manifest_of cm_schema_version cm_snapshot_file cm_wal_anchor_file cm_snapshot_version cm_ledger_digest_hex
    cm_wal_sequence cm_wal_hash cm_wal_keyed].
  rewrite String.eqb_refl. cbn [negb refuse_if mbind result_bind]. unfold snapshot_file_name, wal_anchor_file_name.
  rewrite !generation_name_safe by (done || by_compute). cbn [mbind result_bind].
  rewrite Z.eqb_refl, String.eqb_refl, bool_decide_true by done. cbn [negb orb refuse_if mbind result_bind].
  rewrite Hr. cbn [map_err mbind result_bind]. unfold verify_head, validate_metadata.
  rewrite Hsch, String.eqb_refl, eqb_reflx. cbn [negb mbind result_bind].
  by rewrite Z.eqb_refl, String.eqb_refl.
Qed.

Definition generation (s : BudgetSnapshot) (a : WalAnchor) : CoordinatedCheckpoint :=
  mkCoordinatedCheckpoint (manifest_of s a) s a.

(** What makes a snapshot and an anchor a generation. *)
Record committable (s : BudgetSnapshot) (a : WalAnchor) : Prop := {
  co_version : is_u 64 (bs_version s);
  co_sequence : is_u 64 (wa_sequence a);
  co_watermark : bs_wal_high_watermark s = Some (wa_sequence a);
  co_restorable : validate_snapshot_for_restore s = Ok tt;
  co_schema : wa_schema_version a = WAL_ANCHOR_SCHEMA
}.

Definition fault_free (os : CheckpointOs) : Prop :=
  so_fault (co_snapshot os) = None /\ so_fault (co_anchor os) = None /\ so_fault (co_manifest os) = None.

(** Writing a generation either leaves the manifest and every file of other
    generations, or commits this one. *)
Lemma write_generation_effect os s a d : committable s a ->
  let '(d', r) := write_generation os s a d in
  ((forall name, visible name -> name <> cm_snapshot_file (manifest_of s a) ->
      name <> cm_wal_anchor_file (manifest_of s a) -> d' !! name = d !! name) /\ (forall c, r <> Some (Ok c))
   \/ load_coordinated_checkpoint d' = Ok (generation s a) /\ (forall c, r = Some (Ok c) -> c = generation s a)) /\
  (fault_free os -> storable s -> storable a -> storable (manifest_of s a) -> r = Some (Ok (generation s a))).
Proof.
  intros Hc. unfold write_generation, save_snapshot, save_wal_anchor. set (m := manifest_of s a).
  assert (visible (cm_snapshot_file m)) as V1 by done. assert (visible (cm_wal_anchor_file m)) as V2 by done.
  assert (visible MANIFEST_FILE) as V3 by done.
  pose proof (save_effect (co_snapshot os) s _ d V1) as E1.
  destruct (save_json_atomic _ s _ d) as [d1 [[[]|e1]|]]; destruct E1 as (F1 & L1 & O1); cbn [run_bind].
  2,3: split; [left; split; [by auto|done]|intros (? & ? & ?) ? ? ?; naive_solver].
  destruct L1 as [[_ []]|L1]; [done|].
  pose proof (save_effect (co_anchor os) a _ d1 V2) as E2.
  destruct (save_json_atomic _ a _ d1) as [d2 [[[]|e2]|]]; destruct E2 as (F2 & L2 & O2); cbn [run_bind].
  2,3: split; [left; split; [intros; rewrite F2 by done; by auto|done]|intros (? & ? & ?) ? ? ?; naive_solver].
  destruct L2 as [[_ []]|L2]; [done|].
  pose proof (save_effect (co_manifest os) m _ d2 V3) as E3.
  destruct (save_json_atomic _ m _ d2) as [d3 r3]; destruct E3 as (F3 & L3 & O3).
  assert (load_json_bounded MANIFEST_FILE d3 = Ok m -> load_coordinated_checkpoint d3 = Ok (generation s a)) as Hload.
  { intros Lm. apply generation_loads; try apply Hc; [done|..].
    - fold m. rewrite <- L1. unfold load_json_bounded. by rewrite F3, F2.
    - fold m. rewrite <- L2. unfold load_json_bounded. by rewrite F3. }
  assert ((forall name, visible name -> name <> cm_snapshot_file m -> name <> cm_wal_anchor_file m -> d3 !! name = d !! name)
    /\ r3 <> Some (Ok tt) \/ load_coordinated_checkpoint d3 = Ok (generation s a)) as Hd.
  { destruct L3 as [[L3 Hr]|L3]; [left; split; [|done]|right; by apply Hload]. intros name Hn N1 N2.
    destruct (decide (name = MANIFEST_FILE)) as [->|N3]; [rewrite L3, F2 by done; by auto|].
    rewrite F3, F2 by done. by auto. }
  destruct r3 as [[[]|e3]|]; cbn [run_bind].
  - destruct Hd as [[_ []]|Hd]; [done|]. split; [right; split; [done|]|done]. by intros c [= <-].
  - split; [|intros (? & ? & ?) ? ? ?; naive_solver]. destruct Hd as [[Hd _]|Hd]; [left|right]; by split.
  - split; [|intros (? & ? & ?) ? ? ?; naive_solver]. destruct Hd as [[Hd _]|Hd]; [left|right]; by split.
Qed.

End generations.

(** ** Facts about the engine and the log *)

Lemma run_next_id o e : op_typed o -> engine_inv e -> be_next_id e <= be_next_id (snd (run o e)).
Proof.
  intros Ho Hinv. pose proof (run_refines o e Ho Hinv) as H. change (be_next_id e) with (lg_next (ledger_of e)).
  change (be_next_id (snd (run o e))) with (lg_next (ledger_of (snd (run o e)))).
  replace (ledger_of (snd (run o e))) with (snd (ledger_run o (ledger_of e))) by (by rewrite H).
  generalize (ledger_of e). intros l. destruct o; simpl; unfold ledger_reserve, ledger_commit, ledger_release, ledger_settle;
    repeat case_match; simpl; lia.
Qed.

Lemma tagged_u64 n : 0 <= n <= RECOVERY_ALLOCATOR_MASK -> is_u 64 (Z.lor RECOVERY_SNAPSHOT_TAG n).
Proof.
  intros Hn. unfold RECOVERY_ALLOCATOR_MASK, RECOVERY_SNAPSHOT_TAG in *.
  assert (0 <= Z.lor (2 ^ 63) n) by (apply Z.lor_nonneg; lia). split; [done|]. unfold umax.
  assert (Z.lor (2 ^ 63) n < 2 ^ 64); [|lia]. assert (0 < Z.lor (2 ^ 63) n).
  { destruct (Z.eq_dec (Z.lor (2 ^ 63) n) 0) as [E|]; [|lia]. by apply Z.lor_eq_0_iff in E as [E _]. }
  apply Z.log2_lt_pow2; [done|]. rewrite Z.log2_lor by lia.
  destruct (Z.eq_dec n 0) as [->|]; [by_compute|]. pose proof (proj1 (Z.log2_lt_pow2 n 63 ltac:(lia)) ltac:(lia)).
  change (Z.log2 (2 ^ 63)) with 63. lia.
Qed.

(** A snapshot takes the next identifier, so its version is new. *)
Lemma snapshot_version e s e' : engine_inv e -> try_snapshot e = (Ok s, e') ->
  bs_version s = Z.lor RECOVERY_SNAPSHOT_TAG (be_next_id e') /\ be_next_id e' = be_next_id e + 1 /\
  engine_inv e' /\ bs_tenants s = snapshot_rows e /\ bs_active_reservations s = active_reservations e.
Proof.
  intros Hinv H. pose proof (engine_inv_try_snapshot e Hinv) as Hinv'. rewrite H in Hinv'.
  rewrite try_snapshot_exact in H by done. destruct (_ <=? _); [done|]. injection H as <- <-. by destruct e.
Qed.

Lemma snapshot_refused_inv e x e' : engine_inv e -> try_snapshot e = (Err x, e') -> e' = e.
Proof. intros Hinv. rewrite try_snapshot_exact by done. destruct (_ <=? _); [|done]. by intros [= <-]. Qed.

(** With no open reservation the snapshot can be restored. *)
Lemma snapshot_restorable e s e' n : engine_inv e -> be_reservations e = ∅ -> try_snapshot e = (Ok s, e') ->
  validate_snapshot_for_restore (with_watermark s n) = Ok tt.
Proof.
  intros Hinv He H. destruct (snapshot_version e s e' Hinv H) as (Hv & Hn & Hinv' & Ht & Ha).
  pose proof (inv_next_id e' Hinv') as Hr. pose proof (inv_next_id e Hinv).
  destruct (tagged_version (be_next_id e') ltac:(lia)) as [T1 T2].
  unfold validate_snapshot_for_restore, allocator_from_snapshot_version. cbn [with_watermark bs_version].
  rewrite Hv, T1, T2. rewrite (proj2 (Z.eqb_neq _ _)) by (unfold RECOVERY_SNAPSHOT_TAG; lia).
  rewrite (proj2 (Z.eqb_neq (be_next_id e') 0)) by lia. cbn [orb mbind result_bind].
  apply validate_snapshot_ledger_ok. split_and!; cbn [with_watermark bs_tenants bs_active_reservations]; rewrite ?Ht, ?Ha.
  - unfold active_reservations. by rewrite He, map_size_empty.
  - apply snapshot_rows_nodup.
  - by apply snapshot_rows_restorable.
  - by apply snapshot_rows_balanced.
Qed.

Lemma restored_next_id s e : validate_snapshot_for_restore s = Ok tt ->
  be_next_id (snd (restore_from_snapshot s e)) = Z.land (bs_version s) RECOVERY_ALLOCATOR_MASK.
Proof.
  intros Hv. destruct (restore_from_snapshot s e) as [[[]|x] e'] eqn:E.
  - by apply restore_from_snapshot_restored in E as (_ & _ & []).
  - unfold restore_from_snapshot in E. rewrite Hv in E. unfold validate_snapshot_for_restore in Hv.
    by destruct (allocator_from_snapshot_version (bs_version s)).
Qed.

Section log_heads.
Context {HF : HashFunctions} {JR : JsonReader}.

Lemma checked_u64 key es c c' : check_all key es c = Ok c' -> is_u 64 (cs_expected_sequence c) ->
  is_u 64 (cs_last_sequence c) -> is_u 64 (cs_last_sequence c').
Proof.
  revert c. induction es as [|e es IH]; intros c; cbn [check_all]; [by intros [= <-]|].
  intros (c1 & H & Hr)%bind_Ok He Hl. apply (IH c1); [done|..]; unfold check_entry in H;
    destruct (Z.eqb_spec (we_sequence e) (cs_expected_sequence c)); cbn [negb] in H; [|done| |done];
    destruct (negb _); try done; apply bind_Ok in H as (h & _ & H); destruct (negb _); try done;
    apply bind_Ok in H as (x & Hx%ok_or_Ok & [= <-]); cbn; [by apply checked_u_Some in Hx as [-> ?]|congruence].
Qed.

Lemma opened_u64 file key w : open_inner true file key = Ok w -> is_u 64 (ww_sequence w).
Proof.
  unfold open_inner. intros (? & Hk & (? & _ & ([n h] & Hh & [= <-])%bind_Ok)%bind_Ok)%bind_Ok. cbn.
  unfold validate_chain_reader in Hh. destruct (each_line _ _ _) as [c [e|]] eqn:E; cbn in Hh; [done|].
  injection Hh as <- _. apply validated_entries in E as (es & _ & H). by apply (checked_u64 _ _ _ _ H); by_compute.
Qed.

Lemma append_u64 {T} `{WalJson T} os (x : T) w : is_u 64 (ww_sequence w) -> is_u 64 (ww_sequence (snd (append os x w))).
Proof.
  intros Hw. unfold append. destruct (ww_poisoned w); [done|].
  destruct (checked_u 64 (ww_sequence w + 1)) as [n|] eqn:En; [|done]. apply checked_u_Some in En as [-> Hn].
  destruct (_ ≫= _) as [[j h]|]; [|done]. by destruct os.
Qed.

Lemma flush_u64 b w : ww_sequence (snd (flush_and_sync b w)) = ww_sequence w.
Proof. unfold flush_and_sync. by destruct (ww_poisoned w), b. Qed.
End log_heads.

(** ** A node: budget engine, log and checkpoint directory *)

Record Node := mkNode { nd_engine : BudgetEngine; nd_wal : WalWriter; nd_dir : Dir }.

Section node.
Context {HF : HashFunctions} {JR : JsonReader} {AS : Artifact BudgetSnapshot} {AA : Artifact WalAnchor}
  {AM : Artifact CheckpointManifest} {T : Type} {J : WalJson T}.

(** Budget operations, appends, checkpoints with the operating system failing
    or the process stopping anywhere, and restarts that reopen the log and
    restore the committed generation, or start afresh when there is none. *)
Inductive node_step : Node -> Node -> Prop :=
| node_budget o e w d : op_typed o -> node_step (mkNode e w d) (mkNode (snd (run o e)) w d)
| node_append os (x : T) e w d : node_step (mkNode e w d) (mkNode e (snd (append os x w)) d)
| node_checkpoint os e w d e' w' d' r : checkpoint_coordinated os e w d = (e', w', (d', r)) ->
    node_step (mkNode e w d) (mkNode e' w' d')
| node_restart e w d c w' : load_coordinated_checkpoint d = Ok c ->
    open_inner true (ww_file w) (ww_hmac_key w) = Ok w' ->
    node_step (mkNode e w d) (mkNode (snd (restore_from_snapshot (cc_snapshot c) BudgetEngine_new)) w' d)
| node_fresh e w d w' : d !! MANIFEST_FILE = None ->
    open_inner true (ww_file w) (ww_hmac_key w) = Ok w' ->
    node_step (mkNode e w d) (mkNode BudgetEngine_new w' d).

Definition node_reachable (n : Node) : Prop :=
  exists key w, open_inner true [] key = Ok w /\ rtc node_step (mkNode BudgetEngine_new w ∅) n.

(** The committed generation, if there is one, loads, and the engine's
    allocator is past its version. *)
Record node_inv (n : Node) : Prop := {
  ni_engine : engine_inv (nd_engine n);
  ni_sequence : is_u 64 (ww_sequence (nd_wal n));
  ni_committed : nd_dir n !! MANIFEST_FILE = None \/
    exists s a, load_coordinated_checkpoint (nd_dir n) = Ok (generation s a) /\ is_u 64 (bs_version s) /\
      validate_snapshot_for_restore s = Ok tt /\
      Z.land (bs_version s) RECOVERY_ALLOCATOR_MASK <= be_next_id (nd_engine n)
}.

Lemma load_none d : d !! MANIFEST_FILE = None -> load_coordinated_checkpoint d = Err (PersistIo OsFailure).
Proof. intros H. unfold load_coordinated_checkpoint, load_json_bounded. by rewrite H. Qed.

(** What a checkpoint of [e] and [w] commits. *)
Definition next_generation (e : BudgetEngine) (w : WalWriter) (c : CoordinatedCheckpoint) : Prop :=
  exists s, fst (try_snapshot e) = Ok s /\ c = generation (with_watermark s (ww_sequence w)) (anchor w).

(** The directory after writing a generation newer than the committed one. *)
Lemma newer_generation os s a e d : committable s a -> bs_version s = Z.lor RECOVERY_SNAPSHOT_TAG (be_next_id e + 1) ->
  1 <= be_next_id e -> be_next_id e + 1 <= RECOVERY_ALLOCATOR_MASK ->
  (d !! MANIFEST_FILE = None \/ exists s0 a0, load_coordinated_checkpoint d = Ok (generation s0 a0) /\
     is_u 64 (bs_version s0) /\ validate_snapshot_for_restore s0 = Ok tt /\
     Z.land (bs_version s0) RECOVERY_ALLOCATOR_MASK <= be_next_id e) ->
  let '(d', r) := write_generation os s a d in
  (d' !! MANIFEST_FILE = d !! MANIFEST_FILE /\ load_coordinated_checkpoint d' = load_coordinated_checkpoint d /\
     (forall c, r <> Some (Ok c))) \/
  (load_coordinated_checkpoint d' = Ok (generation s a) /\ (forall c, r = Some (Ok c) -> c = generation s a)).
Proof.
  intros Hc Hv H1 Hm Hd. pose proof (write_generation_effect os s a d Hc) as E.
  destruct (write_generation os s a d) as [d' r]. destruct E as [[[Hf Hr]|Hl] _]; [left|by right].
  assert (d' !! MANIFEST_FILE = d !! MANIFEST_FILE) as Em by (by apply Hf). split_and!; [done| |done].
  destruct Hd as [Hn|(s0 & a0 & Hload & Hv0 & _ & Hle)]; [by rewrite !load_none by congruence|].
  assert (bs_version s0 <> bs_version s) as Hne.
  { intros Ev. rewrite Ev, Hv in Hle. rewrite (proj1 (tagged_version (be_next_id e + 1) ltac:(lia))) in Hle. lia. }
  rewrite Hload. eapply load_frame; [done|done|..]; apply Hf; try done.
  - intros Ef. apply Hne. by eapply snapshot_name_inj; [..|exact Ef]; [|apply Hc].
  - intros Ef. apply Hne. by eapply anchor_name_inj; [..|exact Ef]; [|apply Hc].
Qed.

Lemma checkpoint_effect os e w d e' w' d' r : node_inv (mkNode e w d) ->
  checkpoint_coordinated os e w d = (e', w', (d', r)) ->
  node_inv (mkNode e' w' d') /\
  (load_coordinated_checkpoint d' = load_coordinated_checkpoint d /\ (forall c, r <> Some (Ok c)) \/
   exists c, next_generation e w c /\ load_coordinated_checkpoint d' = Ok c /\ (forall c', r = Some (Ok c') -> c' = c)).
Proof.
  intros [Hi Hs Hd] H. cbn [nd_engine nd_wal nd_dir] in *. unfold checkpoint_coordinated in H.
  destruct (co_directory_ok os); cbn [negb] in H.
  2: { injection H as <- <- <- <-. split; [by split|left; by split]. }
  assert (anchor (snd (flush_and_sync (co_flush_ok os) w)) = anchor w) as Ha
    by (unfold flush_and_sync; by destruct (ww_poisoned w), (co_flush_ok os)).
  pose proof (flush_u64 (co_flush_ok os) w) as Hfl. destruct (flush_and_sync _ w) as [[[]|x] w1]; cbn [snd] in *.
  2: { injection H as <- <- <- <-. split; [split; cbn; by rewrite ?Hfl|left; by split]. }
  destruct (try_snapshot e) as [[s|x] e1] eqn:Es; cbn [map_err run_check] in H.
  2: { injection H as <- <- <- <-. apply snapshot_refused_inv in Es as ->; [|done].
       split; [split; cbn; by rewrite ?Hfl|left; by split]. }
  destruct (snapshot_version e s e1 Hi Es) as (Hv & Hn & Hi1 & _). pose proof (inv_next_id e Hi). pose proof (inv_next_id e1 Hi1).
  assert (forall P : Prop, P \/ (exists s a, load_coordinated_checkpoint d = Ok (generation s a) /\ is_u 64 (bs_version s) /\
      validate_snapshot_for_restore s = Ok tt /\ Z.land (bs_version s) RECOVERY_ALLOCATOR_MASK <= be_next_id e) ->
    P \/ (exists s a, load_coordinated_checkpoint d = Ok (generation s a) /\ is_u 64 (bs_version s) /\
      validate_snapshot_for_restore s = Ok tt /\ Z.land (bs_version s) RECOVERY_ALLOCATOR_MASK <= be_next_id e1)) as Hkeep.
  { intros P [?|(s0 & a0 & ? & ? & ? & ?)]; [by left|right]. exists s0, a0. split_and!; [done..|lia]. }
  rewrite Ha in H. destruct (validate_snapshot_for_restore _) as [[]|x] eqn:Er; cbn [map_err run_check] in H.
  2: { injection H as <- <- <- <-. split; [split; cbn; [done|by rewrite Hfl|by apply Hkeep]|left; by split]. }
  set (s1 := with_watermark s (wa_sequence (anchor w))) in *.
  assert (committable s1 (anchor w)) as Hc.
  { split; [|done|done|done|done]. cbn. rewrite Hv. apply tagged_u64. lia. }
  pose proof (newer_generation os s1 (anchor w) e d Hc ltac:(cbn; by rewrite Hv, Hn) ltac:(lia) ltac:(lia) Hd) as G.
  destruct (write_generation os s1 (anchor w) d) as [d2 r2]. injection H as <- <- <- <-.
  destruct G as [(Gm & Gl & Gr)|[Gl Gr]].
  - split; [|by left]. split; cbn; [done|by rewrite Hfl|]. rewrite Gm, Gl. by apply Hkeep.
  - split.
    + split; cbn; [done|by rewrite Hfl|right]. exists s1, (anchor w). split_and!; [done|apply Hc|done|].
      cbn. rewrite Hv, (proj1 (tagged_version (be_next_id e1) ltac:(lia))). lia.
    + right. exists (generation s1 (anchor w)). split_and!; [|done..]. exists s. by rewrite Es.
Qed.

Lemma node_step_inv n n' : node_step n n' -> node_inv n -> node_inv n'.
Proof.
  intros H. destruct H as [o e w d Ho|os x e w d|os e w d e' w' d' r H|e w d c w' Hl Ho|e w d w' Hm Ho]; intros Hinv.
  - destruct Hinv as [Hi Hs Hd]. split; cbn in *; [by apply run_inv|done|]. pose proof (run_next_id o e Ho Hi).
    destruct Hd as [?|(s0 & a0 & ? & ? & ? & ?)]; [by left|right]. exists s0, a0. split_and!; [done..|lia].
  - destruct Hinv as [Hi Hs Hd]. split; cbn in *; [done|by apply append_u64|done].
  - by eapply checkpoint_effect.
  - destruct Hinv as [Hi Hs Hd]. split; cbn in *; [apply engine_inv_restore, engine_inv_new|by eapply opened_u64|].
    destruct Hd as [Hn|(s0 & a0 & H1 & H2 & H3 & H4)]; [by left|right]. rewrite Hl in H1. injection H1 as ->.
    exists s0, a0. split_and!; [done..|]. cbn [generation cc_snapshot]. by rewrite restored_next_id.
  - destruct Hinv as [Hi Hs Hd]. split; cbn in *; [apply engine_inv_new|by eapply opened_u64|by left].
Qed.

Lemma node_reachable_inv n : node_reachable n -> node_inv n.
Proof.
  intros (key & w & Ho & H). assert (node_inv (mkNode BudgetEngine_new w ∅)) as H0.
  { split; cbn; [apply engine_inv_new|by eapply opened_u64|left; apply lookup_empty]. }
  revert H0. induction H as [|n1 n2 n3 Hs _ IH]; [done|]. intros H0. by apply IH, (node_step_inv n1).
Qed.

(** Claim C10: A coordinated checkpoint is atomic. Take any history of a node:
    budget operations, log appends, earlier checkpoints that failed or stopped
    at any system call, and restarts. Then a checkpoint, whatever the
    operating system does to it, leaves the directory loading exactly what it
    loaded before, and has not reported success, or loading the new
    generation: the engine's snapshot at the log's head. When it reports
    success, it is the latter; and when nothing goes wrong, no reservation is
    open and the three files fit the size bound, it does. *)
Theorem coordinated_checkpoint_atomic e w d os e' w' d' r :
  node_reachable (mkNode e w d) -> checkpoint_coordinated os e w d = (e', w', (d', r)) ->
  (load_coordinated_checkpoint d' = load_coordinated_checkpoint d /\ (forall c, r <> Some (Ok c)) \/
   exists c, next_generation e w c /\ load_coordinated_checkpoint d' = Ok c /\ (forall c', r = Some (Ok c') -> c' = c)) /\
  (forall c, next_generation e w c -> be_reservations e = ∅ -> ww_poisoned w = false ->
     co_directory_ok os = true -> co_flush_ok os = true -> fault_free os ->
     storable (cc_snapshot c) -> storable (cc_anchor c) -> storable (cc_manifest c) -> r = Some (Ok c)).
Proof.
  intros Hinv%node_reachable_inv H. split; [by apply (checkpoint_effect os e w d e' w' d' r Hinv H)|].
  intros c (s & Es & ->) He Hp Hdo Hfo Hff S1 S2 S3. unfold checkpoint_coordinated, flush_and_sync in H.
  rewrite Hdo, Hp, Hfo in H. cbn [negb] in H. destruct (try_snapshot e) as [r0 e1] eqn:Et. cbn [fst] in Es. subst r0.
  cbn [map_err run_check] in H. destruct Hinv as [Hi Hs _]. cbn in Hi, Hs.
  rewrite (snapshot_restorable e s e1 _ Hi He Et) in H. cbn [map_err run_check] in H.
  destruct (snapshot_version e s e1 Hi Et) as (Hv & Hn & Hi1 & _). pose proof (inv_next_id e1 Hi1).
  pose proof (write_generation_effect os (with_watermark s (wa_sequence (anchor w))) (anchor w) d) as G.
  destruct (write_generation _ _ _ _) as [d2 r2]. injection H as <- <- <- <-. apply G; try done.
  split; [cbn; rewrite Hv; apply tagged_u64; lia|done|done|exact (snapshot_restorable e s e1 _ Hi He Et)|done].
Qed.

(** Every reachable directory holds no generation or a loadable one. *)
Lemma reachable_loads n : node_reachable n ->
  nd_dir n !! MANIFEST_FILE = None \/ exists c, load_coordinated_checkpoint (nd_dir n) = Ok c.
Proof. intros [_ _ [?|(s & a & ? & _)]]%node_reachable_inv; eauto. Qed.

End node.
