(* ===== verification/Recovery.v ===== *)
(** * Recovery after a coordinated checkpoint

    The log grows after a checkpoint; the anchor the checkpoint recorded stays
    in it, and the recovery plan counts exactly the entries appended since. *)

From Stdlib Require Import String.
From S2P Require Import Prelude Bytes Text Budget BudgetInv BudgetSpec BudgetProps Finance Wal WalTheory WalLog WalSample WalProps Persistence PersistenceProps.
#[local] Open Scope Z_scope.
#[local] Opaque decimal.

(** [serde_json::from_slice::<WalEntry<Value>>]: any printed entry is read at
    the type of JSON values too. *)
Class ValueReader {JR : JsonReader} (T : Type) {J : WalJson T} (V : Type) := {
  from_slice_value : list Z -> option (WalEntry V);
  value_reads_entry : forall (x : T) ps n p h tail, serialize x = (ps, true) -> is_u 64 n ->
    plain_text p = true -> plain_text h = true -> tail ∈ [[]; [10]] ->
    exists v, from_slice_value (entry_line n p h (concat ps) ++ tail) = Some (mkWalEntry n p h v)
}.

(** ** An anchor stays in the log *)

Section anchored.
Context {HF : HashFunctions} {JR : JsonReader}.

Definition keyed_mode (key : option (list Z)) : bool := match key with Some _ => true | None => false end.

(** Up to the anchor: its entry is the last one. *)
Lemma prefix_noted key a es c : validate_key key = Ok tt -> check_all key es chain_start = Ok c ->
  wa_sequence a = cs_last_sequence c ->
  fold_left (note_prefix a) es (if wa_sequence a =? 0 then Some "genesis"%string else None) = Some (cs_last_hash c).
Proof.
  intros Hk. destruct es as [|e es _] using rev_ind; [by intros [= <-] ->|].
  intros Hc Ha. pose proof (checked_head key _ c Hk Hc) as (_ & Hl & _). apply check_all_snoc in Hc as (c0 & H0 & He).
  apply check_entry_Ok in He as (Hs & _ & _ & Hc); [|done]. rewrite fold_left_app. cbn.
  unfold note_prefix at 1. rewrite Ha, Hc. cbn. by rewrite Z.eqb_refl.
Qed.

Lemma anchor_contained key f g c0 c : validate_key key = Ok tt -> ends_line f ->
  each_line (validate_step key) f chain_start = (c0, None) ->
  each_line (validate_step key) (f ++ g) chain_start = (c, None) ->
  verify_wal_contains_anchor_inner (f ++ g) key
    (mkWalAnchor WAL_ANCHOR_SCHEMA (cs_last_sequence c0) (cs_last_hash c0) (keyed_mode key)) = Ok (chain_head c).
Proof.
  intros Hk Hf H0 H. set (a := mkWalAnchor _ _ _ _).
  unfold verify_wal_contains_anchor_inner, validate_metadata, visit_verified_wal_inner.
  rewrite String.eqb_refl. cbn [negb wa_keyed a]. fold (keyed_mode key). rewrite eqb_reflx, Hk. cbn [negb mbind result_bind].
  set (p0 := if wa_sequence a =? 0 then _ else _).
  assert (each_line (visit_step from_slice_raw (note_prefix a) key) f (chain_start, p0) =
    ((c0, Some (cs_last_hash c0)), None)) as V0.
  { destruct (each_line_sim (fun x y => x = fst y) (validate_step key) (visit_step from_slice_raw (note_prefix a) key))
      with (bytes := f) (s1 := chain_start) (s2 := (chain_start, p0)) (s1' := c0) as ([x p] & E & Ex); try done.
    - intros line x [y t] x' -> (entry & E1 & E2)%validate_step_None. cbn in *. eexists. unfold visit_step.
      rewrite E1. cbn. rewrite E2. cbn. by split.
    - cbn in Ex. subst x. rewrite E. pose proof E as (es & _ & Hc & ->)%visited_entries. do 3 f_equal.
      by apply (prefix_noted key a es c0 Hk Hc). }
  rewrite each_line_app in H by done. rewrite each_line_app by done. rewrite H0 in H. rewrite V0.
  destruct (each_line_sim (fun x y => x = fst y /\ snd y = Some (cs_last_hash c0) /\ wa_sequence a < cs_expected_sequence x)
      (validate_step key) (visit_step from_slice_raw (note_prefix a) key))
    with (bytes := g) (s1 := c0) (s2 := (c0, Some (cs_last_hash c0))) (s1' := c) as ([x p] & E & Ex & Ep & _); try done.
  - intros line x [y t] x' (-> & Et & Hlt) (entry & E1 & E2)%validate_step_None. cbn in *. eexists. unfold visit_step.
    rewrite E1. cbn. rewrite E2. cbn. split; [done|]. apply check_entry_Ok in E2 as (Hs & _ & _ & ->); [|done]. cbn.
    unfold note_prefix. cbn [a wa_sequence] in *.
    destruct (Z.eqb_spec (we_sequence entry) (cs_last_sequence c0)); [lia|]. split_and!; [done|done|lia].
  - cbn. split_and!; [done|done|]. apply validated_entries in H0 as (es & _ & Hc).
    destruct (checked_head key es c0 Hk Hc) as (-> & -> & _). lia.
  - cbn in Ex, Ep. subst x p. rewrite E. cbn [settled fst snd mbind result_bind ok_or]. cbn [wa_last_hash a].
    by rewrite String.eqb_refl.
Qed.

(** The file only grows. *)
Lemma wal_step_grows {T} `{WalJson T} o w es new w' : log_of w es -> ww_sequence w + 1 < umax 64 ->
  wal_step (T := T) o w = (new, w') -> exists g, ww_file w' = ww_file w ++ g.
Proof.
  intros Hlog Hn Hs. destruct o as [os x|b|b|b]; cbn [wal_step] in Hs.
  - destruct (append_cases os x w es Hlog Hn) as [(e & E & _)|(j & h & _ & E)]; cbv zeta in E; rewrite E in Hs.
    + injection Hs as <- <-. exists []. by rewrite app_nil_r.
    + destruct os; injection Hs as <- <-; by eexists.
  - injection Hs as <- <-. exists []. rewrite app_nil_r. unfold flush, flush_and_sync. by destruct (ww_poisoned w), b.
  - injection Hs as <- <-. exists []. rewrite app_nil_r. unfold sync, flush_and_sync. by destruct (ww_poisoned w), b.
  - injection Hs as <- <-. exists []. rewrite app_nil_r. unfold flush_and_sync. by destruct (ww_poisoned w), b.
Qed.

Lemma wal_run_grows {T} `{WalJson T} ops : forall w es new w', log_of w es ->
  ww_sequence w + Z.of_nat (length ops) < umax 64 -> wal_run (T := T) ops w = (new, w') -> ww_poisoned w' = false ->
  exists g, ww_file w' = ww_file w ++ g.
Proof.
  induction ops as [|o ops IH]; intros w es new w' Hlog Hn; cbn [wal_run].
  { intros [= <- <-] _. exists []. by rewrite app_nil_r. }
  destruct (wal_step o w) as [e1 w1] eqn:E1. destruct (wal_run ops w1) as [e2 w2] eqn:E2.
  intros [= <- <-] Hp. cbn [length] in Hn.
  destruct (ww_poisoned w1) eqn:Hp1; [rewrite (poisoned_run ops w1 Hp1) in E2; congruence|].
  destruct (wal_step_grows o w es e1 w1 Hlog ltac:(lia) E1) as [g1 G1].
  destruct (wal_step_log o w es e1 w1 Hlog ltac:(lia) E1 Hp1) as (L1 & _ & S1 & _ & Hle).
  destruct (IH w1 (es ++ e1) e2 w2 L1 ltac:(lia) E2 Hp) as [g2 G2]. exists (g1 ++ g2). by rewrite G2, G1, app_assoc.
Qed.
End anchored.

(** ** Counting entries *)

Lemma count_entries {V} high (vs : list (WalEntry V)) : map we_sequence vs = seqZ 1 (Z.of_nat (length vs)) ->
  0 <= high -> Z.of_nat (length vs) <= umax 64 ->
  fold_left (count_entry high) vs (0, 0) = (Z.of_nat (length vs), Z.max 0 (Z.of_nat (length vs) - high)).
Proof.
  intros Hs Hh. induction vs as [|v vs IH] using rev_ind; intros Hl; [cbn; f_equal; lia|].
  rewrite length_app in *. cbn [length] in *. rewrite map_app, Nat2Z.inj_add, seqZ_app in Hs by lia.
  apply app_inj_tail_iff in Hs as [Hs Hv]. rewrite fold_left_app, IH by (done || lia). cbn [fold_left].
  assert (we_sequence v = Z.of_nat (length vs) + 1) as Hw by lia. clear Hv.
  unfold count_entry. cbn [fst snd]. rewrite Hw. unfold add_u.
  rewrite !wrap_u_small by (done || unfold is_u; lia). f_equal; [lia|]. destruct (Z.ltb_spec high (Z.of_nat (length vs) + 1)); lia.
Qed.

Section plan.
Context {HF : HashFunctions} {JR : JsonReader} {T : Type} {J : WalJson T} {V : Type} {VR : ValueReader T V}.

(** The log read at the type of JSON values. *)
Definition value_log (w : WalWriter) : Prop := exists vs : list (WalEntry V),
  each_line (visit_step from_slice_value push_entry (ww_hmac_key w)) (ww_file w) (chain_start, []) =
    ((head_state w, vs), None) /\ map we_sequence vs = seqZ 1 (ww_sequence w) /\ Z.of_nat (length vs) = ww_sequence w.

Lemma value_log_append x j h w es : log_of w es -> ww_sequence w + 1 < umax 64 -> appended (T := T) x j h w -> value_log w ->
  value_log (mkWalWriter (ww_file w ++ entry_line (ww_sequence w + 1) (ww_last_hash w) h j ++ [10])
               (ww_sequence w + 1) h (ww_hmac_key w) false).
Proof.
  intros Hlog Hn Ha (vs & Hr & Hs & Hl). destruct (appended_facts _ _ _ _ _ Hlog Hn Ha) as (ps & Ej & F).
  destruct (value_reads_entry x ps (ww_sequence w + 1) (ww_last_hash w) h [10] (lf_serialized _ _ _ _ F)
    (lf_sequence _ _ _ _ F) (lf_previous _ _ _ _ F) (lf_hash _ _ _ _ F) tail_newline) as [v Hv]. rewrite <- Ej in Hv.
  exists (vs ++ [mkWalEntry (ww_sequence w + 1) (ww_last_hash w) h v]).
  cbn [ww_file ww_hmac_key ww_sequence ww_last_hash]. split_and!.
  - rewrite each_line_app by apply Hlog. rewrite Hr. rewrite (appended_line x j h w es [10] Hlog Hn Ha tail_newline).
    rewrite (appended_checked x j h w es [10] Hlog Hn Ha tail_newline _ _ from_slice_value push_entry _ vs Hv).
    unfold head_state. cbn [ww_sequence ww_last_hash]. by replace (ww_sequence w + 1 + 1) with (ww_sequence w + 2) by lia.
  - pose proof (lo_sequence _ _ Hlog). rewrite map_app, Hs, seqZ_app by lia. cbn [map we_sequence]. f_equal.
    by rewrite seqZ_cons, Z.add_comm by lia.
  - rewrite length_app. cbn [length]. lia.
Qed.

Lemma value_log_run ops : forall w es new w', log_of w es -> value_log w ->
  ww_sequence w + Z.of_nat (length ops) < umax 64 -> wal_run (T := T) ops w = (new, w') -> ww_poisoned w' = false ->
  value_log w'.
Proof.
  induction ops as [|o ops IH]; intros w es new w' Hlog Hv Hn; cbn [wal_run]; [by intros [= <- <-] _|].
  destruct (wal_step o w) as [e1 w1] eqn:E1. destruct (wal_run ops w1) as [e2 w2] eqn:E2.
  intros [= <- <-] Hp. cbn [length] in Hn.
  destruct (ww_poisoned w1) eqn:Hp1; [rewrite (poisoned_run ops w1 Hp1) in E2; congruence|].
  destruct (wal_step_log o w es e1 w1 Hlog ltac:(lia) E1 Hp1) as (L1 & _ & S1 & _ & Hle).
  eapply (IH w1 (es ++ e1)); [done| |lia|done|done]. clear IH E2. destruct o as [os x|b|b|b]; cbn [wal_step] in E1.
  - destruct (append_cases os x w es Hlog ltac:(lia)) as [(e & E & _)|(j & h & Ha & E)]; cbv zeta in E; rewrite E in E1.
    + by injection E1 as <- <-.
    + destruct os; injection E1 as <- <-; [|done]. eapply value_log_append; [done|lia|done|done].
  - unfold flush, flush_and_sync in E1. rewrite (lo_live _ _ Hlog) in E1. by destruct b; injection E1 as <- <-.
  - unfold sync, flush_and_sync in E1. rewrite (lo_live _ _ Hlog) in E1. by destruct b; injection E1 as <- <-.
  - unfold flush_and_sync in E1. rewrite (lo_live _ _ Hlog) in E1. by destruct b; injection E1 as <- <-.
Qed.

(** The counting visitor over such a log. *)
Lemma value_log_counts high w es : log_of (T := T) w es -> value_log w -> 0 <= high ->
  visit_verified_wal_inner from_slice_value (count_entry high) (ww_file w) (ww_hmac_key w) (0, 0) =
  (Ok (ww_sequence w, ww_last_hash w), (ww_sequence w, Z.max 0 (ww_sequence w - high))).
Proof.
  intros Hlog (vs & Hr & Hs & Hl) Hh. unfold visit_verified_wal_inner. rewrite (lo_key _ _ Hlog).
  destruct (each_line_sim (fun x y => fst x = fst y /\ snd y = fold_left (count_entry high) (snd x) (0, 0))
    (visit_step from_slice_value push_entry (ww_hmac_key w)) (visit_step from_slice_value (count_entry high) (ww_hmac_key w)))
    with (bytes := ww_file w) (s1 := (chain_start, [] : list (WalEntry V))) (s2 := (chain_start, (0, 0)))
      (s1' := (head_state w, vs)) as ([c k] & E & Ec & Ek); try done.
  - intros line [x l] [y t] x' [Hx Ht] (entry & z & e & H1 & H2 & H3 & ->)%visit_step_None. cbn in *. subst y t.
    eexists. unfold visit_step. rewrite H1. cbn. rewrite H2. cbn. rewrite H3. cbn. split; [done|]. split; [done|].
    unfold push_entry. by rewrite fold_left_app.
  - cbn in Ec, Ek. subst c k. rewrite E. cbn. rewrite count_entries; [by rewrite Hl|by rewrite Hl|done|].
    pose proof (lo_sequence _ _ Hlog). lia.
Qed.

Context {AS : Artifact BudgetSnapshot} {AA : Artifact WalAnchor} {AM : Artifact CheckpointManifest}.

(** A checkpoint that reported success is on disk. *)
Lemma checkpoint_on_disk os e w d e' w' d' c : engine_inv e -> is_u 64 (ww_sequence w) ->
  checkpoint_coordinated os e w d = (e', w', (d', Some (Ok c))) ->
  load_coordinated_checkpoint d' = Ok c /\ next_generation e w c /\ w' = w /\ ww_poisoned w = false.
Proof.
  intros Hi Hs H. unfold checkpoint_coordinated in H. destruct (co_directory_ok os); cbn [negb] in H; [|done].
  unfold flush_and_sync in H. destruct (ww_poisoned w) eqn:Hp; [done|]. destruct (co_flush_ok os); cbn [negb] in H; [|done].
  destruct (try_snapshot e) as [[s|x] e1] eqn:Et; cbn [map_err run_check] in H; [|done].
  destruct (validate_snapshot_for_restore _) as [[]|x] eqn:Er; cbn [map_err run_check] in H; [|done].
  destruct (snapshot_version e s e1 Hi Et) as (Hv & Hn & Hi1 & _). pose proof (inv_next_id e1 Hi1).
  set (s1 := with_watermark s (wa_sequence (anchor w))) in *.
  assert (committable s1 (anchor w)) as Hc by (split; [cbn; rewrite Hv; apply tagged_u64; lia|done..]).
  pose proof (write_generation_effect os s1 (anchor w) d Hc) as G.
  destruct (write_generation os s1 (anchor w) d) as [d2 r2]. injection H as <- <- <- ->.
  destruct G as [[[_ Hr]|[G1 G2]] _]; [by destruct (Hr c)|]. rewrite (G2 c eq_refl). split_and!; [done| |done|done]. exists s. by rewrite Et.
Qed.

Lemma loaded_snapshot d c : load_coordinated_checkpoint d = Ok c ->
  load_snapshot (cm_snapshot_file (cc_manifest c)) d = Ok (cc_snapshot c) /\
  validate_snapshot_for_restore (cc_snapshot c) = Ok tt.
Proof.
  unfold load_coordinated_checkpoint. intros H. open_results. subst. cbn. by split.
Qed.

(** A restored snapshot of [e] has its balances. *)
Lemma restored_maps e s e2 : engine_inv e -> bs_tenants s = snapshot_rows e -> restored s e2 ->
  be_tenant_budgets e2 = be_tenant_budgets e /\ be_initial_microcents e2 = be_initial_microcents e /\
  be_committed_microcents e2 = be_committed_microcents e.
Proof.
  intros Hinv Ht R. destruct s as [v rows n m]. cbn in Ht. subst rows.
  split_and!; apply map_eq; intros t; destruct (snapshot_row_fields e t Hinv) as (Fb & Fi & Fc & Fr);
    rewrite ?(res_budgets _ _ R), ?(res_initial _ _ R), ?(res_committed _ _ R); by rewrite snapshot_row_of.
Qed.

Lemma restore_loaded e0 path d s : load_snapshot path d = Ok s -> validate_snapshot_for_restore s = Ok tt ->
  exists e2, restore e0 path d = (Ok s, e2) /\ restored s e2.
Proof.
  intros Hl Hv. unfold restore. rewrite Hl. destruct (restore_from_snapshot s e0) as [[[]|x] e2] eqn:E.
  - exists e2. split; [done|]. by apply restore_from_snapshot_restored in E as (_ & _ & R).
  - exfalso. unfold restore_from_snapshot in E. rewrite Hv in E. unfold validate_snapshot_for_restore in Hv.
    by destruct (allocator_from_snapshot_version (bs_version s)).
Qed.

Lemma value_log_empty key : value_log (mkWalWriter [] 0 "genesis" key false).
Proof. by exists []. Qed.

(** A plan against the log's own head. *)
Lemma plan_exact path d s w es : log_of (T := T) w es -> value_log w -> load_snapshot path d = Ok s ->
  validate_snapshot_for_restore s = Ok tt ->
  let high := default 0 (bs_wal_high_watermark s) in 0 <= high <= ww_sequence w ->
  recovery_plan_inner from_slice_value path d (ww_file w) (ww_hmac_key w) (Some (anchor w)) =
    Ok (mkRecoveryPlan s (ww_sequence w) (ww_sequence w - high) high).
Proof.
  intros Hlog Hval Hl Hv high Hh. unfold recovery_plan_inner. rewrite Hl. cbn [mbind result_bind]. rewrite Hv.
  cbn [map_err mbind result_bind]. fold high. rewrite (value_log_counts high w es) by (done || lia).
  cbn [map_err mbind result_bind fst snd]. rewrite (proj2 (Z.ltb_ge _ _)) by lia. cbn [refuse_if mbind result_bind].
  unfold verify_head, validate_metadata, anchor. cbn [wa_schema_version wa_keyed wa_sequence wa_last_hash].
  rewrite String.eqb_refl, eqb_reflx. cbn [negb mbind result_bind]. rewrite Z.eqb_refl, String.eqb_refl.
  cbn. do 2 f_equal. lia.
Qed.

(** Claim C11: Recovery is exact. A node runs its log, takes a checkpoint that
    reports success, and keeps appending. From the checkpoint directory and
    the log file as it then is, the verified load returns that checkpoint; the
    plan, pinned to the log's current head, counts all entries and, to be
    replayed, exactly those appended after the checkpoint; and restoring its
    snapshot file rebuilds, in any engine, the balances, grants and spend the
    engine had at the checkpoint. *)
Theorem recovery_replays_what_followed key ops w0 es w e d os e' w' d' c ops' new w2 e0 :
  open_inner true [] key = Ok w0 -> Z.of_nat (length ops) + Z.of_nat (length ops') < umax 64 ->
  wal_run (T := T) ops w0 = (es, w) -> reachable e ->
  checkpoint_coordinated os e w d = (e', w', (d', Some (Ok c))) ->
  wal_run (T := T) ops' w' = (new, w2) -> ww_poisoned w2 = false ->
  load_and_verify_coordinated_checkpoint d' (ww_file w2) key = Ok c /\
  recovery_plan_inner from_slice_value (cm_snapshot_file (cc_manifest c)) d' (ww_file w2) key (Some (anchor w2)) =
    Ok (mkRecoveryPlan (cc_snapshot c) (Z.of_nat (length (es ++ new))) (Z.of_nat (length new)) (Z.of_nat (length es))) /\
  exists e2, restore e0 (cm_snapshot_file (cc_manifest c)) d' = (Ok (cc_snapshot c), e2) /\
    be_tenant_budgets e2 = be_tenant_budgets e /\ be_initial_microcents e2 = be_initial_microcents e /\
    be_committed_microcents e2 = be_committed_microcents e.
Proof.
  intros (Hk & ->)%open_new Hn Hr He Hc Hr2 Hp. pose proof (reachable_inv e He) as Hinv.
  assert (ww_poisoned w = false) as Hpw.
  { unfold checkpoint_coordinated, flush_and_sync in Hc. destruct (co_directory_ok os), (ww_poisoned w); done. }
  destruct (wal_run_log ops _ [] es w (log_of_empty key Hk) ltac:(cbn; lia) Hr Hpw) as (Hlog & Hkey & Hseq & _).
  pose proof (value_log_run ops _ [] es w (log_of_empty key Hk) (value_log_empty key) ltac:(cbn; lia) Hr Hpw) as Hval.
  cbn [ww_hmac_key ww_sequence app] in Hlog, Hkey, Hseq. pose proof (lo_sequence _ _ Hlog) as Hsr.
  destruct (checkpoint_on_disk os e w d e' w' d' c Hinv ltac:(unfold is_u; lia) Hc) as (Hl & (s & Hs & ->) & -> & _).
  pose proof (wal_run_length ops (mkWalWriter [] 0 "genesis" key false)) as Hlen. rewrite Hr in Hlen. cbn in Hlen.
  destruct (wal_run_log ops' w es new w2 Hlog ltac:(lia) Hr2 Hp) as (Hlog2 & Hkey2 & Hseq2 & _).
  pose proof (value_log_run ops' w es new w2 Hlog Hval ltac:(lia) Hr2 Hp) as Hval2.
  destruct (wal_run_grows ops' w es new w2 Hlog ltac:(lia) Hr2 Hp) as [g Hg].
  destruct (loaded_snapshot d' _ Hl) as [Hls Hvs]. cbn [generation cc_manifest cc_snapshot] in Hls, Hvs.
  rewrite <- Hkey, <- Hkey2. split_and!.
  - unfold load_and_verify_coordinated_checkpoint. rewrite Hl. cbn [mbind result_bind generation cc_anchor].
    pose proof (visit_validates _ _ _ _ _ _ _ _ (lo_run _ _ Hlog)) as V1.
    pose proof (visit_validates _ _ _ _ _ _ _ _ (lo_run _ _ Hlog2)) as V2. rewrite Hg, Hkey2 in V2.
    pose proof (anchor_contained (ww_hmac_key w) (ww_file w) g _ _ (lo_key _ _ Hlog) (lo_lines _ _ Hlog) V1 V2) as A.
    rewrite Hg, Hkey2. cbn [head_state cs_last_sequence cs_last_hash] in A. unfold anchor. fold (keyed_mode (ww_hmac_key w)).
    unfold verify_wal_contains_anchor, verify_wal_keyed_contains_anchor. cbn [wa_keyed]. destruct (ww_hmac_key w) as [k|]; cbn [keyed_mode] in *; by rewrite A.
  - cbn [generation cc_manifest cc_snapshot]. rewrite (plan_exact _ d' _ w2 (es ++ new) Hlog2 Hval2 Hls Hvs ltac:(cbn; lia)).
    cbn. rewrite length_app. do 2 f_equal; lia.
  - destruct (restore_loaded e0 _ d' _ Hls Hvs) as (e2 & E & R). exists e2. split; [done|].
    destruct (try_snapshot e) as [r e1] eqn:Et. cbn in Hs. subst r.
    destruct (snapshot_version e s e1 Hinv Et) as (_ & _ & _ & Ht & _). by apply (restored_maps e (with_watermark s (ww_sequence w)) e2 Hinv Ht R).
Qed.
End plan.

(** ** A concrete node *)

Module Sample.
#[local] Existing Instance toy_hash.

#[export] Instance TenantLedger_eq_dec : EqDecision TenantLedger.
Proof. solve_decision. Defined.
#[export] Instance TenantLedger_countable : Countable TenantLedger.
Proof.
  apply (inj_countable
    (fun l => (tl_tenant_id l, [tl_initial_microcents l; tl_remaining_microcents l; tl_reserved_microcents l; tl_committed_microcents l]))
    (fun p => match p with (t, [a; b; c; d]) => Some (mkTenantLedger t a b c d) | _ => None end)). by intros [].
Defined.
#[export] Instance BudgetSnapshot_eq_dec : EqDecision BudgetSnapshot.
Proof. solve_decision. Defined.
#[export] Instance BudgetSnapshot_countable : Countable BudgetSnapshot.
Proof.
  apply (inj_countable
    (fun s => (bs_tenants s, ([bs_version s; bs_active_reservations s], bs_wal_high_watermark s)))
    (fun p => match p with (t, ([v; a], w)) => Some (mkBudgetSnapshot v t a w) | _ => None end)). by intros [].
Defined.
#[export] Instance WalAnchor_eq_dec : EqDecision WalAnchor.
Proof. solve_decision. Defined.
#[export] Instance WalAnchor_countable : Countable WalAnchor.
Proof.
  apply (inj_countable (fun a => ([wa_schema_version a; wa_last_hash a], (wa_sequence a, wa_keyed a)))
    (fun p => match p with ([s; h], (n, k)) => Some (mkWalAnchor s n h k) | _ => None end)). by intros [].
Defined.
#[export] Instance CheckpointManifest_eq_dec : EqDecision CheckpointManifest.
Proof. solve_decision. Defined.
#[export] Instance CheckpointManifest_countable : Countable CheckpointManifest.
Proof.
  apply (inj_countable
    (fun m => ([cm_schema_version m; cm_snapshot_file m; cm_wal_anchor_file m; cm_ledger_digest_hex m; cm_wal_hash m],
               ([cm_snapshot_version m; cm_wal_sequence m], cm_wal_keyed m)))
    (fun p => match p with
      | ([a; b; c; d; e], ([v; n], k)) => Some (mkCheckpointManifest a b c v d n e k) | _ => None end)). by intros [].
Defined.

(** Values as the bits of their codes. *)
#[export] Instance toy_artifact {A} `{Countable A} : Artifact A.
Proof.
  refine {| to_pretty v := ([pos_bits (encode v)], true); from_json bs := decode (bits_pos bs) |}.
  intros v ps [= <-]. cbn. by rewrite app_nil_r, bits_pos_bits, decode_encode.
Defined.

#[export] Instance toy_value : ValueReader Z (list Z).
Proof.
  refine {| from_slice_value := from_slice_raw |}. intros x ps n p h tail Hs Hn Hp Hh Ht. exists (concat ps).
  by apply (raw_reads_entry x).
Defined.

Definition healthy : SaveOs := mkSaveOs "Xq3" 0 None.
Definition healthy_checkpoint : CheckpointOs := mkCheckpointOs true true healthy healthy healthy.
Definition engine : BudgetEngine := snd (run (OpEnsure "desk" 100) BudgetEngine_new).
Definition log : list (WalEntry Z) * WalWriter := wal_run [OpAppend Written 7] (mkWalWriter [] 0 "genesis" None false).
Definition taken : BudgetEngine * WalWriter * Run CoordinatedCheckpoint :=
  checkpoint_coordinated healthy_checkpoint engine (snd log) ∅.
Definition committed : CoordinatedCheckpoint :=
  generation (mkBudgetSnapshot (2 ^ 63 + 2) [mkTenantLedger "desk" 100 100 0 0] 0 (Some 1)) (anchor (snd log)).
Definition later : list (WalEntry Z) * WalWriter := wal_run [OpAppend Written 8; OpAppend Written 9] (snd log).

Lemma run_eta {A B C D} (p : A * B * (C * D)) : p = (fst (fst p), snd (fst p), (fst (snd p), snd (snd p))).
Proof. by destruct p as [[] []]. Qed.

Lemma storable_toy {A} `{Countable A} (v : A) w :
  write_pieces (LimitedWriter_new MAX_PERSISTENCE_ARTIFACT_BYTES) [pos_bits (encode v)] = (true, w) -> storable v.
Proof. intros Hw. by eexists _, w. Qed.

Lemma taken_committed : snd (snd taken) = Some (Ok committed).
Proof. vm_compute. reflexivity. Qed.
Lemma taken_log : snd (fst taken) = snd log.
Proof. vm_compute. reflexivity. Qed.
Lemma taken_eta : taken = (fst (fst taken), snd log, (fst (snd taken), Some (Ok committed))).
Proof. generalize taken_committed taken_log. generalize taken. intros [[a b] [c d]]. cbn. by intros -> ->. Qed.
End Sample.
Import Sample.

Lemma coordinated_checkpoint_atomic_witness : snd (snd taken) = Some (Ok committed).
Proof.
  refine (proj2 (coordinated_checkpoint_atomic (HF := toy_hash) (T := Z) engine (snd log) ∅ healthy_checkpoint (fst (fst taken)) (snd (fst taken))
    (fst (snd taken)) (snd (snd taken)) _ _) committed _ eq_refl eq_refl eq_refl eq_refl _ _ _ _).
  - exists None, (mkWalWriter [] 0 "genesis" None false). split; [vm_compute; reflexivity|].
    eapply rtc_l; [apply (node_budget (HF := toy_hash) (OpEnsure "desk" 100)); by_compute|]. apply rtc_once.
    replace (snd log) with (snd (append (HF := toy_hash) Written 7 (mkWalWriter [] 0 "genesis" None false))) by (vm_compute; reflexivity).
    apply (node_append (HF := toy_hash) Written 7).
  - exact (run_eta taken).
  - exists (mkBudgetSnapshot (2 ^ 63 + 2) [mkTenantLedger "desk" 100 100 0 0] 0 None).
    split; [vm_compute; reflexivity|reflexivity].
  - split_and!; reflexivity.
  - eapply storable_toy. vm_compute. reflexivity.
  - eapply storable_toy. vm_compute. reflexivity.
  - eapply storable_toy. vm_compute. reflexivity.
Defined.

Lemma recovery_replays_what_followed_witness :
  recovery_plan_inner (HF := toy_hash) (from_slice_value (T := Z)) (cm_snapshot_file (cc_manifest committed))
    (fst (snd taken)) (ww_file (snd later)) None (Some (anchor (snd later))) =
  Ok (mkRecoveryPlan (cc_snapshot committed) 3 2 1).
Proof.
  destruct (recovery_replays_what_followed (HF := toy_hash) (T := Z) (V := list Z) None [OpAppend Written 7]
    (mkWalWriter [] 0 "genesis" None false)
    (fst log) (snd log) engine ∅ healthy_checkpoint (fst (fst taken)) (snd log) (fst (snd taken)) committed
    [OpAppend Written 8; OpAppend Written 9] (fst later) (snd later) BudgetEngine_new) as (_ & H & _).
  - vm_compute; reflexivity.
  - by_compute.
  - apply surjective_pairing.
  - apply reach_run; [by_compute|apply reach_new].
  - exact taken_eta.
  - apply surjective_pairing.
  - vm_compute; reflexivity.
  - rewrite H. vm_compute. reflexivity.
Defined.
