(* ===== verification/Ots.v ===== *)
(** * OpenTimestamps proofs ([src/ots.rs])

    A proof is a tree of operations from a digest to attestations: the binary
    reader and writer, merging of calendar responses, and the check against a
    Bitcoin header. A reader is its remaining bytes. RIPEMD-160 is a
    parameter, as SHA-256 is. *)

From Stdlib Require Import String.
From S2P Require Import Prelude Bytes Text Wal.
#[local] Open Scope Z_scope.

Definition MAGIC : list Z :=
  [0] ++ string_bytes "OpenTimestamps" ++ [0; 0] ++ string_bytes "Proof" ++ [0; 191; 137; 226; 232; 132; 232; 146; 148].
Definition MAJOR_VERSION : Z := 1.
Definition TAG_ATTESTATION : Z := 0.
Definition TAG_FORK : Z := 255.
Definition TAG_SHA1 : Z := 2.
Definition TAG_RIPEMD160 : Z := 3.
Definition TAG_SHA256 : Z := 8.
Definition TAG_KECCAK256 : Z := 103.
Definition TAG_APPEND : Z := 240.
Definition TAG_PREPEND : Z := 241.
Definition TAG_REVERSE : Z := 242.
Definition TAG_HEXLIFY : Z := 243.
Definition PENDING : list Z := [131; 223; 227; 13; 46; 249; 12; 142].
Definition BITCOIN : list Z := [5; 136; 150; 13; 115; 215; 25; 1].
Definition MAX_MSG : Z := 4096.
Definition MAX_PAYLOAD : Z := 8192.
Definition MAX_URI : Z := 1000.
Definition MAX_DEPTH : nat := 256.
Definition MAX_PROOF_BYTES : Z := 64 * 1024.
Definition MIN_TARGET_ZERO_BITS : Z := 64.

Inductive OtsError :=
| OtsMalformed (what : string)
| NotInBlock
| BadProofOfWork
| InsufficientWork
| NotOnChain
| CalendarNotAllowed (uri : string).

Inductive Op :=
| Sha1
| Ripemd160
| Sha256
| Keccak256
| Append (arg : list Z)
| Prepend (arg : list Z)
| Reverse
| Hexlify.
#[export] Instance Op_eq_dec : EqDecision Op.
Proof. solve_decision. Defined.

Inductive Attestation :=
| Pending (uri : string)
| Bitcoin (height : Z)
| Unknown (tag payload : list Z).
#[export] Instance Attestation_eq_dec : EqDecision Attestation.
Proof. solve_decision. Defined.

Inductive Timestamp := mkTimestamp (msg : list Z) (attestations : list Attestation) (ops : list (Op * Timestamp)).
Definition ts_msg (t : Timestamp) : list Z := let '(mkTimestamp m _ _) := t in m.
Definition ts_attestations (t : Timestamp) : list Attestation := let '(mkTimestamp _ a _) := t in a.
Definition ts_ops (t : Timestamp) : list (Op * Timestamp) := let '(mkTimestamp _ _ o) := t in o.
Definition Timestamp_new (msg : list Z) : Timestamp := mkTimestamp msg [] [].

(** ** Operations *)

Class Ripemd := {
  ripemd160 : list Z -> list Z;
  ripemd160_length : forall m, length (ripemd160 m) = 20%nat;
  ripemd160_bytes : forall m, Forall is_byte (ripemd160 m)
}.

Definition op_tag (op : Op) : Z :=
  match op with
  | Sha1 => TAG_SHA1
  | Ripemd160 => TAG_RIPEMD160
  | Sha256 => TAG_SHA256
  | Keccak256 => TAG_KECCAK256
  | Append _ => TAG_APPEND
  | Prepend _ => TAG_PREPEND
  | Reverse => TAG_REVERSE
  | Hexlify => TAG_HEXLIFY
  end.

Definition op_arg (op : Op) : list Z := match op with Append a | Prepend a => a | _ => [] end.
Definition op_sort_key (op : Op) : Z * list Z := (op_tag op, op_arg op).

(** An operation the module does not evaluate. *)
Definition opaque (op : Op) : bool := match op with Sha1 | Keccak256 => true | _ => false end.

Section apply.
Context {HF : HashFunctions} {RM : Ripemd}.

Definition apply_op (op : Op) (msg : list Z) : option (list Z) :=
  out ← match op with
        | Sha256 => Some (sha256 msg)
        | Ripemd160 => Some (ripemd160 msg)
        | Append a => Some (msg ++ a)
        | Prepend a => Some (a ++ msg)
        | Reverse => Some (rev msg)
        | Hexlify => Some (hex_text msg)
        | Sha1 | Keccak256 => None
        end;
  if Z.of_nat (length out) <=? MAX_MSG then Some out else None.
End apply.

(** ** Order *)

(** [Ord] on byte slices. *)
Fixpoint bytes_cmp (a b : list Z) : comparison :=
  match a, b with
  | [], [] => Eq
  | [], _ :: _ => Lt
  | _ :: _, [] => Gt
  | x :: a', y :: b' => match x ?= y with Eq => bytes_cmp a' b' | c => c end
  end.

Definition then_cmp (c d : comparison) : comparison := match c with Eq => d | _ => c end.

Definition attestation_sort_key (a : Attestation) : list Z * list Z :=
  match a with
  | Pending uri => (PENDING, string_bytes uri)
  | Bitcoin height => (BITCOIN, be_bytes 8 height)
  | Unknown tag payload => (tag, payload)
  end.

Definition attestation_cmp (a b : Attestation) : comparison :=
  then_cmp (bytes_cmp (fst (attestation_sort_key a)) (fst (attestation_sort_key b)))
    (bytes_cmp (snd (attestation_sort_key a)) (snd (attestation_sort_key b))).

Definition op_cmp (a b : Op) : comparison :=
  then_cmp (op_tag a ?= op_tag b) (bytes_cmp (op_arg a) (op_arg b)).

(** A stable sort: [x] goes before the first element that is not less. *)
Fixpoint insert_sorted {A} (cmp : A -> A -> comparison) (x : A) (l : list A) : list A :=
  match l with
  | [] => [x]
  | y :: l' => match cmp x y with Gt => y :: insert_sorted cmp x l' | _ => x :: l end
  end.
Definition stable_sort {A} (cmp : A -> A -> comparison) (l : list A) : list A :=
  foldr (insert_sorted cmp) [] l.

Definition branch_cmp (a b : Op * Timestamp) : comparison := op_cmp (fst a) (fst b).

Definition canonicalize (t : Timestamp) : Timestamp :=
  let '(mkTimestamp m a o) := t in mkTimestamp m (stable_sort attestation_cmp a) (stable_sort branch_cmp o).

(** ** Merging *)

Definition add_attestation (l : list Attestation) (a : Attestation) : list Attestation :=
  if bool_decide (a ∈ l) then l else l ++ [a].

(** The first branch with this operation, changed by [f]. *)
Fixpoint update_branch (op : Op) (f : Timestamp -> Timestamp) (l : list (Op * Timestamp))
    : option (list (Op * Timestamp)) :=
  match l with
  | [] => None
  | (o, t) :: l' =>
      if bool_decide (o = op) then Some ((o, f t) :: l')
      else l'' ← update_branch op f l'; Some ((o, t) :: l'')
  end.

(** [add_op], with [merge] of the child into an existing branch as [f]. *)
Definition add_op_with (f : Timestamp -> Timestamp) (op : Op) (child : Timestamp) (t : Timestamp) : Timestamp :=
  let '(mkTimestamp m a o) := t in
  canonicalize (mkTimestamp m a (default (o ++ [(op, child)]) (update_branch op f o))).

Fixpoint merge (self other : Timestamp) {struct other} : Timestamp :=
  let '(mkTimestamp _ attestations ops) := other in
  let '(mkTimestamp m a o) := self in
  canonicalize
    ((fix go (l : list (Op * Timestamp)) (t : Timestamp) : Timestamp :=
        match l with
        | [] => t
        | (op, child) :: l' => go l' (add_op_with (fun existing => merge existing child) op child t)
        end) ops (mkTimestamp m (fold_left add_attestation attestations a) o)).

Definition add_op (op : Op) (child t : Timestamp) : Timestamp :=
  add_op_with (fun existing => merge existing child) op child t.

(** ** Reading *)

Definition unexpected_end {A} : result OtsError A := Err (OtsMalformed "unexpected end of proof").

Definition byte (r : list Z) : result OtsError (Z * list Z) :=
  match r with b :: r' => Ok (b, r') | [] => unexpected_end end.

Definition take_bytes (n : Z) (r : list Z) : result OtsError (list Z * list Z) :=
  if n <=? Z.of_nat (length r) then Ok (take (Z.to_nat n) r, drop (Z.to_nat n) r) else unexpected_end.

(** The shifts left: [63 - 7 * (n - 1)] up to 63. A part never reaches past
    bit 63, because the last one is at most 1. *)
Fixpoint varuint_loop (n : nat) (value : Z) (r : list Z) : result OtsError (Z * list Z) :=
  match n with
  | O => Err (OtsMalformed "varuint overflows u64")
  | S n' =>
      let shift := 63 - 7 * Z.of_nat n' in
      '(b, r) ← byte r;
      let part := Z.land b 127 in
      if (shift =? 63) && (1 <? part) then Err (OtsMalformed "varuint overflows u64")
      else
        let value := Z.lor value (Z.shiftl part shift) in
        if Z.land b 128 =? 0 then Ok (value, r) else varuint_loop n' value r
  end.
Definition varuint (r : list Z) : result OtsError (Z * list Z) := varuint_loop 10 0 r.

Definition varbytes (max : Z) (r : list Z) : result OtsError (list Z * list Z) :=
  '(len, r) ← varuint r;
  _ ← refuse_if (max <? len) (OtsMalformed "length over the limit");
  take_bytes len r.

Definition is_uri_byte (c : Z) : bool :=
  is_ascii_digit c || ((65 <=? c) && (c <=? 90)) || ((97 <=? c) && (c <=? 122))
  || (c =? 45) || (c =? 46) || (c =? 95) || (c =? 47) || (c =? 58).

Definition valid_uri (uri : string) : bool :=
  (Z.of_nat (length (string_bytes uri)) <=? MAX_URI) && forallb is_uri_byte (string_bytes uri).

Definition read_attestation (r : list Z) : result OtsError (Attestation * list Z) :=
  '(tag, r) ← take_bytes 8 r;
  '(payload, r) ← varbytes MAX_PAYLOAD r;
  '(att, inner) ←
    (if bool_decide (tag = PENDING) then
       '(bytes, inner) ← varbytes MAX_URI payload;
       _ ← refuse_if (negb (utf8_valid bytes)) (OtsMalformed "calendar URI is not UTF-8");
       let uri := string_of_bytes bytes in
       _ ← refuse_if (negb (valid_uri uri)) (OtsMalformed "calendar URI has a disallowed character");
       Ok (Pending uri, inner)
     else if bool_decide (tag = BITCOIN) then
       '(height, inner) ← varuint payload;
       Ok (Bitcoin height, inner)
     else Ok (Unknown tag payload, []));
  _ ← refuse_if (negb (Nat.eqb (length inner) 0)) (OtsMalformed "attestation payload has trailing bytes");
  Ok (att, r).

Definition read_op (tag : Z) (r : list Z) : result OtsError (Op * list Z) :=
  if tag =? TAG_SHA1 then Ok (Sha1, r)
  else if tag =? TAG_RIPEMD160 then Ok (Ripemd160, r)
  else if tag =? TAG_SHA256 then Ok (Sha256, r)
  else if tag =? TAG_KECCAK256 then Ok (Keccak256, r)
  else if tag =? TAG_REVERSE then Ok (Reverse, r)
  else if tag =? TAG_HEXLIFY then Ok (Hexlify, r)
  else if (tag =? TAG_APPEND) || (tag =? TAG_PREPEND) then
    '(arg, r) ← varbytes MAX_MSG r;
    _ ← refuse_if (Nat.eqb (length arg) 0) (OtsMalformed "empty append or prepend");
    Ok (if tag =? TAG_APPEND then Append arg else Prepend arg, r)
  else Err (OtsMalformed "unknown operation tag").

Section reading.
Context {HF : HashFunctions} {RM : Ripemd}.

(** The message after an operation; a branch not evaluated carries none. *)
Definition next_msg (op : Op) (msg : list Z) : result OtsError (list Z) :=
  if opaque op then Ok []
  else ok_or (apply_op op msg) (OtsMalformed "operation result exceeds the limit").

(** One round of the loop of [read], after the tag: an attestation, or an
    operation and, through [read_child], the node after it. *)
Definition read_item (read_child : list Z -> list Z -> result OtsError (Timestamp * list Z))
    (tag : Z) (node : Timestamp) (r : list Z) : result OtsError (Timestamp * list Z) :=
  if tag =? TAG_ATTESTATION then
    '(att, r) ← read_attestation r;
    Ok (mkTimestamp (ts_msg node) (add_attestation (ts_attestations node) att) (ts_ops node), r)
  else
    '(op, r) ← read_op tag r;
    next ← next_msg op (ts_msg node);
    '(child, r) ← read_child r next;
    Ok (add_op op child node, r).

(** The loop: every round consumes a byte. *)
Fixpoint read_loop (read_child : list Z -> list Z -> result OtsError (Timestamp * list Z))
    (fuel : nat) (node : Timestamp) (r : list Z) : result OtsError (Timestamp * list Z) :=
  match fuel with
  | O => unexpected_end
  | S fuel' =>
      '(tag, r) ← byte r;
      let fork := tag =? TAG_FORK in
      '(tag, r) ← (if fork then byte r else Ok (tag, r));
      '(node, r) ← read_item read_child tag node r;
      if fork then read_loop read_child fuel' node r else Ok (canonicalize node, r)
  end.

Fixpoint read (depth : nat) (r msg : list Z) : result OtsError (Timestamp * list Z) :=
  match depth with
  | O => Err (OtsMalformed "proof nests too deeply")
  | S depth' => read_loop (read depth') (S (length r)) (Timestamp_new msg) r
  end.

Definition deserialize (bytes msg : list Z) : result OtsError Timestamp :=
  _ ← refuse_if (MAX_PROOF_BYTES <? Z.of_nat (length bytes)) (OtsMalformed "proof is too large");
  '(t, r) ← read MAX_DEPTH bytes msg;
  _ ← refuse_if (negb (Nat.eqb (length r) 0)) (OtsMalformed "trailing bytes after the proof");
  Ok t.
End reading.

(** ** Writing *)

Fixpoint write_varuint (fuel : nat) (v : Z) : list Z :=
  match fuel with
  | O => []
  | S fuel' =>
      let b := Z.land v 127 in
      let v' := Z.shiftr v 7 in
      if v' =? 0 then [b] else Z.lor b 128 :: write_varuint fuel' v'
  end.

(** Ten rounds are enough for a [u64]. *)
Definition write_varbytes (b : list Z) : list Z := write_varuint 10 (Z.of_nat (length b)) ++ b.

Definition write_attestation (att : Attestation) : list Z :=
  let '(tag, payload) :=
    match att with
    | Pending uri => (PENDING, write_varbytes (string_bytes uri))
    | Bitcoin height => (BITCOIN, write_varuint 10 height)
    | Unknown tag p => (tag, p)
    end in
  tag ++ write_varbytes payload.

(** Every item but the last follows a fork tag. *)
Fixpoint write_items (items : list (list Z)) : list Z :=
  match items with
  | [] => []
  | [x] => x
  | x :: rest => TAG_FORK :: x ++ write_items rest
  end.

Definition write_op (op : Op) : list Z :=
  op_tag op :: match op with Append a | Prepend a => write_varbytes a | _ => [] end.

(** The branches carry their own bytes through the sort. *)
Definition item_cmp (a b : Op * list Z) : comparison := op_cmp (fst a) (fst b).

Fixpoint write (t : Timestamp) : list Z :=
  let '(mkTimestamp _ attestations ops) := t in
  let children := (fix go (l : list (Op * Timestamp)) : list (Op * list Z) :=
    match l with [] => [] | (op, child) :: l' => (op, write child) :: go l' end) ops in
  write_items
    (map (fun a => TAG_ATTESTATION :: write_attestation a) (stable_sort attestation_cmp attestations) ++
     map (fun '(op, bytes) => write_op op ++ bytes) (stable_sort item_cmp children)).

Definition serialize_timestamp (t : Timestamp) : list Z := write t.

(** ** Attestations of a proof *)

Fixpoint collect (t : Timestamp) : list (list Z * Attestation) :=
  let '(mkTimestamp m attestations ops) := t in
  map (pair m) attestations ++
  (fix go (l : list (Op * Timestamp)) : list (list Z * Attestation) :=
     match l with
     | [] => []
     | (op, child) :: l' => (if opaque op then [] else collect child) ++ go l'
     end) ops.

(** [find_mut] and a change of the node it finds: itself first, then the
    branches in order. *)
Fixpoint update_found (msg : list Z) (f : Timestamp -> Timestamp) (t : Timestamp) : option Timestamp :=
  let '(mkTimestamp m a o) := t in
  if bool_decide (m = msg) then Some (f t)
  else
    o' ← (fix go (l : list (Op * Timestamp)) : option (list (Op * Timestamp)) :=
            match l with
            | [] => None
            | (op, child) :: l' =>
                match update_found msg f child with
                | Some child' => Some ((op, child') :: l')
                | None => l'' ← go l'; Some ((op, child) :: l'')
                end
            end) o;
    Some (mkTimestamp m a o').

(** ** Detached timestamps *)

Record DetachedTimestamp := mkDetachedTimestamp { dt_timestamp : Timestamp }.

Inductive Status :=
| StatusPending (calendars : list string)
| StatusAnchored (heights : list Z).

Record BitcoinHeader := mkBitcoinHeader { bh_height : Z; bh_block_hash : string; bh_block_time : Z }.
Record BitcoinConfirmed := mkBitcoinConfirmed { bc_height : Z; bc_block_hash : string; bc_block_time : Z }.

(** [str::trim] and [eq_ignore_ascii_case]. *)
Fixpoint trim_start (t : text) : text :=
  match t with c :: t' => if is_whitespace c then trim_start t' else t | [] => [] end.
Definition trim (t : text) : text := rev (trim_start (rev (trim_start t))).
Definition to_ascii_lowercase (c : Z) : Z := if (65 <=? c) && (c <=? 90) then c + 32 else c.
Definition eq_ignore_ascii_case (a b : text) : bool :=
  bool_decide (map to_ascii_lowercase a = map to_ascii_lowercase b).

Definition confirm (h : BitcoinHeader) (trusted_block_hash : text) : result OtsError BitcoinConfirmed :=
  if eq_ignore_ascii_case (trim trusted_block_hash) (chars (bh_block_hash h))
  then Ok (mkBitcoinConfirmed (bh_height h) (bh_block_hash h) (bh_block_time h))
  else Err NotOnChain.

Definition DetachedTimestamp_new (digest : list Z) : DetachedTimestamp := mkDetachedTimestamp (Timestamp_new digest).

Definition DetachedTimestamp_serialize (d : DetachedTimestamp) : list Z :=
  MAGIC ++ [MAJOR_VERSION] ++ [TAG_SHA256] ++ ts_msg (dt_timestamp d) ++ write (dt_timestamp d).

(** [try_into().expect(..)]: [None] is the panic. *)
Definition array32 (l : list Z) : option (list Z) := if Nat.eqb (length l) 32 then Some l else None.
Definition DetachedTimestamp_digest (d : DetachedTimestamp) : option (list Z) := array32 (ts_msg (dt_timestamp d)).

Definition find_branch (op : Op) (t : Timestamp) : option Timestamp :=
  snd <$> List.find (fun b => bool_decide (fst b = op)) (ts_ops t).

Definition pending_of (m : list Z * Attestation) : option (list Z * string) :=
  match m with (msg, Pending uri) => Some (msg, uri) | _ => None end.
Definition height_of (m : list Z * Attestation) : option Z :=
  match m with (_, Bitcoin height) => Some height | _ => None end.

Definition pending (d : DetachedTimestamp) : list (list Z * string) := omap pending_of (collect (dt_timestamp d)).

(** [Vec::dedup]: runs of equal elements. *)
Fixpoint dedup {A} `{EqDecision A} (l : list A) : list A :=
  match l with
  | x :: (y :: _ as l') => if bool_decide (x = y) then dedup l' else x :: dedup l'
  | _ => l
  end.

Definition string_cmp (a b : string) : comparison := bytes_cmp (string_bytes a) (string_bytes b).

Definition status (d : DetachedTimestamp) : Status :=
  let heights := omap height_of (collect (dt_timestamp d)) in
  match heights with
  | [] => StatusPending (dedup (stable_sort string_cmp (map snd (pending d))))
  | _ => StatusAnchored (dedup (stable_sort Z.compare heights))
  end.

(** ** Proof of work *)

Definition target_of (bits : Z) : option (list Z) :=
  let exponent := Z.shiftr bits 24 in
  let mantissa := Z.land bits 16777215 in
  if negb (Z.land mantissa 8388608 =? 0) || (mantissa =? 0) || negb ((3 <=? exponent) && (exponent <=? 32)) then None
  else
    let start := Z.to_nat (32 - exponent) in
    Some (replicate start 0 ++ drop 1 (be_bytes 4 mantissa) ++ replicate (29 - start) 0).

Definition u8_leading_zeros (b : Z) : Z := if b =? 0 then 8 else 7 - Z.log2 b.

Fixpoint leading_zero_bits (be : list Z) : Z :=
  match be with
  | [] => 0
  | b :: rest => if b =? 0 then 8 + leading_zero_bits rest else u8_leading_zeros b
  end.

(** [header[a..b]] and [u32::from_le_bytes]. *)
Definition slice_of (a b : nat) (l : list Z) : list Z := take (b - a) (drop a l).

Section detached.
Context {HF : HashFunctions} {RM : Ripemd}.

Definition DetachedTimestamp_parse (bytes : list Z) : result OtsError DetachedTimestamp :=
  _ ← refuse_if (MAX_PROOF_BYTES <? Z.of_nat (length bytes)) (OtsMalformed "proof is too large");
  rest ← ok_or (strip_prefix MAGIC bytes) (OtsMalformed "not an OpenTimestamps proof");
  '(version, r) ← varuint rest;
  _ ← refuse_if (negb (version =? MAJOR_VERSION)) (OtsMalformed "unsupported major version");
  '(hash_tag, r) ← byte r;
  _ ← refuse_if (negb (hash_tag =? TAG_SHA256)) (OtsMalformed "only SHA-256 file digests are supported");
  '(digest, r) ← take_bytes 32 r;
  '(timestamp, r) ← read MAX_DEPTH r digest;
  _ ← refuse_if (negb (Nat.eqb (length r) 0)) (OtsMalformed "trailing bytes after the proof");
  Ok (mkDetachedTimestamp timestamp).

(** [Timestamp::op], first part: the branch is there afterwards. *)
Definition ensure_op (op : Op) (t : Timestamp) : Timestamp :=
  match find_branch op t with
  | Some _ => t
  | None =>
      let next := default [] (apply_op op (ts_msg t)) in
      canonicalize (mkTimestamp (ts_msg t) (ts_attestations t) (ts_ops t ++ [(op, Timestamp_new next)]))
  end.

(** [Timestamp::op], with what is then done to the branch. *)
Definition at_op (op : Op) (f : Timestamp -> Timestamp) (t : Timestamp) : Timestamp :=
  let t' := ensure_op op t in
  mkTimestamp (ts_msg t') (ts_attestations t') (default (ts_ops t') (update_branch op f (ts_ops t'))).

(** The commitment, and the proof with its branch; [None] for the panic. *)
Definition prepare_submission (nonce : list Z) (d : DetachedTimestamp) : option (list Z) * DetachedTimestamp :=
  let t := at_op (Append nonce) (ensure_op Sha256) (dt_timestamp d) in
  (node ← find_branch (Append nonce) t ≫= find_branch Sha256; array32 (ts_msg node), mkDetachedTimestamp t).

Definition merge_calendar_response (commitment body : list Z) (d : DetachedTimestamp)
    : result OtsError unit * DetachedTimestamp :=
  match deserialize body commitment with
  | Err e => (Err e, d)
  | Ok upgrade =>
      match update_found commitment (fun node => merge node upgrade) (dt_timestamp d) with
      | None => (Err (OtsMalformed "the commitment is not part of this proof"), d)
      | Some t => (Ok tt, mkDetachedTimestamp t)
      end
  end.

(** [header] is 80 bytes. *)
Definition verify_bitcoin (d : DetachedTimestamp) (height : Z) (header : list Z) : result OtsError BitcoinHeader :=
  let merkle_root := slice_of 36 68 header in
  let committed := existsb (fun '(msg, a) => bool_decide (a = Bitcoin height) && bool_decide (msg = merkle_root))
                     (collect (dt_timestamp d)) in
  _ ← refuse_if (negb committed) NotInBlock;
  let bits := le_value (slice_of 72 76 header) in
  target ← ok_or (target_of bits) BadProofOfWork;
  _ ← refuse_if (leading_zero_bits target <? MIN_TARGET_ZERO_BITS) InsufficientWork;
  let hash := sha256 (sha256 header) in
  _ ← refuse_if (match bytes_cmp (rev hash) target with Gt => true | _ => false end) BadProofOfWork;
  let block_time := le_value (slice_of 68 72 header) in
  Ok (mkBitcoinHeader height (bytes_to_hex (rev hash)) block_time).
End detached.

(** ** Calendars *)

(** [trim_end_matches('/')]. *)
Fixpoint drop_slashes (l : list Z) : list Z :=
  match l with c :: l' => if c =? 47 then drop_slashes l' else l | [] => [] end.
Definition trim_end_slashes (l : list Z) : list Z := rev (drop_slashes (rev l)).

Definition calendar_submit_path (calendar : list Z) : list Z := trim_end_slashes calendar ++ string_bytes "/digest".

(** [host.ends_with(suffix)]. *)
Definition ends_with (suffix l : list Z) : bool :=
  bool_decide (drop (length l - length suffix) l = suffix).

Definition url_matches (pattern uri : list Z) : bool :=
  match strip_prefix (string_bytes "https://") pattern, strip_prefix (string_bytes "https://") uri with
  | Some p, Some u =>
      let host := default u (strip_suffix 47 u) in
      if Nat.eqb (length host) 0 || existsb (fun c => (c =? 47) || (c =? 58)) host then false
      else
        match strip_prefix [42] p with
        | Some suffix => Nat.ltb (length suffix) (length host) && ends_with suffix host
        | None => bool_decide (host = p)
        end
  | _, _ => false
  end.

Definition calendar_upgrade_path (uri : string) (commitment : list Z) (allowed : list (list Z))
    : result OtsError (list Z) :=
  if negb (valid_uri uri) || negb (existsb (fun p => url_matches p (string_bytes uri)) allowed)
  then Err (CalendarNotAllowed uri)
  else Ok (trim_end_slashes (string_bytes uri) ++ string_bytes "/timestamp/" ++ string_bytes (bytes_to_hex commitment)).
