(* ===== verification/OtsCanonical.v ===== *)
(** * OpenTimestamps proofs in canonical form

    Sorting, variable-length integers, and the canonical form of a proof: every
    accepted proof has it, merging keeps it, and a proof that has it reads back
    from what is written. *)

From Stdlib Require Import String Sorted.
From S2P Require Import Prelude Bytes Text Wal WalSample Ots.
#[local] Open Scope Z_scope.

(** ** Sorting *)

Section sorting.
Context {A : Type} (cmp : A -> A -> comparison) (Hcmp : forall x y, cmp x y = Gt -> cmp y x <> Gt).

Definition in_order : list A -> Prop := Sorted (fun x y => cmp x y <> Gt).

Lemma insert_sorted_perm x l : insert_sorted cmp x l ≡ₚ x :: l.
Proof.
  induction l as [|y l IH]; cbn [insert_sorted]; [done|]. destruct (cmp x y); try done.
  rewrite IH. by constructor.
Qed.

Lemma stable_sort_perm l : stable_sort cmp l ≡ₚ l.
Proof. unfold stable_sort. induction l as [|x l IH]; cbn [foldr]; [done|]. by rewrite insert_sorted_perm, IH. Qed.

Lemma insert_sorted_in_order x l : in_order l -> in_order (insert_sorted cmp x l).
Proof.
  induction 1 as [|y l Hl IH Hy]; cbn [insert_sorted]; [by repeat constructor|].
  destruct (cmp x y) eqn:E; [constructor; [by constructor|constructor; by rewrite E]..|].
  constructor; [done|]. apply Hcmp in E. destruct l as [|z l]; cbn [insert_sorted]; [by constructor|].
  inversion Hy; subst. destruct (cmp x z); by constructor.
Qed.

Lemma stable_sort_in_order l : in_order (stable_sort cmp l).
Proof. unfold stable_sort. induction l as [|x l IH]; cbn [foldr]; [constructor|]. by apply insert_sorted_in_order. Qed.

Lemma stable_sort_id l : in_order l -> stable_sort cmp l = l.
Proof.
  unfold stable_sort. induction 1 as [|x l Hl IH Hx]; cbn [foldr]; [done|]. rewrite IH. destruct Hx as [|y l Hxy]; cbn; [done|].
  by destruct (cmp x y).
Qed.

Lemma in_order_app l k : in_order (l ++ k) -> in_order l.
Proof.
  induction l as [|x l IH]; cbn; [constructor|]. intros H. inversion H as [|? ? Hs Hd]; subst.
  constructor; [by apply IH|]. destruct l; [constructor|]. inversion Hd; subst. by constructor.
Qed.
End sorting.

Lemma bytes_cmp_flip a b : bytes_cmp b a = CompOpp (bytes_cmp a b).
Proof.
  revert b. induction a as [|x a IH]; intros [|y b]; cbn; try done. rewrite (Z.compare_antisym x y).
  destruct (x ?= y); cbn; [apply IH|done|done].
Qed.

Lemma then_cmp_flip c d : CompOpp (then_cmp c d) = then_cmp (CompOpp c) (CompOpp d).
Proof. by destruct c. Qed.

Lemma attestation_cmp_total x y : attestation_cmp x y = Gt -> attestation_cmp y x <> Gt.
Proof.
  unfold attestation_cmp. rewrite (bytes_cmp_flip (fst (attestation_sort_key x))),
    (bytes_cmp_flip (snd (attestation_sort_key x))), <- then_cmp_flip. by intros ->.
Qed.

Lemma op_cmp_total x y : op_cmp x y = Gt -> op_cmp y x <> Gt.
Proof.
  unfold op_cmp. rewrite (Z.compare_antisym (op_tag x)), (bytes_cmp_flip (op_arg x)), <- then_cmp_flip. by intros ->.
Qed.

Lemma branch_cmp_total x y : branch_cmp x y = Gt -> branch_cmp y x <> Gt.
Proof. apply op_cmp_total. Qed.

(** ** Variable-length integers *)

Lemma lor_shift v p s : 0 <= s -> 0 <= v < 2 ^ s -> Z.lor v (Z.shiftl p s) = v + p * 2 ^ s.
Proof.
  intros Hs Hv. rewrite <- Z.shiftl_mul_pow2 by done. rewrite <- Z.add_lor_land.
  replace (Z.land v (Z.shiftl p s)) with 0; [lia|]. symmetry. apply Z.bits_inj'. intros i Hi.
  rewrite Z.land_spec, Z.shiftl_spec, Z.bits_0 by done. destruct (Z.lt_ge_cases i s).
  - by rewrite (Z.testbit_neg_r p) by lia; rewrite andb_false_r.
  - rewrite <- (Z.mod_small v (2 ^ s)) by done. by rewrite Z.mod_pow2_bits_high by lia.
Qed.

Lemma land_127 b : Z.land b 127 = b mod 128.
Proof. exact (Z.land_ones b 7 ltac:(lia)). Qed.

Lemma varuint_bound n : forall v r x r', (n <= 10)%nat -> 0 <= v < 2 ^ (70 - 7 * Z.of_nat n) ->
  varuint_loop n v r = Ok (x, r') -> is_u 64 x.
Proof.
  induction n as [|n IH]; intros v r x r' Hn Hv; [done|]. cbn [varuint_loop].
  intros ([b r1] & _ & H)%bind_Ok. rewrite land_127 in H. set (s := 63 - 7 * Z.of_nat n) in *.
  replace (70 - 7 * Z.of_nat (S n)) with s in Hv by lia. pose proof (Z.mod_pos_bound b 128 ltac:(lia)) as Hb.
  destruct ((s =? 63) && (1 <? b mod 128)) eqn:E; [done|]. rewrite lor_shift in H by lia.
  assert (0 < 2 ^ s) by (apply Z.pow_pos_nonneg; lia).
  destruct (Z.land b 128 =? 0).
  - injection H as <- _. unfold is_u, umax. destruct (Z.eqb_spec s 63) as [Es|Es]; cbn in E.
    + apply Z.ltb_ge in E. rewrite Es in *. change (2 ^ 63) with 9223372036854775808 in *. lia.
    + assert (2 ^ (s + 7) <= 2 ^ 63) by (apply Z.pow_le_mono_r; lia). rewrite Z.pow_add_r in * by lia.
      change (2 ^ 7) with 128 in *. assert (2 ^ 63 < 2 ^ 64) by (by_compute). nia.
  - destruct n as [|n]; [done|]. apply (IH _ _ _ _ ltac:(lia)) in H; [done|].
    replace (70 - 7 * Z.of_nat (S n)) with (s + 7) by lia. rewrite Z.pow_add_r by lia. change (2 ^ 7) with 128. nia.
Qed.

(** Reading what was written. *)
Lemma varuint_roundtrip n : forall fuel v acc r, (n < fuel)%nat -> (n <= 9)%nat -> 0 <= v < 2 ^ (1 + 7 * Z.of_nat n) ->
  0 <= acc < 2 ^ (63 - 7 * Z.of_nat n) ->
  varuint_loop (S n) acc (write_varuint fuel v ++ r) = Ok (acc + v * 2 ^ (63 - 7 * Z.of_nat n), r).
Proof.
  induction n as [|n IH]; intros fuel v acc r Hf Hn Hv Ha; destruct fuel as [|fuel]; try lia;
    cbn [write_varuint]; rewrite land_127, Z.shiftr_div_pow2 by lia; change (2 ^ 7) with 128.
  - change (2 ^ (1 + 7 * Z.of_nat 0)) with 2 in Hv. rewrite Z.div_small by lia. cbn [Z.eqb app].
    cbn [varuint_loop byte mbind result_bind]. rewrite Z.mod_small by lia. rewrite !land_127, Z.mod_small by lia.
    rewrite (proj2 (Z.ltb_ge 1 v)) by lia. rewrite andb_false_r.
    assert (v = 0 \/ v = 1) as [-> | ->] by lia; cbn [Z.land Z.eqb]; by rewrite lor_shift by lia.
  - set (s := 63 - 7 * Z.of_nat (S n)) in *. assert (0 < 2 ^ s) by (apply Z.pow_pos_nonneg; lia).
    destruct (Z.eqb_spec (v / 128) 0) as [E|E].
    + assert (v < 128) as Hlt by (apply Z.div_small_iff in E; lia). cbn [app].
      remember (S n) as m. cbn [varuint_loop byte mbind result_bind]. subst m. fold s.
      rewrite (Z.mod_small v) by lia. rewrite !land_127, Z.mod_small by lia.
      rewrite (proj2 (Z.eqb_neq s 63)) by lia. cbn [andb].
      assert (Z.land v 128 = 0) as -> .
      { rewrite <- (Z.mod_small v (2 ^ 7)) by (change (2 ^ 7) with 128; lia). rewrite <- Z.land_ones by lia.
        rewrite <- Z.land_assoc. by rewrite Z.land_0_r. }
      cbn [Z.eqb]. by rewrite lor_shift by lia.
    + cbn [app]. remember (S n) as m. cbn [varuint_loop byte mbind result_bind]. subst m. fold s.
      pose proof (Z.mod_pos_bound v 128 ltac:(lia)) as Hb.
      assert (Z.lor (v mod 128) 128 = v mod 128 + 128) as Elor.
      { exact (lor_shift (v mod 128) 1 7 ltac:(lia) ltac:(change (2 ^ 7) with 128; lia)). }
      rewrite Elor, land_127. replace ((v mod 128 + 128) mod 128) with (v mod 128)
        by (apply Z.mod_unique with (q := 1); lia).
      rewrite (proj2 (Z.eqb_neq s 63)) by lia. cbn [andb].
      assert (Z.land (v mod 128 + 128) 128 = 128) as ->.
      { rewrite <- Elor, Z.land_lor_distr_l. change (Z.land 128 128) with 128.
        replace (Z.land (v mod 128) 128) with 0; [done|]. rewrite <- land_127, <- Z.land_assoc. by rewrite Z.land_0_r. }
      cbn [Z.eqb]. rewrite lor_shift by lia. rewrite IH.
      * f_equal. f_equal. replace (63 - 7 * Z.of_nat n) with (s + 7) by lia. rewrite Z.pow_add_r by lia. change (2 ^ 7) with 128.
        rewrite (Z.div_mod v 128) at 3 by lia. ring.
      * lia.
      * lia.
      * split; [by apply Z.div_pos; lia|]. apply Z.div_lt_upper_bound; [lia|].
        replace (128 * 2 ^ (1 + 7 * Z.of_nat n)) with (2 ^ (1 + 7 * Z.of_nat (S n))); [lia|].
        replace (1 + 7 * Z.of_nat (S n)) with (7 + (1 + 7 * Z.of_nat n)) by lia. by rewrite Z.pow_add_r by lia.
      * replace (63 - 7 * Z.of_nat n) with (s + 7) by lia. rewrite Z.pow_add_r by lia. change (2 ^ 7) with 128. nia.
Qed.

Lemma varuint_write v r : is_u 64 v -> varuint (write_varuint 10 v ++ r) = Ok (v, r).
Proof.
  intros Hv. unfold varuint. rewrite (varuint_roundtrip 9 10 v 0 r); try lia; [f_equal; f_equal; lia|].
  unfold is_u, umax in Hv. change (2 ^ (1 + 7 * Z.of_nat 9)) with (2 ^ 64). lia.
Qed.

Lemma take_bytes_app b r : take_bytes (Z.of_nat (length b)) (b ++ r) = Ok (b, r).
Proof.
  unfold take_bytes. rewrite length_app, (proj2 (Z.leb_le _ _)) by lia. rewrite Nat2Z.id.
  by rewrite take_app_length, drop_app_length.
Qed.

Lemma varbytes_write max b r : Z.of_nat (length b) <= max -> max <= umax 64 ->
  varbytes max (write_varbytes b ++ r) = Ok (b, r).
Proof.
  intros Hb Hm. unfold varbytes, write_varbytes. rewrite <- app_assoc, varuint_write by (unfold is_u; lia).
  cbn [mbind result_bind]. rewrite (proj2 (Z.ltb_ge _ _)) by done. cbn [refuse_if mbind result_bind].
  apply take_bytes_app.
Qed.

Lemma write_varuint_length fuel : forall v, (length (write_varuint fuel v) <= fuel)%nat.
Proof.
  induction fuel as [|fuel IH]; intros v; cbn [write_varuint]; [done|]. destruct (_ =? _); cbn [length]; [lia|].
  specialize (IH (Z.shiftr v 7)). lia.
Qed.

Lemma write_varuint_nonempty v : (1 <= length (write_varuint 10 v))%nat.
Proof. cbn [write_varuint]. destruct (_ =? _); cbn; lia. Qed.

(** ** Attestations *)

Definition att_ok (a : Attestation) : Prop :=
  match a with
  | Pending uri => valid_uri uri = true
  | Bitcoin height => is_u 64 height
  | Unknown tag payload =>
      length tag = 8%nat /\ tag <> PENDING /\ tag <> BITCOIN /\ Z.of_nat (length payload) <= MAX_PAYLOAD
  end.

Lemma valid_uri_ascii uri : valid_uri uri = true ->
  Z.of_nat (length (string_bytes uri)) <= MAX_URI /\ Forall (fun b => b < 128) (string_bytes uri).
Proof.
  unfold valid_uri. intros [Hl Hb]%andb_prop. apply Z.leb_le in Hl. split; [done|].
  apply list.Forall_forall. intros b Hin%list_elem_of_In. rewrite forallb_forall in Hb. specialize (Hb b Hin).
  unfold is_uri_byte, is_ascii_digit in Hb. lia.
Qed.

Lemma attestation_write a r : att_ok a -> read_attestation (write_attestation a ++ r) = Ok (a, r).
Proof.
  intros Ha. unfold read_attestation, write_attestation. destruct a as [uri|h|tag p]; cbn [att_ok] in Ha.
  - destruct (valid_uri_ascii uri Ha) as [Hl Hb]. pose proof (write_varuint_length 10 (Z.of_nat (length (string_bytes uri)))) as Hw.
    rewrite <- app_assoc. rewrite (take_bytes_app PENDING). cbn [mbind result_bind].
    rewrite varbytes_write by (unfold write_varbytes; rewrite ?length_app; unfold MAX_URI, MAX_PAYLOAD, umax in *; lia).
    cbn [mbind result_bind]. rewrite bool_decide_true by done.
    rewrite <- (app_nil_r (write_varbytes _)), varbytes_write by (done || by_compute). cbn [mbind result_bind].
    rewrite ascii_utf8 by done. cbn [negb refuse_if mbind result_bind]. rewrite string_of_string_bytes, Ha. done.
  - pose proof (write_varuint_length 10 h) as Hw.
    rewrite <- app_assoc. rewrite (take_bytes_app BITCOIN). cbn [mbind result_bind].
    rewrite varbytes_write by (unfold MAX_PAYLOAD, umax in *; lia). cbn [mbind result_bind].
    rewrite bool_decide_false by done. rewrite bool_decide_true by done.
    rewrite <- (app_nil_r (write_varuint _ _)), varuint_write by done. done.
  - destruct Ha as (Hl & H1 & H2 & Hp). rewrite <- app_assoc. change 8 with (Z.of_nat 8). rewrite <- Hl, take_bytes_app.
    cbn [mbind result_bind]. rewrite varbytes_write by (done || by_compute). cbn [mbind result_bind].
    rewrite !bool_decide_false by done. done.
Qed.

Lemma take_bytes_Ok n r b r' : 0 <= n -> take_bytes n r = Ok (b, r') -> r = b ++ r' /\ Z.of_nat (length b) = n.
Proof.
  intros Hn. unfold take_bytes. destruct (Z.leb_spec n (Z.of_nat (length r))); [|done]. intros [= <- <-].
  rewrite take_drop, length_take. split; [done|lia].
Qed.

Lemma varbytes_Ok max r b r' : varbytes max r = Ok (b, r') -> Z.of_nat (length b) <= max.
Proof.
  unfold varbytes. intros ([len r1] & Hv & (u & Hr & H)%bind_Ok)%bind_Ok. apply refuse_if_Ok, Z.ltb_ge in Hr.
  apply varuint_bound in Hv; [|lia|by_compute]. apply take_bytes_Ok in H as [_ ->]; [done|]. apply Hv.
Qed.

Lemma read_attestation_ok r a r' : read_attestation r = Ok (a, r') -> att_ok a.
Proof.
  unfold read_attestation. intros ([tag r1] & Ht & ([payload r2] & Hp & ([att inner] & Ha & (u & _ & [= <- <-])%bind_Ok)%bind_Ok)%bind_Ok)%bind_Ok.
  apply take_bytes_Ok in Ht as [_ Hl]; [|lia]. apply varbytes_Ok in Hp.
  destruct (bool_decide_reflect (tag = PENDING)) as [|H1].
  { apply bind_Ok in Ha as ([bytes r3] & _ & (u1 & _ & (u2 & Hu & [= <- _])%bind_Ok)%bind_Ok).
    apply refuse_if_Ok, negb_false_iff in Hu. done. }
  destruct (bool_decide_reflect (tag = BITCOIN)) as [|H2].
  { apply bind_Ok in Ha as ([h r3] & Hv & [= <- _]). cbn. by apply varuint_bound in Hv; [|lia|by_compute]. }
  injection Ha as <- _. cbn. split_and!; [lia|done|done|done].
Qed.

(** ** Operations *)

Definition op_ok (op : Op) : Prop :=
  match op with Append a | Prepend a => a <> [] /\ Z.of_nat (length a) <= MAX_MSG | _ => True end.

Lemma read_op_write op r : op_ok op -> read_op (op_tag op) (drop 1 (write_op op) ++ r) = Ok (op, r).
Proof.
  intros Ho. destruct op as [| | | |arg|arg| |]; try done; cbn [op_ok write_op drop op_tag] in *; destruct Ho as [Hn Hl].
  - transitivity ('(arg, r) ← varbytes MAX_MSG (write_varbytes arg ++ r);
      _ ← refuse_if (Nat.eqb (length arg) 0) (OtsMalformed "empty append or prepend"); Ok (Append arg, r)); [reflexivity|].
    rewrite varbytes_write by (done || by_compute). by destruct arg.
  - transitivity ('(arg, r) ← varbytes MAX_MSG (write_varbytes arg ++ r);
      _ ← refuse_if (Nat.eqb (length arg) 0) (OtsMalformed "empty append or prepend"); Ok (Prepend arg, r)); [reflexivity|].
    rewrite varbytes_write by (done || by_compute). by destruct arg.
Qed.

Lemma read_op_ok tag r op r' : read_op tag r = Ok (op, r') -> op_ok op /\ tag = op_tag op.
Proof.
  unfold read_op.
  destruct (Z.eqb_spec tag TAG_SHA1) as [->|]; [by intros [= <- <-]|].
  destruct (Z.eqb_spec tag TAG_RIPEMD160) as [->|]; [by intros [= <- <-]|].
  destruct (Z.eqb_spec tag TAG_SHA256) as [->|]; [by intros [= <- <-]|].
  destruct (Z.eqb_spec tag TAG_KECCAK256) as [->|]; [by intros [= <- <-]|].
  destruct (Z.eqb_spec tag TAG_REVERSE) as [->|]; [by intros [= <- <-]|].
  destruct (Z.eqb_spec tag TAG_HEXLIFY) as [->|]; [by intros [= <- <-]|].
  destruct (Z.eqb_spec tag TAG_APPEND) as [Ea|], (Z.eqb_spec tag TAG_PREPEND) as [Ep|]; cbn [orb]; [by rewrite Ea in Ep| | |done];
    intros ([arg r1] & Hv & (u & Hr & [= <- <-])%bind_Ok)%bind_Ok; apply refuse_if_Ok in Hr; apply varbytes_Ok in Hv;
    (split; [split; [by intros ->|done]|done]).
Qed.

(** ** Canonical proofs *)

Lemma write_eq m a o : write (mkTimestamp m a o) =
  write_items (map (fun a => TAG_ATTESTATION :: write_attestation a) (stable_sort attestation_cmp a) ++
    map (fun '(op, bytes) => write_op op ++ bytes) (stable_sort item_cmp (map (fun b => (fst b, write (snd b))) o))).
Proof.
  cbn [write]. do 5 f_equal. induction o as [|[op c] o IH]; [done|]. cbn [map fst snd]. by rewrite <- IH.
Qed.

Definition att_item (a : Attestation) : list Z := TAG_ATTESTATION :: write_attestation a.
Definition op_item (b : Op * Timestamp) : list Z := write_op (fst b) ++ write (snd b).

Section canonical.
Context {HF : HashFunctions} {RM : Ripemd}.

(** A node in canonical form: sorted, without duplicates, with each message
    the result of its operation; [P] holds of the children. *)
Record node_ok (P : Timestamp -> Prop) (t : Timestamp) : Prop := {
  no_atts_order : in_order attestation_cmp (ts_attestations t);
  no_atts_nodup : NoDup (ts_attestations t);
  no_atts_ok : Forall att_ok (ts_attestations t);
  no_ops_order : in_order branch_cmp (ts_ops t);
  no_ops_nodup : NoDup (map fst (ts_ops t));
  no_ops_ok : Forall (fun b => op_ok (fst b) /\ next_msg (fst b) (ts_msg t) = Ok (ts_msg (snd b)) /\ P (snd b)) (ts_ops t)
}.

Definition nonempty (t : Timestamp) : Prop := ts_attestations t <> [] \/ ts_ops t <> [].

(** A canonical proof with at most [n] nodes on a path; with [full], every
    branch ends in an attestation. *)
Fixpoint wf (full : bool) (n : nat) (t : Timestamp) : Prop :=
  match n with
  | O => False
  | S n' => (full = true -> nonempty t) /\ node_ok (wf full n') t
  end.

Lemma in_order_items o : in_order branch_cmp o -> in_order item_cmp (map (fun b => (fst b, write (snd b))) o).
Proof.
  induction 1 as [|x l Hl IH Hx]; cbn [map]; constructor; [done|]. destruct Hx as [|y l Hxy]; by constructor.
Qed.

Lemma write_canonical P m a o : node_ok P (mkTimestamp m a o) ->
  write (mkTimestamp m a o) = write_items (map att_item a ++ map op_item o).
Proof.
  intros H. rewrite write_eq. rewrite (stable_sort_id _ a) by apply H.
  rewrite (stable_sort_id item_cmp) by (apply in_order_items, H). f_equal. f_equal. rewrite map_map. done.
Qed.

(** ** Reading items *)

Fixpoint reads_to (rc : list Z -> list Z -> result OtsError (Timestamp * list Z)) (node : Timestamp)
    (items : list (list Z)) (node' : Timestamp) : Prop :=
  match items with
  | [] => node' = node
  | x :: xs => exists tag body node1, x = tag :: body /\ tag <> TAG_FORK /\
      (forall rest, read_item rc tag node (body ++ rest) = Ok (node1, rest)) /\ reads_to rc node1 xs node'
  end.

Lemma read_loop_items rc items : forall fuel node node' rest, items <> [] -> (length items <= fuel)%nat ->
  reads_to rc node items node' -> read_loop rc fuel node (write_items items ++ rest) = Ok (canonicalize node', rest).
Proof.
  induction items as [|x xs IH]; intros fuel node node' rest Hne Hf; [done|].
  intros (tag & body & node1 & -> & Ht & Hr & Hx). destruct fuel as [|fuel]; [cbn in Hf; lia|].
  destruct xs as [|y ys].
  - cbn [write_items app read_loop byte mbind result_bind]. rewrite (proj2 (Z.eqb_neq _ _)) by done.
    cbn [mbind result_bind]. rewrite Hr. cbn [mbind result_bind]. cbn in Hx. by subst.
  - cbn [write_items]. rewrite <- app_comm_cons. cbn [app read_loop byte mbind result_bind]. rewrite Z.eqb_refl.
    cbn [byte mbind result_bind]. rewrite <- app_assoc, Hr. cbn [mbind result_bind].
    apply IH; [done|cbn [length] in *; lia|done].
Qed.

Lemma reads_atts rc m o items t l : forall a, NoDup (a ++ l) -> Forall att_ok l ->
  reads_to rc (mkTimestamp m (a ++ l) o) items t -> reads_to rc (mkTimestamp m a o) (map att_item l ++ items) t.
Proof.
  induction l as [|x l IH]; intros a Hn Hok H; [by rewrite app_nil_r in H|].
  apply list.Forall_cons in Hok as [Hx Hl]. cbn [map app reads_to].
  exists TAG_ATTESTATION, (write_attestation x), (mkTimestamp m (a ++ [x]) o). split_and!; [done|done| |].
  - intros rest. unfold read_item. cbn [Z.eqb]. rewrite attestation_write by done. cbn [mbind result_bind ts_msg ts_attestations ts_ops].
    unfold add_attestation. rewrite bool_decide_false; [done|]. apply list.NoDup_app in Hn as (_ & Hd & _).
    intros Hin. apply (Hd x Hin). set_solver.
  - apply IH; [by rewrite <- app_assoc|done|]. by rewrite <- app_assoc.
Qed.

Lemma update_branch_none op f l : op ∉ map fst l -> update_branch op f l = None.
Proof.
  induction l as [|[o t] l IH]; intros Hn; cbn [update_branch]; [done|]. cbn [map fst] in Hn.
  apply not_elem_of_cons in Hn as [H1 H2]. rewrite bool_decide_false by done. by rewrite IH.
Qed.

Lemma op_tag_not op : op_tag op <> TAG_FORK /\ op_tag op <> TAG_ATTESTATION.
Proof. by destruct op. Qed.

Lemma reads_ops rc m a l : in_order attestation_cmp a -> forall o, NoDup (map fst (o ++ l)) -> in_order branch_cmp (o ++ l) ->
  Forall (fun b => op_ok (fst b) /\ next_msg (fst b) m = Ok (ts_msg (snd b)) /\
    forall rest, rc (write (snd b) ++ rest) (ts_msg (snd b)) = Ok (snd b, rest)) l ->
  reads_to rc (mkTimestamp m a o) (map op_item l) (mkTimestamp m a (o ++ l)).
Proof.
  intros Ha. induction l as [|[op c] l IH]; intros o Hn Hord Hok; [by rewrite app_nil_r|].
  apply list.Forall_cons in Hok as [(Ho & Hm & Hc) Hl]. cbn [fst snd] in *. destruct (op_tag_not op) as [T1 T2].
  replace (o ++ (op, c) :: l) with ((o ++ [(op, c)]) ++ l) in * by (by rewrite <- app_assoc).
  cbn [map reads_to]. exists (op_tag op), (drop 1 (write_op op) ++ write c), (mkTimestamp m a (o ++ [(op, c)])).
  split_and!; [done|done| |by apply IH].
  intros rest. unfold read_item. rewrite (proj2 (Z.eqb_neq _ _)) by done. rewrite <- app_assoc, read_op_write by done.
  cbn [mbind result_bind ts_msg]. rewrite Hm. cbn [mbind result_bind]. rewrite Hc. cbn [mbind result_bind].
  unfold add_op, add_op_with. rewrite update_branch_none.
  - cbn [default canonicalize]. do 2 f_equal. rewrite (stable_sort_id _ a) by done.
    rewrite stable_sort_id; [done|]. by apply in_order_app in Hord.
  - rewrite map_app, map_app in Hn. apply list.NoDup_app in Hn as (Hn & _). cbn [map fst] in Hn.
    apply list.NoDup_app in Hn as (_ & Hd & _). intros Hin. apply (Hd op Hin). set_solver.
Qed.

Lemma write_items_length items : Forall (fun x => x <> []) items -> (length items <= length (write_items items))%nat.
Proof.
  induction 1 as [|x xs Hx _ IH]; [done|]. destruct x as [|b x]; [done|]. destruct xs as [|y ys]; cbn [write_items length] in *; [lia|].
  rewrite length_app. cbn [length]. lia.
Qed.

Lemma items_nonempty a o : Forall (fun x => x <> []) (map att_item a ++ map op_item o).
Proof.
  apply list.Forall_app. split; apply list.Forall_forall; intros x (y & -> & _)%list_elem_of_fmap; [done|].
  unfold op_item. by destruct (fst y).
Qed.

(** A canonical proof reads back from what is written, followed by anything. *)
Lemma read_write n : forall t rest, wf true n t -> read n (write t ++ rest) (ts_msg t) = Ok (t, rest).
Proof.
  induction n as [|n IH]; intros [m a o] rest; [done|]. intros [Hne H]. specialize (Hne eq_refl). cbn [read ts_msg ts_attestations ts_ops] in *.
  rewrite (write_canonical _ _ _ _ H). set (items := map att_item a ++ map op_item o).
  rewrite (read_loop_items (read n) items _ _ (mkTimestamp m a o)).
  - unfold canonicalize. rewrite !stable_sort_id by apply H. done.
  - unfold items. intros [E1%map_eq_nil E2%map_eq_nil]%app_eq_nil. by destruct Hne.
  - rewrite length_app. pose proof (write_items_length items (items_nonempty a o)). lia.
  - apply (reads_atts _ m [] _ _ a []); [apply H..|]. cbn [app]. apply (reads_ops _ m a o (no_atts_order _ _ H) []).
    + apply H.
    + apply H.
    + eapply List.Forall_impl; [|exact (no_ops_ok _ _ H)]. cbn. intros b (H1 & H2 & H3). split_and!; [done|done|].
      intros r. by apply IH.
Qed.

(** ** Accepted proofs are canonical *)

(** The same without the order. *)
Record node_pre (P : Timestamp -> Prop) (t : Timestamp) : Prop := {
  np_atts_nodup : NoDup (ts_attestations t);
  np_atts_ok : Forall att_ok (ts_attestations t);
  np_ops_nodup : NoDup (map fst (ts_ops t));
  np_ops_ok : Forall (fun b => op_ok (fst b) /\ next_msg (fst b) (ts_msg t) = Ok (ts_msg (snd b)) /\ P (snd b)) (ts_ops t)
}.

Lemma node_ok_pre P t : node_ok P t -> node_pre P t.
Proof. by intros []. Qed.

Lemma canonicalize_ok P t : node_pre P t ->
  node_ok P (canonicalize t) /\ ts_msg (canonicalize t) = ts_msg t /\ (nonempty t -> nonempty (canonicalize t)).
Proof.
  intros [H1 H2 H3 H4]. destruct t as [m a o]. cbn [ts_msg ts_attestations ts_ops canonicalize] in *. split; [split|split]; cbn.
  - apply stable_sort_in_order, attestation_cmp_total.
  - by rewrite stable_sort_perm.
  - by rewrite stable_sort_perm.
  - apply stable_sort_in_order, branch_cmp_total.
  - by rewrite stable_sort_perm.
  - by rewrite stable_sort_perm.
  - done.
  - unfold nonempty. cbn. intros [H|H]; [left|right]; intros E; apply H; apply Permutation_nil_r; rewrite <- E; symmetry; apply stable_sort_perm.
Qed.

Lemma update_branch_Some op f l l' : update_branch op f l = Some l' ->
  exists l1 t l2, l = l1 ++ (op, t) :: l2 /\ l' = l1 ++ (op, f t) :: l2.
Proof.
  revert l'. induction l as [|[o t] l IH]; intros l'; cbn [update_branch]; [done|].
  case_bool_decide as E; [intros [= <-]; subst; by exists [], t, l|].
  destruct (update_branch op f l) as [l''|]; cbn; [|done]. intros [= <-].
  destruct (IH l'' eq_refl) as (l1 & t1 & l2 & -> & ->). by exists ((o, t) :: l1), t1, l2.
Qed.

Lemma update_branch_None op f l : update_branch op f l = None -> op ∉ map fst l.
Proof.
  induction l as [|[o t] l IH]; cbn [update_branch map fst]; [set_solver|]. case_bool_decide; [done|].
  destruct (update_branch op f l); cbn; [done|]. intros _. apply not_elem_of_cons. split; [congruence|by apply IH].
Qed.

Lemma add_op_with_ok (P : Timestamp -> Prop) f op child t : node_pre P t -> op_ok op ->
  next_msg op (ts_msg t) = Ok (ts_msg child) -> P child ->
  (forall ex, P ex -> ts_msg ex = ts_msg child -> P (f ex) /\ ts_msg (f ex) = ts_msg ex) ->
  node_ok P (add_op_with f op child t) /\ ts_msg (add_op_with f op child t) = ts_msg t /\ nonempty (add_op_with f op child t).
Proof.
  intros [H1 H2 H3 H4] Ho Hm Hc Hf. destruct t as [m a o]. cbn [ts_msg ts_attestations ts_ops add_op_with] in *.
  assert (forall o', NoDup (map fst o') -> Forall (fun b => op_ok (fst b) /\ next_msg (fst b) m = Ok (ts_msg (snd b)) /\ P (snd b)) o' ->
    o' <> [] -> let t' := canonicalize (mkTimestamp m a o') in node_ok P t' /\ ts_msg t' = m /\ nonempty t') as Hgo.
  { intros o' N F E. destruct (canonicalize_ok P (mkTimestamp m a o')) as (K1 & K2 & K3); [by split|].
    split_and!; [done|done|]. apply K3. by right. }
  destruct (update_branch op f o) as [o'|] eqn:E; cbn [default]; unfold id; apply Hgo.
  - apply update_branch_Some in E as (l1 & ex & l2 & -> & ->). rewrite map_app in H3 |- *. exact H3.
  - apply update_branch_Some in E as (l1 & ex & l2 & -> & ->). apply list.Forall_app in H4 as [F1 F2].
    apply list.Forall_cons in F2 as [(G1 & G2 & G3) F2]. cbn [fst snd] in *.
    assert (ts_msg ex = ts_msg child) as Eq by congruence. destruct (Hf ex G3 Eq) as [P1 P2].
    apply list.Forall_app. split; [done|]. apply list.Forall_cons. cbn [fst snd]. rewrite P2. by split_and!.
  - apply update_branch_Some in E as (l1 & ex & l2 & -> & ->). by destruct l1.
  - apply update_branch_None in E. rewrite map_app. apply list.NoDup_app. cbn [map fst]. split_and!; [done|set_solver|].
    apply NoDup_singleton.
  - apply list.Forall_app. split; [done|]. apply list.Forall_cons. by split.
  - by destruct o.
Qed.

Lemma merge_eq m a o m' a' o' : merge (mkTimestamp m a o) (mkTimestamp m' a' o') =
  canonicalize (fold_left (fun t b => add_op (fst b) (snd b) t) o' (mkTimestamp m (fold_left add_attestation a' a) o)).
Proof.
  cbn [merge]. f_equal. generalize (mkTimestamp m (fold_left add_attestation a' a) o).
  induction o' as [|[op c] o' IH]; intros t; [done|]. cbn [fold_left fst snd]. by rewrite <- IH.
Qed.

Lemma add_attestations_ok l : forall a, NoDup a -> Forall att_ok a -> Forall att_ok l ->
  NoDup (fold_left add_attestation l a) /\ Forall att_ok (fold_left add_attestation l a) /\
  (a <> [] -> fold_left add_attestation l a <> []).
Proof.
  induction l as [|x l IH]; intros a Hn Ha Hl; [done|]. apply list.Forall_cons in Hl as [Hx Hl]. cbn [fold_left].
  assert (NoDup (add_attestation a x) /\ Forall att_ok (add_attestation a x) /\ (a <> [] -> add_attestation a x <> [])) as (K1 & K2 & K3).
  { unfold add_attestation. case_bool_decide; [done|]. split_and!.
    - apply list.NoDup_app. split_and!; [done|set_solver|apply NoDup_singleton].
    - apply list.Forall_app. split; [done|]. by apply list.Forall_cons.
    - by destruct a. }
  destruct (IH _ K1 K2 Hl) as (J1 & J2 & J3). split_and!; [done|done|]. auto.
Qed.

Lemma merge_ok full n : forall a b, wf full n a -> wf full n b -> ts_msg a = ts_msg b ->
  wf full n (merge a b) /\ ts_msg (merge a b) = ts_msg a.
Proof.
  induction n as [|n IH]; intros [m a o] [m' a' o'] Wa Wb; [done|]. destruct Wa as [Hne Ha], Wb as [_ Hb]. cbn [ts_msg] in *. intros <-. rewrite merge_eq.
  destruct Ha as [A1 A2 A3 A4 A5 A6], Hb as [B1 B2 B3 B4 B5 B6]. cbn [ts_msg ts_attestations ts_ops] in *.
  destruct (add_attestations_ok a' a A2 A3 B3) as (K1 & K2 & K3).
  set (t0 := mkTimestamp m (fold_left add_attestation a' a) o).
  assert (forall l t, Forall (fun b => op_ok (fst b) /\ next_msg (fst b) m = Ok (ts_msg (snd b)) /\ wf full n (snd b)) l ->
    node_pre (wf full n) t -> ts_msg t = m -> (full = true -> nonempty t) ->
    let t' := fold_left (fun t b => add_op (fst b) (snd b) t) l t in
    node_pre (wf full n) t' /\ ts_msg t' = m /\ (full = true -> nonempty t')) as Hfold.
  { induction l as [|[op c] l IHl]; intros t Hl Ht Hm Hf; [done|]. apply list.Forall_cons in Hl as [(L1 & L2 & L3) Hl].
    cbn [fold_left fst snd] in *. destruct (add_op_with_ok (wf full n) (fun ex => merge ex c) op c t Ht L1) as (N1 & N2 & N3).
    - by rewrite Hm.
    - done.
    - intros ex Hex Eex. by apply IH.
    - apply IHl; [done|by apply node_ok_pre|by unfold add_op; rewrite N2|done]. }
  destruct (Hfold o' t0) as (F1 & F2 & F3); [done|by split|done| |].
  { intros Hfull. destruct (Hne Hfull) as [H|H]; [left; cbn; auto|by right]. }
  destruct (canonicalize_ok _ _ F1) as (C1 & C2 & C3). cbn [wf]. split; [split; [auto|done]|congruence].
Qed.

Lemma read_item_pre n tag node r node' r' :
  (forall q m t q', read n q m = Ok (t, q') -> wf true n t /\ ts_msg t = m) ->
  node_pre (wf true n) node -> read_item (read n) tag node r = Ok (node', r') ->
  node_pre (wf true n) node' /\ ts_msg node' = ts_msg node /\ nonempty node'.
Proof.
  intros IH Hn Hi. unfold read_item in Hi. destruct (tag =? TAG_ATTESTATION).
  - apply bind_Ok in Hi as ([att r4] & Hatt & [= <- <-]). apply read_attestation_ok in Hatt. destruct node as [m0 a o], Hn as [A1 A2 A3 A4].
    cbn [ts_msg ts_attestations ts_ops] in *. destruct (add_attestations_ok [att] a A1 A2) as (K1 & K2 & _); [by apply list.Forall_cons|].
    split; [by split|]. split; [done|]. left. cbn. unfold add_attestation. case_bool_decide as E; [|by destruct a].
    intros ->. set_solver.
  - apply bind_Ok in Hi as ([op r4] & Hop & (next & Hx & ([c r5] & Hc & [= <- <-])%bind_Ok)%bind_Ok).
    apply read_op_ok in Hop as [Hop _]. apply IH in Hc as [Hw Hcm].
    destruct (add_op_with_ok (wf true n) (fun ex => merge ex c) op c node Hn Hop) as (K1 & K2 & K3); [congruence|done| |].
    + intros ex Hex Eex. by apply merge_ok.
    + split; [by apply node_ok_pre|]. split; [unfold add_op; congruence|done].
Qed.

Lemma read_wf n : forall r m t r', read n r m = Ok (t, r') -> wf true n t /\ ts_msg t = m.
Proof.
  induction n as [|n IH]; intros r m t r'; [done|]. cbn [read]. generalize (S (length r)). intros fuel.
  assert (node_pre (wf true n) (Timestamp_new m)) as H0 by (split; cbn; constructor).
  assert (ts_msg (Timestamp_new m) = m) as Hm by done. revert H0 Hm. generalize (Timestamp_new m). revert r.
  induction fuel as [|fuel IHf]; intros r node Hn Hm; cbn [read_loop]; [done|].
  intros ([tag r1] & _ & ([tag' r2] & _ & ([node1 r3] & Hi & H)%bind_Ok)%bind_Ok)%bind_Ok.
  destruct (read_item_pre n tag' node r2 node1 r3 IH Hn Hi) as (N1 & N2 & N3). rewrite Hm in N2.
  destruct (tag =? TAG_FORK); [by apply (IHf r3 node1)|]. injection H as <- <-.
  destruct (canonicalize_ok _ _ N1) as (C1 & C2 & C3). cbn [wf]. split; [split; [auto|done]|congruence].
Qed.
End canonical.
