(* ===== verification/OtsProps.v ===== *)
(** * OpenTimestamps proofs: saving, bounds and what a proof shows

    Every accepted file, written out, is accepted as the same proof; parsing is
    bounded; and a proof that verifies against a header is a chain of evaluated
    operations from the digest to the header's Merkle root. *)

From Stdlib Require Import String.
From S2P Require Import Prelude Bytes Text Wal WalSample Ots OtsCanonical.
#[local] Open Scope Z_scope.

(** ** Written proofs are no longer than what was read *)

Lemma write_varuint_short fuel : forall k v, 0 <= v < 2 ^ (7 * Z.of_nat k) -> (1 <= k)%nat ->
  (length (write_varuint fuel v) <= k)%nat.
Proof.
  induction fuel as [|fuel IH]; intros k v Hv Hk; cbn [write_varuint length]; [lia|].
  rewrite Z.shiftr_div_pow2 by lia. change (2 ^ 7) with 128.
  destruct (Z.eqb_spec (v / 128) 0) as [E|E]; cbn [length]; [lia|].
  destruct k as [|[|k]]; [lia| |].
  - exfalso. apply E, Z.div_small. change (2 ^ (7 * Z.of_nat 1)) with 128 in Hv. lia.
  - assert (length (write_varuint fuel (v / 128)) <= S k)%nat; [|lia]. apply IH; [|lia].
    split; [apply Z.div_pos; lia|]. apply Z.div_lt_upper_bound; [lia|].
    replace (7 * Z.of_nat (S (S k))) with (7 + 7 * Z.of_nat (S k)) in Hv by lia. rewrite Z.pow_add_r in Hv by lia.
    change (2 ^ 7) with 128 in Hv. lia.
Qed.

Lemma varuint_consumes n : forall acc r x r', (n <= 10)%nat -> 0 <= acc < 2 ^ (70 - 7 * Z.of_nat n) ->
  varuint_loop n acc r = Ok (x, r') ->
  exists k v, x = acc + v * 2 ^ (70 - 7 * Z.of_nat n) /\ 0 <= v < 2 ^ (7 * Z.of_nat k) /\ (1 <= k)%nat /\
    length r = (k + length r')%nat.
Proof.
  induction n as [|n IH]; intros acc r x r' Hn Ha; [done|]. cbn [varuint_loop].
  intros ([b r1] & Hb & H)%bind_Ok. rewrite land_127 in H. set (s := 63 - 7 * Z.of_nat n) in *.
  replace (70 - 7 * Z.of_nat (S n)) with s in * by lia. pose proof (Z.mod_pos_bound b 128 ltac:(lia)) as Hm.
  assert (length r = S (length r1)) as Hl by (destruct r; cbn in Hb; [done|by injection Hb as <- <-]).
  destruct (_ && _); [done|]. rewrite lor_shift in H by lia. assert (0 < 2 ^ s) by (apply Z.pow_pos_nonneg; lia).
  destruct (Z.land b 128 =? 0).
  - injection H as <- <-. exists 1%nat, (b mod 128). change (2 ^ (7 * Z.of_nat 1)) with 128. split_and!; [done|lia..].
  - apply IH in H as (k & v & -> & Hv & Hk & Hr).
    + replace (70 - 7 * Z.of_nat n) with (s + 7) by lia. exists (S k), (b mod 128 + 128 * v).
      rewrite Z.pow_add_r by lia. change (2 ^ 7) with 128.
      replace (7 * Z.of_nat (S k)) with (7 + 7 * Z.of_nat k) by lia. rewrite (Z.pow_add_r 2 7) by lia.
      change (2 ^ 7) with 128. split_and!; [ring|nia|nia|lia|lia].
    + lia.
    + replace (70 - 7 * Z.of_nat n) with (s + 7) by lia. rewrite Z.pow_add_r by lia. change (2 ^ 7) with 128. nia.
Qed.

Lemma varuint_length r x r' : varuint r = Ok (x, r') -> (length (write_varuint 10 x) + length r' <= length r)%nat.
Proof.
  intros H. apply varuint_consumes in H as (k & v & -> & Hv & Hk & ->); [|lia|by_compute].
  change (2 ^ (70 - 7 * Z.of_nat 10)) with 1. rewrite Z.add_0_l, Z.mul_1_r. pose proof (write_varuint_short 10 k v Hv Hk). lia.
Qed.

Lemma varbytes_length max r b r' : varbytes max r = Ok (b, r') -> (length (write_varbytes b) + length r' <= length r)%nat.
Proof.
  unfold varbytes. intros ([len r1] & Hv & (u & _ & H)%bind_Ok)%bind_Ok. pose proof (varuint_length _ _ _ Hv) as Hl.
  apply varuint_bound in Hv; [|lia|by_compute]. apply take_bytes_Ok in H as [-> <-]; [|apply Hv].
  unfold write_varbytes. rewrite length_app in *. lia.
Qed.

Lemma write_varuint_mono fuel : forall x y, 0 <= x <= y ->
  (length (write_varuint fuel x) <= length (write_varuint fuel y))%nat.
Proof.
  induction fuel as [|fuel IH]; intros x y Hxy; cbn [write_varuint]; [done|]. rewrite !Z.shiftr_div_pow2 by lia.
  assert (x / 2 ^ 7 <= y / 2 ^ 7) by (apply Z.div_le_mono; lia). assert (0 <= x / 2 ^ 7) by (apply Z.div_pos; lia).
  destruct (Z.eqb_spec (x / 2 ^ 7) 0), (Z.eqb_spec (y / 2 ^ 7) 0); cbn [length]; [lia|lia|lia|].
  specialize (IH (x / 2 ^ 7) (y / 2 ^ 7)). lia.
Qed.

Lemma write_varbytes_mono p q : (length p <= length q)%nat -> (length (write_varbytes p) <= length (write_varbytes q))%nat.
Proof.
  intros H. unfold write_varbytes. rewrite !length_app.
  pose proof (write_varuint_mono 10 (Z.of_nat (length p)) (Z.of_nat (length q))). lia.
Qed.

Lemma attestation_length r a r' : read_attestation r = Ok (a, r') -> (length (write_attestation a) + length r' <= length r)%nat.
Proof.
  unfold read_attestation. intros ([tag r1] & Ht & ([payload r2] & Hp & ([att inner] & Ha & (u & Hi & [= <- <-])%bind_Ok)%bind_Ok)%bind_Ok)%bind_Ok.
  apply take_bytes_Ok in Ht as [-> Hl]; [|lia]. pose proof (varbytes_length _ _ _ _ Hp) as Hpl. rewrite length_app.
  apply refuse_if_Ok, negb_false_iff, Nat.eqb_eq in Hi.
  destruct (bool_decide_reflect (tag = PENDING)) as [->|H1].
  { apply bind_Ok in Ha as ([bytes r3] & Hb & (u1 & Hu1 & (u2 & Hu & [= <- <-])%bind_Ok)%bind_Ok).
    pose proof (varbytes_length _ _ _ _ Hb) as Hbl. apply varbytes_Ok in Hb. cbn [write_attestation]. rewrite length_app.
    assert (length (string_bytes (string_of_bytes bytes)) = length bytes) as El
      by (unfold string_bytes, string_of_bytes; by rewrite length_map, list_ascii_of_string_of_list_ascii, length_map).
    assert (length (write_varbytes (string_bytes (string_of_bytes bytes))) = length (write_varbytes bytes)) as Ew
      by (unfold write_varbytes; by rewrite !length_app, El).
    pose proof (write_varbytes_mono (write_varbytes (string_bytes (string_of_bytes bytes))) payload ltac:(lia)).
    change (length PENDING) with 8%nat in *. lia. }
  destruct (bool_decide_reflect (tag = BITCOIN)) as [->|H2].
  { apply bind_Ok in Ha as ([h r3] & Hv & [= <- <-]). pose proof (varuint_length _ _ _ Hv) as Hvl. cbn [write_attestation].
    rewrite length_app. pose proof (write_varbytes_mono (write_varuint 10 h) payload ltac:(lia)).
    change (length BITCOIN) with 8%nat in *. lia. }
  injection Ha as <- <-. cbn [write_attestation]. rewrite length_app. lia.
Qed.

Lemma read_op_length tag r op r' : read_op tag r = Ok (op, r') -> (length (write_op op) + length r' <= S (length r))%nat.
Proof.
  unfold read_op.
  destruct (tag =? TAG_SHA1); [intros [= <- <-]; cbn; lia|]. destruct (tag =? TAG_RIPEMD160); [intros [= <- <-]; cbn; lia|].
  destruct (tag =? TAG_SHA256); [intros [= <- <-]; cbn; lia|]. destruct (tag =? TAG_KECCAK256); [intros [= <- <-]; cbn; lia|].
  destruct (tag =? TAG_REVERSE); [intros [= <- <-]; cbn; lia|]. destruct (tag =? TAG_HEXLIFY); [intros [= <- <-]; cbn; lia|].
  destruct (_ || _); [|done]. intros ([arg r1] & Hv & (u & _ & [= <- <-])%bind_Ok)%bind_Ok. apply varbytes_length in Hv.
  destruct (tag =? TAG_APPEND); cbn [write_op length]; lia.
Qed.

(** The bytes of a node's items, with a fork tag each. *)
Definition weight (t : Timestamp) : nat :=
  (list_sum (map (fun a => S (length (att_item a))) (ts_attestations t)) +
   list_sum (map (fun b => S (length (op_item b))) (ts_ops t)))%nat.

#[local] Instance list_sum_perm : Proper ((≡ₚ) ==> (=)) list_sum.
Proof. unfold list_sum. intros l k H. induction H; cbn [foldr] in *; lia. Qed.

Lemma write_items_weight items : items <> [] ->
  S (length (write_items items)) = list_sum (map (fun x => S (length x)) items).
Proof.
  induction items as [|x [|y l] IH]; intros Hne; [done|cbn; lia|]. specialize (IH ltac:(done)).
  change (S (length (TAG_FORK :: x ++ write_items (y :: l))) = (S (length x) + list_sum (map (fun x => S (length x)) (y :: l)))%nat).
  rewrite <- IH. cbn [length]. rewrite length_app. lia.
Qed.

Lemma write_weight t : nonempty t -> S (length (write t)) = weight t.
Proof.
  destruct t as [m a o]. intros Hne. rewrite write_eq, write_items_weight.
  - rewrite map_app, list_sum_app, !map_map. unfold weight. cbn [ts_attestations ts_ops]. f_equal.
    + by rewrite stable_sort_perm.
    + rewrite stable_sort_perm, map_map. done.
  - intros [E1%map_eq_nil E2%map_eq_nil]%app_eq_nil.
    assert (a = []) as -> by (apply Permutation_nil_r; rewrite <- E1; symmetry; apply stable_sort_perm).
    assert (map (fun b => (fst b, write (snd b))) o = []) as E3%map_eq_nil
      by (apply Permutation_nil_r; rewrite <- E2; symmetry; apply stable_sort_perm).
    subst o. by destruct Hne.
Qed.

Lemma weight_canonicalize t : weight (canonicalize t) = weight t.
Proof. destruct t as [m a o]. unfold weight. cbn. by rewrite !stable_sort_perm. Qed.

Lemma weight_attestation m a o x :
  (weight (mkTimestamp m (add_attestation a x) o) <= weight (mkTimestamp m a o) + S (length (att_item x)))%nat.
Proof.
  unfold weight, add_attestation. cbn [ts_attestations ts_ops]. case_bool_decide; [lia|].
  rewrite map_app, list_sum_app. cbn [map list_sum foldr]. lia.
Qed.

Lemma weight_attestations m o l : forall a,
  (weight (mkTimestamp m (fold_left add_attestation l a) o) <= weight (mkTimestamp m a o) +
    list_sum (map (fun a => S (length (att_item a))) l))%nat.
Proof.
  induction l as [|x l IH]; intros a; cbn [fold_left map list_sum foldr]; [lia|].
  pose proof (IH (add_attestation a x)). pose proof (weight_attestation m a o x). unfold list_sum in *. lia.
Qed.

Section sizes.
Context {HF : HashFunctions} {RM : Ripemd}.

Lemma weight_add_op f op child t : nonempty child ->
  (forall ex, (op, ex) ∈ ts_ops t -> nonempty ex /\ nonempty (f ex) /\ (weight (f ex) <= weight ex + weight child)%nat) ->
  (weight (add_op_with f op child t) <= weight t + S (length (op_item (op, child))))%nat.
Proof.
  intros Hc Hf. destruct t as [m a o]. cbn [add_op_with ts_ops] in *. rewrite weight_canonicalize.
  destruct (update_branch op f o) as [o'|] eqn:E; cbn [default]; unfold id, weight; cbn [ts_attestations ts_ops].
  - apply update_branch_Some in E as (l1 & ex & l2 & -> & ->). destruct (Hf ex ltac:(set_solver)) as (E1 & E2 & E3).
    rewrite !map_app, !list_sum_app. cbn [map list_sum foldr]. unfold op_item. cbn [fst snd]. rewrite !length_app.
    apply write_weight in E1, E2, Hc. lia.
  - rewrite !map_app, !list_sum_app. cbn [map list_sum foldr]. lia.
Qed.

Lemma merge_weight n : forall a b, wf true n a -> wf true n b -> ts_msg a = ts_msg b ->
  (weight (merge a b) <= weight a + weight b)%nat.
Proof.
  induction n as [|n IH]; intros [m a o] [m' a' o'] Wa Wb; [done|]. destruct Wa as [_ Ha], Wb as [_ Hb].
  cbn [ts_msg] in *. intros <-. rewrite merge_eq, weight_canonicalize.
  destruct Ha as [A1 A2 A3 A4 A5 A6], Hb as [B1 B2 B3 B4 B5 B6]. cbn [ts_msg ts_attestations ts_ops] in *.
  destruct (add_attestations_ok a' a A2 A3 B3) as (K1 & K2 & _).
  pose proof (weight_attestations m o a' a) as W0.
  assert (node_pre (wf true n) (mkTimestamp m (fold_left add_attestation a' a) o)) as N0 by (by split).
  unfold weight at 3. cbn [ts_attestations ts_ops].
  set (t0 := mkTimestamp m (fold_left add_attestation a' a) o) in *. assert (ts_msg t0 = m) as M0 by done.
  enough (weight (fold_left (fun t b => add_op (fst b) (snd b) t) o' t0) <= weight t0 + list_sum (map (fun b => S (length (op_item b))) o'))%nat by lia.
  clear W0. clearbody t0. clear A1 A2 A3 A4 A5 A6 B1 B2 B3 B4 B5 K1 K2. revert t0 N0 M0.
  induction o' as [|[op c] l IHl]; intros t N M; [cbn; lia|]. apply list.Forall_cons in B6 as [(L1 & L2 & L3) Hl].
  cbn [fold_left fst snd] in *. destruct n as [|n]; [done|].
  assert (forall ex, wf true (S n) ex -> ts_msg ex = ts_msg c -> wf true (S n) (merge ex c) /\ ts_msg (merge ex c) = ts_msg ex) as Hm
    by (intros; by apply merge_ok).
  destruct (add_op_with_ok (wf true (S n)) (fun ex => merge ex c) op c t N L1 ltac:(by rewrite M) L3 Hm) as (N1 & N2 & _).
  specialize (IHl Hl (add_op op c t) (node_ok_pre _ _ N1) ltac:(unfold add_op; congruence)).
  assert (weight (add_op op c t) <= weight t + S (length (op_item (op, c))))%nat; [|unfold list_sum in *; cbn [map foldr]; lia].
  apply weight_add_op; [by apply L3|]. intros ex Hex. pose proof (np_ops_ok _ _ N) as F. rewrite list.Forall_forall in F.
  destruct (F _ Hex) as (_ & Fm & Fw). cbn [fst snd] in *. assert (ts_msg ex = ts_msg c) as Eq by congruence.
  split_and!; [by apply Fw|by apply (Hm ex Fw Eq)|by apply IH].
Qed.

Lemma byte_Ok r b r' : byte r = Ok (b, r') -> length r = S (length r').
Proof. destruct r; cbn; [done|]. by intros [= <- <-]. Qed.

(** The item read is no shorter than the item written. *)
Lemma read_item_size (rc : list Z -> list Z -> result OtsError (Timestamp * list Z)) n tag node r node' r' :
  (forall q m t q', rc q m = Ok (t, q') -> wf true n t /\ ts_msg t = m /\ (length (write t) + length q' <= length q)%nat) ->
  node_pre (wf true n) node -> read_item rc tag node r = Ok (node', r') ->
  (weight node' + length r' <= weight node + S (S (length r)))%nat.
Proof.
  intros Hrc Hn. unfold read_item. destruct (tag =? TAG_ATTESTATION).
  - intros ([att r1] & Ha & [= <- <-])%bind_Ok. apply attestation_length in Ha. destruct node as [m a o]. cbn [ts_msg ts_attestations ts_ops].
    pose proof (weight_attestation m a o att). unfold att_item in *. cbn [length] in *. lia.
  - intros ([op r1] & Ho & (next & Hx & ([c r2] & Hc & [= <- <-])%bind_Ok)%bind_Ok)%bind_Ok.
    apply Hrc in Hc as (Wc & Mc & Lc). pose proof (read_op_length _ _ _ _ Ho) as Lo. destruct n as [|n]; [done|].
    assert (weight (add_op op c node) <= weight node + S (length (op_item (op, c))))%nat as Hw.
    { apply weight_add_op; [by apply Wc|]. intros ex Hex. pose proof (np_ops_ok _ _ Hn) as F. rewrite list.Forall_forall in F.
      destruct (F _ Hex) as (_ & Fm & Fw). cbn [fst snd] in *. assert (ts_msg ex = ts_msg c) as Eq by congruence.
      destruct (merge_ok true (S n) ex c Fw Wc Eq) as [Wm _].
      split_and!; [by apply Fw|by apply Wm|by apply (merge_weight (S n))]. }
    unfold op_item in Hw. cbn [fst snd] in Hw. rewrite length_app in Hw. lia.
Qed.

Lemma read_size n : forall r m t r', read n r m = Ok (t, r') -> (length (write t) + length r' <= length r)%nat.
Proof.
  induction n as [|n IH]; intros r m t r'; [done|]. cbn [read]. generalize (S (length r)). intros fuel.
  assert (node_pre (wf true n) (Timestamp_new m)) as H0 by (split; cbn; constructor).
  assert (weight (Timestamp_new m) = 0%nat) as Hw by done.
  enough (forall fuel node r t r', node_pre (wf true n) node -> read_loop (read n) fuel node r = Ok (t, r') ->
    nonempty t /\ (weight t + length r' <= weight node + S (length r))%nat) as Hloop.
  { intros H. destruct (Hloop _ _ _ _ _ H0 H) as [Ht Hle]. apply write_weight in Ht. lia. }
  clear fuel r t r' H0 Hw. induction fuel as [|fuel IHf]; intros node r t r' Hn; cbn [read_loop]; [done|].
  intros ([tag r1] & Hb & ([tag' r2] & Hb' & ([node1 r3] & Hi & H)%bind_Ok)%bind_Ok)%bind_Ok. apply byte_Ok in Hb.
  destruct (read_item_pre n tag' node r2 node1 r3 (read_wf n) Hn Hi) as (N1 & _ & N3).
  assert (weight node1 + length r3 <= weight node + S (S (length r2)))%nat as Hs.
  { eapply read_item_size; [|done|done]. intros q m0 t0 q' Hq. destruct (read_wf _ _ _ _ _ Hq). split_and!; [done|done|by eapply IH]. }
  destruct (tag =? TAG_FORK).
  - apply byte_Ok in Hb'. destruct (IHf _ _ _ _ N1 H) as [Ht Hle]. split; [done|]. lia.
  - injection Hb' as <- <-. injection H as <- <-. destruct (canonicalize_ok _ _ N1) as (_ & _ & C3).
    split; [by apply C3|]. rewrite weight_canonicalize. lia.
Qed.
End sizes.

(** ** The proof of work *)

Lemma bytes_cmp_value a : forall b, length a = length b -> Forall is_byte a -> Forall is_byte b ->
  bytes_cmp a b = (be_value a ?= be_value b).
Proof.
  induction a as [|x a IH]; intros [|y b] Hl Ha Hb; try done. injection Hl as Hl.
  apply list.Forall_cons in Ha as [Hx Ha], Hb as [Hy Hb]. cbn [bytes_cmp].
  change (x :: a) with ([x] ++ a). change (y :: b) with ([y] ++ b). rewrite !be_value_app, <- Hl.
  pose proof (be_value_range a Ha) as Ra. pose proof (be_value_range b Hb) as Rb. rewrite <- Hl in Rb. unfold is_u, umax in Ra, Rb.
  change (be_value [x]) with (x + 256 * 0). change (be_value [y]) with (y + 256 * 0).
  set (p := 2 ^ (8 * Z.of_nat (length a))) in *. rewrite IH by done.
  destruct (Z.compare_spec x y) as [->|H|H]; symmetry.
  - destruct (Z.compare_spec (be_value a) (be_value b)); [apply Z.compare_eq_iff|apply Z.compare_lt_iff|apply Z.compare_gt_iff]; nia.
  - apply Z.compare_lt_iff. nia.
  - apply Z.compare_gt_iff. nia.
Qed.

Lemma byte_log2 b : is_byte b -> b <> 0 -> 0 <= Z.log2 b < 8 /\ 2 ^ Z.log2 b <= b < 2 ^ (Z.log2 b + 1).
Proof.
  unfold is_byte, is_u, umax. intros Hb Hz. pose proof (Z.log2_spec b ltac:(lia)) as Hl. pose proof (Z.log2_nonneg b).
  split; [split; [done|apply Z.log2_lt_pow2; lia]|]. by rewrite Z.add_1_r.
Qed.

Lemma leading_zeros_nonneg l : Forall is_byte l -> 0 <= leading_zero_bits l.
Proof.
  induction 1 as [|b l Hb _ IH]; cbn [leading_zero_bits]; [lia|]. destruct (Z.eqb_spec b 0) as [|Hz]; [lia|].
  unfold u8_leading_zeros. rewrite (proj2 (Z.eqb_neq b 0)) by done. destruct (byte_log2 b Hb Hz). lia.
Qed.

(** Leading zero bits bound the value, exactly. *)
Lemma leading_zeros_value l n : Forall is_byte l -> 0 <= n <= 8 * Z.of_nat (length l) ->
  n <= leading_zero_bits l <-> be_value l < 2 ^ (8 * Z.of_nat (length l) - n).
Proof.
  intros Hl. revert n. induction Hl as [|b l Hb Hl IH]; intros n Hn; cbn [length leading_zero_bits] in *.
  { replace n with 0 by lia. cbn. lia. }
  change (b :: l) with ([b] ++ l). rewrite be_value_app. change (be_value [b]) with (b + 256 * 0).
  pose proof (be_value_range l Hl) as Rl. pose proof (leading_zeros_nonneg l Hl). unfold is_u, umax in Rl.
  set (L := 8 * Z.of_nat (length l)) in *.
  replace (8 * Z.of_nat (S (length l))) with (L + 8) in * by lia. assert (0 < 2 ^ L) by (apply Z.pow_pos_nonneg; lia).
  destruct (Z.eqb_spec b 0) as [->|Hz].
  - destruct (Z.le_gt_cases n 8) as [Hs|Hs].
    + split; [intros _|lia]. assert (2 ^ L <= 2 ^ (L + 8 - n)) by (apply Z.pow_le_mono_r; lia). lia.
    + specialize (IH (n - 8) ltac:(lia)). replace (L + 8 - n) with (L - (n - 8)) by lia. lia.
  - unfold u8_leading_zeros. rewrite (proj2 (Z.eqb_neq b 0)) by done. destruct (byte_log2 b Hb Hz) as [Hk Hp].
    set (k := Z.log2 b) in *. assert (2 ^ (L + (k + 1)) = 2 ^ L * 2 ^ (k + 1)) by (apply Z.pow_add_r; lia).
    assert (2 ^ (L + k) = 2 ^ L * 2 ^ k) by (apply Z.pow_add_r; lia). split; intros Hlt.
    + assert (2 ^ (L + (k + 1)) <= 2 ^ (L + 8 - n)) by (apply Z.pow_le_mono_r; lia). nia.
    + destruct (Z.le_gt_cases n (7 - k)) as [|Hgt]; [done|].
      assert (2 ^ (L + 8 - n) <= 2 ^ (L + k)) by (apply Z.pow_le_mono_r; lia). nia.
Qed.

Lemma be_value_zeros k : be_value (replicate k 0) = 0.
Proof. induction k as [|k IH]; [done|]. rewrite replicate_S_end, be_value_snoc, IH. done. Qed.

(** The compact target's value. *)
Lemma target_of_Some bits target : is_u 32 bits -> target_of bits = Some target ->
  length target = 32%nat /\ Forall is_byte target /\
  be_value target = bits mod 2 ^ 24 * 2 ^ (8 * (bits / 2 ^ 24 - 3)).
Proof.
  intros Hb. unfold target_of. rewrite Z.shiftr_div_pow2 by lia. change 16777215 with (Z.ones 24). rewrite Z.land_ones by lia.
  set (e := bits / 2 ^ 24). set (m := bits mod 2 ^ 24).
  destruct (negb _ || _ || negb _) eqn:E; [done|]. intros <-%(inj Some).
  apply orb_false_elim in E as [_ E]. apply negb_false_iff, andb_prop in E as [E1%Z.leb_le E2%Z.leb_le].
  assert (0 <= m < 2 ^ 24) as Hm by (apply Z.mod_pos_bound; lia).
  assert (be_bytes 4 m = [0] ++ drop 1 (be_bytes 4 m)) as Eb.
  { assert (m / 256 / 256 / 256 = 0) as E0.
    { rewrite !Z.div_div by lia. apply Z.div_small. change (2 ^ 24) with (256 * 256 * 256) in Hm. lia. }
    unfold be_bytes. cbn [le_bytes rev app drop]. rewrite E0. done. }
  pose proof (be_bytes_bytes 4 m) as Bb. rewrite Eb in Bb. apply list.Forall_app in Bb as [_ Bb].
  assert (length (drop 1 (be_bytes 4 m)) = 3%nat) as Ld by (rewrite length_drop, length_be_bytes; done).
  assert (forall k, Forall is_byte (replicate k 0)) as Zb by (intros k; apply Forall_replicate; by_compute).
  split_and!.
  - rewrite !length_app, !length_replicate, Ld. lia.
  - rewrite !list.Forall_app. by split_and!.
  - rewrite !be_value_app, !be_value_zeros, !length_replicate. rewrite Z.mul_0_l, Z.add_0_l, Z.add_0_r.
    pose proof (be_value_be_bytes 4 m) as Ev. rewrite Eb, be_value_app in Ev. change (be_value [0]) with 0 in Ev.
    rewrite Z.mul_0_l, Z.add_0_l in Ev. rewrite Ev by (unfold is_u, umax; change (8 * Z.of_nat 4) with 32; change (2 ^ 24) with 16777216 in *; lia).
    do 2 f_equal. lia.
Qed.

(** ** What a proof shows *)

(** The messages of the nodes, root first. *)
Fixpoint messages (t : Timestamp) : list (list Z) :=
  let '(mkTimestamp m _ ops) := t in
  m :: (fix go (l : list (Op * Timestamp)) : list (list Z) :=
          match l with [] => [] | (_, child) :: l' => messages child ++ go l' end) ops.

(** The longest path, in nodes. *)
Fixpoint node_depth (t : Timestamp) : nat :=
  let '(mkTimestamp _ _ ops) := t in
  S ((fix go (l : list (Op * Timestamp)) : nat :=
        match l with [] => 0%nat | (_, child) :: l' => Nat.max (node_depth child) (go l') end) ops).

Lemma messages_eq m a o : messages (mkTimestamp m a o) = m :: flat_map (fun b => messages (snd b)) o.
Proof. cbn [messages]. f_equal. induction o as [|[op c] o IH]; [done|]. cbn [flat_map snd]. by rewrite <- IH. Qed.

Lemma collect_eq m a o : collect (mkTimestamp m a o) =
  map (pair m) a ++ flat_map (fun b => if opaque (fst b) then [] else collect (snd b)) o.
Proof. cbn [collect]. f_equal. induction o as [|[op c] o IH]; [done|]. cbn [flat_map fst snd]. by rewrite <- IH. Qed.

Section evidence.
Context {HF : HashFunctions} {RM : Ripemd}.

(** A chain of evaluated operations. *)
Fixpoint run_path (path : list Op) (m : list Z) : option (list Z) :=
  match path with [] => Some m | op :: path' => m' ← apply_op op m; run_path path' m' end.

Lemma next_msg_apply op m m' : opaque op = false -> next_msg op m = Ok m' -> apply_op op m = Some m'.
Proof. unfold next_msg. intros ->. destruct (apply_op op m); cbn; [by intros [= ->]|done]. Qed.

Lemma next_msg_bound op m m' : next_msg op m = Ok m' -> Z.of_nat (length m') <= MAX_MSG.
Proof.
  unfold next_msg. destruct (opaque op) eqn:E; [intros [= <-]; by_compute|]. unfold apply_op.
  destruct op; cbn [mbind option_bind]; try done;
    (destruct (_ <=? MAX_MSG) eqn:L; cbn [ok_or]; [intros [= <-]; by apply Z.leb_le in L|done]).
Qed.

Lemma wf_more full n : forall t, wf full n t -> wf full (S n) t.
Proof.
  induction n as [|n IH]; intros t; [done|]. intros [Hne [H1 H2 H3 H4 H5 H6]]. split; [done|]. split; try done.
  eapply List.Forall_impl; [|exact H6]. intros b (? & ? & ?). split_and!; [done|done|by apply IH].
Qed.

Lemma wf_le full n k t : (n <= k)%nat -> wf full n t -> wf full k t.
Proof. induction 1; [done|]. intros. by apply wf_more, IHle. Qed.

Lemma wf_open n : forall t, wf true n t -> wf false n t.
Proof.
  induction n as [|n IH]; intros t; [done|]. intros [Hne [H1 H2 H3 H4 H5 H6]]. split; [done|]. split; try done.
  eapply List.Forall_impl; [|exact H6]. intros b (? & ? & ?). split_and!; [done|done|by apply IH].
Qed.

(** Every attestation collected attests to a message computed from the root's. *)
Lemma collect_sound full n : forall t m a, wf full n t -> (m, a) ∈ collect t ->
  exists path, Forall (fun op => opaque op = false) path /\ run_path path (ts_msg t) = Some m.
Proof.
  induction n as [|n IH]; intros [m0 a0 o] m a Hw; [done|]. destruct Hw as [_ H]. rewrite collect_eq.
  intros [Hin|Hin]%elem_of_app.
  - apply list_elem_of_fmap in Hin as (x & [= <- <-] & _). by exists [].
  - apply list_elem_of_In, in_flat_map in Hin as ([op c] & Hb%list_elem_of_In & Hin%list_elem_of_In). cbn [fst snd] in *.
    destruct (opaque op) eqn:Eo; [set_solver|]. pose proof (no_ops_ok _ _ H) as F. rewrite list.Forall_forall in F.
    destruct (F _ Hb) as (_ & Fm & Fw). cbn [fst snd ts_msg] in *. destruct (IH c m a Fw Hin) as (path & Hp & Hr).
    exists (op :: path). split; [by apply list.Forall_cons|]. cbn [run_path ts_msg].
    by rewrite (next_msg_apply op m0 (ts_msg c)).
Qed.

(** The order of the branches is that of their operations. *)
Lemma in_order_keys o o' : map fst o' = map fst o -> in_order branch_cmp o -> in_order branch_cmp o'.
Proof.
  intros K H. revert o' K. induction H as [|x l Hl IHl Hx]; intros [|y o'] K; try done; [constructor|].
  injection K as K1 K2. constructor; [by apply IHl|]. destruct Hx as [|z l Hz], o' as [|u o']; try done; constructor.
  injection K2 as K2 _. unfold branch_cmp in *. by rewrite K1, K2.
Qed.

(** Merging an upgrade at a node keeps the proof canonical. *)
Lemma update_found_ok k f c : (forall node n, wf false n node -> ts_msg node = c ->
    wf false (n + k) (f node) /\ ts_msg (f node) = ts_msg node) ->
  forall n t t', wf false n t -> update_found c f t = Some t' -> wf false (n + k) t' /\ ts_msg t' = ts_msg t.
Proof.
  intros Hf. induction n as [|n IH]; intros [m a o] t' Hw; [done|]. cbn [update_found].
  case_bool_decide as Em; [intros [= <-]; by apply Hf|].
  destruct Hw as [_ [H1 H2 H3 H4 H5 H6]]. cbn [ts_msg ts_attestations ts_ops] in *.
  match goal with |- (?x ≫= _) = Some _ -> _ => destruct x as [o'|] eqn:E; cbn [mbind option_bind]; [|done] end. intros [= <-].
  assert (map fst o' = map fst o /\ Forall (fun b => op_ok (fst b) /\ next_msg (fst b) m = Ok (ts_msg (snd b)) /\ wf false (n + k) (snd b)) o') as [K1 K2].
  { revert o' E. clear H4 H5 Em. induction o as [|[op x] o IHo]; intros o' E; [done|].
    apply list.Forall_cons in H6 as [(G1 & G2 & G3) H6]. cbn [fst snd] in *.
    assert (Forall (fun b => op_ok (fst b) /\ next_msg (fst b) m = Ok (ts_msg (snd b)) /\ wf false (n + k) (snd b)) o) as Ho.
    { eapply List.Forall_impl; [|exact H6]. intros b (? & ? & ?). split_and!; [done|done|]. eapply wf_le; [|done]. lia. }
    destruct (update_found c f x) as [x'|] eqn:Ex.
    - injection E as <-. destruct (IH x x' G3 Ex) as [W M]. cbn [map fst]. split; [done|].
      apply list.Forall_cons. cbn [fst snd]. rewrite M. by split_and!.
    - match type of E with (?y ≫= _) = _ => destruct y as [o''|] eqn:Eo; cbn [mbind option_bind] in E; [|done] end. injection E as <-.
      destruct (IHo H6 o'' eq_refl) as [L1 L2]. cbn [map fst]. rewrite L1. split; [done|]. apply list.Forall_cons. cbn [fst snd].
      split; [|done]. split_and!; [done|done|]. eapply wf_le; [|done]. lia. }
  split; [|done]. cbn [wf Nat.add]. split; [done|]. split; cbn [ts_msg ts_attestations ts_ops]; try done; [|by rewrite K1].
  by eapply in_order_keys.
Qed.

Lemma merge_response_ok c body d n : wf false n (dt_timestamp d) ->
  wf false (n + 256) (dt_timestamp (snd (merge_calendar_response c body d))) /\
  ts_msg (dt_timestamp (snd (merge_calendar_response c body d))) = ts_msg (dt_timestamp d).
Proof.
  intros Hw. unfold merge_calendar_response.
  destruct (deserialize body c) as [up|e] eqn:E; [|split; [eapply wf_le; [|done]; lia|done]].
  unfold deserialize in E. apply bind_Ok in E as (u & _ & ([t r] & Hr & (u' & _ & [= <-])%bind_Ok)%bind_Ok).
  apply read_wf in Hr as [Wu Mu]. destruct (update_found _ _ _) as [t'|] eqn:Eu; cbn [snd];
    [|split; [eapply wf_le; [|done]; lia|done]].
  eapply update_found_ok; [|done|done]. intros node k Wn Mn. rewrite Nat.add_comm.
  apply merge_ok; [eapply wf_le; [|done]; lia| |congruence]. eapply wf_le; [|by apply wf_open]. unfold MAX_DEPTH. lia.
Qed.
End evidence.

(** ** What merging records

    [merge] collects the attestations of both proofs, no more and no fewer,
    and an upgrade found at a node adds exactly its own. *)

Lemma collect_elem m a o p : p ∈ collect (mkTimestamp m a o) <->
  (fst p = m /\ snd p ∈ a) \/ exists op c, (op, c) ∈ o /\ opaque op = false /\ p ∈ collect c.
Proof.
  rewrite collect_eq, elem_of_app, list_elem_of_fmap, (list_elem_of_In (flat_map _ _)), in_flat_map. split.
  - intros [(x & -> & Hx)|([op c] & Hin%list_elem_of_In & Hp%list_elem_of_In)]; [by left|right]. cbn [fst snd] in Hp.
    exists op, c. destruct (opaque op); [set_solver|done].
  - intros [[<- Hx]|(op & c & Hin & Ho & Hp)]; [left|right].
    + exists (snd p). by destruct p.
    + exists (op, c). cbn [fst snd]. rewrite Ho. split; by apply list_elem_of_In.
Qed.

Lemma collect_canonicalize t p : p ∈ collect (canonicalize t) <-> p ∈ collect t.
Proof. destruct t as [m a o]. cbn [canonicalize]. rewrite !collect_elem. by setoid_rewrite stable_sort_perm. Qed.

Lemma add_attestations_elem l x : forall a, x ∈ fold_left add_attestation l a <-> x ∈ a \/ x ∈ l.
Proof.
  induction l as [|y l IH]; intros a; cbn [fold_left]; [set_solver|]. rewrite IH. unfold add_attestation.
  case_bool_decide; set_solver.
Qed.

Section merging.
Context {HF : HashFunctions} {RM : Ripemd}.

(** A branch added, or merged into the one there is. *)
Lemma collect_add_op_with full n f op c t p : node_pre (wf full n) t -> next_msg op (ts_msg t) = Ok (ts_msg c) ->
  (forall ex, wf full n ex -> ts_msg ex = ts_msg c -> p ∈ collect (f ex) <-> p ∈ collect ex \/ p ∈ collect c) ->
  p ∈ collect (add_op_with f op c t) <-> p ∈ collect t \/ (opaque op = false /\ p ∈ collect c).
Proof.
  intros [_ _ _ Hk] Hm Hf. destruct t as [m a o]. cbn [add_op_with ts_msg ts_ops] in *. rewrite collect_canonicalize, !collect_elem.
  destruct (update_branch op f o) as [o'|] eqn:E; cbn [default]; unfold id.
  - apply update_branch_Some in E as (l1 & ex & l2 & -> & ->). apply list.Forall_app in Hk as [_ Hk].
    apply list.Forall_cons in Hk as [(_ & Hn & Hw) _]. cbn [fst snd] in *. specialize (Hf ex Hw ltac:(congruence)). split.
    + intros [H|(op' & c' & [Hin|[[= -> ->]|Hin]%elem_of_cons]%elem_of_app & Ho & Hp)]; [by left; left| | |].
      * left; right. exists op', c'. set_solver.
      * apply Hf in Hp as [Hp|Hp]; [left; right; exists op, ex; set_solver|by right].
      * left; right. exists op', c'. set_solver.
    + intros [[H|(op' & c' & [Hin|[[= -> ->]|Hin]%elem_of_cons]%elem_of_app & Ho & Hp)]|[Ho Hp]]; [by left|right..].
      * exists op', c'. set_solver.
      * exists op, (f ex). split_and!; [set_solver|done|]. apply Hf. by left.
      * exists op', c'. set_solver.
      * exists op, (f ex). split_and!; [set_solver|done|]. apply Hf. by right.
  - setoid_rewrite elem_of_app. setoid_rewrite list_elem_of_singleton. split.
    + intros [H|(op' & c' & [Hin|[= -> ->]] & Ho & Hp)]; [by left; left|left; right; by exists op', c'|by right].
    + intros [[H|(op' & c' & Hin & Ho & Hp)]|[Ho Hp]]; [by left|right; exists op', c'; by split_and!; [left|..]|right].
      exists op, c. split_and!; [by right|done|done].
Qed.

Lemma collect_merge full n : forall a b p, wf full n a -> wf full n b -> ts_msg a = ts_msg b ->
  p ∈ collect (merge a b) <-> p ∈ collect a \/ p ∈ collect b.
Proof.
  induction n as [|n IH]; intros [m a o] [m' a' o'] p Wa Wb; [done|]. destruct Wa as [_ Ha], Wb as [_ Hb]. cbn [ts_msg]. intros <-.
  rewrite merge_eq, collect_canonicalize.
  enough (forall l t, node_pre (wf full n) t -> ts_msg t = m ->
    Forall (fun b => op_ok (fst b) /\ next_msg (fst b) m = Ok (ts_msg (snd b)) /\ wf full n (snd b)) l ->
    p ∈ collect (fold_left (fun t b => add_op (fst b) (snd b) t) l t) <->
    p ∈ collect t \/ exists op c, (op, c) ∈ l /\ opaque op = false /\ p ∈ collect c) as Hgo.
  { pose proof (node_ok_pre _ _ Ha) as [A1 A2 A3 A4]. pose proof (node_ok_pre _ _ Hb) as [B1 B2 B3 B4]. cbn [ts_attestations ts_ops ts_msg] in *.
    rewrite (Hgo o' (mkTimestamp m (fold_left add_attestation a' a) o)); [|split; cbn [ts_attestations ts_ops ts_msg]|done|done].
    - rewrite !collect_elem, add_attestations_elem. tauto.
    - by apply add_attestations_ok.
    - by apply add_attestations_ok.
    - done.
    - done. }
  clear Ha Hb. induction l as [|[op c] l IHl]; intros t Ht Hm Hl; cbn [fold_left].
  { split; [by left|]. intros [H|(op & c & H & _)]; [done|set_solver]. }
  apply list.Forall_cons in Hl as [(L1 & L2 & L3) Hl]. cbn [fst snd] in *. rewrite <- Hm in L2.
  destruct (add_op_with_ok (wf full n) (fun ex => merge ex c) op c t Ht L1 L2 L3) as (K1 & K2 & _).
  { intros ex We Me. by apply merge_ok. }
  rewrite IHl; [|by apply node_ok_pre|by etransitivity|done]. unfold add_op.
  rewrite (collect_add_op_with full n); [|done|done|intros ex We Me; by apply IH].
  split; [intros [[H|[H1 H2]]|(op' & c' & Hin & H1 & H2)]|intros [H|(op' & c' & [[= -> ->]|Hin]%elem_of_cons & H1 & H2)]].
  all: first [by left; left|by left; right|by left|right; eexists _, _; split_and!; [|done|done]; set_solver].
Qed.

(** *** Upgrades *)

(** Every operation of the proof is evaluated. *)
Fixpoint transparent (t : Timestamp) : bool :=
  let '(mkTimestamp _ _ ops) := t in
  (fix go (l : list (Op * Timestamp)) : bool :=
     match l with [] => true | (op, child) :: l' => negb (opaque op) && transparent child && go l' end) ops.

Lemma transparent_eq m a o : transparent (mkTimestamp m a o) = forallb (fun b => negb (opaque (fst b)) && transparent (snd b)) o.
Proof. cbn [transparent]. induction o as [|[op c] o IH]; [done|]. cbn [forallb fst snd]. by rewrite <- IH. Qed.

(** Where [update_found] changes the proof: at the node, or in one branch. *)
Lemma update_found_Some msg f m a o t' : update_found msg f (mkTimestamp m a o) = Some t' ->
  (m = msg /\ t' = f (mkTimestamp m a o)) \/
  exists l1 op x x' l2, o = l1 ++ (op, x) :: l2 /\ update_found msg f x = Some x' /\ t' = mkTimestamp m a (l1 ++ (op, x') :: l2).
Proof.
  cbn [update_found]. case_bool_decide as Em; [by intros [= <-]; left|]. intros (o' & Ho & [= <-])%bind_Some. right.
  revert o' Ho. induction o as [|[op x] o IH]; intros o' Ho; [done|].
  destruct (update_found msg f x) as [x'|] eqn:Ex.
  - injection Ho as <-. by exists [], op, x, x', o.
  - apply bind_Some in Ho as (o'' & Ho & [= <-]). destruct (IH o'' Ho) as (l1 & op1 & y & y' & l2 & -> & Ey & [= ->]).
    by exists ((op, x) :: l1), op1, y, y', l2.
Qed.

Lemma update_found_None msg f n : forall t, wf false n t -> update_found msg f t = None -> msg ∉ messages t.
Proof.
  induction n as [|n IH]; intros [m a o] Hw; [done|]. destruct Hw as [_ H]. pose proof (no_ops_ok _ _ H) as F. cbn [ts_ops ts_msg] in F. clear H.
  cbn [update_found]. case_bool_decide as Em; [done|]. rewrite messages_eq. intros Hn Hin. apply elem_of_cons in Hin as [->|Hin]; [done|].
  apply bind_None in Hn as [Hn|(? & _ & [=])]. induction F as [|[op x] o (_ & _ & Hx) _ IHo]; cbn [flat_map snd] in *; [set_solver|].
  destruct (update_found msg f x) eqn:Ex; [done|]. apply bind_None in Hn as [Hn|(? & _ & [=])].
  apply elem_of_app in Hin as [Hin|Hin]; [by eapply IH|by apply IHo].
Qed.

(** What the change at the node adds is what the proof gains. *)
Lemma collect_update msg f (p : list Z * Attestation) (U : Prop) :
  (forall node n, wf false n node -> ts_msg node = msg -> p ∈ collect (f node) <-> p ∈ collect node \/ U) ->
  forall n t t', wf false n t -> update_found msg f t = Some t' ->
  (p ∈ collect t -> p ∈ collect t') /\ (p ∈ collect t' -> p ∈ collect t \/ U) /\ (transparent t = true -> U -> p ∈ collect t').
Proof.
  intros Hf. induction n as [|n IH]; intros [m a o] t' Hw; [done|].
  intros [[<- ->]|(l1 & op & x & x' & l2 & -> & Ex & ->)]%update_found_Some.
  { specialize (Hf _ _ Hw eq_refl). tauto. }
  destruct Hw as [_ H]. pose proof (no_ops_ok _ _ H) as F. cbn [ts_ops] in F. apply list.Forall_app in F as [_ F].
  apply list.Forall_cons in F as [(_ & _ & Hx) _]. cbn [snd] in Hx. destruct (IH x x' Hx Ex) as (I1 & I2 & I3).
  rewrite !collect_elem, transparent_eq. split_and!.
  - intros [H1|(op' & c & [Hin|[[= -> ->]|Hin]%elem_of_cons]%elem_of_app & Ho & Hp)]; [by left|right..].
    + exists op', c. set_solver.
    + exists op, x'. split_and!; [set_solver|done|auto].
    + exists op', c. set_solver.
  - intros [H1|(op' & c & [Hin|[[= -> ->]|Hin]%elem_of_cons]%elem_of_app & Ho & Hp)]; [by left; left| | |].
    + left; right. exists op', c. set_solver.
    + destruct (I2 Hp) as [Hp'|]; [left; right; exists op, x; set_solver|by right].
    + left; right. exists op', c. set_solver.
  - intros Ht Hu. rewrite forallb_app in Ht. apply andb_prop in Ht as [_ Ht]. cbn [forallb fst snd] in Ht.
    apply andb_prop in Ht as [[To Tx]%andb_prop _]. right. exists op, x'. split_and!; [set_solver|by apply negb_true_iff|auto].
Qed.
End merging.
