(* ===== verification/OtsEvidence.v ===== *)
(** * OpenTimestamps proofs: the theorems

    Every accepted file, written out, is accepted as the same proof; reading
    terminates and is bounded; and a proof that verifies against a header is a
    chain of evaluated operations from the digest to the header's Merkle
    root, whatever submissions and calendar responses built it. *)

From Stdlib Require Import String.
From S2P Require Import Prelude Bytes Text Wal WalSample Ots OtsCanonical OtsProps.
#[local] Open Scope Z_scope.

(** ** Bounds on a canonical proof *)

Lemma list_sum_member x l : x ∈ l -> (x <= list_sum l)%nat.
Proof. induction 1 as [x l|x y l _ IH]; cbn [list_sum foldr] in *; unfold list_sum in *; cbn [foldr]; lia. Qed.

Section bounds.
Context {HF : HashFunctions} {RM : Ripemd}.

Lemma node_depth_eq m a o : node_depth (mkTimestamp m a o) = S (foldr Nat.max 0%nat (map (fun b => node_depth (snd b)) o)).
Proof. cbn [node_depth]. f_equal. induction o as [|[op c] o IH]; [done|]. cbn [map foldr snd]. by rewrite <- IH. Qed.

Lemma wf_depth full n : forall t, wf full n t -> (node_depth t <= n)%nat.
Proof.
  induction n as [|n IH]; intros [m a o]; [done|]. intros [_ H]. rewrite node_depth_eq. apply le_n_S.
  pose proof (no_ops_ok _ _ H) as F. cbn [ts_ops] in F. clear H. induction F as [|b o' (_ & _ & Hb) _ IHo]; cbn [map foldr]; [lia|].
  specialize (IH _ Hb). lia.
Qed.

Lemma wf_messages full n : forall t, wf full n t -> Z.of_nat (length (ts_msg t)) <= MAX_MSG ->
  Forall (fun m => Z.of_nat (length m) <= MAX_MSG) (messages t).
Proof.
  induction n as [|n IH]; intros [m a o]; [done|]. intros [_ H] Hm. rewrite messages_eq. apply list.Forall_cons. split; [done|].
  pose proof (no_ops_ok _ _ H) as F. cbn [ts_ops ts_msg] in F. clear H Hm.
  induction F as [|b o' (_ & Hn & Hb) _ IHo]; cbn [flat_map]; [done|]. apply list.Forall_app. split; [|done].
  apply IH; [done|]. by eapply next_msg_bound.
Qed.

(** A proof with an attestation at the end of every branch has at most as
    many nodes as it has bytes. *)
Lemma wf_count n : forall t, wf true n t -> (length (messages t) <= length (write t))%nat.
Proof.
  induction n as [|n IH]; intros [m a o]; [done|]. intros [Hne H]. specialize (Hne eq_refl).
  pose proof (write_weight _ Hne) as W. rewrite messages_eq. cbn [length].
  unfold weight in W. cbn [ts_attestations ts_ops] in *.
  assert (length (flat_map (fun b => messages (snd b)) o) + 2 * length o
    <= list_sum (map (fun b => S (length (op_item b))) o))%nat as Ho.
  { pose proof (no_ops_ok _ _ H) as F. cbn [ts_ops] in F. clear -F IH.
    induction F as [|[op c] o' (_ & _ & Hc) _ IHo]; [done|]. specialize (IH _ Hc). unfold list_sum in *. cbn [snd] in IH.
    cbn [flat_map map foldr length snd]. unfold op_item at 1. cbn [fst snd]. rewrite !length_app.
    assert (1 <= length (write_op op))%nat by (destruct op; cbn; lia). lia. }
  assert (a = [] \/ (2 <= list_sum (map (fun x => S (length (att_item x))) a))%nat) as [->|Ha].
  { destruct a as [|x a]; [by left|right]. unfold list_sum. cbn [map foldr att_item length]. lia. }
  - destruct Hne as [|Hn]; [done|]. destruct o as [|b o]; [done|]. cbn [length] in Ho. lia.
  - lia.
Qed.

(** ** Reading consumes its input *)

Lemma read_item_shrinks n tag node r node' r' :
  read_item (read n) tag node r = Ok (node', r') -> (length r' <= length r)%nat.
Proof.
  unfold read_item. destruct (tag =? TAG_ATTESTATION).
  - intros ([a r1] & Ha%attestation_length & [= <- <-])%bind_Ok. lia.
  - intros ([op r1] & Ho%read_op_length & (next & _ & ([c r2] & Hc%read_size & [= <- <-])%bind_Ok)%bind_Ok)%bind_Ok.
    assert (1 <= length (write_op op))%nat by (destruct op; cbn; lia). lia.
Qed.

Lemma read_loop_fuel n : forall fuel fuel' node r, (length r < fuel)%nat -> (length r < fuel')%nat ->
  read_loop (read n) fuel node r = read_loop (read n) fuel' node r.
Proof.
  induction fuel as [|fuel IH]; intros [|fuel'] node r H1 H2; [lia..|]. cbn [read_loop].
  destruct r as [|b r]; [done|]. cbn [byte mbind result_bind length] in *.
  destruct (if b =? TAG_FORK then byte r else Ok (b, r)) as [[tag r1]|e] eqn:E; [|done]. cbn [mbind result_bind].
  assert (length r1 <= length r)%nat as L.
  { destruct (b =? TAG_FORK); [|by injection E as <- <-]. destruct r; [done|]. injection E as <- <-. cbn [length]. lia. }
  destruct (read_item (read n) tag node r1) as [[node1 r2]|e] eqn:Ei; [|done]. cbn [mbind result_bind].
  apply read_item_shrinks in Ei. destruct (b =? TAG_FORK); [|done]. apply IH; lia.
Qed.
End bounds.

(** ** Files *)

Section files.
Context {HF : HashFunctions} {RM : Ripemd}.

Lemma parse_Ok bytes d : DetachedTimestamp_parse bytes = Ok d ->
  wf true MAX_DEPTH (dt_timestamp d) /\ length (ts_msg (dt_timestamp d)) = 32%nat /\
  (length (DetachedTimestamp_serialize d) <= length bytes)%nat /\ Z.of_nat (length bytes) <= MAX_PROOF_BYTES.
Proof.
  unfold DetachedTimestamp_parse. intros (u & Hu & (rest & Hr & ([v r1] & Hv & (u1 & Hu1 & ([h r2] & Hh & (u2 & Hu2 &
    ([digest r3] & Hd & ([t r4] & Ht & (u3 & Hu3 & [= <-])%bind_Ok)%bind_Ok)%bind_Ok)%bind_Ok)%bind_Ok)%bind_Ok)%bind_Ok)%bind_Ok)%bind_Ok.
  apply refuse_if_Ok, Z.ltb_ge in Hu. destruct (strip_prefix MAGIC bytes) as [x|] eqn:E; [|done]. injection Hr as ->.
  apply strip_prefix_Some in E as ->. apply varuint_length in Hv. apply byte_Ok in Hh.
  apply take_bytes_Ok in Hd as [-> Hl]; [|lia]. destruct (read_wf _ _ _ _ _ Ht) as [Wt Mt]. apply read_size in Ht.
  pose proof (write_varuint_nonempty v). unfold DetachedTimestamp_serialize. cbn [dt_timestamp]. rewrite Mt.
  rewrite !length_app in *. cbn [length]. split_and!; [done|lia| |done]. lia.
Qed.

Lemma parse_serialize d : wf true MAX_DEPTH (dt_timestamp d) -> length (ts_msg (dt_timestamp d)) = 32%nat ->
  Z.of_nat (length (DetachedTimestamp_serialize d)) <= MAX_PROOF_BYTES ->
  DetachedTimestamp_parse (DetachedTimestamp_serialize d) = Ok d.
Proof.
  destruct d as [t]. cbn [dt_timestamp]. intros Hw Hl Hs. unfold DetachedTimestamp_parse.
  rewrite (proj2 (Z.ltb_ge _ _)) by done. cbn [refuse_if mbind result_bind].
  unfold DetachedTimestamp_serialize. cbn [dt_timestamp]. rewrite (proj2 (strip_prefix_Some _ _ _) eq_refl).
  cbn [ok_or mbind result_bind]. change [MAJOR_VERSION] with (write_varuint 10 1). rewrite varuint_write by by_compute.
  cbn [mbind result_bind app byte]. change (negb (1 =? MAJOR_VERSION)) with false. change (negb (TAG_SHA256 =? TAG_SHA256)) with false.
  cbn [refuse_if mbind result_bind]. change 32 with (Z.of_nat 32). rewrite <- Hl, take_bytes_app. cbn [mbind result_bind].
  rewrite <- (app_nil_r (write t)), read_write by done. done.
Qed.

(** Claim C36: A parsed proof, written and read again, is the same proof, and the file
    is not longer: the writer drops padding of the integers and duplicates. *)
Theorem ots_file_roundtrip bytes d : DetachedTimestamp_parse bytes = Ok d ->
  DetachedTimestamp_parse (DetachedTimestamp_serialize d) = Ok d /\
  (length (DetachedTimestamp_serialize d) <= length bytes)%nat.
Proof. intros (Hw & Hl & Hs & Hm)%parse_Ok. split; [|done]. apply parse_serialize; [done|done|lia]. Qed.

(** Claim C37: The fork loop of [Timestamp::read] ends on every input: its result no
    longer changes once it may take one round per remaining byte, which is the
    bound [read] gives it at every depth. *)
Theorem ots_reader_terminates n fuel node r : (length r < fuel)%nat ->
  read_loop (read n) fuel node r = read_loop (read n) (S (length r)) node r.
Proof. intros H. apply read_loop_fuel; lia. Qed.

(** Claim C35: What a parsed file can make the reader hold: at most 256 nodes on a path,
    no message over 4096 bytes, fewer nodes than the file has bytes, and a
    digest of 32 bytes, so that [digest] does not panic. *)
Theorem parsed_proof_bounded bytes d : DetachedTimestamp_parse bytes = Ok d ->
  (node_depth (dt_timestamp d) <= MAX_DEPTH)%nat /\
  Forall (fun m => Z.of_nat (length m) <= MAX_MSG) (messages (dt_timestamp d)) /\
  (length (messages (dt_timestamp d)) < length bytes)%nat /\
  Z.of_nat (length bytes) <= MAX_PROOF_BYTES /\
  DetachedTimestamp_digest d = Some (ts_msg (dt_timestamp d)).
Proof.
  intros (Hw & Hl & Hs & Hm)%parse_Ok. split_and!; [by eapply wf_depth| | |done|].
  - eapply wf_messages; [done|]. rewrite Hl. by_compute.
  - apply wf_count in Hw. unfold DetachedTimestamp_serialize in Hs. rewrite !length_app in Hs. cbn [length] in Hs. lia.
  - unfold DetachedTimestamp_digest, array32. by rewrite Hl.
Qed.
End files.

(** ** Submissions *)

Lemma find_branch_Some op t c : find_branch op t = Some c -> (op, c) ∈ ts_ops t.
Proof.
  unfold find_branch. intros ([o x] & H & ->)%fmap_Some. apply find_some in H as [Hin E%bool_decide_eq_true].
  cbn [fst snd] in *. subst o. by apply list_elem_of_In.
Qed.

Lemma find_branch_elem op t c : (op, c) ∈ ts_ops t -> exists c', find_branch op t = Some c'.
Proof.
  intros Hin%list_elem_of_In. unfold find_branch.
  destruct (List.find (fun b => bool_decide (fst b = op)) (ts_ops t)) as [b|] eqn:E; [by exists (snd b)|].
  apply (find_none _ _ E) in Hin. cbn [fst] in Hin. by apply bool_decide_eq_false in Hin.
Qed.

Section submissions.
Context {HF : HashFunctions} {RM : Ripemd}.

Lemma wf_new n m : wf false (S n) (Timestamp_new m).
Proof. split; [done|]. split; cbn; constructor. Qed.

Lemma branch_ok full n t op c : wf full (S n) t -> (op, c) ∈ ts_ops t ->
  op_ok op /\ next_msg op (ts_msg t) = Ok (ts_msg c) /\ wf full n c.
Proof. intros [_ H] Hin. pose proof (no_ops_ok _ _ H) as F. rewrite list.Forall_forall in F. exact (F _ Hin). Qed.

(** The branch [Timestamp::op] leaves: there, and with the operation's result. *)
Lemma ensure_op_ok n t op m' : wf false (S n) t -> op_ok op -> opaque op = false -> apply_op op (ts_msg t) = Some m' ->
  wf false (S (S n)) (ensure_op op t) /\ ts_msg (ensure_op op t) = ts_msg t /\
  exists c, find_branch op (ensure_op op t) = Some c /\ ts_msg c = m'.
Proof.
  intros Hw Ho Hq Ha. unfold ensure_op. destruct (find_branch op t) as [c|] eqn:E.
  - split_and!; [by apply wf_more|done|]. exists c. split; [done|]. apply find_branch_Some in E.
    destruct (branch_ok _ _ _ _ _ Hw E) as (_ & Hn & _). apply next_msg_apply in Hn; [|done]. congruence.
  - rewrite Ha. cbn [default]. unfold id. assert (node_pre (wf false (S n)) (mkTimestamp (ts_msg t) (ts_attestations t) (ts_ops t ++ [(op, Timestamp_new m')]))) as Hp.
    { apply wf_more in Hw. destruct Hw as [_ Hk]. apply node_ok_pre in Hk as [H1 H2 H3 H4].
      split; cbn [ts_msg ts_attestations ts_ops]; [done|done| |].
      - rewrite map_app. apply list.NoDup_app. split_and!; [done| |apply NoDup_singleton]. intros x Hx Hx'.
        cbn [map fst] in Hx'. apply list_elem_of_singleton in Hx'. subst x. apply list_elem_of_fmap in Hx as ([o c] & Eo & Hc).
        cbn [fst] in Eo. subst o.
        apply find_branch_elem in Hc as [c' Hc]. cbn [fst] in *. congruence.
      - apply list.Forall_app. split; [done|]. apply list.Forall_cons. split; [|done]. cbn [fst snd ts_msg Timestamp_new].
        split_and!; [done| |apply wf_new]. unfold next_msg. by rewrite Hq, Ha. }
    destruct (canonicalize_ok _ _ Hp) as (K1 & K2 & _).
    match type of K1 with node_ok _ ?x => assert (wf false (S (S n)) x) as Kw by done end. split_and!; [done|done|].
    destruct (find_branch_elem op (canonicalize (mkTimestamp (ts_msg t) (ts_attestations t) (ts_ops t ++ [(op, Timestamp_new m')]))) (Timestamp_new m')) as [c Hc].
    { cbn [canonicalize ts_ops]. rewrite stable_sort_perm. set_solver. }
    exists c. split; [done|]. apply find_branch_Some in Hc.
    destruct (branch_ok _ _ _ _ _ Kw Hc) as (_ & Hn & _). rewrite K2 in Hn. apply next_msg_apply in Hn; [|done].
    cbn [ts_msg] in Hn. congruence.
Qed.

Lemma find_update_branch op f o c : List.find (fun b => bool_decide (fst b = op)) o = Some (op, c) ->
  exists l1 l2, o = l1 ++ (op, c) :: l2 /\ update_branch op f o = Some (l1 ++ (op, f c) :: l2) /\
    List.find (fun b => bool_decide (fst b = op)) (l1 ++ (op, f c) :: l2) = Some (op, f c).
Proof.
  induction o as [|[x t] o IH]; cbn [List.find update_branch fst]; [done|]. case_bool_decide as E.
  - intros [= -> ->]. exists [], o. cbn [app List.find fst]. by rewrite bool_decide_true.
  - intros (l1 & l2 & -> & Eu & Ef)%IH. exists ((x, t) :: l1), l2. rewrite Eu. cbn [app mbind option_bind List.find fst].
    by rewrite bool_decide_false.
Qed.

(** A change of the branch at [op] that keeps its message. *)
Lemma at_op_ok n k f t op c : wf false (S n) t -> find_branch op t = Some c ->
  wf false (n + k) (f c) -> ts_msg (f c) = ts_msg c ->
  let t' := mkTimestamp (ts_msg t) (ts_attestations t) (default (ts_ops t) (update_branch op f (ts_ops t))) in
  wf false (S (n + k)) t' /\ find_branch op t' = Some (f c).
Proof.
  intros Hw Hf Wc Mc. destruct t as [m a o]. cbn [ts_msg ts_attestations ts_ops] in *. unfold find_branch in Hf. cbn [ts_ops] in Hf.
  apply fmap_Some in Hf as ([x c0] & Hf & ->). cbn [snd] in *. pose proof (find_some _ _ Hf) as [_ Ex%bool_decide_eq_true].
  cbn [fst] in Ex. subst x. destruct (find_update_branch op f o c0 Hf) as (l1 & l2 & -> & -> & Hf'). cbn [default]. unfold id.
  split; [|unfold find_branch; cbn [ts_ops]; by rewrite Hf']. destruct Hw as [_ [H1 H2 H3 H4 H5 H6]].
  cbn [ts_msg ts_attestations ts_ops] in *. assert (map fst (l1 ++ (op, f c0) :: l2) = map fst (l1 ++ (op, c0) :: l2)) as K by by rewrite !map_app.
  split; [done|]. split; cbn [ts_msg ts_attestations ts_ops]; try done; [by eapply in_order_keys|by rewrite K|].
  apply (List.Forall_impl (fun b => op_ok (fst b) /\ next_msg (fst b) m = Ok (ts_msg (snd b)) /\ wf false (n + k) (snd b))) in H6;
    [|intros b (? & ? & ?); split_and!; [done|done|]; eapply wf_le; [|done]; lia].
  apply list.Forall_app in H6 as [F1 F2]. apply list.Forall_cons in F2 as [(G1 & G2 & _) F2]. cbn [fst snd] in *.
  apply list.Forall_app. split; [done|]. apply list.Forall_cons. cbn [fst snd]. rewrite Mc. by split_and!.
Qed.

Lemma prepare_ok n nonce d : wf false (S n) (dt_timestamp d) -> length (ts_msg (dt_timestamp d)) = 32%nat -> length nonce = 16%nat ->
  wf false (S (S (S n))) (dt_timestamp (snd (prepare_submission nonce d))) /\
  ts_msg (dt_timestamp (snd (prepare_submission nonce d))) = ts_msg (dt_timestamp d) /\
  fst (prepare_submission nonce d) = Some (sha256 (ts_msg (dt_timestamp d) ++ nonce)).
Proof.
  intros Hw Hl Hn. unfold prepare_submission. cbn [fst snd dt_timestamp]. set (t := dt_timestamp d) in *. unfold at_op.
  assert (forall x : list Z, length x = 48%nat \/ length x = 32%nat -> Z.of_nat (length x) <=? MAX_MSG = true) as Hx
    by (intros x [-> | ->]; by_compute).
  destruct (ensure_op_ok n t (Append nonce) (ts_msg t ++ nonce) Hw) as (W1 & M1 & c & F1 & C1).
  { split; [by destruct nonce|rewrite Hn; by_compute]. } { done. }
  { unfold apply_op. cbn [mbind option_bind]. rewrite Hx; [done|]. rewrite length_app. lia. }
  destruct (branch_ok _ _ _ _ _ W1 (find_branch_Some _ _ _ F1)) as (_ & _ & Wc).
  destruct (ensure_op_ok n c Sha256 (sha256 (ts_msg c)) Wc I eq_refl) as (W2 & M2 & c2 & F2 & C2).
  { unfold apply_op. cbn [mbind option_bind]. rewrite Hx; [done|]. right. apply sha256_length. }
  destruct (at_op_ok (S n) 1 (ensure_op Sha256) _ _ _ W1 F1) as [W3 F3]; [by rewrite Nat.add_1_r|done|].
  rewrite Nat.add_1_r in W3. split_and!; [done|done|]. rewrite F3. cbn [mbind option_bind]. rewrite F2. cbn [mbind option_bind].
  unfold array32. by rewrite C2, C1, sha256_length.
Qed.

(** How a proof for [digest] comes about: a new one or a parsed file, then
    submissions and calendar responses in any order, accepted or refused. *)
Inductive proof_of (digest : list Z) : DetachedTimestamp -> Prop :=
| proof_new : length digest = 32%nat -> proof_of digest (DetachedTimestamp_new digest)
| proof_parsed bytes d : DetachedTimestamp_parse bytes = Ok d -> ts_msg (dt_timestamp d) = digest -> proof_of digest d
| proof_prepared nonce d : proof_of digest d -> length nonce = 16%nat -> proof_of digest (snd (prepare_submission nonce d))
| proof_merged commitment body d : proof_of digest d ->
    proof_of digest (snd (merge_calendar_response commitment body d)).

Lemma proof_of_wf digest d : proof_of digest d ->
  length digest = 32%nat /\ ts_msg (dt_timestamp d) = digest /\ exists n, wf false (S n) (dt_timestamp d).
Proof.
  induction 1 as [Hl|bytes d Hp Hm|nonce d _ (Hl & Hm & n & Hw) Hn|c body d _ (Hl & Hm & n & Hw)].
  - split_and!; [done|done|]. exists 0%nat. apply wf_new.
  - apply parse_Ok in Hp as (Hw & Hl & _). split_and!; [congruence|done|]. exists 255%nat. by apply wf_open.
  - destruct (prepare_ok n nonce d Hw) as (Hw' & Hm' & _); [congruence|done|]. split_and!; [done|congruence|]. by eexists.
  - destruct (merge_response_ok c body d (S n) Hw) as [Hw' Hm']. split_and!; [done|congruence|]. by eexists.
Qed.

Lemma deserialize_Ok body c up : deserialize body c = Ok up -> wf true MAX_DEPTH up /\ ts_msg up = c.
Proof. unfold deserialize. intros (u & _ & ([t r] & Hr & (u' & _ & [= <-])%bind_Ok)%bind_Ok)%bind_Ok. by apply read_wf in Hr. Qed.

(** A calendar's response for a commitment of the proof, however the proof
    came about, is accepted whenever it parses; the proof then collects what
    it did and, if all its operations are evaluated ones, every attestation of
    the response, and nothing else. *)
Theorem calendar_upgrade_recorded digest d commitment body upgrade : proof_of digest d ->
  commitment ∈ messages (dt_timestamp d) -> deserialize body commitment = Ok upgrade ->
  exists d', merge_calendar_response commitment body d = (Ok tt, d') /\
    (forall p, p ∈ collect (dt_timestamp d) -> p ∈ collect (dt_timestamp d')) /\
    (forall p, p ∈ collect (dt_timestamp d') -> p ∈ collect (dt_timestamp d) \/ p ∈ collect upgrade) /\
    (transparent (dt_timestamp d) = true -> forall p, p ∈ collect upgrade -> p ∈ collect (dt_timestamp d')).
Proof.
  intros (_ & _ & n & Hw)%proof_of_wf Hin Hd. unfold merge_calendar_response. rewrite Hd.
  apply deserialize_Ok in Hd as [Wu Mu]. destruct (update_found _ _ _) as [t'|] eqn:E; [|by eapply update_found_None in E].
  eexists. split; [done|]. cbn [dt_timestamp].
  assert (forall p, (p ∈ collect (dt_timestamp d) -> p ∈ collect t') /\
    (p ∈ collect t' -> p ∈ collect (dt_timestamp d) \/ p ∈ collect upgrade) /\
    (transparent (dt_timestamp d) = true -> p ∈ collect upgrade -> p ∈ collect t')) as H.
  { intros p. eapply collect_update; [|done|done]. intros node k Wn Mn.
    apply (collect_merge false (k + MAX_DEPTH)); [eapply wf_le; [|done]; lia| |congruence].
    eapply wf_le; [|by apply wf_open]. lia. }
  split_and!; naive_solver.
Qed.

(** A submission: for a digest of 32 bytes and a nonce of 16 the commitment
    is the hash of both, without a panic; it is a message of the proof, so
    that a response for it can be merged, and the proof is for the same digest. *)
Theorem submission_commits digest d nonce : proof_of digest d -> length nonce = 16%nat ->
  fst (prepare_submission nonce d) = Some (sha256 (digest ++ nonce)) /\
  sha256 (digest ++ nonce) ∈ messages (dt_timestamp (snd (prepare_submission nonce d))) /\
  ts_msg (dt_timestamp (snd (prepare_submission nonce d))) = digest.
Proof.
  intros (Hl & Hm & n & Hw)%proof_of_wf Hn. destruct (prepare_ok n nonce d Hw) as (_ & Hm' & Hc); [congruence|done|].
  rewrite Hm in *. split_and!; [done| |done].
  unfold prepare_submission in *. cbn [fst snd dt_timestamp] in *. apply bind_Some in Hc as (node & Hf & Ha).
  apply bind_Some in Hf as (c & F1%find_branch_Some & F2%find_branch_Some).
  assert (ts_msg node = sha256 (digest ++ nonce)) as Hx by (unfold array32 in Ha; destruct (Nat.eqb _ _); congruence).
  assert (forall t op x y, (op, x) ∈ ts_ops t -> y ∈ messages x -> y ∈ messages t) as Hup.
  { intros [m a o] op x y Hin Hy. rewrite messages_eq. apply elem_of_cons. right. apply list_elem_of_In, in_flat_map.
    exists (op, x). split; by apply list_elem_of_In. }
  eapply Hup; [exact F1|]. eapply Hup; [exact F2|]. rewrite <- Hx. destruct node. rewrite messages_eq. set_solver.
Qed.

(** Claim C12: A proof that verifies against a header shows that the digest is committed
    there: a chain of evaluated operations takes the digest to the header's
    Merkle root; the header's double hash, read as a little-endian number,
    does not exceed the target its bits encode, which is below 2^192; and the
    result reports that header. *)
Theorem bitcoin_proof_sound digest d height header h : proof_of digest d ->
  length header = 80%nat -> Forall is_byte header -> verify_bitcoin d height header = Ok h ->
  let bits := le_value (slice_of 72 76 header) in
  let hash := sha256 (sha256 header) in
  (exists path, Forall (fun op => opaque op = false) path /\ run_path path digest = Some (slice_of 36 68 header)) /\
  (slice_of 36 68 header, Bitcoin height) ∈ collect (dt_timestamp d) /\
  le_value hash <= bits mod 2 ^ 24 * 2 ^ (8 * (bits / 2 ^ 24 - 3)) < 2 ^ 192 /\
  h = mkBitcoinHeader height (bytes_to_hex (rev hash)) (le_value (slice_of 68 72 header)).
Proof.
  intros (_ & <- & n & Hw)%proof_of_wf Hl Hb. unfold verify_bitcoin.
  intros (u & Hu & (target & Ht & (u1 & Hu1 & (u2 & Hu2 & [= <-])%bind_Ok)%bind_Ok)%bind_Ok)%bind_Ok.
  apply refuse_if_Ok in Hu, Hu1, Hu2. apply negb_false_iff, existsb_exists in Hu as ([msg a] & Hin & Heq).
  apply andb_prop in Heq as [->%bool_decide_eq_true ->%bool_decide_eq_true]. apply list_elem_of_In in Hin.
  destruct (target_of (le_value (slice_of 72 76 header))) as [x|] eqn:E; [|done]. injection Ht as ->.
  apply target_of_Some in E as (Lt & Bt & Vt).
  2: { assert (Forall is_byte (slice_of 72 76 header)) as Fs by (apply Forall_take, Forall_drop, Hb).
       apply le_value_range in Fs. unfold slice_of in Fs |- *. rewrite length_take, length_drop, Hl in Fs. exact Fs. }
  apply Z.ltb_ge in Hu1. apply leading_zeros_value in Hu1; [|done|rewrite Lt; by_compute]. rewrite Lt in Hu1.
  rewrite bytes_cmp_value in Hu2; [|by rewrite length_rev, sha256_length|apply Forall_rev, sha256_bytes|done].
  unfold be_value in Hu2 at 1. rewrite rev_involutive in Hu2. split_and!; [by eapply collect_sound|done| | |done].
  - rewrite <- Vt. destruct (Z.compare_spec (le_value (sha256 (sha256 header))) (be_value target)); [lia|lia|done].
  - rewrite <- Vt. exact Hu1.
Qed.
End submissions.

(** ** Concrete proofs *)

Module OtsSample.
#[local] Existing Instance toy_hash.
Definition toy_ripemd (m : list Z) : list Z := take 20 (toy_digest m).

Lemma toy_ripemd_length m : length (toy_ripemd m) = 20%nat.
Proof. unfold toy_ripemd. by rewrite length_take, toy_digest_length. Qed.

Lemma toy_ripemd_bytes m : Forall is_byte (toy_ripemd m).
Proof. apply Forall_take, toy_digest_bytes. Qed.

Definition toy_ripemd160 : Ripemd :=
  {| ripemd160 := toy_ripemd; ripemd160_length := toy_ripemd_length; ripemd160_bytes := toy_ripemd_bytes |}.
#[local] Existing Instance toy_ripemd160.

Definition digest : list Z := replicate 32 7.
Definition nonce : list Z := replicate 16 9.
Definition commitment : list Z := sha256 (digest ++ nonce).

(** A response: the commitment is hashed to the Merkle root of block 800000. *)
Definition root : list Z := sha256 (commitment ++ [1; 2; 3]).
Definition response : list Z :=
  [255] ++ [0] ++ write_attestation (Pending "https://a.calendar.org") ++
  [240] ++ write_varbytes [1; 2; 3] ++ [8] ++ [0] ++ write_attestation (Bitcoin 800000).

Definition submitted : DetachedTimestamp := snd (prepare_submission nonce (DetachedTimestamp_new digest)).
Definition upgraded : DetachedTimestamp := snd (merge_calendar_response commitment response submitted).
Definition file : list Z := DetachedTimestamp_serialize upgraded.
Definition header : list Z := replicate 36 0 ++ root ++ [0; 1; 2; 3] ++ [255; 255; 0; 23] ++ replicate 4 0.

Lemma proof_submitted : proof_of digest submitted.
Proof. apply proof_prepared; [by apply proof_new|done]. Defined.

Lemma proof_upgraded : proof_of digest upgraded.
Proof. apply proof_merged, proof_submitted. Defined.
End OtsSample.

#[local] Existing Instance toy_hash.
#[local] Existing Instance OtsSample.toy_ripemd160.

Lemma ots_file_roundtrip_witness : DetachedTimestamp_parse OtsSample.file = Ok OtsSample.upgraded /\
  DetachedTimestamp_parse (DetachedTimestamp_serialize OtsSample.upgraded) = Ok OtsSample.upgraded.
Proof. split; [by vm_compute|]. apply (ots_file_roundtrip OtsSample.file). by vm_compute. Defined.

Lemma ots_reader_terminates_witness : read_loop (read 3) 1000 (Timestamp_new OtsSample.commitment) OtsSample.response =
  read_loop (read 3) (S (length OtsSample.response)) (Timestamp_new OtsSample.commitment) OtsSample.response.
Proof. apply (ots_reader_terminates 3 1000). apply Nat.ltb_lt. by vm_compute. Defined.

Lemma parsed_proof_bounded_witness : (node_depth (dt_timestamp OtsSample.upgraded) <= MAX_DEPTH)%nat.
Proof. apply (parsed_proof_bounded OtsSample.file OtsSample.upgraded). by vm_compute. Defined.

Lemma submission_commits_witness :
  fst (prepare_submission OtsSample.nonce (DetachedTimestamp_new OtsSample.digest)) = Some OtsSample.commitment.
Proof. apply (submission_commits OtsSample.digest); [by apply proof_new|done]. Defined.

Lemma calendar_upgrade_recorded_witness : exists d',
  merge_calendar_response OtsSample.commitment OtsSample.response OtsSample.submitted = (Ok tt, d') /\
  (OtsSample.root, Bitcoin 800000) ∈ collect (dt_timestamp d').
Proof.
  destruct (calendar_upgrade_recorded OtsSample.digest OtsSample.submitted OtsSample.commitment OtsSample.response
    (match deserialize OtsSample.response OtsSample.commitment with Ok t => t | Err _ => Timestamp_new [] end))
    as (d' & H & _ & _ & Hu).
  - apply OtsSample.proof_submitted.
  - apply (bool_decide_unpack _). by vm_compute.
  - by vm_compute.
  - exists d'. split; [exact H|]. apply Hu; [by vm_compute|]. apply (bool_decide_unpack _). by vm_compute.
Defined.

Lemma bitcoin_proof_sound_witness : verify_bitcoin OtsSample.upgraded 800000 OtsSample.header =
    Ok (mkBitcoinHeader 800000 (bytes_to_hex (rev (sha256 (sha256 OtsSample.header)))) 50462976) /\
  exists path, Forall (fun op => opaque op = false) path /\ run_path path OtsSample.digest = Some OtsSample.root.
Proof.
  split; [by vm_compute|]. eapply (bitcoin_proof_sound OtsSample.digest OtsSample.upgraded 800000 OtsSample.header);
    [apply OtsSample.proof_upgraded|done|apply (bool_decide_unpack _); by vm_compute|by vm_compute].
Defined.

(** An opaque operation hides what is merged beneath it: [find_mut] also looks
    in branches nothing collects from, so a response that repeats a commitment
    there keeps a later upgrade, which is reported as merged, out of the
    proof's attestations. *)
Example upgrade_lost_in_opaque_branch :
  let c := OtsSample.commitment in
  let root := OtsSample.root in
  let first := [255; 2; 241] ++ write_varbytes root ++ [0] ++ write_attestation (Pending "https://b.calendar.org") ++
    [240] ++ write_varbytes [1; 2; 3] ++ [8] ++ [0] ++ write_attestation (Pending "https://a.calendar.org") in
  let d1 := snd (merge_calendar_response c first OtsSample.submitted) in
  let '(r, d2) := merge_calendar_response root ([0] ++ write_attestation (Bitcoin 800000)) d1 in
  pending d1 = [(root, "https://a.calendar.org"%string)] /\ r = Ok tt /\ d2 <> d1 /\
  status d2 = StatusPending ["https://a.calendar.org"%string].
Proof. vm_compute. split_and!; congruence. Qed.

(** The work floor is checked after the attestation: a header under it that no
    attestation names is reported as not in the proof. *)
Example floor_after_commitment :
  let header := replicate 72 0 ++ [255; 255; 0; 32] ++ replicate 4 0 in
  option_map leading_zero_bits (target_of (le_value (slice_of 72 76 header))) = Some 8 /\
  verify_bitcoin (DetachedTimestamp_new OtsSample.digest) 1 header = Err NotInBlock.
Proof. by vm_compute. Qed.
