(* ===== verification/Tsa.v ===== *)
(** * RFC 3161 timestamp tokens ([src/tsa.rs])

    The request and the checks on what a timestamping authority answers, over
    the decoded structures. Decoding (crates [der], [cms], [x509_cert] and
    [x509_tsp], and the decoders they derive for the structures of this file)
    and the public-key algorithms are interfaces. An object identifier is its
    dotted text, a [der::Any] its encoding, an [Int] its bytes, a [Name] the
    encoding it is compared by, a time its Unix seconds. *)

From Stdlib Require Import String.
From S2P Require Import Prelude Bytes Text Crypto.
#[local] Open Scope string_scope.
#[local] Open Scope Z_scope.

Definition ObjectIdentifier : Type := string.
Definition ID_SIGNED_DATA : ObjectIdentifier := "1.2.840.113549.1.7.2".
Definition ID_CT_TST_INFO : ObjectIdentifier := "1.2.840.113549.1.9.16.1.4".
Definition ID_CONTENT_TYPE : ObjectIdentifier := "1.2.840.113549.1.9.3".
Definition ID_MESSAGE_DIGEST : ObjectIdentifier := "1.2.840.113549.1.9.4".
Definition ID_SHA256 : ObjectIdentifier := "2.16.840.1.101.3.4.2.1".
Definition ID_SHA384 : ObjectIdentifier := "2.16.840.1.101.3.4.2.2".
Definition ID_SHA512 : ObjectIdentifier := "2.16.840.1.101.3.4.2.3".
Definition RSA_ENCRYPTION : ObjectIdentifier := "1.2.840.113549.1.1.1".
Definition SHA256_WITH_RSA : ObjectIdentifier := "1.2.840.113549.1.1.11".
Definition SHA384_WITH_RSA : ObjectIdentifier := "1.2.840.113549.1.1.12".
Definition SHA512_WITH_RSA : ObjectIdentifier := "1.2.840.113549.1.1.13".
Definition ECDSA_WITH_SHA256 : ObjectIdentifier := "1.2.840.10045.4.3.2".
Definition ECDSA_WITH_SHA384 : ObjectIdentifier := "1.2.840.10045.4.3.3".
Definition ECDSA_WITH_SHA512 : ObjectIdentifier := "1.2.840.10045.4.3.4".
Definition ID_EC_PUBLIC_KEY : ObjectIdentifier := "1.2.840.10045.2.1".
Definition SECP256R1 : ObjectIdentifier := "1.2.840.10045.3.1.7".
Definition SECP384R1 : ObjectIdentifier := "1.3.132.0.34".
Definition ID_CE_EXT_KEY_USAGE : ObjectIdentifier := "2.5.29.37".
Definition ID_CE_SUBJECT_KEY_IDENTIFIER : ObjectIdentifier := "2.5.29.14".
Definition ID_KP_TIME_STAMPING : ObjectIdentifier := "1.3.6.1.5.5.7.3.8".
Definition ID_AA_SIGNING_CERTIFICATE : ObjectIdentifier := "1.2.840.113549.1.9.16.2.12".
Definition ID_AA_SIGNING_CERTIFICATE_V2 : ObjectIdentifier := "1.2.840.113549.1.9.16.2.47".
Definition MAX_RESPONSE_BYTES : Z := 64 * 1024.

Inductive TsaError :=
| TsaMalformed (what : string)
| NotGranted (status : Z)
| ImprintMismatch
| NonceMismatch
| Unsupported (algorithm : string)
| UnknownSigner
| AttributesMismatch
| TsaBadSignature
| NotATimestampingCertificate
| NoSigningCertificate
| SigningCertificateMismatch
| OutsideValidity
| BadCertificate.

(** ** The decoded structures *)

Definition Any : Type := list Z.
Definition Name : Type := list Z.

Record AlgorithmIdentifier := mkAlgorithmIdentifier { alg_oid : ObjectIdentifier; alg_parameters : option Any }.

Record Extension := mkExtension { extn_id : ObjectIdentifier; extn_critical : bool; extn_value : list Z }.

(** [tbs_certificate]; the key is [None] when its bit string has unused bits. *)
Record Certificate := mkCertificate {
  tbs_issuer : Name;
  tbs_serial_number : list Z;
  tbs_subject : Name;
  tbs_not_before : Z;
  tbs_not_after : Z;
  tbs_key_algorithm : AlgorithmIdentifier;
  tbs_public_key : option (list Z);
  tbs_extensions : option (list Extension)
}.

Inductive GeneralName :=
| DirectoryName (n : Name)
| OtherGeneralName (encoded : list Z).

Record IssuerSerial := mkIssuerSerial { is_issuer : list GeneralName; is_serial_number : list Z }.

Record EssCertId := mkEssCertId { ess_cert_hash : list Z; ess_issuer_serial : option IssuerSerial }.
Record EssCertIdV2 := mkEssCertIdV2 {
  ess2_hash_algorithm : option AlgorithmIdentifier;
  ess2_cert_hash : list Z;
  ess2_issuer_serial : option IssuerSerial
}.
Record SigningCertificate := mkSigningCertificate { sc_certs : list EssCertId; sc_policies : option Any }.
Record SigningCertificateV2 := mkSigningCertificateV2 { sc2_certs : list EssCertIdV2; sc2_policies : option Any }.

Inductive SignerIdentifier :=
| IssuerAndSerialNumber (issuer : Name) (serial_number : list Z)
| SubjectKeyIdentifier (ski : list Z).

Record Attribute := mkAttribute { attr_oid : ObjectIdentifier; attr_values : list Any }.

Record SignerInfo := mkSignerInfo {
  si_sid : SignerIdentifier;
  si_digest_alg : AlgorithmIdentifier;
  si_signed_attrs : option (list Attribute);
  si_signature_algorithm : AlgorithmIdentifier;
  si_signature : list Z
}.

Record SignedData := mkSignedData {
  sd_econtent_type : ObjectIdentifier;
  sd_econtent : option Any;
  sd_signer_infos : list SignerInfo
}.

Record ContentInfo := mkContentInfo { ci_content_type : ObjectIdentifier; ci_content : Any }.
Record TimeStampResp := mkTimeStampResp { tr_status : Z; tr_time_stamp_token : option ContentInfo }.

Record Accuracy := mkAccuracy { acc_seconds : option Z; acc_millis : option Z; acc_micros : option Z }.

Record MessageImprint := mkMessageImprint { mi_hash_algorithm : AlgorithmIdentifier; mi_hashed_message : list Z }.

Record TstInfo := mkTstInfo {
  tst_policy : ObjectIdentifier;
  tst_message_imprint : MessageImprint;
  tst_serial_number : list Z;
  tst_gen_time : Z;
  tst_accuracy : option Accuracy;
  tst_nonce : option (list Z)
}.

(** [version] is V1, and the optional policy and extensions are absent, in every
    request the code builds. *)
Record TimeStampReq := mkTimeStampReq {
  rq_message_imprint : MessageImprint;
  rq_nonce : option (list Z);
  rq_cert_req : bool
}.

(** ** Interfaces *)

(** Decoding and encoding. [int_new] keeps the bytes of a number whose sign bit
    is clear; the encoding of a set of attributes determines it. *)
Class Asn1 := {
  certificate_from_der : list Z -> option Certificate;
  subject_key_identifier_from_der : list Z -> option (list Z);
  extended_key_usage_from_der : list Z -> option (list ObjectIdentifier);
  time_stamp_resp_from_der : list Z -> option TimeStampResp;
  content_info_from_der : list Z -> option ContentInfo;
  signed_data_decode_as : Any -> option SignedData;
  octet_string_decode_as : Any -> option (list Z);
  oid_decode_as : Any -> option ObjectIdentifier;
  tst_info_from_der : list Z -> option TstInfo;
  signing_certificate_decode_as : Any -> option SigningCertificate;
  signing_certificate_v2_decode_as : Any -> option SigningCertificateV2;
  attributes_to_der : list Attribute -> option (list Z);
  time_stamp_req_to_der : TimeStampReq -> option (list Z);
  int_new : list Z -> option (list Z);
  name_to_string : Name -> string;
  int_new_positive : forall b bs, 0 <= b < 128 -> int_new (b :: bs) = Some (b :: bs);
  attributes_to_der_inj : forall a b d,
    attributes_to_der a = Some d -> attributes_to_der b = Some d -> a = b
}.

(** The further hashes and the signature schemes: whether a key or a signature
    decodes, and whether the signature of a digest verifies. *)
Class TsaCrypto := {
  sha1 : list Z -> list Z;
  sha384 : list Z -> list Z;
  sha512 : list Z -> list Z;
  rsa_key_decodes : list Z -> bool;
  rsa_verify : list Z -> ObjectIdentifier -> list Z -> list Z -> bool;
  p256_key_decodes : list Z -> bool;
  p256_signature_decodes : list Z -> bool;
  p256_verify : list Z -> list Z -> list Z -> bool;
  p384_key_decodes : list Z -> bool;
  p384_signature_decodes : list Z -> bool;
  p384_verify : list Z -> list Z -> list Z -> bool
}.

(** [From<der::Error> for TsaError], with [?]. *)
Definition der {A} (o : option A) : result TsaError A := ok_or o (TsaMalformed "DER does not decode").

(** [str::find] of a non-empty text: what stands before and after its first
    occurrence. *)
Fixpoint split_at_text (p t : text) : option (text * text) :=
  match strip_prefix p t with
  | Some rest => Some ([], rest)
  | None =>
      match t with
      | [] => None
      | c :: t' => '(a, b) ← split_at_text p t'; Some (c :: a, b)
      end
  end.

Record PinnedTsa := mkPinnedTsa { pin_cert : Certificate; pin_der : list Z }.

Record VerifiedTimestamp := mkVerifiedTimestamp {
  vt_gen_time : Z;
  vt_accuracy_seconds : Z;
  vt_serial : list Z;
  vt_policy : string;
  vt_signer : string
}.

Definition VerifiedTimestamp_existed_by (self : VerifiedTimestamp) : Z :=
  saturate_u 64 (vt_gen_time self + vt_accuracy_seconds self).

Section tsa.
Context {HF : HashFunctions} {B64 : Base64} {AS : Asn1} {TC : TsaCrypto}.

(** ** [impl PinnedTsa] *)

Definition PinnedTsa_from_der (d : list Z) : result TsaError PinnedTsa :=
  cert ← ok_or (certificate_from_der d) BadCertificate;
  Ok (mkPinnedTsa cert d).

Definition BEGIN_CERTIFICATE : text := chars "-----BEGIN CERTIFICATE-----".
Definition END_CERTIFICATE : text := chars "-----END CERTIFICATE-----".

Definition PinnedTsa_from_pem (pem : text) : result TsaError PinnedTsa :=
  '(_, rest) ← ok_or (split_at_text BEGIN_CERTIFICATE pem) BadCertificate;
  '(body, _) ← ok_or (split_at_text END_CERTIFICATE rest) BadCertificate;
  let b64 := List.filter (fun c => negb (is_whitespace c)) body in
  d ← ok_or (b64_decode b64) BadCertificate;
  PinnedTsa_from_der d.

Definition subject (self : PinnedTsa) : string := name_to_string (tbs_subject (pin_cert self)).

(** [extensions.iter().flatten()]. *)
Definition extensions_of (c : Certificate) : list Extension := default [] (tbs_extensions c).

Definition pin_matches (self : PinnedTsa) (sid : SignerIdentifier) : bool :=
  let tbs := pin_cert self in
  match sid with
  | IssuerAndSerialNumber issuer serial_number =>
      bool_decide (issuer = tbs_issuer tbs) && bool_decide (serial_number = tbs_serial_number tbs)
  | SubjectKeyIdentifier ski =>
      existsb (fun e => bool_decide (subject_key_identifier_from_der (extn_value e) = Some ski))
        (List.filter (fun e => String.eqb (extn_id e) ID_CE_SUBJECT_KEY_IDENTIFIER) (extensions_of tbs))
  end.

Definition check_timestamping_usage (self : PinnedTsa) : result TsaError unit :=
  let usages :=
    List.filter (fun e => String.eqb (extn_id e) ID_CE_EXT_KEY_USAGE) (extensions_of (pin_cert self)) in
  let ok :=
    match usages with
    | [e] =>
        extn_critical e
        && bool_decide (extended_key_usage_from_der (extn_value e) = Some [ID_KP_TIME_STAMPING])
    | _ => false
    end in
  if ok then Ok tt else Err NotATimestampingCertificate.

Definition names_issuer (issuer : Name) (g : GeneralName) : bool :=
  match g with DirectoryName n => bool_decide (n = issuer) | _ => false end.

Definition is_named_by (self : PinnedTsa) (cert_hash hashed : list Z) (issuer : option IssuerSerial) : bool :=
  let tbs := pin_cert self in
  bool_decide (cert_hash = hashed)
  && match issuer with
     | None => true
     | Some is_ =>
         bool_decide (is_serial_number is_ = tbs_serial_number tbs)
         && existsb (names_issuer (tbs_issuer tbs)) (is_issuer is_)
     end.

Definition check_validity (self : PinnedTsa) (unix : Z) : result TsaError unit :=
  if (tbs_not_before (pin_cert self) <=? unix) && (unix <=? tbs_not_after (pin_cert self))
  then Ok tt else Err OutsideValidity.

(** ** Numbers *)

Fixpoint skip_zeros (bytes : list Z) : list Z :=
  match bytes with b :: r => if b =? 0 then skip_zeros r else bytes | [] => [] end.

Definition positive_int (bytes : list Z) : result TsaError (list Z) :=
  let trimmed := skip_zeros bytes in
  let pad := match trimmed with [] => true | b :: _ => negb (Z.land b 128 =? 0) end in
  der (int_new ((if pad then [0] else []) ++ trimmed)).

(** [take_while(|x| x == 0).count()]. *)
Fixpoint leading_zeros (bytes : list Z) : nat :=
  match bytes with b :: r => if b =? 0 then S (leading_zeros r) else O | [] => O end.

Definition int_value (b : list Z) : list Z := drop (Nat.min (leading_zeros b) (length b - 1)) b.

Definition request (digest : list Z) (nonce : option Z) : result TsaError (list Z) :=
  nonce ← match nonce with
          | None => Ok None
          | Some n => i ← positive_int (be_bytes 8 n); Ok (Some i)
          end;
  der (time_stamp_req_to_der
    (mkTimeStampReq (mkMessageImprint (mkAlgorithmIdentifier ID_SHA256 None) digest) nonce true)).

Definition hash (alg : ObjectIdentifier) (data : list Z) : result TsaError (list Z) :=
  if String.eqb alg ID_SHA256 then Ok (sha256 data)
  else if String.eqb alg ID_SHA384 then Ok (sha384 data)
  else if String.eqb alg ID_SHA512 then Ok (sha512 data)
  else Err (Unsupported alg).

(** ** The signed attributes *)

(** The one value of the one attribute with this identifier; [None] when there
    is no such attribute. *)
Definition attribute_value (attrs : list Attribute) (oid : ObjectIdentifier) : result TsaError (option Any) :=
  match List.filter (fun a => String.eqb (attr_oid a) oid) attrs with
  | [] => Ok None
  | [attr] => match attr_values attr with [v] => Ok (Some v) | _ => Err AttributesMismatch end
  | _ => Err AttributesMismatch
  end.

(** [single]. *)
Definition single (attrs : list Attribute) (oid : ObjectIdentifier) : result TsaError Any :=
  v ← attribute_value attrs oid; ok_or v AttributesMismatch.

Definition check_signed_attributes (info : SignerInfo) (tst_der : list Z) : result TsaError unit :=
  attrs ← ok_or (si_signed_attrs info) AttributesMismatch;
  any ← single attrs ID_CONTENT_TYPE;
  content_type ← der (oid_decode_as any);
  _ ← refuse_if (negb (String.eqb content_type ID_CT_TST_INFO)) AttributesMismatch;
  any ← single attrs ID_MESSAGE_DIGEST;
  message_digest ← der (octet_string_decode_as any);
  h ← hash (alg_oid (si_digest_alg info)) tst_der;
  refuse_if (negb (bool_decide (message_digest = h))) AttributesMismatch.

Definition unnamed : TsaError := TsaMalformed "an ESS signing certificate attribute names no certificate".

Definition check_v1 (pin : PinnedTsa) (any : Any) : result TsaError unit :=
  sc ← der (signing_certificate_decode_as any);
  first ← ok_or (head (sc_certs sc)) unnamed;
  let hashed := sha1 (pin_der pin) in
  refuse_if (negb (is_named_by pin (ess_cert_hash first) hashed (ess_issuer_serial first)))
    SigningCertificateMismatch.

Definition check_v2 (pin : PinnedTsa) (any : Any) : result TsaError unit :=
  sc ← der (signing_certificate_v2_decode_as any);
  first ← ok_or (head (sc2_certs sc)) unnamed;
  let alg := match ess2_hash_algorithm first with None => ID_SHA256 | Some a => alg_oid a end in
  hashed ← hash alg (pin_der pin);
  refuse_if (negb (is_named_by pin (ess2_cert_hash first) hashed (ess2_issuer_serial first)))
    SigningCertificateMismatch.

Definition check_signing_certificate (info : SignerInfo) (pin : PinnedTsa) : result TsaError unit :=
  attrs ← ok_or (si_signed_attrs info) AttributesMismatch;
  v1 ← attribute_value attrs ID_AA_SIGNING_CERTIFICATE;
  v2 ← attribute_value attrs ID_AA_SIGNING_CERTIFICATE_V2;
  _ ← refuse_if (match v1, v2 with None, None => true | _, _ => false end) NoSigningCertificate;
  _ ← match v1 with None => Ok tt | Some any => check_v1 pin any end;
  match v2 with None => Ok tt | Some any => check_v2 pin any end.

(** ** The signature *)

Definition one_of (oid : ObjectIdentifier) (l : list ObjectIdentifier) : bool := existsb (String.eqb oid) l.

Definition verify_rsa (pin : PinnedTsa) (sig_alg digest_alg : ObjectIdentifier) (key_bytes digest sig : list Z)
    : result TsaError unit :=
  let implied :=
    if String.eqb sig_alg SHA256_WITH_RSA then Some ID_SHA256
    else if String.eqb sig_alg SHA384_WITH_RSA then Some ID_SHA384
    else if String.eqb sig_alg SHA512_WITH_RSA then Some ID_SHA512
    else None in
  _ ← refuse_if (match implied with Some h => negb (String.eqb h digest_alg) | None => false end)
        (Unsupported "mismatched RSA digest");
  _ ← refuse_if (negb (String.eqb (alg_oid (tbs_key_algorithm (pin_cert pin))) RSA_ENCRYPTION)) TsaBadSignature;
  _ ← refuse_if (negb (rsa_key_decodes key_bytes)) BadCertificate;
  _ ← refuse_if (negb (one_of digest_alg [ID_SHA256; ID_SHA384; ID_SHA512])) (Unsupported digest_alg);
  refuse_if (negb (rsa_verify key_bytes digest_alg digest sig)) TsaBadSignature.

Definition verify_ecdsa (pin : PinnedTsa) (sig_alg digest_alg : ObjectIdentifier) (key_bytes digest sig : list Z)
    : result TsaError unit :=
  let implied :=
    if String.eqb sig_alg ECDSA_WITH_SHA256 then ID_SHA256
    else if String.eqb sig_alg ECDSA_WITH_SHA384 then ID_SHA384
    else ID_SHA512 in
  _ ← refuse_if (negb (String.eqb implied digest_alg)) (Unsupported "mismatched ECDSA digest");
  _ ← refuse_if (negb (String.eqb (alg_oid (tbs_key_algorithm (pin_cert pin))) ID_EC_PUBLIC_KEY)) TsaBadSignature;
  parameters ← ok_or (alg_parameters (tbs_key_algorithm (pin_cert pin))) BadCertificate;
  curve ← ok_or (oid_decode_as parameters) BadCertificate;
  if String.eqb curve SECP256R1 then
    _ ← refuse_if (negb (p256_key_decodes key_bytes)) BadCertificate;
    _ ← refuse_if (negb (p256_signature_decodes sig)) TsaBadSignature;
    refuse_if (negb (p256_verify key_bytes digest sig)) TsaBadSignature
  else if String.eqb curve SECP384R1 then
    _ ← refuse_if (negb (p384_key_decodes key_bytes)) BadCertificate;
    _ ← refuse_if (negb (p384_signature_decodes sig)) TsaBadSignature;
    refuse_if (negb (p384_verify key_bytes digest sig)) TsaBadSignature
  else Err (Unsupported curve).

Definition verify_signature (pin : PinnedTsa) (info : SignerInfo) : result TsaError unit :=
  attrs ← ok_or (si_signed_attrs info) AttributesMismatch;
  signed_bytes ← der (attributes_to_der attrs);
  let digest_alg := alg_oid (si_digest_alg info) in
  digest ← hash digest_alg signed_bytes;
  let sig := si_signature info in
  key_bytes ← ok_or (tbs_public_key (pin_cert pin)) BadCertificate;
  let sig_alg := alg_oid (si_signature_algorithm info) in
  if one_of sig_alg [RSA_ENCRYPTION; SHA256_WITH_RSA; SHA384_WITH_RSA; SHA512_WITH_RSA]
  then verify_rsa pin sig_alg digest_alg key_bytes digest sig
  else if one_of sig_alg [ECDSA_WITH_SHA256; ECDSA_WITH_SHA384; ECDSA_WITH_SHA512]
  then verify_ecdsa pin sig_alg digest_alg key_bytes digest sig
  else Err (Unsupported sig_alg).

(** ** Tokens and responses *)

Definition check_nonce (nonce : option Z) (tst : TstInfo) : result TsaError unit :=
  match nonce with
  | None => Ok tt
  | Some n =>
      sent ← positive_int (be_bytes 8 n);
      refuse_if
        (match tst_nonce tst with
         | Some got => negb (bool_decide (int_value got = int_value sent))
         | None => true
         end) NonceMismatch
  end.

Definition accuracy_of (tst : TstInfo) : Z :=
  match tst_accuracy tst with
  | None => 0
  | Some a =>
      let sub := (0 <? default 0 (acc_millis a)) || (0 <? default 0 (acc_micros a)) in
      saturate_u 64 (default 0 (acc_seconds a) + (if sub then 1 else 0))
  end.

Definition verify_token (token : ContentInfo) (digest : list Z) (nonce : option Z) (pinned : list PinnedTsa)
    : result TsaError VerifiedTimestamp :=
  _ ← refuse_if (negb (String.eqb (ci_content_type token) ID_SIGNED_DATA))
        (TsaMalformed "token is not CMS SignedData");
  signed ← der (signed_data_decode_as (ci_content token));
  _ ← refuse_if (negb (String.eqb (sd_econtent_type signed) ID_CT_TST_INFO))
        (TsaMalformed "token content is not a TSTInfo");
  econtent ← ok_or (sd_econtent signed) (TsaMalformed "token has no content");
  tst_der ← der (octet_string_decode_as econtent);
  tst ← der (tst_info_from_der tst_der);
  let imprint := tst_message_imprint tst in
  _ ← refuse_if (negb (String.eqb (alg_oid (mi_hash_algorithm imprint)) ID_SHA256)
                 || negb (bool_decide (mi_hashed_message imprint = digest))) ImprintMismatch;
  _ ← check_nonce nonce tst;
  info ← match sd_signer_infos signed with
         | [info] => Ok info
         | _ => Err (TsaMalformed "a token has exactly one signer")
         end;
  pin ← ok_or (List.find (fun p => pin_matches p (si_sid info)) pinned) UnknownSigner;
  _ ← check_signed_attributes info tst_der;
  _ ← verify_signature pin info;
  let gen_time := tst_gen_time tst in
  _ ← check_timestamping_usage pin;
  _ ← check_validity pin gen_time;
  _ ← check_signing_certificate info pin;
  Ok (mkVerifiedTimestamp gen_time (accuracy_of tst) (int_value (tst_serial_number tst)) (tst_policy tst)
        (subject pin)).

Definition verify_response (response digest : list Z) (nonce : option Z) (pinned : list PinnedTsa)
    : result TsaError VerifiedTimestamp :=
  _ ← refuse_if (MAX_RESPONSE_BYTES <? Z.of_nat (length response)) (TsaMalformed "response is too large");
  resp ← der (time_stamp_resp_from_der response);
  let status := tr_status resp in
  _ ← refuse_if (1 <? status) (NotGranted status);
  token ← ok_or (tr_time_stamp_token resp) (TsaMalformed "a granted response carries a token");
  verify_token token digest nonce pinned.

Definition verify_token_der (token digest : list Z) (nonce : option Z) (pinned : list PinnedTsa)
    : result TsaError VerifiedTimestamp :=
  _ ← refuse_if (MAX_RESPONSE_BYTES <? Z.of_nat (length token)) (TsaMalformed "token is too large");
  token ← der (content_info_from_der token);
  verify_token token digest nonce pinned.
End tsa.
