(* ===== verification/TsaProps.v ===== *)
(** * What an accepted timestamp token establishes

    [accepted] collects what the checks of [Tsa] amount to, [response_accepted]
    shows the code applies exactly those, and the theorems draw the
    consequences: what the authority's signature covers, and what the nonce
    and the pinned certificate mean. *)

From Stdlib Require Import String.
From S2P Require Import Prelude Bytes Text Crypto Tsa.
#[local] Open Scope string_scope.
#[local] Open Scope Z_scope.

(** ** Numbers *)

Lemma be_value_zero r : be_value (0 :: r) = be_value r.
Proof. change (0 :: r) with ([0] ++ r)%list. by rewrite be_value_app. Qed.

Lemma be_value_skip_zeros b : be_value (skip_zeros b) = be_value b.
Proof.
  induction b as [|x r IH]; [done|]. cbn [skip_zeros].
  destruct (Z.eqb_spec x 0) as [->|]; [|done]. by rewrite IH, be_value_zero.
Qed.

Lemma be_value_drop_zeros n : forall b, (n <= leading_zeros b)%nat -> be_value (drop n b) = be_value b.
Proof.
  induction n as [|n IH]; intros b H; [done|]. destruct b as [|x r]; cbn in H; [lia|].
  destruct (Z.eqb_spec x 0) as [->|]; [|lia]. cbn [drop]. rewrite be_value_zero. apply IH. lia.
Qed.

Lemma be_value_int_value b : be_value (int_value b) = be_value b.
Proof. apply be_value_drop_zeros. lia. Qed.

Lemma skip_zeros_head b x r : skip_zeros b = x :: r -> x <> 0.
Proof.
  induction b as [|y b IH]; [done|]. cbn. destruct (Z.eqb_spec y 0); [done|]. by intros [= <- _].
Qed.

Lemma skip_zeros_bytes b : Forall is_byte b -> Forall is_byte (skip_zeros b).
Proof. induction 1; [constructor|]. cbn. destruct (_ =? 0); [done|by constructor]. Qed.

Lemma land_128 b : is_byte b -> Z.land b 128 = 0 -> b < 128.
Proof.
  intros Hb H. destruct (Z.ltb_spec b 128) as [|Hge]; [done|].
  enough (Z.testbit (Z.land b 128) 7 = true) by (rewrite H, Z.bits_0 in *; done).
  rewrite Z.land_spec. change (Z.testbit 128 7) with true. rewrite andb_true_r.
  apply Z.testbit_true; [lia|]. unfold is_byte in Hb. unfold_ints.
  assert (b / 2 ^ 7 = 1) as ->; [|done]. symmetry. apply (Z.div_unique b (2 ^ 7) 1 (b - 128)); lia.
Qed.

Section numbers.
Context {AS : Asn1}.

Lemma positive_int_value bs i : Forall is_byte bs -> positive_int bs = Ok i -> be_value i = be_value bs.
Proof.
  intros Hb H. rewrite <- (be_value_skip_zeros bs). unfold positive_int, der in H. apply ok_or_Ok in H.
  destruct (skip_zeros bs) as [|x r] eqn:E.
  - cbn [app] in H. rewrite int_new_positive in H by lia. by injection H as <-.
  - assert (is_byte x) as Hx.
    { pose proof (skip_zeros_bytes bs Hb) as Hs. rewrite E in Hs. by apply list.Forall_cons in Hs as [? _]. }
    destruct (Z.eqb_spec (Z.land x 128) 0) as [H0|H0]; cbn [negb app] in H.
    + pose proof (land_128 x Hx H0). unfold is_byte in Hx. unfold_ints.
      rewrite int_new_positive in H by lia. by injection H as <-.
    + rewrite int_new_positive in H by lia. injection H as <-. apply be_value_zero.
Qed.

Lemma positive_int_total bs : Forall is_byte bs -> exists i, positive_int bs = Ok i.
Proof.
  intros Hb. unfold positive_int, der. destruct (skip_zeros bs) as [|x r] eqn:E.
  - cbn [app]. rewrite int_new_positive by lia. by eexists.
  - assert (is_byte x) as Hx.
    { pose proof (skip_zeros_bytes bs Hb) as Hs. rewrite E in Hs. by apply list.Forall_cons in Hs as [? _]. }
    destruct (Z.eqb_spec (Z.land x 128) 0) as [H0|H0]; cbn [negb app].
    + pose proof (land_128 x Hx H0). unfold is_byte in Hx. unfold_ints.
      rewrite int_new_positive by lia. by eexists.
    + rewrite int_new_positive by lia. by eexists.
Qed.

(** The number an [INTEGER] with these content octets is: two's complement. *)
Definition der_integer (l : list Z) : Z :=
  be_value l - (if 128 <=? hd 0 l then 2 ^ (8 * Z.of_nat (length l)) else 0).

(** The octets of an accepted token's nonce, read without a sign, are the number
    that was sent. *)
Lemma check_nonce_Ok n tst : is_u 64 n -> check_nonce (Some n) tst = Ok tt ->
  exists got, tst_nonce tst = Some got /\ be_value got = n.
Proof.
  intros Hn H. unfold check_nonce in H. apply bind_Ok in H as (sent & Hs & H). apply refuse_if_Ok in H.
  destruct (tst_nonce tst) as [got|]; [|done]. exists got. split; [done|].
  apply negb_false_iff, bool_decide_eq_true in H.
  apply positive_int_value in Hs; [|apply be_bytes_bytes].
  rewrite <- be_value_int_value, H, be_value_int_value, Hs. by apply (be_value_be_bytes 8).
Qed.

(** The comparison drops the zero octet that keeps a number of 64 bits positive,
    so a token whose nonce is negative passes for one that carries the number
    sent: 200 is sent as the octets 0, 200, and a nonce of -56 is the octet 200. *)
Lemma negative_nonce_accepted tst : tst_nonce tst = Some [200] ->
  der_integer [200] = -56 /\ check_nonce (Some 200) tst = Ok tt.
Proof.
  intros H. split; [by vm_compute|]. unfold check_nonce. destruct (positive_int_total (be_bytes 8 200)) as [sent Hs];
    [apply be_bytes_bytes|]. rewrite Hs, H. unfold positive_int, der in Hs. apply ok_or_Ok in Hs.
  change (skip_zeros (be_bytes 8 200)) with [200] in Hs. cbn [app] in Hs.
  change (if negb _ then [0] else []) with [0] in Hs. cbn [app] in Hs. rewrite int_new_positive in Hs by lia. by injection Hs as <-.
Qed.
End numbers.

(** ** What the checks amount to *)

Section accepted.
Context {HF : HashFunctions} {B64 : Base64} {AS : Asn1} {TC : TsaCrypto}.

(** The encoded [TSTInfo] and the one signer of a token. *)
Definition token_parts (token : ContentInfo) : option (list Z * SignerInfo) :=
  signed ← signed_data_decode_as (ci_content token);
  econtent ← sd_econtent signed;
  tst_der ← octet_string_decode_as econtent;
  match sd_signer_infos signed with [info] => Some (tst_der, info) | _ => None end.

Definition response_token (response : list Z) : option ContentInfo :=
  resp ← time_stamp_resp_from_der response; tr_time_stamp_token resp.

(** The bytes the authority signed. *)
Definition signed_bytes_of (info : SignerInfo) : option (list Z) := si_signed_attrs info ≫= attributes_to_der.

(** The key of the certificate verifies the signature, by the scheme the
    certificate's key is for and with the digest the signer names. *)
Definition signature_verifies (pin : PinnedTsa) (info : SignerInfo) : Prop :=
  exists bytes digest key,
    let alg := alg_oid (si_digest_alg info) in
    signed_bytes_of info = Some bytes /\ hash alg bytes = Ok digest /\ tbs_public_key (pin_cert pin) = Some key /\
    (alg_oid (tbs_key_algorithm (pin_cert pin)) = RSA_ENCRYPTION /\ rsa_verify key alg digest (si_signature info) = true
     \/ alg_oid (tbs_key_algorithm (pin_cert pin)) = ID_EC_PUBLIC_KEY /\
        exists curve, (alg_parameters (tbs_key_algorithm (pin_cert pin)) ≫= oid_decode_as) = Some curve /\
          (curve = SECP256R1 /\ p256_verify key digest (si_signature info) = true \/
           curve = SECP384R1 /\ p384_verify key digest (si_signature info) = true)).

(** The certificate may sign timestamps and nothing else. *)
Definition timestamping_only (c : Certificate) : Prop :=
  exists e, List.filter (fun e => String.eqb (extn_id e) ID_CE_EXT_KEY_USAGE) (extensions_of c) = [e] /\
    extn_critical e = true /\ extended_key_usage_from_der (extn_value e) = Some [ID_KP_TIME_STAMPING].

(** The signed attributes carry the digest of the [TSTInfo]. *)
Definition binds_content (info : SignerInfo) (tst_der : list Z) : Prop :=
  exists attrs any h, si_signed_attrs info = Some attrs /\ single attrs ID_MESSAGE_DIGEST = Ok any /\
    octet_string_decode_as any = Some h /\ hash (alg_oid (si_digest_alg info)) tst_der = Ok h.

Record accepted (response digest : list Z) (nonce : option Z) (pinned : list PinnedTsa) (v : VerifiedTimestamp)
    (tst_der : list Z) (tst : TstInfo) (info : SignerInfo) (pin : PinnedTsa) : Prop := {
  acc_parts : (response_token response ≫= token_parts) = Some (tst_der, info);
  acc_tst : tst_info_from_der tst_der = Some tst;
  acc_imprint : alg_oid (mi_hash_algorithm (tst_message_imprint tst)) = ID_SHA256 /\
    mi_hashed_message (tst_message_imprint tst) = digest;
  acc_nonce : check_nonce nonce tst = Ok tt;
  acc_pin : pin ∈ pinned /\ pin_matches pin (si_sid info) = true;
  acc_content : binds_content info tst_der;
  acc_signature : signature_verifies pin info;
  acc_usage : timestamping_only (pin_cert pin);
  acc_validity : tbs_not_before (pin_cert pin) <= tst_gen_time tst <= tbs_not_after (pin_cert pin);
  acc_named : check_signing_certificate info pin = Ok tt;
  acc_result : v = mkVerifiedTimestamp (tst_gen_time tst) (accuracy_of tst)
    (int_value (tst_serial_number tst)) (tst_policy tst) (subject pin)
}.

Lemma usage_Ok pin : check_timestamping_usage pin = Ok tt -> timestamping_only (pin_cert pin).
Proof.
  unfold check_timestamping_usage, timestamping_only. intros H.
  destruct (List.filter _ _) as [|e [|]]; [done| |done].
  destruct (extn_critical e) eqn:Ec; [|done]. cbn [andb] in H. case_bool_decide; [|done]. by exists e.
Qed.

Lemma validity_Ok pin t : check_validity pin t = Ok tt ->
  tbs_not_before (pin_cert pin) <= t <= tbs_not_after (pin_cert pin).
Proof. unfold check_validity. destruct (_ && _) eqn:E; [|done]. propify. lia. Qed.

Lemma attributes_Ok info tst_der : check_signed_attributes info tst_der = Ok tt -> binds_content info tst_der.
Proof.
  unfold check_signed_attributes, der, binds_content. intros H. open_results.
  subst. by eauto 10.
Qed.

Lemma signature_Ok pin info : verify_signature pin info = Ok tt -> signature_verifies pin info.
Proof.
  unfold verify_signature, der, signature_verifies, signed_bytes_of. intros H. open_results.
  match goal with H : si_signed_attrs info = Some _ |- _ => rewrite H end. cbn [mbind option_bind].
  do 3 eexists. split; [eassumption|]. split; [eassumption|]. split; [eassumption|].
  destruct (one_of _ [RSA_ENCRYPTION; _; _; _]) eqn:Er.
  - unfold verify_rsa in H. open_results. propify. left.
    split; [by apply String.eqb_eq|done].
  - destruct (one_of _ [ECDSA_WITH_SHA256; _; _]); [|done]. unfold verify_ecdsa in H. open_results. right. propify.
    split; [by apply String.eqb_eq|].
    match goal with H : alg_parameters _ = Some _ |- _ => rewrite H end. cbn [mbind option_bind].
    eexists. split; [eassumption|]. destruct (String.eqb_spec x4 SECP256R1) as [->|].
    + open_results. propify. by left.
    + destruct (String.eqb_spec x4 SECP384R1) as [->|]; [|done]. open_results. propify. by right.
Qed.

Lemma token_accepted token digest nonce pinned v : verify_token token digest nonce pinned = Ok v ->
  exists tst_der tst info pin, token_parts token = Some (tst_der, info) /\
    forall response, response_token response = Some token ->
      accepted response digest nonce pinned v tst_der tst info pin.
Proof.
  unfold verify_token, der. intros H. open_results.
  destruct (sd_signer_infos _) as [|info [|]] eqn:Es; try done. open_results.
  match goal with H : List.find _ _ = Some _ |- _ => apply List.find_some in H as [Hin%list_elem_of_In Hm] end.
  assert (token_parts token = Some (x1, x3)) as Hp.
  { unfold token_parts. rewrite Hr0. cbn [mbind option_bind]. rewrite Hr2. cbn [mbind option_bind].
    rewrite Hr3. cbn [mbind option_bind]. by rewrite Es. }
  exists x1, x2, x3, x4. split; [exact Hp|]. intros r Hr'. propify. destruct Hr5 as [Ha Hi].
  constructor; auto using attributes_Ok, signature_Ok, usage_Ok, validity_Ok.
  - by rewrite Hr'.
  - split; [by apply String.eqb_eq|by apply (bool_decide_eq_true_1 _) in Hi].
Qed.

Lemma response_accepted response digest nonce pinned v : verify_response response digest nonce pinned = Ok v ->
  exists tst_der tst info pin, accepted response digest nonce pinned v tst_der tst info pin.
Proof.
  unfold verify_response, der. intros H. open_results.
  apply token_accepted in H as (tst_der & tst & info & pin & _ & H). exists tst_der, tst, info, pin. apply H.
  unfold response_token. by rewrite Hr0.
Qed.

(** The certificate is the one an ESS attribute identifies. *)
Definition identifies (pin : PinnedTsa) (cert_hash hashed : list Z) (issuer : option IssuerSerial) : Prop :=
  cert_hash = hashed /\
  forall i, issuer = Some i ->
    is_serial_number i = tbs_serial_number (pin_cert pin) /\ DirectoryName (tbs_issuer (pin_cert pin)) ∈ is_issuer i.

(** The signed attributes name the certificate: there is an ESS attribute, and
    the first certificate in each one there is is this one. *)
Definition names_certificate (info : SignerInfo) (pin : PinnedTsa) : Prop :=
  exists attrs v1 v2, si_signed_attrs info = Some attrs /\
    attribute_value attrs ID_AA_SIGNING_CERTIFICATE = Ok v1 /\ attribute_value attrs ID_AA_SIGNING_CERTIFICATE_V2 = Ok v2 /\
    (is_Some v1 \/ is_Some v2) /\
    (forall any, v1 = Some any -> exists sc first, signing_certificate_decode_as any = Some sc /\
       head (sc_certs sc) = Some first /\
       identifies pin (ess_cert_hash first) (sha1 (pin_der pin)) (ess_issuer_serial first)) /\
    (forall any, v2 = Some any -> exists sc first hashed, signing_certificate_v2_decode_as any = Some sc /\
       head (sc2_certs sc) = Some first /\
       hash (match ess2_hash_algorithm first with None => ID_SHA256 | Some a => alg_oid a end) (pin_der pin) = Ok hashed /\
       identifies pin (ess2_cert_hash first) hashed (ess2_issuer_serial first)).

Lemma is_named_by_spec pin cert_hash hashed issuer : is_named_by pin cert_hash hashed issuer = true ->
  identifies pin cert_hash hashed issuer.
Proof.
  unfold is_named_by, identifies. intros [H1 H2]%andb_true_iff. apply bool_decide_eq_true in H1. split; [done|].
  intros i ->. apply andb_true_iff in H2 as [Hs Hi]. apply bool_decide_eq_true in Hs. split; [done|].
  apply existsb_exists in Hi as (g & Hg%list_elem_of_In & Hn). destruct g; try done. apply bool_decide_eq_true in Hn. by subst.
Qed.

Lemma signing_certificate_Ok info pin : check_signing_certificate info pin = Ok tt -> names_certificate info pin.
Proof.
  unfold check_signing_certificate, names_certificate. intros H. open_results. do 3 eexists. split_and!; try eassumption.
  - destruct x0, x1; try done; eauto.
  - intros any ->. unfold check_v1, der in *. open_results. eauto 8 using is_named_by_spec.
  - intros any ->. unfold check_v2, der in *. open_results. eauto 8 using is_named_by_spec.
Qed.

Lemma response_granted response digest nonce pinned v : verify_response response digest nonce pinned = Ok v ->
  exists resp, time_stamp_resp_from_der response = Some resp /\ tr_status resp <= 1.
Proof. unfold verify_response, der. intros H. open_results. propify. eauto. Qed.

(** What the authority signed determines the encoded [TSTInfo], unless the digest
    it used collides. *)
Lemma signed_content info1 info2 tst1 tst2 :
  binds_content info1 tst1 -> binds_content info2 tst2 ->
  alg_oid (si_digest_alg info1) = alg_oid (si_digest_alg info2) ->
  signed_bytes_of info1 = signed_bytes_of info2 -> is_Some (signed_bytes_of info1) ->
  (forall h, hash (alg_oid (si_digest_alg info1)) tst1 = Ok h ->
             hash (alg_oid (si_digest_alg info1)) tst2 = Ok h -> tst1 = tst2) ->
  tst1 = tst2.
Proof.
  intros (a1 & y1 & h1 & Ha1 & Hs1 & Hd1 & Hh1) (a2 & y2 & h2 & Ha2 & Hs2 & Hd2 & Hh2) Halg Heq [b Hb] Hcf.
  assert (a1 = a2) as <-.
  { unfold signed_bytes_of in *. rewrite Ha1 in Hb, Heq. rewrite Ha2 in Heq. cbn in Hb, Heq.
    apply (attributes_to_der_inj a1 a2 b); [done|]. by rewrite <- Heq. }
  rewrite Hs1 in Hs2. injection Hs2 as <-. rewrite Hd1 in Hd2. injection Hd2 as <-.
  apply (Hcf h1); [done|]. by rewrite Halg.
Qed.

(** One signature of a timestamping authority speaks for one digest and one
    time: two responses accepted on the strength of the same signed bytes, for
    whatever digests, nonces and pinned certificates, are about the same digest
    and give the same time, unless the authority's digest algorithm maps the
    two signed statements to one value. So a token can be neither moved to
    another checkpoint nor redated. *)
Theorem tsa_signature_binds r1 r2 d1 d2 n1 n2 ps1 ps2 v1 v2 t1 t2 i1 i2 :
  verify_response r1 d1 n1 ps1 = Ok v1 -> verify_response r2 d2 n2 ps2 = Ok v2 ->
  (response_token r1 ≫= token_parts) = Some (t1, i1) -> (response_token r2 ≫= token_parts) = Some (t2, i2) ->
  alg_oid (si_digest_alg i1) = alg_oid (si_digest_alg i2) ->
  signed_bytes_of i1 = signed_bytes_of i2 ->
  (forall h, hash (alg_oid (si_digest_alg i1)) t1 = Ok h -> hash (alg_oid (si_digest_alg i1)) t2 = Ok h -> t1 = t2) ->
  d1 = d2 /\ vt_gen_time v1 = vt_gen_time v2 /\ VerifiedTimestamp_existed_by v1 = VerifiedTimestamp_existed_by v2.
Proof.
  intros (t1' & s1 & i1' & p1 & A1)%response_accepted (t2' & s2 & i2' & p2 & A2)%response_accepted H1 H2 Halg Hb Hcf.
  destruct A1 as [P1 T1 [_ I1] _ _ C1 (b1 & g1 & k1 & Hb1 & _) _ _ _ R1].
  destruct A2 as [P2 T2 [_ I2] _ _ C2 _ _ _ _ R2].
  rewrite H1 in P1. rewrite H2 in P2. simplify_eq.
  assert (t1' = t2') as <- by (eapply signed_content; [exact C1|exact C2|exact Halg|exact Hb|by eexists|exact Hcf]).
  rewrite T1 in T2. simplify_eq. done.
Qed.

(** Claim C18: An accepted response is a granted one, and was signed by a
    certificate the caller pinned, which may sign timestamps and nothing else and
    which the signed attributes name, over a statement with exactly this digest
    as its SHA-256 imprint. The stated time lies in that certificate's validity,
    and the bound used as evidence is not before it. If a nonce was sent the
    statement has one, and it is the number sent, or the negative number whose
    octets are those of the number sent. *)
Theorem verified_timestamp_sound response digest nonce pinned v :
  verify_response response digest nonce pinned = Ok v ->
  (exists resp, time_stamp_resp_from_der response = Some resp /\ tr_status resp <= 1) /\
  exists tst_der tst info pin,
    (response_token response ≫= token_parts) = Some (tst_der, info) /\ tst_info_from_der tst_der = Some tst /\
    alg_oid (mi_hash_algorithm (tst_message_imprint tst)) = ID_SHA256 /\
    mi_hashed_message (tst_message_imprint tst) = digest /\ binds_content info tst_der /\
    pin ∈ pinned /\ signature_verifies pin info /\ timestamping_only (pin_cert pin) /\ names_certificate info pin /\
    tbs_not_before (pin_cert pin) <= vt_gen_time v <= tbs_not_after (pin_cert pin) /\
    (is_u 64 (vt_gen_time v) -> vt_gen_time v <= VerifiedTimestamp_existed_by v) /\
    (forall n, nonce = Some n -> is_u 64 n -> exists got, tst_nonce tst = Some got /\
      (der_integer got = n \/ 128 <= hd 0 got /\ der_integer got = n - 2 ^ (8 * Z.of_nat (length got)))).
Proof.
  intros H. split; [by eapply response_granted|].
  apply response_accepted in H as (tst_der & tst & info & pin & A). destruct A. exists tst_der, tst, info, pin.
  destruct acc_imprint0 as [Ho Hi]. destruct acc_pin0 as [Hp _].
  split_and!; try done; rewrite ?acc_result0; try apply acc_validity0; [by apply signing_certificate_Ok| |].
  - cbn. intros Hu. unfold VerifiedTimestamp_existed_by. cbn.
    assert (0 <= accuracy_of tst).
    { unfold accuracy_of. destruct (tst_accuracy tst); [|done]. unfold saturate_u. unfold_ints. lia. }
    unfold saturate_u. unfold_ints. lia.
  - intros n -> Hn. destruct (check_nonce_Ok n tst Hn acc_nonce0) as (got & Hg & Hv). exists got. split; [done|].
    unfold der_integer. rewrite Hv. destruct (Z.leb_spec 128 (hd 0 got)); [right|left]; lia.
Qed.
End accepted.

(** ** A concrete token

    Encodings of one byte name the decoded values; one attribute set has an
    encoding. *)

#[local] Open Scope list_scope.

#[export] Instance Attribute_eq_dec : EqDecision Attribute.
Proof. solve_decision. Defined.

Definition toy_attributes : list Attribute :=
  [mkAttribute ID_CONTENT_TYPE [[1]]; mkAttribute ID_MESSAGE_DIGEST [[2]]; mkAttribute ID_AA_SIGNING_CERTIFICATE_V2 [[3]]].
Definition toy_tst_der : list Z := [9; 9].
Definition toy_stamped : list Z := replicate 32 5.
Definition toy_tst (stamped : list Z) : TstInfo :=
  mkTstInfo "1.2.3" (mkMessageImprint (mkAlgorithmIdentifier ID_SHA256 None) stamped) [0; 7] 1500
    (Some (mkAccuracy (Some 2) (Some 1) None)) (Some [0; 200]).
Definition toy_cert_der : list Z := [48; 1].
Definition toy_cert : Certificate :=
  mkCertificate [65] [1] [66] 1000 2000 (mkAlgorithmIdentifier RSA_ENCRYPTION None) (Some [77])
    (Some [mkExtension ID_CE_EXT_KEY_USAGE true [8]]).
Definition toy_info : SignerInfo :=
  mkSignerInfo (IssuerAndSerialNumber [65] [1]) (mkAlgorithmIdentifier ID_SHA256 None) (Some toy_attributes)
    (mkAlgorithmIdentifier SHA256_WITH_RSA None) [42].
Definition toy_resp : TimeStampResp := mkTimeStampResp 0 (Some (mkContentInfo ID_SIGNED_DATA [4])).

Definition when_is {A} (b : list Z) (v : A) (x : list Z) : option A := if bool_decide (x = b) then Some v else None.

(** An authority that stamped one digest. *)
Definition toy_asn1 (stamped : list Z) : Asn1.
Proof.
  refine {|
    certificate_from_der := when_is toy_cert_der toy_cert;
    subject_key_identifier_from_der := fun _ => None;
    extended_key_usage_from_der := when_is [8] [ID_KP_TIME_STAMPING];
    time_stamp_resp_from_der := when_is [6] toy_resp;
    content_info_from_der := fun _ => None;
    signed_data_decode_as := when_is [4] (mkSignedData ID_CT_TST_INFO (Some [5]) [toy_info]);
    octet_string_decode_as := fun x =>
      if bool_decide (x = [5]) then Some toy_tst_der else when_is [2] (toy_digest toy_tst_der) x;
    oid_decode_as := when_is [1] ID_CT_TST_INFO;
    tst_info_from_der := when_is toy_tst_der (toy_tst stamped);
    signing_certificate_decode_as := fun _ => None;
    signing_certificate_v2_decode_as := when_is [3]
      (mkSigningCertificateV2 [mkEssCertIdV2 None (toy_digest toy_cert_der) (Some (mkIssuerSerial [DirectoryName [65]] [1]))] None);
    attributes_to_der := fun a => if bool_decide (a = toy_attributes) then Some [10] else None;
    time_stamp_req_to_der := fun r => Some (mi_hashed_message (rq_message_imprint r));
    int_new := Some;
    name_to_string := string_of_bytes
  |}.
  - done.
  - intros a b d. by repeat case_bool_decide; intros; simplify_eq.
Defined.

#[export] Instance toy_tsa_crypto : TsaCrypto :=
  {| sha1 := toy_digest; sha384 := toy_digest; sha512 := toy_digest;
     rsa_key_decodes := fun _ => true;
     rsa_verify := fun key alg digest sig => bool_decide (key = [77]) && bool_decide (digest = toy_digest [10]) && bool_decide (sig = [42]);
     p256_key_decodes := fun _ => false; p256_signature_decodes := fun _ => false; p256_verify := fun _ _ _ => false;
     p384_key_decodes := fun _ => false; p384_signature_decodes := fun _ => false; p384_verify := fun _ _ _ => false |}.

#[local] Existing Instance toy_hash.
#[local] Existing Instance toy_b64.
#[local] Instance toy_asn1_stamped : Asn1 := toy_asn1 toy_stamped.

Definition toy_pin : PinnedTsa := mkPinnedTsa toy_cert toy_cert_der.
Definition toy_verified : VerifiedTimestamp := mkVerifiedTimestamp 1500 3 [7] "1.2.3" "B".

Lemma tsa_signature_binds_witness :
  toy_stamped = toy_stamped /\ vt_gen_time toy_verified = vt_gen_time toy_verified /\
  VerifiedTimestamp_existed_by toy_verified = VerifiedTimestamp_existed_by toy_verified.
Proof.
  apply (tsa_signature_binds [6] [6] toy_stamped toy_stamped (Some 200) None [toy_pin] [toy_pin]
    toy_verified toy_verified toy_tst_der toy_tst_der toy_info toy_info); try by vm_compute.
Defined.

Lemma verified_timestamp_sound_witness :
  (exists resp, time_stamp_resp_from_der [6] = Some resp /\ tr_status resp <= 1) /\
  exists tst_der tst info pin,
    (response_token [6] ≫= token_parts) = Some (tst_der, info) /\ tst_info_from_der tst_der = Some tst /\
    alg_oid (mi_hash_algorithm (tst_message_imprint tst)) = ID_SHA256 /\
    mi_hashed_message (tst_message_imprint tst) = toy_stamped /\ binds_content info tst_der /\
    pin ∈ [toy_pin] /\ signature_verifies pin info /\ timestamping_only (pin_cert pin) /\ names_certificate info pin /\
    tbs_not_before (pin_cert pin) <= vt_gen_time toy_verified <= tbs_not_after (pin_cert pin) /\
    (is_u 64 (vt_gen_time toy_verified) -> vt_gen_time toy_verified <= VerifiedTimestamp_existed_by toy_verified) /\
    (forall n, Some 200 = Some n -> is_u 64 n -> exists got, tst_nonce tst = Some got /\
      (der_integer got = n \/ 128 <= hd 0 got /\ der_integer got = n - 2 ^ (8 * Z.of_nat (length got)))).
Proof. apply (verified_timestamp_sound [6] toy_stamped (Some 200) [toy_pin] toy_verified). by vm_compute. Defined.
