(* ===== verification/Cli.v ===== *)
(** * The command line: texts, arguments and effects

    What the commands of [calybris-verify] share: decoding UTF-8, numbers and
    hexadecimal arguments, calendar dates, the parsed flags, and the effects as
    a state and error monad. The world a command runs in holds the files by
    path, the outcomes of the system calls to come, the bytes the system's
    generator will give, the clock, and what was printed. *)

From Stdlib Require Import String.
From S2P Require Import Prelude Kernel Bytes Text Crypto Merkle Checkpoint Witness Auditing Wal WalTree Ots Tsa.
#[local] Open Scope string_scope.
#[local] Open Scope list_scope.
#[local] Open Scope Z_scope.

(** ** Text *)

Definition is_scalar (c : Z) : Prop := 0 <= c < 55296 \/ 57344 <= c < 1114112.
#[export] Instance is_scalar_dec c : Decision (is_scalar c).
Proof. unfold is_scalar. apply _. Defined.

(** [String::from_utf8]. *)
Fixpoint from_utf8 (bs : list Z) : option text :=
  match bs with
  | [] => Some []
  | b :: r =>
      if continuation 0 127 b then cons b <$> from_utf8 r
      else match r with
      | c1 :: r1 =>
          if continuation 194 223 b then
            if continuation 128 191 c1
            then cons ((b - 192) * 64 + (c1 - 128)) <$> from_utf8 r1 else None
          else match r1 with
          | c2 :: r2 =>
              let lo := if b =? 224 then 160 else 128 in
              let hi := if b =? 237 then 159 else 191 in
              if continuation 224 239 b then
                if continuation lo hi c1 && continuation 128 191 c2
                then cons ((b - 224) * 4096 + (c1 - 128) * 64 + (c2 - 128)) <$> from_utf8 r2 else None
              else match r2 with
              | c3 :: r3 =>
                  let lo := if b =? 240 then 144 else 128 in
                  let hi := if b =? 244 then 143 else 191 in
                  if continuation 240 244 b && continuation lo hi c1 && continuation 128 191 c2
                     && continuation 128 191 c3
                  then cons ((b - 240) * 262144 + (c1 - 128) * 4096 + (c2 - 128) * 64 + (c3 - 128)) <$> from_utf8 r3
                  else None
              | [] => None
              end
          | [] => None
          end
      | [] => None
      end
  end.

(** [str::parse] to an unsigned integer of [w] bits: digits, a plus sign
    allowed before them. *)
Definition parse_uint (w : Z) (t : text) : option Z :=
  let digits := match t with 43 :: d => d | _ => t end in
  if negb (bool_decide (digits = [])) && forallb is_ascii_digit digits
  then checked_u w (decimal_value digits) else None.

(** [str::starts_with]. *)
Definition starts_with (p t : text) : bool := match strip_prefix p t with Some _ => true | None => false end.

(** [{:0n}] of a number that is not negative. *)
Definition pad0 (n : nat) (z : Z) : text := let d := show_u64 z in replicate (n - length d) 48 ++ d.

(** [slice::join]. *)
Fixpoint joined (sep : text) (ls : list text) : text :=
  match ls with [] => [] | [l] => l | l :: ls' => l ++ sep ++ joined sep ls' end.

(** [{:?}] of a vector of numbers. *)
Definition debug_list (l : list Z) : text := chars "[" ++ joined (chars ", ") (map show_u64 l) ++ chars "]".

(** ** Dates *)

(** Year, month and day, as [utc] computes them from the days since the
    epoch. *)
Definition civil (days : Z) : Z * Z * Z :=
  let z := days + 719468 in
  let era := z / 146097 in
  let doe := z mod 146097 in
  let yoe := (doe - doe / 1460 + doe / 36524 - doe / 146096) / 365 in
  let doy := doe - (365 * yoe + yoe / 4 - yoe / 100) in
  let mp := (5 * doy + 2) / 153 in
  let d := doy - (153 * mp + 2) / 5 + 1 in
  let m := if mp <? 10 then mp + 3 else mp - 9 in
  let y := yoe + era * 400 + (if m <=? 2 then 1 else 0) in
  (y, m, d).

(** [t] is a [u64]; nothing here leaves [i64]. *)
Definition utc (t : Z) : text :=
  let days := t / 86400 in
  let secs := t mod 86400 in
  let '(y, m, d) := civil days in
  pad0 4 y ++ chars "-" ++ pad0 2 m ++ chars "-" ++ pad0 2 d ++ chars " " ++ pad0 2 (secs / 3600) ++ chars ":"
  ++ pad0 2 (secs / 60 mod 60) ++ chars ":" ++ pad0 2 (secs mod 60) ++ chars " UTC".

(** ** Failures

    The code's failures are rendered texts; here they keep what the text is
    rendered from. [Panicked] stands for a panic. *)
Inductive Fail :=
| Message (s : string)
| NeedsValue (option : text)
| UnknownOption (option : text)
| IsRequired (option : string)
| NotA (what : string) (got : text)
| CannotRead (path : text)
| CannotWrite (path : text)
| CannotCreate (path : text)
| CannotLock (path : text)
| AlreadyExists (path : text)
| RemovedKey (e : Fail) (path : text)
| KeyLeftBehind (e : Fail) (path : text)
| OfNote (path : text) (e : CheckpointError)
| NotThisNote (path : text) (why : string)
| OfWal (path : text) (e : WalMerkleError)
| CannotOpenWal (path : text)
| InvalidHex (offset : Z)
| OfCheckpoint (e : CheckpointError)
| OfMerkle (e : MerkleError)
| OfWitness (e : WitnessError)
| OfStore (e : string)
| OfAudit (e : AuditError)
| OfOts (e : OtsError)
| OfTsa (e : TsaError)
| OfPin (path : text) (e : TsaError)
| OfFetch (url : text) (why : text)
| ArtifactTooLarge (kind : string)
| CannotParse (kind : string) (path : text)
| InvalidPolicy (e : TrustPolicyError)
| Panicked.

(** ** Effects *)

(** What a system call does: it succeeds, it fails, or (a write) it fails after
    some bytes. *)
Inductive Sys := Fine | Fails | FailsAfter (n : nat).

(** A report line's detail: a text, or a failure shown. *)
Inductive Detail := Said (t : text) | Because (e : Fail).

Inductive Tag := TagOk | TagFailed | TagPending | TagNote.

(** A printed line: plain text, a line of a report, or a message with the texts
    it mentions. *)
Inductive Line :=
| Plain (t : text)
| Reported (tag : Tag) (what : string) (detail : Detail)
| Told (what : string) (about : list text)
| Warned (about : text) (e : Fail)
| Refused (status : Z) (e : WitnessError)
| Verdict (command : string) (ok : bool) (detail : Detail).

(** Paths are names of regular files: no two of them name one file. *)
Record World := mkWorld {
  w_files : gmap text (list Z);
  w_sys : list Sys;
  w_store_io : list FileIo;
  w_random : list Z;
  w_clock : Z;
  w_stdout : list Line;
  w_stderr : list Line
}.

Definition set_files (m : gmap text (list Z)) (w : World) : World :=
  mkWorld m (w_sys w) (w_store_io w) (w_random w) (w_clock w) (w_stdout w) (w_stderr w).
Definition set_sys (l : list Sys) (w : World) : World :=
  mkWorld (w_files w) l (w_store_io w) (w_random w) (w_clock w) (w_stdout w) (w_stderr w).
Definition set_store_io (l : list FileIo) (w : World) : World :=
  mkWorld (w_files w) (w_sys w) l (w_random w) (w_clock w) (w_stdout w) (w_stderr w).
Definition set_random (l : list Z) (w : World) : World :=
  mkWorld (w_files w) (w_sys w) (w_store_io w) l (w_clock w) (w_stdout w) (w_stderr w).
Definition set_stdout (l : list Line) (w : World) : World :=
  mkWorld (w_files w) (w_sys w) (w_store_io w) (w_random w) (w_clock w) l (w_stderr w).
Definition set_stderr (l : list Line) (w : World) : World :=
  mkWorld (w_files w) (w_sys w) (w_store_io w) (w_random w) (w_clock w) (w_stdout w) l.

(** A command: the world changes even when it fails. *)
Definition cmd (A : Type) : Type := World -> result Fail A * World.
#[export] Instance cmd_ret : MRet cmd := fun A a w => (Ok a, w).
#[export] Instance cmd_bind : MBind cmd := fun A B f m w =>
  match m w with (Ok a, w') => f a w' | (Err e, w') => (Err e, w') end.

Definition lift {A} (r : result Fail A) : cmd A := fun w => (r, w).

(** A call that may panic. *)
Definition or_panic {E A} (f : E -> Fail) (o : option (result E A)) : result Fail A :=
  match o with None => Err Panicked | Some r => map_err f r end.

Definition println (t : text) : cmd unit := fun w => (Ok tt, set_stdout (w_stdout w ++ [Plain t]) w).
Definition print_line (l : Line) : cmd unit := fun w => (Ok tt, set_stdout (w_stdout w ++ [l]) w).
Definition eprintln (l : Line) : cmd unit := fun w => (Ok tt, set_stderr (w_stderr w ++ [l]) w).

(** The next system call's outcome. *)
Definition sys_call : cmd Sys := fun w =>
  match w_sys w with [] => (Ok Fine, w) | s :: l => (Ok s, set_sys l w) end.
Definition store_call : cmd FileIo := fun w =>
  match w_store_io w with [] => (Ok FileFine, w) | s :: l => (Ok s, set_store_io l w) end.

Definition get_file (path : text) : cmd (option (list Z)) := fun w => (Ok (w_files w !! path), w).
Definition put_file (path : text) (bytes : list Z) : cmd unit := fun w =>
  (Ok tt, set_files (<[path := bytes]> (w_files w)) w).
Definition drop_file (path : text) : cmd unit := fun w => (Ok tt, set_files (delete path (w_files w)) w).

(** [Result] as a value: a failure the caller inspects. *)
Definition attempt {A} (m : cmd A) : cmd (result Fail A) := fun w => let '(r, w') := m w in (Ok r, w').

(** [std::fs::read]. *)
Definition fs_read (path : text) : cmd (list Z) :=
  s ← sys_call; file ← get_file path;
  match s, file with Fine, Some bytes => mret bytes | _, _ => lift (Err (CannotRead path)) end.

(** [std::fs::symlink_metadata(path).is_ok()]. *)
Definition fs_exists (path : text) : cmd bool :=
  s ← sys_call; file ← get_file path;
  mret (match s, file with Fine, Some _ => true | _, _ => false end).

(** [std::fs::remove_file]. *)
Definition fs_remove (path : text) : cmd unit :=
  s ← sys_call; file ← get_file path;
  match s, file with Fine, Some _ => drop_file path | _, _ => lift (Err (CannotWrite path)) end.

(** [OpenOptions::create_new(true)]: an empty file, unless there is one. *)
Definition fs_create_new (path : text) : cmd unit :=
  s ← sys_call; file ← get_file path;
  match s, file with Fine, None => put_file path [] | _, _ => lift (Err (CannotCreate path)) end.

(** [file.write_all(bytes)] and [file.sync_all()] on a file just created. *)
Definition fs_write_all (path : text) (bytes : list Z) : cmd unit :=
  s ← sys_call; file ← get_file path;
  let written := default [] file in
  match s with
  | Fine => put_file path (written ++ bytes)
  | FailsAfter n => _ ← put_file path (written ++ take n bytes); lift (Err (CannotWrite path))
  | Fails => lift (Err (CannotWrite path))
  end.
Definition fs_sync (path : text) : cmd unit :=
  s ← sys_call; match s with Fine => mret tt | _ => lift (Err (CannotWrite path)) end.

(** [std::fs::rename]. *)
Definition fs_rename (from to : text) : cmd unit :=
  s ← sys_call; file ← get_file from;
  match s, file with
  | Fine, Some bytes => _ ← drop_file from; put_file to bytes
  | _, _ => lift (Err (CannotWrite to))
  end.

(** The helpers of [trust.rs] over them. *)
Definition read_text (path : text) : cmd text :=
  bytes ← fs_read path; lift (ok_or (from_utf8 bytes) (CannotRead path)).

Definition read_key_text (path : text) : cmd text := t ← read_text path; mret (trim t).

(** [std::fs::write]: the file is emptied, then written. *)
Definition write_file (path : text) (bytes : list Z) : cmd unit :=
  s ← sys_call;
  match s with
  | Fine => put_file path bytes
  | FailsAfter n => _ ← put_file path (take n bytes); lift (Err (CannotWrite path))
  | Fails => lift (Err (CannotWrite path))
  end.

Definition unix_now : cmd Z := fun w =>
  (if w_clock w <? 0 then Err (Message "the system clock is before 1970") else Ok (w_clock w), w).

Definition random (n : nat) : cmd (list Z) := fun w =>
  if Nat.ltb (length (w_random w)) n then (Err (Message "no system randomness"), w)
  else (Ok (take n (w_random w)), set_random (drop n (w_random w)) w).

(** [s.len() % 2 != 0 || !s.bytes().all(is_ascii_hexdigit)]; on hexadecimal
    digits a byte is two characters. *)
Fixpoint hex_pairs (t : text) : list Z :=
  match t with a :: b :: t' => (16 * hexdigit_value a + hexdigit_value b) :: hex_pairs t' | _ => [] end.

Definition unhex (s : text) : result Fail (list Z) :=
  let s := trim s in
  if negb (str_len s mod 2 =? 0) || negb (forallb is_ascii_hexdigit (as_bytes s))
  then Err (Message "expected hexadecimal") else Ok (hex_pairs s).

(** [parse_hex_key] of [calybris_verify.rs], on the bytes of the argument. *)
Definition hex_nibble (byte : Z) : option Z :=
  if (48 <=? byte) && (byte <=? 57) then Some (byte - 48)
  else if (97 <=? byte) && (byte <=? 102) then Some (byte - 97 + 10)
  else if (65 <=? byte) && (byte <=? 70) then Some (byte - 65 + 10)
  else None.

Fixpoint key_pairs (offset : Z) (bytes : list Z) : result Fail (list Z) :=
  match bytes with
  | a :: b :: rest =>
      high ← ok_or (hex_nibble a) (InvalidHex offset);
      low ← ok_or (hex_nibble b) (InvalidHex (offset + 1));
      key ← key_pairs (offset + 2) rest;
      Ok (Z.lor (Z.shiftl high 4) low :: key)
  | _ => Ok []
  end.

Definition parse_hex_key (hex_key : text) : result Fail (list Z) :=
  let bytes := as_bytes (trim hex_key) in
  _ ← refuse_if (negb (Z.of_nat (length bytes) mod 2 =? 0)) (Message "HMAC key hex must have even length");
  key ← key_pairs 0 bytes;
  _ ← refuse_if (Z.of_nat (length key) <? MIN_HMAC_KEY_BYTES) (Message "HMAC key must be at least 32 bytes (64 hex chars)");
  Ok key.

(** ** Arguments *)

Record Flags := mkFlags { f_positional : list text; f_pairs : list (text * text) }.

Fixpoint flags_loop (valued : list text) (args : list text) (positional : list text) (pairs : list (text * text))
    : result Fail Flags :=
  match args with
  | [] => Ok (mkFlags positional pairs)
  | a :: it =>
      if bool_decide (a ∈ valued) then
        match it with
        | [] => Err (NeedsValue a)
        | v :: it' => flags_loop valued it' positional (pairs ++ [(a, v)])
        end
      else if starts_with (chars "--") a then Err (UnknownOption a)
      else flags_loop valued it (positional ++ [a]) pairs
  end.
Definition Flags_parse (args valued : list text) : result Fail Flags := flags_loop valued args [] [].

Definition is_flag (name : string) (p : text * text) : bool := bool_decide (fst p = chars name).
Definition one (f : Flags) (name : string) : option text := snd <$> List.find (is_flag name) (rev (f_pairs f)).
Definition need (f : Flags) (name : string) : result Fail text := ok_or (one f name) (IsRequired name).
Definition all (f : Flags) (name : string) : list text := map snd (List.filter (is_flag name) (f_pairs f)).
Definition target (f : Flags) : result Fail text :=
  match f_positional f with
  | [x] => Ok x
  | _ => Err (Message "expected exactly one file argument")
  end.
