(* ===== verification/CliProps.v ===== *)
(** * The command line's texts and effects: lemmas

    UTF-8 round trips, the calendar against day counting, hexadecimal keys, and
    the inversion lemmas and automation for commands. *)

From Stdlib Require Import String.
From S2P Require Import Prelude Bytes Text Crypto Merkle Checkpoint Witness Auditing Wal WalTree Ots Tsa Cli.
#[local] Open Scope list_scope.
#[local] Open Scope Z_scope.

(** ** UTF-8 *)

Lemma in_range lo hi b : lo <= b <= hi -> continuation lo hi b = true.
Proof. unfold continuation. lia. Qed.
Lemma out_of_range lo hi b : hi < b -> continuation lo hi b = false.
Proof. unfold continuation. lia. Qed.

Lemma div_step c : c = 64 * (c / 64) + c mod 64 /\ 0 <= c mod 64 < 64.
Proof. split; [apply Z.div_mod; lia|apply Z.mod_pos_bound; lia]. Qed.

Lemma encode_utf8 c r : is_scalar c -> from_utf8 (encode_char c ++ r) = cons c <$> from_utf8 r.
Proof.
  intros Hc. unfold is_scalar in Hc. unfold encode_char.
  assert (c / 4096 = c / 64 / 64) as -> by (rewrite Z.div_div by lia; done).
  assert (c / 262144 = c / 64 / 64 / 64) as -> by (rewrite !Z.div_div by lia; done).
  destruct (div_step c) as [H0 R0]. destruct (div_step (c / 64)) as [H1 R1]. destruct (div_step (c / 64 / 64)) as [H2 R2].
  set (x2 := c / 64 / 64 / 64) in *. set (m2 := (c / 64 / 64) mod 64) in *. set (x1 := c / 64 / 64) in *.
  set (m1 := (c / 64) mod 64) in *. set (x0 := c / 64) in *. set (m0 := c mod 64) in *.
  destruct (Z.ltb_spec c 128); [|destruct (Z.ltb_spec c 2048); [|destruct (Z.ltb_spec c 65536)]]; cbn [from_utf8 app].
  - by rewrite in_range by lia.
  - rewrite (out_of_range 0 127), !in_range by lia. do 2 f_equal. lia.
  - rewrite (out_of_range 0 127), (out_of_range 194 223), (in_range 224 239), (in_range 128 191) by lia.
    rewrite in_range by (destruct (Z.eqb_spec (224 + x1) 224), (Z.eqb_spec (224 + x1) 237); lia).
    cbn [andb]. do 2 f_equal. lia.
  - rewrite (out_of_range 0 127), (out_of_range 194 223), (out_of_range 224 239), (in_range 240 244), !(in_range 128 191) by lia.
    rewrite in_range by (destruct (Z.eqb_spec (240 + x2) 240), (Z.eqb_spec (240 + x2) 244); lia).
    cbn [andb]. do 2 f_equal. lia.
Qed.

Lemma from_utf8_as_bytes t : Forall is_scalar t -> from_utf8 (as_bytes t) = Some t.
Proof.
  induction 1 as [|c t Hc _ IH]; [done|]. unfold as_bytes in *. cbn [flat_map].
  rewrite encode_utf8 by done. by rewrite IH.
Qed.

Lemma continuation_spec lo hi b : continuation lo hi b = true <-> lo <= b <= hi.
Proof. unfold continuation. lia. Qed.

(** The bytes of the character with these digits to the base 64. *)
Lemma div_64 q r : 0 <= r < 64 -> (q * 64 + r) / 64 = q /\ (q * 64 + r) mod 64 = r.
Proof. intros Hr. split; [rewrite Z.div_add_l, Z.div_small by lia; lia|].
  rewrite Z.add_comm, Z.mod_add by lia. by apply Z.mod_small. Qed.

Lemma encode_two b c1 : 194 <= b <= 223 -> 128 <= c1 <= 191 ->
  is_scalar ((b - 192) * 64 + (c1 - 128)) /\ encode_char ((b - 192) * 64 + (c1 - 128)) = [b; c1].
Proof.
  intros. split; [unfold is_scalar; lia|]. unfold encode_char.
  destruct (Z.ltb_spec ((b - 192) * 64 + (c1 - 128)) 128); [lia|].
  destruct (Z.ltb_spec ((b - 192) * 64 + (c1 - 128)) 2048); [|lia].
  destruct (div_64 (b - 192) (c1 - 128)) as [-> ->]; [lia|]. repeat f_equal; lia.
Qed.

Lemma encode_three b c1 c2 : 224 <= b <= 239 ->
  (if b =? 224 then 160 else 128) <= c1 <= (if b =? 237 then 159 else 191) -> 128 <= c2 <= 191 ->
  let c := (b - 224) * 4096 + (c1 - 128) * 64 + (c2 - 128) in is_scalar c /\ encode_char c = [b; c1; c2].
Proof.
  intros Hb H1 H2 c.
  assert (128 <= c1 <= 191 /\ is_scalar c /\ 2048 <= c < 65536) as (Hr & Hs & Hc).
  { unfold c, is_scalar. destruct (Z.eqb_spec b 224), (Z.eqb_spec b 237); lia. }
  split; [done|]. unfold encode_char. rewrite (proj2 (Z.ltb_ge c 128)), (proj2 (Z.ltb_ge c 2048)) by lia.
  destruct (Z.ltb_spec c 65536); [|lia].
  assert (c / 4096 = c / 64 / 64) as -> by (rewrite Z.div_div by lia; done).
  assert (c = ((b - 224) * 64 + (c1 - 128)) * 64 + (c2 - 128)) as -> by (unfold c; lia).
  destruct (div_64 ((b - 224) * 64 + (c1 - 128)) (c2 - 128)) as [-> ->]; [lia|].
  destruct (div_64 (b - 224) (c1 - 128)) as [-> ->]; [lia|]. repeat f_equal; lia.
Qed.

Lemma encode_four b c1 c2 c3 : 240 <= b <= 244 ->
  (if b =? 240 then 144 else 128) <= c1 <= (if b =? 244 then 143 else 191) -> 128 <= c2 <= 191 -> 128 <= c3 <= 191 ->
  let c := (b - 240) * 262144 + (c1 - 128) * 4096 + (c2 - 128) * 64 + (c3 - 128) in
  is_scalar c /\ encode_char c = [b; c1; c2; c3].
Proof.
  intros Hb H1 H2 H3 c.
  assert (128 <= c1 <= 191 /\ is_scalar c /\ 65536 <= c) as (Hr & Hs & Hc).
  { unfold c, is_scalar. destruct (Z.eqb_spec b 240), (Z.eqb_spec b 244); lia. }
  split; [done|]. unfold encode_char.
  rewrite (proj2 (Z.ltb_ge c 128)), (proj2 (Z.ltb_ge c 2048)), (proj2 (Z.ltb_ge c 65536)) by lia.
  assert (c / 4096 = c / 64 / 64) as -> by (rewrite Z.div_div by lia; done).
  assert (c / 262144 = c / 64 / 64 / 64) as -> by (rewrite !Z.div_div by lia; done).
  assert (c = (((b - 240) * 64 + (c1 - 128)) * 64 + (c2 - 128)) * 64 + (c3 - 128)) as -> by (unfold c; lia).
  destruct (div_64 (((b - 240) * 64 + (c1 - 128)) * 64 + (c2 - 128)) (c3 - 128)) as [-> ->]; [lia|].
  destruct (div_64 ((b - 240) * 64 + (c1 - 128)) (c2 - 128)) as [-> ->]; [lia|].
  destruct (div_64 (b - 240) (c1 - 128)) as [-> ->]; [lia|]. repeat f_equal; lia.
Qed.

(** A decoded text is the one that encodes to these bytes. *)
Lemma from_utf8_Some n : forall bs t, (length bs <= n)%nat -> from_utf8 bs = Some t ->
  Forall is_scalar t /\ as_bytes t = bs.
Proof.
  assert (forall c enc r t', is_scalar c /\ encode_char c = enc -> Forall is_scalar t' /\ as_bytes t' = r ->
    Forall is_scalar (c :: t') /\ as_bytes (c :: t') = enc ++ r) as Hcons.
  { intros c enc r t' [Hc <-] [Ht <-]. split; [by constructor|]. done. }
  induction n as [|n IH]; intros [|b r] t Hn H; cbn in Hn; try lia; try by (injection H as <-; split; [constructor|]).
  cbn [from_utf8] in H. destruct (continuation 0 127 b) eqn:E0.
  { apply continuation_spec in E0. apply fmap_Some in H as (t' & H & ->). apply (Hcons b [b] r).
    - split; [unfold is_scalar; lia|]. unfold encode_char. by rewrite (proj2 (Z.ltb_lt _ _)) by lia.
    - apply IH; [lia|done]. }
  destruct r as [|c1 r]; [done|]. destruct (continuation 194 223 b) eqn:E1.
  { destruct (continuation 128 191 c1) eqn:C1; [|done]. apply continuation_spec in E1, C1.
    apply fmap_Some in H as (t' & H & ->). apply (Hcons _ [b; c1] r); [by apply encode_two|].
    cbn in Hn. apply IH; [lia|done]. }
  destruct r as [|c2 r]; [done|]. destruct (continuation 224 239 b) eqn:E2.
  { destruct (_ && _) eqn:C; [|done]. apply andb_true_iff in C as [C1 C2]. apply continuation_spec in E2, C1, C2.
    apply fmap_Some in H as (t' & H & ->). apply (Hcons _ [b; c1; c2] r); [by apply encode_three|].
    cbn in Hn. apply IH; [lia|done]. }
  destruct r as [|c3 r]; [done|]. destruct (_ && _) eqn:C; [|done].
  apply andb_true_iff in C as [C C3]. apply andb_true_iff in C as [C C2]. apply andb_true_iff in C as [C C1].
  apply continuation_spec in C, C1, C2, C3.
  apply fmap_Some in H as (t' & H & ->). apply (Hcons _ [b; c1; c2; c3] r); [by apply encode_four|].
  cbn in Hn. apply IH; [lia|done].
Qed.

Lemma utf8_exact bs t : from_utf8 bs = Some t <-> Forall is_scalar t /\ as_bytes t = bs.
Proof.
  split; [by apply (from_utf8_Some (length bs))|]. intros [H <-]. by apply from_utf8_as_bytes.
Qed.

(** ** The calendar

    Counting days one at a time in the Gregorian calendar. *)

Definition is_leap (y : Z) : bool := (y mod 4 =? 0) && (negb (y mod 100 =? 0) || (y mod 400 =? 0)).
Definition days_in_month (y m : Z) : Z :=
  if m =? 2 then if is_leap y then 29 else 28
  else if (m =? 4) || (m =? 6) || (m =? 9) || (m =? 11) then 30 else 31.
Definition next_day (date : Z * Z * Z) : Z * Z * Z :=
  let '(y, m, d) := date in
  if d <? days_in_month y m then (y, m, d + 1)
  else if m <? 12 then (y, m + 1, 1) else (y + 1, 1, 1).

(** The day of an era, and its year within it. *)
Definition civil_of_era (doe : Z) : Z * Z * Z := civil (doe - 719468).
Definition shift_year (k : Z) (date : Z * Z * Z) : Z * Z * Z := let '(y, m, d) := date in (y + k, m, d).

Lemma civil_split days :
  civil days = shift_year ((days + 719468) / 146097 * 400) (civil_of_era ((days + 719468) mod 146097)).
Proof.
  unfold civil_of_era, civil. set (z := days + 719468).
  replace (z mod 146097 - 719468 + 719468) with (z mod 146097) by lia.
  rewrite Z.mod_mod by lia. rewrite (Z.div_small (z mod 146097) 146097) by (apply Z.mod_pos_bound; lia).
  cbn [shift_year]. f_equal. f_equal. lia.
Qed.

Lemma is_leap_shift y k : is_leap (y + k * 400) = is_leap y.
Proof.
  unfold is_leap. rewrite (Z.mod_add y k 400) by lia.
  replace (y + k * 400) with (y + (k * 100) * 4) at 1 by lia. rewrite Z.mod_add by lia.
  replace (y + k * 400) with (y + (k * 4) * 100) by lia. by rewrite Z.mod_add by lia.
Qed.

Lemma next_day_shift k date : next_day (shift_year (k * 400) date) = shift_year (k * 400) (next_day date).
Proof.
  destruct date as [[y m] d]. cbn [shift_year next_day]. unfold days_in_month. rewrite is_leap_shift.
  destruct (d <? _); [done|]. destruct (m <? 12); cbn [shift_year]; [done|]. f_equal. f_equal. lia.
Qed.

(** Years of an era run from March: [year_start] is the first day of one,
    [year_length] its length, [march_date] the date of a day of one. The leap
    day, if any, is in February of the next civil year. *)
Definition year_start (y : Z) : Z := 365 * y + y / 4 - y / 100.
Definition year_length (leap : bool) : Z := if leap then 366 else 365.
Definition month_day (doy : Z) : Z * Z :=
  let mp := (5 * doy + 2) / 153 in
  (if mp <? 10 then mp + 3 else mp - 9, doy - (153 * mp + 2) / 5 + 1).
Definition march_date (y doy : Z) : Z * Z * Z :=
  let '(m, d) := month_day doy in (y + (if m <=? 2 then 1 else 0), m, d).
Definition year_of_era (doe : Z) : Z := (doe - doe / 1460 + doe / 36524 - doe / 146096) / 365.

Lemma year_length_pos leap : 0 <= 0 < year_length leap.
Proof. by destruct leap. Qed.

Lemma year_start_mono a b : 0 <= a <= b -> year_start a <= year_start b.
Proof.
  intros. unfold year_start. pose proof (Z.div_le_mono a b 4). pose proof (Z.div_mod a 100 ltac:(lia)).
  pose proof (Z.mod_pos_bound a 100 ltac:(lia)). pose proof (Z.div_mod b 100 ltac:(lia)).
  pose proof (Z.mod_pos_bound b 100 ltac:(lia)). lia.
Qed.

(** Checking a property of [n] consecutive numbers. *)
Fixpoint all_from (p : Z -> bool) (n : nat) (z : Z) : bool :=
  match n with O => true | S n' => p z && all_from p n' (z + 1) end.
Lemma all_from_spec p n : forall from z, all_from p n from = true -> from <= z < from + Z.of_nat n -> p z = true.
Proof.
  induction n as [|n IH]; intros from z H Hz; [lia|]. cbn [all_from] in H. apply andb_true_iff in H as [H1 H2].
  destruct (Z.eq_dec z from) as [->|]; [done|]. apply (IH (from + 1)); [done|lia].
Qed.

Lemma year_of_era_mono a b : 0 <= a <= b -> b < 146097 -> year_of_era a <= year_of_era b.
Proof.
  intros Hab Hb. apply Z.div_le_mono; [lia|]. generalize dependent b. intros b [Ha Hab] Hb.
  pose proof (Z.div_mod a 1460 ltac:(lia)). pose proof (Z.mod_pos_bound a 1460 ltac:(lia)).
  pose proof (Z.div_mod b 1460 ltac:(lia)). pose proof (Z.mod_pos_bound b 1460 ltac:(lia)).
  pose proof (Z.div_mod a 36524 ltac:(lia)). pose proof (Z.mod_pos_bound a 36524 ltac:(lia)).
  pose proof (Z.div_mod b 36524 ltac:(lia)). pose proof (Z.mod_pos_bound b 36524 ltac:(lia)).
  pose proof (Z.div_mod a 146096 ltac:(lia)). pose proof (Z.mod_pos_bound a 146096 ltac:(lia)).
  pose proof (Z.div_mod b 146096 ltac:(lia)). pose proof (Z.mod_pos_bound b 146096 ltac:(lia)).
  assert (a / 36524 <= b / 36524) by (apply Z.div_le_mono; lia). lia.
Qed.

Definition year_ok (y : Z) : bool :=
  let len := year_length (is_leap (y + 1)) in
  (year_of_era (year_start y) =? y) && (year_of_era (year_start y + len - 1) =? y)
  && (year_start (y + 1) + (if y =? 399 then 1 else 0) =? year_start y + len).
Lemma years_checked : all_from year_ok 400 0 = true.
Proof. vm_compute. reflexivity. Qed.

Lemma year_facts y : 0 <= y < 400 -> let len := year_length (is_leap (y + 1)) in
  (forall doy, 0 <= doy < len -> year_start y + doy < 146097 -> year_of_era (year_start y + doy) = y) /\
  year_start (y + 1) + (if y =? 399 then 1 else 0) = year_start y + len.
Proof.
  intros Hy len. pose proof (all_from_spec _ _ _ y years_checked ltac:(lia)) as H. unfold year_ok in H.
  fold len in H. propify. destruct H as [[H1 H2] H3]. split; [|done]. intros doy Hd Hb.
  assert (0 <= year_start y) by (unfold year_start; pose proof (Z.div_pos y 4); pose proof (Z.div_le_upper_bound y 100 y); lia).
  assert (year_start y + len - 1 < 146097).
  { destruct (Z.eqb_spec y 399) as [->|]; [by vm_compute|].
    enough (year_start (y + 1) < 146097) by lia. unfold year_start.
    pose proof (Z.div_le_upper_bound (y + 1) 4 100). pose proof (Z.div_pos (y + 1) 100). lia. }
  apply Z.le_antisymm.
  - rewrite <- H2 at 2. apply year_of_era_mono; lia.
  - rewrite <- H1 at 1. apply year_of_era_mono; lia.
Qed.

Lemma era_position doe : 0 <= doe -> doe < 146097 ->
  exists y doy, 0 <= y < 400 /\ 0 <= doy < year_length (is_leap (y + 1)) /\ doe = year_start y + doy.
Proof.
  revert doe. apply (natlike_ind (fun doe => doe < 146097 -> _)).
  - intros _. exists 0, 0. by vm_compute.
  - intros doe H0 IH Hd. destruct (IH ltac:(lia)) as (y & doy & Hy & Hdoy & ->).
    destruct (year_facts y Hy) as [_ Hn]. cbv zeta in Hn.
    destruct (Z.ltb_spec (doy + 1) (year_length (is_leap (y + 1)))); [exists y, (doy + 1); lia|].
    exists (y + 1), 0. destruct (Z.eqb_spec y 399) as [->|] in Hn |- *.
    { change (year_start 399) with 145731 in *. change (year_length (is_leap (399 + 1))) with 366 in *. lia. }
    split; [lia|]. split; [|lia]. apply year_length_pos.
Qed.

Lemma civil_march y doy : 0 <= y < 400 -> 0 <= doy < year_length (is_leap (y + 1)) -> year_start y + doy < 146097 ->
  0 <= year_start y + doy -> civil_of_era (year_start y + doy) = march_date y doy.
Proof.
  intros Hy Hd Hb H0. destruct (year_facts y Hy) as [Hf _]. specialize (Hf doy Hd Hb).
  unfold civil_of_era, civil, march_date, month_day. replace (year_start y + doy - 719468 + 719468) with (year_start y + doy) by lia.
  rewrite (Z.div_small (year_start y + doy) 146097), (Z.mod_small (year_start y + doy) 146097) by lia. fold (year_of_era (year_start y + doy)). rewrite Hf.
  replace (year_start y + doy - (365 * y + y / 4 - y / 100)) with doy by (unfold year_start; lia).
  f_equal. f_equal. lia.
Qed.

(** The next day within a year that runs from March, [leap] saying whether its
    February is long. *)
Definition march_next (leap : bool) (date : Z * Z * Z) : Z * Z * Z :=
  let '(y, m, d) := date in
  let dim := if m =? 2 then if leap then 29 else 28 else days_in_month 1 m in
  if d <? dim then (y, m, d + 1) else if m <? 12 then (y, m + 1, 1) else (y + 1, 1, 1).

Definition march_day_ok (leap : bool) (doy : Z) : bool :=
  let '(y, m, d) := march_date 0 doy in
  (negb (m =? 2) || (y =? 1)) &&
  bool_decide (march_next leap (y, m, d) =
    if doy + 1 <? year_length leap then march_date 0 (doy + 1) else march_date 1 0).
Lemma march_days_checked leap : all_from (march_day_ok leap) (Z.to_nat (year_length leap)) 0 = true.
Proof. destruct leap; vm_compute; reflexivity. Qed.

Lemma march_date_shift y doy : march_date y doy = shift_year y (march_date 0 doy).
Proof. unfold march_date. destruct (month_day doy) as [m d]. cbn [shift_year]. f_equal. f_equal. lia. Qed.

Lemma next_day_march y doy : let leap := is_leap (y + 1) in 0 <= doy < year_length leap ->
  next_day (march_date y doy) = if doy + 1 <? year_length leap then march_date y (doy + 1) else march_date (y + 1) 0.
Proof.
  intros leap Hd.
  pose proof (all_from_spec _ _ _ doy (march_days_checked leap)) as H. rewrite Z2Nat.id in H by lia.
  specialize (H ltac:(lia)). rewrite !(march_date_shift y), (march_date_shift (y + 1)). unfold march_day_ok in H.
  destruct (march_date 0 doy) as [[y0 m] d]. apply andb_true_iff in H as [H2 H]. apply (bool_decide_eq_true_1 _) in H.
  assert (next_day (shift_year y (y0, m, d)) = shift_year y (march_next leap (y0, m, d))) as ->.
  { cbn [shift_year next_day march_next]. unfold days_in_month.
    destruct (Z.eqb_spec m 2) as [->|]; cbn [negb orb] in H2.
    - propify. subst y0. replace (1 + y) with (y + 1) by lia. fold leap.
      change (2 <? 12) with true. cbv iota. by destruct (d <? _); cbn [shift_year]; rewrite (Z.add_comm 1 y).
    - destruct (d <? _); [done|]. destruct (m <? 12); cbn [shift_year]; [done|]. do 2 f_equal. lia. }
  rewrite H. destruct (_ <? _); [done|]. change (march_date 1 0) with (1, 3, 1). change (march_date 0 0) with (0, 3, 1).
  cbn [shift_year]. do 2 f_equal. lia.
Qed.

Lemma era_next doe : 0 <= doe < 146097 -> next_day (civil_of_era doe) =
  if doe =? 146096 then shift_year 400 (civil_of_era 0) else civil_of_era (doe + 1).
Proof.
  intros [H0 Hd]. destruct (era_position doe H0 Hd) as (y & doy & Hy & Hdoy & ->).
  rewrite civil_march, next_day_march by done. destruct (year_facts y Hy) as [_ Hn]. cbv zeta in Hn.
  destruct (Z.ltb_spec (doy + 1) (year_length (is_leap (y + 1)))) as [Hl|Hl].
  - destruct (Z.eqb_spec (year_start y + doy) 146096) as [E|].
    + exfalso. destruct (Z.eqb_spec y 399) as [->|] in Hn.
      * change (year_start 399) with 145731 in *. change (year_length (is_leap (399 + 1))) with 366 in *. lia.
      * assert (year_start (y + 1) <= year_start 399); [|change (year_start 399) with 145731 in *; lia].
        apply year_start_mono. lia.
    + rewrite <- Z.add_assoc. rewrite civil_march; [done|done|lia|lia|lia].
  - destruct (Z.eqb_spec y 399) as [->|] in Hn.
    + change (year_start 399) with 145731 in *. change (year_length (is_leap (399 + 1))) with 366 in *.
      replace doy with 365 by lia. by vm_compute.
    + replace (year_start y + doy) with (year_start (y + 1) + 0 - 1) by lia.
      assert (year_start (y + 1) <= 145731).
      { change 145731 with (year_start 399). apply year_start_mono. lia. }
      destruct (Z.eqb_spec (year_start (y + 1) + 0 - 1) 146096); [lia|].
      rewrite Z.sub_add, civil_march; [done|lia|apply year_length_pos|lia|lia].
Qed.

Lemma civil_next days : civil (days + 1) = next_day (civil days).
Proof.
  rewrite (civil_split days), (civil_split (days + 1)), next_day_shift.
  set (z := days + 719468). replace (days + 1 + 719468) with (z + 1) by lia.
  pose proof (Z.div_mod z 146097 ltac:(lia)) as Hz. pose proof (Z.mod_pos_bound z 146097 ltac:(lia)) as Hr.
  rewrite era_next by done. destruct (Z.eqb_spec (z mod 146097) 146096) as [E|E].
  - rewrite <- (Z.div_unique (z + 1) 146097 (z / 146097 + 1) 0), <- (Z.mod_unique (z + 1) 146097 (z / 146097 + 1) 0) by lia.
    destruct (civil_of_era 0) as [[y m] d]. cbn [shift_year]. f_equal. f_equal. lia.
  - by rewrite <- (Z.div_unique (z + 1) 146097 (z / 146097) (z mod 146097 + 1)),
      <- (Z.mod_unique (z + 1) 146097 (z / 146097) (z mod 146097 + 1)) by lia.
Qed.

(** The date [utc] prints for a day is reached from 1 January 1970 by that many
    steps of the Gregorian calendar. *)
Lemma civil_counts n : civil (Z.of_nat n) = Nat.iter n next_day (1970, 1, 1).
Proof.
  induction n as [|n IH]; [by vm_compute|]. rewrite Nat2Z.inj_succ, <- Z.add_1_r, civil_next, IH. done.
Qed.

Example utc_known :
  utc 0 = chars "1970-01-01 00:00:00 UTC" /\ utc 1432827678 = chars "2015-05-28 15:41:18 UTC" /\
  utc 951782400 = chars "2000-02-29 00:00:00 UTC" /\ utc 4107542399 = chars "2100-02-28 23:59:59 UTC".
Proof. by vm_compute. Qed.

(** ** Commands *)

Lemma cmd_bind_Ok {A B} (m : cmd A) (k : A -> cmd B) w b w' :
  (m ≫= k) w = (Ok b, w') <-> exists a w1, m w = (Ok a, w1) /\ k a w1 = (Ok b, w').
Proof.
  unfold mbind, cmd_bind. split.
  - destruct (m w) as [[a|e] w1]; [|done]. eauto.
  - by intros (a & w1 & -> & H).
Qed.

Lemma cmd_bind_Err {A B} (m : cmd A) (k : A -> cmd B) w e w' :
  (m ≫= k) w = (Err e, w') <-> m w = (Err e, w') \/ exists a w1, m w = (Ok a, w1) /\ k a w1 = (Err e, w').
Proof.
  unfold mbind, cmd_bind. split.
  - destruct (m w) as [[a|e'] w1]; [eauto|]. intros [= -> ->]. by left.
  - intros [->|(a & w1 & -> & H)]; done.
Qed.

Lemma cmd_bind_run {A B} (m : cmd A) (k : A -> cmd B) w a w1 : m w = (Ok a, w1) -> (m ≫= k) w = k a w1.
Proof. unfold mbind, cmd_bind. by intros ->. Qed.

Lemma cmd_ret_Ok {A} (x : A) w a w' : mret (M := cmd) x w = (Ok a, w') -> a = x /\ w' = w.
Proof. by intros [= -> ->]. Qed.
Lemma lift_Ok {A} (r : result Fail A) w a w' : lift r w = (Ok a, w') -> r = Ok a /\ w' = w.
Proof. unfold lift. intros H. split; congruence. Qed.

Lemma get_file_Ok p w o w' : get_file p w = (Ok o, w') -> o = w_files w !! p /\ w' = w.
Proof. by intros [= -> ->]. Qed.

(** Unfold the run of a command that succeeded into the runs of its parts. *)
Ltac open_run :=
  repeat match goal with
  | H : (_ ≫= _) _ = (Ok _, _) |- _ =>
      let a := fresh "a" in let w1 := fresh "w" in let E := fresh "Hm" in
      apply cmd_bind_Ok in H as (a & w1 & E & H);
      repeat match type of a with
      | (_ * _)%type => let b := fresh "b" in destruct a as [a b]
      | unit => destruct a
      end; cbn beta iota in H
  | H : mret _ _ = (Ok _, _) |- _ => apply cmd_ret_Ok in H as [H ->]; simplify_eq
  | H : get_file _ _ = (Ok _, _) |- _ => apply get_file_Ok in H as [-> ->]
  | H : lift (Err _) _ = (Ok _, _) |- _ => discriminate H
  | H : lift _ _ = (Ok _, _) |- _ => apply lift_Ok in H as [H ->]
  end; open_results.

(** A command that changes no file and not the clock. *)
Definition quiet {A} (m : cmd A) : Prop := forall w r w', m w = (r, w') ->
  w_files w' = w_files w /\ w_clock w' = w_clock w.

Lemma quiet_bind {A B} (m : cmd A) (k : A -> cmd B) : quiet m -> (forall a, quiet (k a)) -> quiet (m ≫= k).
Proof.
  intros Hm Hk w r w'. unfold mbind, cmd_bind. destruct (m w) as [[a|e] w1] eqn:E.
  - intros H. apply Hm in E as [E1 E2]. apply Hk in H as [-> ->]. done.
  - intros [= <- <-]. by apply Hm in E.
Qed.
Lemma quiet_ret {A} (a : A) : quiet (mret (M := cmd) a).
Proof. by intros w r w' [= <- <-]. Qed.
Lemma quiet_lift {A} (r : result Fail A) : quiet (lift r).
Proof. by intros w r' w' [= <- <-]. Qed.
Lemma quiet_print l : quiet (print_line l).
Proof. by intros w r w' [= <- <-]. Qed.
Lemma quiet_println t : quiet (println t).
Proof. by intros w r w' [= <- <-]. Qed.
Lemma quiet_eprintln l : quiet (eprintln l).
Proof. by intros w r w' [= <- <-]. Qed.
Lemma quiet_sys_call : quiet sys_call.
Proof. intros w r w'. unfold sys_call. destruct (w_sys w); by intros [= <- <-]. Qed.
Lemma quiet_get_file p : quiet (get_file p).
Proof. by intros w r w' [= <- <-]. Qed.
Lemma quiet_clock : quiet unix_now.
Proof. intros w r w'. unfold unix_now. destruct (_ <? 0); by intros [= <- <-]. Qed.
Lemma quiet_random n : quiet (random n).
Proof. intros w r w'. unfold random. destruct (Nat.ltb _ _); by intros [= <- <-]. Qed.
Create HintDb quiet.
#[export] Hint Resolve quiet_bind quiet_ret quiet_lift quiet_print quiet_println quiet_eprintln quiet_sys_call
  quiet_get_file quiet_clock quiet_random : quiet.

(** Go through a command and close its quiet leaves. *)
Ltac quiet_step :=
  match goal with
  | |- forall _ : _, _ => intros ?
  | |- quiet (_ ≫= _) => apply quiet_bind
  | |- quiet (let '(_, _) := ?x in _) => destruct x
  | |- quiet (match ?x with _ => _ end) => destruct x
  | |- quiet (match ?x with _ => _ end _) => destruct x
  | |- quiet _ => solve [auto with quiet]
  end.
Ltac solve_quiet := repeat quiet_step.

Lemma quiet_fs_read p : quiet (fs_read p).
Proof. unfold fs_read. solve_quiet. Qed.
#[export] Hint Resolve quiet_fs_read : quiet.
Lemma quiet_read_text p : quiet (read_text p).
Proof. unfold read_text. solve_quiet. Qed.
#[export] Hint Resolve quiet_read_text : quiet.
Lemma quiet_read_key_text p : quiet (read_key_text p).
Proof. unfold read_key_text. solve_quiet. Qed.
#[export] Hint Resolve quiet_read_key_text : quiet.
Lemma quiet_mapM {A B} (f : A -> cmd B) l : (forall a, quiet (f a)) -> quiet (mapM f l).
Proof.
  intros Hf. induction l as [|x l IH]; cbn [mapM]; [apply quiet_ret|].
  apply quiet_bind; [apply Hf|]. intros y. apply quiet_bind; [exact IH|]. intros ys. apply quiet_ret.
Qed.
#[export] Hint Resolve quiet_mapM : quiet.

(** ** What was read *)

(** A file holds this text. *)
Definition holds (files : gmap text (list Z)) (path t : text) : Prop :=
  exists bytes, files !! path = Some bytes /\ from_utf8 bytes = Some t.

Lemma fs_read_Ok p w bytes w' : fs_read p w = (Ok bytes, w') -> w_files w !! p = Some bytes.
Proof.
  unfold fs_read. intros H. open_run.
  pose proof (quiet_sys_call _ _ _ Hm) as [Hf _]. rewrite Hf in H.
  destruct a; [|done|done]. destruct (w_files w !! p); [|done]. by injection H as <- <-.
Qed.

Lemma read_text_Ok p w t w' : read_text p w = (Ok t, w') -> holds (w_files w) p t.
Proof. unfold read_text. intros H. open_run. apply fs_read_Ok in Hm. by exists a. Qed.

Lemma read_key_text_Ok p w t w' : read_key_text p w = (Ok t, w') -> exists t0, holds (w_files w) p t0 /\ t = trim t0.
Proof. unfold read_key_text. intros H. open_run. apply read_text_Ok in Hm. eauto. Qed.

Lemma mapM_Ok {A B} (f : A -> cmd B) (P : World -> A -> B -> Prop) l : (forall a, quiet (f a)) ->
  (forall w w' a b, w_files w = w_files w' -> P w a b -> P w' a b) ->
  (forall a w b w', f a w = (Ok b, w') -> P w a b) ->
  forall w bs w', mapM f l w = (Ok bs, w') -> Forall2 (P w) l bs.
Proof.
  intros Hq Hw Hf. induction l as [|x l IH]; intros w bs w' H; cbn [mapM] in H; open_run; [constructor|].
  constructor; [by eapply Hf|]. apply IH in Hm0. destruct (Hq _ _ _ _ Hm) as [E _].
  eapply Forall2_impl; [|exact Hm0]. intros a' b'. by apply Hw.
Qed.
