(* ===== verification/Trust.v ===== *)
(** * Checkpoints, witnesses and timestamps at the command line
      ([src/bin/calybris_verify/trust.rs])

    Every subcommand of [checkpoint] and [witness] with the effects of [Cli],
    built with the feature [preview-tsa], on Unix. An exit code is a number; a
    panic's is 101. *)

From Stdlib Require Import String.
From S2P Require Import Prelude Bytes Text Crypto Merkle Checkpoint Witness Auditing Wal WalTree Ots Tsa Cli.
#[local] Open Scope string_scope.
#[local] Open Scope list_scope.
#[local] Open Scope Z_scope.

Definition SUCCESS : Z := 0.
Definition FAILURE : Z := 1.
Definition EXIT_USAGE : Z := 2.
Definition EXIT_INCOMPLETE : Z := 3.
Definition EXIT_PANIC : Z := 101.

Definition DEFAULT_CALENDARS : list text :=
  [chars "https://a.pool.opentimestamps.org"; chars "https://b.pool.opentimestamps.org";
   chars "https://a.pool.eternitywall.com"; chars "https://ots.btc.catallaxy.com"].
Definition DEFAULT_UPGRADE_ALLOWLIST : list text :=
  [chars "https://*.calendar.opentimestamps.org"; chars "https://*.calendar.eternitywall.com";
   chars "https://*.calendar.catallaxy.com"].

(** ** New key files *)

Definition write_and_sync (path : text) (bytes : list Z) : cmd unit :=
  _ ← fs_write_all path bytes; fs_sync path.

Definition fill_or_remove (path : text) (fill : cmd unit) : cmd unit :=
  filled ← attempt fill;
  match filled with
  | Ok _ => mret tt
  | Err e => _ ← attempt (fs_remove path); lift (Err e)
  end.

(** On Unix the mode is part of the creation, so both files are written alike. *)
Definition write_new_secret (path : text) (bytes : list Z) : cmd unit :=
  _ ← fs_create_new path; fill_or_remove path (write_and_sync path bytes).
Definition write_new_public (path : text) (bytes : list Z) : cmd unit :=
  _ ← fs_create_new path; fill_or_remove path (write_and_sync path bytes).

Definition refuse_existing (path : text) : cmd unit :=
  there ← fs_exists path; if there : bool then lift (Err (AlreadyExists path)) else mret tt.

Definition write_key_pair (skey_path skey vkey_path vkey : text) : cmd unit :=
  _ ← refuse_existing skey_path;
  _ ← refuse_existing vkey_path;
  _ ← write_new_secret skey_path (as_bytes (skey ++ [10]));
  written ← attempt (write_new_public vkey_path (as_bytes (vkey ++ [10])));
  match written with
  | Ok _ => mret tt
  | Err e =>
      removed ← attempt (fs_remove skey_path);
      lift (Err (match removed with Ok _ => RemovedKey e skey_path | Err _ => KeyLeftBehind e skey_path end))
  end.

(** ** Replacing a file beside a lock

    Code that runs under a lock is the sequence of its steps, since other
    processes run between them: [Act] is a step on the files, [Acquire] waits
    until no other process has the lock, and [Release] is the lock file being
    dropped on the way out. *)

Inductive steps :=
| Finished (r : result Fail unit)
| Act (f : World -> steps * World)
| Acquire (lock : text) (k : steps)
| Release (lock : text) (r : result Fail unit).

Definition act {A} (c : cmd A) (k : A -> steps) (bad : Fail -> steps) : steps :=
  Act (fun w => match c w with (Ok a, w') => (k a, w') | (Err e, w') => (bad e, w') end).

(** The steps of one process with no other in between. *)
Fixpoint run_alone (s : steps) (w : World) : result Fail unit * World :=
  match s with
  | Finished r | Release _ r => (r, w)
  | Act f => let '(k, w') := f w in run_alone k w'
  | Acquire _ k => run_alone k w
  end.

Definition lock_path (path : text) : text := path ++ chars ".lock".

Definition open_lock (lock : text) : cmd unit :=
  s ← sys_call; file ← get_file lock;
  match s with
  | Fine => match file with None => put_file lock [] | Some _ => mret tt end
  | _ => lift (Err (CannotLock lock))
  end.
Definition lock_exclusive (lock : text) : cmd unit :=
  s ← sys_call; match s with Fine => mret tt | _ => lift (Err (CannotLock lock)) end.

(** [lock_beside], and what runs while its file lives. *)
Definition lock_beside (path : text) (k : steps) : steps :=
  let lock := lock_path path in
  act (open_lock lock)
    (fun _ => act (lock_exclusive lock) (fun _ => Acquire lock k) (fun e => Finished (Err e)))
    (fun e => Finished (Err e)).

Definition replace_file (path : text) (bytes : list Z) : cmd unit :=
  suffix ← random 8;
  let tmp := path ++ chars "." ++ hex_text suffix ++ chars ".tmp" in
  written ← attempt (_ ← fs_create_new tmp; _ ← fs_write_all tmp bytes; _ ← fs_sync tmp; fs_rename tmp path);
  match written with
  | Ok _ => mret tt
  | Err _ => _ ← attempt (fs_remove tmp); lift (Err (CannotWrite path))
  end.

(** ** Reports *)

Record Report := mkReport {
  rp_failed : bool;
  rp_incomplete : bool;
  rp_witnessed : bool;
  rp_timestamped : bool;
  rp_bitcoin : bool;
  rp_evidence : list TimeEvidence
}.

Definition Report_default : Report := mkReport false false false false false [].

Definition report_ok (what : string) (detail : text) (r : Report) : cmd Report :=
  _ ← print_line (Reported TagOk what (Said detail)); mret r.
Definition report_fail (what : string) (detail : Detail) (r : Report) : cmd Report :=
  _ ← print_line (Reported TagFailed what detail);
  mret (mkReport true (rp_incomplete r) (rp_witnessed r) (rp_timestamped r) (rp_bitcoin r) (rp_evidence r)).
Definition report_pending (what : string) (detail : text) (r : Report) : cmd Report :=
  _ ← print_line (Reported TagPending what (Said detail));
  mret (mkReport (rp_failed r) true (rp_witnessed r) (rp_timestamped r) (rp_bitcoin r) (rp_evidence r)).
Definition report_note (what : string) (detail : text) (r : Report) : cmd Report :=
  _ ← print_line (Reported TagNote what (Said detail)); mret r.

Definition set_witnessed (e : TimeEvidence) (r : Report) : Report :=
  mkReport (rp_failed r) (rp_incomplete r) true (rp_timestamped r) (rp_bitcoin r) (rp_evidence r ++ [e]).
Definition set_timestamped (bitcoin : bool) (e : TimeEvidence) (r : Report) : Report :=
  mkReport (rp_failed r) (rp_incomplete r) (rp_witnessed r) true (bitcoin || rp_bitcoin r) (rp_evidence r ++ [e]).

(** One word of [--require]: its name, and whether it was established. *)
Definition requirement (r : Report) (req : text) : result Fail (string * bool) :=
  if bool_decide (req = chars "witnessed") then Ok ("witnessed", rp_witnessed r)
  else if bool_decide (req = chars "timestamped") then Ok ("timestamped", rp_timestamped r)
  else if bool_decide (req = chars "bitcoin") then Ok ("bitcoin", rp_bitcoin r)
  else if bool_decide (req = chars "full") then Ok ("full", rp_witnessed r && rp_timestamped r)
  else Err (NotA "--require takes witnessed, timestamped, bitcoin or full" req).

Fixpoint unmet_loop (r : Report) (reqs : list text) (missing : list string) : result Fail (list string) :=
  match reqs with
  | [] => Ok missing
  | req :: rest =>
      '(name, met) ← requirement r (trim req);
      unmet_loop r rest (if negb met && negb (bool_decide (name ∈ missing)) then missing ++ [name] else missing)
  end.

(** The words of every [--require]. *)
Definition required (f : Flags) : list text := flat_map (split_on 44) (all f "--require").

Definition unmet (f : Flags) (r : Report) : result Fail (list string) := unmet_loop r (required f) [].

Definition dash : text := chars " " ++ [8212] ++ chars " ".

Definition verdict (r : Report) (missing : list string) : cmd Z :=
  if rp_failed r then _ ← println (chars "RESULT: FAILED"); mret FAILURE
  else if negb (bool_decide (missing = [])) then
    _ ← println (chars "RESULT: REQUIREMENT NOT MET: " ++ joined (chars ", ") (map chars missing)); mret FAILURE
  else if rp_incomplete r then
    _ ← println (chars "RESULT: INCOMPLETE" ++ dash ++ chars "a timestamp is still pending or unconfirmed");
    mret EXIT_INCOMPLETE
  else
    _ ← println
          match rp_witnessed r, rp_timestamped r with
          | true, true =>
              chars "RESULT: FULL VERIFICATION COMPLETE" ++ dash
              ++ chars "signature, independent witnesses, independent timestamp"
          | true, false =>
              chars "RESULT: INDEPENDENTLY WITNESSED" ++ dash ++ chars "no independent timestamp was checked"
          | false, true =>
              chars "RESULT: TIMESTAMP VERIFIED" ++ dash ++ chars "no independent witness was checked"
          | false, false =>
              chars "RESULT: SIGNATURE VERIFIED ONLY" ++ dash
              ++ chars "the operator's own signature; nothing independent was checked"
          end;
    mret SUCCESS.

(** [f.one(name).map(parse).transpose()]. *)
Definition optional_uint (f : Flags) (name message : string) : result Fail (option Z) :=
  match one f name with
  | None => Ok None
  | Some t => z ← ok_or (parse_uint 64 t) (Message message); Ok (Some z)
  end.

Definition check_revocation (f : Flags) (r : Report) : cmd Report :=
  height ← lift (optional_uint f "--revoked-at-height" "--revoked-at-height must be a block height");
  match one f "--revoked-at" with
  | None =>
      match height with
      | Some _ => lift (Err (Message "--revoked-at-height goes with --revoked-at"))
      | None => mret r
      end
  | Some revoked =>
      at_ ← lift (ok_or (parse_uint 64 revoked) (Message "--revoked-at must be Unix seconds"));
      match accepts (Revoked at_ height) (rp_evidence r) with
      | Ok _ => report_ok "revoked key" (chars "signature proven before its revocation at " ++ utc at_) r
      | Err e => report_fail "revoked key" (Because (OfAudit e)) r
      end
  end.

Record Stamped := mkStamped { st_signature : option (list Z); st_content : list Z }.

Definition covers (self : Stamped) (digest : list Z) : option Covers :=
  if bool_decide (st_signature self = Some digest) then Some Signature
  else if bool_decide (digest = st_content self) then Some Content
  else None.

Definition describe (c : Covers) : text :=
  match c with
  | Signature => chars "covers the log's signature"
  | Content => chars "covers the body only, not the signature"
  end.

Definition report_ots_status (s : Status) (r : Report) : cmd Report :=
  match s with
  | StatusPending calendars =>
      report_pending "OpenTimestamps"
        (chars "calendars " ++ joined (chars ", ") (map chars calendars) ++ chars " have not committed it to Bitcoin yet") r
  | StatusAnchored heights =>
      report_pending "OpenTimestamps"
        (chars "anchored at block " ++ debug_list heights
         ++ chars "; give --block-height, --block-header and --block-hash to verify") r
  end.

Definition print_status (s : Status) : cmd unit :=
  match s with
  | StatusPending calendars =>
      println (chars "OTS PENDING: accepted by " ++ joined (chars ", ") (map chars calendars)
               ++ chars "; not yet in Bitcoin, run `checkpoint upgrade` in a few hours")
  | StatusAnchored heights =>
      println (chars "OTS ANCHORED at Bitcoin block " ++ debug_list heights
               ++ chars "; verify with --block-height, --block-header and --block-hash from a node you trust")
  end.

(** ** The calendar transport *)

(** The text before and after the last newline. *)
Fixpoint rsplit_newline (l : list Z) : option (list Z * list Z) :=
  match l with
  | [] => None
  | c :: l' =>
      match rsplit_newline l' with
      | Some (a, b) => Some (c :: a, b)
      | None => if c =? 10 then Some ([], l') else None
      end
  end.

(** [process] runs the system's [curl] on a URL and a body: [None] when it
    cannot be run, else whether it succeeded, and what it wrote. *)
Definition curl (process : text -> option (list Z) -> option (bool * list Z * list Z))
    (url : text) (body : option (list Z)) : result Fail (option (list Z)) :=
  match process url body with
  | None => Err (Message "cannot run curl")
  | Some (success, stdout, stderr) =>
      _ ← refuse_if (negb success) (OfFetch url stderr);
      '(body, code) ← ok_or (rsplit_newline stdout) (Message "curl gave no status");
      if bool_decide (code = chars "200") then Ok (Some body)
      else if bool_decide (code = chars "404") then Ok None
      else Err (OfFetch url code)
  end.

Section trust.
Context {HF : HashFunctions} {B64 : Base64} {ED : Ed25519} {SJ : StateJson} {RM : Ripemd}.
Context {JR : JsonReader} {V : Type} {ER : EntryReader V} {AS : Asn1} {TC : TsaCrypto}.

(** ** Helpers *)

Definition wal_tree (path : text) (key : option (list Z)) : cmd MerkleTree :=
  _ ← lift (map_err (fun e => OfWal path (WalFailed e)) (validate_key key));
  s ← sys_call; file ← get_file path;
  match s, file with
  | Fine, Some bytes => lift (map_err (OfWal path) (from_verified_wal bytes key))
  | _, _ => lift (Err (CannotOpenWal path))
  end.

Definition hmac_key (f : Flags) : result Fail (option (list Z)) :=
  match one f "--hmac-key-hex" with
  | None => Ok None
  | Some h => k ← parse_hex_key h; Ok (Some k)
  end.

Definition open_note (path : text) : cmd (SignedNote * Checkpoint) :=
  t ← read_text path;
  note ← lift (map_err (OfNote path) (SignedNote_parse t));
  cp ← lift (map_err (OfNote path) (SignedNote_checkpoint note));
  mret (note, cp).

Definition prev_line (prev_body : text) : text := chars "prev " ++ hex_text (sha256 (as_bytes prev_body)).

Definition read_verifier (path : text) : cmd NoteVerifier :=
  t ← read_key_text path; lift (map_err OfCheckpoint (NoteVerifier_parse t)).

(** ** [checkpoint keygen] *)

Definition keygen (f : Flags) : cmd Z :=
  name ← lift (need f "--name");
  out ← lift (need f "--out");
  seed ← random 32;
  kind ← lift (need f "--kind");
  '(skey, vkey) ← lift (
    if bool_decide (kind = chars "log") then
      s ← map_err OfCheckpoint (LogSigner_from_seed name seed);
      Ok (LogSigner_to_skey s, to_vkey (lsg_verifier s))
    else if bool_decide (kind = chars "witness") then
      s ← map_err OfCheckpoint (WitnessSigner_from_seed name seed);
      Ok (WitnessSigner_to_skey s, to_vkey (wsg_verifier s))
    else Err (NotA "--kind must be log or witness" kind));
  _ ← write_key_pair (out ++ chars ".skey") skey (out ++ chars ".vkey") vkey;
  _ ← println vkey;
  _ ← eprintln (Told "wrote the secret and the public key" [out]);
  mret SUCCESS.

(** ** [checkpoint create] *)

(** The check of [--prev], and the extension line it adds. *)
Definition extend_prev (tree : MerkleTree) (head : TreeHead) (cp : Checkpoint) (prev : text) : cmd Checkpoint :=
  '(_, prev_cp) ← open_note prev;
  _ ← lift (refuse_if (negb (bool_decide (cp_origin prev_cp = cp_origin cp)))
              (Message "--prev is a checkpoint of another log"));
  differs ← lift (
    if th_size head <? cp_size prev_cp then Ok true
    else if 0 <? cp_size prev_cp then
      h ← or_panic OfMerkle (MerkleTree_head tree (cp_size prev_cp));
      Ok (negb (bool_decide (th_root h = cp_root prev_cp)))
    else Ok false);
  _ ← lift (refuse_if differs (Message "this WAL does not extend the --prev checkpoint"));
  lift (map_err OfCheckpoint (with_extension cp (prev_line (Checkpoint_body prev_cp)))).

Definition create (f : Flags) : cmd Z :=
  wal ← lift (target f);
  key ← lift (hmac_key f);
  tree ← wal_tree wal key;
  head ← lift (or_panic OfMerkle (MerkleTree_head tree (MerkleTree_len tree)));
  origin ← lift (need f "--origin");
  cp ← lift (map_err OfCheckpoint (Checkpoint_new origin head));
  cp ← match one f "--prev" with None => mret cp | Some prev => extend_prev tree head cp prev end;
  keypath ← lift (need f "--key");
  skey ← read_key_text keypath;
  signer ← lift (map_err OfCheckpoint (LogSigner_from_skey skey));
  let note := SignedNote_render (LogSigner_sign signer cp) in
  _ ← match one f "--out" with Some out => write_file out (as_bytes note) | None => print_line (Plain note) end;
  _ ← eprintln (Told "checkpoint" [cp_origin cp; show_u64 (cp_size cp); hex_text (Checkpoint_digest cp)]);
  mret SUCCESS.

(** ** [checkpoint request] *)

Definition request (f : Flags) : cmd Z :=
  wal ← lift (target f);
  key ← lift (hmac_key f);
  tree ← wal_tree wal key;
  notepath ← lift (need f "--note");
  note_text ← read_text notepath;
  '(_, cp) ← open_note notepath;
  oldtext ← lift (need f "--old");
  old ← lift (ok_or (parse_uint 64 oldtext) (Message "--old must be a number"));
  differs ← lift (
    if negb (cp_size cp =? MerkleTree_len tree) then Ok true
    else
      h ← or_panic OfMerkle (MerkleTree_head tree (MerkleTree_len tree));
      Ok (negb (bool_decide (cp_root cp = th_root h))));
  _ ← lift (refuse_if differs (Message "the note is not a checkpoint of this WAL"));
  _ ← lift (refuse_if (cp_size cp <? old) (Message "--old is larger than the checkpoint"));
  proof ← lift (
    if (old =? 0) || (old =? cp_size cp) then Ok []
    else or_panic OfMerkle (MerkleTree_consistency_proof tree old (MerkleTree_len tree)));
  _ ← print_line (Plain (AddCheckpoint_render (mkAddCheckpoint old proof note_text)));
  mret SUCCESS.

(** ** [witness init] and [witness cosign] *)

(** The witness's state file, as [Witness] models it. *)
Definition store_at (path : text) (w : World) : FileStore := mkFileStore (w_files w !! path).
Definition put_store (path : text) (s : FileStore) (w : World) : World :=
  set_files (partial_alter (fun _ => fs_file s) path (w_files w)) w.
Definition on_store {A} (state : text) (g : FileStore -> FileStore * result Fail A) : cmd A := fun w =>
  let '(s, r) := g (store_at state w) in (r, put_store state s w).

Definition init (f : Flags) : cmd Z :=
  state ← lift (need f "--state");
  io ← store_call;
  _ ← on_store state (fun store => let '(s, r) := FileStore_create io store in (s, map_err OfStore r));
  _ ← eprintln (Told "an empty witness state" [state]);
  mret SUCCESS.

Record AppendTarget := mkAppendTarget { at_path : text; at_text : text }.

Definition append_target (path : text) (req : AddCheckpoint) (signer : WitnessSigner) : cmd AppendTarget :=
  t ← read_text path;
  note ← lift (map_err (OfNote path) (SignedNote_parse t));
  requested ← lift (map_err OfCheckpoint (SignedNote_parse (ac_note req)));
  _ ← lift (refuse_if (negb (bool_decide (sn_text note = sn_text requested)))
              (NotThisNote path "is not the checkpoint in the request; nothing was signed"));
  let me := wsg_verifier signer in
  _ ← lift (refuse_if (existsb (same_key (nv_name me) (nv_key_hash me)) (sn_signatures note))
              (NotThisNote path "already carries a signature; nothing was signed"));
  _ ← lift (refuse_if (Nat.leb MAX_SIGNATURES (length (sn_signatures note)))
              (NotThisNote path "has no room for another signature; nothing was signed"));
  mret (mkAppendTarget path (sn_text note)).

(** The note, read again, with the cosignature. *)
Definition cosigned_note (tgt : AppendTarget) (sig : NoteSignature) : cmd (list Z) :=
  let path := at_path tgt in
  t ← read_text path;
  note ← lift (map_err (OfNote path) (SignedNote_parse t));
  _ ← lift (refuse_if (negb (bool_decide (sn_text note = at_text tgt)))
              (NotThisNote path "was changed to another checkpoint while the witness was signing"));
  note ← lift (map_err (OfNote path) (add_signature note sig));
  mret (as_bytes (SignedNote_render note)).

(** Reading and replacing are two steps, both under the lock. The file that
    [replace_file] writes first has a name of its own. *)
Definition replace_locked (path : text) (bytes : list Z) : steps :=
  act (replace_file path bytes) (fun _ => Release (lock_path path) (Ok tt)) (fun e => Release (lock_path path) (Err e)).
Definition append_locked (tgt : AppendTarget) (sig : NoteSignature) : steps :=
  act (cosigned_note tgt sig) (replace_locked (at_path tgt)) (fun e => Release (lock_path (at_path tgt)) (Err e)).
Definition append_steps (tgt : AppendTarget) (sig : NoteSignature) : steps :=
  lock_beside (at_path tgt) (append_locked tgt sig).

Definition append_cosignature (tgt : AppendTarget) (sig : NoteSignature) : cmd unit := run_alone (append_steps tgt sig).

Definition store_open (state : text) : cmd unit :=
  io ← store_call;
  on_store state (fun store => (store, map_err OfStore (FileStore_open io store))).

(** The logs of [--log ORIGIN=VKEYFILE]. *)
Fixpoint read_logs (specs : list text) (logs : gmap text NoteVerifier) : cmd (gmap text NoteVerifier) :=
  match specs with
  | [] => mret logs
  | spec :: rest =>
      '(origin, path) ← lift (ok_or (split_once 61 spec) (Message "--log takes ORIGIN=VKEYFILE"));
      key ← read_verifier path;
      read_logs rest (<[origin := key]> logs)
  end.

(** [Witness::add_checkpoint] on the state file. *)
Definition witness_add (state : text) (signer : WitnessSigner) (logs : gmap text NoteVerifier) (req : AddCheckpoint)
    (now : Z) : cmd (result WitnessError NoteSignature) :=
  io1 ← store_call; io2 ← store_call; io3 ← store_call;
  on_store state (fun store =>
    let '(wt, r) := add_checkpoint io1 io2 io3 (mkWitness signer logs store) req now in (wt_store wt, Ok r)).

Definition cosign (f : Flags) : cmd Z :=
  path ← lift (target f);
  body ← read_text path;
  req ← lift (map_err OfWitness (AddCheckpoint_parse body));
  keypath ← lift (need f "--key");
  skey ← read_key_text keypath;
  signer ← lift (map_err OfCheckpoint (WitnessSigner_from_skey skey));
  tgt ← match one f "--append-to" with
        | None => mret None
        | Some path => t ← append_target path req signer; mret (Some t)
        end;
  state ← lift (need f "--state");
  _ ← store_open state;
  logs ← read_logs (all f "--log") ∅;
  now ← match one f "--now" with
        | Some t => lift (ok_or (parse_uint 64 t) (Message "--now must be Unix seconds"))
        | None => unix_now
        end;
  r ← witness_add state signer logs req now;
  match r with
  | Ok sig =>
      _ ← print_line (Plain (NoteSignature_line sig));
      _ ← match tgt with
          | None => mret tt
          | Some t =>
              _ ← append_cosignature t sig; eprintln (Told "cosignature appended to" [at_path t])
          end;
      mret SUCCESS
  | Err e => _ ← eprintln (Refused (http_status e) e); mret FAILURE
  end.

(** ** [checkpoint stamp] and [checkpoint upgrade] *)

Definition signed_bytes (f : Flags) (path : text) : cmd (text * text) :=
  '(note, _) ← open_note path;
  logkey ← lift (need f "--log-key");
  log ← read_verifier logkey;
  signed ← lift (map_err (OfNote path) (Checkpoint.signed_by note log));
  let out := path ++ chars ".signed" in
  _ ← write_file out (as_bytes signed);
  mret (out, signed).

Definition Fetch : Type := text -> option (list Z) -> result Fail (option (list Z)).

(** One calendar's answer merged into the proof. *)
Definition merge_answer (about : text) (commitment : list Z) (answer : result Fail (option (list Z)))
    (proof : DetachedTimestamp) : cmd (bool * DetachedTimestamp) :=
  match answer with
  | Ok (Some body) =>
      match merge_calendar_response commitment body proof with
      | (Ok _, proof') => mret (true, proof')
      | (Err e, proof') => _ ← eprintln (Warned about (OfOts e)); mret (false, proof')
      end
  | Ok None => _ ← eprintln (Told "not found or not yet committed" [about]); mret (false, proof)
  | Err e => _ ← eprintln (Warned about e); mret (false, proof)
  end.

Fixpoint submit_all (fetch : Fetch) (commitment : list Z) (calendars : list text) (accepted : Z)
    (proof : DetachedTimestamp) : cmd (Z * DetachedTimestamp) :=
  match calendars with
  | [] => mret (accepted, proof)
  | cal :: rest =>
      '(merged, proof) ← merge_answer cal commitment (fetch (calendar_submit_path cal) (Some commitment)) proof;
      submit_all fetch commitment rest (if merged : bool then accepted + 1 else accepted) proof
  end.

Definition stamp_with (f : Flags) (fetch : Fetch) : cmd Z :=
  path ← lift (target f);
  '(signed_path, signed) ← signed_bytes f path;
  nonce ← random 16;
  let '(commitment, proof) := prepare_submission nonce (DetachedTimestamp_new (sha256 (as_bytes signed))) in
  commitment ← lift (ok_or commitment Panicked);
  let calendars := match all f "--calendar" with [] => DEFAULT_CALENDARS | l => l end in
  '(accepted, proof) ← submit_all fetch commitment calendars 0 proof;
  _ ← lift (refuse_if (accepted =? 0) (Message "no calendar accepted the checkpoint"));
  let out := signed_path ++ chars ".ots" in
  _ ← write_file out (DetachedTimestamp_serialize proof);
  _ ← eprintln (Told "wrote the stamped bytes and the proof" [signed_path; out]);
  _ ← print_status (status proof);
  mret EXIT_INCOMPLETE.

Fixpoint upgrade_all (fetch : Fetch) (allowed : list (list Z)) (todo : list (list Z * string)) (changed : bool)
    (proof : DetachedTimestamp) : cmd (bool * DetachedTimestamp) :=
  match todo with
  | [] => mret (changed, proof)
  | (commitment, uri) :: rest =>
      match calendar_upgrade_path uri commitment allowed with
      | Err e => _ ← eprintln (Warned (chars uri) (OfOts e)); upgrade_all fetch allowed rest changed proof
      | Ok url =>
          '(merged, proof) ← merge_answer (chars uri) commitment (fetch url None) proof;
          upgrade_all fetch allowed rest (changed || merged) proof
      end
  end.

Definition upgrade_with (f : Flags) (fetch : Fetch) : cmd Z :=
  path ← lift (target f);
  raw ← fs_read path;
  proof ← lift (map_err OfOts (DetachedTimestamp_parse raw));
  let allowed := map as_bytes (DEFAULT_UPGRADE_ALLOWLIST ++ all f "--allow-calendar") in
  '(changed, proof) ← upgrade_all fetch allowed (pending proof) false proof;
  _ ← (if changed : bool then write_file path (DetachedTimestamp_serialize proof) else mret tt);
  let s := status proof in
  _ ← print_status s;
  mret (match s with StatusPending _ => EXIT_INCOMPLETE | StatusAnchored _ => SUCCESS end).

(** ** [checkpoint tsa-request] *)

Definition tsa_request (f : Flags) : cmd Z :=
  path ← lift (target f);
  '(signed_path, signed) ← signed_bytes f path;
  nonce ← match one f "--nonce" with
          | Some n => lift (ok_or (parse_uint 64 n) (Message "--nonce must be a number"))
          | None => b ← random 8; mret (be_value b)
          end;
  let digest := sha256 (as_bytes signed) in
  der ← lift (map_err OfTsa (Tsa.request digest (Some nonce)));
  let out := signed_path ++ chars ".tsq" in
  _ ← write_file out der;
  _ ← println (show_u64 nonce);
  _ ← eprintln (Told "wrote the request" [out; show_u64 nonce]);
  mret SUCCESS.

(** ** [checkpoint verify] *)

Definition check_witnesses (f : Flags) (note : SignedNote) (log : NoteVerifier) (r : Report) : cmd Report :=
  match all f "--witness" with
  | [] => mret r
  | files =>
      keys ← mapM read_verifier files;
      threshold ← lift (match one f "--threshold" with
                        | None => Ok (Z.of_nat (length keys))
                        | Some t => ok_or (parse_uint 64 t) (Message "--threshold must be a number")
                        end);
      policy ← lift (map_err OfAudit (WitnessPolicy_new keys (Z.to_nat threshold)));
      now ← unix_now;
      match verify_checkpoint_at (SignedNote_render note) log policy now DEFAULT_MAX_CLOCK_SKEW with
      | Ok w =>
          let names := map (fun c => cs_witness c ++ chars " at " ++ utc (cs_time c)) (wd_cosigned w) in
          r ← report_ok "witnesses"
                (show_u64 (Z.of_nat (length (wd_cosigned w))) ++ chars " of " ++ show_u64 threshold
                 ++ chars " required: " ++ joined (chars "; ") names) r;
          seen ← lift (ok_or (seen_by w) Panicked);
          mret (set_witnessed (TimeEvidence_witnesses seen) r)
      | Err e => report_fail "witnesses" (Because (OfAudit e)) r
      end
  end.

Definition check_wal (f : Flags) (wal : text) (cp : Checkpoint) (r : Report) : cmd Report :=
  key ← lift (hmac_key f);
  tree ← wal_tree wal key;
  let n := cp_size cp in
  if MerkleTree_len tree <? n then
    report_fail "WAL" (Said (chars "has " ++ show_u64 (MerkleTree_len tree) ++ chars " entries, the checkpoint " ++ show_u64 n)) r
  else
    h ← lift (or_panic OfMerkle (MerkleTree_head tree n));
    if negb (bool_decide (th_root h = cp_root cp)) then
      report_fail "WAL" (Said (chars "its first entries do not reproduce the checkpoint root")) r
    else
      report_ok "WAL" (chars "its first " ++ show_u64 n ++ chars " entries reproduce the root ("
                       ++ show_u64 (MerkleTree_len tree) ++ chars " entries in total)") r.

Definition check_prev (prev : text) (cp : Checkpoint) (r : Report) : cmd Report :=
  '(_, prev_cp) ← open_note prev;
  let expected := prev_line (Checkpoint_body prev_cp) in
  r ← (if bool_decide (expected ∈ cp_extensions cp)
       then report_ok "prev link" (chars "names checkpoint of size " ++ show_u64 (cp_size prev_cp)) r
       else report_fail "prev link" (Said (chars "the checkpoint does not name --prev")) r);
  if cp_size cp <? cp_size prev_cp
  then report_fail "prev link" (Said (chars "--prev is larger than this checkpoint")) r
  else mret r.

(** Once the block's height and header are given. *)
Definition check_block (f : Flags) (proof : DetachedTimestamp) (c : Covers) (height header : text) (r : Report)
    : cmd Report :=
  height ← lift (ok_or (parse_uint 64 height) (Message "--block-height must be a number"));
  bytes ← lift (unhex header);
  header ← lift (ok_or (try_into_array 80 bytes) (Message "--block-header must be 80 bytes of hex"));
  match verify_bitcoin proof height header with
  | Err e => report_fail "OpenTimestamps" (Because (OfOts e)) r
  | Ok checked =>
      match one f "--block-hash" with
      | None =>
          report_pending "OpenTimestamps"
            (chars "header valid for block " ++ show_u64 (bh_height checked) ++ chars " ("
             ++ chars (bh_block_hash checked)
             ++ chars "), but nothing confirmed it is on the main chain; give --block-hash from `bitcoin-cli getblockhash "
             ++ show_u64 (bh_height checked) ++ chars "` on your own node") r
      | Some trusted =>
          match confirm checked trusted with
          | Ok v =>
              r ← report_ok "OpenTimestamps"
                    (chars "in Bitcoin block " ++ show_u64 (bc_height v) ++ chars " (" ++ chars (bc_block_hash v)
                     ++ chars "), whose miner dated it " ++ utc (bc_block_time v) ++ chars "; " ++ describe c) r;
              mret (set_timestamped true (TimeEvidence_bitcoin (bc_height v) (bc_block_time v) c) r)
          | Err e => report_fail "OpenTimestamps" (Because (OfOts e)) r
          end
      end
  end.

Definition check_ots (f : Flags) (ots_path : text) (stamped : Stamped) (r : Report) : cmd Report :=
  raw ← fs_read ots_path;
  match DetachedTimestamp_parse raw with
  | Err e => report_fail "OpenTimestamps" (Because (OfOts e)) r
  | Ok proof =>
      digest ← lift (ok_or (DetachedTimestamp_digest proof) Panicked);
      match covers stamped digest with
      | None => report_fail "OpenTimestamps" (Said (chars "the proof is for neither this signed note nor its body")) r
      | Some c =>
          match one f "--block-height", one f "--block-header" with
          | Some height, Some header => check_block f proof c height header r
          | None, None => report_ots_status (status proof) r
          | _, _ => lift (Err (Message "--block-height and --block-header go together"))
          end
      end
  end.

Definition read_pin (path : text) : cmd PinnedTsa :=
  pem ← read_text path; lift (map_err (OfPin path) (PinnedTsa_from_pem pem)).

(** The digests in order, until one is not refused for its imprint. *)
Fixpoint try_digests (raw : list Z) (nonce : option Z) (pins : list PinnedTsa) (attempts : list (list Z * Covers))
    (last_err : option TsaError) (r : Report) : cmd Report :=
  match attempts with
  | [] =>
      report_fail "RFC 3161"
        (match last_err with None => Said (chars "no digest to check") | Some e => Because (OfTsa e) end) r
  | (digest, c) :: rest =>
      match verify_response raw digest nonce pins with
      | Ok v =>
          r ← report_ok "RFC 3161"
                (utc (vt_gen_time v) ++ chars " by " ++ chars (vt_signer v) ++ chars " (accuracy "
                 ++ show_u64 (vt_accuracy_seconds v) ++ chars " s); " ++ describe c) r;
          let r := set_timestamped false (TimeEvidence_rfc3161 (VerifiedTimestamp_existed_by v) c) r in
          match c with
          | Content => report_note "RFC 3161" (chars "restamp with `checkpoint tsa-request` to date the signature too") r
          | Signature => mret r
          end
      | Err ImprintMismatch => try_digests raw nonce pins rest (Some ImprintMismatch) r
      | Err e => report_fail "RFC 3161" (Because (OfTsa e)) r
      end
  end.

Definition verify_tsr (f : Flags) (tsr : text) (stamped : Stamped) (r : Report) : cmd Report :=
  raw ← fs_read tsr;
  pins ← mapM read_pin (all f "--tsa-cert");
  _ ← lift (refuse_if (bool_decide (length pins = 0%nat)) (Message "--tsr needs at least one --tsa-cert"));
  nonce ← lift (optional_uint f "--nonce" "--nonce must be a number");
  let attempts :=
    match st_signature stamped with Some d => [(d, Signature)] | None => [] end ++ [(st_content stamped, Content)] in
  try_digests raw nonce pins attempts None r.

(** [if let Some(value) = f.one(name)]. *)
Definition when_given (f : Flags) (name : string) (check : text -> Report -> cmd Report) (r : Report) : cmd Report :=
  match one f name with None => mret r | Some v => check v r end.

Definition verify (f : Flags) : cmd Z :=
  path ← lift (target f);
  '(note, cp) ← open_note path;
  let r := Report_default in
  _ ← println (chars "checkpoint " ++ cp_origin cp ++ chars " size " ++ show_u64 (cp_size cp) ++ chars " root "
               ++ hex_text (cp_root cp));
  logkey ← lift (need f "--log-key");
  log ← read_verifier logkey;
  r ← match SignedNote_verify note log with
      | Ok _ => report_ok "log signature" (nv_name log) r
      | Err e => report_fail "log signature" (Because (OfCheckpoint e)) r
      end;
  let signed := match Checkpoint.signed_by note log with Ok s => Some s | Err _ => None end in
  r ← check_witnesses f note log r;
  r ← when_given f "--wal" (fun wal => check_wal f wal cp) r;
  r ← when_given f "--prev" (fun prev => check_prev prev cp) r;
  let stamped := mkStamped ((fun s => sha256 (as_bytes s)) <$> signed) (Checkpoint_digest cp) in
  r ← when_given f "--ots" (fun ots_path => check_ots f ots_path stamped) r;
  r ← when_given f "--tsr" (fun tsr => verify_tsr f tsr stamped) r;
  _ ← println match existed_by (rp_evidence r) with
              | Some t => chars "  existed by " ++ utc t ++ chars " (earliest witness or RFC 3161 time)"
              | None => chars "  existed by: no witness or RFC 3161 time"
              end;
  _ ← match anchored_by (rp_evidence r) with
      | Some height =>
          println (chars "  anchored in Bitcoin block " ++ show_u64 height
                   ++ chars " (dated by height, not by the block's own time)")
      | None => mret tt
      end;
  r ← check_revocation f r;
  missing ← lift (unmet f r);
  verdict r missing.

(** ** Dispatch *)

Definition VALUED : list text :=
  map chars ["--name"; "--kind"; "--out"; "--origin"; "--key"; "--prev"; "--hmac-key-hex"; "--note"; "--old"; "--log";
             "--state"; "--now"; "--append-to"; "--calendar"; "--nonce"; "--log-key"; "--witness"; "--threshold";
             "--wal"; "--ots"; "--block-height"; "--block-header"; "--tsr"; "--tsa-cert"; "--revoked-at";
             "--revoked-at-height"; "--block-hash"; "--require"; "--allow-calendar"].

Definition subcommand (fetch : Fetch) (command sub : text) : option (Flags -> cmd Z) :=
  if bool_decide (command = chars "checkpoint") then
    if bool_decide (sub = chars "keygen") then Some keygen
    else if bool_decide (sub = chars "create") then Some create
    else if bool_decide (sub = chars "request") then Some request
    else if bool_decide (sub = chars "stamp") then Some (fun f => stamp_with f fetch)
    else if bool_decide (sub = chars "upgrade") then Some (fun f => upgrade_with f fetch)
    else if bool_decide (sub = chars "tsa-request") then Some tsa_request
    else if bool_decide (sub = chars "verify") then Some verify
    else None
  else if bool_decide (command = chars "witness") then
    if bool_decide (sub = chars "init") then Some init
    else if bool_decide (sub = chars "cosign") then Some cosign
    else None
  else None.

Definition usage_error (w : World) : Z * World :=
  (EXIT_USAGE, set_stderr (w_stderr w ++ [Told "usage" []]) w).

Definition run (fetch : Fetch) (command : text) (args : list text) (w : World) : Z * World :=
  match args with
  | [] => usage_error w
  | sub :: rest =>
      match Flags_parse rest VALUED with
      | Err _ => usage_error w
      | Ok flags =>
          match subcommand fetch command sub with
          | None => usage_error w
          | Some cmd =>
              match cmd flags w with
              | (Ok code, w') => (code, w')
              | (Err Panicked, w') => (EXIT_PANIC, w')
              | (Err e, w') => (FAILURE, set_stderr (w_stderr w' ++ [Warned [] e]) w')
              end
          end
      end
  end.
End trust.
