(* ===== verification/TrustVerify.v ===== *)
(** * What a successful [checkpoint verify] establishes

    The checks only ever add to the report: a failure stays, a pending timestamp
    stays, and a level is reported only with the evidence for it, read from the
    files the options name. *)

From Stdlib Require Import String.
From S2P Require Import Prelude Bytes Text Crypto Merkle MerkleTrees Checkpoint CheckpointProps Witness Auditing Wal WalLog WalTree Ots Tsa Cli CliProps Trust.
#[local] Open Scope string_scope.
#[local] Open Scope list_scope.
#[local] Open Scope Z_scope.

Section verify.
Context {HF : HashFunctions} {B64 : Base64} {ED : Ed25519} {SJ : StateJson} {RM : Ripemd}.
Context {JR : JsonReader} {V : Type} {ER : EntryReader V} {AS : Asn1} {TC : TsaCrypto}.

(** ** The evidence *)

(** The key file at a path holds this verifier. *)
Definition holds_key (files : gmap text (list Z)) (path : text) (k : NoteVerifier) : Prop :=
  exists t, holds files path t /\ NoteVerifier_parse (trim t) = Ok k.

Definition holds_note (files : gmap text (list Z)) (path : text) (note : SignedNote) (cp : Checkpoint) : Prop :=
  exists t, holds files path t /\ SignedNote_parse t = Ok note /\ SignedNote_checkpoint note = Ok cp.

(** What is fixed while the command runs: the options, the files, the clock, the
    note, and the two digests a timestamp may be over. *)
Section established.
Variables (f : Flags) (files : gmap text (list Z)) (clock : Z) (note : SignedNote) (log : NoteVerifier) (stamped : Stamped).

(** A quorum of the witnesses named on the command line cosigned the note, none
    of the counted cosignatures dated more than the allowed skew ahead. *)
Definition quorum_met (wd : Witnessed) : Prop :=
  exists keys threshold policy,
    Forall2 (holds_key files) (all f "--witness") keys /\
    (one f "--threshold" = None /\ threshold = length keys \/
     exists t z, one f "--threshold" = Some t /\ parse_uint 64 t = Some z /\ threshold = Z.to_nat z) /\
    WitnessPolicy_new keys threshold = Ok policy /\
    verify_checkpoint_at (SignedNote_render note) log policy clock DEFAULT_MAX_CLOCK_SKEW = Ok wd.

(** A proof for the note or its body, in a block whose hash is the trusted one. *)
Definition bitcoin_met (c : Covers) (v : BitcoinConfirmed) : Prop :=
  exists path raw proof digest height header bytes z checked trusted,
    one f "--ots" = Some path /\ files !! path = Some raw /\ DetachedTimestamp_parse raw = Ok proof /\
    DetachedTimestamp_digest proof = Some digest /\ covers stamped digest = Some c /\
    one f "--block-height" = Some height /\ one f "--block-header" = Some header /\ one f "--block-hash" = Some trusted /\
    parse_uint 64 height = Some z /\ unhex header = Ok bytes /\ length bytes = 80%nat /\
    verify_bitcoin proof z bytes = Ok checked /\ confirm checked trusted = Ok v.

(** A token for the note or its body, from an authority pinned on the command
    line. *)
Definition token_met (c : Covers) (v : VerifiedTimestamp) : Prop :=
  exists path raw pins nonce digest,
    one f "--tsr" = Some path /\ files !! path = Some raw /\
    Forall2 (fun p pin => exists t, holds files p t /\ PinnedTsa_from_pem t = Ok pin) (all f "--tsa-cert") pins /\
    optional_uint f "--nonce" "--nonce must be a number" = Ok nonce /\
    (st_signature stamped = Some digest /\ c = Signature \/ st_content stamped = digest /\ c = Content) /\
    verify_response raw digest nonce pins = Ok v.

(** The dated evidence of a report, item by item. *)
Definition backed (e : TimeEvidence) : Prop :=
  (exists wd seen, quorum_met wd /\ seen_by wd = Some seen /\ e = TimeEvidence_witnesses seen) \/
  (exists c v, bitcoin_met c v /\ e = TimeEvidence_bitcoin (bc_height v) (bc_block_time v) c) \/
  (exists c v, token_met c v /\ e = TimeEvidence_rfc3161 (VerifiedTimestamp_existed_by v) c).

(** A report says no more than the files show. *)
Record justified (r : Report) : Prop := {
  ju_witnessed : rp_witnessed r = true -> exists wd, quorum_met wd;
  ju_timestamped : rp_timestamped r = true -> (exists c v, bitcoin_met c v) \/ (exists c v, token_met c v);
  ju_bitcoin : rp_bitcoin r = true -> exists c v, bitcoin_met c v;
  ju_evidence : Forall backed (rp_evidence r)
}.

Lemma justified_default : justified Report_default.
Proof. by split. Qed.

Lemma justified_witnessed r wd seen : quorum_met wd -> seen_by wd = Some seen -> justified r ->
  justified (set_witnessed (TimeEvidence_witnesses seen) r).
Proof.
  intros Hq Hs [J1 J2 J3 J4]. split; cbn; try done; [by exists wd|]. apply list.Forall_app. split; [done|].
  constructor; [|constructor]. left. eauto.
Qed.
Lemma justified_bitcoin r c v : bitcoin_met c v -> justified r ->
  justified (set_timestamped true (TimeEvidence_bitcoin (bc_height v) (bc_block_time v) c) r).
Proof.
  intros Hb [J1 J2 J3 J4]. split; cbn; try done; [eauto|eauto|]. apply list.Forall_app. split; [done|].
  constructor; [|constructor]. right. left. eauto.
Qed.
Lemma justified_token r c v : token_met c v -> justified r ->
  justified (set_timestamped false (TimeEvidence_rfc3161 (VerifiedTimestamp_existed_by v) c) r).
Proof.
  intros Hb [J1 J2 J3 J4]. split; cbn; try done; [eauto|]. apply list.Forall_app. split; [done|].
  constructor; [|constructor]. right. right. eauto.
Qed.

(** A check adds to the report: it keeps it justified, and keeps its failures and
    pending timestamps. *)
Record grows (r r' : Report) : Prop := {
  gr_justified : justified r -> justified r';
  gr_failed : rp_failed r = true -> rp_failed r' = true;
  gr_incomplete : rp_incomplete r = true -> rp_incomplete r' = true
}.
Lemma grows_refl r : grows r r.
Proof. by split. Qed.
Lemma grows_trans r1 r2 r3 : grows r1 r2 -> grows r2 r3 -> grows r1 r3.
Proof. intros [A1 A2 A3] [B1 B2 B3]. split; auto. Qed.

Lemma report_fail_run what d r w r' w' : report_fail what d r w = (Ok r', w') -> rp_failed r' = true /\ grows r r'.
Proof. unfold report_fail. intros H. open_run. split; [done|]. split; [|done|done]. by intros [J1 J2 J3 J4]. Qed.
Lemma report_pending_run what d r w r' w' : report_pending what d r w = (Ok r', w') -> rp_incomplete r' = true /\ grows r r'.
Proof. unfold report_pending. intros H. open_run. split; [done|]. split; [|done|done]. by intros [J1 J2 J3 J4]. Qed.
End established.

(** ** Reports only grow *)

Lemma report_ok_run what d r w r' w' : report_ok what d r w = (Ok r', w') -> r' = r.
Proof. unfold report_ok. intros H. by open_run. Qed.
Lemma report_note_run what d r w r' w' : report_note what d r w = (Ok r', w') -> r' = r.
Proof. unfold report_note. intros H. by open_run. Qed.
Lemma quiet_report_ok what d r : quiet (report_ok what d r).
Proof. unfold report_ok. solve_quiet. Qed.
Lemma quiet_report_fail what d r : quiet (report_fail what d r).
Proof. unfold report_fail. solve_quiet. Qed.
Lemma quiet_report_pending what d r : quiet (report_pending what d r).
Proof. unfold report_pending. solve_quiet. Qed.
Lemma quiet_report_note what d r : quiet (report_note what d r).
Proof. unfold report_note. solve_quiet. Qed.
#[local] Hint Resolve quiet_report_ok quiet_report_fail quiet_report_pending quiet_report_note : quiet.

Lemma quiet_read_verifier p : quiet (read_verifier p).
Proof. unfold read_verifier. solve_quiet. Qed.
Lemma quiet_open_note p : quiet (open_note p).
Proof. unfold open_note. solve_quiet. Qed.
Lemma quiet_wal_tree p key : quiet (wal_tree (V := V) p key).
Proof. unfold wal_tree. solve_quiet. Qed.
Lemma quiet_read_pin p : quiet (read_pin p).
Proof. unfold read_pin. solve_quiet. Qed.
#[local] Hint Resolve quiet_read_verifier quiet_open_note quiet_wal_tree quiet_read_pin : quiet.

Lemma read_verifier_Ok p w k w' : read_verifier p w = (Ok k, w') -> holds_key (w_files w) p k.
Proof.
  unfold read_verifier. intros H. open_run. apply read_key_text_Ok in Hm as (t & Ht & ->). by exists t.
Qed.

Lemma open_note_Ok p w note cp w' : open_note p w = (Ok (note, cp), w') -> holds_note (w_files w) p note cp.
Proof.
  unfold open_note. intros H. open_run. apply read_text_Ok in Hm. simplify_eq. by exists a.
Qed.

Lemma read_pin_Ok p w pin w' : read_pin p w = (Ok pin, w') -> exists t, holds (w_files w) p t /\ PinnedTsa_from_pem t = Ok pin.
Proof. unfold read_pin. intros H. open_run. apply read_text_Ok in Hm. eauto. Qed.

(** ** The checks, one by one *)

Section checks.
Variables (f : Flags) (files : gmap text (list Z)) (clock : Z) (note : SignedNote) (log : NoteVerifier) (stamped : Stamped).
Abbreviation grows := (grows f files clock note log stamped).
Abbreviation quorum_met := (quorum_met f files clock note log).
Abbreviation bitcoin_met := (bitcoin_met f files stamped).
Abbreviation token_met := (token_met f files stamped).
Abbreviation failing := (report_fail_run f files clock note log stamped).
Abbreviation pending_run := (report_pending_run f files clock note log stamped).

(** The world the checks run in. *)
Definition fixed (w : World) : Prop := w_files w = files /\ w_clock w = clock.

Lemma fixed_run {A} (m : cmd A) w r w' : fixed w -> m w = (r, w') -> quiet m -> fixed w'.
Proof. intros [H1 H2] H Hq. destruct (Hq _ _ _ H) as [E1 E2]. split; congruence. Qed.

Lemma threshold_spec keys threshold :
  match one f "--threshold" with
  | None => Ok (Z.of_nat (length keys))
  | Some t => ok_or (parse_uint 64 t) (Message "--threshold must be a number")
  end = Ok threshold ->
  one f "--threshold" = None /\ Z.to_nat threshold = length (A := NoteVerifier) keys \/
  exists t z, one f "--threshold" = Some t /\ parse_uint 64 t = Some z /\ Z.to_nat threshold = Z.to_nat z.
Proof.
  destruct (one f "--threshold") as [t|]; intros H; [|injection H as <-; left; split; [done|lia]].
  apply ok_or_Ok in H. right. eauto 10.
Qed.

Lemma check_witnesses_run r w r' w' : fixed w -> check_witnesses f note log r w = (Ok r', w') -> grows r r'.
Proof.
  intros Hw H. unfold check_witnesses in H. destruct (all f "--witness") as [|p ps] eqn:Ep.
  { open_run. apply grows_refl. }
  rewrite <- Ep in H. open_run. apply threshold_spec in Hm0.
  pose proof (fixed_run _ _ _ _ Hw Hm ltac:(auto with quiet)) as Hw0.
  assert (a2 = clock) as ->.
  { destruct Hw0 as [_ Hc]. unfold unix_now in Hm2. rewrite Hc in Hm2. destruct (clock <? 0); congruence. }
  apply (mapM_Ok read_verifier (fun w p k => holds_key (w_files w) p k)) in Hm;
    [|auto with quiet|by intros w1 w2 a' b' ->|by intros; eapply read_verifier_Ok].
  destruct Hw as [Hf _]. rewrite Hf in Hm.
  destruct (verify_checkpoint_at _ _ _ _ _) as [wd|e] eqn:Ev; [|by apply failing in H as [_ ?]].
  assert (quorum_met wd) as Hq. { exists a, (Z.to_nat a0), a1. split_and!; try done. }
  open_run. apply report_ok_run in Hm3 as ->. split; [|done|done]. by eapply justified_witnessed.
Qed.

Lemma check_block_run proof c height header r w r' w' : fixed w -> check_block f proof c height header r w = (Ok r', w') ->
  (forall z bytes checked trusted v, one f "--block-hash" = Some trusted -> parse_uint 64 height = Some z ->
     unhex header = Ok bytes -> length bytes = 80%nat -> verify_bitcoin proof z bytes = Ok checked ->
     confirm checked trusted = Ok v -> bitcoin_met c v) ->
  grows r r' /\ (rp_failed r' = false -> rp_incomplete r' = false -> exists v, bitcoin_met c v).
Proof.
  intros Hw H Hb. unfold check_block in H. open_run.
  match goal with H : try_into_array _ _ = Some _ |- _ => unfold try_into_array in H; case_bool_decide; [|done]; injection H as <- end.
  destruct (verify_bitcoin _ _ _) as [checked|e] eqn:Ev; [|by apply failing in H as [? ?]; split; [|congruence]].
  destruct (one f "--block-hash") as [trusted|] eqn:Et; [|by apply pending_run in H as [? ?]; split; [|congruence]].
  destruct (confirm checked trusted) as [v|e] eqn:Ec; [|by apply failing in H as [? ?]; split; [|congruence]].
  assert (bitcoin_met c v) as Hm' by eauto.
  open_run. match goal with H : report_ok _ _ _ _ = _ |- _ => apply report_ok_run in H as -> end.
  split; [|eauto]. split; [|done|done]. by apply justified_bitcoin.
Qed.

Lemma check_ots_run path r w r' w' : fixed w -> one f "--ots" = Some path -> check_ots f path stamped r w = (Ok r', w') ->
  grows r r' /\ (rp_failed r' = false -> rp_incomplete r' = false -> exists c v, bitcoin_met c v).
Proof.
  intros Hw Ho H. unfold check_ots in H. open_run.
  pose proof (fixed_run _ _ _ _ Hw Hm ltac:(auto with quiet)) as Hw0.
  apply fs_read_Ok in Hm. destruct Hw as [Hf _]. rewrite Hf in Hm.
  destruct (DetachedTimestamp_parse a) as [proof|e] eqn:Ep; [|by apply failing in H as [? ?]; split; [|congruence]].
  open_run. destruct (covers stamped _) as [c|] eqn:Ec; [|by apply failing in H as [? ?]; split; [|congruence]].
  destruct (one f "--block-height") as [height|] eqn:Eh, (one f "--block-header") as [header|] eqn:Ehd; try done.
  - apply check_block_run in H as [H1 H2]; [|done|].
    + split; [done|]. intros Hx Hy. destruct (H2 Hx Hy) as [v Hv]. eauto.
    + intros. by exists path, a, proof, a0, height, header, bytes, z, checked, trusted.
  - unfold report_ots_status in H. destruct (status proof); apply pending_run in H as [? ?]; split; congruence || done.
Qed.

Lemma try_digests_run raw nonce pins attempts last r w r' w' :
  try_digests raw nonce pins attempts last r w = (Ok r', w') ->
  (forall digest c v, (digest, c) ∈ attempts -> verify_response raw digest nonce pins = Ok v -> token_met c v) ->
  grows r r' /\ (rp_failed r' = false -> exists c v, token_met c v).
Proof.
  revert last. induction attempts as [|[digest c] rest IH]; intros last H Ht; cbn [try_digests] in H.
  { by apply failing in H as [? ?]; split; [|congruence]. }
  destruct (verify_response raw digest nonce pins) as [v|e] eqn:Ev.
  - assert (token_met c v) as Hv by (eapply Ht; [left|done]). open_run.
    match goal with H : report_ok _ _ _ _ = _ |- _ => apply report_ok_run in H as -> end.
    assert (r' = set_timestamped false (TimeEvidence_rfc3161 (VerifiedTimestamp_existed_by v) c) r) as ->.
    { destruct c; [by apply report_note_run in H|by open_run]. }
    split; [|eauto]. split; [|done|done]. by apply justified_token.
  - destruct e; try (by apply failing in H as [? ?]; split; [|congruence]).
    apply IH in H; [done|]. intros. eapply Ht; [by right|done].
Qed.

Lemma verify_tsr_run path r w r' w' : fixed w -> one f "--tsr" = Some path -> verify_tsr f path stamped r w = (Ok r', w') ->
  grows r r' /\ (rp_failed r' = false -> exists c v, token_met c v).
Proof.
  intros Hw Ho H. unfold verify_tsr in H. open_run.
  pose proof (fixed_run _ _ _ _ Hw Hm ltac:(auto with quiet)) as Hw0.
  apply fs_read_Ok in Hm. destruct Hw as [Hf _]. rewrite Hf in Hm.
  apply (mapM_Ok read_pin (fun w p pin => exists t, holds (w_files w) p t /\ PinnedTsa_from_pem t = Ok pin)) in Hm0;
    [|auto with quiet|by intros w1' w2' a' b' ->|by intros; eapply read_pin_Ok].
  destruct Hw0 as [Hf0 _]. rewrite Hf0 in Hm0.
  apply try_digests_run in H; [done|]. intros digest c v Hin Hv. exists path, a, a0, a1, digest. split_and!; try done.
  apply elem_of_app in Hin as [Hin|Hin%list_elem_of_singleton]; [|right; by simplify_eq].
  destruct (st_signature stamped); [|by apply not_elem_of_nil in Hin]. apply list_elem_of_singleton in Hin. left. by simplify_eq.
Qed.


(** The log file verifies, and the root of its first entries is the
    checkpoint's. *)
Definition wal_met (cp : Checkpoint) (path : text) : Prop :=
  exists key bytes es c, hmac_key f = Ok key /\ files !! path = Some bytes /\
    read_wal from_slice_raw bytes = Ok es /\ check_all key es chain_start = Ok c /\
    cp_size cp <= Z.of_nat (length es) /\ root_of (upto (cp_size cp) (map (entry_leaf key) es)) = cp_root cp.

Lemma wal_tree_Ok path key w tree w' : wal_tree (V := V) path key w = (Ok tree, w') ->
  exists bytes, w_files w !! path = Some bytes /\ from_verified_wal (V := V) bytes key = Ok tree.
Proof.
  unfold wal_tree. intros H. open_run. match goal with H : sys_call _ = _ |- _ => apply quiet_sys_call in H as [Hs _] end.
  destruct a; [|done|done]. rewrite Hs in H. destruct (w_files w !! path) as [bytes|]; [|done]. open_run. eauto.
Qed.

Lemma check_wal_run cp path r w r' w' : fixed w -> 0 <= cp_size cp -> check_wal (V := V) f path cp r w = (Ok r', w') ->
  grows r r' /\ (rp_failed r' = false -> wal_met cp path).
Proof.
  intros [Hf _] Hn H. unfold check_wal in H. open_run.
  match goal with H : wal_tree _ _ _ = _ |- _ => apply wal_tree_Ok in H as (bytes & Hb & Ht) end. rewrite Hf in Hb.
  apply from_verified_wal_Ok in Ht as (Hk & es & c & He & Hc & ->).
  destruct (wal_tree_head es a (cp_size cp) Hn) as [Hl Hh]. rewrite Hl in H.
  destruct (Z.ltb_spec (Z.of_nat (length es)) (cp_size cp)); [by apply failing in H as [? ?]; split; [|congruence]|].
  rewrite Hh in H by done. open_run. unfold or_panic, map_err in *. simplify_eq. cbn [th_root] in H.
  case_bool_decide; cbn [negb] in H; [|by apply failing in H as [? ?]; split; [|congruence]].
  apply report_ok_run in H as ->. split; [apply grows_refl|]. intros _. by exists a, bytes, es, c.
Qed.

(** The checkpoint names the previous one, which is not larger. *)
Definition prev_met (cp : Checkpoint) (path : text) : Prop :=
  exists prev prev_cp, holds_note files path prev prev_cp /\
    prev_line (Checkpoint_body prev_cp) ∈ cp_extensions cp /\ cp_size prev_cp <= cp_size cp.

Lemma check_prev_run cp path r w r' w' : fixed w -> check_prev path cp r w = (Ok r', w') ->
  grows r r' /\ (rp_failed r' = false -> prev_met cp path).
Proof.
  intros [Hf _] H. unfold check_prev in H. open_run.
  match goal with H : open_note _ _ = _ |- _ => apply open_note_Ok in H; rewrite Hf in H end.
  assert (grows r a0 /\ (rp_failed a0 = false -> prev_line (Checkpoint_body b) ∈ cp_extensions cp)) as [G N].
  { case_bool_decide.
    - match goal with H : report_ok _ _ _ _ = _ |- _ => apply report_ok_run in H as -> end. by split; [apply grows_refl|].
    - match goal with H : report_fail _ _ _ _ = _ |- _ => apply failing in H as [? ?] end. by split; [|congruence]. }
  destruct (Z.ltb_spec (cp_size cp) (cp_size b)).
  - apply failing in H as [? ?]. split; [by eapply grows_trans|congruence].
  - open_run. split; [done|]. intros Hx. exists a, b. split_and!; auto; lia.
Qed.

(** The key was not revoked, or the signature is proven older. *)
Definition revocation_met (evidence : list TimeEvidence) : Prop :=
  forall t, one f "--revoked-at" = Some t -> exists at_ height, parse_uint 64 t = Some at_ /\
    optional_uint f "--revoked-at-height" "--revoked-at-height must be a block height" = Ok height /\
    accepts (Revoked at_ height) evidence = Ok tt.

Lemma check_revocation_run r w r' w' : check_revocation f r w = (Ok r', w') ->
  grows r r' /\ (rp_failed r' = false -> r' = r /\ revocation_met (rp_evidence r)).
Proof.
  intros H. unfold check_revocation in H. open_run. unfold revocation_met.
  destruct (one f "--revoked-at") as [t|] eqn:Et.
  - open_run. destruct (accepts _ _) as [[]|e] eqn:Ea; [|by apply failing in H as [? ?]; split; [|congruence]].
    apply report_ok_run in H as ->. split; [apply grows_refl|]. intros _. split; [done|].
    intros t' [= <-]. eauto 10.
  - destruct a; [done|]. open_run. split; [apply grows_refl|]. done.
Qed.

End checks.

(** ** The verdict *)

Lemma unmet_grows r reqs : forall missing out, unmet_loop r reqs missing = Ok out -> (length missing <= length out)%nat.
Proof.
  induction reqs as [|req reqs IH]; intros missing out H; cbn [unmet_loop] in H; [by injection H as <-|].
  open_results. apply IH in H. destruct (_ && _); [|done]. rewrite length_app in H. lia.
Qed.

Lemma unmet_none r reqs : unmet_loop r reqs [] = Ok [] ->
  forall req, req ∈ reqs -> exists name, requirement r (trim req) = Ok (name, true).
Proof.
  induction reqs as [|x reqs IH]; intros H req Hin; [by apply not_elem_of_nil in Hin|]. cbn [unmet_loop] in H. open_results.
  destruct y; cbn [negb andb] in H.
  - apply elem_of_cons in Hin as [->|Hin]; [by exists x0|]. by apply IH.
  - apply unmet_grows in H. cbn in H. case_bool_decide as Hb; [by apply not_elem_of_nil in Hb|]. cbn in H. lia.
Qed.

Lemma verdict_success r missing w w' : verdict r missing w = (Ok SUCCESS, w') ->
  rp_failed r = false /\ missing = [] /\ rp_incomplete r = false.
Proof.
  unfold verdict. intros H. destruct (rp_failed r); [by open_run|].
  case_bool_decide as Hm; cbn [negb] in H; [|by open_run].
  destruct (rp_incomplete r); [by open_run|]. done.
Qed.

(** ** The theorem *)

(** The digests a timestamp of this note may be over. *)
Definition stamped_of (note : SignedNote) (log : NoteVerifier) (cp : Checkpoint) : Stamped :=
  mkStamped ((fun s => sha256 (as_bytes s)) <$> match Checkpoint.signed_by note log with Ok s => Some s | Err _ => None end)
    (Checkpoint_digest cp).

(** Everything the options of one run asked for. *)
Record established (f : Flags) (files : gmap text (list Z)) (clock : Z) (note : SignedNote) (log : NoteVerifier)
    (cp : Checkpoint) : Prop := {
  es_signature : SignedNote_verify note log = Ok tt;
  es_required : forall req, req ∈ required f ->
    let witnessed := exists wd, quorum_met f files clock note log wd in
    let bitcoin := exists c v, bitcoin_met f files (stamped_of note log cp) c v in
    let timestamped := bitcoin \/ exists c v, token_met f files (stamped_of note log cp) c v in
    trim req = chars "witnessed" /\ witnessed \/ trim req = chars "timestamped" /\ timestamped \/
    trim req = chars "bitcoin" /\ bitcoin \/ trim req = chars "full" /\ witnessed /\ timestamped;
  es_wal : forall path, one f "--wal" = Some path -> wal_met f files cp path;
  es_prev : forall path, one f "--prev" = Some path -> prev_met files cp path;
  es_ots : forall path, one f "--ots" = Some path -> exists c v, bitcoin_met f files (stamped_of note log cp) c v;
  es_tsr : forall path, one f "--tsr" = Some path -> exists c v, token_met f files (stamped_of note log cp) c v;
  es_revoked : exists evidence, Forall (backed f files clock note log (stamped_of note log cp)) evidence /\
    revocation_met f evidence
}.

Lemma requirement_met f files clock note log st r req : justified f files clock note log st r ->
  (exists name, requirement r (trim req) = Ok (name, true)) ->
  let witnessed := exists wd, quorum_met f files clock note log wd in
  let bitcoin := exists c v, bitcoin_met f files st c v in
  let timestamped := bitcoin \/ exists c v, token_met f files st c v in
  trim req = chars "witnessed" /\ witnessed \/ trim req = chars "timestamped" /\ timestamped \/
  trim req = chars "bitcoin" /\ bitcoin \/ trim req = chars "full" /\ witnessed /\ timestamped.
Proof.
  intros [J1 J2 J3 _] [name H]. unfold requirement in H.
  cbv zeta. repeat case_bool_decide; [| | | |done]; injection H as _ H.
  - left. auto.
  - right; left. auto.
  - right; right; left. auto.
  - apply andb_true_iff in H as [Hx Hy]. right; right; right. auto.
Qed.

Lemma when_given_run f files clock note log st name check (Q : text -> Prop) r w r' w' :
  (forall v w1 r1 w2, one f name = Some v -> fixed files clock w1 -> check v r w1 = (Ok r1, w2) ->
     grows f files clock note log st r r1 /\ (rp_failed r1 = false -> rp_incomplete r1 = false -> Q v)) ->
  fixed files clock w -> when_given f name check r w = (Ok r', w') ->
  grows f files clock note log st r r' /\
  (rp_failed r' = false -> rp_incomplete r' = false -> forall v, one f name = Some v -> Q v).
Proof.
  intros Hc Hw H. unfold when_given in H. destruct (one f name) as [v|] eqn:E.
  - eapply Hc in H as [G HQ]; [|done|done]. split; [done|]. intros H1 H2 v' [= <-]. auto.
  - open_run. by split; [apply grows_refl|].
Qed.

Lemma quiet_when_given f name check r : (forall v r, quiet (check v r)) -> quiet (when_given f name check r).
Proof. intros H. unfold when_given. destruct (one f name); auto with quiet. Qed.

Lemma quiet_check_witnesses f note log r : quiet (check_witnesses f note log r).
Proof. unfold check_witnesses. solve_quiet. Qed.
Lemma quiet_check_wal f wal cp r : quiet (check_wal (V := V) f wal cp r).
Proof. unfold check_wal. solve_quiet. Qed.
Lemma quiet_check_prev prev cp r : quiet (check_prev prev cp r).
Proof. unfold check_prev. solve_quiet. Qed.
Lemma quiet_check_ots f p st r : quiet (check_ots f p st r).
Proof. unfold check_ots, check_block, report_ots_status. solve_quiet. Qed.
Lemma quiet_try_digests raw nonce pins attempts : forall last r, quiet (try_digests raw nonce pins attempts last r).
Proof.
  induction attempts as [|[d c] rest IH]; intros last r; cbn [try_digests]; [solve_quiet|].
  destruct (verify_response _ _ _ _) as [v|[]]; solve_quiet; auto.
Qed.
#[local] Hint Resolve quiet_try_digests : quiet.
Lemma quiet_verify_tsr f p st r : quiet (verify_tsr f p st r).
Proof. unfold verify_tsr. solve_quiet. Qed.
Lemma quiet_check_revocation f r : quiet (check_revocation f r).
Proof. unfold check_revocation. solve_quiet. Qed.
Lemma quiet_verdict r missing : quiet (verdict r missing).
Proof. unfold verdict. solve_quiet. Qed.
#[local] Hint Resolve quiet_check_witnesses quiet_check_wal quiet_check_prev quiet_check_ots quiet_verify_tsr
  quiet_check_revocation quiet_verdict quiet_when_given : quiet.
Lemma quiet_verify f : quiet (verify (V := V) f).
Proof. unfold verify. solve_quiet. Qed.

Lemma note_size files path note cp : holds_note files path note cp -> 0 <= cp_size cp.
Proof. intros (t & _ & _ & H). apply checkpoint_parse_exact in H as [(_ & Hs & _) _]. unfold_ints. lia. Qed.

(** The checks in their order, from the report that has the log's signature. *)
Lemma checks_run f files clock note log cp r0 w r1 w1 r2 w2 r3 w3 r4 w4 r5 w5 w6 r6 w7 :
  let st := stamped_of note log cp in
  fixed files clock w -> 0 <= cp_size cp ->
  check_witnesses f note log r0 w = (Ok r1, w1) ->
  when_given f "--wal" (fun wal => check_wal (V := V) f wal cp) r1 w1 = (Ok r2, w2) ->
  when_given f "--prev" (fun prev => check_prev prev cp) r2 w2 = (Ok r3, w3) ->
  when_given f "--ots" (fun p => check_ots f p st) r3 w3 = (Ok r4, w4) ->
  when_given f "--tsr" (fun p => verify_tsr f p st) r4 w4 = (Ok r5, w5) ->
  check_revocation f r5 w6 = (Ok r6, w7) ->
  rp_failed r6 = false -> rp_incomplete r6 = false ->
  grows f files clock note log st r0 r6 /\
  (forall path, one f "--wal" = Some path -> wal_met f files cp path) /\
  (forall path, one f "--prev" = Some path -> prev_met files cp path) /\
  (forall path, one f "--ots" = Some path -> exists c v, bitcoin_met f files st c v) /\
  (forall path, one f "--tsr" = Some path -> exists c v, token_met f files st c v) /\
  revocation_met f (rp_evidence r6).
Proof.
  intros st F0 Hn H1 H2 H3 H4 H5 H6 Nf Ni.
  pose proof (fixed_run _ _ _ _ _ _ F0 H1 ltac:(auto with quiet)) as F1.
  pose proof (fixed_run _ _ _ _ _ _ F1 H2 ltac:(auto with quiet)) as F2.
  pose proof (fixed_run _ _ _ _ _ _ F2 H3 ltac:(auto with quiet)) as F3.
  pose proof (fixed_run _ _ _ _ _ _ F3 H4 ltac:(auto with quiet)) as F4.
  apply (check_witnesses_run f files clock note log st) in H1; [|done].
  eapply (when_given_run f files clock note log st _ _ (wal_met f files cp)) in H2 as [G2 Q2]; [| |exact F1].
  2: { intros v x r' y _ Fx Hx. eapply check_wal_run in Hx as [? ?]; [by split; [|auto]|done|done]. }
  eapply (when_given_run f files clock note log st _ _ (prev_met files cp)) in H3 as [G3 Q3]; [| |exact F2].
  2: { intros v x r' y _ Fx Hx. eapply check_prev_run in Hx as [? ?]; [by split; [|auto]|done]. }
  eapply (when_given_run f files clock note log st _ _ (fun _ => exists c v, bitcoin_met f files st c v)) in H4 as [G4 Q4]; [| |exact F3].
  2: { intros v x r' y Ho Fx Hx. eapply check_ots_run in Hx as [? ?]; [by split|done|done]. }
  eapply (when_given_run f files clock note log st _ _ (fun _ => exists c v, token_met f files st c v)) in H5 as [G5 Q5]; [| |exact F4].
  2: { intros v x r' y Ho Fx Hx. eapply verify_tsr_run in Hx as [? ?]; [by split; [|auto]|done|done]. }
  apply (check_revocation_run f files clock note log st) in H6 as [G6 Q6]. destruct (Q6 Nf) as [-> Hrev].
  assert (forall a b, grows f files clock note log st a b -> rp_failed b = false -> rp_failed a = false) as Df.
  { intros a b [_ Hb _] E. destruct (rp_failed a); [|done]. by rewrite Hb in E. }
  assert (forall a b, grows f files clock note log st a b -> rp_incomplete b = false -> rp_incomplete a = false) as Di.
  { intros a b [_ _ Hb] E. destruct (rp_incomplete a); [|done]. by rewrite Hb in E. }
  pose proof (Df _ _ G5 Nf) as N4. pose proof (Di _ _ G5 Ni) as I4. pose proof (Df _ _ G4 N4) as N3.
  pose proof (Di _ _ G4 I4) as I3. pose proof (Df _ _ G3 N3) as N2. pose proof (Di _ _ G3 I3) as I2.
  split; [by repeat (eapply grows_trans; [eassumption|])|].
  split_and!; [by apply Q2|by apply Q3|by apply Q4|by apply Q5|done].
Qed.

Lemma verify_established f w w' : verify (V := V) f w = (Ok SUCCESS, w') ->
  exists path note cp keypath log, target f = Ok path /\ holds_note (w_files w) path note cp /\
    one f "--log-key" = Some keypath /\ holds_key (w_files w) keypath log /\
    established f (w_files w) (w_clock w) note log cp.
Proof.
  unfold verify. intros H. open_run. apply verdict_success in H as (Nf & -> & Ni).
  pose proof (fixed_run _ _ _ _ _ _ (conj eq_refl eq_refl) Hm0 ltac:(auto with quiet)) as F1.
  pose proof (fixed_run _ _ _ _ _ _ F1 Hm1 ltac:(auto with quiet)) as F2.
  pose proof (fixed_run _ _ _ _ _ _ F2 Hm3 ltac:(auto with quiet)) as F3.
  assert (fixed (w_files w) (w_clock w) w5) as F4.
  { eapply fixed_run; [exact F3|exact Hm4|]. destruct (SignedNote_verify a0 a2); auto with quiet. }
  apply open_note_Ok in Hm0. apply read_verifier_Ok in Hm3. rewrite (proj1 F2) in Hm3.
  unfold need in Hm2. apply ok_or_Ok in Hm2.
  eapply checks_run in Hm12 as (G & Qw & Qp & Qo & Qt & Qr);
    [|exact F4|by eapply note_size|exact Hm5|exact Hm6|exact Hm7|exact Hm8|exact Hm9|done|done].
  exists a, a0, b, a1, a2. split_and!; try done.
  assert (SignedNote_verify a0 a2 = Ok tt /\ a3 = Report_default) as [Hv ->].
  { destruct (SignedNote_verify a0 a2) as [[]|e].
    - by apply report_ok_run in Hm4 as ->.
    - unfold report_fail in Hm4. open_run. destruct G as [_ G _]. by rewrite G in Nf. }
  destruct G as [GJ _ _]. specialize (GJ (justified_default _ _ _ _ _ _)).
  split; try done.
  - intros req Hreq. eapply requirement_met; [exact GJ|]. by eapply unmet_none.
  - exists (rp_evidence a9). split; [by apply ju_evidence|done].
Qed.

(** Claim C15: Exit code 0 of [checkpoint verify] means that everything the options asked
    for holds of the files as they were, and that no file was changed. The
    note's log signature verifies under [--log-key]. Every word of
    [--require] is one of the four levels, and is established: [witnessed] by
    cosignatures of at least the threshold of distinct witness keys named with
    [--witness], none counted that is dated ahead of the clock by more than
    the allowed skew; [bitcoin] by a proof from the signed note or its body to
    a block header with enough work whose hash is the trusted one;
    [timestamped] by that or by a token of a pinned authority over one of the
    two; [full] by both. With [--wal] the log verifies and its first entries
    have the checkpoint's root; with [--prev] the checkpoint names the previous
    one; with [--ots] or [--tsr] the timestamp is confirmed, not pending; with
    [--revoked-at] the evidence, each item of it backed by one of the above,
    proves the signature older than the revocation. *)
Theorem verify_exit_zero_sound fetch args w w' :
  run (V := V) fetch (chars "checkpoint") (chars "verify" :: args) w = (SUCCESS, w') ->
  w_files w' = w_files w /\
  exists f path note cp keypath log, Flags_parse args VALUED = Ok f /\ target f = Ok path /\
    holds_note (w_files w) path note cp /\ one f "--log-key" = Some keypath /\ holds_key (w_files w) keypath log /\
    established f (w_files w) (w_clock w) note log cp.
Proof.
  unfold run. destruct (Flags_parse args VALUED) as [f|e]; [|done].
  change (subcommand fetch (chars "checkpoint") (chars "verify")) with (Some (verify (V := V))).
  cbv iota beta. destruct (verify f w) as [[code|e] w1] eqn:E; intros H.
  - simplify_eq. split; [exact (proj1 (quiet_verify _ _ _ _ E))|].
    apply verify_established in E as (path & note & cp & kp & log & E). by exists f, path, note, cp, kp, log.
  - by destruct e.
Qed.
End verify.
