(* ===== verification/TrustFiles.v ===== *)
(** * What the commands do to files

    Key files are never replaced and a failed [keygen] leaves nothing behind; a
    cosignature is added to a note whole or not at all; a created checkpoint
    verifies. Any system call may fail. Several processes that append to one note
    are a pool whose steps interleave, with the lock beside the note the only
    thing that keeps them apart: no cosignature is lost. *)

From Stdlib Require Import String.
From S2P Require Import Prelude Bytes Text Crypto Merkle MerkleTrees Checkpoint CheckpointProps Witness Auditing Wal WalLog WalTree Ots Tsa Cli CliProps Trust TrustVerify.
#[local] Open Scope string_scope.
#[local] Open Scope list_scope.
#[local] Open Scope Z_scope.

(** ** System calls *)

(** How many of the calls to come fail. *)
Definition fails (s : Sys) : bool := match s with Fine => false | _ => true end.
Definition faults (w : World) : nat := length (List.filter fails (w_sys w)).

Lemma sys_call_run w r w' : sys_call w = (r, w') -> exists s, r = Ok s /\ w_files w' = w_files w /\
  faults w = ((if fails s then 1 else 0) + faults w')%nat.
Proof.
  unfold sys_call, faults. destruct (w_sys w) as [|s l] eqn:E; intros [= <- <-].
  - exists Fine. rewrite E. done.
  - exists s. cbn. by destruct (fails s).
Qed.

(** What a call on one path may do: the outcome, the files, the failures used. *)
Lemma create_new_run p w r w' : fs_create_new p w = (r, w') ->
  match r with
  | Ok _ => w_files w !! p = None /\ w_files w' = <[p := []]> (w_files w) /\ faults w' = faults w
  | Err _ => w_files w' = w_files w /\ (faults w = S (faults w') \/ is_Some (w_files w !! p) /\ faults w' = faults w)
  end.
Proof.
  unfold fs_create_new, mbind, cmd_bind. destruct (sys_call w) as [x w1] eqn:E.
  apply sys_call_run in E as (s & -> & Hf & Hn). cbn. rewrite Hf in *.
  destruct s; cbn in Hn; [|intros [= <- <-]; auto..].
  destruct (w_files w !! p) eqn:Ep; intros [= <- <-]; cbn; [eauto|]. rewrite Hf. auto.
Qed.

Lemma remove_run p w r w' : fs_remove p w = (r, w') ->
  match r with
  | Ok _ => is_Some (w_files w !! p) /\ w_files w' = delete p (w_files w) /\ faults w' = faults w
  | Err _ => w_files w' = w_files w /\ (faults w = S (faults w') \/ w_files w !! p = None /\ faults w' = faults w)
  end.
Proof.
  unfold fs_remove, mbind, cmd_bind. destruct (sys_call w) as [x w1] eqn:E.
  apply sys_call_run in E as (s & -> & Hf & Hn). cbn. rewrite Hf in *.
  destruct s; cbn in Hn; [|intros [= <- <-]; auto..].
  destruct (w_files w !! p) eqn:Ep; intros [= <- <-]; cbn; [|auto]. rewrite Hf. eauto.
Qed.

Lemma write_all_run p bytes w r w' : fs_write_all p bytes w = (r, w') ->
  match r with
  | Ok _ => w_files w' = <[p := default [] (w_files w !! p) ++ bytes]> (w_files w) /\ faults w' = faults w
  | Err _ => faults w = S (faults w') /\ (w_files w' = w_files w \/ exists b, w_files w' = <[p := b]> (w_files w))
  end.
Proof.
  unfold fs_write_all, mbind, cmd_bind. destruct (sys_call w) as [x w1] eqn:E.
  apply sys_call_run in E as (s & -> & Hf & Hn). cbn. rewrite Hf in *.
  destruct s; cbn in Hn; intros [= <- <-]; cbn; rewrite ?Hf; eauto.
Qed.

Lemma sync_run p w r w' : fs_sync p w = (r, w') -> w_files w' = w_files w /\
  match r with Ok _ => faults w' = faults w | Err _ => faults w = S (faults w') end.
Proof.
  unfold fs_sync, mbind, cmd_bind. destruct (sys_call w) as [x w1] eqn:E.
  apply sys_call_run in E as (s & -> & Hf & Hn). destruct s; cbn in Hn; intros [= <- <-]; auto.
Qed.

Lemma rename_run a b w r w' : fs_rename a b w = (r, w') ->
  match r with
  | Ok _ => exists bytes, w_files w !! a = Some bytes /\ w_files w' = <[b := bytes]> (delete a (w_files w)) /\ faults w' = faults w
  | Err _ => w_files w' = w_files w /\ (faults w = S (faults w') \/ w_files w !! a = None)
  end.
Proof.
  unfold fs_rename, mbind, cmd_bind. destruct (sys_call w) as [x w1] eqn:E.
  apply sys_call_run in E as (s & -> & Hf & Hn). cbn. rewrite Hf in *.
  destruct s; cbn in Hn; [|intros [= <- <-]; auto..].
  destruct (w_files w !! a) eqn:Ea; intros [= <- <-]; cbn; [|auto]. rewrite Hf. eauto.
Qed.

Lemma exists_run p w r w' : fs_exists p w = (r, w') -> exists b, r = Ok b /\ w_files w' = w_files w /\
  (b = true /\ is_Some (w_files w !! p) /\ faults w' = faults w \/
   b = false /\ (w_files w !! p = None /\ faults w' = faults w \/ faults w = S (faults w'))).
Proof.
  unfold fs_exists, mbind, cmd_bind. destruct (sys_call w) as [x w1] eqn:E.
  apply sys_call_run in E as (s & -> & Hf & Hn). cbn. rewrite Hf in *.
  destruct s; cbn in Hn; [|intros [= <- <-]; eauto 10..].
  destruct (w_files w !! p) eqn:Ep; intros [= <- <-]; cbn; eauto 10.
Qed.

(** ** New files *)

Lemma write_and_sync_run p bytes w r w' : w_files w !! p = Some [] -> write_and_sync p bytes w = (r, w') ->
  match r with
  | Ok _ => w_files w' = <[p := bytes]> (w_files w) /\ faults w' = faults w
  | Err _ => faults w = S (faults w') /\ exists b, w_files w' = <[p := b]> (w_files w)
  end.
Proof.
  intros Hp. unfold write_and_sync, mbind, cmd_bind. destruct (fs_write_all p bytes w) as [x w1] eqn:E.
  apply write_all_run in E. rewrite Hp in E. destruct x as [[]|e].
  - destruct E as [E1 E2]. intros (H1 & H2)%sync_run. rewrite H1, E1.
    destruct r; [split; [done|congruence]|]. split; [congruence|]. eauto.
  - intros [= <- <-]. destruct E as [E1 [E2|E2]]; (split; [done|]); [|done].
    exists []. by rewrite insert_id.
Qed.

(** A file created here is whole or gone again, unless its removal fails too. *)
Lemma write_new_run p bytes w r w' : write_new_secret p bytes w = (r, w') ->
  match r with
  | Ok _ => w_files w !! p = None /\ w_files w' = <[p := bytes]> (w_files w) /\ faults w' = faults w
  | Err _ =>
      (w_files w' = w_files w /\ (faults w = S (faults w') \/ is_Some (w_files w !! p) /\ faults w' = faults w)) \/
      (w_files w !! p = None /\ (exists b, w_files w' = <[p := b]> (w_files w)) /\ faults w = S (S (faults w')))
  end.
Proof.
  unfold write_new_secret, fill_or_remove, attempt, mbind, cmd_bind.
  destruct (fs_create_new p w) as [x w1] eqn:E. apply create_new_run in E.
  destruct x as [[]|e]; [|intros [= <- <-]; left; done]. destruct E as (Hn & Hf & Hc).
  destruct (write_and_sync p bytes w1) as [y w2] eqn:E2.
  apply write_and_sync_run in E2; [|by rewrite Hf, lookup_insert_eq].
  destruct y as [[]|e].
  - destruct E2 as [F2 C2]. intros [= <- <-]. rewrite F2, Hf, insert_insert_eq. split_and!; congruence || done.
  - destruct E2 as [C2 [b F2]]. rewrite Hf, insert_insert_eq in F2.
    destruct (fs_remove p w2) as [z w3] eqn:E3. apply remove_run in E3. intros [= <- <-].
    destruct z as [[]|e'].
    + destruct E3 as (_ & F3 & C3). left. rewrite F3, F2, delete_insert_id by done. split; [done|]. left. congruence.
    + destruct E3 as (F3 & [C3|[N3 _]]).
      * right. split; [done|]. split; [exists b; congruence|congruence].
      * by rewrite F2, lookup_insert_eq in N3.
Qed.

Lemma refuse_existing_run p w r w' : refuse_existing p w = (r, w') -> w_files w' = w_files w /\
  (faults w' <= faults w)%nat /\
  (r = Ok tt -> w_files w !! p = None \/ faults w = S (faults w')).
Proof.
  unfold refuse_existing, mbind, cmd_bind. destruct (fs_exists p w) as [x w1] eqn:E.
  apply exists_run in E as (b & -> & Hf & [(-> & Hs & Hc)|(-> & Hc)]); intros [= <- <-].
  - split_and!; [done|lia|done].
  - split_and!; [done|lia|]. intros _. destruct Hc as [[? _]|?]; auto.
Qed.

(** ** [checkpoint keygen] *)

Lemma write_key_pair_run sk skey vk vkey w r w' : sk <> vk -> write_key_pair sk skey vk vkey w = (r, w') ->
  w_files w ⊆ w_files w' /\
  match r with
  | Ok _ => w_files w !! sk = None /\ w_files w !! vk = None /\
      w_files w' = <[vk := as_bytes (vkey ++ [10])]> (<[sk := as_bytes (skey ++ [10])]> (w_files w))
  | Err _ => (faults w <= 1)%nat -> w_files w' = w_files w
  end.
Proof.
  intros Hne. unfold write_key_pair. unfold mbind at 1, cmd_bind at 1.
  destruct (refuse_existing sk w) as [x w1] eqn:E1. apply refuse_existing_run in E1 as (F1 & L1 & C1).
  destruct x as [[]|e]; [|intros [= <- <-]; by rewrite F1].
  unfold mbind at 1, cmd_bind at 1.
  destruct (refuse_existing vk w1) as [x w2] eqn:E2. apply refuse_existing_run in E2 as (F2 & L2 & C2).
  destruct x as [[]|e]; [|intros [= <- <-]; by rewrite F2, F1]. specialize (C2 eq_refl).
  unfold mbind at 1, cmd_bind at 1.
  destruct (write_new_secret sk _ w2) as [x w3] eqn:E3. apply write_new_run in E3. rewrite F2, F1 in *.
  destruct x as [[]|e].
  2:{ intros [= <- <-]. destruct E3 as [[F3 _]|(N3 & [b F3] & C3)]; rewrite F3; [done|].
      split; [by apply insert_subseteq|lia]. }
  destruct E3 as (N3 & F3 & C3). unfold mbind at 1, cmd_bind at 1, attempt at 1.
  destruct (write_new_public vk _ w3) as [x w4] eqn:E4. apply write_new_run in E4. rewrite F3 in E4.
  rewrite lookup_insert_ne in E4 by done. destruct x as [[]|e].
  - intros [= <- <-]. destruct E4 as (N4 & F4 & C4). rewrite F4. split; [|done].
    etrans; [|apply insert_subseteq; by rewrite lookup_insert_ne]. by apply insert_subseteq.
  - unfold mbind, cmd_bind, attempt. destruct (fs_remove sk w4) as [y w5] eqn:E5. apply remove_run in E5.
    intros H. assert (w' = w5 /\ exists e', r = Err e') as [-> [e' ->]] by (unfold lift in H; injection H as <- <-; eauto). clear H.
    destruct E4 as [[F4 C4]|(N4 & [b F4] & C4)]; rewrite F4 in E5.
    + destruct y as [u|e2]; [destruct E5 as (_ & F5 & C5)|destruct E5 as [F5 [C5|[N5 _]]]]; rewrite F5.
      * by rewrite delete_insert_id.
      * split; [by apply insert_subseteq|]. destruct C4 as [?|[Hs ?]]; [lia|]. destruct C2 as [C2|?]; [|lia].
        rewrite C2 in Hs. by destruct Hs.
      * by rewrite lookup_insert_eq in N5.
    + split; [|lia]. destruct y as [u|e2]; [destruct E5 as (_ & F5 & C5)|destruct E5 as [F5 _]]; rewrite F5.
      * rewrite delete_insert_ne, delete_insert_id by done. by apply insert_subseteq.
      * etrans; [|apply insert_subseteq; by rewrite lookup_insert_ne]. by apply insert_subseteq.
Qed.

(** ** Texts in files *)

Lemma trim_visible t : forallb (fun c => negb (is_whitespace c)) t = true -> trim (t ++ [10]) = t.
Proof.
  intros H. assert (forall l, forallb (fun c => negb (is_whitespace c)) l = true -> trim_start l = l) as Hid.
  { intros [|c l] Hl; [done|]. cbn in Hl |- *. by destruct (is_whitespace c). }
  unfold trim. assert (rev (trim_start (t ++ [10])) = if bool_decide (t = []) then [] else 10 :: rev t) as ->.
  { destruct t as [|c t]; [done|]. cbn [app trim_start] in H |- *. apply andb_true_iff in H as [Hc _].
    apply negb_true_iff in Hc. rewrite Hc, bool_decide_false by done.
    change (c :: t ++ [10]) with ((c :: t) ++ [10]). by rewrite rev_app_distr. }
  case_bool_decide; [by subst|]. cbn [trim_start]. change (is_whitespace 10) with true. cbv iota.
  rewrite Hid; [apply rev_involutive|]. rewrite forallb_forall in *. intros c Hc%in_rev. by apply H.
Qed.

Lemma ascii_scalar t : Forall (fun c => 0 <= c < 128) t -> Forall is_scalar t.
Proof. intros H. eapply Forall_impl; [|exact H]. intros c. cbn. unfold is_scalar. lia. Qed.

Lemma b64_char_visible c : b64_char c = true -> is_scalar c /\ is_whitespace c = false.
Proof. unfold b64_char, is_ascii_digit, is_scalar, is_whitespace. lia. Qed.

Lemma hex_char_visible c : is_ascii_hexdigit c = true -> is_scalar c /\ is_whitespace c = false.
Proof. unfold is_ascii_hexdigit, is_ascii_digit, is_scalar, is_whitespace. lia. Qed.

(** Texts that are scalars without white space. *)
Definition visible (t : text) : Prop := Forall (fun c => is_scalar c /\ is_whitespace c = false) t.

Lemma visible_forallb (p : Z -> bool) t : (forall c, p c = true -> is_scalar c /\ is_whitespace c = false) ->
  forallb p t = true -> visible t.
Proof. intros Hp H. apply forallb_Forall in H. eapply Forall_impl; [|exact H]. auto. Qed.

Lemma visible_app a b : visible (a ++ b) <-> visible a /\ visible b.
Proof. apply list.Forall_app. Qed.

Lemma visible_trim t : visible t -> trim (t ++ [10]) = t.
Proof.
  intros H. apply trim_visible. apply forallb_Forall. eapply Forall_impl; [|exact H]. intros c [_ Hc]. cbn. by rewrite Hc.
Qed.
Lemma visible_scalars t : visible t -> Forall is_scalar (t ++ [10]).
Proof.
  intros H. apply list.Forall_app. split; [|constructor; [|constructor]; unfold is_scalar; lia].
  eapply Forall_impl; [|exact H]. by intros c [? _].
Qed.

Lemma name_visible n : is_valid_name n = true -> Forall is_scalar n -> visible n.
Proof.
  intros [_ H]%valid_name_spec Hs. apply list.Forall_forall. intros c Hc. rewrite list.Forall_forall in Hs.
  split; [by apply Hs|]. destruct (is_whitespace c) eqn:E; [|done].
  rewrite <- H. symmetry. apply existsb_exists. exists c. split; [by apply list_elem_of_In|]. by rewrite E, orb_true_r.
Qed.

Section keys.
Context {HF : HashFunctions} {B64 : Base64} {ED : Ed25519}.

Lemma b64_visible bs : Forall is_byte bs -> visible (b64_encode bs).
Proof. intros H. by eapply visible_forallb; [apply b64_char_visible|apply b64_alphabet]. Qed.

Lemma hex8_visible z : visible (hex8 z).
Proof. eapply visible_forallb; [apply hex_char_visible|]. apply hex_text_digits, be_bytes_bytes. Qed.

Lemma plus_visible : visible [43].
Proof. constructor; [|constructor]. unfold is_scalar. split; [lia|done]. Qed.

Lemma vkey_visible v : NoteVerifier_wf v -> Forall is_scalar (nv_name v) -> visible (to_vkey v).
Proof.
  intros (Hn & Ha & [_ Hb] & _) Hs. unfold to_vkey. rewrite !visible_app.
  split_and!; [by apply name_visible|apply plus_visible|apply hex8_visible|apply plus_visible|].
  apply b64_visible. constructor; [by destruct Ha as [->| ->]|done].
Qed.

Lemma skey_visible name alg h seed : is_valid_name name = true -> Forall is_scalar name -> is_byte alg ->
  Forall is_byte seed -> visible (render_skey name alg h seed).
Proof.
  intros Hn Hs Ha Hb. unfold render_skey. rewrite !visible_app.
  split_and!; [|by apply name_visible|apply plus_visible|apply hex8_visible|apply plus_visible|].
  - unfold visible, SKEY_PREFIX. apply (bool_decide_unpack _). by vm_compute.
  - apply b64_visible. by constructor.
Qed.

(** A new pair of keys: both texts are readable back from a file, and belong
    together. *)
Lemma log_pair name seed s : LogSigner_from_seed name seed = Ok s -> Forall is_scalar name -> bytes32 seed ->
  NoteVerifier_wf (lsg_verifier s) /\ visible (LogSigner_to_skey s) /\ visible (to_vkey (lsg_verifier s)) /\
  LogSigner_from_skey (LogSigner_to_skey s) = Ok s.
Proof.
  intros H Hs Hb. pose proof H as H'. unfold LogSigner_from_seed in H. open_results.
  match goal with H : NoteVerifier_new _ _ _ = Ok _ |- _ => apply verifier_new_Ok in H as [Hn ->] end. cbn [lsg_verifier].
  assert (NoteVerifier_wf (mkNoteVerifier name ALG_ED25519 (key_hash name ALG_ED25519 (verifying_key seed)) (verifying_key seed))) as Hwf.
  { unfold NoteVerifier_wf, bytes32. cbn. split_and!; auto using verifying_key_length, verifying_key_bytes, verifying_key_ok. }
  split_and!; [done| |by apply vkey_visible|].
  - unfold LogSigner_to_skey. cbn. apply skey_visible; try done. by destruct Hb.
  - unfold LogSigner_from_skey, LogSigner_to_skey. cbn [lsg_verifier lsg_key nv_name nv_key_hash].
    rewrite skey_parse by (done || by left). exact H'.
Qed.

Lemma witness_pair name seed s : WitnessSigner_from_seed name seed = Ok s -> Forall is_scalar name -> bytes32 seed ->
  NoteVerifier_wf (wsg_verifier s) /\ visible (WitnessSigner_to_skey s) /\ visible (to_vkey (wsg_verifier s)) /\
  WitnessSigner_from_skey (WitnessSigner_to_skey s) = Ok s.
Proof.
  intros H Hs Hb. pose proof H as H'. unfold WitnessSigner_from_seed in H. open_results.
  match goal with H : NoteVerifier_new _ _ _ = Ok _ |- _ => apply verifier_new_Ok in H as [Hn ->] end. cbn [wsg_verifier].
  assert (NoteVerifier_wf (mkNoteVerifier name ALG_COSIGNATURE_V1 (key_hash name ALG_COSIGNATURE_V1 (verifying_key seed)) (verifying_key seed))) as Hwf.
  { unfold NoteVerifier_wf, bytes32. cbn. split_and!; auto using verifying_key_length, verifying_key_bytes, verifying_key_ok. }
  split_and!; [done| |by apply vkey_visible|].
  - unfold WitnessSigner_to_skey. cbn. apply skey_visible; try done. by destruct Hb.
  - unfold WitnessSigner_from_skey, WitnessSigner_to_skey. cbn [wsg_verifier wsg_key nv_name nv_key_hash].
    rewrite skey_parse by (done || by left). exact H'.
Qed.

(** A file written as one visible line. *)
Lemma holds_line files p t : files !! p = Some (as_bytes (t ++ [10])) -> visible t ->
  exists u, holds files p u /\ trim u = t.
Proof.
  intros Hf Hv. exists (t ++ [10]). split; [|by apply visible_trim].
  exists (as_bytes (t ++ [10])). split; [done|]. by apply from_utf8_as_bytes, visible_scalars.
Qed.

(** The value of an option is a Rust string. *)
Definition options_ok (f : Flags) : Prop := Forall (fun p => Forall is_scalar (snd p)) (f_pairs f).

Lemma one_scalars f name t : options_ok f -> one f name = Some t -> Forall is_scalar t.
Proof.
  intros Ho H. unfold one in H. apply fmap_Some in H as ([k v] & H & ->). apply List.find_some in H as [H _].
  apply in_rev, list_elem_of_In in H. unfold options_ok in Ho. rewrite list.Forall_forall in Ho. by apply (Ho (k, v)).
Qed.

(** The two texts of a pair that [keygen] made, of the kind asked for. *)
Definition is_pair (kind skey vkey : text) (v : NoteVerifier) : Prop :=
  NoteVerifier_parse vkey = Ok v /\
  (kind = chars "log" /\ (exists s, LogSigner_from_skey skey = Ok s /\ lsg_verifier s = v) \/
   kind = chars "witness" /\ (exists s, WitnessSigner_from_skey skey = Ok s /\ wsg_verifier s = v)).

Lemma keygen_pair f name kind seed skey vkey : options_ok f -> one f "--name" = Some name -> bytes32 seed ->
  (if bool_decide (kind = chars "log") then
     s ← map_err OfCheckpoint (LogSigner_from_seed name seed);
     Ok (LogSigner_to_skey s, to_vkey (lsg_verifier s))
   else if bool_decide (kind = chars "witness") then
     s ← map_err OfCheckpoint (WitnessSigner_from_seed name seed);
     Ok (WitnessSigner_to_skey s, to_vkey (wsg_verifier s))
   else Err (NotA "--kind must be log or witness" kind)) = Ok (skey, vkey) ->
  visible skey /\ visible vkey /\ exists v, is_pair kind skey vkey v.
Proof.
  intros Ho Hn Hb H. pose proof (one_scalars _ _ _ Ho Hn) as Hs. unfold is_pair. repeat case_bool_decide; open_results.
  - match goal with H : LogSigner_from_seed _ _ = Ok _ |- _ => apply log_pair in H as (Hw & H1 & H2 & H3) end; [|done|done].
    split_and!; try done. exists (lsg_verifier x). split; [by apply vkey_parse|]. left. eauto.
  - match goal with H : WitnessSigner_from_seed _ _ = Ok _ |- _ => apply witness_pair in H as (Hw & H1 & H2 & H3) end; [|done|done].
    split_and!; try done. exists (wsg_verifier x). split; [by apply vkey_parse|]. right. eauto.
Qed.

(** [keygen] never replaces a file, whatever call fails. When it succeeds,
    neither key file existed, and the two hold a secret key and the public key
    that belongs to it, as the other commands read them. When it fails and at
    most one system call did, the files are exactly as before: no key is left
    without its other half. *)
Theorem keygen_atomic f w r w' :
  options_ok f -> Forall is_byte (w_random w) -> keygen f w = (r, w') ->
  w_files w ⊆ w_files w' /\
  match r with
  | Ok _ => exists out kind skey vkey v, one f "--out" = Some out /\ one f "--kind" = Some kind /\
      w_files w !! (out ++ chars ".skey") = None /\ w_files w !! (out ++ chars ".vkey") = None /\
      (exists u, holds (w_files w') (out ++ chars ".skey") u /\ trim u = skey) /\
      (exists u, holds (w_files w') (out ++ chars ".vkey") u /\ trim u = vkey) /\
      is_pair kind skey vkey v
  | Err _ => (faults w <= 1)%nat -> w_files w' = w_files w
  end.
Proof.
  intros Ho Hr. unfold keygen, need. unfold mbind at 1, cmd_bind at 1, lift at 1.
  destruct (one f "--name") as [name|] eqn:En; cbn [ok_or]; [|by intros [= <- <-]].
  unfold mbind at 1, cmd_bind at 1, lift at 1.
  destruct (one f "--out") as [out|] eqn:Eo; cbn [ok_or]; [|by intros [= <- <-]].
  unfold mbind at 1, cmd_bind at 1, random at 1. destruct (Nat.ltb_spec (length (w_random w)) 32); [by intros [= <- <-]|].
  set (w1 := set_random _ w). assert (w_files w1 = w_files w /\ faults w1 = faults w) as [F1 C1] by done.
  assert (bytes32 (take 32 (w_random w))) as Hb.
  { split; [rewrite length_take; lia|by apply Forall_take]. }
  unfold mbind at 1, cmd_bind at 1, lift at 1.
  destruct (one f "--kind") as [kind|] eqn:Ek; cbn [ok_or]; [|by intros [= <- <-]].
  unfold mbind at 1, cmd_bind at 1, lift at 1.
  match goal with |- context [match ?x with Ok _ => _ | Err _ => _ end] => destruct x as [[skey vkey]|e] eqn:Ep end;
    [|by intros [= <- <-]].
  apply (keygen_pair f name) in Ep as (V1 & V2 & v & Hp); [|done|done|done].
  unfold mbind at 1, cmd_bind at 1.
  destruct (write_key_pair _ _ _ _ w1) as [x w2] eqn:Ew. apply write_key_pair_run in Ew as [S2 Ew].
  2:{ intros E. apply (app_inv_head out) in E. by vm_compute in E. }
  rewrite F1, ?C1 in *. destruct x as [[]|e]; [|by intros [= <- <-]]. destruct Ew as (N1 & N2 & F2).
  intros Hw. assert (w_files w' = w_files w2 /\ exists c, r = Ok c) as [F3 [c ->]].
  { injection Hw as <- <-. by eauto. }
  rewrite F3. split; [done|]. exists out, kind, skey, vkey, v. split_and!; try done.
  - apply holds_line; [|done]. rewrite F2, lookup_insert_ne, lookup_insert_eq; [done|].
    intros E. apply (app_inv_head out) in E. by vm_compute in E.
  - apply holds_line; [|done]. by rewrite F2, lookup_insert_eq.
Qed.
End keys.

(** ** Replacing a note *)

Lemma longer_path (p s : text) : s <> [] -> p ++ s <> p.
Proof. intros Hs E. apply Hs. apply (app_inv_head p). by rewrite app_nil_r. Qed.

Lemma random_run n w r w' : random n w = (r, w') -> w_files w' = w_files w.
Proof. intros H. by destruct (quiet_random n _ _ _ H). Qed.

(** The new file written beside, then renamed. *)
Definition staged (tmp path : text) (bytes : list Z) : cmd unit :=
  _ ← fs_create_new tmp; _ ← fs_write_all tmp bytes; _ ← fs_sync tmp; fs_rename tmp path.

Lemma staged_run tmp path bytes w r w' : tmp <> path -> staged tmp path bytes w = (r, w') ->
  match r with
  | Ok _ => w_files w' = <[path := bytes]> (w_files w)
  | Err _ => forall p, p <> tmp -> w_files w' !! p = w_files w !! p
  end.
Proof.
  intros Hne. unfold staged, mbind, cmd_bind.
  destruct (fs_create_new tmp w) as [x w1] eqn:E1. apply create_new_run in E1.
  destruct x as [[]|e]; [|intros [= <- <-] p _; by destruct E1 as [-> _]]. destruct E1 as (N1 & F1 & _).
  destruct (fs_write_all tmp bytes w1) as [x w2] eqn:E2. apply write_all_run in E2. rewrite F1 in E2.
  rewrite lookup_insert_eq, insert_insert_eq in E2. cbn [default app] in E2.
  destruct x as [[]|e].
  2:{ intros [= <- <-] p Hp. destruct E2 as [_ [->|[b ->]]]; by rewrite ?insert_insert_eq, lookup_insert_ne. }
  destruct E2 as [F2 _].
  destruct (fs_sync tmp w2) as [x w3] eqn:E3. apply sync_run in E3 as [F3 _].
  destruct x as [[]|e]; [|intros [= <- <-] p Hp; by rewrite F3, F2, lookup_insert_ne].
  intros H. apply rename_run in H. rewrite F3, F2 in H. destruct r as [[]|e].
  - destruct H as (b & Hb & -> & _). rewrite lookup_insert_eq in Hb. injection Hb as <-.
    by rewrite delete_insert_id.
  - intros p Hp. destruct H as [-> _]. by rewrite lookup_insert_ne.
Qed.

(** The note's file is replaced whole, or stays; beside it at most one
    temporary file of a random name changes. *)
Lemma replace_file_run path bytes w r w' : replace_file path bytes w = (r, w') ->
  match r with
  | Ok _ => w_files w' = <[path := bytes]> (w_files w)
  | Err _ => w_files w' !! path = w_files w !! path
  end.
Proof.
  unfold replace_file. unfold mbind at 1, cmd_bind at 1. destruct (random 8 w) as [x w1] eqn:E1.
  apply random_run in E1. destruct x as [suffix|e]; [|intros [= <- <-]; by rewrite E1].
  set (tmp := path ++ _). assert (tmp <> path) as Hne by (by apply longer_path).
  rewrite <- E1. clear E1 w. change (_ ← fs_create_new tmp; _) with (staged tmp path bytes).
  unfold mbind at 1, cmd_bind at 1, attempt at 1.
  destruct (staged tmp path bytes w1) as [x w2] eqn:E2. apply staged_run in E2; [|done].
  destruct x as [[]|e]; [intros [= <- <-]; done|].
  unfold mbind, cmd_bind, attempt. destruct (fs_remove tmp w2) as [y w3] eqn:E3. apply remove_run in E3.
  intros [= <- <-]. destruct y as [u|e']; [destruct E3 as (_ & -> & _)|destruct E3 as [-> _]].
  - rewrite lookup_delete_ne by done. by apply E2.
  - by apply E2.
Qed.

Lemma open_lock_run path w r w' : open_lock (lock_path path) w = (r, w') -> w_files w' !! path = w_files w !! path.
Proof.
  assert (lock_path path <> path) as Hne by (by apply longer_path).
  unfold open_lock, mbind, cmd_bind. destruct (sys_call w) as [x w1] eqn:E1. apply sys_call_run in E1 as (s & -> & F1 & _).
  unfold get_file. destruct s; [|intros [= <- <-]; by rewrite F1..].
  destruct (w_files w1 !! lock_path path); intros [= <- <-]; [by rewrite F1|]. cbn. by rewrite lookup_insert_ne, F1.
Qed.

Lemma lock_exclusive_run lock w r w' : lock_exclusive lock w = (r, w') -> w_files w' = w_files w.
Proof.
  unfold lock_exclusive, mbind, cmd_bind. destruct (sys_call w) as [x w1] eqn:E1. apply sys_call_run in E1 as (s & -> & F1 & _).
  destruct s; by intros [= <- <-].
Qed.

Section append.
Context {HF : HashFunctions} {B64 : Base64} {ED : Ed25519} {BC : Base64Canonical}.

(** The note with one more signature. *)
Definition with_signature (note : SignedNote) (sig : NoteSignature) : SignedNote :=
  mkSignedNote (sn_text note) (sn_signatures note ++ [sig]).

Lemma cosigned_note_run tgt sig w r w' : cosigned_note tgt sig w = (r, w') ->
  w_files w' = w_files w /\
  forall bytes, r = Ok bytes -> exists t note, holds (w_files w) (at_path tgt) t /\ SignedNote_parse t = Ok note /\
    sn_text note = at_text tgt /\ add_signature note sig = Ok (with_signature note sig) /\
    bytes = as_bytes (SignedNote_render (with_signature note sig)).
Proof.
  unfold cosigned_note. unfold mbind at 1, cmd_bind at 1. destruct (read_text (at_path tgt) w) as [x w2] eqn:E2.
  pose proof (proj1 (quiet_read_text _ _ _ _ E2)) as F2.
  destruct x as [t|e]; [|by intros [= <- <-]]. apply read_text_Ok in E2.
  unfold mbind at 1, cmd_bind at 1, lift at 1. destruct (SignedNote_parse t) as [note|e] eqn:Ep; cbn [map_err];
    [|by intros [= <- <-]].
  unfold mbind at 1, cmd_bind at 1, lift at 1. case_bool_decide as Et; cbn [negb refuse_if]; [|by intros [= <- <-]].
  unfold mbind at 1, cmd_bind at 1, lift at 1.
  assert (forall n, add_signature note sig = Ok n -> n = with_signature note sig) as Ha.
  { unfold add_signature, with_signature. intros n H. repeat case_match; congruence. }
  destruct (add_signature note sig) as [note'|e] eqn:Es; cbn [map_err]; [|by intros [= <- <-]].
  specialize (Ha _ eq_refl) as ->. intros [= <- <-]. split; [done|]. intros bytes [= <-]. by exists t, note.
Qed.

Lemma append_cosignature_run tgt sig w r w' : append_cosignature tgt sig w = (r, w') ->
  match r with
  | Ok _ => exists t note, holds (w_files w) (at_path tgt) t /\ SignedNote_parse t = Ok note /\
      sn_text note = at_text tgt /\ add_signature note sig = Ok (with_signature note sig) /\
      w_files w' !! at_path tgt = Some (as_bytes (SignedNote_render (with_signature note sig)))
  | Err _ => w_files w' !! at_path tgt = w_files w !! at_path tgt
  end.
Proof.
  unfold append_cosignature, append_steps, lock_beside, act. cbn [run_alone].
  destruct (open_lock _ w) as [x w1] eqn:E1. apply open_lock_run in E1.
  destruct x as [[]|e]; cbn [run_alone]; [|by intros [= <- <-]].
  destruct (lock_exclusive _ w1) as [x w2] eqn:E2. apply lock_exclusive_run in E2.
  destruct x as [[]|e]; cbn [run_alone]; [|intros [= <- <-]; by rewrite E2].
  unfold append_locked, act. cbn [run_alone]. destruct (cosigned_note tgt sig w2) as [x w3] eqn:E3.
  apply cosigned_note_run in E3 as [F3 E3]. rewrite E2 in E3, F3.
  destruct x as [bytes|e]; cbn [run_alone]; [|intros [= <- <-]; by rewrite F3].
  destruct (E3 bytes eq_refl) as (t & note & (b & Hb & Hu) & Hn & Ht & Ha & ->).
  unfold replace_locked, act. cbn [run_alone]. destruct (replace_file _ _ w3) as [x w4] eqn:E4. apply replace_file_run in E4.
  destruct x as [[]|e]; cbn [run_alone]; intros [= <- <-].
  - exists t, note. split_and!; try done; [exists b; by rewrite <- E1|]. by rewrite E4, lookup_insert_eq.
  - by rewrite E4, F3.
Qed.

Lemma signature_line_scalars sig : NoteSignature_wf sig -> Forall is_scalar (ns_name sig) ->
  Forall is_scalar (NoteSignature_line sig).
Proof.
  intros (Hn & Hk & _ & Hb) Hs. unfold NoteSignature_line. rewrite !list.Forall_app. split_and!; try done.
  - apply (bool_decide_unpack _). by vm_compute.
  - apply (bool_decide_unpack _). by vm_compute.
  - eapply Forall_impl; [|apply b64_visible, list.Forall_app; split; [apply be_bytes_bytes|exact Hb]]. by intros c [? _].
  - apply (bool_decide_unpack _). by vm_compute.
Qed.

(** A note and its text in a file. *)
Definition holds_signed (files : gmap text (list Z)) (path : text) (note : SignedNote) : Prop :=
  exists t, holds files path t /\ SignedNote_parse t = Ok note.

(** What was appended reads back, as long as the note fits the limit readers
    have. *)
Lemma appended_reads files files' path note sig :
  holds_signed files path note -> add_signature note sig = Ok (with_signature note sig) ->
  files' !! path = Some (as_bytes (SignedNote_render (with_signature note sig))) ->
  NoteSignature_wf sig -> Forall is_scalar (ns_name sig) ->
  str_len (SignedNote_render (with_signature note sig)) <= MAX_NOTE_BYTES ->
  holds_signed files' path (with_signature note sig).
Proof.
  intros (t & (b & _ & Hu) & Hp) Ha Hf Hw Hs Hl. apply utf8_exact in Hu as [Hsc _].
  apply note_parse_wf in Hp as [(Ht & Hne & Hm & HS & Hd & Hk) ->].
  exists (SignedNote_render (with_signature note sig)). split.
  - eexists. split; [exact Hf|]. apply from_utf8_as_bytes. unfold SignedNote_render in *. cbn [with_signature sn_text sn_signatures].
    rewrite !list.Forall_app in Hsc. destruct Hsc as (H1 & H2 & H3).
    apply list.Forall_app. split; [done|]. apply (proj2 (list.Forall_app _ [10] _)). split; [done|].
    rewrite flat_map_app. apply list.Forall_app. split; [done|]. cbn [flat_map]. rewrite app_nil_r.
    by apply signature_line_scalars.
  - apply note_parse_render. unfold add_signature in Ha. destruct (existsb _ _) eqn:Ex; [done|].
    destruct (Nat.eqb_spec (length (sn_signatures note)) MAX_SIGNATURES); [done|].
    unfold SignedNote_wf. cbn [with_signature sn_text sn_signatures]. split_and!; try done.
    + by intros [_ ?]%app_eq_nil.
    + rewrite length_app. cbn [length]. lia.
    + apply list.Forall_app. split; [done|]. by constructor.
    + rewrite map_app. apply no_same_key in Ex. apply list.NoDup_app. split_and!; [done| |cbn; apply NoDup_singleton].
      intros x Hx ->%list_elem_of_singleton. done.
Qed.
(** The limit is not checked when a cosignature is appended: the append then
    succeeds, and leaves a note that no reader accepts. *)
Lemma append_past_limit tgt sig w w' t' :
  append_cosignature tgt sig w = (Ok tt, w') ->
  (forall t note, holds (w_files w) (at_path tgt) t -> SignedNote_parse t = Ok note ->
    MAX_NOTE_BYTES < str_len (SignedNote_render (with_signature note sig))) ->
  holds (w_files w') (at_path tgt) t' -> SignedNote_parse t' = Err NoteTooLarge.
Proof.
  intros Ha Hl (b & Hb & Hu). apply append_cosignature_run in Ha as (t & note & Ht & Hn & _ & _ & Hf).
  specialize (Hl t note Ht Hn). rewrite Hf in Hb. injection Hb as <-. apply utf8_exact in Hu as [_ Hu].
  unfold SignedNote_parse. assert (str_len t' = str_len (SignedNote_render (with_signature note sig))) as ->.
  { unfold str_len. by rewrite Hu. }
  by rewrite (proj2 (Z.ltb_lt _ _) Hl).
Qed.

(** ** Several witnesses on one note *)

Lemma holds_unique files path t t' : holds files path t -> holds files path t' -> t = t'.
Proof. intros (b & Hb & Hu) (b' & Hb' & Hu'). congruence. Qed.

Lemma holds_signed_same files files' path note :
  files' !! path = files !! path -> holds_signed files path note -> holds_signed files' path note.
Proof. intros E (t & (b & Hb & Hu) & Hp). exists t. split; [exists b; by rewrite E|done]. Qed.

(** A process that appends [pr_sig] to the note; [None] when it died. *)
Record Proc := mkProc { pr_target : AppendTarget; pr_sig : NoteSignature; pr_steps : option steps }.

(** The processes on one note, the files, and who has which lock. *)
Record Pool := mkPool { po_world : World; po_locks : gmap text nat; po_procs : list Proc }.

Inductive event :=
| Published (note : SignedNote)
| Appended (i : nat) (sig : NoteSignature).

(** The note was replaced, and its process is about to say so. *)
Definition events_at (i : nat) (sig : NoteSignature) (k : steps) : list event :=
  match k with Release _ (Ok _) => [Appended i sig] | _ => [] end.

(** The locks when [i] closes the file of one, and when it dies. *)
Definition not_by (i j : nat) : option nat := if decide (j = i) then None else Some j.
Definition unlock (i : nat) (lock : text) (locks : gmap text nat) : gmap text nat :=
  partial_alter (fun o => o ≫= not_by i) lock locks.
Definition unlock_all (i : nat) (locks : gmap text nat) : gmap text nat := omap (not_by i) locks.

(** One step of the pool: of a process on the files; taking the lock, when it is
    free; dropping it; a process that dies; something else that leaves the note
    alone; and another note published in its place by someone who respects the
    lock. *)
Inductive pool_step (path : text) : Pool -> list event -> Pool -> Prop :=
| pool_act w o ps i tgt sig f k w' : ps !! i = Some (mkProc tgt sig (Some (Act f))) -> f w = (k, w') ->
    pool_step path (mkPool w o ps) (events_at i sig k) (mkPool w' o (<[i := mkProc tgt sig (Some k)]> ps))
| pool_acquire w o ps i tgt sig lock k : ps !! i = Some (mkProc tgt sig (Some (Acquire lock k))) -> o !! lock = None ->
    pool_step path (mkPool w o ps) [] (mkPool w (<[lock := i]> o) (<[i := mkProc tgt sig (Some k)]> ps))
| pool_release w o ps i tgt sig lock r : ps !! i = Some (mkProc tgt sig (Some (Release lock r))) ->
    pool_step path (mkPool w o ps) [] (mkPool w (unlock i lock o) (<[i := mkProc tgt sig (Some (Finished r))]> ps))
| pool_die w o ps i tgt sig s : ps !! i = Some (mkProc tgt sig s) ->
    pool_step path (mkPool w o ps) [] (mkPool w (unlock_all i o) (<[i := mkProc tgt sig None]> ps))
| pool_other w o ps w' : w_files w' !! path = w_files w !! path -> pool_step path (mkPool w o ps) [] (mkPool w' o ps)
| pool_publish w o ps w' note : o !! lock_path path = None -> holds_signed (w_files w') path note ->
    pool_step path (mkPool w o ps) [Published note] (mkPool w' o ps).

Inductive pool_run (path : text) (p0 : Pool) : list event -> Pool -> Prop :=
| pool_start : pool_run path p0 [] p0
| pool_more evs p new p' : pool_run path p0 evs p -> pool_step path p new p' -> pool_run path p0 (evs ++ new) p'.

(** The note that the events leave: the last one published, with what was
    appended since. *)
Definition book_event (note : SignedNote) (e : event) : SignedNote :=
  match e with Published n => n | Appended _ s => with_signature note s end.
Definition book (note : SignedNote) (evs : list event) : SignedNote := fold_left book_event evs note.

Definition appended_by (i : nat) (evs : list event) : list NoteSignature :=
  flat_map (fun e => match e with Appended j s => if decide (j = i) then [s] else [] | _ => [] end) evs.

Lemma appended_by_app i a b : appended_by i (a ++ b) = appended_by i a ++ appended_by i b.
Proof. apply flat_map_app. Qed.

(** ** What the pool keeps to *)

(** Where a process can be, whether it has the lock there, and what it knows of
    the note [n] in the file. *)
Inductive at_step (tgt : AppendTarget) (sig : NoteSignature) (n : SignedNote) : option steps -> bool -> Prop :=
| at_start : at_step tgt sig n (Some (append_steps tgt sig)) false
| at_lock_call : at_step tgt sig n
    (Some (act (lock_exclusive (lock_path (at_path tgt))) (fun _ => Acquire (lock_path (at_path tgt)) (append_locked tgt sig))
             (fun e => Finished (Err e)))) false
| at_acquire : at_step tgt sig n (Some (Acquire (lock_path (at_path tgt)) (append_locked tgt sig))) false
| at_locked : at_step tgt sig n (Some (append_locked tgt sig)) true
| at_replace : sn_text n = at_text tgt -> add_signature n sig = Ok (with_signature n sig) ->
    at_step tgt sig n
      (Some (replace_locked (at_path tgt) (as_bytes (SignedNote_render (with_signature n sig))))) true
| at_release r : at_step tgt sig n (Some (Release (lock_path (at_path tgt)) r)) true
| at_finished r : at_step tgt sig n (Some (Finished r)) false
| at_dead : at_step tgt sig n None false.

(** What a process has appended when it is at [s]. *)
Definition said (sig : NoteSignature) (s : steps) : list NoteSignature :=
  match s with Release _ (Ok _) | Finished (Ok _) => [sig] | _ => [] end.

Record pool_ok (path : text) (note : SignedNote) (evs : list event) (p : Pool) : Prop := {
  pk_note : holds_signed (w_files (po_world p)) path (book note evs);
  pk_procs : forall i q, po_procs p !! i = Some q ->
    at_path (pr_target q) = path /\ NoteSignature_wf (pr_sig q) /\ Forall is_scalar (ns_name (pr_sig q)) /\
    at_step (pr_target q) (pr_sig q) (book note evs) (pr_steps q) (bool_decide (po_locks p !! lock_path path = Some i)) /\
    forall s, pr_steps q = Some s -> appended_by i evs = said (pr_sig q) s;
  pk_texts : forall a b i sig, evs = a ++ Appended i sig :: b -> exists q, po_procs p !! i = Some q /\ pr_sig q = sig /\
    sn_text (book note a) = at_text (pr_target q)
}.

(** A process that does not have the lock knows nothing of the note. *)
Lemma at_step_note tgt sig n n' s : at_step tgt sig n s false -> at_step tgt sig n' s false.
Proof. inversion 1; subst; constructor. Qed.

Lemma texts_kept evs (ps : list Proc) i q q' : ps !! i = Some q -> pr_sig q' = pr_sig q -> pr_target q' = pr_target q ->
  (forall note a b j sig, evs = a ++ Appended j sig :: b -> (exists q, ps !! j = Some q /\ pr_sig q = sig /\
     sn_text (book note a) = at_text (pr_target q)) -> exists q, (<[i := q']> ps) !! j = Some q /\ pr_sig q = sig /\
     sn_text (book note a) = at_text (pr_target q)).
Proof.
  intros Ei Hs Ht note a b j sig _ (r & Er & Hr & Htx). destruct (decide (i = j)) as [<-|].
  - exists q'. rewrite list_lookup_insert_eq by (by eapply lookup_lt_Some). simplify_eq. split_and!; congruence.
  - exists r. by rewrite list_lookup_insert_ne.
Qed.

(** One process moves and appends nothing; the file is as it was. *)
Lemma pool_ok_move path note evs w w' o o' ps i tgt sig s s' : pool_ok path note evs (mkPool w o ps) ->
  ps !! i = Some (mkProc tgt sig s) -> w_files w' !! path = w_files w !! path ->
  at_step tgt sig (book note evs) s' (bool_decide (o' !! lock_path path = Some i)) ->
  (forall j, j <> i -> bool_decide (o' !! lock_path path = Some j) = bool_decide (o !! lock_path path = Some j)) ->
  (forall x, s' = Some x -> appended_by i evs = said sig x) ->
  pool_ok path note evs (mkPool w' o' (<[i := mkProc tgt sig s']> ps)).
Proof.
  intros [Hn Hp Ht] Ei Hf Hs' Ho Hsaid. pose proof (Hp i _ Ei) as (P1 & P2 & P3 & P4 & P5). split; simpl in *.
  - by eapply holds_signed_same.
  - intros j q Hj. destruct (decide (j = i)) as [->|Hne].
    + rewrite list_lookup_insert_eq in Hj by (by eapply lookup_lt_Some). injection Hj as <-. by split_and!.
    + rewrite list_lookup_insert_ne in Hj by done. rewrite (Ho j Hne). by apply Hp.
  - intros a b j sg E. eapply texts_kept; [exact Ei|done|done|exact E|]. by eapply Ht.
Qed.

Lemma not_by_spec i o : bool_decide (o ≫= not_by i = Some i) = false /\
  forall j, j <> i -> bool_decide (o ≫= not_by i = Some j) = bool_decide (o = Some j).
Proof.
  destruct o as [k|]; cbn; [|done]. unfold not_by. split.
  - case_decide; apply bool_decide_eq_false; congruence.
  - intros j Hj. case_decide as E; [|done]. subst. rewrite !bool_decide_eq_false_2; congruence.
Qed.

Lemma unlock_spec i lock o : bool_decide (unlock i lock o !! lock = Some i) = false /\
  forall j, j <> i -> bool_decide (unlock i lock o !! lock = Some j) = bool_decide (o !! lock = Some j).
Proof. unfold unlock. rewrite lookup_partial_alter_eq. apply not_by_spec. Qed.

Lemma unlock_all_spec i lock o : bool_decide (unlock_all i o !! lock = Some i) = false /\
  forall j, j <> i -> bool_decide (unlock_all i o !! lock = Some j) = bool_decide (o !! lock = Some j).
Proof. unfold unlock_all. rewrite lookup_omap. apply not_by_spec. Qed.

(** What was appended left notes within the limit of a reader. *)
Definition fits (note : SignedNote) (evs : list event) : Prop :=
  forall a b i sig, evs = a ++ Appended i sig :: b ->
    str_len (SignedNote_render (with_signature (book note a) sig)) <= MAX_NOTE_BYTES.

Lemma fits_before note evs new : fits note (evs ++ new) -> fits note evs.
Proof. intros H a b i sig ->. apply (H a (b ++ new) i sig). by rewrite <- app_assoc. Qed.

Lemma book_more note evs e : book note (evs ++ [e]) = book_event (book note evs) e.
Proof. apply fold_left_app. Qed.

Lemma appended_last evs e a i sig b : evs ++ [e] = a ++ Appended i sig :: b ->
  (evs = a /\ e = Appended i sig) \/ exists b', evs = a ++ Appended i sig :: b'.
Proof.
  destruct b as [|x b _] using rev_ind; intros H.
  - apply app_inj_tail in H as [-> ->]. by left.
  - rewrite app_comm_cons, app_assoc in H. apply app_inj_tail in H as [-> _]. right. by exists b.
Qed.

(** The one with the lock writes the note it read, with its signature. *)
Lemma pool_ok_append path note evs w w' o ps i tgt sig k r : pool_ok path note evs (mkPool w o ps) ->
  ps !! i = Some (mkProc tgt sig (Some k)) -> said sig k = [] -> o !! lock_path path = Some i ->
  sn_text (book note evs) = at_text tgt ->
  add_signature (book note evs) sig = Ok (with_signature (book note evs) sig) ->
  w_files w' !! path = Some (as_bytes (SignedNote_render (with_signature (book note evs) sig))) ->
  fits note (evs ++ [Appended i sig]) ->
  pool_ok path note (evs ++ [Appended i sig])
    (mkPool w' o (<[i := mkProc tgt sig (Some (Release (lock_path (at_path tgt)) (Ok r)))]> ps)).
Proof.
  intros [Hn Hp Ht] Ei Hk Ho Etx Ha Hf Hfit. pose proof (Hp i _ Ei) as (P1 & P2 & P3 & _ & P5). split; simpl in *.
  - rewrite book_more. cbn [book_event]. eapply appended_reads; [exact Hn|done..|].
    by apply (Hfit evs [] i sig).
  - intros j q Hj. rewrite book_more, appended_by_app. cbn [book_event]. destruct (decide (j = i)) as [->|Hne].
    + rewrite list_lookup_insert_eq in Hj by (by eapply lookup_lt_Some). injection Hj as <-. simpl.
      rewrite Ho, bool_decide_eq_true_2 by done. split_and!; [done..|constructor|].
      intros s [= <-]. rewrite (P5 _ eq_refl), Hk. cbn. by rewrite decide_True.
    + rewrite list_lookup_insert_ne in Hj by done. destruct (Hp j q Hj) as (Q1 & Q2 & Q3 & Q4 & Q5).
      cbn. rewrite decide_False, !app_nil_r by done. split_and!; try done.
      rewrite bool_decide_eq_false_2 in Q4 |- * by congruence. by eapply at_step_note.
  - intros a b j sg [[-> [= <- <-]]|[b' E]]%appended_last.
    + eexists. rewrite list_lookup_insert_eq by (by eapply lookup_lt_Some). done.
    + eapply texts_kept; [exact Ei|done|done|exact E|]. by eapply Ht.
Qed.

Lemma pool_ok_publish path note evs w w' o ps n : pool_ok path note evs (mkPool w o ps) ->
  o !! lock_path path = None -> holds_signed (w_files w') path n ->
  pool_ok path note (evs ++ [Published n]) (mkPool w' o ps).
Proof.
  intros [Hn Hp Ht] Ho Hf. split; simpl in *.
  - by rewrite book_more.
  - intros j q Hj. destruct (Hp j q Hj) as (Q1 & Q2 & Q3 & Q4 & Q5). rewrite book_more, appended_by_app. cbn.
    rewrite app_nil_r. split_and!; try done. rewrite bool_decide_eq_false_2 in Q4 |- * by congruence. by eapply at_step_note.
  - intros a b j sg [[_ [=]]|[b' E]]%appended_last. by eapply Ht.
Qed.

(** A step that leaves the note alone and says nothing. *)
Lemma pool_ok_silent path note evs w w' o ps i tgt sig f k : pool_ok path note evs (mkPool w o ps) ->
  ps !! i = Some (mkProc tgt sig (Some (Act f))) -> appended_by i evs = [] ->
  at_step tgt sig (book note evs) (Some k) (bool_decide (o !! lock_path path = Some i)) ->
  w_files w' !! path = w_files w !! path -> said sig k = [] ->
  pool_ok path note (evs ++ events_at i sig k) (mkPool w' o (<[i := mkProc tgt sig (Some k)]> ps)).
Proof.
  intros Hok Ei He Hat Hw Hk. assert (events_at i sig k = []) as -> by (by destruct k as [| | |? []]).
  rewrite app_nil_r. eapply pool_ok_move; [exact Hok|exact Ei|done|done|done|]. intros x [= <-]. by rewrite Hk.
Qed.

(** A step of one process on the files. *)
Lemma pool_ok_act path note evs w w' o ps i tgt sig f k : pool_ok path note evs (mkPool w o ps) ->
  ps !! i = Some (mkProc tgt sig (Some (Act f))) -> f w = (k, w') -> fits note (evs ++ events_at i sig k) ->
  pool_ok path note (evs ++ events_at i sig k) (mkPool w' o (<[i := mkProc tgt sig (Some k)]> ps)).
Proof.
  intros Hok Ei Hf Hfit. pose proof (pk_procs _ _ _ _ Hok i _ Ei) as (P1 & P2 & P3 & P4 & P5). simpl in P1, P2, P3, P4, P5.
  specialize (P5 _ eq_refl). cbn [said] in P5. rewrite <- P1 in Hok, P4 |- *.
  remember (Some (Act f)) as s eqn:Es. remember (bool_decide _) as h eqn:Eh.
  destruct P4 as [| | | |Htx Ha| | |]; try discriminate Es; injection Es as <-.
  - destruct (open_lock _ w) as [[[]|e] w1] eqn:E1; injection Hf as <- <-; apply open_lock_run in E1;
      eapply pool_ok_silent; try done; rewrite <- Eh; constructor.
  - destruct (lock_exclusive _ w) as [[[]|e] w1] eqn:E1; injection Hf as <- <-; apply lock_exclusive_run in E1;
      eapply pool_ok_silent; try done; rewrite <- ?Eh, ?E1; done || constructor.
  - destruct (cosigned_note tgt sig w) as [[bytes|e] w1] eqn:E1; injection Hf as <- <-;
      apply cosigned_note_run in E1 as [F1 E1]; (eapply pool_ok_silent; try done; rewrite <- ?Eh, ?F1; try done); [|constructor].
    destruct (E1 _ eq_refl) as (t & n & Ht & Hp & Htx & Ha & ->).
    destruct (pk_note _ _ _ _ Hok) as (t' & Ht' & Hp'). simpl in Ht'.
    rewrite (holds_unique _ _ _ _ Ht Ht'), Hp' in Hp. injection Hp as <-. by constructor.
  - symmetry in Eh. apply bool_decide_eq_true in Eh.
    destruct (replace_file _ _ w) as [[[]|e] w1] eqn:E1; injection Hf as <- <-; apply replace_file_run in E1.
    + eapply pool_ok_append; try done. by rewrite E1, lookup_insert_eq.
    + eapply pool_ok_silent; try done. rewrite bool_decide_eq_true_2 by done. constructor.
Qed.

Lemma pool_step_ok path note evs p new p' : pool_ok path note evs p -> pool_step path p new p' ->
  fits note (evs ++ new) -> pool_ok path note (evs ++ new) p'.
Proof.
  intros Hok Hs Hfit. destruct Hs as [w o ps i tgt sig f k w' Ei Hf|w o ps i tgt sig lock k Ei Ho|w o ps i tgt sig lock r Ei
    |w o ps i tgt sig s Ei|w o ps w' Hw|w o ps w' n Ho Hn]; [by eapply pool_ok_act|..|by eapply pool_ok_publish];
    rewrite app_nil_r; [pose proof (pk_procs _ _ _ _ Hok i _ Ei) as (P1 & _ & _ & P4 & P5); simpl in P1, P4, P5..|].
  - specialize (P5 _ eq_refl). cbn [said] in P5. remember (Some (Acquire lock k)) as s eqn:Es.
    destruct P4; try discriminate Es; injection Es as <- <-. rewrite P1 in Ho |- *.
    eapply pool_ok_move; [exact Hok|exact Ei|done| | |by intros x [= <-]].
    + rewrite lookup_insert_eq, bool_decide_eq_true_2 by done. constructor.
    + intros j Hj. rewrite lookup_insert_eq, Ho, !bool_decide_eq_false_2; congruence.
  - specialize (P5 _ eq_refl). cbn [said] in P5. remember (Some (Release lock r)) as s eqn:Es.
    destruct P4; try discriminate Es; injection Es as <- <-. rewrite P1.
    eapply pool_ok_move; [exact Hok|exact Ei|done| |apply unlock_spec|by intros x [= <-]].
    rewrite (proj1 (unlock_spec _ _ _)). constructor.
  - eapply pool_ok_move; [exact Hok|exact Ei|done| |apply unlock_all_spec|done].
    rewrite (proj1 (unlock_all_spec _ _ _)). constructor.
  - destruct Hok as [Hn Hp Ht]. split; simpl in *; [by eapply holds_signed_same|done|done].
Qed.

(** Processes about to append to the note at [path], with signatures that a
    note can carry. *)
Definition about_to_append (path : text) (q : Proc) : Prop :=
  at_path (pr_target q) = path /\ NoteSignature_wf (pr_sig q) /\ Forall is_scalar (ns_name (pr_sig q)) /\
  pr_steps q = Some (append_steps (pr_target q) (pr_sig q)).

Lemma pool_run_ok path note w ps evs p : Forall (about_to_append path) ps -> holds_signed (w_files w) path note ->
  pool_run path (mkPool w ∅ ps) evs p -> fits note evs -> pool_ok path note evs p.
Proof.
  intros Hps Hn. induction 1 as [|evs p new p' _ IH Hs]; intros Hfit.
  - split; [done| |by intros [] ? ? ?]. intros i q Hi. simpl in *.
    destruct (proj1 (list.Forall_lookup _ _) Hps i q Hi) as (H1 & H2 & H3 & ->). split_and!; try done.
    + rewrite lookup_empty. constructor.
    + by intros s [= <-].
  - eapply pool_step_ok; [|exact Hs|exact Hfit]. apply IH. by eapply fits_before.
Qed.

(** Claim C17: cosignatures are not lost. Any number of processes append to one
    note, each by the steps that [append_cosignature] takes: it opens the lock
    file beside the note, waits for the lock, reads and checks the note, replaces
    it, and drops the lock. Their steps interleave in any order; a call of the
    system may fail at any point, a process may die at any point, which frees its
    lock, other files may change, and someone who takes the lock may publish
    another note in this one's place. The note at the end is the last one
    published with every signature appended since, in order and nothing else; a
    process that was told its append was done appended its signature exactly
    once, and one that was told it failed appended nothing; and each signature
    was put on a note with the text its process signed. The appended notes stay
    within the size that a reader takes, a limit the code does not check here;
    an advisory lock excludes those who ask for it. *)
Theorem cosignatures_kept path note w ps evs p :
  Forall (about_to_append path) ps -> holds_signed (w_files w) path note ->
  pool_run path (mkPool w ∅ ps) evs p -> fits note evs ->
  holds_signed (w_files (po_world p)) path (book note evs) /\
  (forall i q r, po_procs p !! i = Some q -> pr_steps q = Some (Finished r) ->
    appended_by i evs = match r with Ok _ => [pr_sig q] | Err _ => [] end) /\
  (forall a b i sig, evs = a ++ Appended i sig :: b ->
    exists q, po_procs p !! i = Some q /\ pr_sig q = sig /\ sn_text (book note a) = at_text (pr_target q)).
Proof.
  intros Hps Hn Hr Hfit. destruct (pool_run_ok _ _ _ _ _ _ Hps Hn Hr Hfit) as [K1 K2 K3]. split_and!; [done| |done].
  intros i q r Hi Hq. destruct (K2 i q Hi) as (_ & _ & _ & _ & H). rewrite (H _ Hq). by destruct r.
Qed.
End append.
