(* ===== verification/TrustSample.v ===== *)
(** * A concrete run of the command line

    One log, one witness, one timestamping authority and a log file of two
    entries, and the files and options of a verification that asks for
    everything. *)

From Stdlib Require Import String.
From S2P Require Import Prelude Bytes Text Crypto Merkle MerkleProps Checkpoint CheckpointProps Witness WitnessProps Auditing Wal WalTree WalSample Ots OtsEvidence Tsa TsaProps Cli CliProps Trust TrustVerify TrustFiles.
#[local] Open Scope string_scope.
#[local] Open Scope list_scope.
#[local] Open Scope Z_scope.

#[export] Instance StoredHead_eq_dec : EqDecision StoredHead.
Proof. solve_decision. Defined.
#[export] Instance StoredHead_countable : Countable StoredHead.
Proof.
  apply (inj_countable' (fun h => (sh_size h, sh_root h)) (fun p => mkStoredHead (fst p) (snd p))). by intros [].
Defined.

(** An encoding of witness states that reads back. *)
Definition toy_state_to_json (m : gmap text StoredHead) : list Z := pos_bits (encode m).
Definition toy_state_from_json (bs : list Z) : option (gmap text StoredHead) := decode (bits_pos bs).
#[export] Instance toy_state_json : StateJson.
Proof.
  refine {| state_to_json := toy_state_to_json; state_from_json := toy_state_from_json |}.
  intros m. unfold toy_state_from_json, toy_state_to_json. by rewrite bits_pos_bits, decode_encode.
Defined.

(** The data of an entry as the text it stands as. *)
#[export] Instance toy_entry_reader : EntryReader (list Z).
Proof. refine {| from_slice_entry := toy_entry |}. intros line e v H1 H2.
  change (toy_entry line = Some e) in H1. rewrite H1 in H2. by injection H2 as <-. Defined.

#[export] Existing Instance toy_hash.
#[export] Existing Instance toy_b64.
#[export] Existing Instance toy_ed25519.

#[export] Existing Instance OtsSample.toy_ripemd160.

Module TSample.

(** Two appended entries. *)
Definition wal_bytes : list Z :=
  let w0 := mkWalWriter [] 0 "genesis" None false in
  let '(_, w1) := append (T := list Z) Written [1] w0 in
  let '(_, w2) := append (T := list Z) Written [2] w1 in
  ww_file w2.

(** The words of a command line. *)
Definition words (l : list string) : list text := map chars l.

(** No network. *)
Definition offline : Fetch := fun url _ => Err (OfFetch url []).

(** One command after another, each ending with the code given. *)
Definition runs (AS : Asn1) (w : World) (steps : list (string * list string)) : list Z * World :=
  fold_left (fun '(codes, w) '(command, args) =>
    let '(code, w') := run (V := list Z) offline (chars command) (words args) w in (codes ++ [code], w')) steps ([], w).

Definition start : World :=
  mkWorld {[ chars "wal" := wal_bytes ; chars "tsa.pem" := as_bytes (BEGIN_CERTIFICATE ++ hex_text toy_cert_der ++ END_CERTIFICATE);
             chars "note.tsr" := [6] ]}
    [] [] (map Z.of_nat (seq 1 200)) 1700000000 [] [].

(** What was printed last, kept as a file. *)
Definition redirect (path : string) (w : World) : World :=
  match list.last (w_stdout w) with
  | Some (Plain t) => set_files (<[chars path := as_bytes t]> (w_files w)) w
  | _ => w
  end.

Definition no_stamp : Asn1 := toy_asn1 [].

(** Keys, the witness's state, and a signed checkpoint of the log. *)
Definition prepared : list Z * World :=
  runs no_stamp start
    [("checkpoint", ["keygen"; "--name"; "log.example"; "--kind"; "log"; "--out"; "log"]);
     ("checkpoint", ["keygen"; "--name"; "w.example"; "--kind"; "witness"; "--out"; "w"]);
     ("witness", ["init"; "--state"; "state"]);
     ("checkpoint", ["create"; "wal"; "--origin"; "log.example"; "--key"; "log.skey"; "--out"; "note"]);
     ("checkpoint", ["request"; "wal"; "--note"; "note"; "--old"; "0"])].

Definition cosigned : list Z * World :=
  runs no_stamp (redirect "request" (snd prepared))
    [("witness", ["cosign"; "request"; "--key"; "w.skey"; "--log"; "log.example=log.vkey"; "--state"; "state";
                  "--append-to"; "note"]);
     ("checkpoint", ["tsa-request"; "note"; "--log-key"; "log.vkey"; "--nonce"; "200"])].

Definition verify_args : list string :=
  ["verify"; "note"; "--log-key"; "log.vkey"; "--witness"; "w.vkey"; "--wal"; "wal"; "--tsr"; "note.tsr";
   "--tsa-cert"; "tsa.pem"; "--nonce"; "200"; "--require"; "full"; "--revoked-at"; "1800000000"].

(** The authority stamps what [tsa-request] sent. *)
Definition stamped_bytes : list Z := default [] (w_files (snd cosigned) !! chars "note.signed.tsq").
Definition verified : list Z * World := runs (toy_asn1 stamped_bytes) (snd cosigned) [("checkpoint", verify_args)].

Example session : fst prepared = [0; 0; 0; 0; 0] /\ fst cosigned = [0; 0] /\ fst verified = [0].
Proof. by vm_compute. Qed.
End TSample.
Import TSample.

#[local] Instance stamping_authority : Asn1 := toy_asn1 stamped_bytes.

Lemma verify_exit_zero_sound_witness :
  w_files (snd verified) = w_files (snd cosigned) /\
  exists f path note cp keypath log, Flags_parse (words (tail verify_args)) VALUED = Ok f /\ target f = Ok path /\
    holds_note (w_files (snd cosigned)) path note cp /\ one f "--log-key" = Some keypath /\
    holds_key (w_files (snd cosigned)) keypath log /\
    established f (w_files (snd cosigned)) (w_clock (snd cosigned)) note log cp.
Proof.
  apply (verify_exit_zero_sound (V := list Z) offline (words (tail verify_args)) (snd cosigned) (snd verified)).
  vm_compute. reflexivity.
Defined.

(** ** Keys *)

Definition keygen_flags : Flags :=
  match Flags_parse (words ["--name"; "log.example"; "--kind"; "log"; "--out"; "log"]) VALUED with
  | Ok f => f
  | Err _ => mkFlags [] []
  end.
(** The disk is full when the second key file is written. *)
Definition full_disk : World := set_sys [Fine; Fine; Fine; Fine; FailsAfter 3] start.

(** On an empty directory the two files are written; on a full disk neither stays. *)
Lemma keygen_atomic_witness :
  (exists skey vkey v, is_pair (chars "log") skey vkey v) /\ w_files (snd (keygen keygen_flags full_disk)) = w_files full_disk.
Proof.
  assert (options_ok keygen_flags) as Ho by (apply (bool_decide_unpack _); by vm_compute).
  assert (Forall is_byte (w_random start)) as Hr by (apply (bool_decide_unpack _); by vm_compute).
  split.
  - pose proof (keygen_atomic keygen_flags start _ _ Ho Hr (surjective_pairing _)) as [_ H].
    replace (fst (keygen keygen_flags start)) with (Ok SUCCESS : result Fail Z) in H by (by vm_compute).
    destruct H as (out & kind & skey & vkey & v & _ & Hk & _ & _ & _ & _ & Hp). exists skey, vkey, v.
    replace (one keygen_flags "--kind") with (Some (chars "log")) in Hk by (by vm_compute). by injection Hk as <-.
  - pose proof (keygen_atomic keygen_flags full_disk _ _ Ho Hr (surjective_pairing _)) as [_ H].
    assert (exists e, fst (keygen keygen_flags full_disk) = Err e) as [e E] by (eexists; by vm_compute).
    rewrite E in H. apply H. vm_compute. lia.
Defined.

(** ** Two cosignatures *)

Definition note_bytes : list Z := default [] (w_files (snd prepared) !! chars "note").
Definition note_text : text := default [] (from_utf8 note_bytes).
Definition note_before : SignedNote :=
  match SignedNote_parse note_text with Ok n => n | Err _ => mkSignedNote [] [] end.
Definition note_target : AppendTarget := mkAppendTarget (chars "note") (sn_text note_before).
Definition line_of (name : string) : NoteSignature := mkNoteSignature (chars name) 7 [1; 2].

(** The steps of a pool in the order of a schedule: a process moves, unless it
    waits for a lock; a process dies; the next calls of the system go as given. *)
Inductive turn := Moves (i : nat) | Dies (i : nat) | Disk (l : list Sys).

Definition move_to (i : nat) (q : Proc) (s : option steps) (w : World) (locks : gmap text nat) (ps : list Proc) : Pool :=
  mkPool w locks (<[i := mkProc (pr_target q) (pr_sig q) s]> ps).
Definition move (i : nat) (p : Pool) : list event * Pool :=
  let '(mkPool w locks ps) := p in
  match ps !! i with
  | Some q =>
      match pr_steps q with
      | Some (Act f) => let '(k, w') := f w in (events_at i (pr_sig q) k, move_to i q (Some k) w' locks ps)
      | Some (Acquire lock k) =>
          match locks !! lock with
          | None => ([], move_to i q (Some k) w (<[lock := i]> locks) ps)
          | Some _ => ([], p)
          end
      | Some (Release lock r) => ([], move_to i q (Some (Finished r)) w (unlock i lock locks) ps)
      | _ => ([], p)
      end
  | None => ([], p)
  end.
Definition turn_of (t : turn) (p : Pool) : list event * Pool :=
  match t with
  | Moves i => move i p
  | Dies i =>
      match po_procs p !! i with
      | Some q => ([], move_to i q None (po_world p) (unlock_all i (po_locks p)) (po_procs p))
      | None => ([], p)
      end
  | Disk l => ([], mkPool (set_sys l (po_world p)) (po_locks p) (po_procs p))
  end.
Definition turns (l : list turn) (p : Pool) : list event * Pool :=
  fold_left (fun '(evs, p) t => let '(new, p') := turn_of t p in (evs ++ new, p')) l ([], p).

Lemma turn_is_step path t p : pool_step path p (fst (turn_of t p)) (snd (turn_of t p)).
Proof.
  destruct p as [w locks ps]. assert (pool_step path (mkPool w locks ps) [] (mkPool w locks ps)) as Hself by (by constructor).
  destruct t as [i|i|l]; cbn [turn_of move po_procs po_locks po_world]; [| |by constructor].
  - destruct (ps !! i) as [[tgt sig [[|f|lock k|]|]]|] eqn:Ei; cbn [pr_steps]; try done.
    + destruct (f w) as [k w'] eqn:Ef. by econstructor.
    + destruct (locks !! lock) eqn:El; [done|]. by econstructor.
    + by eapply pool_release.
  - destruct (ps !! i) as [[tgt sig s]|] eqn:Ei; [|done]. by eapply pool_die.
Qed.

Lemma turns_are_run path l p : pool_run path p (fst (turns l p)) (snd (turns l p)).
Proof.
  induction l as [|t l IH] using rev_ind; [constructor|]. unfold turns in *. rewrite fold_left_app. cbn [fold_left].
  destruct (fold_left _ l _) as [evs q]. pose proof (turn_is_step path t q) as Ht. destruct (turn_of t q) as [new q'].
  by econstructor.
Qed.

(** Four processes: all of them open the lock file before any has the lock;
    "a" appends, "b" dies with the lock after it read the note, the disk is full
    when "c" writes, and "d" appends. *)
Definition four : Pool :=
  mkPool (snd prepared) ∅
    (map (fun name => mkProc note_target (line_of name) (Some (append_steps note_target (line_of name)))) ["a"; "b"; "c"; "d"]).
Definition schedule : list turn :=
  map Moves [0; 1; 2; 3; 3; 2; 1; 0; 0; 1; 0; 2; 0; 3; 0; 1; 0; 1; 2]%nat ++ [Dies 1] ++
  map Moves [2; 3; 2]%nat ++ [Disk [FailsAfter 2]] ++ map Moves [2; 3; 2; 3; 3; 3; 3]%nat.

Lemma schedule_events : fst (turns schedule four) = [Appended 0 (line_of "a"); Appended 3 (line_of "d")].
Proof. by vm_compute. Qed.

Lemma schedule_fits : fits note_before (fst (turns schedule four)).
Proof.
  rewrite schedule_events. intros a b i sig H. destruct a as [|x [|y a]]; [injection H as <- <- <-|injection H as <- <- <- <-|].
  - by vm_compute.
  - by vm_compute.
  - injection H as _ _ H. by destruct a.
Qed.

Lemma cosignatures_kept_witness :
  holds_signed (w_files (po_world (snd (turns schedule four)))) (chars "note")
    (mkSignedNote (sn_text note_before) (sn_signatures note_before ++ [line_of "a"; line_of "d"])) /\
  appended_by 0 (fst (turns schedule four)) = [line_of "a"] /\
  appended_by 2 (fst (turns schedule four)) = [].
Proof.
  destruct (cosignatures_kept (BC := toy_b64_canonical) (chars "note") note_before (snd prepared) (po_procs four)
              (fst (turns schedule four)) (snd (turns schedule four))) as (H1 & H2 & _).
  - repeat (constructor; [split_and!; [reflexivity|apply (bool_decide_unpack _); vm_compute; reflexivity..|reflexivity]|]).
    constructor.
  - exists note_text. split; [exists note_bytes; split|]; vm_compute; reflexivity.
  - apply turns_are_run.
  - exact schedule_fits.
  - split; [|split].
    + rewrite schedule_events in H1. unfold book in H1. simpl in H1. unfold with_signature in H1.
      cbn [sn_text sn_signatures] in H1. rewrite <- app_assoc in H1. exact H1.
    + apply (H2 0%nat (mkProc note_target (line_of "a") (Some (Finished (Ok tt)))) (Ok tt)); vm_compute; reflexivity.
    + assert (exists q e, po_procs (snd (turns schedule four)) !! 2%nat = Some q /\ pr_steps q = Some (Finished (Err e)))
        as (q & e & Hq & He) by (do 2 eexists; split; vm_compute; reflexivity).
      exact (H2 2%nat q (Err e) Hq He).
Defined.

(** ** A witness with its memory in a file *)

Definition two_recorded : gmap text TreeHead := {[ WSample.origin := head_of WSample.two ]}.
Definition filed : Witness FileStore :=
  mkWitness Sample.witness WSample.logs (mkFileStore (Some (state_to_json (encode_head <$> two_recorded)))).

(** The log grew from two leaves to three; the witness keeps its heads in memory
    or in a file. *)
Lemma honest_log_is_cosigned_witness :
  let req := WSample.request 2 sample_leaves WSample.proof2 in
  let body := Checkpoint_body (WSample.cp sample_leaves) in
  snd (add_checkpoint tt tt tt WSample.w2 req 1700000001) = Ok (cosig body Sample.witness 1700000001) /\
  snd (add_checkpoint FileFine FileFine FileFine filed req 1700000001) = Ok (cosig body Sample.witness 1700000001).
Proof.
  cbv zeta. split.
  - destruct (honest_log_is_cosigned WSample.w2 tt tt tt Sample.log (WSample.cp sample_leaves) sample_leaves 2
      WSample.proof2 1700000001) as (s & E & _); [..|exact (f_equal snd E)].
    + split; by_compute.
    + by_compute.
    + reflexivity.
    + exact sample_log_wf.
    + by_compute.
    + by_compute.
    + split; by_compute.
    + reflexivity.
    + by_compute.
    + by_compute.
    + apply (memory_answers _ _ (head_of sample_leaves)).
    + apply memory_answers.
  - assert (file_ok (wt_store filed)) as Hok
      by (exists two_recorded; split; [apply read_written; by_compute|by_compute]).
    assert (file_heads (wt_store filed) WSample.origin = Some (head_of WSample.two)) as Hheads.
    { unfold file_heads. cbn [filed wt_store]. rewrite read_written by by_compute. apply lookup_singleton_eq. }
    destruct (honest_log_is_cosigned filed FileFine FileFine FileFine Sample.log (WSample.cp sample_leaves) sample_leaves 2
      WSample.proof2 1700000001) as (s & E & _); [..|exact (f_equal snd E)].
    + split; by_compute.
    + by_compute.
    + reflexivity.
    + exact sample_log_wf.
    + by_compute.
    + exact Hok.
    + change (recorded sample_leaves 2 (file_heads (wt_store filed) WSample.origin)). rewrite Hheads. split; by_compute.
    + reflexivity.
    + by_compute.
    + by_compute.
    + by apply (file_answers _ _ (head_of sample_leaves)).
    + by apply file_answers.
Defined.
