(* ===== verification/AuditCli.v ===== *)
(** * The auditor's commands ([src/bin/calybris_verify.rs])

    [chain], [audit] and [policy], the arguments they take and the program's
    entry point, which hands [checkpoint] and [witness] to [Trust]. Each command
    ends with an exit code: 0 when everything verified, 1 when not, 2 for a
    command line it does not understand. *)

From Stdlib Require Import String.
From S2P Require Import Prelude Kernel Bytes Text Crypto Digest Verify Merkle Checkpoint Witness Auditing Wal WalTree Ots Tsa Cli Trust.
#[local] Open Scope string_scope.
#[local] Open Scope list_scope.
#[local] Open Scope Z_scope.

Record PolicyArtifact := mkPolicyArtifact {
  pa_policy_epoch : Z;
  pa_catalog_epoch : Z;
  pa_hard_risk_limit_bps : Z;
  pa_minimum_confidence_bps : Z;
  pa_risk_penalty_multiplier_bps : Z;
  pa_latency_penalty_microunits_per_ms : Z;
  pa_models : list KernelModel
}.

(** [serde_json::from_str] at the two types of artifacts. *)
Class ArtifactReader := {
  policy_from_str : text -> option PolicyArtifact;
  anchor_from_str : text -> option WalAnchor
}.

Definition into_snapshot (a : PolicyArtifact) : result Fail PolicySnapshot :=
  map_err InvalidPolicy
    (try_new_trusted (pa_policy_epoch a) (pa_catalog_epoch a) (pa_hard_risk_limit_bps a)
       (pa_minimum_confidence_bps a) (pa_risk_penalty_multiplier_bps a)
       (pa_latency_penalty_microunits_per_ms a) (pa_models a)).

Definition MAX_AUDITOR_ARTIFACT_BYTES : Z := 16 * 1024 * 1024.

(** [Read::take]: at most [limit] bytes. *)
Fixpoint take_bytes (limit : Z) (bytes : list Z) : list Z :=
  match bytes with
  | [] => []
  | b :: rest => if limit <=? 0 then [] else b :: take_bytes (limit - 1) rest
  end.

(** Opening, asking for the size and reading are three calls. *)
Definition read_artifact_bounded (path : text) (kind : string) : cmd text :=
  bytes ← fs_read path;
  s ← sys_call;
  _ ← lift (match s with Fine => Ok tt | _ => Err (CannotRead path) end);
  _ ← lift (refuse_if (MAX_AUDITOR_ARTIFACT_BYTES <? Z.of_nat (length bytes)) (ArtifactTooLarge kind));
  s ← sys_call;
  _ ← lift (match s with Fine => Ok tt | _ => Err (CannotRead path) end);
  let bytes := take_bytes (MAX_AUDITOR_ARTIFACT_BYTES + 1) bytes in
  _ ← lift (refuse_if (MAX_AUDITOR_ARTIFACT_BYTES <? Z.of_nat (length bytes)) (ArtifactTooLarge kind));
  lift (ok_or (from_utf8 bytes) (CannotRead path)).

Section artifacts.
Context {AR : ArtifactReader}.

Definition load_policy (path : text) : cmd PolicySnapshot :=
  raw ← read_artifact_bounded path "policy artifact";
  artifact ← lift (ok_or (policy_from_str raw) (CannotParse "policy artifact" path));
  lift (into_snapshot artifact).

Definition load_anchor (path : text) : cmd WalAnchor :=
  raw ← read_artifact_bounded path "WAL anchor";
  lift (ok_or (anchor_from_str raw) (CannotParse "WAL anchor" path)).
End artifacts.

(** ** Arguments *)

Record Args := mkArgs {
  a_command : text;
  a_target : text;
  a_policies : list text;
  a_anchor : option text;
  a_hmac_key : option (list Z);
  a_json : bool
}.

Inductive ArgsError := Usage | ArgsMessage (e : Fail).

(** The loop of [parse_args] over the arguments left, with the positional ones
    and the options so far. *)
Fixpoint args_loop (args positional policies : list text) (anchor : option text)
    (hmac_key : option (list Z)) (json : bool) : result ArgsError Args :=
  match args with
  | [] =>
      match positional with
      | [command; target] => Ok (mkArgs command target policies anchor hmac_key json)
      | _ => Err Usage
      end
  | arg :: rest =>
      if bool_decide (arg = chars "--policy") then
        match rest with
        | [] => Err (ArgsMessage (NeedsValue arg))
        | v :: rest' => args_loop rest' positional (policies ++ [v]) anchor hmac_key json
        end
      else if bool_decide (arg = chars "--anchor") then
        match rest with
        | [] => Err (ArgsMessage (NeedsValue arg))
        | v :: rest' => args_loop rest' positional policies (Some v) hmac_key json
        end
      else if bool_decide (arg = chars "--hmac-key-hex") then
        match rest with
        | [] => Err (ArgsMessage (NeedsValue arg))
        | raw :: rest' =>
            match parse_hex_key raw with
            | Err e => Err (ArgsMessage e)
            | Ok key => args_loop rest' positional policies anchor (Some key) json
            end
        end
      else if bool_decide (arg = chars "--json") then args_loop rest positional policies anchor hmac_key true
      else if bool_decide (arg = chars "-h") || bool_decide (arg = chars "--help") then Err Usage
      else args_loop rest (positional ++ [arg]) policies anchor hmac_key json
  end.

Definition parse_args (args : list text) : result ArgsError Args := args_loop args [] [] None None false.

(** ** Output *)

Definition emit_json (command : string) (ok : bool) (detail : Detail) : cmd unit :=
  print_line (Verdict command ok detail).

Definition usage : cmd unit := eprintln (Told "usage" []).

(** [File::open] in the log's readers, after they have checked the key. *)
Definition open_wal (path : text) (key : option (list Z)) : cmd (result WalError (list Z)) :=
  match validate_key key with
  | Err e => mret (Err e)
  | Ok _ =>
      s ← sys_call; file ← get_file path;
      mret (match s, file with Fine, Some bytes => Ok bytes | _, _ => Err (Io OsError) end)
  end.

Section commands.
Context {HF : HashFunctions} {JR : JsonReader} {V : Type} {ER : EntryReader (AuditedRecord V)} {AR : ArtifactReader}.

(** ** [chain] *)

Definition chain_result (bytes : list Z) (key : option (list Z)) (anchor : option WalAnchor)
    : result WalError (Z * string) :=
  match key, anchor with
  | Some key, Some anchor => verify_wal_keyed_against_anchor bytes key anchor
  | None, Some anchor => verify_wal_against_anchor bytes anchor
  | Some key, None => verify_wal_keyed bytes key
  | None, None => verify_wal bytes
  end.

Definition cmd_chain (path : text) (key : option (list Z)) (anchor : option WalAnchor) (json : bool) : cmd Z :=
  opened ← open_wal path key;
  match opened ≫= (fun bytes => chain_result bytes key anchor) with
  | Ok (entries, last_hash) =>
      let detail := show_u64 entries ++ chars " entries, last hash " ++ chars last_hash in
      _ ← (if json then emit_json "chain" true (Said detail) else println (chars "CHAIN OK: " ++ detail));
      mret SUCCESS
  | Err error =>
      let shown := OfWal path (WalFailed error) in
      _ ← (if json then emit_json "chain" false (Because shown) else eprintln (Warned (chars "CHAIN FAILED") shown));
      mret FAILURE
  end.

(** ** [audit] *)

Inductive Problem :=
| NonCanonicalAudit (e : AuditBundleValidationError)
| InputDigestMismatch
| DecisionDigestMismatch
| PolicyUnresolved
| ReplayMismatch.

Definition problem_text (p : Problem) : text :=
  chars match p with
        | NonCanonicalAudit _ => "non-canonical audit bundle"
        | InputDigestMismatch => "input digest mismatch"
        | DecisionDigestMismatch => "decision digest mismatch"
        | PolicyUnresolved => "policy not resolved"
        | ReplayMismatch => "kernel replay mismatch"
        end.

(** A policy with its epochs and its digest. *)
Definition Known : Type := Z * Z * string * PolicySnapshot.
Definition known (policy : PolicySnapshot) : Known :=
  (ps_policy_epoch policy, ps_catalog_epoch policy, digest_to_hex (policy_digest policy), policy).

Definition names_policy (audit : AuditBundle) (k : Known) : bool :=
  let '(policy_epoch, catalog_epoch, digest, _) := k in
  (policy_epoch =? ab_policy_epoch audit) && (catalog_epoch =? ab_catalog_epoch audit)
  && String.eqb digest (ab_policy_digest_hex audit).

(** What the closure [inspect] finds wrong with a record. *)
Definition problems (policies : list Known) (record : AuditedRecord V) : list Problem :=
  let audit := ar_audit record in
  let has_policies := negb (Nat.eqb (length policies) 0) in
  let resolved_policy := List.find (names_policy audit) policies in
  match validate_canonical audit with Err e => [NonCanonicalAudit e] | Ok _ => [] end ++
  (if negb (String.eqb (digest_to_hex (input_digest (ar_input record))) (ab_input_digest_hex audit))
   then [InputDigestMismatch] else []) ++
  (if negb (String.eqb (digest_to_hex (decision_digest (ar_decision record))) (ab_decision_digest_hex audit))
   then [DecisionDigestMismatch] else []) ++
  (if has_policies && match resolved_policy with None => true | Some _ => false end then [PolicyUnresolved] else []) ++
  match resolved_policy with
  | Some (_, _, _, policy) =>
      match verify_decision policy (ar_input record) (ar_decision record) with
      | Valid => []
      | _ => [ReplayMismatch]
      end
  | None => []
  end.

(** What [inspect] has counted and printed. *)
Record Inspection := mkInspection { in_failures : Z; in_entries : Z; in_stderr : list Line }.

Definition inspect (policies : list Known) (json : bool) (s : Inspection) (entry : WalEntry (AuditedRecord V))
    : Inspection :=
  let entries := add_u 64 (in_entries s) 1 in
  match problems policies (we_data entry) with
  | [] => mkInspection (in_failures s) entries (in_stderr s)
  | found =>
      mkInspection (add_u 64 (in_failures s) 1) entries
        (if json then in_stderr s
         else in_stderr s ++ [Told "seq" (show_u64 (we_sequence entry) :: map problem_text found)])
  end.

Definition cmd_audit (path : text) (policies : list PolicySnapshot) (key : option (list Z))
    (anchor : option WalAnchor) (json : bool) : cmd Z :=
  let policies := map known policies in
  opened ← open_wal path key;
  let start := mkInspection 0 0 [] in
  let '(head, seen) :=
    match opened with
    | Err e => (Err e, start)
    | Ok bytes => visit_verified_wal_inner from_slice_entry (inspect policies json) bytes key start
    end in
  _ ← (fun w => (Ok tt, set_stderr (w_stderr w ++ in_stderr seen) w)) : cmd unit;
  let failed (stage : text) (error : WalError) :=
    let shown := OfWal path (WalFailed error) in
    _ ← (if json then emit_json "audit" false (Because shown)
         else eprintln (Warned (chars "AUDIT FAILED (" ++ stage ++ chars ")") shown));
    mret FAILURE in
  match head with
  | Err error => failed (chars "chain/parse") error
  | Ok (sequence, last_hash) =>
      match (match anchor with
             | None => Ok (sequence, last_hash)
             | Some anchor => verify_head anchor sequence last_hash (match key with Some _ => true | None => false end)
             end) with
      | Err error => failed (chars "anchor") error
      | Ok _ =>
          let mode := if Nat.eqb (length policies) 0 then chars "digests only (no policy artifact supplied)"
                      else chars "digests + policy resolver + kernel replay" in
          if in_failures seen =? 0 then
            let detail := show_u64 (in_entries seen) ++ chars " entries verified (" ++ mode ++ chars ")" in
            _ ← (if json then emit_json "audit" true (Said detail) else println (chars "AUDIT OK: " ++ detail));
            mret SUCCESS
          else
            let detail := show_u64 (in_failures seen) ++ chars "/" ++ show_u64 (in_entries seen)
                          ++ chars " entries failed (" ++ mode ++ chars ")" in
            _ ← (if json then emit_json "audit" false (Said detail)
                 else eprintln (Told "AUDIT FAILED" [detail]));
            mret FAILURE
      end
  end.

(** ** [policy] *)

Definition cmd_policy (path : text) (json : bool) : cmd Z :=
  loaded ← attempt (load_policy path);
  match loaded with
  | Ok snapshot =>
      let hex := chars (digest_to_hex (policy_digest snapshot)) in
      _ ← (if json then emit_json "policy" true (Said hex) else println hex); mret SUCCESS
  | Err error =>
      _ ← (if json then emit_json "policy" false (Because error) else eprintln (Warned (chars "POLICY FAILED") error));
      mret FAILURE
  end.

(** ** The program *)

(** A failure to load an artifact, shown as each command shows it. *)
Definition unloaded (command : string) (json : bool) (error : Fail) : cmd Z :=
  _ ← (if json then emit_json command false (Because error) else eprintln (Warned [] error)); mret FAILURE.

(** [args.anchor.as_deref().map(load_anchor)]. *)
Definition given_anchor (a : option text) : cmd (result Fail (option WalAnchor)) :=
  match a with
  | None => mret (Ok None)
  | Some path => r ← attempt (load_anchor path); mret (anchor ← r; Ok (Some anchor))
  end.

Definition dispatch (args : Args) : cmd Z :=
  if bool_decide (a_command args = chars "chain") then
    loaded ← given_anchor (a_anchor args);
    match loaded with
    | Err error => unloaded "chain" (a_json args) error
    | Ok anchor => cmd_chain (a_target args) (a_hmac_key args) anchor (a_json args)
    end
  else if bool_decide (a_command args = chars "audit") then
    policies ← attempt (mapM load_policy (a_policies args));
    match policies with
    | Err error => unloaded "audit" (a_json args) error
    | Ok policies =>
        loaded ← given_anchor (a_anchor args);
        match loaded with
        | Err error => unloaded "audit" (a_json args) error
        | Ok anchor => cmd_audit (a_target args) policies (a_hmac_key args) anchor (a_json args)
        end
    end
  else if bool_decide (a_command args = chars "policy") then cmd_policy (a_target args) (a_json args)
  else _ ← usage; mret EXIT_USAGE.

(** The commands turn every failure into a code. *)
Definition exit_code (c : cmd Z) (w : World) : Z * World :=
  match c w with (Ok code, w') => (code, w') | (Err _, w') => (EXIT_PANIC, w') end.
End commands.

Section program.
Context {HF : HashFunctions} {B64 : Base64} {ED : Ed25519} {SJ : StateJson} {RM : Ripemd}.
Context {JR : JsonReader} {V : Type} {ER : EntryReader V} {ERA : EntryReader (AuditedRecord V)} {AR : ArtifactReader}.
Context {AS : Asn1} {TC : TsaCrypto}.

Definition main (fetch : Fetch) (raw : list text) (w : World) : Z * World :=
  let rest_of_main :=
    exit_code (match parse_args raw with
               | Ok args => dispatch (V := V) args
               | Err Usage => _ ← usage; mret EXIT_USAGE
               | Err (ArgsMessage e) => _ ← eprintln (Warned (chars "error") e); _ ← usage; mret EXIT_USAGE
               end) w in
  match raw with
  | command :: args =>
      if bool_decide (command = chars "checkpoint") || bool_decide (command = chars "witness")
      then run (V := V) fetch command args w
      else rest_of_main
  | [] => rest_of_main
  end.
End program.
