(* ===== verification/AuditCliProps.v ===== *)
(** * What the auditor's exit code means

    [chain], [audit] and [policy] are characterised by what the files hold. A
    small program logic carries the argument: [computes m P] says that [m]
    changes no file, gives only values the files justify, and, when no system
    call fails, gives every value they justify; [exits_ok c P] says the same of
    the exit code 0. *)

From Stdlib Require Import String.
From S2P Require Import Prelude Kernel Bytes Text Crypto Digest Verify Merkle Checkpoint Witness Auditing Wal WalTheory WalLog WalSample WalProps WalTree Ots OtsEvidence Tsa TsaProps Cli CliProps Trust TrustSample AuditCli.
#[local] Open Scope string_scope.
#[local] Open Scope list_scope.
#[local] Open Scope Z_scope.

(** ** A logic for commands that only read *)

Definition calm (w w' : World) : Prop := w_files w' = w_files w /\ (w_sys w = [] -> w_sys w' = []).

Lemma calm_refl w : calm w w.
Proof. done. Qed.
Lemma calm_trans w1 w2 w3 : calm w1 w2 -> calm w2 w3 -> calm w1 w3.
Proof. intros [E1 S1] [E2 S2]. split; [congruence|auto]. Qed.

Definition computes {A} (m : cmd A) (P : gmap text (list Z) -> A -> Prop) : Prop :=
  forall w r w', m w = (r, w') -> calm w w' /\ (forall a, r = Ok a -> P (w_files w) a) /\
    (w_sys w = [] -> forall a, P (w_files w) a -> r = Ok a).

Definition exits_ok (c : cmd Z) (P : gmap text (list Z) -> Prop) : Prop :=
  forall w r w', c w = (r, w') -> calm w w' /\ (r = Ok SUCCESS -> P (w_files w)) /\
    (w_sys w = [] -> P (w_files w) -> r = Ok SUCCESS).

Lemma computes_lift {A} (r : result Fail A) : computes (lift r) (fun _ a => r = Ok a).
Proof. intros w x w' [= <- <-]. by split. Qed.

Lemma computes_bind {A B} (m : cmd A) (k : A -> cmd B) P Q :
  computes m P -> (forall a, computes (k a) (Q a)) ->
  computes (m ≫= k) (fun files b => exists a, P files a /\ Q a files b).
Proof.
  intros Hm Hk w r w'. unfold mbind, cmd_bind. destruct (m w) as [x w1] eqn:E.
  destruct (Hm _ _ _ E) as ([Ef Es] & H1 & H2). destruct x as [a|e].
  - intros H. destruct (Hk a _ _ _ H) as (C & H3 & H4). rewrite Ef in *. split_and!.
    + by apply calm_trans with w1.
    + intros b ->. eauto.
    + intros S b (a' & Pa & Qb). specialize (H2 S a' Pa). injection H2 as ->. eauto.
  - intros [= <- <-]. split_and!; [done|done|]. intros S b (a & Pa & _). by specialize (H2 S a Pa).
Qed.

Lemma computes_weaken {A} (m : cmd A) (P Q : gmap text (list Z) -> A -> Prop) :
  computes m P -> (forall files a, P files a <-> Q files a) -> computes m Q.
Proof.
  intros Hm E w r w' H. destruct (Hm _ _ _ H) as (C & H1 & H2). split_and!; [done|..].
  - intros a Ha. by apply E, H1.
  - intros S a Ha. by apply H2, E.
Qed.

Lemma exits_ok_weaken (c : cmd Z) (P Q : gmap text (list Z) -> Prop) :
  exits_ok c P -> (forall files, P files <-> Q files) -> exits_ok c Q.
Proof.
  intros Hm E w r w' H. destruct (Hm _ _ _ H) as (C & H1 & H2). split_and!; [done|..].
  - intros Ha. by apply E, H1.
  - intros S Ha. by apply H2, E.
Qed.

Lemma computes_mapM {A B} (f : A -> cmd B) (P : A -> gmap text (list Z) -> B -> Prop) l :
  (forall a, computes (f a) (P a)) -> computes (mapM f l) (fun files => Forall2 (fun a => P a files) l).
Proof.
  intros Hf. induction l as [|x l IH]; cbn [mapM].
  - intros w r w' [= <- <-]. split_and!; [done|by intros a [= <-]|]. intros _ a H. by inversion H.
  - eapply computes_weaken.
    + apply computes_bind; [apply Hf|]. intros y. apply computes_bind; [apply IH|]. intros ys.
      apply (computes_lift (Ok (y :: ys))).
    + intros files bs. split.
      * intros (y & Hy & ys & Hys & [= <-]). by constructor.
      * intros H. inversion H; subst. eauto 10.
Qed.

(** A system call that must not fail. *)
Lemma computes_call {A} (p : text) (k : cmd A) P : computes k P ->
  computes (s ← sys_call; _ ← lift (match s with Fine => Ok tt | _ => Err (CannotRead p) end); k) P.
Proof.
  intros Hk w r w'. unfold mbind, cmd_bind, sys_call. destruct (w_sys w) as [|s l] eqn:Es.
  - cbn. intros H. apply Hk in H. by rewrite Es in H.
  - cbn. destruct s; cbn;
      try (intros [= <- <-]; split_and!; [|done|done]; split; [done|by rewrite Es]). intros H.
    apply Hk in H as ([Ef _] & H1 & _). split_and!; [|done|done]. split; [done|]. by rewrite Es.
Qed.

Lemma computes_fs_read p : computes (fs_read p) (fun files bytes => files !! p = Some bytes).
Proof.
  intros w r w' H. split_and!.
  - split; [by destruct (quiet_fs_read _ _ _ _ H)|]. intros S. revert H. unfold fs_read, mbind, cmd_bind, sys_call.
    rewrite S. cbn. destruct (w_files w !! p); by intros [= <- <-].
  - intros a ->. by eapply fs_read_Ok.
  - intros S a Ha. revert H. unfold fs_read, mbind, cmd_bind, sys_call. rewrite S. cbn. rewrite Ha. by intros [= <- <-].
Qed.

(** A value that is loaded or makes the command fail. *)
Lemma exits_ok_attempt {A} (m : cmd A) (k : A -> cmd Z) (bad : Fail -> cmd Z) P Q :
  computes m P -> (forall a, exits_ok (k a) (Q a)) -> (forall e, exits_ok (bad e) (fun _ => False)) ->
  exits_ok (r ← attempt m; match r with Ok a => k a | Err e => bad e end) (fun files => exists a, P files a /\ Q a files).
Proof.
  intros Hm Hk Hb w r w'. unfold mbind, cmd_bind, attempt. destruct (m w) as [x w1] eqn:E.
  destruct (Hm _ _ _ E) as ([Ef Es] & H1 & H2). destruct x as [a|e]; intros H.
  - destruct (Hk a _ _ _ H) as (C & H3 & H4). rewrite Ef in *. split_and!.
    + by apply calm_trans with w1.
    + eauto.
    + intros S (a' & Pa & Qb). specialize (H2 S a' Pa). injection H2 as ->. eauto.
  - destruct (Hb e _ _ _ H) as (C & H3 & _). split_and!.
    + by apply calm_trans with w1.
    + by intros ?%H3.
    + intros S (a & Pa & _). by specialize (H2 S a Pa).
Qed.

(** ** Artifacts *)

(** A text file within the size the auditor reads. *)
Definition artifact (files : gmap text (list Z)) (path t : text) : Prop :=
  exists bytes, files !! path = Some bytes /\ Z.of_nat (length bytes) <= MAX_AUDITOR_ARTIFACT_BYTES /\
    from_utf8 bytes = Some t.

Lemma take_bytes_all n l : Z.of_nat (length l) <= n -> take_bytes n l = l.
Proof.
  revert n. induction l as [|b l IH]; intros n; cbn [take_bytes length]; [done|]. intros H.
  destruct (Z.leb_spec n 0); [lia|]. rewrite IH; [done|lia].
Qed.

Lemma refuse_if_false {E} b (e : E) x : refuse_if b e = Ok x <-> b = false.
Proof. destruct b, x; by split. Qed.

Lemma computes_read_artifact path kind :
  computes (read_artifact_bounded path kind) (fun files t => artifact files path t).
Proof.
  eapply computes_weaken.
  - unfold read_artifact_bounded. apply computes_bind; [apply computes_fs_read|]. intros bytes.
    apply computes_call. apply computes_bind; [apply computes_lift|]. intros u.
    apply computes_call. apply computes_bind; [apply computes_lift|]. intros u'. apply computes_lift.
  - intros files t. split.
    + intros (bytes & Hb & [] & H1%refuse_if_false & _ & _ & Hu%ok_or_Ok). apply Z.ltb_ge in H1.
      rewrite take_bytes_all in Hu by lia. by exists bytes.
    + intros (bytes & Hb & Hl & Hu). exists bytes. rewrite take_bytes_all by lia. split; [done|].
      apply Z.ltb_ge in Hl. rewrite Hl, Hu. by repeat eexists.
Qed.

Section artifacts.
Context {AR : ArtifactReader}.

Definition holds_policy (files : gmap text (list Z)) (path : text) (p : PolicySnapshot) : Prop :=
  exists t a, artifact files path t /\ policy_from_str t = Some a /\ into_snapshot a = Ok p.
Definition holds_anchor (files : gmap text (list Z)) (path : text) (a : WalAnchor) : Prop :=
  exists t, artifact files path t /\ anchor_from_str t = Some a.

Lemma computes_load_policy path : computes (load_policy path) (fun files => holds_policy files path).
Proof.
  eapply computes_weaken.
  - unfold load_policy. apply computes_bind; [apply computes_read_artifact|]. intros t.
    apply computes_bind; [apply computes_lift|]. intros a. apply computes_lift.
  - intros files p. split.
    + intros (t & Ht & a & Ha%ok_or_Ok & Hp). by exists t, a.
    + intros (t & a & Ht & Ha & Hp). exists t. rewrite Ha. eauto.
Qed.

Lemma computes_load_anchor path : computes (load_anchor path) (fun files => holds_anchor files path).
Proof.
  eapply computes_weaken.
  - unfold load_anchor. apply computes_bind; [apply computes_read_artifact|]. intros t. apply computes_lift.
  - intros files p. split.
    + intros (t & Ht & Ha%ok_or_Ok). by exists t.
    + intros (t & Ht & Ha). exists t. by rewrite Ha.
Qed.

(** The anchor option: none, or the anchor in the file. *)
Definition holds_optional_anchor (files : gmap text (list Z)) (path : option text) (a : option WalAnchor) : Prop :=
  match path with
  | None => a = None
  | Some path => exists x, a = Some x /\ holds_anchor files path x
  end.

Definition optional_anchor (path : option text) : cmd (option WalAnchor) :=
  match path with None => mret None | Some path => x ← load_anchor path; mret (Some x) end.

Lemma given_anchor_attempt path w : given_anchor path w = attempt (optional_anchor path) w.
Proof.
  destruct path as [path|]; [|done]. unfold given_anchor, optional_anchor, mbind, cmd_bind, attempt.
  by destruct (load_anchor path w) as [[]].
Qed.

Lemma computes_optional_anchor path :
  computes (optional_anchor path) (fun files => holds_optional_anchor files path).
Proof.
  destruct path as [path|]; cbn [optional_anchor holds_optional_anchor].
  - eapply computes_weaken.
    + apply computes_bind; [apply computes_load_anchor|]. intros x. apply (computes_lift (Ok (Some x))).
    + intros files a. unfold holds_optional_anchor. split; [intros (x & Hx & [= <-])|intros (x & -> & Hx)]; eauto.
  - eapply computes_weaken; [apply (computes_lift (Ok None))|]. intros files a. cbn. split; [by intros [= <-]|by intros ->].
Qed.

Lemma exits_ok_anchor path (k : option WalAnchor -> cmd Z) (bad : Fail -> cmd Z) Q :
  (forall a, exits_ok (k a) (Q a)) -> (forall e, exits_ok (bad e) (fun _ => False)) ->
  exits_ok (r ← given_anchor path; match r with Ok a => k a | Err e => bad e end)
    (fun files => exists a, holds_optional_anchor files path a /\ Q a files).
Proof.
  intros Hk Hb w r w' H. apply (exits_ok_attempt _ _ _ _ _ (computes_optional_anchor path) Hk Hb).
  rewrite <- H. unfold mbind, cmd_bind. by rewrite given_anchor_attempt.
Qed.
End artifacts.

Lemma exits_ok_unloaded command json e : exits_ok (unloaded command json e) (fun _ => False).
Proof. intros w r w'. unfold unloaded. by destruct json; intros [= <- <-]. Qed.

(** ** One scan of the log *)

Section scan.
Context {HF : HashFunctions} {JR : JsonReader}.

Lemma check_entry_bounded key e c c' : check_entry key e c = Ok c' ->
  cs_expected_sequence c' = cs_expected_sequence c + 1 /\ is_u 64 (cs_expected_sequence c').
Proof.
  unfold check_entry. repeat case_match; try done. intros Hc. open_results.
  destruct (negb _); [done|]. open_results. rename select (checked_u _ _ = _) into Hu.
  apply checked_u_Some in Hu as [-> Hu]. done.
Qed.

(** Two scans of the same type of entries keep in step, whatever they do with
    the entries. *)
Lemma scans_agree {E S1 S2} (parse : list Z -> option E) (v1 : S1 -> E -> S1) (v2 : S2 -> E -> S2)
    (R : S1 -> S2 -> Prop) key bytes c s1 s2 c' s1' :
  (forall a b e, R a b -> R (v1 a e) (v2 b e)) -> R s1 s2 ->
  each_line (visit_step parse v1 key) bytes (c, s1) = ((c', s1'), None) ->
  exists s2', each_line (visit_step parse v2 key) bytes (c, s2) = ((c', s2'), None) /\ R s1' s2'.
Proof.
  intros Hv HR H. eapply (each_line_sim (fun x y => fst x = fst y /\ R (snd x) (snd y))
    _ (visit_step parse v2 key)) with (s2 := (c, s2)) in H as ([c2 s2'] & H1 & Hc & H2); [|
    |done].
  - cbn in *. subst. by exists s2'.
  - intros line [x a] [y b] [x' a'] [Hc Hab]. cbn in Hc, Hab. subst y.
    intros (entry & z & e & H1 & H2 & H3 & [= -> ->])%visit_step_None.
    exists (z, v2 b e). unfold visit_step. rewrite H1. cbn. rewrite H2. cbn. rewrite H3. cbn. by auto.
Qed.

Lemma scan_bounded {E} (parse : list Z -> option E) key bytes c es :
  each_line (visit_step parse push_entry key) bytes (chain_start, []) = ((c, es), None) ->
  Z.of_nat (length es) < umax 64.
Proof.
  intros H. eapply (each_line_sim (fun x (_ : unit) =>
      cs_expected_sequence (fst x) = Z.of_nat (length (snd x)) + 1 /\ is_u 64 (cs_expected_sequence (fst x)))
    _ (fun _ _ => (tt, None))) with (s2 := tt) in H as (_ & _ & H1 & H2); [cbn in *; unfold_ints; lia| |done].
  intros line [x es0] [] r [Hx _] (entry & c' & e & H1 & H2%check_entry_bounded & H3 & ->)%visit_step_None.
  exists tt. split; [done|]. cbn in *. unfold push_entry. rewrite length_app. cbn. destruct H2 as [-> ?]. split; [lia|done].
Qed.

Lemma each_line_ext {St} (step step' : list Z -> St -> St * option WalError) bytes s :
  (forall line s, step line s = step' line s) -> each_line step bytes s = each_line step' bytes s.
Proof.
  intros Hs. unfold each_line. generalize (S (length bytes)). intros fuel. revert bytes s.
  induction fuel as [|fuel IH]; intros bytes s; [done|]. cbn [while_lines].
  destruct (read_bounded_line bytes) as [[[|b line] rest]|]; [done| |done].
  destruct (forallb _ _); [apply IH|]. rewrite Hs. by destruct (step' _ _) as [s' []].
Qed.

Lemma visit_ext {E St} (parse parse' : list Z -> option E) (visit : St -> E -> St) bytes key s0 :
  (forall line, parse line = parse' line) ->
  visit_verified_wal_inner parse visit bytes key s0 = visit_verified_wal_inner parse' visit bytes key s0.
Proof.
  intros Hp. unfold visit_verified_wal_inner. destruct (validate_key key); [|done].
  rewrite (each_line_ext (visit_step parse visit key) (visit_step parse' visit key)); [done|].
  intros line s. unfold visit_step. by rewrite Hp.
Qed.

(** A scan is a validation of the chain and a fold over the entries read. *)
Lemma visit_folds {E St} (parse : list Z -> option E) (visit : St -> E -> St) bytes key s0 head s :
  visit_verified_wal_inner parse visit bytes key s0 = (Ok head, s) <->
  exists es, read_verified_wal_inner parse bytes key = Ok es /\ validate_chain_inner bytes key = Ok head /\
    s = fold_left visit es s0.
Proof.
  unfold read_verified_wal_inner, validate_chain_inner, visit_verified_wal_inner.
  destruct (validate_key key) as [[]|e]; cbn [mbind result_bind];
    [|split; [done|by intros (es & ? & _)]].
  set (R := fun (a : St) (es : list E) => a = fold_left visit es s0).
  assert (forall a es e, R a es -> R (visit a e) (push_entry es e)) as HR.
  { unfold R, push_entry. intros a es e ->. by rewrite fold_left_app. }
  assert (forall c s', each_line (visit_step parse visit key) bytes (chain_start, s0) = (c, s', None) ->
    exists es, each_line (visit_step parse push_entry key) bytes (chain_start, []) = (c, es, None) /\ R s' es) as Hto.
  { intros c s'. apply (scans_agree parse visit push_entry R); [done|by unfold R]. }
  split.
  - destruct (each_line _ _ (chain_start, s0)) as [[c s'] [e|]] eqn:E1; cbn [settled fst snd]; [by intros [= ?]|].
    intros [= <- <-]. destruct (Hto _ _ eq_refl) as (es & H1 & ->). exists es. rewrite H1. split; [done|].
    split; [|done]. unfold validate_chain_reader. apply visit_validates in E1. by rewrite E1.
  - intros (es & H1 & H2 & ->).
    destruct (each_line (visit_step parse push_entry key) _ _) as [[c es'] [e|]] eqn:E2; cbn [settled fst snd] in H1; [done|].
    injection H1 as ->. pose proof (visit_validates _ _ _ _ _ _ _ _ E2) as Hv. unfold validate_chain_reader in H2. rewrite Hv in H2.
    apply (scans_agree parse push_entry visit (flip R) _ _ _ _ s0) in E2 as (s' & E2 & Hs);
      [|by intros a b e; apply HR|by unfold R]. rewrite E2. cbn. cbn in H2. by rewrite Hs, H2.
Qed.

Lemma read_bounded {E} (parse : list Z -> option E) bytes key es :
  read_verified_wal_inner parse bytes key = Ok es -> Z.of_nat (length es) < umax 64.
Proof.
  unfold read_verified_wal_inner, visit_verified_wal_inner. destruct (validate_key key) as [[]|]; [|done].
  destruct (each_line _ _ _) as [[c l] [e|]] eqn:E1; cbn [settled]; [done|]. intros [= <-]. by eapply scan_bounded.
Qed.
End scan.

(** ** Records *)

Section audit.
Context {HF : HashFunctions} {JR : JsonReader} {V : Type} {ER : EntryReader (AuditedRecord V)} {AR : ArtifactReader}.

(** The policy an audit bundle names, among those given. *)
Definition resolver (policies : list PolicySnapshot) : PolicyResolver := fun policy_epoch catalog_epoch digest =>
  List.find (fun p => (ps_policy_epoch p =? policy_epoch) && (ps_catalog_epoch p =? catalog_epoch)
                      && String.eqb (digest_to_hex (policy_digest p)) digest) policies.

(** Without a policy, the digests are checked; with policies, the record is
    what [verify_audited_entry] accepts: its policy is given and the kernel makes
    the recorded decision under it. *)
Definition audit_sound (policies : list PolicySnapshot) (e : WalEntry (AuditedRecord V)) : Prop :=
  match policies with
  | [] =>
      let r := we_data e in
      validate_canonical (ar_audit r) = Ok tt /\
      ab_input_digest_hex (ar_audit r) = digest_to_hex (input_digest (ar_input r)) /\
      ab_decision_digest_hex (ar_audit r) = digest_to_hex (decision_digest (ar_decision r))
  | _ => entry_sound (resolver policies) e
  end.

Lemma find_known audit policies :
  List.find (names_policy audit) (map known policies) =
  known <$> resolver policies (ab_policy_epoch audit) (ab_catalog_epoch audit) (ab_policy_digest_hex audit).
Proof.
  unfold resolver. induction policies as [|p l IH]; [done|]. cbn [map List.find]. cbn [names_policy known].
  by destruct (_ && _ && _).
Qed.

Lemma app_nil_iff {A} (a b : list A) : a ++ b = [] <-> a = [] /\ b = [].
Proof. split; [apply app_eq_nil|by intros [-> ->]]. Qed.
Lemma flagged (b : bool) (p : Problem) : (if b then [p] else []) = [] <-> b = false.
Proof. by destruct b. Qed.

Lemma no_problems policies e : problems (map known policies) (we_data e) = [] <-> audit_sound policies e.
Proof.
  unfold problems. rewrite !app_nil_iff, !flagged, find_known, length_map, !negb_false_iff, !String.eqb_eq.
  set (r := we_data e). set (b := ar_audit r).
  assert (match validate_canonical b with Ok _ => [] | Err x => [NonCanonicalAudit x] end = [] <->
    validate_canonical b = Ok tt) as -> by (destruct (validate_canonical b) as [[]|]; by split).
  unfold audit_sound. destruct policies as [|p0 l]; [cbn; fold r; fold b; naive_solver|].
  unfold entry_sound. fold r. fold b. cbn [length Nat.eqb negb andb].
  destruct (resolver (p0 :: l) _ _ _) as [p|] eqn:Er; cbn; [|naive_solver].
  assert (ab_policy_digest_hex b = digest_to_hex (policy_digest p)) as Hd.
  { apply find_some in Er as [_ Er]. by apply andb_true_iff in Er as [_ ->%String.eqb_eq]. }
  rewrite verify_decision_spec.
  destruct (bool_decide_reflect (prescribe p (ar_input r) = ar_decision r)); naive_solver.
Qed.

(** The counters of a scan that cannot overflow them. *)
Lemma inspected policies json es s :
  0 <= in_failures s -> in_failures s + Z.of_nat (length es) <= umax 64 ->
  in_failures s <= in_failures (fold_left (inspect (map known policies) json) es s) <= in_failures s + Z.of_nat (length es) /\
  (in_failures (fold_left (inspect (map known policies) json) es s) = in_failures s <-> Forall (audit_sound policies) es).
Proof.
  revert s. induction es as [|e es IH]; intros s H0 Hb; cbn [fold_left length] in *; [split; [lia|by split]|].
  rewrite list.Forall_cons, <- no_problems. unfold inspect at 2 4 6.
  destruct (problems _ _) as [|p ps] eqn:Ep.
  - destruct (IH (mkInspection (in_failures s) (add_u 64 (in_entries s) 1) (in_stderr s))) as [H1 H2]; [done|cbn; lia|].
    cbn [in_failures] in *. split; [lia|]. rewrite H2. naive_solver.
  - set (s1 := mkInspection _ _ _). assert (in_failures s1 = in_failures s + 1) as Ef.
    { cbn. unfold add_u. apply wrap_u_small; [lia|]. unfold_ints. lia. }
    destruct (IH s1) as [H1 _]; [lia|lia|]. split; [lia|]. split; [lia|naive_solver].
Qed.
(** ** The commands *)

(** The anchor is for this kind of log and at its head. *)
Definition anchored (keyed : bool) (anchor : option WalAnchor) (head : Z * string) : Prop :=
  match anchor with
  | None => True
  | Some a => wa_schema_version a = WAL_ANCHOR_SCHEMA /\ wa_keyed a = keyed /\ head = (wa_sequence a, wa_last_hash a)
  end.

Definition keyed_log (key : option (list Z)) : bool := match key with Some _ => true | None => false end.

Lemma verify_head_exact a n h keyed :
  (exists r, verify_head a n h keyed = Ok r) <-> anchored keyed (Some a) (n, h).
Proof.
  unfold verify_head, validate_metadata, anchored, mbind, result_bind.
  destruct (String.eqb_spec (wa_schema_version a) WAL_ANCHOR_SCHEMA); cbn [negb]; [|naive_solver].
  destruct (Bool.eqb_spec (wa_keyed a) keyed); cbn [negb]; [|naive_solver].
  destruct (Z.eqb_spec n (wa_sequence a)), (String.eqb_spec h (wa_last_hash a)); cbn [negb orb]; naive_solver.
Qed.

Lemma verify_head_value a n h keyed r : verify_head a n h keyed = Ok r -> r = (n, h).
Proof.
  intros H. assert (anchored keyed (Some a) (n, h)) as (_ & _ & ->) by (apply verify_head_exact; eauto).
  revert H. unfold verify_head, mbind, result_bind. by repeat case_match; intros [= <-].
Qed.

Lemma open_wal_run path key w r w' : open_wal path key w = (r, w') ->
  calm w w' /\ exists x, r = Ok x /\ (forall bytes, x = Ok bytes -> w_files w !! path = Some bytes) /\
    (w_sys w = [] -> validate_key key = Ok tt -> forall bytes, w_files w !! path = Some bytes -> x = Ok bytes).
Proof.
  unfold open_wal. destruct (validate_key key) as [[]|e]; [|intros [= <- <-]; split; [done|]; eexists; by split].
  unfold mbind, cmd_bind, sys_call. destruct (w_sys w) as [|s l] eqn:Es; intros [= <- <-].
  - split; [done|]. eexists. split; [done|]. destruct (w_files w !! path); split; intros; simplify_eq; done.
  - split; [split; [done|by rewrite Es]|]. eexists. split; [done|]. split; [|done].
    cbn. destruct s, (w_files w !! path); intros; by simplify_eq.
Qed.

(** What [audit] establishes about the log. *)
Definition audited (path : text) (policies : list PolicySnapshot) (key : option (list Z)) (anchor : option WalAnchor)
    (files : gmap text (list Z)) : Prop :=
  exists bytes es head, files !! path = Some bytes /\ validate_chain_inner bytes key = Ok head /\
    anchored (keyed_log key) anchor head /\
    read_verified_wal_inner from_slice_entry bytes key = Ok es /\ Forall (audit_sound policies) es.

Lemma exits_ok_cmd_audit path policies key anchor json :
  exits_ok (cmd_audit path policies key anchor json) (audited path policies key anchor).
Proof.
  intros w r w'. unfold cmd_audit. unfold mbind at 1, cmd_bind at 1.
  destruct (open_wal path key w) as [x w1] eqn:E1. apply open_wal_run in E1 as (C1 & opened & -> & Ho & Hc).
  cbn beta iota zeta.
  match goal with |- (let '(_, _) := ?x in _) _ = _ -> _ => destruct x as [head seen] eqn:Es end.
  intros H. assert (calm w1 w' /\ exists code, r = Ok code /\ (code = SUCCESS <->
    exists h, head = Ok h /\ anchored (keyed_log key) anchor h /\ in_failures seen = 0)) as (C2 & code & -> & Hr).
  { revert H. unfold mbind, cmd_bind, emit_json, print_line, println, eprintln, mret, cmd_ret.
    destruct head as [[n h]|e].
    2:{ destruct json; intros [= <- <-]; (split; [done|]); eexists; (split; [done|]); naive_solver. }
    fold (keyed_log key). destruct anchor as [a|].
    - pose proof (verify_head_exact a n h (keyed_log key)) as Hv.
      destruct (verify_head a n h (keyed_log key)) as [x|e].
      + destruct (Z.eqb_spec (in_failures seen) 0), json; intros [= <- <-]; (split; [done|]); eexists; (split; [done|]); naive_solver.
      + destruct json; intros [= <- <-]; (split; [done|]); eexists; (split; [done|]); naive_solver.
    - destruct (Z.eqb_spec (in_failures seen) 0), json; intros [= <- <-]; (split; [done|]); eexists; (split; [done|]);
        unfold anchored; naive_solver. }
  split; [by apply calm_trans with w1|]. split.
  - intros [= ->]. apply proj1 in Hr. destruct (Hr eq_refl) as (h & -> & Ha & Hf).
    destruct opened as [bytes|]; [|done]. apply visit_folds in Es as (es & H1 & H2 & ->).
    exists bytes, es, h. split_and!; try done; [by apply Ho|]. pose proof (read_bounded _ _ _ _ H1).
    by apply (inspected policies json es (mkInspection 0 0 [])); [|cbn; lia|].
  - intros S (bytes & es & h & Hb & Hv & Ha & H1 & H2). f_equal. apply Hr.
    assert (validate_key key = Ok tt) as Hk.
    { revert Hv. unfold validate_chain_inner. by destruct (validate_key key) as [[]|]. }
    rewrite (Hc S Hk bytes Hb) in Es.
    rewrite (proj2 (visit_folds _ _ _ _ _ h _) (ex_intro _ es (conj H1 (conj Hv eq_refl)))) in Es.
    injection Es as <- <-. exists h. split_and!; try done. pose proof (read_bounded _ _ _ _ H1).
    by apply (inspected policies json es (mkInspection 0 0 [])); [|cbn; lia|].
Qed.
Definition chained (path : text) (key : option (list Z)) (anchor : option WalAnchor) (files : gmap text (list Z)) : Prop :=
  exists bytes head, files !! path = Some bytes /\ validate_chain_inner bytes key = Ok head /\
    anchored (keyed_log key) anchor head.

Lemma chain_result_Ok bytes key anchor head :
  chain_result bytes key anchor = Ok head <-> validate_chain_inner bytes key = Ok head /\ anchored (keyed_log key) anchor head.
Proof.
  unfold chain_result. destruct anchor as [a|]; [|destruct key; unfold verify_wal, verify_wal_keyed; cbn; naive_solver].
  assert (match key with Some k => verify_wal_keyed_against_anchor bytes k a | None => verify_wal_against_anchor bytes a end =
    validate_chain_inner bytes key ≫= (fun h => verify_head a (fst h) (snd h) (keyed_log key))) as ->.
  { by destruct key. }
  unfold mbind, result_bind. destruct (validate_chain_inner bytes key) as [[n h]|]; [|naive_solver].
  cbn [fst snd]. split.
  - intros H. pose proof (verify_head_value _ _ _ _ _ H) as ->. split; [done|]. apply verify_head_exact. eauto.
  - intros [[= <-] Ha]. apply verify_head_exact in Ha as [x Hx]. by rewrite (verify_head_value _ _ _ _ _ Hx) in Hx.
Qed.

Lemma exits_ok_cmd_chain path key anchor json : exits_ok (cmd_chain path key anchor json) (chained path key anchor).
Proof.
  intros w r w'. unfold cmd_chain. unfold mbind at 1, cmd_bind at 1.
  destruct (open_wal path key w) as [x w1] eqn:E1. apply open_wal_run in E1 as (C1 & opened & -> & Ho & Hc).
  cbn beta iota zeta. intros H. assert (calm w1 w' /\ exists code, r = Ok code /\ (code = SUCCESS <->
    exists bytes h, opened = Ok bytes /\ chain_result bytes key anchor = Ok h)) as (C2 & code & -> & Hr).
  { revert H. unfold mbind, result_bind, cmd_bind, emit_json, print_line, println, eprintln, mret, cmd_ret.
    destruct opened as [bytes|e]; [destruct (chain_result bytes key anchor) as [[n h]|e] eqn:E2|];
      destruct json; intros [= <- <-]; (split; [done|]); eexists; (split; [done|]); (split; [|intros (b & x & Hb & Hx); congruence]); [eauto..|done|done|done|done]. }
  split; [by apply calm_trans with w1|]. split.
  - intros [= ->]. destruct (proj1 Hr eq_refl) as (bytes & h & Hx & Hh). apply chain_result_Ok in Hh.
    exists bytes, h. split; [by apply Ho|done].
  - intros S (bytes & h & Hb & Hv & Ha). f_equal. apply Hr. exists bytes, h. split.
    + apply Hc; [done| |done]. revert Hv. unfold validate_chain_inner. by destruct (validate_key key) as [[]|].
    + by apply chain_result_Ok.
Qed.

Lemma exits_ok_cmd_policy path json : exits_ok (cmd_policy path json) (fun files => exists p, holds_policy files path p).
Proof.
  eapply exits_ok_weaken.
  - unfold cmd_policy. apply exits_ok_attempt with (P := fun files => holds_policy files path) (Q := fun _ _ => True).
    + apply computes_load_policy.
    + intros p w r w'. by destruct json; intros [= <- <-].
    + intros e w r w'. by destruct json; intros [= <- <-].
  - intros files. naive_solver.
Qed.

(** What the exit code 0 of the auditor's three commands stands for. *)
Definition verified (args : Args) (files : gmap text (list Z)) : Prop :=
  (a_command args = chars "chain" /\ exists anchor, holds_optional_anchor files (a_anchor args) anchor /\
     chained (a_target args) (a_hmac_key args) anchor files) \/
  (a_command args = chars "audit" /\ exists policies anchor, Forall2 (holds_policy files) (a_policies args) policies /\
     holds_optional_anchor files (a_anchor args) anchor /\
     audited (a_target args) policies (a_hmac_key args) anchor files) \/
  (a_command args = chars "policy" /\ exists p, holds_policy files (a_target args) p).

Lemma exits_ok_dispatch args : exits_ok (dispatch args) (verified args).
Proof.
  unfold dispatch, verified. case_bool_decide as E1.
  { eapply exits_ok_weaken.
    - apply exits_ok_anchor; [intros a; apply exits_ok_cmd_chain|intros e; apply exits_ok_unloaded].
    - intros files. rewrite E1. split; [by left; eauto|]. by intros [[_ H]|[[? _]|[? _]]]. }
  case_bool_decide as E2.
  { eapply exits_ok_weaken.
    - apply exits_ok_attempt; [apply computes_mapM; intros a; apply computes_load_policy| |intros e; apply exits_ok_unloaded].
      intros ps. apply exits_ok_anchor; [intros a; apply exits_ok_cmd_audit|intros e; apply exits_ok_unloaded].
    - intros files. rewrite E2. split.
      + intros (ps & H1 & a & H2 & H3). right. left. eauto 10.
      + intros [[? _]|[(_ & ps & a & H1 & H2 & H3)|[? _]]]; [done|eauto 10|done]. }
  case_bool_decide as E3.
  { eapply exits_ok_weaken; [apply exits_ok_cmd_policy|]. intros files. rewrite E3.
    split; [by right; right|]. by intros [[? _]|[[? _]|[_ H]]]. }
  intros w r w' [= <- <-]. split; [done|]. split; [done|]. by intros _ [[? _]|[[? _]|[? _]]].
Qed.
End audit.

Section program.
Context {HF : HashFunctions} {B64 : Base64} {ED : Ed25519} {SJ : StateJson} {RM : Ripemd}.
Context {JR : JsonReader} {V : Type} {ER : EntryReader V} {ERA : EntryReader (AuditedRecord V)} {AR : ArtifactReader}.
Context {AS : Asn1} {TC : TsaCrypto}.

Lemma main_run fetch raw w :
  raw !! 0%nat <> Some (chars "checkpoint") -> raw !! 0%nat <> Some (chars "witness") ->
  w_files (snd (main (V := V) fetch raw w)) = w_files w /\
  match parse_args raw with
  | Err _ => fst (main (V := V) fetch raw w) = EXIT_USAGE
  | Ok args => (fst (main (V := V) fetch raw w) = SUCCESS -> verified (V := V) args (w_files w)) /\
      (w_sys w = [] -> verified (V := V) args (w_files w) -> fst (main (V := V) fetch raw w) = SUCCESS)
  end.
Proof.
  intros H1 H2. destruct (main fetch raw w) as [code w'] eqn:H. cbn [fst snd].
  unfold main in H. match type of H with match _ with [] => ?y | _ => _ end = _ => assert (y = (code, w')) as H' end.
  { destruct raw as [|c raw]; [done|]. rewrite !bool_decide_eq_false_2 in H; [done|..]; by intros ->. }
  clear H. unfold exit_code in H'. destruct (parse_args raw) as [args|[|e]]; [|by injection H' as <- <-..].
  destruct (dispatch args w) as [r w1] eqn:E. destruct (exits_ok_dispatch args _ _ _ E) as ([Ef _] & H3 & H4).
  destruct r as [c|e]; injection H' as <- <-; (split; [done|]); (split; [|by intros S Hv; specialize (H4 S Hv); congruence]).
  - intros ->. by apply H3.
  - done.
Qed.

(** Claim C16: The auditor's exit code. A command line that does not parse ends with 2.
    Otherwise 0 stands for what the files hold, whatever system call fails: for
    [chain], a log whose hash chain validates under the key given, with the
    anchor in its file at its head; for [audit], that and, for every record, the
    canonical bundle with the digests of its request and decision, and, where
    policies are given, the named policy among them making exactly the recorded
    decision; for [policy], an artifact of a valid policy. When no system call
    fails, 0 is also what such files give. No file changes. *)
Theorem auditor_exit_exact fetch raw w code w' :
  raw !! 0%nat <> Some (chars "checkpoint") -> raw !! 0%nat <> Some (chars "witness") ->
  main (V := V) fetch raw w = (code, w') ->
  w_files w' = w_files w /\
  match parse_args raw with
  | Err _ => code = EXIT_USAGE
  | Ok args => (code = SUCCESS -> verified (V := V) args (w_files w)) /\
      (w_sys w = [] -> verified (V := V) args (w_files w) -> code = SUCCESS)
  end.
Proof.
  intros H1 H2 H. pose proof (main_run fetch raw w H1 H2) as Hm. by rewrite H in Hm.
Qed.

(** ** A log written honestly passes *)

Context {J : WalJson (AuditedRecord V)}.

Lemma resolver_single p pe ce d : resolver [p] pe ce d = resolve_only p pe ce d.
Proof.
  unfold resolver, resolve_only. cbn. rewrite (Z.eqb_sym _ pe), (Z.eqb_sym _ ce), (String.eqb_sym _ d). by destruct (_ && _ && _).
Qed.

Lemma honest_log_audited target p key ops w0 es wr files :
  (forall line, from_slice_entry line = from_slice_typed (T := AuditedRecord V) line) ->
  open_inner true [] key = Ok w0 -> Z.of_nat (length ops) < umax 64 ->
  verified_run p ops w0 = (es, wr) -> ww_poisoned wr = false -> files !! target = Some (ww_file wr) ->
  audited target [p] key None files.
Proof.
  intros Hsame (Hk & ->)%open_new Hn Hr Hp Hf.
  destruct (verified_run_log p ops _ [] es wr (log_of_empty key Hk) (List.Forall_nil _) Hn Hr Hp) as (Hlog & Hkey & Hs).
  cbn [ww_hmac_key app] in *. exists (ww_file wr), es, (ww_sequence wr, ww_last_hash wr). split_and!; try done.
  - unfold validate_chain_inner. rewrite Hk. cbn. unfold validate_chain_reader.
    pose proof (visit_validates _ _ _ _ _ _ _ _ (lo_run _ _ Hlog)) as Hv. rewrite Hkey in Hv. by rewrite Hv.
  - rewrite <- (log_reads wr es Hlog), Hkey. unfold read_verified_wal_inner. by rewrite (visit_ext _ _ _ _ _ _ Hsame).
  - eapply Forall_impl; [|exact Hs]. intros e (Hc & q & Hq & Hrest). split; [done|]. exists q. by rewrite resolver_single.
Qed.

(** An honest log passes its audit. Whatever decisions were offered to
    [append_verified_audited] under a policy, with whatever write failures before
    the end, the auditor run on the file of a writer that is not poisoned, with
    the artifact of that policy and the log's key, ends with 0 when no system
    call fails. *)
Theorem honest_log_passes fetch raw target policy p key json ops w0 es wr w :
  (forall line, from_slice_entry line = from_slice_typed (T := AuditedRecord V) line) ->
  open_inner true [] key = Ok w0 -> Z.of_nat (length ops) < umax 64 ->
  verified_run p ops w0 = (es, wr) -> ww_poisoned wr = false ->
  w_files w !! target = Some (ww_file wr) -> holds_policy (w_files w) policy p -> w_sys w = [] ->
  raw !! 0%nat <> Some (chars "checkpoint") -> raw !! 0%nat <> Some (chars "witness") ->
  parse_args raw = Ok (mkArgs (chars "audit") target [policy] None key json) ->
  fst (main (V := V) fetch raw w) = SUCCESS.
Proof.
  intros Hsame H0 Hn Hr Hp Hf Hpol Hsys N1 N2 Ha.
  destruct (main_run fetch raw w N1 N2) as [_ H]. rewrite Ha in H. apply H; [done|]. right. left. split; [done|].
  exists [p], None. split_and!; [by repeat constructor|done|]. by eapply honest_log_audited.
Qed.
End program.

(** ** A concrete audit

    A log of two audited decisions, the artifact of the policy they were
    made under, and the auditor run on them. *)

(** Entries read at a type with an encoding. *)
#[export] Instance toy_typed_reader {T} `{Countable T} : EntryReader T.
Proof.
  refine {| from_slice_entry := toy_typed |}. intros line e v H1 H2. change (toy_entry line = Some e) in H1. unfold toy_typed in H2.
  rewrite H1 in H2. cbn [mbind option_bind] in H2. destruct (decode _); [|done]. by injection H2 as <-.
Defined.

Definition audit_artifact : PolicyArtifact :=
  mkPolicyArtifact 1 1 9000 0 0 0 [mkKernelModel 1 0 9000 10000 1 10 0 1 1000 1000].

(** The two artifacts this world knows. *)
#[export] Instance toy_artifacts : ArtifactReader := {|
  policy_from_str t := if bool_decide (t = chars "policy") then Some audit_artifact else None;
  anchor_from_str t := if bool_decide (t = chars "anchor") then Some (anchor (snd audit_log)) else None
|}.

Definition audit_world : World :=
  mkWorld {[ chars "wal" := ww_file (snd audit_log); chars "policy.json" := as_bytes (chars "policy");
             chars "anchor.json" := as_bytes (chars "anchor") ]} [] [] [] 0 [] [].

Definition audit_words : list text := TSample.words ["audit"; "wal"; "--policy"; "policy.json"].
Definition anchored_words : list text :=
  TSample.words ["audit"; "--anchor"; "anchor.json"; "wal"; "--policy"; "policy.json"; "--json"].

#[local] Existing Instance toy_hash.
#[local] Existing Instance TSample.no_stamp.

Example audits : fst (main (V := Z) TSample.offline audit_words audit_world) = 0 /\
  fst (main (V := Z) TSample.offline anchored_words audit_world) = 0 /\
  fst (main (V := Z) TSample.offline (TSample.words ["chain"; "wal"; "--anchor"; "policy.json"]) audit_world) = 1 /\
  fst (main (V := Z) TSample.offline (TSample.words ["audit"; "wal"; "--policy"]) audit_world) = 2.
Proof. split_and!; vm_compute; reflexivity. Qed.

Definition anchored_args : Args :=
  mkArgs (chars "audit") (chars "wal") [chars "policy.json"] (Some (chars "anchor.json")) None true.

Lemma auditor_exit_exact_witness : verified (V := Z) anchored_args (w_files audit_world).
Proof.
  assert (parse_args anchored_words = Ok anchored_args) as E by (vm_compute; reflexivity).
  destruct (auditor_exit_exact (V := Z) TSample.offline anchored_words audit_world
    (fst (main (V := Z) TSample.offline anchored_words audit_world)) _
    ltac:(by vm_compute) ltac:(by vm_compute) (surjective_pairing _)) as [_ H].
  rewrite E in H. apply H. vm_compute. reflexivity.
Defined.

Lemma honest_log_passes_witness : fst (main (V := Z) TSample.offline audit_words audit_world) = SUCCESS.
Proof.
  apply (honest_log_passes (V := Z) TSample.offline audit_words (chars "wal") (chars "policy.json") audit_policy None false
    audit_ops (new_wal None) (fst audit_log) (snd audit_log)).
  - intros line. reflexivity.
  - vm_compute. reflexivity.
  - vm_compute. reflexivity.
  - unfold audit_log. apply surjective_pairing.
  - vm_compute. reflexivity.
  - unfold audit_world. cbn [w_files]. apply lookup_insert_eq.
  - exists (chars "policy"), audit_artifact. split_and!; [|vm_compute; reflexivity|vm_compute; reflexivity].
    exists (as_bytes (chars "policy")). split_and!; [vm_compute; reflexivity|by vm_compute|vm_compute; reflexivity].
  - reflexivity.
  - by vm_compute.
  - by vm_compute.
  - vm_compute. reflexivity.
Defined.
