(* ===== verification/Python.v ===== *)
(** * The Python binding ([bindings/python/src/lib.rs])

    The extension module [calybris._core]: the classes a Python program sees,
    one definition per method. A method is a function of the Rust values PyO3
    hands to it, so integers are already within the width of the parameter. A
    dict is an association list in insertion order, as Python keeps it. An
    exception is its class and its message; a message made with [to_string]
    keeps the error it is rendered from. A Rust panic reaches the caller as
    [PanicException]. A method on a mutable object takes and returns it. *)

From Stdlib Require Import String.
From S2P Require Import Prelude Bytes Text Crypto Kernel Digest Verify Counterfactual Outcome Budget Finance State Receipt Certificate Wal Persistence.
#[local] Open Scope string_scope.
#[local] Open Scope list_scope.
#[local] Open Scope Z_scope.

(** ** Values *)

Inductive PyValue :=
| PyNone
| PyBool (b : bool)
| PyInt (z : Z)
| PyStr (s : string)
| PyList (l : list PyValue)
| PyDictionary (d : list (string * PyValue)).

Abbreviation PyDict := (list (string * PyValue)).

(** [IntoPyObject]. *)
Class IntoPy (T : Type) := into_py : T -> PyValue.
#[export] Instance into_py_value : IntoPy PyValue := fun v => v.
#[export] Instance into_py_int : IntoPy Z := PyInt.
#[export] Instance into_py_bool : IntoPy bool := PyBool.
#[export] Instance into_py_str : IntoPy string := PyStr.
#[export] Instance into_py_dict : IntoPy PyDict := PyDictionary.
#[export] Instance into_py_option {T} `{IntoPy T} : IntoPy (option T) :=
  fun o => match o with Some v => into_py v | None => PyNone end.
#[export] Instance into_py_vec {T} `{IntoPy T} : IntoPy (list T) | 20 := fun l => PyList (map into_py l).

(** [PyDict::set_item] and [d.get(key)]. *)
Fixpoint set_value (key : string) (v : PyValue) (d : PyDict) : PyDict :=
  match d with
  | [] => [(key, v)]
  | (k, w) :: d' => if String.eqb k key then (k, v) :: d' else (k, w) :: set_value key v d'
  end.
Definition set_item {T} `{IntoPy T} (key : string) (v : T) (d : PyDict) : PyDict :=
  set_value key (into_py v) d.
Fixpoint get_item (key : string) (d : PyDict) : option PyValue :=
  match d with
  | [] => None
  | (k, v) :: d' => if String.eqb k key then Some v else get_item key d'
  end.

Notation "x |> f" := (f x) (at level 50, left associativity, only parsing).

(** ** Exceptions *)

Module Exc.
Inductive t :=
| ValueError | TypeError | AttributeError | PanicException | CalybrisError | ArtifactValidationError
| DecisionVerificationError | ReceiptError | ProvenanceError | WalError | PersistenceError
| StateTrajectoryError.
End Exc.

(** What the text of an exception is rendered from. *)
Inductive Message :=
| MsgText (s : string)
| MsgInput (e : InputError)
| MsgPolicy (e : TrustPolicyError)
| MsgConfiguration (e : BudgetConfigurationError)
| MsgAllocator (e : SnapshotAllocatorError)
| MsgConservation (e : ConservationStatus)
| MsgVerify (e : VerifyResult)
| MsgOutcome (e : OutcomeError)
| MsgReceipt (e : Receipt.ReceiptError)
| MsgProvenance (e : Provenance.ProvenanceError)
| MsgWal (e : Wal.WalError)
| MsgPersistence (e : Persistence.PersistenceError)
| MsgTrajectory (e : TrajectoryError)
| MsgKey
| MsgJson.

Record PyErr := mkPyErr { py_class : Exc.t; py_message : Message }.
Abbreviation PyResult := (result PyErr).

Definition value_error (m : Message) : PyErr := mkPyErr Exc.ValueError m.
Definition panic (text : string) : PyErr := mkPyErr Exc.PanicException (MsgText text).

(** ** Text *)

(** [{}] of an integer and [{:?}] of an optional one. *)
Definition show_int (z : Z) : string := if z <? 0 then "-" +:+ show (- z) else show z.
Definition debug_opt {T} (f : T -> string) (o : option T) : string :=
  match o with Some v => "Some(" +:+ f v +:+ ")" | None => "None" end.
Definition show_bool (b : bool) : string := if b then "true" else "false".

(** ** [KernelModel] *)

Record PyKernelModel := mkPyKernelModel {
  pm_model_id : Z;
  pm_provider_id : Z;
  pm_quality_bps : Z;
  pm_risk_ceiling_bps : Z;
  pm_enabled : Z;
  pm_p95_latency_ms : Z;
  pm_capabilities : Z;
  pm_region_mask : Z;
  pm_input_cost_microunits_per_million_tokens : Z;
  pm_output_cost_microunits_per_million_tokens : Z
}.

Definition PyKernelModel_new : Z -> Z -> Z -> Z -> Z -> Z -> Z -> Z -> Z -> Z -> PyKernelModel :=
  mkPyKernelModel.

(** [#[pyo3(get)]] and [#[pyo3(set)]]; [None] is an attribute that does not exist. *)
Definition PyKernelModel_getattr (name : string) (m : PyKernelModel) : option Z :=
  match name with
  | "model_id" => Some (pm_model_id m)
  | "provider_id" => Some (pm_provider_id m)
  | "quality_bps" => Some (pm_quality_bps m)
  | "risk_ceiling_bps" => Some (pm_risk_ceiling_bps m)
  | "enabled" => Some (pm_enabled m)
  | "p95_latency_ms" => Some (pm_p95_latency_ms m)
  | "capabilities" => Some (pm_capabilities m)
  | "region_mask" => Some (pm_region_mask m)
  | "input_cost_microunits_per_million_tokens" => Some (pm_input_cost_microunits_per_million_tokens m)
  | "output_cost_microunits_per_million_tokens" => Some (pm_output_cost_microunits_per_million_tokens m)
  | _ => None
  end.

Definition PyKernelModel_setattr (name : string) (v : Z) (m : PyKernelModel) : option PyKernelModel :=
  let '(mkPyKernelModel id provider quality ceiling enabled latency caps region cin cout) := m in
  if String.eqb name "model_id" then
    Some (mkPyKernelModel v provider quality ceiling enabled latency caps region cin cout)
  else if String.eqb name "provider_id" then
    Some (mkPyKernelModel id v quality ceiling enabled latency caps region cin cout)
  else if String.eqb name "quality_bps" then
    Some (mkPyKernelModel id provider v ceiling enabled latency caps region cin cout)
  else if String.eqb name "risk_ceiling_bps" then
    Some (mkPyKernelModel id provider quality v enabled latency caps region cin cout)
  else if String.eqb name "enabled" then
    Some (mkPyKernelModel id provider quality ceiling v latency caps region cin cout)
  else if String.eqb name "p95_latency_ms" then
    Some (mkPyKernelModel id provider quality ceiling enabled v caps region cin cout)
  else if String.eqb name "capabilities" then
    Some (mkPyKernelModel id provider quality ceiling enabled latency v region cin cout)
  else if String.eqb name "region_mask" then
    Some (mkPyKernelModel id provider quality ceiling enabled latency caps v cin cout)
  else if String.eqb name "input_cost_microunits_per_million_tokens" then
    Some (mkPyKernelModel id provider quality ceiling enabled latency caps region v cout)
  else if String.eqb name "output_cost_microunits_per_million_tokens" then
    Some (mkPyKernelModel id provider quality ceiling enabled latency caps region cin v)
  else None.

Definition PyKernelModel_repr (m : PyKernelModel) : string :=
  "KernelModel(model_id=" +:+ show_int (pm_model_id m) +:+ ", provider_id=" +:+ show_int (pm_provider_id m)
  +:+ ", quality_bps=" +:+ show_int (pm_quality_bps m) +:+ ", enabled=" +:+ show_int (pm_enabled m) +:+ ")".

Definition PyKernelModel_eq (m other : PyKernelModel) : bool :=
  (pm_model_id m =? pm_model_id other) && (pm_provider_id m =? pm_provider_id other)
  && (pm_quality_bps m =? pm_quality_bps other) && (pm_risk_ceiling_bps m =? pm_risk_ceiling_bps other)
  && (pm_enabled m =? pm_enabled other) && (pm_p95_latency_ms m =? pm_p95_latency_ms other)
  && (pm_capabilities m =? pm_capabilities other) && (pm_region_mask m =? pm_region_mask other)
  && (pm_input_cost_microunits_per_million_tokens m
      =? pm_input_cost_microunits_per_million_tokens other)
  && (pm_output_cost_microunits_per_million_tokens m
      =? pm_output_cost_microunits_per_million_tokens other).

Definition PyKernelModel_as_dict (m : PyKernelModel) : PyDict :=
  []
  |> set_item "model_id" (pm_model_id m)
  |> set_item "provider_id" (pm_provider_id m)
  |> set_item "quality_bps" (pm_quality_bps m)
  |> set_item "risk_ceiling_bps" (pm_risk_ceiling_bps m)
  |> set_item "enabled" (pm_enabled m)
  |> set_item "p95_latency_ms" (pm_p95_latency_ms m)
  |> set_item "capabilities" (pm_capabilities m)
  |> set_item "region_mask" (pm_region_mask m)
  |> set_item "input_cost_microunits_per_million_tokens" (pm_input_cost_microunits_per_million_tokens m)
  |> set_item "output_cost_microunits_per_million_tokens" (pm_output_cost_microunits_per_million_tokens m).

Definition model_from_py (m : PyKernelModel) : KernelModel :=
  {| km_model_id := pm_model_id m;
     km_provider_id := pm_provider_id m;
     km_quality_bps := pm_quality_bps m;
     km_risk_ceiling_bps := pm_risk_ceiling_bps m;
     km_enabled := pm_enabled m;
     km_p95_latency_ms := pm_p95_latency_ms m;
     km_capabilities := pm_capabilities m;
     km_region_mask := pm_region_mask m;
     km_input_cost_microunits_per_million_tokens := pm_input_cost_microunits_per_million_tokens m;
     km_output_cost_microunits_per_million_tokens := pm_output_cost_microunits_per_million_tokens m |}.

Definition model_to_py (m : KernelModel) : PyKernelModel :=
  {| pm_model_id := km_model_id m;
     pm_provider_id := km_provider_id m;
     pm_quality_bps := km_quality_bps m;
     pm_risk_ceiling_bps := km_risk_ceiling_bps m;
     pm_enabled := km_enabled m;
     pm_p95_latency_ms := km_p95_latency_ms m;
     pm_capabilities := km_capabilities m;
     pm_region_mask := km_region_mask m;
     pm_input_cost_microunits_per_million_tokens := km_input_cost_microunits_per_million_tokens m;
     pm_output_cost_microunits_per_million_tokens := km_output_cost_microunits_per_million_tokens m |}.

(** ** [KernelInput] *)

Record PyKernelInput := mkPyKernelInput {
  pi_request_sequence : Z;
  pi_requested_model_id : Z;
  pi_input_tokens : Z;
  pi_output_tokens : Z;
  pi_business_value_microunits : Z;
  pi_budget_limit_microunits : Z;
  pi_risk_bps : Z;
  pi_confidence_bps : Z;
  pi_minimum_quality_bps : Z;
  pi_max_p95_latency_ms : Z;
  pi_required_capabilities : Z;
  pi_allowed_provider_mask : Z;
  pi_required_region_mask : Z
}.

Definition input_from_py (i : PyKernelInput) : KernelInput :=
  {| ki_request_sequence := pi_request_sequence i;
     ki_requested_model_id := pi_requested_model_id i;
     ki_input_tokens := pi_input_tokens i;
     ki_output_tokens := pi_output_tokens i;
     ki_business_value_microunits := pi_business_value_microunits i;
     ki_budget_limit_microunits := pi_budget_limit_microunits i;
     ki_risk_bps := pi_risk_bps i;
     ki_confidence_bps := pi_confidence_bps i;
     ki_minimum_quality_bps := pi_minimum_quality_bps i;
     ki_max_p95_latency_ms := pi_max_p95_latency_ms i;
     ki_required_capabilities := pi_required_capabilities i;
     ki_allowed_provider_mask := pi_allowed_provider_mask i;
     ki_required_region_mask := pi_required_region_mask i |}.

Definition validate_input (input : PyKernelInput) : PyResult KernelInput :=
  let rust_input := input_from_py input in
  _ ← map_err (fun e => value_error (MsgInput e)) (KernelInput_validate rust_input);
  Ok rust_input.

Definition PyKernelInput_new (request_sequence requested_model_id input_tokens output_tokens
    business_value_microunits budget_limit_microunits risk_bps confidence_bps minimum_quality_bps
    max_p95_latency_ms required_capabilities allowed_provider_mask required_region_mask : Z)
    : PyResult PyKernelInput :=
  let py_input :=
    mkPyKernelInput request_sequence requested_model_id input_tokens output_tokens
      business_value_microunits budget_limit_microunits risk_bps confidence_bps minimum_quality_bps
      max_p95_latency_ms required_capabilities allowed_provider_mask required_region_mask in
  _ ← map_err (fun e => value_error (MsgInput e)) (KernelInput_validate (input_from_py py_input));
  Ok py_input.

Definition PyKernelInput_getattr (name : string) (i : PyKernelInput) : option Z :=
  match name with
  | "request_sequence" => Some (pi_request_sequence i)
  | "requested_model_id" => Some (pi_requested_model_id i)
  | "input_tokens" => Some (pi_input_tokens i)
  | "output_tokens" => Some (pi_output_tokens i)
  | "business_value_microunits" => Some (pi_business_value_microunits i)
  | "budget_limit_microunits" => Some (pi_budget_limit_microunits i)
  | "risk_bps" => Some (pi_risk_bps i)
  | "confidence_bps" => Some (pi_confidence_bps i)
  | "minimum_quality_bps" => Some (pi_minimum_quality_bps i)
  | "max_p95_latency_ms" => Some (pi_max_p95_latency_ms i)
  | "required_capabilities" => Some (pi_required_capabilities i)
  | "allowed_provider_mask" => Some (pi_allowed_provider_mask i)
  | "required_region_mask" => Some (pi_required_region_mask i)
  | _ => None
  end.

Definition PyKernelInput_setattr (name : string) (v : Z) (i : PyKernelInput) : option PyKernelInput :=
  let '(mkPyKernelInput seq model tin tout value budget risk conf quality latency caps prov region) := i in
  if String.eqb name "request_sequence" then
    Some (mkPyKernelInput v model tin tout value budget risk conf quality latency caps prov region)
  else if String.eqb name "requested_model_id" then
    Some (mkPyKernelInput seq v tin tout value budget risk conf quality latency caps prov region)
  else if String.eqb name "input_tokens" then
    Some (mkPyKernelInput seq model v tout value budget risk conf quality latency caps prov region)
  else if String.eqb name "output_tokens" then
    Some (mkPyKernelInput seq model tin v value budget risk conf quality latency caps prov region)
  else if String.eqb name "business_value_microunits" then
    Some (mkPyKernelInput seq model tin tout v budget risk conf quality latency caps prov region)
  else if String.eqb name "budget_limit_microunits" then
    Some (mkPyKernelInput seq model tin tout value v risk conf quality latency caps prov region)
  else if String.eqb name "risk_bps" then
    Some (mkPyKernelInput seq model tin tout value budget v conf quality latency caps prov region)
  else if String.eqb name "confidence_bps" then
    Some (mkPyKernelInput seq model tin tout value budget risk v quality latency caps prov region)
  else if String.eqb name "minimum_quality_bps" then
    Some (mkPyKernelInput seq model tin tout value budget risk conf v latency caps prov region)
  else if String.eqb name "max_p95_latency_ms" then
    Some (mkPyKernelInput seq model tin tout value budget risk conf quality v caps prov region)
  else if String.eqb name "required_capabilities" then
    Some (mkPyKernelInput seq model tin tout value budget risk conf quality latency v prov region)
  else if String.eqb name "allowed_provider_mask" then
    Some (mkPyKernelInput seq model tin tout value budget risk conf quality latency caps v region)
  else if String.eqb name "required_region_mask" then
    Some (mkPyKernelInput seq model tin tout value budget risk conf quality latency caps prov v)
  else None.

Definition PyKernelInput_repr (i : PyKernelInput) : string :=
  "KernelInput(seq=" +:+ show_int (pi_request_sequence i) +:+ ", model=" +:+ show_int (pi_requested_model_id i)
  +:+ ", tokens=" +:+ show_int (pi_input_tokens i) +:+ "/" +:+ show_int (pi_output_tokens i) +:+ ")".

Definition PyKernelInput_eq (i other : PyKernelInput) : bool :=
  (pi_request_sequence i =? pi_request_sequence other)
  && (pi_requested_model_id i =? pi_requested_model_id other)
  && (pi_input_tokens i =? pi_input_tokens other) && (pi_output_tokens i =? pi_output_tokens other)
  && (pi_business_value_microunits i =? pi_business_value_microunits other)
  && (pi_budget_limit_microunits i =? pi_budget_limit_microunits other)
  && (pi_risk_bps i =? pi_risk_bps other) && (pi_confidence_bps i =? pi_confidence_bps other)
  && (pi_minimum_quality_bps i =? pi_minimum_quality_bps other)
  && (pi_max_p95_latency_ms i =? pi_max_p95_latency_ms other)
  && (pi_required_capabilities i =? pi_required_capabilities other)
  && (pi_allowed_provider_mask i =? pi_allowed_provider_mask other)
  && (pi_required_region_mask i =? pi_required_region_mask other).

Definition PyKernelInput_as_dict (i : PyKernelInput) : PyDict :=
  []
  |> set_item "request_sequence" (pi_request_sequence i)
  |> set_item "requested_model_id" (pi_requested_model_id i)
  |> set_item "input_tokens" (pi_input_tokens i)
  |> set_item "output_tokens" (pi_output_tokens i)
  |> set_item "business_value_microunits" (pi_business_value_microunits i)
  |> set_item "budget_limit_microunits" (pi_budget_limit_microunits i)
  |> set_item "risk_bps" (pi_risk_bps i)
  |> set_item "confidence_bps" (pi_confidence_bps i)
  |> set_item "minimum_quality_bps" (pi_minimum_quality_bps i)
  |> set_item "max_p95_latency_ms" (pi_max_p95_latency_ms i)
  |> set_item "required_capabilities" (pi_required_capabilities i)
  |> set_item "allowed_provider_mask" (pi_allowed_provider_mask i)
  |> set_item "required_region_mask" (pi_required_region_mask i).

(** ** [KernelDecision] *)

Record PyKernelDecision := mkPyKernelDecision { pd_inner : KernelDecision }.

Definition decision_to_py : KernelDecision -> PyKernelDecision := mkPyKernelDecision.

(** The getters. *)
Definition PyKernelDecision_getattr (name : string) (p : PyKernelDecision) : option PyValue :=
  let d := pd_inner p in
  match name with
  | "request_sequence" => Some (into_py (kd_request_sequence d))
  | "action" => Some (into_py (KernelAction_display (kd_action d)))
  | "action_code" => Some (into_py (KernelAction_repr (kd_action d)))
  | "reason" => Some (into_py (KernelReason_display (kd_reason d)))
  | "reason_code" => Some (into_py (KernelReason_repr (kd_reason d)))
  | "selected_model_id" => Some (into_py (kd_selected_model_id d))
  | "selected_model_index" => Some (into_py (kd_selected_model_index d))
  | "estimated_cost_microunits" => Some (into_py (kd_estimated_cost_microunits d))
  | "expected_utility_microunits" => Some (into_py (kd_expected_utility_microunits d))
  | "counterfactual_model_id" => Some (into_py (kd_counterfactual_model_id d))
  | "counterfactual_utility_microunits" => Some (into_py (kd_counterfactual_utility_microunits d))
  | "evaluated_models" => Some (into_py (kd_evaluated_models d))
  | "eligible_models" => Some (into_py (kd_eligible_models d))
  | "policy_epoch" => Some (into_py (kd_policy_epoch d))
  | "catalog_epoch" => Some (into_py (kd_catalog_epoch d))
  | _ => None
  end.

Definition PyKernelDecision_is_executable (p : PyKernelDecision) : bool := is_executable (pd_inner p).
Definition PyKernelDecision_is_rejected (p : PyKernelDecision) : bool := is_rejected (pd_inner p).
Definition PyKernelDecision_is_requested_execution (p : PyKernelDecision) : bool :=
  is_requested_execution (pd_inner p).
Definition PyKernelDecision_is_substitution (p : PyKernelDecision) : bool := is_substitution (pd_inner p).

Definition PyKernelDecision_repr (p : PyKernelDecision) : string :=
  let d := pd_inner p in
  "KernelDecision(seq=" +:+ show_int (kd_request_sequence d)
  +:+ ", action='" +:+ KernelAction_display (kd_action d)
  +:+ "', model=" +:+ show_int (kd_selected_model_id d)
  +:+ ", reason='" +:+ KernelReason_display (kd_reason d) +:+ "')".

Definition PyKernelDecision_eq (p other : PyKernelDecision) : bool :=
  bool_decide (pd_inner p = pd_inner other).

Definition PyKernelDecision_as_dict (p : PyKernelDecision) : PyDict :=
  let d := pd_inner p in
  []
  |> set_item "request_sequence" (kd_request_sequence d)
  |> set_item "action" (KernelAction_display (kd_action d))
  |> set_item "action_code" (KernelAction_repr (kd_action d))
  |> set_item "reason" (KernelReason_display (kd_reason d))
  |> set_item "reason_code" (KernelReason_repr (kd_reason d))
  |> set_item "selected_model_id" (kd_selected_model_id d)
  |> set_item "selected_model_index" (kd_selected_model_index d)
  |> set_item "estimated_cost_microunits" (kd_estimated_cost_microunits d)
  |> set_item "expected_utility_microunits" (kd_expected_utility_microunits d)
  |> set_item "counterfactual_model_id" (kd_counterfactual_model_id d)
  |> set_item "counterfactual_utility_microunits" (kd_counterfactual_utility_microunits d)
  |> set_item "evaluated_models" (kd_evaluated_models d)
  |> set_item "eligible_models" (kd_eligible_models d)
  |> set_item "policy_epoch" (kd_policy_epoch d)
  |> set_item "catalog_epoch" (kd_catalog_epoch d).

(** ** Conversions to dicts *)

Definition decision_trace_to_dict (trace : DecisionTrace) : PyDict :=
  let r := dt_rejections trace in
  []
  |> set_item "disabled" (rh_disabled r)
  |> set_item "quality" (rh_quality r)
  |> set_item "risk_ceiling" (rh_risk_ceiling r)
  |> set_item "latency" (rh_latency r)
  |> set_item "capability" (rh_capability r)
  |> set_item "provider" (rh_provider r)
  |> set_item "region" (rh_region r)
  |> set_item "budget" (rh_budget r)
  |> set_item "utility" (rh_utility r)
  |> set_item "evaluated_models" (dt_evaluated_models trace)
  |> set_item "eligible_models" (dt_eligible_models trace).

Definition audit_bundle_to_dict (bundle : AuditBundle) : PyDict :=
  []
  |> set_item "schema_version" (ab_schema_version bundle)
  |> set_item "digest_algorithm" (ab_digest_algorithm bundle)
  |> set_item "proof_version" (ab_proof_version bundle)
  |> set_item "policy_epoch" (ab_policy_epoch bundle)
  |> set_item "catalog_epoch" (ab_catalog_epoch bundle)
  |> set_item "created_by" (ab_created_by bundle)
  |> set_item "policy_digest_hex" (ab_policy_digest_hex bundle)
  |> set_item "input_digest_hex" (ab_input_digest_hex bundle)
  |> set_item "decision_digest_hex" (ab_decision_digest_hex bundle)
  |> set_item "replay_valid" (ab_replay_valid bundle).

Definition lever_name (l : Lever) : string :=
  match l with
  | QualityBps => "quality_bps"
  | P95LatencyMs => "p95_latency_ms"
  | PriceScalePpm => "price_scale_ppm"
  | RiskCeilingBps => "risk_ceiling_bps"
  | LeverEnabled => "enabled"
  end.

Definition requirement_to_dict (r : Requirement) : PyDict :=
  []
  |> set_item "lever" (lever_name (rq_lever r))
  |> set_item "current" (rq_current r)
  |> set_item "boundary" (rq_boundary r)
  |> set_item "cost_at_boundary_microunits" (rq_cost_at_boundary_microunits r).

Definition requirements_to_list (levers : list Requirement) : list PyDict :=
  map requirement_to_dict levers.

Definition verify_result_to_dict (r : VerifyResult) : PyDict :=
  match r with
  | Valid => [] |> set_item "status" "valid"
  | Mismatch expected actual =>
      []
      |> set_item "status" "mismatch"
      |> set_item "expected_action" (KernelAction_display (kd_action expected))
      |> set_item "actual_action" (KernelAction_display (kd_action actual))
      |> set_item "expected_model_id" (kd_selected_model_id expected)
      |> set_item "actual_model_id" (kd_selected_model_id actual)
      |> set_item "expected_reason" (KernelReason_display (kd_reason expected))
      |> set_item "actual_reason" (KernelReason_display (kd_reason actual))
  | DigestMismatch expected_hex actual_hex =>
      []
      |> set_item "status" "digest_mismatch"
      |> set_item "expected_hex" expected_hex
      |> set_item "actual_hex" actual_hex
  end.

Definition verify_status_name (r : VerifyResult) : string :=
  match r with
  | Valid => "valid"
  | Mismatch _ _ => "mismatch"
  | DigestMismatch _ _ => "digest_mismatch"
  end.

(** ** [CandidateExplanation] *)

Record PyCandidateExplanation := mkPyCandidateExplanation {
  px_model_id : Z;
  px_model_index : Z;
  px_status : string;
  px_gate : option string;
  px_measured : option Z;
  px_limit : option Z;
  px_cost_microunits : option Z;
  px_quality_adjusted : option Z;
  px_risk_penalty : option Z;
  px_latency_penalty : option Z;
  px_utility : option Z
}.

(** [format!("{gate:?}")]. *)
Definition GateKind_debug (g : GateKind) : string :=
  match g with
  | Disabled => "Disabled"
  | Quality => "Quality"
  | Latency => "Latency"
  | Capability => "Capability"
  | ProviderUnrepresentable => "ProviderUnrepresentable"
  | ProviderNotAllowed => "ProviderNotAllowed"
  | Region => "Region"
  | RiskCeiling => "RiskCeiling"
  end.

(** The closures [row] and [priced] of the conversion. *)
Definition explanation_row (model_id model_index : Z) (status : string) : PyCandidateExplanation :=
  mkPyCandidateExplanation model_id model_index status None None None None None None None None.

Definition explanation_priced (model_id model_index : Z) (status : string) (terms : UtilityTerms)
    : PyCandidateExplanation :=
  let row := explanation_row model_id model_index status in
  mkPyCandidateExplanation (px_model_id row) (px_model_index row) (px_status row) (px_gate row)
    (px_measured row) (px_limit row) (Some (ut_cost_microunits terms)) (Some (ut_quality_adjusted terms))
    (Some (ut_risk_penalty terms)) (Some (ut_latency_penalty terms)) (Some (ut_utility terms)).

Definition explanation_to_py (candidate : CandidateExplanation) : PyCandidateExplanation :=
  let model_id := ce_model_id candidate in
  let model_index := ce_model_index candidate in
  match ce_verdict candidate with
  | Kernel.Rejected gate measured limit =>
      let row := explanation_row model_id model_index "rejected" in
      mkPyCandidateExplanation (px_model_id row) (px_model_index row) (px_status row)
        (Some (GateKind_debug gate)) (Some measured) (Some limit) (px_cost_microunits row)
        (px_quality_adjusted row) (px_risk_penalty row) (px_latency_penalty row) (px_utility row)
  | OverBudget cost_microunits limit_microunits =>
      let row := explanation_row model_id model_index "over_budget" in
      mkPyCandidateExplanation (px_model_id row) (px_model_index row) (px_status row) (px_gate row)
        (px_measured row) (Some limit_microunits) (Some cost_microunits) (px_quality_adjusted row)
        (px_risk_penalty row) (px_latency_penalty row) (px_utility row)
  | VerdictNonPositiveUtility terms => explanation_priced model_id model_index "non_positive_utility" terms
  | Eligible terms => explanation_priced model_id model_index "eligible" terms
  end.

Definition PyCandidateExplanation_repr (x : PyCandidateExplanation) : string :=
  match px_gate x, px_utility x with
  | Some gate, _ =>
      "CandidateExplanation(model_id=" +:+ show_int (px_model_id x) +:+ ", rejected on " +:+ gate
      +:+ ", measured=" +:+ debug_opt show_int (px_measured x)
      +:+ ", limit=" +:+ debug_opt show_int (px_limit x) +:+ ")"
  | None, Some utility =>
      "CandidateExplanation(model_id=" +:+ show_int (px_model_id x) +:+ ", " +:+ px_status x
      +:+ ", utility=" +:+ show_int utility +:+ ")"
  | None, None =>
      "CandidateExplanation(model_id=" +:+ show_int (px_model_id x) +:+ ", " +:+ px_status x +:+ ")"
  end.

(** ** [PolicySnapshot] *)

Record PyPolicySnapshot := mkPyPolicySnapshot { pp_inner : PolicySnapshot }.

Definition PyPolicySnapshot_new (policy_epoch catalog_epoch hard_risk_limit_bps minimum_confidence_bps
    risk_penalty_multiplier_bps latency_penalty_microunits_per_ms : Z) (models : list PyKernelModel)
    : PyResult PyPolicySnapshot :=
  match try_new_trusted policy_epoch catalog_epoch hard_risk_limit_bps minimum_confidence_bps
          risk_penalty_multiplier_bps latency_penalty_microunits_per_ms (map model_from_py models) with
  | Ok inner => Ok (mkPyPolicySnapshot inner)
  | Err e => Err (value_error (MsgPolicy e))
  end.

Definition PyPolicySnapshot_model_count (p : PyPolicySnapshot) : Z :=
  Z.of_nat (length (ps_models (pp_inner p))).

Definition PyPolicySnapshot_repr (p : PyPolicySnapshot) : string :=
  "PolicySnapshot(policy_epoch=" +:+ show_int (ps_policy_epoch (pp_inner p))
  +:+ ", catalog_epoch=" +:+ show_int (ps_catalog_epoch (pp_inner p))
  +:+ ", models=" +:+ show_int (PyPolicySnapshot_model_count p) +:+ ")".

Definition PyPolicySnapshot_getattr (name : string) (p : PyPolicySnapshot) : option Z :=
  match name with
  | "policy_epoch" => Some (ps_policy_epoch (pp_inner p))
  | "catalog_epoch" => Some (ps_catalog_epoch (pp_inner p))
  | "hard_risk_limit_bps" => Some (ps_hard_risk_limit_bps (pp_inner p))
  | "minimum_confidence_bps" => Some (ps_minimum_confidence_bps (pp_inner p))
  | "risk_penalty_multiplier_bps" => Some (ps_risk_penalty_multiplier_bps (pp_inner p))
  | "latency_penalty_microunits_per_ms" => Some (ps_latency_penalty_microunits_per_ms (pp_inner p))
  | _ => None
  end.

Definition PyPolicySnapshot_models (p : PyPolicySnapshot) : list PyKernelModel :=
  map model_to_py (ps_models (pp_inner p)).

Definition PyPolicySnapshot_prescribe (p : PyPolicySnapshot) (input : PyKernelInput)
    : PyResult PyKernelDecision :=
  let rust_input := input_from_py input in
  _ ← map_err (fun e => value_error (MsgInput e)) (KernelInput_validate rust_input);
  Ok (decision_to_py (prescribe (pp_inner p) rust_input)).

Definition PyPolicySnapshot_prescribe_with_trace (p : PyPolicySnapshot) (input : PyKernelInput)
    : PyResult (PyKernelDecision * PyDict) :=
  let rust_input := input_from_py input in
  _ ← map_err (fun e => value_error (MsgInput e)) (KernelInput_validate rust_input);
  let '(decision, trace) := prescribe_with_trace (pp_inner p) rust_input in
  Ok (decision_to_py decision, decision_trace_to_dict trace).

Definition PyPolicySnapshot_explain (p : PyPolicySnapshot) (input : PyKernelInput)
    : PyResult (list PyCandidateExplanation) :=
  let rust_input := input_from_py input in
  _ ← map_err (fun e => value_error (MsgInput e)) (KernelInput_validate rust_input);
  Ok (map explanation_to_py (ex_candidates (explain (pp_inner p) rust_input))).

Definition PyPolicySnapshot_what_would_win (p : PyPolicySnapshot) (input : PyKernelInput) (model_id : Z)
    : PyResult (option PyDict) :=
  rust_input ← validate_input input;
  match what_would_win (pp_inner p) rust_input model_id with
  | None => Ok None
  | Some cf =>
      Ok (Some
        ([]
         |> set_item "model_id" (cf_model_id cf)
         |> set_item "selected_model_id" (kd_selected_model_id (cf_decision cf))
         |> set_item "blocked_by_request" (KernelReason_display <$> cf_blocked_by_request cf)
         |> set_item "levers" (requirements_to_list (cf_levers cf))))
  end.

Definition PyPolicySnapshot_decision_margin (p : PyPolicySnapshot) (input : PyKernelInput)
    : PyResult (option PyDict) :=
  rust_input ← validate_input input;
  match decision_margin (pp_inner p) rust_input with
  | None => Ok None
  | Some m =>
      Ok (Some
        ([]
         |> set_item "model_id" (mg_model_id m)
         |> set_item "levers" (requirements_to_list (mg_levers m))))
  end.

Definition PyPolicySnapshot_utility_for_model (p : PyPolicySnapshot) (input : PyKernelInput) (model_id : Z)
    : PyResult (option Z) :=
  rust_input ← validate_input input;
  Ok (utility_for_model (pp_inner p) rust_input model_id).

Definition PyPolicySnapshot_counterfactual_utility (p : PyPolicySnapshot) (input : PyKernelInput)
    (model_id : Z) : PyResult (option Z) :=
  rust_input ← validate_input input;
  Ok (counterfactual_utility (pp_inner p) rust_input model_id).

(** The [collect] of the validated inputs stops at the first error. *)
Fixpoint validate_inputs (inputs : list PyKernelInput) : PyResult (list KernelInput) :=
  match inputs with
  | [] => Ok []
  | i :: inputs' =>
      rust_input ← validate_input i;
      rest ← validate_inputs inputs';
      Ok (rust_input :: rest)
  end.

Definition PyPolicySnapshot_prescribe_batch (p : PyPolicySnapshot) (inputs : list PyKernelInput)
    : PyResult (list PyKernelDecision) :=
  rust_inputs ← validate_inputs inputs;
  Ok (map decision_to_py (prescribe_batch (pp_inner p) rust_inputs)).

(** ** [Observation] *)

Record PyObservation := mkPyObservation {
  pb_realized_cost_microunits : option Z;
  pb_realized_latency_ms : option Z;
  pb_succeeded : option bool
}.

Definition PyObservation_new : option Z -> option Z -> option bool -> PyObservation := mkPyObservation.

Definition observation_from_py (o : PyObservation) : Observation :=
  mkObservation (pb_realized_cost_microunits o) (pb_realized_latency_ms o) (pb_succeeded o).

Definition PyObservation_set_realized_cost_microunits (v : option Z) (o : PyObservation) : PyObservation :=
  mkPyObservation v (pb_realized_latency_ms o) (pb_succeeded o).
Definition PyObservation_set_realized_latency_ms (v : option Z) (o : PyObservation) : PyObservation :=
  mkPyObservation (pb_realized_cost_microunits o) v (pb_succeeded o).
Definition PyObservation_set_succeeded (v : option bool) (o : PyObservation) : PyObservation :=
  mkPyObservation (pb_realized_cost_microunits o) (pb_realized_latency_ms o) v.

Definition PyObservation_is_empty (o : PyObservation) : bool :=
  Observation_is_empty (observation_from_py o).

Definition PyObservation_repr (o : PyObservation) : string :=
  "Observation(cost=" +:+ debug_opt show_int (pb_realized_cost_microunits o)
  +:+ ", latency_ms=" +:+ debug_opt show_int (pb_realized_latency_ms o)
  +:+ ", succeeded=" +:+ debug_opt show_bool (pb_succeeded o) +:+ ")".

(** ** [PolicySnapshot]: the methods that hash *)

Section policy.
Context {HF : HashFunctions}.

Definition PyPolicySnapshot_fingerprint (p : PyPolicySnapshot) : string := snapshot_fingerprint (pp_inner p).

Definition PyPolicySnapshot_as_dict (p : PyPolicySnapshot) : PyDict :=
  []
  |> set_item "policy_epoch" (ps_policy_epoch (pp_inner p))
  |> set_item "catalog_epoch" (ps_catalog_epoch (pp_inner p))
  |> set_item "hard_risk_limit_bps" (ps_hard_risk_limit_bps (pp_inner p))
  |> set_item "minimum_confidence_bps" (ps_minimum_confidence_bps (pp_inner p))
  |> set_item "risk_penalty_multiplier_bps" (ps_risk_penalty_multiplier_bps (pp_inner p))
  |> set_item "latency_penalty_microunits_per_ms" (ps_latency_penalty_microunits_per_ms (pp_inner p))
  |> set_item "model_count" (Z.of_nat (length (ps_models (pp_inner p))))
  |> set_item "fingerprint" (snapshot_fingerprint (pp_inner p)).

Definition PyPolicySnapshot_proof_envelope (p : PyPolicySnapshot) (input : PyKernelInput)
    (decision : PyKernelDecision) : PyResult PyDict :=
  rust_input ← validate_input input;
  let envelope := Envelope.seal (pp_inner p) rust_input (pd_inner decision) in
  Ok
    ([]
     |> set_item "proof_version" (Envelope.pe_proof_version envelope)
     |> set_item "policy_digest_hex" (Envelope.pe_policy_digest_hex envelope)
     |> set_item "input_digest_hex" (Envelope.pe_input_digest_hex envelope)
     |> set_item "decision_digest_hex" (Envelope.pe_decision_digest_hex envelope)
     |> set_item "replay_valid" (Envelope.pe_replay_valid envelope)
     |> set_item "wal_sequence" (Envelope.pe_wal_sequence envelope)
     |> set_item "wal_entry_hash" (Envelope.pe_wal_entry_hash envelope)
     |> set_item "budget_snapshot_version" (Envelope.pe_budget_snapshot_version envelope)
     |> set_item "ledger_digest_hex" (Envelope.pe_ledger_digest_hex envelope)
     |> set_item "action" (Envelope.pe_action envelope)
     |> set_item "reason" (Envelope.pe_reason envelope)
     |> set_item "selected_model_id" (Envelope.pe_selected_model_id envelope)
     |> set_item "counterfactual_model_id" (Envelope.pe_counterfactual_model_id envelope)
     |> set_item "estimated_cost_microunits" (Envelope.pe_estimated_cost_microunits envelope)
     |> set_item "expected_utility_microunits" (Envelope.pe_expected_utility_microunits envelope)).

Definition PyPolicySnapshot_verify (p : PyPolicySnapshot) (input : PyKernelInput)
    (decision : PyKernelDecision) : PyResult PyDict :=
  input ← validate_input input;
  Ok (verify_result_to_dict (verify_decision (pp_inner p) input (pd_inner decision))).

Definition PyPolicySnapshot_verify_status (p : PyPolicySnapshot) (input : PyKernelInput)
    (decision : PyKernelDecision) : PyResult string :=
  input ← validate_input input;
  Ok (verify_status_name (verify_decision (pp_inner p) input (pd_inner decision))).

Definition PyPolicySnapshot_audit_bundle (p : PyPolicySnapshot) (input : PyKernelInput)
    (decision : PyKernelDecision) : PyResult PyDict :=
  rust_input ← validate_input input;
  Ok (audit_bundle_to_dict (audit_bundle (pp_inner p) rust_input (pd_inner decision))).

Definition PyPolicySnapshot_verified_audit_bundle (p : PyPolicySnapshot) (input : PyKernelInput)
    (decision : PyKernelDecision) : PyResult PyDict :=
  rust_input ← validate_input input;
  bundle ← map_err (fun e => value_error (MsgVerify e))
             (verified_audit_bundle (pp_inner p) rust_input (pd_inner decision));
  Ok (audit_bundle_to_dict bundle).

End policy.

(** ** [BudgetEngine] *)

Definition top_up_to_dict (result : TopUpResult) : PyDict :=
  match result with
  | ToppedUp added_microcents new_initial_microcents remaining_microcents =>
      []
      |> set_item "status" "topped_up"
      |> set_item "added_microcents" added_microcents
      |> set_item "new_initial_microcents" new_initial_microcents
      |> set_item "remaining_microcents" remaining_microcents
  | TopUpMissingTenant => [] |> set_item "status" "missing_tenant"
  | TopUpInvalidAmount => [] |> set_item "status" "invalid_amount"
  | TopUpOverflow => [] |> set_item "status" "overflow"
  end.

Definition reservation_to_dict (reservation : BudgetReservation) (reservation_id : option Z) : PyDict :=
  let d := [] |> set_item "reservation_id" reservation_id in
  match reservation with
  | Reserved remaining_microcents =>
      d |> set_item "status" "reserved"
        |> set_item "remaining_microcents" remaining_microcents
  | Insufficient remaining_microcents required_microcents =>
      d |> set_item "status" "insufficient"
        |> set_item "remaining_microcents" remaining_microcents
        |> set_item "required_microcents" required_microcents
  | MissingTenant => d |> set_item "status" "missing_tenant"
  | MissingReservation => d |> set_item "status" "missing_reservation"
  | ExposureLimitExceeded current_reserved_microcents max_reserved_microcents =>
      d |> set_item "status" "exposure_limit_exceeded"
        |> set_item "current_reserved_microcents" current_reserved_microcents
        |> set_item "max_reserved_microcents" max_reserved_microcents
  | ReservationOverflow current_reserved_microcents =>
      d |> set_item "status" "overflow"
        |> set_item "current_reserved_microcents" current_reserved_microcents
  end.

Definition settlement_to_dict (settlement : BudgetSettlement) : PyDict :=
  match settlement with
  | Committed remaining_microcents actual_microcents =>
      []
      |> set_item "status" "committed"
      |> set_item "remaining_microcents" remaining_microcents
      |> set_item "actual_microcents" actual_microcents
  | Released remaining_microcents returned_microcents =>
      []
      |> set_item "status" "released"
      |> set_item "remaining_microcents" remaining_microcents
      |> set_item "returned_microcents" returned_microcents
  | Overrun remaining_microcents =>
      []
      |> set_item "status" "overrun"
      |> set_item "remaining_microcents" remaining_microcents
  | InvalidAmount => [] |> set_item "status" "invalid_amount"
  | SettlementMissingReservation => [] |> set_item "status" "missing_reservation"
  | SettlementMissingTenant => [] |> set_item "status" "missing_tenant"
  | SettlementOverflow remaining_microcents =>
      []
      |> set_item "status" "overflow"
      |> set_item "remaining_microcents" remaining_microcents
  end.

Definition conservation_to_dict (status : ConservationStatus) : PyDict :=
  match status with
  | Balanced => [] |> set_item "status" "balanced"
  | Violation tenant_id delta_microcents =>
      []
      |> set_item "status" "violation"
      |> set_item "tenant_id" tenant_id
      |> set_item "delta_microcents" delta_microcents
  | AggregateOverflow => [] |> set_item "status" "aggregate_overflow"
  end.

Record PyBudgetEngine := mkPyBudgetEngine { pe_inner : BudgetEngine }.

Definition PyBudgetEngine_new : PyBudgetEngine := mkPyBudgetEngine BudgetEngine_new.

Definition PyBudgetEngine_repr (e : PyBudgetEngine) : string :=
  "BudgetEngine(tenants=" +:+ show_int (tenant_count (pe_inner e))
  +:+ ", active_reservations=" +:+ show_int (active_reservations (pe_inner e)) +:+ ")".

Definition PyBudgetEngine_ensure_tenant (tenant_id : string) (budget_microcents : Z) (e : PyBudgetEngine)
    : PyResult unit * PyBudgetEngine :=
  let '(r, inner) := try_ensure_tenant tenant_id budget_microcents (pe_inner e) in
  (map_err (fun error => value_error (MsgConfiguration error)) r, mkPyBudgetEngine inner).

Definition PyBudgetEngine_set_max_reserved_microcents (tenant_id : string) (max_microcents : Z)
    (e : PyBudgetEngine) : PyResult unit * PyBudgetEngine :=
  let '(r, inner) := try_set_max_reserved_microcents tenant_id max_microcents (pe_inner e) in
  (map_err (fun error => value_error (MsgConfiguration error)) r, mkPyBudgetEngine inner).

Definition PyBudgetEngine_top_up_tenant (tenant_id : string) (amount_microcents : Z) (e : PyBudgetEngine)
    : PyDict * PyBudgetEngine :=
  let '(r, inner) := top_up_tenant tenant_id amount_microcents (pe_inner e) in
  (top_up_to_dict r, mkPyBudgetEngine inner).

Definition PyBudgetEngine_try_reserve (tenant_id : string) (amount_microcents : Z) (e : PyBudgetEngine)
    : PyDict * PyBudgetEngine :=
  let '(reservation, id, inner) := try_reserve tenant_id amount_microcents (pe_inner e) in
  (reservation_to_dict reservation id, mkPyBudgetEngine inner).

Definition PyBudgetEngine_commit (reservation_id actual_microcents : Z) (e : PyBudgetEngine)
    : PyDict * PyBudgetEngine :=
  let '(r, inner) := commit reservation_id actual_microcents (pe_inner e) in
  (settlement_to_dict r, mkPyBudgetEngine inner).

Definition PyBudgetEngine_release (reservation_id : Z) (e : PyBudgetEngine) : PyDict * PyBudgetEngine :=
  let '(r, inner) := release reservation_id (pe_inner e) in
  (settlement_to_dict r, mkPyBudgetEngine inner).

Definition PyBudgetEngine_initial_microcents (tenant_id : string) (e : PyBudgetEngine) : option Z :=
  initial_microcents tenant_id (pe_inner e).
Definition PyBudgetEngine_remaining_microcents (tenant_id : string) (e : PyBudgetEngine) : option Z :=
  remaining_microcents tenant_id (pe_inner e).
Definition PyBudgetEngine_reserved_microcents (tenant_id : string) (e : PyBudgetEngine) : Z :=
  reserved_microcents tenant_id (pe_inner e).
Definition PyBudgetEngine_committed_microcents (tenant_id : string) (e : PyBudgetEngine) : option Z :=
  committed_microcents tenant_id (pe_inner e).
Definition PyBudgetEngine_tenant_count (e : PyBudgetEngine) : Z := tenant_count (pe_inner e).
Definition PyBudgetEngine_active_reservations (e : PyBudgetEngine) : Z := active_reservations (pe_inner e).

(** The text [expect] panics with in [BudgetEngine::snapshot]. *)
Definition ALLOCATOR_EXHAUSTED : string :=
  "reservation allocator exhausted — use try_snapshot() for fallible capture".

Definition PyBudgetEngine_verify_conservation (e : PyBudgetEngine) : PyResult PyDict * PyBudgetEngine :=
  let '(status, inner) := verify_conservation (pe_inner e) in
  (status ← ok_or status (panic ALLOCATOR_EXHAUSTED); Ok (conservation_to_dict status), mkPyBudgetEngine inner).

Definition tenant_row (tenant : TenantLedger) : PyDict :=
  []
  |> set_item "tenant_id" (tl_tenant_id tenant)
  |> set_item "initial_microcents" (tl_initial_microcents tenant)
  |> set_item "remaining_microcents" (tl_remaining_microcents tenant)
  |> set_item "reserved_microcents" (tl_reserved_microcents tenant)
  |> set_item "committed_microcents" (tl_committed_microcents tenant).

Definition snapshot_to_dict (snapshot : BudgetSnapshot) : PyDict :=
  []
  |> set_item "version" (bs_version snapshot)
  |> set_item "active_reservations" (bs_active_reservations snapshot)
  |> set_item "wal_high_watermark" (bs_wal_high_watermark snapshot)
  |> set_item "tenants" (map tenant_row (bs_tenants snapshot)).

Definition PyBudgetEngine_snapshot (e : PyBudgetEngine) : PyResult PyDict * PyBudgetEngine :=
  let '(r, inner) := try_snapshot (pe_inner e) in
  (snapshot ← map_err (fun error => value_error (MsgAllocator error)) r; Ok (snapshot_to_dict snapshot),
   mkPyBudgetEngine inner).

Section certificates.
Context {HF : HashFunctions}.

Definition PyBudgetEngine_prove_conservation (e : PyBudgetEngine) : PyResult PyDict * PyBudgetEngine :=
  match prove_conservation (pe_inner e) with
  | None => (Err (panic ALLOCATOR_EXHAUSTED), e)
  | Some (Ok proof, inner) =>
      (Ok
         ([]
          |> set_item "ledger_digest_hex" (cpf_ledger_digest_hex proof)
          |> set_item "snapshot_version" (cpf_snapshot_version proof)
          |> set_item "tenant_count" (cpf_tenant_count proof)
          |> set_item "active_reservations" (cpf_active_reservations proof)
          |> set_item "total_initial_microcents" (cpf_total_initial_microcents proof)
          |> set_item "total_committed_microcents" (cpf_total_committed_microcents proof)
          |> set_item "aggregate_totals_representable" (cpf_aggregate_totals_representable proof)),
       mkPyBudgetEngine inner)
  | Some (Err status, inner) => (Err (value_error (MsgConservation status)), mkPyBudgetEngine inner)
  end.

Definition PyBudgetEngine_certify (e : PyBudgetEngine) : PyResult PyDict * PyBudgetEngine :=
  match certify_ledger (pe_inner e) with
  | None => (Err (panic ALLOCATOR_EXHAUSTED), e)
  | Some (cert, inner) =>
      (Ok
         ([]
          |> set_item "snapshot_version" (fc_snapshot_version cert)
          |> set_item "ledger_digest_hex" (fc_ledger_digest_hex cert)
          |> set_item "tenant_count" (fc_tenant_count cert)
          |> set_item "active_reservations" (fc_active_reservations cert)
          |> set_item "conservation_balanced" (fc_conservation_balanced cert)
          |> set_item "total_initial_microcents" (fc_total_initial_microcents cert)
          |> set_item "total_committed_microcents" (fc_total_committed_microcents cert)
          |> set_item "aggregate_totals_representable" (fc_aggregate_totals_representable cert)
          |> set_item "committed_since_last_certificate" (fc_committed_since_last_certificate cert)),
       mkPyBudgetEngine inner)
  end.

End certificates.

(** ** [Outcome] *)

Record PyOutcome := mkPyOutcome { po_inner : Outcome }.

Definition set_selection (s : Selection) (o : Outcome) : Outcome :=
  mkOutcome (oc_identity o) (oc_observed_at_micros o) (oc_revision o) s (oc_disposition o) (oc_observation o).

Definition Disposition_name (d : Disposition) : string :=
  match d with Applied => "applied" | Abandoned => "abandoned" | InFlight => "in_flight" end.

Definition Disposition_parse (s : string) : PyResult Disposition :=
  match s with
  | "applied" => Ok Applied
  | "abandoned" => Ok Abandoned
  | "in_flight" => Ok InFlight
  | other => Err (value_error (MsgText ("disposition must be applied, abandoned or in_flight, got " +:+ other)))
  end.

Definition SelectionStrategy_name (s : SelectionStrategy) : string :=
  match s with MaximiseUtility => "maximise_utility" | Explore => "explore" | Human => "human" end.

Definition PyOutcome_disposition (o : PyOutcome) : string := Disposition_name (oc_disposition (po_inner o)).
Definition PyOutcome_strategy (o : PyOutcome) : string :=
  SelectionStrategy_name (sl_strategy (oc_selection (po_inner o))).
Definition PyOutcome_acted_model_id (o : PyOutcome) : Z := sl_acted_model_id (oc_selection (po_inner o)).
Definition PyOutcome_propensity_bps (o : PyOutcome) : option Z :=
  sl_propensity_bps (oc_selection (po_inner o)).
Definition PyOutcome_request_sequence (o : PyOutcome) : Z := di_request_sequence (oc_identity (po_inner o)).
Definition PyOutcome_observed_at_micros (o : PyOutcome) : Z := oc_observed_at_micros (po_inner o).
Definition PyOutcome_revision (o : PyOutcome) : Z := oc_revision (po_inner o).
Definition PyOutcome_observation (o : PyOutcome) : PyObservation :=
  let observation := oc_observation (po_inner o) in
  mkPyObservation (ob_realized_cost_microunits observation) (ob_realized_latency_ms observation)
    (ob_succeeded observation).

Definition PyOutcome_set_revision (revision : Z) (o : PyOutcome) : PyOutcome :=
  let i := po_inner o in
  mkPyOutcome (mkOutcome (oc_identity i) (oc_observed_at_micros i) revision (oc_selection i)
                 (oc_disposition i) (oc_observation i)).

(** On an unknown name nothing is assigned. *)
Definition PyOutcome_set_disposition (disposition : string) (o : PyOutcome) : PyResult unit * PyOutcome :=
  let i := po_inner o in
  match Disposition_parse disposition with
  | Err e => (Err e, o)
  | Ok d =>
      (Ok tt, mkPyOutcome (mkOutcome (oc_identity i) (oc_observed_at_micros i) (oc_revision i)
                             (oc_selection i) d (oc_observation i)))
  end.

Definition PyOutcome_set_observation (observation : PyObservation) (o : PyOutcome) : PyOutcome :=
  let i := po_inner o in
  mkPyOutcome (mkOutcome (oc_identity i) (oc_observed_at_micros i) (oc_revision i) (oc_selection i)
                 (oc_disposition i) (observation_from_py observation)).

Definition PyOutcome_validate (o : PyOutcome) : PyResult unit :=
  map_err (fun e => value_error (MsgOutcome e)) (Outcome_validate (po_inner o)).

Definition PyOutcome_repr (o : PyOutcome) : string :=
  "Outcome(seq=" +:+ show_int (PyOutcome_request_sequence o) +:+ ", " +:+ PyOutcome_disposition o
  +:+ ", acted=" +:+ show_int (PyOutcome_acted_model_id o) +:+ ", strategy=" +:+ PyOutcome_strategy o
  +:+ ", revision=" +:+ show_int (PyOutcome_revision o) +:+ ")".

Section outcomes.
Context {HF : HashFunctions}.

Definition PyOutcome_applied (snapshot : PyPolicySnapshot) (input : PyKernelInput)
    (decision : PyKernelDecision) (observed_at_micros : Z) (observation : PyObservation) : PyOutcome :=
  mkPyOutcome (Outcome_applied (pp_inner snapshot) (input_from_py input) (pd_inner decision)
                 observed_at_micros (observation_from_py observation)).

Definition PyOutcome_abandoned (snapshot : PyPolicySnapshot) (input : PyKernelInput)
    (decision : PyKernelDecision) (observed_at_micros : Z) : PyOutcome :=
  mkPyOutcome (Outcome_abandoned (pp_inner snapshot) (input_from_py input) (pd_inner decision)
                 observed_at_micros).

Definition PyOutcome_chosen_otherwise (snapshot : PyPolicySnapshot) (input : PyKernelInput)
    (decision : PyKernelDecision) (observed_at_micros : Z) (observation : PyObservation)
    (acted_model_id : Z) (propensity_bps : option Z) (human : bool) : PyResult PyOutcome :=
  let rust_input := input_from_py input in
  let inner :=
    set_selection (mkSelection (if human then Human else Explore) acted_model_id propensity_bps)
      (Outcome_applied (pp_inner snapshot) rust_input (pd_inner decision) observed_at_micros
         (observation_from_py observation)) in
  _ ← map_err (fun e => value_error (MsgOutcome e))
        (validate_against inner (pp_inner snapshot) rust_input (pd_inner decision));
  Ok (mkPyOutcome inner).

(** The digests, as hex. *)
Definition PyOutcome_policy_digest (o : PyOutcome) : string :=
  digest_to_hex (di_policy_digest (oc_identity (po_inner o))).
Definition PyOutcome_input_digest (o : PyOutcome) : string :=
  digest_to_hex (di_input_digest (oc_identity (po_inner o))).
Definition PyOutcome_decision_digest (o : PyOutcome) : string :=
  digest_to_hex (di_decision_digest (oc_identity (po_inner o))).
Definition PyOutcome_identity_digest (o : PyOutcome) : string :=
  digest_to_hex (identity_digest (oc_identity (po_inner o))).
Definition PyOutcome_selection_digest (o : PyOutcome) : string :=
  digest_to_hex (selection_digest (oc_selection (po_inner o))).
Definition PyOutcome_digest (o : PyOutcome) : string := digest_to_hex (outcome_digest (po_inner o)).

Definition PyOutcome_validate_against (o : PyOutcome) (snapshot : PyPolicySnapshot)
    (input : PyKernelInput) (decision : PyKernelDecision) : PyResult unit :=
  map_err (fun e => value_error (MsgOutcome e))
    (validate_against (po_inner o) (pp_inner snapshot) (input_from_py input) (pd_inner decision)).

Definition PyOutcome_follows (o : PyOutcome) (decision : PyKernelDecision) : bool :=
  follows (po_inner o) (pd_inner decision).

End outcomes.

(** ** The module *)

(** What the build script puts into the environment. *)
Record BuildEnvironment := mkBuildEnvironment {
  CALYBRIS_BUILD_COMMIT : string;
  CALYBRIS_BUILD_TREE : string;
  CALYBRIS_BUILD_SOURCE_DIGEST : string;
  CALYBRIS_BUILD_LOCK_SHA256 : string;
  CALYBRIS_BUILD_DIRTY : string;
  CALYBRIS_BUILD_IDENTITY_VERIFIED : string
}.

(** The constants [calybris_core] adds to the module. *)
Definition calybris_core (env : BuildEnvironment) : PyDict :=
  []
  |> set_item "ALL_PROVIDERS" ALL_PROVIDERS
  |> set_item "ALL_REGIONS" ALL_REGIONS
  |> set_item "MICROCENTS_PER_CENT" MICROCENTS_PER_CENT
  |> set_item "FULL_PROBABILITY_BPS" FULL_PROBABILITY_BPS
  |> set_item "BUILD_COMMIT_SHA" (CALYBRIS_BUILD_COMMIT env)
  |> set_item "BUILD_TREE_SHA" (CALYBRIS_BUILD_TREE env)
  |> set_item "BUILD_SOURCE_DIGEST" (CALYBRIS_BUILD_SOURCE_DIGEST env)
  |> set_item "BUILD_CARGO_LOCK_SHA256" (CALYBRIS_BUILD_LOCK_SHA256 env)
  |> set_item "BUILD_DIRTY" (String.eqb (CALYBRIS_BUILD_DIRTY env) "true")
  |> set_item "BUILD_IDENTITY_VERIFIED" (String.eqb (CALYBRIS_BUILD_IDENTITY_VERIFIED env) "true")
  |> set_item "ACTION_EXECUTE_REQUESTED" 1
  |> set_item "ACTION_SUBSTITUTE" 2
  |> set_item "ACTION_REJECT" 3
  |> set_item "REASON_REQUESTED_MODEL_MAXIMIZES_UTILITY" 1
  |> set_item "REASON_ALTERNATIVE_MAXIMIZES_UTILITY" 2
  |> set_item "REASON_RISK_HARD_LIMIT" 100
  |> set_item "REASON_CONFIDENCE_HARD_LIMIT" 101
  |> set_item "REASON_NO_ENABLED_MODEL" 102
  |> set_item "REASON_QUALITY_CONSTRAINT" 103
  |> set_item "REASON_LATENCY_CONSTRAINT" 104
  |> set_item "REASON_CAPABILITY_CONSTRAINT" 105
  |> set_item "REASON_PROVIDER_CONSTRAINT" 106
  |> set_item "REASON_REGION_CONSTRAINT" 107
  |> set_item "REASON_BUDGET_CONSTRAINT" 108
  |> set_item "REASON_NON_POSITIVE_UTILITY" 109
  |> set_item "REASON_RISK_CEILING_CONSTRAINT" 110.
