(* ===== verification/PyProduction.v ===== *)
(** * The Python binding: production interfaces ([bindings/python/src/production.rs])

    Receipts, signed policies, state chains, the audited log, checkpoints and
    recovery as the module [calybris._core] offers them. Every failure is an
    exception of a class of its own under [CalybrisError]. Files are those of
    [Wal.v] and [Persistence.v]: a log is its bytes and its lock, an artifact a
    file of a directory. serde_json and Python's [json.loads] are the class
    [PySerde]. *)

From Stdlib Require Import String.
From S2P Require Import Prelude Kernel Bytes Text Crypto Digest Verify State Receipt Certificate Budget Wal WalTheory WalSample Persistence Python.
#[local] Open Scope string_scope.
#[local] Open Scope list_scope.
#[local] Open Scope Z_scope.

(** ** Exceptions *)

(** [create_exception!]: the base class each exception is declared with. *)
Definition base_class (c : Exc.t) : option Exc.t :=
  match c with
  | Exc.ArtifactValidationError | Exc.DecisionVerificationError | Exc.ReceiptError
  | Exc.ProvenanceError | Exc.WalError | Exc.PersistenceError | Exc.StateTrajectoryError =>
      Some Exc.CalybrisError
  | _ => None
  end.

Definition invalid_value (error : Message) : PyErr := mkPyErr Exc.ArtifactValidationError error.
Definition runtime_error (error : Message) : PyErr := mkPyErr Exc.CalybrisError error.
Definition receipt_error (error : Receipt.ReceiptError) : PyErr := mkPyErr Exc.ReceiptError (MsgReceipt error).
Definition provenance_error (error : Provenance.ProvenanceError) : PyErr :=
  mkPyErr Exc.ProvenanceError (MsgProvenance error).
Definition wal_error (error : Wal.WalError) : PyErr := mkPyErr Exc.WalError (MsgWal error).
Definition persistence_error (error : Persistence.PersistenceError) : PyErr :=
  mkPyErr Exc.PersistenceError (MsgPersistence error).
Definition trajectory_error (error : TrajectoryError) : PyErr :=
  mkPyErr Exc.StateTrajectoryError (MsgTrajectory error).
Definition decision_verification_error (error : VerifyResult) : PyErr :=
  mkPyErr Exc.DecisionVerificationError (MsgVerify error).

(** ** Keys and digests *)

Definition exact_key (n : nat) (field : string) (value : list Z) : PyResult (list Z) :=
  if Nat.eqb (length value) n then Ok value
  else Err (invalid_value (MsgText (field +:+ " must be exactly " +:+ show (Z.of_nat n) +:+ " bytes, found "
                                    +:+ show (Z.of_nat (length value))))).

Definition is_lower_hex (byte : Z) : bool :=
  ((48 <=? byte) && (byte <=? 57)) || ((97 <=? byte) && (byte <=? 102)).

Definition validate_hex32 (field value : string) : PyResult unit :=
  let bytes := string_bytes value in
  refuse_if (negb (Nat.eqb (length bytes) 64) || negb (forallb is_lower_hex bytes))
    (invalid_value (MsgText (field +:+ " must contain exactly 64 lowercase ASCII hex characters"))).

Definition validate_hmac_key (value : list Z) : PyResult unit :=
  refuse_if (Z.of_nat (length value) <? 32)
    (invalid_value (MsgText ("hmac_key must be at least 32 bytes, found " +:+ show (Z.of_nat (length value))))).

(** The optional key of the functions that read a log. *)
Definition validate_optional_key (hmac_key : option (list Z)) : PyResult unit :=
  match hmac_key with Some key => validate_hmac_key key | None => Ok tt end.

Section keys.
Context {ED : Ed25519}.

Definition py_verifying_key (value : list Z) : PyResult (list Z) :=
  bytes ← exact_key 32 "trusted_public_key" value;
  _ ← refuse_if (negb (public_key_ok bytes)) (invalid_value MsgKey);
  Ok bytes.

Definition py_signing_key (value : list Z) : PyResult (list Z) := exact_key 32 "signing_key" value.

Definition public_key_from_signing_key (signing_key_bytes : list Z) : PyResult (list Z) :=
  key ← py_signing_key signing_key_bytes;
  Ok (verifying_key key).

End keys.

(** [value.chars().take(8)]: a continuation byte belongs to the character before it. *)
Fixpoint take_chars (n : nat) (bytes : list Z) : list Z :=
  match bytes with
  | [] => []
  | b :: rest =>
      if continuation 128 191 b then b :: take_chars n rest
      else match n with O => [] | S n' => b :: take_chars n' rest end
  end.
Definition preview (value : string) : string := string_of_bytes (take_chars 8 (string_bytes value)).

(** ** JSON *)

(** [Value] of serde_json, its text, and what [json.loads] makes of a text. *)
Class PySerde := {
  Value : Type;
  value_of_text : string -> option Value;
  text_of_value : Value -> option string;
  loads : string -> PyResult PyValue
}.

(** The serialization derived for a type. *)
Class Serde `{PySerde} (T : Type) := {
  to_value : T -> option Value;
  to_text : T -> option string;
  of_text : string -> option T;
  text_roundtrip : forall v s, to_text v = Some s -> of_text s = Some v
}.

Section serde.
Context {PS : PySerde}.

Definition json_value_to_dict (value : Value) : PyResult PyDict :=
  json ← ok_or (text_of_value value) (runtime_error MsgJson);
  decoded ← loads json;
  match decoded with
  | PyDictionary d => Ok d
  | _ => Err (mkPyErr Exc.TypeError (MsgText "cannot be converted to dict"))
  end.

Definition serialized_dict {T} `{!Serde T} (v : T) : PyResult PyDict :=
  value ← ok_or (to_value v) (runtime_error MsgJson);
  json_value_to_dict value.

Definition serialized_text {T} `{!Serde T} (v : T) : PyResult string :=
  ok_or (to_text v) (runtime_error MsgJson).

Definition parsed {T} `{!Serde T} (text : string) : PyResult T :=
  ok_or (of_text text) (invalid_value MsgJson).

End serde.

(** ** State chains *)

Record PyStateTransition := mkPyStateTransition { pst_inner : StateTransition }.
Record PyStatefulAuditBundle := mkPyStatefulAuditBundle { psb_inner : StatefulAuditBundle }.
Record PyStateChain := mkPyStateChain { psc_inner : StateChain }.

Definition PyStatefulAuditBundle_step (b : PyStatefulAuditBundle) : Z := sb_step (psb_inner b).
Definition PyStatefulAuditBundle_state_digest_before_hex (b : PyStatefulAuditBundle) : string :=
  sb_state_digest_before_hex (psb_inner b).
Definition PyStatefulAuditBundle_state_digest_after_hex (b : PyStatefulAuditBundle) : string :=
  sb_state_digest_after_hex (psb_inner b).
Definition PyStatefulAuditBundle_replay_valid (b : PyStatefulAuditBundle) : bool :=
  ab_replay_valid (sb_audit (psb_inner b)).
Definition PyStatefulAuditBundle_as_dict `{PySerde} `{!Serde StatefulAuditBundle}
    (b : PyStatefulAuditBundle) : PyResult PyDict := serialized_dict (psb_inner b).
Definition PyStatefulAuditBundle_repr (b : PyStatefulAuditBundle) : string :=
  "StatefulAuditBundle(step=" +:+ show_int (sb_step (psb_inner b)) +:+ ", replay_valid="
  +:+ show_bool (ab_replay_valid (sb_audit (psb_inner b))) +:+ ")".

Definition PyStateTransition_step (t : PyStateTransition) : Z := st_step (pst_inner t).
Definition PyStateTransition_digest_before_hex (t : PyStateTransition) : string :=
  bytes_to_hex (st_digest_before (pst_inner t)).
Definition PyStateTransition_digest_after_hex (t : PyStateTransition) : string :=
  bytes_to_hex (st_digest_after (pst_inner t)).
Definition PyStateTransition_as_dict (t : PyStateTransition) : PyDict :=
  []
  |> set_item "step" (st_step (pst_inner t))
  |> set_item "digest_before_hex" (PyStateTransition_digest_before_hex t)
  |> set_item "digest_after_hex" (PyStateTransition_digest_after_hex t).
Definition PyStateTransition_repr (t : PyStateTransition) : string :=
  "StateTransition(step=" +:+ show_int (st_step (pst_inner t))
  +:+ ", before='" +:+ preview (PyStateTransition_digest_before_hex t)
  +:+ "...', after='" +:+ preview (PyStateTransition_digest_after_hex t) +:+ "...')".

Section chain.
Context {HF : HashFunctions}.

Definition PyStateChain_new (initial_state : list Z) : PyStateChain :=
  mkPyStateChain (genesis initial_state).
Definition PyStateChain_genesis (initial_state : list Z) : PyStateChain := PyStateChain_new initial_state.
Definition PyStateChain_step (c : PyStateChain) : Z := sc_step (psc_inner c).
Definition PyStateChain_last_digest_hex (c : PyStateChain) : string :=
  bytes_to_hex (sc_last_digest (psc_inner c)).

Definition PyStateChain_advance (next_state : list Z) (c : PyStateChain)
    : PyResult PyStateTransition * PyStateChain :=
  match advance (psc_inner c) next_state with
  | Some (t, inner) => (Ok (mkPyStateTransition t), mkPyStateChain inner)
  | None => (Err (panic "state trajectory step counter exhausted"), c)
  end.

Definition PyStateChain_repr (c : PyStateChain) : string :=
  "StateChain(step=" +:+ show_int (sc_step (psc_inner c))
  +:+ ", last_digest='" +:+ preview (PyStateChain_last_digest_hex c) +:+ "...')".

Definition verify_state_trajectory (bundles : list PyStatefulAuditBundle) : PyResult unit :=
  map_err trajectory_error (verify_trajectory (map psb_inner bundles)).

Definition verify_complete_state_trajectory (initial_state_bytes : list Z) (expected_final_step : Z)
    (bundles : list PyStatefulAuditBundle) : PyResult unit :=
  map_err trajectory_error
    (verify_complete_trajectory initial_state_bytes expected_final_step (map psb_inner bundles)).

Definition verify_state_trajectory_fragment (anchor_step : Z) (anchor_digest_hex : string)
    (bundles : list PyStatefulAuditBundle) : PyResult unit :=
  map_err trajectory_error
    (verify_trajectory_fragment anchor_step anchor_digest_hex (map psb_inner bundles)).

Definition PyPolicySnapshot_stateful_audit_bundle (p : PyPolicySnapshot) (input : PyKernelInput)
    (decision : PyKernelDecision) (transition : PyStateTransition) : PyResult PyStatefulAuditBundle :=
  rust_input ← validate_input input;
  bundle ← map_err decision_verification_error
             (stateful_audit_bundle (pp_inner p) rust_input (pd_inner decision) (pst_inner transition));
  Ok (mkPyStatefulAuditBundle bundle).

End chain.

(** ** Receipt anchors *)

Record PyReceiptState := mkPyReceiptState { prs_inner : ReceiptState }.
Record PyReceiptWal := mkPyReceiptWal { prw_inner : ReceiptWal }.

Definition PyReceiptState_new (step : Z) (state_digest_before_hex state_digest_after_hex : string)
    : PyResult PyReceiptState :=
  _ ← refuse_if (step =? 0) (invalid_value (MsgText "step must be at least 1"));
  _ ← validate_hex32 "state_digest_before_hex" state_digest_before_hex;
  _ ← validate_hex32 "state_digest_after_hex" state_digest_after_hex;
  Ok (mkPyReceiptState (mkReceiptState step state_digest_before_hex state_digest_after_hex)).

Definition PyReceiptState_from_transition (transition : PyStateTransition) : PyReceiptState :=
  mkPyReceiptState
    (mkReceiptState (st_step (pst_inner transition)) (bytes_to_hex (st_digest_before (pst_inner transition)))
       (bytes_to_hex (st_digest_after (pst_inner transition)))).

Definition PyReceiptState_step (s : PyReceiptState) : Z := rs_step (prs_inner s).
Definition PyReceiptState_state_digest_before_hex (s : PyReceiptState) : string :=
  rs_state_digest_before_hex (prs_inner s).
Definition PyReceiptState_state_digest_after_hex (s : PyReceiptState) : string :=
  rs_state_digest_after_hex (prs_inner s).
Definition PyReceiptState_as_dict (s : PyReceiptState) : PyDict :=
  []
  |> set_item "step" (rs_step (prs_inner s))
  |> set_item "state_digest_before_hex" (rs_state_digest_before_hex (prs_inner s))
  |> set_item "state_digest_after_hex" (rs_state_digest_after_hex (prs_inner s)).

Definition PyReceiptWal_new (sequence : Z) (entry_hash : string) : PyResult PyReceiptWal :=
  _ ← refuse_if (sequence =? 0) (invalid_value (MsgText "sequence must be at least 1"));
  _ ← validate_hex32 "entry_hash" entry_hash;
  Ok (mkPyReceiptWal (mkReceiptWal sequence entry_hash)).

Definition PyReceiptWal_sequence (w : PyReceiptWal) : Z := rw_sequence (prw_inner w).
Definition PyReceiptWal_entry_hash (w : PyReceiptWal) : string := rw_entry_hash (prw_inner w).
Definition PyReceiptWal_as_dict (w : PyReceiptWal) : PyDict :=
  []
  |> set_item "sequence" (rw_sequence (prw_inner w))
  |> set_item "entry_hash" (rw_entry_hash (prw_inner w)).

(** ** Signed policies *)

Record PySignedPolicy := mkPySignedPolicy { psp_inner : Provenance.SignedPolicy }.

Definition PySignedPolicy_policy_digest_hex (s : PySignedPolicy) : string :=
  Provenance.sp_policy_digest_hex (psp_inner s).
Definition PySignedPolicy_signer_id (s : PySignedPolicy) : string := Provenance.sp_signer_id (psp_inner s).
Definition PySignedPolicy_signed_at_epoch_ms (s : PySignedPolicy) : Z :=
  Provenance.sp_signed_at_epoch_ms (psp_inner s).
Definition PySignedPolicy_public_key_hex (s : PySignedPolicy) : string :=
  Provenance.sp_public_key_hex (psp_inner s).
Definition PySignedPolicy_signature_hex (s : PySignedPolicy) : string :=
  Provenance.sp_signature_hex (psp_inner s).

Section signed.
Context {HF : HashFunctions} {ED : Ed25519}.

Definition PyPolicySnapshot_sign_policy (p : PyPolicySnapshot) (signing_key_bytes : list Z)
    (signer_id : string) (signed_at_epoch_ms : Z) : PyResult PySignedPolicy :=
  key ← py_signing_key signing_key_bytes;
  Ok (mkPySignedPolicy (Provenance.sign_policy (pp_inner p) key signer_id signed_at_epoch_ms)).

Definition PySignedPolicy_verify (s : PySignedPolicy) (snapshot : PyPolicySnapshot)
    (trusted_public_key : list Z) : PyResult unit :=
  trusted ← py_verifying_key trusted_public_key;
  map_err provenance_error
    (Provenance.verify_signed_policy_with_key (pp_inner snapshot) (psp_inner s) trusted).

End signed.

Section signed_json.
Context {PS : PySerde} {S : Serde Provenance.SignedPolicy}.

Definition PySignedPolicy_to_json (s : PySignedPolicy) : PyResult string := serialized_text (psp_inner s).
Definition PySignedPolicy_from_json (value : string) : PyResult PySignedPolicy :=
  inner ← parsed value;
  Ok (mkPySignedPolicy inner).
Definition PySignedPolicy_as_dict (s : PySignedPolicy) : PyResult PyDict := serialized_dict (psp_inner s).

End signed_json.

(** ** Receipts *)

Record PyDecisionReceipt := mkPyDecisionReceipt { pdr_inner : DecisionReceipt }.

(** The getters of plain fields. *)
Definition PyDecisionReceipt_getattr (name : string) (r : PyDecisionReceipt) : option PyValue :=
  let i := pdr_inner r in
  match name with
  | "schema_version" => Some (into_py (dr_schema_version i))
  | "policy_epoch" => Some (into_py (dr_policy_epoch i))
  | "catalog_epoch" => Some (into_py (dr_catalog_epoch i))
  | "policy_digest_hex" => Some (into_py (dr_policy_digest_hex i))
  | "input_digest_hex" => Some (into_py (dr_input_digest_hex i))
  | "decision_digest_hex" => Some (into_py (dr_decision_digest_hex i))
  | "replay_valid" => Some (into_py (dr_replay_valid i))
  | "claims_digest_hex" => Some (into_py (dr_claims_digest_hex i))
  | "signer_id" => Some (into_py (rg_signer_id <$> dr_signature i))
  | "signed_at_epoch_ms" => Some (into_py (rg_signed_at_epoch_ms <$> dr_signature i))
  | "public_key_hex" => Some (into_py (rg_public_key_hex <$> dr_signature i))
  | "signature_hex" => Some (into_py (rg_signature_hex <$> dr_signature i))
  | _ => None
  end.

Definition PyDecisionReceipt_state (r : PyDecisionReceipt) : option PyReceiptState :=
  mkPyReceiptState <$> dr_state (pdr_inner r).
Definition PyDecisionReceipt_wal (r : PyDecisionReceipt) : option PyReceiptWal :=
  mkPyReceiptWal <$> dr_wal (pdr_inner r).

Definition PyDecisionReceipt_repr (r : PyDecisionReceipt) : string :=
  "DecisionReceipt(policy_epoch=" +:+ show_int (dr_policy_epoch (pdr_inner r))
  +:+ ", catalog_epoch=" +:+ show_int (dr_catalog_epoch (pdr_inner r))
  +:+ ", signed=" +:+ show_bool (match dr_signature (pdr_inner r) with Some _ => true | None => false end)
  +:+ ", claims='" +:+ preview (dr_claims_digest_hex (pdr_inner r)) +:+ "...')".

Definition PyDecisionReceipt_verify_wal (r : PyDecisionReceipt) (sequence : Z) (entry_hash : string)
    : PyResult unit := map_err receipt_error (verify_receipt_wal (pdr_inner r) sequence entry_hash).

Definition PyDecisionReceipt_verify_state (r : PyDecisionReceipt) (step : Z)
    (state_digest_before_hex state_digest_after_hex : string) : PyResult unit :=
  map_err receipt_error
    (verify_receipt_state (pdr_inner r) step state_digest_before_hex state_digest_after_hex).

Section receipts.
Context {HF : HashFunctions} {ED : Ed25519}.

Definition PyPolicySnapshot_issue_receipt (p : PyPolicySnapshot) (input : PyKernelInput)
    (decision : PyKernelDecision) (state : option PyReceiptState) (wal : option PyReceiptWal)
    : PyResult PyDecisionReceipt :=
  rust_input ← validate_input input;
  inner ← map_err receipt_error
            (issue_receipt (pp_inner p) rust_input (pd_inner decision)
               (mkReceiptAnchors (prs_inner <$> state) (prw_inner <$> wal)));
  Ok (mkPyDecisionReceipt inner).

Definition PyDecisionReceipt_sign (signing_key_bytes : list Z) (signer_id : string)
    (signed_at_epoch_ms : Z) (r : PyDecisionReceipt) : PyResult unit * PyDecisionReceipt :=
  match py_signing_key signing_key_bytes with
  | Err e => (Err e, r)
  | Ok key =>
      match sign_receipt (pdr_inner r) key signer_id signed_at_epoch_ms with
      | Ok inner => (Ok tt, mkPyDecisionReceipt inner)
      | Err e => (Err (receipt_error e), r)
      end
  end.

Definition PyDecisionReceipt_verify (r : PyDecisionReceipt) (snapshot : PyPolicySnapshot)
    (input : PyKernelInput) (decision : PyKernelDecision) : PyResult unit :=
  rust_input ← validate_input input;
  map_err receipt_error (verify_receipt (pdr_inner r) (pp_inner snapshot) rust_input (pd_inner decision)).

Definition PyDecisionReceipt_verify_signature (r : PyDecisionReceipt) (trusted_public_key : list Z)
    : PyResult unit :=
  trusted ← py_verifying_key trusted_public_key;
  map_err receipt_error (verify_receipt_signature (pdr_inner r) (Some trusted)).

Definition PyDecisionReceipt_verify_full (r : PyDecisionReceipt) (snapshot : PyPolicySnapshot)
    (input : PyKernelInput) (decision : PyKernelDecision) (trusted_public_key : list Z)
    (expected_state : PyReceiptState) (expected_wal : PyReceiptWal) : PyResult unit :=
  trusted ← py_verifying_key trusted_public_key;
  rust_input ← validate_input input;
  map_err receipt_error
    (verify_receipt_full (pdr_inner r) (pp_inner snapshot) rust_input (pd_inner decision) trusted
       (prs_inner expected_state) (prw_inner expected_wal)).

End receipts.

Section receipt_json.
Context {PS : PySerde} {S : Serde DecisionReceipt}.

Definition PyDecisionReceipt_to_json (r : PyDecisionReceipt) : PyResult string := serialized_text (pdr_inner r).
Definition PyDecisionReceipt_from_json (value : string) : PyResult PyDecisionReceipt :=
  inner ← parsed value;
  Ok (mkPyDecisionReceipt inner).
Definition PyDecisionReceipt_as_dict (r : PyDecisionReceipt) : PyResult PyDict := serialized_dict (pdr_inner r).

End receipt_json.

(** ** Log anchors and entries *)

Record PyWalAnchor := mkPyWalAnchor { pwa_inner : WalAnchor }.

Definition PyWalAnchor_schema_version (a : PyWalAnchor) : string := wa_schema_version (pwa_inner a).
Definition PyWalAnchor_sequence (a : PyWalAnchor) : Z := wa_sequence (pwa_inner a).
Definition PyWalAnchor_last_hash (a : PyWalAnchor) : string := wa_last_hash (pwa_inner a).
Definition PyWalAnchor_keyed (a : PyWalAnchor) : bool := wa_keyed (pwa_inner a).
Definition PyWalAnchor_as_dict `{PySerde} `{!Serde WalAnchor} (a : PyWalAnchor) : PyResult PyDict :=
  serialized_dict (pwa_inner a).
Definition PyWalAnchor_repr (a : PyWalAnchor) : string :=
  "WalAnchor(sequence=" +:+ show_int (wa_sequence (pwa_inner a))
  +:+ ", keyed=" +:+ show_bool (wa_keyed (pwa_inner a))
  +:+ ", last_hash='" +:+ preview (wa_last_hash (pwa_inner a)) +:+ "...')".

(** A call on files: the directory afterwards and the answer; [None] when the
    process stopped before it could answer. *)
Definition PyRun (A : Type) : Type := Dir * option (PyResult A).

Definition py_run {A} (r : Run A) : PyRun A :=
  (fst r, (fun answer => map_err persistence_error answer) <$> snd r).

Definition PyWalAnchor_save `{Artifact WalAnchor} (os : SaveOs) (a : PyWalAnchor) (path : string) (d : Dir)
    : PyRun unit := py_run (save_wal_anchor os (pwa_inner a) path d).

Definition PyWalAnchor_load `{Artifact WalAnchor} (path : string) (d : Dir) : PyResult PyWalAnchor :=
  inner ← map_err persistence_error (load_wal_anchor path d);
  Ok (mkPyWalAnchor inner).

Record PyWalEntry := mkPyWalEntry {
  pwe_sequence : Z;
  pwe_previous_hash : string;
  pwe_entry_hash : string
}.

Definition PyWalEntry_receipt_anchor (e : PyWalEntry) : PyReceiptWal :=
  mkPyReceiptWal (mkReceiptWal (pwe_sequence e) (pwe_entry_hash e)).
Definition PyWalEntry_as_dict (e : PyWalEntry) : PyDict :=
  []
  |> set_item "sequence" (pwe_sequence e)
  |> set_item "previous_hash" (pwe_previous_hash e)
  |> set_item "entry_hash" (pwe_entry_hash e).

(** ** [AuditedWal] *)

(** The object and the file it was opened on: while a writer is open the file
    is the writer's ([ww_file]) and its lock is taken; [aw_file] is the file
    once the writer is gone. *)
Record PyAuditedWal := mkPyAuditedWal {
  aw_inner : option WalWriter;
  aw_file : list Z
}.

Definition aw_contents (a : PyAuditedWal) : list Z :=
  match aw_inner a with Some w => ww_file w | None => aw_file a end.

Definition WAL_CLOSED : PyErr := mkPyErr Exc.WalError (MsgText "WAL writer is closed").

(** [writer] and [writer_mut]. *)
Definition writer (a : PyAuditedWal) : PyResult WalWriter := ok_or (aw_inner a) WAL_CLOSED.

Section audited.
Context {HF : HashFunctions} {JR : JsonReader}.

Definition PyAuditedWal_new (lock_free : bool) (file : list Z) (hmac_key : option (list Z))
    : PyResult PyAuditedWal :=
  inner ← match hmac_key with
          | Some key =>
              _ ← validate_hmac_key key;
              map_err wal_error (open_keyed lock_free file key)
          | None => map_err wal_error (open lock_free file)
          end;
  Ok (mkPyAuditedWal (Some inner) file).

Definition PyAuditedWal_sequence (a : PyAuditedWal) : PyResult Z := w ← writer a; Ok (ww_sequence w).
Definition PyAuditedWal_entry_count (a : PyAuditedWal) : PyResult Z := w ← writer a; Ok (ww_sequence w).
Definition PyAuditedWal_last_hash (a : PyAuditedWal) : PyResult string := w ← writer a; Ok (ww_last_hash w).

(** One call on the open writer, which stays in the object. *)
Definition on_writer {A} (f : WalWriter -> result Wal.WalError A * WalWriter) (a : PyAuditedWal)
    : PyResult A * PyAuditedWal :=
  match writer a with
  | Err e => (Err e, a)
  | Ok w =>
      let '(r, w') := f w in (map_err wal_error r, mkPyAuditedWal (Some w') (aw_file a))
  end.

Definition PyAuditedWal_append_verified {PS : PySerde} {J : WalJson (AuditedRecord Value)}
    (os : WriteOutcome) (snapshot : PyPolicySnapshot) (input : PyKernelInput)
    (decision : PyKernelDecision) (metadata_json : string) (a : PyAuditedWal)
    : PyResult PyWalEntry * PyAuditedWal :=
  match value_of_text metadata_json with
  | None => (Err (invalid_value MsgJson), a)
  | Some metadata =>
      match validate_input input with
      | Err e => (Err e, a)
      | Ok rust_input =>
          let '(r, a') :=
            on_writer (append_verified_audited os (pp_inner snapshot) rust_input (pd_inner decision) metadata) a in
          (entry ← r; Ok (mkPyWalEntry (we_sequence entry) (we_previous_hash entry) (we_entry_hash entry)), a')
      end
  end.

Definition PyAuditedWal_flush (os_ok : bool) (a : PyAuditedWal) : PyResult unit * PyAuditedWal :=
  on_writer (flush os_ok) a.
Definition PyAuditedWal_sync (os_ok : bool) (a : PyAuditedWal) : PyResult unit * PyAuditedWal :=
  on_writer (sync os_ok) a.
Definition PyAuditedWal_flush_and_sync (os_ok : bool) (a : PyAuditedWal) : PyResult unit * PyAuditedWal :=
  on_writer (flush_and_sync os_ok) a.

Definition PyAuditedWal_anchor (a : PyAuditedWal) : PyResult PyWalAnchor :=
  w ← writer a; Ok (mkPyWalAnchor (anchor w)).

(** The writer is taken out of the object before it is synced, so the object
    is closed even when that fails. *)
Definition PyAuditedWal_close (sync os_ok : bool) (a : PyAuditedWal) : PyResult unit * PyAuditedWal :=
  match aw_inner a with
  | None => (Ok tt, a)
  | Some w =>
      let closed := mkPyAuditedWal None (ww_file w) in
      if sync then (map_err wal_error (fst (flush_and_sync os_ok w)), closed) else (Ok tt, closed)
  end.

Definition PyAuditedWal_repr (a : PyAuditedWal) : string :=
  match aw_inner a with
  | Some w =>
      "AuditedWal(sequence=" +:+ show_int (ww_sequence w) +:+ ", keyed=" +:+ show_bool (wa_keyed (anchor w))
      +:+ ", last_hash='" +:+ preview (ww_last_hash w) +:+ "...')"
  | None => "AuditedWal(closed=True)"
  end.

(** ** Reading a log *)

Definition verify_audited_wal (file : list Z) (hmac_key : option (list Z)) (a : option PyWalAnchor)
    : PyResult (Z * string) :=
  _ ← validate_optional_key hmac_key;
  match hmac_key, a with
  | Some key, Some a => map_err wal_error (verify_wal_keyed_against_anchor file key (pwa_inner a))
  | Some key, None => map_err wal_error (verify_wal_keyed file key)
  | None, Some a => map_err wal_error (verify_wal_against_anchor file (pwa_inner a))
  | None, None => map_err wal_error (verify_wal file)
  end.

Definition verdict_to_dict (verdict : WalReplayVerdict) : PyDict :=
  []
  |> set_item "sequence" (rv_sequence verdict)
  |> set_item "replay_valid" (rv_replay_valid verdict)
  |> set_item "policy_digest_match" (rv_policy_digest_match verdict)
  |> set_item "input_digest_match" (rv_input_digest_match verdict)
  |> set_item "decision_digest_match" (rv_decision_digest_match verdict).

Definition replay_verify_audited_wal {PS : PySerde} {J : WalJson (AuditedRecord Value)} (file : list Z)
    (snapshot : PyPolicySnapshot) (hmac_key : option (list Z)) (max_entries max_total_bytes : Z)
    : PyResult (list PyDict) :=
  _ ← validate_optional_key hmac_key;
  verdicts ← map_err wal_error
               (replay_audited_wal_keyed_bounded file (pp_inner snapshot) hmac_key max_entries max_total_bytes);
  Ok (map verdict_to_dict verdicts).

(** ** Checkpoints and recovery *)

Context {AS : Artifact BudgetSnapshot} {AA : Artifact WalAnchor} {AM : Artifact CheckpointManifest}.
Context {PS : PySerde} {SB : Serde BudgetSnapshot}.

Definition plan_recovery {V} (value : list Z -> option (WalEntry V)) (snapshot_path : string) (d : Dir)
    (wal : list Z) (hmac_key : option (list Z)) (a : option PyWalAnchor) : PyResult PyDict :=
  _ ← validate_optional_key hmac_key;
  plan ← map_err persistence_error
           match hmac_key, a with
           | Some key, Some a => recovery_plan_keyed_against_anchor value snapshot_path d wal key (pwa_inner a)
           | Some key, None => recovery_plan_keyed value snapshot_path d wal key
           | None, Some a => recovery_plan_against_anchor value snapshot_path d wal (pwa_inner a)
           | None, None => recovery_plan value snapshot_path d wal
           end;
  snapshot ← serialized_dict (rp_snapshot plan);
  Ok
    ([]
     |> set_item "total_wal_entries" (rp_total_wal_entries plan)
     |> set_item "entries_to_replay" (rp_entries_to_replay plan)
     |> set_item "wal_high_watermark" (rp_wal_high_watermark plan)
     |> set_item "snapshot" snapshot).

(** The dict of the snapshot a call on files answered with. *)
Definition snapshot_answer (r : Run BudgetSnapshot) : PyRun PyDict :=
  let '(d, answer) := py_run r in
  (d, (fun answer => snapshot ← answer; serialized_dict snapshot) <$> answer).

Definition PyBudgetEngine_migrate_legacy_snapshot_file (fs : FileSystem) (os : SaveOs)
    (source destination : string) (trusted_next_reservation_id : Z) (d : Dir) : PyRun PyDict :=
  snapshot_answer (migrate_legacy_snapshot_file fs os source destination trusted_next_reservation_id d).

Definition PyBudgetEngine_checkpoint (os : SaveOs) (path : string) (d : Dir) (e : PyBudgetEngine)
    : PyBudgetEngine * PyRun PyDict :=
  let '(inner, r) := checkpoint os (pe_inner e) path d in (mkPyBudgetEngine inner, snapshot_answer r).

Definition PyBudgetEngine_checkpoint_with_wal (os : SaveOs) (path : string) (wal_sequence : Z) (d : Dir)
    (e : PyBudgetEngine) : PyBudgetEngine * PyRun PyDict :=
  let '(inner, r) := checkpoint_with_wal os (pe_inner e) path wal_sequence d in
  (mkPyBudgetEngine inner, snapshot_answer r).

Definition PyBudgetEngine_restore (path : string) (d : Dir) (e : PyBudgetEngine)
    : PyResult PyDict * PyBudgetEngine :=
  let '(r, inner) := restore (pe_inner e) path d in
  (snapshot ← map_err persistence_error r; serialized_dict snapshot, mkPyBudgetEngine inner).

End audited.

(** ** Registration *)

(** The names [register] adds to the module. *)
Definition register : list string :=
  ["CalybrisError"; "ArtifactValidationError"; "DecisionVerificationError"; "ReceiptError";
   "ProvenanceError"; "WalError"; "PersistenceError"; "StateTrajectoryError"; "StateTransition";
   "StatefulAuditBundle"; "StateChain"; "ReceiptState"; "ReceiptWal"; "SignedPolicy";
   "DecisionReceipt"; "WalAnchor"; "WalEntry"; "AuditedWal"; "verify_audited_wal";
   "replay_verify_audited_wal"; "verify_state_trajectory"; "verify_complete_state_trajectory";
   "verify_state_trajectory_fragment"; "plan_recovery"; "public_key_from_signing_key"].

(** ** A concrete JSON

    An instance of [PySerde] and [Serde] in which a value is the bits of its
    code and [json.loads] wraps the text in a dict. *)

Definition bits_text (p : positive) : string := string_of_bytes (pos_bits p).

Lemma bits_text_read p : bits_pos (string_bytes (bits_text p)) = p.
Proof.
  unfold bits_text. rewrite string_bytes_of_bytes; [apply bits_pos_bits|].
  eapply List.Forall_impl; [|apply pos_bits_ascii]. unfold is_byte, is_u, umax. simpl. lia.
Qed.

#[export] Instance toy_pyserde : PySerde := {|
  Value := positive;
  value_of_text s := Some (bits_pos (string_bytes s));
  text_of_value v := Some (bits_text v);
  loads s := Ok (PyDictionary [("json", PyStr s)])
|}.

#[export] Instance toy_serde {A} `{Countable A} : Serde A.
Proof.
  refine {| to_value v := Some (encode v); to_text v := Some (bits_text (encode v));
            of_text s := decode (bits_pos (string_bytes s)) |}.
  intros v s [= <-]. by rewrite bits_text_read, decode_encode.
Defined.
