(* ===== verification/PyHeap.v ===== *)
(** * Python programs and the decision kernel

    A Python program holds references to objects of [calybris._core], passes
    them to methods and assigns to the attributes of models and requests, which
    other variables may share. Here a program is a sequence of calls on a heap
    of objects. What the binding copies stays as it was: a policy keeps the
    models it was built from, a decision is what the kernel made of the request
    at the time of the call, and nothing else makes a decision object. *)

From Stdlib Require Import String.
From S2P Require Import Prelude Bytes Text Crypto Kernel KernelPricing KernelRank KernelProps KernelPolicy Digest Verify Counterfactual Outcome Budget Finance State Receipt Certificate Wal Persistence Python.
#[local] Open Scope string_scope.
#[local] Open Scope list_scope.
#[local] Open Scope Z_scope.

(** ** The heap *)

Inductive PyObject :=
| OModel (m : PyKernelModel)
| OInput (i : PyKernelInput)
| OPolicy (p : PyPolicySnapshot)
| ODecision (d : PyKernelDecision).

Abbreviation ref := nat.
Abbreviation heap := (list PyObject).

(** An argument of another class is refused with [TypeError], an attribute
    that does not exist with [AttributeError]. *)
Definition wrong_class : PyErr := mkPyErr Exc.TypeError (MsgText "argument").
Definition no_attribute : PyErr := mkPyErr Exc.AttributeError (MsgText "attribute").

Definition get_model (h : heap) (r : ref) : PyResult PyKernelModel :=
  match h !! r with Some (OModel m) => Ok m | _ => Err wrong_class end.
Definition get_input (h : heap) (r : ref) : PyResult PyKernelInput :=
  match h !! r with Some (OInput i) => Ok i | _ => Err wrong_class end.
Definition get_policy (h : heap) (r : ref) : PyResult PyPolicySnapshot :=
  match h !! r with Some (OPolicy p) => Ok p | _ => Err wrong_class end.

Fixpoint get_all {A} (get : ref -> PyResult A) (rs : list ref) : PyResult (list A) :=
  match rs with
  | [] => Ok []
  | r :: rs' => a ← get r; l ← get_all get rs'; Ok (a :: l)
  end.

(** ** Calls *)

Inductive pcall :=
| NewModel (m : PyKernelModel)
| SetModel (r : ref) (name : string) (v : Z)
| NewInput (i : PyKernelInput)
| SetInput (r : ref) (name : string) (v : Z)
| NewPolicy (policy_epoch catalog_epoch hard_risk_limit_bps minimum_confidence_bps
             risk_penalty_multiplier_bps latency_penalty_microunits_per_ms : Z) (models : list ref)
| PolicyModels (p : ref)
| Prescribe (p i : ref)
| PrescribeWithTrace (p i : ref)
| PrescribeBatch (p : ref) (inputs : list ref).

(** A call answers with the objects it made, or raises. *)
Definition alloc (os : list PyObject) (h : heap) : PyResult (list ref) * heap :=
  (Ok (seq (length h) (length os)), h ++ os).

Definition made (r : PyResult (list PyObject)) (h : heap) : PyResult (list ref) * heap :=
  match r with Ok os => alloc os h | Err e => (Err e, h) end.

Definition assigned (r : ref) (o : PyResult PyObject) (h : heap) : PyResult (list ref) * heap :=
  match o with Ok o => (Ok [], <[r := o]> h) | Err e => (Err e, h) end.

Definition py_step (c : pcall) (h : heap) : PyResult (list ref) * heap :=
  match c with
  | NewModel m => made (Ok [OModel m]) h
  | SetModel r name v =>
      assigned r (m ← get_model h r; m' ← ok_or (PyKernelModel_setattr name v m) no_attribute; Ok (OModel m')) h
  | NewInput i =>
      made (i ← PyKernelInput_new (pi_request_sequence i) (pi_requested_model_id i) (pi_input_tokens i)
                  (pi_output_tokens i) (pi_business_value_microunits i) (pi_budget_limit_microunits i)
                  (pi_risk_bps i) (pi_confidence_bps i) (pi_minimum_quality_bps i)
                  (pi_max_p95_latency_ms i) (pi_required_capabilities i) (pi_allowed_provider_mask i)
                  (pi_required_region_mask i);
            Ok [OInput i]) h
  | SetInput r name v =>
      assigned r (i ← get_input h r; i' ← ok_or (PyKernelInput_setattr name v i) no_attribute; Ok (OInput i')) h
  | NewPolicy pe ce hr mc rm lp models =>
      made (ms ← get_all (get_model h) models; p ← PyPolicySnapshot_new pe ce hr mc rm lp ms; Ok [OPolicy p]) h
  | PolicyModels p => made (p ← get_policy h p; Ok (map OModel (PyPolicySnapshot_models p))) h
  | Prescribe p i =>
      made (p ← get_policy h p; i ← get_input h i; d ← PyPolicySnapshot_prescribe p i; Ok [ODecision d]) h
  | PrescribeWithTrace p i =>
      made (p ← get_policy h p; i ← get_input h i;
            dt ← PyPolicySnapshot_prescribe_with_trace p i; Ok [ODecision (fst dt)]) h
  | PrescribeBatch p inputs =>
      made (p ← get_policy h p; xs ← get_all (get_input h) inputs;
            ds ← PyPolicySnapshot_prescribe_batch p xs; Ok (map ODecision ds)) h
  end.

Fixpoint py_program (cs : list pcall) (h : heap) : list (PyResult (list ref)) * heap :=
  match cs with
  | [] => ([], h)
  | c :: cs' =>
      let '(a, h1) := py_step c h in let '(rest, h2) := py_program cs' h1 in (a :: rest, h2)
  end.

(** The integers PyO3 accepts for an attribute. *)
Definition model_attr (name : string) (v : Z) : Prop :=
  if bool_decide (name ∈ ["model_id"; "p95_latency_ms"]) then is_u 32 v
  else if bool_decide (name ∈ ["provider_id"; "quality_bps"; "risk_ceiling_bps"]) then is_u 16 v
  else if bool_decide (name = "enabled") then is_u 8 v
  else is_u 64 v.

Definition input_attr (name : string) (v : Z) : Prop :=
  if bool_decide (name ∈ ["requested_model_id"; "input_tokens"; "output_tokens"; "max_p95_latency_ms"])
  then is_u 32 v
  else if bool_decide (name ∈ ["risk_bps"; "confidence_bps"; "minimum_quality_bps"]) then is_u 16 v
  else if bool_decide (name = "business_value_microunits") then is_i 64 v
  else is_u 64 v.

Definition pcall_typed (c : pcall) : Prop :=
  match c with
  | NewModel m => model_typed (model_from_py m)
  | SetModel _ name v => model_attr name v
  | NewInput i => input_typed (input_from_py i)
  | SetInput _ name v => input_attr name v
  | NewPolicy pe ce hr mc rm lp _ =>
      is_u 64 pe /\ is_u 64 ce /\ is_u 16 hr /\ is_u 16 mc /\ is_u 16 rm /\ is_u 64 lp
  | _ => True
  end.

#[export] Instance pcall_typed_dec c : Decision (pcall_typed c).
Proof. destruct c; simpl; unfold model_attr, input_attr; repeat case_match; apply _. Defined.

(** ** Attributes *)

(** An assignment, one attribute name at a time. *)
Ltac by_name H :=
  repeat match type of H with
  | (if String.eqb ?n ?s then _ else _) = _ =>
      destruct (String.eqb_spec n s) as [->|?]; [injection H as <-|]
  end; [..|done].

Lemma setattr_model_typed name v m m' :
  PyKernelModel_setattr name v m = Some m' -> model_attr name v ->
  model_typed (model_from_py m) -> model_typed (model_from_py m').
Proof.
  destruct m. unfold PyKernelModel_setattr. intros H Hv (?&?&?&?&?&?&?&?&?&?).
  by_name H; by split_and!.
Qed.

Lemma setattr_input_typed name v i i' :
  PyKernelInput_setattr name v i = Some i' -> input_attr name v ->
  input_typed (input_from_py i) -> input_typed (input_from_py i').
Proof.
  destruct i. unfold PyKernelInput_setattr. intros H Hv (?&?&?&?&?&?&?&?&?&?&?&?&?).
  by_name H; by split_and!.
Qed.

(** ** The invariant *)

Definition made_by (p : PyPolicySnapshot) (i : PyKernelInput) (d : PyKernelDecision) : Prop :=
  input_typed (input_from_py i) /\ PyPolicySnapshot_prescribe p i = Ok d.

Definition object_ok (h : heap) (o : PyObject) : Prop :=
  match o with
  | OModel m => model_typed (model_from_py m)
  | OInput i => input_typed (input_from_py i)
  | OPolicy p => trusted (pp_inner p)
  | ODecision d => exists rp p i, h !! rp = Some (OPolicy p) /\ made_by p i d
  end.

Definition heap_ok (h : heap) : Prop := forall r o, h !! r = Some o -> object_ok h o.

(** The objects no call changes. *)
Definition frozen (o : PyObject) : bool :=
  match o with OPolicy _ | ODecision _ => true | _ => false end.

Lemma get_model_Ok h r m : get_model h r = Ok m -> h !! r = Some (OModel m).
Proof. unfold get_model. by destruct (h !! r) as [[]|]; intros [= ->]. Qed.
Lemma get_input_Ok h r i : get_input h r = Ok i -> h !! r = Some (OInput i).
Proof. unfold get_input. by destruct (h !! r) as [[]|]; intros [= ->]. Qed.
Lemma get_policy_Ok h r p : get_policy h r = Ok p -> h !! r = Some (OPolicy p).
Proof. unfold get_policy. by destruct (h !! r) as [[]|]; intros [= ->]. Qed.

Lemma get_all_Forall {A} (get : ref -> PyResult A) (Q : A -> Prop) rs : forall l,
  (forall r a, get r = Ok a -> Q a) -> get_all get rs = Ok l -> Forall Q l.
Proof.
  induction rs as [|r rs IH]; intros l HQ; cbn [get_all]; [by intros [= <-]; constructor|].
  intros H. open_results. constructor; eauto.
Qed.

(** Open an answer and the lookups behind it. *)
Ltac by_open H :=
  open_results;
  repeat match goal with
  | H : get_model _ _ = Ok _ |- _ => apply get_model_Ok in H
  | H : get_input _ _ = Ok _ |- _ => apply get_input_Ok in H
  | H : get_policy _ _ = Ok _ |- _ => apply get_policy_Ok in H
  end.

(** ** One call *)

(** A frozen object is never the target of an assignment. *)
Lemma assigned_keeps r x h a h' : assigned r x h = (a, h') ->
  (forall o, x = Ok o -> exists old, h !! r = Some old /\ frozen old = false) ->
  forall q o, h !! q = Some o -> frozen o = true -> h' !! q = Some o.
Proof.
  intros H Hr q o Hq Hf. destruct x as [new|e]; simpl in H; injection H as <- <-; [|done].
  destruct (Hr new eq_refl) as (old & Hold & Hnf). rewrite list_lookup_insert_ne; [done|]. congruence.
Qed.

Lemma made_keeps x h a h' : made x h = (a, h') -> forall q o, h !! q = Some o -> h' !! q = Some o.
Proof.
  intros H q o Hq. destruct x as [os|e]; simpl in H; injection H as <- <-; [|done].
  rewrite lookup_app_l; [done|]. by eapply lookup_lt_Some.
Qed.

Lemma py_step_keeps c h a h' : py_step c h = (a, h') ->
  forall q o, h !! q = Some o -> frozen o = true -> h' !! q = Some o.
Proof.
  destruct c; cbn [py_step]; intros Hs q o Hq Hf; try by eapply made_keeps.
  - eapply assigned_keeps; [exact Hs| |done..]. intros x Hx. open_results. eauto using get_model_Ok.
  - eapply assigned_keeps; [exact Hs| |done..]. intros x Hx. open_results. eauto using get_input_Ok.
Qed.

Lemma object_ok_mono h h' o :
  (forall q x, h !! q = Some x -> frozen x = true -> h' !! q = Some x) -> object_ok h o -> object_ok h' o.
Proof. intros Hk. destruct o; simpl; try done. intros (rp & p & i & Hp & Hm). exists rp, p, i. eauto. Qed.

Lemma assigned_ok r x h a h' : assigned r x h = (a, h') -> heap_ok h ->
  (forall q o, h !! q = Some o -> frozen o = true -> h' !! q = Some o) ->
  (forall o, x = Ok o -> object_ok h o) -> heap_ok h'.
Proof.
  intros H Hok Hk Hx q o Hq. destruct x as [new|e]; simpl in H; injection H as <- <-; [|by apply Hok in Hq].
  eapply object_ok_mono; [exact Hk|].
  apply list_lookup_insert_Some in Hq as [(_ & -> & _)|[_ Hq]]; eauto.
Qed.

Lemma made_ok x h a h' : made x h = (a, h') -> heap_ok h ->
  (forall os, x = Ok os -> Forall (object_ok h) os) -> heap_ok h'.
Proof.
  intros H Hok Hx q o Hq. eapply object_ok_mono; [intros; by eapply made_keeps|].
  destruct x as [os|e]; simpl in H; injection H as <- <-; [|by eapply Hok].
  apply lookup_app_Some in Hq as [Hq|[_ Hq]]; [by eapply Hok|].
  specialize (Hx os eq_refl). rewrite list.Forall_forall in Hx. eapply Hx, list_elem_of_lookup_2, Hq.
Qed.

(** [collect] of the validated requests: every one is valid. *)
Lemma validate_inputs_Ok inputs : forall l, validate_inputs inputs = Ok l ->
  l = map input_from_py inputs /\ Forall (fun i => KernelInput_validate (input_from_py i) = Ok tt) inputs.
Proof.
  induction inputs as [|i inputs IH]; intros l; cbn [validate_inputs]; [by intros [= <-]|].
  intros H. open_results. unfold validate_input in *. open_results.
  match goal with H : validate_inputs _ = Ok _ |- _ => apply IH in H as [-> ?] end. simpl. eauto.
Qed.

Lemma prescribe_valid p i : KernelInput_validate (input_from_py i) = Ok tt ->
  PyPolicySnapshot_prescribe p i = Ok (decision_to_py (prescribe (pp_inner p) (input_from_py i))).
Proof. intros H. unfold PyPolicySnapshot_prescribe. by rewrite H. Qed.

(** What each call that decides makes. *)
Lemma decided h rp p i d : h !! rp = Some (OPolicy p) -> input_typed (input_from_py i) ->
  KernelInput_validate (input_from_py i) = Ok tt ->
  d = decision_to_py (prescribe (pp_inner p) (input_from_py i)) -> object_ok h (ODecision d).
Proof. intros Hp Ht Hv ->. exists rp, p, i. split; [done|]. split; [done|by apply prescribe_valid]. Qed.

Lemma policy_made pe ce hr mc rm lp ms p :
  is_u 64 pe /\ is_u 64 ce /\ is_u 16 hr /\ is_u 16 mc /\ is_u 16 rm /\ is_u 64 lp ->
  Forall (fun m => model_typed (model_from_py m)) ms ->
  PyPolicySnapshot_new pe ce hr mc rm lp ms = Ok p -> trusted (pp_inner p).
Proof.
  intros Ht Hm. unfold PyPolicySnapshot_new. destruct (try_new_trusted _ _ _ _ _ _ _) eqn:E; [|done].
  intros [= <-]. eapply try_new_trusted_sound; [exact Ht| |exact E]. by apply List.Forall_map.
Qed.

Lemma model_to_from m : model_from_py (model_to_py m) = m.
Proof. by destruct m. Qed.

Lemma policy_models_typed p : trusted (pp_inner p) ->
  Forall (fun m => model_typed (model_from_py m)) (PyPolicySnapshot_models p).
Proof.
  intros (_ & (_ & Hm & _) & _). unfold PyPolicySnapshot_models. rewrite List.Forall_map.
  eapply List.Forall_impl; [|exact Hm]. intros m. simpl. by rewrite model_to_from.
Qed.

Lemma py_step_ok c h a h' : py_step c h = (a, h') -> pcall_typed c -> heap_ok h -> heap_ok h'.
Proof.
  intros Hs Ht Hok. pose proof (py_step_keeps c h a h' Hs) as Hk.
  assert (forall r i, h !! r = Some (OInput i) -> input_typed (input_from_py i)) as Hin
    by (intros r i Hi; exact (Hok r _ Hi)).
  destruct c as [m|r name v|i|r name v|pe ce hr mc rm lp models|rp|rp ri|rp ri|rp inputs];
    cbn [py_step] in Hs;
    (eapply made_ok; [exact Hs|done|]) || (eapply assigned_ok; [exact Hs|done|exact Hk|]);
    intros os Hos; by_open Hos.
  - by constructor.
  - eapply setattr_model_typed; [eassumption|done|]. by eapply (Hok r (OModel _)).
  - unfold PyKernelInput_new in *. open_results. constructor; [|done]. by destruct i.
  - eapply setattr_input_typed; [eassumption|done|]. eauto.
  - constructor; [|done]. eapply policy_made; [exact Ht| |eassumption].
    eapply get_all_Forall; [|eassumption]. intros r m Hm%get_model_Ok. by apply (Hok r (OModel m)).
  - apply List.Forall_map. eapply policy_models_typed, (Hok rp (OPolicy _)). eassumption.
  - unfold PyPolicySnapshot_prescribe in *. open_results. constructor; [|done]. eapply decided; eauto.
  - unfold PyPolicySnapshot_prescribe_with_trace, prescribe_with_trace in *. open_results.
    destruct (prescribe_inner _ _) as [d hist] eqn:E. open_results. constructor; [|done].
    eapply decided; eauto. simpl. unfold prescribe. by rewrite E.
  - unfold PyPolicySnapshot_prescribe_batch in *. open_results.
    match goal with H : validate_inputs _ = Ok _ |- _ => apply validate_inputs_Ok in H as [-> Hv] end.
    unfold prescribe_batch. rewrite !map_map. apply List.Forall_map, list.Forall_forall. intros i Hi.
    rewrite list.Forall_forall in Hv. eapply decided; eauto.
    match goal with H : get_all _ _ = Ok _ |- _ =>
      eapply (get_all_Forall _ (fun i => input_typed (input_from_py i))) in H end;
      [|intros q y Hy%get_input_Ok; eauto].
    match goal with H : Forall _ _ |- _ => rewrite list.Forall_forall in H; by apply H end.
Qed.

Lemma py_program_ok cs : forall h answers h', py_program cs h = (answers, h') ->
  Forall pcall_typed cs -> heap_ok h -> heap_ok h'.
Proof.
  induction cs as [|c cs IH]; intros h answers h'; cbn [py_program]; [by intros [= <- <-]|].
  intros H [Hc Hcs]%list.Forall_cons Hok. destruct (py_step c h) as [a h1] eqn:E.
  destruct (py_program cs h1) as [rest h2] eqn:E2. injection H as <- <-.
  eapply IH; [exact E2|done|]. by eapply py_step_ok.
Qed.

Lemma py_program_keeps cs : forall h answers h', py_program cs h = (answers, h') ->
  forall q o, h !! q = Some o -> frozen o = true -> h' !! q = Some o.
Proof.
  induction cs as [|c cs IH]; intros h answers h'; cbn [py_program]; [by intros [= <- <-]|].
  destruct (py_step c h) as [a h1] eqn:E. destruct (py_program cs h1) as [rest h2] eqn:E2.
  intros [= <- <-] q o Hq Hf. eapply IH; [exact E2| |done]. by eapply py_step_keeps.
Qed.

(** ** Theorems *)

Section claims.
Context {HF : HashFunctions}.

Lemma made_verifies p i d : made_by p i d ->
  PyPolicySnapshot_verify_status p i d = Ok "valid" /\
  PyPolicySnapshot_verify p i d = Ok [("status", PyStr "valid")] /\
  exists b, PyPolicySnapshot_verified_audit_bundle p i d = Ok b /\
    get_item "replay_valid" b = Some (PyBool true).
Proof.
  unfold made_by, PyPolicySnapshot_prescribe, PyPolicySnapshot_verify_status, PyPolicySnapshot_verify,
    PyPolicySnapshot_verified_audit_bundle, validate_input, verified_audit_bundle.
  intros [_ H]. open_results. match goal with H : KernelInput_validate _ = Ok _ |- _ => rewrite H end.
  cbn [map_err mbind result_bind pd_inner decision_to_py]. rewrite verify_decision_spec, bool_decide_true by done.
  split; [done|]. split; [done|]. eexists. split; [reflexivity|].
  cbn -[bool_decide]. unfold audit_bundle. simpl. by rewrite bool_decide_true.
Qed.

(** Claim C21: Decision objects are genuine. Whatever a Python program does with
    models, requests, policies and decisions, sharing and assigning to them as
    it likes, every decision object it ends up with was made by the kernel from
    a trusted policy that the program still holds and a valid request: asking
    that policy again for that request gives the same decision, and verifying
    it there reports valid, with an audit bundle whose replay flag is true. *)
Theorem decision_objects_genuine cs answers h r d :
  Forall pcall_typed cs -> py_program cs [] = (answers, h) -> h !! r = Some (ODecision d) ->
  exists rp p i, h !! rp = Some (OPolicy p) /\ trusted (pp_inner p) /\
    input_typed (input_from_py i) /\ PyPolicySnapshot_prescribe p i = Ok d /\
    PyPolicySnapshot_verify_status p i d = Ok "valid" /\
    PyPolicySnapshot_verify p i d = Ok [("status", PyStr "valid")] /\
    exists b, PyPolicySnapshot_verified_audit_bundle p i d = Ok b /\
      get_item "replay_valid" b = Some (PyBool true).
Proof.
  intros Hcs Hrun Hd. assert (heap_ok h) as Hok by by eapply py_program_ok.
  destruct (Hok r _ Hd) as (rp & p & i & Hp & Hm). exists rp, p, i.
  destruct (made_verifies p i d Hm) as (? & ? & ?). destruct Hm. split_and!; try done. exact (Hok rp _ Hp).
Qed.

End claims.

(** No call reaches into a policy or a decision. An object of these
    classes is the same after any further calls: assigning to the models a
    policy was built from, to the models it hands out, or to the request a
    decision was made for changes neither, and a call that raises changes
    nothing at all. *)
Theorem policies_and_decisions_keep cs1 cs2 a1 a2 h1 h2 :
  py_program cs1 [] = (a1, h1) -> py_program cs2 h1 = (a2, h2) ->
  (forall r p, h1 !! r = Some (OPolicy p) -> h2 !! r = Some (OPolicy p)) /\
  (forall r d, h1 !! r = Some (ODecision d) -> h2 !! r = Some (ODecision d)) /\
  (forall c e h3, py_step c h2 = (Err e, h3) -> h3 = h2).
Proof.
  intros _ H2. split_and!; [by intros; eapply py_program_keeps..|].
  intros c e h3. destruct c; cbn [py_step];
    match goal with |- context [made ?x _] => destruct x | |- context [assigned _ ?x _] => destruct x end;
    by intros [= -> ->].
Qed.

(** ** A program *)

Definition input_to_py (i : KernelInput) : PyKernelInput :=
  mkPyKernelInput (ki_request_sequence i) (ki_requested_model_id i) (ki_input_tokens i) (ki_output_tokens i)
    (ki_business_value_microunits i) (ki_budget_limit_microunits i) (ki_risk_bps i) (ki_confidence_bps i)
    (ki_minimum_quality_bps i) (ki_max_p95_latency_ms i) (ki_required_capabilities i)
    (ki_allowed_provider_mask i) (ki_required_region_mask i).

Definition sample_py_input : PyKernelInput := input_to_py sample_input.

(** It builds a policy, decides, then disables the model and spoils the
    request it shared with both, and asks again. *)
Definition sample_program : list pcall :=
  [NewModel (model_to_py sample_model_10); NewModel (model_to_py sample_model_20);
   NewPolicy 7 11 9600 5500 10000 2 [1; 0]%nat; NewInput sample_py_input; Prescribe 2 3;
   SetModel 0 "enabled" 0; SetInput 3 "risk_bps" 20000; Prescribe 2 3; PolicyModels 2;
   SetModel 5 "quality_bps" 1].

Definition sample_heap : heap := snd (py_program sample_program []).

Example sample_answers :
  fst (py_program sample_program []) =
  [Ok [0%nat]; Ok [1%nat]; Ok [2%nat]; Ok [3%nat]; Ok [4%nat]; Ok []; Ok [];
   Err (value_error (MsgInput (InputError_OutOfRangeBps "risk_bps" 20000 10000))); Ok [5%nat; 6%nat]; Ok []].
Proof. vm_compute. reflexivity. Qed.

Lemma sample_decision :
  sample_heap !! 4%nat = Some (ODecision (decision_to_py (prescribe sample_policy sample_input))).
Proof. vm_compute. reflexivity. Qed.

Lemma decision_objects_genuine_witness :
  exists rp p i, sample_heap !! rp = Some (OPolicy p) /\
    PyPolicySnapshot_prescribe p i = Ok (decision_to_py (prescribe sample_policy sample_input)) /\
    @PyPolicySnapshot_verify_status toy_hash p i (decision_to_py (prescribe sample_policy sample_input))
    = Ok "valid".
Proof.
  destruct (@decision_objects_genuine toy_hash sample_program (fst (py_program sample_program [])) sample_heap
              4%nat (decision_to_py (prescribe sample_policy sample_input)))
    as (rp & p & i & Hp & _ & _ & Hd & Hv & _).
  - by_compute.
  - apply surjective_pairing.
  - exact sample_decision.
  - exists rp, p, i. exact (conj Hp (conj Hd Hv)).
Defined.

Lemma policies_and_decisions_keep_witness :
  sample_heap !! 2%nat = Some (OPolicy (mkPyPolicySnapshot sample_policy)).
Proof.
  apply (proj1 (policies_and_decisions_keep (take 5 sample_program) (drop 5 sample_program)
                  (fst (py_program (take 5 sample_program) [])) (fst (py_program (drop 5 sample_program)
                     (snd (py_program (take 5 sample_program) []))))
                  (snd (py_program (take 5 sample_program) [])) sample_heap
                  (surjective_pairing _) ltac:(vm_compute; reflexivity))).
  vm_compute. reflexivity.
Defined.
