(* ===== verification/PyBudget.v ===== *)
(** * The budget engine from Python

    Histories of calls on one [BudgetEngine] object and a directory of
    checkpoint files, whatever those hold: the engine stays reachable in the
    sense of [BudgetProps], so the conservation it reports is the conservation
    it has. And the dicts the binding answers with are read back, by the names
    that the Python package documents, as the answers they are made from. *)

From Stdlib Require Import String.
From S2P Require Import Prelude Bytes Text Crypto Kernel Digest Verify Counterfactual Outcome Budget BudgetInv BudgetSpec BudgetProps Finance State Receipt Certificate Wal Persistence WalSample PersistenceProps Recovery Python PyProduction.
#[local] Open Scope string_scope.
#[local] Open Scope list_scope.
#[local] Open Scope Z_scope.

(** ** Histories *)

Inductive bcall :=
| BEnsure (t : string) (n : Z)
| BSetCap (t : string) (m : Z)
| BTopUp (t : string) (a : Z)
| BReserve (t : string) (c : Z)
| BCommit (id a : Z)
| BRelease (id : Z)
| BVerifyConservation
| BSnapshot
| BProve
| BCertify
| BCheckpoint (os : SaveOs) (path : string)
| BCheckpointWithWal (os : SaveOs) (path : string) (sequence : Z)
| BRestore (path : string).

Definition bcall_typed (c : bcall) : Prop :=
  match c with
  | BEnsure _ z | BSetCap _ z | BTopUp _ z | BReserve _ z | BCommit _ z => is_i 64 z
  | _ => True
  end.
#[export] Instance bcall_typed_dec c : Decision (bcall_typed c).
Proof. destruct c; simpl; apply _. Defined.

Section histories.
Context {HF : HashFunctions} {JR : JsonReader} {AS : Artifact BudgetSnapshot} {AA : Artifact WalAnchor}
  {AM : Artifact CheckpointManifest} {PS : PySerde} {SB : Serde BudgetSnapshot}.

(** What a call answers, [None] when the process stops in it. *)
Abbreviation answer := (option (PyResult PyValue)).

Definition answered {A} `{IntoPy A} (r : PyResult A) : answer := Some (v ← r; Ok (into_py v)).
Definition done_with (r : PyResult unit) : answer := Some (_ ← r; Ok PyNone).

Definition budget_call (c : bcall) (e : PyBudgetEngine) (d : Dir) : answer * PyBudgetEngine * Dir :=
  match c with
  | BEnsure t n => let '(r, e') := PyBudgetEngine_ensure_tenant t n e in (done_with r, e', d)
  | BSetCap t m => let '(r, e') := PyBudgetEngine_set_max_reserved_microcents t m e in (done_with r, e', d)
  | BTopUp t a => let '(r, e') := PyBudgetEngine_top_up_tenant t a e in (answered (Ok r), e', d)
  | BReserve t c => let '(r, e') := PyBudgetEngine_try_reserve t c e in (answered (Ok r), e', d)
  | BCommit id a => let '(r, e') := PyBudgetEngine_commit id a e in (answered (Ok r), e', d)
  | BRelease id => let '(r, e') := PyBudgetEngine_release id e in (answered (Ok r), e', d)
  | BVerifyConservation => let '(r, e') := PyBudgetEngine_verify_conservation e in (answered r, e', d)
  | BSnapshot => let '(r, e') := PyBudgetEngine_snapshot e in (answered r, e', d)
  | BProve => let '(r, e') := PyBudgetEngine_prove_conservation e in (answered r, e', d)
  | BCertify => let '(r, e') := PyBudgetEngine_certify e in (answered r, e', d)
  | BCheckpoint os path =>
      let '(e', (d', r)) := PyBudgetEngine_checkpoint os path d e in
      (r ≫= answered, e', d')
  | BCheckpointWithWal os path sequence =>
      let '(e', (d', r)) := PyBudgetEngine_checkpoint_with_wal os path sequence d e in
      (r ≫= answered, e', d')
  | BRestore path => let '(r, e') := PyBudgetEngine_restore path d e in (answered r, e', d)
  end.

Fixpoint budget_program (cs : list bcall) (e : PyBudgetEngine) (d : Dir)
    : list answer * PyBudgetEngine * Dir :=
  match cs with
  | [] => ([], e, d)
  | c :: cs' =>
      let '(a, e1, d1) := budget_call c e d in
      let '(rest, e2, d2) := budget_program cs' e1 d1 in (a :: rest, e2, d2)
  end.

(** ** Every engine of a history is reachable *)

Lemma reach_snapshot e : reachable e -> reachable (snd (try_snapshot e)).
Proof.
  intros He. pose proof (reach_run OpSnapshot e I He) as H. simpl in H. by destruct (try_snapshot e).
Qed.

Lemma snapshot_totals_i64 s i c : snapshot_totals s = Ok (i, c) -> is_i 64 c.
Proof.
  unfold snapshot_totals. intros H. open_results.
  repeat match goal with H : checked_i _ _ = Some _ |- _ => apply checked_i_Some in H as [-> ?] end. done.
Qed.

Lemma reach_certified e cert e' : reachable e -> certify_ledger e = Some (cert, e') -> reachable e'.
Proof.
  intros He%reach_snapshot. unfold certify_ledger. destruct (try_snapshot e) as [[s|x] e1]; [|done]. simpl in He.
  destruct (snapshot_totals s) as [[i c]|x] eqn:Et; simpl; [|by intros [= <- <-]].
  destruct (rotate_certificate_baseline c e1) as [delta e2] eqn:Er. intros [= <- <-].
  pose proof (reach_run (OpRotate c) e1 (snapshot_totals_i64 s i c Et) He) as H. simpl in H. by rewrite Er in H.
Qed.

Lemma reach_proved e r e' : reachable e -> prove_conservation e = Some (r, e') -> reachable e'.
Proof.
  intros He%reach_snapshot. unfold prove_conservation.
  destruct (try_snapshot e) as [[s|x] e1]; [|done]. by intros [= <- <-].
Qed.

(** An operation of the engine behind a method. *)
Lemma reach_op o e : op_typed o -> reachable e -> reachable (snd (run o e)).
Proof. apply reach_run. Qed.

Lemma budget_call_reachable c e d a e' d' : bcall_typed c -> reachable (pe_inner e) ->
  budget_call c e d = (a, e', d') -> reachable (pe_inner e').
Proof.
  intros Ht He. destruct c; simpl in Ht; cbn [budget_call].
  - pose proof (reach_op (OpEnsure t n) _ Ht He) as H. unfold PyBudgetEngine_ensure_tenant. simpl in H.
    destruct (try_ensure_tenant _ _ _). by intros [= <- <- <-].
  - pose proof (reach_op (OpSetCap t m) _ Ht He) as H. unfold PyBudgetEngine_set_max_reserved_microcents. simpl in H.
    destruct (try_set_max_reserved_microcents _ _ _). by intros [= <- <- <-].
  - pose proof (reach_op (OpTopUp t a0) _ Ht He) as H. unfold PyBudgetEngine_top_up_tenant. simpl in H.
    destruct (top_up_tenant _ _ _). by intros [= <- <- <-].
  - pose proof (reach_op (OpReserve t c) _ Ht He) as H. unfold PyBudgetEngine_try_reserve. simpl in H.
    destruct (try_reserve _ _ _) as [[? ?] ?]. by intros [= <- <- <-].
  - pose proof (reach_op (OpCommit id a0) _ Ht He) as H. unfold PyBudgetEngine_commit. simpl in H.
    destruct (commit _ _ _). by intros [= <- <- <-].
  - pose proof (reach_op (OpRelease id) _ I He) as H. unfold PyBudgetEngine_release. simpl in H.
    destruct (release _ _). by intros [= <- <- <-].
  - apply reach_snapshot in He. unfold PyBudgetEngine_verify_conservation, verify_conservation, BudgetEngine_snapshot.
    destruct (try_snapshot _) as [[s|x] e1]; by intros [= <- <- <-].
  - apply reach_snapshot in He. unfold PyBudgetEngine_snapshot.
    destruct (try_snapshot _) as [[s|x] e1]; by intros [= <- <- <-].
  - unfold PyBudgetEngine_prove_conservation. destruct (prove_conservation _) as [[r e1]|] eqn:E.
    + apply reach_proved in E; [|done]. destruct r; by intros [= <- <- <-].
    + by intros [= <- <- <-].
  - unfold PyBudgetEngine_certify. destruct (certify_ledger _) as [[r e1]|] eqn:E.
    + apply reach_certified in E; [|done]. by intros [= <- <- <-].
    + by intros [= <- <- <-].
  - apply reach_snapshot in He. unfold PyBudgetEngine_checkpoint, checkpoint.
    destruct (try_snapshot _) as [r e1]. destruct (snapshot_answer _). by intros [= <- <- <-].
  - apply reach_snapshot in He. unfold PyBudgetEngine_checkpoint_with_wal, checkpoint_with_wal.
    destruct (try_snapshot _) as [r e1]. destruct (snapshot_answer _). by intros [= <- <- <-].
  - unfold PyBudgetEngine_restore, restore. destruct (load_snapshot _ _) as [s|x]; [|by intros [= <- <- <-]].
    pose proof (reach_restore s _ He) as H. destruct (restore_from_snapshot _ _). by intros [= <- <- <-].
Qed.

Lemma budget_program_reachable cs : forall e d answers e' d', Forall bcall_typed cs ->
  reachable (pe_inner e) -> budget_program cs e d = (answers, e', d') -> reachable (pe_inner e').
Proof.
  induction cs as [|c cs IH]; intros e d answers e' d' Ht He; cbn [budget_program]; [by intros [= <- <- <-]|].
  apply list.Forall_cons in Ht as [Hc Hcs].
  destruct (budget_call c e d) as [[a e1] d1] eqn:E. destruct (budget_program cs e1 d1) as [[rest e2] d2] eqn:E2.
  intros [= <- <- <-]. eapply IH; [done| |exact E2]. by eapply budget_call_reachable.
Qed.

(** Claim C23: The conservation a Python program is told of. After any history
    of calls on a new engine, settlements, certificates, checkpoints and
    restores from files of any contents included, every tenant's remaining,
    reserved and committed amounts add up to what it was granted; while the
    reservation allocator has ids left, [verify_conservation] answers balanced
    and [snapshot] answers; once it has none, [snapshot] raises ValueError and
    [verify_conservation], [prove_conservation] and [certify] panic, with the
    engine unchanged. *)
Theorem conservation_from_python cs d0 answers e d :
  Forall bcall_typed cs -> budget_program cs PyBudgetEngine_new d0 = (answers, e, d) ->
  (forall t r, PyBudgetEngine_remaining_microcents t e = Some r ->
     exists n c, PyBudgetEngine_initial_microcents t e = Some n /\
       PyBudgetEngine_committed_microcents t e = Some c /\
       r + PyBudgetEngine_reserved_microcents t e + c = n) /\
  (be_next_id (pe_inner e) < RECOVERY_ALLOCATOR_MASK ->
     fst (PyBudgetEngine_verify_conservation e) = Ok [("status", PyStr "balanced")] /\
     exists s, fst (PyBudgetEngine_snapshot e) = Ok s) /\
  (RECOVERY_ALLOCATOR_MASK <= be_next_id (pe_inner e) ->
     PyBudgetEngine_snapshot e = (Err (value_error (MsgAllocator AllocatorExhausted)), e) /\
     PyBudgetEngine_verify_conservation e = (Err (panic ALLOCATOR_EXHAUSTED), e) /\
     PyBudgetEngine_prove_conservation e = (Err (panic ALLOCATOR_EXHAUSTED), e) /\
     PyBudgetEngine_certify e = (Err (panic ALLOCATOR_EXHAUSTED), e)).
Proof.
  intros Ht Hr. assert (reachable (pe_inner e)) as He 
    by (eapply (budget_program_reachable _ PyBudgetEngine_new); [exact Ht|apply reach_new|exact Hr]).
  pose proof (reachable_inv _ He) as Hinv. pose proof (try_snapshot_exact _ Hinv) as Hs. split_and!.
  - intros t r Hb. destruct (tenant_ledger _ t r Hinv Hb) as (v & c & n & Ev & Ec & En & ? & ? & ? & ? & ? & ?).
    exists n, c. unfold PyBudgetEngine_reserved_microcents, reserved_microcents. rewrite Ev. simpl. split_and!; [done|done|lia].
  - intros Hn. unfold PyBudgetEngine_verify_conservation, PyBudgetEngine_snapshot, verify_conservation, BudgetEngine_snapshot.
    rewrite Hs. destruct (Z.leb_spec RECOVERY_ALLOCATOR_MASK (be_next_id (pe_inner e))); [lia|]. simpl.
    split; [|eauto]. unfold conservation_status_for_snapshot. simpl.
    pose proof (proj2 (conservation_rows_balanced _) (snapshot_rows_balanced _ Hinv)) as Hb.
    unfold snapshot_rows in Hb. by rewrite Hb.
  - intros Hn. unfold PyBudgetEngine_verify_conservation, PyBudgetEngine_snapshot, PyBudgetEngine_prove_conservation,
      PyBudgetEngine_certify, prove_conservation, certify_ledger, verify_conservation, BudgetEngine_snapshot.
    rewrite Hs. destruct (Z.leb_spec RECOVERY_ALLOCATOR_MASK (be_next_id (pe_inner e))); [|lia].
    simpl. by destruct e.
Qed.

End histories.

(** ** A history *)

Import Recovery.Sample.

Definition sample_calls : list bcall :=
  [BEnsure "desk" 100; BReserve "desk" 40; BCommit 1 25; BCertify; BCheckpoint healthy "c.json";
   BReserve "desk" 60; BRestore "c.json"; BVerifyConservation].

Definition sample_history := @budget_program toy_hash _ _ _ sample_calls PyBudgetEngine_new ∅.

Lemma conservation_from_python_witness :
  fst (PyBudgetEngine_verify_conservation (snd (fst sample_history))) = Ok [("status", PyStr "balanced")].
Proof.
  apply (@conservation_from_python toy_hash _ _ _ sample_calls ∅ (fst (fst sample_history))
           (snd (fst sample_history)) (snd sample_history)).
  - by_compute.
  - unfold sample_history. by destruct (budget_program _ _ _) as [[? ?] ?].
  - by_compute.
Defined.

(** A recovery file that leaves the allocator without ids makes the checks
    panic where [snapshot] raises an ordinary exception. *)
Definition spent_snapshot : BudgetSnapshot :=
  mkBudgetSnapshot (2 ^ 64 - 1) [mkTenantLedger "desk" 100 100 0 0] 0 None.
Definition spent_disk : Dir := {["spent.json" := pos_bits (encode spent_snapshot)]}.

Lemma spent_allocator_panics :
  drop 1 (fst (fst (@budget_program toy_hash _ _ _ [BRestore "spent.json"; BSnapshot; BVerifyConservation; BCertify]
                      PyBudgetEngine_new spent_disk))) =
  [Some (Err (value_error (MsgAllocator AllocatorExhausted))); Some (Err (panic ALLOCATOR_EXHAUSTED));
   Some (Err (panic ALLOCATOR_EXHAUSTED))].
Proof. vm_compute. reflexivity. Qed.

(** ** Dicts lose nothing *)

(** The constructors called with a dict as keyword arguments. *)
Definition int_item (name : string) (d : PyDict) : option Z :=
  match get_item name d with Some (PyInt z) => Some z | _ => None end.

Definition model_of_dict (d : PyDict) : option PyKernelModel :=
  a ← int_item "model_id" d; b ← int_item "provider_id" d; c ← int_item "quality_bps" d;
  e ← int_item "risk_ceiling_bps" d; f ← int_item "enabled" d; g ← int_item "p95_latency_ms" d;
  h ← int_item "capabilities" d; i ← int_item "region_mask" d;
  j ← int_item "input_cost_microunits_per_million_tokens" d;
  k ← int_item "output_cost_microunits_per_million_tokens" d;
  Some (PyKernelModel_new a b c e f g h i j k).

Definition input_of_dict (d : PyDict) : option (PyResult PyKernelInput) :=
  a ← int_item "request_sequence" d; b ← int_item "requested_model_id" d; c ← int_item "input_tokens" d;
  e ← int_item "output_tokens" d; f ← int_item "business_value_microunits" d;
  g ← int_item "budget_limit_microunits" d; h ← int_item "risk_bps" d; i ← int_item "confidence_bps" d;
  j ← int_item "minimum_quality_bps" d; k ← int_item "max_p95_latency_ms" d;
  l ← int_item "required_capabilities" d; m ← int_item "allowed_provider_mask" d;
  n ← int_item "required_region_mask" d;
  Some (PyKernelInput_new a b c e f g h i j k l m n).

(** The readers the Python package has for the answers of the engine: the strict
    models of finance.py and types.py, which take the fields by name and
    nothing else. They are written from the names those models declare. *)
Definition str_item (name : string) (d : PyDict) : option string :=
  match get_item name d with Some (PyStr s) => Some s | _ => None end.
Definition optional_item (name : string) (d : PyDict) : option (option Z) :=
  match get_item name d with
  | Some (PyInt z) => Some (Some z)
  | Some PyNone | None => Some None
  | _ => None
  end.
Definition strict {A} (fields : list string) (read : PyDict -> option A) (d : PyDict) : option A :=
  if forallb (fun kv => existsb (String.eqb (fst kv)) fields) d then read d else None.

Definition BudgetTopUpResult_validate : PyDict -> option TopUpResult :=
  strict ["status"; "added_microcents"; "new_initial_microcents"; "remaining_microcents"] (fun d =>
  status ← str_item "status" d;
  match status with
  | "topped_up" =>
      added ← int_item "added_microcents" d; initial ← int_item "new_initial_microcents" d;
      remaining ← int_item "remaining_microcents" d; Some (ToppedUp added initial remaining)
  | "missing_tenant" => Some TopUpMissingTenant
  | "invalid_amount" => Some TopUpInvalidAmount
  | "overflow" => Some TopUpOverflow
  | _ => None
  end).

Definition BudgetReservationResult_validate : PyDict -> option (BudgetReservation * option Z) :=
  strict ["status"; "reservation_id"; "remaining_microcents"; "required_microcents"; "current_reserved_microcents";
          "max_reserved_microcents"] (fun d =>
  status ← str_item "status" d; id ← optional_item "reservation_id" d;
  match status with
  | "reserved" => remaining ← int_item "remaining_microcents" d; Some (Reserved remaining, id)
  | "insufficient" =>
      remaining ← int_item "remaining_microcents" d; required ← int_item "required_microcents" d;
      Some (Insufficient remaining required, id)
  | "missing_tenant" => Some (MissingTenant, id)
  | "missing_reservation" => Some (MissingReservation, id)
  | "exposure_limit_exceeded" =>
      current ← int_item "current_reserved_microcents" d; max ← int_item "max_reserved_microcents" d;
      Some (ExposureLimitExceeded current max, id)
  | "overflow" => current ← int_item "current_reserved_microcents" d; Some (ReservationOverflow current, id)
  | _ => None
  end).

Definition BudgetSettlementResult_validate : PyDict -> option BudgetSettlement :=
  strict ["status"; "remaining_microcents"; "actual_microcents"; "returned_microcents"] (fun d =>
  status ← str_item "status" d;
  match status with
  | "committed" =>
      remaining ← int_item "remaining_microcents" d; actual ← int_item "actual_microcents" d;
      Some (Committed remaining actual)
  | "released" =>
      remaining ← int_item "remaining_microcents" d; returned ← int_item "returned_microcents" d;
      Some (Released remaining returned)
  | "overrun" => remaining ← int_item "remaining_microcents" d; Some (Overrun remaining)
  | "invalid_amount" => Some InvalidAmount
  | "missing_reservation" => Some SettlementMissingReservation
  | "missing_tenant" => Some SettlementMissingTenant
  | "overflow" => remaining ← int_item "remaining_microcents" d; Some (SettlementOverflow remaining)
  | _ => None
  end).

Definition ConservationCheck_validate : PyDict -> option ConservationStatus :=
  strict ["status"; "tenant_id"; "delta_microcents"] (fun d =>
  status ← str_item "status" d;
  match status with
  | "balanced" => Some Balanced
  | "violation" => tenant ← str_item "tenant_id" d; delta ← int_item "delta_microcents" d; Some (Violation tenant delta)
  | "aggregate_overflow" => Some AggregateOverflow
  | _ => None
  end).

Definition TenantLedger_validate : PyDict -> option TenantLedger :=
  strict ["tenant_id"; "initial_microcents"; "remaining_microcents"; "reserved_microcents"; "committed_microcents"] (fun d =>
  tenant ← str_item "tenant_id" d; initial ← int_item "initial_microcents" d;
  remaining ← int_item "remaining_microcents" d; reserved ← int_item "reserved_microcents" d;
  committed ← int_item "committed_microcents" d; Some (mkTenantLedger tenant initial remaining reserved committed)).

Definition dict_value (v : PyValue) : option PyDict := match v with PyDictionary d => Some d | _ => None end.

Definition BudgetSnapshot_validate : PyDict -> option BudgetSnapshot :=
  strict ["version"; "active_reservations"; "wal_high_watermark"; "tenants"] (fun d =>
  version ← int_item "version" d; active ← int_item "active_reservations" d;
  watermark ← optional_item "wal_high_watermark" d;
  rows ← match get_item "tenants" d with Some (PyList l) => Some l | _ => None end;
  tenants ← mapM (fun row => dict_value row ≫= TenantLedger_validate) rows;
  Some (mkBudgetSnapshot version tenants active watermark)).

Definition action_named (s : string) : option KernelAction :=
  match s with
  | "execute_requested" => Some ExecuteRequested | "substitute" => Some Substitute | "reject" => Some Reject | _ => None
  end.
Definition reason_named (s : string) : option KernelReason :=
  match s with
  | "requested_model_maximizes_utility" => Some RequestedModelMaximizesUtility
  | "alternative_maximizes_utility" => Some AlternativeMaximizesUtility
  | "risk_hard_limit" => Some RiskHardLimit
  | "confidence_hard_limit" => Some ConfidenceHardLimit
  | "no_enabled_model" => Some NoEnabledModel
  | "quality_constraint" => Some QualityConstraint
  | "latency_constraint" => Some LatencyConstraint
  | "capability_constraint" => Some CapabilityConstraint
  | "provider_constraint" => Some ProviderConstraint
  | "region_constraint" => Some RegionConstraint
  | "budget_constraint" => Some BudgetConstraint
  | "non_positive_utility" => Some NonPositiveUtility
  | "risk_ceiling_constraint" => Some RiskCeilingConstraint
  | _ => None
  end.

Definition Decision_validate (d : PyDict) : option KernelDecision :=
  sequence ← int_item "request_sequence" d; action ← str_item "action" d ≫= action_named;
  reason ← str_item "reason" d ≫= reason_named; selected ← int_item "selected_model_id" d;
  index ← int_item "selected_model_index" d; cost ← int_item "estimated_cost_microunits" d;
  utility ← int_item "expected_utility_microunits" d; counterfactual ← int_item "counterfactual_model_id" d;
  runner_up ← int_item "counterfactual_utility_microunits" d; evaluated ← int_item "evaluated_models" d;
  eligible ← int_item "eligible_models" d; policy ← int_item "policy_epoch" d; catalog ← int_item "catalog_epoch" d;
  Some (mkKernelDecision sequence action reason selected index cost utility counterfactual runner_up evaluated eligible
          policy catalog).

Definition DecisionTrace_validate (d : PyDict) : option DecisionTrace :=
  disabled ← int_item "disabled" d; quality ← int_item "quality" d; ceiling ← int_item "risk_ceiling" d;
  latency ← int_item "latency" d; capability ← int_item "capability" d; provider ← int_item "provider" d;
  region ← int_item "region" d; budget ← int_item "budget" d; utility ← int_item "utility" d;
  evaluated ← int_item "evaluated_models" d; eligible ← int_item "eligible_models" d;
  Some (mkDecisionTrace (mkRejectionHistogram disabled quality ceiling latency capability provider region budget utility)
          evaluated eligible).

(** What the attributes of an explanation row say, by the statuses its class
    documents. *)
Definition gate_named (s : string) : option GateKind :=
  match s with
  | "Disabled" => Some Disabled
  | "Quality" => Some Quality
  | "Latency" => Some Latency
  | "Capability" => Some Capability
  | "ProviderUnrepresentable" => Some ProviderUnrepresentable
  | "ProviderNotAllowed" => Some ProviderNotAllowed
  | "Region" => Some Region
  | "RiskCeiling" => Some RiskCeiling
  | _ => None
  end.
Definition terms_of_row (x : PyCandidateExplanation) : option UtilityTerms :=
  quality ← px_quality_adjusted x; risk ← px_risk_penalty x; cost ← px_cost_microunits x;
  latency ← px_latency_penalty x; utility ← px_utility x; Some (mkUtilityTerms quality risk cost latency utility).
Definition explanation_of_row (x : PyCandidateExplanation) : option CandidateExplanation :=
  verdict ← match px_status x with
            | "rejected" =>
                gate ← px_gate x ≫= gate_named; measured ← px_measured x; limit ← px_limit x;
                Some (Kernel.Rejected gate measured limit)
            | "over_budget" => cost ← px_cost_microunits x; limit ← px_limit x; Some (OverBudget cost limit)
            | "non_positive_utility" => VerdictNonPositiveUtility <$> terms_of_row x
            | "eligible" => Eligible <$> terms_of_row x
            | _ => None
            end;
  Some (mkCandidateExplanation (px_model_id x) (px_model_index x) verdict).

Definition lever_named (s : string) : option Lever :=
  match s with
  | "quality_bps" => Some QualityBps | "p95_latency_ms" => Some P95LatencyMs | "price_scale_ppm" => Some PriceScalePpm
  | "risk_ceiling_bps" => Some RiskCeilingBps | "enabled" => Some LeverEnabled | _ => None
  end.
Definition requirement_of_dict (d : PyDict) : option Requirement :=
  lever ← str_item "lever" d ≫= lever_named; current ← int_item "current" d; boundary ← int_item "boundary" d;
  cost ← optional_item "cost_at_boundary_microunits" d; Some (mkRequirement lever current boundary cost).

Lemma top_up_reads r : BudgetTopUpResult_validate (top_up_to_dict r) = Some r.
Proof. by destruct r. Qed.

Lemma reservation_reads r id : BudgetReservationResult_validate (reservation_to_dict r id) = Some (r, id).
Proof. by destruct r, id. Qed.

Lemma settlement_reads r : BudgetSettlementResult_validate (settlement_to_dict r) = Some r.
Proof. by destruct r. Qed.

Lemma conservation_reads r : ConservationCheck_validate (conservation_to_dict r) = Some r.
Proof. by destruct r. Qed.

Lemma mapM_reads {A B} (f : A -> B) (g : B -> option A) l : (forall a, g (f a) = Some a) -> mapM g (map f l) = Some l.
Proof. intros H. induction l as [|a l IH]; [done|]. cbn [map mapM]. rewrite H. cbn [mbind option_bind]. by rewrite IH. Qed.

Lemma tenant_row_reads row : dict_value (PyDictionary (tenant_row row)) ≫= TenantLedger_validate = Some row.
Proof. by destruct row. Qed.

Lemma snapshot_reads s : BudgetSnapshot_validate (snapshot_to_dict s) = Some s.
Proof.
  destruct s as [v rows n w]. unfold BudgetSnapshot_validate, strict.
  assert (get_item "tenants" (snapshot_to_dict (mkBudgetSnapshot v rows n w)) =
    Some (PyList (map (fun r => PyDictionary (tenant_row r)) rows))) as E.
  { unfold snapshot_to_dict. cbn. unfold into_py, into_py_vec. by rewrite map_map. }
  assert (optional_item "wal_high_watermark" (snapshot_to_dict (mkBudgetSnapshot v rows n w)) = Some w) as Ew by (by destruct w).
  pose proof (mapM_reads (fun r => PyDictionary (tenant_row r)) (fun row => dict_value row ≫= TenantLedger_validate) rows
                tenant_row_reads) as Hr.
  rewrite E, Ew. cbn -[mapM map] in Hr |- *. by rewrite Hr.
Qed.

Lemma decision_reads d : Decision_validate (PyKernelDecision_as_dict d) = Some (pd_inner d).
Proof. destruct d as [[? [] []]]; reflexivity. Qed.

Lemma trace_reads t : DecisionTrace_validate (decision_trace_to_dict t) = Some t.
Proof. by destruct t as [[] ? ?]. Qed.

Lemma explanation_reads c : explanation_of_row (explanation_to_py c) = Some c.
Proof. by destruct c as [i x [[] m l|cost l|[]|[]]]. Qed.

Lemma requirement_reads r : requirement_of_dict (requirement_to_dict r) = Some r.
Proof. by destruct r as [[] ? ? []]. Qed.


(** A model, and the settlement of a reservation of 40 with 25 of them spent. *)
Definition reserved_40 : PyBudgetEngine :=
  snd (PyBudgetEngine_try_reserve "desk" 40 (snd (PyBudgetEngine_ensure_tenant "desk" 100 PyBudgetEngine_new))).


(** ** Codes *)

Definition reason_constant (r : KernelReason) : string :=
  match r with
  | RequestedModelMaximizesUtility => "REASON_REQUESTED_MODEL_MAXIMIZES_UTILITY"
  | AlternativeMaximizesUtility => "REASON_ALTERNATIVE_MAXIMIZES_UTILITY"
  | RiskHardLimit => "REASON_RISK_HARD_LIMIT"
  | ConfidenceHardLimit => "REASON_CONFIDENCE_HARD_LIMIT"
  | NoEnabledModel => "REASON_NO_ENABLED_MODEL"
  | QualityConstraint => "REASON_QUALITY_CONSTRAINT"
  | LatencyConstraint => "REASON_LATENCY_CONSTRAINT"
  | CapabilityConstraint => "REASON_CAPABILITY_CONSTRAINT"
  | ProviderConstraint => "REASON_PROVIDER_CONSTRAINT"
  | RegionConstraint => "REASON_REGION_CONSTRAINT"
  | BudgetConstraint => "REASON_BUDGET_CONSTRAINT"
  | NonPositiveUtility => "REASON_NON_POSITIVE_UTILITY"
  | RiskCeilingConstraint => "REASON_RISK_CEILING_CONSTRAINT"
  end.

Definition action_constant (a : KernelAction) : string :=
  match a with
  | ExecuteRequested => "ACTION_EXECUTE_REQUESTED"
  | Substitute => "ACTION_SUBSTITUTE"
  | Reject => "ACTION_REJECT"
  end.

(** The constant a program compares with and the code a decision carries are
    the same number, for every action and every reason. *)
Theorem codes_agree env d :
  get_item (action_constant (kd_action (pd_inner d))) (calybris_core env) =
    PyKernelDecision_getattr "action_code" d /\
  get_item (reason_constant (kd_reason (pd_inner d))) (calybris_core env) =
    PyKernelDecision_getattr "reason_code" d.
Proof. destruct d as [[n a r]]. by destruct a, r. Qed.
