(* ===== verification/PyWal.v ===== *)
(** * The audited log and receipts from Python

    Programs of calls on one [AuditedWal] object: the log they leave behind
    verifies and replays with exactly the entries they were answered with, and
    a closed object stays closed. A whole session, from a decision through the
    state chain and the log to a signed receipt, verifies in full. *)

From Stdlib Require Import String.
From S2P Require Import Prelude Bytes Text Crypto Kernel KernelRank KernelProps Digest Verify State Receipt ReceiptProps Certificate Budget Wal WalTheory WalLog WalSample WalProps Persistence Python PyProduction PyHeap.
#[local] Open Scope string_scope.
#[local] Open Scope list_scope.
#[local] Open Scope Z_scope.

(** ** Bounded reading of a log *)

Section bounded.
Context {HF : HashFunctions} {JR : JsonReader} {T : Type} {J : WalJson T}.

Lemma visit_bounded max_entries key bytes c es :
  each_line (visit_step from_slice_typed push_entry key) bytes (chain_start, []) = ((c, es), None) ->
  exists l, each_line (visit_step from_slice_typed (push_bounded max_entries) key) bytes (chain_start, (0, [])) =
    ((c, (Z.min (umax 64) (Z.of_nat (length es)), l)), None) /\ (Z.of_nat (length es) <= max_entries -> l = es).
Proof.
  intros H.
  eapply (each_line_sim (fun x y => fst y = fst x /\ fst (snd y) = Z.min (umax 64) (Z.of_nat (length (snd x))) /\
    (Z.of_nat (length (snd x)) <= max_entries -> snd (snd y) = snd x))) with (s2 := (chain_start, (0, []))) in H
    as ([c2 [f l]] & H & Hc & Hf & Hl); [simpl in *; subst; by exists l| |by split_and!].
  intros line [x t] [y [f l]] [x' t'] (Hc & Hf & Hl) (entry & z & e & H1 & H2 & H3 & [= -> ->])%visit_step_None.
  simpl in Hc, Hf, Hl. subst y f. eexists. split.
  - unfold visit_step. rewrite H1. simpl. rewrite H2. simpl. rewrite H3. simpl. reflexivity.
  - unfold push_entry, push_bounded. simpl. rewrite length_app. simpl. split_and!; [done|lia|].
    intros Hm. rewrite Hl by lia. destruct (Z.leb_spec (Z.min (umax 64) (Z.min (umax 64) (Z.of_nat (length t)) + 1)) max_entries);
      [done|]. lia.
Qed.

Lemma log_reads_bounded w (es : list (WalEntry T)) max_entries max_total_bytes : log_of w es ->
  Z.of_nat (length es) <= max_entries -> Z.of_nat (length (ww_file w)) <= max_total_bytes ->
  read_verified_wal_bounded_inner from_slice_typed (ww_file w) (ww_hmac_key w) max_entries max_total_bytes = Ok es.
Proof.
  intros [Hl Hk Hr Hs Hh Hp] Hn Hb. unfold read_verified_wal_bounded_inner, visit_verified_wal_inner.
  destruct (Z.ltb_spec max_total_bytes (Z.of_nat (length (ww_file w)))); [lia|]. rewrite Hk.
  destruct (visit_bounded max_entries _ _ _ _ Hr) as (l & -> & Hle). simpl.
  destruct (Z.ltb_spec max_entries (Z.min (umax 64) (Z.of_nat (length es)))); [lia|]. by rewrite Hle.
Qed.

(** What a write that succeeds makes of a record. *)
Lemma append_written (d : T) w es : log_of w es -> ww_sequence w + 1 < umax 64 ->
  ww_poisoned (snd (append Written d w)) = false /\
  (forall e, fst (append Written d w) = Ok e -> we_sequence e = ww_sequence w + 1 /\
     exists h, length h = 32%nat /\ Forall is_byte h /\ we_entry_hash e = bytes_to_hex h).
Proof.
  intros Hlog Hn. destruct (append_cases Written d w es Hlog Hn) as [(x & E & _)|(j & h & [_ Hh] & E)]; rewrite E.
  - split; [apply Hlog|done].
  - split; [done|]. cbn [fst]. intros e [= <-]. split; [done|].
    destruct (wal_hash_ok (ww_hmac_key w) (string_bytes (ww_last_hash w) ++ j)). eexists. by split_and!.
Qed.

End bounded.

(** ** Programs on one log *)

Inductive wcall :=
| WAppend (os : WriteOutcome) (i : PyKernelInput) (d : PyKernelDecision) (metadata_json : string)
| WFlush (os_ok : bool)
| WSync (os_ok : bool)
| WFlushAndSync (os_ok : bool)
| WClose (sync os_ok : bool).

(** The operating system did what it was asked. *)
Definition faultless (c : wcall) : bool :=
  match c with
  | WAppend Written _ _ _ => true
  | WAppend (FailedAfter _) _ _ _ => false
  | WFlush ok | WSync ok | WFlushAndSync ok | WClose _ ok => ok
  end.

Section programs.
Context {HF : HashFunctions} {JR : JsonReader} {PS : PySerde} {J : WalJson (AuditedRecord Value)}.
Variable p : PyPolicySnapshot.

(** A call, with the entry it answered with if it did. *)
Definition wal_call (c : wcall) (a : PyAuditedWal) : list PyWalEntry * PyAuditedWal :=
  match c with
  | WAppend os i d metadata_json =>
      let '(r, a') := PyAuditedWal_append_verified os p i d metadata_json a in
      (match r with Ok e => [e] | Err _ => [] end, a')
  | WFlush ok => ([], snd (PyAuditedWal_flush ok a))
  | WSync ok => ([], snd (PyAuditedWal_sync ok a))
  | WFlushAndSync ok => ([], snd (PyAuditedWal_flush_and_sync ok a))
  | WClose sync ok => ([], snd (PyAuditedWal_close sync ok a))
  end.

Fixpoint wal_program (cs : list wcall) (a : PyAuditedWal) : list PyWalEntry * PyAuditedWal :=
  match cs with
  | [] => ([], a)
  | c :: cs' =>
      let '(e1, a1) := wal_call c a in let '(e2, a2) := wal_program cs' a1 in (e1 ++ e2, a2)
  end.

(** What Python sees of an entry. *)
Definition shown (e : WalEntry (AuditedRecord Value)) : PyWalEntry :=
  mkPyWalEntry (we_sequence e) (we_previous_hash e) (we_entry_hash e).

(** The file holds the entries [es], all sound; an open writer stands at their end. *)
Definition wal_ok (key : option (list Z)) (a : PyAuditedWal) (es : list (WalEntry (AuditedRecord Value))) : Prop :=
  exists w, log_of w es /\ ww_hmac_key w = key /\ Forall (entry_sound (resolve_only (pp_inner p))) es /\
    ww_sequence w = Z.of_nat (length es) /\ map we_sequence es = seqZ 1 (ww_sequence w) /\
    aw_contents a = ww_file w /\
    (aw_inner a = Some w \/ aw_inner a = None).

Lemma flush_and_sync_ok w : ww_poisoned w = false -> flush_and_sync true w = (Ok tt, w).
Proof. unfold flush_and_sync. by intros ->. Qed.

Lemma on_writer_sync_ok key a es : wal_ok key a es -> snd (on_writer (flush_and_sync true) a) = a \/
  wal_ok key (snd (on_writer (flush_and_sync true) a)) es.
Proof.
  intros (w & Hlog & Hk & Hs & Hn & Hz & Hf & Hi). unfold on_writer, writer.
  destruct Hi as [Hi|Hi]; rewrite Hi; simpl; [|by left].
  rewrite flush_and_sync_ok by apply Hlog. right. exists w. simpl. split_and!; try done. by left.
Qed.

(** An append through the object: refused with nothing changed, or one sound
    entry more. *)
Lemma append_step i d md key a es r a' : wal_ok key a es -> Z.of_nat (length es) + 1 < umax 64 ->
  PyAuditedWal_append_verified Written p i d md a = (r, a') ->
  exists new, wal_ok key a' (es ++ new) /\ match r with Ok e => [e] | Err _ => [] end = map shown new.
Proof.
  intros Hok Hn. assert (exists new, wal_ok key a (es ++ new) /\ [] = map shown new) as Hsame
    by (exists []; by rewrite app_nil_r).
  unfold PyAuditedWal_append_verified. destruct (value_of_text md) as [m|]; [|by intros [= <- <-]].
  unfold validate_input. destruct (KernelInput_validate (input_from_py i)) as [[]|e]; simpl; [|by intros [= <- <-]].
  destruct Hok as (w & Hlog & Hk & Hs & Hq & Hz & Hf & Hi). unfold on_writer, writer.
  destruct Hi as [Hi|Hi]; rewrite Hi; simpl; [|by intros [= <- <-]].
  destruct (decide (prescribe (pp_inner p) (input_from_py i) = pd_inner d)) as [<-|Hd].
  - rewrite append_verified_appends. destruct (append Written _ w) as [r0 w1] eqn:Ea. intros [= <- <-].
    assert (ww_poisoned w1 = false) as Hp1.
    { eapply append_written in Hlog as [Hp _]; [|rewrite Hq; exact Hn]. by rewrite Ea in Hp. }
    destruct (log_step Written _ w es r0 w1 Hlog ltac:(lia) Ea Hp1) as (H1 & H2 & H3 & H4).
    exists (accepted r0). split; [|by destruct r0].
    exists w1. split_and!; try done; [congruence| |rewrite length_app; lia| |by left].
    + apply list.Forall_app. split; [done|]. destruct r0 as [e|]; [|constructor].
      destruct (H4 e eq_refl) as [_ Hdata]. apply list.Forall_singleton.
      destruct e as [n ph h dat]. cbn [we_data] in Hdata. subst dat. apply audited_sound.
    + rewrite map_app, Hz, H3, seqZ_app by lia. f_equal. destruct r0 as [e|]; [|done].
      destruct (H4 e eq_refl) as [Hseq _]. cbn [accepted map length]. rewrite Hseq, Z.add_comm. done.
  - rewrite append_verified_refuses by done. intros [= <- <-]. exists []. rewrite app_nil_r. split; [|done].
    exists w. split_and!; try done. by left.
Qed.

Lemma wal_call_ok c key a es new a' : wal_ok key a es -> Z.of_nat (length es) + 1 < umax 64 ->
  faultless c = true -> wal_call c a = (new, a') ->
  exists new', wal_ok key a' (es ++ new') /\ new = map shown new' /\ (length new <= 1)%nat.
Proof.
  intros Hok Hn Hf. assert (forall a', a' = a \/ wal_ok key a' es -> ([], a') = (new, a') ->
    exists new', wal_ok key a' (es ++ new') /\ new = map shown new' /\ (length new <= 1)%nat) as Hsame.
  { intros a1 Ha1 [= <-]. exists []. rewrite app_nil_r. split_and!; [by destruct Ha1 as [->|]|done|simpl; lia]. }
  destruct c as [[|n] i d md|[]|[]|[]|sync []]; try discriminate Hf; cbn [wal_call].
  - destruct (PyAuditedWal_append_verified _ _ _ _ _ _) as [r a1] eqn:E. intros [= <- <-].
    destruct (append_step _ _ _ _ _ _ _ _ Hok Hn E) as (x & H1 & H2). exists x.
    split_and!; [done|done|destruct r; simpl; lia].
  - intros [= <- <-]. eapply Hsame; [|done]. by apply on_writer_sync_ok.
  - intros [= <- <-]. eapply Hsame; [|done]. by apply on_writer_sync_ok.
  - intros [= <- <-]. eapply Hsame; [|done]. by apply on_writer_sync_ok.
  - intros [= <- <-]. eapply Hsame; [|done]. destruct Hok as (w & Hlog & Hk & Hs & Hq & Hz & Hc & [Hi|Hi]);
      unfold PyAuditedWal_close; rewrite Hi; [|by left]. right. exists w. destruct sync; simpl;
      split_and!; try done; try by right.
Qed.

Lemma wal_program_ok cs : forall key a es new a', wal_ok key a es ->
  Z.of_nat (length es) + Z.of_nat (length cs) < umax 64 -> Forall (fun c => faultless c = true) cs ->
  wal_program cs a = (new, a') ->
  exists new', wal_ok key a' (es ++ new') /\ new = map shown new' /\ (length new <= length cs)%nat.
Proof.
  induction cs as [|c cs IH]; intros key a es new a' Hok Hn Hf; cbn [wal_program].
  { intros [= <- <-]. exists []. by rewrite app_nil_r. }
  apply list.Forall_cons in Hf as [Hc Hf]. destruct (wal_call c a) as [e1 a1] eqn:E1.
  destruct (wal_program cs a1) as [e2 a2] eqn:E2. intros [= <- <-]. cbn [length] in Hn.
  destruct (wal_call_ok c key a es e1 a1 Hok ltac:(lia) Hc E1) as (n1 & Hok1 & -> & Hl).
  rewrite length_map in Hl. destruct (IH key a1 (es ++ n1) e2 a2 Hok1) as (n2 & Hok2 & -> & Hl2).
  - rewrite length_app. lia.
  - done.
  - done.
  - exists (n1 ++ n2). rewrite app_assoc, map_app, length_app, !length_map in *. split_and!; [done|done|simpl; lia].
Qed.

(** ** Opening and reading *)

Lemma key_checks key : validate_key key = Ok tt <-> validate_optional_key key = Ok tt.
Proof.
  destruct key as [k|]; [|done]. simpl. unfold Wal.validate_hmac_key, validate_hmac_key, refuse_if.
  change MIN_HMAC_KEY_BYTES with 32. by destruct (_ <? _).
Qed.

Lemma new_is_open lock_free file key : PyAuditedWal_new lock_free file key =
  (_ ← validate_optional_key key; w ← map_err wal_error (open_inner lock_free file key);
   Ok (mkPyAuditedWal (Some w) file)).
Proof.
  unfold PyAuditedWal_new. destruct key as [k|]; simpl; [|done].
  by destruct (validate_hmac_key k) as [[]|].
Qed.

Lemma verify_is_validate file key : verify_audited_wal file key None =
  (_ ← validate_optional_key key; map_err wal_error (validate_chain_inner file key)).
Proof. unfold verify_audited_wal. by destruct key. Qed.

Lemma new_ok key a : PyAuditedWal_new true [] key = Ok a -> wal_ok key a [].
Proof.
  rewrite new_is_open. intros H. open_results.
  match goal with H : open_inner _ _ _ = Ok _ |- _ => apply open_new in H as (Hk & ->) end.
  exists (mkWalWriter [] 0 "genesis" key false). split_and!; try done; [by apply log_of_empty|by left].
Qed.

(** The log a Python program writes. Whatever verified appends,
    flushes, syncs and closes it runs on a new log whose file system does what
    it is asked, the file then verifies, and opens again, with as many entries
    as the program was answered with, numbered from one; and replaying it
    against the policy, within the bounds given, answers every check of every
    entry with true. *)
Theorem python_log_verifies key a0 cs acks a max_entries max_total_bytes :
  PyAuditedWal_new true [] key = Ok a0 -> Z.of_nat (length cs) < umax 64 ->
  Forall (fun c => faultless c = true) cs -> wal_program cs a0 = (acks, a) ->
  Z.of_nat (length acks) <= max_entries -> Z.of_nat (length (aw_contents a)) <= max_total_bytes ->
  let n := Z.of_nat (length acks) in
  map pwe_sequence acks = seqZ 1 n /\
  (exists hash, verify_audited_wal (aw_contents a) key None = Ok (n, hash)) /\
  (exists a', PyAuditedWal_new true (aw_contents a) key = Ok a' /\ PyAuditedWal_sequence a' = Ok n) /\
  replay_verify_audited_wal (aw_contents a) p key max_entries max_total_bytes =
  Ok (map (fun m => verdict_to_dict (mkWalReplayVerdict m true true true true)) (seqZ 1 n)).
Proof.
  intros Hnew Hl Hf Hr Hme Hmb. pose proof (new_ok key a0 Hnew) as Hok0.
  destruct (wal_program_ok cs key a0 [] acks a Hok0 Hl Hf Hr) as (es & (w & Hlog & Hk & Hs & Hq & Hz & Hc & _) & -> & _).
  cbn [app] in *. rewrite length_map in *. rewrite Hc in *. rewrite Hq in Hz.
  pose proof (proj1 (key_checks key)) as Hkey. rewrite <- Hk in Hkey at 1. specialize (Hkey (lo_key _ _ Hlog)).
  split; [|split; [|split]].
  - rewrite map_map. exact Hz.
  - exists (ww_last_hash w). rewrite verify_is_validate, Hkey, <- Hk, (log_verifies w es Hlog). simpl. by rewrite Hq.
  - eexists. rewrite new_is_open, Hkey, <- Hk, (log_reopens w es Hlog). simpl. split; [done|].
    unfold PyAuditedWal_sequence, writer. simpl. by rewrite Hq.
  - unfold replay_verify_audited_wal, replay_audited_wal_keyed_bounded. rewrite Hkey, <- Hk, (log_reads_bounded w es) by done.
    cbn [mbind result_bind]. rewrite (proj2 (verify_audited_entries_spec _ es _) (conj Hs eq_refl)).
    cbn [map_err mbind result_bind]. by rewrite !map_map, <- Hz, map_map.
Qed.

(** A closed log stays closed. Once [close] was called, with or
    without syncing and even when syncing failed, no call changes the file or
    answers with an entry: appends of a valid request and the calls that flush
    or look at the log raise WalError, and closing again does nothing. *)
Theorem closed_log_stays_closed sync os_ok a cs :
  let closed := snd (PyAuditedWal_close sync os_ok a) in
  aw_contents closed = aw_contents a /\ wal_program cs closed = ([], closed) /\
  (forall os i d md v, value_of_text md = Some v -> KernelInput_validate (input_from_py i) = Ok tt ->
     PyAuditedWal_append_verified os p i d md closed = (Err WAL_CLOSED, closed)) /\
  (forall ok, PyAuditedWal_flush ok closed = (Err WAL_CLOSED, closed) /\
     PyAuditedWal_sync ok closed = (Err WAL_CLOSED, closed) /\
     PyAuditedWal_flush_and_sync ok closed = (Err WAL_CLOSED, closed)) /\
  PyAuditedWal_sequence closed = Err WAL_CLOSED /\ PyAuditedWal_last_hash closed = Err WAL_CLOSED /\
  PyAuditedWal_anchor closed = Err WAL_CLOSED /\
  (forall s ok, PyAuditedWal_close s ok closed = (Ok tt, closed)).
Proof.
  assert (aw_inner (snd (PyAuditedWal_close sync os_ok a)) = None /\
    aw_contents (snd (PyAuditedWal_close sync os_ok a)) = aw_contents a) as [Hi Hc].
  { unfold PyAuditedWal_close, aw_contents. destruct a as [[w|] f]; simpl; [by destruct sync|done]. }
  cbv zeta. set (closed := snd _) in *. clearbody closed.
  assert (forall A (f : WalWriter -> result Wal.WalError A * WalWriter), on_writer f closed = (Err WAL_CLOSED, closed))
    as Hon by (intros; unfold on_writer, writer; by rewrite Hi).
  assert (forall os i d md, exists e, PyAuditedWal_append_verified os p i d md closed = (Err e, closed)) as Happ.
  { intros. unfold PyAuditedWal_append_verified. destruct (value_of_text md); [|by eexists].
    destruct (validate_input i); [|by eexists]. rewrite Hon. simpl. by eexists. }
  split_and!; try done; try (by unfold PyAuditedWal_sequence, PyAuditedWal_last_hash, PyAuditedWal_anchor, writer; rewrite Hi).
  - induction cs as [|c cs IH]; [done|]. cbn [wal_program].
    assert (wal_call c closed = ([], closed)) as ->; [|by rewrite IH]. destruct c; cbn [wal_call].
    + destruct (Happ os i d metadata_json) as [e ->]. done.
    + unfold PyAuditedWal_flush. by rewrite Hon.
    + unfold PyAuditedWal_sync. by rewrite Hon.
    + unfold PyAuditedWal_flush_and_sync. by rewrite Hon.
    + unfold PyAuditedWal_close. by rewrite Hi.
  - intros os i d md v Hv Hi'. unfold PyAuditedWal_append_verified, validate_input. rewrite Hv, Hi'. simpl.
    by rewrite Hon.
  - intros ok. unfold PyAuditedWal_flush, PyAuditedWal_sync, PyAuditedWal_flush_and_sync. by rewrite !Hon.
  - intros s ok. unfold PyAuditedWal_close. by rewrite Hi.
Qed.

End programs.

(** ** A session *)

Section session.
Context {HF : HashFunctions} {ED : Ed25519} {JR : JsonReader} {PS : PySerde}
  {J : WalJson (AuditedRecord Value)} {SR : Serde DecisionReceipt}.

Fixpoint advance_all (states : list (list Z)) (c : PyStateChain) : PyStateChain :=
  match states with [] => c | s :: states' => advance_all states' (snd (PyStateChain_advance s c)) end.

Definition chain_ok (c : PyStateChain) : Prop :=
  0 <= sc_step (psc_inner c) /\ length (sc_last_digest (psc_inner c)) = 32%nat /\
  Forall is_byte (sc_last_digest (psc_inner c)).

Lemma chain_ok_new s0 : chain_ok (PyStateChain_new s0).
Proof. split_and!; simpl; [done|apply sha256_length|apply sha256_bytes]. Qed.

Lemma chain_ok_advance s c r c' : chain_ok c -> PyStateChain_advance s c = (r, c') ->
  chain_ok c' /\ (forall t, r = Ok t -> state_anchor_ok (prs_inner (PyReceiptState_from_transition t))).
Proof.
  intros (Hs & Hl & Hb). unfold PyStateChain_advance, advance, try_advance.
  destruct (checked_u 64 (sc_step (psc_inner c) + 1)) as [n|] eqn:E; simpl; [|by intros [= <- <-]].
  apply checked_u_Some in E as [-> _]. intros [= <- <-].
  split; [split_and!; simpl; [lia|apply sha256_length|apply sha256_bytes]|].
  intros t [= <-]. split; simpl; [lia|]. eexists _, _.
  split_and!; [exact Hl|apply sha256_length|exact Hb|apply sha256_bytes|done|done].
Qed.

Lemma chain_ok_all states : forall c, chain_ok c -> chain_ok (advance_all states c).
Proof.
  induction states as [|s states IH]; intros c Hc; simpl; [done|]. apply IH.
  destruct (PyStateChain_advance s c) eqn:E. by eapply chain_ok_advance in E as [? _].
Qed.

Lemma advance_answers states : forall s0, Z.of_nat (length states) < umax 64 ->
  forall next, exists t chain, PyStateChain_advance next (advance_all states (PyStateChain_new s0)) = (Ok t, chain).
Proof.
  intros s0 Hn next. assert (forall l c, sc_step (psc_inner (advance_all l c)) <= sc_step (psc_inner c) + Z.of_nat (length l) /\
    (0 <= sc_step (psc_inner c) -> 0 <= sc_step (psc_inner (advance_all l c)))) as Hle.
  { clear. induction l as [|s l IH]; intros c; cbn [advance_all length]; [lia|].
    destruct (IH (snd (PyStateChain_advance s c))) as [H1 H2]. unfold PyStateChain_advance, advance, try_advance in *.
    destruct (checked_u 64 (sc_step (psc_inner c) + 1)) as [n|] eqn:E; cbn in *; [apply checked_u_Some in E as [-> _]|]; lia. }
  destruct (Hle states (PyStateChain_new s0)) as [H1 H2]. cbn in H1, H2. specialize (H2 ltac:(lia)).
  unfold PyStateChain_advance, advance, try_advance. rewrite checked_u_small by (unfold_ints; lia). cbn. by do 2 eexists.
Qed.

(** The call leaves the log open. *)
Definition keeps_open (c : wcall) : bool := match c with WClose _ _ => false | _ => true end.

Lemma stays_open p cs : forall a, Forall (fun c => keeps_open c = true) cs -> is_Some (aw_inner a) ->
  is_Some (aw_inner (snd (wal_program p cs a))).
Proof.
  induction cs as [|c cs IH]; intros a Hcs Ha; cbn [wal_program]; [done|]. apply list.Forall_cons in Hcs as [Hc Hcs].
  assert (forall A (f : WalWriter -> result Wal.WalError A * WalWriter), is_Some (aw_inner (snd (on_writer f a)))) as Hon.
  { intros A f. unfold on_writer, writer. destruct Ha as [w Hw]. rewrite Hw. simpl. by destruct (f w). }
  assert (is_Some (aw_inner (snd (wal_call p c a)))) as H1.
  { destruct c; try discriminate Hc; cbn [wal_call]; try apply Hon. unfold PyAuditedWal_append_verified.
    destruct (value_of_text _); [|done]. destruct (validate_input _); [|done].
    match goal with |- context [on_writer ?f a] => pose proof (Hon _ f); by destruct (on_writer f a) end. }
  destruct (wal_call p c a) as [e1 a1]. specialize (IH a1 Hcs H1). by destruct (wal_program p cs a1).
Qed.

(** A record that serializes within the limit is appended to an open log. *)
Lemma append_answers (d : AuditedRecord Value) w es j : log_of w es -> ww_sequence w + 1 < umax 64 -> to_json d = Ok j ->
  exists e w', append Written d w = (Ok e, w').
Proof.
  intros Hlog Hn Hj. destruct (append_cases Written d w es Hlog Hn) as [(x & E & H)|(k & h & _ & E)]; [|by do 2 eexists].
  exfalso. congruence.
Qed.

(** The decision is logged, and the anchor of its entry is one a receipt takes. *)
Lemma log_answers p i md m key a es j : wal_ok p key a es -> is_Some (aw_inner a) -> Z.of_nat (length es) + 1 < umax 64 ->
  value_of_text md = Some m -> validate_input i = Ok (input_from_py i) ->
  (let d := prescribe (pp_inner p) (input_from_py i) in
   to_json (mkAuditedRecord (audit_bundle (pp_inner p) (input_from_py i) d) (input_from_py i) d m) = Ok j) ->
  exists e a', PyAuditedWal_append_verified Written p i (decision_to_py (prescribe (pp_inner p) (input_from_py i))) md a = (Ok e, a') /\
    wal_anchor_ok (prw_inner (PyWalEntry_receipt_anchor e)).
Proof.
  intros (w & Hlog & _ & _ & Hq & _ & _ & Hi) [w' Hw] Hn Hm Hv Hj. unfold PyAuditedWal_append_verified. rewrite Hm, Hv.
  destruct Hi as [Hi|Hi]; [|congruence]. unfold on_writer, writer. rewrite Hi. cbn [ok_or mbind result_bind pd_inner decision_to_py].
  rewrite append_verified_appends.
  destruct (append_answers _ w es j Hlog ltac:(lia) Hj) as (en & w1 & Ea). rewrite Ea. cbn. do 2 eexists. split; [reflexivity|].
  eapply append_written in Hlog as [_ Hx]; [|rewrite Hq; exact Hn]. rewrite Ea in Hx.
  destruct (Hx en eq_refl) as (Hseq & h & ? & ? & Hh). split; cbn; [lia|by exists h].
Qed.

Lemma receipt_from_json r text : PyDecisionReceipt_to_json r = Ok text -> PyDecisionReceipt_from_json text = Ok r.
Proof.
  unfold PyDecisionReceipt_to_json, PyDecisionReceipt_from_json, serialized_text, parsed. intros H%ok_or_Ok.
  rewrite (text_roundtrip _ _ H). simpl. by destruct r.
Qed.

(** Claim C22: A whole session. A program has opened a new log and written it with
    fewer than 2^64 - 2 calls, which the file system serves and which do not close
    it, and has advanced a state chain fewer than 2^64 - 1 times. It decides a valid request, advances the chain
    once more, logs the decision with metadata that is JSON and a record within
    the size limit, issues a receipt with both anchors, and signs it with any key
    of 32 bytes. Every step answers, and the signed receipt verifies in full with
    the public key of that signing key, the same anchors, and the same policy,
    request and decision, also after a trip through its JSON text if that could be
    written. *)
Theorem python_session_verifies p key a0 cs acks a s0 states next i md m j seed signer time :
  PyAuditedWal_new true [] key = Ok a0 -> Z.of_nat (length cs) + 1 < umax 64 ->
  Forall (fun c => faultless c = true) cs -> Forall (fun c => keeps_open c = true) cs -> wal_program p cs a0 = (acks, a) ->
  Z.of_nat (length states) < umax 64 -> KernelInput_validate (input_from_py i) = Ok tt -> value_of_text md = Some m ->
  (let d := prescribe (pp_inner p) (input_from_py i) in
   to_json (mkAuditedRecord (audit_bundle (pp_inner p) (input_from_py i) d) (input_from_py i) d m) = Ok j) ->
  length seed = 32%nat ->
  exists d t chain e a' public r r',
    PyPolicySnapshot_prescribe p i = Ok d /\
    PyStateChain_advance next (advance_all states (PyStateChain_new s0)) = (Ok t, chain) /\
    PyAuditedWal_append_verified Written p i d md a = (Ok e, a') /\
    let st := PyReceiptState_from_transition t in
    let wal := PyWalEntry_receipt_anchor e in
    public_key_from_signing_key seed = Ok public /\
    PyPolicySnapshot_issue_receipt p i d (Some st) (Some wal) = Ok r /\
    PyDecisionReceipt_sign seed signer time r = (Ok tt, r') /\
    PyDecisionReceipt_verify_full r' p i d public st wal = Ok tt /\
    (forall text, PyDecisionReceipt_to_json r' = Ok text ->
       exists r'', PyDecisionReceipt_from_json text = Ok r'' /\
         PyDecisionReceipt_verify_full r'' p i d public st wal = Ok tt).
Proof.
  intros Hnew Hn Hf Hopen Hrun Hst0 Hvi Hm Hj Hseed.
  destruct (wal_program_ok p cs key a0 [] acks a (new_ok p key a0 Hnew) ltac:(simpl; lia) Hf Hrun) as (es & Hok & -> & Hacks).
  cbn [app] in Hok. rewrite length_map in Hacks.
  assert (is_Some (aw_inner a)) as Hsome.
  { assert (is_Some (aw_inner a0)) as H0 by (rewrite new_is_open in Hnew; open_results; by eexists).
    pose proof (stays_open p cs a0 Hopen H0) as H. by rewrite Hrun in H. }
  assert (validate_input i = Ok (input_from_py i)) as Hv by (unfold validate_input; by rewrite Hvi).
  destruct (advance_answers states s0 Hst0 next) as (t & chain & Hadv).
  destruct (log_answers p i md m key a es j Hok Hsome ltac:(lia) Hm Hv Hj) as (e & a' & Happ & Hwal).
  pose proof (proj2 (chain_ok_advance _ _ _ _ (chain_ok_all states _ (chain_ok_new s0)) Hadv) t eq_refl) as Hst.
  set (d := decision_to_py (prescribe (pp_inner p) (input_from_py i))) in *.
  destruct (honest_receipt_verifies (pp_inner p) (input_from_py i) _ _ seed signer time Hst Hwal) as (r & r' & Hi & Hs & Hfull).
  assert (py_signing_key seed = Ok seed) as Hkey by (unfold py_signing_key, exact_key; by rewrite Hseed).
  assert (PyDecisionReceipt_verify_full (mkPyDecisionReceipt r') p i d (verifying_key seed)
            (PyReceiptState_from_transition t) (PyWalEntry_receipt_anchor e) = Ok tt) as Hvf.
  { assert (py_verifying_key (verifying_key seed) = Ok (verifying_key seed)) as Hpub.
    { unfold py_verifying_key, exact_key. rewrite verifying_key_length. simpl. by rewrite verifying_key_ok. }
    unfold PyDecisionReceipt_verify_full, d. rewrite Hpub, Hv.
    cbn [mbind result_bind pdr_inner pd_inner decision_to_py]. by rewrite Hfull. }
  exists d, t, chain, e, a', (verifying_key seed), (mkPyDecisionReceipt r), (mkPyDecisionReceipt r'). cbv zeta. split_and!; try done.
  - unfold PyPolicySnapshot_prescribe. by rewrite Hvi.
  - unfold public_key_from_signing_key. by rewrite Hkey.
  - unfold PyPolicySnapshot_issue_receipt, d. rewrite Hv. cbn [mbind result_bind pd_inner decision_to_py fmap option_fmap option_map]. by rewrite Hi.
  - unfold PyDecisionReceipt_sign. rewrite Hkey. cbn [pdr_inner]. by rewrite Hs.
  - intros text Ht%receipt_from_json. by eexists.
Qed.

End session.

(** ** A trajectory *)

Section trajectory.
Context {HF : HashFunctions}.
Variable p : PyPolicySnapshot.

(** A program that decides each request, moves the chain to the next state and
    keeps the bundle of both. *)
Fixpoint py_trajectory (steps : list (PyKernelInput * list Z)) (c : PyStateChain)
    : PyResult (list PyStatefulAuditBundle) :=
  match steps with
  | [] => Ok []
  | (i, next) :: steps' =>
      d ← PyPolicySnapshot_prescribe p i;
      t ← fst (PyStateChain_advance next c);
      b ← PyPolicySnapshot_stateful_audit_bundle p i d t;
      bs ← py_trajectory steps' (snd (PyStateChain_advance next c));
      Ok (b :: bs)
  end.

Definition step_of (s : PyKernelInput * list Z) : Step :=
  mkStep (pp_inner p) (input_from_py (fst s)) (prescribe (pp_inner p) (input_from_py (fst s))) (snd s).

Lemma py_trajectory_records steps : forall c bs, py_trajectory steps c = Ok bs ->
  record_trajectory (psc_inner c) (map step_of steps) = Ok (map psb_inner bs).
Proof.
  induction steps as [|[i next] steps IH]; intros c bs; cbn [py_trajectory map record_trajectory];
    [by intros [= <-]|].
  unfold PyStateChain_advance, advance. cbn [step_of sp_state fst snd].
  destruct (try_advance (psc_inner c) next) as [[t c']|e]; intros H; [|open_results; done].
  unfold PyPolicySnapshot_prescribe, PyPolicySnapshot_stateful_audit_bundle, validate_input in H. open_results.
  cbn [fst] in *. open_results. cbn [map_err mbind result_bind pst_inner pd_inner decision_to_py] in *.
  cbn [step_of sp_snapshot sp_input sp_decision fst].
  match goal with H : stateful_audit_bundle _ _ _ _ = Ok _ |- _ => rewrite H end. cbn [map_err mbind result_bind].
  match goal with H : py_trajectory _ _ = Ok _ |- _ => apply IH in H as E end.
  cbn [psc_inner snd] in E. by rewrite E.
Qed.

(** The bundles such a program collects are a complete trajectory. *)
Theorem python_trajectory_verifies s0 steps bs :
  steps <> [] -> Z.of_nat (length steps) <= umax 64 -> py_trajectory steps (PyStateChain_new s0) = Ok bs ->
  verify_complete_state_trajectory s0 (Z.of_nat (length steps)) bs = Ok tt.
Proof.
  intros Hne Hl H%py_trajectory_records.
  destruct (honest_trajectory_verifies s0 (map step_of steps)) as (bundles & Hr & Hv).
  - by apply List.Forall_map, List.Forall_forall.
  - by destruct steps.
  - by rewrite length_map.
  - cbn [PyStateChain_new psc_inner] in H. rewrite Hr in H. apply Ok_inj in H as ->. rewrite length_map in Hv.
    unfold verify_complete_state_trajectory. by rewrite Hv.
Qed.

End trajectory.

(** ** The guards of the anchors *)

Lemma is_lower_hex_spec b : is_lower_hex b = true <-> exists n, 0 <= n < 16 /\ b = hex_digit n.
Proof.
  unfold is_lower_hex, hex_digit. rewrite orb_true_iff, !andb_true_iff, !Z.leb_le. split.
  - intros [H|H]; [exists (b - 48)|exists (b - 87)]; destruct (Z.ltb_spec (b - 48) 10), (Z.ltb_spec (b - 87) 10); lia.
  - intros (n & Hn & ->). destruct (Z.ltb_spec n 10); lia.
Qed.

Lemma lower_hex_pairs k : forall l, length l = (2 * k)%nat -> forallb is_lower_hex l = true ->
  exists d, length d = k /\ Forall is_byte d /\ l = flat_map (fun b => [hex_digit (b / 16); hex_digit (b mod 16)]) d.
Proof.
  induction k as [|k IH]; intros l Hl Hh.
  { exists []. split_and!; [done|done|]. by destruct l. }
  destruct l as [|x [|y l]]; try (simpl in Hl; lia). cbn [forallb] in Hh. rewrite !andb_true_iff in Hh.
  destruct Hh as (Hx & Hy & Hl'). apply is_lower_hex_spec in Hx as (hi & ? & ->), Hy as (lo & ? & ->).
  destruct (IH l ltac:(simpl in Hl; lia) Hl') as (d & Hd & Hb & ->).
  assert (is_byte (hi * 16 + lo)) as Hbyte by (unfold is_byte, is_u, umax; lia).
  exists (hi * 16 + lo :: d). split_and!; [simpl; lia|by constructor|]. cbn [flat_map app].
  rewrite Z.div_add_l, Z.div_small, Z.add_0_r, Z.add_comm, Z.mod_add, Z.mod_small by lia. done.
Qed.

Lemma validate_hex32_spec field value : validate_hex32 field value = Ok tt <->
  exists d, length d = 32%nat /\ Forall is_byte d /\ value = bytes_to_hex d.
Proof.
  unfold validate_hex32. rewrite refuse_if_Ok, orb_false_iff, !negb_false_iff, Nat.eqb_eq. split.
  - intros [Hl Hh]. destruct (lower_hex_pairs 32 _ Hl Hh) as (d & Hd & Hb & E). exists d. split_and!; [done|done|].
    apply string_bytes_inj. by rewrite bytes_to_hex_bytes.
  - intros (d & Hd & Hb & ->). rewrite bytes_to_hex_bytes by done. split; [by rewrite hex_text_length, Hd|].
    apply forallb_forall. intros x (b & Hin & Hx)%in_flat_map. apply is_lower_hex_spec.
    rewrite List.Forall_forall in Hb. destruct (nibbles b (Hb b Hin)) as (? & ? & _).
    destruct Hx as [<-|[<-|[]]]; eauto.
Qed.

(** Claim C24: The guards of the anchors are exact. [ReceiptState] and
    [ReceiptWal] accept their arguments exactly when the step or sequence is at
    least one and every digest is the lowercase text of 32 bytes, and with
    anchors they accept a receipt can always be issued for a decision of the
    kernel on a valid request. *)
Theorem anchor_guards_exact {HF : HashFunctions} step before after sequence hash :
  is_u 64 step -> is_u 64 sequence ->
  ((exists s, PyReceiptState_new step before after = Ok s) <-> state_anchor_ok (mkReceiptState step before after)) /\
  ((exists w, PyReceiptWal_new sequence hash = Ok w) <-> wal_anchor_ok (mkReceiptWal sequence hash)) /\
  (forall p i d s w, PyPolicySnapshot_prescribe p i = Ok d -> PyReceiptState_new step before after = Ok s ->
     PyReceiptWal_new sequence hash = Ok w ->
     exists r, PyPolicySnapshot_issue_receipt p i d (Some s) (Some w) = Ok r).
Proof.
  intros Hs Hw.
  assert (forall s, PyReceiptState_new step before after = Ok s ->
    s = mkPyReceiptState (mkReceiptState step before after) /\ state_anchor_ok (mkReceiptState step before after)) as Hst.
  { unfold PyReceiptState_new. intros s H. open_results. rewrite !validate_hex32_spec in *. split; [done|].
    repeat match goal with H : exists _, _ |- _ => destruct H as (? & ? & ? & ?) end.
    split; simpl; [unfold is_u in Hs; lia|]. do 2 eexists. split_and!; [..|eassumption|eassumption]; done. }
  assert (forall w, PyReceiptWal_new sequence hash = Ok w ->
    w = mkPyReceiptWal (mkReceiptWal sequence hash) /\ wal_anchor_ok (mkReceiptWal sequence hash)) as Hwt.
  { unfold PyReceiptWal_new. intros w H. open_results. rewrite !validate_hex32_spec in *. split; [done|].
    split; simpl; [unfold is_u in Hw; lia|done]. }
  split; [|split].
  - split; [by intros [s [_ H]%Hst]|]. intros (Hge & b & a & ? & ? & ? & ? & Eb & Ea). simpl in *.
    unfold PyReceiptState_new. destruct (Z.eqb_spec step 0); [lia|]. simpl.
    rewrite (proj2 (validate_hex32_spec _ before)), (proj2 (validate_hex32_spec _ after)) by eauto. by eexists.
  - split; [by intros [w [_ H]%Hwt]|]. intros (Hge & h & ? & ? & Eh). simpl in *.
    unfold PyReceiptWal_new. destruct (Z.eqb_spec sequence 0); [lia|]. simpl.
    rewrite (proj2 (validate_hex32_spec _ hash)) by eauto. by eexists.
  - intros p i d s w Hd [-> Hso]%Hst [-> Hwo]%Hwt. unfold PyPolicySnapshot_prescribe in Hd. open_results.
    destruct (issue_ok (pp_inner p) (input_from_py i) _ _ Hso Hwo) as (r & m & Hissue & _).
    unfold PyPolicySnapshot_issue_receipt, validate_input.
    match goal with H : KernelInput_validate _ = Ok _ |- _ => rewrite H end.
    cbn [map_err mbind result_bind pd_inner decision_to_py fmap option_fmap option_map prs_inner prw_inner].
    rewrite Hissue. by eexists.
Qed.

(** ** A concrete session *)

Module Session.
#[local] Existing Instance toy_hash.
#[local] Existing Instance toy_ed25519.

#[export] Instance ReceiptState_eq_dec : EqDecision ReceiptState.
Proof. solve_decision. Defined.
#[export] Instance ReceiptState_countable : Countable ReceiptState.
Proof.
  apply (inj_countable' (fun s => (rs_step s, (rs_state_digest_before_hex s, rs_state_digest_after_hex s)))
    (fun t => mkReceiptState (fst t) (fst (snd t)) (snd (snd t)))). by intros [].
Defined.
#[export] Instance ReceiptWal_eq_dec : EqDecision ReceiptWal.
Proof. solve_decision. Defined.
#[export] Instance ReceiptWal_countable : Countable ReceiptWal.
Proof.
  apply (inj_countable' (fun s => (rw_sequence s, rw_entry_hash s)) (fun t => mkReceiptWal (fst t) (snd t))). by intros [].
Defined.
#[export] Instance ReceiptSignature_eq_dec : EqDecision ReceiptSignature.
Proof. solve_decision. Defined.
#[export] Instance ReceiptSignature_countable : Countable ReceiptSignature.
Proof.
  apply (inj_countable' (fun s => (rg_signer_id s, (rg_signed_at_epoch_ms s, (rg_public_key_hex s, rg_signature_hex s))))
    (fun t => mkReceiptSignature (fst t) (fst (snd t)) (fst (snd (snd t))) (snd (snd (snd t))))). by intros [].
Defined.
#[export] Instance DecisionReceipt_eq_dec : EqDecision DecisionReceipt.
Proof. solve_decision. Defined.
#[export] Instance DecisionReceipt_countable : Countable DecisionReceipt.
Proof.
  apply (inj_countable
    (fun r => ([dr_schema_version r; dr_policy_digest_hex r; dr_input_digest_hex r; dr_decision_digest_hex r;
                dr_claims_digest_hex r],
               ([dr_policy_epoch r; dr_catalog_epoch r], (dr_replay_valid r, (dr_state r, (dr_wal r, dr_signature r))))))
    (fun t => match t with
      | ([a; b; c; d; e], ([x; y], (v, (s, (w, g))))) => Some (mkDecisionReceipt a x y b c d v s w e g)
      | _ => None
      end)). by intros [].
Defined.

Definition policy : PyPolicySnapshot := mkPyPolicySnapshot audit_policy.
Definition request (n : Z) : PyKernelInput := input_to_py (audit_input n).
Definition decision (n : Z) : PyKernelDecision := decision_to_py (prescribe audit_policy (audit_input n)).
Definition key : option (list Z) := Some (replicate 32 9).
Definition opened : PyAuditedWal := mkPyAuditedWal (Some (mkWalWriter [] 0 "genesis" key false)) [].
Definition calls : list wcall :=
  [WAppend Written (request 1) (decision 1) "0"; WFlush true; WAppend Written (request 2) (decision 1) "1";
   WAppend Written (request 2) (decision 2) "11"].
Abbreviation written := (wal_program policy calls opened).

Lemma python_log_verifies_witness :
  length (fst written) = 2%nat /\
  replay_verify_audited_wal (aw_contents (snd written)) policy key 100000 268435456 =
  Ok (map (fun m => verdict_to_dict (mkWalReplayVerdict m true true true true))
        (seqZ 1 (Z.of_nat (length (fst written))))).
Proof.
  split; [vm_compute; reflexivity|].
  refine (proj2 (proj2 (proj2
    (python_log_verifies policy key opened calls (fst written) (snd written) 100000 268435456 _ _ _ _ _ _)))).
  - vm_compute. reflexivity.
  - vm_compute. reflexivity.
  - by_compute.
  - apply surjective_pairing.
  - vm_compute. discriminate.
  - vm_compute. discriminate.
Defined.

Definition metadata_3 : Value := match value_of_text "101" with Some v => v | None => xH end.
Definition record_3 : AuditedRecord Value :=
  mkAuditedRecord (audit_bundle audit_policy (audit_input 3) (prescribe audit_policy (audit_input 3))) (audit_input 3)
    (prescribe audit_policy (audit_input 3)) metadata_3.

Lemma python_session_verifies_witness :
  exists e r public t, fst (PyAuditedWal_append_verified Written policy (request 3) (decision 3) "101" (snd written)) = Ok e /\
    PyDecisionReceipt_verify_full r policy (request 3) (decision 3) public
      (PyReceiptState_from_transition t) (PyWalEntry_receipt_anchor e) = Ok tt.
Proof.
  destruct (to_json record_3) as [j|x] eqn:Ej; [|vm_compute in Ej; discriminate Ej].
  destruct (python_session_verifies policy key opened calls (fst written) (snd written) [0] [[1]; [2]] [3]
              (request 3) "101" metadata_3 j (replicate 32 5) "officer" 1000)
    as (d & t & c & e & a' & public & r & r' & Hd & _ & He & _ & _ & _ & Hv & _).
  - vm_compute. reflexivity.
  - vm_compute. reflexivity.
  - by_compute.
  - by_compute.
  - apply surjective_pairing.
  - vm_compute. reflexivity.
  - vm_compute. reflexivity.
  - vm_compute. reflexivity.
  - exact Ej.
  - reflexivity.
  - assert (PyPolicySnapshot_prescribe policy (request 3) = Ok (decision 3)) as E by (vm_compute; reflexivity).
    rewrite E in Hd. apply Ok_inj in Hd. subst d. exists e, r', public, t. split; [exact (f_equal fst He)|exact Hv].
Defined.

Lemma anchor_guards_exact_witness :
  exists r, PyPolicySnapshot_issue_receipt policy (request 3) (decision 3)
    (Some (mkPyReceiptState (mkReceiptState 3 (bytes_to_hex (replicate 32 1)) (bytes_to_hex (replicate 32 2)))))
    (Some (mkPyReceiptWal (mkReceiptWal 5 (bytes_to_hex (replicate 32 3))))) = Ok r.
Proof.
  refine (proj2 (proj2 (anchor_guards_exact 3 (bytes_to_hex (replicate 32 1)) (bytes_to_hex (replicate 32 2)) 5
    (bytes_to_hex (replicate 32 3)) _ _)) policy (request 3) (decision 3) _ _ _ _ _);
    [by_compute|by_compute|vm_compute; reflexivity..].
Defined.
End Session.
